(* ===== verification/_CoqProject ===== *)
-Q . S2P
Prelude.v
Algorithm.v
Bitset.v
Bloom.v
Uuid.v
Queue.v
DList.v
Hashmap.v
Vector.v
Rollbacker.v
Lrucache.v
Mst.v
MstMin.v
Topology.v
Router.v
Vm.v
Predicate.v
Lmdb.v
Memdb.v
Session.v
Pset.v
Enumerator.v
Trlog.v
Metainf.v
Binn.v
Action.v
Ops.v
Types.v
Serialization.v
Slice.v
Rowdata.v
Tables.v
Tablespace.v
Ebus.v
Threadpool.v
Syncerlog.v
Committer.v
Msg.v
Dispatcher.v
Messages.v
User.v
Fetcher.v
FetcherThreads.v
Client.v
P2pmsg.v
Exchange.v
Nodes.v
Tracker.v
Flooding.v
Peer.v
Netaddr.v
Chaman.v
Conman.v
