(* ===== verification/Prelude.v ===== *)
(** * MedvedDB: a verification library for the database

    MedvedDB is a distributed database.  A node keeps its tables in LMDB files and
    records every change in a transaction log, which is applied to the tables and sent
    to the other nodes; it knows the topology of the network, routes messages along a
    spanning tree of it, serves clients over a binary protocol, and filters rows with a
    small stack machine.  This library translates the C sources that carry this logic
    into Rocq and proves what they are meant to do.

    ** Layers and files

    Containers and algorithms (src/mdv_platform/generic):
    - [Algorithm]: mdv_algorithm.c;  [Bitset]: mdv_bitset.c;  [Bloom]: mdv_hash.c and
      mdv_bloom.c;  [Queue]: mdv_queue.c;  [DList]: mdv_list.c, on an explicit heap;
      [Hashmap]: mdv_hashmap.c;  [Vector]: mdv_vector.c;
    - [Mst], [MstMin]: mdv_mst.c, spanning trees by Boruvka's algorithm; the second
      file proves that the weight is minimal.

    Platform services (src/mdv_platform):
    - [Uuid]: mdv_uuid.c and src/mdv_types/mdv_objid.c;  [Rollbacker]:
      mdv_rollbacker.c, the stack of clean-up calls of the constructors;  [Lrucache]:
      mdv_lrucache.c, on [Hashmap] and [DList];
    - [Topology]: mdv_topology.c;  [Router]: mdv_router.c, on [Topology], [Hashmap] and
      [Mst];  [Vm]: mdv_vm.c and mdv_stack.h, the machine of filters;
    - [Binn]: the interface of the binn library and mdv_binn.c;  [Ebus]: mdv_ebus.c and
      mdv_queuefd.c, the bus of events;  [Threadpool]: mdv_threadpool.c and the interest
      lists of mdv_epoll.c.

    Types and storage (src/mdv_types, src/mdv_storage, src/mdv_core/storage):
    - [Types]: data, fields, tables, row sets;  [Serialization]: mdv_serialization.c;
      [Predicate]: mdv_predicate.c;  [Ops]: the operators scan, range, select and project;
    - [Lmdb]: mdv_lmdb.c, references, transactions and maps over LMDB;  [Memdb]: an
      LMDB in memory, which shows that the assumptions can hold;  [Session]: the
      discipline of references and transactions that the storages share;
    - [Pset]: mdv_2pset.c, the two-phase set of objects;  [Enumerator]: its
      enumerators;  [Trlog]: mdv_trlog.c, the transaction log;  [Metainf]: mdv_metainf.c;
    - [Slice], [Rowdata], [Tables]: rows and tables kept in two-phase sets, and the pages
      of views;  [Tablespace]: mdv_tablespace.c, the tables with their logs.

    Network and service (src/mdv_net, src/mdv_api, src/mdv_core):
    - [Msg]: frames and reads and writes of descriptors;  [Dispatcher]:
      mdv_dispatcher.c, requests and responses between threads;  [Messages] and
      [P2pmsg]: the documents of clients and of nodes;  [Exchange]: both over a
      connection;  [Netaddr]: mdv_netaddr.c;  [Chaman]: mdv_chaman.c, the manager of
      channels;
    - [User]: mdv_user.c, the session of a client;  [Fetcher]: mdv_fetcher.c, views and
      their jobs;  [FetcherThreads]: its handlers and jobs cut into the steps of threads;
      [Client]: the client library of src/mdv_api with the service behind
      it;
    - [Nodes]: the storage of nodes;  [Tracker]: mdv_tracker.c, the links of the
      network;  [Flooding]: networks of trackers;  [Peer]: mdv_peer.c, the connection to
      another node;  [Conman]: mdv_conman.c, which dials the nodes;
    - [Syncerlog]: mdv_syncerlog.c, a log on its way to a peer;  [Committer]:
      mdv_committer.c, a log on its way to the tables.

    [Action] is the monad in which the larger components are written.

    ** How the code is represented

    A definition has the name of the C function it translates; loops are recursive
    functions beside it.  Structures are records, pointers are indices, addresses of an
    explicit heap or options (a null pointer is [None]).  Machine integers are [Z] with
    the wrap-around written out ([wrap], [u32], [u64]) where it can matter.  A read
    outside an array, an access to a freed object, and the second close of a descriptor
    are the outcome [OutOfBounds]; a loop that is not bounded by its data is run with
    fuel and gives [OutOfFuel] when that is not enough (type [outcome] below).  So a
    theorem about a result [Done] also says that the accesses are valid and that the loop
    ends.  Whether an allocation or a call of the system succeeds is an argument of the
    definition, or an answer of the stream that an [action] consumes; theorems hold for
    every answer unless they assume [granted].  The predicate [wp] says that a
    computation ends, and describes its result and state.

    Components whose threads share counters are step relations: [Dispatcher] (senders and
    the reader of a connection), [Syncerlog] and [Committer] (atomic steps of the
    threads, messages and jobs), [Flooding] (delivery of messages in any order),
    [FetcherThreads] (sections under the mutex and changes of counters), [Fetcher] and
    [Chaman] (executions of whole handlers from the creation on).  Their
    theorems are proved by induction on executions.

    ** Interfaces and parameters

    Code outside the repository's own sources is a parameter with laws: the sorting
    function of the C library; the binn library (classes [Binn] and [BinnLaws]); LMDB
    ([Mdb], [MdbCursor], [MdbEnv] with their laws, and [Memdb] as the instance); the
    resolver of names in [Netaddr].  Components meet at classes: [HashKey] and
    [HashKeyOk] for the keys of maps, [OpRefines] for the operators of the machine,
    [IEnumerator] and [IView] for enumerators and views, [Protocol] and [ProtocolOk] for
    the documents of a protocol, [Translog] and [TranslogLaws] for the log of the
    synchronizer and the committer, [Core] and [Views] for what the sessions and the
    fetcher need of the storages, [Remote] for the connection of a client, [Channels] and
    [ChannelsLaws] for what the manager of channels needs of its user.

    Fuel: the growth loop of a vector gets 64 rounds, as a 64-bit capacity doubles at most
    that often; the spanning tree one round more than there are nodes, as every round but
    the last joins two trees; the machine one round per instruction, or one per byte for
    arbitrary bytes; a linked list one round more than the heap has cells; reads and
    writes of a connection one round per answer of the system and byte; the application
    of a log one round per batch.  The theorems prove that this is enough.

    ** What the theorems show

    - Clients: the rows a client selects are those of the table, page by page; the
      calls of the client library are equivalent to calls of the storages behind the
      service; views are not used after they are released, however the threads of the
      fetcher are interleaved.
    - Tables: what is inserted is read back through the log; the application of a log
      refines the insertion of its operations; a table space that is opened again has
      what it had, and applies what was pending in a log once the log is opened.
    - Nodes: a connection relays the events of a node; an interrupted link becomes known
      to every node that is still connected, and the messages about it end; the tracker
      follows the links, as long as its local numbers are unique; the synchronization of
      a log brings the peer every operation if nothing fails and no addition is
      interrupted, it ends, and no range is claimed twice; the committer applies a log
      up to its end if nothing fails; the manager of channels loses and duplicates no
      descriptor and no channel while its mutexes can be locked; the nodes without a link
      are dialed.
    - Services: the bus refines a list of subscribers and queues; requests get their
      responses, as long as the numbers of pending requests do not come round.
    - Storage: additions to the two-phase set and to the log are atomic; rows and
      documents survive a round trip; views have all rows, once.
    - Containers, trees and machine: refinement of finite maps, lists and bounded
      queues; spanning trees of minimum weight (for weights below [2^31]) and routes on
      them; the interpreter
      refines an abstract machine and ends on any bytes.
    - Defects: theorems that exhibit a behaviour the code does not intend, such as an
      address that is given up after one failed attempt to connect, a commit that is
      left without a job, a job of the fetcher that waits for itself, a race by which an
      operation is never sent, numbers of nodes that collide after a restart, and numbers
      of requests that come round while one is pending.
    The doc comment of each theorem states its conditions.

    ** What is not modelled

    System calls on sockets, files, timers and threads; files and pages of the paginator;
    the B-tree, which the source leaves unfinished; the start of the service, its
    configuration, the command-line client and the bindings; the constructors of event
    records; generated and third-party code (the SQL lexer and parser, LMDB, binn, LZ4,
    the cryptographic libraries).  The maps of synchronizers per peer (mdv_syncer.c,
    mdv_syncerino.c) and the queues of jobs (mdv_jobber.c) are described by the step
    relations of their users only.  Handlers of the manager of channels are run one after
    the other, and a page of a view is read in one step; the memory model of C is not part of the library. *)

From stdpp Require Export prelude gmap sorting.
From Stdlib Require Export ZArith Lia.

#[global] Arguments Nat.div : simpl never.
#[global] Arguments Nat.modulo : simpl never.
#[global] Arguments Z.shiftl : simpl never.
#[global] Arguments Z.shiftr : simpl never.
#[global] Arguments Z.pow : simpl never.

(** ** Machine integers *)

(** Wrap-around of an unsigned [w]-bit integer. *)
Definition wrap (w z : Z) : Z := z mod 2 ^ w.

Abbreviation u8 := (wrap 8).
Abbreviation u16 := (wrap 16).
Abbreviation u32 := (wrap 32).
Abbreviation u64 := (wrap 64).

(** Two's complement reading of a [w]-bit pattern. *)
Definition swrap (w z : Z) : Z := (z + 2 ^ (w - 1)) mod 2 ^ w - 2 ^ (w - 1).

Abbreviation i8 := (swrap 8).
Abbreviation i16 := (swrap 16).
Abbreviation i32 := (swrap 32).
Abbreviation i64 := (swrap 64).

(** [z] is representable in [w] unsigned bits. *)
Definition fits (w z : Z) : Prop := (0 <= z < 2 ^ w)%Z.

Lemma wrap_fits w z : (0 <= w)%Z -> fits w (wrap w z).
Proof. intros ?. apply Z.mod_pos_bound. apply Z.pow_pos_nonneg; lia. Qed.

Lemma wrap_id w z : fits w z -> wrap w z = z.
Proof. apply Z.mod_small. Qed.

Lemma wrap_wrap w z : wrap w (wrap w z) = wrap w z.
Proof. apply Zmod_mod. Qed.

(** ** Error codes (src/mdv_platform/mdv_errno.h) *)

Inductive mdv_errno :=
| MDV_OK | MDV_FALSE | MDV_FAILED | MDV_INVALID_ARG | MDV_INVALID_TYPE | MDV_ENOENT | MDV_EAGAIN
| MDV_CLOSED | MDV_EEXIST | MDV_NO_MEM | MDV_INPROGRESS | MDV_ETIMEDOUT | MDV_BUSY | MDV_NO_IMPL
| MDV_STACK_OVERFLOW.

#[global] Instance mdv_errno_eq_dec : EqDecision mdv_errno.
Proof. solve_decision. Defined.

(** ** Outcomes of a C computation

    A loop is run with fuel; a read outside an array is an outcome of its own,
    so that a theorem about a result also says that no such read happened. *)

Inductive outcome (A : Type) : Type :=
| Done (a : A)
| OutOfBounds (i : Z)
| OutOfFuel.
Arguments Done {A} _.
Arguments OutOfBounds {A} _.
Arguments OutOfFuel {A}.

#[export] Instance outcome_ret : MRet outcome := fun A => @Done A.
#[export] Instance outcome_bind : MBind outcome := fun A B f m =>
  match m with
  | Done a => f a
  | OutOfBounds i => OutOfBounds i
  | OutOfFuel => OutOfFuel
  end.

(** [l[i]] *)
Definition read {A} (l : list A) (i : nat) : outcome A :=
  match l !! i with Some x => Done x | None => OutOfBounds (Z.of_nat i) end.

Lemma read_Done {A} (l : list A) i x : l !! i = Some x -> read l i = Done x.
Proof. unfold read. by intros ->. Qed.

Lemma read_inv {A} (l : list A) i x : read l i = Done x -> l !! i = Some x.
Proof. unfold read. destruct (l !! i); congruence. Qed.

Lemma bind_inv {A B} (m : outcome A) (f : A -> outcome B) b :
  m ≫= f = Done b -> exists a, m = Done a /\ f a = Done b.
Proof. destruct m; [eauto|done..]. Qed.

(** The computation ends, and [Q] holds of its result if it makes no read
    outside an array. *)
Definition ends {A} (o : outcome A) (Q : A -> Prop) : Prop :=
  match o with Done a => Q a | OutOfBounds _ => True | OutOfFuel => False end.

Lemma ends_bind {A B} (o : outcome A) (f : A -> outcome B) Q :
  ends o (fun a => ends (f a) Q) -> ends (o ≫= f) Q.
Proof. by destruct o. Qed.

Lemma ends_mono {A} (o : outcome A) (P Q : A -> Prop) : ends o P -> (forall a, P a -> Q a) -> ends o Q.
Proof. destruct o; simpl; auto. Qed.

(** A pointer that must not be null. *)
Definition deref {A} (p : option A) : outcome A :=
  match p with Some a => Done a | None => OutOfBounds (-1) end.

(** Array access at a signed index, as pointer arithmetic gives it. *)
Definition lookupZ {A} (l : list A) (i : Z) : option A :=
  if (i <? 0)%Z then None else l !! Z.to_nat i.

Lemma lookupZ_nat {A} (l : list A) (i : nat) : lookupZ l (Z.of_nat i) = l !! i.
Proof. unfold lookupZ. destruct (Z.ltb_spec (Z.of_nat i) 0); [lia|]. by rewrite Nat2Z.id. Qed.

Lemma lookupZ_Some {A} (l : list A) i x :
  lookupZ l i = Some x -> (0 <= i < Z.of_nat (length l))%Z.
Proof.
  unfold lookupZ. destruct (Z.ltb_spec i 0); [done|].
  intros ?%lookup_lt_Some. lia.
Qed.

Lemma lookupZ_is_Some {A} (l : list A) i :
  (0 <= i < Z.of_nat (length l))%Z -> is_Some (lookupZ l i).
Proof.
  intros ?. unfold lookupZ. destruct (Z.ltb_spec i 0); [lia|].
  apply lookup_lt_is_Some. lia.
Qed.

(** ** Copies inside an array *)

(** [memcpy dst off src]: write [src] into [dst] from index [off] on. *)
Definition memcpy {A} (dst : list A) (off : nat) (src : list A) : list A :=
  take off dst ++ src ++ drop (off + length src) dst.

(** The [n] cells of [l] from index [off] on. *)
Definition slice {A} (l : list A) (off n : nat) : list A := take n (drop off l).

Lemma length_memcpy {A} (dst src : list A) off :
  off + length src <= length dst -> length (memcpy dst off src) = length dst.
Proof. intros. unfold memcpy. rewrite !length_app, length_take, length_drop. lia. Qed.

Lemma length_slice {A} (l : list A) off n :
  off + n <= length l -> length (slice l off n) = n.
Proof. intros. unfold slice. rewrite length_take, length_drop. lia. Qed.

Lemma lookup_memcpy_inside {A} (dst src : list A) off i :
  off + length src <= length dst -> i < length src ->
  memcpy dst off src !! (off + i) = src !! i.
Proof.
  intros. unfold memcpy. rewrite lookup_app_r; rewrite length_take; [|lia].
  rewrite lookup_app_l by lia. f_equal. lia.
Qed.

Lemma lookup_memcpy_outside {A} (dst src : list A) off i :
  off + length src <= length dst -> i < off \/ off + length src <= i ->
  memcpy dst off src !! i = dst !! i.
Proof.
  intros ? [?|?]; unfold memcpy.
  - rewrite lookup_app_l by (rewrite length_take; lia). by rewrite lookup_take_lt by lia.
  - rewrite lookup_app_r; rewrite length_take; [|lia].
    rewrite lookup_app_r by lia. rewrite lookup_drop. f_equal. lia.
Qed.

Lemma lookup_slice {A} (l : list A) off n i :
  i < n -> slice l off n !! i = l !! (off + i).
Proof. intros. unfold slice. rewrite lookup_take_lt by lia. by rewrite lookup_drop. Qed.

(** Take a successful monadic computation apart. *)
Ltac inv_bind :=
  repeat match goal with
  | H : _ ≫= _ = Done _ |- _ =>
      let x := fresh "x" in let E := fresh "E" in apply bind_inv in H as (x & E & H)
  | H : read _ _ = Done _ |- _ => apply read_inv in H
  | H : Done _ = Done _ |- _ => injection H as H
  end.

Create Rewrite HintDb mdv_len.

#[export] Hint Rewrite @length_app @length_take @length_drop @length_insert
  @length_replicate @length_fmap : mdv_len.

(** Reduce a goal about lengths to linear arithmetic. *)
Ltac len := autorewrite with mdv_len in *; simpl in *; lia.

(** Case analysis on the boolean comparisons of [Z] and [nat] in the goal. *)
Ltac case_cmp :=
  match goal with
  | |- context [(?a <? ?b)%Z] => destruct (Z.ltb_spec a b)
  | |- context [(?a <=? ?b)%Z] => destruct (Z.leb_spec a b)
  | |- context [(?a =? ?b)%Z] => destruct (Z.eqb_spec a b)
  | |- context [(?a <? ?b)] => destruct (Nat.ltb_spec a b)
  | |- context [(?a <=? ?b)] => destruct (Nat.leb_spec a b)
  | |- context [(?a =? ?b)] => destruct (Nat.eqb_spec a b)
  end.

(** ** Filters *)

Lemma filter_ext_in {A} (P Q : A -> Prop) `{!forall x, Decision (P x), !forall x, Decision (Q x)} (l : list A) :
  (forall x, x ∈ l -> P x <-> Q x) -> filter P l = filter Q l.
Proof.
  induction l as [|x l IH]; intros HPQ; [done|]. rewrite !filter_cons, IH by (intros; apply HPQ; by right).
  pose proof (HPQ x ltac:(by left)). destruct (decide (P x)), (decide (Q x)); tauto.
Qed.

Lemma filter_all {A} (P : A -> Prop) `{!forall x, Decision (P x)} (l : list A) :
  (forall x, x ∈ l -> P x) -> filter P l = l.
Proof.
  induction l as [|x l IH]; intros HP; [done|].
  rewrite filter_cons_True by set_solver. f_equal. set_solver.
Qed.

(** ** Bits *)

Lemma land_shiftr_1 w o :
  (0 <= o)%Z -> Z.land (Z.shiftr w o) 1 = Z.b2z (Z.testbit w o).
Proof.
  intros. change 1%Z with (Z.ones 1). rewrite Z.land_ones by lia.
  rewrite <- Z.bit0_mod, Z.shiftr_spec by lia. by rewrite Z.add_0_l.
Qed.

Lemma testbit_one_shifted o i :
  (0 <= o)%Z -> (0 <= i)%Z -> Z.testbit (Z.shiftl 1 o) i = (i =? o)%Z.
Proof.
  intros. rewrite Z.shiftl_spec by lia. destruct (Z.eqb_spec i o) as [->|].
  - by rewrite Z.sub_diag.
  - destruct (decide (i < o)%Z); [by rewrite Z.testbit_neg_r by lia|].
    apply Z.bits_above_log2; simpl; lia.
Qed.

(** A nonnegative integer fits in [w] bits iff it has no bit from [w] on. *)
Lemma fits_bits w z :
  (0 <= w)%Z -> (0 <= z)%Z -> (forall i, (w <= i)%Z -> Z.testbit z i = false) -> fits w z.
Proof.
  intros Hw Hz Hb. split; [done|]. destruct (decide (z = 0)%Z) as [->|].
  { apply Z.pow_pos_nonneg; lia. }
  apply Z.log2_lt_pow2; [lia|]. destruct (Z.le_gt_cases w (Z.log2 z)) as [Hle|]; [|done].
  specialize (Hb _ Hle). rewrite Z.bit_log2 in Hb by lia. done.
Qed.

Lemma fits_testbit_high w z i : fits w z -> (w <= i)%Z -> (0 <= w)%Z -> Z.testbit z i = false.
Proof.
  intros [H0 H1] Hi Hw. destruct (decide (z = 0)%Z) as [->|]; [apply Z.bits_0|].
  apply Z.bits_above_log2; [lia|]. apply Z.log2_lt_pow2; [lia|].
  eapply Z.lt_le_trans; [done|]. apply Z.pow_le_mono_r; lia.
Qed.

Lemma fits_lor w a b : (0 <= w)%Z -> fits w a -> fits w b -> fits w (Z.lor a b).
Proof.
  intros Hw Ha Hb. apply fits_bits; [done|apply Z.lor_nonneg; split; [apply Ha|apply Hb]|].
  intros i Hi. by rewrite Z.lor_spec, !(fits_testbit_high w) by done.
Qed.

Lemma fits_lxor w a b : (0 <= w)%Z -> fits w a -> fits w b -> fits w (Z.lxor a b).
Proof.
  intros Hw Ha Hb. apply fits_bits; [done|apply Z.lxor_nonneg; destruct Ha, Hb; tauto|].
  intros i Hi. by rewrite Z.lxor_spec, !(fits_testbit_high w) by done.
Qed.

Lemma fits_land w a b : (0 <= w)%Z -> fits w a -> (0 <= b)%Z -> fits w (Z.land a b).
Proof.
  intros Hw Ha Hb. apply fits_bits; [done|apply Z.land_nonneg; destruct Ha; tauto|].
  intros i Hi. by rewrite Z.land_spec, (fits_testbit_high w a) by done.
Qed.

Lemma fits_shiftr w a n : (0 <= n)%Z -> fits w a -> fits w (Z.shiftr a n).
Proof.
  intros Hn [H0 H1]. rewrite Z.shiftr_div_pow2 by done.
  assert (0 < 2 ^ n)%Z by (apply Z.pow_pos_nonneg; lia).
  split; [by apply Z.div_pos|]. eapply Z.le_lt_trans; [|exact H1].
  apply Z.div_le_upper_bound; [done|]. nia.
Qed.

(** Widths of the results of bit operations. *)
Create HintDb mdv.

#[export] Hint Resolve wrap_fits fits_lor fits_lxor fits_land fits_shiftr : mdv.

(** ** Reference counters

    [atomic_fetch_add] and [atomic_fetch_sub] on an [atomic_uint_fast32_t]
    (64 bits wide); a release yields the new count cut to 32 bits and whether
    the destructor runs. *)

Definition rc_retain (rc : Z) : Z := u64 (rc + 1).
Definition rc_release (rc : Z) : Z * Z * bool :=
  let rc' := u64 (rc - 1) in (rc', u32 rc', (u32 rc' =? 0)%Z).

(** ** Little-endian integers in memory *)

Definition is_byte (b : Z) : Prop := fits 8 b.

Lemma is_byte_bound b : is_byte b -> (0 <= b < 256)%Z.
Proof. done. Qed.

Fixpoint to_le (n : nat) (z : Z) : list Z :=
  match n with
  | 0 => []
  | S n => (z mod 256)%Z :: to_le n (z / 256)
  end.

Fixpoint of_le (l : list Z) : Z :=
  match l with
  | [] => 0
  | b :: l => b + 256 * of_le l
  end.

Lemma length_to_le n z : length (to_le n z) = n.
Proof. revert z. induction n; intros; simpl; auto. Qed.

Lemma to_le_bytes n z : Forall is_byte (to_le n z).
Proof.
  revert z. induction n; intros z; simpl; constructor; auto.
  apply (Z.mod_pos_bound z 256). lia.
Qed.

Lemma of_le_bound l :
  Forall is_byte l -> (0 <= of_le l < 256 ^ Z.of_nat (length l))%Z.
Proof.
  induction 1 as [|b l Hb _ IH]; simpl of_le; simpl length; [by rewrite Z.pow_0_r|].
  rewrite Nat2Z.inj_succ, Z.pow_succ_r by lia. apply is_byte_bound in Hb. lia.
Qed.

Lemma of_to_le n z : of_le (to_le n z) = (z mod 256 ^ Z.of_nat n)%Z.
Proof.
  revert z. induction n as [|n IH]; intros z; simpl to_le; simpl of_le.
  { by rewrite Z.pow_0_r, Z.mod_1_r. }
  rewrite IH, Nat2Z.inj_succ, Z.pow_succ_r by lia.
  pose proof (Z.pow_pos_nonneg 256 (Z.of_nat n)).
  rewrite Z.rem_mul_r by lia. lia.
Qed.

Lemma to_of_le l : Forall is_byte l -> to_le (length l) (of_le l) = l.
Proof.
  induction 1 as [|b l Hb _ IH]; [done|]. simpl. apply is_byte_bound in Hb.
  f_equal.
  - rewrite (Z.mul_comm 256), Z_mod_plus_full. apply Z.mod_small. lia.
  - etrans; [|exact IH]. f_equal. rewrite (Z.mul_comm 256), Z.div_add, Z.div_small by lia. lia.
Qed.

Lemma to_le_period n z k : to_le n (z + k * 256 ^ Z.of_nat n) = to_le n z.
Proof.
  revert z. induction n as [|n IH]; intros z; [done|]. cbn [to_le].
  replace (z + k * 256 ^ Z.of_nat (S n))%Z with (z + (k * 256 ^ Z.of_nat n) * 256)%Z
    by (rewrite Nat2Z.inj_succ, Z.pow_succ_r by lia; lia).
  by rewrite Z_mod_plus_full, Z.div_add, IH by lia.
Qed.

Lemma swrap_bounds w z : (0 < w)%Z -> (- 2 ^ (w - 1) <= swrap w z < 2 ^ (w - 1))%Z.
Proof.
  intros Hw. unfold swrap. assert (2 ^ w = 2 * 2 ^ (w - 1))%Z as E by (rewrite <- Z.pow_succ_r by lia; f_equal; lia).
  assert (0 < 2 ^ (w - 1))%Z by (apply Z.pow_pos_nonneg; lia).
  pose proof (Z.mod_pos_bound (z + 2 ^ (w - 1)) (2 ^ w) ltac:(lia)). lia.
Qed.

Lemma swrap_id w z : (0 < w)%Z -> (- 2 ^ (w - 1) <= z < 2 ^ (w - 1))%Z -> swrap w z = z.
Proof.
  intros Hw Hz. unfold swrap. assert (2 ^ w = 2 * 2 ^ (w - 1))%Z as E by (rewrite <- Z.pow_succ_r by lia; f_equal; lia).
  rewrite Z.mod_small by lia. lia.
Qed.

Lemma wrap_swrap w z : (0 <= w)%Z -> wrap w (swrap w z) = wrap w z.
Proof.
  intros Hw. unfold wrap, swrap. rewrite Zminus_mod, Zmod_mod, <- Zminus_mod. f_equal. lia.
Qed.

(** The bytes of a number do not depend on how its bits are read. *)
Lemma to_le_swrap n z : to_le n (swrap (8 * Z.of_nat n) z) = to_le n z.
Proof.
  rewrite <- (to_le_period n z (- ((z + 2 ^ (8 * Z.of_nat n - 1)) / 2 ^ (8 * Z.of_nat n)))). f_equal. unfold swrap.
  pose proof (Z_div_mod_eq_full (z + 2 ^ (8 * Z.of_nat n - 1)) (2 ^ (8 * Z.of_nat n))) as E.
  assert (256 ^ Z.of_nat n = 2 ^ (8 * Z.of_nat n))%Z as -> by (change 256%Z with (2 ^ 8)%Z; by rewrite <- Z.pow_mul_r by lia).
  lia.
Qed.

Lemma of_to_le_id n z : (0 <= z < 256 ^ Z.of_nat n)%Z -> of_le (to_le n z) = z.
Proof. intros. rewrite of_to_le. by apply Z.mod_small. Qed.

(** ** Sequences of numbered items in ascending order *)

Definition ascending {A} (l : list (Z * A)) : Prop := StronglySorted (fun a b => (a.1 < b.1)%Z) l.

Section Ascending.
Context {A : Type}.
Implicit Types (l : list (Z * A)).

Lemma ascending_ext l1 l2 : ascending l1 -> ascending l2 -> (forall x, x ∈ l1 <-> x ∈ l2) -> l1 = l2.
Proof.
  intros H1 H2 Hx. eapply (StronglySorted_unique_strong _ l1 l2); [|exact H1|exact H2|].
  - intros x1 x2 _ _ Ha Hb. cbn in Ha, Hb. lia.
  - assert (forall l, ascending l -> NoDup l) as Hnd.
    { induction 1 as [|x l _ IH Hx']; constructor; [|done]. intros Hin. rewrite Forall_forall in Hx'. specialize (Hx' _ Hin). cbn in Hx'. lia. }
    apply NoDup_Permutation; auto.
Qed.

Lemma ascending_filter (P : Z * A -> Prop) `{!forall x, Decision (P x)} l : ascending l -> ascending (filter P l).
Proof.
  induction 1 as [|x l _ IH Hx]; [constructor|]. rewrite filter_cons. case_decide; [|done].
  constructor; [done|]. rewrite Forall_forall in *. intros y [_ Hy]%list_elem_of_filter. auto.
Qed.

(** A suffix from a number on. *)
Lemma ascending_suffix l (pos : Z) :
  ascending l -> exists l', l = l' ++ filter (fun x => (pos <= x.1)%Z) l /\ Forall (fun x => (x.1 < pos)%Z) l'.
Proof.
  induction 1 as [|x l Hl IH Hx]; [by exists []|]. destruct IH as (l' & Hl' & Hf). rewrite filter_cons. case_decide as Hp.
  - exists []. split; [|done]. simpl. f_equal. symmetry. apply filter_all. rewrite Forall_forall in Hx.
    intros y Hy. specialize (Hx y Hy). cbn in Hx. lia.
  - exists (x :: l'). split; [simpl; by f_equal|]. constructor; [lia|done].
Qed.

(** What follows the last item of a prefix. *)
Lemma ascending_after l c o :
  ascending l -> last (take c l) = Some o -> filter (fun x => (o.1 + 1 <= x.1)%Z) l = drop c l.
Proof.
  intros Hl. revert c. induction Hl as [|x l Hl IH Hx]; intros [|c]; cbn [take drop]; try done.
  rewrite last_cons, filter_cons. rewrite Forall_forall in Hx. destruct (last (take c l)) as [y|] eqn:E; intros [= <-].
  - rewrite decide_False; [by apply IH|]. apply last_Some_elem_of, elem_of_take in E as (i & Hi & _).
    apply list_elem_of_lookup_2, Hx in Hi. cbn in Hi. lia.
  - rewrite decide_False by lia. apply last_None in E. assert (filter (fun y => (x.1 + 1 <= y.1)%Z) l = l) as ->.
    { apply filter_all. intros y Hy%Hx. cbn in Hy. lia. }
    destruct c; [by rewrite drop_0|]. destruct l; [done|]. discriminate E.
Qed.

End Ascending.

(** The items of a map by their number. *)
Definition number_le {A} (a b : Z * A) : Prop := (a.1 <= b.1)%Z.

#[export] Instance number_le_dec {A} : RelDecision (@number_le A).
Proof. intros a b. unfold number_le. apply _. Defined.

#[export] Instance number_le_total {A} : Total (@number_le A).
Proof. intros a b. unfold number_le. lia. Qed.

#[export] Instance number_le_trans {A} : Transitive (@number_le A).
Proof. intros a b c. unfold number_le. lia. Qed.

Definition in_order {A} (m : gmap Z A) : list (Z * A) := merge_sort number_le (map_to_list m).

Lemma elem_of_in_order {A} (m : gmap Z A) i x : (i, x) ∈ in_order m <-> m !! i = Some x.
Proof. unfold in_order. by rewrite merge_sort_Permutation, elem_of_map_to_list. Qed.

Lemma in_order_ascending {A} (m : gmap Z A) : ascending (in_order m).
Proof.
  unfold in_order, ascending. pose proof (StronglySorted_merge_sort number_le (map_to_list m)) as Hs.
  assert (NoDup (merge_sort number_le (map_to_list m)).*1) as Hnd
    by (rewrite merge_sort_Permutation; apply NoDup_fst_map_to_list).
  induction Hs as [|x l _ IH Hx]; [constructor|]. apply NoDup_cons in Hnd as [Hnx Hnd]. constructor; [auto|].
  rewrite Forall_forall in *. intros y Hy. specialize (Hx y Hy). unfold number_le in Hx.
  assert (x.1 <> y.1); [|lia]. intros He. apply Hnx. rewrite He. by apply list_elem_of_fmap_2.
Qed.

(** ** Options *)

Definition is_some {A} (o : option A) : bool := match o with Some _ => true | None => false end.

Lemma is_some_spec {A} (o : option A) : is_some o = true <-> is_Some o.
Proof. destruct o; simpl; split; eauto; done. Qed.

Lemma snoc_cases {A} (l : list A) : l = [] \/ exists l' x, l = l' ++ [x].
Proof. destruct l using rev_ind; eauto. Qed.
