(* ===== verification/Algorithm.v ===== *)
(** * Sorted-array algorithms (src/mdv_platform/generic/mdv_algorithm.c)

    Difference, union and in-place exclusion of sorted arrays, and the binary
    search [mdv_lower_bound].  Arrays are lists; a pair of indices that only
    moves forward is the pair of the remaining suffixes. *)

From S2P Require Import Prelude.

Module Algorithm.

(** The loop of [mdv_diff_u32]: [a] and [b] are the suffixes from [ai] and
    [bi]; the value is what is appended to [sets_diff]. *)
Fixpoint mdv_diff_u32 (a : list Z) : list Z -> list Z :=
  match a with
  | [] => fun _ => []
  | x :: a' =>
      fix on_b (b : list Z) : list Z :=
        match b with
        | [] => x :: a'
        | y :: b' =>
            if (x <? y)%Z then x :: mdv_diff_u32 a' (y :: b')
            else if (x =? y)%Z then mdv_diff_u32 a' b'
            else on_b b'
        end
  end.

(** The loop of [mdv_union_u32], with the copy of the rest of [b] at its end. *)
Fixpoint mdv_union_u32 (a : list Z) : list Z -> list Z :=
  match a with
  | [] => fun b => b
  | x :: a' =>
      fix on_b (b : list Z) : list Z :=
        match b with
        | [] => x :: a'
        | y :: b' =>
            if (y <? x)%Z then y :: on_b b'
            else x :: (if (x =? y)%Z then mdv_union_u32 a' b'
                       else mdv_union_u32 a' (y :: b'))
        end
  end.

Section Exclude.
Context {A B : Type} (cmp : A -> B -> Z).

(** The loop of [mdv_exclude]: [arr] is the memory of [set_a], read at index
    [ra] ([set_a]) and overwritten at index [wa] ([set_out]); [rb] is the
    index of [set_b]. *)
Fixpoint mdv_exclude_loop (fuel : nat) (arr : list A) (ra wa : nat)
    (b : list B) (rb : nat) : outcome (list A * nat) :=
  match fuel with
  | 0 => OutOfFuel
  | S fuel =>
      match arr !! ra with
      | None => Done (arr, wa)                       (* set_a >= set_a_end *)
      | Some x =>
          match b !! rb with
          | None =>                                  (* set_b >= set_b_end *)
              mdv_exclude_loop fuel (memcpy arr wa [x]) (S ra) (S wa) b rb
          | Some y =>
              if (cmp x y <? 0)%Z
              then mdv_exclude_loop fuel (memcpy arr wa [x]) (S ra) (S wa) b rb
              else if (cmp x y =? 0)%Z
              then mdv_exclude_loop fuel arr (S ra) wa b (S rb)
              else mdv_exclude_loop fuel arr ra wa b (S rb)
          end
      end
  end.

(** [mdv_exclude]: the new content of the array and the returned size. *)
Definition mdv_exclude (a : list A) (b : list B) : outcome (list A * Z) :=
  match mdv_exclude_loop (S (length a + length b)) a 0 0 b 0 with
  | Done (arr, n) => Done (arr, u32 (Z.of_nat n))
  | OutOfBounds i => OutOfBounds i
  | OutOfFuel => OutOfFuel
  end.

(** The same computation without the aliasing: the surviving elements of the
    two suffixes. *)
Fixpoint exclude_list (a : list A) : list B -> list A :=
  match a with
  | [] => fun _ => []
  | x :: a' =>
      fix on_b (b : list B) : list A :=
        match b with
        | [] => x :: a'
        | y :: b' =>
            if (cmp x y <? 0)%Z then x :: exclude_list a' (y :: b')
            else if (cmp x y =? 0)%Z then exclude_list a' b'
            else on_b b'
        end
  end.
End Exclude.

Section LowerBound.
Context {K A : Type} (cmp : K -> A -> Z).

(** The loop of [mdv_lower_bound]; [a] and [b] are element indices. *)
Fixpoint mdv_lower_bound_loop (fuel : nat) (key : K) (arr : list A) (a b : Z)
  : outcome (option Z) :=
  match fuel with
  | 0 => OutOfFuel
  | S fuel =>
      if (a <? b)%Z then
        let n := (b - a)%Z in
        let c := (a + n / 2)%Z in
        match lookupZ arr c with
        | None => OutOfBounds c
        | Some x =>
            let diff := cmp key x in
            if (diff <? 0)%Z then mdv_lower_bound_loop fuel key arr a (c - 1)
            else if (0 <? diff)%Z then mdv_lower_bound_loop fuel key arr (c + 1) b
            else Done (Some c)
        end
      else
        match lookupZ arr b with
        | None => OutOfBounds b
        | Some x => Done (Some (if (0 <? cmp key x)%Z then b + 1 else b))%Z
        end
  end.

(** [Done None] is the null pointer, [Done (Some i)] the address of item [i]. *)
Definition mdv_lower_bound (key : K) (arr : list A) : outcome (option Z) :=
  match arr with
  | [] => Done None
  | _ => mdv_lower_bound_loop (S (length arr)) key arr 0 (Z.of_nat (length arr) - 1)
  end.
End LowerBound.

(** ** Difference and union *)

Abbreviation cnt := (count_occ Z.eq_dec).

Lemma cnt_cons x l z : cnt (x :: l) z = (if Z.eq_dec x z then 1 else 0) + cnt l z.
Proof. simpl. destruct (Z.eq_dec x z); lia. Qed.

(** A value below the head of a sorted array does not occur in it. *)
Lemma cnt_below_head x y l :
  (x < y)%Z -> StronglySorted Z.le (y :: l) -> cnt (y :: l) x = 0.
Proof.
  intros ? [_ Hl]%StronglySorted_inv. apply count_occ_not_In.
  rewrite Forall_forall in Hl. intros [->|Hin%list_elem_of_In]; [lia|].
  specialize (Hl x Hin). lia.
Qed.

(** Decide a counting goal about sorted arrays from the counts of the tails. *)
Ltac count_heads :=
  repeat match goal with
  | H : StronglySorted Z.le (?y :: ?l), Hlt : (?x < ?y)%Z |- _ =>
      pose proof (cnt_below_head x y l Hlt H); clear Hlt
  end;
  rewrite ?cnt_cons in *; repeat destruct (Z.eq_dec _ _); subst; try lia.

Lemma mdv_diff_u32_cons x a y b :
  mdv_diff_u32 (x :: a) (y :: b) =
    if (x <? y)%Z then x :: mdv_diff_u32 a (y :: b)
    else if (x =? y)%Z then mdv_diff_u32 a b
    else mdv_diff_u32 (x :: a) b.
Proof. done. Qed.

Lemma mdv_union_u32_cons x a y b :
  mdv_union_u32 (x :: a) (y :: b) =
    if (y <? x)%Z then y :: mdv_union_u32 (x :: a) b
    else x :: (if (x =? y)%Z then mdv_union_u32 a b else mdv_union_u32 a (y :: b)).
Proof. done. Qed.

Lemma mdv_diff_u32_Forall (P : Z -> Prop) a b :
  Forall P a -> Forall P (mdv_diff_u32 a b).
Proof.
  revert b. induction a as [|x a IHa]; intros b Ha; [constructor|].
  apply Forall_cons_1 in Ha as [Hx Ha].
  induction b as [|y b IHb]; [by constructor|].
  rewrite mdv_diff_u32_cons. repeat case_cmp; eauto.
Qed.

Lemma mdv_union_u32_Forall (P : Z -> Prop) a b :
  Forall P a -> Forall P b -> Forall P (mdv_union_u32 a b).
Proof.
  revert b. induction a as [|x a IHa]; intros b Ha Hb; [done|].
  induction b as [|y b IHb]; [done|].
  rewrite mdv_union_u32_cons. inversion Ha; inversion Hb; subst.
  repeat case_cmp; constructor; auto.
Qed.

Lemma mdv_diff_u32_sorted a b :
  StronglySorted Z.le a -> StronglySorted Z.le (mdv_diff_u32 a b).
Proof.
  revert b. induction a as [|x a IHa]; intros b Ha; [constructor|].
  pose proof Ha as [Ha' Hx]%StronglySorted_inv.
  induction b as [|y b IHb]; [done|].
  rewrite mdv_diff_u32_cons. repeat case_cmp; auto.
  constructor; [by apply IHa|]. by apply mdv_diff_u32_Forall.
Qed.

Lemma mdv_diff_u32_cnt a b z :
  StronglySorted Z.le a -> StronglySorted Z.le b ->
  cnt (mdv_diff_u32 a b) z = cnt a z - cnt b z.
Proof.
  revert b. induction a as [|x a IHa]; intros b Ha Hb; [done|].
  pose proof Ha as [Ha' _]%StronglySorted_inv.
  induction b as [|y b IHb]; [simpl; lia|].
  pose proof Hb as [Hb' _]%StronglySorted_inv.
  rewrite mdv_diff_u32_cons. repeat case_cmp.
  - rewrite cnt_cons, IHa by done. count_heads.
  - rewrite IHa by done. count_heads.
  - rewrite IHb by done. assert (y < x)%Z by lia. count_heads.
Qed.

Lemma mdv_union_u32_sorted a b :
  StronglySorted Z.le a -> StronglySorted Z.le b ->
  StronglySorted Z.le (mdv_union_u32 a b).
Proof.
  revert b. induction a as [|x a IHa]; intros b Ha Hb; [done|].
  pose proof Ha as [Ha' Hx]%StronglySorted_inv.
  induction b as [|y b IHb]; [done|].
  pose proof Hb as [Hb' Hy]%StronglySorted_inv.
  assert (forall u v : Z, (u <= v)%Z -> forall l, Forall (Z.le v) l -> Forall (Z.le u) (v :: l)).
  { intros u v ? l Hl. constructor; [done|]. eapply Forall_impl; [exact Hl|]. simpl; lia. }
  rewrite mdv_union_u32_cons. repeat case_cmp; constructor; auto; try subst y;
    apply mdv_union_u32_Forall; auto with lia.
Qed.

Lemma mdv_union_u32_cnt a b z :
  StronglySorted Z.le a -> StronglySorted Z.le b ->
  cnt (mdv_union_u32 a b) z = Nat.max (cnt a z) (cnt b z).
Proof.
  revert b. induction a as [|x a IHa]; intros b Ha Hb; [done|].
  pose proof Ha as [Ha' _]%StronglySorted_inv.
  induction b as [|y b IHb]; [simpl; lia|].
  pose proof Hb as [Hb' _]%StronglySorted_inv.
  rewrite mdv_union_u32_cons. repeat case_cmp.
  - rewrite cnt_cons, IHb by done. count_heads.
  - rewrite cnt_cons, IHa by done. count_heads.
  - rewrite cnt_cons, IHa by done. assert (x < y)%Z by lia. count_heads.
Qed.

(** ** In-place exclusion *)

Section ExcludeProofs.
Context {A B : Type} (cmp : A -> B -> Z).

Lemma exclude_list_cons x a y b :
  exclude_list cmp (x :: a) (y :: b) =
    if (cmp x y <? 0)%Z then x :: exclude_list cmp a (y :: b)
    else if (cmp x y =? 0)%Z then exclude_list cmp a b
    else exclude_list cmp (x :: a) b.
Proof. done. Qed.

Lemma exclude_list_nil_r a : exclude_list cmp a [] = a.
Proof. by destruct a. Qed.

Lemma exclude_list_length a b : length (exclude_list cmp a b) <= length a.
Proof.
  revert b. induction a as [|x a IHa]; intros b; [done|].
  induction b as [|y b IHb]; [done|].
  rewrite exclude_list_cons. repeat case_cmp; simpl in *.
  - specialize (IHa (y :: b)). lia.
  - specialize (IHa b). lia.
  - done.
Qed.

(** Writing the element read at [ra] to a cell at or before [ra] leaves the
    cells after [ra] as they were and extends the output by one. *)
Lemma memcpy_step (arr : list A) ra wa x :
  arr !! ra = Some x -> wa <= ra ->
  length (memcpy arr wa [x]) = length arr /\
  drop (S ra) (memcpy arr wa [x]) = drop (S ra) arr /\
  take (S wa) (memcpy arr wa [x]) = take wa arr ++ [x].
Proof.
  intros Hx%lookup_lt_Some Hle.
  assert (length (take wa arr) = wa) as Hw by len.
  split_and!.
  - apply length_memcpy. simpl. lia.
  - unfold memcpy. rewrite drop_app_ge, Hw by lia.
    replace (S ra - wa) with (S (ra - wa)) by lia. simpl.
    rewrite drop_drop. f_equal. lia.
  - unfold memcpy. rewrite take_app_ge, Hw by lia.
    replace (S wa - wa) with 1 by lia. done.
Qed.

Lemma mdv_exclude_loop_spec fuel arr ra wa b rb :
  length arr - ra + (length b - rb) < fuel -> wa <= ra -> ra <= length arr ->
  let e := exclude_list cmp (drop ra arr) (drop rb b) in
  exists arr', mdv_exclude_loop cmp fuel arr ra wa b rb = Done (arr', wa + length e) /\
    length arr' = length arr /\ take (wa + length e) arr' = take wa arr ++ e.
Proof.
  revert arr ra wa rb. induction fuel as [|fuel IH]; intros arr ra wa rb Hf Hwa Hra; [lia|].
  cbn zeta. cbn [mdv_exclude_loop]. destruct (arr !! ra) as [x|] eqn:Hx.
  2:{ apply lookup_ge_None in Hx. rewrite drop_ge by lia.
      exists arr. simpl. rewrite Nat.add_0_r, app_nil_r. done. }
  pose proof (lookup_lt_Some _ _ _ Hx) as Hlt.
  destruct (memcpy_step arr ra wa x Hx Hwa) as (Hl & Hd & Ht).
  pose proof (drop_S _ _ _ Hx) as Hdx.
  assert (forall bs : list B, length (x :: exclude_list cmp (drop (S ra) arr) bs) =
    S (length (exclude_list cmp (drop (S ra) arr) bs))) as Hlen by done.
  assert (length arr - S ra + (length b - rb) < fuel) as Hf' by lia.
  (* the branches that copy the element *)
  assert (exists arr', mdv_exclude_loop cmp fuel (memcpy arr wa [x]) (S ra) (S wa) b rb
      = Done (arr', wa + S (length (exclude_list cmp (drop (S ra) arr) (drop rb b)))) /\
    length arr' = length arr /\
    take (wa + S (length (exclude_list cmp (drop (S ra) arr) (drop rb b)))) arr'
      = take wa arr ++ x :: exclude_list cmp (drop (S ra) arr) (drop rb b)) as Hcopy.
  { destruct (IH (memcpy arr wa [x]) (S ra) (S wa) rb) as (arr' & E & L & T); [lia..|].
    rewrite Hd in E, T. exists arr'. rewrite <- Nat.add_succ_comm.
    split_and!; [done|lia|]. rewrite T, Ht. by rewrite <- app_assoc. }
  rewrite Hdx. destruct (b !! rb) as [y|] eqn:Hy.
  2:{ apply lookup_ge_None in Hy. rewrite (drop_ge b) in * by lia.
      rewrite exclude_list_nil_r in *. exact Hcopy. }
  pose proof (lookup_lt_Some _ _ _ Hy).
  rewrite (drop_S _ _ _ Hy) in *. rewrite exclude_list_cons.
  destruct (cmp x y <? 0)%Z; [exact Hcopy|]. destruct (cmp x y =? 0)%Z.
  - apply IH; lia.
  - rewrite <- Hdx. apply IH; lia.
Qed.
End ExcludeProofs.

(** [exclude_list] keeps the elements whose key does not occur in [b]. *)
Lemma exclude_list_filter {A B} (cmp : A -> B -> Z) (ka : A -> Z) (kb : B -> Z) a b :
  (forall x y, cmp x y < 0 <-> ka x < kb y)%Z ->
  (forall x y, cmp x y = 0 <-> ka x = kb y)%Z ->
  StronglySorted Z.lt (ka <$> a) -> StronglySorted Z.lt (kb <$> b) ->
  exclude_list cmp a b = filter (fun x => ka x ∉ kb <$> b) a.
Proof.
  intros Hlt Heq. revert b. induction a as [|x a IHa]; intros b Ha Hb; [done|].
  cbn [fmap list_fmap] in Ha. pose proof Ha as [Ha' Hx]%StronglySorted_inv.
  induction b as [|y b IHb].
  { rewrite exclude_list_nil_r. symmetry. apply filter_all; set_solver. }
  cbn [fmap list_fmap] in Hb. pose proof Hb as [Hb' Hy]%StronglySorted_inv.
  rewrite Forall_forall in Hx, Hy. rewrite exclude_list_cons.
  destruct (Z.ltb_spec (cmp x y) 0) as [Hc|Hc]; [|destruct (Z.eqb_spec (cmp x y) 0) as [Hc'|Hc']].
  - apply Hlt in Hc. rewrite filter_cons_True.
    + f_equal. by apply IHa.
    + cbn [fmap list_fmap]. intros [Hxy|Hin]%elem_of_cons; [lia|]. specialize (Hy _ Hin). lia.
  - apply Heq in Hc'. rewrite filter_cons_False by (rewrite Hc'; cbn; intros Hn; apply Hn; by left).
    rewrite IHa by done.
    apply filter_ext_in. intros z Hz.
    assert (ka x < ka z)%Z by (by apply Hx, list_elem_of_fmap_2).
    cbn [fmap list_fmap]. rewrite not_elem_of_cons. split; [|tauto]. intros ?; split; [lia|done].
  - assert (kb y < ka x)%Z.
    { destruct (Z.lt_trichotomy (ka x) (kb y)) as [?%Hlt|[?%Heq|?]]; lia. }
    rewrite IHb by done. apply filter_ext_in. intros z Hz.
    assert (kb y < ka z)%Z.
    { apply elem_of_cons in Hz as [->|Hz]; [done|].
      etrans; [done|]. by apply Hx, list_elem_of_fmap_2. }
    cbn [fmap list_fmap]. rewrite not_elem_of_cons. split; [|tauto]. intros ?; split; [lia|done].
Qed.

(** ** Lower bound *)

Section LowerBoundProofs.
Context {K A : Type} (cmp : K -> A -> Z).

(** [key] is compared with a strictly ascending array: the comparison results
    go down, and at most one of them is zero. *)
Definition ascending (key : K) (arr : list A) : Prop :=
  forall i j x y, i < j -> arr !! i = Some x -> arr !! j = Some y ->
    (cmp key x <= 0 -> cmp key y < 0)%Z.

(** [r] separates the elements below [key] from the others. *)
Definition is_lower_bound (key : K) (arr : list A) (r : Z) : Prop :=
  (0 <= r <= Z.of_nat (length arr))%Z /\
  forall i x, lookupZ arr i = Some x ->
    ((i < r)%Z -> (0 < cmp key x)%Z) /\ ((r <= i)%Z -> (cmp key x <= 0)%Z).

Lemma ascending_Z key arr i j x y :
  ascending key arr -> (i < j)%Z -> lookupZ arr i = Some x -> lookupZ arr j = Some y ->
  (cmp key x <= 0 -> cmp key y < 0)%Z.
Proof.
  intros Ha Hij Hx Hy. pose proof (lookupZ_Some _ _ _ Hx).
  unfold lookupZ in *. repeat case_match; try done.
  apply (Ha (Z.to_nat i) (Z.to_nat j)); [lia|done..].
Qed.

(** A cell splits the array: larger results before it, smaller ones after. *)
Lemma ascending_split key arr c xc i x :
  ascending key arr -> lookupZ arr c = Some xc -> lookupZ arr i = Some x ->
  ((c < i -> cmp key xc <= 0 -> cmp key x < 0) /\
   (i < c -> 0 <= cmp key xc -> 0 < cmp key x))%Z.
Proof.
  intros Ha Hc Hi. split; intros Hlt Hcmp.
  - exact (ascending_Z key arr c i xc x Ha Hlt Hc Hi Hcmp).
  - destruct (Z.le_gt_cases (cmp key x) 0) as [Hle|]; [|lia].
    pose proof (ascending_Z key arr i c x xc Ha Hlt Hi Hc Hle). lia.
Qed.

Lemma mdv_lower_bound_loop_spec fuel key arr a b :
  ascending key arr ->
  (exists x0, arr !! 0 = Some x0 /\ (0 <= cmp key x0)%Z) ->
  (0 <= a <= b + 1)%Z -> (b < Z.of_nat (length arr))%Z -> (b - a < Z.of_nat fuel)%Z ->
  (a < Z.of_nat (length arr) \/ a = b + 1)%Z -> 0 < fuel ->
  (forall i x, lookupZ arr i = Some x -> (i < a)%Z -> (0 < cmp key x)%Z) ->
  (forall i x, lookupZ arr i = Some x -> (b < i)%Z -> (cmp key x < 0)%Z) ->
  exists r, mdv_lower_bound_loop cmp fuel key arr a b = Done (Some r) /\ is_lower_bound key arr r.
Proof.
  intros Hasc (x0 & Hx0 & Hc0). revert a b.
  induction fuel as [|fuel IH]; intros a b Hab Hb Hf Ha Hpos Hlo Hhi; [lia|].
  cbn [mdv_lower_bound_loop]. destruct (Z.ltb_spec a b) as [Hlt|Hge].
  - (* one step of the bisection *)
    assert (a <= a + (b - a) / 2 < b)%Z as Hcr.
    { split; [|apply Z.lt_add_lt_sub_l, Z.div_lt; lia].
      pose proof (Z.div_pos (b - a) 2). lia. }
    set (c := (a + (b - a) / 2)%Z) in *.
    destruct (lookupZ_is_Some arr c) as [xc Hxc]; [lia|]. rewrite Hxc.
    assert (0 < fuel) by lia.
    destruct (Z.ltb_spec (cmp key xc) 0) as [Hn|Hn]; [|destruct (Z.ltb_spec 0 (cmp key xc)) as [Hp|Hp]].
    + apply IH; try lia; [done|]. intros i x Hi Hlt'.
      destruct (decide (i = c)) as [->|]; [by simplify_eq|].
      apply (ascending_split key arr c xc i x); [done..|lia|lia].
    + apply IH; try lia; [|done]. intros i x Hi Hlt'.
      destruct (decide (i = c)) as [->|]; [by simplify_eq|].
      apply (ascending_split key arr c xc i x); [done..|lia|lia].
    + exists c. split; [done|]. split; [lia|]. intros i x Hi.
      destruct (ascending_split key arr c xc i x) as [H1 H2]; [done..|].
      split; intros ?; [apply H2; lia|].
      destruct (decide (i = c)) as [->|]; [simplify_eq; lia|]. specialize (H1 ltac:(lia)). lia.
  - (* the final comparison *)
    assert (0 <= b)%Z as Hb0.
    { destruct (Z.le_gt_cases 0 b) as [|Hneg]; [done|].
      specialize (Hhi 0%Z x0 (eq_trans (lookupZ_nat arr 0) Hx0) Hneg). lia. }
    destruct (lookupZ_is_Some arr b) as [xb Hxb]; [lia|]. rewrite Hxb.
    eexists; split; [done|]. split; [case_cmp; lia|]. intros i x Hi.
    specialize (Hlo i x Hi). specialize (Hhi i x Hi).
    destruct (decide (i = b)) as [->|]; [|case_cmp; lia].
    simplify_eq. case_cmp; lia.
Qed.
End LowerBoundProofs.

(** ** Properties *)

(** For sorted arrays, [mdv_diff_u32] is the multiset difference, sorted:
    every value occurs in the result as many times as in [a] less its
    occurrences in [b]. *)
Theorem mdv_diff_u32_correct (a b : list Z) :
  StronglySorted Z.le a -> StronglySorted Z.le b ->
  StronglySorted Z.le (mdv_diff_u32 a b) /\
  forall z, cnt (mdv_diff_u32 a b) z = cnt a z - cnt b z.
Proof.
  intros Ha Hb. split; [by apply mdv_diff_u32_sorted|].
  intros z. by apply mdv_diff_u32_cnt.
Qed.

Lemma mdv_diff_u32_correct_witness :
  StronglySorted Z.le [1; 2; 2; 5]%Z /\ StronglySorted Z.le [2; 3]%Z /\
  mdv_diff_u32 [1; 2; 2; 5]%Z [2; 3]%Z = [1; 2; 5]%Z /\
  StronglySorted Z.le (mdv_diff_u32 [1; 2; 2; 5] [2; 3])%Z.
Proof.
  assert (StronglySorted Z.le [1; 2; 2; 5]%Z) as Ha by (repeat constructor; lia).
  assert (StronglySorted Z.le [2; 3]%Z) as Hb by (repeat constructor; lia).
  split_and!; [exact Ha|exact Hb|reflexivity|].
  exact (proj1 (mdv_diff_u32_correct [1; 2; 2; 5]%Z [2; 3]%Z Ha Hb)).
Defined.

(** For sorted arrays, [mdv_union_u32] is the multiset union, sorted; every
    value occurs as often as in the array that has more of it. *)
Theorem mdv_union_u32_correct (a b : list Z) :
  StronglySorted Z.le a -> StronglySorted Z.le b ->
  StronglySorted Z.le (mdv_union_u32 a b) /\
  forall z, cnt (mdv_union_u32 a b) z = Nat.max (cnt a z) (cnt b z).
Proof.
  intros Ha Hb. split; [by apply mdv_union_u32_sorted|].
  intros z. by apply mdv_union_u32_cnt.
Qed.

Lemma mdv_union_u32_correct_witness :
  StronglySorted Z.le [1; 4]%Z /\ StronglySorted Z.le [1; 1; 3]%Z /\
  mdv_union_u32 [1; 4]%Z [1; 1; 3]%Z = [1; 1; 3; 4]%Z /\
  StronglySorted Z.le (mdv_union_u32 [1; 4] [1; 1; 3])%Z.
Proof.
  assert (StronglySorted Z.le [1; 4]%Z) as Ha by (repeat constructor; lia).
  assert (StronglySorted Z.le [1; 1; 3]%Z) as Hb by (repeat constructor; lia).
  split_and!; [exact Ha|exact Hb|reflexivity|].
  exact (proj1 (mdv_union_u32_correct [1; 4]%Z [1; 1; 3]%Z Ha Hb)).
Defined.

(** [mdv_exclude] works in place: although it overwrites the array it reads,
    for arrays strictly ascending by key it terminates, the returned size counts
    the elements whose key is not in [b], and those elements, in their order,
    are the prefix of the array of that size. *)
Theorem mdv_exclude_correct {A B} (cmp : A -> B -> Z) (ka : A -> Z) (kb : B -> Z)
    (a : list A) (b : list B) :
  (forall x y, cmp x y < 0 <-> ka x < kb y)%Z ->
  (forall x y, cmp x y = 0 <-> ka x = kb y)%Z ->
  StronglySorted Z.lt (ka <$> a) -> StronglySorted Z.lt (kb <$> b) ->
  (Z.of_nat (length a) < 2 ^ 32)%Z ->
  exists arr' n, mdv_exclude cmp a b = Done (arr', Z.of_nat n) /\
    length arr' = length a /\
    take n arr' = filter (fun x => ka x ∉ kb <$> b) a.
Proof.
  intros Hlt Heq Ha Hb Hlen. unfold mdv_exclude.
  destruct (mdv_exclude_loop_spec cmp (S (length a + length b)) a 0 0 b 0)
    as (arr' & -> & HL & HT); [lia..|].
  pose proof (exclude_list_length cmp a b). rewrite !drop_0 in *.
  exists arr', (length (exclude_list cmp a b)).
  rewrite wrap_id by (unfold fits; lia). split_and!; [done|done|].
  rewrite <- (exclude_list_filter cmp) by done. exact HT.
Qed.

Lemma mdv_exclude_correct_witness :
  let a := [1; 2; 3; 4]%Z in let b := [2; 4]%Z in
  mdv_exclude Z.sub a b = Done ([1; 3; 3; 4]%Z, 2%Z) /\
  exists arr' n, mdv_exclude Z.sub a b = Done (arr', Z.of_nat n) /\
    length arr' = length a /\ take n arr' = filter (fun x : Z => x ∉ b) a.
Proof.
  split; [vm_compute; reflexivity|].
  apply (mdv_exclude_correct Z.sub (fun x => x) (fun x => x) [1; 2; 3; 4]%Z [2; 4]%Z);
    [intros; lia|intros; lia|repeat constructor; lia|repeat constructor; lia|vm_compute; reflexivity].
Defined.

(** on a strictly ascending array whose first element is not above the key,
    [mdv_lower_bound] terminates without a read outside the array and returns
    the position of the first element that is not below the key (the end of the
    array when there is none). *)
Theorem mdv_lower_bound_correct {K A} (cmp : K -> A -> Z) (key : K) (arr : list A) (x0 : A) :
  ascending cmp key arr -> arr !! 0 = Some x0 -> (0 <= cmp key x0)%Z ->
  exists r, mdv_lower_bound cmp key arr = Done (Some r) /\ is_lower_bound cmp key arr r.
Proof.
  intros Hasc Hx0 Hc0. unfold mdv_lower_bound. destruct arr as [|y arr]; [done|].
  remember (y :: arr) as l. assert (0 < length l) by (subst; simpl; lia).
  apply mdv_lower_bound_loop_spec; [done|by eauto|lia..| |].
  - intros i x Hi%lookupZ_Some. lia.
  - intros i x Hi%lookupZ_Some. lia.
Qed.

Lemma mdv_lower_bound_correct_witness :
  mdv_lower_bound Z.sub 6%Z [3; 5; 9]%Z = Done (Some 2%Z) /\
  exists r, mdv_lower_bound Z.sub 6%Z [3; 5; 9]%Z = Done (Some r) /\
    is_lower_bound Z.sub 6%Z [3; 5; 9]%Z r.
Proof.
  split; [vm_compute; reflexivity|].
  apply (mdv_lower_bound_correct Z.sub 6%Z [3; 5; 9]%Z 3%Z); [|reflexivity|vm_compute; discriminate].
  intros i j x y Hij Hi Hj. pose proof (lookup_lt_Some _ _ _ Hj) as Hl. simpl in Hl.
  destruct j as [|[|[|j]]], i as [|[|[|i]]]; simpl in *; simplify_eq; lia.
Defined.

(** Below the first element the search can leave the array: for a key less
    than both items of a two-item array, [mdv_lower_bound] compares the key with
    the item before the array. *)
Theorem mdv_lower_bound_underflow (key x y : Z) :
  (key < x)%Z -> mdv_lower_bound Z.sub key [x; y] = OutOfBounds (-1).
Proof.
  intros Hlt. unfold mdv_lower_bound. cbn [length].
  change (Z.of_nat 2 - 1)%Z with 1%Z. cbn [mdv_lower_bound_loop].
  change (0 <? 1)%Z with true. cbv iota. change (lookupZ [x; y] (0 + (1 - 0) / 2)) with (Some x).
  cbv iota zeta. destruct (Z.ltb_spec (key - x) 0); [done|lia].
Qed.

Lemma mdv_lower_bound_underflow_witness :
  (3 < 5)%Z /\ mdv_lower_bound Z.sub 3%Z [5; 9]%Z = OutOfBounds (-1).
Proof. split; [lia|]. apply (mdv_lower_bound_underflow 3 5 9). lia. Defined.

End Algorithm.
