(* ===== verification/Bitset.v ===== *)
(** * Bit sets (src/mdv_platform/generic/mdv_bitset.c)

    A bit set is an array of 32-bit words.  The operations return [None] where
    the C code would access a word outside the allocated array. *)

From S2P Require Import Prelude.

Module Bitset.

Record mdv_bitset := mk_bitset {
  bs_rc : Z;             (* rc *)
  bs_size : nat;         (* size, in bits *)
  bs_bits : list Z       (* bits *)
}.

Definition mdv_bitset_capacity_calc (size : nat) : nat := 32 * ((size + 32 - 1) / 32).

Definition mdv_bitset_capacity (b : mdv_bitset) : nat := mdv_bitset_capacity_calc (bs_size b).

Definition mdv_bitset_size (b : mdv_bitset) : nat := bs_size b.

(** [memset] with 0 or -1 over the capacity: whole words. *)
Definition mdv_bitset_fill (b : mdv_bitset) (val : bool) : mdv_bitset :=
  mk_bitset (bs_rc b) (bs_size b)
    (memcpy (bs_bits b) 0
      (replicate (mdv_bitset_capacity b / 32) (if val then 2 ^ 32 - 1 else 0)%Z)).

(** [mem]: what the allocator returned, [None] or uninitialised words. *)
Definition mdv_bitset_create (mem : option (list Z)) (size : nat) : option mdv_bitset :=
  match mem with
  | None => None
  | Some words => Some (mdv_bitset_fill (mk_bitset 1 size words) false)
  end.

Definition mdv_bitset_retain (b : mdv_bitset) : mdv_bitset :=
  mk_bitset (rc_retain (bs_rc b)) (bs_size b) (bs_bits b).

(** The new state ([None] once freed) and the returned count. *)
Definition mdv_bitset_release (b : mdv_bitset) : option mdv_bitset * Z :=
  let '(rc, ret, freed) := rc_release (bs_rc b) in
  (if freed then None else Some (mk_bitset rc (bs_size b) (bs_bits b)), ret).

Definition mdv_bitset_set (b : mdv_bitset) (pos : nat) : option (bool * mdv_bitset) :=
  let n := pos / 32 in
  let offs := Z.of_nat (pos mod 32) in
  match bs_bits b !! n with
  | None => None
  | Some w =>
      if (Z.land (Z.shiftr w offs) 1 =? 0)%Z
      then Some (true, mk_bitset (bs_rc b) (bs_size b)
                         (<[n := Z.lor w (u32 (Z.shiftl 1 offs))]> (bs_bits b)))
      else Some (false, b)
  end.

Definition mdv_bitset_reset (b : mdv_bitset) (pos : nat) : option mdv_bitset :=
  let n := pos / 32 in
  let offs := Z.of_nat (pos mod 32) in
  match bs_bits b !! n with
  | None => None
  | Some w => Some (mk_bitset (bs_rc b) (bs_size b)
                      (<[n := Z.land w (u32 (Z.lnot (Z.shiftl 1 offs)))]> (bs_bits b)))
  end.

Definition mdv_bitset_test (b : mdv_bitset) (pos : nat) : option bool :=
  let n := pos / 32 in
  let offs := Z.of_nat (pos mod 32) in
  match bs_bits b !! n with
  | None => None
  | Some w => Some (negb (Z.land (Z.shiftr w offs) 1 =? 0)%Z)
  end.

(** The loop of [mdv_bitset_count] from index [i], [k] iterations left. *)
Fixpoint mdv_bitset_count_loop (b : mdv_bitset) (val : bool) (i k n : nat) : option nat :=
  match k with
  | 0 => Some n
  | S k =>
      match mdv_bitset_test b i with
      | None => None
      | Some t => mdv_bitset_count_loop b val (S i) k (if eqb t val then S n else n)
      end
  end.

Definition mdv_bitset_count (b : mdv_bitset) (val : bool) : option nat :=
  mdv_bitset_count_loop b val 0 (bs_size b) 0.

Definition mdv_bitset_data (b : mdv_bitset) : list Z := bs_bits b.

(** ** Invariant and abstraction *)

(** Every word is a 32-bit value and the array covers the capacity. *)
Record wf (b : mdv_bitset) : Prop := {
  wf_len : length (bs_bits b) = mdv_bitset_capacity b / 32;
  wf_words : Forall (fits 32) (bs_bits b)
}.

(** Bit [pos] as a mathematical bit of its word. *)
Definition bit (b : mdv_bitset) (pos : nat) : bool :=
  Z.testbit (default 0%Z (bs_bits b !! (pos / 32))) (Z.of_nat (pos mod 32)).

Lemma capacity_words size : mdv_bitset_capacity_calc size / 32 = (size + 31) / 32.
Proof.
  unfold mdv_bitset_capacity_calc. rewrite (Nat.mul_comm 32), Nat.div_mul by lia.
  f_equal. lia.
Qed.

Lemma size_le_capacity size : size <= mdv_bitset_capacity_calc size < size + 32.
Proof.
  unfold mdv_bitset_capacity_calc.
  pose proof (Nat.div_mod_eq (size + 32 - 1) 32).
  pose proof (Nat.mod_upper_bound (size + 32 - 1) 32). lia.
Qed.

(** A position below the capacity addresses an allocated word. *)
Lemma word_lookup b pos :
  wf b -> pos < mdv_bitset_capacity b -> exists w, bs_bits b !! (pos / 32) = Some w /\ fits 32 w.
Proof.
  intros [Hl Hw] Hp.
  destruct (lookup_lt_is_Some_2 (bs_bits b) (pos / 32)) as [w Hx].
  - rewrite Hl. unfold mdv_bitset_capacity, mdv_bitset_capacity_calc in *.
    rewrite (Nat.mul_comm 32), Nat.div_mul by lia. apply Nat.Div0.div_lt_upper_bound. lia.
  - exists w. split; [done|]. by eapply Forall_lookup_1.
Qed.

Lemma test_bit b pos w :
  bs_bits b !! (pos / 32) = Some w ->
  mdv_bitset_test b pos = Some (bit b pos) /\ Z.testbit w (Z.of_nat (pos mod 32)) = bit b pos.
Proof.
  intros Hw. unfold mdv_bitset_test, bit. rewrite Hw. simpl.
  rewrite land_shiftr_1 by lia. by destruct (Z.testbit w (Z.of_nat (pos mod 32))).
Qed.

Lemma mdv_bitset_test_bit b pos :
  wf b -> pos < mdv_bitset_capacity b -> mdv_bitset_test b pos = Some (bit b pos).
Proof. intros Hb Hp. destruct (word_lookup b pos Hb Hp) as (w & Hw & _). by apply (test_bit b pos w). Qed.

(** Two positions are equal iff their word and their offset are. *)
Lemma pos_eq_iff p q : p = q <-> p / 32 = q / 32 /\ p mod 32 = q mod 32.
Proof.
  split; [by intros ->|]. intros [Hd Hm].
  rewrite (Nat.div_mod_eq p 32), (Nat.div_mod_eq q 32). by rewrite Hd, Hm.
Qed.

(** The bits after one word was replaced. *)
Lemma bit_update rc size words n w' pos :
  n < length words ->
  bit (mk_bitset rc size (<[n := w']> words)) pos =
    if decide (pos / 32 = n) then Z.testbit w' (Z.of_nat (pos mod 32))
    else bit (mk_bitset rc size words) pos.
Proof.
  intros Hn. unfold bit. simpl. case_decide as Hp.
  - subst n. by rewrite list_lookup_insert_eq by done.
  - by rewrite list_lookup_insert_ne by done.
Qed.

Lemma wf_update b n w' rc :
  wf b -> fits 32 w' -> wf (mk_bitset rc (bs_size b) (<[n := w']> (bs_bits b))).
Proof.
  intros [Hl Hw] ?. split; simpl.
  - rewrite length_insert. exact Hl.
  - by apply Forall_insert.
Qed.

Lemma fits_one_shifted o : (0 <= o < 32)%Z -> fits 32 (Z.shiftl 1 o).
Proof.
  intros. rewrite Z.shiftl_mul_pow2, Z.mul_1_l by lia. split; [apply Z.pow_nonneg; lia|].
  apply Z.pow_lt_mono_r; lia.
Qed.

Lemma offs_bound pos : (0 <= Z.of_nat (pos mod 32) < 32)%Z.
Proof. pose proof (Nat.mod_upper_bound pos 32). lia. Qed.

(** Functional behaviour of [mdv_bitset_set] at every position of the array. *)
Lemma mdv_bitset_set_spec b pos :
  wf b -> pos < mdv_bitset_capacity b ->
  exists b', mdv_bitset_set b pos = Some (negb (bit b pos), b') /\ wf b' /\
    bs_size b' = bs_size b /\
    forall q, bit b' q = (if decide (q = pos) then true else bit b q).
Proof.
  intros Hb Hp. destruct (word_lookup b pos Hb Hp) as (w & Hw & Hfit).
  destruct (test_bit b pos w Hw) as [_ Ht]. unfold mdv_bitset_set. rewrite Hw.
  rewrite land_shiftr_1, Ht by lia. pose proof (offs_bound pos).
  destruct (bit b pos) eqn:Hbit; cbn [Z.b2z Z.eqb negb].
  - exists b. split_and!; try done. intros q. case_decide; [by subst|done].
  - rewrite wrap_id by (by apply fits_one_shifted).
    eexists; split_and!; [reflexivity| |done|].
    + apply wf_update; [done|]. apply fits_lor; [lia|done|]. by apply fits_one_shifted.
    + intros q. rewrite bit_update by (by eapply lookup_lt_Some).
      destruct b as [rc sz words]; simpl in *. pose proof (offs_bound q).
      destruct (decide (q / 32 = pos / 32)) as [Hd|Hd].
      * rewrite Z.lor_spec, testbit_one_shifted by lia.
        unfold bit. simpl. rewrite Hd, Hw. simpl.
        destruct (Z.eqb_spec (Z.of_nat (q mod 32)) (Z.of_nat (pos mod 32))) as [Hm|Hm];
          case_decide as Hq; rewrite ?orb_true_r, ?orb_false_r; try done.
        -- exfalso. apply Hq. apply pos_eq_iff. lia.
        -- exfalso. apply Hm. by subst.
      * case_decide; [by subst|done].
Qed.

Lemma mdv_bitset_reset_spec b pos :
  wf b -> pos < mdv_bitset_capacity b ->
  exists b', mdv_bitset_reset b pos = Some b' /\ wf b' /\ bs_size b' = bs_size b /\
    forall q, bit b' q = (if decide (q = pos) then false else bit b q).
Proof.
  intros Hb Hp. destruct (word_lookup b pos Hb Hp) as (w & Hw & Hfit).
  unfold mdv_bitset_reset. rewrite Hw. pose proof (offs_bound pos).
  eexists; split_and!; [reflexivity| |done|].
  - apply wf_update; [done|]. apply fits_land; [lia|done|]. apply wrap_fits; lia.
  - intros q. rewrite bit_update by (by eapply lookup_lt_Some).
    destruct b as [rc sz words]; simpl in *. pose proof (offs_bound q).
    destruct (decide (q / 32 = pos / 32)) as [Hd|Hd].
    + unfold wrap. rewrite <- Z.land_ones by lia.
      rewrite !Z.land_spec, Z.lnot_spec, testbit_one_shifted, Z.ones_spec_low by lia.
      unfold bit. simpl. rewrite Hd, Hw, andb_true_r. simpl.
      destruct (Z.eqb_spec (Z.of_nat (q mod 32)) (Z.of_nat (pos mod 32))) as [Hm|Hm];
        case_decide as Hq; rewrite ?andb_true_r, ?andb_false_r; try done.
      * exfalso. apply Hq. apply pos_eq_iff. lia.
      * exfalso. apply Hm. by subst.
    + case_decide; [by subst|done].
Qed.

(** [mdv_bitset_fill] writes every allocated word. *)
Lemma mdv_bitset_fill_spec b val :
  length (bs_bits b) = mdv_bitset_capacity b / 32 ->
  wf (mdv_bitset_fill b val) /\
  forall q, q < mdv_bitset_capacity b -> bit (mdv_bitset_fill b val) q = val.
Proof.
  intros Hl. set (v := (if val then 2 ^ 32 - 1 else 0)%Z).
  assert (bs_bits (mdv_bitset_fill b val) = replicate (mdv_bitset_capacity b / 32) v) as Hbits.
  { unfold mdv_bitset_fill, memcpy. simpl. rewrite length_replicate, drop_ge by lia.
    by rewrite app_nil_r. }
  assert (wf (mdv_bitset_fill b val)) as Hwf.
  { split; rewrite Hbits; [by rewrite length_replicate|].
    apply Forall_replicate. unfold v, fits. destruct val; lia. }
  split; [done|]. intros q Hq. destruct (word_lookup _ q Hwf Hq) as (w & Hw & _).
  unfold bit. rewrite Hw. rewrite Hbits in Hw. apply lookup_replicate in Hw as [-> _]. simpl.
  pose proof (offs_bound q). unfold v. destruct val; [|apply Z.bits_0].
  change (2 ^ 32 - 1)%Z with (Z.ones 32). by rewrite Z.ones_spec_low by lia.
Qed.

(** The counting loop counts the positions of [seq]. *)
Lemma mdv_bitset_count_loop_spec b val i k n :
  wf b -> i + k <= mdv_bitset_capacity b ->
  mdv_bitset_count_loop b val i k n =
    Some (n + length (filter (fun q => bit b q = val) (seq i k))).
Proof.
  intros Hb. revert i n. induction k as [|k IH]; intros i n Hk; simpl.
  { f_equal. lia. }
  rewrite mdv_bitset_test_bit by (done || lia). rewrite IH by lia.
  rewrite filter_cons. destruct (decide (bit b i = val)) as [->|Hne].
  - rewrite eqb_reflx. simpl. f_equal. lia.
  - destruct (eqb (bit b i) val) eqn:E; [by apply eqb_prop in E|done].
Qed.

Lemma mdv_bitset_count_spec b val :
  wf b -> mdv_bitset_count b val =
    Some (length (filter (fun q => bit b q = val) (seq 0 (bs_size b)))).
Proof.
  intros Hb. apply mdv_bitset_count_loop_spec; [done|].
  pose proof (size_le_capacity (bs_size b)). unfold mdv_bitset_capacity. lia.
Qed.

(** ** Properties *)

(** inside the capacity, setting and clearing a bit are a write to that bit
    alone: every other bit keeps its value, the invariant is preserved, no access
    leaves the array, and [mdv_bitset_set] reports whether the bit was clear. *)
Theorem mdv_bitset_read_over_write (b : mdv_bitset) (pos : nat) :
  wf b -> pos < mdv_bitset_capacity b ->
  (exists b', mdv_bitset_set b pos = Some (negb (bit b pos), b') /\ wf b' /\
     forall q, q < mdv_bitset_capacity b ->
       mdv_bitset_test b' q = if decide (q = pos) then Some true else mdv_bitset_test b q) /\
  (exists b', mdv_bitset_reset b pos = Some b' /\ wf b' /\
     forall q, q < mdv_bitset_capacity b ->
       mdv_bitset_test b' q = if decide (q = pos) then Some false else mdv_bitset_test b q).
Proof.
  intros Hb Hp. split.
  - destruct (mdv_bitset_set_spec b pos Hb Hp) as (b' & -> & Hb' & Hs & Hbit).
    exists b'. split_and!; [done|done|]. intros q Hq.
    rewrite !mdv_bitset_test_bit, Hbit by (done || unfold mdv_bitset_capacity; by rewrite ?Hs).
    by case_decide.
  - destruct (mdv_bitset_reset_spec b pos Hb Hp) as (b' & -> & Hb' & Hs & Hbit).
    exists b'. split_and!; [done|done|]. intros q Hq.
    rewrite !mdv_bitset_test_bit, Hbit by (done || unfold mdv_bitset_capacity; by rewrite ?Hs).
    by case_decide.
Qed.

Lemma mdv_bitset_read_over_write_witness :
  let b := mk_bitset 1 40 [5; 0]%Z in
  wf b /\ 33 < mdv_bitset_capacity b /\ mdv_bitset_set b 33 = Some (true, mk_bitset 1 40 [5; 2]%Z) /\
  exists b', mdv_bitset_reset b 33 = Some b' /\ wf b' /\
     forall q, q < mdv_bitset_capacity b ->
       mdv_bitset_test b' q = if decide (q = 33) then Some false else mdv_bitset_test b q.
Proof.
  assert (wf (mk_bitset 1 40 [5; 0]%Z)) as Hb.
  { split; [vm_compute; reflexivity|]. repeat constructor; unfold fits; simpl; lia. }
  assert (33 < mdv_bitset_capacity (mk_bitset 1 40 [5; 0]%Z)) as Hp by (vm_compute; lia).
  split_and!; [exact Hb|exact Hp|vm_compute; reflexivity|].
  exact (proj2 (mdv_bitset_read_over_write _ 33 Hb Hp)).
Defined.

(** [mdv_bitset_count] partitions the bits below the size into ones and
    zeros, and setting a clear bit below the size moves exactly one of them from
    the count of zeros to the count of ones. *)
Theorem mdv_bitset_count_correct (b : mdv_bitset) (pos : nat) :
  wf b -> pos < bs_size b -> bit b pos = false ->
  exists b' ones zeros, mdv_bitset_set b pos = Some (true, b') /\
    mdv_bitset_count b true = Some ones /\ mdv_bitset_count b false = Some (S zeros) /\
    mdv_bitset_count b' true = Some (S ones) /\ mdv_bitset_count b' false = Some zeros /\
    ones + S zeros = bs_size b.
Proof.
  intros Hb Hp Hbit. pose proof (size_le_capacity (bs_size b)).
  destruct (mdv_bitset_set_spec b pos Hb) as (b' & -> & Hb' & Hs & Hb'q);
    [unfold mdv_bitset_capacity; lia|].
  rewrite Hbit, !(mdv_bitset_count_spec b) by done. exists b'.
  rewrite !(mdv_bitset_count_spec b'), Hs by done. set (n := bs_size b) in *.
  assert (seq 0 n = seq 0 pos ++ pos :: seq (S pos) (n - S pos)) as Hsplit.
  { replace n with (pos + S (n - S pos)) at 1 by lia. by rewrite seq_app. }
  set (c := fun v l => length (filter (fun q => bit b q = v) l)).
  assert (forall v l, pos ∉ l -> length (filter (fun q => bit b' q = v) l) = c v l) as Hsame.
  { intros v l Hl. unfold c. f_equal. apply filter_ext_in. intros q Hq. rewrite Hb'q.
    case_decide; [by subst|done]. }
  assert (forall l, c true l + c false l = length l) as Hsum.
  { unfold c. induction l as [|x l IH]; [done|]. rewrite !filter_cons.
    destruct (bit b x); simpl; lia. }
  pose proof (Hsum (seq 0 pos)) as H1. pose proof (Hsum (seq (S pos) (n - S pos))) as H2.
  rewrite length_seq in H1, H2.
  exists (c true (seq 0 pos) + c true (seq (S pos) (n - S pos))),
         (c false (seq 0 pos) + c false (seq (S pos) (n - S pos))).
  rewrite Hsplit, !filter_app, !length_app, !(filter_cons _ pos), Hb'q, Hbit.
  rewrite (decide_True (P := pos = pos)) by done.
  repeat destruct (decide (_ = _ :> bool)); try done.
  cbn [length negb]. rewrite !Hsame by (intros Hin%elem_of_seq; lia).
  unfold c in *. split_and!; try done; try f_equal; lia.
Qed.

Lemma mdv_bitset_count_correct_witness :
  exists b b' ones zeros, mdv_bitset_create (Some [7; 9]%Z) 40 = Some b /\
    mdv_bitset_set b 39 = Some (true, b') /\
    mdv_bitset_count b true = Some ones /\ mdv_bitset_count b false = Some (S zeros) /\
    mdv_bitset_count b' true = Some (S ones) /\ mdv_bitset_count b' false = Some zeros /\
    ones + S zeros = 40.
Proof.
  assert (wf (mk_bitset 1 40 [0; 0]%Z)) as Hb.
  { split; [vm_compute; reflexivity|]. repeat constructor; unfold fits; simpl; lia. }
  destruct (mdv_bitset_count_correct (mk_bitset 1 40 [0; 0]%Z) 39 Hb) as (b' & o & z & H);
    [simpl; lia|vm_compute; reflexivity|].
  exists (mk_bitset 1 40 [0; 0]%Z), b', o, z. split; [vm_compute; reflexivity|exact H].
Defined.

End Bitset.
