(* ===== verification/Bloom.v ===== *)
(** * Murmur hash and Bloom filter
    (src/mdv_platform/generic/mdv_hash.c, src/mdv_platform/generic/mdv_bloom.c) *)

From S2P Require Import Prelude.
From Stdlib Require Import QArith.
Close Scope Q_scope.

Module Hash.

(** The multiplier [m]. *)
Definition murmur_m : Z := 0x5bd1e995.

(** The macro [mdv_hash_murmur_mix]: the new [h]. *)
Definition mdv_hash_murmur_mix (h k : Z) : Z :=
  let k := u32 (k * murmur_m) in
  let k := Z.lxor k (Z.shiftr k 24) in
  let k := u32 (k * murmur_m) in
  let h := u32 (h * murmur_m) in
  Z.lxor h k.

(** The [while] loop, four bytes at a time, and the [switch] on the tail. *)
Fixpoint mdv_hash_murmur2a_loop (buff : list Z) (h : Z) : Z * Z :=
  match buff with
  | b0 :: b1 :: b2 :: b3 :: rest =>
      mdv_hash_murmur2a_loop rest (mdv_hash_murmur_mix h (of_le [b0; b1; b2; b3]))
  | [b0; b1; b2] => (h, Z.lxor (Z.lxor (Z.shiftl b2 16) (Z.shiftl b1 8)) b0)
  | [b0; b1] => (h, Z.lxor (Z.shiftl b1 8) b0)
  | [b0] => (h, b0)
  | [] => (h, 0%Z)
  end.

(** [data] is the buffer of [len] bytes. *)
Definition mdv_hash_murmur2a (data : list Z) (seed : Z) : Z :=
  let '(h, t) := mdv_hash_murmur2a_loop data seed in
  let h := mdv_hash_murmur_mix h t in
  let h := mdv_hash_murmur_mix h (u32 (Z.of_nat (length data))) in
  let h := Z.lxor h (Z.shiftr h 13) in
  let h := u32 (h * murmur_m) in
  Z.lxor h (Z.shiftr h 15).

Lemma mix_fits h k : fits 32 (mdv_hash_murmur_mix h k).
Proof. unfold mdv_hash_murmur_mix; auto with mdv zarith. Qed.

Lemma mdv_hash_murmur2a_fits data seed : fits 32 (mdv_hash_murmur2a data seed).
Proof.
  unfold mdv_hash_murmur2a. destruct (mdv_hash_murmur2a_loop data seed) as [h t].
  cbv zeta. auto with mdv zarith.
Qed.

End Hash.

Module Bloom.
Import Hash.

Definition MDV_HASH_SEED : Z := 836091947.

Record mdv_bloom := mk_bloom {
  bl_bits : Z;          (* bits: number of bits *)
  bl_capacity : Z;      (* capacity *)
  bl_size : Z;          (* size *)
  bl_hashes : Z;        (* hashes *)
  bl_err : Q;           (* err *)
  bl_bf : list Z        (* bf: the bytes *)
}.

Definition MDV_BLOOM_BYTES (bits : Z) : Z := (bits + 7) / 8.

(** [bits] and [hashes] are the values of the floating-point macros
    [MDV_BLOOM_BITS] and [MDV_BLOOM_HASH_FNS] for the given arguments; [mem] is
    whether the allocation succeeds. *)
Definition mdv_bloom_create (mem : bool) (entries : Z) (err : Q) (bits hashes : Z)
  : option mdv_bloom :=
  if mem then
    Some (mk_bloom bits entries 0 hashes
            (if Qle_bool err 1 then (if Qle_bool (1 # 100000) err then err else 1 # 100000) else 1%Q)
            (replicate (Z.to_nat (MDV_BLOOM_BYTES bits)) 0%Z))
  else None.

(** The bit index of hash function [i]. *)
Definition bloom_bit (bits : Z) (data : list Z) (i : nat) : Z :=
  (mdv_hash_murmur2a data (u32 (Z.of_nat i * MDV_HASH_SEED)) mod bits)%Z.

(** The loop of [mdv_bloom_insert], [k] iterations from hash function [i];
    [None] is a division by zero or an access outside [bf]. *)
Fixpoint mdv_bloom_insert_loop (bits : Z) (data : list Z) (bf : list Z)
    (is_changed : bool) (i k : nat) : option (bool * list Z) :=
  match k with
  | 0 => Some (is_changed, bf)
  | S k =>
      if (bits =? 0)%Z then None else
      let bit := bloom_bit bits data i in
      let byte := Z.to_nat (bit / 8) in
      let offset := (bit mod 8)%Z in
      match bf !! byte with
      | None => None
      | Some v =>
          mdv_bloom_insert_loop bits data (<[byte := Z.lor v (u8 (Z.shiftl 1 offset))]> bf)
            (is_changed || (Z.shiftr v offset =? 0)%Z) (S i) k
      end
  end.

Definition mdv_bloom_insert (b : mdv_bloom) (data : list Z) : option (bool * mdv_bloom) :=
  if (bl_capacity b <=? bl_size b)%Z then Some (false, b) else
  match mdv_bloom_insert_loop (bl_bits b) data (bl_bf b) false 0 (Z.to_nat (bl_hashes b)) with
  | None => None
  | Some (is_changed, bf) =>
      Some (is_changed,
            mk_bloom (bl_bits b) (bl_capacity b)
              (if is_changed then u32 (bl_size b + 1) else bl_size b)
              (bl_hashes b) (bl_err b) bf)
  end.

Fixpoint mdv_bloom_contains_loop (bits : Z) (data bf : list Z) (i k : nat) : option bool :=
  match k with
  | 0 => Some true
  | S k =>
      if (bits =? 0)%Z then None else
      let bit := bloom_bit bits data i in
      let byte := Z.to_nat (bit / 8) in
      let offset := (bit mod 8)%Z in
      match bf !! byte with
      | None => None
      | Some v =>
          if (Z.shiftr v offset =? 0)%Z then Some false
          else mdv_bloom_contains_loop bits data bf (S i) k
      end
  end.

Definition mdv_bloom_contains (b : mdv_bloom) (data : list Z) : option bool :=
  mdv_bloom_contains_loop (bl_bits b) data (bl_bf b) 0 (Z.to_nat (bl_hashes b)).

Definition mdv_bloom_capacity (b : mdv_bloom) : Z := bl_capacity b.
Definition mdv_bloom_size (b : mdv_bloom) : Z := bl_size b.

(** A sequence of insertions, whatever each of them returns. *)
Fixpoint insert_all (b : mdv_bloom) (ds : list (list Z)) : option mdv_bloom :=
  match ds with
  | [] => Some b
  | d :: ds =>
      match mdv_bloom_insert b d with
      | None => None
      | Some (_, b') => insert_all b' ds
      end
  end.

(** ** Invariant *)

Record wf (b : mdv_bloom) : Prop := {
  wf_bits : (0 < bl_bits b)%Z;
  wf_bytes : Z.of_nat (length (bl_bf b)) = MDV_BLOOM_BYTES (bl_bits b);
  wf_fit : Forall is_byte (bl_bf b);
  wf_size : (0 <= bl_size b <= bl_capacity b)%Z;
  wf_cap : fits 32 (bl_capacity b)
}.

Lemma bloom_bit_bound bits data i : (0 < bits)%Z -> (0 <= bloom_bit bits data i < bits)%Z.
Proof. apply Z.mod_pos_bound. Qed.

(** Every bit index addresses a byte of the filter. *)
Lemma bloom_byte bits data i (bf : list Z) :
  (0 < bits)%Z -> Z.of_nat (length bf) = MDV_BLOOM_BYTES bits ->
  exists v, bf !! Z.to_nat (bloom_bit bits data i / 8) = Some v.
Proof.
  intros Hb Hl. apply lookup_lt_is_Some_2. pose proof (bloom_bit_bound bits data i Hb).
  unfold MDV_BLOOM_BYTES in Hl.
  pose proof (Z.div_pos (bloom_bit bits data i) 8).
  assert (bloom_bit bits data i / 8 <= (bits - 1) / 8)%Z by (apply Z.div_le_mono; lia).
  assert ((bits - 1) / 8 < (bits + 7) / 8)%Z.
  { replace (bits + 7)%Z with (bits - 1 + 1 * 8)%Z by lia. rewrite Z.div_add by lia. lia. }
  lia.
Qed.

(** Bytes only gain bits. *)
Definition grows (bf bf' : list Z) : Prop :=
  Forall2 (fun v v' => forall o, (0 <= o)%Z -> Z.testbit v o = true -> Z.testbit v' o = true) bf bf'.

#[global] Instance grows_preorder : PreOrder grows.
Proof.
  split.
  - intros bf. apply Forall_Forall2_diag. apply Forall_true. auto.
  - intros x y z Hxy Hyz. unfold grows in *. revert z Hyz.
    induction Hxy; intros z Hyz; inversion Hyz; subst; constructor; auto.
Qed.

Lemma grows_set bf n v b : bf !! n = Some v -> grows bf (<[n := Z.lor v b]> bf).
Proof.
  intros Hv. apply Forall2_same_length_lookup_2; [by rewrite length_insert|].
  intros i x y Hx Hy o Ho Ht. destruct (decide (i = n)) as [->|].
  - rewrite list_lookup_insert_eq in Hy by (by eapply lookup_lt_Some).
    simplify_eq. by rewrite Z.lor_spec, Ht.
  - rewrite list_lookup_insert_ne in Hy by done. by simplify_eq.
Qed.

(** The [k] hash functions of [data] from [i] on have their bit set in [bf]. *)
Definition bits_set (bits : Z) (data bf : list Z) (i k : nat) : Prop :=
  forall j, i <= j < i + k -> exists v,
    bf !! Z.to_nat (bloom_bit bits data j / 8) = Some v /\
    Z.testbit v (bloom_bit bits data j mod 8) = true.

Lemma bits_set_grows bits data bf bf' i k :
  (0 < bits)%Z -> grows bf bf' -> bits_set bits data bf i k -> bits_set bits data bf' i k.
Proof.
  intros Hb Hg Hs j Hj. destruct (Hs j Hj) as (v & Hv & Ht).
  destruct (Forall2_lookup_l _ _ _ _ _ Hg Hv) as (v' & Hv' & Hvv').
  exists v'. split; [done|]. apply Hvv'; [|done].
  apply Z.mod_pos_bound. lia.
Qed.

Lemma insert_loop_spec bits data bf ch i k :
  (0 < bits)%Z -> Z.of_nat (length bf) = MDV_BLOOM_BYTES bits -> Forall is_byte bf ->
  exists ch' bf', mdv_bloom_insert_loop bits data bf ch i k = Some (ch', bf') /\
    length bf' = length bf /\ Forall is_byte bf' /\ grows bf bf' /\ bits_set bits data bf' i k.
Proof.
  intros Hb. revert bf ch i. induction k as [|k IH]; intros bf ch i Hl Hf; simpl.
  { exists ch, bf. split_and!; try done. intros j ?. lia. }
  destruct (Z.eqb_spec bits 0); [lia|].
  destruct (bloom_byte bits data i bf Hb Hl) as [v Hv]. rewrite Hv.
  pose proof (Forall_lookup_1 _ _ _ _ Hf Hv) as Hvb.
  set (o := (bloom_bit bits data i mod 8)%Z).
  assert (0 <= o < 8)%Z as Ho by (apply Z.mod_pos_bound; lia).
  assert (u8 (Z.shiftl 1 o) = Z.shiftl 1 o) as Hu.
  { apply wrap_id. rewrite Z.shiftl_mul_pow2, Z.mul_1_l by lia. split; [apply Z.pow_nonneg; lia|].
    apply Z.pow_lt_mono_r; lia. }
  rewrite Hu. set (bf1 := <[Z.to_nat _ := _]> bf).
  destruct (IH bf1 (ch || (Z.shiftr v o =? 0)%Z) (S i)) as (ch' & bf' & -> & Hl' & Hf' & Hg & Hs).
  { unfold bf1. by rewrite length_insert. }
  { apply Forall_insert; [done|]. apply fits_lor; [lia|done|]. rewrite <- Hu. apply wrap_fits; lia. }
  exists ch', bf'. split_and!; [done| |done| |].
  - rewrite Hl'. unfold bf1. by rewrite length_insert.
  - etrans; [by apply grows_set|exact Hg].
  - intros j Hj. destruct (decide (j = i)) as [->|]; [|apply Hs; lia].
    apply (bits_set_grows bits data bf1 bf' i 1 Hb Hg); [|lia].
    intros j' ?. assert (j' = i) as -> by lia. exists (Z.lor v (Z.shiftl 1 o)).
    unfold bf1. rewrite list_lookup_insert_eq by (by eapply lookup_lt_Some). split; [done|].
    rewrite Z.lor_spec, testbit_one_shifted by lia. fold o. by rewrite Z.eqb_refl, orb_true_r.
Qed.

(** A set bit at [offset] survives the unmasked shift of the test. *)
Lemma shiftr_nonzero v o : (0 <= o)%Z -> Z.testbit v o = true -> (Z.shiftr v o =? 0)%Z = false.
Proof.
  intros Ho Ht. apply Z.eqb_neq. intros Hz.
  assert (Z.testbit (Z.shiftr v o) 0 = true) as H by (rewrite Z.shiftr_spec, Z.add_0_l by lia; done).
  by rewrite Hz in H.
Qed.

Lemma contains_loop_spec bits data bf i k :
  (0 < bits)%Z -> bits_set bits data bf i k -> mdv_bloom_contains_loop bits data bf i k = Some true.
Proof.
  intros Hb. revert i. induction k as [|k IH]; intros i Hs; simpl; [done|].
  destruct (Z.eqb_spec bits 0); [lia|]. destruct (Hs i) as (v & -> & Ht); [lia|].
  rewrite shiftr_nonzero; [|apply Z.mod_pos_bound; lia|done].
  apply IH. intros j ?. apply Hs. lia.
Qed.

Lemma mdv_bloom_insert_spec b data :
  wf b -> exists r b', mdv_bloom_insert b data = Some (r, b') /\ wf b' /\
    bl_bits b' = bl_bits b /\ bl_hashes b' = bl_hashes b /\ grows (bl_bf b) (bl_bf b') /\
    ((bl_size b < bl_capacity b)%Z ->
      bits_set (bl_bits b) data (bl_bf b') 0 (Z.to_nat (bl_hashes b))).
Proof.
  intros [H1 H2 H3 H4 H5]. unfold mdv_bloom_insert.
  destruct (Z.leb_spec (bl_capacity b) (bl_size b)).
  { exists false, b. split_and!; try done. lia. }
  destruct (insert_loop_spec (bl_bits b) data (bl_bf b) false 0 (Z.to_nat (bl_hashes b)))
    as (ch & bf & -> & Hl & Hf & Hg & Hs); [done..|].
  eexists _, _. split_and!; [done| |done..]. split; simpl; [done|lia|done| |done].
  unfold fits in H5. destruct ch; [rewrite wrap_id by (unfold fits; lia)|]; lia.
Qed.

Lemma insert_all_spec b ds :
  wf b -> exists b', insert_all b ds = Some b' /\ wf b' /\
    bl_bits b' = bl_bits b /\ bl_hashes b' = bl_hashes b /\ grows (bl_bf b) (bl_bf b').
Proof.
  revert b. induction ds as [|d ds IH]; intros b Hb; simpl.
  { exists b. split_and!; done. }
  destruct (mdv_bloom_insert_spec b d Hb) as (r & b1 & -> & Hb1 & E1 & E2 & Hg & _).
  destruct (IH b1 Hb1) as (b' & -> & Hb' & E3 & E4 & Hg').
  exists b'. split_and!; [done|done|congruence|congruence|]. by etrans.
Qed.

Lemma mdv_bloom_create_wf entries err bits hashes b :
  (0 < bits)%Z -> fits 32 entries ->
  mdv_bloom_create true entries err bits hashes = Some b -> wf b.
Proof.
  intros Hb He [= <-]. unfold MDV_BLOOM_BYTES.
  pose proof (Z.div_pos (bits + 7) 8). split; simpl.
  - done.
  - rewrite length_replicate. unfold MDV_BLOOM_BYTES. lia.
  - apply Forall_replicate. unfold is_byte, fits. lia.
  - unfold fits in He. lia.
  - done.
Qed.

(** ** Properties *)

(** no false negatives: whatever is inserted afterwards, an item inserted
    while the filter is below its capacity is found, every operation stays
    inside the filter, and the number of entries never exceeds the capacity. *)
Theorem mdv_bloom_no_false_negative (b : mdv_bloom) (d : list Z) (before after : list (list Z)) :
  wf b ->
  exists b1 r b2 b3, insert_all b before = Some b1 /\ mdv_bloom_insert b1 d = Some (r, b2) /\
    insert_all b2 after = Some b3 /\ (mdv_bloom_size b3 <= mdv_bloom_capacity b3)%Z /\
    ((mdv_bloom_size b1 < mdv_bloom_capacity b1)%Z -> mdv_bloom_contains b3 d = Some true).
Proof.
  intros Hb. destruct (insert_all_spec b before Hb) as (b1 & -> & Hb1 & _).
  destruct (mdv_bloom_insert_spec b1 d Hb1) as (r & b2 & E & Hb2 & Eb & Eh & _ & Hs).
  destruct (insert_all_spec b2 after Hb2) as (b3 & E' & Hb3 & Eb' & Eh' & Hg).
  exists b1, r, b2, b3. split_and!; [done|done|done|apply (wf_size b3 Hb3)|].
  intros Hroom. unfold mdv_bloom_contains. apply contains_loop_spec; [apply (wf_bits b3 Hb3)|].
  rewrite Eb', Eh', Eb, Eh. eapply bits_set_grows; [apply (wf_bits b1 Hb1)|exact Hg|by apply Hs].
Qed.

Lemma mdv_bloom_no_false_negative_witness :
  exists b b1 r b2 b3, mdv_bloom_create true 4 (1 # 10) 24 3 = Some b /\
    insert_all b [[1; 2; 3]%Z] = Some b1 /\ mdv_bloom_insert b1 [7; 7; 7; 7; 7]%Z = Some (r, b2) /\
    insert_all b2 [[9]%Z] = Some b3 /\ (mdv_bloom_size b3 <= mdv_bloom_capacity b3)%Z /\
    ((mdv_bloom_size b1 < mdv_bloom_capacity b1)%Z -> mdv_bloom_contains b3 [7; 7; 7; 7; 7]%Z = Some true).
Proof.
  eexists.
  assert (wf (mk_bloom 24 4 0 3 (1 # 10) [0; 0; 0]%Z)) as Hb.
  { apply (mdv_bloom_create_wf 4 (1 # 10) 24 3); [lia|vm_compute; split; [discriminate|reflexivity]|reflexivity]. }
  destruct (mdv_bloom_no_false_negative _ [7; 7; 7; 7; 7]%Z [[1; 2; 3]%Z] [[9]%Z] Hb)
    as (b1 & r & b2 & b3 & H).
  exists b1, r, b2, b3. split; [reflexivity|exact H].
Defined.

(** The bit test shifts without masking, so a bit above the tested one also
    counts: with one hash function, an item with a different bit index is
    reported present after a single insertion of another item, and inserting it
    is then refused and not counted although it sets a new bit. *)
Theorem mdv_bloom_unmasked_test :
  exists b b1 b2 d1 d2, mdv_bloom_create true 4 (1 # 10) 8 1 = Some b /\
    mdv_bloom_insert b d1 = Some (true, b1) /\
    bloom_bit 8 d1 0 <> bloom_bit 8 d2 0 /\
    mdv_bloom_contains b d2 = Some false /\ mdv_bloom_contains b1 d2 = Some true /\
    mdv_bloom_insert b1 d2 = Some (false, b2) /\
    mdv_bloom_size b2 = mdv_bloom_size b1 /\ bl_bf b2 <> bl_bf b1.
Proof.
  eexists _, _, _, [3]%Z, [1]%Z. split_and!; [reflexivity|vm_compute; reflexivity|..];
    vm_compute; try reflexivity; discriminate.
Qed.

End Bloom.
