(* ===== verification/Uuid.v ===== *)
(** * Identifiers (src/mdv_platform/mdv_uuid.c, src/mdv_types/mdv_objid.c)

    A uuid is the union of sixteen bytes and two 64-bit words; the model keeps
    the words and derives the bytes (little-endian).  Strings are lists of
    character codes without the final zero. *)

From S2P Require Import Prelude.

Module Uuid.

Record mdv_uuid := mk_uuid { u64_0 : Z; u64_1 : Z }.

#[global] Instance mdv_uuid_eq_dec : EqDecision mdv_uuid.
Proof. solve_decision. Defined.

#[global] Instance mdv_uuid_countable : Countable mdv_uuid.
Proof.
  apply (inj_countable' (fun u => (u64_0 u, u64_1 u)) (fun p => mk_uuid p.1 p.2)).
  by intros [].
Defined.

Definition u8s (u : mdv_uuid) : list Z := to_le 8 (u64_0 u) ++ to_le 8 (u64_1 u).
Definition of_u8s (l : list Z) : mdv_uuid := mk_uuid (of_le (take 8 l)) (of_le (drop 8 l)).

Definition wf (u : mdv_uuid) : Prop := fits 64 (u64_0 u) /\ fits 64 (u64_1 u).

Definition mdv_uuid_cmp (a b : mdv_uuid) : Z :=
  if (u64_0 a <? u64_0 b)%Z then -1
  else if (u64_0 b <? u64_0 a)%Z then 1
  else if (u64_1 a <? u64_1 b)%Z then -1
  else if (u64_1 b <? u64_1 a)%Z then 1
  else 0.

Definition mdv_uuid_hash (a : mdv_uuid) : Z :=
  let FNV_offset_basis := 0x811c9dc5%Z in
  let FNV_prime := 0x01000193%Z in
  let hash := FNV_offset_basis in
  let hash := Z.lxor (u64 (hash * FNV_prime)) (u64_0 a) in
  Z.lxor (u64 (hash * FNV_prime)) (u64_1 a).

(** The table [hex]: "0123456789ABCDEF". *)
Definition hex : list Z :=
  [48; 49; 50; 51; 52; 53; 54; 55; 56; 57; 65; 66; 67; 68; 69; 70]%Z.

(** Character [i] of the printed bytes, as both printing loops compute it. *)
Definition hex_char (u8 : list Z) (i : nat) : Z :=
  let d := Z.land (Z.shiftr (nth (i / 2) u8 0%Z) (Z.of_nat ((1 - i mod 2) * 4))) 0xF in
  nth (Z.to_nat d) hex 0%Z.

Definition mdv_uuid_to_str (u : mdv_uuid) : list Z := map (hex_char (u8s u)) (seq 0 (2 * 16)).

(** The value of a hexadecimal digit, by the cases of the [switch]. *)
Definition hex_digit (c : Z) : option Z :=
  if (48 <=? c)%Z && (c <=? 57)%Z then Some (c - 48)%Z
  else if (97 <=? c)%Z && (c <=? 102)%Z then Some (c - 87)%Z
  else if (65 <=? c)%Z && (c <=? 70)%Z then Some (c - 55)%Z
  else None.

(** The loop of [mdv_uuid_from_str] over the characters from index [i] on; the
    bytes written so far are kept when an invalid character stops it. *)
Fixpoint mdv_uuid_from_str_loop (u8 : list Z) (i : nat) (str : list Z) : bool * list Z :=
  match str with
  | [] => (true, u8)
  | c :: str =>
      let sh := Z.of_nat ((1 - i mod 2) * 4) in
      match hex_digit c with
      | None => (false, u8)
      | Some d =>
          mdv_uuid_from_str_loop
            (<[i / 2 := wrap 8 (Z.lor (nth (i / 2) u8 0%Z) (Z.shiftl d sh))]> u8) (S i) str
      end
  end.

(** [mdv_uuid_from_str]: the returned flag and the new value of [*uuid]. *)
Definition mdv_uuid_from_str (u : mdv_uuid) (str : option (list Z)) : bool * mdv_uuid :=
  match str with
  | None => (false, u)
  | Some str =>
      if negb (length str =? 2 * 16) then (false, u)
      else
        let '(ok, bytes) := mdv_uuid_from_str_loop (u8s (mk_uuid 0 0)) 0 str in
        (ok, of_u8s bytes)
  end.

(** The packed union [mdv_objid]: a 32-bit node and a 64-bit identifier. *)
Record mdv_objid := mk_objid { objid_node : Z; objid_id : Z }.

Definition objid_u8s (o : mdv_objid) : list Z := to_le 4 (objid_node o) ++ to_le 8 (objid_id o).

Definition mdv_objid_to_str (o : mdv_objid) : list Z := map (hex_char (objid_u8s o)) (seq 0 (2 * 12)).

(** ** Lemmas *)

Lemma u8s_length u : length (u8s u) = 16.
Proof. unfold u8s. by rewrite length_app, !length_to_le. Qed.

Lemma of_u8s_u8s u : wf u -> of_u8s (u8s u) = u.
Proof.
  intros [H0 H1]. unfold of_u8s, u8s.
  rewrite take_app_length' , drop_app_length' by (by rewrite length_to_le).
  rewrite !of_to_le_id by done. by destruct u.
Qed.

(** The two characters of one byte. *)
Definition hex_pair (b : Z) : list Z :=
  [nth (Z.to_nat (Z.land (Z.shiftr b 4) 0xF)) hex 0%Z;
   nth (Z.to_nat (Z.land (Z.shiftr b 0) 0xF)) hex 0%Z].

Lemma hex_char_pairs (u8 : list Z) :
  map (hex_char u8) (seq 0 (2 * length u8)) = concat (map hex_pair u8).
Proof.
  assert (forall pre suf, map (hex_char (pre ++ suf)) (seq (2 * length pre) (2 * length suf))
     = concat (map hex_pair suf)) as H; [|apply (H [] u8)].
  intros pre suf. revert pre. induction suf as [|b suf IH]; intros pre; [done|].
  replace (2 * length (b :: suf)) with (S (S (2 * length suf))) by (simpl; lia).
  cbn [seq map concat].
  assert (hex_char (pre ++ b :: suf) (2 * length pre) = nth (Z.to_nat (Z.land (Z.shiftr b 4) 0xF)) hex 0%Z
    /\ hex_char (pre ++ b :: suf) (S (2 * length pre)) = nth (Z.to_nat (Z.land (Z.shiftr b 0) 0xF)) hex 0%Z)
    as [-> ->].
  { unfold hex_char. rewrite <- (Nat.add_1_r (2 * _)), (Nat.mul_comm 2).
    rewrite Nat.div_add_l, Nat.div_mul, Nat.Div0.mod_mul, Nat.Div0.add_mod, Nat.Div0.mod_mul by lia.
    change (1 / 2) with 0. rewrite Nat.add_0_r, app_nth2, Nat.sub_diag by lia. done. }
  specialize (IH (pre ++ [b])). rewrite <- app_assoc, length_app in IH. simpl in IH.
  replace (S (S (2 * length pre))) with (2 * (length pre + 1)) by lia.
  unfold hex_pair at 1. cbn [app]. f_equal. f_equal. exact IH.
Qed.

(** Reading back the characters of a byte yields the byte; all 256 of them. *)
Definition nibble_ok (b : Z) : bool :=
  match hex_pair b with
  | [c1; c0] =>
      match hex_digit c1, hex_digit c0 with
      | Some d1, Some d0 =>
          (wrap 8 (Z.lor (wrap 8 (Z.lor 0 (Z.shiftl d1 4))) (Z.shiftl d0 0)) =? b)%Z
      | _, _ => false
      end
  | _ => false
  end.

Lemma nibbles_ok : forallb nibble_ok (map Z.of_nat (seq 0 256)) = true.
Proof. vm_compute. reflexivity. Qed.

Lemma nibble_ok_byte b : is_byte b -> nibble_ok b = true.
Proof.
  intros Hb%is_byte_bound. eapply forallb_forall; [apply nibbles_ok|].
  apply in_map_iff. exists (Z.to_nat b). split; [lia|]. apply in_seq. lia.
Qed.

Lemma from_str_pairs pre bs suf :
  Forall is_byte bs ->
  mdv_uuid_from_str_loop (pre ++ replicate (length bs) 0%Z ++ suf) (2 * length pre)
    (concat (map hex_pair bs)) = (true, pre ++ bs ++ suf).
Proof.
  intros Hbs. revert pre. induction Hbs as [|b bs Hb _ IH]; intros pre; [done|].
  pose proof (nibble_ok_byte b Hb) as Hn. unfold nibble_ok, hex_pair in Hn.
  cbn [map concat length replicate]. unfold hex_pair at 1. cbn [app mdv_uuid_from_str_loop].
  destruct (hex_digit (nth (Z.to_nat (Z.land (Z.shiftr b 4) 0xF)) hex 0%Z)) as [d1|]; [|done].
  destruct (hex_digit (nth (Z.to_nat (Z.land (Z.shiftr b 0) 0xF)) hex 0%Z)) as [d0|]; [|done].
  apply Z.eqb_eq in Hn. cbn [mdv_uuid_from_str_loop].
  rewrite <- (Nat.add_1_r (2 * length pre)), (Nat.mul_comm 2).
  rewrite Nat.div_mul, Nat.div_add_l by lia. change (1 / 2) with 0. rewrite Nat.add_0_r.
  rewrite Nat.Div0.mod_mul, Nat.Div0.add_mod, Nat.Div0.mod_mul.
  change (Z.of_nat ((1 - 0) * 4)) with 4%Z. change (Z.of_nat ((1 - (0 + 1 mod 2) mod 2) * 4)) with 0%Z.
  rewrite (insert_app_r_alt pre _ (length pre)), Nat.sub_diag by lia. cbn [insert list_insert].
  rewrite (insert_app_r_alt pre _ (length pre)), Nat.sub_diag by lia. cbn [insert list_insert].
  rewrite !app_nth2, !Nat.sub_diag by lia. cbn [nth]. rewrite Hn.
  specialize (IH (pre ++ [b])). rewrite length_app, <- !app_assoc in IH. cbn [length app] in IH.
  replace (S (length pre * 2 + 1)) with (2 * (length pre + 1)) by lia. exact IH.
Qed.

(** A string is accepted exactly when every character is a hexadecimal digit. *)
Lemma from_str_loop_accepts u8 i str :
  fst (mdv_uuid_from_str_loop u8 i str) = true <-> Forall (fun c => is_Some (hex_digit c)) str.
Proof.
  revert u8 i. induction str as [|c str IH]; intros u8 i; simpl.
  { split; [by constructor|done]. }
  destruct (hex_digit c) as [d|] eqn:Hd.
  - rewrite IH. split; [intros; constructor; eauto|by intros [_ ?]%Forall_cons_1].
  - split; [done|]. intros [[? ?] _]%Forall_cons_1. congruence.
Qed.

(** Sign of [mdv_uuid_cmp] as the lexicographic order of the words. *)
Lemma mdv_uuid_cmp_spec a b :
  (mdv_uuid_cmp a b = -1 /\ (u64_0 a < u64_0 b \/ (u64_0 a = u64_0 b /\ u64_1 a < u64_1 b)) \/
   mdv_uuid_cmp a b = 1 /\ (u64_0 b < u64_0 a \/ (u64_0 a = u64_0 b /\ u64_1 b < u64_1 a)) \/
   mdv_uuid_cmp a b = 0 /\ a = b)%Z.
Proof.
  destruct a as [a0 a1], b as [b0 b1]. unfold mdv_uuid_cmp. simpl.
  repeat case_cmp; try lia. right; right. split; [done|]. f_equal; lia.
Qed.

(** Expose the order behind every [mdv_uuid_cmp] of the context. *)
Ltac uuid_cases :=
  repeat match goal with
  | |- context [mdv_uuid_cmp ?a ?b] =>
      destruct (mdv_uuid_cmp_spec a b) as [(-> & ?)|[(-> & ?)|(-> & ?)]]
  | H : context [mdv_uuid_cmp ?a ?b] |- _ =>
      destruct (mdv_uuid_cmp_spec a b) as [(E & ?)|[(E & ?)|(E & ?)]]; rewrite E in H; clear E
  end; subst; try lia.

Lemma mdv_uuid_cmp_eq a b : mdv_uuid_cmp a b = 0%Z <-> a = b.
Proof.
  split; [intros; by uuid_cases|]. intros ->.
  destruct (mdv_uuid_cmp_spec b b) as [(? & ?)|[(? & ?)|(? & ?)]]; lia.
Qed.

(** ** Properties *)

(** printing a uuid and parsing the text gives the uuid back, whatever the
    destination held, and the text has 32 characters. *)
Theorem mdv_uuid_str_roundtrip (u dst : mdv_uuid) :
  wf u -> mdv_uuid_from_str dst (Some (mdv_uuid_to_str u)) = (true, u) /\
    length (mdv_uuid_to_str u) = 32.
Proof.
  intros Hu. assert (length (mdv_uuid_to_str u) = 32) as Hl.
  { unfold mdv_uuid_to_str. by rewrite length_map, length_seq. }
  split; [|done]. unfold mdv_uuid_from_str. rewrite Hl. cbn [Nat.mul Nat.eqb negb].
  assert (mdv_uuid_to_str u = concat (map hex_pair (u8s u))) as ->.
  { rewrite <- hex_char_pairs. by rewrite u8s_length. }
  pose proof (from_str_pairs [] (u8s u) []) as Hp. rewrite u8s_length in Hp.
  rewrite !app_nil_r in Hp.
  assert (mdv_uuid_from_str_loop (u8s (mk_uuid 0 0)) 0 (concat (map hex_pair (u8s u)))
          = (true, u8s u)) as ->; [|by rewrite of_u8s_u8s].
  apply Hp. apply Forall_app; split; apply to_le_bytes.
Qed.

Lemma mdv_uuid_str_roundtrip_witness :
  wf (mk_uuid 0x0123456789abcdef 42) /\
  mdv_uuid_from_str (mk_uuid 7 7) (Some (mdv_uuid_to_str (mk_uuid 0x0123456789abcdef 42)))
    = (true, mk_uuid 0x0123456789abcdef 42).
Proof.
  assert (wf (mk_uuid 0x0123456789abcdef 42)) as H by (split; split; vm_compute; congruence).
  split; [exact H|]. exact (proj1 (mdv_uuid_str_roundtrip _ (mk_uuid 7 7) H)).
Defined.

(** [mdv_uuid_from_str] succeeds exactly on 32 hexadecimal digits; a null
    or wrongly sized string leaves the destination as it was. *)
Theorem mdv_uuid_from_str_accepts (dst : mdv_uuid) (str : option (list Z)) :
  (fst (mdv_uuid_from_str dst str) = true <->
     exists s, str = Some s /\ length s = 32 /\ Forall (fun c => is_Some (hex_digit c)) s) /\
  ((forall s, str = Some s -> length s <> 32) -> mdv_uuid_from_str dst str = (false, dst)).
Proof.
  unfold mdv_uuid_from_str. destruct str as [s|]; [|split; [split; [done|by intros (? & ? & _)]|done]].
  destruct (Nat.eqb_spec (length s) (2 * 16)) as [Hl|Hl]; cbn [negb].
  - split; [|intros H; by destruct (H s)].
    destruct (mdv_uuid_from_str_loop (u8s (mk_uuid 0 0)) 0 s) as [ok bytes] eqn:E. cbn [fst].
    pose proof (from_str_loop_accepts (u8s (mk_uuid 0 0)) 0 s) as Ha. rewrite E in Ha. cbn [fst] in Ha.
    rewrite Ha. split; [eauto|]. by intros (s' & [= ->] & _ & ?).
  - split; [split; [done|]|done]. intros (s' & [= ->] & ? & _). lia.
Qed.

Lemma mdv_uuid_from_str_accepts_witness :
  mdv_uuid_from_str (mk_uuid 1 2) (Some [48]%Z) = (false, mk_uuid 1 2).
Proof.
  apply (mdv_uuid_from_str_accepts (mk_uuid 1 2) (Some [48]%Z)).
  intros s [= <-]. simpl. lia.
Defined.

(** C12: [mdv_uuid_cmp] is a total order on uuids: zero exactly on equal uuids,
    opposite signs for swapped arguments, and transitive. *)
Theorem mdv_uuid_cmp_order (a b c : mdv_uuid) :
  (mdv_uuid_cmp a b = 0%Z <-> a = b) /\
  mdv_uuid_cmp b a = (- mdv_uuid_cmp a b)%Z /\
  ((mdv_uuid_cmp a b <= 0)%Z -> (mdv_uuid_cmp b c <= 0)%Z -> (mdv_uuid_cmp a c <= 0)%Z).
Proof.
  split_and!; [apply mdv_uuid_cmp_eq|uuid_cases|]. intros ? ?. uuid_cases.
Qed.

Lemma mdv_uuid_cmp_order_witness :
  (mdv_uuid_cmp (mk_uuid 1 5) (mk_uuid 3 1) <= 0)%Z.
Proof.
  apply (mdv_uuid_cmp_order (mk_uuid 1 5) (mk_uuid 2 0) (mk_uuid 3 1)); vm_compute; discriminate.
Defined.

End Uuid.
