(* ===== verification/Queue.v ===== *)
(** * Ring-buffer queue (src/mdv_platform/generic/mdv_queue.c, mdv_queue.h)

    The buffer is modelled in items: every offset and length of the [memcpy]
    calls is a multiple of [item_size].  Sizes passed by the callers stay in
    bytes, as the size checks use them. *)

From S2P Require Import Prelude.

Module Queue.
Section Queue.
Context {A : Type}.

Record mdv_queue := mk_queue {
  q_capacity : nat;
  q_item_size : nat;
  q_head : nat;
  q_tail : nat;
  q_data : list A
}.

(** [mdv_queue_clear] on a static array of [length data] items. *)
Definition mdv_queue_clear (item_size : nat) (data : list A) : mdv_queue :=
  mk_queue (length data - 1) item_size 0 0 data.

Definition mdv_queue_size (q : mdv_queue) : nat :=
  let capacity := q_capacity q + 1 in
  if q_head q <=? q_tail q then q_tail q - q_head q
  else capacity + q_tail q - q_head q.

Definition mdv_queue_free_space (q : mdv_queue) : nat := q_capacity q - mdv_queue_size q.

Definition mdv_queue_empty (q : mdv_queue) : bool := q_head q =? q_tail q.

Definition set_tail (q : mdv_queue) (data : list A) (tail : nat) : mdv_queue :=
  mk_queue (q_capacity q) (q_item_size q) (q_head q) tail data.

Definition set_head (q : mdv_queue) (head : nat) : mdv_queue :=
  mk_queue (q_capacity q) (q_item_size q) head (q_tail q) (q_data q).

Definition mdv_queue_push_one (q : mdv_queue) (data : A) (size : nat) : bool * mdv_queue :=
  if negb (size =? q_item_size q) then (false, q) else
  let head := q_head q in
  let tail := q_tail q in
  let capacity := q_capacity q + 1 in
  let data_size := if head <=? tail then tail - head else capacity + tail - head in
  let free_space := q_capacity q - data_size in
  if free_space =? 0 then (false, q) else
  (true, set_tail q (memcpy (q_data q) tail [data]) ((tail + 1) mod capacity)).

Definition mdv_queue_push_multiple (q : mdv_queue) (data : list A) (size : nat) : bool * mdv_queue :=
  let items_count := size / q_item_size q in
  if negb (size =? items_count * q_item_size q) then (false, q) else
  let head := q_head q in
  let tail := q_tail q in
  let capacity := q_capacity q + 1 in
  if head <=? tail then
    let data_size := tail - head in
    let free_space := q_capacity q - data_size in
    if free_space <? items_count then (false, q) else
    let free_space_0 := capacity - tail in
    let buf :=
      if items_count <=? free_space_0
      then memcpy (q_data q) tail (slice data 0 items_count)
      else memcpy (memcpy (q_data q) tail (slice data 0 free_space_0)) 0
             (slice data free_space_0 (items_count - free_space_0)) in
    (true, set_tail q buf ((tail + items_count) mod capacity))
  else
    let data_size := capacity + tail - head in
    let free_space := q_capacity q - data_size in
    if free_space <? items_count then (false, q) else
    (true, set_tail q (memcpy (q_data q) tail (slice data 0 items_count))
             ((tail + items_count) mod capacity)).

(** The popped items, [None] on failure. *)
Definition mdv_queue_pop_one (q : mdv_queue) (size : nat) : option A * mdv_queue :=
  if negb (size =? q_item_size q) then (None, q) else
  let head := q_head q in
  let tail := q_tail q in
  let capacity := q_capacity q + 1 in
  let data_size := if head <=? tail then tail - head else capacity + tail - head in
  if data_size =? 0 then (None, q) else
  (q_data q !! head, set_head q ((head + 1) mod capacity)).

Definition mdv_queue_pop_multiple (q : mdv_queue) (size : nat) : option (list A) * mdv_queue :=
  let items_count := size / q_item_size q in
  if negb (size =? items_count * q_item_size q) then (None, q) else
  let head := q_head q in
  let tail := q_tail q in
  let capacity := q_capacity q + 1 in
  if head <=? tail then
    let data_size := tail - head in
    if data_size <? items_count then (None, q) else
    (Some (slice (q_data q) head items_count), set_head q ((head + items_count) mod capacity))
  else
    let data_size := capacity + tail - head in
    if data_size <? items_count then (None, q) else
    let data_block_0 := capacity - head in
    let out :=
      if items_count <=? data_block_0 then slice (q_data q) head items_count
      else slice (q_data q) head data_block_0 ++ slice (q_data q) 0 (items_count - data_block_0) in
    (Some out, set_head q ((head + items_count) mod capacity)).

(** ** Abstraction: the items between head and tail *)

Record wf (q : mdv_queue) : Prop := {
  wf_len : length (q_data q) = q_capacity q + 1;
  wf_head : q_head q <= q_capacity q;
  wf_tail : q_tail q <= q_capacity q;
  wf_item : 0 < q_item_size q
}.

(** [n] cells of the ring from index [h] on. *)
Definition ring_slice (data : list A) (h n : nat) : list A :=
  if h + n <=? length data then slice data h n
  else slice data h (length data - h) ++ slice data 0 (n - (length data - h)).

Definition ring_write (data : list A) (t : nat) (xs : list A) : list A :=
  if t + length xs <=? length data then memcpy data t xs
  else memcpy (memcpy data t (take (length data - t) xs)) 0 (drop (length data - t) xs).

Definition contents (q : mdv_queue) : list A := ring_slice (q_data q) (q_head q) (mdv_queue_size q).

Definition ring_pos (len k : nat) : nat := if k <? len then k else k - len.

Lemma ring_pos_mod len k : 0 < len -> k < 2 * len -> k mod len = ring_pos len k.
Proof.
  intros ? ?. unfold ring_pos. case_cmp; [by apply Nat.mod_small|].
  replace k with (k - len + 1 * len) at 1 by lia.
  rewrite Nat.Div0.mod_add. apply Nat.mod_small. lia.
Qed.

Lemma lookup_ring_slice data h n i :
  h < length data -> n <= length data -> i < n ->
  ring_slice data h n !! i = data !! ring_pos (length data) (h + i).
Proof.
  intros. unfold ring_slice, ring_pos. repeat case_cmp; try lia.
  - by rewrite lookup_slice by lia.
  - rewrite lookup_app_l by (rewrite length_slice; lia). by rewrite lookup_slice by lia.
  - rewrite lookup_app_r by (rewrite length_slice; lia). rewrite length_slice by lia.
    rewrite lookup_slice by lia. f_equal. lia.
Qed.

Lemma length_ring_slice data h n :
  h < length data -> n <= length data -> length (ring_slice data h n) = n.
Proof.
  intros. unfold ring_slice. case_cmp; [by apply length_slice|].
  rewrite length_app, !length_slice by lia. lia.
Qed.

Lemma length_ring_write data t xs :
  t < length data -> length xs <= length data -> length (ring_write data t xs) = length data.
Proof.
  intros. unfold ring_write. case_cmp; [by apply length_memcpy|].
  assert (length (memcpy data t (take (length data - t) xs)) = length data) as E
    by (apply length_memcpy; len).
  rewrite length_memcpy; [done|]. rewrite E. len.
Qed.

Lemma lookup_ring_write_in data t xs j :
  t < length data -> length xs <= length data -> j < length xs ->
  ring_write data t xs !! ring_pos (length data) (t + j) = xs !! j.
Proof.
  intros. unfold ring_write, ring_pos. repeat case_cmp; try lia.
  - apply lookup_memcpy_inside; lia.
  - assert (length (memcpy data t (take (length data - t) xs)) = length data) as E
      by (apply length_memcpy; len).
    rewrite lookup_memcpy_outside by (rewrite ?E; len).
    rewrite lookup_memcpy_inside by len. apply lookup_take_lt. lia.
  - assert (length (memcpy data t (take (length data - t) xs)) = length data) as E
      by (apply length_memcpy; len).
    replace (t + j - length data) with (0 + (t + j - length data)) by lia.
    rewrite lookup_memcpy_inside by (rewrite ?E; len).
    rewrite lookup_drop. f_equal. lia.
Qed.

Lemma lookup_ring_write_out data t xs k :
  t < length data -> length xs <= k < length data ->
  ring_write data t xs !! ring_pos (length data) (t + k) = data !! ring_pos (length data) (t + k).
Proof.
  intros. unfold ring_write, ring_pos. repeat case_cmp; try lia.
  - apply lookup_memcpy_outside; lia.
  - apply lookup_memcpy_outside; lia.
  - assert (length (memcpy data t (take (length data - t) xs)) = length data) as E
      by (apply length_memcpy; len).
    rewrite lookup_memcpy_outside by (rewrite ?E; len).
    apply lookup_memcpy_outside; len.
Qed.

Lemma size_le q : wf q -> mdv_queue_size q <= q_capacity q.
Proof. intros []. unfold mdv_queue_size. case_cmp; lia. Qed.

(** The tail is [size] cells after the head. *)
Lemma tail_pos q : wf q -> q_tail q = ring_pos (length (q_data q)) (q_head q + mdv_queue_size q).
Proof. intros [Hl ? ? ?]. unfold mdv_queue_size, ring_pos. rewrite Hl. repeat case_cmp; lia. Qed.

Lemma contents_length q : wf q -> length (contents q) = mdv_queue_size q.
Proof.
  intros Hq. pose proof (size_le q Hq). destruct Hq. unfold contents.
  apply length_ring_slice; lia.
Qed.

(** Writing [xs] at the tail and advancing it appends [xs]. *)
Lemma push_contents q xs :
  wf q -> mdv_queue_size q + length xs <= q_capacity q ->
  let q' := set_tail q (ring_write (q_data q) (q_tail q) xs)
              ((q_tail q + length xs) mod (q_capacity q + 1)) in
  wf q' /\ contents q' = contents q ++ xs.
Proof.
  intros Hq Hroom q'. pose proof (tail_pos q Hq) as Ht. pose proof Hq as [Hl Hh Htl Hi].
  pose proof (length_ring_write (q_data q) (q_tail q) xs) as Hw.
  assert (wf q') as Hq'.
  { split; simpl; [lia|lia| |done].
    pose proof (Nat.mod_upper_bound (q_tail q + length xs) (q_capacity q + 1)). lia. }
  assert (mdv_queue_size q' = mdv_queue_size q + length xs) as Hs.
  { unfold mdv_queue_size in *. simpl. rewrite ring_pos_mod by lia. unfold ring_pos.
    revert Hroom. repeat case_cmp; lia. }
  split; [done|]. apply list_eq_same_length with (n := mdv_queue_size q + length xs).
  { rewrite length_app, contents_length by done. done. }
  { by rewrite contents_length. }
  intros i x y Hi' Hx Hy. unfold contents in Hx. rewrite Hs in Hx. simpl in Hx.
  rewrite lookup_ring_slice in Hx by lia. rewrite Hw in Hx by lia.
  destruct (decide (i < mdv_queue_size q)) as [Hlt|Hge].
  - rewrite lookup_app_l in Hy by (by rewrite contents_length).
    unfold contents in Hy. rewrite lookup_ring_slice in Hy by lia.
    (* the cell is before the tail, hence outside the written block *)
    assert (ring_pos (length (q_data q)) (q_head q + i) =
            ring_pos (length (q_data q)) (q_tail q + (length (q_data q) + i - mdv_queue_size q))) as E.
    { rewrite Ht. unfold ring_pos. repeat case_cmp; lia. }
    rewrite E, lookup_ring_write_out in Hx by lia. rewrite E in Hy. congruence.
  - rewrite lookup_app_r, contents_length in Hy by (rewrite ?contents_length; done || lia).
    assert (ring_pos (length (q_data q)) (q_head q + i) =
            ring_pos (length (q_data q)) (q_tail q + (i - mdv_queue_size q))) as E.
    { rewrite Ht. unfold ring_pos. repeat case_cmp; lia. }
    rewrite E, lookup_ring_write_in in Hx by lia. congruence.
Qed.

(** Advancing the head drops the items read. *)
Lemma pop_contents q n :
  wf q -> n <= mdv_queue_size q ->
  let q' := set_head q ((q_head q + n) mod (q_capacity q + 1)) in
  wf q' /\ contents q' = drop n (contents q) /\
  ring_slice (q_data q) (q_head q) n = take n (contents q).
Proof.
  intros Hq Hn q'. pose proof (size_le q Hq). pose proof Hq as [Hl Hh Htl Hi].
  assert (wf q') as Hq'.
  { split; simpl; [lia| |lia|done].
    pose proof (Nat.mod_upper_bound (q_head q + n) (q_capacity q + 1)). lia. }
  assert (mdv_queue_size q' = mdv_queue_size q - n) as Hs.
  { unfold mdv_queue_size in *. simpl. rewrite ring_pos_mod by lia. unfold ring_pos.
    revert Hn. repeat case_cmp; lia. }
  split_and!; [done| |].
  - apply list_eq_same_length with (n := mdv_queue_size q - n).
    { rewrite length_drop, contents_length by done. done. }
    { by rewrite contents_length. }
    intros i x y ? Hx Hy. rewrite lookup_drop in Hy. unfold contents in *.
    rewrite Hs in Hx. simpl in Hx. rewrite ring_pos_mod in Hx by lia.
    rewrite lookup_ring_slice in Hy by lia.
    rewrite lookup_ring_slice in Hx by (unfold ring_pos; try case_cmp; lia).
    rewrite Hl in *.
    replace (ring_pos (q_capacity q + 1) (ring_pos (q_capacity q + 1) (q_head q + n) + i))
      with (ring_pos (q_capacity q + 1) (q_head q + (n + i))) in Hx
      by (unfold ring_pos; repeat case_cmp; lia). congruence.
  - apply list_eq_same_length with (n := n).
    { rewrite length_take, contents_length by done. lia. }
    { apply length_ring_slice; lia. }
    intros i x y ? Hx Hy. rewrite lookup_take_lt in Hy by done. unfold contents in Hy.
    rewrite lookup_ring_slice in Hx, Hy by lia. congruence.
Qed.

(** ** The operations *)

Inductive op :=
| Push1 (x : A) (size : nat)
| PushN (xs : list A) (size : nat)
| Pop1 (size : nat)
| PopN (size : nat).

Inductive ret :=
| RPush (ok : bool)
| RPop1 (o : option A)
| RPopN (o : option (list A)).

Definition exec (q : mdv_queue) (o : op) : ret * mdv_queue :=
  match o with
  | Push1 x size => let '(r, q') := mdv_queue_push_one q x size in (RPush r, q')
  | PushN xs size => let '(r, q') := mdv_queue_push_multiple q xs size in (RPush r, q')
  | Pop1 size => let '(r, q') := mdv_queue_pop_one q size in (RPop1 r, q')
  | PopN size => let '(r, q') := mdv_queue_pop_multiple q size in (RPopN r, q')
  end.

(** The specification: a bounded first-in first-out list of items.  A transfer
    of several items happens completely or not at all. *)
Definition fifo_exec (capacity item_size : nat) (s : list A) (o : op) : ret * list A :=
  match o with
  | Push1 x size =>
      if (size =? item_size) && (length s <? capacity) then (RPush true, s ++ [x])
      else (RPush false, s)
  | PushN xs size =>
      let n := size / item_size in
      if (size mod item_size =? 0) && (length s + n <=? capacity)
      then (RPush true, s ++ take n xs) else (RPush false, s)
  | Pop1 size =>
      if size =? item_size then
        match s with [] => (RPop1 None, s) | x :: s' => (RPop1 (Some x), s') end
      else (RPop1 None, s)
  | PopN size =>
      let n := size / item_size in
      if (size mod item_size =? 0) && (n <=? length s)
      then (RPopN (Some (take n s)), drop n s) else (RPopN None, s)
  end.

(** The caller's array holds the number of items it announces. *)
Definition op_ok (q : mdv_queue) (o : op) : Prop :=
  match o with PushN xs size => size / q_item_size q <= length xs | _ => True end.

Lemma divides_test size k :
  0 < k -> (size =? size / k * k) = (size mod k =? 0).
Proof.
  intros. pose proof (Nat.div_mod_eq size k). repeat case_cmp; lia.
Qed.

Lemma push_one_refines q x size :
  wf q -> let '(r, q') := mdv_queue_push_one q x size in
  wf q' /\ fifo_exec (q_capacity q) (q_item_size q) (contents q) (Push1 x size) = (RPush r, contents q').
Proof.
  intros Hq. pose proof (contents_length q Hq) as Hc. pose proof (size_le q Hq).
  unfold mdv_queue_push_one, fifo_exec. fold (mdv_queue_size q). rewrite Hc.
  destruct (size =? q_item_size q); cbn [negb andb]; [|done].
  destruct (Nat.eqb_spec (q_capacity q - mdv_queue_size q) 0);
    destruct (Nat.ltb_spec (mdv_queue_size q) (q_capacity q)); try lia; [done|].
  destruct (push_contents q [x] Hq) as [Hw' Hc']; [simpl; lia|].
  destruct Hq as [Hl ? ? ?]. unfold ring_write in *. cbn [length] in *.
  destruct (Nat.leb_spec (q_tail q + 1) (length (q_data q))); [|lia].
  split; [done|]. by rewrite Hc'.
Qed.

Lemma push_multiple_refines q xs size :
  wf q -> op_ok q (PushN xs size) ->
  let '(r, q') := mdv_queue_push_multiple q xs size in
  wf q' /\ fifo_exec (q_capacity q) (q_item_size q) (contents q) (PushN xs size) = (RPush r, contents q').
Proof.
  intros Hq Hok. simpl in Hok. pose proof (contents_length q Hq) as Hc. pose proof (size_le q Hq).
  unfold mdv_queue_push_multiple, fifo_exec. rewrite Hc, divides_test by apply Hq.
  destruct (size mod q_item_size q =? 0); cbn [negb andb]; [|done].
  set (n := size / q_item_size q) in *.
  assert (length (take n xs) = n) as Hn by (rewrite length_take; lia).
  pose proof (push_contents q (take n xs) Hq) as Hpush. rewrite Hn in Hpush.
  pose proof Hq as [Hl ? ? ?]. unfold ring_write in Hpush. rewrite Hn, Hl in Hpush.
  change (slice xs 0 n) with (take n xs).
  unfold mdv_queue_size in *. destruct (Nat.leb_spec (q_head q) (q_tail q)) as [Hht|Hht].
  - destruct (Nat.ltb_spec (q_capacity q - (q_tail q - q_head q)) n);
      destruct (Nat.leb_spec (q_tail q - q_head q + n) (q_capacity q)); try lia; [done|].
    assert ((n <=? q_capacity q + 1 - q_tail q) = (q_tail q + n <=? q_capacity q + 1)) as ->
      by (repeat case_cmp; lia).
    assert (take (q_capacity q + 1 - q_tail q) (take n xs) = slice xs 0 (q_capacity q + 1 - q_tail q)
      \/ q_tail q + n <= q_capacity q + 1) as [E|E].
    { destruct (decide (q_tail q + n <= q_capacity q + 1)); [by right|left].
      unfold slice. rewrite take_take, drop_0. f_equal. lia. }
    + destruct Hpush as [Hw' Hc']; [lia|]. rewrite E, skipn_firstn_comm in Hw', Hc'.
      split; [exact Hw'|]. f_equal. symmetry. exact Hc'.
    + apply Nat.leb_le in E. rewrite E in *. destruct Hpush as [Hw' Hc']; [lia|].
      split; [exact Hw'|]. by rewrite Hc'.
  - destruct (Nat.ltb_spec (q_capacity q - (q_capacity q + 1 + q_tail q - q_head q)) n);
      destruct (Nat.leb_spec (q_capacity q + 1 + q_tail q - q_head q + n) (q_capacity q)); try lia; [done|].
    destruct (Nat.leb_spec (q_tail q + n) (q_capacity q + 1)); [|lia].
    destruct Hpush as [Hw' Hc']; [lia|]. split; [exact Hw'|]. by rewrite Hc'.
Qed.

Lemma pop_one_refines q size :
  wf q -> let '(r, q') := mdv_queue_pop_one q size in
  wf q' /\ fifo_exec (q_capacity q) (q_item_size q) (contents q) (Pop1 size) = (RPop1 r, contents q').
Proof.
  intros Hq. pose proof (contents_length q Hq) as Hc. pose proof (size_le q Hq).
  unfold mdv_queue_pop_one, fifo_exec. fold (mdv_queue_size q).
  destruct (size =? q_item_size q); cbn [negb]; [|done].
  destruct (Nat.eqb_spec (mdv_queue_size q) 0) as [Hz|Hz].
  { destruct (contents q); simpl in *; [done|lia]. }
  destruct (pop_contents q 1 Hq) as (Hw' & Hc' & Ht); [lia|]. split; [done|]. rewrite Hc'.
  assert (q_data q !! q_head q = contents q !! 0) as ->.
  { destruct Hq as [Hl ? ? ?]. unfold contents. rewrite lookup_ring_slice by lia.
    unfold ring_pos. case_cmp; [f_equal|]; lia. }
  by destruct (contents q); simpl in *; [lia|].
Qed.

Lemma pop_multiple_refines q size :
  wf q -> let '(r, q') := mdv_queue_pop_multiple q size in
  wf q' /\ fifo_exec (q_capacity q) (q_item_size q) (contents q) (PopN size) = (RPopN r, contents q').
Proof.
  intros Hq. pose proof (contents_length q Hq) as Hc. pose proof (size_le q Hq).
  unfold mdv_queue_pop_multiple, fifo_exec. rewrite Hc, divides_test by apply Hq.
  destruct (size mod q_item_size q =? 0); cbn [negb andb]; [|done].
  set (n := size / q_item_size q) in *. pose proof Hq as [Hl ? ? ?].
  pose proof (pop_contents q n Hq) as Hpop. unfold ring_slice in Hpop. rewrite Hl in Hpop.
  unfold mdv_queue_size in *. destruct (Nat.leb_spec (q_head q) (q_tail q)) as [Hht|Hht].
  - destruct (Nat.ltb_spec (q_tail q - q_head q) n);
      destruct (Nat.leb_spec n (q_tail q - q_head q)); try lia; [done|].
    destruct Hpop as (Hw' & Hc' & Ht); [lia|].
    destruct (Nat.leb_spec (q_head q + n) (q_capacity q + 1)); [|lia].
    split; [exact Hw'|]. by rewrite Hc', Ht.
  - destruct (Nat.ltb_spec (q_capacity q + 1 + q_tail q - q_head q) n);
      destruct (Nat.leb_spec n (q_capacity q + 1 + q_tail q - q_head q)); try lia; [done|].
    destruct Hpop as (Hw' & Hc' & Ht); [lia|].
    assert ((n <=? q_capacity q + 1 - q_head q) = (q_head q + n <=? q_capacity q + 1)) as ->
      by (repeat case_cmp; lia).
    split; [exact Hw'|]. by rewrite Hc', Ht.
Qed.

(** No operation changes the capacity or the item size. *)
Lemma exec_frame q o :
  q_capacity (exec q o).2 = q_capacity q /\ q_item_size (exec q o).2 = q_item_size q.
Proof.
  destruct o; simpl;
    unfold mdv_queue_push_one, mdv_queue_push_multiple, mdv_queue_pop_one, mdv_queue_pop_multiple;
    repeat case_match; simplify_eq; done.
Qed.

Lemma exec_refines q o :
  wf q -> op_ok q o ->
  wf (exec q o).2 /\
  fifo_exec (q_capacity q) (q_item_size q) (contents q) o = ((exec q o).1, contents (exec q o).2).
Proof.
  intros Hq Hok. destruct o as [x size|xs size|size|size]; simpl exec.
  - pose proof (push_one_refines q x size Hq). by destruct (mdv_queue_push_one q x size).
  - pose proof (push_multiple_refines q xs size Hq Hok). by destruct (mdv_queue_push_multiple q xs size).
  - pose proof (pop_one_refines q size Hq). by destruct (mdv_queue_pop_one q size).
  - pose proof (pop_multiple_refines q size Hq). by destruct (mdv_queue_pop_multiple q size).
Qed.

(** Runs of operations: the returned values and the final state. *)
Fixpoint exec_all (q : mdv_queue) (os : list op) : list ret * mdv_queue :=
  match os with
  | [] => ([], q)
  | o :: os => let '(r, q') := exec q o in let '(rs, q'') := exec_all q' os in (r :: rs, q'')
  end.

Fixpoint fifo_exec_all (capacity item_size : nat) (s : list A) (os : list op) : list ret * list A :=
  match os with
  | [] => ([], s)
  | o :: os =>
      let '(r, s') := fifo_exec capacity item_size s o in
      let '(rs, s'') := fifo_exec_all capacity item_size s' os in (r :: rs, s'')
  end.

(** the ring buffer refines a bounded FIFO: for every sequence of single
    and block pushes and pops from a well-formed queue, the returned values are
    those of the list specification, the invariant holds after every step, and
    the final contents, size, free space and emptiness agree with the list. *)
Theorem mdv_queue_refines_fifo (q : mdv_queue) (os : list op) :
  wf q -> Forall (op_ok q) os ->
  let '(rs, q') := exec_all q os in
  wf q' /\
  fifo_exec_all (q_capacity q) (q_item_size q) (contents q) os = (rs, contents q') /\
  mdv_queue_size q' = length (contents q') /\
  mdv_queue_free_space q' = q_capacity q - length (contents q') /\
  (mdv_queue_empty q' = true <-> contents q' = []).
Proof.
  intros Hq Hos. revert q Hq Hos. induction os as [|o os IH]; intros q Hq Hos; simpl.
  - pose proof (contents_length q Hq) as Hc. unfold mdv_queue_free_space.
    split_and!; [done|done|done|by rewrite Hc|]. unfold mdv_queue_empty.
    rewrite <- length_zero_iff_nil, Hc, Nat.eqb_eq. destruct Hq.
    unfold mdv_queue_size. case_cmp; lia.
  - apply Forall_cons_1 in Hos as [Ho Hos].
    destruct (exec_refines q o Hq Ho) as [Hw He]. destruct (exec_frame q o) as [Hf1 Hf2].
    rewrite He. destruct (exec q o) as [r q1]. simpl in *.
    specialize (IH q1 Hw). destruct (exec_all q1 os) as [rs q2]. rewrite <- Hf1, <- Hf2.
    destruct IH as (? & -> & ? & ? & ?).
    { eapply Forall_impl; [exact Hos|]. intros []; simpl; by rewrite ?Hf2. }
    by split_and!.
Qed.

End Queue.
Arguments mdv_queue : clear implicits.
Arguments op : clear implicits.
Arguments ret : clear implicits.

Lemma mdv_queue_refines_fifo_witness :
  let q := mdv_queue_clear 4 [0; 0; 0; 0]%Z in
  let os := [PushN [1; 2; 3]%Z 12; Push1 9%Z 4; Pop1 4; Push1 4%Z 4; PopN 8; PopN 8; Pop1 3] in
  wf q /\ Forall (op_ok q) os /\
  exec_all q os = ([RPush true; RPush false; RPop1 (Some 1%Z); RPush true;
                    RPopN (Some [2; 3]%Z); RPopN None; RPop1 None],
                   mk_queue 3 4 3 0 [1; 2; 3; 4]%Z) /\
  contents (exec_all q os).2 = [4%Z] /\
  (let '(rs, q') := exec_all q os in
   wf q' /\
   fifo_exec_all (q_capacity q) (q_item_size q) (contents q) os = (rs, contents q') /\
   mdv_queue_size q' = length (contents q') /\
   mdv_queue_free_space q' = q_capacity q - length (contents q') /\
   (mdv_queue_empty q' = true <-> contents q' = [])).
Proof.
  intros q os.
  assert (wf q) as Hq by (split; simpl; lia).
  assert (Forall (op_ok q) os) as Ho by (repeat constructor; vm_compute; lia).
  split_and!; [exact Hq|exact Ho|vm_compute; reflexivity|vm_compute; reflexivity|].
  exact (mdv_queue_refines_fifo q os Hq Ho).
Defined.

End Queue.
