(* ===== verification/DList.v ===== *)
(** * Doubly linked list (src/mdv_platform/generic/mdv_list.c, mdv_list.h)

    Entries live in a heap indexed by address; the null pointer is [None].  An
    operation returns [None] where the C code would dereference an address that
    is not an allocated entry.  The representation predicate [dll] relates the
    pointers to the sequence of addresses of the list. *)

From S2P Require Import Prelude.

Module DList.
Section DList.
Context {D : Type}.

Abbreviation addr := nat.

Record mdv_list_entry := mk_entry {
  e_next : option addr;
  e_prev : option addr;
  e_data : D
}.

Record mdv_list := mk_list {
  l_next : option addr;
  l_last : option addr
}.

Abbreviation heap := (gmap addr mdv_list_entry).

Definition set_next (e : mdv_list_entry) (n : option addr) := mk_entry n (e_prev e) (e_data e).
Definition set_prev (e : mdv_list_entry) (p : option addr) := mk_entry (e_next e) p (e_data e).

(** [p->field = v] for a pointer to an allocated entry. *)
Definition store (h : heap) (p : addr) (f : mdv_list_entry -> mdv_list_entry) : option heap :=
  match h !! p with Some e => Some (<[p := f e]> h) | None => None end.

Definition empty_list : mdv_list := mk_list None None.

Definition mdv_list_empty (l : mdv_list) : bool :=
  match l_next l with None => true | Some _ => false end.

Definition mdv_list_emplace_back (h : heap) (l : mdv_list) (entry : addr) : option (heap * mdv_list) :=
  match l_next l with
  | None =>
      h ← store h entry (fun e => mk_entry None None (e_data e));
      Some (h, mk_list (Some entry) (Some entry))
  | Some _ =>
      h ← store h entry (fun e => mk_entry None (l_last l) (e_data e));
      last ← l_last l;
      h ← store h last (fun e => set_next e (Some entry));
      Some (h, mk_list (l_next l) (Some entry))
  end.

(** [mem]: the address the allocator returned.  The third component is the
    returned pointer. *)
Definition mdv_list_push_back_data (mem : option addr) (h : heap) (l : mdv_list) (val : D)
  : option (heap * mdv_list * option addr) :=
  match mem with
  | None => Some (h, l, None)
  | Some entry =>
      '(h, l) ← mdv_list_emplace_back (<[entry := mk_entry None None val]> h) l entry;
      Some (h, l, Some entry)
  end.

Definition mdv_list_exclude (h : heap) (l : mdv_list) (entry : addr) : option (heap * mdv_list) :=
  e ← h !! entry;
  '(h, l) ← match e_prev e with
            | Some p => h ← store h p (fun x => set_next x (e_next e)); Some (h, l)
            | None => Some (h, mk_list (e_next e) (l_last l))
            end;
  match e_next e with
  | Some n => h ← store h n (fun x => set_prev x (e_prev e)); Some (h, l)
  | None => Some (h, mk_list (l_next l) (e_prev e))
  end.

Definition mdv_list_remove (h : heap) (l : mdv_list) (entry : addr) : option (heap * mdv_list) :=
  '(h, l) ← mdv_list_exclude h l entry;
  Some (delete entry h, l).

Definition mdv_list_pop_back (h : heap) (l : mdv_list) : option (heap * mdv_list) :=
  last ← l_last l;
  mdv_list_remove h l last.

(** The loop of [mdv_list_clear] over the entries from [p] on. *)
Fixpoint mdv_list_clear_loop (fuel : nat) (h : heap) (p : option addr) : outcome heap :=
  match fuel with
  | 0 => OutOfFuel
  | S fuel =>
      match p with
      | None => Done h
      | Some entry =>
          match h !! entry with
          | None => OutOfBounds (Z.of_nat entry)
          | Some e => mdv_list_clear_loop fuel (delete entry h) (e_next e)
          end
      end
  end.

Definition mdv_list_clear (h : heap) (l : mdv_list) : outcome (heap * mdv_list) :=
  match mdv_list_clear_loop (S (size h)) h (l_next l) with
  | Done h => Done (h, empty_list)
  | OutOfBounds i => OutOfBounds i
  | OutOfFuel => OutOfFuel
  end.

(** The moved list and the emptied source. *)
Definition mdv_list_move (l : mdv_list) : mdv_list * mdv_list :=
  (mk_list (l_next l) (l_last l), empty_list).

(** [mdv_list_foreach]: the data of the entries in the order of the links. *)
Fixpoint mdv_list_foreach (fuel : nat) (h : heap) (p : option addr) : outcome (list D) :=
  match fuel with
  | 0 => OutOfFuel
  | S fuel =>
      match p with
      | None => Done []
      | Some entry =>
          match h !! entry with
          | None => OutOfBounds (Z.of_nat entry)
          | Some e =>
              match mdv_list_foreach fuel h (e_next e) with
              | Done ds => Done (e_data e :: ds)
              | OutOfBounds i => OutOfBounds i
              | OutOfFuel => OutOfFuel
              end
          end
      end
  end.

(** ** Representation *)

Definition hd_or (es : list addr) (nxt : option addr) : option addr :=
  match es with [] => nxt | y :: _ => Some y end.

Definition last_or (prev : option addr) (es : list addr) : option addr :=
  match last es with Some x => Some x | None => prev end.

(** A segment: the entries [es] linked one after the other, the first one after
    [prev] and the last one before [nxt]. *)
Fixpoint lseg (h : heap) (prev : option addr) (es : list addr) (nxt : option addr) : Prop :=
  match es with
  | [] => True
  | x :: es' =>
      (exists d, h !! x = Some (mk_entry (hd_or es' nxt) prev d)) /\ lseg h (Some x) es' nxt
  end.

Record dll (h : heap) (l : mdv_list) (es : list addr) : Prop := {
  dll_nodup : NoDup es;
  dll_next : l_next l = hd_or es None;
  dll_last : l_last l = last_or None es;
  dll_seg : lseg h None es None
}.

(** The payloads of a sequence of entries. *)
Definition datas (h : heap) (es : list addr) : list (option D) :=
  (fun x => e_data <$> h !! x) <$> es.

(** [h'] differs from [h] only in the links of the entries [es]. *)
Definition relinked (es : list addr) (h h' : heap) : Prop :=
  forall x, (x ∉ es -> h' !! x = h !! x) /\ e_data <$> h' !! x = e_data <$> h !! x.

Lemma relinked_refl es h : relinked es h h.
Proof. done. Qed.

Lemma relinked_datas es h h' xs : relinked es h h' -> datas h' xs = datas h xs.
Proof. intros Hr. apply list_fmap_ext. intros ? x _. apply Hr. Qed.

Lemma relinked_trans es h1 h2 h3 : relinked es h1 h2 -> relinked es h2 h3 -> relinked es h1 h3.
Proof.
  intros H1 H2 x. destruct (H1 x) as [A1 B1], (H2 x) as [A2 B2]. split; [|congruence].
  intros ?. by rewrite A2, A1.
Qed.

(** A store to a linked entry changes only its links. *)
Lemma relinked_store es h p e e' :
  h !! p = Some e -> p ∈ es -> e_data e' = e_data e -> relinked es h (<[p := e']> h).
Proof.
  intros He Hp Hf x. split.
  - intros Hx. rewrite lookup_insert_ne; [done|]. by intros ->.
  - destruct (decide (x = p)) as [->|].
    + rewrite lookup_insert_eq, He. simpl. by rewrite Hf.
    + by rewrite lookup_insert_ne.
Qed.

Lemma lseg_allocated h prev es nxt x : lseg h prev es nxt -> x ∈ es -> is_Some (h !! x).
Proof.
  revert prev. induction es as [|y es IH]; intros prev Hl Hx; [by apply elem_of_nil in Hx|].
  destruct Hl as [[d Hd] Hl]. apply elem_of_cons in Hx as [->|Hx]; eauto.
Qed.

Lemma lseg_frame h h' prev es nxt :
  (forall x, x ∈ es -> h' !! x = h !! x) -> lseg h prev es nxt -> lseg h' prev es nxt.
Proof.
  revert prev. induction es as [|y es IH]; intros prev Hf Hl; [done|].
  destruct Hl as [[d Hd] Hl]. split.
  - exists d. rewrite Hf by (by left). done.
  - apply IH; [|done]. intros x Hx. apply Hf. by right.
Qed.

Lemma lseg_insert_ne h prev es nxt p e :
  p ∉ es -> lseg h prev es nxt -> lseg (<[p := e]> h) prev es nxt.
Proof.
  intros Hp. apply lseg_frame. intros x Hx. apply lookup_insert_ne. by intros ->.
Qed.

Lemma hd_or_app es1 es2 nxt : hd_or (es1 ++ es2) nxt = hd_or es1 (hd_or es2 nxt).
Proof. by destruct es1. Qed.

Lemma last_or_snoc prev es x : last_or prev (es ++ [x]) = Some x.
Proof. unfold last_or. by rewrite last_snoc. Qed.

Lemma last_or_cons prev x es : last_or prev (x :: es) = last_or (Some x) es.
Proof. unfold last_or. rewrite last_cons. by destruct (last es). Qed.

Lemma last_or_app prev es1 es2 : last_or prev (es1 ++ es2) = last_or (last_or prev es1) es2.
Proof. unfold last_or. rewrite last_app. by destruct (last es2). Qed.

Lemma lseg_app h prev es1 es2 nxt :
  lseg h prev (es1 ++ es2) nxt <->
  lseg h prev es1 (hd_or es2 nxt) /\ lseg h (last_or prev es1) es2 nxt.
Proof.
  revert prev. induction es1 as [|x es1 IH]; intros prev; simpl; [tauto|].
  rewrite hd_or_app, IH, last_or_cons. tauto.
Qed.

(** Redirecting the last [next] of a segment. *)
Lemma lseg_set_next h prev es p nxt nxt' :
  NoDup (es ++ [p]) -> lseg h prev (es ++ [p]) nxt ->
  exists e, h !! p = Some e /\ lseg (<[p := set_next e nxt']> h) prev (es ++ [p]) nxt'.
Proof.
  rewrite NoDup_app. intros (_ & Hd & _). rewrite !lseg_app. simpl.
  intros [Hes [[d Hp] _]]. eexists. split; [exact Hp|]. rewrite lseg_app. simpl. split.
  - apply lseg_insert_ne; [|done]. intros Hin. apply (Hd p Hin). by left.
  - split; [|done]. exists d. rewrite lookup_insert_eq. done.
Qed.

(** Redirecting the first [prev] of a segment. *)
Lemma lseg_set_prev h prev prev' n es nxt :
  NoDup (n :: es) -> lseg h prev (n :: es) nxt ->
  exists e, h !! n = Some e /\ lseg (<[n := set_prev e prev']> h) prev' (n :: es) nxt.
Proof.
  intros [Hn _]%NoDup_cons [[d Hd] Hl]. eexists. split; [exact Hd|]. split.
  - exists d. rewrite lookup_insert_eq. done.
  - by apply lseg_insert_ne.
Qed.

(** ** The operations *)

Lemma mdv_list_emplace_back_spec h l es entry :
  dll h l es -> is_Some (h !! entry) -> entry ∉ es ->
  exists h' l', mdv_list_emplace_back h l entry = Some (h', l') /\
    dll h' l' (es ++ [entry]) /\ relinked (es ++ [entry]) h h'.
Proof.
  intros [Hn H1 H2 H3] [e He] Hin. unfold mdv_list_emplace_back, store.
  destruct (snoc_cases es) as [->|(es' & p & ->)]; rewrite H1.
  - simpl. rewrite He. simpl. eexists _, _. split; [done|]. split.
    + split; simpl; [by apply NoDup_singleton|done..|]. split; [|done].
      exists (e_data e). by rewrite lookup_insert_eq.
    + eapply relinked_store; [exact He|by left|done].
  - assert (hd_or (es' ++ [p]) None = Some (default p (head es'))) as Hhd by (by destruct es').
    rewrite Hhd, He, H2, last_or_snoc. simpl.
    set (h1 := <[entry := _]> h).
    assert (relinked ((es' ++ [p]) ++ [entry]) h h1) as Hr1.
    { eapply relinked_store; [exact He|set_solver|done]. }
    destruct (lseg_set_next h1 None es' p None (Some entry)) as (ep & Hep & Hseg); [done| |].
    { apply lseg_insert_ne; [done|exact H3]. }
    rewrite Hep. simpl. eexists _, _. split; [done|]. split.
    + split; simpl.
      * apply NoDup_app. split_and!; [done| |apply NoDup_singleton].
        intros x Hx ->%list_elem_of_singleton. done.
      * rewrite hd_or_app. simpl. by destruct es'.
      * by rewrite last_or_snoc.
      * apply lseg_app. simpl. split; [exact Hseg|]. split; [|done].
        exists (e_data e). rewrite lookup_insert_ne by set_solver. unfold h1.
        rewrite lookup_insert_eq. by rewrite last_or_snoc.
    + eapply relinked_trans; [exact Hr1|]. eapply relinked_store; [exact Hep|set_solver|done].
Qed.

Lemma mdv_list_exclude_spec h l pre entry post :
  dll h l (pre ++ entry :: post) ->
  exists h' l', mdv_list_exclude h l entry = Some (h', l') /\
    dll h' l' (pre ++ post) /\ relinked (pre ++ post) h h' /\ is_Some (h' !! entry).
Proof.
  intros [Hn H1 H2 H3]. apply lseg_app in H3 as [Hpre Hpost]. simpl in *.
  destruct Hpost as [[d He] Hpost].
  pose proof Hn as (Hn1 & Hd & [Hn2 Hn3]%NoDup_cons)%NoDup_app.
  assert (entry ∉ pre) as Hep by (intros Hi; apply (Hd _ Hi); by left).
  assert (NoDup (pre ++ post)) as Hn'.
  { apply NoDup_app. split_and!; [done| |done]. intros x Hx Hx'. apply (Hd x Hx). by right. }
  assert (hd_or (pre ++ post) None = hd_or pre (hd_or post None)) as Hhd by apply hd_or_app.
  assert (last_or None (pre ++ post) = last_or (last_or None pre) post) as Hla by apply last_or_app.
  rewrite last_or_app, last_or_cons in H2. rewrite hd_or_app in H1. simpl in H1.
  unfold mdv_list_exclude. rewrite He. simpl.
  (* unlink from the previous entry or the list head *)
  assert (exists h1 l1, match last_or None pre with
      | Some p => h0 ← store h p (fun x => set_next x (hd_or post None)); Some (h0, l)
      | None => Some (h, mk_list (hd_or post None) (l_last l)) end = Some (h1, l1) /\
      lseg h1 None pre (hd_or post None) /\ lseg h1 (Some entry) post None /\
      relinked (pre ++ post) h h1 /\ h1 !! entry = h !! entry /\
      l_next l1 = hd_or pre (hd_or post None) /\ l_last l1 = l_last l) as (h1 & l1 & -> & Hp1 & Hq1 & Hr1 & He1 & Hl1 & Hl1').
  { destruct (snoc_cases pre) as [->|(pre' & p & ->)].
    - eexists _, _. split; [done|]. by split_and!.
    - rewrite last_or_snoc. unfold store.
      destruct (lseg_set_next h None pre' p (Some entry) (hd_or post None)) as (ep & Hpe & Hs); [done..|].
      rewrite Hpe. simpl. eexists _, _. split; [done|]. split_and!.
      + exact Hs.
      + apply lseg_insert_ne; [|done]. intros Hi. apply (Hd p); [set_solver|by right].
      + eapply relinked_store; [exact Hpe|set_solver|done].
      + apply lookup_insert_ne. set_solver.
      + rewrite H1. by destruct pre'.
      + done. }
  simpl. destruct post as [|n post]; simpl.
  - (* the last entry: the list's last pointer moves back *)
    eexists _, _. split; [done|]. rewrite app_nil_r in *. split_and!; [|done|by rewrite He1, He].
    split; simpl; [done|exact Hl1|done|exact Hp1].
  - unfold store.
    destruct (lseg_set_prev h1 (Some entry) (last_or None pre) n post None) as (en & Hen & Hs); [done..|].
    rewrite Hen. simpl. eexists _, _. split; [done|]. split_and!.
    + split; simpl; [done|by rewrite Hl1, hd_or_app| |].
      * rewrite Hl1', H2, Hla. by rewrite !last_or_cons.
      * apply lseg_app. split; [|exact Hs].
        apply lseg_insert_ne; [|exact Hp1]. intros Hi. apply (Hd n Hi). set_solver.
    + eapply relinked_trans; [exact Hr1|]. eapply relinked_store; [exact Hen|set_solver|done].
    + rewrite lookup_insert_ne by set_solver. by rewrite He1, He.
Qed.

Lemma mdv_list_remove_spec h l pre entry post :
  dll h l (pre ++ entry :: post) ->
  exists h' l', mdv_list_remove h l entry = Some (h', l') /\ dll h' l' (pre ++ post) /\
    h' !! entry = None /\ datas h' (pre ++ post) = datas h (pre ++ post).
Proof.
  intros Hdll. destruct (mdv_list_exclude_spec h l pre entry post Hdll) as (h1 & l1 & E & Hd1 & Hr & _).
  pose proof (dll_nodup _ _ _ Hdll) as (_ & Hd & [Hn2 _]%NoDup_cons)%NoDup_app.
  assert (entry ∉ pre ++ post) as Hni.
  { rewrite not_elem_of_app. split; [|done]. intros Hi. apply (Hd _ Hi). by left. }
  unfold mdv_list_remove. rewrite E. simpl. eexists _, _. split; [done|].
  assert (forall x, x ∈ pre ++ post -> delete entry h1 !! x = h1 !! x) as Hf.
  { intros x Hx. apply lookup_delete_ne. by intros ->. }
  split_and!; [|apply lookup_delete_eq|].
  - destruct Hd1 as [A B C S]. split; [done..|]. by eapply lseg_frame.
  - rewrite <- (relinked_datas _ _ _ _ Hr). apply list_fmap_ext. intros i x Hx.
    rewrite Hf; [done|]. by eapply list_elem_of_lookup_2.
Qed.

(** Clearing frees exactly the entries of the list. *)
Lemma mdv_list_clear_loop_spec fuel h prev es :
  NoDup es -> lseg h prev es None -> length es < fuel ->
  exists h', mdv_list_clear_loop fuel h (hd_or es None) = Done h' /\
    forall x, h' !! x = if decide (x ∈ es) then None else h !! x.
Proof.
  revert h prev es. induction fuel as [|fuel IH]; intros h prev es Hn Hs Hf; [lia|].
  destruct es as [|x es]; simpl.
  { exists h. split; [done|]. done. }
  destruct Hs as [[d Hd] Hs]. rewrite Hd. simpl. apply NoDup_cons in Hn as [Hx Hn].
  destruct (IH (delete x h) (Some x) es) as (h' & -> & Hh'); [done| |simpl in Hf; lia|].
  { eapply lseg_frame; [|exact Hs]. intros y Hy. apply lookup_delete_ne. by intros ->. }
  exists h'. split; [done|]. intros y. rewrite Hh'.
  destruct (decide (y = x)) as [->|Hyx].
  - rewrite decide_False, (decide_True (P := x ∈ x :: es)) by (done || by left). apply lookup_delete_eq.
  - rewrite lookup_delete_ne by done. destruct (decide (y ∈ es)) as [Hy|Hy].
    + by rewrite decide_True by (by right).
    + rewrite decide_False; [done|]. by intros [?|?]%elem_of_cons.
Qed.

Lemma lseg_length h prev es nxt : NoDup es -> lseg h prev es nxt -> length es <= size h.
Proof.
  intros Hn Hs. rewrite <- (size_list_to_set (C := gset addr) es), <- size_dom by done.
  apply subseteq_size. intros x. rewrite elem_of_list_to_set, elem_of_dom.
  by apply (lseg_allocated h prev es nxt).
Qed.

Lemma mdv_list_foreach_spec fuel h prev es :
  lseg h prev es None -> length es < fuel ->
  exists ds, mdv_list_foreach fuel h (hd_or es None) = Done ds /\ datas h es = Some <$> ds.
Proof.
  revert prev es. induction fuel as [|fuel IH]; intros prev es Hs Hf; [lia|].
  destruct es as [|x es]; simpl; [by exists []|].
  destruct Hs as [[d Hd] Hs]. rewrite Hd. simpl.
  destruct (IH (Some x) es) as (ds & -> & Hds); [done|simpl in Hf; lia|].
  exists (d :: ds). split; [done|]. unfold datas in *. by rewrite Hds.
Qed.

(** The list [l] holds the values [ds], in order. *)
Definition holds (h : heap) (l : mdv_list) (ds : list D) : Prop :=
  exists es, dll h l es /\ datas h es = Some <$> ds.

Lemma holds_foreach h l ds :
  holds h l ds -> mdv_list_foreach (S (size h)) h (l_next l) = Done ds.
Proof.
  intros (es & [Hn H1 H2 H3] & Hds). pose proof (lseg_length _ _ _ _ Hn H3).
  destruct (mdv_list_foreach_spec (S (size h)) h None es) as (ds' & E & Hds'); [done|lia|].
  rewrite H1, E. f_equal. rewrite Hds in Hds'. by apply (inj (fmap Some)) in Hds'.
Qed.

(** ** Properties *)

(** appending a value keeps the links consistent and the enumeration
    yields the old values followed by the new one; without memory nothing
    changes; clearing then frees every entry of the list, frees nothing else and
    terminates. *)
Theorem mdv_list_push_back_correct (h : heap) (l : mdv_list) (ds : list D) (entry : addr) (val : D) :
  holds h l ds -> h !! entry = None ->
  mdv_list_push_back_data None h l val = Some (h, l, None) /\
  exists h' l', mdv_list_push_back_data (Some entry) h l val = Some (h', l', Some entry) /\
    holds h' l' (ds ++ [val]) /\
    mdv_list_foreach (S (size h')) h' (l_next l') = Done (ds ++ [val]) /\
    exists es h'', dll h' l' es /\ mdv_list_clear h' l' = Done (h'', empty_list) /\
      forall x, h'' !! x = if decide (x ∈ es) then None else h' !! x.
Proof.
  intros (es & Hdll & Hds) Hfresh. split; [done|].
  assert (entry ∉ es) as Hni.
  { intros Hin. destruct (lseg_allocated _ _ _ _ _ (dll_seg _ _ _ Hdll) Hin). congruence. }
  assert (dll (<[entry := mk_entry None None val]> h) l es) as Hdll1.
  { destruct Hdll. split; [done..|]. by apply lseg_insert_ne. }
  destruct (mdv_list_emplace_back_spec _ l es entry Hdll1) as (h' & l' & E & Hd' & Hr); [|done|].
  { by rewrite lookup_insert_eq. }
  simpl. rewrite E. simpl. exists h', l'. split; [done|].
  assert (holds h' l' (ds ++ [val])) as Hh'.
  { exists (es ++ [entry]). split; [done|]. rewrite (relinked_datas _ _ _ _ Hr).
    unfold datas in *. rewrite !fmap_app, <- Hds. f_equal.
    - apply list_fmap_ext. intros i x Hx. rewrite lookup_insert_ne; [done|].
      intros ->. apply Hni. by eapply list_elem_of_lookup_2.
    - cbn. by rewrite lookup_insert_eq. }
  split_and!; [done|by apply holds_foreach|]. exists (es ++ [entry]).
  destruct Hd' as [Hn H1 H2 H3]. pose proof (lseg_length _ _ _ _ Hn H3).
  destruct (mdv_list_clear_loop_spec (S (size h')) h' None (es ++ [entry])) as (h'' & E' & Hh''); [done|done|lia|].
  exists h''. split; [by split|]. unfold mdv_list_clear. rewrite H1, E'. done.
Qed.

(** removing an entry at any position links its neighbours, frees the
    entry, keeps every other value in order, and excluding an entry and
    appending it again moves it to the back with its value. *)
Theorem mdv_list_remove_correct (h : heap) (l : mdv_list) (pre post : list addr) (entry : addr) :
  dll h l (pre ++ entry :: post) ->
  (exists h' l', mdv_list_remove h l entry = Some (h', l') /\ dll h' l' (pre ++ post) /\
     h' !! entry = None /\ datas h' (pre ++ post) = datas h (pre ++ post)) /\
  (exists h1 l1 h' l', mdv_list_exclude h l entry = Some (h1, l1) /\
     mdv_list_emplace_back h1 l1 entry = Some (h', l') /\
     dll h' l' (pre ++ post ++ [entry]) /\
     datas h' (pre ++ post ++ [entry]) = datas h (pre ++ post ++ [entry])).
Proof.
  intros Hdll. split; [by apply mdv_list_remove_spec|].
  destruct (mdv_list_exclude_spec h l pre entry post Hdll) as (h1 & l1 & E & Hd1 & Hr & Ha).
  pose proof (dll_nodup _ _ _ Hdll) as (_ & Hd & [Hn2 _]%NoDup_cons)%NoDup_app.
  destruct (mdv_list_emplace_back_spec h1 l1 (pre ++ post) entry Hd1 Ha) as (h' & l' & E' & Hd' & Hr').
  { rewrite not_elem_of_app. split; [|done]. intros Hi. apply (Hd _ Hi). by left. }
  exists h1, l1, h', l'. rewrite <- app_assoc in Hd'. split_and!; [done..|].
  by rewrite (relinked_datas _ _ _ _ Hr'), (relinked_datas _ _ _ _ Hr).
Qed.

End DList.
Arguments mdv_list_entry : clear implicits.

(** Three entries built by pushes. *)
Definition demo : option (gmap nat (mdv_list_entry Z) * mdv_list) :=
  '(h, l, _) ← mdv_list_push_back_data (Some 10) ∅ empty_list 1%Z;
  '(h, l, _) ← mdv_list_push_back_data (Some 20) h l 2%Z;
  '(h, l, _) ← mdv_list_push_back_data (Some 30) h l 3%Z;
  Some (h, l).

Definition demo_heap : gmap nat (mdv_list_entry Z) := default ∅ (fst <$> demo).
Definition demo_list : mdv_list := default empty_list (snd <$> demo).

Lemma demo_dll : dll demo_heap demo_list ([10] ++ 20 :: [30]).
Proof.
  split; [|reflexivity..|].
  - apply (bool_decide_unpack _). vm_compute. exact I.
  - split; [exists 1%Z; vm_compute; reflexivity|].
    split; [exists 2%Z; vm_compute; reflexivity|].
    split; [exists 3%Z; vm_compute; reflexivity|exact I].
Qed.

Lemma mdv_list_push_back_correct_witness :
  holds demo_heap demo_list [1; 2; 3]%Z /\ demo_heap !! 40 = None /\
  exists h' l', mdv_list_push_back_data (Some 40) demo_heap demo_list 4%Z = Some (h', l', Some 40) /\
    holds h' l' [1; 2; 3; 4]%Z.
Proof.
  assert (holds demo_heap demo_list [1; 2; 3]%Z) as Hh.
  { exists ([10] ++ 20 :: [30]). split; [exact demo_dll|vm_compute; reflexivity]. }
  assert (demo_heap !! 40 = None) as Hf by (vm_compute; reflexivity).
  split_and!; [exact Hh|exact Hf|].
  destruct (proj2 (mdv_list_push_back_correct demo_heap demo_list [1; 2; 3]%Z 40 4%Z Hh Hf))
    as (h' & l' & E & H & _).
  exists h', l'. split; [exact E|exact H].
Defined.

Lemma mdv_list_remove_correct_witness :
  exists h' l', mdv_list_remove demo_heap demo_list 20 = Some (h', l') /\ dll h' l' [10; 30].
Proof.
  destruct (proj1 (mdv_list_remove_correct demo_heap demo_list [10] [30] 20 demo_dll))
    as (h' & l' & E & H & _).
  exists h', l'. split; [exact E|exact H].
Defined.

End DList.
