(* ===== verification/Hashmap.v ===== *)
(** * Hash map (src/mdv_platform/generic/mdv_hashmap.c, mdv_hashmap.h)

    A bucket is the sequence of the items of its [mdv_list] ([DList] proves that
    the linked list implements the appends and removals used here).  The hash
    and comparison functions the map is created with are the class [HashKey];
    what the map relies on is the class [HashKeyOk]. *)

From S2P Require Import Prelude.

(** The functions [hash_fn] and [key_cmp_fn] of a key type. *)
Class HashKey (K : Type) := {
  hash_fn : K -> Z;
  key_cmp_fn : K -> K -> Z
}.

(** Two keys are the same when the comparison yields zero. *)
Definition keq {K} `{HashKey K} (a b : K) : Prop := key_cmp_fn a b = 0%Z.

(** What a key type promises to the map. *)
Class HashKeyOk (K : Type) `{HashKey K} := {
  keq_equiv :: Equivalence (keq (K := K));
  hash_keq : forall a b : K, keq a b -> hash_fn a = hash_fn b
}.

Module Hashmap.
Section Hashmap.
Context {I K : Type} `{HashKey K} (key_of : I -> K).

Record mdv_hashmap := mk_hashmap {
  hm_rc : Z;
  hm_capacity : nat;
  hm_size : nat;
  hm_key_offset : nat;
  hm_key_size : nat;
  hm_buckets : list (list I)
}.

(** [capacity *= 5 / 4] multiplies by one: the division is an integer division.
    [mem] and [mem_buckets] tell whether the two allocations succeed. *)
Definition mdv_hashmap_create (mem mem_buckets : bool) (capacity key_offset key_size : nat)
  : option mdv_hashmap :=
  if negb mem then None else
  let capacity := capacity * (5 / 4) in
  if capacity =? 0 then Some (mk_hashmap 1 capacity 0 key_offset key_size [])
  else if mem_buckets
  then Some (mk_hashmap 1 capacity 0 key_offset key_size (replicate capacity []))
  else None.

(** [mdv_hashmap_clear] empties the buckets and leaves [size] as it is. *)
Definition mdv_hashmap_clear (hm : mdv_hashmap) : mdv_hashmap :=
  if hm_size hm =? 0 then hm
  else mk_hashmap (hm_rc hm) (hm_capacity hm) (hm_size hm) (hm_key_offset hm) (hm_key_size hm)
         ((fun _ => []) <$> hm_buckets hm).

Definition mdv_hashmap_retain (hm : mdv_hashmap) : mdv_hashmap :=
  mk_hashmap (rc_retain (hm_rc hm)) (hm_capacity hm) (hm_size hm) (hm_key_offset hm)
    (hm_key_size hm) (hm_buckets hm).

(** [None]: the map and its entries are freed ([mdv_hashmap_free]). *)
Definition mdv_hashmap_release (hm : mdv_hashmap) : option mdv_hashmap * Z :=
  let '(rc, ret, freed) := rc_release (hm_rc hm) in
  (if freed then None
   else Some (mk_hashmap rc (hm_capacity hm) (hm_size hm) (hm_key_offset hm)
                (hm_key_size hm) (hm_buckets hm)), ret).

Definition bucket_idx (k : K) (capacity : nat) : nat :=
  Z.to_nat (hash_fn k mod Z.of_nat capacity).

Definition key_matches (k : K) (it : I) : bool := (key_cmp_fn k (key_of it) =? 0)%Z.

(** First matching entry of a bucket, and the bucket without it. *)
Definition bucket_find (k : K) (b : list I) : option I := List.find (key_matches k) b.

Fixpoint bucket_remove (k : K) (b : list I) : list I :=
  match b with
  | [] => []
  | it :: b => if key_matches k it then b else it :: bucket_remove k b
  end.

(** [mdv_list_emplace_back] on the bucket of an item. *)
Definition emplace (capacity : nat) (bs : list (list I)) (it : I) : list (list I) :=
  alter (fun b => b ++ [it]) (bucket_idx (key_of it) capacity) bs.

(** The returned flag and the map; [mem]: the allocation of the new buckets. *)
Definition mdv_hashmap_resize (mem : bool) (hm : mdv_hashmap) (capacity : nat) : bool * mdv_hashmap :=
  if hm_size hm <? capacity then
    if mem then
      (true, mk_hashmap (hm_rc hm) capacity (hm_size hm) (hm_key_offset hm) (hm_key_size hm)
               (fold_left (fun bs b => fold_left (emplace capacity) b bs) (hm_buckets hm)
                  (replicate capacity [])))
    else (false, hm)
  else (false, hm).

Definition set_bucket (hm : mdv_hashmap) (i : nat) (b : list I) (size : nat) : mdv_hashmap :=
  mk_hashmap (hm_rc hm) (hm_capacity hm) size (hm_key_offset hm) (hm_key_size hm)
    (<[i := b]> (hm_buckets hm)).

(** The loop of [mdv_hashmap_insert] that removes an old value of the key: the
    bucket and the new [size]. *)
Definition remove_old (key : K) (bucket : list I) (size : nat) : list I * nat :=
  match bucket_find key bucket with
  | Some _ => (bucket_remove key bucket, size - 1)
  | None => (bucket, size)
  end.

(** The part of [mdv_hashmap_insert] after the resize.  [None] is a division by
    zero or a read outside the table.  Otherwise: the item behind the returned
    pointer (if not null) and the map. *)
Definition put_entry (mem_entry : bool) (hm : mdv_hashmap) (item : I) : option (option I * mdv_hashmap) :=
  if hm_capacity hm =? 0 then None else
  let key := key_of item in
  let i := bucket_idx key (hm_capacity hm) in
  bucket ← hm_buckets hm !! i;
  let '(bucket, n) := remove_old key bucket (hm_size hm) in
  if mem_entry then Some (Some item, set_bucket hm i (bucket ++ [item]) (n + 1))
  else Some (None, set_bucket hm i bucket n).

(** The load factor is 3/4. *)
Definition mdv_hashmap_insert (mem_resize mem_entry : bool) (hm : mdv_hashmap) (item : I) (size : nat)
  : option (option I * mdv_hashmap) :=
  if size <? hm_key_offset hm + hm_key_size hm then Some (None, hm) else
  let '(ok, hm) :=
    if hm_capacity hm * 3 / 4 <? hm_size hm
    then mdv_hashmap_resize mem_resize hm (hm_capacity hm * 2) else (true, hm) in
  if negb ok then Some (None, hm) else put_entry mem_entry hm item.

Definition mdv_hashmap_find (hm : mdv_hashmap) (key : K) : option (option I) :=
  if hm_capacity hm =? 0 then Some None else
  bucket ← hm_buckets hm !! bucket_idx key (hm_capacity hm);
  Some (bucket_find key bucket).

Definition mdv_hashmap_erase (hm : mdv_hashmap) (key : K) : option (bool * mdv_hashmap) :=
  if hm_capacity hm =? 0 then Some (false, hm) else
  let i := bucket_idx key (hm_capacity hm) in
  bucket ← hm_buckets hm !! i;
  match bucket_find key bucket with
  | Some _ => Some (true, set_bucket hm i (bucket_remove key bucket) (hm_size hm - 1))
  | None => Some (false, hm)
  end.

(** [mdv_hashmap_foreach]: the items, bucket by bucket. *)
Definition mdv_hashmap_foreach (hm : mdv_hashmap) : list I := concat (hm_buckets hm).

(** ** Invariant *)

Fixpoint nodup_keys (b : list I) : Prop :=
  match b with
  | [] => True
  | it :: b => Forall (fun x => ~ keq (key_of it) (key_of x)) b /\ nodup_keys b
  end.

Record wf (hm : mdv_hashmap) : Prop := {
  wf_len : length (hm_buckets hm) = hm_capacity hm;
  wf_placed : forall i b it, hm_buckets hm !! i = Some b -> it ∈ b ->
    bucket_idx (key_of it) (hm_capacity hm) = i;
  wf_nodup : forall i b, hm_buckets hm !! i = Some b -> nodup_keys b;
  wf_size : hm_size hm = length (mdv_hashmap_foreach hm);
  wf_load : hm_size hm <= hm_capacity hm
}.

Context `{!HashKeyOk K}.

Lemma key_matches_true k it : key_matches k it = true <-> keq k (key_of it).
Proof. apply Z.eqb_eq. Qed.

Lemma bucket_find_cons k it b :
  bucket_find k (it :: b) = if key_matches k it then Some it else bucket_find k b.
Proof. done. Qed.

Lemma bucket_find_app k b1 b2 :
  bucket_find k (b1 ++ b2) =
    match bucket_find k b1 with Some x => Some x | None => bucket_find k b2 end.
Proof.
  induction b1 as [|it b1 IH]; [done|]. rewrite <- app_comm_cons, !bucket_find_cons.
  by destruct (key_matches k it).
Qed.

Lemma bucket_find_None k b :
  bucket_find k b = None <-> forall it, it ∈ b -> ~ keq k (key_of it).
Proof.
  induction b as [|it b IH].
  { split; [|done]. intros _ it Hit. by apply elem_of_nil in Hit. }
  rewrite bucket_find_cons. destruct (key_matches k it) eqn:E.
  - apply key_matches_true in E. split; [done|]. intros Hb. destruct (Hb it); [by left|done].
  - rewrite IH. split.
    + intros Hb x [->|Hx]%elem_of_cons; [|by apply Hb]. rewrite <- key_matches_true. congruence.
    + intros Hb x Hx. apply Hb. by right.
Qed.

Lemma bucket_find_Some k b it : bucket_find k b = Some it -> it ∈ b /\ keq k (key_of it).
Proof.
  intros [Hi Hm]%List.find_some. split; [by apply list_elem_of_In|by apply key_matches_true].
Qed.

(** Equivalent keys find the same entry. *)
#[global] Instance bucket_find_proper : Proper (keq ==> eq ==> eq) bucket_find.
Proof.
  intros k k' Hk b ? <-. induction b as [|it b IH]; [done|].
  rewrite !bucket_find_cons, IH. destruct (key_matches k it) eqn:E1, (key_matches k' it) eqn:E2; try done.
  - apply key_matches_true in E1. assert (keq k' (key_of it)) as E by (by rewrite <- Hk).
    apply key_matches_true in E. congruence.
  - apply key_matches_true in E2. assert (keq k (key_of it)) as E by (by rewrite Hk).
    apply key_matches_true in E. congruence.
Qed.

#[global] Instance bucket_idx_proper : Proper (keq ==> eq ==> eq) bucket_idx.
Proof. intros k k' Hk c ? <-. unfold bucket_idx. by rewrite (hash_keq k k' Hk). Qed.

Lemma bucket_remove_elem k b it : it ∈ bucket_remove k b -> it ∈ b.
Proof.
  induction b as [|x b IH]; [done|]. simpl. destruct (key_matches k x).
  - by right.
  - intros [->|?]%elem_of_cons; [by left|right; auto].
Qed.

Lemma nodup_keys_remove k b : nodup_keys b -> nodup_keys (bucket_remove k b).
Proof.
  induction b as [|x b IH]; [done|]. simpl. intros [Hx Hb]. destruct (key_matches k x); [done|].
  split; [|by apply IH]. rewrite Forall_forall in *. intros y Hy. apply Hx.
  by eapply bucket_remove_elem.
Qed.

(** After the removal no entry matches the key. *)
Lemma bucket_find_remove k k' b :
  nodup_keys b ->
  bucket_find k' (bucket_remove k b) =
    if (key_cmp_fn k k' =? 0)%Z then None else bucket_find k' b.
Proof.
  induction b as [|x b IH]; intros Hb; [by destruct (key_cmp_fn k k' =? 0)%Z|].
  destruct Hb as [Hx Hb]. specialize (IH Hb). cbn [bucket_remove].
  destruct (Z.eqb_spec (key_cmp_fn k k') 0) as [Hk|Hk]; destruct (key_matches k x) eqn:E.
  - apply key_matches_true in E. apply bucket_find_None. intros y Hy Hky.
    rewrite Forall_forall in Hx. apply (Hx y Hy).
    etrans; [symmetry; exact E|]. etrans; [exact Hk|exact Hky].
  - rewrite bucket_find_cons, IH. destruct (key_matches k' x) eqn:E'; [|done].
    apply key_matches_true in E'. assert (keq k (key_of x)) as Hc by (by etrans; [exact Hk|]).
    apply key_matches_true in Hc. congruence.
  - rewrite bucket_find_cons. destruct (key_matches k' x) eqn:E'; [|done].
    apply key_matches_true in E. apply key_matches_true in E'.
    exfalso. apply Hk. change (keq k k'). etrans; [exact E|by symmetry].
  - rewrite !bucket_find_cons, IH. done.
Qed.

Lemma bucket_remove_length k b it :
  bucket_find k b = Some it -> S (length (bucket_remove k b)) = length b.
Proof.
  induction b as [|x b IH]; [done|]. rewrite bucket_find_cons. simpl.
  destruct (key_matches k x); [done|]. intros Hf. simpl. by rewrite IH.
Qed.

Lemma nodup_keys_snoc b it :
  nodup_keys b -> bucket_find (key_of it) b = None -> nodup_keys (b ++ [it]).
Proof.
  intros Hb Hf. rewrite bucket_find_None in Hf. induction b as [|x b IH]; simpl; [by repeat constructor|].
  destruct Hb as [Hx Hb]. split.
  - apply Forall_app. split; [done|]. constructor; [|done].
    intros Hk. apply (Hf x); [by left|by symmetry].
  - apply IH; [done|]. intros y Hy. apply Hf. by right.
Qed.

Lemma bucket_idx_lt k c : 0 < c -> bucket_idx k c < c.
Proof.
  intros Hc. unfold bucket_idx.
  pose proof (Z.mod_pos_bound (hash_fn k) (Z.of_nat c)). lia.
Qed.

Lemma bucket_lookup hm k :
  wf hm -> 0 < hm_capacity hm ->
  exists b, hm_buckets hm !! bucket_idx k (hm_capacity hm) = Some b.
Proof.
  intros Hw Hc. apply lookup_lt_is_Some_2. rewrite (wf_len hm Hw). by apply bucket_idx_lt.
Qed.

(** The map as a function of the key; total on well-formed maps. *)
Definition lookup (hm : mdv_hashmap) (k : K) : option I :=
  default None (mdv_hashmap_find hm k).

Lemma find_lookup hm k : wf hm -> mdv_hashmap_find hm k = Some (lookup hm k).
Proof.
  intros Hw. unfold lookup, mdv_hashmap_find. case_cmp; [done|].
  destruct (bucket_lookup hm k Hw) as [b ->]; [lia|]. done.
Qed.

Lemma lookup_bucket hm k b :
  0 < hm_capacity hm -> hm_buckets hm !! bucket_idx k (hm_capacity hm) = Some b ->
  lookup hm k = bucket_find k b.
Proof. intros Hc Hb. unfold lookup, mdv_hashmap_find. case_cmp; [lia|]. by rewrite Hb. Qed.

(** A list of buckets in which only bucket [i] can match. *)
Lemma bucket_find_concat k bs i b :
  bs !! i = Some b -> (forall j bj, bs !! j = Some bj -> j <> i -> bucket_find k bj = None) ->
  bucket_find k (concat bs) = bucket_find k b.
Proof.
  revert i. induction bs as [|b0 bs IH]; intros i Hi Hother; [done|].
  cbn [concat]. rewrite bucket_find_app. destruct i as [|i].
  - simpl in Hi. simplify_eq. destruct (bucket_find k b); [done|].
    clear IH. assert (forall j bj, bs !! j = Some bj -> bucket_find k bj = None) as Hn.
    { intros j bj Hj. by apply (Hother (S j)). }
    clear Hother. induction bs as [|b1 bs IH]; [done|]. cbn [concat]. rewrite bucket_find_app.
    rewrite (Hn 0 b1) by done. apply IH. intros j bj Hj. by apply (Hn (S j)).
  - rewrite (Hother 0 b0) by done. apply (IH i); [done|].
    intros j bj Hj Hne. apply (Hother (S j)); [done|lia].
Qed.

Lemma lookup_foreach hm k : wf hm -> lookup hm k = bucket_find k (mdv_hashmap_foreach hm).
Proof.
  intros Hw. destruct (decide (hm_capacity hm = 0)) as [Hz|Hz].
  - unfold lookup, mdv_hashmap_find, mdv_hashmap_foreach. rewrite Hz.
    pose proof (wf_len hm Hw) as Hl. rewrite Hz in Hl. by destruct (hm_buckets hm).
  - destruct (bucket_lookup hm k Hw) as [b Hb]; [lia|].
    rewrite (lookup_bucket hm k b) by (done || lia). symmetry.
    eapply bucket_find_concat; [exact Hb|]. intros j bj Hj Hne.
    apply bucket_find_None. intros it Hit Hk. apply Hne.
    rewrite <- (wf_placed hm Hw j bj it Hj Hit). by rewrite Hk.
Qed.

(** Entries of the map are found by their keys, and only those. *)
Lemma lookup_elem hm k it :
  wf hm -> lookup hm k = Some it -> it ∈ mdv_hashmap_foreach hm /\ keq k (key_of it).
Proof. intros Hw. rewrite lookup_foreach by done. apply bucket_find_Some. Qed.

(** ** Creation, clearing and resizing *)

Lemma nodup_keys_app_inv b1 b2 : nodup_keys (b1 ++ b2) -> nodup_keys b1 /\ nodup_keys b2.
Proof.
  induction b1 as [|x b1 IH]; simpl; [done|]. intros [Hx Hb].
  apply Forall_app in Hx as [? ?]. destruct (IH Hb). done.
Qed.

Lemma replicate_nil_concat n : concat (replicate n (@nil I)) = [].
Proof. by induction n. Qed.

Lemma empty_buckets_wf rc c ko ks : wf (mk_hashmap rc c 0 ko ks (replicate c [])).
Proof.
  split; simpl.
  - apply length_replicate.
  - intros i b it [-> _]%lookup_replicate Hit. by apply elem_of_nil in Hit.
  - intros i b [-> _]%lookup_replicate. done.
  - unfold mdv_hashmap_foreach. simpl. by rewrite replicate_nil_concat.
  - lia.
Qed.

Lemma mdv_hashmap_create_wf m mb c ko ks hm :
  mdv_hashmap_create m mb c ko ks = Some hm -> wf hm /\ forall k, lookup hm k = None.
Proof.
  unfold mdv_hashmap_create. destruct m; [|done]. cbn [negb]. set (c' := c * (5 / 4)).
  pose proof (empty_buckets_wf 1 c' ko ks) as Hw. destruct (Nat.eqb_spec c' 0) as [Hz|Hz].
  - rewrite Hz in *. intros [= <-]. by split.
  - destruct mb; [|done]. intros [= <-]. split; [exact Hw|]. intros k.
    rewrite lookup_foreach by done. unfold mdv_hashmap_foreach. simpl. by rewrite replicate_nil_concat.
Qed.

(** Redistribution puts every item in its bucket and keeps the order. *)
Lemma fold_emplace_lookup c its bs j :
  fold_left (emplace c) its bs !! j =
    (fun b => b ++ filter (fun it => bucket_idx (key_of it) c = j) its) <$> bs !! j.
Proof.
  revert bs. induction its as [|it its IH]; intros bs.
  { cbn. destruct (bs !! j); simpl; [|done]. by rewrite app_nil_r. }
  cbn [fold_left]. rewrite IH. unfold emplace. rewrite filter_cons.
  destruct (decide (bucket_idx (key_of it) c = j)) as [<-|Hne].
  - rewrite list_lookup_alter_eq. destruct (bs !! _); simpl; [|done]. by rewrite <- app_assoc.
  - by rewrite list_lookup_alter_ne.
Qed.

Lemma fold_fold_concat c bs acc :
  fold_left (fun bs b => fold_left (emplace c) b bs) bs acc = fold_left (emplace c) (concat bs) acc.
Proof.
  revert acc. induction bs as [|b bs IH]; intros acc; [done|].
  cbn [fold_left concat]. by rewrite fold_left_app, IH.
Qed.

Lemma fold_emplace_perm c its bs :
  length bs = c -> 0 < c ->
  concat (fold_left (emplace c) its bs) ≡ₚ concat bs ++ its /\
  length (fold_left (emplace c) its bs) = c.
Proof.
  intros Hl Hc. revert bs Hl. induction its as [|it its IH]; intros bs Hl; cbn [fold_left].
  { by rewrite app_nil_r. }
  destruct (IH (emplace c bs it)) as [Hp Hlen].
  { unfold emplace. by rewrite length_alter. }
  split; [|done]. rewrite Hp.
  assert (concat (emplace c bs it) ≡ₚ it :: concat bs) as ->; [|apply Permutation_middle].
  unfold emplace. assert (bucket_idx (key_of it) c < length bs) as Hi by (rewrite Hl; by apply bucket_idx_lt).
  revert Hi. generalize (bucket_idx (key_of it) c) as i. clear.
  induction bs as [|b bs IH]; intros i Hi; [simpl in Hi; lia|].
  destruct i as [|i]; cbn [concat alter list_alter].
  - rewrite <- app_assoc. symmetry. apply Permutation_middle.
  - rewrite IH by (simpl in Hi; lia). symmetry. apply Permutation_middle.
Qed.

Lemma nodup_keys_sublist b b' : nodup_keys b' -> sublist b b' -> nodup_keys b.
Proof.
  intros Hn Hs. induction Hs as [|x b b' Hs IH|x b b' Hs IH]; [done|..]; destruct Hn as [Hx Hn].
  - split; [|by apply IH]. rewrite Forall_forall in *. intros y Hy. apply Hx.
    by eapply elem_of_sublist.
  - by apply IH.
Qed.

(** The items of the whole map have pairwise different keys. *)
Lemma foreach_nodup hm : wf hm -> nodup_keys (mdv_hashmap_foreach hm).
Proof.
  intros Hw. unfold mdv_hashmap_foreach.
  assert (forall bs off,
    (forall i b it, bs !! i = Some b -> it ∈ b -> bucket_idx (key_of it) (hm_capacity hm) = off + i) ->
    (forall i b, bs !! i = Some b -> nodup_keys b) -> nodup_keys (concat bs)) as H0.
  { clear -HashKeyOk0. induction bs as [|b bs IH]; intros off Hp Hn; [done|]. cbn [concat].
    assert (nodup_keys (concat bs)) as Hbs.
    { apply (IH (S off)); [|intros i bi Hi; by apply (Hn (S i))].
      intros i bi it Hi Hit. rewrite (Hp (S i) bi it Hi Hit). lia. }
    assert (forall it, it ∈ concat bs -> bucket_idx (key_of it) (hm_capacity hm) <> off) as Hrest.
    { intros it (bi & Hbi & Hit)%list_elem_of_In%in_concat.
      apply list_elem_of_In, list_elem_of_lookup in Hbi as [i Hi].
      apply list_elem_of_In in Hit. rewrite (Hp (S i) bi it Hi Hit). lia. }
    assert (forall it, it ∈ b -> bucket_idx (key_of it) (hm_capacity hm) = off) as Hhere.
    { intros it Hit. rewrite (Hp 0 b it eq_refl Hit). lia. }
    specialize (Hn 0 b eq_refl). clear IH Hp. induction b as [|x b IH]; [done|].
    destruct Hn as [Hx Hn]. split.
    - apply Forall_app. split; [done|]. apply Forall_forall. intros y Hy Hk.
      apply (Hrest y Hy). rewrite <- Hk. apply Hhere. by left.
    - apply IH; try done. intros it Hit. apply Hhere. by right. }
  apply (H0 (hm_buckets hm) 0); [|apply Hw]. intros i b it Hi Hit. by apply (wf_placed hm Hw i b it).
Qed.

Lemma mdv_hashmap_resize_spec mem hm c :
  wf hm -> let '(ok, hm') := mdv_hashmap_resize mem hm c in
  wf hm' /\ (forall k, lookup hm' k = lookup hm k) /\ hm_size hm' = hm_size hm /\
  mdv_hashmap_foreach hm' ≡ₚ mdv_hashmap_foreach hm /\
  (ok = true <-> mem = true /\ hm_size hm < c) /\
  hm_capacity hm' = (if ok then c else hm_capacity hm) /\
  hm_key_offset hm' = hm_key_offset hm /\ hm_key_size hm' = hm_key_size hm.
Proof.
  intros Hw. unfold mdv_hashmap_resize.
  destruct (Nat.ltb_spec (hm_size hm) c) as [Hlt|Hge]; [|by split_and!; try done; split; [done|lia]].
  destruct mem; [|split_and!; try done; split; [done|by intros []]].
  rewrite fold_fold_concat. set (its := concat (hm_buckets hm)).
  destruct (fold_emplace_perm c its (replicate c [])) as [Hp Hl]; [apply length_replicate|lia|].
  rewrite replicate_nil_concat in Hp. simpl in Hp.
  assert (forall j b, fold_left (emplace c) its (replicate c []) !! j = Some b ->
    b = filter (fun it => bucket_idx (key_of it) c = j) its) as Hb.
  { intros j b. rewrite fold_emplace_lookup. destruct (replicate c [] !! j) eqn:E; [|done].
    apply lookup_replicate in E as [-> _]. by intros [= <-]. }
  set (hm' := mk_hashmap _ c _ _ _ _).
  assert (wf hm') as Hw'.
  { split; simpl.
    - done.
    - intros i b it Hi Hit. apply Hb in Hi. subst b. by apply list_elem_of_filter in Hit as [? _].
    - intros i b Hi. apply Hb in Hi. subst b.
      eapply nodup_keys_sublist; [apply (foreach_nodup hm Hw)|]. apply sublist_filter.
    - unfold mdv_hashmap_foreach. simpl. rewrite Hp. apply (wf_size hm Hw).
    - lia. }
  split_and!; try done. intros k.
  rewrite (lookup_foreach hm) by done. change (mdv_hashmap_foreach hm) with its.
  destruct (bucket_lookup hm' k Hw') as [b Hbk]; [simpl; lia|].
  rewrite (lookup_bucket hm' k b) by (simpl; done || lia).
  apply Hb in Hbk. subst b. simpl. clear -HashKeyOk0.
  induction its as [|it its IH]; [done|]. rewrite filter_cons.
  case_decide as Hd; rewrite !bucket_find_cons, IH; [done|].
  destruct (key_matches k it) eqn:E; [|done]. apply key_matches_true in E.
  exfalso. apply Hd. by rewrite E.
Qed.

(** ** Insertion, removal *)

Lemma length_concat_insert (bs : list (list I)) i b b' :
  bs !! i = Some b ->
  length (concat (<[i := b']> bs)) + length b = length (concat bs) + length b'.
Proof.
  revert i. induction bs as [|b0 bs IH]; intros i Hi; [done|].
  destruct i as [|i]; simpl in *; rewrite !length_app.
  - simplify_eq. lia.
  - specialize (IH i Hi). lia.
Qed.

Lemma set_bucket_wf hm i b b' n :
  wf hm -> hm_buckets hm !! i = Some b ->
  (forall it, it ∈ b' -> bucket_idx (key_of it) (hm_capacity hm) = i) -> nodup_keys b' ->
  n + length b = hm_size hm + length b' -> n <= hm_capacity hm ->
  wf (set_bucket hm i b' n).
Proof.
  intros Hw Hi Hp Hn Hs Hload. pose proof (lookup_lt_Some _ _ _ Hi).
  assert (forall j bj, <[i := b']> (hm_buckets hm) !! j = Some bj ->
    j = i /\ bj = b' \/ hm_buckets hm !! j = Some bj) as Hl.
  { intros j bj. destruct (decide (i = j)) as [->|].
    - rewrite list_lookup_insert_eq by done. intros [= ->]. by left.
    - rewrite list_lookup_insert_ne by done. by right. }
  split; simpl.
  - rewrite length_insert. apply Hw.
  - intros j bj it [[-> ->]|Hj]%Hl Hit; [by apply Hp|]. by eapply wf_placed.
  - intros j bj [[-> ->]|Hj]%Hl; [done|]. by eapply wf_nodup.
  - unfold mdv_hashmap_foreach. simpl. pose proof (length_concat_insert _ i b b' Hi).
    rewrite (wf_size hm Hw) in Hs. unfold mdv_hashmap_foreach in Hs. lia.
  - done.
Qed.

Lemma lookup_set_bucket hm i b' n k :
  wf hm -> 0 < hm_capacity hm -> i < hm_capacity hm ->
  lookup (set_bucket hm i b' n) k =
    if decide (bucket_idx k (hm_capacity hm) = i) then bucket_find k b' else lookup hm k.
Proof.
  intros Hw Hc Hi. pose proof (wf_len hm Hw) as Hl. case_decide as Hd.
  - apply lookup_bucket; simpl; [done|]. subst i. apply list_lookup_insert_eq. lia.
  - destruct (bucket_lookup hm k Hw Hc) as [b Hb]. rewrite (lookup_bucket hm k b) by done.
    apply lookup_bucket; simpl; [done|]. by rewrite list_lookup_insert_ne.
Qed.

(** The bucket work shared by insertion and removal: no entry of the bucket
    matches the key any more, and the counter follows. *)
Lemma drop_key hm k b :
  wf hm -> 0 < hm_capacity hm -> hm_buckets hm !! bucket_idx k (hm_capacity hm) = Some b ->
  let '(b1, n) := remove_old k b (hm_size hm) in
  nodup_keys b1 /\ (forall it, it ∈ b1 -> bucket_idx (key_of it) (hm_capacity hm) = bucket_idx k (hm_capacity hm)) /\
  n + length b = hm_size hm + length b1 /\ n <= hm_size hm /\
  n = (match lookup hm k with Some _ => hm_size hm - 1 | None => hm_size hm end) /\
  (lookup hm k <> None -> 0 < hm_size hm) /\
  forall k', bucket_find k' b1 = if (key_cmp_fn k k' =? 0)%Z then None else bucket_find k' b.
Proof.
  intros Hw Hc Hb. pose proof (wf_nodup hm Hw _ _ Hb) as Hn.
  rewrite (lookup_bucket hm k b) by done. unfold remove_old.
  destruct (bucket_find k b) as [it|] eqn:Hf.
  - pose proof (bucket_remove_length k b it Hf) as Hl.
    assert (length b <= hm_size hm) as Hle.
    { rewrite (wf_size hm Hw). unfold mdv_hashmap_foreach.
      pose proof (length_concat_insert _ _ b [] Hb). simpl in *. lia. }
    split_and!; [by apply nodup_keys_remove| |lia|lia|done|lia|intros; by apply bucket_find_remove].
    intros x Hx%bucket_remove_elem. by eapply wf_placed.
  - split_and!; [done| |done|done|done|done|].
    + intros x Hx. by eapply wf_placed.
    + intros k'. destruct (Z.eqb_spec (key_cmp_fn k k') 0) as [Hk|]; [|done].
      change (keq k k') in Hk. by rewrite <- Hk, Hf.
Qed.

(** What happens to the key an insertion or a removal is about. *)
Definition size_without (hm : mdv_hashmap) (k : K) : nat :=
  match lookup hm k with Some _ => hm_size hm - 1 | None => hm_size hm end.

Lemma put_entry_spec (mem_entry : bool) hm item :
  wf hm -> 0 < hm_capacity hm -> hm_size hm < hm_capacity hm ->
  exists r hm', put_entry mem_entry hm item = Some (r, hm') /\ wf hm' /\
    r = (if mem_entry then Some item else None) /\
    (forall k, lookup hm' k = if (key_cmp_fn (key_of item) k =? 0)%Z then r else lookup hm k) /\
    hm_size hm' = size_without hm (key_of item) + (if mem_entry then 1 else 0) /\
    hm_capacity hm' = hm_capacity hm /\
    hm_key_offset hm' = hm_key_offset hm /\ hm_key_size hm' = hm_key_size hm.
Proof.
  intros Hw Hc Hroom. destruct (bucket_lookup hm (key_of item) Hw Hc) as [b Hb].
  unfold put_entry, size_without.
  destruct (Nat.eqb_spec (hm_capacity hm) 0) as [|_]; [lia|]. rewrite Hb. simpl. pose proof (drop_key hm (key_of item) b Hw Hc Hb) as Hd.
  pose proof (bucket_idx_lt (key_of item) _ Hc) as Hi.
  destruct (remove_old (key_of item) b (hm_size hm)) as [b1 n].
  destruct Hd as (Hn & Hp & Hs & Hle & Hn' & _ & Hf).
  assert (bucket_find (key_of item) b1 = None) as Hnone.
  { rewrite Hf. assert (keq (key_of item) (key_of item)) as Hr by reflexivity.
    unfold keq in Hr. by rewrite Hr. }
  assert (forall k, keq (key_of item) k -> bucket_idx k (hm_capacity hm) = bucket_idx (key_of item) (hm_capacity hm)) as Hidx.
  { intros k Hk. by rewrite Hk. }
  destruct mem_entry; eexists _, _; (split; [done|]).
  - split_and!; [|done| |simpl; lia|done..].
    + eapply set_bucket_wf; [done|exact Hb| | |rewrite length_app; simpl; lia|lia].
      * intros it Hit. apply elem_of_app in Hit as [Hit|Hit]; [by apply Hp|].
        apply list_elem_of_singleton in Hit as ->. done.
      * by apply nodup_keys_snoc.
    + intros k. rewrite lookup_set_bucket by done. rewrite bucket_find_app, Hf, bucket_find_cons.
      destruct (Z.eqb_spec (key_cmp_fn (key_of item) k) 0) as [Hk|Hk].
      * rewrite decide_True by (by apply Hidx).
        assert (key_matches k item = true) as ->; [|done]. apply key_matches_true. change (keq (key_of item) k) in Hk. by symmetry.
      * assert (key_matches k item = false) as ->.
        { destruct (key_matches k item) eqn:E; [|done]. apply key_matches_true in E.
          exfalso. apply Hk. change (keq (key_of item) k). by symmetry. }
        case_decide as Hd; [|done]. rewrite <- Hd in Hb.
        rewrite (lookup_bucket hm k b) by done. by destruct (bucket_find k b).
  - split_and!; [|done| |simpl; lia|done..].
    + eapply set_bucket_wf; [done|exact Hb|exact Hp|done|lia|lia].
    + intros k. rewrite lookup_set_bucket by done. rewrite Hf.
      destruct (Z.eqb_spec (key_cmp_fn (key_of item) k) 0) as [Hk|Hk].
      * by rewrite decide_True by (by apply Hidx).
      * case_decide as Hd; [|done]. rewrite <- Hd in Hb. by rewrite (lookup_bucket hm k b).
Qed.

Lemma mdv_hashmap_erase_spec hm key :
  wf hm -> exists r hm', mdv_hashmap_erase hm key = Some (r, hm') /\ wf hm' /\
    (r = true <-> lookup hm key <> None) /\
    (forall k, lookup hm' k = if (key_cmp_fn key k =? 0)%Z then None else lookup hm k) /\
    hm_size hm' = size_without hm key /\ hm_capacity hm' = hm_capacity hm.
Proof.
  intros Hw. unfold mdv_hashmap_erase, size_without.
  destruct (Nat.eqb_spec (hm_capacity hm) 0) as [Hz|Hz].
  { assert (forall k, lookup hm k = None) as Hn.
    { intros k. unfold lookup, mdv_hashmap_find. by rewrite Hz. }
    exists false, hm. rewrite Hn. split_and!; try done. intros k. rewrite Hn. by destruct (key_cmp_fn key k =? 0)%Z. }
  destruct (bucket_lookup hm key Hw) as [b Hb]; [lia|]. rewrite Hb. simpl.
  pose proof (drop_key hm key b Hw ltac:(lia) Hb) as Hd. unfold remove_old in Hd.
  pose proof (bucket_idx_lt key (hm_capacity hm) ltac:(lia)) as Hi.
  pose proof (wf_load hm Hw). rewrite (lookup_bucket hm key b) in * by (done || lia).
  destruct (bucket_find key b) as [it|] eqn:Hfk; destruct Hd as (Hn & Hp & Hs & Hle & _ & _ & Hf).
  - eexists _, _. split; [done|]. split_and!; [|done| |done|done].
    + eapply set_bucket_wf; [done|exact Hb|exact Hp|done|lia|lia].
    + intros k. rewrite lookup_set_bucket by (done || lia). rewrite Hf.
      destruct (Z.eqb_spec (key_cmp_fn key k) 0) as [Hk|Hk].
      * rewrite decide_True; [done|]. change (keq key k) in Hk. by rewrite Hk.
      * case_decide as Hd; [|done]. rewrite <- Hd in Hb. symmetry. apply lookup_bucket; [lia|done].
  - exists false, hm. split_and!; try done. intros k.
    destruct (Z.eqb_spec (key_cmp_fn key k) 0) as [Hk|Hk]; [|done]. change (keq key k) in Hk.
    rewrite <- Hfk, Hk. apply lookup_bucket; [lia|]. by rewrite <- Hk.
Qed.

(** The growth step of an insertion leaves a map with the same items and room
    for one more. *)
Lemma grow_spec hm :
  wf hm -> 0 < hm_capacity hm ->
  exists hm1, (if hm_capacity hm * 3 / 4 <? hm_size hm
       then mdv_hashmap_resize true hm (hm_capacity hm * 2) else (true, hm)) = (true, hm1) /\
     wf hm1 /\ (forall k, lookup hm1 k = lookup hm k) /\ hm_size hm1 = hm_size hm /\
     hm_size hm1 < hm_capacity hm1 /\
     hm_key_offset hm1 = hm_key_offset hm /\ hm_key_size hm1 = hm_key_size hm.
Proof.
  intros Hw Hc. pose proof (wf_load hm Hw) as Hload.
  destruct (Nat.ltb_spec (hm_capacity hm * 3 / 4) (hm_size hm)) as [Hg|Hg].
  - pose proof (mdv_hashmap_resize_spec true hm (hm_capacity hm * 2) Hw) as Hr.
    destruct (mdv_hashmap_resize true hm (hm_capacity hm * 2)) as [ok hm1].
    destruct Hr as (Hw1 & Hl1 & Hs1 & _ & Hok & Hc1 & ? & ?).
    assert (ok = true) as -> by (apply Hok; split; [done|lia]).
    exists hm1. split_and!; [done..| |done|done]. rewrite Hc1, Hs1. lia.
  - exists hm. split_and!; [done..| |done|done].
    assert (hm_capacity hm * 3 / 4 < hm_capacity hm); [|lia].
    apply Nat.Div0.div_lt_upper_bound. lia.
Qed.

(** An insertion with memory for the table, as the clients of the map use it. *)
Lemma mdv_hashmap_insert_spec hm item size (mem_entry : bool) :
  wf hm -> 0 < hm_capacity hm -> hm_key_offset hm + hm_key_size hm <= size ->
  exists r hm', mdv_hashmap_insert true mem_entry hm item size = Some (r, hm') /\ wf hm' /\
    r = (if mem_entry then Some item else None) /\
    (forall k, lookup hm' k = if (key_cmp_fn (key_of item) k =? 0)%Z then r else lookup hm k) /\
    hm_size hm' = size_without hm (key_of item) + (if mem_entry then 1 else 0) /\
    0 < hm_capacity hm' /\
    hm_key_offset hm' = hm_key_offset hm /\ hm_key_size hm' = hm_key_size hm.
Proof.
  intros Hw Hc Hsz%Nat.ltb_ge. unfold mdv_hashmap_insert. rewrite Hsz.
  destruct (grow_spec hm Hw Hc) as (hm1 & -> & Hw1 & Hl1 & Hs1 & Hroom & Ho & Hk).
  cbn [negb]. destruct (put_entry_spec mem_entry hm1 item Hw1)
    as (r & hm' & E & Hw' & Hr & Hf & Hs & Hc' & Ho' & Hk'); [lia|done|].
  exists r, hm'. split_and!; [done..| | |lia|congruence|congruence].
  - intros k. by rewrite Hf, Hl1.
  - rewrite Hs. unfold size_without. by rewrite Hl1, Hs1.
Qed.

(** A map that can take items of [size] bytes. *)
Definition ready (hm : mdv_hashmap) (size : nat) : Prop :=
  wf hm /\ 0 < hm_capacity hm /\ hm_key_offset hm + hm_key_size hm <= size.

Lemma ready_create c ko ks size :
  0 < c -> ko + ks <= size -> exists hm, mdv_hashmap_create true true c ko ks = Some hm
    /\ ready hm size /\ (forall k, lookup hm k = None) /\ hm_size hm = 0.
Proof.
  intros Hc Hs. destruct (mdv_hashmap_create true true c ko ks) as [hm|] eqn:E.
  - exists hm. destruct (mdv_hashmap_create_wf _ _ _ _ _ _ E) as [Hw Hl]. split; [done|].
    unfold mdv_hashmap_create in E. simpl in E. change (5 / 4) with 1 in E. rewrite Nat.mul_1_r in E.
    destruct (Nat.eqb_spec c 0); [lia|]. simplify_eq. split_and!; try done.
  - unfold mdv_hashmap_create in E. simpl in E. by destruct (c * (5 / 4) =? 0).
Qed.

(** An insertion with memory. *)
Lemma insert_ready hm item size :
  ready hm size -> exists hm', mdv_hashmap_insert true true hm item size = Some (Some item, hm')
    /\ ready hm' size
    /\ (forall k, lookup hm' k = if (key_cmp_fn (key_of item) k =? 0)%Z then Some item else lookup hm k)
    /\ hm_size hm' = size_without hm (key_of item) + 1.
Proof.
  intros (Hw & Hc & Hs).
  destruct (mdv_hashmap_insert_spec hm item size true Hw Hc Hs) as (r & hm' & E & Hw' & -> & Hl & Hz & Hc' & Ho & Hk).
  exists hm'. split_and!; try done. split_and!; [done|done|lia].
Qed.

(** Without memory for a larger table the insertion either fails at once or does
    not need it. *)
Lemma mdv_hashmap_insert_no_resize hm item size (mem_entry : bool) :
  mdv_hashmap_insert false mem_entry hm item size = Some (None, hm) \/
  mdv_hashmap_insert false mem_entry hm item size = mdv_hashmap_insert true mem_entry hm item size.
Proof.
  unfold mdv_hashmap_insert. destruct (size <? _); [by left|].
  destruct (_ * 3 / 4 <? _); [|by right]. left. unfold mdv_hashmap_resize.
  by destruct (hm_size hm <? hm_capacity hm * 2).
Qed.

(** An insertion whatever the allocator answers: an old entry of the key may be
    lost when there is no memory for the new one. *)
Lemma insert_any hm item size (m1 m2 : bool) :
  ready hm size -> exists r hm', mdv_hashmap_insert m1 m2 hm item size = Some (r, hm') /\ ready hm' size
    /\ (r = Some item \/ r = None) /\ (m1 = true -> m2 = true -> r = Some item)
    /\ (forall k, ~ keq (key_of item) k -> lookup hm' k = lookup hm k)
    /\ (r = Some item -> forall k, keq (key_of item) k -> lookup hm' k = Some item)
    /\ (r = None -> forall k, keq (key_of item) k -> lookup hm' k = None \/ lookup hm' k = lookup hm k)
    /\ (forall size', ready hm size' -> ready hm' size').
Proof.
  intros (Hw & Hc & Hs). destruct (mdv_hashmap_insert_spec hm item size m2 Hw Hc Hs) as (r & hm' & E & Hw' & -> & Hl & _ & Hc' & Ho & Hk).
  assert (Hcase : mdv_hashmap_insert m1 m2 hm item size = Some (None, hm) /\ m1 = false \/ mdv_hashmap_insert m1 m2 hm item size = mdv_hashmap_insert true m2 hm item size).
  { destruct m1; [by right|]. destruct (mdv_hashmap_insert_no_resize hm item size m2); auto. }
  destruct Hcase as [[-> ->] | ->].
  - exists None, hm. split_and!; try done; [by right|]. intros _ k _. by right.
  - exists (if m2 then Some item else None), hm'. rewrite E. split_and!; try done; [split_and!; [done|done|lia]|destruct m2; auto|by intros _ ->|..].
    + intros k Hne. rewrite Hl. destruct (Z.eqb_spec (key_cmp_fn (key_of item) k) 0); [done|done].
    + intros Er k Hke. rewrite Hl, (proj2 (Z.eqb_eq _ 0) Hke). by destruct m2.
    + intros Er k Hke. left. rewrite Hl, (proj2 (Z.eqb_eq _ 0) Hke). by destruct m2.
    + intros size' (_ & _ & ?). split_and!; [done|done|lia].
Qed.

Lemma erase_ready hm key size :
  ready hm size -> exists r hm', mdv_hashmap_erase hm key = Some (r, hm') /\ ready hm' size
    /\ (forall k, lookup hm' k = if (key_cmp_fn key k =? 0)%Z then None else lookup hm k).
Proof.
  intros (Hw & Hc & Hs). destruct (mdv_hashmap_erase_spec hm key Hw) as (r & hm' & E & Hw' & _ & Hl & _ & Hc').
  exists r, hm'. split_and!; try done. split_and!; [done|lia|]. unfold mdv_hashmap_erase in E. destruct (_ =? 0); [by simplify_eq|].
  destruct (_ !! _); [|done]. cbn in E. by destruct (bucket_find key _); simplify_eq.
Qed.

(** A write through the pointer to an item of the map that keeps the key: the
    item [it] replaces the item with its key. *)
Definition write_item (hm : mdv_hashmap) (it : I) : mdv_hashmap :=
  mk_hashmap (hm_rc hm) (hm_capacity hm) (hm_size hm) (hm_key_offset hm) (hm_key_size hm)
    (alter (fmap (fun x => if key_matches (key_of it) x then it else x))
       (bucket_idx (key_of it) (hm_capacity hm)) (hm_buckets hm)).

Lemma bucket_find_write it k b :
  bucket_find k ((fun x => if key_matches (key_of it) x then it else x) <$> b) =
    if key_matches k it then match bucket_find k b with Some _ => Some it | None => None end
    else bucket_find k b.
Proof.
  induction b as [|x b IH]; [by destruct (key_matches k it)|]. rewrite fmap_cons, !bucket_find_cons.
  destruct (key_matches (key_of it) x) eqn:E.
  - apply key_matches_true in E. destruct (key_matches k it) eqn:E1.
    + apply key_matches_true in E1. assert (keq k (key_of x)) as Hx by (by etrans).
      apply key_matches_true in Hx. by rewrite Hx.
    + destruct (key_matches k x) eqn:E2.
      * apply key_matches_true in E2. assert (keq k (key_of it)) as Hc by (etrans; [exact E2|by symmetry]).
        apply key_matches_true in Hc. congruence.
      * by rewrite IH, ?E1.
  - destruct (key_matches k x) eqn:E2; [|exact IH].
    destruct (key_matches k it) eqn:E1; [|done].
    apply key_matches_true in E1. apply key_matches_true in E2.
    assert (keq (key_of it) (key_of x)) as Hc by (etrans; [symmetry; exact E1|done]).
    apply key_matches_true in Hc. congruence.
Qed.

Lemma nodup_keys_write it b :
  nodup_keys b -> nodup_keys ((fun x => if key_matches (key_of it) x then it else x) <$> b).
Proof.
  assert (Hk : forall x, keq (key_of (if key_matches (key_of it) x then it else x)) (key_of x)).
  { intros x. destruct (key_matches (key_of it) x) eqn:E; [by apply key_matches_true in E|reflexivity]. }
  induction b as [|x b IH]; [done|]. intros [Hx Hb]. split; [|by apply IH].
  rewrite Forall_forall in *. intros y (z & -> & Hz)%list_elem_of_fmap.
  rewrite !Hk. by apply Hx.
Qed.

Lemma write_item_spec hm it :
  wf hm -> lookup hm (key_of it) <> None ->
  wf (write_item hm it) /\
  (forall k, lookup (write_item hm it) k =
     if (key_cmp_fn (key_of it) k =? 0)%Z then Some it else lookup hm k).
Proof.
  intros Hw Hin. assert (0 < hm_capacity hm) as Hc.
  { destruct (hm_capacity hm) eqn:E; [|lia]. exfalso. apply Hin.
    unfold lookup, mdv_hashmap_find. by rewrite E. }
  destruct (bucket_lookup hm (key_of it) Hw Hc) as [b Hb].
  set (f := fun x => if key_matches (key_of it) x then it else x).
  assert (E : write_item hm it = set_bucket hm (bucket_idx (key_of it) (hm_capacity hm)) (f <$> b) (hm_size hm)).
  { unfold write_item, set_bucket. f_equal. apply list_eq. intros j.
    destruct (decide (bucket_idx (key_of it) (hm_capacity hm) = j)) as [<-|].
    - rewrite list_lookup_alter_eq, list_lookup_insert_eq, Hb; [done|]. by eapply lookup_lt_Some.
    - by rewrite list_lookup_alter_ne, list_lookup_insert_ne. }
  rewrite E. split.
  - eapply set_bucket_wf; [done|exact Hb| |by apply nodup_keys_write; eapply wf_nodup|by rewrite length_fmap|apply Hw].
    intros x (y & -> & Hy)%list_elem_of_fmap. unfold f.
    destruct (key_matches (key_of it) y) eqn:Ey; [done|]. by eapply wf_placed.
  - intros k. rewrite lookup_set_bucket by (done || by apply bucket_idx_lt).
    unfold f. rewrite bucket_find_write. unfold key_matches at 1.
    assert (Hsym : (key_cmp_fn k (key_of it) =? 0)%Z = (key_cmp_fn (key_of it) k =? 0)%Z).
    { apply eq_bool_prop_intro. rewrite !Is_true_true, !Z.eqb_eq.
      fold (keq k (key_of it)) (keq (key_of it) k). split; intros ?; by symmetry. }
    rewrite Hsym. destruct (Z.eqb_spec (key_cmp_fn (key_of it) k) 0) as [Hk|Hk].
    + change (keq (key_of it) k) in Hk. rewrite decide_True by (by rewrite Hk).
      rewrite (lookup_bucket hm (key_of it) b Hc Hb) in Hin. rewrite <- Hk.
      by destruct (bucket_find (key_of it) b).
    + case_decide as Hd; [|done]. rewrite <- Hd in Hb. symmetry. by apply lookup_bucket.
Qed.

Lemma bucket_find_in it b : nodup_keys b -> it ∈ b -> bucket_find (key_of it) b = Some it.
Proof.
  induction b as [|x b IH]; [by intros _ ?%elem_of_nil|]. intros [Hx Hb] [->|Hin]%elem_of_cons.
  - rewrite bucket_find_cons. assert (key_matches (key_of x) x = true) as ->; [|done].
    apply key_matches_true. reflexivity.
  - rewrite bucket_find_cons. destruct (key_matches (key_of it) x) eqn:E; [|by apply IH].
    apply key_matches_true in E. rewrite Forall_forall in Hx. destruct (Hx it Hin). by symmetry.
Qed.

Lemma lookup_in hm it : wf hm -> it ∈ mdv_hashmap_foreach hm -> lookup hm (key_of it) = Some it.
Proof. intros Hw Hin. rewrite lookup_foreach by done. apply bucket_find_in; [by apply foreach_nodup|done]. Qed.

Lemma lookup_keq hm k k' : wf hm -> keq k k' -> lookup hm k = lookup hm k'.
Proof. intros Hw Hk. rewrite !lookup_foreach by done. by rewrite Hk. Qed.

Lemma elem_of_foreach hm it : wf hm -> it ∈ mdv_hashmap_foreach hm <-> lookup hm (key_of it) = Some it.
Proof. intros Hw. split; [by apply lookup_in|]. intros E. by apply (lookup_elem hm (key_of it) it Hw) in E as [? _]. Qed.

(** Different items have different keys. *)
Lemma foreach_keys_nodup hm : wf hm -> NoDup (key_of <$> mdv_hashmap_foreach hm).
Proof.
  intros Hn%foreach_nodup. induction (mdv_hashmap_foreach hm) as [|x b IH]; [constructor|].
  destruct Hn as [Hx Hb]. rewrite fmap_cons. constructor; [|by apply IH].
  intros (y & E & Hy)%list_elem_of_fmap. rewrite Forall_forall in Hx. apply (Hx y Hy). rewrite E. reflexivity.
Qed.

(** The invariant depends on the keys of the items only. *)
Lemma nodup_keys_ext b b' : Forall2 (fun x y => key_of x = key_of y) b b' -> nodup_keys b -> nodup_keys b'.
Proof.
  induction 1 as [|x y b b' E Hb IH]; [done|]. intros [Hx Hn]. split; [|by apply IH].
  rewrite <- E. clear IH E Hn. induction Hb as [|u v b b' E Hb IH]; [constructor|].
  apply Forall_cons in Hx as [Hu Hx]. constructor; [by rewrite <- E|by apply IH].
Qed.

Lemma wf_ext hm bs :
  wf hm -> Forall2 (Forall2 (fun x y => key_of x = key_of y)) (hm_buckets hm) bs ->
  wf (mk_hashmap (hm_rc hm) (hm_capacity hm) (hm_size hm) (hm_key_offset hm) (hm_key_size hm) bs).
Proof.
  intros Hw Hf. split; simpl.
  - rewrite <- (wf_len hm Hw). symmetry. by eapply Forall2_length.
  - intros i b' it Hi (j & Hj)%list_elem_of_lookup.
    destruct (Forall2_lookup_r _ _ _ _ _ Hf Hi) as (b & Hb & Hbb).
    destruct (Forall2_lookup_r _ _ _ _ _ Hbb Hj) as (x & Hx & <-).
    eapply (wf_placed hm Hw); [exact Hb|]. by eapply list_elem_of_lookup_2.
  - intros i b' Hi. destruct (Forall2_lookup_r _ _ _ _ _ Hf Hi) as (b & Hb & Hbb).
    eapply nodup_keys_ext; [exact Hbb|]. by eapply (wf_nodup hm Hw).
  - rewrite (wf_size hm Hw). unfold mdv_hashmap_foreach. simpl. clear Hw.
    induction Hf as [|b b' l l' Hb _ IH]; [done|]. simpl. rewrite !length_app, IH. f_equal.
    by eapply Forall2_length.
  - apply Hw.
Qed.

(** ** Properties *)

(** C33: insertion on every branch.  With memory, the new item is found under
    its key and every other key keeps its value; the size grows by one exactly
    when the key was new; the table may grow without losing an entry.  An item
    smaller than its key, or a failed growth, changes nothing.  When the
    allocation of the entry fails the insertion returns null, and an older value
    of the key is gone. *)
Theorem mdv_hashmap_insert_correct (hm : mdv_hashmap) (item : I) (size : nat) :
  wf hm -> 0 < hm_capacity hm ->
  (size < hm_key_offset hm + hm_key_size hm -> forall m1 m2,
     mdv_hashmap_insert m1 m2 hm item size = Some (None, hm)) /\
  (hm_key_offset hm + hm_key_size hm <= size ->
   (hm_capacity hm * 3 / 4 < hm_size hm -> forall m2,
      mdv_hashmap_insert false m2 hm item size = Some (None, hm)) /\
   forall mem_entry : bool, exists r hm',
     mdv_hashmap_insert true mem_entry hm item size = Some (r, hm') /\ wf hm' /\
     r = (if mem_entry then Some item else None) /\
     (forall k, mdv_hashmap_find hm' k =
        if (key_cmp_fn (key_of item) k =? 0)%Z then Some r else mdv_hashmap_find hm k) /\
     hm_size hm' = size_without hm (key_of item) + (if mem_entry then 1 else 0)).
Proof.
  intros Hw Hc. unfold mdv_hashmap_insert. split; [intros Hs%Nat.ltb_lt m1 m2; by rewrite Hs|].
  intros Hsz%Nat.ltb_ge. rewrite Hsz. pose proof (wf_load hm Hw) as Hload. split.
  { intros Hgrow%Nat.ltb_lt m2. rewrite Hgrow. unfold mdv_hashmap_resize.
    by destruct (hm_size hm <? hm_capacity hm * 2). }
  intros mem_entry. apply Nat.ltb_ge in Hsz.
  destruct (mdv_hashmap_insert_spec hm item size mem_entry Hw Hc Hsz)
    as (r & hm' & E & Hw' & Hr & Hf & Hs & _).
  exists r, hm'. split_and!; [|done..| |done].
  - unfold mdv_hashmap_insert in E. apply Nat.ltb_ge in Hsz. by rewrite Hsz in E.
  - intros k. rewrite !find_lookup, Hf by done.
    by destruct (key_cmp_fn (key_of item) k =? 0)%Z.
Qed.

(** removal: the key is gone, every other key keeps its value, the flag says
    whether the key was there and the size follows it. *)
Theorem mdv_hashmap_erase_correct (hm : mdv_hashmap) (key : K) :
  wf hm -> exists r hm', mdv_hashmap_erase hm key = Some (r, hm') /\ wf hm' /\
    (r = true <-> exists it, mdv_hashmap_find hm key = Some (Some it)) /\
    (forall k, mdv_hashmap_find hm' k =
       if (key_cmp_fn key k =? 0)%Z then Some None else mdv_hashmap_find hm k) /\
    (if r then hm_size hm = S (hm_size hm') else hm' = hm).
Proof.
  intros Hw. destruct (mdv_hashmap_erase_spec hm key Hw) as (r & hm' & E & Hw' & Hr & Hf & Hs & _).
  exists r, hm'. split_and!; [done..| | |].
  - rewrite Hr, find_lookup by done. destruct (lookup hm key); naive_solver.
  - intros k. rewrite !find_lookup, Hf by done. by destruct (key_cmp_fn key k =? 0)%Z.
  - unfold mdv_hashmap_erase in E. destruct r.
    + rewrite Hs. unfold size_without. destruct (lookup hm key) as [it|] eqn:Hl; [|by destruct Hr as [Hr _]; destruct Hr].
      apply lookup_elem in Hl as [Hin _]; [|done]. pose proof (wf_size hm Hw) as Hz.
      destruct (mdv_hashmap_foreach hm); [by apply elem_of_nil in Hin|]. simpl in Hz. lia.
    + destruct (hm_capacity hm =? 0); [by simplify_eq|].
      destruct (hm_buckets hm !! _); simpl in E; [|done]. case_match; by simplify_eq.
Qed.

(** Resizing keeps the set of items and every lookup; it is refused exactly
    when the new capacity does not exceed the number of items or memory runs out,
    and then the map is unchanged. *)
Theorem mdv_hashmap_resize_correct (mem : bool) (hm : mdv_hashmap) (capacity : nat) :
  wf hm -> exists ok hm', mdv_hashmap_resize mem hm capacity = (ok, hm') /\ wf hm' /\
    (ok = true <-> mem = true /\ hm_size hm < capacity) /\
    mdv_hashmap_foreach hm' ≡ₚ mdv_hashmap_foreach hm /\
    (forall k, mdv_hashmap_find hm' k = mdv_hashmap_find hm k) /\
    hm_capacity hm' = (if ok then capacity else hm_capacity hm).
Proof.
  intros Hw. pose proof (mdv_hashmap_resize_spec mem hm capacity Hw) as Hr.
  destruct (mdv_hashmap_resize mem hm capacity) as [ok hm'].
  destruct Hr as (Hw' & Hl & _ & Hp & Hok & Hc & _). exists ok, hm'.
  split; [done|]. split; [done|]. split; [done|]. split; [done|]. split; [|done].
  intros k. by rewrite !find_lookup, Hl.
Qed.

(** Clearing removes every entry but leaves the counter: afterwards nothing
    is found while [mdv_hashmap_size] still reports the old number of items. *)
Theorem mdv_hashmap_clear_stale_size (hm : mdv_hashmap) (k : K) :
  wf hm -> mdv_hashmap_find (mdv_hashmap_clear hm) k = Some None /\
    mdv_hashmap_foreach (mdv_hashmap_clear hm) = [] /\
    hm_size (mdv_hashmap_clear hm) = hm_size hm.
Proof.
  intros Hw. unfold mdv_hashmap_clear. destruct (Nat.eqb_spec (hm_size hm) 0) as [Hz|Hz].
  - pose proof (wf_size hm Hw) as Hs. rewrite Hz in Hs.
    assert (mdv_hashmap_foreach hm = []) as He by (by destruct (mdv_hashmap_foreach hm)).
    split_and!; [|done|done]. by rewrite find_lookup, lookup_foreach, He.
  - split_and!; [|unfold mdv_hashmap_foreach; simpl; by induction (hm_buckets hm)|done].
    unfold mdv_hashmap_find. simpl. destruct (Nat.eqb_spec (hm_capacity hm) 0) as [|Hc]; [done|].
    destruct (bucket_lookup hm k Hw) as [b Hb]; [lia|]. by rewrite list_lookup_fmap, Hb.
Qed.

(** A map created with capacity zero accepts no insertion: the bucket index
    is a remainder by zero. *)
Theorem mdv_hashmap_insert_zero_capacity (ko ks size : nat) (item : I) (m1 m2 : bool) (hm : mdv_hashmap) :
  mdv_hashmap_create true true 0 ko ks = Some hm -> ko + ks <= size ->
  mdv_hashmap_find hm (key_of item) = Some None /\
  mdv_hashmap_insert m1 m2 hm item size = None.
Proof.
  intros [= <-] Hs%Nat.ltb_ge. split; [done|]. unfold mdv_hashmap_insert. simpl. by rewrite Hs.
Qed.

End Hashmap.
Arguments mdv_hashmap : clear implicits.

(** Items that are pairs of a number and a value, compared by the number. *)
Definition demo_key : HashKey Z := {| hash_fn := u64; key_cmp_fn := Z.sub |}.
#[local] Existing Instance demo_key.

#[local] Instance demo_key_ok : HashKeyOk Z.
Proof.
  split.
  - split; [intros x|intros x y|intros x y z]; unfold keq; simpl; lia.
  - intros a b Hk. unfold keq in Hk. simpl in *. f_equal. lia.
Defined.

Definition demo_map : mdv_hashmap (Z * Z) :=
  mk_hashmap 1 2 2 0 8 [[(4, 40)]; [(5, 50)]]%Z.

Lemma demo_map_wf : wf fst demo_map.
Proof.
  split; [done| | |done|done].
  - intros i b it Hi Hit. destruct i as [|[|i]]; simpl in Hi; simplify_eq;
      apply list_elem_of_singleton in Hit as ->; vm_compute; reflexivity.
  - intros i b Hi. destruct i as [|[|i]]; simpl in Hi; simplify_eq; split; done || constructor.
Qed.

Lemma mdv_hashmap_insert_correct_witness :
  exists hm', mdv_hashmap_insert fst true true demo_map (5, 51)%Z 16 = Some (Some (5, 51)%Z, hm') /\
    wf fst hm' /\ hm_size hm' = 2 /\
    mdv_hashmap_find fst hm' 5%Z = Some (Some (5, 51)%Z) /\ mdv_hashmap_find fst hm' 4%Z = Some (Some (4, 40)%Z).
Proof.
  destruct (proj2 (proj2 (mdv_hashmap_insert_correct fst demo_map (5, 51)%Z 16 demo_map_wf ltac:(simpl; lia))
              ltac:(simpl; lia)) true) as (r & hm' & E & Hw & Hr & Hf & Hs).
  subst r. exists hm'. split_and!; [exact E|exact Hw|rewrite Hs; vm_compute; reflexivity|rewrite Hf; vm_compute; reflexivity|rewrite Hf; vm_compute; reflexivity].
Defined.

Lemma mdv_hashmap_erase_correct_witness :
  exists hm', mdv_hashmap_erase fst demo_map 5%Z = Some (true, hm') /\ wf fst hm' /\
    mdv_hashmap_find fst hm' 5%Z = Some None.
Proof.
  destruct (mdv_hashmap_erase_correct fst demo_map 5%Z demo_map_wf) as (r & hm' & E & Hw & Hr & Hf & Hs).
  assert (r = true) as -> by (apply Hr; exists (5, 50)%Z; vm_compute; reflexivity).
  exists hm'. split_and!; [exact E|exact Hw|rewrite Hf; vm_compute; reflexivity].
Defined.

Lemma mdv_hashmap_resize_correct_witness :
  exists hm', mdv_hashmap_resize fst true demo_map 3 = (true, hm') /\ wf fst hm' /\
    mdv_hashmap_find fst hm' 4%Z = Some (Some (4, 40)%Z).
Proof.
  destruct (mdv_hashmap_resize_correct fst true demo_map 3 demo_map_wf) as (ok & hm' & E & Hw & Hok & _ & Hf & _).
  assert (ok = true) as -> by (apply Hok; split; [reflexivity|simpl; lia]).
  exists hm'. split_and!; [exact E|exact Hw|rewrite Hf; vm_compute; reflexivity].
Defined.

Lemma mdv_hashmap_clear_stale_size_witness :
  mdv_hashmap_find fst (mdv_hashmap_clear demo_map) 4%Z = Some None /\
  mdv_hashmap_foreach (mdv_hashmap_clear demo_map) = [] /\
  hm_size (mdv_hashmap_clear demo_map) = hm_size demo_map.
Proof. exact (mdv_hashmap_clear_stale_size fst demo_map 4%Z demo_map_wf). Defined.

Lemma mdv_hashmap_insert_zero_capacity_witness :
  exists hm, mdv_hashmap_create true true 0 0 8 = Some hm /\
    mdv_hashmap_insert fst true true hm (4, 40)%Z 16 = None.
Proof.
  eexists. split; [reflexivity|].
  exact (proj2 (mdv_hashmap_insert_zero_capacity fst 0 8 16 (4, 40)%Z true true _ eq_refl ltac:(lia))).
Defined.

End Hashmap.
