(* ===== verification/Vector.v ===== *)
(** * Dynamic array (src/mdv_platform/generic/mdv_vector.c)

    The storage is a sequence of item cells, one per unit of capacity; a cell
    that was never written is [None].  Sizes and the capacity are 64-bit
    integers, and the doubling loop of the growth is run with fuel, because
    in the source it does not end for every vector. *)

From S2P Require Import Prelude.

Module Vector.
Section Vector.
Context {I : Type}.

Record mdv_vector := mk_vector {
  v_rc : Z;
  v_capacity : Z;
  v_size : Z;
  v_item_size : Z;
  v_data : list (option I)
}.

Definition set_data (v : mdv_vector) (sz : Z) (d : list (option I)) : mdv_vector :=
  mk_vector (v_rc v) (v_capacity v) sz (v_item_size v) d.

Definition mdv_vector_create (mem mem_data : bool) (capacity item_size : Z) : option mdv_vector :=
  if negb mem then None
  else if negb mem_data then None
  else Some (mk_vector 1 capacity 0 item_size (replicate (Z.to_nat capacity) None)).

Definition mdv_vector_clone (mem mem_data : bool) (v : mdv_vector) (capacity : Z) : option mdv_vector :=
  let capacity := if (capacity <? v_size v)%Z then v_size v else capacity in
  nv ← mdv_vector_create mem mem_data capacity (v_item_size v);
  Some (set_data nv (v_size v) (memcpy (v_data nv) 0 (take (Z.to_nat (v_size v)) (v_data v)))).

(** [is_empty]: the vector is the static [mdv_empty_vector], which is not
    counted. *)
Definition mdv_vector_retain (is_empty : bool) (v : mdv_vector) : mdv_vector :=
  if is_empty then v
  else mk_vector (rc_retain (v_rc v)) (v_capacity v) (v_size v) (v_item_size v) (v_data v).

(** The returned count, and the vector unless it is freed. *)
Definition mdv_vector_release (is_empty : bool) (v : option mdv_vector) : Z * option mdv_vector :=
  match v with
  | None => (0%Z, None)
  | Some v =>
      if is_empty then (0%Z, Some v)
      else let '(rc, refs, dead) := rc_release (v_rc v) in
           (refs, if dead then None
                  else Some (mk_vector rc (v_capacity v) (v_size v) (v_item_size v) (v_data v)))
  end.

Definition mdv_vector_refs (v : mdv_vector) : Z := u32 (v_rc v).

(** [while (need > new_capacity) new_capacity *= 2;] *)
Fixpoint grow_loop (fuel : nat) (need new_capacity : Z) : outcome Z :=
  match fuel with
  | 0 => OutOfFuel
  | S fuel =>
      if (need >? new_capacity)%Z then grow_loop fuel need (u64 (new_capacity * 2))
      else Done new_capacity
  end.

(** [mem]: whether [realloc] succeeds.  The boolean is the C result. *)
Definition mdv_vector_resize_if_required (fuel : nat) (mem : bool) (v : mdv_vector) (append : Z)
  : outcome (mdv_vector * bool) :=
  match grow_loop fuel (u64 (v_size v + append)) (v_capacity v) with
  | Done new_capacity =>
      if (new_capacity >? v_capacity v)%Z then
        if negb mem then Done (v, false)
        else Done (mk_vector (v_rc v) new_capacity (v_size v) (v_item_size v)
                     (v_data v ++ replicate (Z.to_nat (new_capacity - v_capacity v)) None), true)
      else Done (v, true)
  | OutOfBounds i => OutOfBounds i
  | OutOfFuel => OutOfFuel
  end.

(** The second component is the index the returned pointer refers to. *)
Definition mdv_vector_append (fuel : nat) (mem : bool) (v : mdv_vector) (items : list I)
  : outcome (mdv_vector * option Z) :=
  match mdv_vector_resize_if_required fuel mem v (Z.of_nat (length items)) with
  | Done (v, true) =>
      Done (set_data v (u64 (v_size v + Z.of_nat (length items)))
              (memcpy (v_data v) (Z.to_nat (v_size v)) (Some <$> items)), Some (v_size v))
  | Done (v, false) => Done (v, None)
  | OutOfBounds i => OutOfBounds i
  | OutOfFuel => OutOfFuel
  end.

Definition mdv_vector_push_back (fuel : nat) (mem : bool) (v : mdv_vector) (item : I)
  : outcome (mdv_vector * option Z) :=
  match mdv_vector_resize_if_required fuel mem v 1 with
  | Done (v, true) =>
      Done (set_data v (u64 (v_size v + 1)) (memcpy (v_data v) (Z.to_nat (v_size v)) [Some item]),
            Some (v_size v))
  | Done (v, false) => Done (v, None)
  | OutOfBounds i => OutOfBounds i
  | OutOfFuel => OutOfFuel
  end.

(** [memset] of the cells from [size] to [n] to the item whose bytes are zero. *)
Definition zero_fill (zero : I) (v : mdv_vector) (n : Z) : mdv_vector :=
  set_data v n (memcpy (v_data v) (Z.to_nat (v_size v))
                  (replicate (Z.to_nat (n - v_size v)) (Some zero))).

Definition mdv_vector_resize (zero : I) (fuel : nat) (mem : bool) (v : mdv_vector) (n : Z)
  : outcome (mdv_vector * bool) :=
  if (n <=? v_size v)%Z then Done (set_data v n (v_data v), true)
  else if (n <=? v_capacity v)%Z then Done (zero_fill zero v n, true)
  else
    match mdv_vector_resize_if_required fuel mem v (n - v_size v) with
    | Done (v, true) => Done (zero_fill zero v n, true)
    | Done (v, false) => Done (v, false)
    | OutOfBounds i => OutOfBounds i
    | OutOfFuel => OutOfFuel
    end.

Definition mdv_vector_empty (v : mdv_vector) : bool := (v_size v =? 0)%Z.

Definition mdv_vector_clear (v : mdv_vector) : mdv_vector := set_data v 0 (v_data v).

(** The content of the cell at [pos], [None] for the null pointer. *)
Definition mdv_vector_at (v : mdv_vector) (pos : Z) : option (option I) :=
  if (pos >=? v_size v)%Z then None else lookupZ (v_data v) pos.

(** [for (i; i < size; ++i)], over the cells from [i] on. *)
Fixpoint find_loop (equ : option I -> bool) (n : nat) (d : list (option I)) (i : Z) : option Z :=
  match n, d with
  | S n, x :: d => if equ x then Some i else find_loop equ n d (i + 1)
  | _, _ => None
  end.

Definition mdv_vector_find (equ : option I -> bool) (v : mdv_vector) : option Z :=
  find_loop equ (Z.to_nat (v_size v)) (v_data v) 0.

(** [for (dst = idx, src = dst + 1; src < end; dst = src, ++src)]: [n] items
    are moved down by one cell. *)
Fixpoint erase_loop (n : nat) (d : list (option I)) (dst : nat) : list (option I) :=
  match n with
  | 0 => d
  | S n => erase_loop n (match d !! S dst with Some x => <[dst := x]> d | None => d end) (S dst)
  end.

(** [off]: the distance in bytes of the pointer [item] from [data]. *)
Definition mdv_vector_erase (v : mdv_vector) (off : Z) : mdv_vector :=
  if ((0 <=? off) && (off <? v_item_size v * v_size v))%Z then
    let idx := (off / v_item_size v)%Z in
    if (idx * v_item_size v =? off)%Z then
      set_data v (u64 (v_size v - 1))
        (erase_loop (Z.to_nat (v_size v - idx - 1)) (v_data v) (Z.to_nat idx))
    else v
  else v.

(** ** The vector as a list *)

(** [v] holds the items [l]. *)
Record holds (v : mdv_vector) (l : list I) : Prop := {
  h_size : v_size v = Z.of_nat (length l);
  h_cap : v_capacity v = Z.of_nat (length (v_data v));
  h_item : (0 < v_item_size v)%Z;
  h_cells : exists rest, v_data v = (Some <$> l) ++ rest
}.

Lemma memcpy_app (l s r : list (option I)) :
  length s <= length r -> memcpy (l ++ r) (length l) s = l ++ s ++ drop (length s) r.
Proof.
  intros. unfold memcpy. rewrite take_app_length, drop_app, drop_ge by lia. simpl.
  by replace (length l + length s - length l) with (length s) by lia.
Qed.

Lemma grow_loop_done fuel need cap :
  (0 < cap)%Z -> (need <= 2 ^ 63)%Z -> (need <= cap * 2 ^ Z.of_nat fuel)%Z -> (cap < 2 ^ 63)%Z ->
  exists c, grow_loop (S fuel) need cap = Done c /\ (need <= c)%Z /\ (cap <= c)%Z
            /\ (cap < need -> c < 2 * need)%Z /\ (need <= cap -> c = cap)%Z.
Proof.
  revert cap. induction fuel as [|fuel IH]; intros cap Hc Hn Hf Hb.
  - change (2 ^ Z.of_nat 0)%Z with 1%Z in Hf. simpl.
    destruct (Z.gtb_spec need cap); [lia|]. eexists. split; [done|]. lia.
  - simpl grow_loop. destruct (Z.gtb_spec need cap); [|eexists; split; [done|]; lia].
    rewrite (wrap_id 64) by (split; [lia|]; change (2 ^ 64)%Z with (2 * 2 ^ 63)%Z; lia).
    destruct (decide (cap * 2 < 2 ^ 63)%Z) as [Hlt|Hge].
    + destruct (IH (cap * 2)%Z) as (c & E & ? & ? & ? & ?);
        [lia|lia|rewrite Nat2Z.inj_succ, Z.pow_succ_r in Hf by lia; nia|lia|].
      simpl grow_loop in E. rewrite E. exists c. split; [done|]. lia.
    + destruct (Z.gtb_spec need (cap * 2)); [lia|]. eexists. split; [done|]. lia.
Qed.

(** The doubling of a positive capacity is done after 64 rounds at most. *)
Lemma grow_loop_64 need cap :
  (0 < cap < 2 ^ 63)%Z -> (need <= 2 ^ 63)%Z ->
  exists c, grow_loop 64 need cap = Done c /\ (need <= c)%Z /\ (cap <= c)%Z
            /\ (cap < need -> c < 2 * need)%Z /\ (need <= cap -> c = cap)%Z.
Proof.
  intros [] ?. apply grow_loop_done; [lia..| |lia].
  change (Z.of_nat 63) with 63%Z. nia.
Qed.

Lemma grow_loop_zero fuel need : (0 < need)%Z -> grow_loop fuel need 0 = OutOfFuel.
Proof.
  intros. induction fuel as [|fuel IH]; [done|]. simpl.
  destruct (Z.gtb_spec need 0); [|lia]. exact IH.
Qed.

Lemma resize_if_required_spec mem v l n :
  holds v l -> (0 < v_capacity v < 2 ^ 63)%Z -> (0 <= n)%Z -> (Z.of_nat (length l) + n <= 2 ^ 63)%Z ->
  exists v' ok, mdv_vector_resize_if_required 64 mem v n = Done (v', ok) /\ holds v' l
    /\ (v_capacity v <= v_capacity v')%Z
    /\ (ok = true -> (Z.of_nat (length l) + n <= v_capacity v')%Z)
    /\ (ok = false -> v' = v)
    /\ ok = mem || bool_decide (Z.of_nat (length l) + n <= v_capacity v)%Z.
Proof.
  intros [Hs Hc Hi [rest Hd]] Hcap Hn Hm. unfold mdv_vector_resize_if_required.
  rewrite Hs, (wrap_id 64) by (split; [lia|]; change (2 ^ 64)%Z with (2 * 2 ^ 63)%Z; lia).
  destruct (grow_loop_64 (Z.of_nat (length l) + n) (v_capacity v)) as (c & -> & ? & ? & ? & ?);
    [lia|lia|].
  destruct (Z.gtb_spec c (v_capacity v)) as [Hgt|Hle].
  - rewrite bool_decide_eq_false_2 by lia. destruct mem; simpl.
    + do 2 eexists. split; [done|]. repeat split; simpl; try lia; try done.
      * rewrite Hd, !length_app, length_replicate. rewrite Hc, Hd, length_app in *. lia.
      * rewrite Hd, <- (assoc_L (++)). by eexists.
    + do 2 eexists. split; [done|]. repeat split; eauto; lia.
  - rewrite bool_decide_eq_true_2 by lia. rewrite orb_true_r.
    do 2 eexists. split; [done|]. repeat split; eauto; lia.
Qed.

Lemma fits64 z : (0 <= z <= 2 ^ 63)%Z -> fits 64 z.
Proof. intros. split; [lia|]. change (2 ^ 64)%Z with (2 * 2 ^ 63)%Z. lia. Qed.

(** Writing [items] behind the items of [v]. *)
Lemma holds_write v l (items : list I) :
  holds v l -> (Z.of_nat (length l) + Z.of_nat (length items) <= v_capacity v)%Z ->
  holds (set_data v (Z.of_nat (length (l ++ items)))
           (memcpy (v_data v) (Z.to_nat (v_size v)) (Some <$> items))) (l ++ items).
Proof.
  intros [Hs Hc Hi [rest Hd]] Hcap.
  assert (Hl : length items <= length rest).
  { rewrite Hc, Hd, length_app, length_fmap in Hcap. lia. }
  assert (E : memcpy (v_data v) (Z.to_nat (v_size v)) (Some <$> items)
              = (Some <$> l ++ items) ++ drop (length items) rest).
  { rewrite Hs, Nat2Z.id, Hd. rewrite <- (length_fmap Some l) at 1.
    rewrite memcpy_app by (rewrite length_fmap; done).
    by rewrite fmap_app, length_fmap, <- (assoc_L (++)). }
  split; simpl; [done| |done|rewrite E; by eexists].
  rewrite length_memcpy; [done|]. rewrite Hs, Nat2Z.id, Hd, !length_app, !length_fmap. lia.
Qed.

Lemma append_spec mem v l items :
  holds v l -> (0 < v_capacity v < 2 ^ 63)%Z ->
  (Z.of_nat (length l) + Z.of_nat (length items) <= 2 ^ 63)%Z ->
  exists v' p, mdv_vector_append 64 mem v items = Done (v', p)
    /\ (p = None /\ v' = v /\ mem = false \/ p = Some (Z.of_nat (length l)) /\ holds v' (l ++ items))
    /\ (mem = true -> p = Some (Z.of_nat (length l))).
Proof.
  intros Hh Hcap Hm. unfold mdv_vector_append.
  destruct (resize_if_required_spec mem v l (Z.of_nat (length items)))
    as (v' & ok & -> & Hh' & _ & Hok & Hno & ->); [done|lia|lia|lia|].
  destruct (_ || _) eqn:E.
  - do 2 eexists. split; [done|]. rewrite (h_size _ _ Hh'). split; [|done]. right. split; [done|].
    rewrite (wrap_id 64) by (apply fits64; lia). rewrite <- Nat2Z.inj_add, <- length_app.
    rewrite <- (h_size _ _ Hh'). apply holds_write; auto.
  - apply orb_false_iff in E as [-> _]. do 2 eexists. split; [done|]. split; [left; auto|done].
Qed.

Lemma push_back_append fuel mem v item :
  mdv_vector_push_back fuel mem v item = mdv_vector_append fuel mem v [item].
Proof. reflexivity. Qed.

(** Growing by [replicate] of the zero item, or cutting. *)
Definition resize_list (zero : I) (l : list I) (n : Z) : list I :=
  take (Z.to_nat n) l ++ replicate (Z.to_nat n - length l) zero.

Lemma zero_fill_spec zero v l n :
  holds v l -> (Z.of_nat (length l) <= n <= v_capacity v)%Z ->
  holds (zero_fill zero v n) (resize_list zero l n).
Proof.
  intros Hh Hn. unfold zero_fill, resize_list. rewrite take_ge by lia.
  replace (replicate (Z.to_nat (n - v_size v)) (Some zero))
    with (Some <$> replicate (Z.to_nat n - length l) zero)
    by (rewrite fmap_replicate, (h_size _ _ Hh); f_equal; lia).
  replace n with (Z.of_nat (length (l ++ replicate (Z.to_nat n - length l) zero))) at 1
    by (rewrite length_app, length_replicate; lia).
  apply holds_write; [done|]. rewrite length_replicate. lia.
Qed.

Lemma cut_spec zero v l n :
  holds v l -> (0 <= n <= Z.of_nat (length l))%Z ->
  holds (set_data v n (v_data v)) (resize_list zero l n).
Proof.
  intros [Hs Hc Hi [rest Hd]] Hn. unfold resize_list.
  replace (Z.to_nat n - length l) with 0 by lia. rewrite app_nil_r.
  split; simpl; [rewrite length_take; lia|done..|].
  exists ((Some <$> drop (Z.to_nat n) l) ++ rest).
  by rewrite Hd, (assoc_L (++)), <- fmap_app, take_drop.
Qed.

Lemma at_spec v l (i : nat) : holds v l -> mdv_vector_at v (Z.of_nat i) = Some <$> l !! i.
Proof.
  intros [Hs Hc Hi [rest Hd]]. unfold mdv_vector_at. rewrite Hs, Hd.
  destruct (Z.geb_spec (Z.of_nat i) (Z.of_nat (length l))).
  - by rewrite lookup_ge_None_2 by lia.
  - rewrite lookupZ_nat, lookup_app_l by (rewrite length_fmap; lia). apply list_lookup_fmap.
Qed.

Lemma find_loop_spec equ (l : list I) rest k :
  find_loop equ (length l) ((Some <$> l) ++ rest) k
  = (fun p => (k + Z.of_nat (p.1))%Z) <$> list_find (fun x => equ (Some x)) l.
Proof.
  revert k. induction l as [|x l IH]; intros k; simpl; [done|].
  destruct (equ (Some x)) eqn:E; case_decide as D; simpl.
  - f_equal. lia.
  - exfalso. apply D. done.
  - exfalso. done.
  - rewrite IH. destruct (list_find _ l) as [[i y]|]; simpl; [|done]. f_equal. lia.
Qed.

Lemma erase_loop_spec (p : list (option I)) x s rest :
  exists y, erase_loop (length s) (p ++ x :: s ++ rest) (length p) = p ++ s ++ y :: rest.
Proof.
  revert p x. induction s as [|z s IH]; intros p x; simpl; [by exists x|].
  rewrite lookup_app_r by lia. replace (S (length p) - length p) with 1 by lia. simpl.
  rewrite insert_app_r_alt by lia. rewrite Nat.sub_diag. simpl.
  destruct (IH (p ++ [z]) z) as [y E]. exists y.
  rewrite <- !(assoc_L (++)) in E. simpl in E. rewrite length_app, Nat.add_1_r in E. exact E.
Qed.

Lemma erase_spec v l (i : nat) :
  holds v l -> i < length l -> (Z.of_nat (length l) <= 2 ^ 63)%Z ->
  holds (mdv_vector_erase v (v_item_size v * Z.of_nat i)) (delete i l).
Proof.
  intros [Hs Hc Hi [rest Hd]] Hlt Hm. unfold mdv_vector_erase.
  rewrite (proj2 (andb_true_iff _ _)) by (split; [apply Z.leb_le; nia|apply Z.ltb_lt; nia]).
  rewrite (Z.mul_comm _ (Z.of_nat i)), Z.div_mul, Z.eqb_refl, Nat2Z.id by lia.
  destruct (lookup_lt_is_Some_2 l i Hlt) as [x Hx].
  pose proof (take_drop_middle _ _ _ Hx) as E.
  assert (Ed : v_data v = (Some <$> take i l) ++ Some x :: (Some <$> drop (S i) l) ++ rest).
  { rewrite Hd, <- E at 1. by rewrite fmap_app, fmap_cons, <- (assoc_L (++)). }
  destruct (erase_loop_spec (Some <$> take i l) (Some x) (Some <$> drop (S i) l) rest) as [y Ey].
  rewrite !length_fmap, length_take, length_drop, (Nat.min_l i) in Ey by lia.
  rewrite Hs. replace (Z.to_nat (Z.of_nat (length l) - Z.of_nat i - 1)) with (length l - S i) by lia.
  rewrite Ed, Ey. split; simpl.
  - rewrite (wrap_id 64) by (apply fits64; lia). rewrite length_delete by eauto. lia.
  - rewrite Hc, Ed. rewrite !length_app. simpl. rewrite !length_app. simpl. lia.
  - done.
  - exists (y :: rest). by rewrite delete_take_drop, fmap_app, <- (assoc_L (++)).
Qed.

(** ** Copies *)

Lemma clone_spec m1 m2 v l capacity :
  holds v l -> (0 <= capacity)%Z ->
  match mdv_vector_clone m1 m2 v capacity with
  | Some v' => holds v' l /\ v_rc v' = 1%Z /\ v_capacity v' = Z.max capacity (Z.of_nat (length l)) /\ v_item_size v' = v_item_size v
  | None => m1 = false \/ m2 = false
  end.
Proof.
  intros [Hs Hc Hi [rest Hd]] Hcap. unfold mdv_vector_clone, mdv_vector_create. destruct m1, m2; cbn; auto.
  set (cap := if (capacity <? v_size v)%Z then v_size v else capacity).
  assert (Ecap : cap = Z.max capacity (Z.of_nat (length l))) by (unfold cap; rewrite Hs; destruct (Z.ltb_spec capacity (Z.of_nat (length l))); lia).
  assert (Et : take (Z.to_nat (v_size v)) (v_data v) = Some <$> l) by (rewrite Hs, Nat2Z.id, Hd; apply take_app_length'; by rewrite length_fmap).
  rewrite Et. split_and!; [|done|done|done].
  split; cbn; [done| |done|].
  - unfold memcpy. rewrite length_app, length_app, length_take, length_drop, length_replicate, length_fmap. lia.
  - unfold memcpy. cbn [take]. eexists. rewrite app_nil_l. done.
Qed.

(** With a free cell nothing is allocated. *)
Lemma push_back_room mem v l x :
  holds v l -> (Z.of_nat (length l) < v_capacity v < 2 ^ 63)%Z ->
  exists v', mdv_vector_push_back 64 mem v x = Done (v', Some (Z.of_nat (length l))) /\ holds v' (l ++ [x])
    /\ v_rc v' = v_rc v /\ v_capacity v' = v_capacity v /\ v_item_size v' = v_item_size v.
Proof.
  intros Hh Hc. unfold mdv_vector_push_back, mdv_vector_resize_if_required. rewrite (h_size _ _ Hh), (wrap_id 64) by (apply fits64; lia).
  cbn [grow_loop]. destruct (Z.gtb_spec (Z.of_nat (length l) + 1) (v_capacity v)); [lia|]. destruct (Z.gtb_spec (v_capacity v) (v_capacity v)); [lia|].
  rewrite (h_size _ _ Hh), (wrap_id 64) by (apply fits64; lia). eexists. split; [done|]. destruct Hh as [Hs Hcap Hi [rest Hd]]. split_and!; [|done..].
  assert (Hr : exists r rest', rest = r :: rest').
  { destruct rest as [|r rest']; [|eauto]. rewrite Hcap, Hd, app_nil_r, length_fmap in Hc. lia. }
  destruct Hr as (r & rest' & ->).
  assert (Em : memcpy (v_data v) (Z.to_nat (Z.of_nat (length l))) [Some x] = (Some <$> (l ++ [x])) ++ rest').
  { rewrite Hd, Nat2Z.id. rewrite <- (length_fmap Some l). rewrite memcpy_app by (cbn; lia). rewrite fmap_app. cbn. by rewrite <- (assoc_L (++)). }
  split; cbn; [rewrite length_app; cbn; lia| |done|exists rest'; exact Em].
  rewrite Em, Hcap, Hd, !length_app, !length_fmap, length_app. cbn. lia.
Qed.

(** ** Theorems *)

(** growth.  Appending items to a vector of positive capacity ends (64
    rounds of the doubling loop are enough), keeps the items and writes the new
    ones behind them at the returned place; without memory it returns null and
    changes nothing, and with memory it never fails.  [mdv_vector_push_back] is
    the append of one item.  For a vector of capacity zero, such as
    [mdv_empty_vector], the doubling loop never ends. *)
Theorem mdv_vector_append_correct mem v l items :
  holds v l -> (0 < v_capacity v < 2 ^ 63)%Z ->
  (Z.of_nat (length l) + Z.of_nat (length items) <= 2 ^ 63)%Z ->
  (exists v' p, mdv_vector_append 64 mem v items = Done (v', p)
    /\ (p = None /\ v' = v /\ mem = false \/ p = Some (Z.of_nat (length l)) /\ holds v' (l ++ items))
    /\ (mem = true -> p = Some (Z.of_nat (length l))))
  /\ (forall item, mdv_vector_push_back 64 mem v item = mdv_vector_append 64 mem v [item])
  /\ (forall fuel w item, v_capacity w = 0%Z -> v_size w = 0%Z ->
      mdv_vector_push_back fuel mem w item = OutOfFuel).
Proof.
  intros Hh Hcap Hm. split_and!; [by apply append_spec|intros; apply push_back_append|].
  intros fuel w item Hc Hs. unfold mdv_vector_push_back, mdv_vector_resize_if_required.
  rewrite Hc, Hs. by rewrite grow_loop_zero by done.
Qed.

(** a vector behaves as a list: resizing cuts it or fills it with zero
    items (and fails only without memory, leaving the vector as it is), erasing
    through a pointer to its item [i] deletes exactly that item, an access by
    position yields the item or null past the end, and the search yields the
    first match. *)
Theorem mdv_vector_refines_list zero mem v l :
  holds v l -> (0 < v_capacity v < 2 ^ 63)%Z -> (Z.of_nat (length l) <= 2 ^ 63)%Z ->
  (forall n, (0 <= n <= 2 ^ 63)%Z -> exists v' ok,
     mdv_vector_resize zero 64 mem v n = Done (v', ok)
     /\ (ok = true /\ holds v' (resize_list zero l n) \/ ok = false /\ mem = false /\ v' = v))
  /\ (forall i, i < length l -> holds (mdv_vector_erase v (v_item_size v * Z.of_nat i)) (delete i l))
  /\ (forall i, mdv_vector_at v (Z.of_nat i) = Some <$> l !! i)
  /\ (forall equ, mdv_vector_find equ v
        = (fun p => Z.of_nat (p.1)) <$> list_find (fun x => equ (Some x)) l)
  /\ holds (mdv_vector_clear v) [] /\ (mdv_vector_empty v = true <-> l = []).
Proof.
  intros Hh Hcap Hm. split_and!.
  - intros n Hn. unfold mdv_vector_resize. rewrite (h_size _ _ Hh).
    destruct (Z.leb_spec n (Z.of_nat (length l))).
    { do 2 eexists. split; [done|]. left. split; [done|]. apply cut_spec; [done|lia]. }
    destruct (Z.leb_spec n (v_capacity v)).
    { do 2 eexists. split; [done|]. left. split; [done|]. apply zero_fill_spec; [done|lia]. }
    destruct (resize_if_required_spec mem v l (n - Z.of_nat (length l)))
      as (v' & ok & -> & Hh' & _ & Hok & Hno & E); [done|lia..|].
    destruct ok.
    + do 2 eexists. split; [done|]. left. split; [done|]. apply zero_fill_spec; [done|].
      specialize (Hok eq_refl). lia.
    + symmetry in E. apply orb_false_iff in E as [-> _].
      do 2 eexists. split; [done|]. right. auto.
  - intros. by apply erase_spec.
  - intros. by apply at_spec.
  - intros equ. unfold mdv_vector_find. destruct Hh as [-> _ _ [rest ->]].
    rewrite Nat2Z.id, find_loop_spec. by destruct (list_find _ l) as [[]|].
  - destruct (cut_spec zero v l 0 Hh ltac:(lia)). split; done.
  - unfold mdv_vector_empty. rewrite (h_size _ _ Hh). destruct l; simpl; split; intros; try done; lia.
Qed.

End Vector.

Definition sample : mdv_vector (I := nat) := mk_vector 1 2 2 8 [Some 5; Some 6].

Lemma sample_holds : holds sample [5; 6].
Proof. split; [done..|]. by exists []. Qed.

Lemma mdv_vector_append_correct_witness :
  (exists v' p, mdv_vector_append 64 true sample [7] = Done (v', p)
    /\ (p = None /\ v' = sample /\ true = false \/ p = Some (Z.of_nat 2) /\ holds v' ([5; 6] ++ [7]))
    /\ (true = true -> p = Some (Z.of_nat 2)))
  /\ (forall item, mdv_vector_push_back 64 true sample item = mdv_vector_append 64 true sample [item])
  /\ (forall fuel (w : mdv_vector) (item : nat), v_capacity w = 0%Z -> v_size w = 0%Z ->
      mdv_vector_push_back fuel true w item = OutOfFuel).
Proof.
  exact (mdv_vector_append_correct true sample [5; 6] [7] sample_holds
           (conj eq_refl eq_refl) ltac:(vm_compute; discriminate)).
Defined.

Lemma mdv_vector_refines_list_witness :
  holds (mdv_vector_erase sample (8 * Z.of_nat 0)) (delete 0 [5; 6]).
Proof.
  exact (proj1 (proj2 (mdv_vector_refines_list 0 true sample [5; 6] sample_holds
           (conj eq_refl eq_refl) ltac:(vm_compute; discriminate))) 0 ltac:(simpl; lia)).
Defined.

End Vector.
