(* ===== verification/Rollbacker.v ===== *)
(** * Rollback stack (src/mdv_platform/mdv_rollbacker.c)

    The stack of release operations that the constructors of the program build
    while they acquire resources.  Functions and their arguments are opaque; the
    effect of a rollback is the sequence of the calls it makes. *)

From S2P Require Import Prelude.

Module Rollbacker.
Section Rollbacker.
Context {F A : Type}.

(** [args_count] is the length of [op_args]. *)
Record mdv_rollback_op := mk_op { op_rollback : F; op_args : list A }.

Record mdv_rollbacker := mk_rollbacker {
  r_capacity : nat;
  r_size : nat;
  r_ops : list mdv_rollback_op
}.

(** [None] is the null rollbacker. *)
Definition mdv_rollbacker_push (rbr : option mdv_rollbacker) (op : mdv_rollback_op)
  : bool * option mdv_rollbacker :=
  match rbr with
  | None => (false, None)
  | Some r =>
      if r_capacity r <=? r_size r then (false, Some r)
      else (true, Some (mk_rollbacker (r_capacity r) (r_size r + 1)
                          (take (r_size r) (r_ops r) ++ op :: drop (S (r_size r)) (r_ops r))))
  end.

(** [free_fn] and [self]: the function [mdv_rollbacker_free] and the pointer to
    the new rollbacker. *)
Definition mdv_rollbacker_create (mem : bool) (free_fn : F) (self : A) (capacity : nat)
  : option mdv_rollbacker :=
  if mem then
    snd (mdv_rollbacker_push (Some (mk_rollbacker (capacity + 1) 0 [])) (mk_op free_fn [self]))
  else None.

(** The call that the [switch] over [args_count] makes. *)
Definition run_op (op : mdv_rollback_op) : list (F * list A) :=
  match op_args op with
  | [a] => [(op_rollback op, [a])]
  | [a; b] => [(op_rollback op, [a; b])]
  | [a; b; c] => [(op_rollback op, [a; b; c])]
  | _ => []
  end.

Fixpoint rollback_loop (ops : list mdv_rollback_op) (size : nat) : list (F * list A) :=
  match size with
  | 0 => []
  | S size => match ops !! size with Some op => run_op op | None => [] end ++ rollback_loop ops size
  end.

Definition mdv_rollback (rbr : option mdv_rollbacker) : list (F * list A) :=
  match rbr with None => [] | Some r => rollback_loop (r_ops r) (r_size r) end.

(** ** Lemmas *)

Fixpoint push_all (rbr : option mdv_rollbacker) (ops : list mdv_rollback_op) : option mdv_rollbacker :=
  match ops with [] => rbr | op :: ops => push_all (snd (mdv_rollbacker_push rbr op)) ops end.

Definition op_ok (op : mdv_rollback_op) : Prop := 1 <= length (op_args op) <= 3.

Lemma run_op_ok op : op_ok op -> run_op op = [(op_rollback op, op_args op)].
Proof.
  destruct op as [f [|a [|b [|c [|d args]]]]]; unfold op_ok; simpl; intros; done || lia.
Qed.

Lemma rollback_loop_app ops more n :
  n <= length ops -> rollback_loop (ops ++ more) n = rollback_loop ops n.
Proof.
  induction n as [|n IH]; intros Hn; [done|]. simpl.
  rewrite lookup_app_l by lia. by rewrite IH by lia.
Qed.

Lemma rollback_loop_rev ops :
  Forall op_ok ops ->
  rollback_loop ops (length ops) = (fun op => (op_rollback op, op_args op)) <$> reverse ops.
Proof.
  induction ops as [|op ops IH] using rev_ind; [done|].
  intros [Hops Hop]%Forall_app. apply (proj1 (Forall_singleton _ _)) in Hop. rewrite length_app, Nat.add_1_r. simpl.
  rewrite lookup_app_r, Nat.sub_diag by lia. simpl.
  rewrite rollback_loop_app, IH, reverse_snoc by done. rewrite run_op_ok by done. done.
Qed.

Lemma push_snoc c ops op :
  length ops < c ->
  mdv_rollbacker_push (Some (mk_rollbacker c (length ops) ops)) op
  = (true, Some (mk_rollbacker c (length (ops ++ [op])) (ops ++ [op]))).
Proof.
  intros. unfold mdv_rollbacker_push. simpl. destruct (Nat.leb_spec c (length ops)); [lia|].
  rewrite firstn_all, drop_ge, length_app by lia. done.
Qed.

Lemma push_all_app c ops more :
  length ops + length more <= c ->
  push_all (Some (mk_rollbacker c (length ops) ops)) more
  = Some (mk_rollbacker c (length (ops ++ more)) (ops ++ more)).
Proof.
  revert ops. induction more as [|op more IH]; intros ops Hl; [by rewrite app_nil_r|].
  cbn [push_all]. rewrite push_snoc by (simpl in Hl; lia).
  cbn [snd]. rewrite IH by (len). by rewrite <- (assoc_L (++)).
Qed.

(** a rollback undoes in reverse order.  A rollbacker created for [capacity]
    operations accepts that many, refuses the next one unchanged, and the
    rollback calls every pushed function once, the last pushed first, and frees
    the rollbacker at the very end.  A rollbacker that could not be allocated
    accepts nothing and its rollback calls nothing. *)
Theorem mdv_rollback_reverse (free_fn : F) (self : A) (capacity : nat) (ops : list mdv_rollback_op) op :
  length ops <= capacity -> Forall op_ok ops ->
  let rbr := push_all (mdv_rollbacker_create true free_fn self capacity) ops in
  mdv_rollback rbr = ((fun op => (op_rollback op, op_args op)) <$> reverse ops) ++ [(free_fn, [self])]
  /\ fst (mdv_rollbacker_push rbr op) = bool_decide (length ops < capacity)
  /\ (length ops = capacity -> snd (mdv_rollbacker_push rbr op) = rbr)
  /\ mdv_rollback (push_all (mdv_rollbacker_create false free_fn self capacity) ops) = [].
Proof.
  intros Hl Hok rbr.
  assert (E : rbr = Some (mk_rollbacker (capacity + 1) (length (mk_op free_fn [self] :: ops))
                            (mk_op free_fn [self] :: ops))).
  { unfold rbr, mdv_rollbacker_create.
    rewrite (push_snoc (capacity + 1) []) by (simpl; lia). cbn [snd].
    apply (push_all_app (capacity + 1) [mk_op free_fn [self]] ops). simpl. lia. }
  rewrite E. split_and!.
  - unfold mdv_rollback. cbn [r_ops r_size]. rewrite rollback_loop_rev.
    + by rewrite reverse_cons, fmap_app.
    + constructor; [unfold op_ok; simpl; lia|done].
  - simpl. rewrite Nat.add_1_r. simpl.
    destruct (Nat.leb_spec capacity (length ops)); symmetry;
      [apply bool_decide_eq_false_2|apply bool_decide_eq_true_2]; lia.
  - intros Hc. simpl. rewrite Nat.add_1_r. simpl. destruct (Nat.leb_spec capacity (length ops)); [done|lia].
  - simpl. clear. induction ops as [|o ops IH]; [done|]. exact IH.
Qed.

End Rollbacker.
Arguments mdv_rollback_op : clear implicits.
Arguments mdv_rollbacker : clear implicits.

Lemma mdv_rollback_reverse_witness :
  let rbr := push_all (mdv_rollbacker_create true 0 7 2) [mk_op 1 [10]; mk_op 2 [20; 21]] in
  mdv_rollback rbr = [(2, [20; 21]); (1, [10]); (0, [7])].
Proof.
  exact (proj1 (mdv_rollback_reverse 0 7 2 [mk_op 1 [10]; mk_op 2 [20; 21]] (mk_op 3 [30])
    (le_n 2) ltac:(repeat constructor; unfold op_ok; simpl; lia))).
Defined.

End Rollbacker.
