(* ===== verification/Lrucache.v ===== *)
(** * LRU cache (src/mdv_platform/mdv_lrucache.c)

    A hash map from keys to list entries and the doubly linked list of the
    entries, the least recently used one first.  The two components share the
    entries: the map holds the addresses ([m_entry]) of entries of the list, and
    an eviction reuses the entry of the evicted item.  The allocator's answers
    are arguments, and [None] as a result is an access through a pointer that is
    not valid. *)

From S2P Require Import Prelude Rollbacker DList Hashmap.
Import Rollbacker DList Hashmap.

Module Lrucache.

(** [mdv_lrukey] is [uint32_t], the data pointer a [Z] with 0 for null. *)
Record mdv_lruitem := mk_item { key : N; data : Z }.

#[global] Instance mdv_lruitem_eq_dec : EqDecision mdv_lruitem.
Proof. solve_decision. Defined.

Definition null_item : mdv_lruitem := mk_item 0 0.

Record mdv_lrumap_entry := mk_map { m_key : N; m_entry : option nat }.

Definition mdv_lrukey_hash (k : N) : Z := Z.of_N k.

Definition mdv_lrukey_cmp (a b : N) : Z :=
  if (b <? a)%N then 1 else if (a <? b)%N then -1 else 0.

#[export] Instance lrukey_hash : HashKey N := {
  hash_fn := mdv_lrukey_hash;
  key_cmp_fn := mdv_lrukey_cmp
}.

Lemma lrukey_cmp_0 a b : (key_cmp_fn a b =? 0)%Z = bool_decide (a = b).
Proof.
  simpl. unfold mdv_lrukey_cmp. case_bool_decide as E.
  - subst. by rewrite !N.ltb_irrefl.
  - destruct (N.ltb_spec b a), (N.ltb_spec a b); done || lia.
Qed.

Lemma lrukey_keq a b : keq a b <-> a = b.
Proof. unfold keq. rewrite <- Z.eqb_eq, lrukey_cmp_0. apply bool_decide_eq_true. Qed.

#[export] Instance lrukey_ok : HashKeyOk N.
Proof.
  split.
  - split; intros ?; intros *; rewrite !lrukey_keq; congruence.
  - intros a b ->%lrukey_keq. done.
Qed.

Record mdv_lrucache := mk_cache {
  c_rc : Z;
  c_capacity : nat;
  c_keys : mdv_hashmap mdv_lrumap_entry;
  c_values : mdv_list
}.

Abbreviation heap := (gmap nat (mdv_list_entry mdv_lruitem)).

(** What the constructor can release on a failure. *)
Inductive release_fn := Fn_rollbacker_free | Fn_free | Fn_hashmap_release.
Inductive resource := Res_rollbacker | Res_cache | Res_keys.

(** The cache and the calls of the rollback. *)
Definition mdv_lrucache_create (mem_rbr mem_cache mem_map mem_buckets : bool) (capacity : nat)
  : option mdv_lrucache * list (release_fn * list resource) :=
  let rollbacker := mdv_rollbacker_create mem_rbr Fn_rollbacker_free Res_rollbacker 2 in
  if negb mem_cache then (None, mdv_rollback rollbacker) else
  let rollbacker := snd (mdv_rollbacker_push rollbacker (mk_op Fn_free [Res_cache])) in
  match mdv_hashmap_create mem_map mem_buckets capacity 0 4 with
  | None => (None, mdv_rollback rollbacker)
  | Some keys => (Some (mk_cache 1 capacity keys empty_list), [])
  end.

Definition mdv_lrucache_retain (c : mdv_lrucache) : mdv_lrucache :=
  mk_cache (rc_retain (c_rc c)) (c_capacity c) (c_keys c) (c_values c).

(** The count, and what is left: the heap without the entries when the cache is
    freed ([mdv_lrucache_free]). *)
Definition mdv_lrucache_release (h : heap) (c : mdv_lrucache) : outcome (Z * heap * option mdv_lrucache) :=
  let '(rc, ret, dead) := rc_release (c_rc c) in
  if dead then
    match mdv_list_clear h (c_values c) with
    | Done (h, _) => Done (ret, h, None)
    | OutOfBounds i => OutOfBounds i
    | OutOfFuel => OutOfFuel
    end
  else Done (ret, h, Some (mk_cache rc (c_capacity c) (c_keys c) (c_values c))).

(** [mdv_list_exclude] followed by [mdv_list_emplace_back]. *)
Definition touch (h : heap) (l : mdv_list) (entry : nat) : option (heap * mdv_list) :=
  '(h, l) ← mdv_list_exclude h l entry;
  mdv_list_emplace_back h l entry.

(** [entry->data = it] *)
Definition write_data (h : heap) (entry : nat) (it : mdv_lruitem) : option heap :=
  store h entry (fun e => mk_entry (e_next e) (e_prev e) it).

(** The first branch of [mdv_lrucache_put]: the key is cached. *)
Definition put_hit (h : heap) (c : mdv_lrucache) (item : mdv_lrumap_entry) (new_item : mdv_lruitem)
  : option (bool * mdv_lruitem * heap * mdv_lrucache) :=
  entry ← m_entry item;
  '(h, values) ← touch h (c_values c) entry;
  e ← h !! entry;
  let c := mk_cache (c_rc c) (c_capacity c) (c_keys c) values in
  if (data (e_data e) =? data new_item)%Z then Some (true, null_item, h, c)
  else
    h' ← write_data h entry (mk_item (key (e_data e)) (data new_item));
    Some (true, mk_item (key new_item) (data (e_data e)), h', c).

(** The branch below the capacity. *)
Definition put_new (mem : option nat) (mem_resize mem_entry : bool)
    (h : heap) (c : mdv_lrucache) (new_item : mdv_lruitem)
  : option (bool * mdv_lruitem * heap * mdv_lrucache) :=
  match mem with
  | None => Some (false, null_item, h, c)
  | Some a =>
      let h := <[a := mk_entry None None new_item]> h in
      '(r, keys) ← mdv_hashmap_insert m_key mem_resize mem_entry (c_keys c) (mk_map (key new_item) (Some a)) 16;
      match r with
      | None => Some (false, null_item, delete a h, mk_cache (c_rc c) (c_capacity c) keys (c_values c))
      | Some _ =>
          '(h, values) ← mdv_list_emplace_back h (c_values c) a;
          Some (true, null_item, h, mk_cache (c_rc c) (c_capacity c) keys values)
      end
  end.

(** The branch that evicts the least recently used item. *)
Definition put_evict (mem_resize mem_entry : bool) (h : heap) (c : mdv_lrucache) (new_item : mdv_lruitem)
  : option (bool * mdv_lruitem * heap * mdv_lrucache) :=
  '(r, keys) ← mdv_hashmap_insert m_key mem_resize mem_entry (c_keys c) (mk_map (key new_item) None) 16;
  match r with
  | None => Some (false, null_item, h, mk_cache (c_rc c) (c_capacity c) keys (c_values c))
  | Some _ =>
      entry ← l_next (c_values c);
      e ← h !! entry;
      let old := e_data e in
      h ← write_data h entry new_item;
      let keys := write_item m_key keys (mk_map (key new_item) (Some entry)) in
      '(h, values) ← touch h (c_values c) entry;
      '(_, keys) ← mdv_hashmap_erase m_key keys (key old);
      Some (true, old, h, mk_cache (c_rc c) (c_capacity c) keys values)
  end.

(** The result, [*old], the heap and the cache. *)
Definition mdv_lrucache_put (mem : option nat) (mem_resize mem_entry : bool)
    (h : heap) (c : mdv_lrucache) (new_item : mdv_lruitem)
  : option (bool * mdv_lruitem * heap * mdv_lrucache) :=
  found ← mdv_hashmap_find m_key (c_keys c) (key new_item);
  match found with
  | Some item => put_hit h c item new_item
  | None =>
      if hm_size (c_keys c) <? c_capacity c
      then put_new mem mem_resize mem_entry h c new_item
      else put_evict mem_resize mem_entry h c new_item
  end.

Definition mdv_lrucache_get (h : heap) (c : mdv_lrucache) (k : N) : option (Z * heap * mdv_lrucache) :=
  found ← mdv_hashmap_find m_key (c_keys c) k;
  match found with
  | None => Some (0%Z, h, c)
  | Some item =>
      entry ← m_entry item;
      '(h, values) ← touch h (c_values c) entry;
      e ← h !! entry;
      Some (data (e_data e), h, mk_cache (c_rc c) (c_capacity c) (c_keys c) values)
  end.

(** ** Specification: a list of items, the least recently used first *)

Definition without (k : N) (l : list mdv_lruitem) : list mdv_lruitem :=
  filter (fun x => key x <> k) l.

Definition cached (k : N) (l : list mdv_lruitem) : option mdv_lruitem :=
  List.find (fun x => (key x =? k)%N) l.

Definition lru_put (capacity : nat) (it : mdv_lruitem) (l : list mdv_lruitem)
  : mdv_lruitem * list mdv_lruitem :=
  match cached (key it) l with
  | Some x => (if (data x =? data it)%Z then null_item else x, without (key it) l ++ [it])
  | None =>
      if length l <? capacity then (null_item, l ++ [it])
      else match l with
           | [] => (null_item, [it])
           | x :: l => (x, l ++ [it])
           end
  end.

Definition lru_get (k : N) (l : list mdv_lruitem) : Z * list mdv_lruitem :=
  match cached k l with
  | Some x => (data x, without k l ++ [x])
  | None => (0%Z, l)
  end.

(** ** The cache as a list *)

(** [ps]: the entries of the list with their items. *)
Record repr (h : heap) (c : mdv_lrucache) (ps : list (nat * mdv_lruitem)) : Prop := {
  r_dll : dll h (c_values c) ps.*1;
  r_data : forall a it, (a, it) ∈ ps -> e_data <$> h !! a = Some it;
  r_nodup : NoDup (key <$> ps.*2);
  r_wf : wf m_key (c_keys c);
  r_in : forall a it, (a, it) ∈ ps -> lookup m_key (c_keys c) (key it) = Some (mk_map (key it) (Some a));
  r_out : forall k, k ∉ key <$> ps.*2 -> lookup m_key (c_keys c) k = None;
  r_size : hm_size (c_keys c) = length ps;
  r_cap : length ps <= c_capacity c;
  r_map : 0 < hm_capacity (c_keys c) /\ hm_key_offset (c_keys c) = 0 /\ hm_key_size (c_keys c) = 4
}.

(** The map part of [repr]: it depends on the set of entries only. *)
Record kmap (keys : mdv_hashmap mdv_lrumap_entry) (ps : list (nat * mdv_lruitem)) : Prop := {
  k_wf : wf m_key keys;
  k_in : forall a it, (a, it) ∈ ps -> lookup m_key keys (key it) = Some (mk_map (key it) (Some a));
  k_out : forall k, k ∉ key <$> ps.*2 -> lookup m_key keys k = None
}.

Lemma repr_kmap h c ps : repr h c ps -> kmap (c_keys c) ps.
Proof. intros []. by split. Qed.

Lemma lookup_insert_key keys (it : mdv_lrumap_entry) r k :
  (if (key_cmp_fn (m_key it) k =? 0)%Z then r else lookup m_key keys k)
  = if decide (m_key it = k) then r else lookup m_key keys k.
Proof. rewrite lrukey_cmp_0. case_bool_decide; by case_decide. Qed.

Lemma elem_of_keys (ps : list (nat * mdv_lruitem)) k :
  k ∈ key <$> ps.*2 <-> exists a it, (a, it) ∈ ps /\ key it = k.
Proof.
  rewrite !list_elem_of_fmap. split.
  - intros (it & -> & ([a it'] & -> & H)%list_elem_of_fmap). eauto.
  - intros (a & it & H & <-). exists it. split; [done|]. apply list_elem_of_fmap. by exists (a, it).
Qed.

Lemma keys_perm (ps ps' : list (nat * mdv_lruitem)) : ps ≡ₚ ps' -> key <$> ps.*2 ≡ₚ key <$> ps'.*2.
Proof. by intros ->. Qed.

(** Writing the payload of an entry leaves the links alone. *)
Lemma lseg_write (h : heap) prev es nxt a e d :
  h !! a = Some e -> lseg h prev es nxt ->
  lseg (<[a := mk_entry (e_next e) (e_prev e) d]> h) prev es nxt.
Proof.
  intros He. revert prev. induction es as [|x es IH]; intros prev; [done|].
  intros [[dx Hx] Hl]. split; [|by apply IH]. destruct (decide (x = a)) as [->|].
  - rewrite He in Hx. simplify_eq. rewrite lookup_insert_eq. by exists d.
  - rewrite lookup_insert_ne by done. eauto.
Qed.

Lemma dll_write (h : heap) l es a e d :
  h !! a = Some e -> dll h l es -> dll (<[a := mk_entry (e_next e) (e_prev e) d]> h) l es.
Proof. intros He [? ? ? ?]. split; try done. by apply lseg_write. Qed.

Lemma touch_spec (h : heap) l pre a post :
  dll h l (pre ++ a :: post) ->
  exists h' l', touch h l a = Some (h', l') /\ dll h' l' (pre ++ post ++ [a])
    /\ forall x, e_data <$> h' !! x = e_data <$> h !! x.
Proof.
  intros Hd. destruct (mdv_list_exclude_spec h l pre a post Hd) as (h1 & l1 & E1 & Hd1 & Hr1 & Ha).
  destruct (mdv_list_emplace_back_spec h1 l1 (pre ++ post) a Hd1 Ha) as (h2 & l2 & E2 & Hd2 & Hr2).
  { pose proof (dll_nodup _ _ _ Hd) as Hn. rewrite <- Permutation_middle in Hn.
    by apply NoDup_cons in Hn as [? _]. }
  unfold touch. rewrite E1. simpl. rewrite E2. exists h2, l2.
  rewrite <- (assoc_L (++)) in Hd2. split_and!; [done..|]. intros x.
  rewrite (proj2 (Hr2 x)). apply Hr1.
Qed.

(** A cached key has its entry in the list. *)
Lemma lookup_split h c ps k m :
  repr h c ps -> lookup m_key (c_keys c) k = Some m ->
  exists a it ps1 ps2, ps = ps1 ++ (a, it) :: ps2 /\ key it = k /\ m = mk_map k (Some a).
Proof.
  intros Hr Hl. destruct (decide (k ∈ key <$> ps.*2)) as [Hin|Hout].
  - apply elem_of_keys in Hin as (a & it & Hp & <-). rewrite (r_in _ _ _ Hr a it Hp) in Hl.
    apply list_elem_of_split in Hp as (ps1 & ps2 & ->). simplify_eq. eauto 8.
  - by rewrite (r_out _ _ _ Hr k Hout) in Hl.
Qed.

Lemma cached_split l1 it l2 :
  NoDup (key <$> l1 ++ it :: l2) ->
  cached (key it) (l1 ++ it :: l2) = Some it /\ without (key it) (l1 ++ it :: l2) = l1 ++ l2.
Proof.
  rewrite fmap_app, fmap_cons. intros (_ & Hd & [Hn _]%NoDup_cons)%NoDup_app.
  assert (Hne1 : forall x, x ∈ l1 -> key x <> key it).
  { intros x Hx E. apply (Hd (key x)); [by apply list_elem_of_fmap_2|]. rewrite E. by left. }
  assert (Hne2 : forall x, x ∈ l2 -> key x <> key it).
  { intros x Hx E. apply Hn. rewrite <- E. by apply list_elem_of_fmap_2. }
  split.
  - unfold cached. clear Hd. induction l1 as [|x l1 IH]; simpl; [by rewrite N.eqb_refl|].
    destruct (N.eqb_spec (key x) (key it)) as [E|]; [|apply IH; set_solver].
    destruct (Hne1 x); [by left|done].
  - unfold without. rewrite filter_app, filter_cons_False by auto.
    by rewrite !filter_all by auto.
Qed.

Lemma cached_None l k : k ∉ key <$> l -> cached k l = None.
Proof.
  intros Hk. unfold cached. induction l as [|x l IH]; [done|]. simpl.
  rewrite fmap_cons in Hk. apply not_elem_of_cons in Hk as [Hx Hl].
  destruct (N.eqb_spec (key x) k) as [E|]; [by destruct Hx|]. by apply IH.
Qed.

Lemma fmap_split {A B} (f : A -> B) ps1 p ps2 : f <$> ps1 ++ p :: ps2 = (f <$> ps1) ++ f p :: (f <$> ps2).
Proof. by rewrite fmap_app. Qed.

(** [repr] after moving an entry to the back, possibly with a new payload. *)
Lemma repr_move h h' c values ps1 ps2 a it it' :
  repr h c (ps1 ++ (a, it) :: ps2) -> key it' = key it ->
  dll h' values (ps1.*1 ++ ps2.*1 ++ [a]) ->
  (forall x, x <> a -> e_data <$> h' !! x = e_data <$> h !! x) -> e_data <$> h' !! a = Some it' ->
  repr h' (mk_cache (c_rc c) (c_capacity c) (c_keys c) values) (ps1 ++ ps2 ++ [(a, it')]).
Proof.
  intros Hr Hk Hd Hx Ha. pose proof (dll_nodup _ _ _ Hd) as Hn.
  assert (Hkeys : key <$> (ps1 ++ ps2 ++ [(a, it')]).*2 ≡ₚ key <$> (ps1 ++ (a, it) :: ps2).*2).
  { rewrite !fmap_app. simpl. rewrite Hk. solve_Permutation. }
  split; simpl.
  - by rewrite !fmap_app.
  - intros b itb Hb. rewrite (assoc_L (++)) in Hb. apply elem_of_app in Hb as [Hb|Hb].
    + assert (b <> a) as Hne.
      { intros ->. rewrite (assoc_L (++)), <- fmap_app in Hn. apply NoDup_app in Hn as (_ & Hdis & _).
        apply (Hdis a); [|by left]. apply list_elem_of_fmap. by exists (a, itb). }
      rewrite Hx by done. apply (r_data _ _ _ Hr). set_solver.
    + apply list_elem_of_singleton in Hb. by simplify_eq.
  - rewrite Hkeys. apply Hr.
  - apply Hr.
  - intros b itb Hb. rewrite (assoc_L (++)) in Hb. apply elem_of_app in Hb as [Hb|Hb].
    + apply (r_in _ _ _ Hr). set_solver.
    + apply list_elem_of_singleton in Hb. simplify_eq. rewrite Hk. apply (r_in _ _ _ Hr). set_solver.
  - intros k Hkk. apply (r_out _ _ _ Hr). by rewrite <- Hkeys.
  - rewrite (r_size _ _ _ Hr). rewrite ?length_app. simpl. rewrite ?length_app. simpl. lia.
  - pose proof (r_cap _ _ _ Hr) as Hc. rewrite !length_app in *. simpl in *. rewrite ?length_app in *. simpl in *. lia.
  - apply Hr.
Qed.

(** Insertion of a key that is not in the map, with any answer of the allocator. *)
Lemma insert_new (mr me : bool) keys k (e : option nat) :
  wf m_key keys -> 0 < hm_capacity keys /\ hm_key_offset keys = 0 /\ hm_key_size keys = 4 ->
  lookup m_key keys k = None ->
  exists r keys', mdv_hashmap_insert m_key mr me keys (mk_map k e) 16 = Some (r, keys') /\
    wf m_key keys' /\
    (0 < hm_capacity keys' /\ hm_key_offset keys' = 0 /\ hm_key_size keys' = 4) /\
    (forall k', lookup m_key keys' k' = if decide (k = k') then r else lookup m_key keys k') /\
    (r = None /\ hm_size keys' = hm_size keys /\ mr && me = false \/
     r = Some (mk_map k e) /\ hm_size keys' = S (hm_size keys)).
Proof.
  intros Hw (Hc & Ho & Hs) Hn.
  assert (Hno : forall k', lookup m_key keys k' = if decide (k = k') then None else lookup m_key keys k').
  { intros k'. case_decide; [by subst|done]. }
  destruct (mdv_hashmap_insert_spec m_key keys (mk_map k e) 16 me Hw Hc ltac:(lia))
    as (r & keys' & E & Hw' & -> & Hl & Hsz & Hc' & Ho' & Hs').
  assert (Hsz' : hm_size keys' = hm_size keys + (if me then 1 else 0)).
  { rewrite Hsz. unfold size_without. simpl. by rewrite Hn. }
  destruct mr; [|destruct (mdv_hashmap_insert_no_resize m_key keys (mk_map k e) 16 me) as [Ef|Ef]].
  - do 2 eexists. split; [exact E|]. split_and!; [done|lia|lia|lia| |].
    + intros k'. rewrite Hl. apply lookup_insert_key.
    + destruct me; [right|left]; (split_and!; [done|lia|done]) || (split; [done|lia]).
  - do 2 eexists. split; [exact Ef|]. split_and!; try done. left. done.
  - do 2 eexists. split; [rewrite Ef; exact E|]. split_and!; [done|lia|lia|lia| |].
    + intros k'. rewrite Hl. apply lookup_insert_key.
    + destruct me; [right|left]; (split_and!; [done|lia|done]) || (split; [done|lia]).
Qed.

Lemma put_hit_spec h c ps1 a it ps2 it' :
  repr h c (ps1 ++ (a, it) :: ps2) -> key it' = key it ->
  exists h' c', put_hit h c (mk_map (key it) (Some a)) it'
      = Some (true, if (data it =? data it')%Z then null_item else it, h', c')
    /\ repr h' c' (ps1 ++ ps2 ++ [(a, it')]) /\ c_capacity c' = c_capacity c.
Proof.
  intros Hr Hk. unfold put_hit. simpl. pose proof (r_dll _ _ _ Hr) as Hd.
  rewrite fmap_split in Hd. simpl in Hd.
  destruct (touch_spec _ _ _ _ _ Hd) as (h1 & l1 & E & Hd1 & Hx). rewrite E. simpl.
  assert (Ha : e_data <$> h1 !! a = Some it) by (rewrite Hx; apply (r_data _ _ _ Hr); set_solver).
  destruct (h1 !! a) as [e|] eqn:He; [|done]. simpl in *. injection Ha as Ha. rewrite Ha.
  destruct (Z.eqb_spec (data it) (data it')) as [Ed|Ed].
  - do 2 eexists. split; [done|]. split; [|done].
    assert (it' = it) as -> by (destruct it, it'; simpl in *; congruence).
    eapply repr_move; try done. rewrite He. simpl. congruence.
  - unfold write_data, store. rewrite He. simpl. do 2 eexists. split.
    { rewrite Hk. by destruct it. }
    split; [|done]. eapply repr_move; try done.
    + by apply dll_write.
    + intros x Hne. rewrite lookup_insert_ne by done. apply Hx.
    + rewrite lookup_insert_eq. simpl. f_equal. destruct it'; simpl in *. congruence.
Qed.

(** A new entry at the back. *)
Lemma put_new_spec mem mr me h c ps it :
  repr h c ps -> key it ∉ key <$> ps.*2 -> length ps < c_capacity c ->
  (forall a, mem = Some a -> h !! a = None) ->
  exists ok h' c', put_new mem mr me h c it = Some (ok, null_item, h', c')
    /\ c_capacity c' = c_capacity c
    /\ (ok = false /\ repr h' c' ps /\ h' = h /\ (mem = None \/ mr && me = false)
        \/ exists a, mem = Some a /\ ok = true /\ repr h' c' (ps ++ [(a, it)])).
Proof.
  intros Hr Hk Hlen Hfresh. unfold put_new. destruct mem as [a|].
  2:{ do 3 eexists. split; [done|]. split; [done|]. left. auto. }
  specialize (Hfresh a eq_refl).
  destruct (insert_new mr me (c_keys c) (key it) (Some a)) as (r & keys' & E & Hw' & Hm' & Hl & Hcase);
    [apply Hr|apply Hr|by apply (r_out _ _ _ Hr)|].
  simpl. rewrite E. simpl. destruct Hcase as [(-> & Hs & Hmem)|(-> & Hs)].
  - do 3 eexists. split; [done|]. split; [done|]. left. rewrite delete_insert_id by done.
    split_and!; try done; [|by right]. destruct Hr. split; simpl; try done.
    + intros b itb Hb. rewrite Hl, decide_False; [by apply r_in0|].
      intros Ek. apply Hk. rewrite Ek. apply elem_of_keys. eauto.
    + intros k' Hk'. rewrite Hl. case_decide; [done|]. by apply r_out0.
    + lia.
  - pose proof (r_dll _ _ _ Hr) as Hd.
    assert (Hna : a ∉ ps.*1).
    { intros Ha. apply (lseg_allocated _ _ _ _ a (dll_seg _ _ _ Hd)) in Ha as [? Ha]. congruence. }
    set (h1 := <[a := _]> h).
    assert (Hd1 : dll h1 (c_values c) ps.*1).
    { destruct Hd. split; try done. by apply lseg_insert_ne. }
    destruct (mdv_list_emplace_back_spec h1 (c_values c) ps.*1 a Hd1) as (h2 & l2 & E2 & Hd2 & Hr2);
      [unfold h1; rewrite lookup_insert_eq; eauto|done|].
    rewrite E2. simpl. do 3 eexists. split; [done|]. split; [done|]. right. exists a.
    split_and!; try done. split; simpl.
    + by rewrite fmap_app.
    + intros b itb Hb. rewrite (proj2 (Hr2 b)). unfold h1. apply elem_of_app in Hb as [Hb|Hb].
      * rewrite lookup_insert_ne; [by apply (r_data _ _ _ Hr)|]. intros <-. apply Hna.
        apply list_elem_of_fmap. by exists (a, itb).
      * apply list_elem_of_singleton in Hb. simplify_eq. by rewrite lookup_insert_eq.
    + rewrite !fmap_app. apply NoDup_app. split_and!; [apply Hr| |apply NoDup_singleton].
      intros k Hk1 Hk2. apply list_elem_of_singleton in Hk2. by subst k.
    + done.
    + intros b itb Hb. rewrite Hl. apply elem_of_app in Hb as [Hb|Hb].
      * rewrite decide_False; [by apply (r_in _ _ _ Hr)|]. intros Ek. apply Hk. rewrite Ek.
        apply elem_of_keys. eauto.
      * apply list_elem_of_singleton in Hb. simplify_eq. by rewrite decide_True.
    + intros k. rewrite !fmap_app, not_elem_of_app, Hl. simpl. intros [Hk1 Hk2].
      rewrite decide_False by (intros <-; apply Hk2; by left). by apply (r_out _ _ _ Hr).
    + rewrite Hs, (r_size _ _ _ Hr), length_app. simpl. lia.
    + rewrite length_app. simpl. lia.
    + done.
Qed.

(** The map after the eviction: the new key takes the entry of the old one. *)
Lemma evict_keys (keys1 : mdv_hashmap mdv_lrumap_entry) k (a : nat) k0 :
  wf m_key keys1 -> lookup m_key keys1 k <> None -> lookup m_key keys1 k0 <> None -> k <> k0 ->
  exists keys', mdv_hashmap_erase m_key (write_item m_key keys1 (mk_map k (Some a))) k0 = Some (true, keys')
    /\ wf m_key keys' /\ S (hm_size keys') = hm_size keys1
    /\ hm_capacity keys' = hm_capacity keys1
    /\ hm_key_offset keys' = hm_key_offset keys1 /\ hm_key_size keys' = hm_key_size keys1
    /\ forall k', lookup m_key keys' k' = if decide (k0 = k') then None
         else if decide (k = k') then Some (mk_map k (Some a)) else lookup m_key keys1 k'.
Proof.
  intros Hw Hk Hk0 Hne. destruct (write_item_spec m_key keys1 (mk_map k (Some a)) Hw Hk) as [Hw2 Hl2].
  set (keys2 := write_item _ _ _) in *.
  assert (H0 : lookup m_key keys2 k0 <> None).
  { rewrite Hl2, lookup_insert_key. simpl. by rewrite decide_False. }
  destruct (mdv_hashmap_erase_spec m_key keys2 k0 Hw2) as (r & keys' & E & Hw' & Hr & Hl & Hs & Hc).
  assert (r = true) as -> by (by apply Hr).
  exists keys'. split; [done|]. split; [done|].
  assert (Hpos : 0 < hm_size keys1).
  { pose proof (wf_size m_key keys1 Hw) as Hz. destruct (lookup m_key keys1 k) as [x|] eqn:Ek; [|done].
    destruct (lookup_elem m_key keys1 k x Hw Ek) as [Hx _]. rewrite Hz.
    destruct (mdv_hashmap_foreach keys1); [by apply elem_of_nil in Hx|simpl; lia]. }
  assert (Hsz : hm_size keys' = hm_size keys1 - 1).
  { rewrite Hs. unfold size_without. by destruct (lookup m_key keys2 k0). }
  assert (Hok : hm_key_offset keys' = hm_key_offset keys1 /\ hm_key_size keys' = hm_key_size keys1).
  { unfold mdv_hashmap_erase in E. destruct (hm_capacity keys2 =? 0); [by simplify_eq|].
    destruct (hm_buckets keys2 !! _) as [b|]; [|done]. simpl in E.
    destruct (bucket_find m_key k0 b); by simplify_eq. }
  destruct Hok as [-> ->]. split_and!; [lia|done|done|done|]. intros k'. rewrite Hl, lrukey_cmp_0.
  case_bool_decide as D; [by rewrite decide_True|]. rewrite decide_False by done.
  by rewrite Hl2, lookup_insert_key.
Qed.

Lemma put_evict_spec mr me h c a it0 ps it :
  repr h c ((a, it0) :: ps) -> key it ∉ key <$> ((a, it0) :: ps).*2 ->
  exists ok old h' c', put_evict mr me h c it = Some (ok, old, h', c')
    /\ c_capacity c' = c_capacity c
    /\ (ok = false /\ old = null_item /\ repr h' c' ((a, it0) :: ps) /\ mr && me = false
        \/ ok = true /\ old = it0 /\ repr h' c' (ps ++ [(a, it)])).
Proof.
  intros Hr Hk. unfold put_evict.
  destruct (insert_new mr me (c_keys c) (key it) None) as (r & keys1 & E & Hw1 & Hm1 & Hl1 & Hcase);
    [apply Hr|apply Hr|by apply (r_out _ _ _ Hr)|].
  rewrite E. simpl.
  assert (Hin1 : forall b itb, (b, itb) ∈ (a, it0) :: ps -> lookup m_key keys1 (key itb) = Some (mk_map (key itb) (Some b))).
  { intros b itb Hb. rewrite Hl1, decide_False; [by apply (r_in _ _ _ Hr)|].
    intros Ek. apply Hk. rewrite Ek. apply elem_of_keys. eauto. }
  destruct Hcase as [(-> & Hs & Hmem)|(-> & Hs)].
  - do 4 eexists. split; [done|]. split; [done|]. left. split_and!; try done.
    destruct Hr. split; simpl; try done.
    + intros k' Hk'. rewrite Hl1. case_decide; [done|]. by apply r_out0.
    + simpl in *. lia.
  - pose proof (r_dll _ _ _ Hr) as Hd. simpl in Hd.
    rewrite (dll_next _ _ _ Hd). simpl.
    assert (Ha : e_data <$> h !! a = Some it0) by (apply (r_data _ _ _ Hr); by left).
    destruct (h !! a) as [e|] eqn:He; [|done]. simpl in *. injection Ha as Ha.
    unfold write_data, store. rewrite He. simpl.
    destruct (touch_spec (<[a := mk_entry (e_next e) (e_prev e) it]> h) (c_values c) [] a ps.*1)
      as (h2 & l2 & E2 & Hd2 & Hx2); [by apply dll_write|].
    rewrite E2. simpl. rewrite Ha.
    assert (Hne : key it <> key it0) by (intros Ek; apply Hk; rewrite Ek; by left).
    destruct (evict_keys keys1 (key it) a (key it0)) as (keys' & E3 & Hw' & Hs' & Hc' & Ho' & Hk' & Hl');
      [done|rewrite Hl1, decide_True; done|rewrite (Hin1 a it0) by (by left); done|done|].
    rewrite E3. simpl. do 4 eexists. split; [done|]. split; [done|]. right. split_and!; try done.
    assert (Hn0 : key it0 ∉ key <$> ps.*2).
    { pose proof (r_nodup _ _ _ Hr) as Hn. by apply NoDup_cons in Hn as [? _]. }
    assert (Hna : a ∉ ps.*1).
    { pose proof (dll_nodup _ _ _ Hd) as Hn. by apply NoDup_cons in Hn as [? _]. }
    split; simpl.
    + by rewrite fmap_app.
    + intros b itb Hb. rewrite Hx2. apply elem_of_app in Hb as [Hb|Hb].
      * rewrite lookup_insert_ne; [apply (r_data _ _ _ Hr); by right|]. intros <-. apply Hna.
        apply list_elem_of_fmap. by exists (a, itb).
      * apply list_elem_of_singleton in Hb. simplify_eq. by rewrite lookup_insert_eq.
    + rewrite !fmap_app. apply NoDup_app. split_and!; [|intros k Hk1 Hk2|apply NoDup_singleton].
      * pose proof (r_nodup _ _ _ Hr) as Hn. by apply NoDup_cons in Hn as [_ ?].
      * apply list_elem_of_singleton in Hk2. subst k. apply Hk. by right.
    + done.
    + intros b itb Hb. rewrite Hl'. apply elem_of_app in Hb as [Hb|Hb].
      * assert (Hin : key itb ∈ key <$> ps.*2) by (apply elem_of_keys; eauto).
        rewrite decide_False by (intros Ek; apply Hn0; by rewrite Ek).
        rewrite decide_False by (intros Ek; apply Hk; rewrite Ek; by right). apply Hin1. by right.
      * apply list_elem_of_singleton in Hb. simplify_eq. rewrite decide_False by congruence.
        by rewrite decide_True.
    + intros k. rewrite !fmap_app, not_elem_of_app, Hl'. simpl. intros [Hk1 Hk2]. case_decide as D; [done|].
      rewrite decide_False by (intros <-; apply Hk2; by left).
      rewrite Hl1, decide_False by (intros <-; apply Hk2; by left).
      apply (r_out _ _ _ Hr). simpl. intros [?|?]%elem_of_cons; [congruence|done].
    + pose proof (r_size _ _ _ Hr) as Hz. rewrite length_app. simpl in *. lia.
    + pose proof (r_cap _ _ _ Hr) as Hz. rewrite length_app. simpl in *. lia.
    + lia.
Qed.

Lemma create_repr capacity c :
  0 < capacity ->
  fst (mdv_lrucache_create true true true true capacity) = Some c -> repr ∅ c [].
Proof.
  intros Hc. unfold mdv_lrucache_create. simpl negb. cbv iota zeta.
  destruct (mdv_hashmap_create true true capacity 0 4) as [keys|] eqn:E; [|done]. simpl.
  intros [= <-]. destruct (mdv_hashmap_create_wf m_key _ _ _ _ _ _ E) as [Hw Hl].
  unfold mdv_hashmap_create in E. simpl in E. change (5 / 4) with 1 in E. rewrite Nat.mul_1_r in E.
  destruct (Nat.eqb_spec capacity 0) as [|_]; [lia|]. simplify_eq.
  split; simpl; try done; try lia; intros.
  - split; try done. apply NoDup_nil_2.
  - by apply elem_of_nil in H.
  - apply NoDup_nil_2.
  - by apply elem_of_nil in H.
Qed.

(** ** Theorems *)

(** storing an item.  The cache behaves as a list with the least recently
    used item first: a cached key moves to the back and a changed value is
    handed out as [old]; below the capacity the item is appended; at the
    capacity the first item is evicted and handed out.  If an allocation fails
    the call returns false and the cached items stay as they were. *)
Theorem mdv_lrucache_put_refines h c ps mem mr me it :
  repr h c ps -> 0 < c_capacity c -> (forall a, mem = Some a -> h !! a = None) ->
  exists ok old h' c' ps', mdv_lrucache_put mem mr me h c it = Some (ok, old, h', c')
    /\ repr h' c' ps' /\ c_capacity c' = c_capacity c
    /\ (ok = true -> (old, ps'.*2) = lru_put (c_capacity c) it ps.*2)
    /\ (ok = false -> old = null_item /\ ps' = ps)
    /\ (mem <> None -> mr = true -> me = true -> ok = true).
Proof.
  intros Hr Hcap Hfresh. unfold mdv_lrucache_put. rewrite find_lookup by apply Hr. simpl.
  destruct (lookup m_key (c_keys c) (key it)) as [m|] eqn:El.
  - destruct (lookup_split _ _ _ _ _ Hr El) as (a & it0 & ps1 & ps2 & -> & Hk & ->).
    destruct (put_hit_spec h c ps1 a it0 ps2 it Hr (eq_sym Hk)) as (h' & c' & E & Hr' & Hc').
    rewrite <- Hk, E. do 5 eexists. split; [done|]. split_and!; [done|done| |done|done]. intros _.
    pose proof (r_nodup _ _ _ Hr) as Hn. rewrite fmap_split in Hn |- *. simpl in Hn |- *.
    destruct (cached_split _ _ _ Hn) as [Ec Ew]. unfold lru_put. rewrite <- Hk, Ec, Ew.
    by rewrite !fmap_app, (assoc_L (++)).
  - assert (Hk : key it ∉ key <$> ps.*2).
    { intros (a & it0 & Hp & Hk)%elem_of_keys. rewrite <- Hk, (r_in _ _ _ Hr a it0 Hp) in El. done. }
    unfold lru_put. rewrite cached_None by done. rewrite (r_size _ _ _ Hr), length_fmap.
    destruct (Nat.ltb_spec (length ps) (c_capacity c)) as [Hlt|Hge].
    + destruct (put_new_spec mem mr me h c ps it Hr Hk Hlt Hfresh)
        as (ok & h' & c' & E & Hc' & [(-> & Hr' & _ & Hm)|(a & -> & -> & Hr')]);
        do 5 eexists; (split; [exact E|]); split_and!; try done.
      * intros ? -> ->. by destruct Hm.
      * intros _. by rewrite fmap_app.
    + destruct ps as [|[a it0] ps]; [simpl in Hge; lia|].
      destruct (put_evict_spec mr me h c a it0 ps it Hr Hk)
        as (ok & old & h' & c' & E & Hc' & [(-> & -> & Hr' & Hm)|(-> & -> & Hr')]);
        do 5 eexists; (split; [exact E|]); split_and!; try done.
      * intros ? -> ->. done.
      * intros _. by rewrite fmap_app.
Qed.

(** reading the cache.  A cached key yields its data and becomes the most
    recently used; any other key yields null and changes nothing.  A freshly
    created cache is empty. *)
Theorem mdv_lrucache_get_refines h c ps k :
  repr h c ps ->
  (exists h' c' ps', mdv_lrucache_get h c k = Some (fst (lru_get k ps.*2), h', c')
     /\ repr h' c' ps' /\ ps'.*2 = snd (lru_get k ps.*2) /\ c_capacity c' = c_capacity c)
  /\ (forall capacity c0, 0 < capacity ->
       fst (mdv_lrucache_create true true true true capacity) = Some c0 -> repr ∅ c0 []).
Proof.
  intros Hr. split; [|apply create_repr]. unfold mdv_lrucache_get. rewrite find_lookup by apply Hr. simpl.
  destruct (lookup m_key (c_keys c) k) as [m|] eqn:El.
  - destruct (lookup_split _ _ _ _ _ Hr El) as (a & it & ps1 & ps2 & -> & Hk & ->). simpl.
    pose proof (r_dll _ _ _ Hr) as Hd. rewrite fmap_split in Hd. simpl in Hd.
    destruct (touch_spec _ _ _ _ _ Hd) as (h1 & l1 & E & Hd1 & Hx). rewrite E. simpl.
    assert (Ha : e_data <$> h1 !! a = Some it) by (rewrite Hx; apply (r_data _ _ _ Hr); set_solver).
    pose proof (r_nodup _ _ _ Hr) as Hn. rewrite fmap_split in Hn |- *. simpl in Hn |- *.
    destruct (cached_split _ _ _ Hn) as [Ec Ew]. unfold lru_get. rewrite <- Hk, Ec. simpl.
    destruct (h1 !! a) as [e|] eqn:He; [|done]. simpl in *. injection Ha as Ha. rewrite Ha.
    exists h1. eexists _, (ps1 ++ ps2 ++ [(a, it)]). split; [done|]. split_and!; [|by rewrite Ew, !fmap_app, (assoc_L (++))|done].
    eapply repr_move; try done. rewrite He. simpl. congruence.
  - assert (Hk : k ∉ key <$> ps.*2).
    { intros (a & it0 & Hp & Hk)%elem_of_keys. rewrite <- Hk, (r_in _ _ _ Hr a it0 Hp) in El. done. }
    unfold lru_get. rewrite cached_None by done. simpl. eauto 8.
Qed.

(** ** Witnesses *)

Definition demo_cache : mdv_lrucache :=
  default (mk_cache 0 0 (mk_hashmap 0 0 0 0 0 []) empty_list)
    (fst (mdv_lrucache_create true true true true 2)).

Lemma demo_repr : repr ∅ demo_cache [].
Proof. apply (create_repr 2); [lia|reflexivity]. Qed.

Lemma mdv_lrucache_put_refines_witness :
  exists ok old h' c' ps', mdv_lrucache_put (Some 10) true true ∅ demo_cache (mk_item 5 50) = Some (ok, old, h', c')
    /\ repr h' c' ps' /\ c_capacity c' = c_capacity demo_cache
    /\ (ok = true -> (old, ps'.*2) = lru_put (c_capacity demo_cache) (mk_item 5 50) [])
    /\ (ok = false -> old = null_item /\ ps' = [])
    /\ (Some 10 <> None -> true = true -> true = true -> ok = true).
Proof.
  exact (mdv_lrucache_put_refines ∅ demo_cache [] (Some 10) true true (mk_item 5 50) demo_repr
    ltac:(vm_compute; lia) (fun a _ => lookup_empty a)).
Defined.

Lemma mdv_lrucache_get_refines_witness :
  exists h' c' ps', mdv_lrucache_get ∅ demo_cache 7 = Some (fst (lru_get 7 []), h', c')
     /\ repr h' c' ps' /\ ps'.*2 = snd (lru_get 7 []) /\ c_capacity c' = c_capacity demo_cache.
Proof. exact (proj1 (mdv_lrucache_get_refines ∅ demo_cache [] 7 demo_repr)). Defined.

End Lrucache.
