(* ===== verification/Mst.v ===== *)
(** * Minimum spanning tree (src/mdv_platform/generic/mdv_mst.c)

    Boruvka's algorithm over the array of subsets.  Nodes, links and subsets are
    identified by their positions in their arrays, as the pointer differences of
    the source do; a subset's members are chained by [next] pointers that form a
    ring through the subset's representative. *)

From S2P Require Import Prelude.

Module Mst.

Record mdv_mstset := mk_set {
  set_id : nat;
  ms_link : option nat;
  ms_next : option nat
}.

Record mdv_mstlink := mk_link {
  src : nat;
  dst : nat;
  weight : Z;
  mst : Z
}.

Definition with_id (id : nat) (s : mdv_mstset) := mk_set id (ms_link s) (ms_next s).
Definition with_next (p : option nat) (s : mdv_mstset) := mk_set (set_id s) (ms_link s) p.
Definition with_link (l : option nat) (s : mdv_mstset) := mk_set (set_id s) l (ms_next s).
Definition with_mst (m : Z) (l : mdv_mstlink) := mk_link (src l) (dst l) (weight l) m.

(** The loop over the second subset: the array and [subset2_end]. *)
Fixpoint union_loop (fuel : nat) (subsets : list mdv_mstset) (id1 : nat) (p subset2_end : option nat)
  : outcome (list mdv_mstset * option nat) :=
  match fuel with
  | 0 => OutOfFuel
  | S fuel =>
      match p with
      | None => Done (subsets, subset2_end)
      | Some p =>
          s ← read subsets p;
          if set_id s =? id1 then Done (subsets, subset2_end)
          else union_loop fuel (alter (with_id id1) p subsets) id1 (ms_next s) (Some p)
      end
  end.

Definition mdv_union_subsets (subsets : list mdv_mstset) (id1 id2 : nat) : outcome (list mdv_mstset) :=
  s1 ← read subsets id1;
  let subset1_next := ms_next s1 in
  let subsets := alter (with_next (Some id2)) id1 subsets in
  '(subsets, subset2_end) ← union_loop (S (length subsets)) subsets id1 (Some id2) None;
  subset2_end ← deref subset2_end;
  Done (alter (with_next (match subset1_next with Some n => Some n | None => Some id1 end))
          subset2_end subsets).

Definition mdv_mstlink_cmp (a b : mdv_mstlink) : Z :=
  let w := i32 (weight a - weight b) in
  if negb (w =? 0)%Z then w else
  let '(a1, a2) := if src a <? dst a then (src a, dst a) else (dst a, src a) in
  let '(b1, b2) := if src b <? dst b then (src b, dst b) else (dst b, src b) in
  let w := i32 (Z.of_nat a1 - Z.of_nat b1) in
  if negb (w =? 0)%Z then w else i32 (Z.of_nat a2 - Z.of_nat b2).

(** [!cur || mdv_mstlink_cmp(cur, link) > 0] *)
Definition closer (links : list mdv_mstlink) (cur : option nat) (link : mdv_mstlink) : outcome bool :=
  match cur with
  | None => Done true
  | Some j => l ← read links j; Done (0 <? mdv_mstlink_cmp l link)%Z
  end.

(** The body of the search of the closest subsets for link [i]. *)
Definition search_step (subsets : list mdv_mstset) (links : list mdv_mstlink) (i : nat)
  : outcome (list mdv_mstset) :=
  link ← read links i;
  ssrc ← read subsets (src link);
  sdst ← read subsets (dst link);
  let src_set_id := set_id ssrc in
  let dst_set_id := set_id sdst in
  if src_set_id =? dst_set_id then Done subsets else
  s1 ← read subsets src_set_id;
  s2 ← read subsets dst_set_id;
  b1 ← closer links (ms_link s1) link;
  let subsets := if b1 : bool then alter (with_link (Some i)) src_set_id subsets else subsets in
  b2 ← closer links (ms_link s2) link;
  Done (if b2 : bool then alter (with_link (Some i)) dst_set_id subsets else subsets).

(** [for (i; count; ++i)] *)
Fixpoint search_loop (count i : nat) (subsets : list mdv_mstset) (links : list mdv_mstlink)
  : outcome (list mdv_mstset) :=
  match count with
  | 0 => Done subsets
  | S count =>
      subsets ← search_step subsets links i;
      search_loop count (S i) subsets links
  end.

Record state := mk_state {
  st_subsets : list mdv_mstset;
  st_links : list mdv_mstlink;
  st_trees : nat;
  st_size : nat
}.

(** The body of the loop that merges subset [i] along its closest link. *)
Definition merge_step (st : state) (i : nat) : outcome state :=
  s ← read (st_subsets st) i;
  match ms_link s with
  | None => Done st
  | Some j =>
      link ← read (st_links st) j;
      ssrc ← read (st_subsets st) (src link);
      sdst ← read (st_subsets st) (dst link);
      if set_id ssrc =? set_id sdst then Done st
      else
        subsets ← mdv_union_subsets (st_subsets st) (set_id ssrc) (set_id sdst);
        Done (mk_state subsets (alter (with_mst 1) j (st_links st)) (st_trees st - 1) (st_size st + 1))
  end.

Fixpoint merge_loop (count i : nat) (st : state) : outcome state :=
  match count with
  | 0 => Done st
  | S count => st ← merge_step st i; merge_loop count (S i) st
  end.

(** [while (num_trees > 1)]: the returned size and the links. *)
Fixpoint mst_loop (fuel : nat) (st : state) : outcome (nat * list mdv_mstlink) :=
  match fuel with
  | 0 => OutOfFuel
  | S fuel =>
      if 1 <? st_trees st then
        let subsets := with_link None <$> st_subsets st in
        subsets ← search_loop (length (st_links st)) 0 subsets (st_links st);
        st' ← merge_loop (length subsets) 0 (mk_state subsets (st_links st) (st_trees st) (st_size st));
        if st_trees st' =? st_trees st then Done (0, st_links st')
        else mst_loop fuel st'
      else Done (st_size st, st_links st)
  end.

(** [mem]: whether the allocation of the subsets succeeds. *)
Definition mdv_mst_find (mem : bool) (nodes_count : nat) (links : list mdv_mstlink)
  : outcome (nat * list mdv_mstlink) :=
  if negb mem then Done (0, links) else
  let subsets := (fun i => mk_set i None None) <$> seq 0 nodes_count in
  let links := with_mst 0 <$> links in
  mst_loop (S nodes_count) (mk_state subsets links nodes_count 0).

(** The first graph of the tests of the source. *)
Definition test_links : list mdv_mstlink :=
  (fun '(a, b, w) => mk_link a b w 0) <$>
  [(0, 1, 4%Z); (0, 7, 8%Z); (1, 7, 11%Z); (1, 2, 8%Z); (7, 6, 1%Z); (7, 8, 7%Z); (2, 8, 2%Z);
   (8, 6, 6%Z); (2, 3, 7%Z); (6, 5, 2%Z); (2, 5, 4%Z); (3, 5, 14%Z); (3, 4, 9%Z); (5, 4, 10%Z)].

Example mst_test :
  match mdv_mst_find true 9 test_links with
  | Done (k, ls) => (k, mst <$> ls)
  | _ => (0, [])
  end = (8, [1; 1; 0; 0; 1; 0; 1; 0; 1; 1; 1; 0; 1; 0]%Z).
Proof. vm_compute. reflexivity. Qed.

(** ** Subsets as rings *)

Definition sid (S : list mdv_mstset) (i : nat) : option nat := set_id <$> S !! i.
Definition nxt (S : list mdv_mstset) (i : nat) : option nat := s ← S !! i; ms_next s.

(** Every element of [l] points to the next one, the last one to [back]. *)
Fixpoint path (S : list mdv_mstset) (l : list nat) (back : option nat) : Prop :=
  match l with
  | [] => True
  | x :: l' => is_Some (S !! x) /\ nxt S x = (match l' with [] => back | y :: _ => Some y end)
               /\ path S l' back
  end.

(** The ring of the representative [r]: a single node has no [next]. *)
Definition ring (S : list mdv_mstset) (r : nat) (xs : list nat) : Prop :=
  path S (r :: xs) (match xs with [] => None | _ => Some r end).

Record wf (n : nat) (S : list mdv_mstset) : Prop := {
  wf_len : length S = n;
  wf_rep : forall i r, sid S i = Some r -> sid S r = Some r;
  wf_ring : forall r, sid S r = Some r -> exists xs, ring S r xs /\ NoDup (r :: xs)
              /\ forall i, i ∈ r :: xs <-> sid S i = Some r
}.

(** The arrays agree on everything but the [link] fields. *)
Definition same_rings (S S' : list mdv_mstset) : Prop :=
  (forall i, sid S' i = sid S i) /\ (forall i, nxt S' i = nxt S i) /\ length S' = length S.

Lemma sid_Some S i r : sid S i = Some r -> exists s, S !! i = Some s /\ set_id s = r.
Proof. unfold sid. intros (s & -> & E)%fmap_Some. eauto. Qed.

Lemma sid_lt S i r : sid S i = Some r -> i < length S.
Proof. intros (s & E & _)%sid_Some. by eapply lookup_lt_Some. Qed.

Lemma same_length_is_Some {A B} (l : list A) (k : list B) i :
  length k = length l -> is_Some (l !! i) -> is_Some (k !! i).
Proof. rewrite !lookup_lt_is_Some. lia. Qed.

(** [path] depends on the [next] fields of its elements only. *)
Lemma path_ext S S' l back :
  length S' = length S -> (forall x, x ∈ l -> nxt S' x = nxt S x) -> path S l back -> path S' l back.
Proof.
  intros Hl. induction l as [|x l IH]; intros Hx; [done|]. intros (Hs & Hn & Hp). split_and!.
  - by eapply same_length_is_Some.
  - rewrite Hx by (by left). done.
  - apply IH; [|done]. intros y Hy. apply Hx. by right.
Qed.

Lemma same_rings_wf n S S' : same_rings S S' -> wf n S -> wf n S'.
Proof.
  intros (Hi & Hn & Hl) [H1 H2 H3]. split; [lia|intros i r; rewrite !Hi; apply H2|].
  intros r. rewrite Hi. intros (xs & Hr & Hd & Hm)%H3. exists xs. split_and!; [|done|].
  - unfold ring. eapply path_ext; [exact Hl| |exact Hr]. intros; apply Hn.
  - intros i. by rewrite Hi.
Qed.

(** [alter] of one field. *)
Lemma sid_with_next S i p j : sid (alter (with_next p) i S) j = sid S j.
Proof.
  unfold sid. destruct (decide (i = j)) as [->|].
  - rewrite list_lookup_alter_eq. by destruct (S !! j).
  - by rewrite list_lookup_alter_ne.
Qed.

Lemma nxt_with_next S i p j :
  nxt (alter (with_next p) i S) j = if decide (i = j /\ i < length S) then p else nxt S j.
Proof.
  unfold nxt. case_decide as D.
  - destruct D as [<- D]. rewrite list_lookup_alter_eq.
    destruct (lookup_lt_is_Some_2 _ _ D) as [s ->]. done.
  - destruct (decide (i = j)) as [->|]; [|by rewrite list_lookup_alter_ne].
    rewrite list_lookup_alter_eq. rewrite lookup_ge_None_2; [done|]. lia.
Qed.

Lemma sid_with_id S i id j :
  sid (alter (with_id id) i S) j = if decide (i = j /\ i < length S) then Some id else sid S j.
Proof.
  unfold sid. case_decide as D.
  - destruct D as [<- D]. rewrite list_lookup_alter_eq.
    destruct (lookup_lt_is_Some_2 _ _ D) as [s ->]. done.
  - destruct (decide (i = j)) as [->|]; [|by rewrite list_lookup_alter_ne].
    rewrite list_lookup_alter_eq. rewrite lookup_ge_None_2; [done|]. lia.
Qed.

Lemma nxt_with_id S i id j : nxt (alter (with_id id) i S) j = nxt S j.
Proof.
  unfold nxt. destruct (decide (i = j)) as [->|].
  - rewrite list_lookup_alter_eq. by destruct (S !! j).
  - by rewrite list_lookup_alter_ne.
Qed.

Lemma fmap_alter_same {A B} (f : A -> B) (g : A -> A) i (l : list A) :
  (forall x, f (g x) = f x) -> f <$> alter g i l = f <$> l.
Proof.
  intros E. revert i. induction l as [|x l IH]; intros i; [done|].
  destruct i; cbn; [by rewrite E|]. f_equal. apply IH.
Qed.

Lemma path_head_lookup S x l back :
  path S (x :: l) back -> exists s, S !! x = Some s /\ ms_next s = match l with [] => back | y :: _ => Some y end.
Proof. intros ([s Hs] & Hn & _). unfold nxt in Hn. rewrite Hs in Hn. eauto. Qed.

(** The walk over the second subset gives every member the identifier [id1] and
    ends at the last member. *)
Lemma union_loop_spec id1 l fuel S (e0 : option nat) back :
  NoDup l -> length l < fuel -> path S l back ->
  (forall x, x ∈ l -> sid S x <> Some id1) ->
  (forall q, back = Some q -> q ∈ l \/ sid S q = Some id1) ->
  exists S', union_loop fuel S id1 (match l with [] => back | x :: _ => Some x end) e0
      = Done (S', match last l with Some x => Some x | None => e0 end)
    /\ length S' = length S /\ (forall i, nxt S' i = nxt S i) /\ ms_link <$> S' = ms_link <$> S
    /\ forall i, sid S' i = if decide (i ∈ l) then Some id1 else sid S i.
Proof.
  revert fuel S e0. induction l as [|x l IH]; intros fuel S e0 Hd Hf Hp Hs Hb.
  - destruct fuel as [|fuel]; [simpl in Hf; lia|]. exists S. simpl. split_and!; try done.
    destruct back as [q|]; [|done]. destruct (Hb q eq_refl) as [Hq|Hq]; [by apply elem_of_nil in Hq|].
    apply sid_Some in Hq as (s & Hq & E). rewrite (read_Done _ _ _ Hq). simpl. by rewrite E, Nat.eqb_refl.
  - destruct fuel as [|fuel]; [simpl in Hf; lia|].
    destruct (path_head_lookup _ _ _ _ Hp) as (s & Hx & Hn). destruct Hp as (_ & _ & Hp).
    apply NoDup_cons in Hd as [Hnx Hd]. pose proof (lookup_lt_Some _ _ _ Hx) as Hlt.
    simpl. rewrite (read_Done _ _ _ Hx). simpl.
    destruct (Nat.eqb_spec (set_id s) id1) as [E|_].
    { destruct (Hs x); [by left|]. unfold sid. by rewrite Hx, <- E. }
    rewrite Hn. set (S1 := alter (with_id id1) x S).
    assert (Hid : forall i, sid S1 i = if decide (x = i) then Some id1 else sid S i).
    { intros i. unfold S1. rewrite sid_with_id. destruct (decide (x = i)); [by rewrite decide_True|].
      rewrite decide_False; [done|tauto]. }
    assert (Hb1 : forall q, back = Some q -> q ∈ l \/ sid S1 q = Some id1).
    { intros q Hq. destruct (Hb q Hq) as [[->|Hql]%elem_of_cons|Hqs]; [right|by left|right];
        rewrite Hid; [by rewrite decide_True|]. by destruct (decide (x = q)). }
    destruct (IH fuel S1 (Some x)) as (S' & E & Hl' & Hn' & Hk' & Hi'); [done|simpl in Hf; lia| | |done|].
    + eapply path_ext; [|intros; apply nxt_with_id|exact Hp]. unfold S1. by rewrite length_alter.
    + intros y Hy. rewrite Hid. rewrite decide_False by (by intros ->). apply Hs. by right.
    + exists S'. rewrite E. split_and!.
      * f_equal. f_equal. rewrite last_cons. by destruct (last l).
      * rewrite Hl'. unfold S1. by rewrite length_alter.
      * intros i. rewrite Hn'. apply nxt_with_id.
      * rewrite Hk'. unfold S1. by apply fmap_alter_same.
      * intros i. rewrite Hi', Hid. destruct (decide (i ∈ l)) as [Hi|Hi].
        { rewrite decide_True; [done|by right]. }
        destruct (decide (x = i)) as [->|Hne]; [rewrite decide_True; [done|by left]|].
        rewrite decide_False; [done|]. intros [?|?]%elem_of_cons; [by subst|done].
Qed.

Lemma path_app S l1 l2 back :
  path S (l1 ++ l2) back <->
  path S l1 (match l2 with [] => back | y :: _ => Some y end) /\ path S l2 back.
Proof.
  induction l1 as [|x l1 IH]; simpl; [tauto|]. rewrite IH.
  destruct l1 as [|z l1]; simpl; [|tauto]. destruct l2; tauto.
Qed.

(** Redirecting the last element of a path. *)
Lemma path_redirect S S' l x back back' :
  length S' = length S -> NoDup (l ++ [x]) ->
  (forall y, y ∈ l -> nxt S' y = nxt S y) -> nxt S' x = back' ->
  path S (l ++ [x]) back -> path S' (l ++ [x]) back'.
Proof.
  intros Hl Hd Hy Hx. rewrite !path_app. intros [H1 H2]. split.
  - by eapply path_ext.
  - destruct H2 as (Hs & _ & _). split_and!; try done. by eapply same_length_is_Some.
Qed.

(** The ring after the union: the second ring is spliced in behind the
    representative of the first one. *)
Lemma ring_union S S' id1 xs1 id2 xs2 l' e :
  ring S id1 xs1 -> ring S id2 xs2 -> NoDup ((id1 :: xs1) ++ (id2 :: xs2)) ->
  id2 :: xs2 = l' ++ [e] -> length S' = length S ->
  (forall j, nxt S' j = if decide (j = e) then (match nxt S id1 with Some n => Some n | None => Some id1 end)
                        else if decide (j = id1) then Some id2 else nxt S j) ->
  ring S' id1 ((id2 :: xs2) ++ xs1).
Proof.
  intros R1 R2 Hd He Hl Hn. unfold ring in *.
  assert (He2 : e ∈ id2 :: xs2) by (rewrite He; set_solver).
  apply NoDup_app in Hd as (Hd1 & Hdis & Hd2).
  assert (Hne : forall x, x ∈ id1 :: xs1 -> x <> e) by (intros x Hx ->; by apply (Hdis e)).
  assert (Hne1 : forall x, x ∈ id2 :: xs2 -> x <> id1) by (intros x Hx ->; apply (Hdis id1); [by left|done]).
  change (path S' ([id1] ++ (id2 :: xs2) ++ xs1) (Some id1)). rewrite path_app. split.
  { destruct R1 as (Hs & _ & _). split_and!; [by eapply same_length_is_Some| |done].
    rewrite Hn, decide_False by (apply Hne; by left). by rewrite decide_True. }
  rewrite path_app. apply NoDup_cons in Hd1 as [Hid1 Hd1]. split.
  - rewrite He in *. eapply path_redirect; [exact Hl|exact Hd2| | |exact R2].
    + intros y Hy. apply NoDup_app in Hd2 as (_ & Hd2 & _).
      rewrite Hn, decide_False by (intros ->; apply (Hd2 e Hy); by left).
      rewrite decide_False; [done|]. apply Hne1. set_solver.
    + rewrite Hn, decide_True by done. destruct R1 as (_ & -> & _). by destruct xs1.
  - destruct R1 as (_ & _ & R1). destruct xs1 as [|y xs1]; [done|].
    eapply path_ext; [exact Hl| |exact R1]. intros x Hx.
    rewrite Hn, decide_False by (apply Hne; by right). by rewrite decide_False by (by intros ->).
Qed.

(** What the union writes: [e] is the last member of the second ring. *)
Definition spliced (S S' : list mdv_mstset) (id1 id2 e : nat) : Prop :=
  length S' = length S /\ ms_link <$> S' = ms_link <$> S
  /\ (forall i, sid S' i = if decide (sid S i = Some id2) then Some id1 else sid S i)
  /\ (forall j, nxt S' j = if decide (j = e) then (match nxt S id1 with Some n => Some n | None => Some id1 end)
                           else if decide (j = id1) then Some id2 else nxt S j).

Lemma members_length S l : NoDup l -> (forall x, x ∈ l -> is_Some (sid S x)) -> length l <= length S.
Proof.
  intros Hd Hx. rewrite <- (length_seq (length S) 0). apply NoDup_incl_length; [by apply NoDup_ListNoDup|].
  intros x [r Hr%sid_lt]%list_elem_of_In%Hx. apply in_seq. lia.
Qed.

Lemma union_runs S id1 id2 xs2 l' e :
  sid S id1 = Some id1 -> id1 <> id2 -> ring S id2 xs2 -> NoDup (id2 :: xs2) ->
  (forall i, i ∈ id2 :: xs2 <-> sid S i = Some id2) -> id2 :: xs2 = l' ++ [e] ->
  exists S', mdv_union_subsets S id1 id2 = Done S' /\ spliced S S' id1 id2 e.
Proof.
  intros H1 Hne R2 Hd2 Hm2 He. pose proof (sid_lt _ _ _ H1) as L1.
  unfold mdv_union_subsets. destruct (lookup_lt_is_Some_2 _ _ L1) as [s1 Hs1].
  rewrite (read_Done _ _ _ Hs1). cbn [mbind outcome_bind].
  assert (Hn1 : ms_next s1 = nxt S id1) by (unfold nxt; by rewrite Hs1).
  set (S1 := alter (with_next (Some id2)) id1 S).
  assert (Hl1 : length S1 = length S) by (unfold S1; apply length_alter).
  assert (Hid1 : id1 ∉ id2 :: xs2) by (intros ?%Hm2; congruence).
  destruct (union_loop_spec id1 (id2 :: xs2) (Datatypes.S (length S1)) S1 None
              (match xs2 with [] => None | _ => Some id2 end)) as (S2 & E & Hl2 & Hn2 & Hk2 & Hi2).
  { done. }
  { pose proof (members_length S (id2 :: xs2) Hd2) as Hm. rewrite Hl1.
    apply Nat.lt_succ_r, Hm. intros x Hx%Hm2. by rewrite Hx. }
  { eapply path_ext; [exact Hl1| |exact R2]. intros x Hx.
    unfold S1. rewrite nxt_with_next. rewrite decide_False; [done|]. by intros [<- _]. }
  { intros x Hx%Hm2. unfold S1. rewrite sid_with_next. congruence. }
  { intros q Hq. left. destruct xs2; [done|]. simplify_eq. by left. }
  rewrite E. cbn [mbind outcome_bind].
  assert (last (id2 :: xs2) = Some e) as -> by (rewrite He; apply last_snoc). simpl.
  assert (He2 : sid S e = Some id2) by (apply Hm2; rewrite He; set_solver).
  eexists. split; [done|]. split_and!.
  - by rewrite length_alter, Hl2.
  - rewrite fmap_alter_same by done. rewrite Hk2. unfold S1. by apply fmap_alter_same.
  - intros i. rewrite sid_with_next, Hi2. unfold S1. rewrite sid_with_next.
    destruct (decide (i ∈ id2 :: xs2)) as [Hi|Hi]; [rewrite decide_True by (by apply Hm2); done|].
    rewrite decide_False; [done|]. by rewrite <- Hm2.
  - intros j. rewrite nxt_with_next, Hn2. unfold S1. rewrite nxt_with_next.
    assert (e < length S2) by (apply sid_lt in He2; lia).
    destruct (decide (j = e)) as [->|]; [rewrite decide_True by done; by rewrite Hn1|].
    rewrite decide_False by (intros [? _]; done).
    destruct (decide (j = id1)) as [->|]; [by rewrite decide_True|].
    rewrite decide_False by (intros [? _]; done). done.
Qed.

Lemma spliced_wf n S S' id1 xs1 id2 xs2 l' e :
  wf n S -> sid S id1 = Some id1 -> sid S id2 = Some id2 -> id1 <> id2 ->
  ring S id1 xs1 -> ring S id2 xs2 -> NoDup ((id1 :: xs1) ++ (id2 :: xs2)) ->
  (forall i, i ∈ id1 :: xs1 <-> sid S i = Some id1) -> (forall i, i ∈ id2 :: xs2 <-> sid S i = Some id2) ->
  id2 :: xs2 = l' ++ [e] -> spliced S S' id1 id2 e -> wf n S'.
Proof.
  intros Hw H1 H2 Hne R1 R2 Hdis Hm1 Hm2 He (Hl' & _ & Hi' & Hn').
  split; [rewrite Hl'; apply Hw| |].
  - intros i r. rewrite !Hi'. destruct (decide (sid S i = Some id2)) as [Hi|Hi].
    + intros [= <-]. rewrite decide_False; [done|congruence].
    + intros Hr. rewrite decide_False; [by eapply wf_rep|].
      intros Hc. apply Hi. rewrite Hr. pose proof (wf_rep _ _ Hw _ _ Hr). congruence.
  - intros r. rewrite Hi'. destruct (decide (sid S r = Some id2)) as [Hr2|Hr2]; [intros [= <-]; congruence|].
    intros Hr. destruct (decide (r = id1)) as [->|Hr1].
    + exists ((id2 :: xs2) ++ xs1). change (id1 :: (id2 :: xs2) ++ xs1) with ([id1] ++ (id2 :: xs2) ++ xs1).
      split_and!; [by eapply ring_union| |intros i].
      * assert ([id1] ++ (id2 :: xs2) ++ xs1 ≡ₚ (id1 :: xs1) ++ (id2 :: xs2)) as ->; [|done].
        change (id1 :: xs1) with ([id1] ++ xs1). solve_Permutation.
      * rewrite Hi'. specialize (Hm1 i). specialize (Hm2 i).
        rewrite !elem_of_app, list_elem_of_singleton. rewrite elem_of_cons in Hm1.
        destruct (decide (sid S i = Some id2)) as [Hi|Hi]; tauto.
    + destruct (wf_ring _ _ Hw r Hr) as (xs & R & Hd & Hm). exists xs. split_and!; [|done|].
      * unfold ring. eapply path_ext; [exact Hl'| |exact R]. intros x Hx%Hm.
        assert (sid S e = Some id2) by (apply Hm2; rewrite He; set_solver).
        rewrite Hn', decide_False by (intros ->; congruence).
        rewrite decide_False; [done|]. intros ->. congruence.
      * intros i. rewrite Hm, Hi'. destruct (decide (sid S i = Some id2)) as [Hi|Hi]; [|done].
        split; intros; congruence.
Qed.

(** The union of two subsets. *)
Lemma mdv_union_subsets_spec n S id1 id2 :
  wf n S -> sid S id1 = Some id1 -> sid S id2 = Some id2 -> id1 <> id2 ->
  exists S', mdv_union_subsets S id1 id2 = Done S' /\ wf n S' /\ ms_link <$> S' = ms_link <$> S
    /\ forall i, sid S' i = if decide (sid S i = Some id2) then Some id1 else sid S i.
Proof.
  intros Hw H1 H2 Hne. destruct (wf_ring _ _ Hw id1 H1) as (xs1 & R1 & Hd1 & Hm1).
  destruct (wf_ring _ _ Hw id2 H2) as (xs2 & R2 & Hd2 & Hm2).
  destruct (snoc_cases (id2 :: xs2)) as [|(l' & e & He)]; [done|].
  destruct (union_runs S id1 id2 xs2 l' e) as (S' & E & Hsp); [done..|].
  exists S'. split; [done|]. split; [|by destruct Hsp as (_ & ? & ? & _)].
  eapply (spliced_wf n S S' id1 xs1 id2 xs2); try done.
  apply NoDup_app. split_and!; try done. intros x Hx1%Hm1 Hx2%Hm2. congruence.
Qed.

(** ** Graphs *)

Definition edge (ls : list mdv_mstlink) (i j : nat) : Prop :=
  exists l, l ∈ ls /\ src l = i /\ dst l = j.

(** [i] and [j] are joined by a chain of the links [ls]. *)
Definition conn (ls : list mdv_mstlink) : nat -> nat -> Prop := rtsc (edge ls).

#[global] Instance conn_equiv ls : Equivalence (conn ls).
Proof. unfold conn. split; apply _. Qed.

Lemma conn_link ls l : l ∈ ls -> conn ls (src l) (dst l).
Proof. intros Hl. apply rtsc_lr. by exists l. Qed.

Lemma conn_mono ls ls' i j : (forall x y, edge ls x y -> edge ls' x y) -> conn ls i j -> conn ls' i j.
Proof.
  intros He. unfold conn, rtsc. apply rtc_subrel. intros x y [H|H]; [left|right]; auto.
Qed.

(** A labelling that agrees along the links agrees along chains. *)
Lemma conn_label {A} (f : nat -> A) ls i j :
  (forall l, l ∈ ls -> f (src l) = f (dst l)) -> conn ls i j -> f i = f j.
Proof.
  intros Hf. induction 1 as [|x y z [(l & Hl & <- & <-)|(l & Hl & <- & <-)] _ IH]; [done|..].
  - by rewrite Hf.
  - by rewrite <- Hf.
Qed.

Definition flagged (l : mdv_mstlink) : Prop := mst l <> 0%Z.

(** The links of the tree, and the graph without the flags. *)
Definition tree (ls : list mdv_mstlink) : list mdv_mstlink := filter flagged ls.
Definition strip (ls : list mdv_mstlink) : list mdv_mstlink := with_mst 0 <$> ls.

Lemma tree_flag ls j l :
  ls !! j = Some l -> mst l = 0%Z -> tree (alter (with_mst 1) j ls) ≡ₚ with_mst 1 l :: tree ls.
Proof.
  intros Hj Hz. pose proof (lookup_lt_Some _ _ _ Hj) as Hlt.
  rewrite <- (take_drop_middle ls j l Hj) at 1.
  replace j with (length (take j ls) + 0) at 1 by (rewrite length_take; lia).
  rewrite alter_app_r. simpl. unfold tree.
  rewrite <- (take_drop_middle ls j l Hj) at 3.
  rewrite !filter_app, filter_cons_True, filter_cons_False by (unfold flagged; simpl; lia).
  symmetry. apply Permutation_middle.
Qed.

Lemma tree_init ls : tree (with_mst 0 <$> ls) = [].
Proof. induction ls as [|l ls IH]; [done|]. unfold tree in *. simpl. rewrite filter_cons_False; [done|unfold flagged; simpl; lia]. Qed.

Lemma strip_flag ls j : strip (alter (with_mst 1) j ls) = strip ls.
Proof. by apply fmap_alter_same. Qed.

Lemma edge_strip ls i j : edge (strip ls) i j <-> edge ls i j.
Proof.
  unfold edge, strip. split.
  - intros (l & (l0 & -> & Hl)%list_elem_of_fmap & Hs & Hd). by exists l0.
  - intros (l & Hl & Hs & Hd). exists (with_mst 0 l). split; [|done]. by apply list_elem_of_fmap_2.
Qed.

(** The number of subsets. *)
Definition reps (n : nat) (S : list mdv_mstset) : nat :=
  length (filter (fun i => sid S i = Some i) (seq 0 n)).

Lemma filter_remove_one {A} (P Q : A -> Prop) `{!forall x, Decision (P x), !forall x, Decision (Q x)} l a :
  NoDup l -> a ∈ l -> P a -> (forall x, Q x <-> P x /\ x <> a) ->
  Datatypes.S (length (filter Q l)) = length (filter P l).
Proof.
  intros Hd Ha HP HQ. apply list_elem_of_split in Ha as (l1 & l2 & ->).
  apply NoDup_app in Hd as (_ & Hd1 & [Hd2 _]%NoDup_cons).
  rewrite !filter_app, !length_app, filter_cons_False, filter_cons_True by (done || (rewrite HQ; tauto)).
  assert (forall l' : list A, a ∉ l' -> filter Q l' = filter P l') as He.
  { intros l' Hl'. apply filter_ext_in. intros x Hx. rewrite HQ. split; [tauto|]. split; [done|]. by intros ->. }
  rewrite !He; [simpl; lia|done|]. intros Ha. apply (Hd1 a Ha). by left.
Qed.

(** ** The invariant of the main loop *)

Record inv (n : nat) (links0 : list mdv_mstlink) (st : state) : Prop := {
  i_wf : wf n (st_subsets st);
  i_strip : strip (st_links st) = strip links0;
  i_ends : forall l, l ∈ st_links st -> src l < n /\ dst l < n;
  i_flag : forall l, l ∈ tree (st_links st) -> sid (st_subsets st) (src l) = sid (st_subsets st) (dst l);
  i_conn : forall i r, sid (st_subsets st) i = Some r -> conn (tree (st_links st)) i r;
  i_trees : st_trees st = reps n (st_subsets st);
  i_size : st_size st = length (tree (st_links st));
  i_sum : st_size st + st_trees st = n
}.

(** The [link] fields refer to links of the array. *)
Definition valid (st : state) : Prop :=
  forall i s j, st_subsets st !! i = Some s -> ms_link s = Some j -> j < length (st_links st).

Lemma wf_lookup n S i : wf n S -> i < n -> exists s, S !! i = Some s /\ sid S i = Some (set_id s).
Proof.
  intros Hw Hi. destruct (lookup_lt_is_Some_2 S i) as [s Hs]; [rewrite (wf_len _ _ Hw); done|].
  exists s. split; [done|]. unfold sid. by rewrite Hs.
Qed.

(** Merging two subsets along a link between them. *)
Lemma inv_union n links0 st j link id1 id2 S' :
  inv n links0 st -> st_links st !! j = Some link ->
  sid (st_subsets st) (src link) = Some id1 -> sid (st_subsets st) (dst link) = Some id2 -> id1 <> id2 ->
  wf n S' -> (forall i, sid S' i = if decide (sid (st_subsets st) i = Some id2) then Some id1 else sid (st_subsets st) i) ->
  inv n links0 (mk_state S' (alter (with_mst 1) j (st_links st)) (st_trees st - 1) (st_size st + 1)).
Proof.
  intros Hi Hj H1 H2 Hne Hw' Hs'. pose proof (i_wf _ _ _ Hi) as Hw.
  assert (Hz : mst link = 0%Z).
  { destruct (decide (mst link = 0%Z)) as [|Hf]; [done|].
    pose proof (i_flag _ _ _ Hi link) as Hl. rewrite H1, H2 in Hl. destruct Hne.
    assert (Some id1 = Some id2) as E; [|congruence]. apply Hl. apply list_elem_of_filter.
    split; [done|]. by eapply list_elem_of_lookup_2. }
  pose proof (tree_flag _ _ _ Hj Hz) as Ht.
  assert (Hmono : forall x y, conn (tree (st_links st)) x y -> conn (tree (alter (with_mst 1) j (st_links st))) x y).
  { intros x y. apply conn_mono. intros a b (l & Hl & ? & ?). exists l. split; [|done]. rewrite Ht. by right. }
  assert (Hlink : conn (tree (alter (with_mst 1) j (st_links st))) (src link) (dst link)).
  { apply (conn_link _ (with_mst 1 link)). rewrite Ht. by left. }
  assert (Hreps : Datatypes.S (reps n S') = reps n (st_subsets st)).
  { pose proof (wf_rep _ _ Hw _ _ H2) as Hr2. pose proof (wf_rep _ _ Hw _ _ H1) as Hr1.
    apply (filter_remove_one _ _ _ id2); [apply NoDup_seq| |done|].
    - apply elem_of_seq. apply sid_lt in Hr2. rewrite (wf_len _ _ Hw) in Hr2. lia.
    - intros x. rewrite Hs'. destruct (decide (sid (st_subsets st) x = Some id2)) as [Hx|Hx]; split.
      + intros [= <-]. congruence.
      + intros [? ?]. congruence.
      + intros ?. split; [done|]. intros ->. congruence.
      + tauto. }
  split; simpl; try done.
  - rewrite strip_flag. apply Hi.
  - intros l (k & Hk)%list_elem_of_lookup. destruct (decide (j = k)) as [<-|].
    + rewrite list_lookup_alter_eq, Hj in Hk. injection Hk as <-.
      apply (i_ends _ _ _ Hi link). by eapply list_elem_of_lookup_2.
    + rewrite list_lookup_alter_ne in Hk by done. apply (i_ends _ _ _ Hi). by eapply list_elem_of_lookup_2.
  - intros l. rewrite Ht, elem_of_cons. intros [->|Hl]; rewrite !Hs'; simpl.
    + rewrite H1, H2. rewrite decide_False by congruence. by rewrite decide_True.
    + by rewrite (i_flag _ _ _ Hi l Hl).
  - intros i r. rewrite Hs'. destruct (decide (sid (st_subsets st) i = Some id2)) as [Hx|Hx].
    + intros [= <-]. etrans; [apply Hmono, (i_conn _ _ _ Hi _ _ Hx)|].
      etrans; [symmetry; apply Hmono, (i_conn _ _ _ Hi _ _ H2)|].
      etrans; [symmetry; exact Hlink|]. apply Hmono, (i_conn _ _ _ Hi _ _ H1).
    + intros Hr. apply Hmono, (i_conn _ _ _ Hi _ _ Hr).
  - rewrite (i_trees _ _ _ Hi). lia.
  - rewrite Ht. simpl. rewrite (i_size _ _ _ Hi). lia.
  - pose proof (i_sum _ _ _ Hi). rewrite (i_trees _ _ _ Hi) in *. lia.
Qed.

(** The link of subset [k] does not leave the subset. *)
Definition settled (st : state) (k : nat) : Prop :=
  forall s j l, st_subsets st !! k = Some s -> ms_link s = Some j -> st_links st !! j = Some l ->
    sid (st_subsets st) (src l) = sid (st_subsets st) (dst l).

Lemma merge_step_spec n links0 st i :
  inv n links0 st -> valid st -> i < n ->
  exists st', merge_step st i = Done st' /\ inv n links0 st' /\ valid st'
    /\ (st' = st /\ settled st i \/ st_trees st' < st_trees st).
Proof.
  intros Hi Hv Hlt. pose proof (i_wf _ _ _ Hi) as Hw. unfold merge_step.
  destruct (wf_lookup _ _ _ Hw Hlt) as (s & Hs & _). rewrite (read_Done _ _ _ Hs). cbn [mbind outcome_bind].
  destruct (ms_link s) as [j|] eqn:Ej.
  2:{ exists st. split_and!; try done. left. split; [done|]. intros s' j l Hs'. congruence. }
  destruct (lookup_lt_is_Some_2 (st_links st) j) as [link Hj]; [by eapply Hv|].
  rewrite (read_Done _ _ _ Hj). cbn [mbind outcome_bind].
  destruct (i_ends _ _ _ Hi link) as [Hsrc Hdst]; [by eapply list_elem_of_lookup_2|].
  destruct (wf_lookup _ _ _ Hw Hsrc) as (s1 & Hs1 & H1). destruct (wf_lookup _ _ _ Hw Hdst) as (s2 & Hs2 & H2).
  rewrite (read_Done _ _ _ Hs1). cbn [mbind outcome_bind].
  rewrite (read_Done _ _ _ Hs2). cbn [mbind outcome_bind].
  destruct (Nat.eqb_spec (set_id s1) (set_id s2)) as [E|E].
  - exists st. split_and!; try done. left. split; [done|]. intros s' j' l Hs' Hj' Hl.
    rewrite Hs in Hs'. simplify_eq. congruence.
  - destruct (mdv_union_subsets_spec n (st_subsets st) (set_id s1) (set_id s2)) as (S' & Eu & Hw' & Hk' & Hs');
      [done|by eapply wf_rep|by eapply wf_rep|done|].
    rewrite Eu. cbn [mbind outcome_bind]. eexists. split; [done|].
    assert (Hpos : 0 < st_trees st).
    { rewrite (i_trees _ _ _ Hi). unfold reps.
      assert (set_id s1 ∈ filter (fun i => sid (st_subsets st) i = Some i) (seq 0 n)) as Hin.
      { apply list_elem_of_filter. pose proof (wf_rep _ _ Hw _ _ H1) as Hr. split; [done|].
        apply elem_of_seq. apply sid_lt in Hr. rewrite (wf_len _ _ Hw) in Hr. lia. }
      destruct (filter _ _); [by apply elem_of_nil in Hin|simpl; lia]. }
    split_and!; [by eapply inv_union| |right; simpl; lia].
    intros k sk jk. simpl. intros Hk Hjk. rewrite length_alter.
    assert (HH : (ms_link <$> S') !! k = Some (Some jk)) by (rewrite list_lookup_fmap, Hk; simpl; by rewrite Hjk).
    rewrite Hk', list_lookup_fmap in HH. apply fmap_Some in HH as (s0 & Hs0 & Hj0). by eapply Hv.
Qed.

Lemma merge_loop_spec n links0 count i st :
  inv n links0 st -> valid st -> i + count = n ->
  exists st', merge_loop count i st = Done st' /\ inv n links0 st' /\ st_trees st' <= st_trees st
    /\ (st_trees st' = st_trees st -> st' = st /\ forall k, i <= k < n -> settled st k).
Proof.
  revert i st. induction count as [|count IH]; intros i st Hi Hv Hn.
  - exists st. split_and!; try done. intros _. split; [done|]. intros. lia.
  - simpl. destruct (merge_step_spec n links0 st i Hi Hv) as (st1 & -> & Hi1 & Hv1 & Hcase); [lia|].
    cbn [mbind outcome_bind]. destruct (IH (Datatypes.S i) st1 Hi1 Hv1) as (st2 & E & Hi2 & Hle & Heq); [lia|].
    exists st2. split; [done|]. split; [done|]. destruct Hcase as [[-> Hset]|Hlt]; [|split; [lia|]; intros; lia].
    split; [done|]. intros He. destruct (Heq He) as [-> Hk]. split; [done|]. intros k Hkn.
    destruct (decide (k = i)) as [->|]; [done|]. apply Hk. lia.
Qed.

(** ** The search of the closest subsets *)

Definition crossing (S : list mdv_mstset) (l : mdv_mstlink) : Prop := sid S (src l) <> sid S (dst l).

Record searched (S0 S : list mdv_mstset) (links : list mdv_mstlink) (upto : nat) : Prop := {
  s_same : same_rings S0 S;
  s_link : forall k s j, S !! k = Some s -> ms_link s = Some j ->
             exists l, links !! j = Some l /\ crossing S0 l;
  s_found : forall j l, links !! j = Some l -> j < upto -> crossing S0 l ->
             exists k s, S !! k = Some s /\ ms_link s <> None
}.

Lemma same_rings_with_link S k j : same_rings S (alter (with_link j) k S).
Proof.
  split_and!; [intros i; unfold sid|intros i; unfold nxt|apply length_alter];
    (destruct (decide (k = i)) as [->|]; [rewrite list_lookup_alter_eq; by destruct (S !! i)
                                         |by rewrite list_lookup_alter_ne]).
Qed.

Lemma same_rings_trans S1 S2 S3 : same_rings S1 S2 -> same_rings S2 S3 -> same_rings S1 S3.
Proof. intros (A1 & B1 & C1) (A2 & B2 & C2). split_and!; intros; congruence. Qed.

(** Recording a crossing link keeps [searched]. *)
Lemma searched_set S0 S links upto k i l :
  searched S0 S links upto -> links !! i = Some l -> crossing S0 l -> k < length S ->
  searched S0 (alter (with_link (Some i)) k S) links upto /\
  (exists k' s, alter (with_link (Some i)) k S !! k' = Some s /\ ms_link s <> None).
Proof.
  intros [H1 H2 H3] Hi Hc Hk.
  assert (Hx : exists k' s, alter (with_link (Some i)) k S !! k' = Some s /\ ms_link s <> None).
  { destruct (lookup_lt_is_Some_2 _ _ Hk) as [s Hs]. exists k, (with_link (Some i) s).
    by rewrite list_lookup_alter_eq, Hs. }
  split; [|done]. split.
  - eapply same_rings_trans; [exact H1|apply same_rings_with_link].
  - intros k' s j Hs Hj. destruct (decide (k = k')) as [<-|].
    + rewrite list_lookup_alter_eq in Hs. apply fmap_Some in Hs as (s0 & _ & ->). simpl in Hj.
      simplify_eq. eauto.
    + rewrite list_lookup_alter_ne in Hs by done. eauto.
  - done.
Qed.

Lemma searched_next S0 S links i :
  searched S0 S links i ->
  (forall l, links !! i = Some l -> crossing S0 l -> exists k s, S !! k = Some s /\ ms_link s <> None) ->
  searched S0 S links (Datatypes.S i).
Proof.
  intros [H1 H2 H3] Hi. split; [done|done|]. intros j l Hj Hlt Hc.
  destruct (decide (j = i)) as [->|]; [by eapply Hi|]. eapply H3; [exact Hj|lia|done].
Qed.

Lemma closer_Done S0 S links upto k s l :
  searched S0 S links upto -> S !! k = Some s ->
  exists b, closer links (ms_link s) l = Done b /\ (ms_link s = None -> b = true).
Proof.
  intros Hse Hs. unfold closer. destruct (ms_link s) as [j|] eqn:E; [|by exists true].
  destruct (s_link _ _ _ _ Hse k s j Hs E) as (l' & Hl' & _). rewrite (read_Done _ _ _ Hl').
  by eexists.
Qed.

Lemma search_step_spec n S0 S links i :
  wf n S0 -> (forall l, l ∈ links -> src l < n /\ dst l < n) ->
  searched S0 S links i -> i < length links ->
  exists S', search_step S links i = Done S' /\ searched S0 S' links (Datatypes.S i).
Proof.
  intros Hw0 He Hse Hi. pose proof (same_rings_wf _ _ _ (s_same _ _ _ _ Hse) Hw0) as Hw.
  destruct (s_same _ _ _ _ Hse) as (Hid & _ & Hlen).
  destruct (lookup_lt_is_Some_2 _ _ Hi) as [link Hl]. unfold search_step.
  rewrite (read_Done _ _ _ Hl). cbn [mbind outcome_bind].
  destruct (He link) as [Hsrc Hdst]; [by eapply list_elem_of_lookup_2|].
  destruct (wf_lookup _ _ _ Hw Hsrc) as (s1 & Hs1 & H1). destruct (wf_lookup _ _ _ Hw Hdst) as (s2 & Hs2 & H2).
  rewrite (read_Done _ _ _ Hs1), (read_Done _ _ _ Hs2). cbn [mbind outcome_bind].
  destruct (Nat.eqb_spec (set_id s1) (set_id s2)) as [E|E].
  { exists S. split; [done|]. apply searched_next; [done|]. intros l Hl' Hc. rewrite Hl in Hl'. simplify_eq.
    destruct Hc. rewrite <- !Hid. congruence. }
  assert (Hc : crossing S0 link) by (unfold crossing; rewrite <- !Hid; congruence).
  pose proof (wf_rep _ _ Hw _ _ H1) as Hr1. pose proof (wf_rep _ _ Hw _ _ H2) as Hr2.
  apply sid_Some in Hr1 as (r1 & Hr1 & _). apply sid_Some in Hr2 as (r2 & Hr2 & _).
  rewrite (read_Done _ _ _ Hr1), (read_Done _ _ _ Hr2). cbn [mbind outcome_bind].
  destruct (closer_Done _ _ _ _ _ _ link Hse Hr1) as (b1 & -> & Hb1). cbn [mbind outcome_bind].
  destruct (closer_Done _ _ _ _ _ _ link Hse Hr2) as (b2 & -> & Hb2). cbn [mbind outcome_bind].
  pose proof (lookup_lt_Some _ _ _ Hr1) as L1. pose proof (lookup_lt_Some _ _ _ Hr2) as L2.
  eexists. split; [done|]. apply searched_next.
  - destruct b1, b2; try done;
      repeat (eapply searched_set; [|exact Hl|exact Hc|rewrite ?length_alter; done]); done.
  - intros l Hl' _. rewrite Hl in Hl'. simplify_eq. destruct b2.
    + eapply searched_set; [|exact Hl|exact Hc|destruct b1; rewrite ?length_alter; done].
      destruct b1; [|done]. by eapply searched_set.
    + destruct b1; [by eapply searched_set|]. exists (set_id s1), r1. split; [done|].
      intros Hn. by specialize (Hb1 Hn).
Qed.

Lemma search_loop_spec n S0 links count i S :
  wf n S0 -> (forall l, l ∈ links -> src l < n /\ dst l < n) ->
  searched S0 S links i -> i + count = length links ->
  exists S', search_loop count i S links = Done S' /\ searched S0 S' links (length links).
Proof.
  intros Hw He. revert i S. induction count as [|count IH]; intros i S Hse Hn; simpl.
  - exists S. split; [done|]. by replace (length links) with i by lia.
  - destruct (search_step_spec n S0 S links i) as (S1 & -> & Hse1); [done|done|done|lia|].
    cbn [mbind outcome_bind]. apply IH; [done|lia].
Qed.

Lemma searched_init S links : searched S (with_link None <$> S) links 0.
Proof.
  split.
  - split_and!; [intros i; unfold sid|intros i; unfold nxt|apply length_fmap];
      rewrite list_lookup_fmap; by destruct (S !! i).
  - intros k s j Hs Hj. rewrite list_lookup_fmap in Hs. apply fmap_Some in Hs as (s0 & _ & ->). done.
  - intros. lia.
Qed.

Lemma reps_ext n S S' : same_rings S S' -> reps n S' = reps n S.
Proof.
  intros (Hid & _). unfold reps. f_equal. apply filter_ext_in. intros x _. by rewrite Hid.
Qed.

Lemma inv_same n links0 st S' :
  inv n links0 st -> same_rings (st_subsets st) S' ->
  inv n links0 (mk_state S' (st_links st) (st_trees st) (st_size st)).
Proof.
  intros [] Hs. pose proof Hs as (Hid & _). split; simpl; try done.
  - by eapply same_rings_wf.
  - intros l. rewrite !Hid. auto.
  - intros i r. rewrite Hid. auto.
  - rewrite (reps_ext n (st_subsets st)); done.
Qed.

(** One round: either the number of trees falls, or no link leaves a subset. *)
Lemma round_spec n links0 st :
  inv n links0 st ->
  exists S' st', search_loop (length (st_links st)) 0 (with_link None <$> st_subsets st) (st_links st) = Done S'
    /\ merge_loop (length S') 0 (mk_state S' (st_links st) (st_trees st) (st_size st)) = Done st'
    /\ inv n links0 st' /\ st_trees st' <= st_trees st
    /\ (st_trees st' = st_trees st -> st_links st' = st_links st /\
         forall l, l ∈ st_links st -> sid (st_subsets st) (src l) = sid (st_subsets st) (dst l)).
Proof.
  intros Hi. pose proof (i_wf _ _ _ Hi) as Hw.
  destruct (search_loop_spec n (st_subsets st) (st_links st) (length (st_links st)) 0
              (with_link None <$> st_subsets st)) as (S' & E & Hse);
    [done|apply Hi|apply searched_init|done|].
  pose proof (s_same _ _ _ _ Hse) as Hsame. pose proof Hsame as (Hid & _ & Hlen).
  destruct (merge_loop_spec n links0 (length S') 0 (mk_state S' (st_links st) (st_trees st) (st_size st)))
    as (st' & Em & Hi' & Hle & Heq); [by apply inv_same| |rewrite Hlen, (wf_len _ _ Hw); done|].
  { intros k s j Hk Hj. simpl in *. destruct (s_link _ _ _ _ Hse k s j Hk Hj) as (l & Hl & _).
    by eapply lookup_lt_Some. }
  exists S', st'. split_and!; try done. intros [-> Hset]%Heq. simpl in *. split; [done|].
  intros l (j & Hj)%list_elem_of_lookup.
  destruct (decide (sid (st_subsets st) (src l) = sid (st_subsets st) (dst l))) as [|Hc]; [done|]. exfalso.
  destruct (s_found _ _ _ _ Hse j l) as (k & s & Hk & Hn); [done|by eapply lookup_lt_Some|done|].
  destruct (ms_link s) as [j'|] eqn:Ej; [|done].
  destruct (s_link _ _ _ _ Hse k s j' Hk Ej) as (l' & Hl' & Hc').
  apply Hc'. rewrite <- !Hid. eapply (Hset k); try done. apply lookup_lt_Some in Hk.
  rewrite Hlen, (wf_len _ _ Hw) in Hk. lia.
Qed.

(** ** The result *)

Lemma strip_edge ls ls' i j : strip ls = strip ls' -> edge ls i j <-> edge ls' i j.
Proof. intros E. by rewrite <- edge_strip, E, edge_strip. Qed.

Lemma one_tree n links0 st i j :
  inv n links0 st -> st_trees st <= 1 -> i < n -> j < n -> conn (tree (st_links st)) i j.
Proof.
  intros Hi Ht Hin Hjn. pose proof (i_wf _ _ _ Hi) as Hw.
  destruct (wf_lookup _ _ _ Hw Hin) as (si & _ & H1). destruct (wf_lookup _ _ _ Hw Hjn) as (sj & _ & H2).
  assert (Hmem : forall k r, sid (st_subsets st) k = Some r ->
                 r ∈ filter (fun i => sid (st_subsets st) i = Some i) (seq 0 n)).
  { intros k r Hr%(wf_rep _ _ Hw). apply list_elem_of_filter. split; [done|].
    apply elem_of_seq. apply sid_lt in Hr. rewrite (wf_len _ _ Hw) in Hr. lia. }
  rewrite (i_trees _ _ _ Hi) in Ht. unfold reps in Ht.
  assert (set_id si = set_id sj) as E.
  { apply Hmem in H1, H2. destruct (filter _ _) as [|a [|b f]]; [by apply elem_of_nil in H1| |simpl in Ht; lia].
    apply list_elem_of_singleton in H1, H2. congruence. }
  etrans; [apply (i_conn _ _ _ Hi _ _ H1)|]. rewrite E. symmetry. apply (i_conn _ _ _ Hi _ _ H2).
Qed.

Lemma isolated n links0 st :
  inv n links0 st -> 1 < st_trees st ->
  (forall l, l ∈ st_links st -> sid (st_subsets st) (src l) = sid (st_subsets st) (dst l)) ->
  exists i j, i < n /\ j < n /\ ~ conn links0 i j.
Proof.
  intros Hi Ht Hl. rewrite (i_trees _ _ _ Hi) in Ht. unfold reps in Ht.
  assert (Hnd : NoDup (filter (fun i => sid (st_subsets st) i = Some i) (seq 0 n))) by (apply NoDup_filter, NoDup_seq).
  destruct (filter _ _) as [|a [|b f]] eqn:E; [simpl in Ht; lia..|].
  assert (forall x, x ∈ a :: b :: f -> sid (st_subsets st) x = Some x /\ x < n) as Hx.
  { intros x. rewrite <- E, list_elem_of_filter, elem_of_seq. intros [? ?]. split; [done|lia]. }
  destruct (Hx a) as [Ha1 Ha2]; [by left|]. destruct (Hx b) as [Hb1 Hb2]; [right; by left|].
  exists a, b. split_and!; [done..|]. intros Hc.
  apply NoDup_cons in Hnd as [Hnab _]. apply Hnab.
  assert (Some a = Some b) as HH; [|injection HH as ->; by left]. rewrite <- Ha1, <- Hb1.
  eapply conn_label; [exact Hl|]. eapply conn_mono; [|exact Hc]. intros x y.
  apply strip_edge. apply (i_strip _ _ _ Hi).
Qed.

Lemma mst_loop_spec fuel n links0 st :
  inv n links0 st -> 0 < n -> st_trees st < fuel ->
  exists k ls, mst_loop fuel st = Done (k, ls) /\ strip ls = strip links0
    /\ (k = n - 1 /\ length (tree ls) = n - 1 /\ (forall i j, i < n -> j < n -> conn (tree ls) i j)
        \/ k = 0 /\ exists i j, i < n /\ j < n /\ ~ conn links0 i j).
Proof.
  revert st. induction fuel as [|fuel IH]; intros st Hi Hn Hf; [lia|]. simpl.
  destruct (Nat.ltb_spec 1 (st_trees st)) as [Hgt|Hle].
  - destruct (round_spec n links0 st Hi) as (S' & st' & -> & E & Hi' & Hle & Hst). cbn [mbind outcome_bind].
    rewrite E. cbn [mbind outcome_bind]. destruct (Nat.eqb_spec (st_trees st') (st_trees st)) as [He|He].
    + destruct (Hst He) as [El Hl]. do 2 eexists. split; [done|]. split; [apply (i_strip _ _ _ Hi')|]. right.
      split; [done|]. apply (isolated n links0 st Hi Hgt Hl).
    + apply IH; [done|done|lia].
  - do 2 eexists. split; [done|]. split; [apply (i_strip _ _ _ Hi)|]. left.
    assert (st_trees st = 1) as E.
    { rewrite (i_trees _ _ _ Hi) in *. unfold reps in *. pose proof (i_wf _ _ _ Hi) as Hw.
      destruct (wf_lookup _ _ 0 Hw Hn) as (s & _ & Hr%(wf_rep _ _ Hw)).
      assert (set_id s ∈ filter (fun i => sid (st_subsets st) i = Some i) (seq 0 n)) as Hin.
      { apply list_elem_of_filter. split; [done|]. apply elem_of_seq.
        apply sid_lt in Hr. rewrite (wf_len _ _ Hw) in Hr. lia. }
      destruct (filter _ _); [by apply elem_of_nil in Hin|simpl in *; lia]. }
    pose proof (i_sum _ _ _ Hi). pose proof (i_size _ _ _ Hi).
    split_and!; [lia|lia|]. intros. eapply one_tree; eauto.
Qed.

Lemma sid_init n i : sid ((fun i => mk_set i None None) <$> seq 0 n) i = if decide (i < n) then Some i else None.
Proof.
  unfold sid. rewrite list_lookup_fmap. case_decide as D.
  - by rewrite lookup_seq_lt by lia.
  - by rewrite lookup_seq_ge by lia.
Qed.

Lemma inv_init n links :
  (forall l, l ∈ links -> src l < n /\ dst l < n) ->
  inv n links (mk_state ((fun i => mk_set i None None) <$> seq 0 n) (with_mst 0 <$> links) n 0).
Proof.
  intros He.
  assert (Hreps : reps n ((fun i => mk_set i None None) <$> seq 0 n) = n).
  { unfold reps. rewrite filter_all; [apply length_seq|]. intros x Hx%elem_of_seq.
    rewrite sid_init, decide_True by lia. done. }
  split; simpl; rewrite ?tree_init, ?Hreps; try done.
  - split; [by rewrite length_fmap, length_seq|..].
    + intros i r. rewrite !sid_init. destruct (decide (i < n)) as [D|]; [|done].
      intros [= <-]. by rewrite decide_True.
    + intros r. rewrite sid_init. destruct (decide (r < n)) as [D|]; [|done]. intros _. exists [].
      split_and!.
      * unfold ring. simpl. unfold nxt. rewrite list_lookup_fmap, lookup_seq_lt by lia. by split_and!; eauto.
      * apply NoDup_singleton.
      * intros i. rewrite list_elem_of_singleton, sid_init. case_decide; split; intros; simplify_eq; done.
  - unfold strip. rewrite <- list_fmap_compose. apply list_fmap_ext. intros ? [] _. done.
  - intros l (l0 & -> & Hl)%list_elem_of_fmap. exact (He l0 Hl).
  - by intros l ?%elem_of_nil.
  - intros i r. rewrite sid_init. destruct (decide (i < n)); [|done]. intros [= <-]. reflexivity.
Qed.

(** The result of the search: a spanning tree, or two nodes that no links join. *)
Lemma mst_find_spec n links :
  0 < n -> (forall l, l ∈ links -> src l < n /\ dst l < n) ->
  exists k ls, mdv_mst_find true n links = Done (k, ls) /\ strip ls = strip links
    /\ (k = n - 1 /\ length (tree ls) = n - 1 /\ (forall i j, i < n -> j < n -> conn (tree ls) i j)
        \/ k = 0 /\ exists i j, i < n /\ j < n /\ ~ conn links i j).
Proof.
  intros Hn He. unfold mdv_mst_find. cbn [negb]. cbv zeta.
  apply (mst_loop_spec (Datatypes.S n) n links _ (inv_init n links He) Hn). simpl. lia.
Qed.

Lemma tree_conn ls links i j : strip ls = strip links -> conn (tree ls) i j -> conn links i j.
Proof.
  intros Hs. apply conn_mono. intros x y (l & Hl & Hx & Hy).
  apply (strip_edge ls links); [done|]. exists l. split; [|done]. by apply list_elem_of_filter in Hl as [_ ?].
Qed.

(** the spanning tree.  For any links between the [n] nodes the search ends
    and no access leaves its array; the links keep their ends and weights.  If
    the links connect all nodes, exactly [n - 1] links are marked, that number
    is returned, and the marked links alone connect all nodes: they are a
    spanning tree.  If some nodes are isolated from others the result is 0, and
    without memory it is 0 and nothing changes. *)
Theorem mdv_mst_find_spanning n links :
  0 < n -> (forall l, l ∈ links -> src l < n /\ dst l < n) ->
  (exists k links', mdv_mst_find true n links = Done (k, links')
    /\ strip links' = strip links
    /\ ((forall i j, i < n -> j < n -> conn links i j) ->
        k = n - 1 /\ length (tree links') = n - 1
        /\ forall i j, i < n -> j < n -> conn (tree links') i j)
    /\ ((exists i j, i < n /\ j < n /\ ~ conn links i j) -> k = 0))
  /\ mdv_mst_find false n links = Done (0, links).
Proof.
  intros Hn He. split; [|done].
  destruct (mst_find_spec n links Hn He) as (k & ls & E & Hs & Hres).
  exists k, ls. split; [exact E|]. split; [done|]. destruct Hres as [(Hk & Hlen & Hc)|(Hk & i & j & Hi & Hj & Hnc)].
  - split; [done|]. intros (i & j & Hi & Hj & Hnc). exfalso. apply Hnc. apply (tree_conn ls); auto.
  - split; [|done]. intros Hall. destruct Hnc. by apply Hall.
Qed.

Lemma mdv_mst_find_spanning_witness :
  exists k links', mdv_mst_find true 9 test_links = Done (k, links') /\ strip links' = strip test_links.
Proof.
  destruct (mdv_mst_find_spanning 9 test_links ltac:(lia)) as [(k & ls & E & Hs & _) _].
  - apply Forall_forall. unfold test_links. repeat constructor; simpl; lia.
  - exists k, ls. split; [exact E|exact Hs].
Defined.

End Mst.
