(* ===== verification/MstMin.v ===== *)
(** * The spanning tree has minimum weight (src/mdv_platform/generic/mdv_mst.c)

    Every link the search marks is the first, in the order of
    [mdv_mstlink_cmp] and of the array, among the links that leave some set of
    nodes.  From this it follows that the marked links weigh no more than any
    links that connect all nodes.  The components of a graph are counted by
    their least nodes. *)

From S2P Require Import Prelude Mst.
Import Mst.

Module MstMin.

(** ** The order of the links *)

Definition lo (l : mdv_mstlink) : Z := Z.of_nat (src l `min` dst l).
Definition hi (l : mdv_mstlink) : Z := Z.of_nat (src l `max` dst l).

(** Weight and ends as one number. *)
Definition rank (l : mdv_mstlink) : Z := ((weight l * 2 ^ 31 + lo l) * 2 ^ 31 + hi l)%Z.

(** Weight, ends and position among [m] links. *)
Definition pos (m : Z) (j : nat) (l : mdv_mstlink) : Z := (rank l * m + Z.of_nat j)%Z.

(** Weights and nodes whose differences fit the 32-bit result of the comparison. *)
Definition small (l : mdv_mstlink) : Prop :=
  (0 <= weight l < 2 ^ 31)%Z /\ (Z.of_nat (src l) < 2 ^ 31)%Z /\ (Z.of_nat (dst l) < 2 ^ 31)%Z.

Lemma i32_small z : (- 2 ^ 31 < z < 2 ^ 31)%Z -> i32 z = z.
Proof. intros Hz. unfold swrap. rewrite Z.mod_small; lia. Qed.

(** Two digits are compared by the first one that differs. *)
Lemma digits_lt (m a a' b b' : Z) :
  (0 <= b < m)%Z -> (0 <= b' < m)%Z -> (a * m + b < a' * m + b' <-> a < a' \/ a = a' /\ b < b')%Z.
Proof. intros Hb Hb'. split; [|intros [?|[-> ?]]; nia]. intros. destruct (Z.lt_trichotomy a a') as [?|[->|?]]; [by left|right; lia|nia]. Qed.

Lemma digits_eq (m a a' b b' : Z) :
  (0 <= b < m)%Z -> (0 <= b' < m)%Z -> (a * m + b = a' * m + b')%Z -> a = a' /\ b = b'.
Proof. intros Hb Hb' E. destruct (Z.lt_trichotomy a a') as [?|[->|?]]; [nia|lia|nia]. Qed.

Lemma small_ends l : small l -> (0 <= lo l < 2 ^ 31)%Z /\ (0 <= hi l < 2 ^ 31)%Z.
Proof. intros (_ & H1 & H2). unfold lo, hi. lia. Qed.

(** [mdv_mstlink_cmp] compares the ranks. *)
Lemma cmp_rank a b : small a -> small b -> (0 <? mdv_mstlink_cmp a b)%Z = (rank b <? rank a)%Z.
Proof.
  intros Ha Hb. pose proof (small_ends a Ha) as [Ha1 Ha2]. pose proof (small_ends b Hb) as [Hb1 Hb2].
  assert (Hlt : (rank b < rank a <-> weight b < weight a \/ weight b = weight a /\ (lo b < lo a \/ lo b = lo a /\ hi b < hi a))%Z).
  { unfold rank. rewrite !digits_lt by done. split; intros; [|lia].
    destruct H as [[?|[? ?]]|[E ?]]; [by left|tauto|]. apply digits_eq in E as [? ?]; [tauto|done..]. }
  unfold mdv_mstlink_cmp.
  assert (Hp : forall l, (if src l <? dst l then (src l, dst l) else (dst l, src l)) = (src l `min` dst l, src l `max` dst l)).
  { intros l. destruct (Nat.ltb_spec (src l) (dst l)); f_equal; lia. }
  rewrite !Hp. fold (lo a) (lo b) (hi a) (hi b). destruct Ha as (Hwa & _), Hb as (Hwb & _). rewrite !i32_small by lia.
  apply eq_bool_prop_intro. rewrite !Is_true_true, !Z.ltb_lt, Hlt.
  repeat case_cmp; simpl; lia.
Qed.

(** ** Cuts *)

(** The link has one end in the subset [k]. *)
Definition inside (S : list mdv_mstset) (k i : nat) : bool := bool_decide (sid S i = Some k).
Definition leaves (S : list mdv_mstset) (k : nat) (l : mdv_mstlink) : Prop := inside S k (src l) <> inside S k (dst l).

(** Link [j] is the first one among those that leave the set [X]. *)
Definition cutmin (ls : list mdv_mstlink) (j : nat) : Prop :=
  exists (X : nat -> bool) l, ls !! j = Some l /\ X (src l) <> X (dst l)
    /\ forall j' l', ls !! j' = Some l' -> X (src l') <> X (dst l') -> (pos (Z.of_nat (length ls)) j l <= pos (Z.of_nat (length ls)) j' l')%Z.

(** After the search over the first [upto] links the link of subset [k] is the
    first of the links that leave it. *)
Definition slot (S0 : list mdv_mstset) (ls : list mdv_mstlink) (upto k : nat) (o : option nat) : Prop :=
  match o with
  | None => forall j l, j < upto -> ls !! j = Some l -> ~ leaves S0 k l
  | Some j => exists l, ls !! j = Some l /\ j < upto /\ leaves S0 k l
      /\ forall j' l', j' < upto -> ls !! j' = Some l' -> leaves S0 k l' ->
           (pos (Z.of_nat (length ls)) j l <= pos (Z.of_nat (length ls)) j' l')%Z
  end.

Definition smin (S0 S : list mdv_mstset) (ls : list mdv_mstlink) (upto : nat) : Prop :=
  (forall i, sid S i = sid S0 i) /\ (forall k s, S !! k = Some s -> slot S0 ls upto k (ms_link s)).

Lemma smin_init S ls : smin S (with_link None <$> S) ls 0.
Proof.
  split; [intros i; unfold sid; rewrite list_lookup_fmap; by destruct (S !! i)|].
  intros k s Hs. rewrite list_lookup_fmap in Hs. apply fmap_Some in Hs as (s0 & _ & ->). simpl. intros; lia.
Qed.

(** A link leaves exactly the subsets of its ends. *)
Lemma leaves_iff S k l a b :
  sid S (src l) = Some a -> sid S (dst l) = Some b -> leaves S k l <-> a <> b /\ (k = a \/ k = b).
Proof.
  intros Ha Hb. unfold leaves, inside. rewrite Ha, Hb.
  destruct (bool_decide_reflect (Some a = Some k)) as [[= ->]|Hak], (bool_decide_reflect (Some b = Some k)) as [[= ->]|Hbk].
  - split; [done|by intros [? _]].
  - split; [|done]. intros _. split; [congruence|by left].
  - split; [|done]. intros _. split; [congruence|by right].
  - split; [done|]. intros [_ [->| ->]]; done.
Qed.

Lemma slot_skip S0 ls i k o l :
  slot S0 ls i k o -> ls !! i = Some l -> ~ leaves S0 k l -> slot S0 ls (S i) k o.
Proof.
  intros Hs Hl Hn. destruct o as [j|]; simpl in *.
  - destruct Hs as (lj & Hj & Hlt & Hlv & Hmin). exists lj. split_and!; [done|lia|done|]. intros j' l' Hj' Hl' Hlv'.
    destruct (decide (j' = i)) as [->|]; [by simplify_eq|]. apply (Hmin j'); [lia|done|done].
  - intros j l' Hj Hl'. destruct (decide (j = i)) as [->|]; [by simplify_eq|]. apply (Hs j); [lia|done].
Qed.

Lemma pos_lt m j j' l l' :
  (Z.of_nat j < m)%Z -> (Z.of_nat j' < m)%Z ->
  (pos m j l < pos m j' l' <-> rank l < rank l' \/ rank l = rank l' /\ Z.of_nat j < Z.of_nat j')%Z.
Proof. intros. unfold pos. apply digits_lt; lia. Qed.

(** The link is compared with the one of the subset it leaves. *)
Lemma slot_closer S0 ls i k o l b :
  Forall small ls -> slot S0 ls i k o -> ls !! i = Some l -> leaves S0 k l -> closer ls o l = Done b ->
  slot S0 ls (S i) k (if b then Some i else o).
Proof.
  intros Hsm Hs Hl Hlv Hc. pose proof (lookup_lt_Some _ _ _ Hl) as Hi. destruct o as [j|]; simpl in *.
  - inv_bind. subst b. destruct Hs as (lj & Hj & Hlt & Hlvj & Hmin). rewrite E in Hj. injection Hj as ->.
    rewrite cmp_rank; [|by eapply Forall_lookup_1..]. pose proof (pos_lt (Z.of_nat (length ls)) i j l lj) as Hp.
    destruct (Z.ltb_spec (rank l) (rank lj)) as [Hr|Hr].
    + exists l. split_and!; [done|lia|done|]. intros j' l' Hj' Hl' Hlv'. destruct (decide (j' = i)) as [->|]; [simplify_eq; lia|].
      specialize (Hmin j' l' ltac:(lia) Hl' Hlv'). lia.
    + exists lj. split_and!; [done|lia|done|]. intros j' l' Hj' Hl' Hlv'. destruct (decide (j' = i)) as [->|].
      * simplify_eq. lia.
      * apply Hmin; [lia|done|done].
  - injection Hc as <-. exists l. split_and!; [done|lia|done|]. intros j' l' Hj' Hl' Hlv'.
    destruct (decide (j' = i)) as [->|]; [simplify_eq; lia|]. destruct (Hs j' l'); [lia|done|done].
Qed.

Lemma sid_with_link S k o i : sid (alter (with_link o) k S) i = sid S i.
Proof. apply (same_rings_with_link S k o). Qed.

Lemma search_step_min S0 S ls i S' :
  Forall small ls -> smin S0 S ls i -> search_step S ls i = Done S' -> smin S0 S' ls (Datatypes.S i).
Proof.
  intros Hsm [Hid Hsl] Hstep. unfold search_step in Hstep. apply bind_inv in Hstep as (l & Hl & Hstep).
  apply bind_inv in Hstep as (ss & Hss & Hstep). apply bind_inv in Hstep as (sd & Hsd & Hstep).
  apply read_inv in Hl, Hss, Hsd. set (a := set_id ss) in *. set (b := set_id sd) in *.
  assert (Ha : sid S0 (src l) = Some a) by (rewrite <- Hid; unfold sid; by rewrite Hss).
  assert (Hb : sid S0 (dst l) = Some b) by (rewrite <- Hid; unfold sid; by rewrite Hsd).
  assert (Hlv : forall k, leaves S0 k l <-> a <> b /\ (k = a \/ k = b)) by (intros k; by apply leaves_iff).
  cbv zeta in Hstep. destruct (Nat.eqb_spec a b) as [Eab|Eab].
  { injection Hstep as <-. split; [done|]. intros k s Hs. eapply slot_skip; [by apply Hsl|done|]. rewrite Hlv. tauto. }
  apply bind_inv in Hstep as (s1 & H1 & Hstep). apply bind_inv in Hstep as (s2 & H2 & Hstep).
  apply bind_inv in Hstep as (b1 & Hb1 & Hstep). apply bind_inv in Hstep as (b2 & Hb2 & Hstep). injection Hstep as <-.
  apply read_inv in H1, H2.
  pose proof (slot_closer S0 ls i a _ l b1 Hsm (Hsl a s1 H1) Hl ltac:(apply Hlv; auto) Hb1) as Q1.
  pose proof (slot_closer S0 ls i b _ l b2 Hsm (Hsl b s2 H2) Hl ltac:(apply Hlv; auto) Hb2) as Q2.
  split; [intros k; destruct b1, b2; by rewrite ?sid_with_link|]. intros k s Hs.
  destruct (decide (k = a)) as [->|Hka]; [|destruct (decide (k = b)) as [->|Hkb]].
  - assert (ms_link s = if b1 then Some i else ms_link s1) as ->; [|done].
    destruct b1, b2; rewrite ?list_lookup_alter_eq, ?list_lookup_alter_ne, ?list_lookup_alter_eq, ?H1 in Hs by congruence;
      simpl in Hs; simplify_eq; done.
  - assert (ms_link s = if b2 then Some i else ms_link s2) as ->; [|done].
    destruct b1, b2; rewrite ?list_lookup_alter_eq, ?list_lookup_alter_ne, ?H2 in Hs by congruence;
      simpl in Hs; simplify_eq; done.
  - eapply slot_skip; [apply Hsl|done|rewrite Hlv; tauto].
    destruct b1, b2; rewrite ?list_lookup_alter_ne in Hs by congruence; done.
Qed.

Lemma search_loop_min S0 ls count i S S' :
  Forall small ls -> smin S0 S ls i -> search_loop count i S ls = Done S' -> smin S0 S' ls (i + count).
Proof.
  intros Hsm. revert i S. induction count as [|count IH]; intros i S Hs Hl; simpl in Hl.
  - injection Hl as <-. by rewrite Nat.add_0_r.
  - apply bind_inv in Hl as (S1 & Hstep & Hl). rewrite Nat.add_succ_r. apply (IH (Datatypes.S i) S1); [|done].
    by eapply search_step_min.
Qed.

(** ** Marked links *)

Lemma strip_lookup ls ls' j l :
  strip ls = strip ls' -> ls !! j = Some l -> exists l', ls' !! j = Some l' /\ src l' = src l /\ dst l' = dst l /\ weight l' = weight l.
Proof.
  intros E Hl. apply (f_equal (.!! j)) in E. unfold strip in E. rewrite !list_lookup_fmap, Hl in E.
  destruct (ls' !! j) as [l'|]; simpl in E; [|done]. injection E as ? ? ?. eauto 10.
Qed.

Lemma strip_length ls ls' : strip ls = strip ls' -> length ls = length ls'.
Proof. intros E%(f_equal length). unfold strip in E. by rewrite !length_fmap in E. Qed.

Lemma pos_ext m j l l' : src l' = src l -> dst l' = dst l -> weight l' = weight l -> pos m j l' = pos m j l.
Proof. intros E1 E2 E3. unfold pos, rank, lo, hi. by rewrite E1, E2, E3. Qed.

Lemma cutmin_strip ls ls' j : strip ls = strip ls' -> cutmin ls j -> cutmin ls' j.
Proof.
  intros E (X & l & Hl & Hx & Hmin). destruct (strip_lookup _ _ _ _ E Hl) as (l' & Hl' & E1 & E2 & E3).
  exists X, l'. split_and!; [done|by rewrite E1, E2|]. intros j2 l2' Hl2' Hx2.
  destruct (strip_lookup _ _ _ _ (eq_sym E) Hl2') as (l2 & Hl2 & F1 & F2 & F3).
  rewrite <- (strip_length _ _ E), (pos_ext _ j l l'), <- (pos_ext _ j2 l2' l2) by done. apply Hmin; [done|by rewrite F1, F2].
Qed.

(** The link the search records for a subset. *)
Lemma slot_cutmin S0 ls k j : slot S0 ls (length ls) k (Some j) -> cutmin ls j.
Proof.
  intros (l & Hl & _ & Hlv & Hmin). exists (inside S0 k), l. split_and!; [done..|]. intros j' l' Hl' Hlv'.
  apply Hmin; [by eapply lookup_lt_Some|done|done].
Qed.

Definition marked (ls0 ls : list mdv_mstlink) : Prop :=
  strip ls = strip ls0 /\ forall j l, ls !! j = Some l -> flagged l -> cutmin ls0 j.

Definition pending (ls0 : list mdv_mstlink) (S : list mdv_mstset) : Prop :=
  forall k s j, S !! k = Some s -> ms_link s = Some j -> cutmin ls0 j.

Lemma pending_links ls0 S S' : ms_link <$> S' = ms_link <$> S -> pending ls0 S -> pending ls0 S'.
Proof.
  intros E Hp k s j Hs Hj. apply (f_equal (.!! k)) in E. rewrite !list_lookup_fmap, Hs in E. simpl in E.
  symmetry in E. apply fmap_Some in E as (s0 & Hs0 & E0). apply (Hp k s0); [done|congruence].
Qed.

Lemma union_loop_links fuel S id1 p e S' e' :
  union_loop fuel S id1 p e = Done (S', e') -> ms_link <$> S' = ms_link <$> S.
Proof.
  revert S p e. induction fuel as [|fuel IH]; intros S p e; simpl; [done|]. destruct p as [p|]; [|by intros [= -> _]].
  intros Hl. apply bind_inv in Hl as (s & _ & Hl). destruct (_ =? _); [by injection Hl as -> _|].
  rewrite (IH _ _ _ Hl). by apply fmap_alter_same.
Qed.

Lemma union_links S a b S' : mdv_union_subsets S a b = Done S' -> ms_link <$> S' = ms_link <$> S.
Proof.
  unfold mdv_union_subsets. intros Hu. apply bind_inv in Hu as (s1 & _ & Hu). apply bind_inv in Hu as ([S1 e] & Hl & Hu).
  apply bind_inv in Hu as (e' & _ & Hu). injection Hu as <-.
  rewrite fmap_alter_same by done. rewrite (union_loop_links _ _ _ _ _ _ _ Hl). by apply fmap_alter_same.
Qed.

Lemma merge_step_marked ls0 st i st' :
  marked ls0 (st_links st) -> pending ls0 (st_subsets st) -> merge_step st i = Done st' ->
  marked ls0 (st_links st') /\ pending ls0 (st_subsets st').
Proof.
  intros [Hs Hm] Hp Hstep. unfold merge_step in Hstep. apply bind_inv in Hstep as (s & Hsi & Hstep). apply read_inv in Hsi.
  destruct (ms_link s) as [j|] eqn:Ej; [|by injection Hstep as <-].
  apply bind_inv in Hstep as (l & Hl & Hstep). apply bind_inv in Hstep as (s1 & _ & Hstep). apply bind_inv in Hstep as (s2 & _ & Hstep).
  destruct (_ =? _); [by injection Hstep as <-|]. apply bind_inv in Hstep as (S' & Hu & Hstep). injection Hstep as <-. simpl.
  split; [|eapply pending_links; [by eapply union_links|done]]. split; [by rewrite strip_flag|]. intros j' l' Hl' Hf.
  destruct (decide (j = j')) as [<-|]; [by eapply Hp|]. rewrite list_lookup_alter_ne in Hl' by done. by eapply Hm.
Qed.

Lemma merge_loop_marked ls0 count i st st' :
  marked ls0 (st_links st) -> pending ls0 (st_subsets st) -> merge_loop count i st = Done st' -> marked ls0 (st_links st').
Proof.
  revert i st. induction count as [|count IH]; intros i st Hm Hp Hl; simpl in Hl; [by injection Hl as <-|].
  apply bind_inv in Hl as (st1 & Hs & Hl). destruct (merge_step_marked _ _ _ _ Hm Hp Hs) as [Hm1 Hp1]. by eapply IH.
Qed.

Lemma small_strip ls ls' : strip ls = strip ls' -> Forall small ls -> Forall small ls'.
Proof.
  intros E Hs. apply Forall_lookup. intros j l' Hl'. destruct (strip_lookup _ _ _ _ (eq_sym E) Hl') as (l & Hl & E1 & E2 & E3).
  pose proof (Forall_lookup_1 _ _ _ _ Hs Hl) as Hsm. unfold small in *. by rewrite <- E1, <- E2, <- E3.
Qed.

Lemma mst_loop_marked ls0 fuel st k ls :
  Forall small ls0 -> marked ls0 (st_links st) -> mst_loop fuel st = Done (k, ls) -> marked ls0 ls.
Proof.
  intros Hsm. revert st. induction fuel as [|fuel IH]; intros st Hm Hl; simpl in Hl; [done|].
  destruct (1 <? st_trees st); [|by injection Hl as _ <-].
  apply bind_inv in Hl as (S' & Hs & Hl). apply bind_inv in Hl as (st' & Hmg & Hl).
  assert (Hm' : marked ls0 (st_links st')).
  { eapply merge_loop_marked; [| |exact Hmg]; [done|]. intros i s j Hi Hj. simpl in Hi. destruct Hm as [E _].
    eapply cutmin_strip; [exact E|].
    destruct (search_loop_min (st_subsets st) (st_links st) _ 0 _ S' (small_strip _ _ (eq_sym E) Hsm) (smin_init _ _) Hs) as [_ Hsl].
    specialize (Hsl i s Hi). rewrite Hj in Hsl. by eapply slot_cutmin. }
  destruct (_ =? _); [by injection Hl as _ <-|]. by eapply IH.
Qed.

Lemma mst_find_marked n links k ls :
  Forall small links -> mdv_mst_find true n links = Done (k, ls) -> marked links ls.
Proof.
  intros Hsm Hf. unfold mdv_mst_find in Hf. cbn [negb] in Hf. cbv zeta in Hf. eapply mst_loop_marked; [done| |exact Hf].
  split; simpl.
  - unfold strip. rewrite <- list_fmap_compose. apply list_fmap_ext. by intros ? [] _.
  - intros j l Hl Hfl. rewrite list_lookup_fmap in Hl. apply fmap_Some in Hl as (l0 & _ & ->). by destruct Hfl.
Qed.

(** ** Chains of marked links *)

Lemma rtsc_label {A} (R : nat -> nat -> Prop) (f : nat -> A) x y :
  (forall a b, R a b -> f a = f b) -> rtsc R x y -> f x = f y.
Proof. intros Hf. induction 1 as [|a b c [H|H] _ IH]; [done|..]; rewrite <- IH; [|symmetry]; auto. Qed.

Lemma rtsc_mono (R R' : nat -> nat -> Prop) x y : (forall a b, R a b -> R' a b) -> rtsc R x y -> rtsc R' x y.
Proof. intros HR. unfold rtsc. apply rtc_subrel. intros a b [H|H]; [left|right]; auto. Qed.

(** One more edge. *)
Lemma rtsc_add (R R' : nat -> nat -> Prop) a b x y :
  (forall u v, R' u v -> R u v \/ u = a /\ v = b) -> rtsc R' x y ->
  rtsc R x y \/ rtsc R x a /\ rtsc R b y \/ rtsc R x b /\ rtsc R a y.
Proof.
  intros HR. unfold rtsc. induction 1 as [x|x z y [H|H] _ IH]; [by left; apply rtc_refl|..].
  - apply HR in H as [H|[-> ->]].
    + assert (sc R x z) by by left. destruct IH as [?|[[? ?]|[? ?]]]; [left|right; left|right; right]; (split || idtac); try done;
        by eapply rtc_l.
    + destruct IH as [?|[[? ?]|[? ?]]]; [right; left; split; [apply rtc_refl|done]|right; left; split; [apply rtc_refl|done]|by left].
  - apply HR in H as [H|[-> ->]].
    + assert (sc R x z) by by right. destruct IH as [?|[[? ?]|[? ?]]]; [left|right; left|right; right]; (split || idtac); try done;
        by eapply rtc_l.
    + destruct IH as [?|[[? ?]|[? ?]]]; [right; right; split; [apply rtc_refl|done]|by left|right; right; split; [apply rtc_refl|done]].
Qed.

Section Marked.
Context (ls : list mdv_mstlink) (Hsm : Forall small ls) (Hcut : forall j l, ls !! j = Some l -> flagged l -> cutmin ls j).

Abbreviation m := (Z.of_nat (length ls)).

(** A marked link before position [k]. *)
Definition fedge (k : Z) (x y : nat) : Prop :=
  exists j l, ls !! j = Some l /\ flagged l /\ (pos m j l < k)%Z /\ src l = x /\ dst l = y.

Lemma pos_inj j j' l l' : ls !! j = Some l -> ls !! j' = Some l' -> pos m j l = pos m j' l' -> j = j'.
Proof.
  intros Hj%lookup_lt_Some Hj'%lookup_lt_Some E. apply digits_eq in E as [_ ?]; lia.
Qed.

(** Whether a marked link stands at position [k]. *)
Definition at_pos (k : Z) (j : nat) : bool :=
  match ls !! j with Some l => negb (mst l =? 0)%Z && (pos m j l =? k)%Z | None => false end.

Lemma at_pos_dec (k : Z) :
  (exists j l, ls !! j = Some l /\ flagged l /\ pos m j l = k) \/ (forall j l, ls !! j = Some l -> flagged l -> pos m j l <> k).
Proof.
  destruct (existsb (at_pos k) (seq 0 (length ls))) eqn:E.
  - left. apply existsb_exists in E as (j & _ & Hj). unfold at_pos in Hj. destruct (ls !! j) as [l|] eqn:El; [|done].
    apply andb_true_iff in Hj as [H1%negb_true_iff%Z.eqb_neq H2%Z.eqb_eq]. eauto 10.
  - right. intros j l Hj Hf Hp. apply not_true_iff_false in E. apply E, existsb_exists. exists j. split.
    + apply in_seq. apply lookup_lt_Some in Hj. lia.
    + unfold at_pos. rewrite Hj. apply andb_true_iff. split; [by apply negb_true_iff, Z.eqb_neq|by apply Z.eqb_eq].
Qed.

(** Marked links later than link [e] are not needed to connect its ends. *)
Lemma chain_before je le d :
  ls !! je = Some le ->
  rtsc (fedge (pos m je le + 1 + Z.of_nat d)) (src le) (dst le) -> rtsc (fedge (pos m je le + 1)) (src le) (dst le).
Proof.
  intros He. set (u := src le). set (v := dst le). set (Ke := pos m je le).
  induction d as [|d IH]; intros Hc; [by rewrite Z.add_0_r in Hc|].
  set (k := (Ke + 1 + Z.of_nat d)%Z) in *. replace (Ke + 1 + Z.of_nat (S d))%Z with (k + 1)%Z in Hc by lia.
  destruct (at_pos_dec k) as [(j0 & l0 & H0 & Hf0 & Hp0)|Hno].
  2: { apply IH. revert Hc. apply rtsc_mono. intros x y (j & l & Hj & Hf & Hp & ? & ?). exists j, l. split_and!; try done.
       pose proof (Hno j l Hj Hf). lia. }
  destruct (rtsc_add (fedge k) (fedge (k + 1)) (src l0) (dst l0) u v) as [H|H]; [|done|by apply IH|].
  { intros x y (j & l & Hj & Hf & Hp & Hx & Hy). destruct (decide (pos m j l < k)%Z); [left; exists j, l; by split_and!|right].
    assert (j = j0) as -> by (eapply pos_inj; [done..|]; lia). rewrite H0 in Hj. injection Hj as ->. done. }
  exfalso. destruct (Hcut j0 l0 H0 Hf0) as (X & l0' & H0' & Hx & Hmin). rewrite H0 in H0'. injection H0' as <-.
  assert (Hsame : forall j l, ls !! j = Some l -> (pos m j l < k)%Z -> X (src l) = X (dst l)).
  { intros j l Hj Hp. destruct (decide (X (src l) = X (dst l))) as [|Hne]; [done|]. pose proof (Hmin j l Hj Hne). lia. }
  assert (Hlab : forall x y, rtsc (fedge k) x y -> X x = X y).
  { intros x y. apply rtsc_label. intros a b (j & l & Hj & _ & Hp & <- & <-). by eapply Hsame. }
  assert (Huv : X u = X v) by (apply (Hsame je le He); lia).
  destruct H as [[H1%Hlab H2%Hlab]|[H1%Hlab H2%Hlab]]; congruence.
Qed.

Lemma pos_bound (f : nat -> mdv_mstlink -> Z) (l : list mdv_mstlink) : exists B, forall j x, l !! j = Some x -> (f j x < B)%Z.
Proof.
  revert f. induction l as [|a l IH]; intros f; [by exists 0%Z|]. destruct (IH (fun j => f (S j))) as [B HB].
  exists (Z.max B (f 0 a + 1)). intros [|j] x; simpl; [intros [= <-]; lia|]. intros Hj. specialize (HB j x Hj). lia.
Qed.

(** The ends of any link are connected by marked links that weigh no more. *)
Lemma chain_light je le :
  ls !! je = Some le -> conn (tree ls) (src le) (dst le) ->
  conn (filter (fun l => weight l <= weight le)%Z (tree ls)) (src le) (dst le).
Proof.
  intros He Hc. destruct (pos_bound (pos m) ls) as [B HB].
  assert (Hall : rtsc (fedge (pos m je le + 1 + Z.of_nat (Z.to_nat B + Z.to_nat (- pos m je le)))) (src le) (dst le)).
  { revert Hc. apply rtsc_mono. intros x y (l & [Hf (j & Hj)%list_elem_of_lookup]%list_elem_of_filter & ? & ?).
    exists j, l. split_and!; try done. specialize (HB j l Hj). lia. }
  pose proof (chain_before je le _ He Hall) as Hb. revert Hb. apply rtsc_mono.
  intros x y (j & l & Hj & Hf & Hp & ? & ?). exists l. split; [|done]. apply list_elem_of_filter. split.
  - destruct (Z.le_gt_cases (weight l) (weight le)) as [|Hgt]; [done|]. exfalso.
    pose proof (Forall_lookup_1 _ _ _ _ Hsm Hj) as Hs1. pose proof (Forall_lookup_1 _ _ _ _ Hsm He) as Hs2.
    apply small_ends in Hs1 as [? ?], Hs2 as [? ?].
    assert (Hr : (rank le < rank l)%Z) by (unfold rank; rewrite !digits_lt by done; auto).
    apply lookup_lt_Some in Hj, He. assert (pos m je le < pos m j l)%Z by (apply pos_lt; [lia..|by left]). lia.
  - apply list_elem_of_filter. split; [done|]. by eapply list_elem_of_lookup_2.
Qed.

End Marked.

(** ** Components *)

(** A label per component. *)
Fixpoint lab (ls : list mdv_mstlink) (x : nat) : nat :=
  match ls with
  | [] => x
  | l :: ls => if lab ls x =? lab ls (src l) then lab ls (dst l) else lab ls x
  end.

Lemma conn_cons l ls x y :
  conn (l :: ls) x y <-> conn ls x y \/ conn ls x (src l) /\ conn ls (dst l) y \/ conn ls x (dst l) /\ conn ls (src l) y.
Proof.
  assert (Hmono : forall a b, conn ls a b -> conn (l :: ls) a b).
  { intros a b. apply conn_mono. intros u v (l' & Hl' & ?). exists l'. split; [by right|done]. }
  assert (Hl : conn (l :: ls) (src l) (dst l)) by (apply conn_link; by left). split.
  - apply rtsc_add. intros u v (l' & [->|Hl']%elem_of_cons & <- & <-); [by right|left]. by exists l'.
  - intros [H|[[H1 H2]|[H1 H2]]]; [by apply Hmono|etrans; [by apply Hmono|]; etrans; [exact Hl|by apply Hmono]|].
    etrans; [by apply Hmono|]. etrans; [symmetry; exact Hl|by apply Hmono].
Qed.

Lemma lab_conn ls x y : lab ls x = lab ls y <-> conn ls x y.
Proof.
  revert x y. induction ls as [|l ls IH]; intros x y; simpl.
  - split; [by intros ->|]. apply (rtsc_label _ (fun x => x)). by intros a b (l & ?%elem_of_nil & _).
  - rewrite conn_cons, <- !IH. repeat case_cmp; intuition congruence.
Qed.

(** The least node of its component. *)
Definition least (ls : list mdv_mstlink) (x : nat) : Prop := Forall (fun y => lab ls y <> lab ls x) (seq 0 x).

#[global] Instance least_dec ls x : Decision (least ls x).
Proof. unfold least. apply _. Defined.

Lemma least_spec ls x : least ls x <-> forall y, y < x -> ~ conn ls y x.
Proof.
  unfold least. rewrite Forall_forall. setoid_rewrite elem_of_seq. setoid_rewrite lab_conn. split; intros H y Hy; apply H; lia.
Qed.

Lemma least_unique ls x y : least ls x -> least ls y -> conn ls x y -> x = y.
Proof.
  intros Hx Hy Hc. rewrite least_spec in Hx, Hy. destruct (Nat.lt_trichotomy x y) as [H|[H|H]]; [|done|].
  - by destruct (Hy x H).
  - destruct (Hx y H). by symmetry.
Qed.

(** The number of components among the first [n] nodes. *)
Definition components (n : nat) (ls : list mdv_mstlink) : nat := length (filter (least ls) (seq 0 n)).

Lemma filter_length_mono {A} (P Q : A -> Prop) `{!forall x, Decision (P x), !forall x, Decision (Q x)} l :
  (forall x, x ∈ l -> Q x -> P x) -> length (filter Q l) <= length (filter P l).
Proof.
  induction l as [|x l IH]; intros HQP; [done|]. specialize (IH (fun y Hy => HQP y (list_elem_of_further _ _ _ Hy))).
  pose proof (HQP x (list_elem_of_here _ _)) as Hx. rewrite !filter_cons. repeat case_decide; simpl; try lia. tauto.
Qed.

Lemma filter_length_lose {A} (P Q : A -> Prop) `{!forall x, Decision (P x), !forall x, Decision (Q x)} l :
  NoDup l -> (forall x y, P x -> ~ Q x -> P y -> ~ Q y -> x = y) -> length (filter P l) <= S (length (filter Q l)).
Proof.
  intros Hd Hu. induction Hd as [|x l Hx Hd IH]; [simpl; lia|]. rewrite !filter_cons. repeat case_decide; simpl; try lia.
  apply le_n_S, filter_length_mono. intros y Hy HPy. destruct (decide (Q y)) as [|HQ]; [done|].
  exfalso. apply Hx. by rewrite (Hu x y).
Qed.

(** A link joins at most two components. *)
Lemma components_cons n l ls : components n ls <= S (components n (l :: ls)).
Proof.
  apply filter_length_lose; [apply NoDup_seq|]. intros x y Hx Hx' Hy Hy'.
  assert (Hlose : forall z, least ls z -> ~ least (l :: ls) z ->
    (conn ls (dst l) z /\ exists z', z' < z /\ conn ls z' (src l)) \/ (conn ls (src l) z /\ exists z', z' < z /\ conn ls z' (dst l))).
  { intros z Hz Hn. unfold least in Hn. apply not_Forall_Exists in Hn; [|apply _].
    apply Exists_exists in Hn as (z' & Hz'%elem_of_seq & Hl). simpl in Hl. apply dec_stable in Hl.
    change (lab (l :: ls) z' = lab (l :: ls) z) in Hl. apply lab_conn, conn_cons in Hl.
    destruct Hl as [Hl|[[H1 H2]|[H1 H2]]]; [by destruct (proj1 (least_spec _ _) Hz z'); [lia|]|left|right]; (split; [done|]); exists z'; (split; [lia|done]). }
  pose proof Hx as Hxl. pose proof Hy as Hyl. rewrite least_spec in Hxl, Hyl.
  destruct (Hlose x Hx Hx') as [[Cx (x' & Lx & Dx)]|[Cx (x' & Lx & Dx)]], (Hlose y Hy Hy') as [[Cy (y' & Ly & Dy)]|[Cy (y' & Ly & Dy)]].
  1,4: apply (least_unique ls); [done..|]; etrans; [symmetry; exact Cx|exact Cy].
  - exfalso. assert (y <= x') by (destruct (Nat.le_gt_cases y x') as [|Hlt]; [done|]; destruct (Hyl x' Hlt); by etrans).
    assert (x <= y') by (destruct (Nat.le_gt_cases x y') as [|Hlt]; [done|]; destruct (Hxl y' Hlt); by etrans). lia.
  - exfalso. assert (y <= x') by (destruct (Nat.le_gt_cases y x') as [|Hlt]; [done|]; destruct (Hyl x' Hlt); by etrans).
    assert (x <= y') by (destruct (Nat.le_gt_cases x y') as [|Hlt]; [done|]; destruct (Hxl y' Hlt); by etrans). lia.
Qed.

Lemma components_app n a b : components n b <= length a + components n (a ++ b).
Proof. induction a as [|l a IH]; simpl; [lia|]. pose proof (components_cons n l (a ++ b)). lia. Qed.

Lemma components_mono n a b : (forall x y, conn a x y -> conn b x y) -> components n b <= components n a.
Proof. intros Hc. apply filter_length_mono. intros x _. rewrite !least_spec. intros H y Hy Hcy. apply (H y Hy). auto. Qed.

Lemma components_ge n ls : n <= length ls + components n ls.
Proof.
  pose proof (components_app n ls []) as H. rewrite app_nil_r in H. etrans; [|exact H]. unfold components.
  rewrite filter_all; [by rewrite length_seq|]. intros x _. apply Forall_forall. intros y Hy%elem_of_seq. simpl. lia.
Qed.

Lemma components_one n ls : (forall i j, i < n -> j < n -> conn ls i j) -> components n ls <= 1.
Proof.
  intros Hc. unfold components. destruct n as [|n]; [simpl; lia|].
  assert (H : forall x, x ∈ filter (least ls) (seq 0 (S n)) -> x = 0).
  { intros x [Hl Hx%elem_of_seq]%list_elem_of_filter. rewrite least_spec in Hl. destruct x as [|x]; [done|].
    destruct (Hl 0); [lia|apply Hc; lia]. }
  pose proof (NoDup_filter (least ls) _ (NoDup_seq 0 (S n))) as Hd.
  destruct (filter _ _) as [|a [|b f]]; [simpl; lia..|]. apply NoDup_cons in Hd as [Hd _]. exfalso. apply Hd.
  rewrite (H a), (H b) by set_solver. by left.
Qed.

(** ** Weights *)

Definition total (ls : list mdv_mstlink) : Z := foldr (fun l acc => weight l + acc)%Z 0%Z ls.

(** The links heavier than [w]. *)
Definition heavier (w : Z) (ls : list mdv_mstlink) : list mdv_mstlink := filter (fun l => w < weight l)%Z ls.
Definition lighter (w : Z) (ls : list mdv_mstlink) : list mdv_mstlink := filter (fun l => weight l <= w)%Z ls.

(** Weights cut at [w]. *)
Definition cut_total (w : Z) (ls : list mdv_mstlink) : Z := foldr (fun l acc => Z.min (weight l) w + acc)%Z 0%Z ls.

Lemma cut_total_succ w ls : cut_total (w + 1) ls = (cut_total w ls + Z.of_nat (length (heavier w ls)))%Z.
Proof.
  induction ls as [|l ls IH]; [done|]. unfold heavier in *. simpl. rewrite IH, filter_cons. case_decide; simpl; lia.
Qed.

Lemma cut_total_zero ls : Forall small ls -> cut_total 0 ls = 0%Z.
Proof. induction 1 as [|l ls [[? ?] _] _ IH]; [done|]. simpl. rewrite IH. lia. Qed.

Lemma cut_total_le w ls : (cut_total w ls <= total ls)%Z.
Proof. induction ls as [|l ls IH]; simpl; lia. Qed.

Lemma cut_total_full w ls : (forall l, l ∈ ls -> weight l <= w)%Z -> cut_total w ls = total ls.
Proof.
  induction ls as [|l ls IH]; intros H; [done|]. simpl. rewrite IH by (intros; apply H; by right).
  pose proof (H l (list_elem_of_here _ _)). lia.
Qed.

Lemma total_by_threshold a b :
  Forall small a -> Forall small b -> (forall w, (0 <= w)%Z -> length (heavier w a) <= length (heavier w b)) -> (total a <= total b)%Z.
Proof.
  intros Ha Hb Hle.
  assert (Hcut : forall w : nat, (cut_total (Z.of_nat w) a <= cut_total (Z.of_nat w) b)%Z).
  { induction w as [|w IH]; [by rewrite !cut_total_zero|]. rewrite Nat2Z.inj_succ, <- Z.add_1_r, !cut_total_succ.
    specialize (Hle (Z.of_nat w) ltac:(lia)). lia. }
  destruct (pos_bound (fun _ l => weight l) a) as [B HB].
  rewrite <- (cut_total_full (Z.of_nat (Z.to_nat B)) a).
  - etrans; [apply Hcut|apply cut_total_le].
  - intros l (j & Hj)%list_elem_of_lookup. specialize (HB j l Hj). lia.
Qed.

Lemma heavier_lighter w ls : heavier w ls ++ lighter w ls ≡ₚ ls.
Proof.
  induction ls as [|l ls IH]; [done|]. unfold heavier, lighter in *. rewrite !filter_cons.
  destruct (decide (w < weight l)%Z), (decide (weight l <= w)%Z); try lia; simpl; [by rewrite IH|].
  rewrite <- Permutation_middle. by rewrite IH.
Qed.

(** A tree [f] of [n - 1] links that connects the ends of every link of [t] by
    lighter links has fewer heavy links than [t], if [t] connects all nodes. *)
Lemma fewer_heavy n f t w :
  length f = n - 1 -> 0 < n -> (forall i j, i < n -> j < n -> conn t i j) ->
  (forall l, l ∈ t -> conn (lighter (weight l) f) (src l) (dst l)) ->
  length (heavier w f) <= length (heavier w t).
Proof.
  intros Hf Hn Ht Hl.
  pose proof (heavier_lighter w f) as Pf%Permutation_length. rewrite length_app in Pf.
  pose proof (components_ge n (lighter w f)) as Hge.
  assert (Hm : components n (lighter w f) <= components n (lighter w t)).
  { apply components_mono. intros x y Hc. unfold conn in Hc. induction Hc as [|x z y Hs _ IH]; [reflexivity|].
    etrans; [|exact IH].
    assert (Hlink : forall l, l ∈ lighter w t -> conn (lighter w f) (src l) (dst l)).
    { intros l [Hw Hlt]%list_elem_of_filter. specialize (Hl l Hlt). revert Hl. apply conn_mono. intros a b (l' & Hl' & ?).
      exists l'. split; [|done]. apply list_elem_of_filter in Hl' as [? ?]. apply list_elem_of_filter. split; [lia|done]. }
    destruct Hs as [(l & Hx & <- & <-)|(l & Hx & <- & <-)]; [|symmetry]; by apply Hlink. }
  pose proof (components_app n (heavier w t) (lighter w t)) as Happ.
  assert (Hone : components n (heavier w t ++ lighter w t) <= 1).
  { apply components_one. intros i j Hi Hj. eapply conn_mono; [|by apply Ht]. intros a b (l & Hx & ?). exists l.
    split; [by rewrite heavier_lighter|done]. }
  lia.
Qed.

(** C30: The marked links are a minimum spanning tree.  When weights and node
    numbers are below 2^31 and the links connect all nodes, the search returns
    [n - 1], the marked links connect all nodes, and their total weight is at
    most that of any selection of the links that connects all nodes. *)
Theorem mdv_mst_find_minimum n links t :
  0 < n -> (forall l, l ∈ links -> src l < n /\ dst l < n) -> Forall small links ->
  (forall l, l ∈ t -> l ∈ links) -> (forall i j, i < n -> j < n -> conn t i j) ->
  exists links', mdv_mst_find true n links = Done (n - 1, links') /\ strip links' = strip links
    /\ length (tree links') = n - 1 /\ (forall i j, i < n -> j < n -> conn (tree links') i j)
    /\ (total (tree links') <= total t)%Z.
Proof.
  intros Hn He Hsm Hsub Ht. destruct (mst_find_spec n links Hn He) as (k & ls & E & Hs & Hres).
  destruct Hres as [(-> & Hlen & Hc)|(_ & i & j & Hi & Hj & Hnc)].
  2: { destruct Hnc. eapply conn_mono; [|by apply Ht]. intros a b (l & Hl & ?). exists l. auto. }
  exists ls. split_and!; try done. destruct (mst_find_marked _ _ _ _ Hsm E) as [_ Hmark].
  assert (Hsm' : Forall small ls) by (eapply small_strip; [symmetry; exact Hs|done]).
  apply total_by_threshold.
  - apply Forall_forall. intros l [_ Hl]%list_elem_of_filter. by eapply Forall_forall in Hsm'.
  - apply Forall_forall. intros l Hl%Hsub. by eapply Forall_forall in Hsm.
  - intros w _. apply (fewer_heavy n); try done. intros l Hl%Hsub. pose proof (He l Hl) as [Hs1 Hs2].
    apply list_elem_of_lookup in Hl as (j & Hj). destruct (strip_lookup _ _ _ _ (eq_sym Hs) Hj) as (l' & Hj' & E1 & E2 & E3).
    rewrite <- E1, <- E2, <- E3. apply (chain_light ls Hsm') with (je := j); [|done|rewrite E1, E2; by apply Hc].
    intros j2 l2 H2 Hf2. eapply cutmin_strip; [symmetry; exact Hs|]. by eapply Hmark.
Qed.

(** A triangle: the heaviest side is left out. *)
Definition triangle : list mdv_mstlink := [mk_link 0 1 3 0; mk_link 1 2 9 0; mk_link 2 0 4 0]%Z.

Lemma mdv_mst_find_minimum_witness :
  exists links', mdv_mst_find true 3 triangle = Done (2, links') /\ (total (tree links') <= 7)%Z.
Proof.
  destruct (mdv_mst_find_minimum 3 triangle [mk_link 0 1 3 0; mk_link 2 0 4 0]%Z) as (ls & E & _ & _ & _ & Ht).
  - lia.
  - apply Forall_forall. repeat constructor; simpl; lia.
  - repeat constructor; simpl; lia.
  - apply Forall_forall. repeat constructor; unfold triangle; set_solver.
  - intros i j Hi Hj. apply lab_conn. destruct i as [|[|[|i]]], j as [|[|[|j]]]; (lia || reflexivity).
  - exists ls. split; [exact E|]. exact Ht.
Defined.

(** The difference of the weights wraps: of two links between two nodes with the
    weights 0 and [2^32 - 1], the heavier one is marked. *)
Example far_weights : exists links', mdv_mst_find true 2 [mk_link 0 1 0 0; mk_link 0 1 (2 ^ 32 - 1) 0]%Z = Done (1, links') /\ weight <$> tree links' = [2 ^ 32 - 1]%Z.
Proof. eexists. split; vm_compute; reflexivity. Qed.

End MstMin.
