(* ===== verification/Topology.v ===== *)
(** * Network topology (src/mdv_platform/mdv_topology.c)

    A topology is the sequence of its nodes and the sequence of its links, which
    refer to nodes by position.  The vectors of the source are lists here
    ([Vector] proves the correspondence); a hash map is the one of [Hashmap].
    The answers of the allocator are arguments.  A result [OutOfBounds] is a
    null or wild pointer access, [Done None] the null result of a failed call.

    [mdv_qsort] forwards to the C library: it is the parameter [qsort], of which
    only is assumed that it permutes the array and orders it. *)

From S2P Require Import Prelude Uuid Hashmap Rollbacker.
Import Uuid Hashmap Rollbacker.

(** Uuids as keys of a hash map. *)
#[export] Instance uuid_key : HashKey mdv_uuid := {
  hash_fn := mdv_uuid_hash;
  key_cmp_fn := mdv_uuid_cmp
}.

Lemma uuid_keq (a b : mdv_uuid) : keq a b <-> a = b.
Proof. apply mdv_uuid_cmp_eq. Qed.

#[export] Instance uuid_key_ok : HashKeyOk mdv_uuid.
Proof.
  split; [split; intros ?; intros *; rewrite !uuid_keq; congruence|].
  by intros a b ->%uuid_keq.
Qed.

Module Topology.

Record mdv_toponode := mk_node { n_uuid : mdv_uuid; n_id : Z; n_addr : list Z }.

#[global] Instance mdv_toponode_eq_dec : EqDecision mdv_toponode.
Proof. solve_decision. Defined.

Record mdv_topolink := mk_link { node0 : Z; node1 : Z; weight : Z }.

Record mdv_topology := mk_topology {
  t_rc : Z;
  t_nodes : list mdv_toponode;
  t_links : list mdv_topolink;
  t_extradata : list Z
}.

(** The static empty topology (its counter is not used). *)
Definition mdv_empty_topology : mdv_topology := mk_topology 0 [] [] [].

Definition mdv_link_cmp (a b : mdv_topolink) : Z :=
  if (node0 a <? node0 b)%Z then -1
  else if (node0 b <? node0 a)%Z then 1
  else if (node1 a <? node1 b)%Z then -1
  else if (node1 b <? node1 a)%Z then 1
  else 0.

Definition mdv_node_cmp (a b : mdv_toponode) : Z := mdv_uuid_cmp (n_uuid a) (n_uuid b).

Definition mdv_node_equ (a b : mdv_toponode) : bool := (mdv_node_cmp a b =? 0)%Z.

(** [*mdv_vector_at(v, i)], and an array access at a [uint32_t] index. *)
Definition at_ {A} (v : list A) (i : Z) : outcome A :=
  match lookupZ v i with Some x => Done x | None => OutOfBounds i end.

Fixpoint mapO {A B} (f : A -> outcome B) (l : list A) : outcome (list B) :=
  match l with
  | [] => Done []
  | x :: l => y ← f x; ys ← mapO f l; Done (y :: ys)
  end.

(** ** Nodes of a set of links *)

(** [if (!node_idxs[i]) { node_idxs[i] = 42; ++nodes_count; }] *)
Definition mark (st : list Z * nat) (i : Z) : outcome (list Z * nat) :=
  v ← at_ (fst st) i;
  Done (if (v =? 0)%Z then (<[Z.to_nat i := 42%Z]> (fst st), S (snd st)) else st).

Fixpoint mark_loop (links : list mdv_topolink) (st : list Z * nat) : outcome (list Z * nat) :=
  match links with
  | [] => Done st
  | link :: links =>
      st ← mark st (node0 link);
      st ← mark st (node1 link);
      mark_loop links st
  end.

(** The numbering of the marked nodes from [n] on: the indices, the linked nodes
    and the size of their addresses. *)
Fixpoint number_loop (idxs : list Z) (nodes : list mdv_toponode) (n : Z)
  : list Z * list mdv_toponode * nat :=
  match idxs, nodes with
  | v :: idxs, node :: nodes =>
      if (v =? 0)%Z then
        let '(idxs, ns, sz) := number_loop idxs nodes n in (v :: idxs, ns, sz)
      else
        let '(idxs, ns, sz) := number_loop idxs nodes (n + 1) in
        (n :: idxs, node :: ns, length (n_addr node) + 1 + sz)
  | _, _ => (idxs, [], 0)
  end.

Definition relabel (idxs : list Z) (link : mdv_topolink) : outcome mdv_topolink :=
  a ← at_ idxs (node0 link);
  b ← at_ idxs (node1 link);
  Done (mk_link a b (weight link)).

(** The linked nodes, the links with the new positions and [*extrasize]. *)
Definition mdv_topology_linked_nodes (mem_idxs mem_nodes : bool)
    (topolinks : list mdv_topolink) (toponodes : list mdv_toponode)
  : outcome (option (list mdv_toponode * list mdv_topolink * nat)) :=
  match topolinks with
  | [] => Done (if mem_nodes then Some ([], [], 0) else None)
  | _ =>
      if negb mem_idxs then Done None else
      '(idxs, nodes_count) ← mark_loop topolinks (replicate (length toponodes) 0%Z, 0);
      if negb mem_nodes then Done None else
      let '(idxs, linked_nodes, extrasize) := number_loop idxs toponodes 0 in
      links ← mapO (relabel idxs) topolinks;
      Done (Some (linked_nodes, links, extrasize))
  end.

(** The position of a node with the same uuid. *)
Definition find_node (nodes : list mdv_toponode) (node : mdv_toponode) : option nat :=
  fst <$> list_find (fun n => mdv_node_equ n node) nodes.

(** [lnode_idx] of one end of the link and the nodes after a possible
    [mdv_vector_push_back]. *)
Definition append_node (mem : bool) (found : option nat) (nodes : list mdv_toponode) (node : mdv_toponode)
    (extrasize : nat) : option (nat * list mdv_toponode * nat) :=
  match found with
  | Some i => Some (i, nodes, extrasize)
  | None => if mem then Some (length nodes, nodes ++ [node], extrasize + (length (n_addr node) + 1)) else None
  end.

(** [None]: false is returned. *)
Definition mdv_topology_linked_node_append (mem0 mem1 mem_link : bool)
    (topolinks : list mdv_topolink) (toponodes : list mdv_toponode) (extrasize : nat)
    (lnodes : option (mdv_toponode * mdv_toponode)) (lweight : Z)
  : option (list mdv_topolink * list mdv_toponode * nat) :=
  '(ln, rn) ← lnodes;
  let lnode := find_node toponodes ln in
  let rnode := find_node toponodes rn in
  '(lnode_idx, nodes, sz) ← append_node mem0 lnode toponodes ln extrasize;
  '(rnode_idx, nodes, sz) ← append_node mem1 rnode nodes rn sz;
  if mem_link
  then Some (topolinks ++ [mk_link (Z.of_nat lnode_idx) (Z.of_nat rnode_idx) lweight], nodes, sz)
  else None.

(** The addresses of the nodes, each with its final zero. *)
Definition addresses (nodes : list mdv_toponode) : list Z :=
  concat ((fun n => n_addr n ++ [0%Z]) <$> nodes).
#[global] Arguments addresses : simpl never.

(** The appended copies of the addresses. *)
Definition mdv_topology_nodes_extradata (mem : bool) (toponodes : list mdv_toponode) (extrasize : nat)
  : option (list Z) :=
  if extrasize =? 0 then Some []
  else if mem then Some (addresses toponodes)
  else None.

(** ** Undirected links *)

Record mdv_utopolink := mk_ulink { u_node0 : mdv_uuid; u_node1 : mdv_uuid }.

#[global] Instance mdv_utopolink_eq_dec : EqDecision mdv_utopolink.
Proof. solve_decision. Defined.

Definition mdv_uuids_sort (l : mdv_utopolink) : mdv_utopolink :=
  if (mdv_uuid_cmp (u_node0 l) (u_node1 l) <=? 0)%Z then l else mk_ulink (u_node1 l) (u_node0 l).

Definition mdv_utopolink_cmp (a b : mdv_utopolink) : Z :=
  let aa := mdv_uuids_sort a in
  let bb := mdv_uuids_sort b in
  let cmp1 := mdv_uuid_cmp (u_node0 aa) (u_node0 bb) in
  if (cmp1 <? 0)%Z then -1
  else if (0 <? cmp1)%Z then 1
  else
    let cmp2 := mdv_uuid_cmp (u_node1 aa) (u_node1 bb) in
    if (cmp2 <? 0)%Z then -1
    else if (0 <? cmp2)%Z then 1
    else 0.

Definition mdv_utopolink_hash (a : mdv_utopolink) : Z :=
  let aa := mdv_uuids_sort a in
  u64 (mdv_uuid_hash (u_node0 aa) * 37 + mdv_uuid_hash (u_node1 aa)).

#[export] Instance ulink_key : HashKey mdv_utopolink := {
  hash_fn := mdv_utopolink_hash;
  key_cmp_fn := mdv_utopolink_cmp
}.

(** The undirected link of a link of the topology. *)
Definition ulink (nodes : list mdv_toponode) (link : mdv_topolink) : outcome mdv_utopolink :=
  lnode ← at_ nodes (node0 link);
  rnode ← at_ nodes (node1 link);
  Done (mk_ulink (n_uuid lnode) (n_uuid rnode)).

(** [mem i]: the answers for insertion [i]. *)
Fixpoint links_map_loop (mem : nat -> bool * bool) (i : nat) (nodes : list mdv_toponode)
    (links : list mdv_topolink) (blinks : mdv_hashmap mdv_utopolink)
  : outcome (option (mdv_hashmap mdv_utopolink)) :=
  match links with
  | [] => Done (Some blinks)
  | link :: links =>
      l ← ulink nodes link;
      '(r, blinks) ← deref (mdv_hashmap_insert id (mem i).1 (mem i).2 blinks l 16);
      match r with
      | None => Done None
      | Some _ => links_map_loop mem (S i) nodes links blinks
      end
  end.

Definition mdv_topology_links_map (mem_map mem_buckets : bool) (mem : nat -> bool * bool) (t : mdv_topology)
  : outcome (option (mdv_hashmap mdv_utopolink)) :=
  match mdv_hashmap_create mem_map mem_buckets (length (t_links t) * 5 / 3) 0 16 with
  | None => Done None
  | Some blinks => links_map_loop mem 0 (t_nodes t) (t_links t) blinks
  end.

(** ** Creation *)

Record mdv_node_idx := mk_node_idx { ni_id : Z; ni_idx : Z }.

Definition mdv_u32_hash (id : Z) : Z := u32 id.
Definition mdv_u32_cmp (id1 id2 : Z) : Z := i32 (id1 - id2).

Definition u32_key : HashKey Z := {| hash_fn := mdv_u32_hash; key_cmp_fn := mdv_u32_cmp |}.
#[local] Existing Instance u32_key.

Section Create.
Variable qsort : list mdv_toponode -> list mdv_toponode.

(** The positions of a link replaced by the local identifiers of its nodes. *)
Definition link_ids (nodes : list mdv_toponode) (link : mdv_topolink) : outcome mdv_topolink :=
  n0 ← at_ nodes (node0 link);
  n1 ← at_ nodes (node1 link);
  Done (mk_link (n_id n0) (n_id n1) (weight link)).

(** The results of the insertions are not examined. *)
Fixpoint node_idxs_loop (mem : nat -> bool * bool) (n : nat) (nodes : list mdv_toponode)
    (node_idxs : mdv_hashmap mdv_node_idx) : outcome (mdv_hashmap mdv_node_idx) :=
  match nodes with
  | [] => Done node_idxs
  | node :: nodes =>
      '(_, node_idxs) ← deref (mdv_hashmap_insert ni_id (mem n).1 (mem n).2 node_idxs
                                 (mk_node_idx (n_id node) (Z.of_nat n)) 8);
      node_idxs_loop mem (S n) nodes node_idxs
  end.

(** The identifiers replaced by the new positions. *)
Definition link_idxs (node_idxs : mdv_hashmap mdv_node_idx) (link : mdv_topolink) : outcome mdv_topolink :=
  f0 ← deref (mdv_hashmap_find ni_id node_idxs (node0 link));
  f1 ← deref (mdv_hashmap_find ni_id node_idxs (node1 link));
  i0 ← deref f0;
  i1 ← deref f1;
  Done (mk_link (ni_idx i0) (ni_idx i1) (weight link)).

Definition mdv_topology_create (mem mem_map mem_buckets : bool) (mem_insert : nat -> bool * bool)
    (nodes : list mdv_toponode) (links : list mdv_topolink) (extradata : list Z)
  : outcome (option mdv_topology) :=
  if negb mem then Done None else
  match mdv_hashmap_create mem_map mem_buckets (length nodes) 0 4 with
  | None => Done None
  | Some node_idxs =>
      links ← mapO (link_ids nodes) links;
      let nodes := qsort nodes in
      node_idxs ← node_idxs_loop mem_insert 0 nodes node_idxs;
      links ← mapO (link_idxs node_idxs) links;
      Done (Some (mk_topology 1 nodes links extradata))
  end.

(** ** Difference *)

(** The allocator's answers during [mdv_topology_diff]. *)
Record diff_mem := mk_diff_mem {
  dm_rollbacker : bool;
  dm_map : bool; dm_buckets : bool; dm_insert : nat -> bool * bool;
  dm_links : bool; dm_idxs : bool; dm_nodes : bool;
  dm_node0 : bool; dm_node1 : bool; dm_link : bool; dm_extra : bool;
  dm_topology : bool; dm_tmap : bool; dm_tbuckets : bool; dm_tinsert : nat -> bool * bool
}.

Inductive release_fn := Fn_rollbacker_free | Fn_hashmap_release | Fn_vector_release.
Inductive resource := Res_rollbacker | Res_blinks | Res_ab_links | Res_ab_nodes | Res_ab_extradata.

(** The link joins the two given nodes. *)
Definition is_ab (nodea nodeb : mdv_uuid) (lnode rnode : mdv_toponode) : bool :=
  ((mdv_uuid_cmp nodea (n_uuid lnode) =? 0)%Z && (mdv_uuid_cmp nodeb (n_uuid rnode) =? 0)%Z)
  || ((mdv_uuid_cmp nodea (n_uuid rnode) =? 0)%Z && (mdv_uuid_cmp nodeb (n_uuid lnode) =? 0)%Z).

(** The link between the given nodes: its ends and its weight. *)
Abbreviation ab_link := (option (mdv_toponode * mdv_toponode * Z)).

(** The loop over the links of [a]: [ab_links] and the link between the nodes if
    it was met ([ab_link_added]). *)
Fixpoint diff_loop (nodea nodeb : mdv_uuid) (nodes : list mdv_toponode) (blinks : mdv_hashmap mdv_utopolink)
    (links ab_links : list mdv_topolink) (ab : ab_link) : outcome (list mdv_topolink * ab_link) :=
  match links with
  | [] => Done (ab_links, ab)
  | link :: links =>
      lnode ← at_ nodes (node0 link);
      rnode ← at_ nodes (node1 link);
      if (match ab with None => true | Some _ => false end) && is_ab nodea nodeb lnode rnode
      then diff_loop nodea nodeb nodes blinks links (ab_links ++ [link]) (Some (lnode, rnode, weight link))
      else
        found ← deref (mdv_hashmap_find id blinks (mk_ulink (n_uuid lnode) (n_uuid rnode)));
        diff_loop nodea nodeb nodes blinks links
          (match found with None => ab_links ++ [link] | Some _ => ab_links end) ab
  end.

(** The loop over the links of [b] that looks for the link between the nodes. *)
Fixpoint find_ab (nodea nodeb : mdv_uuid) (nodes : list mdv_toponode) (links : list mdv_topolink)
  : outcome ab_link :=
  match links with
  | [] => Done None
  | link :: links =>
      lnode ← at_ nodes (node0 link);
      rnode ← at_ nodes (node1 link);
      if is_ab nodea nodeb lnode rnode then Done (Some (lnode, rnode, weight link))
      else find_ab nodea nodeb nodes links
  end.

Abbreviation rollbacker := (option (mdv_rollbacker release_fn resource)).

Definition push (r : rollbacker) (f : release_fn) (x : resource) : rollbacker :=
  snd (mdv_rollbacker_push r (mk_op f [x])).

(** The end of [mdv_topology_diff], from the nodes of [ab_links] on. *)
Definition diff_finish (m : diff_mem) (rbr : rollbacker) (anodes : list mdv_toponode)
    (ab_links : list mdv_topolink) (ab_link_added : bool) (ab : ab_link)
  : outcome (option mdv_topology * list (release_fn * list resource)) :=
  r ← mdv_topology_linked_nodes (dm_idxs m) (dm_nodes m) ab_links anodes;
  match r with
  | None => Done (None, mdv_rollback rbr)
  | Some (ab_nodes, ab_links, ab_extrasize) =>
      let rbr := push rbr Fn_vector_release Res_ab_nodes in
      let r := if ab_link_added then Some (ab_links, ab_nodes, ab_extrasize)
               else mdv_topology_linked_node_append (dm_node0 m) (dm_node1 m) (dm_link m)
                      ab_links ab_nodes ab_extrasize (fst <$> ab) (default 0%Z (snd <$> ab)) in
      match r with
      | None => Done (None, mdv_rollback rbr)
      | Some (ab_links, ab_nodes, ab_extrasize) =>
          match mdv_topology_nodes_extradata (dm_extra m) ab_nodes ab_extrasize with
          | None => Done (None, mdv_rollback rbr)
          | Some ab_extradata =>
              let rbr := push rbr Fn_vector_release Res_ab_extradata in
              t ← mdv_topology_create (dm_topology m) (dm_tmap m) (dm_tbuckets m) (dm_tinsert m)
                    ab_nodes ab_links ab_extradata;
              Done (t, mdv_rollback rbr)
          end
      end
  end.

Definition mdv_topology_retain (t : mdv_topology) : mdv_topology :=
  mk_topology (rc_retain (t_rc t)) (t_nodes t) (t_links t) (t_extradata t).

(** The result and the calls that release what was acquired. *)
Definition mdv_topology_diff (m : diff_mem) (a : mdv_topology) (nodea : mdv_uuid)
    (b : mdv_topology) (nodeb : mdv_uuid)
  : outcome (option mdv_topology * list (release_fn * list resource)) :=
  match t_links a, t_links b with
  | [], _ => Done (Some mdv_empty_topology, [])
  | _, [] => Done (Some (mdv_topology_retain a), [])
  | _, _ =>
      let rbr := mdv_rollbacker_create (dm_rollbacker m) Fn_rollbacker_free Res_rollbacker 4 in
      blinks ← mdv_topology_links_map (dm_map m) (dm_buckets m) (dm_insert m) b;
      match blinks with
      | None => Done (None, mdv_rollback rbr)
      | Some blinks =>
          let rbr := push rbr Fn_hashmap_release Res_blinks in
          if negb (dm_links m) then Done (None, mdv_rollback rbr) else
          let rbr := push rbr Fn_vector_release Res_ab_links in
          '(ab_links, ab) ← diff_loop nodea nodeb (t_nodes a) blinks (t_links a) [] None;
          let ab_link_added := match ab with Some _ => true | None => false end in
          ab ← (if ab_link_added then Done ab else find_ab nodea nodeb (t_nodes b) (t_links b));
          match ab_links, ab with
          | [], None => Done (Some mdv_empty_topology, mdv_rollback rbr)
          | _, _ => diff_finish m rbr (t_nodes a) ab_links ab_link_added ab
          end
      end
  end.

End Create.

(** The returned count, and the topology unless it is freed; [is_empty] marks
    the static empty topology. *)
Definition mdv_topology_release (is_empty : bool) (t : option mdv_topology) : Z * option mdv_topology :=
  match t with
  | None => (0%Z, None)
  | Some t =>
      if is_empty then (1%Z, Some t)
      else let '(rc, ret, dead) := rc_release (t_rc t) in
           (ret, if dead then None
                 else Some (mk_topology rc (t_nodes t) (t_links t) (t_extradata t)))
  end.

(** ** Neighbours *)

Fixpoint peers_loop (mem : nat -> bool * bool) (i : nat) (nodes : list mdv_toponode) (node : mdv_uuid)
    (links : list mdv_topolink) (peers : mdv_hashmap mdv_uuid) : outcome (option (mdv_hashmap mdv_uuid)) :=
  match links with
  | [] => Done (Some peers)
  | link :: links =>
      lnode ← at_ nodes (node0 link);
      rnode ← at_ nodes (node1 link);
      let peer := if (mdv_uuid_cmp node (n_uuid lnode) =? 0)%Z then Some (n_uuid rnode)
                  else if (mdv_uuid_cmp node (n_uuid rnode) =? 0)%Z then Some (n_uuid lnode)
                  else None in
      match peer with
      | None => peers_loop mem i nodes node links peers
      | Some p =>
          '(r, peers) ← deref (mdv_hashmap_insert id (mem i).1 (mem i).2 peers p 16);
          match r with
          | None => Done None
          | Some _ => peers_loop mem (S i) nodes node links peers
          end
      end
  end.

Definition mdv_topology_peers (mem_map mem_buckets : bool) (mem : nat -> bool * bool)
    (t : mdv_topology) (node : mdv_uuid) : outcome (option (mdv_hashmap mdv_uuid)) :=
  match mdv_hashmap_create mem_map mem_buckets 4 0 16 with
  | None => Done None
  | Some peers => peers_loop mem 0 (t_nodes t) node (t_links t) peers
  end.

(** ** Keys *)

Lemma swrap32_zero z : swrap 32 z = 0%Z <-> (z mod 2 ^ 32 = 0)%Z.
Proof.
  unfold swrap. change (2 ^ (32 - 1))%Z with 2147483648%Z. change (2 ^ 32)%Z with 4294967296%Z.
  Z.to_euclidean_division_equations. lia.
Qed.

Lemma u32_keq (a b : Z) : keq a b <-> u32 a = u32 b.
Proof.
  unfold keq. simpl. unfold mdv_u32_cmp. rewrite swrap32_zero. unfold wrap.
  change (2 ^ 32)%Z with 4294967296%Z. Z.to_euclidean_division_equations. lia.
Qed.

#[local] Instance u32_key_ok : HashKeyOk Z.
Proof.
  split; [split; intros ?; intros *; rewrite !u32_keq; congruence|].
  intros a b Hab%u32_keq. exact Hab.
Qed.

Lemma uuids_sort_cases l :
  mdv_uuids_sort l = l \/ mdv_uuids_sort l = mk_ulink (u_node1 l) (u_node0 l).
Proof. unfold mdv_uuids_sort. destruct (_ <=? 0)%Z; auto. Qed.

Lemma uuids_sort_swap x y : mdv_uuids_sort (mk_ulink x y) = mdv_uuids_sort (mk_ulink y x).
Proof.
  unfold mdv_uuids_sort. simpl. uuid_cases; done.
Qed.

(** The two links have the same ends, in any order. *)
Definition same_ends (a b : mdv_utopolink) : Prop :=
  a = b \/ a = mk_ulink (u_node1 b) (u_node0 b).

#[global] Instance same_ends_dec a b : Decision (same_ends a b).
Proof. unfold same_ends. apply _. Defined.

Lemma utopolink_cmp_sort a b : mdv_utopolink_cmp a b = 0%Z <-> mdv_uuids_sort a = mdv_uuids_sort b.
Proof.
  unfold mdv_utopolink_cmp. destruct (mdv_uuids_sort a) as [a0 a1], (mdv_uuids_sort b) as [b0 b1]. simpl.
  split.
  - destruct (Z.ltb_spec (mdv_uuid_cmp a0 b0) 0); [done|]. destruct (Z.ltb_spec 0 (mdv_uuid_cmp a0 b0)); [done|].
    destruct (Z.ltb_spec (mdv_uuid_cmp a1 b1) 0); [done|]. destruct (Z.ltb_spec 0 (mdv_uuid_cmp a1 b1)); [done|].
    intros _.
    assert (mdv_uuid_cmp a0 b0 = 0%Z) as ->%mdv_uuid_cmp_eq by lia.
    assert (mdv_uuid_cmp a1 b1 = 0%Z) as ->%mdv_uuid_cmp_eq by lia. done.
  - intros [= -> ->]. by rewrite !(proj2 (mdv_uuid_cmp_eq _ _) eq_refl).
Qed.

Lemma ulink_keq a b : keq a b <-> same_ends a b.
Proof.
  unfold keq. simpl. rewrite utopolink_cmp_sort. unfold same_ends. split.
  - destruct (uuids_sort_cases a) as [->| ->], (uuids_sort_cases b) as [->| ->];
      destruct a, b; simpl; intros [= -> ->]; auto.
  - intros [->| ->]; [done|]. destruct b. apply uuids_sort_swap.
Qed.

#[export] Instance ulink_key_ok : HashKeyOk mdv_utopolink.
Proof.
  split.
  - split; unfold keq; simpl; intros ?; intros *; rewrite !utopolink_cmp_sort; congruence.
  - intros a b Hab%utopolink_cmp_sort. simpl. unfold mdv_utopolink_hash. by rewrite Hab.
Qed.

(** ** Links by their nodes *)

Lemma at_Done {A} (v : list A) i x : lookupZ v i = Some x -> at_ v i = Done x.
Proof. unfold at_. by intros ->. Qed.

Lemma mapO_spec {A B} (f : A -> outcome B) (R : A -> B -> Prop) l :
  (forall x, x ∈ l -> exists y, f x = Done y /\ R x y) -> exists ys, mapO f l = Done ys /\ Forall2 R l ys.
Proof.
  induction l as [|x l IH]; intros Hf; [by exists []|].
  destruct (Hf x) as (y & E & Hy); [by left|]. destruct IH as (ys & E' & Hys); [intros; apply Hf; by right|].
  exists (y :: ys). simpl. rewrite E. simpl. rewrite E'. split; [done|by constructor].
Qed.

(** The ends of a link and its weight. *)
Definition resolve (nodes : list mdv_toponode) (l : mdv_topolink) : option (mdv_toponode * mdv_toponode * Z) :=
  n0 ← lookupZ nodes (node0 l);
  n1 ← lookupZ nodes (node1 l);
  Some (n0, n1, weight l).

Definition valid (nodes : list mdv_toponode) (links : list mdv_topolink) : Prop :=
  forall l, l ∈ links -> is_Some (resolve nodes l).

(** Local identifiers are 32-bit and unique. *)
Definition ids_ok (nodes : list mdv_toponode) : Prop :=
  NoDup (n_id <$> nodes) /\ forall n, n ∈ nodes -> fits 32 (n_id n).

Lemma resolve_Some nodes l n0 n1 w :
  resolve nodes l = Some (n0, n1, w) <->
  lookupZ nodes (node0 l) = Some n0 /\ lookupZ nodes (node1 l) = Some n1 /\ weight l = w.
Proof.
  unfold resolve. destruct (lookupZ nodes (node0 l)), (lookupZ nodes (node1 l)); simpl; naive_solver.
Qed.

Lemma lookupZ_elem {A} (l : list A) i x : lookupZ l i = Some x -> x ∈ l.
Proof.
  unfold lookupZ. destruct (i <? 0)%Z; [done|]. apply list_elem_of_lookup_2.
Qed.

Lemma ids_keq nodes x y :
  ids_ok nodes -> x ∈ nodes -> y ∈ nodes -> keq (n_id x) (n_id y) -> n_id x = n_id y.
Proof.
  intros [_ Hf] Hx Hy Hk%u32_keq. rewrite !wrap_id in Hk by auto. done.
Qed.

(** ** Creation *)

(** Every insertion finds memory. *)
Definition all_ok (_ : nat) : bool * bool := (true, true).

Lemma node_idxs_loop_spec all nodes n hm :
  ids_ok all -> (forall x, x ∈ nodes -> x ∈ all) -> NoDup (n_id <$> nodes) -> ready ni_id hm 8 ->
  exists hm', node_idxs_loop all_ok n nodes hm = Done hm' /\ ready ni_id hm' 8
    /\ (forall i x, nodes !! i = Some x ->
         lookup ni_id hm' (n_id x) = Some (mk_node_idx (n_id x) (Z.of_nat (n + i))))
    /\ (forall y, y ∈ all -> n_id y ∉ n_id <$> nodes -> lookup ni_id hm' (n_id y) = lookup ni_id hm (n_id y)).
Proof.
  intros Hok. revert n hm. induction nodes as [|x nodes IH]; intros n hm Hall Hd Hr.
  - exists hm. split_and!; try done.
  - simpl. apply NoDup_cons in Hd as [Hx Hd].
    destruct (insert_ready ni_id hm (mk_node_idx (n_id x) (Z.of_nat n)) 8 Hr) as (hm1 & -> & Hr1 & Hl1 & _).
    cbn [deref mbind outcome_bind].
    destruct (IH (S n) hm1) as (hm' & E & Hr' & Hin & Hout); [intros; apply Hall; by right|done|done|].
    exists hm'. split_and!; [done|done| |].
    + intros [|i] y Hy; simpl in Hy.
      * simplify_eq. rewrite Hout, Hl1; [|apply Hall; by left|done]. simpl.
        destruct (Z.eqb_spec (mdv_u32_cmp (n_id y) (n_id y)) 0) as [_|Hne].
        { by rewrite Nat.add_0_r. }
        destruct Hne. change (keq (n_id y) (n_id y)). reflexivity.
      * rewrite (Hin i y Hy). do 2 f_equal. lia.
    + intros y Hy Hny. apply not_elem_of_cons in Hny as [Hne Hny].
      rewrite Hout, Hl1 by done. simpl.
      destruct (Z.eqb_spec (mdv_u32_cmp (n_id x) (n_id y)) 0) as [Hk|]; [|done]. destruct Hne. symmetry.
      apply (ids_keq all); [done|apply Hall; by left|done|exact Hk].
Qed.

Section CreateSpec.
Variable qsort : list mdv_toponode -> list mdv_toponode.
Hypothesis qsort_perm : forall l, qsort l ≡ₚ l.

(** Creation sorts the nodes and keeps what every link joins. *)
Lemma create_spec nodes links extradata :
  ids_ok nodes -> valid nodes links ->
  exists links', mdv_topology_create qsort true true true all_ok nodes links extradata
      = Done (Some (mk_topology 1 (qsort nodes) links' extradata))
    /\ resolve (qsort nodes) <$> links' = resolve nodes <$> links.
Proof.
  intros Hok Hv. unfold mdv_topology_create. cbn [negb].
  destruct (decide (nodes = [])) as [->|Hne].
  { destruct links as [|l links].
    - exists []. assert (qsort [] = []) as -> by (apply Permutation_nil_r, qsort_perm). done.
    - destruct (Hv l) as [[[n0 n1] w] (H0 & _)%resolve_Some]; [by left|].
      unfold lookupZ in H0. by destruct (node0 l <? 0)%Z. }
  destruct (ready_create ni_id (length nodes) 0 4 8) as (hm & -> & Hr & _); [destruct nodes; simpl; [done|lia]|lia|].
  destruct (mapO_spec (link_ids nodes)
      (fun l l1 => exists n0 n1, resolve nodes l = Some (n0, n1, weight l) /\ l1 = mk_link (n_id n0) (n_id n1) (weight l)) links)
    as (ids & -> & Hids).
  { intros l [[[n0 n1] w] Hl]%Hv. pose proof Hl as (H0 & H1 & <-)%resolve_Some.
    unfold link_ids. rewrite (at_Done _ _ _ H0), (at_Done _ _ _ H1). simpl. eexists. split; [done|]. eauto. }
  cbn [mbind outcome_bind].
  assert (Hsub : forall x, x ∈ qsort nodes <-> x ∈ nodes) by (intros x; by rewrite qsort_perm).
  destruct (node_idxs_loop_spec nodes (qsort nodes) 0 hm) as (hm' & -> & Hr' & Hin & _);
    [done|intros; by apply Hsub|rewrite qsort_perm; apply Hok|done|].
  cbn [mbind outcome_bind].
  assert (Hfind : forall x, x ∈ nodes -> exists i, qsort nodes !! i = Some x /\
            mdv_hashmap_find ni_id hm' (n_id x) = Some (Some (mk_node_idx (n_id x) (Z.of_nat i)))).
  { intros x (i & Hi)%Hsub%list_elem_of_lookup. exists i. split; [done|].
    rewrite find_lookup by apply Hr'. by rewrite (Hin i x Hi). }
  assert (Hlinks : exists links', mapO (link_idxs hm') ids = Done links' /\
            resolve (qsort nodes) <$> links' = resolve nodes <$> links).
  { clear Hv. induction Hids as [|l l1 links ids (n0 & n1 & Hres & ->) _ IH]; [by exists []|].
    destruct IH as (ls & E & Hls). pose proof Hres as (H0 & H1 & _)%resolve_Some.
    destruct (Hfind n0) as (i0 & Hi0 & F0); [by eapply lookupZ_elem|].
    destruct (Hfind n1) as (i1 & Hi1 & F1); [by eapply lookupZ_elem|].
    assert (link_idxs hm' (mk_link (n_id n0) (n_id n1) (weight l))
            = Done (mk_link (Z.of_nat i0) (Z.of_nat i1) (weight l))) as E0.
    { unfold link_idxs. cbn [node0 node1 weight]. rewrite F0, F1. done. }
    eexists. cbn [mapO]. rewrite E0. cbn [mbind outcome_bind]. rewrite E. split; [done|].
    rewrite !fmap_cons, Hls, Hres. f_equal.
    apply resolve_Some. cbn [node0 node1 weight]. by rewrite !lookupZ_nat. }
  destruct Hlinks as (links' & -> & Hl'). cbn [mbind outcome_bind]. by exists links'.
Qed.

End CreateSpec.

(** ** The map of the links *)

(** What a link joins, by uuids. *)
Definition ends (r : mdv_toponode * mdv_toponode * Z) : mdv_utopolink :=
  mk_ulink (n_uuid r.1.1) (n_uuid r.1.2).

Lemma links_map_loop_spec nodes links i hm :
  valid nodes links -> ready id hm 16 ->
  exists hm', links_map_loop all_ok i nodes links hm = Done (Some hm') /\ ready id hm' 16
    /\ forall k, lookup id hm' k <> None <->
         lookup id hm k <> None \/ exists l r, l ∈ links /\ resolve nodes l = Some r /\ same_ends (ends r) k.
Proof.
  revert i hm. induction links as [|l links IH]; intros i hm Hv Hr.
  { exists hm. split_and!; try done. intros k. split; [by left|]. intros [?|(l & r & Hl & _)]; [done|].
    by apply elem_of_nil in Hl. }
  destruct (Hv l) as [[[n0 n1] w] Hl]; [by left|]. pose proof Hl as (H0 & H1 & <-)%resolve_Some.
  cbn [links_map_loop]. unfold ulink. rewrite (at_Done _ _ _ H0), (at_Done _ _ _ H1). cbn [mbind outcome_bind].
  destruct (insert_ready id hm (mk_ulink (n_uuid n0) (n_uuid n1)) 16 Hr) as (hm1 & E & Hr1 & Hl1 & _).
  cbn [all_ok fst snd]. rewrite E. cbn [deref mbind outcome_bind].
  destruct (IH (S i) hm1) as (hm' & E' & Hr' & Hk); [intros l' Hl'; apply Hv; by right|done|].
  exists hm'. split_and!; [done|done|]. intros k. rewrite Hk, Hl1. unfold id at 1.
  destruct (Z.eqb_spec (key_cmp_fn (mk_ulink (n_uuid n0) (n_uuid n1)) k) 0) as [Hq|Hq].
  - apply ulink_keq in Hq. split; [|by left]. intros _. right.
    exists l, (n0, n1, weight l). split_and!; [by left|done|done].
  - split; intros [?|(l' & r & Hl' & Hres & Hs)]; try (by left).
    + right. exists l', r. split_and!; [by right|done|done].
    + apply elem_of_cons in Hl' as [->|Hl']; [|right; eauto].
      rewrite Hl in Hres. simplify_eq. destruct Hq. by apply ulink_keq.
Qed.

Lemma links_map_spec t :
  valid (t_nodes t) (t_links t) -> t_links t <> [] ->
  exists hm, mdv_topology_links_map true true all_ok t = Done (Some hm) /\ wf id hm
    /\ forall k, lookup id hm k <> None <->
         exists l r, l ∈ t_links t /\ resolve (t_nodes t) l = Some r /\ same_ends (ends r) k.
Proof.
  intros Hv Hne. unfold mdv_topology_links_map.
  destruct (ready_create (id : mdv_utopolink -> mdv_utopolink) (length (t_links t) * 5 / 3) 0 16 16) as (hm & -> & Hr & Hl & _); [|lia|].
  { destruct (t_links t); [done|]. simpl length. apply Nat.div_str_pos. lia. }
  destruct (links_map_loop_spec (t_nodes t) (t_links t) 0 hm Hv Hr) as (hm' & E & Hr' & Hk).
  exists hm'. split_and!; [done|apply Hr'|]. intros k. rewrite Hk, Hl. naive_solver.
Qed.

(** ** The nodes of the links *)

(** [i] is the position of a marked node. *)
Definition marked (idxs : list Z) (i : Z) : Prop := exists v, lookupZ idxs i = Some v /\ v <> 0%Z.

Lemma lookupZ_insert {A} (l : list A) i j (x : A) :
  (0 <= i)%Z -> lookupZ (<[Z.to_nat i := x]> l) j =
    if decide (i = j /\ Z.to_nat i < length l) then Some x else lookupZ l j.
Proof.
  intros Hi. unfold lookupZ. destruct (Z.ltb_spec j 0).
  - rewrite decide_False; [done|lia].
  - destruct (decide (i = j)) as [<-|].
    + destruct (decide (Z.to_nat i < length l)).
      * rewrite decide_True by done. by apply list_lookup_insert_eq.
      * rewrite decide_False by tauto. by rewrite list_insert_ge by lia.
    + rewrite decide_False by tauto. apply list_lookup_insert_ne. lia.
Qed.

Lemma mark_spec idxs c i :
  is_Some (lookupZ idxs i) ->
  exists idxs' c', mark (idxs, c) i = Done (idxs', c') /\ length idxs' = length idxs /\ marked idxs' i
    /\ forall j, marked idxs j -> marked idxs' j.
Proof.
  intros [v Hv]. unfold mark. simpl. rewrite (at_Done _ _ _ Hv). simpl.
  pose proof (lookupZ_Some _ _ _ Hv) as Hb. destruct (Z.eqb_spec v 0) as [->|Hne].
  - do 2 eexists. split; [done|]. split; [apply length_insert|]. split.
    + exists 42%Z. rewrite lookupZ_insert, decide_True by lia. done.
    + intros j (w & Hw & Hnz). unfold marked. rewrite lookupZ_insert by lia.
      destruct (decide _); [by exists 42%Z|eauto].
  - do 2 eexists. split; [done|]. split_and!; try done. by exists v.
Qed.

Lemma mark_loop_spec n links idxs c :
  length idxs = n -> (forall l, l ∈ links -> (0 <= node0 l < Z.of_nat n)%Z /\ (0 <= node1 l < Z.of_nat n)%Z) ->
  exists idxs' c', mark_loop links (idxs, c) = Done (idxs', c') /\ length idxs' = n
    /\ (forall j, marked idxs j -> marked idxs' j)
    /\ forall l, l ∈ links -> marked idxs' (node0 l) /\ marked idxs' (node1 l).
Proof.
  revert idxs c. induction links as [|l links IH]; intros idxs c Hn Hl.
  { do 2 eexists. split; [done|]. split_and!; try done. by intros l ?%elem_of_nil. }
  destruct (Hl l) as [B0 B1]; [by left|]. cbn [mark_loop].
  destruct (mark_spec idxs c (node0 l)) as (i1 & c1 & -> & L1 & M1 & K1); [apply lookupZ_is_Some; lia|].
  cbn [mbind outcome_bind].
  destruct (mark_spec i1 c1 (node1 l)) as (i2 & c2 & -> & L2 & M2 & K2); [apply lookupZ_is_Some; lia|].
  cbn [mbind outcome_bind].
  destruct (IH i2 c2) as (idxs' & c' & E & Hlen & Hm & Hml); [lia|intros; apply Hl; by right|].
  exists idxs', c'. split_and!; [done|done|auto|].
  intros l' [->|Hl']%elem_of_cons; [|by apply Hml]. split; apply Hm; auto.
Qed.

Lemma number_loop_spec idxs nodes n :
  length idxs = length nodes ->
  let '(idxs', ns, sz) := number_loop idxs nodes n in
  length idxs' = length idxs /\ sublist ns nodes
  /\ sz = length (addresses ns)
  /\ forall i v x, idxs !! i = Some v -> v <> 0%Z -> nodes !! i = Some x ->
       exists k : nat, idxs' !! i = Some (n + Z.of_nat k)%Z /\ ns !! k = Some x.
Proof.
  revert nodes n. induction idxs as [|v idxs IH]; intros [|x nodes] n Hl; simpl in Hl; try lia.
  { simpl. split_and!; done || apply sublist_nil_l. }
  simpl. destruct (Z.eqb_spec v 0) as [->|Hv].
  - specialize (IH nodes n ltac:(lia)). destruct (number_loop idxs nodes n) as [[i' ns] sz].
    destruct IH as (H1 & H2 & H3 & H4). split_and!; simpl; [lia|by constructor|done|].
    intros [|i] w y Hi Hw Hy; simpl in *; [by simplify_eq|]. eauto.
  - specialize (IH nodes (n + 1)%Z ltac:(lia)). destruct (number_loop idxs nodes (n + 1)) as [[i' ns] sz].
    destruct IH as (H1 & H2 & H3 & H4). split_and!; simpl; [lia|by constructor| |].
    + unfold addresses. rewrite fmap_cons. cbn [concat]. fold (addresses ns). rewrite !length_app. simpl. lia.
    + intros [|i] w y Hi Hw Hy; simpl in *.
      * simplify_eq. exists 0. split; [f_equal; lia|done].
      * destruct (H4 i w y Hi Hw Hy) as (k & Hk & Hn). exists (S k). split; [|done].
        rewrite Hk. f_equal. lia.
Qed.

(** The nodes that the links use, and the links over them. *)
Lemma linked_nodes_spec links nodes :
  valid nodes links ->
  exists ns links' sz, mdv_topology_linked_nodes true true links nodes = Done (Some (ns, links', sz))
    /\ sublist ns nodes /\ resolve ns <$> links' = resolve nodes <$> links
    /\ sz = length (addresses ns).
Proof.
  intros Hv. unfold mdv_topology_linked_nodes. destruct links as [|l0 links0] eqn:El.
  { exists [], [], 0. split_and!; done || apply sublist_nil_l. }
  rewrite <- El in *. clear El l0 links0. cbn [negb].
  assert (Hb : forall l, l ∈ links -> (0 <= node0 l < Z.of_nat (length nodes))%Z /\ (0 <= node1 l < Z.of_nat (length nodes))%Z).
  { intros l [[[n0 n1] w] (H0 & H1 & _)%resolve_Some]%Hv. split; by eapply lookupZ_Some. }
  destruct (mark_loop_spec (length nodes) links (replicate (length nodes) 0%Z) 0) as (idxs & c & -> & Hlen & _ & Hm);
    [apply length_replicate|done|].
  cbn [mbind outcome_bind].
  pose proof (number_loop_spec idxs nodes 0 Hlen) as Hn.
  destruct (number_loop idxs nodes 0) as [[idxs' ns] sz]. destruct Hn as (_ & Hsub & Hsz & Hnum).
  assert (Hnode : forall i x, lookupZ nodes i = Some x -> marked idxs i ->
            exists j, lookupZ idxs' i = Some j /\ lookupZ ns j = Some x).
  { intros i x Hx (v & Hi & Hnz). pose proof (lookupZ_Some _ _ _ Hx) as Hbi. unfold lookupZ in *.
    destruct (Z.ltb_spec i 0); [lia|]. destruct (Hnum _ v x Hi Hnz Hx) as (k & Hk & Hkx).
    exists (Z.of_nat k). split; [done|]. destruct (Z.ltb_spec (Z.of_nat k) 0); [lia|]. by rewrite Nat2Z.id. }
  destruct (mapO_spec (relabel idxs') (fun l l' => resolve ns l' = resolve nodes l) links) as (ls & -> & Hls).
  { intros l Hl. destruct (Hv l Hl) as [[[n0 n1] w] Hr]. pose proof Hr as (H0 & H1 & <-)%resolve_Some.
    destruct (Hm l Hl) as [M0 M1]. destruct (Hnode _ _ H0 M0) as (j0 & J0 & X0).
    destruct (Hnode _ _ H1 M1) as (j1 & J1 & X1). unfold relabel.
    rewrite (at_Done _ _ _ J0), (at_Done _ _ _ J1). eexists. split; [done|]. rewrite Hr. by apply resolve_Some. }
  cbn [mbind outcome_bind]. exists ns, ls, sz. split_and!; try done.
  clear -Hls. induction Hls; [done|]. simpl. by f_equal.
Qed.

(** ** Appending the link between the two nodes *)

Lemma node_equ_true a b : mdv_node_equ a b = true <-> n_uuid a = n_uuid b.
Proof. unfold mdv_node_equ, mdv_node_cmp. rewrite Z.eqb_eq. apply mdv_uuid_cmp_eq. Qed.

Lemma find_node_spec nodes x :
  match find_node nodes x with
  | Some i => exists y, nodes !! i = Some y /\ n_uuid y = n_uuid x
  | None => forall y, y ∈ nodes -> n_uuid y <> n_uuid x
  end.
Proof.
  unfold find_node. destruct (list_find _ nodes) as [[i y]|] eqn:E; simpl.
  - apply list_find_Some in E as (Hy & He%Is_true_true & _). exists y. split; [done|]. by apply node_equ_true.
  - apply list_find_None in E. rewrite Forall_forall in E. intros y Hy He.
    apply (E y Hy). apply Is_true_true. by apply node_equ_true.
Qed.

Lemma lookupZ_app_l {A} (l k : list A) i x : lookupZ l i = Some x -> lookupZ (l ++ k) i = Some x.
Proof. unfold lookupZ. destruct (i <? 0)%Z; [done|]. apply lookup_app_l_Some. Qed.

Lemma resolve_app nodes extra l r : resolve nodes l = Some r -> resolve (nodes ++ extra) l = Some r.
Proof.
  destruct r as [[n0 n1] w]. rewrite !resolve_Some. intros (H0 & H1 & <-). split_and!; auto using lookupZ_app_l.
Qed.

Lemma addresses_app l k : addresses (l ++ k) = addresses l ++ addresses k.
Proof. unfold addresses. by rewrite fmap_app, concat_app. Qed.

Lemma append_node_spec nodes all x sz :
  let f := find_node nodes x in
  exists i extra, append_node true f (nodes ++ all) x sz
      = Some (i, (nodes ++ all) ++ extra, sz + length (addresses extra))
    /\ (extra = [] \/ extra = [x] /\ forall y, y ∈ nodes -> n_uuid y <> n_uuid x)
    /\ exists y, ((nodes ++ all) ++ extra) !! i = Some y /\ n_uuid y = n_uuid x.
Proof.
  intros f. unfold append_node. pose proof (find_node_spec nodes x) as Hf. fold f in Hf.
  destruct f as [i|].
  - destruct Hf as (y & Hy & He). exists i, []. rewrite app_nil_r. split_and!; [f_equal; f_equal; simpl; lia|by left|].
    exists y. split; [|done]. by apply lookup_app_l_Some.
  - exists (length (nodes ++ all)), [x]. split_and!.
    + f_equal. f_equal. unfold addresses. simpl. rewrite app_nil_r, length_app. done.
    + by right.
    + exists x. split; [|done]. by rewrite lookup_app_r, Nat.sub_diag by lia.
Qed.

Lemma linked_node_append_spec links nodes sz ln rn w :
  exists extra lk, mdv_topology_linked_node_append true true true links nodes sz (Some (ln, rn)) w
      = Some (links ++ [lk], nodes ++ extra, sz + length (addresses extra))
    /\ sublist extra [ln; rn]
    /\ (forall x y, x ∈ extra -> y ∈ nodes -> n_uuid y <> n_uuid x)
    /\ exists x y, resolve (nodes ++ extra) lk = Some (x, y, w) /\ n_uuid x = n_uuid ln /\ n_uuid y = n_uuid rn.
Proof.
  unfold mdv_topology_linked_node_append. simpl.
  destruct (append_node_spec nodes [] ln sz) as (i & e1 & E1 & H1 & x & Hx & Ux). rewrite app_nil_r in *.
  rewrite E1. simpl.
  destruct (append_node_spec nodes e1 rn (sz + length (addresses e1))) as (j & e2 & E2 & H2 & y & Hy & Uy).
  rewrite E2. simpl. exists (e1 ++ e2). rewrite (assoc_L (++)), addresses_app, length_app, Nat.add_assoc.
  eexists. split; [done|]. split_and!.
  - change [ln; rn] with ([ln] ++ [rn]).
    apply sublist_app; [destruct H1 as [->|[-> _]]|destruct H2 as [->|[-> _]]]; done || apply sublist_nil_l.
  - intros z u [Hz|Hz]%elem_of_app Hu.
    + destruct H1 as [->|[-> Hn]]; [by apply elem_of_nil in Hz|]. apply list_elem_of_singleton in Hz as ->. by apply Hn.
    + destruct H2 as [->|[-> Hn]]; [by apply elem_of_nil in Hz|]. apply list_elem_of_singleton in Hz as ->. by apply Hn.
  - exists x, y. split; [|done]. apply resolve_Some. simpl. rewrite !lookupZ_nat. split_and!; [|done|done].
    by apply lookup_app_l_Some.
Qed.

(** ** The loops of the difference *)

Lemma is_ab_true na nb n0 n1 w :
  is_ab na nb n0 n1 = true <-> same_ends (mk_ulink na nb) (ends (n0, n1, w)).
Proof.
  unfold is_ab, same_ends, ends. simpl. rewrite orb_true_iff, !andb_true_iff, !Z.eqb_eq, !mdv_uuid_cmp_eq.
  naive_solver.
Qed.

(** The link joins the nodes [na] and [nb]. *)
Definition joins (na nb : mdv_uuid) (nodes : list mdv_toponode) (l : mdv_topolink) : Prop :=
  exists r, resolve nodes l = Some r /\ same_ends (mk_ulink na nb) (ends r).

(** The undirected link [k] is among the links. *)
Definition in_links (nodes : list mdv_toponode) (links : list mdv_topolink) (k : mdv_utopolink) : bool :=
  existsb (fun l => match resolve nodes l with
                    | Some r => bool_decide (same_ends (ends r) k)
                    | None => false
                    end) links.

(** The links of [a] that [b] does not have. *)
Definition fresh (a b : mdv_topology) (l : mdv_topolink) : Prop :=
  match resolve (t_nodes a) l with Some r => in_links (t_nodes b) (t_links b) (ends r) = false | None => False end.

#[global] Instance fresh_dec a b l : Decision (fresh a b l).
Proof. unfold fresh. destruct (resolve _ l); apply _. Defined.

Lemma in_links_true nodes links k :
  in_links nodes links k = true <->
  exists l r, l ∈ links /\ resolve nodes l = Some r /\ same_ends (ends r) k.
Proof.
  unfold in_links. rewrite existsb_exists. split.
  - intros (l & Hl%list_elem_of_In & H). destruct (resolve nodes l) as [r|] eqn:E; [|done].
    apply bool_decide_eq_true in H. eauto.
  - intros (l & r & Hl%list_elem_of_In & E & H). exists l. split; [done|]. rewrite E. by apply bool_decide_eq_true.
Qed.

Section DiffLoop.
Variables (a b : mdv_topology) (na nb : mdv_uuid) (blinks : mdv_hashmap mdv_utopolink).
Hypothesis blinks_wf : wf id blinks.
Hypothesis blinks_b : forall k, lookup id blinks k <> None <->
  exists l r, l ∈ t_links b /\ resolve (t_nodes b) l = Some r /\ same_ends (ends r) k.

Lemma blinks_in k : match lookup id blinks k with Some _ => true | None => false end = in_links (t_nodes b) (t_links b) k.
Proof.
  apply eq_bool_prop_intro. rewrite !Is_true_true, in_links_true, <- blinks_b.
  by destruct (lookup id blinks k).
Qed.

(** One link of [a]. *)
Lemma diff_loop_step l links acc ab r :
  resolve (t_nodes a) l = Some r ->
  diff_loop na nb (t_nodes a) blinks (l :: links) acc ab =
    if (match ab with None => true | Some _ => false end) && is_ab na nb r.1.1 r.1.2
    then diff_loop na nb (t_nodes a) blinks links (acc ++ [l]) (Some (r.1.1, r.1.2, weight l))
    else diff_loop na nb (t_nodes a) blinks links
           (if decide (fresh a b l) then acc ++ [l] else acc) ab.
Proof.
  destruct r as [[n0 n1] w]. intros Hr. pose proof Hr as (H0 & H1 & Hw)%resolve_Some.
  cbn [diff_loop]. rewrite (at_Done _ _ _ H0), (at_Done _ _ _ H1). cbn [mbind outcome_bind fst snd].
  destruct (_ && _); [done|]. rewrite find_lookup by done. cbn [deref mbind outcome_bind].
  pose proof (blinks_in (mk_ulink (n_uuid n0) (n_uuid n1))) as Hb.
  assert (Hf : fresh a b l <-> in_links (t_nodes b) (t_links b) (mk_ulink (n_uuid n0) (n_uuid n1)) = false).
  { unfold fresh. by rewrite Hr. }
  rewrite <- Hb in Hf. destruct (lookup id blinks _); case_decide as Hd; rewrite Hf in Hd; done || by destruct Hd.
Qed.

Lemma filter_snoc_acc {A} (P : A -> Prop) `{!forall x, Decision (P x)} acc l links :
  (if decide (P l) then acc ++ [l] else acc) ++ filter P links = acc ++ filter P (l :: links).
Proof. rewrite filter_cons. case_decide; [by rewrite <- (assoc_L (++))|done]. Qed.

(** Once the link between the nodes was met, or when there is none. *)
Lemma diff_loop_plain links acc ab :
  valid (t_nodes a) links -> ab <> None \/ (forall l, l ∈ links -> ~ joins na nb (t_nodes a) l) ->
  diff_loop na nb (t_nodes a) blinks links acc ab = Done (acc ++ filter (fresh a b) links, ab).
Proof.
  revert acc. induction links as [|l links IH]; intros acc Hv Hab; [by rewrite app_nil_r|].
  destruct (Hv l) as [[[n0 n1] w] Hr]; [by left|]. rewrite (diff_loop_step _ _ _ _ _ Hr). cbn [fst snd].
  assert ((match ab with None => true | Some _ => false end) && is_ab na nb n0 n1 = false) as ->.
  { destruct ab; [done|]. destruct Hab as [|Hab]; [done|]. simpl.
    destruct (is_ab na nb n0 n1) eqn:E; [|done]. exfalso. apply (Hab l); [by left|].
    exists (n0, n1, w). split; [done|]. by apply is_ab_true. }
  rewrite IH, filter_snoc_acc; [done|intros l' ?; apply Hv; by right|].
  destruct Hab as [|Hab]; [by left|]. right. intros l' Hl'. apply Hab. by right.
Qed.

Lemma diff_loop_first l1 l l2 acc r :
  valid (t_nodes a) (l1 ++ l :: l2) -> (forall x, x ∈ l1 -> ~ joins na nb (t_nodes a) x) ->
  resolve (t_nodes a) l = Some r -> same_ends (mk_ulink na nb) (ends r) ->
  diff_loop na nb (t_nodes a) blinks (l1 ++ l :: l2) acc None
  = Done (acc ++ filter (fresh a b) l1 ++ l :: filter (fresh a b) l2, Some (r.1.1, r.1.2, weight l)).
Proof.
  revert acc. induction l1 as [|x l1 IH]; intros acc Hv Hno Hr Hs.
  - simpl app. rewrite (diff_loop_step _ _ _ _ _ Hr). destruct r as [[n0 n1] w]. simpl.
    rewrite (proj2 (is_ab_true na nb n0 n1 w)) by done.
    rewrite diff_loop_plain by ((intros x Hx; apply Hv; by right) || by left).
    by rewrite <- (assoc_L (++)).
  - destruct (Hv x) as [[[n0 n1] w] Hx]; [by left|]. simpl app. rewrite (diff_loop_step _ _ _ _ _ Hx). simpl.
    destruct (is_ab na nb n0 n1) eqn:E.
    { exfalso. apply (Hno x); [by left|]. exists (n0, n1, w). split; [done|]. by apply is_ab_true. }
    rewrite IH; [|intros y Hy; apply Hv; by right|intros y Hy; apply Hno; by right|done|done].
    by rewrite (assoc_L (++)), filter_snoc_acc, <- (assoc_L (++)).
Qed.

End DiffLoop.

Lemma find_ab_first na nb nodes l1 l l2 r :
  valid nodes (l1 ++ l :: l2) -> (forall x, x ∈ l1 -> ~ joins na nb nodes x) ->
  resolve nodes l = Some r -> same_ends (mk_ulink na nb) (ends r) ->
  find_ab na nb nodes (l1 ++ l :: l2) = Done (Some r).
Proof.
  intros Hv Hno Hr Hs. induction l1 as [|x l1 IH].
  - destruct r as [[n0 n1] w]. pose proof Hr as (H0 & H1 & Hw)%resolve_Some. simpl.
    rewrite (at_Done _ _ _ H0), (at_Done _ _ _ H1). simpl.
    rewrite (proj2 (is_ab_true na nb n0 n1 w)) by done. by rewrite Hw.
  - destruct (Hv x) as [[[n0 n1] w] Hx]; [by left|]. pose proof Hx as (H0 & H1 & Hw)%resolve_Some. simpl.
    rewrite (at_Done _ _ _ H0), (at_Done _ _ _ H1). simpl. destruct (is_ab na nb n0 n1) eqn:E.
    { exfalso. apply (Hno x); [by left|]. exists (n0, n1, w). split; [done|]. by apply is_ab_true. }
    apply IH; [intros y Hy; apply Hv; by right|intros y Hy; apply Hno; by right].
Qed.

(** ** The difference *)

(** A link as a pair of uuids and a weight. *)
Definition view (nodes : list mdv_toponode) (l : mdv_topolink) : option (mdv_utopolink * Z) :=
  (fun r => (ends r, r.2)) <$> resolve nodes l.

Definition topo_ok (t : mdv_topology) : Prop :=
  ids_ok (t_nodes t) /\ valid (t_nodes t) (t_links t).

(** Nodes of the two topologies with the same local identifier are the same node. *)
Definition consistent (a b : mdv_topology) : Prop :=
  forall x y, x ∈ t_nodes a -> y ∈ t_nodes b -> n_id x = n_id y -> n_uuid x = n_uuid y.

(** Every allocation succeeds. *)
Definition mem_ok : diff_mem :=
  mk_diff_mem true true true all_ok true true true true true true true true true true all_ok.

(** What a successful call releases: everything it acquired, once. *)
Definition all_released : list (release_fn * list resource) :=
  [(Fn_vector_release, [Res_ab_extradata]); (Fn_vector_release, [Res_ab_nodes]);
   (Fn_vector_release, [Res_ab_links]); (Fn_hashmap_release, [Res_blinks]);
   (Fn_rollbacker_free, [Res_rollbacker])].

Lemma valid_sub nodes links links' : (forall l, l ∈ links' -> l ∈ links) -> valid nodes links -> valid nodes links'.
Proof. intros Hs Hv l Hl. by apply Hv, Hs. Qed.

Lemma view_resolve nodes (links : list mdv_topolink) nodes' (links' : list mdv_topolink) :
  resolve nodes' <$> links' = resolve nodes <$> links -> view nodes' <$> links' = view nodes <$> links.
Proof.
  intros E. unfold view.
  change (fun l => (fun r => (ends r, r.2)) <$> resolve nodes' l) with (fmap (fun r => (ends r, r.2)) ∘ resolve nodes').
  change (fun l => (fun r => (ends r, r.2)) <$> resolve nodes l) with (fmap (fun r => (ends r, r.2)) ∘ resolve nodes).
  by rewrite !list_fmap_compose, E.
Qed.

Lemma valid_resolve nodes (links : list mdv_topolink) nodes' (links' : list mdv_topolink) :
  resolve nodes' <$> links' = resolve nodes <$> links -> valid nodes links -> valid nodes' links'.
Proof.
  intros E Hv l' (i & Hi)%list_elem_of_lookup.
  assert (H : (resolve nodes' <$> links') !! i = Some (resolve nodes' l')) by (rewrite list_lookup_fmap, Hi; done).
  rewrite E, list_lookup_fmap in H. apply fmap_Some in H as (l & Hl & ->).
  apply Hv. by eapply list_elem_of_lookup_2.
Qed.

Lemma ids_ok_sublist ns nodes : sublist ns nodes -> ids_ok nodes -> ids_ok ns.
Proof.
  intros Hs [Hd Hf]. split.
  - eapply sublist_NoDup; [exact Hd|by apply fmap_sublist].
  - intros n Hn. apply Hf. by eapply elem_of_sublist.
Qed.

Lemma extradata_spec ns : mdv_topology_nodes_extradata true ns (length (addresses ns)) = Some (addresses ns).
Proof.
  unfold mdv_topology_nodes_extradata. destruct (Nat.eqb_spec (length (addresses ns)) 0) as [E|]; [|done].
  by apply nil_length_inv in E as ->.
Qed.

Section Diff.
Variable qsort : list mdv_toponode -> list mdv_toponode.
Hypothesis qsort_perm : forall l, qsort l ≡ₚ l.

Definition rbr2 : option (mdv_rollbacker release_fn resource) :=
  push (push (mdv_rollbacker_create true Fn_rollbacker_free Res_rollbacker 4) Fn_hashmap_release Res_blinks)
    Fn_vector_release Res_ab_links.

Lemma diff_finish_added nodes links ab :
  ids_ok nodes -> valid nodes links ->
  exists d, diff_finish qsort mem_ok rbr2 nodes links true ab = Done (Some d, all_released)
    /\ view (t_nodes d) <$> t_links d = view nodes <$> links
    /\ exists ns, t_nodes d = qsort ns /\ sublist ns nodes /\ t_extradata d = addresses ns.
Proof.
  intros Hok Hv. unfold diff_finish. cbn [mem_ok dm_idxs dm_nodes].
  destruct (linked_nodes_spec links nodes Hv) as (ns & ls & sz & -> & Hsub & Hres & ->).
  cbn [mbind outcome_bind mem_ok dm_extra]. rewrite extradata_spec.
  cbn [mem_ok dm_topology dm_tmap dm_tbuckets dm_tinsert].
  destruct (create_spec qsort qsort_perm ns ls (addresses ns)) as (ls' & E & Hr).
  { by eapply ids_ok_sublist. }
  { by eapply valid_resolve. }
  rewrite E. cbn [mbind outcome_bind]. eexists. split; [reflexivity|]. simpl. split.
  - apply view_resolve. by rewrite Hr, Hres.
  - by exists ns.
Qed.

Lemma ids_ok_append a b ns extra ln rn :
  topo_ok a -> topo_ok b -> consistent a b -> sublist ns (t_nodes a) ->
  ln ∈ t_nodes b -> rn ∈ t_nodes b -> n_uuid ln <> n_uuid rn -> sublist extra [ln; rn] ->
  (forall x y, x ∈ extra -> y ∈ ns -> n_uuid y <> n_uuid x) -> ids_ok (ns ++ extra).
Proof.
  intros [Ha _] [[Hbd Hbf] _] Hc Hns Hl Hr Hne Hex Hnew.
  destruct (ids_ok_sublist _ _ Hns Ha) as [Hd Hf].
  assert (Hb : forall x, x ∈ extra -> x ∈ t_nodes b).
  { intros x Hx. assert (x ∈ [ln; rn]) as [->|[->|?%elem_of_nil]%elem_of_cons]%elem_of_cons by (by eapply elem_of_sublist); done. }
  assert (Hid : n_id ln <> n_id rn).
  { intros E. destruct Hne. apply list_elem_of_lookup in Hl as [i Hi]. apply list_elem_of_lookup in Hr as [j Hj].
    assert (i = j) as ->; [|congruence]. eapply (NoDup_lookup (n_id <$> t_nodes b)); [done|..]; rewrite list_lookup_fmap.
    - by rewrite Hi.
    - rewrite Hj. simpl. by rewrite E. }
  split.
  - rewrite fmap_app. apply NoDup_app. split_and!; [done| |].
    + intros i (y & -> & Hy)%list_elem_of_fmap (x & E & Hx)%list_elem_of_fmap.
      apply (Hnew x y Hx Hy). apply (Hc y x); [by eapply elem_of_sublist|auto|done].
    + eapply sublist_NoDup; [|by apply fmap_sublist]. simpl. apply NoDup_cons.
      split; [|apply NoDup_singleton]. intros E%list_elem_of_singleton. done.
  - intros n [?|Hx]%elem_of_app; auto.
Qed.

Lemma diff_finish_append a b links ln rn w :
  topo_ok a -> topo_ok b -> consistent a b -> valid (t_nodes a) links ->
  ln ∈ t_nodes b -> rn ∈ t_nodes b -> n_uuid ln <> n_uuid rn ->
  exists d, diff_finish qsort mem_ok rbr2 (t_nodes a) links false (Some (ln, rn, w)) = Done (Some d, all_released)
    /\ view (t_nodes d) <$> t_links d
       = (view (t_nodes a) <$> links) ++ [Some (mk_ulink (n_uuid ln) (n_uuid rn), w)]
    /\ exists ns, t_nodes d = qsort ns /\ t_extradata d = addresses ns.
Proof.
  intros Ha Hb Hc Hv Hl Hr Hne. unfold diff_finish. cbn [mem_ok dm_idxs dm_nodes].
  destruct (linked_nodes_spec links (t_nodes a) Hv) as (ns & ls & sz & -> & Hsub & Hres & ->).
  cbn [mbind outcome_bind mem_ok dm_node0 dm_node1 dm_link fmap option_fmap option_map fst snd default].
  destruct (linked_node_append_spec ls ns (length (addresses ns)) ln rn w)
    as (extra & lk & E & Hex & Hnew & x & y & Hlk & Ux & Uy).
  change (id w) with w. rewrite E. cbn [mem_ok dm_extra]. rewrite <- length_app, <- addresses_app, extradata_spec.
  cbn [mem_ok dm_topology dm_tmap dm_tbuckets dm_tinsert].
  destruct (create_spec qsort qsort_perm (ns ++ extra) (ls ++ [lk]) (addresses (ns ++ extra))) as (ls' & E' & Hr').
  { by apply (ids_ok_append a b ns extra ln rn). }
  { intros l [Hl'|Hl']%elem_of_app.
    - destruct (valid_resolve _ _ _ _ Hres Hv l Hl') as [r Hr0]. exists r. by apply resolve_app.
    - apply list_elem_of_singleton in Hl' as ->. eauto. }
  rewrite E'. cbn [mbind outcome_bind]. eexists. split; [reflexivity|]. simpl. split; [|by eexists].
  rewrite (view_resolve _ _ _ _ Hr'), fmap_app. f_equal.
  - rewrite <- (view_resolve _ _ _ _ Hres). apply list_fmap_ext. intros i l Hi.
    destruct (valid_resolve _ _ _ _ Hres Hv l) as [r Hr0]; [by eapply list_elem_of_lookup_2|].
    unfold view. by rewrite Hr0, (resolve_app _ _ _ _ Hr0).
  - simpl. unfold view. rewrite Hlk. unfold ends. simpl. by rewrite Ux, Uy.
Qed.

(** C28: the difference of two topologies.  With memory, for topologies whose local
    identifiers are unique and agree between the two, the result holds exactly
    the links of [a] that [b] does not have (the direction of a link does not
    matter), in their order, and the link between the two given nodes: the first
    such link of [a] where it stands, or, if [a] has none, the one of [b] at the
    end.  Every vector and map the call acquired is released once, and the buffer
    of the addresses has exactly the size that was computed for it. *)
Theorem mdv_topology_diff_correct a na b nb :
  topo_ok a -> topo_ok b -> consistent a b -> na <> nb -> t_links a <> [] -> t_links b <> [] ->
  (forall l1 l l2, t_links a = l1 ++ l :: l2 -> joins na nb (t_nodes a) l ->
     (forall x, x ∈ l1 -> ~ joins na nb (t_nodes a) x) ->
     exists d, mdv_topology_diff qsort mem_ok a na b nb = Done (Some d, all_released)
       /\ view (t_nodes d) <$> t_links d
          = view (t_nodes a) <$> (filter (fresh a b) l1 ++ l :: filter (fresh a b) l2)
       /\ exists ns, t_nodes d = qsort ns /\ t_extradata d = addresses ns)
  /\ (forall m1 m m2, (forall x, x ∈ t_links a -> ~ joins na nb (t_nodes a) x) ->
     t_links b = m1 ++ m :: m2 -> joins na nb (t_nodes b) m ->
     (forall x, x ∈ m1 -> ~ joins na nb (t_nodes b) x) ->
     exists d, mdv_topology_diff qsort mem_ok a na b nb = Done (Some d, all_released)
       /\ view (t_nodes d) <$> t_links d
          = (view (t_nodes a) <$> filter (fresh a b) (t_links a)) ++ [view (t_nodes b) m]
       /\ exists ns, t_nodes d = qsort ns /\ t_extradata d = addresses ns).
Proof.
  intros Ha Hb Hc Hne Hla Hlb. pose proof Ha as [Ha1 Ha2]. pose proof Hb as [Hb1 Hb2].
  destruct (links_map_spec b Hb2 Hlb) as (hm & Em & Hwf & Hm).
  assert (E0 : mdv_topology_diff qsort mem_ok a na b nb =
    ('(ab_links, ab) ← diff_loop na nb (t_nodes a) hm (t_links a) [] None;
     let added := match ab with Some _ => true | None => false end in
     ab ← (if added then Done ab else find_ab na nb (t_nodes b) (t_links b));
     match ab_links, ab with
     | [], None => Done (Some mdv_empty_topology, mdv_rollback rbr2)
     | _, _ => diff_finish qsort mem_ok rbr2 (t_nodes a) ab_links added ab
     end)).
  { unfold mdv_topology_diff. destruct (t_links a) eqn:Ea; [done|]. destruct (t_links b) eqn:Eb; [done|].
    cbn [mem_ok dm_map dm_buckets dm_insert]. rewrite Em. reflexivity. }
  rewrite E0. split.
  - intros l1 l l2 El (r & Hr & Hs) Hno. rewrite El in Ha2 |- *.
    rewrite (diff_loop_first a b na nb hm Hwf Hm l1 l l2 [] r) by done. cbn [mbind outcome_bind app].
    destruct (diff_finish_added (t_nodes a) (filter (fresh a b) l1 ++ l :: filter (fresh a b) l2)
                (Some (r.1.1, r.1.2, weight l))) as (d & E & Hv & ns & Hns & _ & Hx); [done| |].
    { eapply valid_sub; [|exact Ha2]. intros x. rewrite !elem_of_app, !elem_of_cons, !list_elem_of_filter. tauto. }
    rewrite E. exists d. split; [by destruct (filter (fresh a b) l1)|]. split; [done|eauto].
  - intros m1 m m2 Hno El (r & Hr & Hs) Hnob.
    rewrite (diff_loop_plain a b na nb hm Hwf Hm) by (done || by right). cbn [mbind outcome_bind app].
    rewrite El in Hb2 |- *. rewrite (find_ab_first na nb (t_nodes b) m1 m m2 r) by done. cbn [mbind outcome_bind].
    destruct r as [[ln rn] w]. pose proof Hr as (H0 & H1 & Hw)%resolve_Some.
    destruct (diff_finish_append a b (filter (fresh a b) (t_links a)) ln rn w) as (d & E & Hv & Hns); try done.
    { eapply valid_sub; [|exact Ha2]. intros x. rewrite list_elem_of_filter. tauto. }
    { by eapply lookupZ_elem. }
    { by eapply lookupZ_elem. }
    { destruct Hs as [Hs|Hs]; unfold ends in Hs; simpl in Hs; intros ?; simplify_eq; congruence. }
    rewrite E. exists d. split; [by destruct (filter (fresh a b) (t_links a))|]. split; [|done].
    rewrite Hv. unfold view at 3. by rewrite Hr.
Qed.

End Diff.

(** ** Creation and neighbours *)

Definition node_le (a b : mdv_toponode) : Prop := (mdv_node_cmp a b <= 0)%Z.

#[global] Instance node_le_dec a b : Decision (node_le a b).
Proof. unfold node_le. apply _. Defined.

(** creation.  If the local identifiers are unique and the links refer to
    nodes, then with memory the new topology has the nodes in the order of their
    uuids and its links, renumbered, join the same nodes with the same weights
    in the same order.  Without memory for the topology or the index the result
    is null. *)
Theorem mdv_topology_create_correct qsort nodes links extradata :
  (forall l, qsort l ≡ₚ l) -> (forall l, Sorted node_le (qsort l)) ->
  ids_ok nodes -> valid nodes links ->
  (exists links', mdv_topology_create qsort true true true all_ok nodes links extradata
      = Done (Some (mk_topology 1 (qsort nodes) links' extradata))
    /\ resolve (qsort nodes) <$> links' = resolve nodes <$> links
    /\ qsort nodes ≡ₚ nodes /\ Sorted node_le (qsort nodes))
  /\ (forall mb mi, mdv_topology_create qsort true false mb mi nodes links extradata = Done None)
  /\ (forall mm mb mi, mdv_topology_create qsort false mm mb mi nodes links extradata = Done None).
Proof.
  intros Hp Hs Hok Hv. split; [|split; done].
  destruct (create_spec qsort Hp nodes links extradata Hok Hv) as (links' & E & Hr).
  exists links'. split_and!; [exact E|exact Hr|apply Hp|apply Hs].
Qed.

(** The uuid at the other end of a link of [node]. *)
Definition neighbour (nodes : list mdv_toponode) (links : list mdv_topolink) (node p : mdv_uuid) : Prop :=
  exists l r, l ∈ links /\ resolve nodes l = Some r /\
    (n_uuid r.1.1 = node /\ n_uuid r.1.2 = p \/ n_uuid r.1.2 = node /\ n_uuid r.1.1 = p).

Lemma uuid_eqb a b : (mdv_uuid_cmp a b =? 0)%Z = bool_decide (a = b).
Proof.
  case_bool_decide as D; [apply Z.eqb_eq; by apply mdv_uuid_cmp_eq|].
  apply Z.eqb_neq. intros E. apply D. by apply mdv_uuid_cmp_eq.
Qed.

(** Collecting uuids in a set, as [peers_loop] and the route search do. *)
Lemma insert_uuid (hm : mdv_hashmap mdv_uuid) p :
  ready id hm 16 -> exists hm', mdv_hashmap_insert id true true hm p 16 = Some (Some p, hm') /\ ready id hm' 16
    /\ forall k, lookup id hm' k = if decide (k = p) then Some p else lookup id hm k.
Proof.
  intros Hr. destruct (insert_ready id hm p 16 Hr) as (hm' & E & Hr' & Hl & _). exists hm'.
  split_and!; [done|done|]. intros k. rewrite Hl. unfold id at 1. simpl. rewrite uuid_eqb.
  case_bool_decide; case_decide; congruence.
Qed.

Lemma peers_loop_spec nodes node links i hm :
  valid nodes links -> ready id hm 16 ->
  exists hm', peers_loop all_ok i nodes node links hm = Done (Some hm') /\ ready id hm' 16
    /\ forall k, lookup id hm' k = Some k <-> lookup id hm k = Some k \/ neighbour nodes links node k.
Proof.
  revert i hm. induction links as [|l links IH]; intros i hm Hv Hr.
  { exists hm. split_and!; [done|done|]. intros k. split; [by left|]. intros [?|(l & r & Hl & _)]; [done|].
    by apply elem_of_nil in Hl. }
  destruct (Hv l) as [[[n0 n1] w] Hl]; [by left|]. pose proof Hl as (H0 & H1 & _)%resolve_Some.
  cbn [peers_loop]. rewrite (at_Done _ _ _ H0), (at_Done _ _ _ H1). cbn [mbind outcome_bind]. rewrite !uuid_eqb.
  assert (Hv' : valid nodes links) by (intros l' Hl'; apply Hv; by right).
  assert (Hcons : forall k, neighbour nodes (l :: links) node k <->
            (n_uuid n0 = node /\ n_uuid n1 = k \/ n_uuid n1 = node /\ n_uuid n0 = k) \/ neighbour nodes links node k).
  { intros k. unfold neighbour. split.
    - intros (l' & r & [->|Hin]%elem_of_cons & Hres & Hor); [|right; eauto]. rewrite Hl in Hres. simplify_eq. by left.
    - intros [Hor|(l' & r & Hin & Hres & Hor)].
      + exists l, (n0, n1, w). split_and!; [by left|done|done].
      + exists l', r. split_and!; [by right|done|done]. }
  assert (Hone : forall p, (forall k, (n_uuid n0 = node /\ n_uuid n1 = k \/ n_uuid n1 = node /\ n_uuid n0 = k) <-> k = p) ->
    exists hm', ('(r, peers) ← deref (mdv_hashmap_insert id (all_ok i).1 (all_ok i).2 hm p 16);
       match r with
       | None => Done None
       | Some _ => peers_loop all_ok (S i) nodes node links peers
       end) = Done (Some hm') /\ ready id hm' 16
    /\ forall k, lookup id hm' k = Some k <-> lookup id hm k = Some k \/ neighbour nodes (l :: links) node k).
  { intros p Hp. destruct (insert_uuid hm p Hr) as (hm1 & E & Hr1 & Hl1). cbn [all_ok fst snd].
    rewrite E. cbn [deref mbind outcome_bind].
    destruct (IH (S i) hm1 Hv' Hr1) as (hm' & E' & Hr' & Hk). exists hm'. split_and!; [done|done|].
    intros k. rewrite Hk, Hl1, Hcons, Hp. case_decide as D; [subst; tauto|]. naive_solver. }
  case_bool_decide as D0; [apply Hone; naive_solver|].
  case_bool_decide as D1; [apply Hone; naive_solver|].
  destruct (IH i hm Hv' Hr) as (hm' & E' & Hr' & Hk). exists hm'. split_and!; [done|done|].
  intros k. rewrite Hk, Hcons. naive_solver.
Qed.

(** The neighbours of a node.  With memory, [mdv_topology_peers] yields the set
    of the uuids at the other ends of the links of the node, whichever end the
    node is; without memory it is null. *)
Theorem mdv_topology_peers_correct t node :
  valid (t_nodes t) (t_links t) ->
  (exists hm, mdv_topology_peers true true all_ok t node = Done (Some hm)
    /\ forall k, mdv_hashmap_find id hm k = Some (Some k) <-> neighbour (t_nodes t) (t_links t) node k)
  /\ forall mb m, mdv_topology_peers false mb m t node = Done None.
Proof.
  intros Hv. split; [|done]. unfold mdv_topology_peers.
  destruct (ready_create (id : mdv_uuid -> mdv_uuid) 4 0 16 16) as (hm & -> & Hr & Hl & _); [lia|lia|].
  destruct (peers_loop_spec (t_nodes t) node (t_links t) 0 hm Hv Hr) as (hm' & E & Hr' & Hk).
  exists hm'. split; [done|]. intros k. rewrite find_lookup by apply Hr'.
  specialize (Hk k). rewrite Hl in Hk. split.
  - intros [= E0]. apply Hk in E0 as [?|?]; done.
  - intros Hn. f_equal. apply Hk. by right.
Qed.

(** ** Witnesses *)

Definition sort_nodes : list mdv_toponode -> list mdv_toponode := merge_sort node_le.

Lemma sort_nodes_perm l : sort_nodes l ≡ₚ l.
Proof. apply merge_sort_Permutation. Qed.

Lemma sort_nodes_sorted l : Sorted node_le (sort_nodes l).
Proof.
  apply Sorted_merge_sort. intros a b. unfold node_le, mdv_node_cmp. uuid_cases; lia.
Qed.

Definition demo_node (u id : Z) : mdv_toponode := mk_node (mk_uuid u 0) id [u].
Definition demo_nodes : list mdv_toponode := [demo_node 1 1; demo_node 2 2; demo_node 3 3; demo_node 4 4].
Definition demo_a : mdv_topology := mk_topology 1 demo_nodes [mk_link 0 1 1; mk_link 0 2 1]%Z [].
Definition demo_b : mdv_topology := mk_topology 1 demo_nodes [mk_link 0 1 1; mk_link 0 3 1; mk_link 2 3 1]%Z [].

Ltac solve_ids := split; [apply (bool_decide_unpack _); vm_compute; exact I
                         |apply Forall_forall; repeat constructor; vm_compute; done].
Ltac solve_valid := unfold valid; apply Forall_forall; repeat constructor; eexists; vm_compute; reflexivity.

Lemma demo_ids : ids_ok demo_nodes.
Proof. solve_ids. Qed.

Lemma demo_a_valid : valid demo_nodes (t_links demo_a).
Proof. solve_valid. Qed.

Lemma demo_b_valid : valid demo_nodes (t_links demo_b).
Proof. solve_valid. Qed.

Lemma demo_consistent : consistent demo_a demo_b.
Proof.
  intros x y Hx Hy E. assert (x = y); [|by subst].
  apply list_elem_of_lookup in Hx as [i Hi]. apply list_elem_of_lookup in Hy as [j Hj].
  assert (i = j) as ->; [|simpl in *; congruence].
  eapply (NoDup_lookup (n_id <$> demo_nodes)); [apply demo_ids|..]; rewrite list_lookup_fmap; simpl in *.
  - by rewrite Hi.
  - rewrite Hj. simpl. by rewrite E.
Qed.

Lemma mdv_topology_create_correct_witness :
  exists links', mdv_topology_create sort_nodes true true true all_ok demo_nodes (t_links demo_a) []
      = Done (Some (mk_topology 1 (sort_nodes demo_nodes) links' []))
    /\ resolve (sort_nodes demo_nodes) <$> links' = resolve demo_nodes <$> t_links demo_a
    /\ sort_nodes demo_nodes ≡ₚ demo_nodes /\ Sorted node_le (sort_nodes demo_nodes).
Proof.
  exact (proj1 (mdv_topology_create_correct sort_nodes demo_nodes (t_links demo_a) []
    sort_nodes_perm sort_nodes_sorted demo_ids demo_a_valid)).
Defined.

Lemma mdv_topology_peers_correct_witness :
  exists hm, mdv_topology_peers true true all_ok demo_a (mk_uuid 1 0) = Done (Some hm)
    /\ forall k, mdv_hashmap_find id hm k = Some (Some k) <->
          neighbour demo_nodes (t_links demo_a) (mk_uuid 1 0) k.
Proof. exact (proj1 (mdv_topology_peers_correct demo_a (mk_uuid 1 0) demo_a_valid)). Defined.

(** The first case of the tests of the source: the link 3-4 comes from [b]. *)
Lemma mdv_topology_diff_correct_witness :
  exists d, mdv_topology_diff sort_nodes mem_ok demo_a (mk_uuid 3 0) demo_b (mk_uuid 4 0)
      = Done (Some d, all_released)
    /\ view (t_nodes d) <$> t_links d
       = [Some (mk_ulink (mk_uuid 1 0) (mk_uuid 3 0), 1%Z); Some (mk_ulink (mk_uuid 3 0) (mk_uuid 4 0), 1%Z)].
Proof.
  destruct (proj2 (mdv_topology_diff_correct sort_nodes sort_nodes_perm demo_a (mk_uuid 3 0) demo_b (mk_uuid 4 0)
      (conj demo_ids demo_a_valid) (conj demo_ids demo_b_valid) demo_consistent
      ltac:(discriminate) ltac:(discriminate) ltac:(discriminate))
    [mk_link 0 1 1; mk_link 0 3 1]%Z (mk_link 2 3 1) []) as (d & E & Hv & _).
  - apply Forall_forall. repeat constructor; intros (r & Hr & [Hs|Hs]); vm_compute in Hr; simplify_eq; done.
  - reflexivity.
  - eexists. split; [vm_compute; reflexivity|]. by left.
  - apply Forall_forall. repeat constructor; intros (r & Hr & [Hs|Hs]); vm_compute in Hr; simplify_eq; done.
  - exists d. split; [exact E|]. rewrite Hv. vm_compute. reflexivity.
Defined.

(** Node 4 of this topology has the local identifier of node 1 of [demo_a]. *)
Definition demo_b' : mdv_topology :=
  mk_topology 1 [demo_node 1 4; demo_node 2 3; demo_node 3 2; demo_node 4 1]%Z
    [mk_link 0 1 1; mk_link 0 3 1; mk_link 2 3 1]%Z [].

(** The local identifiers of the two topologies need not agree: they are
    local to a node.  Where they collide, [mdv_topology_diff] moves a link to
    the wrong node: the link 1-3 of [demo_a] comes out as the link 4-3. *)
Theorem mdv_topology_diff_id_collision :
  exists d, mdv_topology_diff sort_nodes mem_ok demo_a (mk_uuid 3 0) demo_b' (mk_uuid 4 0)
      = Done (Some d, all_released)
    /\ view (t_nodes d) <$> t_links d
       = [Some (mk_ulink (mk_uuid 4 0) (mk_uuid 3 0), 1%Z); Some (mk_ulink (mk_uuid 3 0) (mk_uuid 4 0), 1%Z)].
Proof. eexists. split; vm_compute; reflexivity. Qed.

End Topology.
