(* ===== verification/Router.v ===== *)
(** * Routes (src/mdv_platform/mdv_router.c)

    The next hops of a node are its neighbours in a spanning tree of the
    topology.  The nodes that occur in links are numbered through a hash map,
    the numbered graph is handed to [Mst], and the marked links of the node give
    the routes.  A [mdv_route] is a uuid. *)

From S2P Require Import Prelude Uuid Hashmap Rollbacker Mst Topology.
Import Uuid Hashmap Rollbacker Topology.

Module Router.

Record mdv_router_node := mk_rnode { rn_id : Z; rn_idx : Z }.

Definition mdv_uint32_hash (p : Z) : Z := u32 p.
Definition mdv_uint32_cmp (pa pb : Z) : Z := i32 (pa - pb).

Definition uint32_key : HashKey Z := {| hash_fn := mdv_uint32_hash; key_cmp_fn := mdv_uint32_cmp |}.
#[local] Existing Instance uint32_key.

Definition MDV_LINK_WEIGHT_MAX : Z := 1024 * 1024.

(** [if (!mdv_hashmap_find(nodes, &id)) mdv_hashmap_insert(nodes, &n, sizeof n)] *)
Definition add_unique (mem : bool * bool) (nodes : mdv_hashmap mdv_router_node) (id : Z)
  : outcome (mdv_hashmap mdv_router_node) :=
  found ← deref (mdv_hashmap_find rn_id nodes id);
  match found with
  | Some _ => Done nodes
  | None => '(_, nodes) ← deref (mdv_hashmap_insert rn_id mem.1 mem.2 nodes (mk_rnode id 0) 8); Done nodes
  end.

Fixpoint unique_loop (mem : nat -> bool * bool) (i : nat) (topolinks : list mdv_topolink)
    (nodes : mdv_hashmap mdv_router_node) : outcome (mdv_hashmap mdv_router_node) :=
  match topolinks with
  | [] => Done nodes
  | link :: topolinks =>
      nodes ← add_unique (mem i) nodes (node0 link);
      nodes ← add_unique (mem (S i)) nodes (node1 link);
      unique_loop mem (S (S i)) topolinks nodes
  end.

(** [mdv_hashmap_foreach(nodes, mdv_router_node, node) node->idx = idx++;] *)
Fixpoint number_bucket (b : list mdv_router_node) (idx : Z) : list mdv_router_node * Z :=
  match b with
  | [] => ([], idx)
  | n :: b => let '(b, idx') := number_bucket b (idx + 1) in (mk_rnode (rn_id n) idx :: b, idx')
  end.

Fixpoint number_buckets (bs : list (list mdv_router_node)) (idx : Z) : list (list mdv_router_node) :=
  match bs with
  | [] => []
  | b :: bs => let '(b, idx) := number_bucket b idx in b :: number_buckets bs idx
  end.

Definition number (hm : mdv_hashmap mdv_router_node) : mdv_hashmap mdv_router_node :=
  mk_hashmap (hm_rc hm) (hm_capacity hm) (hm_size hm) (hm_key_offset hm) (hm_key_size hm)
    (number_buckets (hm_buckets hm) 0).

Definition mdv_router_unique_nodes (mem_map mem_buckets : bool) (mem : nat -> bool * bool)
    (topolinks : list mdv_topolink) (toponodes : list mdv_toponode)
  : outcome (option (mdv_hashmap mdv_router_node)) :=
  match mdv_hashmap_create mem_map mem_buckets (length toponodes) 0 4 with
  | None => Done None
  | Some nodes => nodes ← unique_loop mem 0 topolinks nodes; Done (Some (number nodes))
  end.

(** [mst_nodes[node->idx].data = mdv_vector_at(toponodes, node->id)] for every
    unique node; a cell is a node or null. *)
Fixpoint mst_nodes_loop (us : list mdv_router_node) (toponodes : list mdv_toponode)
    (mst_nodes : list (option mdv_toponode)) : outcome (list (option mdv_toponode)) :=
  match us with
  | [] => Done mst_nodes
  | n :: us =>
      if (Z.to_nat (rn_idx n) <? length mst_nodes)
      then mst_nodes_loop us toponodes (<[Z.to_nat (rn_idx n) := lookupZ toponodes (rn_id n)]> mst_nodes)
      else OutOfBounds (rn_idx n)
  end.

Definition mst_link (unique_nodes : mdv_hashmap mdv_router_node) (link : mdv_topolink) : outcome Mst.mdv_mstlink :=
  let weight := if (weight link >? MDV_LINK_WEIGHT_MAX)%Z then MDV_LINK_WEIGHT_MAX else weight link in
  f0 ← deref (mdv_hashmap_find rn_id unique_nodes (node0 link));
  f1 ← deref (mdv_hashmap_find rn_id unique_nodes (node1 link));
  n0 ← deref f0;
  n1 ← deref f1;
  Done (Mst.mk_link (Z.to_nat (rn_idx n0)) (Z.to_nat (rn_idx n1)) (u32 (MDV_LINK_WEIGHT_MAX - weight)) 0).

(** The loop over the marked links. *)
Fixpoint routes_loop (mem : nat -> bool * bool) (i : nat) (mst_nodes : list (option mdv_toponode)) (src : mdv_uuid)
    (mst_links : list Mst.mdv_mstlink) (routes : mdv_hashmap mdv_uuid) : outcome (option (mdv_hashmap mdv_uuid)) :=
  match mst_links with
  | [] => Done (Some routes)
  | l :: mst_links =>
      if (Mst.mst l =? 0)%Z then routes_loop mem i mst_nodes src mst_links routes
      else
        d0 ← read mst_nodes (Mst.src l);
        d1 ← read mst_nodes (Mst.dst l);
        lnode ← deref d0;
        rnode ← deref d1;
        let hop := if (mdv_uuid_cmp src (n_uuid lnode) =? 0)%Z then Some (n_uuid rnode)
                   else if (mdv_uuid_cmp src (n_uuid rnode) =? 0)%Z then Some (n_uuid lnode)
                   else None in
        match hop with
        | None => routes_loop mem i mst_nodes src mst_links routes
        | Some p =>
            '(r, routes) ← deref (mdv_hashmap_insert id (mem i).1 (mem i).2 routes p 16);
            match r with
            | None => Done None
            | Some _ => routes_loop mem (S i) mst_nodes src mst_links routes
            end
        end
  end.

(** The allocator's answers during [mdv_routes_find]. *)
Record routes_mem := mk_routes_mem {
  rm_rollbacker : bool; rm_umap : bool; rm_ubuckets : bool; rm_uinsert : nat -> bool * bool;
  rm_nodes : bool; rm_links : bool; rm_subsets : bool;
  rm_map : bool; rm_buckets : bool; rm_insert : nat -> bool * bool
}.

Inductive release_fn := Fn_rollbacker_free | Fn_vector_release | Fn_hashmap_release | Fn_free.
Inductive resource := Res_rollbacker | Res_topolinks | Res_toponodes | Res_unique_nodes | Res_mst_nodes | Res_mst_links.

Definition push (r : option (mdv_rollbacker release_fn resource)) (f : release_fn) (x : resource) :=
  snd (mdv_rollbacker_push r (mk_op f [x])).

(** The part of [mdv_routes_find] after the search of the spanning tree. *)
Definition routes_result (m : routes_mem) (mst_nodes : list (option mdv_toponode)) (src : mdv_uuid)
    (mst_size : nat) (mst_links : list Mst.mdv_mstlink) : outcome (option (mdv_hashmap mdv_uuid)) :=
  if mst_size =? 0 then Done (mdv_hashmap_create (rm_map m) (rm_buckets m) 0 0 16)
  else
    match mdv_hashmap_create (rm_map m) (rm_buckets m) (mst_size * 5 / 3) 0 16 with
    | None => Done None
    | Some routes => routes_loop (rm_insert m) 0 mst_nodes src mst_links routes
    end.

(** The routes and the calls that release what was acquired. *)
Definition mdv_routes_find (m : routes_mem) (t : mdv_topology) (src : mdv_uuid)
  : outcome (option (mdv_hashmap mdv_uuid) * list (release_fn * list resource)) :=
  let rbr := mdv_rollbacker_create (rm_rollbacker m) Fn_rollbacker_free Res_rollbacker 5 in
  let topolinks := t_links t in
  let rbr := push rbr Fn_vector_release Res_topolinks in
  match topolinks with
  | [] => Done (mdv_hashmap_create (rm_map m) (rm_buckets m) 0 0 16, mdv_rollback rbr)
  | _ =>
      let toponodes := t_nodes t in
      let rbr := push rbr Fn_vector_release Res_toponodes in
      unique ← mdv_router_unique_nodes (rm_umap m) (rm_ubuckets m) (rm_uinsert m) topolinks toponodes;
      match unique with
      | None => Done (None, mdv_rollback rbr)
      | Some unique_nodes =>
          let rbr := push rbr Fn_hashmap_release Res_unique_nodes in
          if negb (rm_nodes m) then Done (None, mdv_rollback rbr) else
          let rbr := push rbr Fn_free Res_mst_nodes in
          mst_nodes ← mst_nodes_loop (mdv_hashmap_foreach unique_nodes) toponodes
                        (replicate (length toponodes) None);
          if negb (rm_links m) then Done (None, mdv_rollback rbr) else
          let rbr := push rbr Fn_free Res_mst_links in
          mst_links ← mapO (mst_link unique_nodes) topolinks;
          '(mst_size, mst_links) ← Mst.mdv_mst_find (rm_subsets m) (hm_size unique_nodes) mst_links;
          routes ← routes_result m mst_nodes src mst_size mst_links;
          Done (routes, mdv_rollback rbr)
      end
  end.

Definition mem_ok : routes_mem := mk_routes_mem true true true all_ok true true true true true all_ok.

(** The routes of node 3 in the first topology of the tests of the source. *)
Definition test_topology : mdv_topology :=
  mk_topology 1 ((fun i => demo_node i i) <$> [0; 1; 2; 3; 4; 5]%Z)
    [mk_link 0 1 1; mk_link 0 2 1; mk_link 1 3 1; mk_link 2 3 1; mk_link 3 4 1; mk_link 3 5 1]%Z [].

Example routes_test :
  match mdv_routes_find mem_ok test_topology (mk_uuid 3 0) with
  | Done (Some hm, _) => u64_0 <$> mdv_hashmap_foreach hm
  | _ => []
  end = [4; 1; 5]%Z.
Proof. vm_compute. reflexivity. Qed.

#[export] Instance uint32_key_ok : @HashKeyOk Z uint32_key.
Proof. exact u32_key_ok. Qed.

Lemma uint32_keq (a b : Z) : fits 32 a -> fits 32 b -> keq a b <-> a = b.
Proof. intros Ha Hb. etrans; [apply u32_keq|]. by rewrite !wrap_id. Qed.

(** ** The unique nodes *)

Definition ids_of (hm : mdv_hashmap mdv_router_node) : list Z := rn_id <$> mdv_hashmap_foreach hm.

Record good (hm : mdv_hashmap mdv_router_node) : Prop := {
  g_ready : ready rn_id hm 8;
  g_fits : forall x, x ∈ ids_of hm -> fits 32 x
}.

Lemma elem_of_ids hm x : wf rn_id hm -> x ∈ ids_of hm <-> exists n, lookup rn_id hm x = Some n /\ rn_id n = x.
Proof.
  intros Hw. unfold ids_of. rewrite list_elem_of_fmap. split.
  - intros (n & -> & Hn). exists n. split; [apply (lookup_in rn_id hm n Hw Hn)|done].
  - intros (n & Hl & E). exists n. split; [done|].
    apply (elem_of_foreach rn_id hm n Hw). by rewrite E.
Qed.

Lemma add_unique_spec hm x :
  good hm -> fits 32 x ->
  exists hm', add_unique (true, true) hm x = Done hm' /\ good hm'
    /\ forall y, y ∈ ids_of hm' <-> y ∈ ids_of hm \/ y = x.
Proof.
  intros [Hr Hf] Hx. pose proof Hr as (Hw & _). unfold add_unique. rewrite find_lookup by done.
  cbn [deref mbind outcome_bind]. destruct (lookup rn_id hm x) as [n|] eqn:E.
  - exists hm. split_and!; [done|done|]. intros y. split; [by left|]. intros [?| ->]; [done|].
    destruct (lookup_elem rn_id hm x n Hw E) as [Hn Hk].
    assert (rn_id n ∈ ids_of hm) as Hin by (by apply list_elem_of_fmap_2).
    apply (uint32_keq x (rn_id n)) in Hk; [by rewrite Hk|done|auto].
  - destruct (insert_ready rn_id hm (mk_rnode x 0) 8 Hr) as (hm' & E' & Hr' & Hl & _).
    cbn [fst snd]. rewrite E'. cbn [deref mbind outcome_bind]. exists hm'. split; [done|].
    assert (Hids : forall y, y ∈ ids_of hm' <-> y ∈ ids_of hm \/ y = x).
    { intros y. rewrite !elem_of_ids by (done || apply Hr'). rewrite Hl. cbn [rn_id].
      destruct (Z.eqb_spec (key_cmp_fn x y) 0) as [Hk|Hk].
      - assert (lookup rn_id hm y = None) as -> by (rewrite <- E; symmetry; by apply (lookup_keq rn_id hm x y Hw)).
        split; [intros (n & [= <-] & <-); by right|]. intros [(n & ? & _)| ->]; [done|]. eexists. split; done.
      - split; [by left|]. intros [?| ->]; [done|]. destruct Hk. change (keq x x). reflexivity. }
    split; [|done]. split; [done|]. intros y [?| ->]%Hids; auto.
Qed.

(** [x] is an end of a link. *)
Definition used (links : list mdv_topolink) (x : Z) : Prop :=
  exists l, l ∈ links /\ (x = node0 l \/ x = node1 l).

Lemma unique_loop_spec links i hm :
  good hm -> (forall x, used links x -> fits 32 x) ->
  exists hm', unique_loop all_ok i links hm = Done hm' /\ good hm'
    /\ forall y, y ∈ ids_of hm' <-> y ∈ ids_of hm \/ used links y.
Proof.
  revert i hm. induction links as [|l links IH]; intros i hm Hg Hf.
  { exists hm. split_and!; [done|done|]. intros y. split; [by left|]. intros [?|(l & Hl & _)]; [done|].
    by apply elem_of_nil in Hl. }
  cbn [unique_loop].
  destruct (add_unique_spec hm (node0 l) Hg) as (h1 & E1 & G1 & I1); [apply Hf; exists l; split; [by left|auto]|].
  destruct (add_unique_spec h1 (node1 l) G1) as (h2 & E2 & G2 & I2); [apply Hf; exists l; split; [by left|auto]|].
  change (all_ok i) with (true, true). change (all_ok (S i)) with (true, true). rewrite E1. cbn [mbind outcome_bind]. rewrite E2. cbn [mbind outcome_bind].
  destruct (IH (S (S i)) h2 G2) as (h3 & E3 & G3 & I3).
  { intros x (l' & Hl' & Hx). apply Hf. exists l'. split; [by right|done]. }
  exists h3. split_and!; [done|done|]. intros y. rewrite I3, I2, I1. unfold used. split.
  - intros [[[?| ->]| ->]|(l' & Hl' & Hx)]; [by left|right; exists l; split; [by left|auto]..|].
    right. exists l'. split; [by right|done].
  - intros [?|(l' & [->|Hl']%elem_of_cons & Hx)]; [auto| |right; eauto]. destruct Hx; auto.
Qed.

(** Numbering gives every node its position in the enumeration. *)
Lemma number_bucket_spec b n :
  let '(b', n') := number_bucket b n in
  n' = (n + Z.of_nat (length b))%Z /\ Forall2 (fun x y => rn_id x = rn_id y) b b'
  /\ forall i x, b' !! i = Some x -> rn_idx x = (n + Z.of_nat i)%Z.
Proof.
  revert n. induction b as [|x b IH]; intros n; simpl; [split_and!; [lia|done|done]|].
  specialize (IH (n + 1)%Z). destruct (number_bucket b (n + 1)) as [b' n']. destruct IH as (-> & Hf & Hi).
  split_and!; [lia|by constructor|]. intros [|i] y Hy; simpl in Hy; simplify_eq; simpl; [lia|].
  rewrite (Hi i y Hy). lia.
Qed.

Lemma number_buckets_spec bs n :
  Forall2 (Forall2 (fun x y => rn_id x = rn_id y)) bs (number_buckets bs n)
  /\ forall i x, concat (number_buckets bs n) !! i = Some x -> rn_idx x = (n + Z.of_nat i)%Z.
Proof.
  revert n. induction bs as [|b bs IH]; intros n; simpl; [done|].
  pose proof (number_bucket_spec b n) as Hb. destruct (number_bucket b n) as [b' n']. destruct Hb as (-> & Hf & Hi).
  destruct (IH (n + Z.of_nat (length b))%Z) as [Hf' Hi']. split; [by constructor|].
  intros i x. simpl. pose proof (Forall2_length _ _ _ Hf) as Hl.
  destruct (decide (i < length b')) as [Hlt|Hge].
  - rewrite lookup_app_l by done. apply Hi.
  - rewrite lookup_app_r by lia. intros E. rewrite (Hi' _ _ E). lia.
Qed.

Lemma number_spec hm :
  good hm -> good (number hm) /\ ids_of (number hm) = ids_of hm
    /\ forall i x, mdv_hashmap_foreach (number hm) !! i = Some x -> rn_idx x = Z.of_nat i.
Proof.
  intros [(Hw & Hc & Hs) Hf]. destruct (number_buckets_spec (hm_buckets hm) 0) as [H2 Hi].
  assert (Hids : ids_of (number hm) = ids_of hm).
  { unfold ids_of, mdv_hashmap_foreach, number. simpl. clear -H2.
    induction H2 as [|b b' l l' Hb _ IH]; [done|]. simpl. rewrite !fmap_app, IH. f_equal.
    induction Hb; [done|]. simpl. by f_equal. }
  split_and!; [|done|intros i x Hx; apply (Hi i x Hx)].
  split; [|by rewrite Hids]. split_and!; [by apply wf_ext|done|done].
Qed.

(** The numbered nodes of the links. *)
Lemma unique_nodes_spec links nodes :
  valid nodes links -> links <> [] -> (Z.of_nat (length nodes) < 2 ^ 32)%Z ->
  exists hm, mdv_router_unique_nodes true true all_ok links nodes = Done (Some hm) /\ good hm
    /\ (forall y, y ∈ ids_of hm <-> used links y)
    /\ forall i x, mdv_hashmap_foreach hm !! i = Some x -> rn_idx x = Z.of_nat i.
Proof.
  intros Hv Hne Hsz. unfold mdv_router_unique_nodes.
  assert (Hused : forall x, used links x -> (0 <= x < Z.of_nat (length nodes))%Z).
  { intros x (l & Hl & Hx). destruct (Hv l Hl) as [[[n0 n1] w] (H0 & H1 & _)%resolve_Some].
    destruct Hx as [-> | ->]; by eapply lookupZ_Some. }
  destruct (ready_create rn_id (length nodes) 0 4 8) as (hm & -> & Hr & Hl & Hz); [|lia|].
  { destruct links as [|l links]; [done|]. pose proof (Hused (node0 l)) as Hb.
    assert (used (l :: links) (node0 l)) as Hu by (exists l; split; [by left|auto]). specialize (Hb Hu). lia. }
  assert (Hnil : ids_of hm = []).
  { unfold ids_of. pose proof (wf_size rn_id hm (proj1 Hr)) as Hs. rewrite Hz in Hs.
    symmetry in Hs. by apply nil_length_inv in Hs as ->. }
  destruct (unique_loop_spec links 0 hm) as (hm1 & -> & Hg & Hids).
  { split; [done|]. rewrite Hnil. by intros x ?%elem_of_nil. }
  { intros x Hx%Hused. split; [lia|]. lia. }
  cbn [mbind outcome_bind]. destruct (number_spec hm1 Hg) as (Hg' & Ei & Hi).
  exists (number hm1). split_and!; [done|done| |done]. intros y. rewrite Ei, Hids, Hnil, elem_of_nil. tauto.
Qed.

Lemma mst_nodes_loop_spec us nodes arr :
  (forall x, x ∈ us -> Z.to_nat (rn_idx x) < length arr) -> NoDup ((Z.to_nat ∘ rn_idx) <$> us) ->
  exists arr', mst_nodes_loop us nodes arr = Done arr'
    /\ (forall x, x ∈ us -> arr' !! Z.to_nat (rn_idx x) = Some (lookupZ nodes (rn_id x)))
    /\ forall j, j ∉ (Z.to_nat ∘ rn_idx) <$> us -> arr' !! j = arr !! j.
Proof.
  revert arr. induction us as [|x us IH]; intros arr Hb Hd.
  { exists arr. split_and!; [done|by intros x ?%elem_of_nil|done]. }
  rewrite fmap_cons in Hd. apply NoDup_cons in Hd as [Hx Hd]. simpl.
  pose proof (Hb x ltac:(by left)) as Hbx. destruct (Nat.ltb_spec (Z.to_nat (rn_idx x)) (length arr)); [|lia].
  destruct (IH (<[Z.to_nat (rn_idx x) := lookupZ nodes (rn_id x)]> arr)) as (arr' & E & Hin & Hout); [|done|].
  { intros y Hy. rewrite length_insert. apply Hb. by right. }
  exists arr'. split_and!; [done| |].
  - intros y [->|Hy]%elem_of_cons; [|by apply Hin]. rewrite Hout by done. by apply list_lookup_insert_eq.
  - intros j [Hj1 Hj2]%not_elem_of_cons. rewrite Hout by done. apply list_lookup_insert_ne. intros E'. by apply Hj1.
Qed.

(** ** The numbered graph *)

(** The link [m] of the numbered graph stands for the link [l]; [us] are the
    numbered nodes. *)
Definition matches (us : list Z) (l : mdv_topolink) (m : Mst.mdv_mstlink) : Prop :=
  us !! Mst.src m = Some (node0 l) /\ us !! Mst.dst m = Some (node1 l).

(** The links whose image is marked. *)
Definition chosen (links : list mdv_topolink) (ms : list Mst.mdv_mstlink) : list mdv_topolink :=
  fst <$> filter (fun p => Mst.flagged p.2) (zip links ms).

(** [x] and [y] are joined by a chain of links. *)
Definition zconn (links : list mdv_topolink) : Z -> Z -> Prop :=
  rtsc (fun x y => exists l, l ∈ links /\ node0 l = x /\ node1 l = y).

Lemma chosen_cons l links m ms :
  chosen (l :: links) (m :: ms) = if (Mst.mst m =? 0)%Z then chosen links ms else l :: chosen links ms.
Proof.
  unfold chosen. simpl zip. rewrite filter_cons. simpl. unfold Mst.flagged at 1.
  destruct (Z.eqb_spec (Mst.mst m) 0); case_decide; tauto || done.
Qed.

Lemma chosen_matches us links ms :
  Forall2 (matches us) links ms -> Forall2 (matches us) (chosen links ms) (Mst.tree ms).
Proof.
  induction 1 as [|l m links ms Hm _ IH]; [constructor|]. rewrite chosen_cons. unfold Mst.tree in *.
  rewrite filter_cons. unfold Mst.flagged at 1.
  destruct (Z.eqb_spec (Mst.mst m) 0); case_decide; try tauto. by constructor.
Qed.

Lemma chosen_sublist links ms : length links = length ms -> sublist (chosen links ms) links.
Proof.
  intros Hl. unfold chosen. rewrite <- (fst_zip links ms) at 2 by lia. apply fmap_sublist, sublist_filter.
Qed.

Lemma mst_conn_zconn us links ms i j x :
  Forall2 (matches us) links ms -> Mst.conn ms i j -> us !! i = Some x ->
  exists y, us !! j = Some y /\ zconn links x y.
Proof.
  intros Hf Hc. revert x. induction Hc as [i|i k j Hst _ IH]; intros x Hx; [exists x; split; [done|apply rtc_refl]|].
  assert (exists z, us !! k = Some z /\ zconn links x z) as (z & Hz & Hxz).
  { destruct Hst as [(m & Hm & <- & <-)|(m & Hm & <- & <-)];
      apply list_elem_of_lookup in Hm as [p Hp]; destruct (Forall2_lookup_r _ _ _ _ _ Hf Hp) as (l & Hl & M0 & M1);
      apply list_elem_of_lookup_2 in Hl; simplify_eq.
    - exists (node1 l). split; [done|]. apply rtsc_lr. by exists l.
    - exists (node0 l). split; [done|]. apply rtsc_rl. by exists l. }
  destruct (IH z Hz) as (y & Hy & Hzy). exists y. split; [done|]. unfold zconn in *. by etrans.
Qed.

Lemma zconn_mst_conn us links ms x y i :
  NoDup us -> Forall2 (matches us) links ms -> zconn links x y -> us !! i = Some x ->
  exists j, us !! j = Some y /\ Mst.conn ms i j.
Proof.
  intros Hd Hf Hc. revert i. induction Hc as [x|x z y Hst _ IH]; intros i Hi; [exists i; split; [done|reflexivity]|].
  assert (exists k, us !! k = Some z /\ Mst.conn ms i k) as (k & Hk & Hik).
  { destruct Hst as [(l & Hl & <- & <-)|(l & Hl & <- & <-)];
      apply list_elem_of_lookup in Hl as [p Hp]; destruct (Forall2_lookup_l _ _ _ _ _ Hf Hp) as (m & Hm & M0 & M1);
      apply list_elem_of_lookup_2 in Hm.
    - exists (Mst.dst m). split; [done|]. rewrite (NoDup_lookup _ _ _ _ Hd Hi M0). by apply Mst.conn_link.
    - exists (Mst.src m). split; [done|]. rewrite (NoDup_lookup _ _ _ _ Hd Hi M1). symmetry. by apply Mst.conn_link. }
  destruct (IH k Hk) as (j & Hj & Hkj). exists j. split; [done|]. by etrans.
Qed.

(** The route search over the marked links is the neighbour search over the
    chosen links. *)
Lemma routes_loop_peers mem i us nodes mst_nodes src links ms hm :
  Forall2 (matches us) links ms -> valid nodes links ->
  (forall p x, us !! p = Some x -> mst_nodes !! p = Some (lookupZ nodes x)) ->
  routes_loop mem i mst_nodes src ms hm = peers_loop mem i nodes src (chosen links ms) hm.
Proof.
  intros Hf Hv Hn. revert i hm. induction Hf as [|l m links ms [M0 M1] _ IH]; intros i hm; [done|].
  assert (Hv' : valid nodes links) by (intros l' Hl'; apply Hv; by right). specialize (IH Hv').
  rewrite chosen_cons. cbn [routes_loop]. destruct (Mst.mst m =? 0)%Z; [apply IH|].
  destruct (Hv l) as [[[n0 n1] w] (H0 & H1 & _)%resolve_Some]; [by left|].
  rewrite (read_Done _ _ _ (Hn _ _ M0)), (read_Done _ _ _ (Hn _ _ M1)), H0, H1. cbn [mbind outcome_bind deref].
  cbn [peers_loop]. rewrite (at_Done _ _ _ H0), (at_Done _ _ _ H1). cbn [mbind outcome_bind].
  destruct (if (mdv_uuid_cmp src (n_uuid n0) =? 0)%Z then _ else _) as [p|]; [|apply IH].
  destruct (deref _) as [[r routes]| |]; [|done|done]. cbn [mbind outcome_bind]. by destruct r.
Qed.

(** The numbered links. *)
Lemma mst_links_spec hm links :
  good hm -> (forall y, used links y -> y ∈ ids_of hm) ->
  (forall i x, mdv_hashmap_foreach hm !! i = Some x -> rn_idx x = Z.of_nat i) ->
  exists ms, mapO (mst_link hm) links = Done ms /\ Forall2 (matches (ids_of hm)) links ms.
Proof.
  intros Hg Hu Hi. pose proof (g_ready _ Hg) as (Hw & _).
  assert (Hfind : forall y, used links y -> exists n, mdv_hashmap_find rn_id hm y = Some (Some n)
            /\ ids_of hm !! Z.to_nat (rn_idx n) = Some y).
  { intros y (n & Hl & E)%Hu%(elem_of_ids hm y Hw). exists n. rewrite find_lookup by done. rewrite Hl. split; [done|].
    rewrite <- E in Hl. apply (elem_of_foreach rn_id hm n Hw) in Hl. apply list_elem_of_lookup in Hl as [i Hl].
    rewrite (Hi i n Hl), Nat2Z.id. unfold ids_of. rewrite list_lookup_fmap, Hl. simpl. by rewrite E. }
  apply mapO_spec. intros l Hl.
  destruct (Hfind (node0 l)) as (n0 & F0 & I0); [exists l; auto|].
  destruct (Hfind (node1 l)) as (n1 & F1 & I1); [exists l; auto|].
  unfold mst_link. rewrite F0, F1. cbn [deref mbind outcome_bind]. eexists. split; [done|]. done.
Qed.

(** ** The routes *)

(** What the call releases: everything it acquired, once. *)
Definition all_released : list (release_fn * list resource) :=
  [(Fn_free, [Res_mst_links]); (Fn_free, [Res_mst_nodes]); (Fn_hashmap_release, [Res_unique_nodes]);
   (Fn_vector_release, [Res_toponodes]); (Fn_vector_release, [Res_topolinks]);
   (Fn_rollbacker_free, [Res_rollbacker])].

Lemma matches_strip us links ms ms' :
  Forall2 (matches us) links ms -> Mst.strip ms' = Mst.strip ms -> Forall2 (matches us) links ms'.
Proof.
  intros Hf. revert ms'. induction Hf as [|l m links ms Hm _ IH]; intros [|m' ms'] E; try done.
  unfold Mst.strip in E. rewrite !fmap_cons in E. injection E as E1 E2 E3 E. constructor; [|by apply IH].
  destruct Hm as [M0 M1]. split; congruence.
Qed.

Lemma valid_sublist nodes links tree : sublist tree links -> valid nodes links -> valid nodes tree.
Proof. intros Hs Hv l Hl. apply Hv. by eapply elem_of_sublist. Qed.

(** The map of the routes over the chosen links. *)
Lemma routes_result_spec us nodes mst_nodes src links ms k :
  Forall2 (matches us) links ms -> valid nodes links ->
  (forall p x, us !! p = Some x -> mst_nodes !! p = Some (lookupZ nodes x)) ->
  exists routes, routes_result mem_ok mst_nodes src k ms = Done (Some routes)
    /\ wf id routes
    /\ (k <> 0 -> forall p, mdv_hashmap_find id routes p = Some (Some p) <-> neighbour nodes (chosen links ms) src p)
    /\ (k = 0 -> forall p, mdv_hashmap_find id routes p = Some None).
Proof.
  intros Hf Hv Hn. unfold routes_result. cbn [mem_ok rm_map rm_buckets rm_insert].
  destruct (Nat.eqb_spec k 0) as [->|Hk].
  - eexists. split; [done|]. split; [|split; [done|]; done].
    by destruct (mdv_hashmap_create_wf (id : mdv_uuid -> mdv_uuid) true true 0 0 16 _ eq_refl) as [? _].
  - destruct (ready_create (id : mdv_uuid -> mdv_uuid) (k * 5 / 3) 0 16 16) as (hm & -> & Hr & Hl & _); [|lia|].
    { apply Nat.div_str_pos. lia. }
    rewrite (routes_loop_peers _ _ us nodes mst_nodes src links ms) by done.
    assert (Hvc : valid nodes (chosen links ms)).
    { eapply valid_sublist; [|exact Hv]. apply chosen_sublist. by eapply Forall2_length. }
    destruct (peers_loop_spec nodes src (chosen links ms) 0 hm Hvc Hr) as (hm' & E & Hr' & Hp).
    exists hm'. split; [done|]. split; [apply Hr'|]. split; [|done]. intros _ p.
    rewrite find_lookup by apply Hr'. specialize (Hp p). rewrite Hl in Hp. split.
    + intros [= E0]. apply Hp in E0 as [?|?]; done.
    + intros Hnb. f_equal. apply Hp. by right.
Qed.

(** All nodes of the links are joined by links. *)
Definition connected (links : list mdv_topolink) (tree : list mdv_topolink) : Prop :=
  forall x y, used links x -> used links y -> zconn tree x y.

Section Routes.
Variables (t : mdv_topology) (src : mdv_uuid).
Hypothesis t_valid : valid (t_nodes t) (t_links t).
Hypothesis t_size : (Z.of_nat (length (t_nodes t)) < 2 ^ 32)%Z.

Lemma used_bound x : used (t_links t) x -> (0 <= x < Z.of_nat (length (t_nodes t)))%Z.
Proof.
  intros (l & Hl & Hx). destruct (t_valid l Hl) as [[[n0 n1] w] (H0 & H1 & _)%resolve_Some].
  destruct Hx as [-> | ->]; by eapply lookupZ_Some.
Qed.

Lemma unique_count us : NoDup us -> (forall y, y ∈ us <-> used (t_links t) y) -> length us <= length (t_nodes t).
Proof.
  intros Hd Hu. rewrite <- (length_seq (length (t_nodes t)) 0), <- (length_fmap Z.of_nat (seq 0 _)).
  apply NoDup_incl_length; [by apply NoDup_ListNoDup|]. intros x Hx%list_elem_of_In%Hu%used_bound.
  apply list_elem_of_In, list_elem_of_fmap. exists (Z.to_nat x). split; [lia|]. apply elem_of_seq. lia.
Qed.

(** The call up to the search of the tree. *)
Lemma routes_find_runs :
  t_links t <> [] ->
  exists us ms mst_nodes, NoDup us /\ (forall y, y ∈ us <-> used (t_links t) y)
    /\ Forall2 (matches us) (t_links t) ms
    /\ (forall p x, us !! p = Some x -> mst_nodes !! p = Some (lookupZ (t_nodes t) x))
    /\ mdv_routes_find mem_ok t src =
       ('(k, ms) ← Mst.mdv_mst_find true (length us) ms;
        routes ← routes_result mem_ok mst_nodes src k ms;
        Done (routes, all_released)).
Proof.
  intros Hne. destruct (unique_nodes_spec (t_links t) (t_nodes t)) as (hm & E & Hg & Hu & Hi); [done..|].
  pose proof (g_ready _ Hg) as (Hw & _).
  assert (Hd : NoDup (ids_of hm)) by apply (foreach_keys_nodup rn_id hm Hw).
  pose proof (unique_count _ Hd Hu) as Hcnt. unfold ids_of in Hcnt. rewrite length_fmap in Hcnt.
  assert (Hidx : (Z.to_nat ∘ rn_idx) <$> mdv_hashmap_foreach hm = seq 0 (length (mdv_hashmap_foreach hm))).
  { apply list_eq. intros i. rewrite list_lookup_fmap. destruct (mdv_hashmap_foreach hm !! i) as [x|] eqn:Ex; simpl.
    - rewrite (Hi i x Ex), Nat2Z.id. symmetry. apply lookup_seq. apply lookup_lt_Some in Ex. lia.
    - apply lookup_ge_None in Ex. symmetry. by apply lookup_seq_ge. }
  destruct (mst_nodes_loop_spec (mdv_hashmap_foreach hm) (t_nodes t) (replicate (length (t_nodes t)) None))
    as (arr & Ea & Harr & _).
  { intros x (i & Hx)%list_elem_of_lookup. rewrite (Hi i x Hx), Nat2Z.id, length_replicate.
    apply lookup_lt_Some in Hx. lia. }
  { rewrite Hidx. apply NoDup_seq. }
  destruct (mst_links_spec hm (t_links t) Hg) as (ms & Em & Hm); [intros; by apply Hu|done|].
  exists (ids_of hm), ms, arr. split_and!; [done|done|done| |].
  - intros p x Hp. unfold ids_of in Hp. rewrite list_lookup_fmap in Hp. apply fmap_Some in Hp as (n & Hn & ->).
    rewrite <- (Harr n) by (by eapply list_elem_of_lookup_2). by rewrite (Hi p n Hn), Nat2Z.id.
  - unfold mdv_routes_find. destruct (t_links t) as [|l ls] eqn:El; [done|]. rewrite <- El in *.
    cbn [mem_ok rm_umap rm_ubuckets rm_uinsert]. rewrite E. cbn [mbind outcome_bind negb rm_nodes mem_ok].
    rewrite Ea. cbn [mbind outcome_bind negb rm_links mem_ok]. rewrite Em.
    cbn [mbind outcome_bind rm_subsets mem_ok]. rewrite (wf_size rn_id hm Hw).
    unfold ids_of. rewrite length_fmap. reflexivity.
Qed.

(** C29: the routes of a node.  With memory and links that refer to nodes, the
    call ends without a wild access and releases everything it acquired once.
    If the links connect all nodes that occur in them, the routes are exactly
    the neighbours of the node in a spanning tree: a selection of the links, one
    less than there are nodes, that alone connects all of them.  If the links
    leave two nodes unconnected there are no routes. *)
Theorem mdv_routes_find_correct :
  t_links t <> [] ->
  exists routes, mdv_routes_find mem_ok t src = Done (Some routes, all_released)
    /\ (connected (t_links t) (t_links t) ->
        exists tree us, sublist tree (t_links t) /\ NoDup us /\ (forall y, y ∈ us <-> used (t_links t) y)
          /\ length us = S (length tree) /\ connected (t_links t) tree
          /\ forall p, mdv_hashmap_find id routes p = Some (Some p) <-> neighbour (t_nodes t) tree src p)
    /\ ((exists x y, used (t_links t) x /\ used (t_links t) y /\ ~ zconn (t_links t) x y) ->
        forall p, mdv_hashmap_find id routes p = Some None).
Proof.
  intros Hne. destruct (routes_find_runs Hne) as (us & ms & arr & Hd & Hu & Hm & Harr & E).
  assert (Hn : 0 < length us).
  { destruct (t_links t) as [|l ls]; [done|].
    assert (node0 l ∈ us) as Hin by (apply Hu; exists l; split; [by left|auto]).
    destruct us; [by apply elem_of_nil in Hin|simpl; lia]. }
  destruct (Mst.mst_find_spec (length us) ms Hn) as (k & ms' & Ek & Hs & Hres).
  { intros m (p & Hp)%list_elem_of_lookup. destruct (Forall2_lookup_r _ _ _ _ _ Hm Hp) as (l & _ & M0 & M1).
    split; by eapply lookup_lt_Some. }
  pose proof (matches_strip _ _ _ _ Hm Hs) as Hm'.
  destruct (routes_result_spec us (t_nodes t) arr src (t_links t) ms' k Hm' t_valid Harr)
    as (routes & Er & Hw & Hyes & Hno).
  exists routes. rewrite E, Ek. cbn [mbind outcome_bind]. rewrite Er. cbn [mbind outcome_bind].
  split; [done|]. pose proof (chosen_matches _ _ _ Hm') as Hch.
  assert (Hsub : sublist (chosen (t_links t) ms') (t_links t)) by (apply chosen_sublist; by eapply Forall2_length).
  assert (Hpos : forall x, used (t_links t) x -> exists i, us !! i = Some x /\ i < length us).
  { intros x (i & Hi)%Hu%list_elem_of_lookup. exists i. split; [done|]. by eapply lookup_lt_Some. }
  destruct Hres as [(Hk & Hlen & Hc)|(Hk & i & j & Hi & Hj & Hnc)].
  - assert (Htree : connected (t_links t) (chosen (t_links t) ms')).
    { intros x y (i & Hi & Li)%Hpos (j & Hj & Lj)%Hpos.
      destruct (mst_conn_zconn us _ _ i j x Hch (Hc i j Li Lj) Hi) as (y' & Hy' & Hz). by simplify_eq. }
    split.
    + intros _. exists (chosen (t_links t) ms'), us. split_and!; [done|done|done| |done|].
      * rewrite (Forall2_length _ _ _ Hch), Hlen. lia.
      * destruct (decide (k = 0)) as [Hz|Hz]; [|by apply Hyes]. intros p. rewrite (Hno Hz). split; [done|].
        intros (l & r & Hl & _). rewrite Hz in Hk. rewrite <- Hk in Hlen. apply Forall2_length in Hch.
        destruct (chosen (t_links t) ms'); [by apply elem_of_nil in Hl|simpl in *; lia].
    + intros (x & y & Hx & Hy & Hnz). exfalso. apply Hnz.
      eapply rtc_subrel; [|apply (Htree x y Hx Hy)]. intros a b [(l & Hl & ?)|(l & Hl & ?)]; [left|right];
        exists l; (split; [by eapply elem_of_sublist|done]).
  - split; [|intros _; by apply Hno]. intros Hall. exfalso. apply Hnc.
    destruct (lookup_lt_is_Some_2 us i Hi) as [x Hx]. destruct (lookup_lt_is_Some_2 us j Hj) as [y Hy].
    assert (zconn (t_links t) x y) as Hz by (apply Hall; apply Hu; by eapply list_elem_of_lookup_2).
    destruct (zconn_mst_conn us _ _ x y i Hd Hm Hz Hx) as (j' & Hj' & Hcj).
    by rewrite (NoDup_lookup _ _ _ _ Hd Hy Hj').
Qed.

End Routes.

Lemma test_topology_valid : valid (t_nodes test_topology) (t_links test_topology).
Proof. solve_valid. Qed.

Lemma mdv_routes_find_correct_witness :
  exists routes, mdv_routes_find mem_ok test_topology (mk_uuid 3 0) = Done (Some routes, all_released).
Proof.
  destruct (mdv_routes_find_correct test_topology (mk_uuid 3 0) test_topology_valid
    ltac:(vm_compute; reflexivity) ltac:(discriminate)) as (routes & E & _).
  exists routes. exact E.
Defined.

End Router.
