(* ===== verification/Vm.v ===== *)
(** * Expression machine (src/mdv_platform/mdv_vm.c, generic/mdv_stack.h)

    The stack is a buffer of bytes; a value on it is its payload, its size in
    four bytes and a flag that tells whether the payload is the value itself or
    an eight-byte pointer to it.  The other memory, with the program text, is a
    second array of bytes; a pointer is a position in the stack buffer, an
    address of that memory or a local variable of an operator. *)

From S2P Require Import Prelude.

Module Vm.

Record mdv_stack := mk_stack { s_capacity : nat; s_size : nat; s_data : list Z }.

Record vm := mk_vm { v_stack : mdv_stack; v_mem : list Z }.

Inductive ptr :=
| PStack (off : nat)
| PMem (addr : Z)
| PLocal (bytes : list Z).

Record mdv_vm_datum := mk_datum { external : bool; d_size : Z; d_data : ptr }.

Definition MDV_VM_TRUE : Z := 0xFF.
Definition MDV_VM_FALSE : Z := 0.

(** [mdv_stack_push_multiple] and [mdv_stack_pop_multiple]; [None] is the null
    pointer, the popped pointer a position in the buffer. *)
Definition mdv_stack_push (st : mdv_stack) (items : list Z) : option mdv_stack :=
  if s_size st + length items <=? s_capacity st
  then Some (mk_stack (s_capacity st) (s_size st + length items) (memcpy (s_data st) (s_size st) items))
  else None.

Definition mdv_stack_pop (st : mdv_stack) (count : nat) : option (mdv_stack * nat) :=
  if count <=? s_size st
  then Some (mk_stack (s_capacity st) (s_size st - count) (s_data st), s_size st - count)
  else None.

Definition mdv_stack_clear (sz : nat) (data : list Z) : mdv_stack := mk_stack sz 0 data.

(** [n] bytes of an array from [off] on. *)
Definition bytes_at (l : list Z) (off : Z) (n : nat) : outcome (list Z) :=
  if (0 <=? off)%Z && (off + Z.of_nat n <=? Z.of_nat (length l))%Z
  then Done (slice l (Z.to_nat off) n) else OutOfBounds off.

(** The [n] bytes behind a pointer. *)
Definition load (m : vm) (p : ptr) (n : nat) : outcome (list Z) :=
  match p with
  | PStack off => bytes_at (s_data (v_stack m)) (Z.of_nat off) n
  | PMem a => bytes_at (v_mem m) a n
  | PLocal bs => bytes_at bs 0 n
  end.

(** The eight bytes of a pointer; only addresses of the other memory are ever
    stored. *)
Definition ptr_bytes (p : ptr) : outcome (list Z) :=
  match p with PMem a => Done (to_le 8 a) | _ => OutOfBounds (-1) end.

Definition set_stack (m : vm) (st : mdv_stack) : vm := mk_vm st (v_mem m).

(** The three pushes joined by [&&]. *)
Fixpoint push_seq (st : mdv_stack) (parts : list (list Z)) : mdv_stack * bool :=
  match parts with
  | [] => (st, true)
  | p :: parts => match mdv_stack_push st p with
                  | Some st => push_seq st parts
                  | None => (st, false)
                  end
  end.

Definition flag (b : bool) : list Z := [if b then 1%Z else 0%Z].

Definition mdv_vm_stack_push (m : vm) (data : mdv_vm_datum) : outcome (vm * mdv_errno) :=
  payload ← (if external data then ptr_bytes (d_data data) else load m (d_data data) (Z.to_nat (d_size data)));
  let '(st, ok) := push_seq (v_stack m) [payload; to_le 4 (d_size data); flag (external data)] in
  Done (set_stack m st, if ok then MDV_OK else MDV_STACK_OVERFLOW).

(** The datum described by the flag at [off], the size before it and the
    payload at [at_]. *)
Definition mdv_vm_stack_pop (m : vm) : outcome (vm * mdv_errno * option mdv_vm_datum) :=
  match mdv_stack_pop (v_stack m) 1 with
  | None => Done (m, MDV_FAILED, None)
  | Some (st, pe) =>
      e ← bytes_at (s_data st) (Z.of_nat pe) 1;
      let external := negb (of_le e =? 0)%Z in
      match mdv_stack_pop st 4 with
      | None => Done (set_stack m st, MDV_FAILED, None)
      | Some (st, ps) =>
          s ← bytes_at (s_data st) (Z.of_nat ps) 4;
          let size := of_le s in
          let sz := if external then 8 else Z.to_nat size in
          match mdv_stack_pop st sz with
          | None => Done (set_stack m st, MDV_FAILED, None)
          | Some (st, p) =>
              d ← (if external then b ← bytes_at (s_data st) (Z.of_nat p) 8; Done (PMem (of_le b))
                   else Done (PStack p));
              Done (set_stack m st, MDV_OK, Some (mk_datum external size d))
          end
      end
  end.

Definition mdv_vm_stack_top (m : vm) : outcome (mdv_errno * option mdv_vm_datum) :=
  let st := v_stack m in
  if s_size st <? 1 + 4 then Done (MDV_FAILED, None) else
  let top := Z.of_nat (s_size st) in
  e ← bytes_at (s_data st) (top - 1) 1;
  let external := negb (of_le e =? 0)%Z in
  s ← bytes_at (s_data st) (top - 1 - 4) 4;
  let size := of_le s in
  let sz := if external then 8 else Z.to_nat size in
  if s_size st <? sz + 1 + 4 then Done (MDV_FAILED, None) else
  let p := s_size st - 1 - 4 - sz in
  d ← (if external then b ← bytes_at (s_data st) (Z.of_nat p) 8; Done (PMem (of_le b))
       else Done (PStack p));
  Done (MDV_OK, Some (mk_datum external size d)).

(** ** The interpreter *)

Abbreviation mdv_vm_fn := (vm -> outcome (vm * mdv_errno)).

(** One instruction per round, until [ip] is null; [ip] is an address. *)
Fixpoint mdv_vm_run (fuel : nat) (fns : list mdv_vm_fn) (m : vm) (ip : Z) : outcome (vm * mdv_errno) :=
  match fuel with
  | 0 => OutOfFuel
  | S fuel =>
      op ← bytes_at (v_mem m) ip 1;
      let ip := (ip + 1)%Z in
      match of_le op with
      | 0%Z => mdv_vm_run fuel fns m ip
      | 1%Z =>
          e ← bytes_at (v_mem m) ip 1;
          s ← bytes_at (v_mem m) (ip + 1) 4;
          let datum := mk_datum (negb (of_le e =? 0)%Z) (of_le s) (PMem (ip + 1 + 4)) in
          let size := if external datum then 8%Z else d_size datum in
          let ip := (ip + (1 + 4 + size))%Z in
          '(m, err) ← mdv_vm_stack_push m datum;
          if decide (err = MDV_OK) then mdv_vm_run fuel fns m ip else Done (m, err)
      | 255%Z => Done (m, MDV_OK)
      | 2%Z =>
          i ← bytes_at (v_mem m) ip 2;
          let id := Z.to_nat (of_le i) in
          let ip := (ip + 2)%Z in
          match fns !! id with
          | None => Done (m, MDV_NO_IMPL)
          | Some fn =>
              '(m, err) ← fn m;
              if decide (err = MDV_OK) then mdv_vm_run fuel fns m ip else Done (m, err)
          end
      | _ => Done (m, MDV_FAILED)
      end
  end.

Definition mdv_vm_result_as_bool (m : vm) : outcome (mdv_errno * option bool) :=
  '(err, d) ← mdv_vm_stack_top m;
  match d with
  | None => Done (err, None)
  | Some d =>
      if negb (d_size d =? 1)%Z then Done (MDV_INVALID_TYPE, None)
      else v ← load m (d_data d) 1; Done (MDV_OK, Some (negb (of_le v =? MDV_VM_FALSE)%Z))
  end.

(** ** Operators *)

Definition mdv_vm_stack_pop_pair (m : vm) : outcome (vm * mdv_errno * option (mdv_vm_datum * mdv_vm_datum)) :=
  '(m, err, op1) ← mdv_vm_stack_pop m;
  match op1 with
  | None => Done (m, err, None)
  | Some op1 =>
      '(m, err, op0) ← mdv_vm_stack_pop m;
      match op0 with
      | None => Done (m, err, None)
      | Some op0 => Done (m, MDV_OK, Some (op0, op1))
      end
  end.

(** The sign of the first difference. *)
Fixpoint memcmp (a b : list Z) : Z :=
  match a, b with
  | x :: a, y :: b => if (x <? y)%Z then -1 else if (y <? x)%Z then 1 else memcmp a b
  | _, _ => 0
  end.

(** [memcmp(op[0].data, op[1].data, n)] *)
Definition cmp_data (m : vm) (a b : mdv_vm_datum) (n : Z) : outcome Z :=
  x ← load m (d_data a) (Z.to_nat n);
  y ← load m (d_data b) (Z.to_nat n);
  Done (memcmp x y).

Definition push_bool (m : vm) (b : bool) : outcome (vm * mdv_errno) :=
  let res := if b then MDV_VM_TRUE else MDV_VM_FALSE in
  mdv_vm_stack_push m (mk_datum false 1 (PLocal [res])).

Definition mdv_vmop_equal (m : vm) : outcome (vm * mdv_errno) :=
  '(m, err, ops) ← mdv_vm_stack_pop_pair m;
  match ops with
  | None => Done (m, err)
  | Some (a, b) =>
      if negb (d_size a =? d_size b)%Z then push_bool m false
      else c ← cmp_data m a b (d_size a); push_bool m (c =? 0)%Z
  end.

Definition mdv_vmop_not_equal (m : vm) : outcome (vm * mdv_errno) :=
  '(m, err, ops) ← mdv_vm_stack_pop_pair m;
  match ops with
  | None => Done (m, err)
  | Some (a, b) =>
      if negb (d_size a =? d_size b)%Z then push_bool m true
      else c ← cmp_data m a b (d_size a); push_bool m (negb (c =? 0)%Z)
  end.

Definition min_size (a b : mdv_vm_datum) : Z := if (d_size a <? d_size b)%Z then d_size a else d_size b.

Definition mdv_vmop_greater (m : vm) : outcome (vm * mdv_errno) :=
  '(m, err, ops) ← mdv_vm_stack_pop_pair m;
  match ops with
  | None => Done (m, err)
  | Some (a, b) =>
      cmp_res ← cmp_data m a b (min_size a b);
      push_bool m ((0 <? cmp_res) || ((cmp_res =? 0) && (d_size b <? d_size a)))%Z
  end.

Definition mdv_vmop_greater_or_equal (m : vm) : outcome (vm * mdv_errno) :=
  '(m, err, ops) ← mdv_vm_stack_pop_pair m;
  match ops with
  | None => Done (m, err)
  | Some (a, b) =>
      cmp_res ← cmp_data m a b (min_size a b);
      push_bool m ((0 <? cmp_res) || ((cmp_res =? 0) && (d_size b <=? d_size a)))%Z
  end.

Definition mdv_vmop_less (m : vm) : outcome (vm * mdv_errno) :=
  '(m, err, ops) ← mdv_vm_stack_pop_pair m;
  match ops with
  | None => Done (m, err)
  | Some (a, b) =>
      cmp_res ← cmp_data m a b (min_size a b);
      push_bool m ((cmp_res <? 0) || ((cmp_res =? 0) && (d_size a <? d_size b)))%Z
  end.

Definition mdv_vmop_less_or_equal (m : vm) : outcome (vm * mdv_errno) :=
  '(m, err, ops) ← mdv_vm_stack_pop_pair m;
  match ops with
  | None => Done (m, err)
  | Some (a, b) =>
      cmp_res ← cmp_data m a b (min_size a b);
      push_bool m ((cmp_res <? 0) || ((cmp_res =? 0) && (d_size a <=? d_size b)))%Z
  end.

Definition mdv_vmop_and (m : vm) : outcome (vm * mdv_errno) :=
  '(m, err, ops) ← mdv_vm_stack_pop_pair m;
  match ops with
  | None => Done (m, err)
  | Some (a, b) =>
      if negb (d_size a =? d_size b)%Z then Done (m, MDV_INVALID_ARG)
      else
        lhs ← load m (d_data a) (Z.to_nat (d_size a));
        rhs ← load m (d_data b) (Z.to_nat (d_size a));
        mdv_vm_stack_push m (mk_datum false (d_size a) (PLocal (zip_with Z.land lhs rhs)))
  end.

Definition mdv_vmop_or (m : vm) : outcome (vm * mdv_errno) :=
  '(m, err, ops) ← mdv_vm_stack_pop_pair m;
  match ops with
  | None => Done (m, err)
  | Some (a, b) =>
      if negb (d_size a =? d_size b)%Z then Done (m, MDV_INVALID_ARG)
      else
        lhs ← load m (d_data a) (Z.to_nat (d_size a));
        rhs ← load m (d_data b) (Z.to_nat (d_size a));
        mdv_vm_stack_push m (mk_datum false (d_size a) (PLocal (zip_with Z.lor lhs rhs)))
  end.

(** [~data[i]] cut to a byte. *)
Definition byte_not (b : Z) : Z := u8 (Z.lnot b).

(** The complement is written in place, on the stack or behind the external
    pointer. *)
Definition mdv_vmop_not (m : vm) : outcome (vm * mdv_errno) :=
  '(err, d) ← mdv_vm_stack_top m;
  match d with
  | None => Done (m, err)
  | Some d =>
      bs ← load m (d_data d) (Z.to_nat (d_size d));
      let bs := byte_not <$> bs in
      match d_data d with
      | PStack off =>
          let st := v_stack m in
          Done (set_stack m (mk_stack (s_capacity st) (s_size st) (memcpy (s_data st) off bs)), MDV_OK)
      | PMem a => Done (mk_vm (v_stack m) (memcpy (v_mem m) (Z.to_nat a) bs), MDV_OK)
      | PLocal _ => Done (m, MDV_OK)
      end
  end.

(** ** Values on the stack *)

Inductive item :=
| Inline (bs : list Z)
| Ext (a : Z) (n : Z).

Definition is_ext (it : item) : bool := match it with Inline _ => false | Ext _ _ => true end.
Definition payload (it : item) : list Z := match it with Inline bs => bs | Ext a _ => to_le 8 a end.
Definition isize (it : item) : Z := match it with Inline bs => Z.of_nat (length bs) | Ext _ n => n end.
Definition enc (it : item) : list Z := payload it ++ to_le 4 (isize it) ++ flag (is_ext it).

(** The bytes the item stands for; [mem] is the other memory. *)
Definition value (mem : list Z) (it : item) : list Z :=
  match it with Inline bs => bs | Ext a n => slice mem (Z.to_nat a) (Z.to_nat n) end.

Definition item_ok (mem : list Z) (it : item) : Prop :=
  fits 32 (isize it) /\
  match it with
  | Inline bs => Forall is_byte bs
  | Ext a n => (0 <= a < 2 ^ 64)%Z /\ (a + n <= Z.of_nat (length mem))%Z
  end.

(** The stack holds the items, the top one first. *)
Record repr (m : vm) (its : list item) : Prop := {
  r_len : length (s_data (v_stack m)) = s_capacity (v_stack m);
  r_size : s_size (v_stack m) <= s_capacity (v_stack m);
  r_take : take (s_size (v_stack m)) (s_data (v_stack m)) = concat (enc <$> reverse its);
  r_ok : Forall (item_ok (v_mem m)) its
}.

Lemma length_enc it : length (enc it) = length (payload it) + 5.
Proof. unfold enc. rewrite !length_app, length_to_le. simpl. lia. Qed.

Lemma repr_size m its : repr m its -> s_size (v_stack m) = length (concat (enc <$> reverse its)).
Proof. intros [Hl Hs Ht _]. rewrite <- Ht, length_take. lia. Qed.

Lemma concat_snoc {A} (l : list (list A)) x : concat (l ++ [x]) = concat l ++ x.
Proof. rewrite concat_app. simpl. by rewrite app_nil_r. Qed.

Lemma repr_cons m it its :
  repr m (it :: its) ->
  take (s_size (v_stack m)) (s_data (v_stack m))
    = concat (enc <$> reverse its) ++ payload it ++ to_le 4 (isize it) ++ flag (is_ext it)
  /\ s_size (v_stack m) = length (concat (enc <$> reverse its)) + length (payload it) + 5.
Proof.
  intros Hr. pose proof (repr_size _ _ Hr) as Hs. rewrite reverse_cons, fmap_app in Hs. simpl in Hs.
  rewrite concat_snoc, length_app, length_enc in Hs. split; [|lia].
  rewrite (r_take _ _ Hr), reverse_cons, fmap_app. simpl. by rewrite concat_snoc.
Qed.

(** A part of the used part of the buffer. *)
Lemma bytes_at_take (l a b c : list Z) s :
  take s l = a ++ b ++ c -> s <= length l -> bytes_at l (Z.of_nat (length a)) (length b) = Done b.
Proof.
  intros E Hs. assert (Hl : s = length a + length b + length c).
  { apply (f_equal length) in E. rewrite length_take, !length_app in E. lia. }
  unfold bytes_at. rewrite (proj2 (andb_true_iff _ _)) by (split; [apply Z.leb_le|apply Z.leb_le]; lia).
  f_equal. rewrite Nat2Z.id. unfold slice.
  rewrite <- (take_drop s l), E. rewrite <- !(assoc_L (++)). rewrite drop_app_length. apply take_app_length.
Qed.

Lemma bytes_at_eq (l a b c : list Z) s off n :
  take s l = a ++ b ++ c -> s <= length l -> off = Z.of_nat (length a) -> n = length b ->
  bytes_at l off n = Done b.
Proof. intros E Hs -> ->. by eapply bytes_at_take. Qed.

Lemma flag_of b : negb (of_le (flag b) =? 0)%Z = b.
Proof. by destruct b. Qed.

Lemma size_of_le it mem : item_ok mem it -> of_le (to_le 4 (isize it)) = isize it.
Proof. intros [Hf _]. apply of_to_le_id. exact Hf. Qed.

(** What a datum refers to, in any machine with the same buffer and memory. *)
Definition denotes (data mem : list Z) (d : mdv_vm_datum) (it : item) : Prop :=
  d_size d = isize it /\
  forall m, s_data (v_stack m) = data -> v_mem m = mem ->
    load m (d_data d) (Z.to_nat (d_size d)) = Done (value mem it).

Lemma repr_pop m it its :
  repr m (it :: its) ->
  repr (set_stack m (mk_stack (s_capacity (v_stack m)) (length (concat (enc <$> reverse its))) (s_data (v_stack m)))) its.
Proof.
  intros Hr. destruct (repr_cons _ _ _ Hr) as [Ht Hs]. destruct Hr as [Hl Hsz _ Hok].
  split; simpl; [done|lia| |by apply Forall_cons in Hok as [_ ?]].
  apply (f_equal (take (length (concat (enc <$> reverse its))))) in Ht.
  rewrite take_take, take_app_length in Ht. rewrite Nat.min_l in Ht by lia. done.
Qed.

(** The pointer of the top item. *)
Lemma top_denotes m it its :
  repr m (it :: its) ->
  denotes (s_data (v_stack m)) (v_mem m)
    (mk_datum (is_ext it) (isize it)
       (match it with Inline _ => PStack (length (concat (enc <$> reverse its))) | Ext a _ => PMem a end)) it.
Proof.
  intros Hr. destruct (repr_cons _ _ _ Hr) as [Ht Hs]. split; [done|]. intros m' Hd Hm. simpl.
  pose proof (r_len _ _ Hr) as Hl. pose proof (r_size _ _ Hr) as Hsz.
  destruct it as [bs|a n]; simpl in *.
  - rewrite Nat2Z.id, Hd. by eapply bytes_at_take; [exact Ht|lia].
  - pose proof (r_ok _ _ Hr) as [[Hf [Ha Hb]] _]%Forall_cons. simpl in *. rewrite Hm. unfold bytes_at.
    rewrite (proj2 (andb_true_iff _ _)); [done|]. split; apply Z.leb_le; [lia|]. destruct Hf. lia.
Qed.

(** Popping the top item. *)
Lemma pop_spec m it its :
  repr m (it :: its) ->
  exists m' d, mdv_vm_stack_pop m = Done (m', MDV_OK, Some d) /\ repr m' its
    /\ v_mem m' = v_mem m /\ s_data (v_stack m') = s_data (v_stack m)
    /\ s_capacity (v_stack m') = s_capacity (v_stack m)
    /\ denotes (s_data (v_stack m)) (v_mem m) d it.
Proof.
  intros Hr. destruct (repr_cons _ _ _ Hr) as [Ht Hs]. pose proof (r_len _ _ Hr) as Hl. pose proof (r_size _ _ Hr) as Hsz.
  pose proof (r_ok _ _ Hr) as [Hit _]%Forall_cons.
  set (base := length (concat (enc <$> reverse its))) in *.
  set (data := s_data (v_stack m)) in *. set (cap := s_capacity (v_stack m)) in *.
  assert (Hflag : bytes_at data (Z.of_nat (s_size (v_stack m) - 1)) 1 = Done (flag (is_ext it))).
  { eapply (bytes_at_eq _ (concat (enc <$> reverse its) ++ payload it ++ to_le 4 (isize it)) _ []);
      [rewrite Ht, <- !(assoc_L (++)), app_nil_r; done|lia| |done].
    rewrite !length_app, length_to_le. fold base. lia. }
  assert (Hsize : bytes_at data (Z.of_nat (s_size (v_stack m) - 1 - 4)) 4 = Done (to_le 4 (isize it))).
  { eapply (bytes_at_eq _ (concat (enc <$> reverse its) ++ payload it) _ (flag (is_ext it)));
      [rewrite Ht, <- !(assoc_L (++)); done|lia| |by rewrite length_to_le].
    rewrite !length_app. fold base. lia. }
  assert (Hsz' : (if is_ext it then 8 else Z.to_nat (isize it)) = length (payload it)).
  { destruct it; simpl; [by rewrite Nat2Z.id|done]. }
  unfold mdv_vm_stack_pop, mdv_stack_pop.
  destruct (Nat.leb_spec 1 (s_size (v_stack m))); [|lia]. cbn [s_data s_size s_capacity]. fold data cap.
  rewrite Hflag. cbn [mbind outcome_bind]. rewrite flag_of.
  destruct (Nat.leb_spec 4 (s_size (v_stack m) - 1)); [|lia]. cbn [s_data s_size s_capacity].
  rewrite Hsize. cbn [mbind outcome_bind]. rewrite (size_of_le it (v_mem m)) by done. rewrite Hsz'.
  destruct (Nat.leb_spec (length (payload it)) (s_size (v_stack m) - 1 - 4)); [|lia]. cbn [s_data s_size s_capacity].
  replace (s_size (v_stack m) - 1 - 4 - length (payload it)) with base by lia.
  pose proof (top_denotes _ _ _ Hr) as Hden. pose proof (repr_pop _ _ _ Hr) as Hpop. fold base data cap in Hden, Hpop.
  destruct it as [bs|a n]; simpl is_ext in *; cbv iota.
  - cbn [mbind outcome_bind]. do 2 eexists. split; [done|]. split_and!; done.
  - rewrite (bytes_at_eq data (concat (enc <$> reverse its)) (to_le 8 a) (to_le 4 n ++ flag true) (s_size (v_stack m)));
      [|done|lia|done|by rewrite length_to_le].
    cbn [mbind outcome_bind]. rewrite of_to_le_id by apply Hit. do 2 eexists. split; [done|]. split_and!; done.
Qed.

(** Reading the top item. *)
Lemma top_spec m it its :
  repr m (it :: its) ->
  mdv_vm_stack_top m = Done (MDV_OK, Some (mk_datum (is_ext it) (isize it)
    (match it with Inline _ => PStack (length (concat (enc <$> reverse its))) | Ext a _ => PMem a end))).
Proof.
  intros Hr. destruct (repr_cons _ _ _ Hr) as [Ht Hs]. pose proof (r_len _ _ Hr) as Hl. pose proof (r_size _ _ Hr) as Hsz.
  pose proof (r_ok _ _ Hr) as [Hit _]%Forall_cons.
  set (base := length (concat (enc <$> reverse its))) in *.
  unfold mdv_vm_stack_top. cbv zeta. destruct (Nat.ltb_spec (s_size (v_stack m)) (1 + 4)); [lia|].
  rewrite (bytes_at_eq _ (concat (enc <$> reverse its) ++ payload it ++ to_le 4 (isize it)) (flag (is_ext it)) []
             (s_size (v_stack m)) (Z.of_nat (s_size (v_stack m)) - 1) 1);
    [|rewrite Ht, <- !(assoc_L (++)), app_nil_r; done|lia|rewrite !length_app, length_to_le; fold base; lia|done].
  cbn [mbind outcome_bind]. rewrite flag_of.
  rewrite (bytes_at_eq _ (concat (enc <$> reverse its) ++ payload it) (to_le 4 (isize it)) (flag (is_ext it))
             (s_size (v_stack m)) (Z.of_nat (s_size (v_stack m)) - 1 - 4) 4);
    [|rewrite Ht, <- !(assoc_L (++)); done|lia|rewrite !length_app; fold base; lia|by rewrite length_to_le].
  cbn [mbind outcome_bind]. rewrite (size_of_le it (v_mem m)) by done.
  assert (Hsz' : (if is_ext it then 8 else Z.to_nat (isize it)) = length (payload it)).
  { destruct it; simpl; [by rewrite Nat2Z.id|done]. }
  rewrite Hsz'. destruct (Nat.ltb_spec (s_size (v_stack m)) (length (payload it) + 1 + 4)); [lia|].
  replace (s_size (v_stack m) - 1 - 4 - length (payload it)) with base by lia.
  destruct it as [bs|a n]; simpl is_ext in *; cbv iota; [done|].
  rewrite (bytes_at_eq _ (concat (enc <$> reverse its)) (to_le 8 a) (to_le 4 n ++ flag true) (s_size (v_stack m)));
    [|done|lia|done|by rewrite length_to_le].
  cbn [mbind outcome_bind]. by rewrite of_to_le_id by apply Hit.
Qed.

(** ** Pushing *)

Lemma take_memcpy (l b : list Z) s :
  s + length b <= length l -> take (s + length b) (memcpy l s b) = take s l ++ b.
Proof.
  intros Hb. unfold memcpy. rewrite (assoc_L (++)).
  replace (s + length b) with (length (take s l ++ b)) at 1 by (rewrite length_app, length_take; lia).
  apply take_app_length.
Qed.

Lemma push_seq_ok st parts :
  length (s_data st) = s_capacity st -> s_size st + length (concat parts) <= s_capacity st ->
  exists data', push_seq st parts = (mk_stack (s_capacity st) (s_size st + length (concat parts)) data', true)
    /\ length data' = length (s_data st)
    /\ take (s_size st + length (concat parts)) data' = take (s_size st) (s_data st) ++ concat parts.
Proof.
  revert st. induction parts as [|p parts IH]; intros st Hl Hs; simpl in *.
  { exists (s_data st). rewrite Nat.add_0_r, app_nil_r. destruct st; done. }
  rewrite length_app in *. unfold mdv_stack_push. destruct (Nat.leb_spec (s_size st + length p) (s_capacity st)); [|lia].
  destruct (IH (mk_stack (s_capacity st) (s_size st + length p) (memcpy (s_data st) (s_size st) p)))
    as (data' & E & Hl' & Ht); simpl in *; [rewrite length_memcpy; lia|lia|].
  exists data'. rewrite E, Nat.add_assoc. split_and!; [done|rewrite Hl', length_memcpy; lia|].
  rewrite Ht, take_memcpy by lia. by rewrite <- (assoc_L (++)).
Qed.

Lemma push_seq_fail st parts :
  s_size st <= s_capacity st -> s_capacity st < s_size st + length (concat parts) -> snd (push_seq st parts) = false.
Proof.
  revert st. induction parts as [|p parts IH]; intros st Hc Hs; simpl in *; [lia|].
  rewrite length_app in Hs. unfold mdv_stack_push.
  destruct (Nat.leb_spec (s_size st + length p) (s_capacity st)); [|done]. apply IH; simpl; lia.
Qed.

(** Pushing an item: it lies on top of the others, or there is no room. *)
Lemma push_spec m its d it :
  repr m its -> item_ok (v_mem m) it -> external d = is_ext it -> d_size d = isize it ->
  (if external d then ptr_bytes (d_data d) else load m (d_data d) (Z.to_nat (d_size d))) = Done (payload it) ->
  exists m', mdv_vm_stack_push m d
      = Done (m', if s_size (v_stack m) + length (enc it) <=? s_capacity (v_stack m) then MDV_OK else MDV_STACK_OVERFLOW)
    /\ v_mem m' = v_mem m /\ s_capacity (v_stack m') = s_capacity (v_stack m)
    /\ (s_size (v_stack m) + length (enc it) <= s_capacity (v_stack m) -> repr m' (it :: its)).
Proof.
  intros Hr Hok He Hsz Hp. unfold mdv_vm_stack_push. rewrite Hp. cbn [mbind outcome_bind]. rewrite He, Hsz.
  assert (Hparts : concat [payload it; to_le 4 (isize it); flag (is_ext it)] = enc it).
  { unfold enc. simpl. done. }
  destruct (Nat.leb_spec (s_size (v_stack m) + length (enc it)) (s_capacity (v_stack m))) as [Hle|Hgt].
  - destruct (push_seq_ok (v_stack m) [payload it; to_le 4 (isize it); flag (is_ext it)]) as (data' & E & Hl & Ht);
      [apply Hr|by rewrite Hparts|]. rewrite Hparts in *. rewrite E. eexists. split; [done|]. split_and!; try done.
    intros _. split; simpl; [rewrite Hl; apply Hr|done| |constructor; [done|apply Hr]].
    rewrite Ht, (r_take _ _ Hr), reverse_cons, fmap_app. simpl. by rewrite concat_snoc.
  - pose proof (push_seq_fail (v_stack m) [payload it; to_le 4 (isize it); flag (is_ext it)]) as Hf.
    rewrite Hparts in Hf. specialize (Hf (r_size _ _ Hr) Hgt).
    assert (Hcap : s_capacity (fst (push_seq (v_stack m) [payload it; to_le 4 (isize it); flag (is_ext it)]))
                   = s_capacity (v_stack m)).
    { clear. generalize [payload it; to_le 4 (isize it); flag (is_ext it)] as ps, (v_stack m) as st.
      induction ps as [|p ps IH]; intros st; [done|]. simpl. unfold mdv_stack_push.
      destruct (_ <=? _); [|done]. by rewrite IH. }
    destruct (push_seq _ _) as [st ok]. simpl in Hf, Hcap. subst ok. eexists. split; [done|].
    split_and!; try done. lia.
Qed.

Lemma push_local m its bs :
  repr m its -> Forall is_byte bs -> fits 32 (Z.of_nat (length bs)) ->
  exists m', mdv_vm_stack_push m (mk_datum false (Z.of_nat (length bs)) (PLocal bs))
      = Done (m', if s_size (v_stack m) + (length bs + 5) <=? s_capacity (v_stack m) then MDV_OK else MDV_STACK_OVERFLOW)
    /\ v_mem m' = v_mem m /\ s_capacity (v_stack m') = s_capacity (v_stack m)
    /\ (s_size (v_stack m) + (length bs + 5) <= s_capacity (v_stack m) -> repr m' (Inline bs :: its)).
Proof.
  intros Hr Hb Hf. destruct (push_spec m its (mk_datum false (Z.of_nat (length bs)) (PLocal bs)) (Inline bs))
    as (m' & E & H); [done|by split|done|done| |].
  { simpl. unfold bytes_at. rewrite Nat2Z.id. simpl. rewrite (proj2 (Z.leb_le _ _)) by lia.
    unfold slice. rewrite drop_0. by rewrite firstn_all. }
  rewrite length_enc in *. simpl in *. eauto.
Qed.

(** ** Comparison of byte strings *)

(** The lexicographic order, a proper prefix being smaller. *)
Fixpoint lex (a b : list Z) : comparison :=
  match a, b with
  | [], [] => Eq
  | [], _ :: _ => Lt
  | _ :: _, [] => Gt
  | x :: a, y :: b => if (x <? y)%Z then Lt else if (y <? x)%Z then Gt else lex a b
  end.

Lemma lex_eq a b : lex a b = Eq <-> a = b.
Proof.
  revert b. induction a as [|x a IH]; intros [|y b]; simpl; try done.
  destruct (Z.ltb_spec x y); [split; [done|intros [= -> ->]; lia]|].
  destruct (Z.ltb_spec y x); [split; [done|intros [= -> ->]; lia]|].
  assert (x = y) as -> by lia. rewrite IH. split; [by intros ->|by intros [= ->]].
Qed.

(** [memcmp] over the shorter length and then the lengths decide [lex]. *)
Lemma memcmp_lex a b :
  let n := length a `min` length b in
  let c := memcmp (take n a) (take n b) in
  match lex a b with
  | Eq => c = 0%Z /\ length a = length b
  | Lt => c = (-1)%Z \/ c = 0%Z /\ length a < length b
  | Gt => c = 1%Z \/ c = 0%Z /\ length b < length a
  end.
Proof.
  revert b. induction a as [|x a IH]; intros [|y b]; simpl; [done|right; split; [done|lia]..|].
  destruct (Z.ltb_spec x y); [by left|]. destruct (Z.ltb_spec y x); [by left|].
  specialize (IH b). simpl in IH. destruct (lex a b); naive_solver lia.
Qed.

(** ** Operators on represented stacks *)

Lemma pop_empty m : repr m [] -> mdv_vm_stack_pop m = Done (m, MDV_FAILED, None).
Proof. intros Hr. unfold mdv_vm_stack_pop, mdv_stack_pop. by rewrite (repr_size _ _ Hr). Qed.

Lemma top_empty m : repr m [] -> mdv_vm_stack_top m = Done (MDV_FAILED, None).
Proof. intros Hr. unfold mdv_vm_stack_top. by rewrite (repr_size _ _ Hr). Qed.

Lemma repr_size_cons2 m x y its :
  repr m (y :: x :: its) ->
  s_size (v_stack m) = length (concat (enc <$> reverse its)) + length (enc x) + length (enc y).
Proof.
  intros Hr. rewrite (repr_size _ _ Hr), !reverse_cons, !fmap_app. simpl. by rewrite !concat_snoc, !length_app.
Qed.

(** Two items or more: both are popped, the pointers stay good. *)
Lemma pop_pair_spec m x y its :
  repr m (y :: x :: its) ->
  exists m' a b, mdv_vm_stack_pop_pair m = Done (m', MDV_OK, Some (a, b)) /\ repr m' its
    /\ v_mem m' = v_mem m /\ s_capacity (v_stack m') = s_capacity (v_stack m)
    /\ s_size (v_stack m') + length (enc x) + length (enc y) <= s_capacity (v_stack m')
    /\ d_size a = isize x /\ d_size b = isize y
    /\ load m' (d_data a) (Z.to_nat (d_size a)) = Done (value (v_mem m) x)
    /\ load m' (d_data b) (Z.to_nat (d_size b)) = Done (value (v_mem m) y).
Proof.
  intros Hr. destruct (pop_spec _ _ _ Hr) as (m1 & b & E1 & Hr1 & Hm1 & Hd1 & Hc1 & [Hsb Hb]).
  destruct (pop_spec _ _ _ Hr1) as (m2 & a & E2 & Hr2 & Hm2 & Hd2 & Hc2 & [Hsa Ha]).
  unfold mdv_vm_stack_pop_pair. rewrite E1. cbn [mbind outcome_bind]. rewrite E2. cbn [mbind outcome_bind].
  exists m2, a, b. split_and!; try done; try congruence.
  - pose proof (repr_size_cons2 _ _ _ _ Hr) as H0. rewrite <- (repr_size _ _ Hr2) in H0.
    pose proof (r_size _ _ Hr). rewrite Hc2, Hc1. lia.
  - rewrite <- Hm1. apply Ha; congruence.
  - apply Hb; congruence.
Qed.

(** Fewer than two items: the pair operators fail. *)
Lemma pop_pair_short m its :
  repr m its -> length its < 2 -> exists m', mdv_vm_stack_pop_pair m = Done (m', MDV_FAILED, None) /\ v_mem m' = v_mem m.
Proof.
  intros Hr Hl. unfold mdv_vm_stack_pop_pair. destruct its as [|it [|? ?]]; [..|simpl in Hl; lia].
  - rewrite (pop_empty _ Hr). cbn [mbind outcome_bind]. eauto.
  - destruct (pop_spec _ _ _ Hr) as (m1 & b & E1 & Hr1 & Hm1 & _). rewrite E1. cbn [mbind outcome_bind].
    rewrite (pop_empty _ Hr1). cbn [mbind outcome_bind]. eauto.
Qed.

Lemma push_bool_spec m its (b : bool) :
  repr m its -> s_size (v_stack m) + 6 <= s_capacity (v_stack m) ->
  exists m', push_bool m b = Done (m', MDV_OK) /\ v_mem m' = v_mem m
    /\ s_capacity (v_stack m') = s_capacity (v_stack m)
    /\ repr m' (Inline [if b then MDV_VM_TRUE else MDV_VM_FALSE] :: its).
Proof.
  intros Hr Hroom. destruct (push_local m its [if b then MDV_VM_TRUE else MDV_VM_FALSE]) as (m' & E & Hm & Hc & Hr');
    [done|repeat constructor; by destruct b|done|].
  simpl in *. rewrite (proj2 (Nat.leb_le _ _)) in E by lia. exists m'. split_and!; try done. apply Hr'. lia.
Qed.

(** The boolean on top is read back. *)
Lemma result_as_bool_spec m its (b : bool) :
  repr m (Inline [if b then MDV_VM_TRUE else MDV_VM_FALSE] :: its) ->
  mdv_vm_result_as_bool m = Done (MDV_OK, Some b).
Proof.
  intros Hr. unfold mdv_vm_result_as_bool. rewrite (top_spec _ _ _ Hr). cbn [mbind outcome_bind d_size d_data].
  destruct (top_denotes _ _ _ Hr) as [_ Hl]. specialize (Hl m eq_refl eq_refl). simpl in *.
  change (Z.to_nat (Z.of_nat 1)) with 1 in Hl. rewrite Hl. cbn [mbind outcome_bind]. by destruct b.
Qed.

(** Any value on the stack itself, read as a boolean. *)
Lemma result_inline m bs its :
  repr m (Inline bs :: its) ->
  mdv_vm_result_as_bool m = Done (match bs with
                                  | [b] => (MDV_OK, Some (negb (b =? 0)%Z))
                                  | _ => (MDV_INVALID_TYPE, None)
                                  end).
Proof.
  intros Hr. unfold mdv_vm_result_as_bool. rewrite (top_spec _ _ _ Hr). cbn [mbind outcome_bind d_size d_data isize].
  destruct bs as [|b [|b' bs]]; cbn [length]; [done| |rewrite (proj2 (Z.eqb_neq _ 1)) by lia; done].
  destruct (top_denotes _ _ _ Hr) as [_ Hl]. specialize (Hl m eq_refl eq_refl). cbn [d_data d_size isize] in Hl.
  change (Z.to_nat (Z.of_nat (length [b]))) with 1 in Hl. cbn [negb Z.of_nat Z.eqb Pos.eqb Pos.of_succ_nat].
  rewrite Hl. cbn [mbind outcome_bind value]. by rewrite (Z.add_0_r b : of_le [b] = b).
Qed.

Lemma load_prefix m p n k bs :
  load m p n = Done bs -> k <= n -> load m p k = Done (take k bs).
Proof.
  intros H Hk. assert (Hb : forall l off, bytes_at l off n = Done bs -> bytes_at l off k = Done (take k bs)).
  { intros l off. unfold bytes_at. destruct (Z.leb_spec 0 off); [|done]. simpl.
    destruct (Z.leb_spec (off + Z.of_nat n) (Z.of_nat (length l))); [|done]. intros [= <-].
    rewrite (proj2 (Z.leb_le _ _)) by lia. unfold slice. by rewrite take_take, Nat.min_l by lia. }
  destruct p; simpl in *; auto.
Qed.

Lemma length_value mem it : item_ok mem it -> length (value mem it) = Z.to_nat (isize it).
Proof.
  intros [Hf H]. destruct it as [bs|a n]; simpl in *; [by rewrite Nat2Z.id|]. apply length_slice. destruct Hf. lia.
Qed.

(** The order operators: the popped operands are compared up to the shorter size. *)
Lemma cmp_data_lex m a b x y mem n :
  d_size a = isize x -> d_size b = isize y -> item_ok mem x -> item_ok mem y ->
  load m (d_data a) (Z.to_nat (d_size a)) = Done (value mem x) ->
  load m (d_data b) (Z.to_nat (d_size b)) = Done (value mem y) ->
  (0 <= n <= d_size a)%Z -> (n <= d_size b)%Z ->
  cmp_data m a b n = Done (memcmp (take (Z.to_nat n) (value mem x)) (take (Z.to_nat n) (value mem y))).
Proof.
  intros Ha Hb Hx Hy La Lb Hn Hn'. unfold cmp_data.
  rewrite (load_prefix _ _ _ (Z.to_nat n) _ La) by lia. cbn [mbind outcome_bind].
  rewrite (load_prefix _ _ _ (Z.to_nat n) _ Lb) by lia. done.
Qed.

(** The comparison operators with the outcomes of [lex] they report. *)
Definition comparisons : list (mdv_vm_fn * (comparison -> bool)) :=
  [ (mdv_vmop_equal, fun c : comparison => match c with Eq => true | _ => false end);
    (mdv_vmop_not_equal, fun c : comparison => match c with Eq => false | _ => true end);
    (mdv_vmop_greater, fun c : comparison => match c with Gt => true | _ => false end);
    (mdv_vmop_greater_or_equal, fun c : comparison => match c with Lt => false | _ => true end);
    (mdv_vmop_less, fun c : comparison => match c with Lt => true | _ => false end);
    (mdv_vmop_less_or_equal, fun c : comparison => match c with Gt => false | _ => true end) ].

(** The verdict of each operator, from [memcmp] and the two sizes. *)
Lemma compare_spec m x y its (op : mdv_vm_fn) (P : comparison -> bool) :
  (op, P) ∈ comparisons -> repr m (y :: x :: its) ->
  exists m', op m = Done (m', MDV_OK) /\ v_mem m' = v_mem m /\ s_capacity (v_stack m') = s_capacity (v_stack m)
    /\ repr m' (Inline [if P (lex (value (v_mem m) x) (value (v_mem m) y)) then MDV_VM_TRUE else MDV_VM_FALSE] :: its).
Proof.
  intros Hin Hr. pose proof (r_ok _ _ Hr) as [Hy [Hx _]%Forall_cons]%Forall_cons.
  destruct (pop_pair_spec _ _ _ _ Hr) as (m1 & a & b & E & Hr1 & Hm & Hc & Hroom & Ha & Hb & La & Lb).
  pose proof (length_value _ _ Hx) as Hlx. pose proof (length_value _ _ Hy) as Hly.
  pose proof (proj1 (proj1 Hx)) as Hx0. pose proof (proj1 (proj1 Hy)) as Hy0.
  rewrite !length_enc in Hroom.
  assert (Hpush : forall r, exists m', push_bool m1 r = Done (m', MDV_OK) /\ v_mem m' = v_mem m
    /\ s_capacity (v_stack m') = s_capacity (v_stack m)
    /\ repr m' (Inline [if r then MDV_VM_TRUE else MDV_VM_FALSE] :: its)).
  { intros r. destruct (push_bool_spec m1 its r Hr1) as (m' & ? & ? & ? & ?); [lia|]. exists m'. split_and!; try done; congruence. }
  pose proof (memcmp_lex (value (v_mem m) x) (value (v_mem m) y)) as Hlex. cbv zeta in Hlex.
  set (n := if (d_size a <? d_size b)%Z then d_size a else d_size b).
  assert (Hn : (0 <= n <= d_size a)%Z /\ (n <= d_size b)%Z /\ Z.to_nat n = length (value (v_mem m) x) `min` length (value (v_mem m) y)).
  { unfold n. rewrite Hlx, Hly, Ha, Hb. case_cmp; lia. }
  destruct Hn as (Hn1 & Hn2 & Hn3).
  pose proof (cmp_data_lex _ _ _ _ _ _ _ Ha Hb Hx Hy La Lb Hn1 Hn2) as Hcmp. rewrite <- Hn3 in Hlex.
  set (c := memcmp _ _) in *. assert (Hsa : d_size a = Z.of_nat (length (value (v_mem m) x))) by lia.
  assert (Hsb : d_size b = Z.of_nat (length (value (v_mem m) y))) by lia.
  assert (Heq : d_size a = d_size b -> n = d_size a) by (unfold n; case_cmp; lia).
  unfold comparisons in Hin. rewrite !elem_of_cons, elem_of_nil in Hin.
  destruct Hin as [[= -> ->]|[[= -> ->]|[[= -> ->]|[[= -> ->]|[[= -> ->]|[[= -> ->]|[]]]]]]];
    unfold mdv_vmop_equal, mdv_vmop_not_equal, mdv_vmop_greater, mdv_vmop_greater_or_equal, mdv_vmop_less,
      mdv_vmop_less_or_equal, min_size; rewrite E; cbn [mbind outcome_bind];
    try (fold n; rewrite Hcmp; cbn [mbind outcome_bind]).
  1-2: destruct (Z.eqb_spec (d_size a) (d_size b)) as [He|Hne]; simpl;
    [rewrite <- (Heq He), Hcmp; cbn [mbind outcome_bind]|].
  all: match goal with |- context [push_bool _ ?r] =>
      match goal with |- context [if ?r' then MDV_VM_TRUE else _] => replace r' with r; [apply Hpush|] end end;
    destruct (lex _ _); repeat case_cmp; simpl; try done; exfalso; lia.
Qed.

(** [&] and [|] byte by byte. *)
Definition bitwise : list (mdv_vm_fn * (Z -> Z -> Z)) := [(mdv_vmop_and, Z.land); (mdv_vmop_or, Z.lor)].

Lemma bitwise_bytes (op : mdv_vm_fn) f a b :
  (op, f) ∈ bitwise -> Forall is_byte a -> Forall is_byte b -> Forall is_byte (zip_with f a b).
Proof.
  intros Hin Ha. revert b. induction Ha as [|x a Hx _ IH]; intros b Hb; [constructor|].
  destruct Hb as [|y b Hy Hb]; [constructor|]. simpl. constructor; [|auto].
  unfold bitwise in Hin. rewrite !elem_of_cons, elem_of_nil in Hin.
  destruct Hin as [[= -> ->]|[[= -> ->]|[]]]; unfold is_byte in *; pose proof (proj1 Hy); auto with mdv zarith.
Qed.

Lemma bitwise_spec m x y its (op : mdv_vm_fn) f :
  (op, f) ∈ bitwise -> repr m (y :: x :: its) ->
  let vx := value (v_mem m) x in let vy := value (v_mem m) y in
  Forall is_byte vx -> Forall is_byte vy ->
  exists m' err, op m = Done (m', err) /\ v_mem m' = v_mem m /\ s_capacity (v_stack m') = s_capacity (v_stack m)
    /\ err = (if decide (length vx = length vy)
              then if length (concat (enc <$> reverse its)) + (length vx + 5) <=? s_capacity (v_stack m)
                   then MDV_OK else MDV_STACK_OVERFLOW
              else MDV_INVALID_ARG)
    /\ (err = MDV_OK -> repr m' (Inline (zip_with f vx vy) :: its)).
Proof.
  intros Hin Hr vx vy Hbx Hby. pose proof (r_ok _ _ Hr) as [Hy [Hx _]%Forall_cons]%Forall_cons.
  destruct (pop_pair_spec _ _ _ _ Hr) as (m1 & a & b & E & Hr1 & Hm & Hc & Hroom & Ha & Hb & La & Lb).
  pose proof (length_value _ _ Hx) as Hlx. pose proof (length_value _ _ Hy) as Hly.
  pose proof (bitwise_bytes _ _ _ _ Hin Hbx Hby) as Hz.
  pose proof Hin as Hin'. unfold bitwise in Hin'. rewrite !elem_of_cons, elem_of_nil in Hin'.
  pose proof (proj1 (proj1 Hx)) as Hx0. pose proof (proj1 (proj1 Hy)) as Hy0. fold vx vy in Hlx, Hly, La, Lb.
  rewrite <- (repr_size _ _ Hr1), <- Hc.
  destruct (decide (length vx = length vy)) as [He|Hne].
  - assert (Hlz : length (zip_with f vx vy) = length vx) by (rewrite length_zip_with; lia).
    destruct (push_local m1 its (zip_with f vx vy) Hr1 Hz) as (m' & Ep & Hm' & Hc' & Hr').
    { rewrite Hlz, Hlx, Z2Nat.id by done. apply Hx. }
    rewrite Hlz in Ep, Hr'. exists m'.
    destruct Hin' as [[= -> ->]|[[= -> ->]|[]]]; unfold mdv_vmop_and, mdv_vmop_or; rewrite E; cbn [mbind outcome_bind];
      rewrite (proj2 (Z.eqb_eq (d_size a) (d_size b))) by lia; simpl negb; cbv iota; rewrite La; cbn [mbind outcome_bind];
      replace (Z.to_nat (d_size a)) with (Z.to_nat (d_size b)) by lia; rewrite Lb; cbn [mbind outcome_bind];
      replace (d_size a) with (Z.of_nat (length vx)) by lia; rewrite Ep; eexists;
      (split; [done|]); (split_and!; [congruence|congruence|done|]); case_cmp; try done; auto.
  - exists m1, MDV_INVALID_ARG. split_and!; try done.
    destruct Hin' as [[= -> ->]|[[= -> ->]|[]]]; unfold mdv_vmop_and, mdv_vmop_or; rewrite E; cbn [mbind outcome_bind];
      rewrite (proj2 (Z.eqb_neq (d_size a) (d_size b))) by lia; done.
Qed.

Lemma byte_not_byte b : is_byte (byte_not b).
Proof. by apply wrap_fits. Qed.

Lemma byte_not_spec b : is_byte b -> byte_not b = (255 - b)%Z.
Proof.
  intros Hb%is_byte_bound. unfold byte_not, wrap. unfold Z.lnot. replace (Z.pred (- b)) with (255 - b + (-1) * 2 ^ 8)%Z by lia.
  rewrite Z_mod_plus_full. apply Z.mod_small. lia.
Qed.

(** Overwriting a part of the used part of a buffer. *)
Lemma take_memcpy_inside (l a b b' c : list Z) s :
  take s l = a ++ b ++ c -> s <= length l -> length b' = length b ->
  take s (memcpy l (length a) b') = a ++ b' ++ c.
Proof.
  intros E Hs Hb. rewrite <- (take_drop s l), E. unfold memcpy. rewrite <- !(assoc_L (++)), take_app_length, Hb.
  rewrite (assoc_L (++) a b), <- length_app, drop_app_length.
  assert (length (a ++ b' ++ c) = s) as <-.
  { apply (f_equal length) in E. rewrite length_take, !length_app in E. rewrite !length_app. lia. }
  rewrite !(assoc_L (++)). rewrite take_app_length. by rewrite <- (assoc_L (++)).
Qed.

(** The complement of a value on the stack itself. *)
Lemma not_spec m bs its :
  repr m (Inline bs :: its) ->
  exists m', mdv_vmop_not m = Done (m', MDV_OK) /\ v_mem m' = v_mem m
    /\ s_capacity (v_stack m') = s_capacity (v_stack m) /\ repr m' (Inline (byte_not <$> bs) :: its).
Proof.
  intros Hr. unfold mdv_vmop_not. rewrite (top_spec _ _ _ Hr). cbn [mbind outcome_bind d_data d_size].
  destruct (top_denotes _ _ _ Hr) as [_ Hl]. specialize (Hl m eq_refl eq_refl). cbn [d_data d_size] in Hl. rewrite Hl.
  cbn [mbind outcome_bind value]. eexists. split; [done|]. split_and!; try done.
  destruct (repr_cons _ _ _ Hr) as [Ht Hs]. destruct Hr as [Hlen Hsz _ Hok]. apply Forall_cons in Hok as [Hit Hok].
  set (base := length (concat (enc <$> reverse its))) in *. simpl in Hs.
  assert (Hlm : length (memcpy (s_data (v_stack m)) base (byte_not <$> bs)) = length (s_data (v_stack m))).
  { apply length_memcpy. rewrite length_fmap. lia. }
  split; simpl; [by rewrite Hlm|done| |].
  - rewrite reverse_cons, fmap_app. simpl. rewrite concat_snoc. unfold enc at 2. simpl. rewrite length_fmap.
    eapply take_memcpy_inside; [exact Ht|lia|by rewrite length_fmap].
  - constructor; [|done]. split; simpl; [rewrite length_fmap; apply Hit|].
    apply Forall_fmap, Forall_true. intros. apply byte_not_byte.
Qed.

(** ** An abstract machine over byte strings *)

(** What an operator does to the values, or the error it returns. *)
Abbreviation aop := (list (list Z) -> mdv_errno * list (list Z)).

(** The promise of an operator to the interpreter. *)
Class OpRefines (fn : mdv_vm_fn) (af : aop) : Prop := op_refines :
  forall m vs, repr m (Inline <$> vs) ->
    exists m', fn m = Done (m', fst (af vs)) /\ v_mem m' = v_mem m
      /\ (fst (af vs) = MDV_OK -> s_capacity (v_stack m') = s_capacity (v_stack m)
            /\ repr m' (Inline <$> snd (af vs))).

Definition acmp (P : comparison -> bool) : aop := fun vs =>
  match vs with
  | y :: x :: vs => (MDV_OK, [if P (lex x y) then MDV_VM_TRUE else MDV_VM_FALSE] :: vs)
  | _ => (MDV_FAILED, [])
  end.

Definition abit (f : Z -> Z -> Z) : aop := fun vs =>
  match vs with
  | y :: x :: vs => if decide (length x = length y) then (MDV_OK, zip_with f x y :: vs) else (MDV_INVALID_ARG, [])
  | _ => (MDV_FAILED, [])
  end.

Definition anot : aop := fun vs =>
  match vs with
  | x :: vs => (MDV_OK, (byte_not <$> x) :: vs)
  | [] => (MDV_FAILED, [])
  end.

(** The operators that pop a pair fail on a short stack. *)
Lemma pair_op_short (fn : mdv_vm_fn) m its :
  (exists k, fn = fun m => '(m, err, ops) ← mdv_vm_stack_pop_pair m;
                           match ops with None => Done (m, err) | Some (a, b) => k m a b end) ->
  repr m its -> length its < 2 -> exists m', fn m = Done (m', MDV_FAILED) /\ v_mem m' = v_mem m.
Proof.
  intros [k ->] Hr Hl. destruct (pop_pair_short _ _ Hr Hl) as (m' & E & Hm). rewrite E. cbn. eauto.
Qed.

Lemma compare_short m its (op : mdv_vm_fn) (P : comparison -> bool) :
  (op, P) ∈ comparisons -> repr m its -> length its < 2 -> exists m', op m = Done (m', MDV_FAILED) /\ v_mem m' = v_mem m.
Proof.
  intros Hin. apply pair_op_short. unfold comparisons in Hin; rewrite !elem_of_cons, elem_of_nil in Hin.
  destruct Hin as [[= -> ->]|[[= -> ->]|[[= -> ->]|[[= -> ->]|[[= -> ->]|[[= -> ->]|[]]]]]]]; eexists; reflexivity.
Qed.

Lemma bitwise_short m its (op : mdv_vm_fn) f :
  (op, f) ∈ bitwise -> repr m its -> length its < 2 -> exists m', op m = Done (m', MDV_FAILED) /\ v_mem m' = v_mem m.
Proof.
  intros Hin. apply pair_op_short. unfold bitwise in Hin; rewrite !elem_of_cons, elem_of_nil in Hin.
  destruct Hin as [[= -> ->]|[[= -> ->]|[]]]; eexists; reflexivity.
Qed.

Lemma compare_refines (op : mdv_vm_fn) (P : comparison -> bool) : (op, P) ∈ comparisons -> OpRefines op (acmp P).
Proof.
  intros Hin m vs Hr. destruct vs as [|y [|x vs]].
  3: { destruct (compare_spec _ _ _ _ _ _ Hin Hr) as (m' & ? & ? & ? & ?). simpl. eauto 10. }
  all: edestruct compare_short as (m' & E & Hm); [exact Hin|exact Hr|simpl; lia|simpl; exists m'; split_and!; done].
Qed.

Lemma bitwise_refines (op : mdv_vm_fn) f : (op, f) ∈ bitwise -> OpRefines op (abit f).
Proof.
  intros Hin m vs Hr. destruct vs as [|y [|x vs]].
  3: { pose proof (r_ok _ _ Hr) as [Hy [Hx _]%Forall_cons]%Forall_cons.
       destruct (bitwise_spec _ _ _ _ _ _ Hin Hr (proj2 Hx) (proj2 Hy)) as (m' & err & E & Hm & Hc & He & Hr').
       cbn [value abit] in *. pose proof (repr_size_cons2 _ _ _ _ Hr) as Hs. rewrite !length_enc in Hs.
       pose proof (r_size _ _ Hr). cbn [payload] in Hs.
       destruct (decide (length x = length y)); cbn [fst snd]; [|subst err; eexists; split_and!; done].
       rewrite (proj2 (Nat.leb_le _ _)) in He by lia. subst err. exists m'. split_and!; auto. }
  all: edestruct bitwise_short as (m' & E & Hm); [exact Hin|exact Hr|simpl; lia|simpl; exists m'; split_and!; done].
Qed.

#[export] Instance not_refines : OpRefines mdv_vmop_not anot.
Proof.
  intros m vs Hr. destruct vs as [|x vs].
  - unfold mdv_vmop_not. rewrite (top_empty _ Hr). simpl. eexists. split_and!; done.
  - destruct (not_spec _ _ _ Hr) as (m' & ? & ? & ? & ?). simpl. eauto 10.
Qed.

(** Instructions and their encoding. *)
Inductive instr :=
| INop
| IPush (bs : list Z)
| ICall (id : nat).

Definition encode (i : instr) : list Z :=
  match i with
  | INop => [0%Z]
  | IPush bs => 1%Z :: flag false ++ to_le 4 (Z.of_nat (length bs)) ++ bs
  | ICall id => 2%Z :: to_le 2 (Z.of_nat id)
  end.

Definition program (prog : list instr) : list Z := concat (encode <$> prog) ++ [0xFF%Z].

Definition instr_ok (i : instr) : Prop :=
  match i with
  | INop => True
  | IPush bs => Forall is_byte bs /\ fits 32 (Z.of_nat (length bs))
  | ICall id => fits 16 (Z.of_nat id)
  end.

(** Bytes of the stack the values take. *)
Definition depth (vs : list (list Z)) : nat := length (concat (enc <$> reverse (Inline <$> vs))).

Fixpoint arun (cap : nat) (afns : list aop) (prog : list instr) (vs : list (list Z)) : mdv_errno * list (list Z) :=
  match prog with
  | [] => (MDV_OK, vs)
  | INop :: prog => arun cap afns prog vs
  | IPush bs :: prog =>
      if depth vs + (length bs + 5) <=? cap then arun cap afns prog (bs :: vs) else (MDV_STACK_OVERFLOW, [])
  | ICall id :: prog =>
      match afns !! id with
      | None => (MDV_NO_IMPL, [])
      | Some af => match af vs with
                   | (MDV_OK, vs) => arun cap afns prog vs
                   | (err, _) => (err, [])
                   end
      end
  end.

(** A part of the memory. *)
Lemma bytes_at_app (l a b c : list Z) off n :
  l = a ++ b ++ c -> off = Z.of_nat (length a) -> n = length b -> bytes_at l off n = Done b.
Proof.
  intros -> -> ->. eapply (bytes_at_take _ a b c (length (a ++ b ++ c))); [apply firstn_all|done].
Qed.

Lemma push_program m its bs pre post :
  v_mem m = pre ++ bs ++ post -> repr m its -> Forall is_byte bs -> fits 32 (Z.of_nat (length bs)) ->
  exists m', mdv_vm_stack_push m (mk_datum false (Z.of_nat (length bs)) (PMem (Z.of_nat (length pre))))
      = Done (m', if s_size (v_stack m) + (length bs + 5) <=? s_capacity (v_stack m) then MDV_OK else MDV_STACK_OVERFLOW)
    /\ v_mem m' = v_mem m /\ s_capacity (v_stack m') = s_capacity (v_stack m)
    /\ (s_size (v_stack m) + (length bs + 5) <= s_capacity (v_stack m) -> repr m' (Inline bs :: its)).
Proof.
  intros Hm Hr Hb Hf.
  destruct (push_spec m its (mk_datum false (Z.of_nat (length bs)) (PMem (Z.of_nat (length pre)))) (Inline bs))
    as (m' & E & H); [done|by split|done|done| |].
  { cbn [external d_data d_size load]. rewrite Hm, Nat2Z.id. by eapply bytes_at_app. }
  rewrite length_enc in *. cbn [payload] in *. eauto.
Qed.

(** One round of the interpreter at an instruction. *)
Lemma run_nop fuel fns m pre post :
  v_mem m = pre ++ encode INop ++ post ->
  mdv_vm_run (S fuel) fns m (Z.of_nat (length pre)) = mdv_vm_run fuel fns m (Z.of_nat (length (pre ++ encode INop))).
Proof.
  intros Hm. cbn [mdv_vm_run]. rewrite Hm. unfold encode. rewrite (bytes_at_app _ pre [0%Z] post (Z.of_nat (length pre)) 1) by done.
  by rewrite length_app, Nat2Z.inj_add.
Qed.

Lemma run_end fuel fns m pre post :
  v_mem m = pre ++ [0xFF%Z] ++ post -> mdv_vm_run (S fuel) fns m (Z.of_nat (length pre)) = Done (m, MDV_OK).
Proof. intros Hm. cbn [mdv_vm_run]. by rewrite Hm, (bytes_at_app _ pre [255%Z] post (Z.of_nat (length pre)) 1) by done. Qed.

Lemma run_push fuel fns m pre post bs :
  v_mem m = pre ++ encode (IPush bs) ++ post -> fits 32 (Z.of_nat (length bs)) ->
  mdv_vm_run (S fuel) fns m (Z.of_nat (length pre))
    = ('(m, err) ← mdv_vm_stack_push m (mk_datum false (Z.of_nat (length bs)) (PMem (Z.of_nat (length (pre ++ 1%Z :: flag false ++ to_le 4 (Z.of_nat (length bs)))))));
       if decide (err = MDV_OK) then mdv_vm_run fuel fns m (Z.of_nat (length (pre ++ encode (IPush bs)))) else Done (m, err)).
Proof.
  intros Hm Hf. cbn [mdv_vm_run]. rewrite Hm. unfold encode.
  rewrite (bytes_at_app _ pre [1%Z] (flag false ++ to_le 4 (Z.of_nat (length bs)) ++ bs ++ post) (Z.of_nat (length pre)) 1);
    [|done..]. cbn [mbind outcome_bind]. cbn [of_le]. cbv beta iota zeta.
  change (1 + 256 * 0)%Z with 1%Z. cbv iota.
  rewrite (bytes_at_app _ (pre ++ [1%Z]) (flag false) (to_le 4 (Z.of_nat (length bs)) ++ bs ++ post) (Z.of_nat (length pre) + 1)%Z 1);
    [|by rewrite <- !(assoc_L (++))|rewrite length_app; simpl; lia|done]. cbn [mbind outcome_bind].
  rewrite (bytes_at_app _ (pre ++ 1%Z :: flag false) (to_le 4 (Z.of_nat (length bs))) (bs ++ post) (Z.of_nat (length pre) + 1 + 1)%Z 4);
    [|by rewrite <- !(assoc_L (++))|rewrite length_app; simpl; lia|by rewrite length_to_le]. cbn [mbind outcome_bind].
  rewrite of_to_le_id by exact Hf. rewrite flag_of. cbn [external d_size].
  assert (E1 : (Z.of_nat (length pre) + 1 + 1 + 4)%Z = Z.of_nat (length (pre ++ 1%Z :: flag false ++ to_le 4 (Z.of_nat (length bs))))).
  { rewrite length_app. cbn [length flag]. rewrite length_app, length_to_le. simpl. lia. }
  assert (E2 : (Z.of_nat (length pre) + 1 + (1 + 4 + Z.of_nat (length bs)))%Z = Z.of_nat (length (pre ++ encode (IPush bs)))).
  { unfold encode. rewrite length_app. cbn [length flag]. rewrite !length_app, length_to_le. simpl. lia. }
  by rewrite E1, E2.
Qed.

Lemma run_call fuel fns m pre post id :
  v_mem m = pre ++ encode (ICall id) ++ post -> fits 16 (Z.of_nat id) ->
  mdv_vm_run (S fuel) fns m (Z.of_nat (length pre))
    = match fns !! id with
      | None => Done (m, MDV_NO_IMPL)
      | Some fn => '(m, err) ← fn m;
          if decide (err = MDV_OK) then mdv_vm_run fuel fns m (Z.of_nat (length (pre ++ encode (ICall id)))) else Done (m, err)
      end.
Proof.
  intros Hm Hf. cbn [mdv_vm_run]. rewrite Hm. unfold encode.
  rewrite (bytes_at_app _ pre [2%Z] (to_le 2 (Z.of_nat id) ++ post) (Z.of_nat (length pre)) 1); [|done..].
  cbn [mbind outcome_bind]. cbn [of_le]. cbv beta iota zeta. change (2 + 256 * 0)%Z with 2%Z. cbv iota.
  rewrite (bytes_at_app _ (pre ++ [2%Z]) (to_le 2 (Z.of_nat id)) post (Z.of_nat (length pre) + 1)%Z 2);
    [|by rewrite <- !(assoc_L (++))|rewrite length_app; simpl; lia|by rewrite length_to_le]. cbn [mbind outcome_bind].
  rewrite of_to_le_id, Nat2Z.id by exact Hf. 
  assert (E2 : (Z.of_nat (length pre) + 1 + 2)%Z = Z.of_nat (length (pre ++ encode (ICall id)))).
  { unfold encode. rewrite length_app. cbn [length]. rewrite length_to_le. lia. }
  by rewrite E2.
Qed.

(** The interpreter and the abstract machine, instruction by instruction. *)
Lemma run_refines fns afns prog m vs pre post :
  Forall2 OpRefines fns afns -> Forall instr_ok prog ->
  v_mem m = pre ++ program prog ++ post -> repr m (Inline <$> vs) ->
  exists m', mdv_vm_run (S (length prog)) fns m (Z.of_nat (length pre))
      = Done (m', fst (arun (s_capacity (v_stack m)) afns prog vs)) /\ v_mem m' = v_mem m
    /\ (fst (arun (s_capacity (v_stack m)) afns prog vs) = MDV_OK ->
        repr m' (Inline <$> snd (arun (s_capacity (v_stack m)) afns prog vs))).
Proof.
  intros Hfns Hok. revert m vs pre. induction Hok as [|i prog Hi _ IH]; intros m vs pre Hm Hr.
  { exists m. rewrite (run_end _ _ _ _ post) by done. eauto. }
  unfold program in Hm. rewrite fmap_cons in Hm. cbn [concat] in Hm. rewrite <- !(assoc_L (++)) in Hm.
  assert (Hnext : forall m', v_mem m' = v_mem m -> v_mem m' = (pre ++ encode i) ++ program prog ++ post).
  { intros m' ->. rewrite Hm. unfold program. by rewrite <- !(assoc_L (++)). }
  cbn [length]. destruct i as [|bs|id]; cbn [arun].
  - rewrite (run_nop _ _ _ _ _ Hm). by apply IH; [apply Hnext|].
  - destruct Hi as [Hb Hf]. rewrite (run_push _ _ _ _ _ _ Hm Hf).
    destruct (push_program m (Inline <$> vs) bs (pre ++ 1%Z :: flag false ++ to_le 4 (Z.of_nat (length bs)))
      (concat (encode <$> prog) ++ [255%Z] ++ post)) as (m' & E & Hm' & Hc & Hr'); [|done..|].
    { rewrite Hm. unfold encode at 1. by rewrite <- !(assoc_L (++)), <- !app_comm_cons, <- !(assoc_L (++)). }
    rewrite E. cbn [mbind outcome_bind]. rewrite (repr_size _ _ Hr) in *. fold (depth vs) in *.
    destruct (Nat.leb_spec (depth vs + (length bs + 5)) (s_capacity (v_stack m))) as [Hle|]; cbn [fst snd].
    + rewrite decide_True by done. rewrite <- Hc, <- Hm'. apply IH; [by apply Hnext|]. by apply Hr'.
    + rewrite decide_False by done. exists m'. by split_and!.
  - rewrite (run_call _ _ _ _ _ _ Hm Hi). destruct (fns !! id) as [fn|] eqn:Ef.
    + destruct (Forall2_lookup_l _ _ _ _ _ Hfns Ef) as (af & Eaf & Href). rewrite Eaf.
      destruct (Href m vs Hr) as (m' & E & Hm' & Hrest). rewrite E. cbn [mbind outcome_bind].
      destruct (af vs) as [err vs']. cbn [fst snd] in *. destruct (decide (err = MDV_OK)) as [->|Hne].
      * destruct (Hrest eq_refl) as [Hc Hr']. rewrite <- Hc, <- Hm'. by apply IH; [apply Hnext|].
      * exists m'. destruct err; cbn [fst]; try done; by split_and!.
    + assert (afns !! id = None) as ->.
      { apply lookup_ge_None. rewrite <- (Forall2_length _ _ _ Hfns). by apply lookup_ge_None. }
      exists m. by split_and!.
Qed.

(** ** Running any bytes *)

Create HintDb vm_ends.

Lemma ends_bytes_at l off n (Q : list Z -> Prop) :
  (forall bs, (0 <= off)%Z -> (off + Z.of_nat n <= Z.of_nat (length l))%Z -> length bs = n -> bs ⊆ l -> Q bs) ->
  ends (bytes_at l off n) Q.
Proof.
  intros HQ. unfold bytes_at. destruct (Z.leb_spec 0 off); [|done]. simpl.
  destruct (Z.leb_spec (off + Z.of_nat n) (Z.of_nat (length l))); [|done]. apply HQ; [done..| |].
  - apply length_slice. lia.
  - intros x Hx. unfold slice in Hx. apply elem_of_take in Hx as (i & Hx & _). rewrite lookup_drop in Hx.
    by eapply list_elem_of_lookup_2.
Qed.

Lemma ends_load m p n (Q : list Z -> Prop) : (forall bs, length bs = n -> Q bs) -> ends (load m p n) Q.
Proof. intros HQ. destruct p; apply ends_bytes_at; auto. Qed.

(** The result does not touch the other memory. *)
Abbreviation same_mem m := (fun r : vm * mdv_errno => v_mem (fst r) = v_mem m).

Lemma ends_push m d : ends (mdv_vm_stack_push m d) (same_mem m).
Proof.
  apply ends_bind. assert (Hk : forall payload, ends (let '(st, ok) := push_seq (v_stack m) [payload; to_le 4 (d_size d); flag (external d)] in
    Done (set_stack m st, if ok then MDV_OK else MDV_STACK_OVERFLOW)) (same_mem m)).
  { intros payload. by destruct (push_seq _ _). }
  destruct (external d); [destruct (d_data d)|apply ends_load]; intros; try done; apply Hk.
Qed.

Lemma ends_push' m m0 d : v_mem m0 = v_mem m -> ends (mdv_vm_stack_push m0 d) (same_mem m).
Proof. intros E. eapply ends_mono; [apply ends_push|]. intros ? ->. exact E. Qed.

Lemma ends_pop m : ends (mdv_vm_stack_pop m) (fun r => v_mem (fst (fst r)) = v_mem m).
Proof.
  unfold mdv_vm_stack_pop. destruct (mdv_stack_pop _ 1) as [[st pe]|]; [|done].
  apply ends_bind, ends_bytes_at. intros e _ _ _ _. destruct (mdv_stack_pop st 4) as [[st' ps]|]; [|done].
  apply ends_bind, ends_bytes_at. intros s _ _ _ _. cbv zeta.
  destruct (mdv_stack_pop st' _) as [[st'' p]|]; [|done].
  destruct (negb _); simpl; [|done]. apply ends_bind, ends_bind, ends_bytes_at. done.
Qed.

Lemma ends_pop_pair m : ends (mdv_vm_stack_pop_pair m) (fun r => v_mem (fst (fst r)) = v_mem m).
Proof.
  apply ends_bind. eapply ends_mono; [apply ends_pop|]. intros [[m1 e1] [d1|]] E1; [|exact E1].
  apply ends_bind. eapply ends_mono; [apply ends_pop|]. intros [[m2 e2] [d2|]] E2; simpl in *; congruence.
Qed.

Lemma ends_top m : ends (mdv_vm_stack_top m) (fun _ => True).
Proof.
  unfold mdv_vm_stack_top. cbv zeta. destruct (_ <? _); [done|].
  apply ends_bind, ends_bytes_at. intros e _ _ _ _. apply ends_bind, ends_bytes_at. intros s _ _ _ _.
  destruct (_ <? _); [done|]. destruct (negb _); simpl; [|done]. apply ends_bind, ends_bind, ends_bytes_at. done.
Qed.

(** An operator that ends and keeps the size of the memory and its cells bytes. *)
Definition tame (fn : mdv_vm_fn) : Prop :=
  forall m, Forall is_byte (v_mem m) ->
    ends (fn m) (fun r => Forall is_byte (v_mem (fst r)) /\ length (v_mem (fst r)) = length (v_mem m)).

Lemma tame_pair k :
  (forall m a b, ends (k m a b) (same_mem m)) ->
  tame (fun m => '(m, err, ops) ← mdv_vm_stack_pop_pair m; match ops with None => Done (m, err) | Some (a, b) => k m a b end).
Proof.
  intros Hk m Hb. apply ends_bind. eapply ends_mono; [apply ends_pop_pair|].
  intros [[m1 e] [[a b]|]] E; simpl in *; [|by rewrite E].
  eapply ends_mono; [apply Hk|]. intros r Er. by rewrite Er, E.
Qed.

Lemma ends_push_bool m b : ends (push_bool m b) (same_mem m).
Proof. apply ends_push. Qed.

Lemma ends_cmp m a b n (k : Z -> outcome (vm * mdv_errno)) Q :
  (forall c, ends (k c) Q) -> ends (c ← cmp_data m a b n; k c) Q.
Proof.
  intros Hk. apply ends_bind. unfold cmp_data. apply ends_bind, ends_load. intros x _.
  apply ends_bind, ends_load. intros y _. apply Hk.
Qed.

#[export] Hint Resolve ends_push ends_push_bool ends_cmp : vm_ends.

Lemma tame_comparisons : Forall (fun p => tame p.1) comparisons.
Proof.
  unfold comparisons. repeat (apply Forall_cons; split; [|]); [..|constructor]; apply tame_pair; intros m a b;
    try destruct (negb _); auto with vm_ends.
Qed.

Lemma tame_bitwise : Forall (fun p => tame p.1) bitwise.
Proof.
  unfold bitwise. repeat (apply Forall_cons; split; [|]); [..|constructor]; apply tame_pair; intros m a b;
    (destruct (negb _); [done|]); apply ends_bind, ends_load; intros ? _; apply ends_bind, ends_load; intros ? _;
    auto with vm_ends.
Qed.

Lemma tame_not : tame mdv_vmop_not.
Proof.
  intros m Hb. apply ends_bind. eapply ends_mono; [apply ends_top|]. intros [e [d|]] _; [|done].
  assert (Hn : forall bs, Forall is_byte (byte_not <$> bs)) by (intros; apply Forall_fmap, Forall_true; intros; apply byte_not_byte).
  apply ends_bind. destruct (d_data d) as [off|a|l]; simpl; apply ends_bytes_at; intros bs H0 H1 Hl _; simpl; [done| |done].
  split; [|rewrite length_memcpy; rewrite ?length_fmap; lia].
  unfold memcpy. apply Forall_app; split; [by apply Forall_take|]. apply Forall_app; split; [done|by apply Forall_drop].
Qed.

(** Every round moves [ip] forward, so it runs out of the memory. *)
Lemma run_ends fns : Forall tame fns -> forall fuel m ip,
  Forall is_byte (v_mem m) -> (0 <= ip)%Z -> (Z.of_nat (length (v_mem m)) <= ip + Z.of_nat fuel)%Z ->
  ends (mdv_vm_run (S fuel) fns m ip) (fun r => length (v_mem (fst r)) = length (v_mem m)).
Proof.
  intros Hfns. induction fuel as [|fuel IH]; intros m ip Hb Hip Hf; cbn [mdv_vm_run];
    apply ends_bind, ends_bytes_at; intros op _ Hin Hop Hsub; [lia|].
  assert (Hnext : forall (o : outcome (vm * mdv_errno)) ip', (ip < ip')%Z ->
    ends o (fun r => Forall is_byte (v_mem (fst r)) /\ length (v_mem (fst r)) = length (v_mem m)) ->
    ends ('(m', err) ← o; if decide (err = MDV_OK) then mdv_vm_run (S fuel) fns m' ip' else Done (m', err))
      (fun r => length (v_mem (fst r)) = length (v_mem m))).
  { intros o ip' Hlt Ho. apply ends_bind. eapply ends_mono; [exact Ho|]. intros [m' err] [Hb' Hl']. simpl in Hb', Hl'.
    destruct (decide (err = MDV_OK)); [|exact Hl']. rewrite <- Hl'. apply IH; [done|lia|lia]. }
  cbv zeta. destruct (of_le op) as [|p|p]; [apply IH; [done|lia|lia]| |done].
  destruct (decide (p = 1)%positive) as [->|H1].
  { apply ends_bind, ends_bytes_at. intros e _ _ _ _. apply ends_bind, ends_bytes_at. intros s _ _ _ Hs.
    apply Hnext; [|eapply ends_mono; [apply ends_push|]; intros r ->; done]. cbn [external d_size].
    assert (0 <= of_le s)%Z by (apply of_le_bound, Forall_forall; intros x ?%Hs; by eapply Forall_forall in Hb).
    destruct (negb _); lia. }
  destruct (decide (p = 2)%positive) as [->|H2].
  { apply ends_bind, ends_bytes_at. intros i _ _ _ _. destruct (fns !! _) as [fn|] eqn:Ef; [|done].
    apply Hnext; [lia|]. apply (Forall_lookup_1 _ _ _ _ Hfns Ef). done. }
  repeat (destruct p as [p|p|]; try done).
Qed.

(** ** Theorems *)

Definition stack0 (cap : nat) (mem : list Z) : vm := mk_vm (mdv_stack_clear cap (replicate cap 0%Z)) mem.

Lemma stack0_repr cap mem : repr (stack0 cap mem) [].
Proof. split; simpl; [by rewrite length_replicate|lia|done|constructor]. Qed.

(** [mdv_vm_stack_push] puts the datum on top of the values the stack holds
    exactly when payload, size and flag fit, and returns [MDV_STACK_OVERFLOW]
    otherwise; popping then gives the flag, the size and a pointer to the same
    bytes back, and leaves the values below; popping or reading an empty stack
    returns [MDV_FAILED]. *)
Theorem mdv_vm_stack_push_pop (m : vm) its d it :
  repr m its -> item_ok (v_mem m) it -> external d = is_ext it -> d_size d = isize it ->
  (if external d then ptr_bytes (d_data d) else load m (d_data d) (Z.to_nat (d_size d))) = Done (payload it) ->
  (if s_size (v_stack m) + length (enc it) <=? s_capacity (v_stack m)
   then exists m1 m2 d', mdv_vm_stack_push m d = Done (m1, MDV_OK) /\ repr m1 (it :: its)
          /\ mdv_vm_stack_pop m1 = Done (m2, MDV_OK, Some d') /\ repr m2 its
          /\ d_size d' = d_size d /\ load m2 (d_data d') (Z.to_nat (d_size d')) = Done (value (v_mem m) it)
          /\ mdv_vm_stack_top m1 <> Done (MDV_FAILED, None)
   else exists m1, mdv_vm_stack_push m d = Done (m1, MDV_STACK_OVERFLOW))
  /\ (its = [] -> mdv_vm_stack_pop m = Done (m, MDV_FAILED, None) /\ mdv_vm_stack_top m = Done (MDV_FAILED, None)).
Proof.
  intros Hr Hok He Hs Hp. split; [|intros ->; split; [by apply pop_empty|by apply top_empty]].
  destruct (push_spec _ _ _ _ Hr Hok He Hs Hp) as (m1 & E & Hm1 & Hc1 & Hr1).
  destruct (Nat.leb_spec (s_size (v_stack m) + length (enc it)) (s_capacity (v_stack m))) as [Hle|]; [|eauto].
  specialize (Hr1 Hle). destruct (pop_spec _ _ _ Hr1) as (m2 & d' & E2 & Hr2 & Hm2 & Hd2 & _ & [Hsz Hl]).
  exists m1, m2, d'. split_and!; try done; [congruence|rewrite <- Hm1; by apply Hl|].
  by rewrite (top_spec _ _ _ Hr1).
Qed.

Lemma mdv_vm_stack_push_pop_witness :
  exists m1 m2 d', mdv_vm_stack_push (stack0 16 []) (mk_datum false 2 (PLocal [7; 9]%Z)) = Done (m1, MDV_OK)
    /\ repr m1 [Inline [7; 9]%Z] /\ mdv_vm_stack_pop m1 = Done (m2, MDV_OK, Some d') /\ repr m2 []
    /\ d_size d' = 2%Z /\ load m2 (d_data d') (Z.to_nat (d_size d')) = Done [7; 9]%Z
    /\ mdv_vm_stack_top m1 <> Done (MDV_FAILED, None).
Proof.
  exact (proj1 (mdv_vm_stack_push_pop (stack0 16 []) [] (mk_datum false 2 (PLocal [7; 9]%Z)) (Inline [7; 9]%Z)
    (stack0_repr 16 []) ltac:(by repeat constructor) eq_refl eq_refl eq_refl)).
Defined.

(** Each comparison operator pops two values and pushes the byte 0xFF or 0
    according to the lexicographic order of the two byte strings (a proper
    prefix is smaller), the value pushed first being the left one, be the
    values on the stack or behind pointers; [mdv_vm_result_as_bool] reads the
    verdict.  With fewer than two values the result is [MDV_FAILED]. *)
Theorem mdv_vmop_comparisons (m : vm) its (op : mdv_vm_fn) (P : comparison -> bool) :
  repr m its -> (op, P) ∈ comparisons ->
  match its with
  | y :: x :: its' =>
      exists m', op m = Done (m', MDV_OK) /\ v_mem m' = v_mem m
        /\ repr m' (Inline [if P (lex (value (v_mem m) x) (value (v_mem m) y)) then MDV_VM_TRUE else MDV_VM_FALSE] :: its')
        /\ mdv_vm_result_as_bool m' = Done (MDV_OK, Some (P (lex (value (v_mem m) x) (value (v_mem m) y))))
  | _ => exists m', op m = Done (m', MDV_FAILED)
  end.
Proof.
  intros Hr Hin. destruct its as [|y [|x its]].
  3: { destruct (compare_spec _ _ _ _ _ _ Hin Hr) as (m' & E & Hm & Hc & Hr'). exists m'. split_and!; try done.
       by eapply result_as_bool_spec. }
  all: destruct (compare_short _ _ _ _ Hin Hr) as (m' & E & _); simpl; [lia|eauto].
Qed.

Definition demo : vm := mk_vm (mk_stack 64 25 (concat (enc <$> [Inline [1; 2]; Ext 1 3; Inline []]%Z) ++ replicate 39 0%Z)) [5; 1; 2; 3]%Z.

Lemma demo_stack_repr : repr demo [Inline []; Ext 1 3; Inline [1; 2]]%Z.
Proof. split; [done|simpl; lia|done|]. repeat constructor; done. Qed.

Lemma mdv_vmop_comparisons_witness :
  exists m', mdv_vmop_greater demo = Done (m', MDV_OK) /\ v_mem m' = v_mem demo
    /\ repr m' [Inline [MDV_VM_TRUE]; Inline [1; 2]]%Z /\ mdv_vm_result_as_bool m' = Done (MDV_OK, Some true).
Proof.
  exact (mdv_vmop_comparisons demo _ mdv_vmop_greater (fun c => match c with Gt => true | _ => false end) demo_stack_repr
    ltac:(unfold comparisons; set_solver)).
Defined.

(** The bitwise operators on two values of equal size push the bytewise
    conjunction or disjunction, or report [MDV_STACK_OVERFLOW] when it does not
    fit (possible only for values behind pointers); values of different sizes
    give [MDV_INVALID_ARG], fewer than two values [MDV_FAILED].  The complement
    replaces the bytes of a value on the stack in place, and applying it twice
    restores the stack's value. *)
Theorem mdv_vmop_bitwise (m : vm) its :
  repr m its -> Forall (fun it => Forall is_byte (value (v_mem m) it)) its ->
  (forall (op : mdv_vm_fn) f, (op, f) ∈ bitwise ->
    match its with
    | y :: x :: its' =>
        let vx := value (v_mem m) x in let vy := value (v_mem m) y in
        exists m' err, op m = Done (m', err)
          /\ err = (if decide (length vx = length vy)
                    then if length (concat (enc <$> reverse its')) + (length vx + 5) <=? s_capacity (v_stack m)
                         then MDV_OK else MDV_STACK_OVERFLOW
                    else MDV_INVALID_ARG)
          /\ (err = MDV_OK -> repr m' (Inline (zip_with f vx vy) :: its'))
    | _ => exists m', op m = Done (m', MDV_FAILED)
    end)
  /\ match its with
     | Inline bs :: its' =>
         exists m' m'', mdv_vmop_not m = Done (m', MDV_OK) /\ repr m' (Inline ((fun b => 255 - b)%Z <$> bs) :: its')
           /\ mdv_vmop_not m' = Done (m'', MDV_OK) /\ repr m'' its
     | _ => True
     end.
Proof.
  intros Hr Hb. split.
  - intros op f Hin. destruct its as [|y [|x its]].
    3: { apply Forall_cons in Hb as [Hy [Hx _]%Forall_cons].
         destruct (bitwise_spec _ _ _ _ _ _ Hin Hr Hx Hy) as (m' & err & E & _ & _ & He & Hr'). eauto 10. }
    all: destruct (bitwise_short _ _ _ _ Hin Hr) as (m' & E & _); simpl; [lia|eauto].
  - destruct its as [|[bs|a n] its]; [done| |done]. apply Forall_cons in Hb as [Hbs _]. cbn [value] in Hbs.
    destruct (not_spec _ _ _ Hr) as (m' & E & _ & _ & Hr'). destruct (not_spec _ _ _ Hr') as (m'' & E' & _ & _ & Hr'').
    assert (H1 : byte_not <$> bs = (fun b => 255 - b)%Z <$> bs).
    { apply list_fmap_ext. intros i b Hi. apply byte_not_spec. by eapply Forall_lookup_1 in Hbs. }
    exists m', m''. rewrite <- H1. split_and!; try done. replace (Inline bs) with (Inline (byte_not <$> (byte_not <$> bs))); [done|].
    f_equal. rewrite <- list_fmap_compose. rewrite <- (list_fmap_id bs) at 2. apply list_fmap_ext. intros i b Hi.
    eapply Forall_lookup_1 in Hbs; [|done]. simpl. rewrite (byte_not_spec (byte_not b)) by apply byte_not_byte.
    rewrite byte_not_spec by done. unfold id. lia.
Qed.

Definition demo2 : vm := mk_vm (mk_stack 16 14 ([12; 10] ++ [2; 0; 0; 0; 0] ++ [10; 3] ++ [2; 0; 0; 0; 0] ++ [0; 0])%Z) [].

Lemma mdv_vmop_bitwise_witness :
  (exists m' err, mdv_vmop_and demo2 = Done (m', err) /\ err = MDV_OK /\ (err = MDV_OK -> repr m' [Inline [8; 2]%Z]))
  /\ (exists m' m'', mdv_vmop_not demo2 = Done (m', MDV_OK) /\ repr m' [Inline [245; 252]; Inline [12; 10]]%Z
      /\ mdv_vmop_not m' = Done (m'', MDV_OK) /\ repr m'' [Inline [10; 3]; Inline [12; 10]]%Z).
Proof.
  assert (Hr : repr demo2 [Inline [10; 3]; Inline [12; 10]]%Z).
  { split; [done|simpl; lia|done|repeat constructor; done]. }
  destruct (mdv_vmop_bitwise demo2 [Inline [10; 3]; Inline [12; 10]]%Z Hr ltac:(repeat constructor; done)) as [H1 H2].
  split; [exact (H1 mdv_vmop_and Z.land ltac:(unfold bitwise; set_solver))|exact H2].
Defined.

(** C34: [mdv_vm_run] implements the abstract machine over byte strings: on the
    encoding of instructions that push values and call operators, with
    operators that keep their promises, it returns the error the abstract
    machine returns ([MDV_STACK_OVERFLOW] exactly when a push does not fit,
    [MDV_NO_IMPL] for an unknown operator, the operator's own error) or ends
    with [MDV_OK] and the abstract machine's values on the stack; one round
    per instruction is enough. *)
Theorem mdv_vm_run_refines fns afns prog (m : vm) vs pre post :
  Forall2 OpRefines fns afns -> Forall instr_ok prog ->
  v_mem m = pre ++ program prog ++ post -> repr m (Inline <$> vs) ->
  exists m', mdv_vm_run (S (length prog)) fns m (Z.of_nat (length pre))
      = Done (m', fst (arun (s_capacity (v_stack m)) afns prog vs)) /\ v_mem m' = v_mem m
    /\ (fst (arun (s_capacity (v_stack m)) afns prog vs) = MDV_OK ->
        repr m' (Inline <$> snd (arun (s_capacity (v_stack m)) afns prog vs))).
Proof. apply run_refines. Qed.

Definition demo_prog : list instr := [IPush [3; 1]; INop; IPush [3]; ICall 0; ICall 1]%Z.

Lemma mdv_vm_run_refines_witness :
  exists m', mdv_vm_run 6 [mdv_vmop_greater; mdv_vmop_not] (stack0 32 (program demo_prog)) 0 = Done (m', MDV_OK)
    /\ v_mem m' = program demo_prog /\ (MDV_OK = MDV_OK -> repr m' [Inline [0%Z]]).
Proof.
  exact (mdv_vm_run_refines [mdv_vmop_greater; mdv_vmop_not] [acmp (fun c => match c with Gt => true | _ => false end); anot]
    demo_prog (stack0 32 (program demo_prog)) [] [] []
    ltac:(repeat constructor; [apply compare_refines; unfold comparisons; set_solver|apply not_refines])
    ltac:(repeat constructor; done) eq_refl (stack0_repr 32 _)).
Defined.

(** Every round of [mdv_vm_run] moves the instruction pointer forward.  On
    any bytes, with operators that end and keep the size of the memory (as
    [mdv_vmop_equal] and the others do), the interpreter ends within one round
    per byte and one more: it returns, or reads past the end of the memory. *)
Theorem mdv_vm_run_terminates fns (m : vm) ip :
  Forall tame fns -> Forall is_byte (v_mem m) -> (0 <= ip)%Z ->
  mdv_vm_run (S (length (v_mem m))) fns m ip <> OutOfFuel /\ Forall (fun p => tame p.1) comparisons
  /\ Forall (fun p => tame p.1) bitwise /\ tame mdv_vmop_not.
Proof.
  intros Hf Hb Hip. split; [|split_and!; [apply tame_comparisons|apply tame_bitwise|apply tame_not]].
  intros E. pose proof (run_ends fns Hf (length (v_mem m)) m ip Hb Hip ltac:(lia)) as H. by rewrite E in H.
Qed.

Lemma mdv_vm_run_terminates_witness :
  mdv_vm_run 5 [mdv_vmop_not] (stack0 8 [0; 2; 0; 0]%Z) 0 <> OutOfFuel.
Proof.
  exact (proj1 (mdv_vm_run_terminates [mdv_vmop_not] (stack0 8 [0; 2; 0; 0]%Z) 0
    ltac:(repeat constructor; apply tame_not) ltac:(repeat constructor; done) ltac:(lia))).
Defined.

(** PUSH with the external flag does not push the pointer that follows in
    the program: the pushed datum points at those pointer bytes themselves.
    Here the program holds the address 15 of the bytes [7; 8]; the value on the
    stack is the first two of the eight bytes of the pointer, [15; 0]. *)
Theorem mdv_vm_run_push_external :
  let mem := ([1; 1] ++ to_le 4 2 ++ to_le 8 15 ++ [255] ++ [7; 8])%Z in
  exists m d, mdv_vm_run 2 [] (stack0 32 mem) 0 = Done (m, MDV_OK)
    /\ mdv_vm_stack_top m = Done (MDV_OK, Some d) /\ d_data d = PMem 6
    /\ load m (d_data d) 2 = Done [15; 0]%Z /\ load m (PMem 15) 2 = Done [7; 8]%Z.
Proof. intros mem. do 2 eexists. split; [vm_compute; reflexivity|]. by split_and!. Qed.

End Vm.
