(* ===== verification/Predicate.v ===== *)
(** * Predicates of queries (src/mdv_storage/mdv_predicate.c)

    A predicate is a compiled expression in a vector of bytes together with the
    table of the operators it may call.  It is evaluated by [mdv_vm_run] and
    [mdv_vm_result_as_bool]. *)

From S2P Require Import Prelude Vector Rollbacker Vm.
Import Vector Rollbacker Vm.

Module Predicate.

(** [fns_count] is the length of [p_fns]. *)
Record mdv_predicate := mk_predicate {
  p_rc : Z;
  p_expr : @mdv_vector Z;
  p_fns : list mdv_vm_fn
}.

Definition MDV_EMPTY_PREDICATE : list Z := [1; 0; 1; 0; 0; 0; MDV_VM_TRUE; 0xFF]%Z.

Definition MDV_PREDICATE_FNS : list mdv_vm_fn :=
  [ mdv_vmop_equal; mdv_vmop_not_equal; mdv_vmop_greater; mdv_vmop_greater_or_equal; mdv_vmop_less;
    mdv_vmop_less_or_equal; mdv_vmop_and; mdv_vmop_or; mdv_vmop_not ].

Inductive release_fn := Fn_rollbacker_free | Fn_free | Fn_vector_release.
Inductive resource := Res_rollbacker | Res_predicate | Res_expr.

(** Which allocations succeed: the rollbacker, the predicate, the vector and
    its cells, the growth of the vector. *)
Record parse_mem := mk_parse_mem {
  pm_rollbacker : bool; pm_predicate : bool; pm_expr : bool; pm_data : bool; pm_append : bool
}.

Definition push_fn (r : option (mdv_rollbacker release_fn resource)) (f : release_fn) (x : resource) :=
  snd (mdv_rollbacker_push r (mk_op f [x])).

(** [mdv_rollbacker_free] *)
Definition free_rollbacker (r : option (mdv_rollbacker release_fn resource)) : list (release_fn * list resource) :=
  match r with None => [] | Some _ => [(Fn_rollbacker_free, [Res_rollbacker])] end.

(** The predicate, and the release calls made on the way.  The expression is
    read for a warning only.  The growth loop gets fuel for one round: the
    vector is created with the capacity it needs. *)
Definition mdv_predicate_parse (m : parse_mem) (expression : option (list Z))
  : outcome (option mdv_predicate * list (release_fn * list resource)) :=
  let rbr := mdv_rollbacker_create (pm_rollbacker m) Fn_rollbacker_free Res_rollbacker 2 in
  if negb (pm_predicate m) then Done (None, mdv_rollback rbr) else
  let rbr := push_fn rbr Fn_free Res_predicate in
  match mdv_vector_create (pm_expr m) (pm_data m) (Z.of_nat (length MDV_EMPTY_PREDICATE)) 1 with
  | None => Done (None, mdv_rollback rbr)
  | Some expr =>
      let rbr := push_fn rbr Fn_vector_release Res_expr in
      '(expr, _) ← mdv_vector_append 1 (pm_append m) expr MDV_EMPTY_PREDICATE;
      Done (Some (mk_predicate 1 expr MDV_PREDICATE_FNS), free_rollbacker rbr)
  end.

Definition mdv_predicate_retain (p : mdv_predicate) : mdv_predicate :=
  mk_predicate (rc_retain (p_rc p)) (p_expr p) (p_fns p).

(** The release of the expression by the destructor. *)
Definition mdv_predicate_free (p : mdv_predicate) : Z * option (@mdv_vector Z) :=
  mdv_vector_release false (Some (p_expr p)).

(** The returned count, the predicate unless it is freed, and what the
    destructor did with the expression. *)
Definition mdv_predicate_release (p : option mdv_predicate)
  : Z * option mdv_predicate * option (Z * option (@mdv_vector Z)) :=
  match p with
  | None => (0%Z, None, None)
  | Some p =>
      let '(rc, refs, dead) := rc_release (p_rc p) in
      if dead then (refs, None, Some (mdv_predicate_free p))
      else (refs, Some (mk_predicate rc (p_expr p) (p_fns p)), None)
  end.

(** The bytes behind [mdv_vector_data]. *)
Definition mdv_predicate_expr (p : mdv_predicate) : list (option Z) := v_data (p_expr p).
Definition mdv_predicate_fns (p : mdv_predicate) : list mdv_vm_fn := p_fns p.
Definition mdv_predicate_fns_count (p : mdv_predicate) : nat := length (p_fns p).

(** ** The operators of the table *)

Definition predicate_ops : list aop :=
  ((fun p : mdv_vm_fn * (comparison -> bool) => acmp p.2) <$> comparisons)
  ++ ((fun p : mdv_vm_fn * (Z -> Z -> Z) => abit p.2) <$> bitwise) ++ [anot].

Lemma predicate_fns_refine : Forall2 OpRefines MDV_PREDICATE_FNS predicate_ops.
Proof.
  repeat (apply Forall2_cons; split); [..|apply Forall2_nil; done]; [..|apply not_refines];
    first [by apply compare_refines; unfold comparisons; set_solver|by apply bitwise_refines; unfold bitwise; set_solver].
Qed.

(** The program of the empty predicate. *)
Lemma empty_predicate_program : MDV_EMPTY_PREDICATE = program [IPush [MDV_VM_TRUE]].
Proof. done. Qed.

Definition parsed : mdv_predicate :=
  mk_predicate 1 (mk_vector 1 8 8 1 (Some <$> MDV_EMPTY_PREDICATE)) MDV_PREDICATE_FNS.

Lemma parse_done m e :
  pm_predicate m = true -> pm_expr m = true -> pm_data m = true ->
  mdv_predicate_parse m e = Done (Some parsed, if pm_rollbacker m then [(Fn_rollbacker_free, [Res_rollbacker])] else []).
Proof. destruct m as [[] p x d a]; simpl; intros -> -> ->; done. Qed.

(** ** Theorems *)

(** Parsing yields, whatever the expression, the predicate that holds of
    every row: it has one reference, the nine operators, and running its
    program on any stack with six bytes of room leaves a value that reads as
    true.  When an allocation fails the result is null and what was acquired
    is released in reverse order, each once, the rollbacker last.  Releasing
    the only reference releases the expression, and after a retain it does not. *)
Theorem mdv_predicate_parse_correct (m : parse_mem) (e : option (list Z)) :
  mdv_predicate_parse m e
    = Done (if pm_predicate m && pm_expr m && pm_data m then Some parsed else None,
            (if pm_rollbacker m && pm_predicate m && negb (pm_expr m && pm_data m) then [(Fn_free, [Res_predicate])] else [])
            ++ (if pm_rollbacker m then [(Fn_rollbacker_free, [Res_rollbacker])] else []))
  /\ (forall pre post (s : vm) its,
        Some <$> v_mem s = pre ++ mdv_predicate_expr parsed ++ post -> repr s (Inline <$> its) ->
        s_size (v_stack s) + 6 <= s_capacity (v_stack s) ->
        exists s', mdv_vm_run 2 (mdv_predicate_fns parsed) s (Z.of_nat (length pre)) = Done (s', MDV_OK)
          /\ mdv_vm_result_as_bool s' = Done (MDV_OK, Some true))
  /\ mdv_predicate_release (Some parsed) = (0%Z, None, Some (0%Z, None))
  /\ mdv_predicate_release (Some (mdv_predicate_retain parsed)) = (1%Z, Some parsed, None).
Proof.
  split_and!; [|intros pre post s its Hm Hr Hroom|done|done].
  { destruct m as [r p x d a]. destruct p; [|by destruct r]. destruct x; [|by destruct r]. destruct d; [|by destruct r].
    by destruct r. }
  assert (Hmem : exists pre' post', v_mem s = pre' ++ program [IPush [MDV_VM_TRUE]] ++ post' /\ length pre' = length pre).
  { apply fmap_app_inv in Hm as (pre' & rest & -> & Hrest & ->). symmetry in Hrest.
    apply fmap_app_inv in Hrest as (x & post' & Hx & -> & ->). exists pre', post'. rewrite length_fmap.
    split; [|done]. f_equal. f_equal. rewrite <- empty_predicate_program.
    apply (inj (fmap Some)). exact (eq_sym Hx). }
  destruct Hmem as (pre' & post' & Hmem & <-).
  destruct (run_refines _ _ [IPush [MDV_VM_TRUE]] s its pre' post' predicate_fns_refine) as (s' & E & _ & Hr');
    [by repeat constructor|done|done|].
  assert (Ha : arun (s_capacity (v_stack s)) predicate_ops [IPush [MDV_VM_TRUE]] its = (MDV_OK, [MDV_VM_TRUE] :: its)).
  { cbn [arun]. rewrite (proj2 (Nat.leb_le _ _)); [done|]. unfold depth. rewrite <- (repr_size _ _ Hr). simpl. lia. }
  rewrite Ha in E, Hr'. exists s'. split; [exact E|]. apply (result_as_bool_spec s' (Inline <$> its) true). by apply Hr'.
Qed.

Lemma mdv_predicate_parse_correct_witness :
  exists s', mdv_vm_run 2 (mdv_predicate_fns parsed) (stack0 16 MDV_EMPTY_PREDICATE) 0 = Done (s', MDV_OK)
    /\ mdv_vm_result_as_bool s' = Done (MDV_OK, Some true).
Proof.
  exact (proj1 (proj2 (mdv_predicate_parse_correct (mk_parse_mem true true true true true) None))
    [] [] (stack0 16 MDV_EMPTY_PREDICATE) [] eq_refl (stack0_repr 16 _) ltac:(simpl; lia)).
Defined.

(** A predicate compiled from pushes and calls of the nine operators is
    evaluated as the abstract machine evaluates it: if that leaves a single
    byte on top, [mdv_vm_run] returns [MDV_OK] and [mdv_vm_result_as_bool]
    reads whether the byte differs from zero; if the value on top has another
    size the result is [MDV_INVALID_TYPE]; an error of the abstract machine is
    returned. *)
Theorem mdv_predicate_eval (prog : list instr) (s : vm) its pre post :
  Forall instr_ok prog -> v_mem s = pre ++ program prog ++ post -> repr s (Inline <$> its) ->
  let '(err, vs) := arun (s_capacity (v_stack s)) predicate_ops prog its in
  exists s', mdv_vm_run (S (length prog)) MDV_PREDICATE_FNS s (Z.of_nat (length pre)) = Done (s', err)
    /\ (err = MDV_OK -> mdv_vm_result_as_bool s' =
          Done (match vs with
                | [] => (MDV_FAILED, None)
                | [b] :: _ => (MDV_OK, Some (negb (b =? 0)%Z))
                | _ :: _ => (MDV_INVALID_TYPE, None)
                end)).
Proof.
  intros Hok Hm Hr. destruct (run_refines _ _ prog s its pre post predicate_fns_refine Hok Hm Hr) as (s' & E & _ & Hr').
  destruct (arun _ _ _ _) as [err vs]. cbn [fst snd] in *. exists s'. split; [exact E|]. intros ->. specialize (Hr' eq_refl).
  destruct vs as [|v vs]; [unfold mdv_vm_result_as_bool; by rewrite (top_empty _ Hr')|].
  rewrite fmap_cons in Hr'. apply result_inline in Hr'. destruct v as [|b [|b' v]]; exact Hr'.
Qed.

Definition demo_pred : list instr := [IPush [1; 2]; IPush [1; 3]; ICall 4; IPush [0]; ICall 7]%Z.

Lemma mdv_predicate_eval_witness :
  exists s', mdv_vm_run 6 MDV_PREDICATE_FNS (stack0 32 (program demo_pred)) 0 = Done (s', MDV_OK)
    /\ (MDV_OK = MDV_OK -> mdv_vm_result_as_bool s' = Done (MDV_OK, Some true)).
Proof.
  exact (mdv_predicate_eval demo_pred (stack0 32 (program demo_pred)) [] [] []
    ltac:(repeat constructor; done) eq_refl (stack0_repr 32 _)).
Defined.

End Predicate.
