(* ===== verification/Lmdb.v ===== *)
(** * Storage wrapper (src/mdv_storage/mdv_lmdb.c)

    The storage, its transactions, named maps, cursors and their reference
    counting, on top of the LMDB library.  The library itself is a parameter:
    the classes [Mdb], [MdbCursor] and [MdbEnv] list the calls the wrapper
    makes, the classes [MdbLaws] and [MdbCursorLaws] what the documentation of
    those calls promises.  A storage is used through one pointer, so that a
    pointer field is null or not. *)

From Stdlib Require Export Ascii.
From stdpp Require Export strings.
From S2P Require Import Prelude.

Module Lmdb.

Abbreviation bytes := (list Z).

(** ** The library *)

(** An environment, and a write transaction in it.  A result code is [MDB_SUCCESS]
    or an error. *)
Class Mdb := {
  mdb_env : Type;
  mdb_txn : Type;
  mdb_txn_begin : mdb_env -> mdb_env * Z * option mdb_txn;
  mdb_txn_commit : mdb_env -> mdb_txn -> mdb_env * Z;
  mdb_txn_abort : mdb_env -> mdb_txn -> mdb_env;
  mdb_dbi_open : mdb_txn -> string -> Z -> mdb_txn * Z * Z;
  mdb_dbi_close : mdb_env -> Z -> mdb_env;
  mdb_put : mdb_txn -> Z -> bytes -> bytes -> Z -> mdb_txn * Z;
  mdb_get : mdb_txn -> Z -> bytes -> Z * bytes;
  mdb_del : mdb_txn -> Z -> bytes -> option bytes -> mdb_txn * Z
}.

(** The operations of a cursor that the wrapper uses. *)
Inductive mdb_cursor_op :=
| MDB_FIRST | MDB_GET_CURRENT | MDB_LAST | MDB_LAST_DUP | MDB_NEXT | MDB_NEXT_DUP | MDB_PREV | MDB_SET | MDB_SET_RANGE.

(** A cursor belongs to the transaction it was opened in, which its operations
    get as an argument here.  [mdb_cursor_get] gets the key the caller has
    in its variable; the pair is written on success only. *)
Class MdbCursor `{Mdb} := {
  mdb_cursor : Type;
  mdb_cursor_open : mdb_txn -> Z -> Z * option mdb_cursor;
  mdb_cursor_get : mdb_txn -> mdb_cursor -> bytes -> mdb_cursor_op -> mdb_cursor * Z * (bytes * bytes)
}.

(** Opening of an environment, by its path; the calls take and return it. *)
Class MdbEnv `{Mdb} := {
  mdb_env_create : Z * mdb_env;
  mdb_env_set_maxdbs : mdb_env -> Z -> mdb_env * Z;
  mdb_env_set_mapsize : mdb_env -> Z -> mdb_env * Z;
  mdb_env_open : mdb_env -> list Ascii.ascii -> Z -> mdb_env * Z
}.

Definition MDB_SUCCESS : Z := 0.
Definition MDB_KEYEXIST : Z := -30799.
Definition MDB_NOTFOUND : Z := -30798.
Definition MDB_DUPSORT : Z := 0x04.
Definition MDB_INTEGERKEY : Z := 0x08.
Definition MDB_DUPFIXED : Z := 0x10.
Definition MDB_INTEGERDUP : Z := 0x20.
Definition MDB_CREATE : Z := 0x40000.
Definition MDB_NOOVERWRITE : Z := 0x10.

Definition MDV_MAP_CREATE : Z := 1.
Definition MDV_MAP_MULTI : Z := 2.
Definition MDV_MAP_INTEGERKEY : Z := 4.
Definition MDV_MAP_FIXED_SIZE_VALUE : Z := 8.
Definition MDV_MAP_INTEGERVAL : Z := 16.
Definition MDV_MAP_SILENT : Z := 32.

(** ** The wrapper *)

Section Wrapper.
Context `{Mdb}.

(** [s_open] turns false when the environment is closed and the storage freed. *)
Record mdv_lmdb := mk_lmdb { s_refs : Z; s_env : mdb_env; s_open : bool }.

(** [t_storage] and [m_storage]: the pointer [pstorage] is not null. *)
Record mdv_transaction := mk_transaction { t_storage : bool; t_txn : option mdb_txn }.
Record mdv_map := mk_map { m_storage : bool; m_dbmap : Z }.

Definition set_env (s : mdv_lmdb) (e : mdb_env) : mdv_lmdb := mk_lmdb (s_refs s) e (s_open s).

Definition mdv_storage_retain (p : bool) (s : mdv_lmdb) : mdv_lmdb :=
  if p then mk_lmdb (rc_retain (s_refs s)) (s_env s) (s_open s) else s.

Definition mdv_storage_release (p : bool) (s : mdv_lmdb) : mdv_lmdb * Z :=
  if p then
    let '(rc, refs, dead) := rc_release (s_refs s) in
    (mk_lmdb rc (s_env s) (if dead then false else s_open s), refs)
  else (s, 0%Z).

Definition mdv_transaction_ok (t : mdv_transaction) : bool := match t_txn t with Some _ => true | None => false end.
Definition mdv_map_ok (m : mdv_map) : bool := m_storage m && negb (m_dbmap m =? 0)%Z.

Definition mdv_transaction_start (s : mdv_lmdb) : mdv_lmdb * mdv_transaction :=
  let '(e, rc, txn) := mdb_txn_begin (s_env s) in
  let s := set_env s e in
  if negb (rc =? MDB_SUCCESS)%Z then (s, mk_transaction false None)
  else (mdv_storage_retain true s, mk_transaction true txn).

Definition mdv_transaction_commit (s : mdv_lmdb) (t : mdv_transaction) : mdv_lmdb * mdv_transaction * bool :=
  match t_txn t with
  | Some txn =>
      let '(e, rc) := mdb_txn_commit (s_env s) txn in
      let s := fst (mdv_storage_release (t_storage t) (set_env s e)) in
      (s, mk_transaction false None, (rc =? MDB_SUCCESS)%Z)
  | None => (s, t, false)
  end.

Definition mdv_transaction_abort (s : mdv_lmdb) (t : mdv_transaction) : mdv_lmdb * mdv_transaction * bool :=
  match t_txn t with
  | Some txn =>
      let s := fst (mdv_storage_release (t_storage t) (set_env s (mdb_txn_abort (s_env s) txn))) in
      (s, mk_transaction false None, true)
  | None => (s, t, false)
  end.

(** The flags of LMDB for the flags of the map. *)
Definition map_flags (flags : Z) : Z :=
  let on a b acc := if (Z.land flags a =? 0)%Z then acc else Z.lor acc b in
  on MDV_MAP_INTEGERVAL MDB_INTEGERDUP
    (on MDV_MAP_FIXED_SIZE_VALUE MDB_DUPFIXED
      (on MDV_MAP_INTEGERKEY MDB_INTEGERKEY
        (on MDV_MAP_MULTI MDB_DUPSORT
          (on MDV_MAP_CREATE MDB_CREATE 0%Z)))).

(** The transaction must not be null: LMDB is called with its pointer. *)
Definition mdv_map_open (s : mdv_lmdb) (t : mdv_transaction) (name : string) (flags : Z)
  : mdv_lmdb * mdv_transaction * mdv_map :=
  match t_txn t with
  | Some txn =>
      let '(txn, rc, dbi) := mdb_dbi_open txn name (map_flags flags) in
      let t := mk_transaction (t_storage t) (Some txn) in
      if negb (rc =? MDB_SUCCESS)%Z then (s, t, mk_map false 0)
      else (mdv_storage_retain (t_storage t) s, t, mk_map (t_storage t) dbi)
  | None => (s, t, mk_map false 0)
  end.

Definition mdv_map_close (s : mdv_lmdb) (m : mdv_map) : mdv_lmdb * mdv_map :=
  if m_storage m && negb (m_dbmap m =? 0)%Z then
    let s := fst (mdv_storage_release true (set_env s (mdb_dbi_close (s_env s) (m_dbmap m)))) in
    (s, mk_map false (m_dbmap m))
  else (s, m).

Definition mdv_map_put_impl (m : mdv_map) (t : mdv_transaction) (key value : bytes) (flags : Z)
  : mdv_transaction * bool :=
  match t_txn t with
  | None => (t, false)
  | Some txn =>
      let '(txn, rc) := mdb_put txn (m_dbmap m) key value flags in
      (mk_transaction (t_storage t) (Some txn), (rc =? MDB_SUCCESS)%Z)
  end.

Definition mdv_map_put (m : mdv_map) (t : mdv_transaction) (key value : bytes) : mdv_transaction * bool :=
  mdv_map_put_impl m t key value 0.

Definition mdv_map_put_unique (m : mdv_map) (t : mdv_transaction) (key value : bytes) : mdv_transaction * bool :=
  mdv_map_put_impl m t key value MDB_NOOVERWRITE.

(** [None] for [false]; otherwise the value. *)
Definition mdv_map_get (m : mdv_map) (t : mdv_transaction) (key : bytes) : option bytes :=
  match t_txn t with
  | None => None
  | Some txn =>
      let '(rc, v) := mdb_get txn (m_dbmap m) key in
      if (rc =? MDB_NOTFOUND)%Z then None
      else if negb (rc =? MDB_SUCCESS)%Z then None
      else Some v
  end.

Definition mdv_map_del (m : mdv_map) (t : mdv_transaction) (key : bytes) (value : option bytes)
  : mdv_transaction * bool :=
  match t_txn t with
  | None => (t, false)
  | Some txn =>
      let '(txn, rc) := mdb_del txn (m_dbmap m) key value in
      let t := mk_transaction (t_storage t) (Some txn) in
      if (rc =? MDB_NOTFOUND)%Z then (t, false)
      else if negb (rc =? MDB_SUCCESS)%Z then (t, false)
      else (t, true)
  end.

(** ** Cursors *)

Context `{!MdbCursor}.

Inductive mdv_cursor_op :=
| MDV_CURSOR_FIRST | MDV_CURSOR_CURRENT | MDV_CURSOR_LAST | MDV_CURSOR_LAST_DUP | MDV_CURSOR_NEXT
| MDV_CURSOR_NEXT_DUP | MDV_CURSOR_PREV | MDV_CURSOR_SET | MDV_CURSOR_SET_RANGE.

Record mdv_cursor := mk_cursor { c_storage : bool; c_cursor : option mdb_cursor }.

Definition mdv_cursor_ok (c : mdv_cursor) : bool := c_storage c && match c_cursor c with Some _ => true | None => false end.

Definition mdv_cursor_open (s : mdv_lmdb) (m : mdv_map) (t : mdv_transaction) : mdv_lmdb * mdv_cursor :=
  match t_txn t with
  | None => (s, mk_cursor false None)
  | Some txn =>
      let '(rc, c) := mdb_cursor_open txn (m_dbmap m) in
      if negb (rc =? MDB_SUCCESS)%Z then (s, mk_cursor false None)
      else (mdv_storage_retain (t_storage t) s, mk_cursor (t_storage t) c)
  end.

Definition cursor_op (op : mdv_cursor_op) : mdb_cursor_op :=
  match op with
  | MDV_CURSOR_FIRST => MDB_FIRST
  | MDV_CURSOR_CURRENT => MDB_GET_CURRENT
  | MDV_CURSOR_LAST => MDB_LAST
  | MDV_CURSOR_LAST_DUP => MDB_LAST_DUP
  | MDV_CURSOR_NEXT => MDB_NEXT
  | MDV_CURSOR_NEXT_DUP => MDB_NEXT_DUP
  | MDV_CURSOR_PREV => MDB_PREV
  | MDV_CURSOR_SET => MDB_SET
  | MDV_CURSOR_SET_RANGE => MDB_SET_RANGE
  end.

(** [kv]: the key and the value of the caller. *)
Definition mdv_cursor_get (t : mdv_transaction) (c : mdv_cursor) (kv : bytes * bytes) (op : mdv_cursor_op)
  : mdv_cursor * bool * (bytes * bytes) :=
  match t_txn t, c_cursor c with
  | Some txn, Some cur =>
      let '(cur, rc, kv') := mdb_cursor_get txn cur kv.1 (cursor_op op) in
      let c := mk_cursor (c_storage c) (Some cur) in
      if (rc =? MDB_SUCCESS)%Z then (c, true, kv') else (c, false, kv)
  | _, _ => (c, false, kv)
  end.

Definition mdv_cursor_close (s : mdv_lmdb) (c : mdv_cursor) : mdv_lmdb * mdv_cursor :=
  (fst (mdv_storage_release (c_storage c) s), mk_cursor false None).

Definition mdv_cursor_open_explicit (s : mdv_lmdb) (m : mdv_map) (t : mdv_transaction) (kv : bytes * bytes)
    (op : mdv_cursor_op) : mdv_lmdb * mdv_cursor * (bytes * bytes) :=
  let '(s, c) := mdv_cursor_open s m t in
  if negb (mdv_cursor_ok c) then (s, c, kv) else
  let '(c, ok, kv) := mdv_cursor_get t c kv op in
  if negb ok then (fst (mdv_cursor_close s c), mk_cursor false None, kv) else (s, c, kv).

Definition mdv_cursor_open_first (s : mdv_lmdb) (m : mdv_map) (t : mdv_transaction) (kv : bytes * bytes)
  : mdv_lmdb * mdv_cursor * (bytes * bytes) :=
  mdv_cursor_open_explicit s m t kv MDV_CURSOR_FIRST.

(** ** Fields of a record kept in a map *)

(** [f_value]: the bytes at [value.ptr], of which [f_size] are used. *)
Record mdv_map_field_desc := mk_field {
  f_key : bytes;
  f_size : nat;
  f_value : bytes;
  f_empty : bool;
  f_changed : bool
}.

Definition mdv_map_field_init (key : bytes) (value : bytes) : mdv_map_field_desc :=
  mk_field key (length value) value true false.

(** The assigned value has the type of the field. *)
Definition mdv_map_field_set (f : mdv_map_field_desc) (v : bytes) : mdv_map_field_desc :=
  mk_field (f_key f) (f_size f) v false true.

Definition read_field (m : mdv_map) (t : mdv_transaction) (f : mdv_map_field_desc) : mdv_map_field_desc :=
  match mdv_map_get m t (f_key f) with
  | None => f
  | Some v =>
      if length v <=? f_size f then mk_field (f_key f) (length v) (memcpy (f_value f) 0 v) false false else f
  end.

Definition mdv_map_read (m : mdv_map) (t : mdv_transaction) (fields : list mdv_map_field_desc) : list mdv_map_field_desc :=
  map (read_field m t) fields.

Fixpoint mdv_map_write (m : mdv_map) (t : mdv_transaction) (fields : list mdv_map_field_desc)
  : mdv_transaction * list mdv_map_field_desc :=
  match fields with
  | [] => (t, [])
  | f :: fields =>
      let '(t, f) :=
        if f_changed f then
          let '(t, ok) := mdv_map_put m t (f_key f) (take (f_size f) (f_value f)) in
          (t, if ok then mk_field (f_key f) (f_size f) (f_value f) (f_empty f) false else f)
        else (t, f) in
      let '(t, fields) := mdv_map_write m t fields in (t, f :: fields)
  end.

(** ** Opening *)

Context `{!MdbEnv}.

Definition MDB_NOSUBDIR : Z := 0x4000.
Definition MDV_STRG_NOSUBDIR : Z := 2.

(** The flags of LMDB for the flags of the storage. *)
Definition storage_flags (flags : Z) : Z :=
  foldl (fun acc '(a, b) => if (Z.land flags a =? 0)%Z then acc else Z.lor acc b) MDB_NOSUBDIR
    [(1, 0x01); (2, 0x4000); (4, 0x20000); (8, 0x80000); (16, 0x40000); (32, 0x10000); (64, 0x100000);
     (128, 0x200000); (256, 0x400000); (512, 0x800000); (1024, 0x1000000)]%Z.

(** [path/name] in a buffer of 1024 characters with its last zero; [None] when
    it is too long.  An empty path is refused as well. *)
Definition db_path (path name : list Ascii.ascii) : option (list Ascii.ascii) :=
  if (1024 <? length path + 1) || (length path + 1 <? 2) then None
  else if 1024 - (length path + 1) <? 1 then None
  else if 1024 - (length path + 2) <? length name then None
  else Some (path ++ ["/"%char] ++ name).

(** [path], [name]: null or the text; [mkdir]: the result of [mdv_mkdir];
    [mem]: the storage is allocated.  Without memory the environment is closed
    and the null pointer written to, which is [OutOfBounds]. *)
Definition mdv_storage_open (path name : option (list Ascii.ascii)) (dbs_num flags mapsize : Z) (mkdir mem : bool)
  : outcome (option mdv_lmdb) :=
  match path, name with
  | Some path, Some name =>
      match db_path path name with
      | None => Done None
      | Some p =>
          if negb mkdir then Done None else
          let '(rc, env) := mdb_env_create in
          if negb (rc =? MDB_SUCCESS)%Z then Done None else
          let '(env, rc) := mdb_env_set_maxdbs env dbs_num in
          if negb (rc =? MDB_SUCCESS)%Z then Done None else
          let '(env, rc) := mdb_env_set_mapsize env mapsize in
          if negb (rc =? MDB_SUCCESS)%Z then Done None else
          let '(env, rc) := mdb_env_open env p (storage_flags flags) in
          if negb (rc =? MDB_SUCCESS)%Z then Done None else
          if negb mem then OutOfBounds 0 else Done (Some (mk_lmdb 1 env true))
      end
  | _, _ => Done None
  end.

End Wrapper.

(** ** What the library promises *)

Abbreviation database := (gmap string (gmap bytes bytes)).

(** Keys are limited to 511 bytes by default, and not empty. *)
Definition valid_key (k : bytes) : Prop := 1 <= length k <= 511.

(** [db]: the committed maps; [view]: the maps as the transaction sees them;
    [handle t d]: the name of the map behind the handle [d]. *)
Class MdbLaws `{Mdb} := {
  db : mdb_env -> database;
  view : mdb_txn -> database;
  handle : mdb_txn -> Z -> option string;
  handle_dom : forall t d n, handle t d = Some n -> is_Some (view t !! n);
  begin_spec : forall e, match mdb_txn_begin e with
    | (e', rc, t) => db e' = db e /\ (rc = MDB_SUCCESS -> exists t', t = Some t' /\ view t' = db e)
    end;
  commit_spec : forall e t, match mdb_txn_commit e t with
    | (e', rc) => db e' = if decide (rc = MDB_SUCCESS) then view t else db e
    end;
  abort_spec : forall e t, db (mdb_txn_abort e t) = db e;
  dbi_close_spec : forall e d, db (mdb_dbi_close e d) = db e;
  dbi_open_spec : forall t name flags, match mdb_dbi_open t name flags with
    | (t', rc, d) =>
        if decide (rc = MDB_SUCCESS) then
          d <> 0%Z /\ handle t' d = Some name
          /\ (forall d' n, handle t d' = Some n -> handle t' d' = Some n)
          /\ view t' = match view t !! name with Some _ => view t | None => <[name := ∅]> (view t) end
          /\ (Z.land flags MDB_CREATE = 0%Z -> is_Some (view t !! name))
        else view t' = view t /\ (forall d' n, handle t d' = Some n -> handle t' d' = Some n)
    end;
  put_spec : forall t d n k v flags, handle t d = Some n -> valid_key k ->
    match mdb_put t d k v flags with
    | (t', rc) =>
        (forall d' n', handle t d' = Some n' -> handle t' d' = Some n')
        /\ view t' = (if decide (rc = MDB_SUCCESS) then alter (fun m => <[k := v]> m) n (view t) else view t)
        /\ (Z.land flags MDB_NOOVERWRITE <> 0%Z -> is_Some (view t !! n ≫= (.!! k)) -> rc = MDB_KEYEXIST)
    end;
  get_spec : forall t d n k, handle t d = Some n -> valid_key k ->
    match mdb_get t d k with
    | (rc, v) => match view t !! n ≫= (.!! k) with
                 | Some v' => rc = MDB_SUCCESS /\ v = v'
                 | None => rc = MDB_NOTFOUND
                 end
    end
}.

(** The database has room: a store fails only for an existing key that must
    not be overwritten. *)
Class MdbRoom `{MdbLaws} : Prop := put_room :
  forall t d n k v flags, handle t d = Some n -> valid_key k ->
    snd (mdb_put t d k v flags) = MDB_SUCCESS
    \/ snd (mdb_put t d k v flags) = MDB_KEYEXIST /\ is_Some (view t !! n ≫= (.!! k)) /\ Z.land flags MDB_NOOVERWRITE <> 0%Z.

(** No call fails: transactions start and are committed, maps open when they
    exist or may be created. *)
Class MdbReliable `{MdbLaws} : Prop := {
  begin_reliable : forall e, snd (fst (mdb_txn_begin e)) = MDB_SUCCESS;
  commit_reliable : forall e t, snd (mdb_txn_commit e t) = MDB_SUCCESS;
  open_reliable : forall t name flags, is_Some (view t !! name) \/ Z.land flags MDB_CREATE <> 0%Z ->
    snd (fst (mdb_dbi_open t name flags)) = MDB_SUCCESS
}.

(** ** Reference counts below 32 bits *)

Lemma storage_release_live `{Mdb} (s : mdv_lmdb) :
  (1 < s_refs s < 2 ^ 32)%Z -> fst (mdv_storage_release true s) = mk_lmdb (s_refs s - 1) (s_env s) (s_open s).
Proof.
  intros Hs. unfold mdv_storage_release, rc_release. rewrite (wrap_id 64) by (unfold fits; lia).
  rewrite (wrap_id 32) by (unfold fits; lia). destruct (Z.eqb_spec (s_refs s - 1) 0); [lia|done].
Qed.

Lemma storage_retain_live `{Mdb} (s : mdv_lmdb) :
  (0 <= s_refs s < 2 ^ 32)%Z -> mdv_storage_retain true s = mk_lmdb (s_refs s + 1) (s_env s) (s_open s).
Proof. intros Hs. unfold mdv_storage_retain, rc_retain. by rewrite (wrap_id 64) by (unfold fits; lia). Qed.

(** ** What the library promises for cursors *)

(** Keys are ordered as byte strings, or, in a map of integer keys, as the
    integers they hold in native byte order. *)
Fixpoint bytes_leb (a b : bytes) : bool :=
  match a, b with
  | [], _ => true
  | _ :: _, [] => false
  | x :: a, y :: b => (x <? y)%Z || (x =? y)%Z && bytes_leb a b
  end.

Definition key_le (int : bool) (a b : bytes) : Prop := if int then (of_le a <= of_le b)%Z else bytes_leb a b = true.

#[export] Instance key_le_dec int : RelDecision (key_le int).
Proof. intros a b. unfold key_le. destruct int; apply _. Defined.

Lemma bytes_leb_total a b : bytes_leb a b = true \/ bytes_leb b a = true.
Proof.
  revert b. induction a as [|x a IH]; intros [|y b]; simpl; auto. destruct (IH b) as [-> | ->];
    destruct (Z.ltb_spec x y), (Z.ltb_spec y x), (Z.eqb_spec x y), (Z.eqb_spec y x); simpl; auto; lia.
Qed.

#[export] Instance key_le_total int : Total (key_le int).
Proof. intros a b. unfold key_le. destruct int; [lia|apply bytes_leb_total]. Qed.

#[export] Instance key_le_trans int : Transitive (key_le int).
Proof.
  unfold key_le. destruct int; intros a b c; [lia|]. revert b c.
  induction a as [|x a IH]; intros [|y b] [|z c]; simpl; try done.
  rewrite !orb_true_iff, !andb_true_iff, !Z.ltb_lt, !Z.eqb_eq.
  intros [H1|(H1 & H2)] [H3|(H3 & H4)]; [left; lia..|]. right. split; [lia|eauto].
Qed.

(** The position of a key in a sorted sequence: of the first key not below it. *)
Fixpoint lower_pos (int : bool) (k : bytes) (l : list (bytes * bytes)) : nat :=
  match l with
  | [] => 0
  | e :: l => if decide (key_le int k e.1) then 0 else S (lower_pos int k l)
  end.

(** [int_maps], [txn_int_maps]: the names of the maps of integer keys, a
    property the map is created with;  [entries t d]: the entries behind the
    handle [d] in order;  [cursor_on c d i]: the cursor is open on [d] and
    stands at the entry [i], or nowhere yet; it stays usable when an operation
    finds nothing. *)
Class MdbCursorLaws `{MdbLaws, !MdbCursor} := {
  int_maps : mdb_env -> gset string;
  txn_int_maps : mdb_txn -> gset string;
  entries : mdb_txn -> Z -> list (bytes * bytes);
  cursor_on : mdb_cursor -> Z -> option nat -> Prop;
  begin_int : forall e, match mdb_txn_begin e with
    | (e', rc, t) => int_maps e' = int_maps e /\ match t with Some t => txn_int_maps t = int_maps e | None => True end
    end;
  commit_int : forall e t, match mdb_txn_commit e t with
    | (e', rc) => int_maps e' = if decide (rc = MDB_SUCCESS) then txn_int_maps t else int_maps e
    end;
  abort_int : forall e t, int_maps (mdb_txn_abort e t) = int_maps e;
  dbi_close_int : forall e d, int_maps (mdb_dbi_close e d) = int_maps e;
  dbi_open_int : forall t name flags, match mdb_dbi_open t name flags with
    | (t', rc, d) =>
        (name ∈ txn_int_maps t' <->
          if decide (rc = MDB_SUCCESS /\ view t !! name = None) then Z.land flags MDB_INTEGERKEY <> 0%Z else name ∈ txn_int_maps t)
        /\ forall n, n <> name -> (n ∈ txn_int_maps t' <-> n ∈ txn_int_maps t)
    end;
  put_int : forall t d k v flags, txn_int_maps (fst (mdb_put t d k v flags)) = txn_int_maps t;
  entries_perm : forall t d n m, handle t d = Some n -> view t !! n = Some m -> entries t d ≡ₚ map_to_list m;
  entries_sorted : forall t d n, handle t d = Some n ->
    StronglySorted (fun a b => key_le (bool_decide (n ∈ txn_int_maps t)) a.1 b.1) (entries t d);
  cursor_open_spec : forall t d n, handle t d = Some n ->
    match mdb_cursor_open t d with
    | (rc, c) => rc = MDB_SUCCESS -> exists c', c = Some c' /\ cursor_on c' d None
    end;
  cursor_get_spec : forall t c d n i k op, handle t d = Some n -> cursor_on c d i ->
    let target := match op with
      | MDB_FIRST => Some 0
      | MDB_LAST => Some (pred (length (entries t d)))
      | MDB_NEXT => match i with None => Some 0 | Some i => Some (S i) end
      | MDB_SET_RANGE => Some (lower_pos (bool_decide (n ∈ txn_int_maps t)) k (entries t d))
      | _ => None
      end in
    match target with
    | None => True
    | Some j =>
        match mdb_cursor_get t c k op, entries t d !! j with
        | (c', rc, kv), Some e => rc = MDB_SUCCESS /\ kv = e /\ cursor_on c' d (Some j)
        | (c', rc, kv), None => rc = MDB_NOTFOUND /\ exists i', cursor_on c' d i'
        end
    end
}.

(** Cursors are opened. *)
Class MdbCursorReliable `{MdbCursorLaws} : Prop :=
  cursor_reliable : forall t d n, handle t d = Some n -> fst (mdb_cursor_open t d) = MDB_SUCCESS.

(** ** Committed data *)

(** The value of a key of a named map. *)
Definition lookup2 (d : database) (name : string) (k : bytes) : option bytes := d !! name ≫= (.!! k).

(** The map [name] exists. *)
Definition ensure (name : string) (d : database) : database :=
  match d !! name with Some _ => d | None => <[name := ∅]> d end.

Lemma ensure_lookup name k d :
  ensure name d !! k = if decide (k = name) then Some (default ∅ (d !! name)) else d !! k.
Proof.
  unfold ensure. destruct (d !! name) eqn:E; destruct (decide (k = name)) as [->|]; simpl; try done.
  - by rewrite lookup_insert_eq.
  - by rewrite lookup_insert_ne.
Qed.

Lemma lookup2_ensure name n k d : lookup2 (ensure name d) n k = lookup2 d n k.
Proof. unfold lookup2. rewrite ensure_lookup. case_decide as E; [subst|done]. by destruct (d !! name). Qed.

End Lmdb.
