(* ===== verification/Memdb.v ===== *)
(** * A storage in memory

    An instance of the LMDB library for the evaluation of the model: an
    environment is its committed maps and the names of those with integer
    keys, a transaction is a copy of both and the names behind its handles, a
    cursor is a handle and a position.  The instance has the documented
    behaviour, so the theorems about the storage apply to it. *)

From S2P Require Import Prelude Lmdb.
Import Lmdb.

Module Memdb.

Record toy_txn := mk_txn { x_maps : database; x_int : gset string; x_names : list string }.

Definition toy_handle (t : toy_txn) (d : Z) : option string :=
  if (d <=? 0)%Z then None
  else match x_names t !! Z.to_nat (d - 1) with
       | Some n => if is_some (x_maps t !! n) then Some n else None
       | None => None
       end.

Definition toy_open (t : toy_txn) (name : string) (flags : Z) : toy_txn * Z * Z :=
  let d := Z.of_nat (S (length (x_names t))) in
  if is_some (x_maps t !! name) then (mk_txn (x_maps t) (x_int t) (x_names t ++ [name]), MDB_SUCCESS, d)
  else if (Z.land flags MDB_CREATE =? 0)%Z then (t, MDB_NOTFOUND, 0%Z)
  else
    let int := if (Z.land flags MDB_INTEGERKEY =? 0)%Z then x_int t ∖ {[name]} else {[name]} ∪ x_int t in
    (mk_txn (<[name := ∅]> (x_maps t)) int (x_names t ++ [name]), MDB_SUCCESS, d).

Definition toy_put (t : toy_txn) (d : Z) (k v : bytes) (flags : Z) : toy_txn * Z :=
  match toy_handle t d with
  | None => (t, 22%Z)
  | Some n =>
      if decide (valid_key k) then
        if is_some (lookup2 (x_maps t) n k) && negb (Z.land flags MDB_NOOVERWRITE =? 0)%Z then (t, MDB_KEYEXIST)
        else (mk_txn (alter (fun m => <[k := v]> m) n (x_maps t)) (x_int t) (x_names t), MDB_SUCCESS)
      else (t, (-30781)%Z)
  end.

Definition toy_get (t : toy_txn) (d : Z) (k : bytes) : Z * bytes :=
  match toy_handle t d ≫= (fun n => lookup2 (x_maps t) n k) with
  | Some v => (MDB_SUCCESS, v)
  | None => (MDB_NOTFOUND, [])
  end.

Definition toy_del (t : toy_txn) (d : Z) (k : bytes) (v : option bytes) : toy_txn * Z :=
  match toy_handle t d with
  | None => (t, 22%Z)
  | Some n =>
      if is_some (lookup2 (x_maps t) n k) then
        (mk_txn (alter (fun m => delete k m) n (x_maps t)) (x_int t) (x_names t), MDB_SUCCESS)
      else (t, MDB_NOTFOUND)
  end.

#[export] Instance toy : Mdb := {|
  mdb_env := database * gset string;
  mdb_txn := toy_txn;
  mdb_txn_begin e := (e, MDB_SUCCESS, Some (mk_txn e.1 e.2 []));
  mdb_txn_commit e t := ((x_maps t, x_int t), MDB_SUCCESS);
  mdb_txn_abort e t := e;
  mdb_dbi_open := toy_open;
  mdb_dbi_close e d := e;
  mdb_put := toy_put;
  mdb_get := toy_get;
  mdb_del := toy_del
|}.

(** ** Cursors *)

Definition entry_le (int : bool) (a b : bytes * bytes) : Prop := key_le int a.1 b.1.

#[export] Instance entry_le_dec int : RelDecision (entry_le int).
Proof. intros a b. unfold entry_le. apply _. Defined.

#[export] Instance entry_le_total int : Total (entry_le int).
Proof. intros a b. apply (total (key_le int)). Qed.

#[export] Instance entry_le_trans int : Transitive (entry_le int).
Proof. intros a b c. apply (key_le_trans int). Qed.

Definition toy_entries (t : toy_txn) (d : Z) : list (bytes * bytes) :=
  match toy_handle t d with
  | None => []
  | Some n => merge_sort (entry_le (bool_decide (n ∈ x_int t))) (map_to_list (default ∅ (x_maps t !! n)))
  end.

Definition toy_int (t : toy_txn) (d : Z) : bool :=
  match toy_handle t d with None => false | Some n => bool_decide (n ∈ x_int t) end.

Definition toy_cursor_get (t : toy_txn) (c : Z * option nat) (k : bytes) (op : mdb_cursor_op)
  : (Z * option nat) * Z * (bytes * bytes) :=
  let l := toy_entries t c.1 in
  let j := match op with
    | MDB_FIRST => 0
    | MDB_LAST => pred (length l)
    | MDB_NEXT => match c.2 with None => 0 | Some i => S i end
    | MDB_PREV => match c.2 with None => pred (length l) | Some i => pred i end
    | MDB_SET | MDB_SET_RANGE => lower_pos (toy_int t c.1) k l
    | _ => default 0 c.2
    end in
  match l !! j with
  | Some e => ((c.1, Some j), MDB_SUCCESS, e)
  | None => (c, MDB_NOTFOUND, ([], []))
  end.

#[export] Instance toy_cursors : MdbCursor := {|
  mdb_cursor := Z * option nat;
  mdb_cursor_open t d := (MDB_SUCCESS, Some (d, None));
  mdb_cursor_get := toy_cursor_get
|}.

#[export] Instance toy_environment : MdbEnv := {|
  mdb_env_create := (MDB_SUCCESS, ((∅, ∅) : database * gset string));
  mdb_env_set_maxdbs e n := (e, MDB_SUCCESS);
  mdb_env_set_mapsize e n := (e, MDB_SUCCESS);
  mdb_env_open e path flags := (e, MDB_SUCCESS)
|}.

(** ** The documented behaviour *)

Lemma toy_handle_some (t : toy_txn) d n :
  toy_handle t d = Some n <-> (0 < d)%Z /\ x_names t !! Z.to_nat (d - 1) = Some n /\ is_Some (x_maps t !! n).
Proof.
  unfold toy_handle. destruct (Z.leb_spec d 0); [split; [done|intros [? _]; lia]|].
  destruct (x_names t !! Z.to_nat (d - 1)) as [n'|]; [|split; [done|by intros (_ & ? & _)]].
  destruct (x_maps t !! n') eqn:E; simpl; split; [intros [= ->]; eauto|by intros (_ & ? & _)|done|].
  intros (_ & [= ->] & [? ?]). congruence.
Qed.

Lemma toy_handle_grow (d0 d1 : database) i0 i1 (l l' : list string) d n :
  (forall k, is_Some (d0 !! k) -> is_Some (d1 !! k)) ->
  toy_handle (mk_txn d0 i0 l) d = Some n -> toy_handle (mk_txn d1 i1 (l ++ l')) d = Some n.
Proof.
  intros Hd (H1 & H2 & H3)%toy_handle_some. apply toy_handle_some. split_and!; [done|by apply lookup_app_l_Some|auto].
Qed.

Lemma toy_handle_new (d0 : database) i (l : list string) n :
  is_Some (d0 !! n) -> toy_handle (mk_txn d0 i (l ++ [n])) (Z.of_nat (S (length l))) = Some n.
Proof.
  intros Hn. apply toy_handle_some. split_and!; [lia| |done]. simpl. replace (Z.to_nat _) with (length l) by lia.
  by rewrite lookup_app_r, Nat.sub_diag by lia.
Qed.

Lemma alter_keeps (f : gmap bytes bytes -> gmap bytes bytes) (n k : string) (d : database) :
  is_Some (d !! k) -> is_Some (alter f n d !! k).
Proof.
  intros [m E]. rewrite lookup_alter. destruct (decide (n = k)) as [->|]; rewrite E; simpl; eauto.
Qed.

#[export] Program Instance toy_laws : @MdbLaws toy := {|
  db := fst;
  view := x_maps;
  handle := toy_handle
|}.
Next Obligation. intros t d n (_ & _ & ?)%toy_handle_some. done. Qed.
Next Obligation. simpl. eauto. Qed.
Next Obligation. done. Qed.
Next Obligation. done. Qed.
Next Obligation. done. Qed.
Next Obligation.
  intros [d0 i l] name flags. simpl. unfold toy_open. cbn [x_maps x_int x_names]. destruct (d0 !! name) as [m|] eqn:E; cbn [is_some].
  - rewrite decide_True by done. split_and!; [lia|apply toy_handle_new; by rewrite E| |done|eauto].
    intros. eapply toy_handle_grow; [|done]. auto.
  - destruct (Z.eqb_spec (Z.land flags MDB_CREATE) 0); [rewrite decide_False by done; auto|]. rewrite decide_True by done.
    split_and!; [lia|apply toy_handle_new; rewrite lookup_insert_eq; eauto| |done|done].
    intros. eapply toy_handle_grow; [|done]. intros k Hk. destruct (decide (k = name)) as [->|]; [rewrite lookup_insert_eq; eauto|].
    by rewrite lookup_insert_ne.
Qed.
Next Obligation.
  intros [d0 i l] d n k v flags Hh Hk. simpl in *. unfold toy_put. rewrite Hh, decide_True by done. cbn [x_maps x_int x_names].
  pose proof Hh as (_ & _ & [m Hm])%toy_handle_some. simpl in Hm.
  assert (Hlk : lookup2 d0 n k = m !! k) by (unfold lookup2; by rewrite Hm). rewrite Hlk, Hm. simpl.
  destruct (m !! k) as [w|]; cbn [is_some andb].
  - destruct (Z.eqb_spec (Z.land flags MDB_NOOVERWRITE) 0); cbn [negb].
    + rewrite decide_True by done. split_and!; [|done|done]. intros. rewrite <- (app_nil_r l). eapply toy_handle_grow; [|done].
      intros. by apply alter_keeps.
    + rewrite decide_False by done. auto.
  - rewrite decide_True by done. split_and!; [|done|intros _ [? ?]; done]. intros. rewrite <- (app_nil_r l). eapply toy_handle_grow; [|done].
    intros. by apply alter_keeps.
Qed.
Next Obligation.
  intros [d0 i l] d n k Hh Hk. simpl in *. unfold toy_get. rewrite Hh. simpl. unfold lookup2. by destruct (d0 !! n ≫= _).
Qed.

#[export] Instance toy_room : MdbRoom.
Proof.
  intros [d0 i l] d n k v flags Hh Hk. simpl in *. unfold toy_put. rewrite Hh, decide_True by done. cbn [x_maps x_int x_names].
  unfold lookup2. destruct (d0 !! n ≫= _); simpl; [|by left]. destruct (Z.eqb_spec (Z.land flags MDB_NOOVERWRITE) 0); simpl; [by left|]. right. eauto.
Qed.

#[export] Instance toy_reliable : MdbReliable.
Proof.
  split; [done..|]. intros [d0 i l] name flags Ho. simpl in *. unfold toy_open. simpl. destruct (d0 !! name); [done|].
  destruct Ho as [[? ?]|Ho]; [done|]. simpl. by rewrite (proj2 (Z.eqb_neq _ _)).
Qed.

#[export] Program Instance toy_cursor_laws : MdbCursorLaws := {|
  int_maps := snd;
  txn_int_maps := x_int;
  entries := toy_entries;
  cursor_on c d i := c = (d, i)
|}.
Next Obligation. done. Qed.
Next Obligation. done. Qed.
Next Obligation. done. Qed.
Next Obligation. done. Qed.
Next Obligation.
  intros [d0 i l] name flags. simpl. unfold toy_open. cbn [x_maps x_int x_names]. destruct (d0 !! name) as [m|] eqn:E; cbn [is_some].
  - rewrite decide_False by naive_solver. done.
  - destruct (Z.eqb_spec (Z.land flags MDB_CREATE) 0); [rewrite decide_False by naive_solver; done|].
    rewrite decide_True by done. simpl. destruct (Z.eqb_spec (Z.land flags MDB_INTEGERKEY) 0); set_solver.
Qed.
Next Obligation.
  intros t d k v flags. simpl. unfold toy_put. destruct (toy_handle t d); [|done]. case_decide; [|done]. by destruct (_ && _).
Qed.
Next Obligation.
  intros t d n m Hh Hm. simpl in *. unfold toy_entries. rewrite Hh, Hm. apply merge_sort_Permutation.
Qed.
Next Obligation.
  intros t d n Hh. simpl in *. unfold toy_entries. rewrite Hh. apply (StronglySorted_merge_sort (entry_le _)).
Qed.
Next Obligation. simpl. eauto. Qed.
Next Obligation.
  intros t c d n i k op Hh Hc. simpl in *. subst c. unfold toy_cursor_get, toy_int. cbn [fst snd]. rewrite Hh.
  destruct op; try done; try destruct i; destruct (toy_entries t d !! _); eauto.
Qed.

#[export] Instance toy_cursor_reliable : MdbCursorReliable.
Proof. done. Qed.

End Memdb.
