(* ===== verification/Session.v ===== *)
(** * Sessions with the storage

    The functions of the program that use the storage keep a transaction, a
    map and a cursor in local variables, push the clean-up of each to a
    rollbacker, and leave either by a rollback or by the calls at their end.
    A [frame] is such a set of variables; [foreach] is the loop of the macro
    mdv_map_foreach_explicit (src/mdv_storage/mdv_lmdb.h).  The lemmas say what
    each call does to the references of the storage, to the committed data and
    to the data the transaction sees. *)

From S2P Require Import Prelude Rollbacker Lmdb.
Import Rollbacker Lmdb.

Module Session.
Section Session.
Context `{Mdb, !MdbCursor}.

Record frame := mk_frame {
  fr_st : mdv_lmdb;
  fr_txn : mdv_transaction;
  fr_map : mdv_map;
  fr_cur : mdv_cursor
}.

Definition enter (s : mdv_lmdb) : frame := mk_frame s (mk_transaction false None) (mk_map false 0) (mk_cursor false None).

Definition start (f : frame) : frame :=
  let '(s, t) := mdv_transaction_start (fr_st f) in mk_frame s t (fr_map f) (fr_cur f).

Definition commit (f : frame) : frame * bool :=
  let '(s, t, ok) := mdv_transaction_commit (fr_st f) (fr_txn f) in (mk_frame s t (fr_map f) (fr_cur f), ok).

Definition abort (f : frame) : frame :=
  let '(s, t, _) := mdv_transaction_abort (fr_st f) (fr_txn f) in mk_frame s t (fr_map f) (fr_cur f).

Definition open_map (f : frame) (name : string) (flags : Z) : frame :=
  let '(s, t, m) := mdv_map_open (fr_st f) (fr_txn f) name flags in mk_frame s t m (fr_cur f).

Definition close_map (f : frame) : frame :=
  let '(s, m) := mdv_map_close (fr_st f) (fr_map f) in mk_frame s (fr_txn f) m (fr_cur f).

Definition close_cursor (f : frame) : frame :=
  let '(s, c) := mdv_cursor_close (fr_st f) (fr_cur f) in mk_frame s (fr_txn f) (fr_map f) c.

Definition open_cursor (f : frame) (kv : bytes * bytes) (op : mdv_cursor_op) : frame * (bytes * bytes) :=
  let '(s, c, kv) := mdv_cursor_open_explicit (fr_st f) (fr_map f) (fr_txn f) kv op in
  (mk_frame s (fr_txn f) (fr_map f) c, kv).

Definition get_cursor (f : frame) (kv : bytes * bytes) (op : mdv_cursor_op) : frame * bool * (bytes * bytes) :=
  let '(c, ok, kv) := mdv_cursor_get (fr_txn f) (fr_cur f) kv op in
  (mk_frame (fr_st f) (fr_txn f) (fr_map f) c, ok, kv).

Definition put_unique (f : frame) (k v : bytes) : frame * bool :=
  let '(t, ok) := mdv_map_put_unique (fr_map f) (fr_txn f) k v in (mk_frame (fr_st f) t (fr_map f) (fr_cur f), ok).

Definition put (f : frame) (k v : bytes) : frame * bool :=
  let '(t, ok) := mdv_map_put (fr_map f) (fr_txn f) k v in (mk_frame (fr_st f) t (fr_map f) (fr_cur f), ok).

(** ** Rollback *)

Inductive release_fn := Fn_rollbacker_free | Fn_transaction_abort | Fn_map_close | Fn_free.
Inductive variable := Var_rollbacker | Var_transaction | Var_map | Var_object.

Abbreviation rollbacker := (option (mdv_rollbacker release_fn variable)).

Definition push_op (r : rollbacker) (g : release_fn) (x : variable) : rollbacker :=
  snd (mdv_rollbacker_push r (mk_op g [x])).

Definition new_rollbacker (mem : bool) (capacity : nat) : rollbacker :=
  mdv_rollbacker_create mem Fn_rollbacker_free Var_rollbacker capacity.

Definition call (f : frame) (c : release_fn * list variable) : frame :=
  match c with
  | (Fn_transaction_abort, [Var_transaction]) => abort f
  | (Fn_map_close, [Var_map]) => close_map f
  | _ => f
  end.

Definition rollback (r : rollbacker) (f : frame) : frame := foldl call f (mdv_rollback r).

(** The calls of a rollback, by what was pushed. *)
Lemma rollback_none c f : rollback (new_rollbacker true c) f = f.
Proof. unfold new_rollbacker, mdv_rollbacker_create. by rewrite Nat.add_1_r. Qed.

Lemma rollback_txn c f :
  1 <= c -> rollback (push_op (new_rollbacker true c) Fn_transaction_abort Var_transaction) f = abort f.
Proof. intros Hc. unfold new_rollbacker, mdv_rollbacker_create. destruct c; [lia|]. by rewrite Nat.add_1_r. Qed.

Lemma rollback_map c f :
  2 <= c ->
  rollback (push_op (push_op (new_rollbacker true c) Fn_transaction_abort Var_transaction) Fn_map_close Var_map) f
  = abort (close_map f).
Proof. intros Hc. unfold new_rollbacker, mdv_rollbacker_create. destruct c as [|[|c]]; [lia..|]. by rewrite Nat.add_1_r. Qed.

(** The same behind the release of a block. *)
Lemma rollback_free c f : 1 <= c -> rollback (push_op (new_rollbacker true c) Fn_free Var_object) f = f.
Proof. intros Hc. unfold new_rollbacker, mdv_rollbacker_create. destruct c as [|c]; [lia|]. by rewrite Nat.add_1_r. Qed.

Lemma rollback_free_txn c f :
  2 <= c -> rollback (push_op (push_op (new_rollbacker true c) Fn_free Var_object) Fn_transaction_abort Var_transaction) f = abort f.
Proof. intros Hc. unfold new_rollbacker, mdv_rollbacker_create. destruct c as [|[|c]]; [lia..|]. by rewrite Nat.add_1_r. Qed.

Lemma rollback_free_map c f :
  3 <= c ->
  rollback (push_op (push_op (push_op (new_rollbacker true c) Fn_free Var_object) Fn_transaction_abort Var_transaction)
              Fn_map_close Var_map) f = abort (close_map f).
Proof. intros Hc. unfold new_rollbacker, mdv_rollbacker_create. destruct c as [|[|[|c]]]; [lia..|]. by rewrite Nat.add_1_r. Qed.

(** ** The loop over the entries of a map

    [body] gets the key and the value of an entry and tells whether the loop is
    left by mdv_map_foreach_break. *)

Fixpoint foreach_loop {A} (fuel : nat) (f : frame) (kv : bytes * bytes) (next : mdv_cursor_op)
    (body : A -> bytes * bytes -> outcome (A * bool)) (a : A) : outcome (frame * A) :=
  match fuel with
  | 0 => OutOfFuel
  | S fuel =>
      if negb (mdv_cursor_ok (fr_cur f)) then Done (f, a) else
      r ← body a kv;
      let '(a, brk) := r in
      if brk : bool then Done (close_cursor f, a) else
      let '(f, ok, kv) := get_cursor f kv next in
      foreach_loop fuel (if ok then f else close_cursor f) kv next body a
  end.

Definition foreach {A} (fuel : nat) (f : frame) (kv : bytes * bytes) (first next : mdv_cursor_op)
    (body : A -> bytes * bytes -> outcome (A * bool)) (a : A) : outcome (frame * A) :=
  let '(f, kv) := open_cursor f kv first in foreach_loop fuel f kv next body a.

(** The same loop over a sequence. *)
Fixpoint fold_break {A B} (body : A -> B -> outcome (A * bool)) (a : A) (l : list B) : outcome A :=
  match l with
  | [] => Done a
  | e :: l => r ← body a e; let '(a, brk) := r in if brk : bool then Done a else fold_break body a l
  end.

(** ** References and data *)

Context `{!MdbLaws, !MdbCursorLaws}.

(** The committed maps and the names of those with integer keys. *)
Definition data (f : frame) : database := db (s_env (fr_st f)).
Definition ints (f : frame) : gset string := int_maps (s_env (fr_st f)).

Definition held (f : frame) : Z :=
  Z.b2z (t_storage (fr_txn f)) + Z.b2z (m_storage (fr_map f)) + Z.b2z (c_storage (fr_cur f)).

(** Besides the variables, [n] references to the storage are held. *)
Record balanced (n : Z) (f : frame) : Prop := {
  b_refs : s_refs (fr_st f) = (n + held f)%Z;
  b_open : s_open (fr_st f) = true;
  b_txn : t_storage (fr_txn f) = mdv_transaction_ok (fr_txn f);
  b_map : m_storage (fr_map f) = mdv_map_ok (fr_map f);
  b_cur : c_storage (fr_cur f) = mdv_cursor_ok (fr_cur f)
}.

Definition idle (f : frame) : Prop :=
  t_storage (fr_txn f) = false /\ m_storage (fr_map f) = false /\ c_storage (fr_cur f) = false.

(** Nothing is left open, and the committed data is that of [f0]. *)
Definition clean (n : Z) (f0 f : frame) : Prop := balanced n f /\ idle f /\ data f = data f0 /\ ints f = ints f0.

(** A storage to which [n] references are held. *)
Definition live (n : Z) (s : mdv_lmdb) : Prop := s_refs s = n /\ s_open s = true.

Lemma balanced_enter n s : live n s -> balanced n (enter s).
Proof. intros (Hr & Ho). split; simpl; try done. rewrite Hr. unfold held. simpl. lia. Qed.

Lemma idle_enter s : idle (enter s).
Proof. done. Qed.

Lemma idle_live n f : balanced n f -> idle f -> live n (fr_st f).
Proof. intros Hb (I1 & I2 & I3). split; [|apply Hb]. rewrite (b_refs _ _ Hb). unfold held. rewrite I1, I2, I3. simpl. lia. Qed.

Lemma clean_live n f0 f : clean n f0 f -> live n (fr_st f).
Proof. intros (B & I & _). by apply idle_live. Qed.

Lemma clean_trans n f0 f1 f : data f1 = data f0 -> ints f1 = ints f0 -> clean n f1 f -> clean n f0 f.
Proof. intros Hd Hi (?&?&?&?). unfold clean. split_and!; try done; congruence. Qed.

Section Balance.
Context (n : Z) (Hn : (1 <= n < 2 ^ 32 - 4)%Z).

Lemma held_bound f : (0 <= held f <= 3)%Z.
Proof. unfold held. destruct (t_storage _), (m_storage _), (c_storage _); simpl; lia. Qed.

(** One reference of the variables is given back, or one more is taken. *)
Lemma release_one f e b :
  balanced n f -> held f = (b + 1)%Z -> (0 <= b)%Z ->
  fst (mdv_storage_release true (set_env (fr_st f) e)) = mk_lmdb (n + b) e true.
Proof.
  intros Hb Hh Hpos. pose proof (held_bound f). rewrite storage_release_live; simpl; rewrite (b_refs _ _ Hb), Hh; [|lia].
  rewrite (b_open _ _ Hb). f_equal. lia.
Qed.

Lemma retain_one f e :
  balanced n f -> mdv_storage_retain true (set_env (fr_st f) e) = mk_lmdb (n + held f + 1) e true.
Proof.
  intros Hb. pose proof (held_bound f). rewrite storage_retain_live; simpl; rewrite (b_refs _ _ Hb); [|lia].
  by rewrite (b_open _ _ Hb).
Qed.

Lemma abort_ok f :
  balanced n f ->
  balanced n (abort f) /\ data (abort f) = data f /\ ints (abort f) = ints f /\ t_storage (fr_txn (abort f)) = false
  /\ fr_map (abort f) = fr_map f /\ fr_cur (abort f) = fr_cur f.
Proof.
  intros Hb. unfold abort, mdv_transaction_abort. pose proof (b_txn _ _ Hb) as Ht. unfold mdv_transaction_ok in Ht.
  destruct (t_txn (fr_txn f)) as [t|] eqn:E.
  - rewrite Ht. rewrite (release_one _ _ (Z.b2z (m_storage (fr_map f)) + Z.b2z (c_storage (fr_cur f))) Hb).
    2: unfold held; rewrite Ht; simpl; lia. 2: destruct (m_storage _), (c_storage _); simpl; lia.
    unfold data, ints. simpl. split_and!; try done; [|apply abort_spec|apply abort_int].
    split; simpl; try done; apply Hb.
  - split_and!; try done. destruct Hb. by split.
Qed.

Lemma close_map_ok f :
  balanced n f ->
  balanced n (close_map f) /\ data (close_map f) = data f /\ ints (close_map f) = ints f
  /\ m_storage (fr_map (close_map f)) = false /\ fr_txn (close_map f) = fr_txn f /\ fr_cur (close_map f) = fr_cur f.
Proof.
  intros Hb. unfold close_map, mdv_map_close. pose proof (b_map _ _ Hb) as Ht. unfold mdv_map_ok in Ht. rewrite <- Ht.
  destruct (m_storage (fr_map f)) eqn:E.
  - rewrite (release_one _ _ (Z.b2z (t_storage (fr_txn f)) + Z.b2z (c_storage (fr_cur f))) Hb).
    2: unfold held; rewrite E; simpl; lia. 2: destruct (t_storage _), (c_storage _); simpl; lia.
    unfold data, ints. simpl. split_and!; try done; [|apply dbi_close_spec|apply dbi_close_int].
    split; simpl; try done; [unfold held; simpl; lia|apply Hb..].
  - split_and!; try done. destruct Hb. split; simpl; try done.
Qed.

Lemma close_cursor_ok f :
  balanced n f ->
  balanced n (close_cursor f) /\ data (close_cursor f) = data f /\ ints (close_cursor f) = ints f
  /\ c_storage (fr_cur (close_cursor f)) = false /\ fr_txn (close_cursor f) = fr_txn f /\ fr_map (close_cursor f) = fr_map f.
Proof.
  intros Hb. unfold close_cursor, mdv_cursor_close. destruct (c_storage (fr_cur f)) eqn:E.
  - pose proof (release_one f (s_env (fr_st f)) (Z.b2z (t_storage (fr_txn f)) + Z.b2z (m_storage (fr_map f))) Hb) as Hr.
    assert (set_env (fr_st f) (s_env (fr_st f)) = fr_st f) as Hs by by destruct (fr_st f). rewrite Hs in Hr. rewrite Hr.
    2: unfold held; rewrite E; simpl; lia. 2: destruct (t_storage _), (m_storage _); simpl; lia.
    unfold data, ints. simpl. split_and!; try done. split; simpl; try done; [unfold held; simpl; lia|apply Hb..].
  - simpl. split_and!; try done. destruct Hb. split; simpl; try done. unfold held in *. simpl. by rewrite E in *.
Qed.

Lemma start_ok f :
  balanced n f -> t_storage (fr_txn f) = false ->
  balanced n (start f) /\ data (start f) = data f /\ ints (start f) = ints f
  /\ fr_map (start f) = fr_map f /\ fr_cur (start f) = fr_cur f
  /\ match t_txn (fr_txn (start f)) with Some t => view t = data f /\ txn_int_maps t = ints f | None => True end.
Proof.
  intros Hb Ht. unfold start, mdv_transaction_start. pose proof (begin_spec (s_env (fr_st f))) as Hs.
  pose proof (begin_int (s_env (fr_st f))) as Hi.
  destruct (mdb_txn_begin _) as [[e rc] t]. destruct Hs as [He Hs]. destruct Hi as [Hei Hi].
  destruct (Z.eqb_spec rc MDB_SUCCESS) as [->|Hne]; cbn [negb].
  - destruct (Hs eq_refl) as (t' & -> & Hv). rewrite (retain_one _ _ Hb). unfold data, ints. simpl.
    split_and!; try done. split; simpl; try done; [unfold held; simpl; rewrite Ht; simpl; lia|apply Hb..].
  - unfold data, ints. simpl. split_and!; try done. split; simpl; try done; [|apply Hb..].
    rewrite (b_refs _ _ Hb). unfold held. by rewrite Ht.
Qed.

Lemma commit_ok f :
  balanced n f ->
  let '(f', ok) := commit f in
  balanced n f' /\ t_storage (fr_txn f') = false /\ fr_map f' = fr_map f /\ fr_cur f' = fr_cur f
  /\ (if ok then exists t, t_txn (fr_txn f) = Some t /\ data f' = view t /\ ints f' = txn_int_maps t
      else data f' = data f /\ ints f' = ints f).
Proof.
  intros Hb. unfold commit, mdv_transaction_commit. pose proof (b_txn _ _ Hb) as Ht. unfold mdv_transaction_ok in Ht.
  destruct (t_txn (fr_txn f)) as [t|] eqn:E.
  - pose proof (commit_spec (s_env (fr_st f)) t) as Hc. pose proof (commit_int (s_env (fr_st f)) t) as Hi.
    destruct (mdb_txn_commit _ _) as [e rc].
    rewrite Ht, (release_one _ _ (Z.b2z (m_storage (fr_map f)) + Z.b2z (c_storage (fr_cur f))) Hb).
    2: unfold held; rewrite Ht; simpl; lia. 2: destruct (m_storage _), (c_storage _); simpl; lia.
    unfold data, ints. simpl. split_and!; try done; [split; simpl; try done; apply Hb|]. rewrite Hc, Hi.
    destruct (Z.eqb_spec rc MDB_SUCCESS); destruct (decide (rc = MDB_SUCCESS)); eauto; done.
  - split_and!; try done. destruct Hb. by split.
Qed.

(** The transaction [t] of the frame. *)
Lemma txn_live f t : balanced n f -> t_txn (fr_txn f) = Some t -> t_storage (fr_txn f) = true.
Proof. intros Hb Et. rewrite (b_txn _ _ Hb). unfold mdv_transaction_ok. by rewrite Et. Qed.

(** Whether the map [name] has integer keys once it was opened with [flags]. *)
Definition opened_int (name : string) (flags : Z) (d : database) (i : gset string) : Prop :=
  if decide (d !! name = None) then Z.land (map_flags flags) MDB_INTEGERKEY <> 0%Z else name ∈ i.

Lemma open_map_ok f name flags t :
  balanced n f -> t_txn (fr_txn f) = Some t -> m_storage (fr_map f) = false ->
  let f' := open_map f name flags in
  balanced n f' /\ data f' = data f /\ ints f' = ints f /\ fr_cur f' = fr_cur f
  /\ exists t', t_txn (fr_txn f') = Some t' /\ (forall n', n' <> name -> n' ∈ txn_int_maps t' <-> n' ∈ txn_int_maps t)
    /\ (if m_storage (fr_map f') then handle t' (m_dbmap (fr_map f')) = Some name /\ view t' = ensure name (view t)
          /\ (name ∈ txn_int_maps t' <-> opened_int name flags (view t) (txn_int_maps t))
          /\ (Z.land (map_flags flags) MDB_CREATE = 0%Z -> is_Some (view t !! name))
        else view t' = view t).
Proof.
  intros Hb Et Hm. pose proof (txn_live _ _ Hb Et) as Ht. unfold open_map, mdv_map_open. rewrite Et.
  pose proof (dbi_open_spec t name (map_flags flags)) as Hs. pose proof (dbi_open_int t name (map_flags flags)) as Hi.
  destruct (mdb_dbi_open t name (map_flags flags)) as [[t' rc] d]. destruct Hi as [Hi Hi'].
  destruct (Z.eqb_spec rc MDB_SUCCESS) as [->|Hne]; cbn [negb].
  - rewrite decide_True in Hs by done. destruct Hs as (Hd & Hh & Hhs & Hv & Hc). cbn [t_storage]. rewrite Ht.
    assert (set_env (fr_st f) (s_env (fr_st f)) = fr_st f) as Hse by by destruct (fr_st f).
    pose proof (retain_one f (s_env (fr_st f)) Hb) as Hr. rewrite Hse in Hr. rewrite Hr.
    unfold data, ints. simpl. split_and!; try done.
    + split; simpl; try done; [unfold held; simpl; rewrite Ht, Hm; simpl; lia| |apply Hb].
      unfold mdv_map_ok. simpl. by rewrite (proj2 (Z.eqb_neq d 0)).
    + exists t'. split_and!; try done. rewrite Hi. unfold opened_int.
      destruct (decide (view t !! name = None)); [rewrite decide_True|rewrite decide_False]; naive_solver.
  - rewrite decide_False in Hs by done. unfold data, ints. simpl. split_and!; try done; [|exists t'; naive_solver].
    split; simpl; try done; [|apply Hb..]. rewrite (b_refs _ _ Hb). unfold held. simpl. by rewrite Ht, Hm.
Qed.

(** ** An open transaction with an open map *)

Record inside (f : frame) (name : string) (t : mdb_txn) : Prop := {
  in_bal : balanced n f;
  in_txn : t_txn (fr_txn f) = Some t;
  in_map : m_storage (fr_map f) = true;
  in_hnd : handle t (m_dbmap (fr_map f)) = Some name;
  in_cur : c_storage (fr_cur f) = false
}.

(** The beginning of a function: each early return leaves cleanly. *)
Lemma opened f0 name flags :
  balanced n f0 -> idle f0 ->
  let f1 := start f0 in
  let f2 := open_map f1 name flags in
  if negb (mdv_transaction_ok (fr_txn f1)) then clean n f0 f1
  else if negb (mdv_map_ok (fr_map f2)) then clean n f0 (abort f2)
  else exists t, inside f2 name t /\ data f2 = data f0 /\ ints f2 = ints f0 /\ view t = ensure name (data f0)
    /\ (name ∈ txn_int_maps t <-> opened_int name flags (data f0) (ints f0))
    /\ (forall n', n' <> name -> n' ∈ txn_int_maps t <-> n' ∈ ints f0)
    /\ (Z.land (map_flags flags) MDB_CREATE = 0%Z -> is_Some (data f0 !! name)).
Proof.
  intros Hb (I1 & I2 & I3) f1 f2. destruct (start_ok f0 Hb I1) as (B1 & D1 & N1 & M1 & C1 & V1). fold f1 in B1, D1, N1, M1, C1, V1.
  pose proof (b_txn _ _ B1) as T1. unfold mdv_transaction_ok in *. destruct (t_txn (fr_txn f1)) as [t1|] eqn:Et; cbn [negb].
  2: { unfold clean, idle. rewrite M1, C1, T1. by split_and!. }
  destruct V1 as [V1 W1]. destruct (open_map_ok f1 name flags t1 B1 Et) as (B2 & D2 & N2 & C2 & t2 & Et2 & Hi & V2); [by rewrite M1|].
  fold f2 in B2, D2, N2, C2, Et2, V2. rewrite <- (b_map _ _ B2). destruct (m_storage (fr_map f2)) eqn:E2; cbn [negb].
  - destruct V2 as (Hh & V2 & W2 & Cr). exists t2. rewrite V1, W1 in *. split_and!; try done; try congruence. split; try done. congruence.
  - destruct (abort_ok _ B2) as (B3 & D3 & N3 & T3 & M3 & C3). unfold clean, idle. rewrite M3, C3, C2, C1. split_and!; congruence.
Qed.

(** When no call fails, the map is opened if it exists or may be created, and
    the transaction is committed. *)
Lemma open_map_reliable `{!MdbReliable} f name flags t :
  balanced n f -> t_txn (fr_txn f) = Some t -> is_Some (view t !! name) \/ Z.land (map_flags flags) MDB_CREATE <> 0%Z ->
  mdv_map_ok (fr_map (open_map f name flags)) = true.
Proof.
  intros Hb Et Hc. pose proof (txn_live f t Hb Et) as Ht. unfold open_map, mdv_map_open. rewrite Et.
  pose proof (open_reliable t name (map_flags flags) Hc) as Hr.
  pose proof (dbi_open_spec t name (map_flags flags)) as Hd. destruct (mdb_dbi_open _ _ _) as [[t' rc] d]. cbn in Hr. subst rc.
  rewrite decide_True in Hd by done. destruct Hd as (Hne & _). cbn. rewrite Ht. unfold mdv_map_ok. cbn.
  by rewrite (proj2 (Z.eqb_neq d 0)).
Qed.

Lemma start_reliable `{!MdbReliable} f : mdv_transaction_ok (fr_txn (start f)) = true.
Proof.
  unfold start, mdv_transaction_start. pose proof (begin_reliable (s_env (fr_st f))) as Hr.
  pose proof (begin_spec (s_env (fr_st f))) as Hs. destruct (mdb_txn_begin _) as [[e rc] t]. cbn in Hr. subst rc.
  destruct Hs as [_ Hs]. by destruct (Hs eq_refl) as (t' & -> & _).
Qed.

Lemma commit_reliable_ok `{!MdbReliable} f t : t_txn (fr_txn f) = Some t -> snd (commit f) = true.
Proof.
  intros Et. unfold commit, mdv_transaction_commit. rewrite Et. pose proof (commit_reliable (s_env (fr_st f)) t) as Hr.
  destruct (mdb_txn_commit _ _) as [e rc]. cbn in *. by rewrite Hr.
Qed.

Lemma opened_reliable `{!MdbReliable} f0 name flags :
  balanced n f0 -> idle f0 -> is_Some (data f0 !! name) \/ Z.land (map_flags flags) MDB_CREATE <> 0%Z ->
  mdv_transaction_ok (fr_txn (start f0)) = true /\ mdv_map_ok (fr_map (open_map (start f0) name flags)) = true.
Proof.
  intros Hb Hi Hc. pose proof (start_reliable f0) as Hs. split; [done|].
  destruct (start_ok f0 Hb (proj1 Hi)) as (B1 & D1 & N1 & M1 & C1 & V1). unfold mdv_transaction_ok in Hs.
  destruct (t_txn (fr_txn (start f0))) as [t|] eqn:Et; [|done]. destruct V1 as [V1 _].
  apply (open_map_reliable _ _ _ t); [done..|]. by rewrite V1.
Qed.

(** The ways out: the calls at the end, and the rollback. *)
Lemma clean_abort_close f : balanced n f -> c_storage (fr_cur f) = false -> clean n f (close_map (abort f)).
Proof.
  intros Hb Hc. destruct (abort_ok _ Hb) as (B1 & D1 & N1 & T1 & M1 & C1).
  destruct (close_map_ok _ B1) as (B2 & D2 & N2 & M2 & T2 & C2). unfold clean, idle. rewrite T2, C2, C1. split_and!; congruence.
Qed.

Lemma clean_close_abort f : balanced n f -> c_storage (fr_cur f) = false -> clean n f (abort (close_map f)).
Proof.
  intros Hb Hc. destruct (close_map_ok _ Hb) as (B1 & D1 & N1 & M1 & T1 & C1).
  destruct (abort_ok _ B1) as (B2 & D2 & N2 & T2 & M2 & C2). unfold clean, idle. rewrite M2, C2, C1. split_and!; congruence.
Qed.

Lemma clean_close f :
  balanced n f -> t_storage (fr_txn f) = false -> c_storage (fr_cur f) = false -> clean n f (close_map f).
Proof.
  intros Hb Ht Hc. destruct (close_map_ok _ Hb) as (B1 & D1 & N1 & M1 & T1 & C1). unfold clean, idle. rewrite T1, C1. by split_and!.
Qed.

(** Committing and closing the map, with the calls of the rollback on failure. *)
Lemma commit_inside f name t :
  inside f name t ->
  let '(f', ok) := commit f in
  if ok then balanced n (close_map f') /\ idle (close_map f') /\ data (close_map f') = view t /\ ints (close_map f') = txn_int_maps t
  else clean n f (abort (close_map f')).
Proof.
  intros Hi. pose proof (commit_ok _ (in_bal _ _ _ Hi)) as Hc. destruct (commit f) as [f' ok]. destruct Hc as (B & T & M & C & D).
  pose proof (in_cur _ _ _ Hi) as Hcur. rewrite <- C in Hcur. destruct ok.
  - destruct D as (t' & Et' & D & N). rewrite (in_txn _ _ _ Hi) in Et'. injection Et' as <-.
    destruct (clean_close _ B T Hcur) as (B' & I' & D' & N'). split_and!; try done; congruence.
  - destruct D as [D N]. destruct (clean_close_abort _ B Hcur) as (B' & I' & D' & N'). unfold clean. split_and!; try done; congruence.
Qed.

(** ** Reads and writes *)

Lemma get_inside f name t k :
  inside f name t -> valid_key k -> mdv_map_get (fr_map f) (fr_txn f) k = lookup2 (view t) name k.
Proof.
  intros Hi Hk. unfold mdv_map_get, lookup2. rewrite (in_txn _ _ _ Hi). pose proof (get_spec t _ _ k (in_hnd _ _ _ Hi) Hk) as Hs.
  destruct (mdb_get _ _ _) as [rc v]. destruct (view t !! name ≫= _) as [v'|]; [|by subst rc].
  destruct Hs as [-> ->]. done.
Qed.

(** A store in the map of the frame; [flags] forbid or allow to overwrite. *)
Lemma put_inside f name t k v flags :
  inside f name t -> valid_key k ->
  let '(t', ok) := mdv_map_put_impl (fr_map f) (fr_txn f) k v flags in
  let f' := mk_frame (fr_st f) t' (fr_map f) (fr_cur f) in
  exists x, inside f' name x /\ txn_int_maps x = txn_int_maps t
    /\ view x = (if ok then alter (fun m => <[k := v]> m) name (view t) else view t)
    /\ (Z.land flags MDB_NOOVERWRITE <> 0%Z -> ok = true -> lookup2 (view t) name k = None)
    /\ (MdbRoom -> Z.land flags MDB_NOOVERWRITE = 0%Z \/ lookup2 (view t) name k = None -> ok = true).
Proof.
  intros Hi Hk. pose proof (in_hnd _ _ _ Hi) as Hh. unfold mdv_map_put_impl. rewrite (in_txn _ _ _ Hi).
  pose proof (put_spec t _ _ k v flags Hh Hk) as Hs. pose proof (put_int t (m_dbmap (fr_map f)) k v flags) as Hint.
  assert (MdbRoom -> Z.land flags MDB_NOOVERWRITE = 0%Z \/ lookup2 (view t) name k = None ->
          snd (mdb_put t (m_dbmap (fr_map f)) k v flags) = MDB_SUCCESS) as Hroom.
  { intros ? Hf. destruct (put_room t _ _ k v flags Hh Hk) as [|(_ & [w Hw] & Hne)]; [done|]. unfold lookup2 in Hf.
    destruct Hf as [|Hf]; [done|]. congruence. }
  destruct (mdb_put _ _ _ _ _) as [x rc]. destruct Hs as (Hhs & Hv & Hex). exists x. simpl in *. split_and!.
  - destruct Hi as [Hb Ht Hm _ Hc]. pose proof (txn_live _ _ Hb Ht) as Hts. split; simpl; try done; [|by apply Hhs].
    destruct Hb. by split.
  - done.
  - rewrite Hv. destruct (Z.eqb_spec rc MDB_SUCCESS); destruct (decide (rc = MDB_SUCCESS)); done.
  - intros Hf Hok%Z.eqb_eq. unfold lookup2. destruct (view t !! name ≫= _) eqn:E; [|done]. rewrite Hex in Hok by eauto. done.
  - intros ? Hf. apply Z.eqb_eq. auto.
Qed.

(** ** The loop *)

(** The position the loop begins at. *)
Definition first_pos (int : bool) (first : mdv_cursor_op) (k : bytes) (l : list (bytes * bytes)) : option nat :=
  match first with
  | MDV_CURSOR_FIRST => Some 0
  | MDV_CURSOR_LAST => Some (pred (length l))
  | MDV_CURSOR_SET_RANGE => Some (lower_pos int k l)
  | _ => None
  end.

Definition no_cursor (f : frame) : frame := mk_frame (fr_st f) (fr_txn f) (fr_map f) (mk_cursor false None).

Lemma inside_no_cursor f name t : inside f name t -> inside (no_cursor f) name t.
Proof.
  intros [Hb ? ? ? Hc]. split; try done. destruct Hb. split; try done. unfold held in *. simpl. by rewrite Hc in *.
Qed.

(** The reference of the cursor is taken and given back. *)
Lemma retain_release f name t :
  inside f name t -> fst (mdv_storage_release true (mdv_storage_retain true (fr_st f))) = fr_st f.
Proof.
  intros Hi. pose proof (in_bal _ _ _ Hi) as Hb. pose proof (b_refs _ _ Hb) as Hr. pose proof (held_bound f).
  assert (held f <= 2)%Z by (unfold held; rewrite (in_cur _ _ _ Hi); destruct (t_storage _), (m_storage _); simpl; lia).
  rewrite storage_retain_live by lia. rewrite storage_release_live by (cbn [s_refs]; lia).
  destruct (fr_st f). cbn. f_equal. lia.
Qed.

Lemma foreach_loop_ok {A} fuel f name t c i kv (body : A -> bytes * bytes -> outcome (A * bool)) a :
  inside f name t -> cursor_on c (m_dbmap (fr_map f)) (Some i) ->
  let l := entries t (m_dbmap (fr_map f)) in
  l !! i = Some kv -> length l < fuel + i ->
  foreach_loop (S fuel) (mk_frame (mdv_storage_retain true (fr_st f)) (fr_txn f) (fr_map f) (mk_cursor true (Some c))) kv
    MDV_CURSOR_NEXT body a
  = (r ← fold_break body a (drop i l); Done (no_cursor f, r)).
Proof.
  intros Hi Hc l. revert c i kv a Hc. induction fuel as [|fuel IH]; intros c i kv a Hc Hl Hf.
  { apply lookup_lt_Some in Hl. lia. }
  pose proof (inside_no_cursor _ _ _ Hi) as Hno.
  assert (Hclose : forall c', close_cursor (mk_frame (mdv_storage_retain true (fr_st f)) (fr_txn f) (fr_map f) (mk_cursor true (Some c')))
                   = no_cursor f).
  { intros c'. unfold close_cursor, mdv_cursor_close, no_cursor. cbn [fr_cur fr_st fr_txn fr_map c_storage].
    by rewrite (retain_release _ _ _ Hi). }
  remember (S fuel) as fuel' eqn:Ef. cbn [foreach_loop fr_cur]. unfold mdv_cursor_ok. cbn [c_storage c_cursor andb negb].
  rewrite (drop_S _ _ _ Hl). cbn [fold_break].
  destruct (body a kv) as [[a' brk]|?|]; [|done..]. cbn [mbind outcome_bind]. destruct brk; [by rewrite Hclose|].
  unfold get_cursor, mdv_cursor_get. cbn [fr_txn fr_cur c_cursor c_storage]. rewrite (in_txn _ _ _ Hi).
  pose proof (cursor_get_spec t c _ _ (Some i) kv.1 MDB_NEXT (in_hnd _ _ _ Hi) Hc) as Hg. cbn [cursor_op].
  destruct (mdb_cursor_get t c kv.1 MDB_NEXT) as [[c' rc] kv']. cbn in Hg. fold l in Hg. destruct (l !! S i) as [e|] eqn:El.
  - destruct Hg as (-> & -> & Hc'). cbn [Z.eqb MDB_SUCCESS fr_st fr_txn fr_map]. apply (IH c' (S i) e a' Hc' El). lia.
  - destruct Hg as [Hg _]. rewrite Hg. cbn [Z.eqb MDB_NOTFOUND MDB_SUCCESS fr_st fr_txn fr_map]. rewrite Hclose, Ef. cbn [foreach_loop].
    by rewrite drop_ge by (apply lookup_ge_None; done).
Qed.

(** The frame with a cursor, which holds a reference of its own. *)
Definition with_cursor (f : frame) (c : mdb_cursor) : frame :=
  mk_frame (mdv_storage_retain true (fr_st f)) (fr_txn f) (fr_map f) (mk_cursor true (Some c)).

(** Opening a cursor at its first position: it is opened when there is an entry,
    and nothing is left of it otherwise. *)
Lemma open_cursor_ok f name t kv first j :
  inside f name t ->
  let l := entries t (m_dbmap (fr_map f)) in
  first_pos (bool_decide (name ∈ txn_int_maps t)) first kv.1 l = Some j ->
  exists ok : bool, (MdbCursorReliable -> ok = true)
    /\ match (if ok then l !! j else None) with
       | Some e => exists c, cursor_on c (m_dbmap (fr_map f)) (Some j) /\ open_cursor f kv first = (with_cursor f c, e)
       | None => open_cursor f kv first = (no_cursor f, kv)
       end.
Proof.
  intros Hi l Hj. pose proof (in_hnd _ _ _ Hi) as Hh. unfold open_cursor, mdv_cursor_open_explicit, mdv_cursor_open.
  rewrite (in_txn _ _ _ Hi). pose proof (cursor_open_spec t _ _ Hh) as Ho.
  assert (MdbCursorReliable -> fst (mdb_cursor_open t (m_dbmap (fr_map f))) = MDB_SUCCESS) as Hrel by (intros Hr; by eapply Hr).
  destruct (mdb_cursor_open t (m_dbmap (fr_map f))) as [rc c]. cbn in Hrel.
  destruct (Z.eqb_spec rc MDB_SUCCESS) as [->|Hne]; cbn [negb].
  2: { exists false. split; [intros Hr; by destruct (Hne (Hrel Hr))|done]. }
  destruct (Ho eq_refl) as (c' & -> & Hc). pose proof (txn_live _ _ (in_bal _ _ _ Hi) (in_txn _ _ _ Hi)) as Hts.
  rewrite Hts. unfold mdv_cursor_ok. cbn [c_storage c_cursor andb negb]. unfold mdv_cursor_get. rewrite (in_txn _ _ _ Hi). cbn [c_cursor].
  assert (exists mop, cursor_op first = mop /\ match mop with MDB_FIRST | MDB_LAST | MDB_SET_RANGE => True | _ => False end) as (mop & Hmop & Hm).
  { destruct first; try done; by eexists. }
  pose proof (cursor_get_spec t c' _ _ None kv.1 mop Hh Hc) as Hg. fold l in Hg. rewrite Hmop.
  destruct (mdb_cursor_get t c' kv.1 mop) as [[c2 rc] kv'].
  assert (Hg' : match l !! j with Some e => rc = MDB_SUCCESS /\ kv' = e /\ cursor_on c2 (m_dbmap (fr_map f)) (Some j) | None => rc = MDB_NOTFOUND /\ exists i', cursor_on c2 (m_dbmap (fr_map f)) i' end).
  { destruct first; try done; cbn in Hmop; subst mop; cbn in Hj; injection Hj as <-; exact Hg. }
  clear Hg. exists true. split; [done|]. destruct (l !! j) as [e|] eqn:El.
  - destruct Hg' as (-> & -> & Hc2). exists c2. split; done.
  - rewrite (proj1 Hg'). cbn [Z.eqb MDB_NOTFOUND MDB_SUCCESS negb]. unfold mdv_cursor_close. cbn [c_storage].
    by rewrite (retain_release _ _ _ Hi).
Qed.

(** With enough fuel the loop runs over the entries from its first position
    on, or over none when the cursor is not opened. *)
Lemma foreach_ok {A} fuel f name t kv first j (body : A -> bytes * bytes -> outcome (A * bool)) a :
  inside f name t ->
  let l := entries t (m_dbmap (fr_map f)) in
  first_pos (bool_decide (name ∈ txn_int_maps t)) first kv.1 l = Some j -> length l + 1 < fuel ->
  exists (ok : bool) f', (MdbCursorReliable -> ok = true) /\ inside f' name t /\ fr_st f' = fr_st f
    /\ fr_txn f' = fr_txn f /\ fr_map f' = fr_map f
    /\ foreach fuel f kv first MDV_CURSOR_NEXT body a = (r ← fold_break body a (if ok then drop j l else []); Done (f', r)).
Proof.
  intros Hi l Hj Hf. destruct (open_cursor_ok f name t kv first j Hi Hj) as (ok & Hrel & Ho). fold l in Ho.
  exists ok, (no_cursor f). split_and!; try done; [by apply inside_no_cursor|]. unfold foreach.
  destruct fuel as [|fuel]; [lia|]. destruct ok; cbn [fold_break].
  2: { by rewrite Ho. }
  destruct (l !! j) as [e|] eqn:El.
  - destruct Ho as (c & Hc & ->). apply (foreach_loop_ok fuel f name t c j e body a Hi Hc El). fold l. lia.
  - rewrite Ho, drop_ge by (by apply lookup_ge_None). done.
Qed.

(** ** A cursor that is kept *)

Record reads (f : frame) (name : string) (t : mdb_txn) (i : option nat) : Prop := {
  rd_bal : balanced n f;
  rd_txn : t_txn (fr_txn f) = Some t;
  rd_map : m_storage (fr_map f) = true;
  rd_hnd : handle t (m_dbmap (fr_map f)) = Some name;
  rd_cur : exists c, fr_cur f = mk_cursor true (Some c) /\ cursor_on c (m_dbmap (fr_map f)) i
}.

Lemma with_cursor_reads f name t c i :
  inside f name t -> cursor_on c (m_dbmap (fr_map f)) i -> reads (with_cursor f c) name t i.
Proof.
  intros Hi Hc. destruct Hi as [Hb Ht Hm Hh Hcur]. split; try done; [|by exists c].
  pose proof (held_bound f) as Hheld. pose proof (b_refs _ _ Hb) as Hr. unfold with_cursor. rewrite storage_retain_live by lia.
  split; cbn [fr_st fr_txn fr_map fr_cur s_refs s_open]; [|apply Hb..|done].
  unfold held in *. cbn [fr_txn fr_map fr_cur c_storage]. rewrite Hcur in Hr. cbn [Z.b2z] in *. lia.
Qed.

(** A move of the cursor. *)
Lemma get_reads f name t i kv op j :
  reads f name t i ->
  let l := entries t (m_dbmap (fr_map f)) in
  match op with MDV_CURSOR_FIRST => Some 0 | MDV_CURSOR_NEXT => match i with None => Some 0 | Some i => Some (S i) end | _ => None end = Some j ->
  let '(f', ok, kv') := get_cursor f kv op in
  fr_st f' = fr_st f /\ fr_txn f' = fr_txn f /\ fr_map f' = fr_map f
  /\ match l !! j with
     | Some e => ok = true /\ kv' = e /\ reads f' name t (Some j)
     | None => ok = false /\ kv' = kv /\ exists i', reads f' name t i'
     end.
Proof.
  intros [Hb Ht Hm Hh (c & Hc & Hon)] l Hj. unfold get_cursor, mdv_cursor_get. rewrite Ht, Hc. cbn [c_cursor c_storage].
  assert (exists mop, cursor_op op = mop /\ match mop with MDB_FIRST | MDB_NEXT => True | _ => False end) as (mop & Hmop & Hm').
  { destruct op; try done; by eexists. }
  pose proof (cursor_get_spec t c _ _ i kv.1 mop Hh Hon) as Hg. fold l in Hg. rewrite Hmop.
  destruct (mdb_cursor_get t c kv.1 mop) as [[c2 rc] kv'].
  assert (Hg' : match l !! j with Some e => rc = MDB_SUCCESS /\ kv' = e /\ cursor_on c2 (m_dbmap (fr_map f)) (Some j)
                | None => rc = MDB_NOTFOUND /\ exists i', cursor_on c2 (m_dbmap (fr_map f)) i' end).
  { destruct op; try done; cbn in Hmop; subst mop; [injection Hj as <-; exact Hg|]. rewrite Hj in Hg. exact Hg. }
  assert (Hrd : forall i', cursor_on c2 (m_dbmap (fr_map f)) i' ->
            reads (mk_frame (fr_st f) (fr_txn f) (fr_map f) (mk_cursor true (Some c2))) name t i').
  { intros i' Hon'. split; try done; [|by exists c2]. destruct Hb. split; try done.
    unfold held in *. cbn [fr_cur c_storage fr_st fr_txn fr_map]. rewrite Hc in *. done. }
  clear Hg. destruct (l !! j) as [e|].
  - destruct Hg' as (-> & -> & Hon2). cbn. split_and!; try done. by apply Hrd.
  - destruct Hg' as (-> & i' & Hon2). cbn. split_and!; try done. exists i'. by apply Hrd.
Qed.

(** Closing the cursor, the transaction and the map. *)
Lemma clean_reads f name t i : reads f name t i -> clean n f (close_map (abort (close_cursor f))).
Proof.
  intros Hr. destruct (close_cursor_ok _ (rd_bal _ _ _ _ Hr)) as (B1 & D1 & N1 & C1 & T1 & M1).
  eapply clean_trans; [| |by apply clean_abort_close]; done.
Qed.

End Balance.
End Session.
End Session.
