(* ===== verification/Pset.v ===== *)
(** * Two-phase set of objects (src/mdv_storage/mdv_2pset.c)

    Objects are added under an identifier; an identifier in the map of removed
    objects is never added again.  Every operation is one transaction of the
    storage.  The clean-up operations pushed to the rollbacker get pointers to
    the local variables of the operation, so the calls of a rollback are run
    on those variables as they are at that moment. *)

From S2P Require Import Prelude Rollbacker Lmdb Memdb.
Import Rollbacker Lmdb Memdb.

Module Pset.
Section Pset.
Context `{Mdb}.

Definition MDV_MAP_OBJECTS : string := "OBJECTS".
Definition MDV_MAP_REMOVED : string := "REMOVED".
Definition MDV_MAP_IDGEN : string := "IDGEN".

(** [sizeof MDV_OBJECTS_IDGEN, &MDV_OBJECTS_IDGEN] *)
Definition MDV_OBJECTS_IDGEN : bytes := to_le 2 0.

(** [o_locked]: the mutex of the generator is held. *)
Record mdv_2pset := mk_2pset { o_storage : mdv_lmdb; o_locked : bool; o_idgen : Z }.

(** The local variables of an operation beside the set. *)
Record locals := mk_locals {
  l_objs : mdv_2pset;
  l_txn : mdv_transaction;
  l_map : mdv_map;
  l_rem : mdv_map
}.

Definition null_map : mdv_map := mk_map false 0.
Definition enter (o : mdv_2pset) : locals := mk_locals o (mk_transaction false None) null_map null_map.

Definition set_storage (l : locals) (s : mdv_lmdb) : locals :=
  mk_locals (mk_2pset s (o_locked (l_objs l)) (o_idgen (l_objs l))) (l_txn l) (l_map l) (l_rem l).

Definition set_locked (l : locals) (b : bool) : locals :=
  mk_locals (mk_2pset (o_storage (l_objs l)) b (o_idgen (l_objs l))) (l_txn l) (l_map l) (l_rem l).

Abbreviation storage l := (o_storage (l_objs l)).

(** The calls on the local variables. *)
Definition start (l : locals) : locals :=
  let '(s, t) := mdv_transaction_start (storage l) in
  let l := set_storage l s in mk_locals (l_objs l) t (l_map l) (l_rem l).

Definition commit (l : locals) : locals * bool :=
  let '(s, t, ok) := mdv_transaction_commit (storage l) (l_txn l) in
  let l := set_storage l s in (mk_locals (l_objs l) t (l_map l) (l_rem l), ok).

Definition abort (l : locals) : locals :=
  let '(s, t, _) := mdv_transaction_abort (storage l) (l_txn l) in
  let l := set_storage l s in mk_locals (l_objs l) t (l_map l) (l_rem l).

Definition open_map (l : locals) (name : string) (flags : Z) : locals :=
  let '(s, t, m) := mdv_map_open (storage l) (l_txn l) name flags in
  let l := set_storage l s in mk_locals (l_objs l) t m (l_rem l).

Definition open_rem (l : locals) (name : string) (flags : Z) : locals :=
  let '(s, t, m) := mdv_map_open (storage l) (l_txn l) name flags in
  let l := set_storage l s in mk_locals (l_objs l) t (l_map l) m.

Definition close_map (l : locals) : locals :=
  let '(s, m) := mdv_map_close (storage l) (l_map l) in
  let l := set_storage l s in mk_locals (l_objs l) (l_txn l) m (l_rem l).

Definition close_rem (l : locals) : locals :=
  let '(s, m) := mdv_map_close (storage l) (l_rem l) in
  let l := set_storage l s in mk_locals (l_objs l) (l_txn l) (l_map l) m.

(** ** Rollback *)

Inductive release_fn := Fn_rollbacker_free | Fn_transaction_abort | Fn_map_close | Fn_mutex_unlock.
Inductive variable := Var_rollbacker | Var_transaction | Var_map | Var_rem_map | Var_mutex.

Abbreviation rollbacker := (option (mdv_rollbacker release_fn variable)).

Definition push_op (r : rollbacker) (f : release_fn) (x : variable) : rollbacker :=
  snd (mdv_rollbacker_push r (mk_op f [x])).

Definition new_rollbacker (mem : bool) (capacity : nat) : rollbacker :=
  mdv_rollbacker_create mem Fn_rollbacker_free Var_rollbacker capacity.

Definition call (l : locals) (c : release_fn * list variable) : locals :=
  match c with
  | (Fn_transaction_abort, [Var_transaction]) => abort l
  | (Fn_map_close, [Var_map]) => close_map l
  | (Fn_map_close, [Var_rem_map]) => close_rem l
  | (Fn_mutex_unlock, [Var_mutex]) => set_locked l false
  | _ => l
  end.

Definition rollback (r : rollbacker) (l : locals) : locals := foldl call l (mdv_rollback r).

(** ** Operations; [mem]: the rollbacker is allocated. *)

(** The stored identifier is read as eight bytes. *)
Definition mdv_objects_idgen_init (mem : bool) (o : mdv_2pset) : locals * bool :=
  let l := enter (mk_2pset (o_storage o) (o_locked o) 0) in
  let rbr := new_rollbacker mem 2 in
  let l := start l in
  if negb (mdv_transaction_ok (l_txn l)) then (rollback rbr l, false) else
  let rbr := push_op rbr Fn_transaction_abort Var_transaction in
  let l := open_map l MDV_MAP_IDGEN (Z.lor MDV_MAP_INTEGERKEY MDV_MAP_SILENT) in
  if negb (mdv_map_ok (l_map l)) then (rollback rbr l, true) else
  let rbr := push_op rbr Fn_map_close Var_map in
  match mdv_map_get (l_map l) (l_txn l) MDV_OBJECTS_IDGEN with
  | None => (rollback rbr l, true)
  | Some v =>
      let l := mk_locals (mk_2pset (storage l) (o_locked (l_objs l)) (of_le (take 8 v))) (l_txn l) (l_map l) (l_rem l) in
      (close_map (abort l), true)
  end.

(** [lock]: the result of locking the mutex of the generator.  The identifier
    is written on success only. *)
Definition mdv_2pset_reserve_ids_range (lock : mdv_errno) (mem : bool) (o : mdv_2pset) (range : Z)
  : locals * mdv_errno * option Z :=
  let l := enter o in
  if decide (lock <> MDV_OK) then (l, lock, None) else
  let l := set_locked l true in
  let rbr := new_rollbacker mem 3 in
  let rbr := push_op rbr Fn_mutex_unlock Var_mutex in
  let l := start l in
  if negb (mdv_transaction_ok (l_txn l)) then (rollback rbr l, MDV_FAILED, None) else
  let rbr := push_op rbr Fn_transaction_abort Var_transaction in
  let l := open_map l MDV_MAP_IDGEN (Z.lor MDV_MAP_INTEGERKEY MDV_MAP_CREATE) in
  if negb (mdv_map_ok (l_map l)) then (rollback rbr l, MDV_FAILED, None) else
  let rbr := push_op rbr Fn_map_close Var_map in
  let new_id := u64 (o_idgen (l_objs l) + range) in
  let '(t, ok) := mdv_map_put (l_map l) (l_txn l) MDV_OBJECTS_IDGEN (to_le 8 new_id) in
  let l := mk_locals (l_objs l) t (l_map l) (l_rem l) in
  if negb ok then (rollback rbr l, MDV_FAILED, None) else
  let '(l, ok) := commit l in
  if negb ok then (rollback rbr l, MDV_FAILED, None) else
  let id := o_idgen (l_objs l) in
  let l := mk_locals (mk_2pset (storage l) (o_locked (l_objs l)) new_id) (l_txn l) (l_map l) (l_rem l) in
  (set_locked (close_map l) false, lock, Some id).

Definition mdv_objects_is_deleted (m : mdv_map) (t : mdv_transaction) (key : bytes) : bool :=
  match mdv_map_get m t key with Some _ => true | None => false end.

Definition mdv_2pset_add (mem : bool) (o : mdv_2pset) (id obj : bytes) : locals * mdv_errno :=
  let l := enter o in
  let rbr := new_rollbacker mem 3 in
  let l := start l in
  if negb (mdv_transaction_ok (l_txn l)) then (rollback rbr l, MDV_FAILED) else
  let rbr := push_op rbr Fn_transaction_abort Var_transaction in
  let l := open_map l MDV_MAP_OBJECTS MDV_MAP_CREATE in
  if negb (mdv_map_ok (l_map l)) then (rollback rbr l, MDV_FAILED) else
  let rbr := push_op rbr Fn_map_close Var_map in
  let l := open_rem l MDV_MAP_REMOVED MDV_MAP_CREATE in
  if negb (mdv_map_ok (l_rem l)) then (rollback rbr l, MDV_FAILED) else
  let rbr := push_op rbr Fn_map_close Var_rem_map in
  if negb (mdv_objects_is_deleted (l_rem l) (l_txn l) id) then
    let '(t, _) := mdv_map_put_unique (l_map l) (l_txn l) id obj in
    let l := mk_locals (l_objs l) t (l_map l) (l_rem l) in
    let '(l, ok) := commit l in
    if negb ok then (rollback rbr l, MDV_FAILED)
    else (close_rem (close_map l), MDV_OK)
  else (close_rem (close_map (abort l)), MDV_OK).

(** [while (next(arg, &id, &obj))], over the pairs the generator yields. *)
Fixpoint batch_loop (items : list (bytes * bytes)) (l : locals) (commit : bool) : locals * bool :=
  match items with
  | [] => (l, commit)
  | (id, obj) :: items =>
      if negb (mdv_objects_is_deleted (l_rem l) (l_txn l) id) then
        let '(t, ok) := mdv_map_put_unique (l_map l) (l_txn l) id obj in
        batch_loop items (mk_locals (l_objs l) t (l_map l) (l_rem l)) (if ok then true else commit)
      else batch_loop items (abort l) commit
  end.

Definition mdv_2pset_add_batch (mem : bool) (o : mdv_2pset) (items : list (bytes * bytes)) : locals * mdv_errno :=
  let l := enter o in
  let rbr := new_rollbacker mem 3 in
  let l := start l in
  if negb (mdv_transaction_ok (l_txn l)) then (rollback rbr l, MDV_FAILED) else
  let rbr := push_op rbr Fn_transaction_abort Var_transaction in
  let l := open_map l MDV_MAP_OBJECTS MDV_MAP_CREATE in
  if negb (mdv_map_ok (l_map l)) then (rollback rbr l, MDV_FAILED) else
  let rbr := push_op rbr Fn_map_close Var_map in
  let l := open_rem l MDV_MAP_REMOVED MDV_MAP_CREATE in
  if negb (mdv_map_ok (l_rem l)) then (rollback rbr l, MDV_FAILED) else
  let rbr := push_op rbr Fn_map_close Var_rem_map in
  let '(l, do_commit) := batch_loop items l false in
  if do_commit then
    let '(l, ok) := commit l in
    if negb ok then (rollback rbr l, MDV_FAILED)
    else (close_rem (close_map l), MDV_OK)
  else (close_rem (close_map (abort l)), MDV_OK).

(** [restore] reads the stored object. *)
Definition mdv_2pset_get {R} (mem : bool) (o : mdv_2pset) (id : bytes) (restore : bytes -> option R)
  : locals * option R :=
  let l := enter o in
  let rbr := new_rollbacker mem 3 in
  let l := start l in
  if negb (mdv_transaction_ok (l_txn l)) then (rollback rbr l, None) else
  let rbr := push_op rbr Fn_transaction_abort Var_transaction in
  let l := open_map l MDV_MAP_OBJECTS MDV_MAP_SILENT in
  if negb (mdv_map_ok (l_map l)) then (rollback rbr l, None) else
  let rbr := push_op rbr Fn_map_close Var_map in
  let l := open_rem l MDV_MAP_REMOVED MDV_MAP_SILENT in
  if negb (mdv_map_ok (l_rem l)) then (rollback rbr l, None) else
  let rbr := push_op rbr Fn_map_close Var_rem_map in
  if mdv_objects_is_deleted (l_rem l) (l_txn l) id then (rollback rbr l, None) else
  match mdv_map_get (l_map l) (l_txn l) id with
  | None => (rollback rbr l, None)
  | Some v => (close_rem (close_map (abort l)), restore v)
  end.

Definition mdv_2pset_retain (o : option mdv_2pset) : option mdv_2pset :=
  match o with
  | None => None
  | Some o => Some (mk_2pset (mdv_storage_retain true (o_storage o)) (o_locked o) (o_idgen o))
  end.

(** The returned count; the set is freed with the storage when it is zero. *)
Definition mdv_2pset_release (o : option mdv_2pset) : Z * option mdv_2pset :=
  match o with
  | None => (0%Z, None)
  | Some o =>
      let '(s, rc) := mdv_storage_release true (o_storage o) in
      (rc, if (rc =? 0)%Z then None else Some (mk_2pset s (o_locked o) (o_idgen o)))
  end.

(** ** Opening *)

Inductive open_fn := Fn_free_open | Fn_free | Fn_storage_release | Fn_mutex_free.
Inductive open_res := Res_open_rollbacker | Res_objs | Res_storage | Res_mutex.

Definition push_open (r : option (mdv_rollbacker open_fn open_res)) (f : open_fn) (x : open_res) :=
  snd (mdv_rollbacker_push r (mk_op f [x])).

(** The effect of a clean-up call on the storage. *)
Definition open_call (s : mdv_lmdb) (c : open_fn * list open_res) : mdv_lmdb :=
  match c with (Fn_storage_release, [Res_storage]) => fst (mdv_storage_release true s) | _ => s end.

(** [mem], [mem_objs], [mem_init]: the rollbacker, the set and the rollbacker of
    the generator's initialisation are allocated; [opened]: the result of
    [mdv_storage_open]; [mutex]: the result of [mdv_mutex_create].  The calls
    are those of the rollback. *)
Definition mdv_2pset_open (mem mem_objs mem_init : bool) (opened : option mdv_lmdb) (mutex : mdv_errno)
  : option mdv_2pset * list (open_fn * list open_res) * option mdv_lmdb :=
  let rbr := mdv_rollbacker_create mem Fn_free_open Res_open_rollbacker 3 in
  if negb mem_objs then (None, mdv_rollback rbr, None) else
  let rbr := push_open rbr Fn_free Res_objs in
  match opened with
  | None => (None, mdv_rollback rbr, None)
  | Some s =>
      let rbr := push_open rbr Fn_storage_release Res_storage in
      if decide (mutex <> MDV_OK) then (None, mdv_rollback rbr, Some (foldl open_call s (mdv_rollback rbr))) else
      let rbr := push_open rbr Fn_mutex_free Res_mutex in
      let '(l, ok) := mdv_objects_idgen_init mem_init (mk_2pset s false 0) in
      if negb ok then (None, mdv_rollback rbr, Some (foldl open_call (storage l) (mdv_rollback rbr)))
      else (Some (l_objs l), [], Some (storage l))
  end.

(** ** Reference counts and committed data *)

Context `{!MdbLaws}.

Definition dbl (l : locals) : database := db (s_env (storage l)).
Definition gen (l : locals) : bool * Z := (o_locked (l_objs l), o_idgen (l_objs l)).

(** What the local variables hold of the [s_refs] references. *)
Definition held (l : locals) : Z :=
  Z.b2z (t_storage (l_txn l)) + Z.b2z (m_storage (l_map l)) + Z.b2z (m_storage (l_rem l)).

(** Besides the local variables, [n] references to the storage are held. *)
Record balanced (n : Z) (l : locals) : Prop := {
  b_refs : s_refs (storage l) = (n + held l)%Z;
  b_open : s_open (storage l) = true;
  b_txn : t_storage (l_txn l) = mdv_transaction_ok (l_txn l);
  b_map : m_storage (l_map l) = mdv_map_ok (l_map l);
  b_rem : m_storage (l_rem l) = mdv_map_ok (l_rem l)
}.

(** Nothing is left open. *)
Definition idle (l : locals) : Prop :=
  t_storage (l_txn l) = false /\ m_storage (l_map l) = false /\ m_storage (l_rem l) = false.

Section Balance.
Context (n : Z) (Hn : (1 <= n < 2 ^ 32 - 4)%Z).

Lemma release_live s e :
  (n < s_refs s <= n + 3)%Z ->
  fst (mdv_storage_release true (set_env s e)) = mk_lmdb (s_refs s - 1) e (s_open s).
Proof. intros Hs. apply (storage_release_live (set_env s e)). simpl. lia. Qed.

Lemma retain_live s : (n <= s_refs s <= n + 3)%Z -> mdv_storage_retain true s = mk_lmdb (s_refs s + 1) (s_env s) (s_open s).
Proof. intros Hs. apply storage_retain_live. lia. Qed.

Lemma set_held_bound l : (0 <= held l <= 3)%Z.
Proof. unfold held. destruct (t_storage _), (m_storage (l_map l)), (m_storage (l_rem l)); simpl; lia. Qed.

Lemma balanced_bound l : balanced n l -> (n <= s_refs (storage l) <= n + 3)%Z.
Proof. intros Hb. rewrite (b_refs _ _ Hb). pose proof (set_held_bound l). lia. Qed.

Lemma set_abort_ok l :
  balanced n l ->
  balanced n (abort l) /\ dbl (abort l) = dbl l /\ gen (abort l) = gen l /\ t_storage (l_txn (abort l)) = false
  /\ l_map (abort l) = l_map l /\ l_rem (abort l) = l_rem l.
Proof.
  intros Hb. unfold abort, mdv_transaction_abort. pose proof (b_txn _ _ Hb) as Ht. unfold mdv_transaction_ok in Ht.
  destruct (t_txn (l_txn l)) as [t|] eqn:E.
  - rewrite Ht, release_live; [|pose proof (b_refs _ _ Hb); unfold held in *; rewrite Ht in *; simpl in *;
      destruct (m_storage (l_map l)), (m_storage (l_rem l)); simpl in *; lia].
    unfold dbl, gen. simpl. split_and!; try done; [|apply abort_spec].
    split; simpl; [|apply Hb|done|apply Hb|apply Hb]. rewrite (b_refs _ _ Hb). unfold held. simpl. rewrite Ht. simpl. lia.
  - simpl. unfold set_storage. split_and!; try done. destruct Hb. by split.
Qed.

Lemma set_close_map_ok l :
  balanced n l ->
  balanced n (close_map l) /\ dbl (close_map l) = dbl l /\ gen (close_map l) = gen l /\ m_storage (l_map (close_map l)) = false
  /\ l_txn (close_map l) = l_txn l /\ l_rem (close_map l) = l_rem l.
Proof.
  intros Hb. unfold close_map, mdv_map_close. pose proof (b_map _ _ Hb) as Ht. unfold mdv_map_ok in Ht. rewrite <- Ht.
  destruct (m_storage (l_map l)) eqn:E.
  - rewrite release_live; [|pose proof (b_refs _ _ Hb); unfold held in *; rewrite E in *; simpl in *;
      destruct (t_storage (l_txn l)), (m_storage (l_rem l)); simpl in *; lia].
    unfold dbl, gen. simpl. split_and!; try done; [|apply dbi_close_spec].
    split; simpl; [|apply Hb|apply Hb|done|apply Hb]. rewrite (b_refs _ _ Hb). unfold held. simpl. rewrite E. simpl. lia.
  - simpl. unfold set_storage. split_and!; try done. destruct Hb. by split.
Qed.

Lemma close_rem_ok l :
  balanced n l ->
  balanced n (close_rem l) /\ dbl (close_rem l) = dbl l /\ gen (close_rem l) = gen l /\ m_storage (l_rem (close_rem l)) = false
  /\ l_txn (close_rem l) = l_txn l /\ l_map (close_rem l) = l_map l.
Proof.
  intros Hb. unfold close_rem, mdv_map_close. pose proof (b_rem _ _ Hb) as Ht. unfold mdv_map_ok in Ht. rewrite <- Ht.
  destruct (m_storage (l_rem l)) eqn:E.
  - rewrite release_live; [|pose proof (b_refs _ _ Hb); unfold held in *; rewrite E in *; simpl in *;
      destruct (t_storage (l_txn l)), (m_storage (l_map l)); simpl in *; lia].
    unfold dbl, gen. simpl. split_and!; try done; [|apply dbi_close_spec].
    split; simpl; [|apply Hb|apply Hb|apply Hb|done]. rewrite (b_refs _ _ Hb). unfold held. simpl. rewrite E. simpl. lia.
  - simpl. unfold set_storage. split_and!; try done. destruct Hb. by split.
Qed.

Lemma set_start_ok l :
  balanced n l -> t_storage (l_txn l) = false ->
  balanced n (start l) /\ dbl (start l) = dbl l /\ gen (start l) = gen l
  /\ l_map (start l) = l_map l /\ l_rem (start l) = l_rem l
  /\ match t_txn (l_txn (start l)) with Some t => view t = dbl l | None => True end.
Proof.
  intros Hb Ht. unfold start, mdv_transaction_start. pose proof (begin_spec (s_env (storage l))) as Hs.
  pose proof (b_refs _ _ Hb) as Hr. unfold held in Hr. rewrite Ht in Hr. simpl in Hr.
  destruct (mdb_txn_begin _) as [[e rc] t]. destruct Hs as [He Hs]. destruct (Z.eqb_spec rc MDB_SUCCESS) as [->|Hne]; cbn [negb].
  - destruct (Hs eq_refl) as (t' & -> & Hv). rewrite retain_live.
    2: { simpl. pose proof (balanced_bound _ Hb). lia. }
    simpl. split_and!; try done. split; simpl; [|apply Hb|done|apply Hb|apply Hb]. rewrite Hr. unfold held. simpl. lia.
  - split_and!; try done. split; simpl; [|apply Hb|done|apply Hb|apply Hb]. rewrite Hr. unfold held. simpl. lia.
Qed.

Lemma set_commit_ok l :
  balanced n l ->
  let '(l', ok) := commit l in
  balanced n l' /\ gen l' = gen l /\ t_storage (l_txn l') = false /\ l_map l' = l_map l /\ l_rem l' = l_rem l
  /\ (if ok then exists t, t_txn (l_txn l) = Some t /\ dbl l' = view t else dbl l' = dbl l).
Proof.
  intros Hb. unfold commit, mdv_transaction_commit. pose proof (b_txn _ _ Hb) as Ht. unfold mdv_transaction_ok in Ht.
  destruct (t_txn (l_txn l)) as [t|] eqn:E.
  - pose proof (commit_spec (s_env (storage l)) t) as Hc. destruct (mdb_txn_commit _ _) as [e rc].
    rewrite Ht, release_live; [|pose proof (b_refs _ _ Hb); unfold held in *; rewrite Ht in *; simpl in *;
      destruct (m_storage (l_map l)), (m_storage (l_rem l)); simpl in *; lia].
    split_and!; try done.
    + split; simpl; [|apply Hb|done|apply Hb|apply Hb]. rewrite (b_refs _ _ Hb). unfold held. simpl. rewrite Ht. simpl. lia.
    + unfold dbl. simpl. rewrite Hc. destruct (Z.eqb_spec rc MDB_SUCCESS); destruct (decide (rc = MDB_SUCCESS)); eauto; done.
  - simpl. split_and!; try done. destruct Hb. by split.
Qed.

(** What opening a map does to the transaction. *)
Lemma map_open_ok (s : mdv_lmdb) (t : mdv_transaction) name flags txn :
  t_txn t = Some txn -> t_storage t = true -> (n <= s_refs s <= n + 2)%Z -> s_open s = true ->
  let '(s', t', m) := mdv_map_open s t name flags in
  s_open s' = true /\ s_env s' = s_env s /\ s_refs s' = (s_refs s + Z.b2z (m_storage m))%Z
  /\ t_storage t' = true /\ m_storage m = mdv_map_ok m
  /\ exists txn', t_txn t' = Some txn' /\ (forall d' n', handle txn d' = Some n' -> handle txn' d' = Some n')
    /\ (if m_storage m then handle txn' (m_dbmap m) = Some name /\ view txn' = ensure name (view txn)
          /\ (Z.land (map_flags flags) MDB_CREATE = 0%Z -> is_Some (view txn !! name))
        else view txn' = view txn).
Proof.
  intros Et Hst Hr Ho. unfold mdv_map_open. rewrite Et.
  pose proof (dbi_open_spec txn name (map_flags flags)) as Hs.
  destruct (mdb_dbi_open txn name (map_flags flags)) as [[txn' rc] d].
  destruct (Z.eqb_spec rc MDB_SUCCESS) as [->|Hne]; cbn [negb].
  - rewrite decide_True in Hs by done. destruct Hs as (Hd & Hh & Hhs & Hv & Hc). cbn [t_storage]. rewrite Hst, retain_live by lia. simpl.
    split_and!; try done; [unfold mdv_map_ok; simpl; by rewrite (proj2 (Z.eqb_neq d 0))|].
    exists txn'. split_and!; try done.
  - rewrite decide_False in Hs by done. destruct Hs as [Hv Hhs]. simpl. split_and!; try done; [lia|]. exists txn'. by split_and!.
Qed.

Lemma set_open_map_ok l name flags txn :
  balanced n l -> t_txn (l_txn l) = Some txn -> m_storage (l_map l) = false ->
  let l' := open_map l name flags in
  balanced n l' /\ dbl l' = dbl l /\ gen l' = gen l /\ l_rem l' = l_rem l
  /\ exists txn', t_txn (l_txn l') = Some txn' /\ (forall d' n', handle txn d' = Some n' -> handle txn' d' = Some n')
    /\ (if m_storage (l_map l') then handle txn' (m_dbmap (l_map l')) = Some name /\ view txn' = ensure name (view txn)
          /\ (Z.land (map_flags flags) MDB_CREATE = 0%Z -> is_Some (view txn !! name))
        else view txn' = view txn).
Proof.
  intros Hb Et Hm. unfold open_map. pose proof (b_txn _ _ Hb) as Ht. unfold mdv_transaction_ok in Ht. rewrite Et in Ht.
  pose proof (b_refs _ _ Hb) as Hr. unfold held in Hr. rewrite Ht, Hm in Hr. simpl in Hr.
  pose proof (map_open_ok (storage l) (l_txn l) name flags txn Et Ht
    ltac:(destruct (m_storage (l_rem l)); simpl in *; lia) (b_open _ _ Hb)) as Ho.
  destruct (mdv_map_open _ _ _ _) as [[s' t'] m]. destruct Ho as (Ho & He & Hr' & Hts & Hmo & txn' & Et' & Hh & Hv).
  unfold dbl, gen. simpl. split_and!; [|by rewrite He|done|done|eauto].
  split; simpl; [|done| |done|apply Hb]; [|unfold mdv_transaction_ok; by rewrite Et'].
  rewrite Hr', Hr. unfold held. simpl. rewrite Hts. simpl. lia.
Qed.

Lemma open_rem_ok l name flags txn :
  balanced n l -> t_txn (l_txn l) = Some txn -> m_storage (l_rem l) = false ->
  let l' := open_rem l name flags in
  balanced n l' /\ dbl l' = dbl l /\ gen l' = gen l /\ l_map l' = l_map l
  /\ exists txn', t_txn (l_txn l') = Some txn' /\ (forall d' n', handle txn d' = Some n' -> handle txn' d' = Some n')
    /\ (if m_storage (l_rem l') then handle txn' (m_dbmap (l_rem l')) = Some name /\ view txn' = ensure name (view txn)
          /\ (Z.land (map_flags flags) MDB_CREATE = 0%Z -> is_Some (view txn !! name))
        else view txn' = view txn).
Proof.
  intros Hb Et Hm. unfold open_rem. pose proof (b_txn _ _ Hb) as Ht. unfold mdv_transaction_ok in Ht. rewrite Et in Ht.
  pose proof (b_refs _ _ Hb) as Hr. unfold held in Hr. rewrite Ht, Hm in Hr. simpl in Hr.
  pose proof (map_open_ok (storage l) (l_txn l) name flags txn Et Ht
    ltac:(destruct (m_storage (l_map l)); simpl in *; lia) (b_open _ _ Hb)) as Ho.
  destruct (mdv_map_open _ _ _ _) as [[s' t'] m]. destruct Ho as (Ho & He & Hr' & Hts & Hmo & txn' & Et' & Hh & Hv).
  unfold dbl, gen. simpl. split_and!; [|by rewrite He|done|done|eauto].
  split; simpl; [|done| |apply Hb|done]; [|unfold mdv_transaction_ok; by rewrite Et'].
  rewrite Hr', Hr. unfold held. simpl. rewrite Hts. simpl. lia.
Qed.

(** Nothing is left open, and the committed data and the generator are as at [l0]. *)
Definition clean (l0 l : locals) : Prop := balanced n l /\ idle l /\ dbl l = dbl l0 /\ gen l = gen l0.

Lemma clean_idle l : balanced n l -> idle l -> clean l l.
Proof. intros. unfold clean. by split_and!. Qed.

Lemma set_clean_trans l0 l1 l : dbl l1 = dbl l0 -> gen l1 = gen l0 -> clean l1 l -> clean l0 l.
Proof. intros Hd Hg (?&?&?&?). unfold clean. split_and!; try done; congruence. Qed.

(** The ways the operations leave: by the calls at their end, or by a rollback. *)
Lemma clean_end l : balanced n l -> clean l (close_rem (close_map (abort l))).
Proof.
  intros Hb. destruct (set_abort_ok l Hb) as (B1 & D1 & G1 & T1 & M1 & R1).
  destruct (set_close_map_ok _ B1) as (B2 & D2 & G2 & M2 & T2 & R2).
  destruct (close_rem_ok _ B2) as (B3 & D3 & G3 & R3 & T3 & M3).
  unfold clean, idle. split_and!; try done; congruence.
Qed.

Lemma clean_committed l : balanced n l -> t_storage (l_txn l) = false -> clean l (close_rem (close_map l)).
Proof.
  intros Hb Ht. destruct (set_close_map_ok _ Hb) as (B2 & D2 & G2 & M2 & T2 & R2).
  destruct (close_rem_ok _ B2) as (B3 & D3 & G3 & R3 & T3 & M3).
  unfold clean, idle. split_and!; try done; congruence.
Qed.

Lemma clean_rollback l : balanced n l -> clean l (abort (close_map (close_rem l))).
Proof.
  intros Hb. destruct (close_rem_ok _ Hb) as (B1 & D1 & G1 & R1 & T1 & M1).
  destruct (set_close_map_ok _ B1) as (B2 & D2 & G2 & M2 & T2 & R2).
  destruct (set_abort_ok _ B2) as (B3 & D3 & G3 & T3 & M3 & R3).
  unfold clean, idle. split_and!; try done; congruence.
Qed.

Lemma clean_rollback_map l : balanced n l -> m_storage (l_rem l) = false -> clean l (abort (close_map l)).
Proof.
  intros Hb Hr. destruct (set_close_map_ok _ Hb) as (B2 & D2 & G2 & M2 & T2 & R2).
  destruct (set_abort_ok _ B2) as (B3 & D3 & G3 & T3 & M3 & R3).
  unfold clean, idle. split_and!; try done; congruence.
Qed.

Lemma clean_rollback_txn l :
  balanced n l -> m_storage (l_map l) = false -> m_storage (l_rem l) = false -> clean l (abort l).
Proof.
  intros Hb Hm Hr. destruct (set_abort_ok _ Hb) as (B3 & D3 & G3 & T3 & M3 & R3).
  unfold clean, idle. split_and!; try done; congruence.
Qed.

Lemma txn_some (t : mdv_transaction) : mdv_transaction_ok t = true -> exists x, t_txn t = Some x.
Proof. unfold mdv_transaction_ok. destruct (t_txn t); eauto; done. Qed.

(** The transaction and the two maps of an operation are open. *)
Record ready (l0 l : locals) (t : mdb_txn) : Prop := {
  rd_bal : balanced n l;
  rd_db : dbl l = dbl l0;
  rd_gen : gen l = gen l0;
  rd_txn : t_txn (l_txn l) = Some t;
  rd_map : handle t (m_dbmap (l_map l)) = Some MDV_MAP_OBJECTS;
  rd_rem : handle t (m_dbmap (l_rem l)) = Some MDV_MAP_REMOVED
}.

(** The common beginning of the operations: each early return leaves cleanly. *)
Lemma set_opened o flags :
  balanced n (enter o) ->
  let l0 := enter o in
  let l1 := start l0 in
  let l2 := open_map l1 MDV_MAP_OBJECTS flags in
  let l3 := open_rem l2 MDV_MAP_REMOVED flags in
  if negb (mdv_transaction_ok (l_txn l1)) then clean l0 l1
  else if negb (mdv_map_ok (l_map l2)) then clean l0 (abort l2)
  else if negb (mdv_map_ok (l_rem l3)) then clean l0 (abort (close_map l3))
  else exists t, ready l0 l3 t /\ view t = ensure MDV_MAP_REMOVED (ensure MDV_MAP_OBJECTS (dbl l0))
    /\ (Z.land (map_flags flags) MDB_CREATE = 0%Z ->
        is_Some (dbl l0 !! MDV_MAP_OBJECTS) /\ is_Some (dbl l0 !! MDV_MAP_REMOVED)).
Proof.
  intros Hb l0 l1 l2 l3. destruct (set_start_ok l0 Hb eq_refl) as (B1 & D1 & G1 & M1 & R1 & V1). fold l1 in B1, D1, G1, M1, R1, V1.
  destruct (mdv_transaction_ok (l_txn l1)) eqn:E1; cbn [negb].
  2: { apply (set_clean_trans l0 l1); [done..|]. apply clean_idle; [done|]. split_and!; [|by rewrite M1|by rewrite R1].
       by rewrite (b_txn _ _ B1). }
  destruct (txn_some _ E1) as (t1 & Et1). rewrite Et1 in V1.
  destruct (set_open_map_ok l1 MDV_MAP_OBJECTS flags t1 B1 Et1) as (B2 & D2 & G2 & R2 & t2 & Et2 & H2 & V2); [by rewrite M1|].
  fold l2 in B2, D2, G2, R2, Et2, V2. rewrite <- (b_map _ _ B2). destruct (m_storage (l_map l2)) eqn:E2; cbn [negb].
  2: { apply (set_clean_trans l0 l2); [congruence..|]. apply clean_rollback_txn; [done..|]. by rewrite R2, R1. }
  destruct V2 as (Hh2 & V2 & C2).
  destruct (open_rem_ok l2 MDV_MAP_REMOVED flags t2 B2 Et2) as (B3 & D3 & G3 & M3 & t3 & Et3 & H3 & V3); [by rewrite R2, R1|].
  fold l3 in B3, D3, G3, M3, Et3, V3. rewrite <- (b_rem _ _ B3). destruct (m_storage (l_rem l3)) eqn:E3; cbn [negb].
  2: { apply (set_clean_trans l0 l3); [congruence..|]. by apply clean_rollback_map. }
  destruct V3 as (Hh3 & V3 & C3). exists t3. split_and!.
  - split; try done; [congruence..|]. rewrite M3. by apply H3.
  - by rewrite V3, V2, V1.
  - intros Hc. specialize (C2 Hc). specialize (C3 Hc). rewrite V2, V1 in C3. rewrite V1 in C2. split; [exact C2|].
    unfold ensure in C3. destruct C2 as [m E]. by rewrite E in C3.
Qed.

(** ** Reads and writes in an open transaction *)

Lemma get_ready l t m name k :
  t_txn (l_txn l) = Some t -> handle t (m_dbmap m) = Some name -> valid_key k ->
  mdv_map_get m (l_txn l) k = lookup2 (view t) name k.
Proof.
  intros Et Hh Hk. unfold mdv_map_get, lookup2. rewrite Et. pose proof (get_spec t _ _ k Hh Hk) as Hs.
  destruct (mdb_get _ _ _) as [rc v]. destruct (view t !! name ≫= _) as [v'|]; [|by subst rc].
  destruct Hs as [-> ->]. done.
Qed.

Lemma deleted_ready l0 l t id :
  ready l0 l t -> valid_key id ->
  mdv_objects_is_deleted (l_rem l) (l_txn l) id = is_some (lookup2 (view t) MDV_MAP_REMOVED id).
Proof. intros Hr Hk. unfold mdv_objects_is_deleted. by rewrite (get_ready l t _ MDV_MAP_REMOVED) by (done || apply Hr). Qed.

Lemma set_union_taken (m : gmap bytes bytes) k v x : m !! k = Some v -> m ∪ {[k := x]} = m.
Proof.
  intros Hk. apply map_eq. intros j. destruct (m !! j) as [w|] eqn:E; [by apply lookup_union_Some_l|].
  rewrite lookup_union_r by done. apply lookup_singleton_ne. congruence.
Qed.

(** Storing an object under an identifier that may be taken. *)
Definition store (id obj : bytes) (d : database) : database :=
  alter (fun m => m ∪ {[id := obj]}) MDV_MAP_OBJECTS d.

Lemma put_unique_ready `{!MdbRoom} l0 l t id obj :
  ready l0 l t -> valid_key id ->
  let '(t', ok) := mdv_map_put_unique (l_map l) (l_txn l) id obj in
  exists txn', ready l0 (mk_locals (l_objs l) t' (l_map l) (l_rem l)) txn' /\ view txn' = store id obj (view t)
    /\ ok = negb (is_some (lookup2 (view t) MDV_MAP_OBJECTS id)).
Proof.
  intros Hr Hk. pose proof (rd_map _ _ _ Hr) as Hh. unfold mdv_map_put_unique, mdv_map_put_impl. rewrite (rd_txn _ _ _ Hr).
  pose proof (put_spec t _ _ id obj MDB_NOOVERWRITE Hh Hk) as Hs. pose proof (put_room t _ _ id obj MDB_NOOVERWRITE Hh Hk) as Hroom.
  destruct (mdb_put _ _ _ _ _) as [txn' rc]. destruct Hs as (Hhs & Hv & Hex). specialize (Hex ltac:(done)). simpl in Hroom.
  exists txn'. pose proof (rd_bal _ _ _ Hr) as Hb.
  assert (Hlk : rc = MDB_SUCCESS /\ lookup2 (view t) MDV_MAP_OBJECTS id = None
                \/ rc = MDB_KEYEXIST /\ is_Some (lookup2 (view t) MDV_MAP_OBJECTS id)).
  { destruct Hroom as [->|(-> & Hroom & _)]; [left|by right]. split; [done|]. unfold lookup2.
    destruct (view t !! MDV_MAP_OBJECTS ≫= _) eqn:E; [|done]. discriminate (Hex ltac:(eauto)). }
  split_and!.
  - split; simpl; [|apply Hr|apply Hr|done|by apply Hhs|apply Hhs, Hr].
    pose proof (b_txn _ _ Hb) as Ht. unfold mdv_transaction_ok in Ht. rewrite (rd_txn _ _ _ Hr) in Ht. rewrite Ht.
    destruct Hb as [Hb1 Hb2 Hb3 Hb4 Hb5]. split; simpl; try done. rewrite Hb1. unfold held. simpl. by rewrite Ht.
  - rewrite Hv. unfold store. destruct (handle_dom _ _ _ Hh) as [m Em]. unfold lookup2 in Hlk. rewrite Em in Hlk. simpl in Hlk.
    destruct Hlk as [[-> Hn']|[-> [v Hv']]]; [rewrite decide_True by done|rewrite decide_False by done].
    + apply map_eq. intros k. destruct (decide (k = MDV_MAP_OBJECTS)) as [->|]; [|by rewrite !lookup_alter_ne].
      rewrite !lookup_alter, Em. simpl. f_equal. by apply insert_union_singleton_r.
    + apply map_eq. intros k. destruct (decide (k = MDV_MAP_OBJECTS)) as [->|]; [|by rewrite !lookup_alter_ne].
      rewrite !lookup_alter, Em. simpl. f_equal. symmetry. by eapply set_union_taken.
  - destruct Hlk as [[-> ->]|[-> [v ->]]]; done.
Qed.

(** ** The set *)

Definition objects (d : database) : gmap bytes bytes := default ∅ (d !! MDV_MAP_OBJECTS).
Definition removed (d : database) : gmap bytes bytes := default ∅ (d !! MDV_MAP_REMOVED).

(** The data after an update: [objs] are the objects, nothing else differs. *)
Definition updated (d d' : database) (objs : gmap bytes bytes) : Prop :=
  objects d' = objs /\ removed d' = removed d
  /\ forall name, name <> MDV_MAP_OBJECTS -> name <> MDV_MAP_REMOVED -> d' !! name = d !! name.

Definition prepared (d : database) : database := ensure MDV_MAP_REMOVED (ensure MDV_MAP_OBJECTS d).

Lemma prepared_objects d : prepared d !! MDV_MAP_OBJECTS = Some (objects d).
Proof. unfold prepared. rewrite !ensure_lookup. by rewrite decide_False, decide_True by done. Qed.

Lemma prepared_removed d : prepared d !! MDV_MAP_REMOVED = Some (removed d).
Proof. unfold prepared. rewrite ensure_lookup, decide_True by done. by rewrite ensure_lookup, decide_False by done. Qed.

(** Storing in the prepared maps. *)
Lemma updated_alter (d : database) (f : gmap bytes bytes -> gmap bytes bytes) :
  updated d (alter f MDV_MAP_OBJECTS (prepared d)) (f (objects d)).
Proof.
  unfold updated, objects at 1, removed at 1. rewrite lookup_alter, prepared_objects. split_and!; [done| |].
  - by rewrite lookup_alter_ne, prepared_removed by done.
  - intros name H1 H2. rewrite lookup_alter_ne by done. unfold prepared. by rewrite !ensure_lookup, !decide_False by done.
Qed.

Lemma set_balanced_enter o : s_refs (o_storage o) = n -> s_open (o_storage o) = true -> balanced n (enter o).
Proof. intros Hr Ho. split; simpl; try done. rewrite Hr. unfold held. simpl. lia. Qed.

(** ** Batches *)

Definition store_all (items : list (bytes * bytes)) (m : gmap bytes bytes) : gmap bytes bytes :=
  foldl (fun m x => m ∪ {[x.1 := x.2]}) m items.

Lemma store_all_taken items m : Forall (fun x => is_Some (m !! x.1)) items -> store_all items m = m.
Proof.
  induction 1 as [|[k v] items [w Hw] _ IH]; [done|]. simpl in *. unfold store_all in *. simpl.
  by rewrite (set_union_taken m k w v).
Qed.

Lemma store_all_keeps items m k v : m !! k = Some v -> store_all items m !! k = Some v.
Proof.
  revert m. induction items as [|[k' v'] items IH]; intros m Hm; [done|]. unfold store_all in *. cbn [foldl]. apply IH. by apply lookup_union_Some_l.
Qed.

(** The loop on a batch without removed identifiers. *)
Lemma batch_loop_ready `{!MdbRoom} items l0 l t c :
  ready l0 l t -> Forall (fun x => valid_key x.1) items ->
  Forall (fun x => lookup2 (view t) MDV_MAP_REMOVED x.1 = None) items ->
  let '(l', c') := batch_loop items l c in
  exists t', ready l0 l' t' /\ view t' = alter (store_all items) MDV_MAP_OBJECTS (view t)
    /\ c' = c || existsb (fun x => negb (is_some (lookup2 (view t) MDV_MAP_OBJECTS x.1))) items.
Proof.
  intros Hr Hk Hrem. revert l t c Hr Hrem. induction Hk as [|[id obj] items Hk _ IH]; intros l t c Hr Hrem.
  { exists t. simpl. rewrite orb_false_r. split_and!; try done. symmetry. apply map_eq. intros k.
    destruct (decide (k = MDV_MAP_OBJECTS)) as [->|]; [|by rewrite lookup_alter_ne]. rewrite lookup_alter.
    by destruct (view t !! MDV_MAP_OBJECTS). }
  apply Forall_cons in Hrem as [Hd Hrem]. cbn [fst] in Hd, Hk. cbn [batch_loop].
  rewrite (deleted_ready _ _ _ _ Hr Hk), Hd. cbn [is_some negb].
  pose proof (put_unique_ready _ _ _ _ obj Hr Hk) as Hput. destruct (mdv_map_put_unique _ _ _ _) as [t' ok].
  destruct Hput as (txn' & Hr' & Hv' & Hok).
  destruct (handle_dom _ _ _ (rd_map _ _ _ Hr)) as [m Em].
  assert (Hobj : view txn' !! MDV_MAP_OBJECTS = Some (m ∪ {[id := obj]})) by (rewrite Hv'; unfold store; by rewrite lookup_alter, Em).
  specialize (IH _ txn' (if ok then true else c) Hr').
  destruct (batch_loop _ _ _) as [l' c'] eqn:El. destruct IH as (t2 & Hr2 & Hv2 & Hc2).
  { eapply Forall_impl; [exact Hrem|]. intros x Hx. unfold lookup2 in *. rewrite Hv'. unfold store. by rewrite lookup_alter_ne by done. }
  exists t2. split_and!; [done| |].
  - rewrite Hv2, Hv'. unfold store. apply map_eq. intros k.
    destruct (decide (k = MDV_MAP_OBJECTS)) as [->|]; [|by rewrite !lookup_alter_ne]. rewrite !lookup_alter, Em. done.
  - rewrite Hc2. cbn [existsb fst]. unfold lookup2 in Hok |- *. rewrite Em in Hok |- *. rewrite Hobj. simpl in *. subst ok.
    destruct (m !! id) as [w|] eqn:Ei; simpl; [|by rewrite orb_true_r]. by rewrite (set_union_taken _ _ _ _ Ei).
Qed.

Lemma abort_dead l : t_txn (l_txn l) = None -> abort l = l.
Proof. intros Ht. unfold abort, mdv_transaction_abort. rewrite Ht. by destruct l as [[]]. Qed.

(** Once the transaction is gone the loop does nothing. *)
Lemma batch_loop_dead items l c : t_txn (l_txn l) = None -> batch_loop items l c = (l, c).
Proof.
  intros Ht. induction items as [|[id obj] items IH]; [done|]. cbn [batch_loop].
  unfold mdv_objects_is_deleted, mdv_map_get, mdv_map_put_unique, mdv_map_put_impl. rewrite Ht. cbn [negb]. by destruct l.
Qed.

(** The loop on a batch with a removed identifier loses the transaction. *)
Lemma batch_loop_removed `{!MdbRoom} items l0 l t c :
  ready l0 l t -> Forall (fun x => valid_key x.1) items ->
  Exists (fun x => is_Some (lookup2 (view t) MDV_MAP_REMOVED x.1)) items ->
  let '(l', c') := batch_loop items l c in
  balanced n l' /\ dbl l' = dbl l0 /\ gen l' = gen l0 /\ t_txn (l_txn l') = None /\ t_storage (l_txn l') = false.
Proof.
  intros Hr Hk Hrem. revert l t c Hr Hrem. induction Hk as [|[id obj] items Hk _ IH]; intros l t c Hr Hrem; [by inversion Hrem|].
  cbn [batch_loop]. cbn [fst] in Hk. rewrite (deleted_ready _ _ _ _ Hr Hk).
  destruct (lookup2 (view t) MDV_MAP_REMOVED id) as [w|] eqn:Hd; cbn [is_some negb].
  - destruct (set_abort_ok l (rd_bal _ _ _ Hr)) as (B & D & G & T & _).
    assert (Hdead : t_txn (l_txn (abort l)) = None).
    { pose proof (b_txn _ _ B) as Ht. rewrite T in Ht. unfold mdv_transaction_ok in Ht. by destruct (t_txn _). }
    rewrite batch_loop_dead by done. split_and!; try done; [by rewrite D, (rd_db _ _ _ Hr)|by rewrite G, (rd_gen _ _ _ Hr)].
  - apply Exists_cons in Hrem as [Hx|Hrem]; [simpl in Hx; rewrite Hd in Hx; by destruct Hx|].
    pose proof (put_unique_ready _ _ _ _ obj Hr Hk) as Hput. destruct (mdv_map_put_unique _ _ _ _) as [t' ok].
    destruct Hput as (txn' & Hr' & Hv' & Hok). apply (IH _ txn' _ Hr'). eapply Exists_impl; [exact Hrem|].
    intros x Hx. unfold lookup2 in *. rewrite Hv'. unfold store. by rewrite lookup_alter_ne by done.
Qed.

(** The end of the batch. *)
Definition batch_end (l : locals) (do_commit : bool) : locals * mdv_errno :=
  if do_commit then
    let '(l, ok) := commit l in
    if negb ok then (abort (close_map (close_rem l)), MDV_FAILED)
    else (close_rem (close_map l), MDV_OK)
  else (close_rem (close_map (abort l)), MDV_OK).

(** How an operation may end: a failure leaves the data as it was, a success
    satisfies [Q]. *)
Definition outcome_ok (o : mdv_2pset) (r : locals * mdv_errno) (Q : database -> Prop) : Prop :=
  let '(l, err) := r in
  balanced n l /\ idle l /\ gen l = gen (enter o)
  /\ (err = MDV_FAILED /\ dbl l = dbl (enter o) \/ err = MDV_OK /\ Q (dbl l)).

Lemma clean_failed o l Q : clean (enter o) l -> outcome_ok o (l, MDV_FAILED) Q.
Proof. intros (?&?&?&?). unfold outcome_ok. split_and!; auto. Qed.

Lemma batch_end_ready `{!MdbRoom} o items l t :
  ready (enter o) l t -> view t = prepared (dbl (enter o)) -> Forall (fun x => valid_key x.1) items ->
  Forall (fun x => removed (dbl (enter o)) !! x.1 = None) items ->
  outcome_ok o (let '(l, c) := batch_loop items l false in batch_end l c)
    (fun d' => updated (dbl (enter o)) d' (store_all items (objects (dbl (enter o))))).
Proof.
  set (d := dbl (enter o)). intros Hr Hv Hk Hall. pose proof (batch_loop_ready items _ _ _ false Hr Hk) as Hl.
  destruct (batch_loop _ _ _) as [l4 c]. destruct Hl as (t' & Hr' & Hv' & Hc).
  { eapply Forall_impl; [exact Hall|]. intros x Hx. unfold lookup2. by rewrite Hv, prepared_removed. }
  unfold batch_end. destruct c.
  - pose proof (set_commit_ok _ (rd_bal _ _ _ Hr')) as Hcm. destruct (commit _) as [l5 ok].
    destruct Hcm as (B5 & G5 & T5 & M5 & R5 & D5). destruct ok; cbn [negb].
    + destruct D5 as (t5 & Et5 & D5). rewrite (rd_txn _ _ _ Hr') in Et5. injection Et5 as <-.
      destruct (clean_committed l5 B5 T5) as (?&?&Hd&Hg). unfold outcome_ok.
      split_and!; try done; [by rewrite Hg, G5, (rd_gen _ _ _ Hr')|]. right. split; [done|].
      rewrite Hd, D5, Hv', Hv. apply updated_alter.
    + apply clean_failed, (set_clean_trans _ l5); [by rewrite D5, (rd_db _ _ _ Hr')|by rewrite G5, (rd_gen _ _ _ Hr')|].
      by apply clean_rollback.
  - destruct (clean_end l4 (rd_bal _ _ _ Hr')) as (?&?&Hd&Hg). unfold outcome_ok.
    rewrite Hd, Hg, (rd_db _ _ _ Hr'), (rd_gen _ _ _ Hr'). split_and!; try done. right. split; [done|].
    rewrite store_all_taken; [done|]. symmetry in Hc. apply orb_false_iff in Hc as [_ Hc]. apply Forall_forall. intros x Hx.
    destruct (objects d !! x.1) eqn:E; [eauto|]. exfalso. apply not_true_iff_false in Hc. apply Hc, existsb_exists.
    exists x. split; [by apply list_elem_of_In|]. unfold lookup2. rewrite Hv, prepared_objects. simpl. fold d. by rewrite E.
Qed.

Lemma batch_end_removed `{!MdbRoom} o items l t :
  ready (enter o) l t -> view t = prepared (dbl (enter o)) -> Forall (fun x => valid_key x.1) items ->
  Exists (fun x => is_Some (removed (dbl (enter o)) !! x.1)) items ->
  outcome_ok o (let '(l, c) := batch_loop items l false in batch_end l c) (fun d' => d' = dbl (enter o)).
Proof.
  intros Hr Hv Hk Hsome. pose proof (batch_loop_removed items _ _ _ false Hr Hk) as Hl.
  destruct (batch_loop _ _ _) as [l4 c]. destruct Hl as (B4 & D4 & G4 & T4 & S4).
  { eapply Exists_impl; [exact Hsome|]. intros x Hx. unfold lookup2. by rewrite Hv, prepared_removed. }
  unfold batch_end. destruct c.
  - unfold commit, mdv_transaction_commit. rewrite T4. cbn [negb]. apply clean_failed.
    replace (mk_locals _ _ _ _) with l4 by (by destruct l4 as [[]]). apply (set_clean_trans _ l4); [done..|]. by apply clean_rollback.
  - destruct (clean_end l4 B4) as (?&?&Hd&Hg). unfold outcome_ok. rewrite Hd, Hg, D4, G4. split_and!; auto.
Qed.

(** The early returns of an update, and what follows them. *)
Lemma update_opened o Q (k : locals -> locals * mdv_errno) :
  balanced n (enter o) ->
  (forall l t, ready (enter o) l t -> view t = prepared (dbl (enter o)) -> outcome_ok o (k l) Q) ->
  let l1 := start (enter o) in
  let l2 := open_map l1 MDV_MAP_OBJECTS MDV_MAP_CREATE in
  let l3 := open_rem l2 MDV_MAP_REMOVED MDV_MAP_CREATE in
  outcome_ok o (if negb (mdv_transaction_ok (l_txn l1)) then (l1, MDV_FAILED)
                else if negb (mdv_map_ok (l_map l2)) then (abort l2, MDV_FAILED)
                else if negb (mdv_map_ok (l_rem l3)) then (abort (close_map l3), MDV_FAILED)
                else k l3) Q.
Proof.
  intros Hb Hk l1 l2 l3. pose proof (set_opened o MDV_MAP_CREATE Hb) as Hop. cbv zeta in Hop. fold l1 in Hop. fold l2 in Hop. fold l3 in Hop.
  destruct (mdv_transaction_ok (l_txn l1)); cbn [negb] in *; [|by apply clean_failed].
  destruct (mdv_map_ok (l_map l2)); cbn [negb] in *; [|by apply clean_failed].
  destruct (mdv_map_ok (l_rem l3)); cbn [negb] in *; [|by apply clean_failed].
  destruct Hop as (t & Hr & Hv & _). by apply (Hk l3 t).
Qed.

Lemma set_add_runs `{!MdbRoom} o id obj :
  balanced n (enter o) -> valid_key id ->
  outcome_ok o (mdv_2pset_add true o id obj)
    (fun d' => updated (dbl (enter o)) d'
      (if is_some (removed (dbl (enter o)) !! id) then objects (dbl (enter o)) else objects (dbl (enter o)) ∪ {[id := obj]})).
Proof.
  intros Hb Hk. apply (update_opened o _ (fun l =>
    if negb (mdv_objects_is_deleted (l_rem l) (l_txn l) id) then
      let '(t, _) := mdv_map_put_unique (l_map l) (l_txn l) id obj in
      let '(l, ok) := commit (mk_locals (l_objs l) t (l_map l) (l_rem l)) in
      if negb ok then (abort (close_map (close_rem l)), MDV_FAILED) else (close_rem (close_map l), MDV_OK)
    else (close_rem (close_map (abort l)), MDV_OK)) Hb).
  intros l t Hr Hv. rewrite (deleted_ready _ _ _ _ Hr Hk), Hv. unfold lookup2. rewrite prepared_removed. simpl.
  destruct (removed (dbl (enter o)) !! id) eqn:Erem; cbn [is_some negb].
  - destruct (clean_end l (rd_bal _ _ _ Hr)) as (?&?&Hd&Hg). unfold outcome_ok. rewrite Hd, Hg, (rd_db _ _ _ Hr), (rd_gen _ _ _ Hr).
    split_and!; auto. by right.
  - pose proof (put_unique_ready _ _ _ _ obj Hr Hk) as Hput. destruct (mdv_map_put_unique _ _ _ _) as [t' ok].
    destruct Hput as (txn' & Hr' & Hv' & _). pose proof (set_commit_ok _ (rd_bal _ _ _ Hr')) as Hc.
    destruct (commit _) as [l4 ok']. destruct Hc as (B4 & G4 & T4 & M4 & R4 & D4). destruct ok'; cbn [negb].
    + destruct D4 as (t4 & Et4 & D4). rewrite (rd_txn _ _ _ Hr') in Et4. injection Et4 as <-.
      destruct (clean_committed l4 B4 T4) as (?&?&Hd&Hg). unfold outcome_ok. split_and!; try done; [by rewrite Hg, G4, (rd_gen _ _ _ Hr')|].
      right. split; [done|]. rewrite Hd, D4, Hv', Hv. apply (updated_alter _ (fun m => m ∪ {[id := obj]})).
    + apply clean_failed, (set_clean_trans _ l4); [by rewrite D4, (rd_db _ _ _ Hr')|by rewrite G4, (rd_gen _ _ _ Hr')|].
      by apply clean_rollback.
Qed.

Lemma batch_runs `{!MdbRoom} o items Q :
  balanced n (enter o) ->
  (forall l t, ready (enter o) l t -> view t = prepared (dbl (enter o)) ->
    outcome_ok o (let '(l, c) := batch_loop items l false in batch_end l c) Q) ->
  outcome_ok o (mdv_2pset_add_batch true o items) Q.
Proof. intros Hb Hk. exact (update_opened o Q (fun l => let '(l, c) := batch_loop items l false in batch_end l c) Hb Hk). Qed.

(** ** Reading *)

Lemma get_runs {R} o id (restore : bytes -> option R) :
  balanced n (enter o) -> valid_key id ->
  let '(l, r) := mdv_2pset_get true o id restore in
  clean (enter o) l
  /\ (r = None \/ r = (if is_some (removed (dbl (enter o)) !! id) then None else objects (dbl (enter o)) !! id ≫= restore)).
Proof.
  intros Hb Hk. pose proof (set_opened o MDV_MAP_SILENT Hb) as Hop. unfold mdv_2pset_get. cbv zeta in *.
  set (l1 := start (enter o)) in *. set (l2 := open_map l1 _ _) in *. set (l3 := open_rem l2 _ _) in *.
  destruct (mdv_transaction_ok (l_txn l1)); cbn [negb] in *; [|by auto].
  destruct (mdv_map_ok (l_map l2)); cbn [negb] in *; [|by auto].
  destruct (mdv_map_ok (l_rem l3)); cbn [negb] in *; [|by auto].
  destruct Hop as (t & Hr & Hv & _). rewrite (deleted_ready _ _ _ _ Hr Hk), (get_ready l3 t _ MDV_MAP_OBJECTS) by (done || apply Hr).
  rewrite Hv. fold (prepared (dbl (enter o))). unfold lookup2. rewrite prepared_removed, prepared_objects. simpl.
  assert (Hc : forall l, clean l3 l -> clean (enter o) l) by (intros l; apply set_clean_trans; [apply Hr|apply Hr]).
  destruct (removed (dbl (enter o)) !! id); simpl; [split; [apply Hc, clean_rollback, Hr|by auto]|].
  destruct (objects (dbl (enter o)) !! id); simpl; (split; [|by auto]); apply Hc; [apply clean_end, Hr|apply clean_rollback, Hr].
Qed.

(** ** When no call fails *)

Section Reliable.
Context `{!MdbReliable}.

Lemma set_start_reliable l : mdv_transaction_ok (l_txn (start l)) = true.
Proof.
  unfold start, mdv_transaction_start. pose proof (begin_reliable (s_env (storage l))) as Hr.
  pose proof (begin_spec (s_env (storage l))) as Hs. destruct (mdb_txn_begin _) as [[e rc] t]. simpl in Hr. subst rc.
  destruct Hs as [_ Hs]. destruct (Hs eq_refl) as (t' & -> & _). done.
Qed.

Lemma map_open_reliable (s : mdv_lmdb) (t : mdv_transaction) name flags txn :
  t_txn t = Some txn -> t_storage t = true -> is_Some (view txn !! name) \/ Z.land (map_flags flags) MDB_CREATE <> 0%Z ->
  mdv_map_ok (snd (mdv_map_open s t name flags)) = true.
Proof.
  intros Et Hst Hopen. unfold mdv_map_open. rewrite Et.
  pose proof (dbi_open_spec txn name (map_flags flags)) as Hs. pose proof (open_reliable _ _ _ Hopen) as Hr.
  destruct (mdb_dbi_open txn name (map_flags flags)) as [[txn' rc] d]. simpl in Hr. subst rc.
  rewrite decide_True in Hs by done. destruct Hs as [Hd _]. unfold mdv_map_ok. simpl. rewrite Hst. simpl.
  by rewrite (proj2 (Z.eqb_neq d 0)).
Qed.

Lemma commit_reliably l txn : t_txn (l_txn l) = Some txn -> snd (commit l) = true.
Proof.
  intros Et. unfold commit, mdv_transaction_commit. rewrite Et. pose proof (commit_reliable (s_env (storage l)) txn) as Hr.
  destruct (mdb_txn_commit _ _) as [e rc]. simpl in *. by subst rc.
Qed.

Lemma set_open_map_reliable l name flags txn :
  balanced n l -> t_txn (l_txn l) = Some txn -> is_Some (view txn !! name) \/ Z.land (map_flags flags) MDB_CREATE <> 0%Z ->
  mdv_map_ok (l_map (open_map l name flags)) = true /\ mdv_map_ok (l_rem (open_rem l name flags)) = true.
Proof.
  intros Hb Et Ho. pose proof (b_txn _ _ Hb) as Ht. unfold mdv_transaction_ok in Ht. rewrite Et in Ht.
  pose proof (map_open_reliable (storage l) (l_txn l) name flags txn Et Ht Ho) as Hm. unfold open_map, open_rem.
  by destruct (mdv_map_open _ _ _ _) as [[s' t'] m].
Qed.

(** All three steps succeed when the maps exist or may be created. *)
Lemma set_opened_reliable o flags :
  balanced n (enter o) ->
  is_Some (dbl (enter o) !! MDV_MAP_OBJECTS) /\ is_Some (dbl (enter o) !! MDV_MAP_REMOVED) \/ Z.land (map_flags flags) MDB_CREATE <> 0%Z ->
  let l1 := start (enter o) in
  let l2 := open_map l1 MDV_MAP_OBJECTS flags in
  let l3 := open_rem l2 MDV_MAP_REMOVED flags in
  mdv_transaction_ok (l_txn l1) = true /\ mdv_map_ok (l_map l2) = true /\ mdv_map_ok (l_rem l3) = true.
Proof.
  intros Hb Ho l1 l2 l3. pose proof (set_start_reliable (enter o)) as E1. fold l1 in E1.
  destruct (set_start_ok _ Hb eq_refl) as (B1 & D1 & G1 & M1 & R1 & V1). fold l1 in B1, D1, M1, R1, V1.
  destruct (txn_some _ E1) as (t1 & Et1). rewrite Et1 in V1.
  destruct (set_open_map_reliable l1 MDV_MAP_OBJECTS flags t1 B1 Et1) as [E2 _]; [rewrite V1; tauto|]. fold l2 in E2.
  destruct (set_open_map_ok l1 MDV_MAP_OBJECTS flags t1 B1 Et1) as (B2 & D2 & G2 & R2 & t2 & Et2 & H2 & V2); [by rewrite M1|].
  fold l2 in B2, Et2, V2. rewrite (b_map _ _ B2), E2 in V2. destruct V2 as (_ & V2 & _).
  destruct (set_open_map_reliable l2 MDV_MAP_REMOVED flags t2 B2 Et2) as [_ E3]; [|done].
  rewrite V2, V1, ensure_lookup, decide_False by done. tauto.
Qed.

Lemma get_reliable {R} o id (restore : bytes -> option R) :
  balanced n (enter o) -> valid_key id ->
  is_Some (dbl (enter o) !! MDV_MAP_OBJECTS) -> is_Some (dbl (enter o) !! MDV_MAP_REMOVED) ->
  snd (mdv_2pset_get true o id restore)
  = if is_some (removed (dbl (enter o)) !! id) then None else objects (dbl (enter o)) !! id ≫= restore.
Proof.
  intros Hb Hk Hobj Hrem. destruct (set_opened_reliable o MDV_MAP_SILENT Hb) as (E1 & E2 & E3); [by left|].
  pose proof (set_opened o MDV_MAP_SILENT Hb) as Hop. unfold mdv_2pset_get. cbv zeta in *.
  rewrite E1, E2, E3 in Hop |- *. cbn [negb] in *. set (l3 := open_rem _ _ _) in *.
  destruct Hop as (t & Hr & Hv & _). rewrite (deleted_ready _ _ _ _ Hr Hk), (get_ready l3 t _ MDV_MAP_OBJECTS) by (done || apply Hr).
  rewrite Hv. fold (prepared (dbl (enter o))). unfold lookup2. rewrite prepared_removed, prepared_objects. simpl.
  destruct (removed (dbl (enter o)) !! id); simpl; [done|]. by destruct (objects (dbl (enter o)) !! id).
Qed.

Lemma add_reliable o id obj : balanced n (enter o) -> snd (mdv_2pset_add true o id obj) = MDV_OK.
Proof.
  intros Hb. destruct (set_opened_reliable o MDV_MAP_CREATE Hb) as (E1 & E2 & E3); [by right|].
  pose proof (set_opened o MDV_MAP_CREATE Hb) as Hop. unfold mdv_2pset_add. cbv zeta in *.
  rewrite E1, E2, E3 in Hop |- *. cbn [negb] in *. set (l3 := open_rem _ _ _) in *. destruct Hop as (t & Hr & _).
  destruct (negb _); [|done]. unfold mdv_map_put_unique, mdv_map_put_impl. rewrite (rd_txn _ _ _ Hr).
  destruct (mdb_put _ _ _ _ _) as [t' rc]. cbv beta iota zeta.
  destruct (commit _) as [l4 ok] eqn:Ec. apply (f_equal snd) in Ec. rewrite (commit_reliably _ t') in Ec by done.
  simpl in Ec. by subst ok.
Qed.

(** A successful addition leaves both maps in place. *)
Lemma add_stored `{!MdbRoom} o id obj :
  balanced n (enter o) -> valid_key id -> removed (dbl (enter o)) !! id = None ->
  let '(l, err) := mdv_2pset_add true o id obj in
  err = MDV_OK /\ balanced n l /\ idle l
  /\ dbl l !! MDV_MAP_OBJECTS = Some (objects (dbl (enter o)) ∪ {[id := obj]})
  /\ dbl l !! MDV_MAP_REMOVED = Some (removed (dbl (enter o))).
Proof.
  intros Hb Hk Hrem. destruct (set_opened_reliable o MDV_MAP_CREATE Hb) as (E1 & E2 & E3); [by right|].
  pose proof (set_opened o MDV_MAP_CREATE Hb) as Hop. unfold mdv_2pset_add. cbv zeta in *.
  rewrite E1, E2, E3 in Hop |- *. cbn [negb] in *. set (l3 := open_rem _ _ _) in *. destruct Hop as (t & Hr & Hv & _).
  rewrite (deleted_ready _ _ _ _ Hr Hk), Hv. fold (prepared (dbl (enter o))). unfold lookup2. rewrite prepared_removed. simpl.
  rewrite Hrem. simpl. pose proof (put_unique_ready _ _ _ _ obj Hr Hk) as Hput.
  destruct (mdv_map_put_unique _ _ _ _) as [t' ok]. destruct Hput as (txn' & Hr' & Hv' & _).
  pose proof (set_commit_ok _ (rd_bal _ _ _ Hr')) as Hc. pose proof (commit_reliably _ txn' (rd_txn _ _ _ Hr')) as Hok.
  destruct (commit _) as [l4 ok']. simpl in Hok. subst ok'. destruct Hc as (B4 & G4 & T4 & M4 & R4 & t4 & Et4 & D4).
  rewrite (rd_txn _ _ _ Hr') in Et4. injection Et4 as <-. cbn [negb].
  destruct (clean_committed l4 B4 T4) as (?&?&Hd&Hg). rewrite Hd, D4, Hv', Hv. fold (prepared (dbl (enter o))). unfold store.
  split_and!; try done; [by rewrite lookup_alter, prepared_objects|by rewrite lookup_alter_ne, prepared_removed by done].
Qed.

(** A batch with a new object, and no removed one, is stored. *)
Lemma batch_stored `{!MdbRoom} o items :
  balanced n (enter o) -> Forall (fun x => valid_key x.1) items -> Forall (fun x => removed (dbl (enter o)) !! x.1 = None) items ->
  Exists (fun x => objects (dbl (enter o)) !! x.1 = None) items ->
  let '(l, err) := mdv_2pset_add_batch true o items in
  err = MDV_OK /\ balanced n l /\ idle l
  /\ dbl l !! MDV_MAP_OBJECTS = Some (store_all items (objects (dbl (enter o))))
  /\ dbl l !! MDV_MAP_REMOVED = Some (removed (dbl (enter o))).
Proof.
  intros Hb Hk Hrem Hnew. destruct (set_opened_reliable o MDV_MAP_CREATE Hb) as (E1 & E2 & E3); [by right|].
  pose proof (set_opened o MDV_MAP_CREATE Hb) as Hop. unfold mdv_2pset_add_batch. cbv zeta in *.
  rewrite E1, E2, E3 in Hop |- *. cbn [negb] in *. set (l3 := open_rem _ _ _) in *. destruct Hop as (t & Hr & Hv & _).
  fold (prepared (dbl (enter o))) in Hv. pose proof (batch_loop_ready items _ _ _ false Hr Hk) as Hl.
  destruct (batch_loop _ _ _) as [l4 c]. destruct Hl as (t' & Hr' & Hv' & Hc).
  { eapply Forall_impl; [exact Hrem|]. intros x Hx. unfold lookup2. by rewrite Hv, prepared_removed. }
  assert (c = true) as ->.
  { rewrite Hc. cbn [orb]. apply existsb_exists. apply Exists_exists in Hnew as (x & Hx & Hn'). exists x.
    split; [by apply list_elem_of_In|]. unfold lookup2. rewrite Hv, prepared_objects. simpl. by rewrite Hn'. }
  pose proof (set_commit_ok _ (rd_bal _ _ _ Hr')) as Hcm. pose proof (commit_reliably _ t' (rd_txn _ _ _ Hr')) as Hok.
  destruct (commit _) as [l5 ok]. simpl in Hok. subst ok. destruct Hcm as (B5 & G5 & T5 & M5 & R5 & t5 & Et5 & D5).
  rewrite (rd_txn _ _ _ Hr') in Et5. injection Et5 as <-. cbn [negb].
  destruct (clean_committed l5 B5 T5) as (?&?&Hd&Hg). rewrite Hd, D5, Hv', Hv.
  split_and!; try done; [by rewrite lookup_alter, prepared_objects|by rewrite lookup_alter_ne, prepared_removed by done].
Qed.

(** A batch without a removed object is stored, whether there is a new object in it
    or not. *)
Lemma batch_total `{!MdbRoom} o items :
  balanced n (enter o) -> Forall (fun x => valid_key x.1) items -> Forall (fun x => removed (dbl (enter o)) !! x.1 = None) items ->
  let '(l, err) := mdv_2pset_add_batch true o items in
  err = MDV_OK /\ balanced n l /\ idle l /\ gen l = gen (enter o)
  /\ updated (dbl (enter o)) (dbl l) (store_all items (objects (dbl (enter o)))).
Proof.
  intros Hb Hk Hrem. destruct (set_opened_reliable o MDV_MAP_CREATE Hb) as (E1 & E2 & E3); [by right|].
  pose proof (set_opened o MDV_MAP_CREATE Hb) as Hop. unfold mdv_2pset_add_batch. cbv zeta in *.
  rewrite E1, E2, E3 in Hop |- *. cbn [negb] in *. set (l3 := open_rem _ _ _) in *. destruct Hop as (t & Hr & Hv & _).
  fold (prepared (dbl (enter o))) in Hv. pose proof (batch_end_ready o items l3 t Hr Hv Hk Hrem) as Hend. unfold batch_end in Hend. destruct (batch_loop items l3 false) as [l4 c] eqn:El.
  destruct c; [|destruct Hend as (? & ? & ? & [[? _]|[_ ?]]); done].
  destruct (commit l4) as [l5 ok] eqn:Ec. destruct ok; cbn [negb] in *; [destruct Hend as (? & ? & ? & [[? _]|[_ ?]]); done|].
  pose proof (batch_loop_ready items _ _ _ false Hr Hk) as Hl. rewrite El in Hl. destruct Hl as (t' & Hr' & _).
  { eapply Forall_impl; [exact Hrem|]. intros x Hx. unfold lookup2. by rewrite Hv, prepared_removed. }
  pose proof (commit_reliably _ t' (rd_txn _ _ _ Hr')) as Hok. by rewrite Ec in Hok.
Qed.

End Reliable.

(** ** The generator of identifiers *)

Definition gen_id (d : database) : option bytes := lookup2 d MDV_MAP_IDGEN MDV_OBJECTS_IDGEN.

Lemma idgen_key : valid_key MDV_OBJECTS_IDGEN.
Proof. unfold valid_key. simpl. lia. Qed.

Lemma set_locked_balanced l b : balanced n l -> balanced n (set_locked l b).
Proof. intros [H1 H2 H3 H4 H5]. by split. Qed.

(** A rollback of the reservation: the map, the transaction, the mutex. *)
Lemma reserve_rollback l0 l :
  balanced n l -> m_storage (l_rem l) = false -> dbl l = dbl l0 -> gen l = gen l0 ->
  let l' := set_locked (abort (close_map l)) false in
  balanced n l' /\ idle l' /\ dbl l' = dbl l0 /\ o_locked (l_objs l') = false /\ o_idgen (l_objs l') = o_idgen (l_objs l0).
Proof.
  intros Hb Hr Hd Hg. destruct (clean_rollback_map l Hb Hr) as (B & I & D & G). unfold gen in *.
  split_and!; [by apply set_locked_balanced|done|by unfold dbl in *; simpl; congruence|done|simpl; congruence].
Qed.

(** The state after a successful reservation, or that of a failed one. *)
Definition reserved (o : mdv_2pset) (range : Z) (l : locals) (err : mdv_errno) (id : option Z) : Prop :=
  balanced n l /\ idle l /\ o_locked (l_objs l) = false
  /\ (err = MDV_FAILED /\ id = None /\ dbl l = dbl (enter o) /\ o_idgen (l_objs l) = o_idgen o
      \/ err = MDV_OK /\ id = Some (o_idgen o) /\ o_idgen (l_objs l) = u64 (o_idgen o + range)
        /\ gen_id (dbl l) = Some (to_le 8 (u64 (o_idgen o + range)))
        /\ (forall name, name <> MDV_MAP_IDGEN -> dbl l !! name = dbl (enter o) !! name)).

(** The end of the reservation, with the map of the generator open. *)
Definition reserve_tail (l : locals) (range : Z) : locals * mdv_errno * option Z :=
  let new_id := u64 (o_idgen (l_objs l) + range) in
  let '(t, ok) := mdv_map_put (l_map l) (l_txn l) MDV_OBJECTS_IDGEN (to_le 8 new_id) in
  let l := mk_locals (l_objs l) t (l_map l) (l_rem l) in
  if negb ok then (set_locked (abort (close_map l)) false, MDV_FAILED, None) else
  let '(l, ok) := commit l in
  if negb ok then (set_locked (abort (close_map l)) false, MDV_FAILED, None) else
  let id := o_idgen (l_objs l) in
  let l := mk_locals (mk_2pset (storage l) (o_locked (l_objs l)) new_id) (l_txn l) (l_map l) (l_rem l) in
  (set_locked (close_map l) false, MDV_OK, Some id).

Lemma reserve_failed o range l0 l :
  l0 = set_locked (enter o) true -> balanced n l -> m_storage (l_rem l) = false -> dbl l = dbl l0 -> gen l = gen l0 ->
  reserved o range (set_locked (abort (close_map l)) false) MDV_FAILED None.
Proof.
  intros -> H1 H2 H3 H4. destruct (reserve_rollback _ l H1 H2 H3 H4) as (?&?&?&?&?). unfold reserved. split_and!; auto.
Qed.

Lemma reserve_write o range l0 l2 t2 :
  l0 = set_locked (enter o) true -> balanced n l2 -> m_storage (l_rem l2) = false -> dbl l2 = dbl l0 -> gen l2 = gen l0 ->
  t_txn (l_txn l2) = Some t2 -> handle t2 (m_dbmap (l_map l2)) = Some MDV_MAP_IDGEN -> view t2 = ensure MDV_MAP_IDGEN (dbl l0) ->
  let '(l, err, id) := reserve_tail l2 range in reserved o range l err id.
Proof.
  intros E0 B2 R2 D2 G2 Et2 Hh2 V2. unfold reserve_tail. cbv zeta.
  assert (Hid : o_idgen (l_objs l2) = o_idgen o) by (subst l0; unfold gen in *; simpl in *; congruence). rewrite Hid.
  unfold mdv_map_put, mdv_map_put_impl. rewrite Et2. set (new := u64 _).
  pose proof (put_spec t2 _ _ MDV_OBJECTS_IDGEN (to_le 8 new) 0 Hh2 idgen_key) as Hp.
  destruct (mdb_put _ _ _ _ _) as [t3 rc]. destruct Hp as (_ & V3 & _). cbv beta iota zeta. set (l3 := mk_locals (l_objs l2) _ _ _).
  assert (B3 : balanced n l3).
  { pose proof (b_txn _ _ B2) as Ht. unfold mdv_transaction_ok in Ht. rewrite Et2 in Ht. destruct B2 as [Q1 Q2 Q3 Q4 Q5].
    unfold l3. rewrite Ht. split; simpl; try done. rewrite Q1. unfold held. simpl. by rewrite Ht. }
  destruct (Z.eqb_spec rc MDB_SUCCESS) as [->|Hne]; cbn [negb]; [|by eapply (reserve_failed o range l0 l3)].
  rewrite decide_True in V3 by done. pose proof (set_commit_ok l3 B3) as Hc. destruct (commit l3) as [l4 ok].
  destruct Hc as (B4 & G4 & T4 & M4 & R4 & D4).
  destruct ok; cbn [negb]; [|by eapply (reserve_failed o range l0 l4); [done..|rewrite R4|rewrite D4|rewrite G4]].
  destruct D4 as (t4 & Et4 & D4). injection Et4 as <-.
  set (l5 := mk_locals _ _ _ _). assert (B5 : balanced n l5) by (destruct B4 as [Q1 Q2 Q3 Q4 Q5]; by split).
  destruct (set_close_map_ok l5 B5) as (B6 & D6 & G6 & M6 & T6 & R6).
  assert (Hd : dbl (set_locked (close_map l5) false) = alter (fun m => <[MDV_OBJECTS_IDGEN := to_le 8 new]> m) MDV_MAP_IDGEN (view t2)).
  { rewrite <- V3, <- D4. exact D6. }
  unfold reserved. rewrite Hd, V2. split_and!; [by apply set_locked_balanced| |done|].
  - unfold idle. simpl. rewrite T6, R6. simpl. by rewrite R4.
  - right. unfold gen in *. simpl in *. split_and!; try done; [f_equal; congruence|by injection G6 as _ ->| |].
    + unfold gen_id, lookup2. rewrite lookup_alter_eq, ensure_lookup, decide_True by done. simpl. by rewrite lookup_insert_eq.
    + intros name Hname. rewrite lookup_alter_ne, ensure_lookup, decide_False by done. by subst l0.
Qed.

Lemma reserve_runs o range :
  balanced n (enter o) ->
  let '(l, err, id) := mdv_2pset_reserve_ids_range MDV_OK true o range in reserved o range l err id.
Proof.
  intros Hb. unfold mdv_2pset_reserve_ids_range. rewrite decide_False by auto. cbv zeta.
  set (l0 := set_locked (enter o) true). pose proof (set_locked_balanced _ true Hb) as B0. fold l0 in B0.
  destruct (set_start_ok l0 B0 eq_refl) as (B1 & D1 & G1 & M1 & R1 & V1). set (l1 := start l0) in *.
  assert (Hclosed : forall l, balanced n l -> m_storage (l_map l) = false -> close_map l = l).
  { intros l H1 H2. unfold close_map, mdv_map_close. rewrite H2. by destruct l as [[]]. }
  destruct (mdv_transaction_ok (l_txn l1)) eqn:E1; cbn [negb].
  2: { replace (rollback _ l1) with (set_locked (abort (close_map l1)) false);
         [apply (reserve_failed o range l0 l1); try done; by rewrite R1|].
       rewrite Hclosed by (done || by rewrite M1). rewrite abort_dead; [done|].
       unfold mdv_transaction_ok in E1. by destruct (t_txn (l_txn l1)). }
  destruct (txn_some _ E1) as (t1 & Et1). rewrite Et1 in V1.
  destruct (set_open_map_ok l1 MDV_MAP_IDGEN (Z.lor MDV_MAP_INTEGERKEY MDV_MAP_CREATE) t1 B1 Et1)
    as (B2 & D2 & G2 & R2 & t2 & Et2 & H2 & V2); [by rewrite M1|]. set (l2 := open_map _ _ _) in *.
  rewrite <- (b_map _ _ B2). destruct (m_storage (l_map l2)) eqn:E2; cbn [negb].
  2: { replace (rollback _ l2) with (set_locked (abort (close_map l2)) false);
         [apply (reserve_failed o range l0 l2); try done; [by rewrite R2, R1|congruence..]|].
       by rewrite (Hclosed l2) by done. }
  destruct V2 as (Hh2 & V2 & _). rewrite V1 in V2.
  exact (reserve_write o range l0 l2 t2 eq_refl B2 ltac:(by rewrite R2, R1) ltac:(congruence) ltac:(congruence) Et2 Hh2 V2).
Qed.

(** With a reliable storage the identifiers are reserved. *)
Lemma reserve_reliable `{!MdbReliable, !MdbRoom} o range :
  balanced n (enter o) -> (mdv_2pset_reserve_ids_range MDV_OK true o range).1.2 = MDV_OK.
Proof.
  intros Hb. unfold mdv_2pset_reserve_ids_range. rewrite decide_False by auto. cbv zeta. set (l0 := set_locked (enter o) true).
  pose proof (set_locked_balanced _ true Hb) as B0. fold l0 in B0. destruct (set_start_ok l0 B0 eq_refl) as (B1 & _ & _ & M1 & _).
  pose proof (set_start_reliable l0) as E1. set (l1 := start l0) in *. rewrite E1. cbn [negb]. destruct (txn_some _ E1) as (t1 & Et1).
  destruct (set_open_map_reliable l1 MDV_MAP_IDGEN (Z.lor MDV_MAP_INTEGERKEY MDV_MAP_CREATE) t1 B1 Et1 ltac:(by right)) as [E2 _].
  destruct (set_open_map_ok l1 MDV_MAP_IDGEN (Z.lor MDV_MAP_INTEGERKEY MDV_MAP_CREATE) t1 B1 Et1) as (B2 & _ & _ & _ & t2 & Et2 & _ & V2); [by rewrite M1|].
  set (l2 := open_map _ _ _) in *. rewrite E2. cbn [negb]. rewrite (b_map _ _ B2), E2 in V2. destruct V2 as (Hh & _).
  unfold mdv_map_put, mdv_map_put_impl. rewrite Et2. set (v := to_le 8 _). pose proof (put_room t2 (m_dbmap (l_map l2)) MDV_MAP_IDGEN MDV_OBJECTS_IDGEN v 0 Hh idgen_key) as Hp.
  destruct (mdb_put _ _ _ _ _) as [t3 rc]. cbn [snd] in Hp. destruct Hp as [-> |(_ & _ & Hx)]; [|done]. cbn [negb Z.eqb MDB_SUCCESS].
  set (l3 := mk_locals _ _ _ _). pose proof (commit_reliably l3 t3 eq_refl) as Hok. destruct (commit l3) as [l4 ok]. cbn [snd] in Hok. by subst ok.
Qed.

(** The value the generator starts from. *)
Lemma idgen_init_reliable `{!MdbReliable} o :
  balanced n (enter o) ->
  let '(l, ok) := mdv_objects_idgen_init true o in
  ok = true /\ balanced n l /\ idle l /\ dbl l = dbl (enter o)
  /\ o_idgen (l_objs l) = match gen_id (dbl (enter o)) with Some v => of_le (take 8 v) | None => 0%Z end.
Proof.
  intros Hb0. unfold mdv_objects_idgen_init. cbv zeta. set (l0 := enter _).
  assert (Hb : balanced n l0) by (destruct Hb0 as [Q1 Q2 Q3 Q4 Q5]; by split).
  destruct (set_start_ok l0 Hb eq_refl) as (B1 & D1 & G1 & M1 & R1 & V1).
  pose proof (set_start_reliable l0) as E1. set (l1 := start l0) in *. rewrite E1. cbn [negb].
  destruct (txn_some _ E1) as (t1 & Et1). rewrite Et1 in V1.
  destruct (set_open_map_ok l1 MDV_MAP_IDGEN (Z.lor MDV_MAP_INTEGERKEY MDV_MAP_SILENT) t1 B1 Et1)
    as (B2 & D2 & G2 & R2 & t2 & Et2 & H2 & V2); [by rewrite M1|].
  pose proof (set_open_map_reliable l1 MDV_MAP_IDGEN (Z.lor MDV_MAP_INTEGERKEY MDV_MAP_SILENT) t1 B1 Et1) as Hopen.
  set (l2 := open_map _ _ _) in *. rewrite <- (b_map _ _ B2) in Hopen |- *. change (dbl (enter o)) with (dbl l0).
  assert (Hdb : dbl l2 = dbl l0) by congruence.
  assert (Hid : o_idgen (l_objs l2) = 0%Z) by (unfold gen in *; simpl in *; congruence).
  destruct (m_storage (l_map l2)) eqn:E2; cbn [negb].
  - destruct V2 as (Hh2 & V2 & C2). specialize (C2 eq_refl). rewrite (get_ready l2 t2 _ MDV_MAP_IDGEN) by (done || apply idgen_key).
    assert (Hv : lookup2 (view t2) MDV_MAP_IDGEN MDV_OBJECTS_IDGEN = gen_id (dbl l0)).
    { unfold gen_id, lookup2. rewrite V2, ensure_lookup, decide_True, V1 by done. rewrite V1 in C2. destruct C2 as [m ->]. done. }
    rewrite Hv. destruct (gen_id (dbl l0)) as [v|].
    + set (l3 := mk_locals _ _ _ _). assert (B3 : balanced n l3) by (destruct B2 as [Q1 Q2 Q3 Q4 Q5]; by split).
      destruct (set_abort_ok l3 B3) as (B4 & D4 & G4 & T4 & M4 & R4). destruct (set_close_map_ok _ B4) as (B5 & D5 & G5 & M5 & T5 & R5).
      split_and!; try done; [unfold idle; split_and!; [congruence|done|rewrite R5, R4; simpl; by rewrite R2, R1]|
        rewrite D5, D4; exact Hdb|unfold gen in *; simpl in *; congruence].
    + change (rollback _ l2) with (abort (close_map l2)).
      destruct (clean_rollback_map l2 B2) as (B & I & D & G); [by rewrite R2, R1|].
      split_and!; try done; [congruence|unfold gen in *; simpl in *; congruence].
  - change (rollback _ l2) with (abort l2).
    destruct (clean_rollback_txn l2 B2 E2) as (B & I & D & G); [by rewrite R2, R1|].
    assert (Hnone : gen_id (dbl l0) = None).
    { unfold gen_id, lookup2. destruct (dbl l0 !! MDV_MAP_IDGEN) eqn:E; [|done]. exfalso.
      destruct Hopen as [? _]; [left; by rewrite V1, E|done]. }
    rewrite Hnone. split_and!; try done; [congruence|unfold gen in *; simpl in *; congruence].
Qed.

End Balance.

(** ** Theorems *)

Section Theorems.
Context (o : mdv_2pset) (n : Z) (Hn : (1 <= n < 2 ^ 32 - 4)%Z).
Context (Hrefs : s_refs (o_storage o) = n) (Hopen : s_open (o_storage o) = true).

(** The data committed in the storage of the set. *)
Definition data_of (p : mdv_2pset) : database := db (s_env (o_storage p)).

(** C23: [mdv_2pset_add] is one transaction of a two-phase set: it fails and
    leaves the data as they were, or it succeeds and the object is stored
    under its identifier unless the identifier is taken (the first object
    stays) or was removed (then nothing changes).  No reference to the storage
    and no transaction or map is left open on any path, and the generator is
    untouched.  When no call of the storage fails it succeeds. *)
Theorem mdv_2pset_add_correct `{!MdbRoom} id obj :
  valid_key id ->
  let '(l, err) := mdv_2pset_add true o id obj in
  s_refs (o_storage (l_objs l)) = n /\ s_open (o_storage (l_objs l)) = true /\ idle l
  /\ (err = MDV_FAILED /\ data_of (l_objs l) = data_of o
      \/ err = MDV_OK /\ updated (data_of o) (data_of (l_objs l))
           (if is_some (removed (data_of o) !! id) then objects (data_of o) else objects (data_of o) ∪ {[id := obj]}))
  /\ (MdbReliable -> err = MDV_OK).
Proof.
  intros Hk. pose proof (set_balanced_enter n o Hrefs Hopen) as Hb. pose proof (set_add_runs n Hn o id obj Hb Hk) as Hr.
  assert (Hrel : MdbReliable -> snd (mdv_2pset_add true o id obj) = MDV_OK) by (intros ?; by eapply add_reliable).
  destruct (mdv_2pset_add true o id obj) as [l err]. destruct Hr as (B & I & _ & D). split_and!; try done; [|apply B].
  rewrite (b_refs _ _ B). destruct I as (I1 & I2 & I3). unfold held. rewrite I1, I2, I3. simpl. lia.
Qed.

(** A batch without removed identifiers is stored as a whole, each object
    under its identifier unless it is taken, or not at all.  A batch that holds
    a removed identifier stores nothing: the loop aborts the transaction at
    that identifier, and also the objects before and after it are lost. *)
Theorem mdv_2pset_add_batch_correct `{!MdbRoom} items :
  Forall (fun x => valid_key x.1) items ->
  let '(l, err) := mdv_2pset_add_batch true o items in
  s_refs (o_storage (l_objs l)) = n /\ idle l
  /\ (Forall (fun x => removed (data_of o) !! x.1 = None) items ->
      err = MDV_FAILED /\ data_of (l_objs l) = data_of o
      \/ err = MDV_OK /\ updated (data_of o) (data_of (l_objs l)) (store_all items (objects (data_of o))))
  /\ (Exists (fun x => is_Some (removed (data_of o) !! x.1)) items -> data_of (l_objs l) = data_of o).
Proof.
  intros Hk. pose proof (set_balanced_enter n o Hrefs Hopen) as Hb.
  assert (Hidle : forall l, balanced n l -> idle l -> s_refs (o_storage (l_objs l)) = n).
  { intros l B (I1 & I2 & I3). rewrite (b_refs _ _ B). unfold held. rewrite I1, I2, I3. simpl. lia. }
  destruct (decide (Forall (fun x => removed (data_of o) !! x.1 = None) items)) as [Hall|Hsome].
  - pose proof (batch_runs n Hn o items _ Hb (fun l t Hr Hv => batch_end_ready n Hn o items l t Hr Hv Hk Hall)) as Hr.
    destruct (mdv_2pset_add_batch true o items) as [l err]. destruct Hr as (B & I & _ & D). split_and!; auto.
    intros (x & Hx & [w Hw])%Exists_exists. by rewrite (proj1 (Forall_forall _ _) Hall x Hx) in Hw.
  - assert (Hex : Exists (fun x => is_Some (removed (data_of o) !! x.1)) items).
    { apply not_Forall_Exists in Hsome; [|apply _]. eapply Exists_impl; [exact Hsome|]. intros x Hx.
      apply not_eq_None_Some. exact Hx. }
    pose proof (batch_runs n Hn o items _ Hb (fun l t Hr Hv => batch_end_removed n Hn o items l t Hr Hv Hk Hex)) as Hr.
    destruct (mdv_2pset_add_batch true o items) as [l err]. destruct Hr as (B & I & _ & D). split_and!; auto; [done|].
    destruct D as [[_ D]|[_ D]]; auto.
Qed.

(** What was added is read back.  When no call of the storage fails, the
    addition succeeds and a read of any identifier then restores the object
    that was stored first under it, or the added one, and gives null for an
    identifier that is removed or unknown; the read changes nothing and leaves
    nothing open. *)
Theorem mdv_2pset_add_get `{!MdbRoom, !MdbReliable} {R} id obj id' (restore : bytes -> option R) :
  valid_key id -> valid_key id' -> removed (data_of o) !! id = None ->
  let '(l, err) := mdv_2pset_add true o id obj in
  let '(l', r) := mdv_2pset_get true (l_objs l) id' restore in
  err = MDV_OK /\ data_of (l_objs l') = data_of (l_objs l) /\ s_refs (o_storage (l_objs l')) = n /\ idle l'
  /\ r = (if is_some (removed (data_of o) !! id') then None else (objects (data_of o) ∪ {[id := obj]}) !! id' ≫= restore).
Proof.
  intros Hk Hk' Hrem. pose proof (set_balanced_enter n o Hrefs Hopen) as Hb.
  pose proof (add_stored n Hn o id obj Hb Hk Hrem) as Hadd. destruct (mdv_2pset_add true o id obj) as [l err].
  destruct Hadd as (-> & B & I & Ho & Hr). change (dbl (enter o)) with (data_of o) in *.
  assert (Hb' : balanced n (enter (l_objs l))).
  { apply set_balanced_enter; [|apply B]. rewrite (b_refs _ _ B). destruct I as (I1 & I2 & I3). unfold held. rewrite I1, I2, I3. simpl. lia. }
  pose proof (get_runs n Hn (l_objs l) id' restore Hb' Hk') as Hget.
  pose proof (get_reliable n Hn (l_objs l) id' restore Hb' Hk') as Hval. change (dbl (enter (l_objs l))) with (dbl l) in *.
  rewrite Ho, Hr in Hval. specialize (Hval ltac:(eauto) ltac:(eauto)).
  destruct (mdv_2pset_get true (l_objs l) id' restore) as [l' r]. destruct Hget as ((B' & I' & D' & _) & _). simpl in Hval.
  split_and!; try done.
  - rewrite (b_refs _ _ B'). destruct I' as (I1 & I2 & I3). unfold held. rewrite I1, I2, I3. simpl. lia.
  - rewrite Hval. assert (objects (dbl l) = objects (data_of o) ∪ {[id := obj]}) as -> by (unfold objects at 1; by rewrite Ho).
    assert (removed (dbl l) = removed (data_of o)) as -> by (unfold removed at 1; by rewrite Hr). done.
Qed.

(** Reserving a range of identifiers returns the first of them and moves
    the generator past the range, in memory and in the storage, so that a set
    opened later on the same data continues after it; a failed reservation
    changes neither.  The mutex is released, and nothing is left open. *)
Theorem mdv_2pset_reserve_ids_range_correct range :
  let '(l, err, id) := mdv_2pset_reserve_ids_range MDV_OK true o range in
  s_refs (o_storage (l_objs l)) = n /\ idle l /\ o_locked (l_objs l) = false
  /\ (err = MDV_FAILED /\ id = None /\ data_of (l_objs l) = data_of o /\ o_idgen (l_objs l) = o_idgen o
      \/ err = MDV_OK /\ id = Some (o_idgen o) /\ o_idgen (l_objs l) = u64 (o_idgen o + range)
        /\ (forall name, name <> MDV_MAP_IDGEN -> data_of (l_objs l) !! name = data_of o !! name)
        /\ (MdbReliable -> exists o' s, mdv_2pset_open true true true (Some (o_storage (l_objs l))) MDV_OK = (Some o', [], s)
             /\ o_idgen o' = u64 (o_idgen o + range))).
Proof.
  pose proof (set_balanced_enter n o Hrefs Hopen) as Hb. pose proof (reserve_runs n Hn o range Hb) as Hr.
  destruct (mdv_2pset_reserve_ids_range MDV_OK true o range) as [[l err] id]. destruct Hr as (B & I & L & D).
  assert (Hrf : s_refs (o_storage (l_objs l)) = n).
  { rewrite (b_refs _ _ B). destruct I as (I1 & I2 & I3). unfold held. rewrite I1, I2, I3. simpl. lia. }
  split_and!; try done. destruct D as [D|(-> & -> & Hid & Hgen & Hsame)]; [by left|right]. split_and!; try done. intros ?.
  pose proof (idgen_init_reliable n Hn (mk_2pset (o_storage (l_objs l)) false 0)) as Hi. unfold mdv_2pset_open. simpl.
  destruct (mdv_objects_idgen_init true _) as [l' ok].
  destruct Hi as (-> & _ & _ & _ & Hi); [by apply set_balanced_enter; [|apply B]|]. simpl. do 2 eexists. split; [done|]. rewrite Hi.
  change (dbl (enter (mk_2pset (o_storage (l_objs l)) false 0))) with (dbl l). rewrite Hgen.
  rewrite firstn_all2 by (rewrite length_to_le; lia). apply of_to_le_id. apply (wrap_fits 64). lia.
Qed.

End Theorems.
End Pset.

(** ** Witnesses *)

(** A set with one object and one removed identifier. *)
Definition demo_db : database := {["OBJECTS"%string := {[ [1%Z] := [7%Z] ]}; "REMOVED"%string := {[ [9%Z] := [] ]}]}.
Definition demo_set : mdv_2pset := mk_2pset (mk_lmdb 1 (demo_db, ∅) true) false 100.

Lemma mdv_2pset_add_correct_witness :
  let '(l, err) := mdv_2pset_add true demo_set [2]%Z [8]%Z in
  err = MDV_OK /\ idle l /\ objects (data_of (l_objs l)) = {[ [1%Z] := [7%Z]; [2%Z] := [8%Z] ]}.
Proof.
  pose proof (mdv_2pset_add_correct demo_set 1 ltac:(lia) eq_refl eq_refl [2]%Z [8]%Z ltac:(unfold valid_key; simpl; lia)) as H.
  destruct (mdv_2pset_add true demo_set [2]%Z [8]%Z) as [l err]. destruct H as (_ & _ & I & D & R).
  specialize (R _). split_and!; [exact R|exact I|]. destruct D as [[D _]|[_ (D & _)]]; [congruence|]. rewrite D. vm_compute. reflexivity.
Defined.

Lemma mdv_2pset_add_batch_correct_witness :
  let '(l, err) := mdv_2pset_add_batch true demo_set [([2], [8]); ([9], [1]); ([3], [5])]%Z in
  idle l /\ data_of (l_objs l) = demo_db.
Proof.
  pose proof (mdv_2pset_add_batch_correct demo_set 1 ltac:(lia) eq_refl eq_refl [([2], [8]); ([9], [1]); ([3], [5])]%Z
    ltac:(repeat constructor; simpl; lia)) as H.
  destruct (mdv_2pset_add_batch _ _ _) as [l err]. destruct H as (_ & I & _ & D). split; [exact I|]. apply D.
  apply Exists_cons_tl, Exists_cons_hd. vm_compute. eauto.
Defined.

Lemma mdv_2pset_add_get_witness :
  let '(l, err) := mdv_2pset_add true demo_set [2]%Z [8]%Z in
  let '(l', r) := mdv_2pset_get true (l_objs l) [2]%Z Some in err = MDV_OK /\ r = Some [8]%Z.
Proof.
  pose proof (mdv_2pset_add_get demo_set 1 ltac:(lia) eq_refl eq_refl [2]%Z [8]%Z [2]%Z Some
    ltac:(unfold valid_key; simpl; lia) ltac:(unfold valid_key; simpl; lia) eq_refl) as H.
  destruct (mdv_2pset_add _ _ _ _) as [l err]. destruct (mdv_2pset_get _ _ _ _) as [l' r].
  destruct H as (E & _ & _ & _ & R). split; [exact E|]. rewrite R. vm_compute. reflexivity.
Defined.

Lemma mdv_2pset_reserve_ids_range_correct_witness :
  let '(l, err, id) := mdv_2pset_reserve_ids_range MDV_OK true demo_set 16 in
  o_locked (l_objs l) = false /\ idle l /\ (err = MDV_FAILED \/ id = Some 100%Z /\ o_idgen (l_objs l) = 116%Z).
Proof.
  pose proof (mdv_2pset_reserve_ids_range_correct demo_set 1 ltac:(lia) eq_refl eq_refl 16) as H.
  destruct (mdv_2pset_reserve_ids_range _ _ _ _) as [[l err] id]. destruct H as (_ & I & L & D).
  split_and!; [exact L|exact I|]. destruct D as [[D _]|(_ & E & G & _)]; [by left|right; split; [exact E|exact G]].
Defined.

(** A key of a size that LMDB refuses: the addition reports success and stores
    nothing. *)
Example add_bad_key :
  let '(l, err) := mdv_2pset_add true demo_set [] [8]%Z in
  err = MDV_OK /\ objects (data_of (l_objs l)) = objects demo_db.
Proof. vm_compute. done. Qed.

End Pset.
