(* ===== verification/Enumerator.v ===== *)
(** * Enumerators of the two-phase set (src/mdv_storage/mdv_2pset.c)

    An enumerator keeps a transaction, the map of the objects and a cursor open
    and has a reference to the set.  Every transaction of the storage is a
    write transaction, of which LMDB admits one at a time: while an enumerator
    lives, the set is used through it only, so the enumerator holds the state
    of the set. *)

From S2P Require Import Prelude Rollbacker Lmdb Memdb Session Pset.
Import Rollbacker Lmdb Memdb Pset Session.

Module Enumerator.

(** ** The interface (src/mdv_platform/mdv_enumerator.h)

    The functions behind the pointer [vptr] of an enumerator of items [A]. *)
Class IEnumerator (E A : Type) := {
  mdv_enumerator_reset : E -> E * mdv_errno;
  mdv_enumerator_next : E -> E * mdv_errno;
  mdv_enumerator_current : E -> option A
}.

(** [do { current } while (next == MDV_OK)] *)
Fixpoint visit {E A} `{IEnumerator E A} (fuel : nat) (e : E) : outcome (list A * E) :=
  match fuel with
  | 0 => OutOfFuel
  | S fuel =>
      a ← deref (mdv_enumerator_current e);
      let '(e, err) := mdv_enumerator_next e in
      if decide (err = MDV_OK) then
        r ← visit fuel e;
        let '(l, e) := r in Done (a :: l, e)
      else Done ([a], e)
  end.

(** What the users of an enumerator rely on: [rest e l] says that [l] is the
    current item and the items behind it, [alive e] that the enumerator can be
    set back to the first of the [items]. *)
Class EnumeratorLaws {E A} `{IEnumerator E A} (items : list A) (alive : E -> Prop) (rest : E -> list A -> Prop) : Prop := {
  rest_alive : forall e l, rest e l -> alive e;
  current_law : forall e a l, rest e (a :: l) -> mdv_enumerator_current e = Some a;
  next_law : forall e a l, rest e (a :: l) ->
    let '(e', err) := mdv_enumerator_next e in
    match l with [] => err <> MDV_OK /\ alive e' | _ => err = MDV_OK /\ rest e' l end;
  reset_law : forall e, alive e -> items <> [] -> exists e', mdv_enumerator_reset e = (e', MDV_OK) /\ rest e' items
}.

Lemma visit_rest {E A} `{EnumeratorLaws E A items alive rest} fuel e a l :
  rest e (a :: l) -> length l < fuel -> exists e', visit fuel e = Done (a :: l, e') /\ alive e'.
Proof.
  revert fuel e a. induction l as [|b l IH]; intros [|fuel] e a Hr Hf; cbn in Hf; try lia; cbn;
    rewrite (current_law _ _ _ Hr); cbn; pose proof (next_law _ _ _ Hr) as Hn; destruct (mdv_enumerator_next e) as [e' err].
  - rewrite decide_False by apply Hn. exists e'. split; [done|apply Hn].
  - destruct Hn as [-> Hr']. rewrite decide_True by done. destruct (IH fuel e' b Hr' ltac:(lia)) as (e2 & -> & Ha). by exists e2.
Qed.

(** ** The enumerator of a set *)

Section Objects.
Context `{Mdb, !MdbCursor}.

(** [en_frame] has the storage of the set, [en_locked] and [en_idgen] are the
    rest of the set. *)
Record objects_enumerator := mk_enum {
  en_rc : Z;
  en_frame : frame;
  en_locked : bool;
  en_idgen : Z;
  en_current : bytes * bytes
}.

Definition en_set (e : objects_enumerator) : mdv_2pset := mk_2pset (fr_st (en_frame e)) (en_locked e) (en_idgen e).

Definition set_frame (e : objects_enumerator) (f : frame) (kv : bytes * bytes) : objects_enumerator :=
  mk_enum (en_rc e) f (en_locked e) (en_idgen e) kv.

Definition mdv_objects_enumerator_retain (e : objects_enumerator) : objects_enumerator :=
  mk_enum (rc_retain (en_rc e)) (en_frame e) (en_locked e) (en_idgen e) (en_current e).

(** The returned count; the enumerator, or the set when the enumerator is freed. *)
Definition mdv_objects_enumerator_release (e : option objects_enumerator)
  : Z * (option objects_enumerator + option mdv_2pset) :=
  match e with
  | None => (0%Z, inl None)
  | Some e =>
      let '(rc, refs, dead) := rc_release (en_rc e) in
      (refs, if dead then
               let f := close_cursor (en_frame e) in
               let f := abort f in
               let f := close_map f in
               inr (snd (mdv_2pset_release (Some (mk_2pset (fr_st f) (en_locked e) (en_idgen e)))))
             else inl (Some (mk_enum rc (en_frame e) (en_locked e) (en_idgen e) (en_current e))))
  end.

Definition enumerator_get (e : objects_enumerator) (op : mdv_cursor_op) : objects_enumerator * mdv_errno :=
  let '(f, ok, kv) := get_cursor (en_frame e) (en_current e) op in
  (set_frame e f kv, if ok : bool then MDV_OK else MDV_FAILED).

Definition mdv_objects_enumerator_reset (e : objects_enumerator) : objects_enumerator * mdv_errno :=
  enumerator_get e MDV_CURSOR_FIRST.

Definition mdv_objects_enumerator_next (e : objects_enumerator) : objects_enumerator * mdv_errno :=
  enumerator_get e MDV_CURSOR_NEXT.

Definition mdv_objects_enumerator_current (e : objects_enumerator) : option (bytes * bytes) := Some (en_current e).

#[export] Instance objects_ienumerator : IEnumerator objects_enumerator (bytes * bytes) := {|
  mdv_enumerator_reset := mdv_objects_enumerator_reset;
  mdv_enumerator_next := mdv_objects_enumerator_next;
  mdv_enumerator_current := mdv_objects_enumerator_current
|}.

(** [mem_rbr], [mem]: the rollbacker and the enumerator are allocated.  The set,
    or the enumerator that holds it. *)
Definition mdv_objects_enumerator_create (mem_rbr mem : bool) (o : mdv_2pset) (key : option bytes) (op : mdv_cursor_op)
  : mdv_2pset + objects_enumerator :=
  let fall_back f := inl (mk_2pset (fr_st f) (o_locked o) (o_idgen o)) in
  let rbr := new_rollbacker mem_rbr 3 in
  if negb mem then inl o else
  let kv := (default [] key, []) in
  let rbr := push_op rbr Fn_free Var_object in
  let f := start (enter (o_storage o)) in
  if negb (mdv_transaction_ok (fr_txn f)) then fall_back (rollback rbr f) else
  let rbr := push_op rbr Fn_transaction_abort Var_transaction in
  let f := open_map f MDV_MAP_OBJECTS 0 in
  if negb (mdv_map_ok (fr_map f)) then fall_back (rollback rbr f) else
  let rbr := push_op rbr Fn_map_close Var_map in
  let '(f, kv) := open_cursor f kv op in
  if negb (mdv_cursor_ok (fr_cur f)) then fall_back (rollback rbr f) else
  match mdv_2pset_retain (Some (mk_2pset (fr_st f) (o_locked o) (o_idgen o))) with
  | Some o => inr (mk_enum 1 (mk_frame (o_storage o) (fr_txn f) (fr_map f) (fr_cur f)) (o_locked o) (o_idgen o) kv)
  | None => fall_back f
  end.

Definition mdv_2pset_enumerator (mem_rbr mem : bool) (o : mdv_2pset) : mdv_2pset + objects_enumerator :=
  mdv_objects_enumerator_create mem_rbr mem o None MDV_CURSOR_FIRST.

Definition mdv_2pset_enumerator_from (mem_rbr mem : bool) (o : mdv_2pset) (id : bytes) : mdv_2pset + objects_enumerator :=
  mdv_objects_enumerator_create mem_rbr mem o (Some id) MDV_CURSOR_SET_RANGE.

End Objects.

(** ** The objects in the order of their keys *)

Definition sorted_entries (m : gmap bytes bytes) : list (bytes * bytes) := merge_sort (entry_le false) (map_to_list m).

Lemma bytes_leb_antisym a b : bytes_leb a b = true -> bytes_leb b a = true -> a = b.
Proof.
  revert b. induction a as [|x a IH]; intros [|y b]; cbn; try done.
  rewrite !orb_true_iff, !andb_true_iff, !Z.ltb_lt, !Z.eqb_eq. intros [H1|[-> H1]] [H2|[E H2]]; try lia.
  f_equal. auto.
Qed.

(** Entries with one key are one entry. *)
Lemma same_entry (m : gmap bytes bytes) a b : a ∈ map_to_list m -> b ∈ map_to_list m -> a.1 = b.1 -> a = b.
Proof.
  destruct a as [k v], b as [k' v']. cbn. rewrite !elem_of_map_to_list. intros Ha Hb ->. congruence.
Qed.

Lemma sorted_unique (m : gmap bytes bytes) l :
  l ≡ₚ map_to_list m -> StronglySorted (fun a b => key_le false a.1 b.1) l -> l = sorted_entries m.
Proof.
  intros Hp Hs. apply (StronglySorted_unique_strong (entry_le false)).
  - intros a b Ha Hb H1 H2. apply (same_entry m).
    + by rewrite <- Hp.
    + by rewrite <- (merge_sort_Permutation (entry_le false)).
    + by apply bytes_leb_antisym.
  - exact Hs.
  - apply (StronglySorted_merge_sort (entry_le false)).
  - rewrite Hp. symmetry. apply merge_sort_Permutation.
Qed.

Lemma elem_of_sorted (m : gmap bytes bytes) k v : (k, v) ∈ sorted_entries m <-> m !! k = Some v.
Proof. unfold sorted_entries. by rewrite merge_sort_Permutation, elem_of_map_to_list. Qed.

Lemma length_sorted (m : gmap bytes bytes) : length (sorted_entries m) = size m.
Proof. unfold sorted_entries. by rewrite merge_sort_Permutation, length_map_to_list. Qed.

Lemma sorted_sorted (m : gmap bytes bytes) : StronglySorted (entry_le false) (sorted_entries m).
Proof. apply (StronglySorted_merge_sort (entry_le false)). Qed.

(** ** Correctness *)

Section Correct.
Context `{Mdb, !MdbCursor, !MdbLaws, !MdbCursorLaws}.

Definition objects (o : mdv_2pset) : option (gmap bytes bytes) := db (s_env (o_storage o)) !! MDV_MAP_OBJECTS.

(** A set to which [n] references are held; its objects have no integer keys. *)
Record set_live (n : Z) (o : mdv_2pset) : Prop := {
  sl_live : live n (o_storage o);
  sl_keys : MDV_MAP_OBJECTS ∉ int_maps (s_env (o_storage o))
}.

(** Two states of a set with the same contents. *)
Definition same_set (o o' : mdv_2pset) : Prop :=
  db (s_env (o_storage o')) = db (s_env (o_storage o)) /\ int_maps (s_env (o_storage o')) = int_maps (s_env (o_storage o))
  /\ o_locked o' = o_locked o /\ o_idgen o' = o_idgen o.

(** The enumerator was made of [o], which has the objects [m], and stands at
    the entry [i] of them. *)
Record at_entry (n : Z) (o : mdv_2pset) (m : gmap bytes bytes) (e : objects_enumerator) (i : option nat) : Prop := {
  at_rc : en_rc e = 1%Z;
  at_set : same_set o (en_set e);
  at_reads : exists t, reads (n + 1) (en_frame e) MDV_MAP_OBJECTS t i
    /\ entries t (m_dbmap (fr_map (en_frame e))) = sorted_entries m
}.

(** The current entry and those behind it. *)
Definition rest_of (n : Z) (o : mdv_2pset) (m : gmap bytes bytes) (e : objects_enumerator) (l : list (bytes * bytes)) : Prop :=
  exists i, at_entry n o m e (Some i) /\ l = drop i (sorted_entries m) /\ head l = Some (en_current e).

Section Balance.
Context (n : Z) (Hn : (1 <= n < 2 ^ 32 - 5)%Z).

Lemma get_at o m e i op j :
  at_entry n o m e i ->
  match op with MDV_CURSOR_FIRST => Some 0 | MDV_CURSOR_NEXT => match i with None => Some 0 | Some i => Some (S i) end | _ => None end = Some j ->
  let '(e', err) := enumerator_get e op in
  match sorted_entries m !! j with
  | Some kv => err = MDV_OK /\ en_current e' = kv /\ at_entry n o m e' (Some j)
  | None => err = MDV_FAILED /\ exists i', at_entry n o m e' i'
  end.
Proof.
  intros [Hrc Hset (t & Hr & He)] Hj. unfold enumerator_get.
  pose proof (get_reads (n + 1) (en_frame e) _ t i (en_current e) op j Hr Hj) as Hg.
  destruct (get_cursor (en_frame e) (en_current e) op) as [[f' ok] kv']. destruct Hg as (Hst & Htx & Hmp & Hg). rewrite He in Hg.
  assert (Hat : forall i', reads (n + 1) f' MDV_MAP_OBJECTS t i' -> at_entry n o m (set_frame e f' kv') i').
  { intros i' Hr'. split; [done| |exists t; split; [done|cbn; by rewrite Hmp]]. unfold same_set, en_set in *. cbn in *. by rewrite Hst. }
  destruct (sorted_entries m !! j) as [kv|].
  - destruct Hg as (-> & -> & Hr'). by split_and!; [..|apply Hat].
  - destruct Hg as (-> & -> & i' & Hr'). split; [done|]. exists i'. by apply Hat.
Qed.

#[local] Instance objects_laws o m :
  EnumeratorLaws (sorted_entries m) (fun e => exists i, at_entry n o m e i) (rest_of n o m).
Proof.
  split.
  - intros e l (i & Hat & _). by exists (Some i).
  - intros e a l (i & _ & _ & Hh). cbn in *. by injection Hh as ->.
  - intros e a l (i & Hat & Hl & Hh). pose proof (get_at _ _ _ _ MDV_CURSOR_NEXT (S i) Hat eq_refl) as Hg. cbn.
    unfold mdv_objects_enumerator_next. destruct (enumerator_get e MDV_CURSOR_NEXT) as [e' err].
    assert (Hd : drop (S i) (sorted_entries m) = l) by (by rewrite <- Nat.add_1_r, <- drop_drop, <- Hl).
    rewrite <- (Nat.add_0_r (S i)), <- lookup_drop, Hd in Hg. destruct l as [|kv l]; cbn in Hg.
    + by destruct Hg as [-> Hg].
    + destruct Hg as (-> & Hc & Hat'). split; [done|]. exists (S i). rewrite Nat.add_0_r in Hat'. rewrite Hd. cbn. by rewrite Hc.
  - intros e (i & Hat) Hne. pose proof (get_at _ _ _ _ MDV_CURSOR_FIRST 0 Hat eq_refl) as Hg. cbn.
    unfold mdv_objects_enumerator_reset. destruct (enumerator_get e MDV_CURSOR_FIRST) as [e' err]. rewrite <- head_lookup in Hg.
    destruct (sorted_entries m) as [|kv l] eqn:E; [done|]. cbn in Hg. destruct Hg as (-> & Hc & Hat').
    exists e'. split; [done|]. exists 0. rewrite E. cbn. by rewrite Hc.
Qed.

(** The position at which an enumerator begins. *)
Definition begins (key : option bytes) (m : gmap bytes bytes) : list (bytes * bytes) :=
  match key with
  | None => sorted_entries m
  | Some k => drop (lower_pos false k (sorted_entries m)) (sorted_entries m)
  end.

Lemma live_set o s : live n s -> db (s_env s) = db (s_env (o_storage o)) -> int_maps (s_env s) = int_maps (s_env (o_storage o)) ->
  set_live n o -> set_live n (mk_2pset s (o_locked o) (o_idgen o)) /\ same_set o (mk_2pset s (o_locked o) (o_idgen o)).
Proof. intros Hl Hd Hi [Hlo Hk]. split; [split; [done|cbn; by rewrite Hi]|done]. Qed.

Lemma clean_set o f : clean n (enter (o_storage o)) f -> set_live n o ->
  set_live n (mk_2pset (fr_st f) (o_locked o) (o_idgen o)) /\ same_set o (mk_2pset (fr_st f) (o_locked o) (o_idgen o)).
Proof. intros Hc Hl. pose proof (clean_live _ _ _ Hc) as Hlv. destruct Hc as (_ & _ & Hd & Hi). by apply live_set. Qed.

(** The enumerator stands at the first entry that is asked for, or it is not
    made and nothing is left open. *)
Lemma create_runs mem o key :
  set_live n o ->
  let op := match key with None => MDV_CURSOR_FIRST | Some _ => MDV_CURSOR_SET_RANGE end in
  match mdv_objects_enumerator_create true mem o key op with
  | inl o' => set_live n o' /\ same_set o o'
      /\ (MdbReliable -> MdbCursorReliable -> mem = true -> forall m, objects o = Some m -> begins key m = [])
  | inr e => exists m, objects o = Some m /\ begins key m <> [] /\ rest_of n o m e (begins key m)
  end.
Proof.
  intros Hl op. unfold mdv_objects_enumerator_create. destruct mem; cbn [negb]; [|by split_and!].
  pose proof (balanced_enter n _ (sl_live _ _ Hl)) as Hb.
  assert (Hid : idle (enter (o_storage o))) by by repeat split.
  pose proof (opened n ltac:(lia) _ MDV_MAP_OBJECTS 0 Hb Hid) as Ho. cbv zeta in Ho.
  assert (Hrel : MdbReliable -> forall m, objects o = Some m ->
    mdv_transaction_ok (fr_txn (start (enter (o_storage o)))) = true
    /\ mdv_map_ok (fr_map (open_map (start (enter (o_storage o))) MDV_MAP_OBJECTS 0)) = true).
  { intros Hr m Hm. apply (opened_reliable n ltac:(lia)); [done..|]. left. by exists m. }
  set (f1 := start (enter (o_storage o))) in *. set (f2 := open_map f1 MDV_MAP_OBJECTS 0) in *.
  rewrite rollback_free, rollback_free_txn by lia.
  destruct (mdv_transaction_ok (fr_txn f1)); cbn [negb] in Ho |- *.
  2: { destruct (clean_set _ _ Ho Hl). split_and!; try done; intros Hr _ _ m Hm. by destruct (Hrel Hr m Hm). }
  destruct (mdv_map_ok (fr_map f2)); cbn [negb] in Ho |- *.
  2: { destruct (clean_set _ _ Ho Hl). split_and!; try done; intros Hr _ _ m Hm. by destruct (Hrel Hr m Hm). }
  destruct Ho as (t & Hin & Hd & Hi & Hv & Hint & _ & Hex). destruct (Hex eq_refl) as [m Hm].
  change (data (enter (o_storage o))) with (db (s_env (o_storage o))) in *.
  change (ints (enter (o_storage o))) with (int_maps (s_env (o_storage o))) in *.
  assert (Hnot : MDV_MAP_OBJECTS ∉ txn_int_maps t).
  { rewrite Hint. unfold opened_int. rewrite decide_False by (by rewrite Hm). apply Hl. }
  assert (Hent : entries t (m_dbmap (fr_map f2)) = sorted_entries m).
  { assert (view t !! MDV_MAP_OBJECTS = Some m) as Hvm by (by rewrite Hv, ensure_lookup, decide_True, Hm).
    apply sorted_unique; [by eapply entries_perm; [apply Hin|]|].
    pose proof (entries_sorted t _ _ (in_hnd _ _ _ _ Hin)) as Hs. by rewrite bool_decide_eq_false_2 in Hs. }
  set (j := match key with None => 0 | Some k => lower_pos false k (sorted_entries m) end).
  assert (Hbeg : begins key m = drop j (sorted_entries m)) by by destruct key.
  destruct (open_cursor_ok n ltac:(lia) f2 _ t (default [] key, []) op j Hin) as (ok & Hcr & Hcase).
  { rewrite bool_decide_eq_false_2, Hent by done. by destruct key. }
  rewrite Hent in Hcase. destruct (if ok then sorted_entries m !! j else None) as [kv|] eqn:E.
  - destruct Hcase as (c & Hon & ->). cbn [fr_cur with_cursor]. unfold mdv_cursor_ok. cbn [c_storage c_cursor andb negb mdv_2pset_retain].
    destruct ok; [|done]. exists m. split; [done|]. rewrite Hbeg, (drop_S _ _ _ E). split; [done|]. exists j.
    split; [|split; [by rewrite (drop_S _ _ _ E)|done]].
    pose proof (with_cursor_reads n ltac:(lia) f2 _ t c (Some j) Hin Hon) as Hr. pose proof (rd_bal _ _ _ _ _ Hr) as Hb2.
    pose proof (b_refs _ _ Hb2) as Hrefs. pose proof (held_bound (with_cursor f2 c)).
    split; [done|..].
    + unfold same_set, en_set. cbn [en_frame fr_st o_storage en_locked en_idgen o_locked o_idgen].
      rewrite storage_retain_live by lia. cbn [s_env]. unfold with_cursor. cbn [fr_st].
      rewrite storage_retain_live; [by split_and!|]. pose proof (b_refs _ _ (in_bal _ _ _ _ Hin)). pose proof (held_bound f2). lia.
    + exists t. cbn [en_frame fr_map o_storage fr_txn fr_cur]. split; [|done]. destruct Hr as [_ ? ? ? ?]. split; try done.
      rewrite storage_retain_live by lia. destruct Hb2. split; cbn [fr_st fr_txn fr_map fr_cur s_refs s_open]; try done.
      unfold held in *. cbn [fr_txn fr_map fr_cur with_cursor] in *. lia.
  - rewrite Hcase. cbn [fr_cur no_cursor]. unfold mdv_cursor_ok. cbn [c_storage andb negb]. rewrite rollback_free_map by lia.
    pose proof (inside_no_cursor n _ _ _ Hin) as Hin'.
    pose proof (clean_close_abort n ltac:(lia) _ (in_bal _ _ _ _ Hin') eq_refl) as Hc.
    assert (clean n (enter (o_storage o)) (abort (close_map (no_cursor f2)))) as Hc'
      by (eapply clean_trans; [| |exact Hc]; done).
    destruct (clean_set _ _ Hc' Hl). split_and!; try done. intros _ Hcrel _ m' Hm'. assert (m' = m) as -> by (unfold objects in Hm'; congruence).
    rewrite Hbeg. destruct ok; [|by specialize (Hcr Hcrel)]. apply drop_ge. by apply lookup_ge_None.
Qed.

(** A released enumerator gives everything back. *)
Lemma release_runs o m e i :
  set_live n o -> at_entry n o m e i ->
  exists o', mdv_objects_enumerator_release (Some e) = (0%Z, inr (Some o')) /\ set_live n o' /\ same_set o o'.
Proof.
  intros Hl [Hrc (Hd & Hi & Hlk & Hg) (t & Hr & _)]. cbn in Hd, Hi, Hlk, Hg. unfold mdv_objects_enumerator_release. rewrite Hrc.
  change (rc_release 1) with (0, 0, true)%Z. cbv iota beta.
  pose proof (clean_reads (n + 1) ltac:(lia) _ _ _ _ Hr) as Hc. pose proof (clean_live _ _ _ Hc) as [Hrefs Hopen].
  destruct Hc as (_ & _ & Hcd & Hci). unfold data, ints in Hcd, Hci.
  set (f := close_map (abort (close_cursor (en_frame e)))) in *.
  unfold mdv_2pset_release. cbn [o_storage o_locked o_idgen snd]. unfold mdv_storage_release, rc_release. rewrite Hrefs.
  rewrite (wrap_id 64), (wrap_id 32) by (split; lia). destruct (Z.eqb_spec (n + 1 - 1) 0); [lia|]. rewrite Hopen.
  eexists. split; [done|]. rewrite Hlk, Hg. destruct (live_set o (mk_lmdb (n + 1 - 1) (s_env (fr_st f)) true)) as [? ?]; try done;
    cbn [s_env]; [split; cbn; [lia|done]|congruence..].
Qed.

(** ** Theorems *)

(** an enumerator of a set that has objects visits each of them once, in the
    order of the keys, also after it was set back, and its release gives back
    everything it had opened and leaves the set as it was. *)
Theorem mdv_2pset_enumerator_visits `{!MdbReliable, !MdbCursorReliable} o m :
  set_live n o -> objects o = Some m -> m <> ∅ ->
  exists e0 e1 e2 e3 o', mdv_2pset_enumerator true true o = inr e0
    /\ visit (S (size m)) e0 = Done (sorted_entries m, e1)
    /\ mdv_enumerator_reset e1 = (e2, MDV_OK) /\ visit (S (size m)) e2 = Done (sorted_entries m, e3)
    /\ mdv_objects_enumerator_release (Some e3) = (0%Z, inr (Some o')) /\ set_live n o' /\ same_set o o'.
Proof.
  intros Hl Hm Hne. pose proof (create_runs true o None Hl) as Hc. cbv zeta in Hc. unfold mdv_2pset_enumerator.
  assert (Hlen : length (sorted_entries m) = size m) by apply length_sorted.
  destruct (sorted_entries m) as [|kv l] eqn:E; [by destruct Hne; apply map_size_empty_inv|]. rewrite <- E in *.
  destruct (mdv_objects_enumerator_create _ _ _ _ _) as [o'|e0].
  { destruct Hc as (_ & _ & Hc). specialize (Hc _ _ eq_refl m Hm). cbn [begins] in Hc. congruence. }
  destruct Hc as (m' & Hm' & _ & Hr). cbn [begins] in Hr. rewrite Hm in Hm'. injection Hm' as <-. pose proof Hr as Hr0. rewrite E in Hr0.
  destruct (visit_rest (S (size m)) e0 kv l Hr0) as (e1 & Hv & Ha); [rewrite E in Hlen; cbn in Hlen; lia|].
  destruct (reset_law e1 Ha) as (e2 & Hrs & Hr2); [by rewrite E|]. pose proof Hr2 as Hr2'. rewrite E in Hr2'.
  destruct (visit_rest (S (size m)) e2 kv l Hr2') as (e3 & Hv3 & i & Ha3); [rewrite E in Hlen; cbn in Hlen; lia|].
  destruct (release_runs o m e3 i Hl Ha3) as (o' & Hrel & Hl' & Hs). exists e0, e1, e2, e3, o'. rewrite E. by split_and!.
Qed.

End Balance.
End Correct.

(** ** Additions keep the order of the keys

    The map of the objects is created without integer keys. *)

Section Keys.
Context `{Mdb, !MdbCursor, !MdbLaws, !MdbCursorLaws}.

Definition byte_keys (l : locals) : Prop :=
  (MDV_MAP_OBJECTS ∉ int_maps (s_env (o_storage (l_objs l))))
  /\ match t_txn (l_txn l) with Some t => MDV_MAP_OBJECTS ∉ txn_int_maps t | None => True end.

Lemma release_env p s : s_env (fst (mdv_storage_release p s)) = s_env s.
Proof. unfold mdv_storage_release. destruct p; [|done]. by destruct (rc_release _) as [[? ?] ?]. Qed.

Lemma retain_env p s : s_env (mdv_storage_retain p s) = s_env s.
Proof. by destruct p. Qed.

Lemma start_keys l : byte_keys l -> byte_keys (Pset.start l).
Proof.
  intros [K1 K2]. unfold Pset.start, mdv_transaction_start, byte_keys. pose proof (begin_int (s_env (o_storage (l_objs l)))) as Hb.
  destruct (mdb_txn_begin _) as [[e rc] t]. destruct Hb as [He Ht].
  destruct (negb _); cbn [l_objs o_storage l_txn t_txn set_storage set_env s_env mdv_storage_retain]; rewrite ?He; [done|].
  split; [done|]. destruct t as [t|]; [|done]. by rewrite Ht.
Qed.

Lemma map_open_keys s t name flags :
  MDV_MAP_OBJECTS ∉ int_maps (s_env s) -> match t_txn t with Some t => MDV_MAP_OBJECTS ∉ txn_int_maps t | None => True end ->
  name <> MDV_MAP_OBJECTS \/ Z.land (map_flags flags) MDB_INTEGERKEY = 0%Z ->
  let '(s', t', _) := mdv_map_open s t name flags in
  (MDV_MAP_OBJECTS ∉ int_maps (s_env s')) /\ match t_txn t' with Some t => MDV_MAP_OBJECTS ∉ txn_int_maps t | None => True end.
Proof.
  intros K1 K2 Hf. unfold mdv_map_open. destruct (t_txn t) as [x|] eqn:Et; [|by rewrite Et].
  pose proof (dbi_open_int x name (map_flags flags)) as Ho. destruct (mdb_dbi_open _ _ _) as [[x' rc] d]. destruct Ho as [Ho1 Ho2].
  assert (MDV_MAP_OBJECTS ∉ txn_int_maps x') as K.
  { destruct (decide (name = MDV_MAP_OBJECTS)) as [->|Hne]; [|by rewrite Ho2 by congruence]. destruct Hf as [|Hf]; [done|]. rewrite Ho1. case_decide; [|done]. intros Hx. by apply Hx. }
  destruct (negb _); cbn [t_txn t_storage]; rewrite ?retain_env; done.
Qed.

Lemma open_keys l name flags :
  byte_keys l -> name <> MDV_MAP_OBJECTS \/ Z.land (map_flags flags) MDB_INTEGERKEY = 0%Z ->
  byte_keys (Pset.open_map l name flags) /\ byte_keys (open_rem l name flags).
Proof.
  intros [K1 K2] Hf. pose proof (map_open_keys _ _ name flags K1 K2 Hf) as Hm. unfold Pset.open_map, open_rem, byte_keys.
  destruct (mdv_map_open _ _ _ _) as [[s' t'] x]. by cbn.
Qed.

Lemma abort_keys l : byte_keys l -> byte_keys (Pset.abort l).
Proof.
  intros [K1 K2]. unfold Pset.abort, mdv_transaction_abort, byte_keys. destruct (t_txn (l_txn l)) as [t|] eqn:Et; cbn [l_objs o_storage l_txn t_txn set_storage].
  - rewrite release_env. cbn [set_env s_env]. by rewrite abort_int.
  - by rewrite Et.
Qed.

Lemma commit_keys l : byte_keys l -> byte_keys (fst (Pset.commit l)).
Proof.
  intros [K1 K2]. unfold Pset.commit, mdv_transaction_commit, byte_keys. destruct (t_txn (l_txn l)) as [t|] eqn:Et.
  - pose proof (commit_int (s_env (o_storage (l_objs l))) t) as Hc. destruct (mdb_txn_commit _ _) as [e rc].
    cbn [fst l_objs o_storage l_txn t_txn set_storage]. rewrite release_env. cbn [set_env s_env]. rewrite Hc. by case_decide.
  - cbn [fst l_objs o_storage l_txn t_txn set_storage]. by rewrite Et.
Qed.

Lemma map_close_keys s m : MDV_MAP_OBJECTS ∉ int_maps (s_env s) -> MDV_MAP_OBJECTS ∉ int_maps (s_env (fst (mdv_map_close s m))).
Proof.
  intros K. unfold mdv_map_close. destruct (_ && _); [|done]. cbn [fst]. rewrite release_env. cbn [set_env s_env]. by rewrite dbi_close_int.
Qed.

Lemma close_keys l : byte_keys l -> byte_keys (Pset.close_map l) /\ byte_keys (close_rem l).
Proof.
  intros [K1 K2]. pose proof (map_close_keys _ (l_map l) K1) as Hm. pose proof (map_close_keys _ (l_rem l) K1) as Hr.
  unfold Pset.close_map, close_rem, byte_keys. destruct (mdv_map_close _ (l_map l)), (mdv_map_close _ (l_rem l)). by cbn in *.
Qed.

Lemma rollback_keys r l : byte_keys l -> byte_keys (Pset.rollback r l).
Proof.
  unfold Pset.rollback. revert l. induction (mdv_rollback r) as [|[f vs] calls IH]; intros l Hl; [done|]. cbn [foldl]. apply IH.
  unfold Pset.call. destruct f, vs as [|[] []]; try done; first [by apply abort_keys|by apply close_keys|by destruct Hl].
Qed.

Lemma put_keys l id obj :
  byte_keys l -> let '(t, _) := mdv_map_put_unique (l_map l) (l_txn l) id obj in byte_keys (mk_locals (l_objs l) t (l_map l) (l_rem l)).
Proof.
  intros [K1 K2]. unfold mdv_map_put_unique, mdv_map_put_impl. destruct (t_txn (l_txn l)) as [t|] eqn:Et; [|by split; cbn; rewrite ?Et].
  pose proof (put_int t (m_dbmap (l_map l)) id obj MDB_NOOVERWRITE) as Hp. destruct (mdb_put _ _ _ _ _) as [t' rc]. cbn in Hp.
  split; [done|]. cbn. by rewrite Hp.
Qed.

Lemma put_keys_any l id obj :
  byte_keys l -> let '(t, _) := mdv_map_put (l_map l) (l_txn l) id obj in byte_keys (mk_locals (l_objs l) t (l_map l) (l_rem l)).
Proof.
  intros [K1 K2]. unfold mdv_map_put, mdv_map_put_impl. destruct (t_txn (l_txn l)) as [t|] eqn:Et; [|by split; cbn; rewrite ?Et].
  pose proof (put_int t (m_dbmap (l_map l)) id obj 0) as Hp. destruct (mdb_put _ _ _ _ _) as [t' rc]. cbn in Hp.
  split; [done|]. cbn. by rewrite Hp.
Qed.

Lemma batch_keys items l c : byte_keys l -> byte_keys (fst (batch_loop items l c)).
Proof.
  revert l c. induction items as [|[id obj] items IH]; intros l c Hl; [done|]. cbn [batch_loop].
  destruct (mdv_objects_is_deleted _ _ _); cbn [negb]; [apply IH; by apply abort_keys|].
  pose proof (put_keys l id obj Hl) as Hp. destruct (mdv_map_put_unique _ _ _ _) as [t ok]. by apply IH.
Qed.

Lemma add_keys mem o id obj :
  MDV_MAP_OBJECTS ∉ int_maps (s_env (o_storage o)) ->
  MDV_MAP_OBJECTS ∉ int_maps (s_env (o_storage (l_objs (fst (mdv_2pset_add mem o id obj))))).
Proof.
  intros K. unfold mdv_2pset_add. cbv zeta.
  assert (K1 : byte_keys (Pset.start (Pset.enter o))) by (by apply start_keys; split). set (l1 := Pset.start (Pset.enter o)) in *.
  destruct (open_keys l1 MDV_MAP_OBJECTS MDV_MAP_CREATE K1 (or_intror eq_refl)) as [K2 _]. set (l2 := Pset.open_map l1 _ _) in *.
  destruct (open_keys l2 MDV_MAP_REMOVED MDV_MAP_CREATE K2 (or_intror eq_refl)) as [_ K3]. set (l3 := open_rem l2 _ _) in *.
  destruct (negb (mdv_transaction_ok _)); [by apply rollback_keys|]. destruct (negb (mdv_map_ok (l_map l2))); [by apply rollback_keys|].
  destruct (negb (mdv_map_ok (l_rem l3))); [by apply rollback_keys|]. destruct (mdv_objects_is_deleted _ _ _); cbn [negb].
  - apply close_keys, close_keys. by apply abort_keys.
  - pose proof (put_keys l3 id obj K3) as K4. destruct (mdv_map_put_unique _ _ _ _) as [t ok].
    pose proof (commit_keys _ K4) as K5. destruct (Pset.commit _) as [l5 ok']. cbn [fst] in K5. destruct (negb ok'); cbn [fst]; [by apply rollback_keys|].
    apply close_keys. by apply close_keys.
Qed.

Lemma add_batch_keys mem o items :
  MDV_MAP_OBJECTS ∉ int_maps (s_env (o_storage o)) ->
  MDV_MAP_OBJECTS ∉ int_maps (s_env (o_storage (l_objs (fst (mdv_2pset_add_batch mem o items))))).
Proof.
  intros K. unfold mdv_2pset_add_batch. cbv zeta.
  assert (K1 : byte_keys (Pset.start (Pset.enter o))) by (by apply start_keys; split). set (l1 := Pset.start (Pset.enter o)) in *.
  destruct (open_keys l1 MDV_MAP_OBJECTS MDV_MAP_CREATE K1 (or_intror eq_refl)) as [K2 _]. set (l2 := Pset.open_map l1 _ _) in *.
  destruct (open_keys l2 MDV_MAP_REMOVED MDV_MAP_CREATE K2 (or_intror eq_refl)) as [_ K3]. set (l3 := open_rem l2 _ _) in *.
  destruct (negb (mdv_transaction_ok _)); [by apply rollback_keys|]. destruct (negb (mdv_map_ok (l_map l2))); [by apply rollback_keys|].
  destruct (negb (mdv_map_ok (l_rem l3))); [by apply rollback_keys|]. pose proof (batch_keys items l3 false K3) as K4.
  destruct (batch_loop items l3 false) as [l4 c]. cbn [fst] in K4. destruct c; cbn [fst].
  - pose proof (commit_keys l4 K4) as K5. destruct (Pset.commit l4) as [l5 ok]. cbn [fst] in K5. destruct (negb ok); cbn [fst]; [by apply rollback_keys|].
    apply close_keys. by apply close_keys.
  - apply close_keys, close_keys. by apply abort_keys.
Qed.

Lemma reserve_keys lock mem o range :
  MDV_MAP_OBJECTS ∉ int_maps (s_env (o_storage o)) ->
  MDV_MAP_OBJECTS ∉ int_maps (s_env (o_storage (l_objs (mdv_2pset_reserve_ids_range lock mem o range).1.1))).
Proof.
  intros K. unfold mdv_2pset_reserve_ids_range. cbv zeta. destruct (decide _); [done|].
  assert (K1 : byte_keys (Pset.start (set_locked (Pset.enter o) true))) by (by apply start_keys; split). set (l1 := Pset.start (set_locked (Pset.enter o) true)) in *.
  destruct (open_keys l1 MDV_MAP_IDGEN (Z.lor MDV_MAP_INTEGERKEY MDV_MAP_CREATE) K1 ltac:(by left)) as [K2 _]. set (l2 := Pset.open_map l1 _ _) in *.
  destruct (negb (mdv_transaction_ok _)); [by apply rollback_keys|]. destruct (negb (mdv_map_ok (l_map l2))); [by apply rollback_keys|].
  pose proof (put_keys_any l2 MDV_OBJECTS_IDGEN (to_le 8 (u64 (o_idgen (l_objs l2) + range))) K2) as K3. destruct (mdv_map_put _ _ _ _) as [t ok].
  destruct (negb ok); [by apply rollback_keys|]. pose proof (commit_keys _ K3) as K4. destruct (Pset.commit _) as [l4 ok']. cbn [fst] in K4.
  destruct (negb ok'); cbn [fst]; [by apply rollback_keys|]. cbn [l_objs set_locked o_storage].
  change (byte_keys (mk_locals (mk_2pset (o_storage (l_objs l4)) (o_locked (l_objs l4)) (u64 (o_idgen (l_objs l2) + range))) (l_txn l4) (l_map l4) (l_rem l4))) in K4.
  by apply close_keys in K4 as [[K5 _] _].
Qed.

(** A set is usable again when an operation has closed what it opened. *)
Lemma idle_set_live n l :
  Pset.balanced n l -> Pset.idle l -> MDV_MAP_OBJECTS ∉ int_maps (s_env (o_storage (l_objs l))) -> set_live n (l_objs l).
Proof.
  intros Hb (I1 & I2 & I3) K. split; [|done]. split; [|apply Hb]. rewrite (Pset.b_refs _ _ Hb). unfold Pset.held. rewrite I1, I2, I3. cbn. lia.
Qed.

End Keys.

(** ** An example *)

Definition demo_objects : gmap bytes bytes := {[ [2; 0]%Z := [20]%Z; [1; 7]%Z := [17]%Z; [1]%Z := [10]%Z ]}.
Definition demo_set : mdv_2pset := mk_2pset (mk_lmdb 1 ({[ MDV_MAP_OBJECTS := demo_objects ]} : database, ∅) true) false 5.

Lemma mdv_2pset_enumerator_visits_witness :
  exists e0 e1 e2 e3 o', mdv_2pset_enumerator true true demo_set = inr e0
    /\ visit 4 e0 = Done ([([1], [10]); ([1; 7], [17]); ([2; 0], [20])]%Z, e1)
    /\ mdv_enumerator_reset e1 = (e2, MDV_OK) /\ visit 4 e2 = Done ([([1], [10]); ([1; 7], [17]); ([2; 0], [20])]%Z, e3)
    /\ mdv_objects_enumerator_release (Some e3) = (0%Z, inr (Some o')) /\ set_live 1 o' /\ same_set demo_set o'.
Proof.
  change 4 with (S (size demo_objects)).
  change [([1], [10]); ([1; 7], [17]); ([2; 0], [20])]%Z with (sorted_entries demo_objects).
  apply (mdv_2pset_enumerator_visits 1 ltac:(lia)); [|done|done]. split; [by split|]. cbn. set_solver.
Defined.

End Enumerator.
