(* ===== verification/Trlog.v ===== *)
(** * Transaction log (src/mdv_core/storage/mdv_trlog.c)

    Every node keeps, for each node of the network, the log of the operations
    of that node: a map of integer keys, the operation numbers, in a storage of
    its own, and the position up to which the operations were applied.  A new
    operation is appended under the next number; operations received from
    other nodes are stored under the numbers they have there; the committer
    applies the operations in order. *)

From S2P Require Import Prelude Rollbacker Uuid Lmdb Memdb Session.
Import Rollbacker Uuid Lmdb Memdb Session.

Module Trlog.
Section Trlog.
Context `{Mdb, !MdbCursor}.

Definition MDV_MAP_TRLOG : string := "TRLOG".
Definition MDV_MAP_APPLIED : string := "APPLIED".
Definition MDV_TRLOG_APPLIED_POS_KEY : bytes := to_le 4 0.

(** [l_events]: the events mdv_evt_trlog_changed published on the bus. *)
Record mdv_trlog := mk_trlog {
  l_uuid : mdv_uuid;
  l_id : Z;
  l_storage : mdv_lmdb;
  l_top : Z;
  l_applied : Z;
  l_events : list mdv_uuid
}.

(** The bytes of an operation: its size, its type and the payload. *)
Definition op_size (op : bytes) : Z := of_le (take 4 op).

(** An operation with its number. *)
Abbreviation mdv_trlog_data := (Z * bytes)%type.

Definition set_storage (t : mdv_trlog) (s : mdv_lmdb) : mdv_trlog :=
  mk_trlog (l_uuid t) (l_id t) s (l_top t) (l_applied t) (l_events t).
Definition set_top (t : mdv_trlog) (top : Z) : mdv_trlog :=
  mk_trlog (l_uuid t) (l_id t) (l_storage t) top (l_applied t) (l_events t).
Definition set_applied (t : mdv_trlog) (pos : Z) : mdv_trlog :=
  mk_trlog (l_uuid t) (l_id t) (l_storage t) (l_top t) pos (l_events t).

Definition SILENT_INT : Z := Z.lor MDV_MAP_SILENT MDV_MAP_INTEGERKEY.
Definition CREATE_INT : Z := Z.lor MDV_MAP_CREATE MDV_MAP_INTEGERKEY.

(** The last number in the log, plus one; the loop is left at the first entry. *)
Definition init_top (fuel : nat) (f : frame) : outcome (frame * Z) :=
  let f := open_map f MDV_MAP_TRLOG SILENT_INT in
  if negb (mdv_map_ok (fr_map f)) then Done (f, 0%Z) else
  r ← foreach fuel f ([], []) MDV_CURSOR_LAST MDV_CURSOR_NEXT
        (fun _ kv => Done (u64 (of_le (take 8 kv.1) + 1), true)) 0%Z;
  let '(f, top) := r in Done (close_map f, top).

Definition init_applied (f : frame) : frame * Z :=
  let f := open_map f MDV_MAP_APPLIED SILENT_INT in
  if negb (mdv_map_ok (fr_map f)) then (f, 0%Z) else
  let pos := match mdv_map_get (fr_map f) (fr_txn f) MDV_TRLOG_APPLIED_POS_KEY with
             | Some v => of_le (take 8 v)
             | None => 0%Z
             end in
  (close_map f, pos).

Definition mdv_trlog_init (fuel : nat) (t : mdv_trlog) : outcome mdv_trlog :=
  let t := set_applied (set_top t 0) 0 in
  let f := start (enter (l_storage t)) in
  if negb (mdv_transaction_ok (fr_txn f)) then Done (set_storage t (fr_st f)) else
  r ← init_top fuel f;
  let '(f, top) := r in
  let '(f, pos) := init_applied f in
  let f := abort f in
  Done (set_storage (set_applied (set_top t top) pos) (fr_st f)).

(** [mem]: the event is allocated. *)
Definition mdv_trlog_changed_notify (mem : bool) (t : mdv_trlog) : mdv_trlog :=
  if mem then mk_trlog (l_uuid t) (l_id t) (l_storage t) (l_top t) (l_applied t) (l_events t ++ [l_uuid t]) else t.

(** ** Opening *)

Inductive open_fn := Fn_free_open | Fn_free | Fn_storage_release | Fn_ebus_release.
Inductive open_res := Res_rollbacker | Res_trlog | Res_storage | Res_ebus.

Definition push_open (r : option (mdv_rollbacker open_fn open_res)) (g : open_fn) (x : open_res) :=
  snd (mdv_rollbacker_push r (mk_op g [x])).

Definition open_call (s : mdv_lmdb) (c : open_fn * list open_res) : mdv_lmdb :=
  match c with (Fn_storage_release, [Res_storage]) => fst (mdv_storage_release true s) | _ => s end.

(** [mem], [mem_trlog]: the rollbacker and the log are allocated; [opened]: the
    result of [mdv_storage_open]; [subscribed]: that of
    [mdv_ebus_subscribe_all].  The calls are those of the rollback, with the
    storage after them. *)
Definition mdv_trlog_open (fuel : nat) (mem mem_trlog : bool) (opened : option mdv_lmdb) (subscribed : mdv_errno)
    (uuid : mdv_uuid) (id : Z) : outcome (option mdv_trlog * list (open_fn * list open_res) * option mdv_lmdb) :=
  let rbr := mdv_rollbacker_create mem Fn_free_open Res_rollbacker 3 in
  if negb mem_trlog then Done (None, mdv_rollback rbr, None) else
  let rbr := push_open rbr Fn_free Res_trlog in
  match opened with
  | None => Done (None, mdv_rollback rbr, None)
  | Some s =>
      t ← mdv_trlog_init fuel (mk_trlog uuid id s 0 0 []);
      let rbr := push_open rbr Fn_storage_release Res_storage in
      let rbr := push_open rbr Fn_ebus_release Res_ebus in
      if decide (subscribed <> MDV_OK) then
        Done (None, mdv_rollback rbr, Some (foldl open_call (l_storage t) (mdv_rollback rbr)))
      else Done (Some t, [], Some (l_storage t))
  end.

Definition mdv_trlog_retain (t : option mdv_trlog) : option mdv_trlog :=
  match t with None => None | Some t => Some (set_storage t (mdv_storage_retain true (l_storage t))) end.

(** With the last reference of the storage the log is unsubscribed and freed. *)
Definition mdv_trlog_release (t : option mdv_trlog) : Z * option mdv_trlog :=
  match t with
  | None => (0%Z, None)
  | Some t =>
      let '(s, rc) := mdv_storage_release true (l_storage t) in
      (rc, if (rc =? 0)%Z then None else Some (set_storage t s))
  end.

(** ** Numbers *)

Definition mdv_trlog_new_id (t : mdv_trlog) : mdv_trlog * Z := (set_top t (u64 (l_top t + 1)), l_top t).

(** The loop with the compare-and-exchange, when no other thread interferes. *)
Definition mdv_trlog_id_maximize (t : mdv_trlog) (id : Z) : mdv_trlog :=
  let id := u64 (id + 1) in
  if (l_top t <? id)%Z then set_top t id else t.

Definition mdv_trlog_applied_pos_set (t : mdv_trlog) (applied_pos : Z) : mdv_trlog :=
  let t := set_applied t applied_pos in
  let f := start (enter (l_storage t)) in
  if negb (mdv_transaction_ok (fr_txn f)) then set_storage t (fr_st f) else
  let f := open_map f MDV_MAP_APPLIED CREATE_INT in
  if negb (mdv_map_ok (fr_map f)) then set_storage t (fr_st (abort f)) else
  let '(f, ok) := put f MDV_TRLOG_APPLIED_POS_KEY (to_le 8 applied_pos) in
  if ok then set_storage t (fr_st (close_map (fst (commit f))))
  else set_storage t (fr_st (abort (close_map f))).

(** ** Additions; [mem], [mem_evt]: the rollbacker and the event are allocated *)

Fixpoint add_loop (ops : list mdv_trlog_data) (f : frame) (t : mdv_trlog) (changed : bool) : frame * mdv_trlog * bool :=
  match ops with
  | [] => (f, t, changed)
  | (id, op) :: ops =>
      let '(f, ok) := put_unique f (to_le 8 id) (take (Z.to_nat (op_size op)) op) in
      if ok then add_loop ops f (mdv_trlog_id_maximize t id) true else add_loop ops f t changed
  end.

Definition mdv_trlog_add (mem mem_evt : bool) (t : mdv_trlog) (ops : list mdv_trlog_data) : mdv_trlog * bool :=
  let rbr := new_rollbacker mem 2 in
  let f := start (enter (l_storage t)) in
  if negb (mdv_transaction_ok (fr_txn f)) then (set_storage t (fr_st (rollback rbr f)), false) else
  let rbr := push_op rbr Fn_transaction_abort Var_transaction in
  let f := open_map f MDV_MAP_TRLOG CREATE_INT in
  if negb (mdv_map_ok (fr_map f)) then (set_storage t (fr_st (rollback rbr f)), false) else
  let rbr := push_op rbr Fn_map_close Var_map in
  let '(f, t, changed) := add_loop ops f t false in
  let '(f, ok) := commit f in
  if negb ok then (set_storage t (fr_st (rollback rbr f)), false) else
  let f := close_map f in
  let t := set_storage t (fr_st f) in
  (if changed then mdv_trlog_changed_notify mem_evt t else t, true).

Definition mdv_trlog_add_op (mem mem_evt : bool) (t : mdv_trlog) (op : bytes) : mdv_trlog * bool :=
  let rbr := new_rollbacker mem 2 in
  let f := start (enter (l_storage t)) in
  if negb (mdv_transaction_ok (fr_txn f)) then (set_storage t (fr_st (rollback rbr f)), false) else
  let rbr := push_op rbr Fn_transaction_abort Var_transaction in
  let f := open_map f MDV_MAP_TRLOG CREATE_INT in
  if negb (mdv_map_ok (fr_map f)) then (set_storage t (fr_st (rollback rbr f)), false) else
  let rbr := push_op rbr Fn_map_close Var_map in
  let '(t, id) := mdv_trlog_new_id t in
  let '(f, ok) := put_unique f (to_le 8 id) (take (Z.to_nat (op_size op)) op) in
  if negb ok then (set_storage t (fr_st (rollback rbr f)), false) else
  let '(f, ok) := commit f in
  if negb ok then (set_storage t (fr_st (rollback rbr f)), false) else
  let f := close_map f in
  (mdv_trlog_changed_notify mem_evt (set_storage t (fr_st f)), true).

(** ** Reads; [alloc n]: the entry [n] is allocated *)

(** The entry for a key and a value; an operation whose size is not that of
    the value fails the assertion. *)
Definition read_op (kv : bytes * bytes) : outcome mdv_trlog_data :=
  if decide (op_size kv.2 = Z.of_nat (length kv.2)) then Done (of_le (take 8 kv.1), take (Z.to_nat (op_size kv.2)) kv.2)
  else OutOfBounds (op_size kv.2).

Definition read_body (alloc : nat -> bool) (size : Z) (acc : list mdv_trlog_data) (kv : bytes * bytes)
  : outcome (list mdv_trlog_data * bool) :=
  if negb (alloc (length acc)) then Done (acc, true) else
  op ← read_op kv;
  let acc := acc ++ [op] in
  Done (acc, (size <=? Z.of_nat (length acc))%Z).

Definition range_body (alloc : nat -> bool) (to : Z) (acc : list mdv_trlog_data) (kv : bytes * bytes)
  : outcome (list mdv_trlog_data * bool) :=
  let id := of_le (take 8 kv.1) in
  if (to <=? id)%Z then Done (acc, true) else
  if negb (alloc (length acc)) then Done (acc, true) else
  op ← read_op kv;
  Done (acc ++ [op], false).

(** The two functions differ in the body of their loop; the result is the list
    of the entries, whose length is the returned count. *)
Definition read_with (fuel : nat) (mem : bool) (t : mdv_trlog) (from : Z)
    (body : list mdv_trlog_data -> bytes * bytes -> outcome (list mdv_trlog_data * bool))
  : outcome (mdv_trlog * list mdv_trlog_data) :=
  let rbr := new_rollbacker mem 2 in
  let f := start (enter (l_storage t)) in
  if negb (mdv_transaction_ok (fr_txn f)) then Done (set_storage t (fr_st (rollback rbr f)), []) else
  let rbr := push_op rbr Fn_transaction_abort Var_transaction in
  let f := open_map f MDV_MAP_TRLOG SILENT_INT in
  if negb (mdv_map_ok (fr_map f)) then Done (set_storage t (fr_st (rollback rbr f)), []) else
  let rbr := push_op rbr Fn_map_close Var_map in
  r ← foreach fuel f (to_le 8 from, []) MDV_CURSOR_SET_RANGE MDV_CURSOR_NEXT body [];
  let '(f, ops) := r in
  let f := abort (close_map f) in
  Done (set_storage t (fr_st f), ops).

Definition mdv_trlog_read (fuel : nat) (mem : bool) (alloc : nat -> bool) (t : mdv_trlog) (pos size : Z)
  : outcome (mdv_trlog * list mdv_trlog_data) := read_with fuel mem t pos (read_body alloc size).

Definition mdv_trlog_range_read (fuel : nat) (mem : bool) (alloc : nat -> bool) (t : mdv_trlog) (from to : Z)
  : outcome (mdv_trlog * list mdv_trlog_data) := read_with fuel mem t from (range_body alloc to).

Definition mdv_trlog_changed (t : mdv_trlog) : bool := (l_applied t <? l_top t)%Z.

(** ** Application *)

Section Callback.
Context {S : Type}.

(** The loop over the entries: the state of the callback, the position after
    the last operation it accepted, and their number. *)
Fixpoint apply_loop (fn : S -> bytes -> S * bool) (ops : list mdv_trlog_data) (arg : S) (pos : Z) (n : nat) : S * Z * nat :=
  match ops with
  | [] => (arg, pos, n)
  | (id, op) :: ops =>
      let '(arg, ok) := fn arg op in
      if ok then apply_loop fn ops arg (u64 (id + 1)) (Datatypes.S n) else (arg, pos, n)
  end.

Definition mdv_trlog_apply (fuel : nat) (mem : bool) (alloc : nat -> bool) (t : mdv_trlog) (batch_size : Z)
    (arg : S) (fn : S -> bytes -> S * bool) : outcome (mdv_trlog * S * nat) :=
  let applied_pos := l_applied t in
  if (l_top t <=? applied_pos)%Z then Done (t, arg, 0) else
  r ← mdv_trlog_read fuel mem alloc t applied_pos batch_size;
  let '(t, ops) := r in
  if (length ops =? 0)%nat then Done (t, arg, 0) else
  let '(arg, pos, n) := apply_loop fn ops arg applied_pos 0 in
  Done (if (n =? 0)%nat then t else mdv_trlog_applied_pos_set t pos, arg, n).

Fixpoint foreach_fn (fn : S -> mdv_trlog_data -> S * bool) (ops : list mdv_trlog_data) (arg : S) (n : nat) : S * nat :=
  match ops with
  | [] => (arg, n)
  | op :: ops => let '(arg, ok) := fn arg op in if ok then foreach_fn fn ops arg (Datatypes.S n) else (arg, n)
  end.

Definition mdv_trlog_foreach (fuel : nat) (mem : bool) (alloc : nat -> bool) (t : mdv_trlog) (id batch_size : Z)
    (arg : S) (fn : S -> mdv_trlog_data -> S * bool) : outcome (mdv_trlog * S * nat) :=
  r ← mdv_trlog_read fuel mem alloc t id batch_size;
  let '(t, ops) := r in
  if (length ops =? 0)%nat then Done (t, arg, 0) else
  let '(arg, n) := foreach_fn fn ops arg 0 in Done (t, arg, n).

End Callback.

(** ** The abstract log: the operations by their number *)

Definition op_ok (op : bytes) : Prop := op_size op = Z.of_nat (length op).

Definition log_map (d : database) : gmap bytes bytes := default ∅ (d !! MDV_MAP_TRLOG).

Definition decode (e : bytes * bytes) : mdv_trlog_data := (of_le e.1, e.2).

Definition log (d : database) : gmap Z bytes := list_to_map (decode <$> map_to_list (log_map d)).

(** The stored log is well formed: integer keys of eight bytes and operations
    of the size they state. *)
Record log_ok (d : database) (i : gset string) : Prop := {
  lk_int : is_Some (d !! MDV_MAP_TRLOG) -> MDV_MAP_TRLOG ∈ i;
  lk_key : forall k v, log_map d !! k = Some v -> length k = 8 /\ Forall is_byte k /\ op_ok v
}.

(** A number that a log can hold, and after which there is another one. *)
Definition id_ok (id : Z) : Prop := (0 <= id < 2 ^ 64 - 1)%Z.

Lemma key_id k : length k = 8 -> Forall is_byte k -> to_le 8 (of_le k) = k.
Proof. intros Hl Hb. rewrite <- Hl. by apply to_of_le. Qed.

Lemma id_key id : (0 <= id < 2 ^ 64)%Z -> of_le (to_le 8 id) = id.
Proof. intros. apply of_to_le_id. done. Qed.

Lemma key_valid id : valid_key (to_le 8 id).
Proof. unfold valid_key. rewrite length_to_le. lia. Qed.

Lemma key_range k : length k = 8 -> Forall is_byte k -> (0 <= of_le k < 2 ^ 64)%Z.
Proof. intros Hl Hb. pose proof (of_le_bound k Hb) as Hk. by rewrite Hl in Hk. Qed.

Lemma decode_nodup d i : log_ok d i -> NoDup (decode <$> map_to_list (log_map d)).*1.
Proof.
  intros Hd. rewrite <- list_fmap_compose. apply NoDup_fmap_2_strong; [|apply NoDup_map_to_list].
  intros [k1 v1] [k2 v2] H1%elem_of_map_to_list H2%elem_of_map_to_list He. cbn in He.
  destruct (lk_key _ _ Hd _ _ H1) as (L1 & B1 & _). destruct (lk_key _ _ Hd _ _ H2) as (L2 & B2 & _).
  assert (k1 = k2) as -> by (rewrite <- (key_id k1), <- (key_id k2) by done; by rewrite He). congruence.
Qed.

Lemma log_lookup d i id op :
  log_ok d i -> log d !! id = Some op <-> (0 <= id < 2 ^ 64)%Z /\ log_map d !! to_le 8 id = Some op.
Proof.
  intros Hd. unfold log. rewrite <- elem_of_list_to_map by (by eapply decode_nodup). rewrite list_elem_of_fmap. split.
  - intros ([k v] & [= -> ->] & Hk%elem_of_map_to_list). destruct (lk_key _ _ Hd _ _ Hk) as (L & B & _).
    rewrite key_id by done. split; [by apply key_range|done].
  - intros [Hr Hk]. exists (to_le 8 id, op). unfold decode. cbn [fst snd]. rewrite id_key by done. split; [done|]. by apply elem_of_map_to_list.
Qed.

Lemma log_lookup2 d i id : log_ok d i -> (0 <= id < 2 ^ 64)%Z -> log d !! id = log_map d !! to_le 8 id.
Proof. intros Hd Hr. apply option_eq. intros op. rewrite (log_lookup _ i) by done. tauto. Qed.

Lemma log_map_ensure n d : log_map (ensure n d) = log_map d.
Proof. unfold log_map. rewrite ensure_lookup. by case_decide; [subst n|]. Qed.

Lemma log_ensure n d : log (ensure n d) = log d.
Proof. unfold log. by rewrite log_map_ensure. Qed.

Lemma log_map_same d d' : d' !! MDV_MAP_TRLOG = d !! MDV_MAP_TRLOG -> log_map d' = log_map d.
Proof. unfold log_map. by intros ->. Qed.

(** Storing an operation under its number. *)
Definition insert_op (id : Z) (op : bytes) (d : database) : database :=
  alter (fun m => <[to_le 8 id := op]> m) MDV_MAP_TRLOG d.

Lemma log_map_insert_op id op d : is_Some (d !! MDV_MAP_TRLOG) -> log_map (insert_op id op d) = <[to_le 8 id := op]> (log_map d).
Proof. intros [m Hm]. unfold log_map, insert_op. by rewrite lookup_alter_eq, Hm. Qed.

Lemma log_insert_op d i id op :
  log_ok d i -> is_Some (d !! MDV_MAP_TRLOG) -> (0 <= id < 2 ^ 64)%Z -> op_ok op ->
  log_ok (insert_op id op d) i /\ log (insert_op id op d) = <[id := op]> (log d).
Proof.
  intros Hd Hm Hr Hop. assert (Hok : log_ok (insert_op id op d) i).
  { split; [intros _; by apply Hd|]. intros k v. rewrite log_map_insert_op by done. intros [[<- <-]|[_ Hk]]%lookup_insert_Some.
    - by rewrite length_to_le; split_and!; [|apply to_le_bytes|].
    - by apply (lk_key _ _ Hd). }
  split; [done|]. apply map_eq. intros j. apply option_eq. intros v. rewrite (log_lookup _ i) by done.
  rewrite log_map_insert_op, !lookup_insert_Some, (log_lookup _ i) by done. split.
  - intros [Hj [[He ->]|[Hne Hk]]]; [left; split; [|done]|right; split; [by intros ->|done]].
    rewrite <- (id_key id), <- (id_key j) by done. by f_equal.
  - intros [[<- ->]|(Hne & Hj & Hk)]; [auto|]. split; [done|]. right. split; [|done]. intros He. apply Hne.
    rewrite <- (id_key id), <- (id_key j) by done. by f_equal.
Qed.

Context `{!MdbLaws, !MdbCursorLaws}.

(** The entries behind a handle of the log are its operations in order. *)
Lemma entries_log t h i :
  handle t h = Some MDV_MAP_TRLOG -> log_ok (view t) i -> MDV_MAP_TRLOG ∈ txn_int_maps t ->
  decode <$> entries t h = in_order (log (view t)).
Proof.
  intros Hh Hd Hi. destruct (handle_dom _ _ _ Hh) as [m Hm]. pose proof (entries_perm _ _ _ _ Hh Hm) as Hp.
  assert (log_map (view t) = m) as Hlm by (unfold log_map; by rewrite Hm).
  pose proof (entries_sorted _ _ _ Hh) as Hs. rewrite bool_decide_eq_true_2 in Hs by done.
  apply ascending_ext; [|apply in_order_ascending|].
  - assert (NoDup (decode <$> entries t h).*1) as Hnd by (rewrite Hp, <- Hlm; by eapply decode_nodup).
    clear Hp. induction Hs as [|x l _ IH Hx]; [constructor|].
    rewrite !fmap_cons, NoDup_cons in Hnd. destruct Hnd as [Hnx Hnd]. constructor; [by apply IH|].
    apply Forall_fmap, Forall_forall. intros y Hy. rewrite Forall_forall in Hx. specialize (Hx y Hy). cbn in Hx |- *.
    assert (of_le x.1 <> of_le y.1); [|lia]. intros He. apply Hnx.
    rewrite <- list_fmap_compose. apply list_elem_of_fmap. by exists y.
  - intros [id op]. rewrite elem_of_in_order, (log_lookup _ i), list_elem_of_fmap by done. rewrite Hlm. split.
    + intros ([k v] & [= -> ->] & Hk). rewrite Hp, elem_of_map_to_list in Hk. rewrite <- Hlm in Hk.
      destruct (lk_key _ _ Hd _ _ Hk) as (L & B & _). rewrite key_id by done. rewrite <- Hlm. split; [by apply key_range|done].
    + intros [Hr Hk]. exists (to_le 8 id, op). unfold decode. cbn [fst snd]. rewrite id_key by done. split; [done|].
      by rewrite Hp, elem_of_map_to_list.
Qed.

(** ** Additions *)

Definition data_of (t : mdv_trlog) : database := db (s_env (l_storage t)).
Definition ints_of (t : mdv_trlog) : gset string := int_maps (s_env (l_storage t)).

(** The number after the operations. *)
Definition raise (top : Z) (ops : list mdv_trlog_data) : Z := foldl (fun m o => Z.max m (o.1 + 1)) top ops.

(** [top] is above every number of the log. *)
Definition above (top : Z) (m : gmap Z bytes) : Prop := forall id, is_Some (m !! id) -> (id < top)%Z.

Lemma raise_le top ops : (top <= raise top ops)%Z.
Proof. revert top. induction ops as [|o ops IH]; intros top; [done|]. cbn. etrans; [|apply IH]. lia. Qed.

Lemma above_union top m ops :
  above top m -> above (raise top ops) (m ∪ list_to_map ops).
Proof.
  intros Hm id [op [Ho|[_ Ho]]%lookup_union_Some_raw].
  - pose proof (raise_le top ops). specialize (Hm id ltac:(eauto)). lia.
  - apply elem_of_list_to_map_2 in Ho. clear Hm. revert top.
    induction ops as [|o ops IH]; intros top; [by apply not_elem_of_nil in Ho|].
    apply elem_of_cons in Ho as [<-|Ho]; cbn; [|by apply IH].
    pose proof (raise_le (Z.max top (id + 1)) ops). unfold raise in *. lia.
Qed.

Lemma union_taken (m m' : gmap Z bytes) id op : is_Some (m !! id) -> m ∪ <[id := op]> m' = m ∪ m'.
Proof.
  intros [v Hv]. apply map_eq. intros j. destruct (m !! j) as [w|] eqn:E.
  - by rewrite !(lookup_union_Some_l _ _ _ _ E).
  - rewrite !lookup_union_r by done. apply lookup_insert_ne. congruence.
Qed.

Section Operations.
Context (n : Z) (Hn : (1 <= n < 2 ^ 32 - 4)%Z).

Lemma maximize_raise t id : id_ok id -> mdv_trlog_id_maximize t id = set_top t (Z.max (l_top t) (id + 1)).
Proof.
  intros Hid. unfold mdv_trlog_id_maximize. rewrite (wrap_id 64) by (unfold fits, id_ok in *; lia).
  destruct (Z.ltb_spec (l_top t) (id + 1)); [by rewrite Z.max_r by lia|]. rewrite Z.max_l by lia. by destruct t.
Qed.

(** One store of the loop. *)
Lemma put_op f x id op :
  inside n f MDV_MAP_TRLOG x -> log_ok (view x) (txn_int_maps x) -> id_ok id -> op_ok op ->
  let '(f', ok) := put_unique f (to_le 8 id) (take (Z.to_nat (op_size op)) op) in
  exists x', inside n f' MDV_MAP_TRLOG x' /\ fr_st f' = fr_st f /\ txn_int_maps x' = txn_int_maps x
    /\ log_ok (view x') (txn_int_maps x') /\ (forall nm, nm <> MDV_MAP_TRLOG -> view x' !! nm = view x !! nm)
    /\ (if ok then log (view x) !! id = None /\ log (view x') = <[id := op]> (log (view x))
        else view x' = view x /\ (MdbRoom -> is_Some (log (view x) !! id))).
Proof.
  intros Hi Hd Hid Hop. rewrite firstn_all2 by (rewrite Hop; lia). unfold put_unique, mdv_map_put_unique.
  assert (0 <= id < 2 ^ 64)%Z as Hr by (unfold id_ok in *; lia).
  pose proof (put_inside n f MDV_MAP_TRLOG x (to_le 8 id) op MDB_NOOVERWRITE Hi (key_valid id)) as Hp.
  destruct (mdv_map_put_impl _ _ _ _ _) as [t' ok]. destruct Hp as (x' & Hi' & Hint & Hv & Hnone & Hroom).
  specialize (Hnone ltac:(done)). destruct (handle_dom _ _ _ (in_hnd _ _ _ _ Hi)) as [m Hm].
  assert (Hlk : lookup2 (view x) MDV_MAP_TRLOG (to_le 8 id) = log (view x) !! id).
  { rewrite (log_lookup2 _ _ _ Hd Hr). unfold lookup2, log_map. by rewrite Hm. }
  rewrite Hlk in *. exists x'. split_and!; try done.
  - rewrite Hint, Hv. destruct ok; [|done]. by eapply log_insert_op.
  - intros nm Hne. rewrite Hv. destruct ok; [|done]. by rewrite lookup_alter_ne.
  - destruct ok; [split; [auto|]; rewrite Hv; by eapply log_insert_op|]. split; [done|]. intros Hrm.
    destruct (log (view x) !! id) eqn:E; [eauto|]. by specialize (Hroom Hrm ltac:(by right)).
Qed.

Lemma add_loop_ok ops f x t changed :
  inside n f MDV_MAP_TRLOG x -> log_ok (view x) (txn_int_maps x) -> Forall (fun o => id_ok o.1 /\ op_ok o.2) ops ->
  above (l_top t) (log (view x)) ->
  let '(f', t', changed') := add_loop ops f t changed in
  exists x' ops', inside n f' MDV_MAP_TRLOG x' /\ fr_st f' = fr_st f /\ txn_int_maps x' = txn_int_maps x
    /\ log_ok (view x') (txn_int_maps x') /\ (forall nm, nm <> MDV_MAP_TRLOG -> view x' !! nm = view x !! nm)
    /\ ops' `sublist_of` ops /\ (MdbRoom -> ops' = ops) /\ log (view x') = log (view x) ∪ list_to_map ops'
    /\ t' = set_top t (raise (l_top t) ops')
    /\ changed' = changed || bool_decide (log (view x') <> log (view x)).
Proof.
  intros Hi Hd Hops. revert f x t changed Hi Hd. induction Hops as [|[id op] ops [Hid Hop] _ IH]; intros f x t changed Hi Hd Ha.
  { exists x, []. cbn. rewrite bool_decide_eq_false_2, orb_false_r, map_union_empty by naive_solver. destruct t. by split_and!. }
  cbn [add_loop]. cbn in Hid, Hop. pose proof (put_op f x id op Hi Hd Hid Hop) as Hp.
  destruct (put_unique _ _ _) as [f1 ok]. destruct Hp as (x1 & Hi1 & Hst1 & Hint1 & Hd1 & Hoth1 & Hlog1). destruct ok.
  - destruct Hlog1 as [Hnone Hlog1]. rewrite (maximize_raise t id Hid).
    assert (Ha1 : above (l_top (set_top t (Z.max (l_top t) (id + 1)))) (log (view x1))).
    { rewrite Hlog1. intros j [w [[<- _]|[_ Hj]]%lookup_insert_Some]; cbn; [lia|]. specialize (Ha j ltac:(eauto)). lia. }
    specialize (IH f1 x1 _ true Hi1 Hd1 Ha1). destruct (add_loop _ _ _ _) as [[f2 t2] c2].
    destruct IH as (x2 & ops2 & Hi2 & Hst2 & Hint2 & Hd2 & Hoth2 & Hsub & Hroom & Hlog2 & -> & ->).
    exists x2, ((id, op) :: ops2). split_and!; try done; try congruence.
    + intros nm Hne. by rewrite Hoth2, Hoth1.
    + by apply sublist_skip.
    + intros Hr. by rewrite Hroom.
    + rewrite Hlog2, Hlog1. cbn. rewrite <- insert_union_l. by rewrite insert_union_r.
    + cbn. rewrite bool_decide_eq_true_2, orb_true_r; [done|]. rewrite Hlog2, Hlog1. intros He.
      assert (log (view x) !! id = Some op) as Hs; [|congruence]. rewrite <- He. rewrite <- insert_union_l. apply lookup_insert_eq.
  - destruct Hlog1 as [Hv Hrm]. specialize (IH f1 x1 t changed Hi1 Hd1). rewrite Hv in IH. specialize (IH Ha).
    destruct (add_loop _ _ _ _) as [[f2 t2] c2].
    destruct IH as (x2 & ops2 & Hi2 & Hst2 & Hint2 & Hd2 & Hoth2 & Hsub & Hroom & Hlog2 & -> & ->).
    destruct (log (view x) !! id) as [w|] eqn:Ew.
    + exists x2, ((id, op) :: ops2). split_and!; try done; try congruence; [by apply sublist_skip|intros Hr; by rewrite Hroom| |].
      * rewrite Hlog2. cbn. symmetry. apply union_taken. eauto.
      * cbn. specialize (Ha id ltac:(eauto)). by rewrite (Z.max_l (l_top t)) by lia.
    + exists x2, ops2. split_and!; try done; try congruence; [by apply sublist_cons|]. intros Hr. by destruct (Hrm Hr).
Qed.

(** ** The invariant of a log *)

Record trlog_ok (t : mdv_trlog) : Prop := {
  ok_live : live n (l_storage t);
  ok_log : log_ok (data_of t) (ints_of t);
  ok_above : above (l_top t) (log (data_of t));
  ok_top : (0 <= l_top t < 2 ^ 64)%Z;
  ok_applied : (0 <= l_applied t < 2 ^ 64)%Z
}.

(** Nothing but the log differs. *)
Definition only_log (d d' : database) : Prop := forall nm, nm <> MDV_MAP_TRLOG -> d' !! nm = d !! nm.

(** The beginning of the functions that use the log. *)
Lemma open_log t flags :
  trlog_ok t -> Z.land (map_flags flags) MDB_INTEGERKEY <> 0%Z ->
  let f0 := enter (l_storage t) in
  let f1 := start f0 in
  let f2 := open_map f1 MDV_MAP_TRLOG flags in
  if negb (mdv_transaction_ok (fr_txn f1)) then clean n f0 f1
  else if negb (mdv_map_ok (fr_map f2)) then clean n f0 (abort f2)
  else exists x, inside n f2 MDV_MAP_TRLOG x /\ data f2 = data_of t /\ ints f2 = ints_of t
    /\ log_ok (view x) (txn_int_maps x) /\ MDV_MAP_TRLOG ∈ txn_int_maps x /\ log (view x) = log (data_of t)
    /\ only_log (data_of t) (view x)
    /\ (Z.land (map_flags flags) MDB_CREATE = 0%Z -> is_Some (data_of t !! MDV_MAP_TRLOG)).
Proof.
  intros Hok Hf f0 f1 f2. pose proof (opened n Hn f0 MDV_MAP_TRLOG flags (balanced_enter n _ (ok_live _ Hok)) (idle_enter _)) as Ho.
  cbn zeta in Ho. fold f1 f2 in Ho. destruct (negb (mdv_transaction_ok (fr_txn f1))); [done|].
  destruct (negb (mdv_map_ok (fr_map f2))); [done|].
  destruct Ho as (x & Hi & Hd & Hint & Hv & Hix & Hiy & Hc). exists x.
  change (data f0) with (data_of t) in *. change (ints f0) with (ints_of t) in *.
  assert (Hin : MDV_MAP_TRLOG ∈ txn_int_maps x).
  { apply Hix. unfold opened_int. case_decide as E; [done|]. apply (lk_int _ _ (ok_log _ Hok)). by apply not_eq_None_Some. }
  split_and!; try done.
  - split; [done|]. rewrite Hv, log_map_ensure. apply (lk_key _ _ (ok_log _ Hok)).
  - by rewrite Hv, log_ensure.
  - intros nm Hne. by rewrite Hv, ensure_lookup, decide_False.
Qed.

(** A frame that was left cleanly. *)
Lemma clean_ok t f :
  trlog_ok t -> clean n (enter (l_storage t)) f ->
  trlog_ok (set_storage t (fr_st f)) /\ data_of (set_storage t (fr_st f)) = data_of t.
Proof.
  intros [Hl Hg Ha Ht Hp] Hc. pose proof (clean_live _ _ _ Hc) as Hl'. destruct Hc as (_ & _ & Hd & Hi).
  change (data_of (set_storage t (fr_st f))) with (data f). split; [|by rewrite Hd].
  split; cbn; try done; unfold data_of, ints_of; cbn; change (db (s_env (fr_st f))) with (data f);
    change (int_maps (s_env (fr_st f))) with (ints f); by rewrite ?Hd, ?Hi.
Qed.

(** A frame whose transaction was committed. *)
Lemma committed_ok t f x :
  trlog_ok t -> balanced n f -> idle f -> data f = view x -> ints f = txn_int_maps x -> log_ok (view x) (txn_int_maps x) ->
  above (l_top t) (log (view x)) -> trlog_ok (set_storage t (fr_st f)).
Proof.
  intros [Hl Hg Ha Ht Hp] Hb Hi Hd Hn' Hlg Hab. split; cbn; try done; [by apply idle_live| |];
    unfold data_of, ints_of; cbn; change (db (s_env (fr_st f))) with (data f);
    change (int_maps (s_env (fr_st f))) with (ints f); by rewrite ?Hd, ?Hn'.
Qed.

Lemma raise_range top ops :
  (0 <= top < 2 ^ 64)%Z -> Forall (fun o => id_ok o.1 /\ op_ok o.2) ops -> (0 <= raise top ops < 2 ^ 64)%Z.
Proof.
  intros Ht Hops. revert top Ht. induction Hops as [|o ops [Ho _] _ IH]; intros top Ht; [done|]. cbn. apply IH.
  unfold id_ok in Ho. lia.
Qed.

Lemma set_top_ok t top :
  trlog_ok t -> (l_top t <= top < 2 ^ 64)%Z -> trlog_ok (set_top t top).
Proof. intros [Hl Hg Ha Ht Hp] Hle. split; cbn; try done; [|lia]. intros id Hid. specialize (Ha id Hid). lia. Qed.

Definition ops_ok (ops : list mdv_trlog_data) : Prop := Forall (fun o => id_ok o.1 /\ op_ok o.2) ops.

Lemma sublist_ops_ok ops' ops : ops' `sublist_of` ops -> ops_ok ops -> ops_ok ops'.
Proof. intros Hs Ho. apply Forall_forall. intros o Hin. eapply Forall_forall in Ho; eauto using elem_of_sublist. Qed.

(** The end of an addition: the loop, the commit and the notification. *)
Lemma add_end t f x ops mem_evt rbr :
  trlog_ok t -> ops_ok ops -> inside n f MDV_MAP_TRLOG x -> data f = data_of t -> ints f = ints_of t ->
  log_ok (view x) (txn_int_maps x) -> log (view x) = log (data_of t) -> only_log (data_of t) (view x) ->
  (forall f, rollback rbr f = abort (close_map f)) ->
  let '(t', ok) :=
    let '(f, t, changed) := add_loop ops f t false in
    let '(f, ok) := commit f in
    if negb ok then (set_storage t (fr_st (rollback rbr f)), false) else
    let f := close_map f in
    let t := set_storage t (fr_st f) in
    (if changed then mdv_trlog_changed_notify mem_evt t else t, true) in
  trlog_ok t' /\ l_applied t' = l_applied t /\ (MdbReliable -> ok = true) /\ (l_top t <= l_top t')%Z
  /\ if ok then exists ops', ops' `sublist_of` ops /\ (MdbRoom -> ops' = ops)
       /\ log (data_of t') = log (data_of t) ∪ list_to_map ops' /\ l_top t' = raise (l_top t) ops'
       /\ only_log (data_of t) (data_of t')
       /\ l_events t' = l_events t ++ (if mem_evt && bool_decide (log (data_of t') <> log (data_of t)) then [l_uuid t] else [])
     else data_of t' = data_of t /\ l_events t' = l_events t.
Proof.
  intros Hok Hops Hi Hd Hint Hlg Hle Hoth Hrb. pose proof (add_loop_ok ops f x t false Hi Hlg Hops) as Hl.
  rewrite Hle in Hl. specialize (Hl (ok_above _ Hok)). destruct (add_loop ops f t false) as [[f1 t1] changed].
  destruct Hl as (x1 & ops1 & Hi1 & Hst & _ & Hlg1 & Hoth1 & Hsub & Hroom & Hlog1 & -> & ->).
  pose proof (raise_le (l_top t) ops1) as Hle1. pose proof (raise_range _ _ (ok_top _ Hok) (sublist_ops_ok _ _ Hsub Hops)) as Hr1.
  pose proof (set_top_ok t _ Hok (conj Hle1 (proj2 Hr1))) as Hok1.
  pose proof (commit_inside n Hn _ _ _ Hi1) as Hc. pose proof (fun _ : MdbReliable => commit_reliable_ok f1 x1 (in_txn _ _ _ _ Hi1)) as Hrel.
  destruct (commit f1) as [f2 ok]. cbn in Hrel. destruct ok; cbn [negb].
  - destruct Hc as (B & I & Hd2 & Hi2). rewrite orb_false_l. set (t2 := set_storage _ _).
    assert (Hok2 : trlog_ok t2).
    { eapply committed_ok; eauto. rewrite Hlog1. apply above_union, Hok. }
    assert (Hd' : data_of t2 = view x1) by exact Hd2.
    assert (Hcase : let t' := if bool_decide (log (view x1) <> log (data_of t)) then mdv_trlog_changed_notify mem_evt t2 else t2 in
              l_events t' = l_events t ++ (if mem_evt && bool_decide (log (view x1) <> log (data_of t)) then [l_uuid t] else [])
              /\ data_of t' = data_of t2 /\ l_top t' = l_top t2 /\ l_applied t' = l_applied t /\ (trlog_ok t2 -> trlog_ok t')).
    { unfold mdv_trlog_changed_notify. destruct (bool_decide _), mem_evt; cbn; rewrite ?app_nil_r; split_and!; try done.
      intros []. by split. }
    destruct Hcase as (He & Hdd & Htt & Haa & Hoo). cbn zeta. split_and!; [auto|done|done|rewrite Htt; done|].
    rewrite Hdd, Hd', Htt. exists ops1. split_and!; try done. intros nm Hne. rewrite Hoth1, Hoth by done. done.
  - rewrite Hrb. assert (clean n (enter (l_storage (set_top t (raise (l_top t) ops1)))) (abort (close_map f2))) as Hcl.
    { destruct Hc as (B & I & D2 & I2). unfold clean. unfold data, ints in *. rewrite Hst in D2, I2.
      split_and!; [done..|exact (eq_trans D2 Hd)|exact (eq_trans I2 Hint)]. }
    destruct (clean_ok _ _ Hok1 Hcl) as [Hok2 Hd2]. by split_and!.
Qed.

Lemma add_runs t ops mem_evt :
  trlog_ok t -> ops_ok ops ->
  let '(t', ok) := mdv_trlog_add true mem_evt t ops in
  trlog_ok t' /\ l_applied t' = l_applied t /\ (MdbReliable -> ok = true) /\ (l_top t <= l_top t')%Z
  /\ if ok then exists ops', ops' `sublist_of` ops /\ (MdbRoom -> ops' = ops)
       /\ log (data_of t') = log (data_of t) ∪ list_to_map ops' /\ l_top t' = raise (l_top t) ops'
       /\ only_log (data_of t) (data_of t')
       /\ l_events t' = l_events t ++ (if mem_evt && bool_decide (log (data_of t') <> log (data_of t)) then [l_uuid t] else [])
     else data_of t' = data_of t /\ l_events t' = l_events t.
Proof.
  intros Hok Hops. pose proof (open_log t CREATE_INT Hok ltac:(done)) as Ho. cbn zeta in Ho.
  pose proof (fun _ : MdbReliable => opened_reliable n Hn (enter (l_storage t)) MDV_MAP_TRLOG CREATE_INT
    (balanced_enter n _ (ok_live _ Hok)) (idle_enter _) ltac:(by right)) as Hrel.
  unfold mdv_trlog_add. destruct (mdv_transaction_ok _) eqn:E1; cbn [negb] in *.
  2: { rewrite rollback_none. destruct (clean_ok _ _ Hok Ho) as [Hok2 Hd2]. split_and!; try done; intros Hr; by destruct (Hrel Hr). }
  destruct (mdv_map_ok _) eqn:E2; cbn [negb] in *.
  2: { rewrite rollback_txn by lia. destruct (clean_ok _ _ Hok Ho) as [Hok2 Hd2]. split_and!; try done; intros Hr; by destruct (Hrel Hr). }
  destruct Ho as (x & Hi & Hd & Hint & Hlg & _ & Hle & Hoth & _). eapply add_end; eauto.
Qed.

Lemma add_op_id mem mem_evt t op : l_id (mdv_trlog_add_op mem mem_evt t op).1 = l_id t.
Proof.
  unfold mdv_trlog_add_op, mdv_trlog_changed_notify. cbv zeta. destruct (mdv_trlog_new_id t) as [t' id] eqn:E.
  assert (l_id t' = l_id t) by (unfold mdv_trlog_new_id in E; by injection E as <- <-). by repeat case_match.
Qed.

Lemma add_op_runs t op mem_evt :
  trlog_ok t -> op_ok op -> (l_top t < 2 ^ 64 - 1)%Z ->
  let '(t', ok) := mdv_trlog_add_op true mem_evt t op in
  trlog_ok t' /\ l_applied t' = l_applied t /\ (MdbReliable -> MdbRoom -> ok = true)
  /\ if ok then log (data_of t') = <[l_top t := op]> (log (data_of t)) /\ log (data_of t) !! l_top t = None
       /\ l_top t' = (l_top t + 1)%Z /\ only_log (data_of t) (data_of t')
       /\ l_events t' = l_events t ++ (if mem_evt then [l_uuid t] else [])
     else data_of t' = data_of t /\ l_events t' = l_events t /\ (l_top t <= l_top t' <= l_top t + 1)%Z.
Proof.
  intros Hok Hop Htop. pose proof (ok_top _ Hok) as Hr. pose proof (open_log t CREATE_INT Hok ltac:(done)) as Ho. cbn zeta in Ho.
  pose proof (fun _ : MdbReliable => opened_reliable n Hn (enter (l_storage t)) MDV_MAP_TRLOG CREATE_INT
    (balanced_enter n _ (ok_live _ Hok)) (idle_enter _) ltac:(by right)) as Hrel.
  assert (Hnew : log (data_of t) !! l_top t = None).
  { destruct (log (data_of t) !! l_top t) eqn:E; [|done]. pose proof (ok_above _ Hok (l_top t) ltac:(eauto)). lia. }
  assert (Hclean : forall f, clean n (enter (l_storage t)) f -> forall top, (l_top t <= top <= l_top t + 1)%Z ->
            let t' := set_storage (set_top t top) (fr_st f) in trlog_ok t' /\ data_of t' = data_of t).
  { intros f Hc top Ht. apply (clean_ok (set_top t top)); [|done]. apply set_top_ok; [done|lia]. }
  unfold mdv_trlog_add_op. destruct (mdv_transaction_ok _) eqn:E1; cbn [negb] in *.
  2: { rewrite rollback_none. destruct (clean_ok _ _ Hok Ho) as [Hok2 Hd2].
       split_and!; try done; try (intros Hr1; by destruct (Hrel Hr1)); cbn; lia. }
  destruct (mdv_map_ok _) eqn:E2; cbn [negb] in *.
  2: { rewrite rollback_txn by lia. destruct (clean_ok _ _ Hok Ho) as [Hok2 Hd2].
       split_and!; try done; try (intros Hr1; by destruct (Hrel Hr1)); cbn; lia. }
  destruct Ho as (x & Hi & Hd & Hint & Hlg & _ & Hle & Hoth & _). unfold mdv_trlog_new_id.
  rewrite (wrap_id 64) by (unfold fits; lia). set (f := open_map _ _ _) in *. cbn zeta.
  pose proof (put_op f x (l_top t) op Hi Hlg ltac:(unfold id_ok; lia) Hop) as Hp. rewrite Hle in Hp.
  destruct (put_unique _ _ _) as [f1 ok1]. destruct Hp as (x1 & Hi1 & Hst1 & _ & Hlg1 & Hoth1 & Hp).
  assert (Hcl : forall f', clean n f1 f' -> clean n (enter (l_storage t)) f').
  { intros f' (B & I & D & N). unfold clean. split_and!; [done..|rewrite D|rewrite N]; unfold data, ints in *; by rewrite Hst1. }
  destruct ok1; cbn [negb].
  2: { rewrite rollback_map by lia. destruct Hp as [_ Hp].
       destruct (Hclean _ (Hcl _ (clean_close_abort n Hn _ (in_bal _ _ _ _ Hi1) (in_cur _ _ _ _ Hi1))) (l_top t + 1)%Z ltac:(lia)) as [Hok2 Hd2].
       split_and!; try done; [|cbn; lia..]. intros _ Hroom. destruct (Hp Hroom). congruence. }
  destruct Hp as [_ Hlog1]. pose proof (commit_inside n Hn _ _ _ Hi1) as Hc.
  pose proof (fun _ : MdbReliable => commit_reliable_ok f1 x1 (in_txn _ _ _ _ Hi1)) as Hcr.
  destruct (commit f1) as [f2 ok2]. cbn [snd] in Hcr. destruct ok2; cbn [negb].
  2: { rewrite rollback_map by lia. destruct (Hclean _ (Hcl _ Hc) (l_top t + 1)%Z ltac:(lia)) as [Hok2 Hd2].
       split_and!; try done; [intros Hr1; by specialize (Hcr Hr1)|cbn; lia..]. }
  destruct Hc as (B & I & Hd2 & Hi2). set (t1 := set_storage (set_top t (l_top t + 1)) (fr_st (close_map f2))).
  assert (Hd' : data_of t1 = view x1) by exact Hd2.
  assert (Hok1 : trlog_ok t1).
  { eapply committed_ok; eauto; [apply set_top_ok; [done|lia]|]. rewrite Hlog1. cbn.
    intros j [w [[<- _]|[_ Hj]]%lookup_insert_Some]; [lia|]. pose proof (ok_above _ Hok j ltac:(eauto)). lia. }
  assert (trlog_ok (mdv_trlog_changed_notify mem_evt t1)) by (destruct mem_evt; [destruct Hok1; by split|done]).
  assert (data_of (mdv_trlog_changed_notify mem_evt t1) = view x1) as -> by (by destruct mem_evt).
  split_and!; try done; [by destruct mem_evt..| |destruct mem_evt; cbn; by rewrite ?app_nil_r].
  intros nm Hne. by rewrite Hoth1, Hoth.
Qed.

(** ** The applied position *)

(** The position kept in the storage. *)
Definition stored_pos (d : database) : Z :=
  match lookup2 d MDV_MAP_APPLIED MDV_TRLOG_APPLIED_POS_KEY with Some v => of_le (take 8 v) | None => 0 end.

(** The stored position is a 64-bit number. *)
Definition pos_ok (d : database) : Prop :=
  forall v, lookup2 d MDV_MAP_APPLIED MDV_TRLOG_APPLIED_POS_KEY = Some v -> Forall is_byte v.

Lemma pos_key_valid : valid_key MDV_TRLOG_APPLIED_POS_KEY.
Proof. unfold valid_key. cbn. lia. Qed.

Lemma applied_pos_set_id t pos : l_id (mdv_trlog_applied_pos_set t pos) = l_id t.
Proof. unfold mdv_trlog_applied_pos_set. cbv zeta. by repeat case_match. Qed.

Lemma applied_pos_set_runs t pos :
  trlog_ok t -> (0 <= pos < 2 ^ 64)%Z ->
  let t' := mdv_trlog_applied_pos_set t pos in
  trlog_ok t' /\ l_applied t' = pos /\ l_top t' = l_top t /\ l_events t' = l_events t /\ l_uuid t' = l_uuid t
  /\ log (data_of t') = log (data_of t)
  /\ (data_of t' = data_of t \/ stored_pos (data_of t') = pos)
  /\ (MdbReliable -> MdbRoom -> stored_pos (data_of t') = pos) /\ (pos_ok (data_of t) -> pos_ok (data_of t')).
Proof.
  intros Hok Hpos. set (t0 := set_applied t pos). assert (Hok0 : trlog_ok t0) by (destruct Hok; by split).
  pose proof (opened n Hn (enter (l_storage t0)) MDV_MAP_APPLIED CREATE_INT (balanced_enter n _ (ok_live _ Hok0)) (idle_enter _)) as Ho.
  cbn zeta in Ho.
  pose proof (fun _ : MdbReliable => opened_reliable n Hn (enter (l_storage t0)) MDV_MAP_APPLIED CREATE_INT
    (balanced_enter n _ (ok_live _ Hok0)) (idle_enter _) ltac:(by right)) as Hrel.
  unfold mdv_trlog_applied_pos_set. fold t0. cbn zeta. destruct (mdv_transaction_ok _) eqn:E1; cbn [negb] in *.
  2: { destruct (clean_ok _ _ Hok0 Ho) as [Hok2 Hd2]. rewrite Hd2. split_and!; try done; [by left|]. intros Hr. by destruct (Hrel Hr). }
  destruct (mdv_map_ok _) eqn:E2; cbn [negb] in *.
  2: { destruct (clean_ok _ _ Hok0 Ho) as [Hok2 Hd2]. rewrite Hd2. split_and!; try done; [by left|]. intros Hr. by destruct (Hrel Hr). }
  destruct Ho as (x & Hi & Hd & Hint & Hv & _ & Hixo & _). set (f := open_map _ _ _) in *.
  change (data (enter (l_storage t0))) with (data_of t) in *. change (ints (enter (l_storage t0))) with (ints_of t) in *.
  pose proof (put_inside n f MDV_MAP_APPLIED x MDV_TRLOG_APPLIED_POS_KEY (to_le 8 pos) 0 Hi pos_key_valid) as Hp.
  unfold put, mdv_map_put. destruct (mdv_map_put_impl _ _ _ _ _) as [tx ok]. destruct Hp as (x1 & Hi1 & Hint1 & Hv1 & _ & Hroom).
  set (f1 := mk_frame _ _ _ _) in *. destruct ok.
  - pose proof (commit_inside n Hn _ _ _ Hi1) as Hc. pose proof (fun _ : MdbReliable => commit_reliable_ok f1 x1 (in_txn _ _ _ _ Hi1)) as Hcr.
    pose proof (commit_ok n Hn f1 (in_bal _ _ _ _ Hi1)) as Hco.
    destruct (commit f1) as [f2 ok2]. cbn [snd fst] in *.
    assert (Hlm : view x1 !! MDV_MAP_TRLOG = data_of t !! MDV_MAP_TRLOG).
    { rewrite Hv1, lookup_alter_ne by done. by rewrite Hv, ensure_lookup, decide_False by done. }
    assert (Hlog : log_map (view x1) = log_map (data_of t)) by (unfold log_map; by rewrite Hlm).
    destruct ok2.
    + destruct Hc as (B & I & Hd2 & Hi2). change (data_of (set_storage t0 (fr_st (close_map f2)))) with (data (close_map f2)).
      rewrite Hd2. assert (stored_pos (view x1) = pos) as Hst.
      { unfold stored_pos, lookup2. rewrite Hv1, lookup_alter_eq, Hv, ensure_lookup, decide_True by done. cbn [fmap option_fmap option_map mbind option_bind].
        rewrite lookup_insert_eq, firstn_all2 by (rewrite length_to_le; lia). by apply id_key. }
      assert (log (view x1) = log (data_of t)) as Hlg by (unfold log; by rewrite Hlog). split_and!; try done; [|by right|].
      2: { intros _ v. unfold lookup2. rewrite Hv1, lookup_alter_eq, Hv, ensure_lookup, decide_True by done.
           cbn [fmap option_fmap option_map mbind option_bind]. rewrite lookup_insert_eq. intros [= <-]. exact (to_le_bytes 8 pos). }
      eapply committed_ok; eauto; [|rewrite Hlg; by apply Hok]. split.
      * intros Hs. rewrite Hint1. apply (Hixo MDV_MAP_TRLOG ltac:(done)). apply (lk_int _ _ (ok_log _ Hok)). by rewrite <- Hlm.
      * rewrite Hlog. by apply (lk_key _ _ (ok_log _ Hok)).
    + destruct Hco as (B2 & T2 & M2 & C2 & Hdd & Hii).
      pose proof (clean_close n Hn f2 B2 T2 ltac:(rewrite C2; apply Hi1)) as (B3 & I3 & D3 & N3).
      assert (clean n (enter (l_storage t0)) (close_map f2)) as Hcl.
      { unfold clean. split_and!; [done..| |]; [rewrite D3, Hdd; exact Hd|rewrite N3, Hii; exact Hint]. }
      destruct (clean_ok _ _ Hok0 Hcl) as [Hok2 Hd2]. rewrite Hd2. split_and!; try done; [by left|]. intros Hr. by specialize (Hcr Hr).
  - assert (clean n (enter (l_storage t0)) (abort (close_map f1))) as Hcl.
    { destruct (clean_close_abort n Hn f1 (in_bal _ _ _ _ Hi1) (in_cur _ _ _ _ Hi1)) as (B & I & D & N). unfold clean.
      split_and!; [done..|rewrite D; exact Hd|rewrite N; exact Hint]. }
    destruct (clean_ok _ _ Hok0 Hcl) as [Hok2 Hd2]. rewrite Hd2. split_and!; try done; [by left|]. intros _ Hrm.
    by specialize (Hroom Hrm ltac:(by left)).
Qed.

(** ** Reads *)

(** The entry of a well-formed log. *)
Definition entry_ok (e : bytes * bytes) : Prop := length e.1 = 8 /\ op_ok e.2.

Lemma read_op_ok e : entry_ok e -> read_op e = Done (decode e) /\ of_le (take 8 e.1) = (decode e).1.
Proof.
  intros [Hk Hop]. unfold read_op, decode. rewrite decide_True by exact Hop.
  by rewrite !firstn_all2 by (rewrite ?Hop; lia).
Qed.

Lemma read_body_ok alloc size acc e :
  entry_ok e ->
  read_body alloc size acc e
  = Done (if alloc (length acc) then (acc ++ [decode e], (size <=? Z.of_nat (length acc + 1))%Z) else (acc, true)).
Proof.
  intros He. unfold read_body. destruct (read_op_ok e He) as [-> _]. cbn [mbind outcome_bind].
  rewrite length_app. by destruct (alloc _).
Qed.

Lemma range_body_ok alloc to acc e :
  entry_ok e ->
  range_body alloc to acc e
  = Done (if (to <=? (decode e).1)%Z then (acc, true) else if alloc (length acc) then (acc ++ [decode e], false) else (acc, true)).
Proof.
  intros He. unfold range_body. destruct (read_op_ok e He) as [-> ->]. destruct (to <=? _)%Z; [done|]. by destruct (alloc _).
Qed.

Lemma read_fold alloc size l acc :
  Forall entry_ok l ->
  exists k, fold_break (read_body alloc size) acc l = Done (acc ++ take k (decode <$> l))
    /\ ((forall i, alloc i = true) -> k = Z.to_nat (Z.max 1 (size - Z.of_nat (length acc)))).
Proof.
  intros Hl. revert acc. induction Hl as [|e l He _ IH]; intros acc.
  { exists (Z.to_nat (Z.max 1 (size - Z.of_nat (length acc)))). split; [|done].
    by rewrite fmap_nil, take_nil, app_nil_r. }
  cbn [fold_break]. rewrite read_body_ok by done. cbn [mbind outcome_bind]. destruct (alloc (length acc)) eqn:Ea.
  2: { exists 0. cbn. rewrite app_nil_r. split; [done|]. intros Hall. by rewrite Hall in Ea. }
  destruct (Z.leb_spec size (Z.of_nat (length acc + 1))).
  - exists 1. cbn. split; [by rewrite take_0|]. intros _. lia.
  - destruct (IH (acc ++ [decode e])) as (k & -> & Hk). exists (S k). cbn. rewrite <- app_assoc. split; [done|].
    intros Hall. rewrite (Hk Hall), length_app. cbn. lia.
Qed.

Lemma range_fold alloc to l acc :
  Forall entry_ok l -> ascending (decode <$> l) ->
  exists k, fold_break (range_body alloc to) acc l = Done (acc ++ take k (filter (fun x => (x.1 < to)%Z) (decode <$> l)))
    /\ ((forall i, alloc i = true) -> k = length l).
Proof.
  intros Hl Hs. revert acc Hs. induction Hl as [|e l He _ IH]; intros acc Hs.
  { exists 0. cbn. by rewrite app_nil_r. }
  cbn [fold_break]. rewrite range_body_ok by done. cbn [mbind outcome_bind].
  rewrite fmap_cons in *. inversion_clear Hs as [|? ? Hs' Hx]. rewrite filter_cons.
  destruct (Z.leb_spec to (decode e).1).
  - rewrite decide_False by lia. exists (S (length l)). split; [|done]. cbn. repeat f_equal.
    assert (filter (fun x => (x.1 < to)%Z) (decode <$> l) = []) as ->; [|by rewrite take_nil, app_nil_r].
    apply elem_of_nil_inv. intros y [Hy Hin]%list_elem_of_filter. rewrite Forall_forall in Hx. specialize (Hx y Hin). cbn in *. lia.
  - rewrite decide_True by lia. destruct (alloc (length acc)) eqn:Ea.
    2: { exists 0. cbn. rewrite app_nil_r. split; [done|]. intros Hall. by rewrite Hall in Ea. }
    destruct (IH (acc ++ [decode e]) Hs') as (k & -> & Hk). exists (S k). cbn.
    rewrite <- app_assoc. split; [done|]. intros Hall. by rewrite Hk.
Qed.

(** The position of the first entry not below a number. *)
Lemma lower_filter k l :
  StronglySorted (fun a b => key_le true a.1 b.1) l ->
  decode <$> drop (lower_pos true k l) l = filter (fun x => (of_le k <= x.1)%Z) (decode <$> l).
Proof.
  induction 1 as [|e l _ IH Hx]; [done|]. cbn [lower_pos]. rewrite fmap_cons, filter_cons. unfold key_le at 1.
  case_decide as Hk; [|rewrite decide_False by (cbn; lia); exact IH]. rewrite decide_True by (cbn; lia). cbn. f_equal.
  symmetry. apply filter_all. intros y (e' & -> & He')%list_elem_of_fmap. rewrite Forall_forall in Hx. specialize (Hx e' He').
  cbn in *. lia.
Qed.

(** The operations from a number on. *)
Definition log_from (pos : Z) (d : database) : list mdv_trlog_data :=
  filter (fun x => (pos <= x.1)%Z) (in_order (log d)).

Lemma read_with_runs fuel t from body :
  trlog_ok t -> (0 <= from < 2 ^ 64)%Z -> size (log_map (data_of t)) + 1 < fuel ->
  exists l s, Forall entry_ok l /\ ascending (decode <$> l)
    /\ read_with fuel true t from body = (r ← fold_break body [] l; Done (set_storage t s, r))
    /\ trlog_ok (set_storage t s) /\ data_of (set_storage t s) = data_of t
    /\ (l = [] \/ decode <$> l = log_from from (data_of t))
    /\ (MdbReliable -> MdbCursorReliable -> decode <$> l = log_from from (data_of t)).
Proof.
  intros Hok Hfrom Hfuel. pose proof (open_log t SILENT_INT Hok ltac:(done)) as Ho. cbn zeta in Ho. unfold read_with.
  pose proof (fun _ : MdbReliable => opened_reliable n Hn (enter (l_storage t)) MDV_MAP_TRLOG SILENT_INT
    (balanced_enter n _ (ok_live _ Hok)) (idle_enter _)) as Hrel. change (data (enter (l_storage t))) with (data_of t) in Hrel.
  assert (Hempty : data_of t !! MDV_MAP_TRLOG = None -> [] = log_from from (data_of t)).
  { intros E. unfold log_from, log, log_map. by rewrite E. }
  assert (Hearly : forall b, (MdbReliable -> is_Some (data_of t !! MDV_MAP_TRLOG) -> b = true) -> b = false ->
            MdbReliable -> MdbCursorReliable -> decode <$> [] = log_from from (data_of t)).
  { intros b Hb -> Hr _. destruct (data_of t !! MDV_MAP_TRLOG) eqn:E; [|by rewrite <- Hempty]. by discriminate (Hb Hr ltac:(eauto)). }
  destruct (mdv_transaction_ok _) eqn:E1; cbn [negb] in *.
  2: { rewrite rollback_none. destruct (clean_ok _ _ Hok Ho) as [Hok2 Hd2]. exists [], (fr_st (start (enter (l_storage t)))).
       split_and!; try done; [constructor..|by left|]. apply (Hearly false); [|done]. intros Hr Hs. by destruct (Hrel Hr ltac:(by left)). }
  destruct (mdv_map_ok _) eqn:E2; cbn [negb] in *.
  2: { rewrite rollback_txn by lia. destruct (clean_ok _ _ Hok Ho) as [Hok2 Hd2]. eexists [], _.
       split_and!; try done; [constructor..|by left|]. apply (Hearly false); [|done]. intros Hr Hs. by destruct (Hrel Hr ltac:(by left)). }
  clear Hrel Hearly Hempty. destruct Ho as (x & Hi & Hd & Hint & Hlg & Hin & Hle & Hoth & Hex). set (f := open_map _ _ _) in *.
  specialize (Hex ltac:(done)). set (l := entries x (m_dbmap (fr_map f))).
  pose proof (entries_log x _ _ (in_hnd _ _ _ _ Hi) Hlg Hin) as Hent. fold l in Hent.
  pose proof (entries_sorted _ _ _ (in_hnd _ _ _ _ Hi)) as Hsort. rewrite bool_decide_eq_true_2 in Hsort by done. fold l in Hsort.
  destruct (handle_dom _ _ _ (in_hnd _ _ _ _ Hi)) as [m Hm]. pose proof (entries_perm _ _ _ _ (in_hnd _ _ _ _ Hi) Hm) as Hperm. fold l in Hperm.
  assert (Hlm : log_map (view x) = m) by (unfold log_map; by rewrite Hm).
  assert (Hlen : length l + 1 < fuel).
  { rewrite Hperm, length_map_to_list. enough (size m = size (log_map (data_of t))) by lia.
    assert (length (in_order (log (view x))) = length l) as Hl1 by (by rewrite <- Hent, length_fmap).
    unfold in_order in Hl1. rewrite merge_sort_Permutation, length_map_to_list, Hle in Hl1.
    rewrite Hperm, length_map_to_list in Hl1. rewrite <- Hl1. unfold log.
    rewrite <- (length_map_to_list (list_to_map _)). rewrite map_to_list_to_map by (eapply decode_nodup, Hok).
    by rewrite length_fmap, length_map_to_list. }
  destruct (foreach_ok n Hn fuel f MDV_MAP_TRLOG x (to_le 8 from, []) MDV_CURSOR_SET_RANGE
    (lower_pos true (to_le 8 from) l) body [] Hi) as (ok & f' & Hcr & Hi' & Hst & Htx & Hmp & ->);
    [cbn; by rewrite bool_decide_eq_true_2|done|]. fold l.
  pose proof (lower_filter (to_le 8 from) l Hsort) as Hlow. rewrite id_key in Hlow by done. rewrite Hent, Hle in Hlow.
  fold (log_from from (data_of t)) in Hlow.
  assert (Hent_ok : Forall entry_ok l).
  { apply Forall_forall. intros [k v] Hkv. rewrite Hperm, elem_of_map_to_list in Hkv. rewrite <- Hlm in Hkv.
    destruct (lk_key _ _ Hlg _ _ Hkv) as (? & _ & ?). by split. }
  assert (Hcl : clean n (enter (l_storage t)) (abort (close_map f'))).
  { destruct (clean_close_abort n Hn f' (in_bal _ _ _ _ Hi') (in_cur _ _ _ _ Hi')) as (B & I & D & N).
    unfold clean, data, ints in *. rewrite D, N, Hst. by split_and!. }
  destruct (clean_ok _ _ Hok Hcl) as [Hok2 Hd2].
  exists (if ok then drop (lower_pos true (to_le 8 from) l) l else []), (fr_st (abort (close_map f'))). split_and!; try done.
  - destruct ok; [by apply Forall_drop|constructor].
  - destruct ok; [|constructor]. rewrite Hlow. unfold log_from. apply ascending_filter, in_order_ascending.
  - by destruct (fold_break _ _ _).
  - destruct ok; [by right|by left].
  - intros _ Hc. rewrite (Hcr Hc). exact Hlow.
Qed.

Lemma read_runs fuel alloc t pos sz :
  trlog_ok t -> (0 <= pos < 2 ^ 64)%Z -> size (log_map (data_of t)) + 1 < fuel ->
  exists s k, mdv_trlog_read fuel true alloc t pos sz = Done (set_storage t s, take k (log_from pos (data_of t)))
    /\ trlog_ok (set_storage t s) /\ data_of (set_storage t s) = data_of t
    /\ (MdbReliable -> MdbCursorReliable -> (forall i, alloc i = true) -> k = Z.to_nat (Z.max 1 sz)).
Proof.
  intros Hok Hpos Hfuel. unfold mdv_trlog_read.
  destruct (read_with_runs fuel t pos (read_body alloc sz) Hok Hpos Hfuel) as (l & s & Hl & Hs & -> & Hok2 & Hd2 & Hcase & Hrel).
  destruct (read_fold alloc sz l [] Hl) as (k & -> & Hk). cbn [mbind outcome_bind]. exists s.
  destruct (decide (decode <$> l = log_from pos (data_of t))) as [He|Hne].
  - exists k. rewrite app_nil_l, He. split_and!; try done. intros _ _ Hall. rewrite (Hk Hall). f_equal. cbn. lia.
  - exists 0. destruct Hcase as [->|He]; [|done]. rewrite fmap_nil, take_nil. split_and!; try done. intros Hr Hc. by destruct Hne; auto.
Qed.

Lemma apply_loop_spec {S} (fn : S -> bytes -> S * bool) ops arg pos m :
  exists c, let acc := take c ops in
    let arg1 := foldl (fun a o => (fn a o.2).1) arg acc in
    c <= length ops
    /\ (forall pre o, pre ++ [o] `prefix_of` acc -> (fn (foldl (fun a o => (fn a o.2).1) arg pre) o.2).2 = true)
    /\ apply_loop fn ops arg pos m
       = (match ops !! c with Some o => (fn arg1 o.2).1 | None => arg1 end,
          match last acc with Some o => u64 (o.1 + 1) | None => pos end, m + c)
    /\ (forall o, ops !! c = Some o -> (fn arg1 o.2).2 = false).
Proof.
  revert arg pos m. induction ops as [|[id op] ops IH]; intros arg pos m.
  { exists 0. cbn. rewrite Nat.add_0_r. split_and!; try done. intros pre o [k Hk]. by destruct pre. }
  cbn [apply_loop]. destruct (fn arg op) as [arg' ok] eqn:Ef. destruct ok.
  - destruct (IH arg' (u64 (id + 1)) (Datatypes.S m)) as (c & Hc & Hacc & -> & Hstop). exists (Datatypes.S c). cbn [take length foldl lookup list_lookup snd].
    rewrite Ef. cbn [fst]. split_and!; [cbn; lia| | |done].
    + intros [|o' pre] o Hp; cbn.
      * apply prefix_cons_inv_1 in Hp. cbn in Hp. subst o. cbn. by rewrite Ef.
      * apply prefix_cons_inv_1 in Hp as Ho'. apply prefix_cons_inv_2 in Hp. subst o'. cbn. rewrite Ef. by apply Hacc.
    + f_equal; [f_equal|lia]. rewrite last_cons. by destruct (last _).
  - exists 0. cbn. rewrite Ef, Nat.add_0_r. split_and!; [lia| |done|intros o [= <-]; cbn; by rewrite Ef].
    intros pre o [k Hk]. by destruct pre.
Qed.

(** The operations that are not applied yet. *)
Definition pending (t : mdv_trlog) : list mdv_trlog_data := log_from (l_applied t) (data_of t).

Lemma log_from_after pos d c o :
  last (take c (log_from pos d)) = Some o -> log_from (o.1 + 1) d = drop c (log_from pos d).
Proof.
  intros Hl. assert (Ha : ascending (log_from pos d)) by apply ascending_filter, in_order_ascending.
  rewrite <- (ascending_after _ _ _ Ha Hl). unfold log_from at 1 2. rewrite list_filter_filter. apply Prelude.filter_ext_in. intros x _.
  apply last_Some_elem_of, elem_of_take in Hl as (i & Hi%list_elem_of_lookup_2 & _).
  apply list_elem_of_filter in Hi as [Hi _]. lia.
Qed.

Lemma log_from_id t pos x : trlog_ok t -> x ∈ log_from pos (data_of t) -> (0 <= x.1 < l_top t)%Z.
Proof.
  intros Hok [_ Hx]%list_elem_of_filter. destruct x as [id op]. apply elem_of_in_order in Hx.
  pose proof (ok_above _ Hok id ltac:(eauto)). apply (log_lookup _ _ _ _ (ok_log _ Hok)) in Hx as [? _]. cbn. lia.
Qed.

(** What an application does: it delivers a prefix [take c] of the pending
    operations in order, all accepted, then meets a refusal or the end of the
    batch; exactly the accepted operations are no longer pending. *)
Definition applies {S} (fn : S -> bytes -> S * bool) (t t' : mdv_trlog) (arg arg' : S) (c : nat) : Prop :=
  let run := foldl (fun a o => (fn a o.2).1) arg in
  let acc := take c (pending t) in
  c <= length (pending t)
  /\ (forall pre o, pre ++ [o] `prefix_of` acc -> (fn (run pre) o.2).2 = true)
  /\ (arg' = run acc \/ exists o, pending t !! c = Some o /\ (fn (run acc) o.2).2 = false /\ arg' = (fn (run acc) o.2).1)
  /\ pending t' = drop c (pending t) /\ log (data_of t') = log (data_of t) /\ l_top t' = l_top t
  /\ l_id t' = l_id t /\ (l_applied t <= l_top t -> l_applied t' <= l_top t')%Z.

Lemma apply_runs {S} fuel alloc t batch (arg : S) fn :
  trlog_ok t -> size (log_map (data_of t)) + 1 < fuel ->
  exists t' arg' c, mdv_trlog_apply fuel true alloc t batch arg fn = Done (t', arg', c)
    /\ trlog_ok t' /\ applies fn t t' arg arg' c /\ (pos_ok (data_of t) -> pos_ok (data_of t'))
    /\ (MdbReliable -> MdbRoom -> c <> 0 -> stored_pos (data_of t') = l_applied t')
    /\ (c = 0 -> l_applied t' = l_applied t /\ data_of t' = data_of t)
    /\ (MdbReliable -> MdbCursorReliable -> (forall i, alloc i = true) ->
        (forall pre o, pre ++ [o] `prefix_of` pending t -> (fn (foldl (fun a o => (fn a o.2).1) arg pre) o.2).2 = true) ->
        c = min (Z.to_nat (Z.max 1 batch)) (length (pending t))).
Proof.
  intros Hok Hfuel. unfold mdv_trlog_apply. destruct (Z.leb_spec (l_top t) (l_applied t)) as [Hle|Hlt].
  { assert (Hp : pending t = []).
    { apply elem_of_nil_inv. intros x Hx. pose proof (log_from_id _ _ _ Hok Hx). apply list_elem_of_filter in Hx as [? _]. lia. }
    exists t, arg, 0. unfold applies. rewrite Hp. split_and!; try done; [|by left|cbn; lia]. intros pre o [k Hk]. by destruct pre. }
  destruct (read_runs fuel alloc t (l_applied t) batch Hok (ok_applied _ Hok) Hfuel) as (s & k & -> & Hok1 & Hd1 & Hk).
  cbn [mbind outcome_bind]. fold (pending t) in *. set (t1 := set_storage t s) in *.
  assert (Hlen : length (take k (pending t)) = k `min` length (pending t)) by apply length_take.
  destruct (Nat.eqb_spec (length (take k (pending t))) 0) as [Hz|Hnz].
  { exists t1, arg, 0. unfold applies, pending. rewrite Hd1. split_and!; try done; [lia| |by left|].
    - intros pre o [k' Hk']. by destruct pre.
    - intros Hr Hc Ha _. rewrite Hlen, (Hk Hr Hc Ha) in Hz. unfold pending in Hz. lia. }
  destruct (apply_loop_spec fn (take k (pending t)) arg (l_applied t) 0) as (c & Hc & Hacc & -> & Hstop). cbn [Nat.add].
  assert (Htk : take c (take k (pending t)) = take c (pending t)) by (rewrite take_take; f_equal; lia). rewrite Htk in *.
  assert (Hcl : c <= length (pending t)) by lia.
  assert (Hall : (forall pre o, pre ++ [o] `prefix_of` pending t -> (fn (foldl (fun a o => (fn a o.2).1) arg pre) o.2).2 = true) -> c = length (take k (pending t))).
  { intros Ha. destruct (take k (pending t) !! c) as [o|] eqn:E; [|apply lookup_ge_None in E; lia]. specialize (Hstop o eq_refl).
    apply lookup_take_Some in E as [E _]. rewrite Ha in Hstop; [done|]. rewrite <- (take_S_r _ _ _ E). apply prefix_take. }
  assert (Harg : let run := foldl (fun a o => (fn a o.2).1) arg in
            let arg' := match take k (pending t) !! c with Some o => (fn (run (take c (pending t))) o.2).1
                        | None => run (take c (pending t)) end in
            arg' = run (take c (pending t)) \/ exists o, pending t !! c = Some o
              /\ (fn (run (take c (pending t))) o.2).2 = false /\ arg' = (fn (run (take c (pending t))) o.2).1).
  { cbn zeta. destruct (take k (pending t) !! c) as [o|] eqn:E; [right|by left]. exists o.
    split_and!; [by apply lookup_take_Some in E as [? _]|by apply Hstop|done]. }
  destruct (Nat.eqb_spec c 0) as [->|Hc0].
  - eexists t1, _, 0. split; [done|]. unfold applies, pending. rewrite Hd1. split_and!; try done.
    intros Hr Hcr Ha Hf. specialize (Hall Hf). lia.
  - destruct (last (take c (pending t))) as [o|] eqn:El; [|apply last_None in El; destruct (pending t), c; done || (cbn in *; lia)].
    assert (Ho : (0 <= o.1 < l_top t)%Z).
    { apply (log_from_id t (l_applied t)); [done|]. apply last_Some_elem_of, elem_of_take in El as (i & Hi & _). by eapply list_elem_of_lookup_2. }
    pose proof (ok_top _ Hok) as Htop. rewrite (wrap_id 64) by (unfold fits; lia).
    destruct (applied_pos_set_runs t1 (o.1 + 1) Hok1 ltac:(lia)) as (Hok2 & Hap & Htp & _ & _ & Hlg & _ & Hst & Hpo).
    assert (Hlg' : log (data_of (mdv_trlog_applied_pos_set t1 (o.1 + 1))) = log (data_of t)) by (by rewrite Hlg, Hd1).
    do 3 eexists. split; [done|]. split; [done|]. split; [|split; [by rewrite Hd1 in Hpo|split_and!; [|done|]]].
    + split; [done|]. split; [done|]. split; [done|]. split; [|split_and!; [done|done|exact (applied_pos_set_id t1 _)|intros _; rewrite Hap, Htp; change (l_top t1) with (l_top t); lia]]. unfold pending at 1. rewrite Hap.
      unfold log_from. rewrite Hlg'. by apply log_from_after.
    + intros Hr Hrm _. by rewrite Hap, Hst.
    + intros Hr Hcr Ha Hf. rewrite (Hall Hf), Hlen, (Hk Hr Hcr Ha). done.
Qed.

(** ** Opening *)

(** The number after the last operation. *)
Definition next_id (d : database) : Z := match last (in_order (log d)) with Some o => o.1 + 1 | None => 0 end.

Lemma next_id_empty d : log d = ∅ -> next_id d = 0%Z.
Proof. intros E. unfold next_id. rewrite E. unfold in_order. by rewrite map_to_list_empty. Qed.

Lemma next_id_above d : above (next_id d) (log d).
Proof.
  intros id [op Hid%elem_of_in_order]. unfold next_id. pose proof (in_order_ascending (log d)) as Ha.
  destruct (snoc_cases (in_order (log d))) as [E|(l & x & E)]; rewrite E in *; [by apply not_elem_of_nil in Hid|].
  rewrite last_snoc. apply elem_of_app in Hid as [Hid|Hid%list_elem_of_singleton]; [|subst x; cbn; lia].
  apply list_elem_of_split in Hid as (l1 & l2 & ->). rewrite <- app_assoc in Ha. apply StronglySorted_app_1_r in Ha.
  cbn in Ha. inversion_clear Ha as [|? ? _ Hx]. rewrite Forall_forall in Hx. specialize (Hx x ltac:(apply elem_of_app; right; by left)).
  cbn in Hx. lia.
Qed.

Lemma next_id_last d : log d <> ∅ -> is_Some (log d !! (next_id d - 1)%Z).
Proof.
  intros Hne. unfold next_id. destruct (snoc_cases (in_order (log d))) as [E|(l & [id op] & E)].
  - destruct Hne. apply map_eq. intros i. rewrite lookup_empty. apply eq_None_not_Some. intros [op Hi%elem_of_in_order].
    rewrite E in Hi. by apply not_elem_of_nil in Hi.
  - rewrite E, last_snoc. cbn. exists op. replace (id + 1 - 1)%Z with id by lia. apply elem_of_in_order. rewrite E.
    apply elem_of_app. right. by left.
Qed.

(** Looking for the last number in an open transaction. *)
Lemma init_top_runs fuel f x :
  balanced n f -> t_txn (fr_txn f) = Some x -> m_storage (fr_map f) = false -> c_storage (fr_cur f) = false ->
  log_ok (view x) (txn_int_maps x) -> (forall id, is_Some (log (view x) !! id) -> id_ok id) -> size (log_map (view x)) + 1 < fuel ->
  exists f' x' top, init_top fuel f = Done (f', top) /\ balanced n f' /\ t_txn (fr_txn f') = Some x' /\ view x' = view x
    /\ m_storage (fr_map f') = false /\ c_storage (fr_cur f') = false /\ data f' = data f /\ ints f' = ints f
    /\ (top = 0%Z \/ top = next_id (view x)) /\ (MdbReliable -> MdbCursorReliable -> top = next_id (view x)).
Proof.
  intros Hb Et Hm Hc Hlg Hids Hfuel. unfold init_top.
  destruct (open_map_ok n Hn f MDV_MAP_TRLOG SILENT_INT x Hb Et Hm) as (B1 & D1 & N1 & C1 & x1 & Et1 & _ & V1).
  assert (Hrel : MdbReliable -> is_Some (view x !! MDV_MAP_TRLOG) -> mdv_map_ok (fr_map (open_map f MDV_MAP_TRLOG SILENT_INT)) = true).
  { intros ? Hs. apply (open_map_reliable n f _ _ x); auto. }
  set (f1 := open_map f MDV_MAP_TRLOG SILENT_INT) in *. rewrite <- (b_map _ _ B1) in *.
  destruct (m_storage (fr_map f1)) eqn:E1; cbn [negb].
  2: { exists f1, x1, 0%Z. split_and!; try done; [by rewrite C1|by left|]. intros Hr _. unfold next_id, log, log_map.
       destruct (view x !! MDV_MAP_TRLOG) eqn:E; [|done]. by specialize (Hrel Hr ltac:(eauto)). }
  destruct V1 as (Hh & V1 & W1 & Cr). specialize (Cr ltac:(done)).
  assert (Hv : view x1 = view x) by (rewrite V1; unfold ensure; by destruct Cr as [m ->]).
  assert (Hin : MDV_MAP_TRLOG ∈ txn_int_maps x1).
  { apply W1. unfold opened_int. rewrite decide_False by (by apply not_eq_None_Some). by apply (lk_int _ _ Hlg). }
  assert (Hi : inside n f1 MDV_MAP_TRLOG x1) by (split; try done; by rewrite C1). clear Hrel.
  assert (Hlg1 : log_ok (view x1) (txn_int_maps x1)) by (rewrite Hv; split; [done|by apply (lk_key _ _ Hlg)]).
  pose proof (entries_log x1 _ _ Hh Hlg1 Hin) as Hent. rewrite Hv in Hent.
  destruct Cr as [m Em]. pose proof (entries_perm _ _ _ m Hh ltac:(by rewrite Hv)) as Hperm.
  assert (Hlen : length (entries x1 (m_dbmap (fr_map f1))) + 1 < fuel).
  { rewrite Hperm, length_map_to_list. unfold log_map in Hfuel. by rewrite Em in Hfuel. }
  set (body := fun (_ : Z) (kv : bytes * bytes) => Done (u64 (of_le (take 8 kv.1) + 1), true)).
  destruct (foreach_ok n Hn fuel f1 MDV_MAP_TRLOG x1 ([], []) MDV_CURSOR_LAST _ body 0%Z Hi eq_refl Hlen)
    as (ok & f2 & Hcr & Hi2 & Hst2 & Htx2 & Hmp2 & ->). set (l := entries _ _) in *.
  assert (Hfold : fold_break body 0%Z (drop (pred (length l)) l) = Done (next_id (view x))).
  { unfold next_id. rewrite <- Hent. destruct (snoc_cases l) as [->|(l' & [k v] & El)]; [done|]. rewrite El, fmap_app. cbn [fmap list_fmap].
    rewrite last_snoc, length_app. cbn [length]. replace (pred (length l' + 1)) with (length l') by lia. rewrite drop_app_length. cbn.
    assert (Hkv : log_map (view x) !! k = Some v).
    { unfold log_map. rewrite Em. cbn. apply elem_of_map_to_list. rewrite <- Hperm, El. apply elem_of_app. right. by left. }
    destruct (lk_key _ _ Hlg _ _ Hkv) as (L & B & _). rewrite firstn_all2 by lia. f_equal. apply (wrap_id 64).
    specialize (Hids (of_le k)). unfold id_ok in Hids. unfold fits. pose proof (key_range k L B).
    destruct Hids; [|lia]. exists v. apply (log_lookup _ _ _ _ Hlg). split; [done|]. by rewrite key_id. }
  destruct (close_map_ok n Hn f2 (in_bal _ _ _ _ Hi2)) as (B3 & D3 & N3 & M3 & T3 & C3).
  assert (Hd2 : data f2 = data f /\ ints f2 = ints f) by (unfold data, ints in *; by rewrite Hst2). destruct Hd2 as [Hd2 Hi2'].
  assert (exists top, (r ← fold_break body 0%Z (if ok then drop (pred (length l)) l else []); Done (f2, r)) = Done (f2, top)
            /\ (top = 0%Z \/ top = next_id (view x)) /\ (MdbCursorReliable -> top = next_id (view x))) as (top & -> & Htop & Hrel).
  { destruct ok; [rewrite Hfold; cbn; eauto|]. exists 0%Z. split_and!; [done|by left|]. intros Hr. by specialize (Hcr Hr). }
  cbn [mbind outcome_bind]. exists (close_map f2), x1, top. split_and!; try done; try congruence.
  rewrite C3. apply Hi2.
Qed.

Lemma stored_pos_range d : pos_ok d -> (0 <= stored_pos d < 2 ^ 64)%Z.
Proof.
  intros Hp. unfold stored_pos. destruct (lookup2 _ _ _) as [v|] eqn:E; [|lia]. specialize (Hp v E).
  pose proof (of_le_bound (take 8 v) (Forall_take _ _ _ Hp)) as Hb. rewrite length_take in Hb.
  pose proof (Z.pow_le_mono_r 256 (Z.of_nat (8 `min` length v)) 8). change (256 ^ 8)%Z with (2 ^ 64)%Z in *. lia.
Qed.

Lemma init_applied_runs `{!MdbReliable} f x :
  balanced n f -> t_txn (fr_txn f) = Some x -> m_storage (fr_map f) = false -> c_storage (fr_cur f) = false ->
  let '(f', pos) := init_applied f in
  balanced n f' /\ m_storage (fr_map f') = false /\ c_storage (fr_cur f') = false /\ data f' = data f /\ ints f' = ints f
  /\ pos = stored_pos (view x).
Proof.
  intros Hb Et Hm Hc. unfold init_applied.
  destruct (open_map_ok n Hn f MDV_MAP_APPLIED SILENT_INT x Hb Et Hm) as (B1 & D1 & N1 & C1 & x1 & Et1 & _ & V1).
  pose proof (fun Hs => open_map_reliable n f MDV_MAP_APPLIED SILENT_INT x Hb Et (or_introl Hs)) as Hrel.
  set (f1 := open_map f MDV_MAP_APPLIED SILENT_INT) in *. rewrite <- (b_map _ _ B1) in *.
  destruct (m_storage (fr_map f1)) eqn:E1; cbn [negb].
  2: { split_and!; try done; [by rewrite C1|]. unfold stored_pos, lookup2. destruct (view x !! MDV_MAP_APPLIED) eqn:E; [|done].
       by specialize (Hrel ltac:(eauto)). }
  destruct V1 as (Hh & V1 & _ & Cr). assert (Hi : inside n f1 MDV_MAP_APPLIED x1) by (split; try done; by rewrite C1).
  destruct (close_map_ok n Hn f1 B1) as (B2 & D2 & N2 & M2 & T2 & C2).
  rewrite (get_inside n f1 MDV_MAP_APPLIED x1 _ Hi pos_key_valid), V1, lookup2_ensure. split_and!; try done; congruence.
Qed.

Lemma init_runs `{!MdbReliable, !MdbCursorReliable} fuel t :
  live n (l_storage t) -> log_ok (data_of t) (ints_of t) -> pos_ok (data_of t) ->
  (forall id, is_Some (log (data_of t) !! id) -> id_ok id) -> size (log_map (data_of t)) + 1 < fuel ->
  exists t', mdv_trlog_init fuel t = Done t' /\ trlog_ok t' /\ data_of t' = data_of t
    /\ l_top t' = next_id (data_of t) /\ l_applied t' = stored_pos (data_of t)
    /\ l_uuid t' = l_uuid t /\ l_id t' = l_id t /\ l_events t' = l_events t.
Proof.
  intros Hlive Hlg Hpos Hids Hfuel. unfold mdv_trlog_init. cbn zeta. set (t0 := set_applied (set_top t 0) 0).
  pose proof (balanced_enter n _ Hlive) as Hb. destruct (start_ok n Hn (enter (l_storage t0)) Hb eq_refl) as (B1 & D1 & N1 & M1 & C1 & V1).
  rewrite (start_reliable (enter (l_storage t0))). cbn [negb]. pose proof (start_reliable (enter (l_storage t0))) as Hs.
  unfold mdv_transaction_ok in Hs. set (f1 := start _) in *. destruct (t_txn (fr_txn f1)) as [x|] eqn:Et; [|done]. clear Hs.
  destruct V1 as [V1 W1]. change (data (enter (l_storage t0))) with (data_of t) in *. change (ints (enter (l_storage t0))) with (ints_of t) in *.
  destruct (init_top_runs fuel f1 x B1 Et ltac:(by rewrite M1) ltac:(by rewrite C1)) as
    (f2 & x2 & top & -> & B2 & Et2 & V2 & M2 & C2 & D2 & N2 & _ & Htop); rewrite ?V1, ?W1; try done.
  specialize (Htop _ _). cbn [mbind outcome_bind]. pose proof (init_applied_runs f2 x2 B2 Et2 M2 C2) as Ha.
  destruct (init_applied f2) as [f3 pos]. destruct Ha as (B3 & M3 & C3 & D3 & N3 & ->). rewrite V2, V1 in *.
  destruct (abort_ok n Hn f3 B3) as (B4 & D4 & N4 & T4 & M4 & C4). eexists. split; [done|]. unfold data_of, ints_of. cbn.
  assert (Hd : db (s_env (fr_st (abort f3))) = data_of t) by (change (data (abort f3) = data_of t); congruence).
  assert (Hi : int_maps (s_env (fr_st (abort f3))) = ints_of t) by (change (ints (abort f3) = ints_of t); congruence).
  split_and!; try done. pose proof (stored_pos_range _ Hpos). split; cbn; unfold data_of, ints_of; cbn; rewrite ?Hd, ?Hi; try done.
  - apply idle_live; [done|]. unfold idle. by rewrite M4, C4.
  - rewrite Htop. apply next_id_above.
  - rewrite Htop. unfold next_id. destruct (last _) as [[id op]|] eqn:E; cbn; [|lia].
    apply last_Some_elem_of, elem_of_in_order in E. specialize (Hids id ltac:(eauto)). unfold id_ok in Hids. lia.
Qed.

(** ** Repeated application *)

Fixpoint apply_many {S} (k fuel : nat) (alloc : nat -> bool) (batch : Z) (fn : S -> bytes -> S * bool) (t : mdv_trlog) (arg : S)
  : outcome (mdv_trlog * S) :=
  match k with
  | 0 => Done (t, arg)
  | Datatypes.S k =>
      r ← mdv_trlog_apply fuel true alloc t batch arg fn;
      let '(t, arg, _) := r in apply_many k fuel alloc batch fn t arg
  end.

Lemma log_map_size d i : log_ok d i -> size (log_map d) = size (log d).
Proof.
  intros Hd. unfold log. rewrite <- (length_map_to_list (list_to_map _)), map_to_list_to_map by (by eapply decode_nodup).
  by rewrite length_fmap, length_map_to_list.
Qed.

Lemma apply_many_runs `{!MdbReliable, !MdbCursorReliable} {S} k fuel alloc batch (fn : S -> bytes -> S * bool) t arg :
  trlog_ok t -> size (log (data_of t)) + 1 < fuel -> (forall i, alloc i = true) -> (forall a o, (fn a o).2 = true) ->
  (1 <= batch)%Z -> length (pending t) <= k ->
  exists t', apply_many k fuel alloc batch fn t arg
      = Done (t', foldl (fun a o => (fn a o.2).1) arg (pending t))
    /\ trlog_ok t' /\ pending t' = [] /\ log (data_of t') = log (data_of t) /\ l_top t' = l_top t.
Proof.
  intros Hok Hfuel Ha Hf Hbatch. revert t arg Hok Hfuel. induction k as [|k IH]; intros t arg Hok Hfuel Hk.
  { exists t. assert (pending t = []) as Hp by (apply nil_length_inv; lia). cbn. rewrite Hp. by split_and!. }
  cbn [apply_many]. destruct (apply_runs fuel alloc t batch arg fn Hok) as (t1 & arg1 & c & -> & Hok1 & Hap & _ & _ & _ & Hc).
  { by rewrite (log_map_size _ _ (ok_log _ Hok)). }
  specialize (Hc _ _ Ha (fun _ _ _ => Hf _ _)). destruct Hap as (Hcl & _ & Harg & Hpend & Hlog & Htop & _). cbn [mbind outcome_bind].
  destruct (IH t1 arg1 Hok1) as (t2 & -> & Hok2 & Hp2 & Hlog2 & Htop2).
  { by rewrite Hlog. } { rewrite Hpend, length_drop. lia. }
  exists t2. split_and!; try done; try congruence. do 2 f_equal. rewrite Hpend.
  destruct Harg as [->|(o & _ & Ho & _)]; [|by rewrite Hf in Ho]. by rewrite <- foldl_app, take_drop.
Qed.

(** ** Theorems *)

(** C24: Adding received operations is one transaction that stores each
    operation under its number unless the number is taken (the first
    operation wins): on success the log becomes the union of the old log and
    the received operations (of those the storage had room for), the next
    number is above all of them, other maps are untouched and the change is
    announced exactly when the log changed; on failure the log is as before.
    The invariant is kept and every reference to the storage is given back. *)
Theorem mdv_trlog_add_correct t ops mem_evt :
  trlog_ok t -> ops_ok ops ->
  let '(t', ok) := mdv_trlog_add true mem_evt t ops in
  trlog_ok t' /\ l_applied t' = l_applied t /\ (MdbReliable -> ok = true) /\ (l_top t <= l_top t')%Z
  /\ if ok then exists ops', ops' `sublist_of` ops /\ (MdbRoom -> ops' = ops)
       /\ log (data_of t') = log (data_of t) ∪ list_to_map ops' /\ l_top t' = raise (l_top t) ops'
       /\ only_log (data_of t) (data_of t')
       /\ l_events t' = l_events t ++ (if mem_evt && bool_decide (log (data_of t') <> log (data_of t)) then [l_uuid t] else [])
     else data_of t' = data_of t /\ l_events t' = l_events t.
Proof. apply add_runs. Qed.

(** A new operation is stored under the next number, which no operation
    has, and the next number grows by one; on any failure the log is as
    before and the number may be skipped. *)
Theorem mdv_trlog_add_op_correct t op mem_evt :
  trlog_ok t -> op_ok op -> (l_top t < 2 ^ 64 - 1)%Z ->
  let '(t', ok) := mdv_trlog_add_op true mem_evt t op in
  trlog_ok t' /\ l_applied t' = l_applied t /\ (MdbReliable -> MdbRoom -> ok = true)
  /\ if ok then log (data_of t') = <[l_top t := op]> (log (data_of t)) /\ log (data_of t) !! l_top t = None
       /\ l_top t' = (l_top t + 1)%Z /\ only_log (data_of t) (data_of t')
       /\ l_events t' = l_events t ++ (if mem_evt then [l_uuid t] else [])
     else data_of t' = data_of t /\ l_events t' = l_events t /\ (l_top t <= l_top t' <= l_top t + 1)%Z.
Proof. apply add_op_runs. Qed.

(** Reading a range yields the operations numbered from [from] to before
    [to] in ascending order, or a prefix of them when memory or a call of the
    storage fails, without a failed assertion and within as many rounds as the
    log has entries plus two; the log is unchanged and nothing is left open. *)
Theorem mdv_trlog_range_read_correct fuel alloc t from to :
  trlog_ok t -> (0 <= from < 2 ^ 64)%Z -> size (log (data_of t)) + 1 < fuel ->
  let range := filter (fun x => (from <= x.1 < to)%Z) (in_order (log (data_of t))) in
  exists s ops, mdv_trlog_range_read fuel true alloc t from to = Done (set_storage t s, ops)
    /\ trlog_ok (set_storage t s) /\ data_of (set_storage t s) = data_of t /\ ops `prefix_of` range
    /\ (MdbReliable -> MdbCursorReliable -> (forall i, alloc i = true) -> ops = range).
Proof.
  intros Hok Hfrom Hfuel range. unfold mdv_trlog_range_read. rewrite <- (log_map_size _ _ (ok_log _ Hok)) in Hfuel.
  destruct (read_with_runs fuel t from (range_body alloc to) Hok Hfrom Hfuel) as (l & s & Hl & Hs & -> & Hok2 & Hd2 & Hcase & Hrel).
  destruct (range_fold alloc to l [] Hl Hs) as (k & -> & Hk). cbn [mbind outcome_bind]. rewrite app_nil_l. do 2 eexists. split; [done|].
  assert (Hr : filter (fun x => (x.1 < to)%Z) (log_from from (data_of t)) = range).
  { unfold log_from, range. rewrite list_filter_filter. apply Prelude.filter_ext_in. intros x _. lia. }
  split_and!; try done.
  - destruct Hcase as [->|He]; [rewrite fmap_nil, filter_nil, take_nil; apply prefix_nil|]. rewrite He, Hr. apply prefix_take.
  - intros Hr1 Hr2 Ha. rewrite (Hrel Hr1 Hr2), Hr, (Hk Ha). apply firstn_all2. rewrite <- Hr, <- (Hrel Hr1 Hr2).
    etrans; [apply length_filter|]. by rewrite length_fmap.
Qed.

(** Applying delivers the pending operations in ascending order from the
    applied position on: a prefix that is accepted as a whole, then stops at a
    refusal or at the end of the batch.  Exactly the accepted operations are
    no longer pending, and the new position is in the storage when its calls
    do not fail. *)
Theorem mdv_trlog_apply_correct {S} fuel alloc t batch (arg : S) fn :
  trlog_ok t -> size (log_map (data_of t)) + 1 < fuel ->
  exists t' arg' c, mdv_trlog_apply fuel true alloc t batch arg fn = Done (t', arg', c)
    /\ trlog_ok t' /\ applies fn t t' arg arg' c /\ (pos_ok (data_of t) -> pos_ok (data_of t'))
    /\ (MdbReliable -> MdbRoom -> c <> 0 -> stored_pos (data_of t') = l_applied t')
    /\ (c = 0 -> l_applied t' = l_applied t /\ data_of t' = data_of t)
    /\ (MdbReliable -> MdbCursorReliable -> (forall i, alloc i = true) -> (forall a o, (fn a o).2 = true) ->
        c = min (Z.to_nat (Z.max 1 batch)) (length (pending t))).
Proof.
  intros Hok Hfuel. destruct (apply_runs fuel alloc t batch arg fn Hok Hfuel) as (t' & arg' & c & ? & ? & ? & ? & ? & ? & Hc).
  exists t', arg', c. split_and!; try done. auto.
Qed.

(** Applying drains the log: with a reliable storage and a callback that
    accepts, after at most as many calls as operations are pending every
    pending operation was delivered once and in order, none is pending, and the
    log reports no change when its last number is in use. *)
Theorem mdv_trlog_apply_drains `{!MdbReliable, !MdbCursorReliable} {S} k fuel alloc batch (fn : S -> bytes -> S * bool) t arg :
  trlog_ok t -> size (log (data_of t)) + 1 < fuel -> (forall i, alloc i = true) -> (forall a o, (fn a o).2 = true) ->
  (1 <= batch)%Z -> length (pending t) <= k ->
  exists t', apply_many k fuel alloc batch fn t arg = Done (t', foldl (fun a o => (fn a o.2).1) arg (pending t))
    /\ trlog_ok t' /\ pending t' = []
    /\ (is_Some (log (data_of t) !! (l_top t - 1)%Z) -> mdv_trlog_changed t' = false).
Proof.
  intros Hok Hfuel Ha Hf Hb Hk.
  destruct (apply_many_runs k fuel alloc batch fn t arg Hok Hfuel Ha Hf Hb Hk) as (t' & -> & Hok' & Hp & Hlog & Htop).
  exists t'. split_and!; try done. intros [op Hop]. unfold mdv_trlog_changed. apply Z.ltb_ge. rewrite Htop.
  destruct (Z.le_gt_cases (l_top t) (l_applied t')) as [|Hgt]; [done|]. exfalso.
  assert (Hin : ((l_top t - 1)%Z, op) ∈ pending t'); [|rewrite Hp in Hin; by apply not_elem_of_nil in Hin].
  apply list_elem_of_filter. split; [cbn; lia|]. by rewrite elem_of_in_order, Hlog.
Qed.

(** C26: A restart loses nothing and repeats nothing: after an application that
    accepted an operation, a log opened on the same storage has the same operations
    and continues with those that were still pending.  The next number is the one
    above the largest stored one, and 0 for an empty log; numbers that were given and
    not stored before the restart are given again.  The storage works, and the stored
    position is a number of 64 bits. *)
Theorem mdv_trlog_restart `{!MdbReliable, !MdbCursorReliable, !MdbRoom} {S} fuel alloc t batch (arg : S) fn :
  trlog_ok t -> pos_ok (data_of t) -> size (log_map (data_of t)) + 1 < fuel ->
  exists t' arg' c, mdv_trlog_apply fuel true alloc t batch arg fn = Done (t', arg', c)
    /\ (c <> 0 ->
        exists t2, mdv_trlog_open fuel true true (Some (l_storage t')) MDV_OK (l_uuid t) (l_id t) = Done (Some t2, [], Some (l_storage t2))
          /\ trlog_ok t2 /\ pending t2 = drop c (pending t) /\ log (data_of t2) = log (data_of t)
          /\ above (l_top t2) (log (data_of t)) /\ (log (data_of t) <> ∅ -> is_Some (log (data_of t) !! (l_top t2 - 1)%Z)) /\ (log (data_of t) = ∅ -> l_top t2 = 0%Z)).
Proof.
  intros Hok Hpos Hfuel. destruct (apply_runs fuel alloc t batch arg fn Hok Hfuel) as (t' & arg' & c & He & Hok' & Hap & Hpo & Hst & _).
  destruct Hap as (_ & _ & _ & Hpend & Hlog & _). exists t', arg', c. split; [done|]. intros Hc. specialize (Hst _ _ Hc).
  assert (Hsz : size (log_map (data_of t')) = size (log_map (data_of t))).
  { by rewrite (log_map_size _ _ (ok_log _ Hok)), (log_map_size _ _ (ok_log _ Hok')), Hlog. }
  destruct (init_runs fuel (mk_trlog (l_uuid t) (l_id t) (l_storage t') 0 0 [])) as (t2 & Hi & Hok2 & Hd2 & Htop & Hap2 & _).
  - apply Hok'.
  - apply (ok_log _ Hok').
  - by apply Hpo.
  - intros id Hid. change (data_of _) with (data_of t') in Hid.
    pose proof (ok_above _ Hok' id Hid). pose proof (ok_top _ Hok'). destruct Hid as [op Hid].
    apply (log_lookup _ _ _ _ (ok_log _ Hok')) in Hid as [? _]. unfold id_ok. lia.
  - change (size (log_map (data_of t')) + 1 < fuel). lia.
  - change (data_of (mk_trlog (l_uuid t) (l_id t) (l_storage t') 0 0 [])) with (data_of t') in Hd2, Htop, Hap2. exists t2. unfold mdv_trlog_open. cbn [negb]. rewrite Hi.
    split_and!; try done.
    + unfold pending at 1. rewrite Hap2, Hd2, Hst. exact Hpend.
    + by rewrite Hd2.
    + rewrite Htop, <- Hlog. apply next_id_above.
    + rewrite Htop, <- Hlog. apply next_id_last.
    + intros El. rewrite Htop. apply next_id_empty. by rewrite Hlog.
Qed.

End Operations.
End Trlog.

(** ** Witnesses: a log of two operations in memory, none of them applied *)

Definition demo_op (type x : Z) : bytes := [9; 0; 0; 0; type; 0; 0; 0; x]%Z.
Definition demo_db : database :=
  {[ "TRLOG"%string := {[ [0; 0; 0; 0; 0; 0; 0; 0]%Z := demo_op 1 42; [1; 0; 0; 0; 0; 0; 0; 0]%Z := demo_op 1 43 ]} ]}.
Definition demo_log : mdv_trlog := mk_trlog (mk_uuid 1 2) 0 (mk_lmdb 1 (demo_db, {["TRLOG"%string]}) true) 2 0 [].

Lemma demo_ok : trlog_ok 1 demo_log.
Proof.
  split; [done| | |cbn; lia..].
  - split; [intros _; vm_compute; reflexivity|]. intros k v Hk%elem_of_map_to_list. revert k v Hk.
    change (forall k v, (k, v) ∈ map_to_list (log_map demo_db) -> length k = 8 /\ Forall is_byte k /\ op_ok v).
    assert (Forall (fun e => length e.1 = 8 /\ Forall is_byte e.1 /\ op_ok e.2) (map_to_list (log_map demo_db))) as Hf.
    { vm_compute. repeat constructor; discriminate. }
    intros k v Hk. by apply (proj1 (Forall_forall _ _) Hf (k, v)).
  - intros id [op Hop%elem_of_in_order]. vm_compute in Hop.
    repeat (apply elem_of_cons in Hop as [Hop|Hop]; [injection Hop as -> ->; cbn; lia|]). by apply not_elem_of_nil in Hop.
Qed.

Lemma demo_order : in_order (log (data_of demo_log)) = [(0%Z, demo_op 1 42); (1%Z, demo_op 1 43)].
Proof. vm_compute. reflexivity. Qed.

Lemma demo_pending : pending demo_log = [(0%Z, demo_op 1 42); (1%Z, demo_op 1 43)].
Proof. unfold pending, log_from. rewrite demo_order. reflexivity. Qed.

Definition all_mem (_ : nat) : bool := true.

(** A callback that keeps the last byte of the operations it gets. *)
Definition collect (l : list Z) (op : bytes) : list Z * bool := (l ++ [nth 8 op 0%Z], true).

Lemma mdv_trlog_add_correct_witness :
  let '(t', ok) := mdv_trlog_add true true demo_log [(1, demo_op 9 9); (2, demo_op 1 44)]%Z in
  ok = true /\ log (data_of t') = log (data_of demo_log) ∪ {[2%Z := demo_op 1 44]} /\ l_top t' = 3%Z.
Proof.
  pose proof (mdv_trlog_add_correct 1 ltac:(lia) demo_log [(1, demo_op 9 9); (2, demo_op 1 44)]%Z true demo_ok
    ltac:(repeat constructor; cbn; lia)) as H.
  destruct (mdv_trlog_add _ _ _ _) as [t' ok]. destruct H as (_ & _ & Hr & _ & H). specialize (Hr _). subst ok.
  destruct H as (ops' & _ & Hroom & Hlog & Htop & _). rewrite (Hroom _) in *. split_and!; [done| |rewrite Htop; reflexivity].
  rewrite Hlog. vm_compute. reflexivity.
Defined.

Lemma mdv_trlog_add_op_correct_witness :
  let '(t', ok) := mdv_trlog_add_op true true demo_log (demo_op 1 44) in
  ok = true /\ log (data_of t') !! 2%Z = Some (demo_op 1 44) /\ l_events t' = [mk_uuid 1 2].
Proof.
  pose proof (mdv_trlog_add_op_correct 1 ltac:(lia) demo_log (demo_op 1 44) true demo_ok eq_refl ltac:(cbn; lia)) as H.
  destruct (mdv_trlog_add_op _ _ _ _) as [t' ok]. destruct H as (_ & _ & Hr & H). specialize (Hr _ _). subst ok.
  destruct H as (Hlog & _ & _ & _ & He). split_and!; [done| |exact He]. rewrite Hlog. apply lookup_insert_eq.
Defined.

Lemma mdv_trlog_range_read_correct_witness :
  exists s, mdv_trlog_range_read 9 true all_mem demo_log 1 5 = Done (set_storage demo_log s, [(1%Z, demo_op 1 43)]).
Proof.
  destruct (mdv_trlog_range_read_correct 1 ltac:(lia) 9 all_mem demo_log 1 5 demo_ok ltac:(lia) ltac:(vm_compute; lia))
    as (s & ops & He & _ & _ & _ & Hops).
  exists s. rewrite He, (Hops _ _ (fun _ => eq_refl)), demo_order. reflexivity.
Defined.

Lemma mdv_trlog_apply_correct_witness :
  exists t', mdv_trlog_apply 9 true all_mem demo_log 1 [] collect = Done (t', [42%Z], 1)
    /\ pending t' = [(1%Z, demo_op 1 43)].
Proof.
  destruct (mdv_trlog_apply_correct 1 ltac:(lia) 9 all_mem demo_log 1 [] collect demo_ok ltac:(vm_compute; lia))
    as (t' & arg' & c & He & _ & (_ & _ & Harg & Hp & _) & _ & _ & _ & Hc).
  specialize (Hc _ _ (fun _ => eq_refl) (fun _ _ => eq_refl)). rewrite demo_pending in Hc, Harg, Hp. cbn in Hc. subst c.
  exists t'. rewrite He. split; [|exact Hp]. do 3 f_equal. destruct Harg as [->|(o & _ & Ho & _)]; [reflexivity|discriminate Ho].
Defined.

Lemma mdv_trlog_apply_drains_witness :
  exists t', apply_many 2 9 all_mem 1 collect demo_log [] = Done (t', [42; 43]%Z) /\ mdv_trlog_changed t' = false.
Proof.
  destruct (mdv_trlog_apply_drains 1 ltac:(lia) 2 9 all_mem 1 collect demo_log [] demo_ok ltac:(vm_compute; lia)
    (fun _ => eq_refl) (fun _ _ => eq_refl) ltac:(lia) ltac:(rewrite demo_pending; cbn; lia)) as (t' & He & _ & _ & Hch).
  rewrite demo_pending in He. exists t'. split; [exact He|]. apply Hch. exists (demo_op 1 43). vm_compute. reflexivity.
Defined.

(** One of two operations is applied, then the log is opened again. *)
Lemma mdv_trlog_restart_witness :
  exists t' arg', mdv_trlog_apply 9 true all_mem demo_log 1 [] collect = Done (t', arg', 1)
    /\ exists t2, mdv_trlog_open 9 true true (Some (l_storage t')) MDV_OK (mk_uuid 1 2) 0 = Done (Some t2, [], Some (l_storage t2))
        /\ pending t2 = [(1%Z, demo_op 1 43)] /\ is_Some (log (data_of demo_log) !! (l_top t2 - 1)%Z).
Proof.
  destruct (mdv_trlog_restart 1 ltac:(lia) 9 all_mem demo_log 1 [] collect demo_ok ltac:(intros v Hv; discriminate Hv) ltac:(vm_compute; lia))
    as (t' & arg' & c & He & Hr).
  assert (Ec : (match mdv_trlog_apply 9 true all_mem demo_log 1 [] collect with Done (_, _, c) => c | _ => 0 end) = 1) by (vm_compute; reflexivity).
  rewrite He in Ec. subst c. exists t', arg'. split; [exact He|]. destruct (Hr ltac:(discriminate)) as (t2 & Ho & _ & Hp & _ & _ & Hl & _). exists t2. split; [exact Ho|].
  split; [rewrite Hp, demo_pending; reflexivity|]. apply Hl. vm_compute. discriminate.
Defined.

(** Operations that arrive after later ones were applied are never applied:
    the position is already above them. *)
Example gap_is_skipped :
  let demo := mk_trlog (mk_uuid 1 2) 0 (mk_lmdb 1 (∅, ∅) true) 0 0 [] in
  let '(t1, _) := mdv_trlog_add true true demo [(5, demo_op 1 5)]%Z in
  match mdv_trlog_apply 9 true all_mem t1 9 [] collect with
  | Done (t2, got, _) =>
      let '(t3, ok) := mdv_trlog_add true true t2 [(0, demo_op 1 1)]%Z in
      got = [5%Z] /\ ok = true /\ pending t3 = [] /\ mdv_trlog_changed t3 = false
  | _ => False
  end.
Proof. vm_compute. done. Qed.

End Trlog.
