(* ===== verification/Metainf.v ===== *)
(** * Meta information (src/mdv_core/storage/mdv_metainf.c)

    The version of the database and the identifier of the node, two fields of
    a record that is loaded from a map of the storage, completed and written
    back when the service starts. *)

From S2P Require Import Prelude Uuid Lmdb Memdb Session.
Import Uuid Lmdb Memdb Session.

Module Metainf.
Section Metainf.
Context `{Mdb, !MdbCursor}.

Definition MDV_MAP_METAINF : string := "METAINF".
Definition MDV_VERSION : Z := 1.

Record mdv_metainf := mk_metainf { m_version : mdv_map_field_desc; m_uuid : mdv_map_field_desc }.

(** [version], [uuid]: what the uninitialised record holds. *)
Definition mdv_metainf_init (version uuid : bytes) : mdv_metainf :=
  mk_metainf (mdv_map_field_init (to_le 4 0) version) (mdv_map_field_init (to_le 4 1) uuid).

(** The fields as the list that their [next] pointers make. *)
Definition fields (m : mdv_metainf) : list mdv_map_field_desc := [m_version m; m_uuid m].
Definition of_fields (m : mdv_metainf) (l : list mdv_map_field_desc) : mdv_metainf :=
  match l with [v; u] => mk_metainf v u | _ => m end.

Definition mdv_metainf_load (version uuid : bytes) (s : mdv_lmdb) : mdv_lmdb * mdv_metainf * bool :=
  let m := mdv_metainf_init version uuid in
  let f := start (enter s) in
  if mdv_transaction_ok (fr_txn f) then
    let f := open_map f MDV_MAP_METAINF MDV_MAP_INTEGERKEY in
    let m := if mdv_map_ok (fr_map f) then of_fields m (mdv_map_read (fr_map f) (fr_txn f) (fields m)) else m in
    (fr_st (close_map (abort f)), m, true)
  else (fr_st f, m, true).

(** [generated]: the identifier of [mdv_uuid_generate]. *)
Definition mdv_metainf_validate (generated : mdv_uuid) (m : mdv_metainf) : mdv_metainf :=
  mk_metainf
    (if f_empty (m_version m) then mdv_map_field_set (m_version m) (to_le 4 MDV_VERSION) else m_version m)
    (if f_empty (m_uuid m) then mdv_map_field_set (m_uuid m) (u8s generated) else m_uuid m).

Definition mdv_metainf_flush (m : mdv_metainf) (s : mdv_lmdb) : mdv_lmdb * mdv_metainf :=
  let f := start (enter s) in
  if mdv_transaction_ok (fr_txn f) then
    let f := open_map f MDV_MAP_METAINF (Z.lor MDV_MAP_CREATE MDV_MAP_INTEGERKEY) in
    let '(f, m) :=
      if mdv_map_ok (fr_map f) then
        let '(t, l) := mdv_map_write (fr_map f) (fr_txn f) (fields m) in
        (mk_frame (fr_st f) t (fr_map f) (fr_cur f), of_fields m l)
      else (f, m) in
    (fr_st (close_map (fst (commit f))), m)
  else (fr_st f, m).

Definition MDV_STRG_METAINF : string := "metainf.mdb".
Definition MDV_STRG_METAINF_MAPS : Z := 2.

Definition mdv_metainf_storage_open `{!MdbEnv} (max_size : Z) (path : option (list Ascii.ascii)) (mkdir mem : bool)
  : outcome (option mdv_lmdb) :=
  mdv_storage_open path (Some (String.list_ascii_of_string MDV_STRG_METAINF)) MDV_STRG_METAINF_MAPS MDV_STRG_NOSUBDIR max_size mkdir mem.

(** The start of the service: load, complete, write back. *)
Definition start_up (version uuid : bytes) (generated : mdv_uuid) (s : mdv_lmdb) : mdv_lmdb * mdv_metainf :=
  let '(s, m, _) := mdv_metainf_load version uuid s in
  mdv_metainf_flush (mdv_metainf_validate generated m) s.

(** The value of a field. *)
Definition value (f : mdv_map_field_desc) : bytes := take (f_size f) (f_value f).

(** ** Reads and writes of fields *)

Context `{!MdbLaws, !MdbCursorLaws}.
Section Fields.
Context (n : Z) (Hn : (1 <= n < 2 ^ 32 - 4)%Z).

(** The stored value of a field when it fits. *)
Definition stored (d : database) (f : mdv_map_field_desc) : option bytes :=
  match lookup2 d MDV_MAP_METAINF (f_key f) with
  | Some v => if length v <=? f_size f then Some v else None
  | None => None
  end.

Lemma read_field_inside f x fd :
  inside n f MDV_MAP_METAINF x -> valid_key (f_key fd) -> f_size fd <= length (f_value fd) ->
  let fd' := read_field (fr_map f) (fr_txn f) fd in
  f_key fd' = f_key fd
  /\ match stored (view x) fd with
     | Some v => value fd' = v /\ f_size fd' <= length (f_value fd') /\ f_empty fd' = false /\ f_changed fd' = false
     | None => fd' = fd
     end.
Proof.
  intros Hi Hk Hs. unfold read_field, stored. rewrite (get_inside n f MDV_MAP_METAINF x _ Hi Hk).
  destruct (lookup2 _ _ _) as [v|]; [|done]. destruct (Nat.leb_spec (length v) (f_size fd)); [|done]. split; [done|].
  unfold value. cbn [f_size f_value f_empty f_changed]. split_and!; try done; [|rewrite length_memcpy; cbn; lia].
  unfold memcpy. rewrite take_0. cbn. apply take_app_length.
Qed.

(** Storing the changed fields. *)
Definition write_all (l : list mdv_map_field_desc) (m : gmap bytes bytes) : gmap bytes bytes :=
  foldl (fun m f => if f_changed f then <[f_key f := value f]> m else m) m l.

Lemma map_write_inside `{!MdbRoom} l f x :
  inside n f MDV_MAP_METAINF x -> Forall (fun fd => valid_key (f_key fd)) l ->
  let '(t, l') := mdv_map_write (fr_map f) (fr_txn f) l in
  exists x', inside n (mk_frame (fr_st f) t (fr_map f) (fr_cur f)) MDV_MAP_METAINF x'
    /\ view x' = alter (write_all l) MDV_MAP_METAINF (view x)
    /\ l' = (fun fd => mk_field (f_key fd) (f_size fd) (f_value fd) (f_empty fd) false) <$> l.
Proof.
  intros Hi Hl. revert f x Hi. induction Hl as [|fd l Hk _ IH]; intros f x Hi.
  { exists x. destruct f. split_and!; try done. symmetry. apply map_eq. intros k. rewrite lookup_alter. case_decide as E; [subst|done].
    cbn. by destruct (view x !! MDV_MAP_METAINF). }
  cbn [mdv_map_write]. destruct (f_changed fd) eqn:Ec.
  - unfold mdv_map_put. pose proof (put_inside n f MDV_MAP_METAINF x (f_key fd) (value fd) 0 Hi Hk) as Hp. fold (value fd).
    destruct (mdv_map_put_impl _ _ _ _ _) as [t1 ok]. destruct Hp as (x1 & Hi1 & _ & Hv1 & _ & Hroom).
    rewrite (Hroom _ ltac:(by left)) in *. specialize (IH _ x1 Hi1). cbn [fr_map fr_txn fr_st fr_cur] in IH.
    destruct (mdv_map_write _ _ l) as [t2 l2]. destruct IH as (x2 & Hi2 & Hv2 & ->). exists x2. split_and!; try done.
    rewrite Hv2, Hv1. apply map_eq. intros k. rewrite !lookup_alter. repeat case_decide; try done.
    unfold write_all. cbn. rewrite Ec. by destruct (view x !! MDV_MAP_METAINF).
  - specialize (IH f x Hi). destruct (mdv_map_write _ _ l) as [t2 l2]. destruct IH as (x2 & Hi2 & Hv2 & ->).
    exists x2. split_and!; try done; [rewrite Hv2; f_equal; unfold write_all; cbn; by rewrite Ec|]. cbn. f_equal. by destruct fd; cbn in *; subst.
Qed.

(** A field of the record: its key and size, read from [d] into [fd]. *)
Definition loaded (d : database) (k : bytes) (size : nat) (fd : mdv_map_field_desc) : Prop :=
  f_key fd = k
  /\ match lookup2 d MDV_MAP_METAINF k with
     | Some v => value fd = v /\ f_empty fd = false /\ f_changed fd = false
     | None => f_size fd = size /\ f_empty fd = true /\ f_changed fd = false
     end.

(** The stored fields have at most the size of the record's fields. *)
Definition sizes_ok (d : database) : Prop :=
  (forall v, lookup2 d MDV_MAP_METAINF (to_le 4 0) = Some v -> length v <= 4)
  /\ (forall v, lookup2 d MDV_MAP_METAINF (to_le 4 1) = Some v -> length v <= 16).

Lemma field_key_valid k : valid_key (to_le 4 k).
Proof. unfold valid_key. rewrite length_to_le. lia. Qed.

Lemma read_loaded f x k size b :
  inside n f MDV_MAP_METAINF x -> length b = size ->
  (forall v, lookup2 (view x) MDV_MAP_METAINF (to_le 4 k) = Some v -> length v <= size) ->
  loaded (view x) (to_le 4 k) size (read_field (fr_map f) (fr_txn f) (mdv_map_field_init (to_le 4 k) b)).
Proof.
  intros Hi Hb Hsz. pose proof (read_field_inside f x (mdv_map_field_init (to_le 4 k) b) Hi (field_key_valid k) ltac:(done)) as (Hk & Hr).
  split; [done|]. unfold stored in Hr. cbn [f_key f_size mdv_map_field_init] in Hr. rewrite Hb in Hr.
  destruct (lookup2 (view x) MDV_MAP_METAINF (to_le 4 k)) as [v|].
  - rewrite (proj2 (Nat.leb_le _ _) (Hsz v eq_refl)) in Hr. by destruct Hr as (? & _ & ? & ?).
  - by rewrite Hr.
Qed.

Definition data_at (s : mdv_lmdb) : database := db (s_env s).

Lemma load_runs `{!MdbReliable} version uuid s :
  live n s -> sizes_ok (data_at s) -> length version = 4 -> length uuid = 16 ->
  let '(s', m, ok) := mdv_metainf_load version uuid s in
  live n s' /\ data_at s' = data_at s /\ ok = true
  /\ loaded (data_at s) (to_le 4 0) 4 (m_version m) /\ loaded (data_at s) (to_le 4 1) 16 (m_uuid m).
Proof.
  intros Hl [Hs0 Hs1] Hv Hu. unfold mdv_metainf_load. pose proof (balanced_enter n s Hl) as Hb.
  destruct (start_ok n Hn (enter s) Hb eq_refl) as (B1 & D1 & N1 & M1 & C1 & V1). pose proof (start_reliable (enter s)) as Hst.
  rewrite Hst. unfold mdv_transaction_ok in Hst. set (f1 := start (enter s)) in *.
  destruct (t_txn (fr_txn f1)) as [x|] eqn:Et; [|done]. destruct V1 as [V1 _]. change (data (enter s)) with (data_at s) in *.
  destruct (open_map_ok n Hn f1 MDV_MAP_METAINF MDV_MAP_INTEGERKEY x B1 Et ltac:(by rewrite M1)) as (B2 & D2 & N2 & C2 & x2 & Et2 & _ & V2).
  pose proof (fun Hs => open_map_reliable n f1 MDV_MAP_METAINF MDV_MAP_INTEGERKEY x B1 Et (or_introl Hs)) as Hrel.
  set (f2 := open_map f1 MDV_MAP_METAINF MDV_MAP_INTEGERKEY) in *. cbn zeta.
  destruct (clean_abort_close n Hn f2 B2 ltac:(by rewrite C2, C1)) as (B3 & I3 & D3 & N3).
  assert (Hd : data_at (fr_st (close_map (abort f2))) = data_at s) by (change (data (close_map (abort f2)) = data_at s); congruence).
  split; [by apply idle_live|]. split; [done|]. split; [done|]. rewrite <- (b_map _ _ B2) in *.
  destruct (m_storage (fr_map f2)) eqn:E2.
  - destruct V2 as (Hh & V2 & _). assert (Hi : inside n f2 MDV_MAP_METAINF x2) by (split; try done; by rewrite C2, C1).
    assert (Hlk : forall k, lookup2 (view x2) MDV_MAP_METAINF k = lookup2 (data_at s) MDV_MAP_METAINF k)
      by (intros; by rewrite V2, lookup2_ensure, V1).
    unfold loaded. rewrite <- !Hlk. split; apply read_loaded; try done; intros v; rewrite Hlk; auto.
  - assert (Hnone : forall k, lookup2 (data_at s) MDV_MAP_METAINF k = None).
    { intros k. unfold lookup2. destruct (data_at s !! MDV_MAP_METAINF) eqn:E; [|done]. rewrite V1, E in Hrel.
      by specialize (Hrel ltac:(eauto)). }
    unfold loaded. rewrite !Hnone. by split_and!.
Qed.

Lemma flush_runs `{!MdbReliable, !MdbRoom} m s :
  live n s -> f_key (m_version m) = to_le 4 0 -> f_key (m_uuid m) = to_le 4 1 ->
  let '(s', m') := mdv_metainf_flush m s in
  live n s' /\ value (m_version m') = value (m_version m) /\ value (m_uuid m') = value (m_uuid m)
  /\ (forall nm, nm <> MDV_MAP_METAINF -> data_at s' !! nm = data_at s !! nm)
  /\ data_at s' !! MDV_MAP_METAINF = Some (write_all (fields m) (default ∅ (data_at s !! MDV_MAP_METAINF))).
Proof.
  intros Hl Hk0 Hk1. unfold mdv_metainf_flush. pose proof (balanced_enter n s Hl) as Hb.
  pose proof (opened n Hn (enter s) MDV_MAP_METAINF (Z.lor MDV_MAP_CREATE MDV_MAP_INTEGERKEY) Hb ltac:(done)) as Ho. cbn zeta in Ho.
  destruct (opened_reliable n Hn (enter s) MDV_MAP_METAINF (Z.lor MDV_MAP_CREATE MDV_MAP_INTEGERKEY) Hb ltac:(done) ltac:(by right)) as [E1 E2].
  rewrite E1, E2 in *. cbn [negb] in Ho. destruct Ho as (x & Hi & Hd & _ & Hv & _). set (f := open_map _ _ _) in *.
  assert (Hks : Forall (fun fd => valid_key (f_key fd)) (fields m)).
  { unfold fields. rewrite !Forall_cons, Hk0, Hk1. repeat split; try apply field_key_valid. constructor. }
  pose proof (map_write_inside (fields m) f x Hi Hks) as Hw. destruct (mdv_map_write _ _ _) as [t l].
  destruct Hw as (x1 & Hi1 & Hv1 & ->). set (f1 := mk_frame _ t _ _) in *.
  pose proof (commit_inside n Hn f1 _ _ Hi1) as Hc. pose proof (commit_reliable_ok f1 x1 (in_txn _ _ _ _ Hi1)) as Hr.
  destruct (commit f1) as [f2 ok]. cbn in Hr. subst ok. destruct Hc as (B & I & D & _). cbn [fst].
  change (data_at (fr_st (close_map f2))) with (data (close_map f2)). rewrite D, Hv1.
  split; [by apply idle_live|]. split; [done|]. split; [done|]. split.
  - intros nm Hne. rewrite lookup_alter_ne by done. by rewrite Hv, ensure_lookup, decide_False by done.
  - rewrite lookup_alter_eq, Hv, ensure_lookup, decide_True by done. done.
Qed.

Lemma write_all_fields (m : mdv_metainf) (d : gmap bytes bytes) :
  f_key (m_version m) = to_le 4 0 -> f_key (m_uuid m) = to_le 4 1 ->
  write_all (fields m) d !! to_le 4 0 = (if f_changed (m_version m) then Some (value (m_version m)) else d !! to_le 4 0)
  /\ write_all (fields m) d !! to_le 4 1 = (if f_changed (m_uuid m) then Some (value (m_uuid m)) else d !! to_le 4 1).
Proof.
  intros Hk0 Hk1. unfold write_all, fields. cbn [foldl]. rewrite Hk0, Hk1. assert (to_le 4 0 <> to_le 4 1) by done.
  destruct (f_changed (m_version m)), (f_changed (m_uuid m)); split;
    repeat first [rewrite lookup_insert_eq | rewrite lookup_insert_ne by done]; done.
Qed.

(** The value a field has after a start: the stored one, or the new one. *)
Definition chosen (d : database) (k new : bytes) : bytes := default new (lookup2 d MDV_MAP_METAINF k).

Lemma start_up_runs `{!MdbReliable, !MdbRoom} version uuid g s :
  live n s -> sizes_ok (data_at s) -> length version = 4 -> length uuid = 16 ->
  let '(s', m) := start_up version uuid g s in
  let v := chosen (data_at s) (to_le 4 0) (to_le 4 MDV_VERSION) in
  let u := chosen (data_at s) (to_le 4 1) (u8s g) in
  live n s' /\ value (m_version m) = v /\ value (m_uuid m) = u /\ length v <= 4 /\ length u <= 16
  /\ lookup2 (data_at s') MDV_MAP_METAINF (to_le 4 0) = Some v /\ lookup2 (data_at s') MDV_MAP_METAINF (to_le 4 1) = Some u
  /\ (forall nm, nm <> MDV_MAP_METAINF -> data_at s' !! nm = data_at s !! nm).
Proof.
  intros Hl Hsz Hv Hu. unfold start_up. pose proof (load_runs version uuid s Hl Hsz Hv Hu) as Hload.
  destruct (mdv_metainf_load version uuid s) as [[s1 m] ok]. destruct Hload as (Hl1 & Hd1 & _ & [Kv Lv] & [Ku Lu]).
  set (m1 := mdv_metainf_validate g m).
  assert (Hkeys : f_key (m_version m1) = to_le 4 0 /\ f_key (m_uuid m1) = to_le 4 1).
  { unfold m1, mdv_metainf_validate. cbn. by destruct (f_empty (m_version m)), (f_empty (m_uuid m)). }
  assert (Hval : forall k size new fd, loaded (data_at s) k size fd -> length new = size ->
            let fd' := if f_empty fd then mdv_map_field_set fd new else fd in
            value fd' = chosen (data_at s) k new /\ f_changed fd' = negb (is_some (lookup2 (data_at s) MDV_MAP_METAINF k))).
  { intros k size new fd [_ Hld] Hlen. unfold chosen. destruct (lookup2 _ _ k) as [w|]; cbn [default is_some negb].
    - destruct Hld as (? & -> & ?). done.
    - destruct Hld as (Hs & -> & ?). cbn. split; [|done]. unfold value. cbn. apply firstn_all2. lia. }
  destruct (Hval (to_le 4 0) 4 (to_le 4 MDV_VERSION) (m_version m) (conj Kv Lv) eq_refl) as [Vv Cv].
  destruct (Hval (to_le 4 1) 16 (u8s g) (m_uuid m) (conj Ku Lu) ltac:(unfold u8s; by rewrite length_app, !length_to_le)) as [Vu Cu].
  pose proof (flush_runs m1 s1 Hl1 (proj1 Hkeys) (proj2 Hkeys)) as Hf. destruct (mdv_metainf_flush m1 s1) as [s2 m2].
  destruct Hf as (Hl2 & Hv2 & Hu2 & Hoth & Hmap). cbn zeta. rewrite Hd1 in *.
  split; [done|]. split; [by rewrite Hv2|]. split; [by rewrite Hu2|].
  assert (Hlen : length (chosen (data_at s) (to_le 4 0) (to_le 4 MDV_VERSION)) <= 4 /\ length (chosen (data_at s) (to_le 4 1) (u8s g)) <= 16).
  { unfold chosen. destruct Hsz as [S0 S1].
    destruct (lookup2 _ _ (to_le 4 0)) as [w|] eqn:E0, (lookup2 _ _ (to_le 4 1)) as [w'|] eqn:E1; cbn [default];
      split; try (by apply S0); try (by apply S1); try done; unfold u8s; rewrite length_app, !length_to_le; lia. }
  destruct Hlen as [L0 L1]. split; [done|]. split; [done|].
  assert (Hlk : forall k, lookup2 (data_at s2) MDV_MAP_METAINF k = write_all (fields m1) (default ∅ (data_at s !! MDV_MAP_METAINF)) !! k)
    by (intros; unfold lookup2; by rewrite Hmap).
  assert (Hold : forall k, (default ∅ (data_at s !! MDV_MAP_METAINF) : gmap bytes bytes) !! k = lookup2 (data_at s) MDV_MAP_METAINF k)
    by (intros; unfold lookup2; by destruct (data_at s !! MDV_MAP_METAINF)).
  destruct (write_all_fields m1 (default ∅ (data_at s !! MDV_MAP_METAINF)) (proj1 Hkeys) (proj2 Hkeys)) as [W0 W1].
  split_and!; [| |done]; rewrite Hlk, ?W0, ?W1, Hold.
  - change (m_version m1) with (if f_empty (m_version m) then mdv_map_field_set (m_version m) (to_le 4 MDV_VERSION) else m_version m).
    rewrite Cv, Vv. unfold chosen. by destruct (lookup2 _ _ (to_le 4 0)).
  - change (m_uuid m1) with (if f_empty (m_uuid m) then mdv_map_field_set (m_uuid m) (u8s g) else m_uuid m).
    rewrite Cu, Vu. unfold chosen. by destruct (lookup2 _ _ (to_le 4 1)).
Qed.

(** On a storage with room whose operations do not fail, two starts of
    the service agree: the second one, whatever identifier it would generate
    and whatever its uninitialised record holds, reads back the version and
    the identifier that the first one chose, which are the stored ones when
    there are any; the other maps of the storage and the count of references
    are left as they were. *)
Theorem mdv_metainf_identity `{!MdbReliable, !MdbRoom} version uuid version' uuid' g g' s s1 m1 s2 m2 :
  live n s -> sizes_ok (data_at s) ->
  length version = 4 -> length uuid = 16 -> length version' = 4 -> length uuid' = 16 ->
  start_up version uuid g s = (s1, m1) -> start_up version' uuid' g' s1 = (s2, m2) ->
  value (m_version m1) = chosen (data_at s) (to_le 4 0) (to_le 4 MDV_VERSION)
  /\ value (m_uuid m1) = chosen (data_at s) (to_le 4 1) (u8s g)
  /\ value (m_version m2) = value (m_version m1) /\ value (m_uuid m2) = value (m_uuid m1)
  /\ live n s2
  /\ (forall nm, nm <> MDV_MAP_METAINF -> data_at s2 !! nm = data_at s !! nm).
Proof.
  intros Hl Hsz Hv Hu Hv' Hu' E1 E2. pose proof (start_up_runs version uuid g s Hl Hsz Hv Hu) as R1. rewrite E1 in R1.
  destruct R1 as (Hl1 & V1 & U1 & L0 & L1 & K0 & K1 & O1).
  assert (Hsz1 : sizes_ok (data_at s1)) by (split; intros v; rewrite ?K0, ?K1; intros [= <-]; done).
  pose proof (start_up_runs version' uuid' g' s1 Hl1 Hsz1 Hv' Hu') as R2. rewrite E2 in R2.
  destruct R2 as (Hl2 & V2 & U2 & _ & _ & _ & _ & O2). unfold chosen in V2, U2. rewrite K0 in V2. rewrite K1 in U2.
  split; [done|]. split; [done|]. split; [by rewrite V1|]. split; [by rewrite U1|]. split; [done|]. intros nm Hne. by rewrite O2, O1.
Qed.

End Fields.
End Metainf.

(** ** Examples *)

Definition empty_storage : mdv_lmdb := mk_lmdb 1 (∅, ∅) true.

Lemma mdv_metainf_identity_witness :
  value (m_uuid (start_up [1; 2; 3; 4]%Z (replicate 16 7%Z) (mk_uuid 5 6)
           (start_up [0; 0; 0; 0]%Z (replicate 16 0%Z) (mk_uuid 1 2) empty_storage).1).2) = u8s (mk_uuid 1 2).
Proof.
  destruct (start_up [0; 0; 0; 0]%Z (replicate 16 0%Z) (mk_uuid 1 2) empty_storage) as [s1 m1] eqn:E1.
  cbn [fst snd]. destruct (start_up [1; 2; 3; 4]%Z (replicate 16 7%Z) (mk_uuid 5 6) s1) as [s2 m2] eqn:E2.
  pose proof (mdv_metainf_identity 1 ltac:(lia)) as Hid.
  specialize (fun l z a b c d => Hid _ _ _ _ _ _ _ _ _ _ _ l z a b c d E1 E2) as Hid'.
  destruct (Hid' (conj eq_refl eq_refl) ltac:(by split) eq_refl eq_refl eq_refl eq_refl) as (_ & U & _ & U2 & _).
  cbn [snd]. rewrite U2, U. reflexivity.
Defined.

End Metainf.
