(* ===== verification/Binn.v ===== *)
(** * Documents of the binn format and floating-point numbers

    Rows, tables and messages are stored and sent as documents of the binn
    library.  The serializers see a document through the interface of the
    library: values are added to lists and objects, lists are iterated, objects
    are searched by key, and integers are read at a width.  A document is a
    tree here; the bytes it is written as and the reads that convert between
    kinds of values are the parameters of the class [Binn], whose documented
    behaviour on the kinds the serializers use is [BinnLaws].

    A writer can run out of memory at every step: the answers of the allocator
    are a function from the number of the request.

    The conversions between the two floating-point formats are those of C on
    IEEE 754 numbers, given by their bits. *)

From stdpp Require Import strings countable.
From S2P Require Import Prelude.

Module Binn.

Abbreviation bytes := (list Z).

(** ** Floating-point numbers *)

Definition f32_to_f64 (x : Z) : Z :=
  let s := (x / 2 ^ 31)%Z in
  let e := (x / 2 ^ 23 mod 2 ^ 8)%Z in
  let m := (x mod 2 ^ 23)%Z in
  if (e =? 255)%Z then
    if (m =? 0)%Z then (s * 2 ^ 63 + 2047 * 2 ^ 52)%Z
    else (s * 2 ^ 63 + 2047 * 2 ^ 52 + Z.lor (m * 2 ^ 29) (2 ^ 51))%Z
  else if (e =? 0)%Z then
    if (m =? 0)%Z then (s * 2 ^ 63)%Z
    else let k := Z.log2 m in (s * 2 ^ 63 + (k + 874) * 2 ^ 52 + (m - 2 ^ k) * 2 ^ (52 - k))%Z
  else (s * 2 ^ 63 + (e + 896) * 2 ^ 52 + m * 2 ^ 29)%Z.

(** [m / 2 ^ sh], to the nearest, ties to even. *)
Definition round_even (m sh : Z) : Z :=
  let t := (m / 2 ^ sh)%Z in
  let r := (m mod 2 ^ sh)%Z in
  let h := (2 ^ (sh - 1))%Z in
  if (h <? r)%Z || ((r =? h)%Z && Z.odd t) then (t + 1)%Z else t.

Definition f64_to_f32 (x : Z) : Z :=
  let s := (x / 2 ^ 63)%Z in
  let e := (x / 2 ^ 52 mod 2 ^ 11)%Z in
  let m := (x mod 2 ^ 52)%Z in
  if (e =? 2047)%Z then
    if (m =? 0)%Z then (s * 2 ^ 31 + 255 * 2 ^ 23)%Z
    else (s * 2 ^ 31 + 255 * 2 ^ 23 + Z.lor (m / 2 ^ 29) (2 ^ 22))%Z
  else
    let '(m, sh) := if (e =? 0)%Z then (m, 925%Z) else ((2 ^ 52 + m)%Z, Z.max 29 (926 - e)) in
    let b := (Z.max 0 (e - 897) * 2 ^ 23 + round_even m sh)%Z in
    (s * 2 ^ 31 + Z.min b (255 * 2 ^ 23))%Z.

(** A signalling NaN becomes a quiet one when it is converted. *)
Definition signalling (x : Z) : Prop :=
  (x / 2 ^ 23 mod 2 ^ 8 = 255 /\ x mod 2 ^ 23 <> 0 /\ x mod 2 ^ 23 < 2 ^ 22)%Z.

#[global] Instance signalling_dec x : Decision (signalling x).
Proof. unfold signalling. apply _. Defined.

(** The parts of a number of [1 + we + wm] bits. *)
Lemma parts we wm s e m :
  (0 <= wm -> 0 <= we -> 0 <= e < 2 ^ we -> 0 <= m < 2 ^ wm ->
   let x := s * 2 ^ (we + wm) + e * 2 ^ wm + m in
   x / 2 ^ (we + wm) = s /\ x / 2 ^ wm mod 2 ^ we = e /\ x mod 2 ^ wm = m)%Z.
Proof.
  intros Hwm Hwe He Hm x. assert (0 < 2 ^ wm)%Z by (apply Z.pow_pos_nonneg; lia).
  assert (0 < 2 ^ we)%Z by (apply Z.pow_pos_nonneg; lia).
  assert (Hx : x = ((s * 2 ^ we + e) * 2 ^ wm + m)%Z) by (unfold x; rewrite Z.pow_add_r by lia; ring).
  assert (Hd : (x / 2 ^ wm = s * 2 ^ we + e)%Z) by (rewrite Hx, Z.div_add_l, (Z.div_small m) by lia; lia).
  split_and!.
  - rewrite Z.add_comm, Z.pow_add_r, <- Z.div_div, Hd, Z.div_add_l, (Z.div_small e) by lia. lia.
  - rewrite Hd, Z.add_comm, Z_mod_plus_full. by apply Z.mod_small.
  - rewrite Hx, Z.add_comm, Z_mod_plus_full. by apply Z.mod_small.
Qed.

Lemma split_parts we wm x :
  (0 <= wm -> 0 <= we ->
   x = x / 2 ^ (we + wm) * 2 ^ (we + wm) + x / 2 ^ wm mod 2 ^ we * 2 ^ wm + x mod 2 ^ wm)%Z.
Proof.
  intros Hwm Hwe. assert (0 < 2 ^ wm)%Z by (apply Z.pow_pos_nonneg; lia).
  assert (0 < 2 ^ we)%Z by (apply Z.pow_pos_nonneg; lia).
  rewrite (Z.add_comm we), Z.pow_add_r, <- Z.div_div by lia.
  pose proof (Z_div_mod_eq_full x (2 ^ wm)). pose proof (Z_div_mod_eq_full (x / 2 ^ wm) (2 ^ we)). nia.
Qed.

Lemma round_even_exact m sh : (0 <= m -> 0 < sh -> round_even (m * 2 ^ sh) sh = m)%Z.
Proof.
  intros Hm Hs. unfold round_even. assert (0 < 2 ^ sh)%Z by (apply Z.pow_pos_nonneg; lia).
  assert (0 < 2 ^ (sh - 1))%Z by (apply Z.pow_pos_nonneg; lia).
  rewrite Z.div_mul, Z_mod_mult by lia. destruct (Z.ltb_spec (2 ^ (sh - 1)) 0); [lia|].
  destruct (Z.eqb_spec 0 (2 ^ (sh - 1))); [lia|]. done.
Qed.

(** Reading the bits of a double with the given parts. *)
Lemma f64_to_f32_parts s e m :
  (0 <= e < 2 ^ 11 -> 0 <= m < 2 ^ 52 ->
   f64_to_f32 (s * 2 ^ 63 + e * 2 ^ 52 + m) =
     if e =? 2047 then
       if m =? 0 then s * 2 ^ 31 + 255 * 2 ^ 23 else s * 2 ^ 31 + 255 * 2 ^ 23 + Z.lor (m / 2 ^ 29) (2 ^ 22)
     else
       let '(m, sh) := if e =? 0 then (m, 925) else (2 ^ 52 + m, Z.max 29 (926 - e)) in
       s * 2 ^ 31 + Z.min (Z.max 0 (e - 897) * 2 ^ 23 + round_even m sh) (255 * 2 ^ 23))%Z.
Proof.
  intros He Hm. destruct (parts 11 52 s e m ltac:(lia) ltac:(lia) He Hm) as (Hs & He' & Hm').
  change (11 + 52)%Z with 63%Z in *. unfold f64_to_f32. by rewrite Hs, He', Hm'.
Qed.

Lemma lor_bit m k : (0 <= k -> 2 ^ k <= m < 2 ^ (k + 1) -> Z.lor m (2 ^ k) = m)%Z.
Proof.
  intros Hk Hm. assert (Hb : Z.testbit m k = true).
  { apply Z.testbit_true; [lia|]. rewrite Z.pow_add_r in Hm by lia.
    assert (m / 2 ^ k = 1)%Z as -> by (symmetry; apply (Z.div_unique _ _ 1 (m - 2 ^ k)); lia). done. }
  apply Z.bits_inj'. intros i Hi. rewrite Z.lor_spec, Z.pow2_bits_eqb by lia.
  destruct (Z.eqb_spec k i) as [->|]; [by rewrite Hb|by rewrite orb_false_r].
Qed.

(** A float survives the way through a double, unless it is a signalling NaN. *)
Lemma f32_roundtrip x : (0 <= x)%Z -> ~ signalling x -> f64_to_f32 (f32_to_f64 x) = x.
Proof.
  intros Hx Hsig. pose proof (split_parts 8 23 x ltac:(lia) ltac:(lia)) as Hsp. change (8 + 23)%Z with 31%Z in Hsp.
  pose proof (Z.mod_pos_bound (x / 2 ^ 23) (2 ^ 8) ltac:(lia)) as He. pose proof (Z.mod_pos_bound x (2 ^ 23) ltac:(lia)) as Hm.
  unfold signalling in Hsig. unfold f32_to_f64.
  set (s := (x / 2 ^ 31)%Z) in *. set (e := (x / 2 ^ 23 mod 2 ^ 8)%Z) in *. set (m := (x mod 2 ^ 23)%Z) in *.
  destruct (Z.eqb_spec e 255) as [E1|E1]; [destruct (Z.eqb_spec m 0) as [E2|E2]|
    destruct (Z.eqb_spec e 0) as [E3|E3]; [destruct (Z.eqb_spec m 0) as [E2|E2]|]].
  - replace (s * 2 ^ 63 + 2047 * 2 ^ 52)%Z with (s * 2 ^ 63 + 2047 * 2 ^ 52 + 0)%Z by lia.
    rewrite f64_to_f32_parts by lia. cbn [Z.eqb Pos.eqb]. lia.
  - assert (Hq : (2 ^ 22 <= m)%Z) by lia.
    rewrite (lor_bit (m * 2 ^ 29) 51) by lia. rewrite f64_to_f32_parts by lia. cbn [Z.eqb Pos.eqb].
    destruct (Z.eqb_spec (m * 2 ^ 29) 0); [lia|]. rewrite Z.div_mul, (lor_bit m 22) by lia. lia.
  - replace (s * 2 ^ 63)%Z with (s * 2 ^ 63 + 0 * 2 ^ 52 + 0)%Z by lia. rewrite f64_to_f32_parts by lia.
    cbn [Z.eqb]. change (round_even 0 925) with 0%Z. lia.
  - set (k := Z.log2 m). pose proof (Z.log2_spec m ltac:(lia)) as Hk. fold k in Hk. pose proof (Z.log2_nonneg m).
    assert (k < 23)%Z by (apply Z.log2_lt_pow2; lia).
    assert (Hpk : (2 ^ k * 2 ^ (52 - k) = 2 ^ 52)%Z) by (rewrite <- Z.pow_add_r by lia; f_equal; lia).
    assert (0 < 2 ^ (52 - k))%Z by (apply Z.pow_pos_nonneg; lia). rewrite Z.pow_succ_r in Hk by lia.
    rewrite f64_to_f32_parts by nia. destruct (Z.eqb_spec (k + 874) 2047); [lia|]. destruct (Z.eqb_spec (k + 874) 0); [lia|].
    replace (2 ^ 52 + (m - 2 ^ k) * 2 ^ (52 - k))%Z with (m * 2 ^ (52 - k))%Z by lia.
    replace (Z.max 29 (926 - (k + 874))) with (52 - k)%Z by lia. rewrite round_even_exact by lia. lia.
  - rewrite f64_to_f32_parts by lia. destruct (Z.eqb_spec (e + 896) 2047); [lia|]. destruct (Z.eqb_spec (e + 896) 0); [lia|].
    replace (2 ^ 52 + m * 2 ^ 29)%Z with ((2 ^ 23 + m) * 2 ^ 29)%Z by lia.
    replace (Z.max 29 (926 - (e + 896))) with 29%Z by lia. rewrite round_even_exact by lia. lia.
Qed.

Example floats :
  f32_to_f64 0x3F800000 = 0x3FF0000000000000%Z /\ f64_to_f32 0x3FB999999999999A = 0x3DCCCCCD%Z
  /\ f32_to_f64 1 = 0x36A0000000000000%Z /\ f64_to_f32 0x7FEFFFFFFFFFFFFF = 0x7F800000%Z.
Proof. vm_compute. done. Qed.

(** ** Documents *)

Set Warnings "-register-all".

Inductive binn :=
| B_int (z : Z)
| B_bool (b : bool)
| B_float (bits : Z)
| B_double (bits : Z)
| B_str (s : bytes)
| B_blob (s : bytes)
| B_list (l : list binn)
| B_object (l : list (string * binn)).

(** The library on the parts of documents that are not fixed by their shape:
    - [binn_get_int32] and the like convert any value to a number;
    - [binn_items] and [binn_pairs] are what an iteration over a value, read as
      a list or as an object, yields;
    - [binn_bytes] is the buffer of a list or object, [binn_load] reads one. *)
Class Binn := {
  binn_get_int32 : binn -> option Z;
  binn_get_int64 : binn -> option Z;
  binn_get_bool : binn -> option bool;
  binn_get_double : binn -> option Z;
  binn_items : binn -> list binn;
  binn_pairs : binn -> list (string * binn);
  binn_bytes : binn -> bytes;
  binn_load : bytes -> option binn
}.

Definition in_range (lo hi z : Z) : option Z := if (lo <=? z)%Z && (z <=? hi)%Z then Some z else None.

Definition is_container (v : binn) : bool := match v with B_list _ | B_object _ => true | _ => false end.

(** The values a document can hold: integers of 64 bits, floating-point numbers,
    texts and blobs of bytes. *)
Fixpoint doc_ok (v : binn) : Prop :=
  match v with
  | B_int z => (- 2 ^ 63 <= z < 2 ^ 64)%Z
  | B_bool _ => True
  | B_float x => fits 32 x
  | B_double x => fits 64 x
  | B_str s | B_blob s => Forall is_byte s
  | B_list l => foldr (fun v P => doc_ok v /\ P) True l
  | B_object l => foldr (fun '(_, v) P => doc_ok v /\ P) True l
  end.

Class BinnLaws `{Binn} : Prop := {
  get_int32_int z : binn_get_int32 (B_int z) = in_range (- 2 ^ 31) (2 ^ 31 - 1) z;
  get_int64_int z : binn_get_int64 (B_int z) = in_range (- 2 ^ 63) (2 ^ 63 - 1) z;
  get_bool_bool b : binn_get_bool (B_bool b) = Some b;
  get_double_float x : binn_get_double (B_float x) = Some (f32_to_f64 x);
  get_double_double x : binn_get_double (B_double x) = Some x;
  items_list l : binn_items (B_list l) = l;
  pairs_object l : binn_pairs (B_object l) = l;
  load_bytes v : is_container v = true -> doc_ok v -> (Z.of_nat (length (binn_bytes v)) < 2 ^ 31)%Z ->
    binn_load (binn_bytes v) = Some v;
  bytes_container v : is_container v = true -> binn_bytes v <> []
}.

(** ** Reading *)

Section Reading.
Context `{Binn}.

(** What [binn_ptr] and [binn_size] give of a value. *)
Definition binn_data (v : binn) : bytes :=
  match v with
  | B_str s | B_blob s => s
  | B_list _ | B_object _ => binn_bytes v
  | _ => []
  end.

(** Keys are compared without regard to case. *)
Definition lower (c : Ascii.ascii) : Ascii.ascii :=
  let n := Ascii.nat_of_ascii c in if (65 <=? n) && (n <=? 90) then Ascii.ascii_of_nat (n + 32) else c.
Definition same_key (a b : string) : bool :=
  bool_decide (lower <$> String.list_ascii_of_string a = lower <$> String.list_ascii_of_string b).

Fixpoint find_key (key : string) (l : list (string * binn)) : option binn :=
  match l with
  | [] => None
  | (k, v) :: l => if same_key k key then Some v else find_key key l
  end.

Definition binn_object_get_value (obj : binn) (key : string) : option binn := find_key key (binn_pairs obj).

Definition binn_object_get_uint32 (obj : binn) (key : string) : option Z :=
  match binn_object_get_value obj key with Some (B_int z) => in_range 0 (2 ^ 32 - 1) z | _ => None end.

Definition binn_object_get_uint64 (obj : binn) (key : string) : option Z :=
  match binn_object_get_value obj key with Some (B_int z) => in_range 0 (2 ^ 64 - 1) z | _ => None end.

Definition binn_object_get_str (obj : binn) (key : string) : option bytes :=
  match binn_object_get_value obj key with Some (B_str s) => Some s | _ => None end.

(** Lists, maps and objects are one family: any of them is accepted. *)
Definition binn_object_get_list (obj : binn) (key : string) : option binn :=
  match binn_object_get_value obj key with Some v => if is_container v then Some v else None | None => None end.

Definition binn_object_get_object (obj : binn) (key : string) : option binn := binn_object_get_list obj key.

(** The getters of the other widths and kinds: integers are converted between
    widths when they are in range, the other kinds must be the same. *)
Definition binn_object_get_int32 (obj : binn) (key : string) : option Z :=
  match binn_object_get_value obj key with Some (B_int z) => in_range (- 2 ^ 31) (2 ^ 31 - 1) z | _ => None end.

Definition binn_object_get_uint16 (obj : binn) (key : string) : option Z :=
  match binn_object_get_value obj key with Some (B_int z) => in_range 0 (2 ^ 16 - 1) z | _ => None end.

Definition binn_object_get_bool (obj : binn) (key : string) : option bool :=
  match binn_object_get_value obj key with Some (B_bool b) => Some b | _ => None end.

Definition binn_object_get_blob (obj : binn) (key : string) : option bytes :=
  match binn_object_get_value obj key with Some (B_blob s) => Some s | _ => None end.

Definition mdv_binn_list_length (list : binn) : Z := u32 (Z.of_nat (length (binn_items list))).

End Reading.

(** Reading what was written under a key. *)
Section Getters.
Context `{BinnLaws} (l : list (string * binn)) (key : string).

Lemma get_value_at v : find_key key l = Some v -> binn_object_get_value (B_object l) key = Some v.
Proof. unfold binn_object_get_value. by rewrite pairs_object. Qed.

Lemma get_int_at lo hi z : find_key key l = Some (B_int z) -> (lo <= z <= hi)%Z ->
  match binn_object_get_value (B_object l) key with Some (B_int z) => in_range lo hi z | _ => None end = Some z.
Proof. intros Hf Hz. rewrite (get_value_at _ Hf). unfold in_range. rewrite (proj2 (Z.leb_le lo z)), (proj2 (Z.leb_le z hi)) by lia. done. Qed.

Lemma get_uint64_at z : find_key key l = Some (B_int z) -> fits 64 z -> binn_object_get_uint64 (B_object l) key = Some z.
Proof. intros Hf Hz. apply get_int_at; [done|]. unfold fits in Hz. lia. Qed.

Lemma get_uint32_at z : find_key key l = Some (B_int z) -> fits 32 z -> binn_object_get_uint32 (B_object l) key = Some z.
Proof. intros Hf Hz. apply get_int_at; [done|]. unfold fits in Hz. lia. Qed.

Lemma get_uint16_at z : find_key key l = Some (B_int z) -> fits 16 z -> binn_object_get_uint16 (B_object l) key = Some z.
Proof. intros Hf Hz. apply get_int_at; [done|]. unfold fits in Hz. lia. Qed.

Lemma get_int32_at z : find_key key l = Some (B_int z) -> (- 2 ^ 31 <= z < 2 ^ 31)%Z -> binn_object_get_int32 (B_object l) key = Some z.
Proof. intros Hf Hz. apply get_int_at; [done|]. lia. Qed.

Lemma get_str_at s : find_key key l = Some (B_str s) -> binn_object_get_str (B_object l) key = Some s.
Proof. intros Hf. unfold binn_object_get_str. by rewrite (get_value_at _ Hf). Qed.

Lemma get_bool_at b : find_key key l = Some (B_bool b) -> binn_object_get_bool (B_object l) key = Some b.
Proof. intros Hf. unfold binn_object_get_bool. by rewrite (get_value_at _ Hf). Qed.

Lemma get_blob_at s : find_key key l = Some (B_blob s) -> binn_object_get_blob (B_object l) key = Some s.
Proof. intros Hf. unfold binn_object_get_blob. by rewrite (get_value_at _ Hf). Qed.

Lemma get_list_at v : find_key key l = Some v -> is_container v = true -> binn_object_get_list (B_object l) key = Some v.
Proof. intros Hf Hv. unfold binn_object_get_list. by rewrite (get_value_at _ Hf), Hv. Qed.

End Getters.

(** Steps through the reader of a document whose keys are known. *)
Ltac step_reader :=
  match goal with
  | |- context [binn_object_get_uint64 (B_object ?l) ?k] => rewrite (get_uint64_at l k _ eq_refl) by done
  | |- context [binn_object_get_uint32 (B_object ?l) ?k] => rewrite (get_uint32_at l k _ eq_refl) by done
  | |- context [binn_object_get_uint16 (B_object ?l) ?k] => rewrite (get_uint16_at l k _ eq_refl) by done
  | |- context [binn_object_get_int32 (B_object ?l) ?k] => rewrite (get_int32_at l k _ eq_refl) by done
  | |- context [binn_object_get_str (B_object ?l) ?k] => rewrite (get_str_at l k _ eq_refl)
  | |- context [binn_object_get_bool (B_object ?l) ?k] => rewrite (get_bool_at l k _ eq_refl)
  | |- context [binn_object_get_blob (B_object ?l) ?k] => rewrite (get_blob_at l k _ eq_refl)
  | |- context [binn_object_get_list (B_object ?l) ?k] => rewrite (get_list_at l k _ eq_refl) by done
  end.

(** ** Writing

    [writer A]: a computation that makes requests to the allocator, the answers
    being [mem]; [None] when it gave up, [OutOfBounds] when it read outside an
    array. *)

Definition writer (A : Type) : Type := (nat -> bool) -> nat -> outcome (option A * nat).

Definition w_ret {A} (a : A) : writer A := fun _ n => Done (Some a, n).
Definition w_fail {A} : writer A := fun _ n => Done (None, n).
Definition w_bind {A B} (m : writer A) (k : A -> writer B) : writer B := fun mem n =>
  r ← m mem n;
  match r with
  | (Some a, n) => k a mem n
  | (None, n) => Done (None, n)
  end.
Definition w_out {A} (o : outcome A) : writer A := fun _ n => a ← o; Done (Some a, n).
(** One request to the allocator. *)
Definition w_request : writer unit := fun mem n => Done (if mem n then Some tt else None, S n).

Notation "x '<~' m ';;' k" := (w_bind m (fun x => k)) (at level 100, m at next level, right associativity).

Definition binn_create_list : writer binn := _ <~ w_request;; w_ret (B_list []).
Definition binn_create_object : writer binn := _ <~ w_request;; w_ret (B_object []).

Definition binn_list_add (list : binn) (v : binn) : writer binn :=
  match list with
  | B_list l => _ <~ w_request;; w_ret (B_list (l ++ [v]))
  | _ => w_fail
  end.

(** A key is set once, and has at most 255 characters. *)
Definition binn_object_set (obj : binn) (key : string) (v : binn) : writer binn :=
  match obj with
  | B_object l =>
      if 255 <? String.length key then w_fail
      else if is_some (find_key key l) then w_fail
      else _ <~ w_request;; w_ret (B_object (l ++ [(key, v)]))
  | _ => w_fail
  end.

(** [m] yields [a] when the allocator answers every request, and nothing else
    when it does not. *)
Definition makes {A} (m : writer A) (a : A) : Prop :=
  (forall mem n, exists n', m mem n = Done (None, n') \/ m mem n = Done (Some a, n'))
  /\ (forall mem, (forall i, mem i = true) -> forall n, exists n', m mem n = Done (Some a, n')).

Lemma makes_ret {A} (a : A) : makes (w_ret a) a.
Proof. split; intros; eexists; [by right|done]. Qed.

Lemma makes_request : makes w_request ().
Proof.
  split; intros mem; [intros n; exists (S n)|intros Hm n; exists (S n)]; unfold w_request.
  - destruct (mem n); [by right|by left].
  - by rewrite Hm.
Qed.

Lemma makes_bind {A B} (m : writer A) (k : A -> writer B) a b : makes m a -> makes (k a) b -> makes (w_bind m k) b.
Proof.
  intros [Hm1 Hm2] [Hk1 Hk2]. split; intros mem; [intros n|intros Ht n]; unfold w_bind.
  - destruct (Hm1 mem n) as (n1 & [-> | ->]); cbn; [exists n1; by left|apply Hk1].
  - destruct (Hm2 mem Ht n) as (n1 & ->). cbn. by apply Hk2.
Qed.

Lemma makes_list_add l v : makes (binn_list_add (B_list l) v) (B_list (l ++ [v])).
Proof. eapply makes_bind; [apply makes_request|apply makes_ret]. Qed.

Lemma makes_object_set l k v :
  String.length k <= 255 -> find_key k l = None -> makes (binn_object_set (B_object l) k v) (B_object (l ++ [(k, v)])).
Proof.
  intros Hk Hf. unfold binn_object_set. destruct (Nat.ltb_spec 255 (String.length k)); [lia|]. rewrite Hf. cbn [is_some].
  eapply makes_bind; [apply makes_request|apply makes_ret].
Qed.

Lemma makes_create_list : makes binn_create_list (B_list []).
Proof. eapply makes_bind; [apply makes_request|apply makes_ret]. Qed.

Lemma makes_create_object : makes binn_create_object (B_object []).
Proof. eapply makes_bind; [apply makes_request|apply makes_ret]. Qed.

Lemma makes_out {A} (o : outcome A) a : o = Done a -> makes (w_out o) a.
Proof. intros ->. split; intros; eexists; [by right|done]. Qed.

(** [w_fail] is never followed by anything. *)
Lemma fails_bind {A B} (m : writer A) (k : A -> writer B) :
  (forall mem n, exists n', m mem n = Done (None, n')) -> forall mem n, exists n', w_bind m k mem n = Done (None, n').
Proof. intros Hm mem n. destruct (Hm mem n) as (n' & E). exists n'. unfold w_bind. by rewrite E. Qed.

Create HintDb binn.
#[export] Hint Resolve makes_ret makes_list_add makes_create_list makes_create_object : binn.

(** Steps through a writer that succeeds. *)
Ltac step_writer := eapply makes_bind; [first [solve [eauto with binn] | apply makes_object_set; [cbn; lia|reflexivity]]|].

(** The writer of the last key. *)
Ltac last_writer := apply makes_object_set; [cbn; lia|reflexivity].

(** ** An instance

    The buffer of a document holds the bits of its number in an enumeration of
    the documents. *)

Fixpoint to_tree (v : binn) : gen_tree (Z * Z + (bytes + string)) :=
  match v with
  | B_int z => GenLeaf (inl (0%Z, z))
  | B_bool b => GenLeaf (inl (1%Z, if b then 1%Z else 0%Z))
  | B_float x => GenLeaf (inl (2%Z, x))
  | B_double x => GenLeaf (inl (3%Z, x))
  | B_str s => GenNode 0 [GenLeaf (inr (inl s))]
  | B_blob s => GenNode 1 [GenLeaf (inr (inl s))]
  | B_list l => GenNode 2 (to_tree <$> l)
  | B_object l => GenNode 3 ((fun '(k, v) => GenNode 4 [GenLeaf (inr (inr k)); to_tree v]) <$> l)
  end.

Fixpoint of_tree (t : gen_tree (Z * Z + (bytes + string))) : binn :=
  match t with
  | GenLeaf (inl (0%Z, z)) => B_int z
  | GenLeaf (inl (1%Z, z)) => B_bool (z =? 1)%Z
  | GenLeaf (inl (2%Z, z)) => B_float z
  | GenLeaf (inl (3%Z, z)) => B_double z
  | GenNode 0 [GenLeaf (inr (inl s))] => B_str s
  | GenNode 1 [GenLeaf (inr (inl s))] => B_blob s
  | GenNode 2 l => B_list (of_tree <$> l)
  | GenNode 3 l =>
      B_object ((fun t => match t with
                          | GenNode 4 [GenLeaf (inr (inr k)); t] => (k, of_tree t)
                          | _ => (EmptyString, B_int 0)
                          end) <$> l)
  | _ => B_int 0
  end.

Lemma of_to_tree v : of_tree (to_tree v) = v.
Proof.
  revert v. fix IH 1. intros [z|[]|x|x|s|s|l|l]; cbn; try done; f_equal.
  - induction l as [|v l IHl]; [done|]. cbn. by rewrite IH, IHl.
  - induction l as [|[k v] l IHl]; [done|]. cbn. by rewrite IH, IHl.
Qed.

#[global] Instance binn_eq_dec : EqDecision binn.
Proof.
  intros a b. destruct (decide (to_tree a = to_tree b)) as [E|E]; [left|right; congruence].
  rewrite <- (of_to_tree a), E. apply of_to_tree.
Defined.

#[global] Instance binn_countable : Countable binn := inj_countable' to_tree of_tree of_to_tree.

Fixpoint bits (p : positive) : bytes :=
  match p with xH => [] | xO p => 0%Z :: bits p | xI p => 1%Z :: bits p end.
Fixpoint unbits (l : bytes) : positive :=
  match l with [] => xH | b :: l => if (b =? 0)%Z then xO (unbits l) else xI (unbits l) end.

Lemma unbits_bits p : unbits (bits p) = p.
Proof. induction p; cbn; by f_equal. Qed.

#[export] Instance mem_binn : Binn := {|
  binn_get_int32 v := match v with B_int z => in_range (- 2 ^ 31) (2 ^ 31 - 1) z | _ => None end;
  binn_get_int64 v := match v with B_int z => in_range (- 2 ^ 63) (2 ^ 63 - 1) z | _ => None end;
  binn_get_bool v := match v with B_bool b => Some b | _ => None end;
  binn_get_double v := match v with B_float x => Some (f32_to_f64 x) | B_double x => Some x | _ => None end;
  binn_items v := match v with B_list l => l | _ => [] end;
  binn_pairs v := match v with B_object l => l | _ => [] end;
  binn_bytes v := 0%Z :: bits (encode v);
  binn_load b := match b with
                 | [] => None
                 | _ :: b => match decode (unbits b) with
                             | Some v => if is_container v then Some v else None
                             | None => None
                             end
                 end
|}.

#[export] Instance mem_binn_laws : BinnLaws.
Proof.
  split; try done. intros v Hv _ _. cbn. by rewrite unbits_bits, decode_encode, Hv.
Qed.

End Binn.
