(* ===== verification/Action.v ===== *)
(** * Computations of components

    The functions of the larger components change a state and ask for answers of
    the allocator, of mutexes, of the bus and of the system: computations
    [action S A] pass the state, and take the answers in order from a stream.  A
    result can be the access to a missing object or the lack of fuel, as for
    [outcome].

    [wp] is the weakest precondition: the computation ends, and the result and the
    state satisfy the postcondition; [granted] says that every answer is yes. *)

From stdpp Require Import strings.
From S2P Require Import Prelude Binn.
Import Binn.
#[local] Open Scope nat_scope.
#[local] Open Scope list_scope.

Module Action.

(** The answers, how many of them were used, and the state. *)
Definition action (S A : Type) : Type := (nat -> bool) -> nat -> S -> outcome (A * nat * S).

Section Action.
Context {S : Type}.

#[global] Instance action_ret : MRet (action S) := fun A a _ n s => Done (a, n, s).
#[global] Instance action_bind : MBind (action S) := fun A B k m mem n s =>
  match m mem n s with
  | Done (a, n, s) => k a mem n s
  | OutOfBounds i => OutOfBounds i
  | OutOfFuel => OutOfFuel
  end.

Definition get : action S S := fun _ n s => Done (s, n, s).
Definition put (s : S) : action S unit := fun _ n _ => Done (tt, n, s).
Definition lift {A} (o : outcome A) : action S A := fun _ n s => a ← o; Done (a, n, s).

(** The next answer; [k] answers at once. *)
Definition ask : action S bool := fun mem n s => Done (mem n, Datatypes.S n, s).
Definition asks (k : nat) : action S (nat -> bool) := fun mem n s => Done (fun i => mem (n + i), n + k, s).

(** A writer of documents uses the answers of the allocator. *)
Definition write {A} (w : writer A) : action S (option A) := fun mem n s =>
  match w mem n with
  | Done (a, n) => Done (a, n, s)
  | OutOfBounds i => OutOfBounds i
  | OutOfFuel => OutOfFuel
  end.

(** ** Reasoning about computations *)

Context (mem : nat -> bool).

(** Every request is granted. *)
Definition granted : Prop := forall i, mem i = true.

(** The computation ends, with a result and a state of [Q]. *)
Definition wp {A} (m : action S A) (s : S) (Q : A -> S -> Prop) : Prop :=
  forall k, exists a k' s', m mem k s = Done (a, k', s') /\ Q a s'.

Lemma wp_ret {A} (a : A) s (Q : A -> S -> Prop) : Q a s -> wp (mret a) s Q.
Proof. intros HQ k. by exists a, k, s. Qed.

Lemma wp_bind {A B} (m : action S A) (f : A -> action S B) s (Q : B -> S -> Prop) :
  wp m s (fun a s' => wp (f a) s' Q) -> wp (mbind f m) s Q.
Proof. intros Hm k. destruct (Hm k) as (a & k' & s' & E & Hf). destruct (Hf k') as (b & k'' & s'' & E' & HQ). exists b, k'', s''. split; [|done]. unfold mbind, action_bind. by rewrite E. Qed.

Lemma wp_mono {A} (m : action S A) s (Q Q' : A -> S -> Prop) : wp m s Q -> (forall a s', Q a s' -> Q' a s') -> wp m s Q'.
Proof. intros Hm HQ k. destruct (Hm k) as (a & k' & s' & E & Ha). exists a, k', s'. eauto. Qed.

Lemma wp_get s (Q : S -> S -> Prop) : Q s s -> wp get s Q.
Proof. intros HQ k. by exists s, k, s. Qed.

Lemma wp_put s s1 (Q : unit -> S -> Prop) : Q tt s1 -> wp (put s1) s Q.
Proof. intros HQ k. by exists tt, k, s1. Qed.

Lemma wp_lift {A} (o : outcome A) a s (Q : A -> S -> Prop) : o = Done a -> Q a s -> wp (lift o) s Q.
Proof. intros -> HQ k. by exists a, k, s. Qed.

Lemma wp_ask s (Q : bool -> S -> Prop) : (forall b, (granted -> b = true) -> Q b s) -> wp ask s Q.
Proof. intros HQ k. exists (mem k), (Datatypes.S k), s. split; [done|]. apply HQ. intros Hg. apply Hg. Qed.

Lemma wp_asks n s (Q : (nat -> bool) -> S -> Prop) : (forall f, (granted -> forall i, f i = true) -> Q f s) -> wp (asks n) s Q.
Proof. intros HQ k. eexists _, _, s. split; [done|]. apply HQ. intros Hg i. apply Hg. Qed.

Lemma wp_write {A} (w : writer A) a s (Q : option A -> S -> Prop) :
  makes w a -> (forall r, r = Some a \/ r = None -> (granted -> r = Some a) -> Q r s) -> wp (write w) s Q.
Proof.
  intros [Hm Hg] HQ k. unfold write. destruct (Hm mem k) as (k' & [E|E]); rewrite E; eexists _, _, _; (split; [done|]); apply HQ; auto.
  intros Hgr. destruct (Hg mem Hgr k) as (k'' & E'). congruence.
Qed.

End Action.

(** A computation on a part of the state. *)
Definition zoom {S T A} (part : S -> T) (set : S -> T -> S) (m : action T A) : action S A := fun mem n s =>
  match m mem n (part s) with
  | Done (a, n, t) => Done (a, n, set s t)
  | OutOfBounds i => OutOfBounds i
  | OutOfFuel => OutOfFuel
  end.

Lemma wp_zoom {S T A} (mem : nat -> bool) (part : S -> T) (set : S -> T -> S) (m : action T A) s (Q : A -> S -> Prop) :
  wp mem m (part s) (fun a t => Q a (set s t)) -> wp mem (zoom part set m) s Q.
Proof. intros Hm k. destruct (Hm k) as (a & k' & t & E & HQ). exists a, k', (set s t). unfold zoom. by rewrite E. Qed.

(** A computation on a state of its own: the result and the state it leaves. *)
Definition run_on {S T A} (t : T) (m : action T A) : action S (A * T) := fun mem n s =>
  match m mem n t with
  | Done (a, n, t) => Done ((a, t), n, s)
  | OutOfBounds i => OutOfBounds i
  | OutOfFuel => OutOfFuel
  end.

Lemma wp_run_on {S T A} (mem : nat -> bool) (t : T) (m : action T A) (s : S) (Q : A * T -> S -> Prop) :
  wp mem m t (fun a t' => Q (a, t') s) -> wp mem (run_on t m) s Q.
Proof. intros Hm k. destruct (Hm k) as (a & k' & t' & E & HQ). exists (a, t'), k', s. unfold run_on. by rewrite E. Qed.

(** Steps through a computation. *)
Ltac wp_step :=
  match goal with
  | |- wp _ (mbind _ _) _ _ => apply wp_bind
  | |- wp _ (mret _) _ _ => apply wp_ret
  | |- wp _ get _ _ => apply wp_get
  | |- wp _ (put _) _ _ => apply wp_put
  | |- wp _ ask _ _ => apply wp_ask; let b := fresh "b" in let Hb := fresh "Hb" in intros b Hb
  | |- wp _ (asks _) _ _ => apply wp_asks; let f := fresh "f" in let Hf := fresh "Hf" in intros f Hf
  end; cbn beta.
Ltac wp_steps := repeat wp_step.

End Action.
