(* ===== verification/Ops.v ===== *)
(** * Operators of queries (src/mdv_storage/ops)

    mdv_op.c, mdv_scan_seq.c, mdv_select.c and mdv_project.c.  Operators are
    objects with reference counters that point to the operator they read from,
    so they live at addresses; predicates and sets have addresses too.  While a
    scan is open its set is held by the enumerator of the scan. *)

From S2P Require Import Prelude Bitset Vector Rollbacker Vm Predicate Lmdb Memdb Session Pset Enumerator Binn.
Import Predicate Lmdb Memdb Pset Session Enumerator Binn.

Module Ops.
Section Ops.
Context `{Mdb, !MdbCursor, Binn}.

Abbreviation mdv_kvdata := (bytes * bytes)%type.

(** The objects behind [mdv_op *], with the functions of their [vptr].
    - [Op_scan_seq rc set e current finished]: [set] is the address of the set,
      [current] says that the pointer is not null;
    - [Op_project_range rc src from to kv current],
      [Op_project_by_indices rc src kv current indices]: [current] says that the
      list is allocated; its buffer is the value that was returned last. *)
Inductive mdv_op_obj :=
| Op_scan_seq (rc : Z) (set : nat) (e : objects_enumerator) (current finished : bool)
| Op_select (rc : Z) (src : nat) (predicate : nat)
| Op_project_range (rc : Z) (src : nat) (from to : Z) (kv : mdv_kvdata) (current : bool)
| Op_project_by_indices (rc : Z) (src : nat) (kv : mdv_kvdata) (current : bool) (indices : list Z).

(** [h_next]: the address of the next block. *)
Record heap := mk_heap {
  h_ops : gmap nat mdv_op_obj;
  h_predicates : gmap nat mdv_predicate;
  h_sets : gmap nat mdv_2pset;
  h_next : nat
}.

Definition set_op (h : heap) (a : nat) (x : mdv_op_obj) : heap := mk_heap (<[a := x]> (h_ops h)) (h_predicates h) (h_sets h) (h_next h).
Definition del_op (h : heap) (a : nat) : heap := mk_heap (delete a (h_ops h)) (h_predicates h) (h_sets h) (h_next h).
Definition new_op (h : heap) (x : mdv_op_obj) : heap * nat :=
  (mk_heap (<[h_next h := x]> (h_ops h)) (h_predicates h) (h_sets h) (S (h_next h)), h_next h).

Definition set_rc (x : mdv_op_obj) (f : Z -> Z) : mdv_op_obj :=
  match x with
  | Op_scan_seq rc s e c d => Op_scan_seq (f rc) s e c d
  | Op_select rc s p => Op_select (f rc) s p
  | Op_project_range rc s a b kv c => Op_project_range (f rc) s a b kv c
  | Op_project_by_indices rc s kv c i => Op_project_by_indices (f rc) s kv c i
  end.

Definition op_rc (x : mdv_op_obj) : Z :=
  match x with
  | Op_scan_seq rc _ _ _ _ | Op_select rc _ _ | Op_project_range rc _ _ _ _ _ | Op_project_by_indices rc _ _ _ _ => rc
  end.

(** ** References *)

(** [mdv_scan_seq_retain], [mdv_select_retain], ... *)
Definition mdv_op_retain (h : heap) (a : nat) : outcome heap :=
  x ← deref (h_ops h !! a); Done (set_op h a (set_rc x rc_retain)).

(** The release of the predicate of a selection. *)
Definition release_predicate (h : heap) (p : nat) : outcome heap :=
  x ← deref (h_predicates h !! p);
  let '(_, x, _) := mdv_predicate_release (Some x) in
  Done (mk_heap (h_ops h) (match x with Some x => <[p := x]> (h_predicates h) | None => delete p (h_predicates h) end)
          (h_sets h) (h_next h)).

(** The release of the enumerator of a scan; the set is accessible again. *)
Definition release_enumerator (h : heap) (set : nat) (e : objects_enumerator) : heap :=
  match snd (mdv_objects_enumerator_release (Some e)) with
  | inr (Some o) => mk_heap (h_ops h) (h_predicates h) (<[set := o]> (h_sets h)) (h_next h)
  | _ => h
  end.

(** [mdv_scan_seq_release], [mdv_select_release], [mdv_project_range_release],
    [mdv_project_by_indices_release]; the fuel bounds the depth of the query. *)
Fixpoint mdv_op_release (fuel : nat) (h : heap) (op : option nat) : outcome (heap * Z) :=
  match fuel, op with
  | _, None => Done (h, 0%Z)
  | 0, _ => OutOfFuel
  | S fuel, Some a =>
      x ← deref (h_ops h !! a);
      let '(rc, refs, dead) := rc_release (op_rc x) in
      let h := set_op h a (set_rc x (fun _ => rc)) in
      if negb dead then Done (h, refs) else
      match x with
      | Op_scan_seq _ set e _ _ => Done (del_op (release_enumerator h set e) a, refs)
      | Op_select _ src p =>
          h ← release_predicate h p;
          r ← mdv_op_release fuel h (Some src);
          Done (del_op r.1 a, refs)
      | Op_project_range _ src _ _ _ _ | Op_project_by_indices _ src _ _ _ =>
          r ← mdv_op_release fuel h (Some src);
          Done (del_op r.1 a, refs)
      end
  end.

(** ** Reset *)

Fixpoint mdv_op_reset (fuel : nat) (h : heap) (a : nat) : outcome (heap * mdv_errno) :=
  match fuel with
  | 0 => OutOfFuel
  | S fuel =>
      x ← deref (h_ops h !! a);
      match x with
      | Op_scan_seq rc set e _ _ =>
          let '(e, err) := mdv_enumerator_reset e in
          Done (set_op h a (Op_scan_seq rc set e false false), err)
      | Op_select _ src _ => mdv_op_reset fuel h src
      | Op_project_range rc src from to kv _ => mdv_op_reset fuel (set_op h a (Op_project_range rc src from to kv false)) src
      | Op_project_by_indices rc src kv _ indices =>
          mdv_op_reset fuel (set_op h a (Op_project_by_indices rc src kv false indices)) src
      end
  end.

(** ** Next *)

(** [mdv_scan_seq_next]: the enumerator, the flags and the pair. *)
Definition mdv_scan_seq_next (e : objects_enumerator) (current finished : bool)
  : objects_enumerator * bool * bool * option mdv_kvdata :=
  if finished then (e, current, finished, None) else
  let '(e, finished) :=
    if current then let '(e, err) := mdv_enumerator_next e in (e, bool_decide (err <> MDV_OK)) else (e, false) in
  if finished then (e, false, true, None)
  else match mdv_enumerator_current e with
       | Some kv => (e, true, false, Some kv)
       | None => (e, false, false, None)
       end.

(** The loop over the items of a list, which leaves when the next index reaches
    [to]. *)
Fixpoint range_loop (items : list binn) (i from to : Z) (list : binn) : writer binn :=
  match items with
  | [] => w_ret list
  | item :: items =>
      list <~ (if (from <=? i)%Z then binn_list_add list item else w_ret list);;
      if (to <=? i + 1)%Z then w_ret list else range_loop items (i + 1) from to list
  end.

Fixpoint indices_loop (items : list binn) (i : Z) (indices : list Z) (list : binn) : writer binn :=
  match items with
  | [] => w_ret list
  | item :: items =>
      match indices with
      | [] => w_ret list
      | j :: rest =>
          if (i =? j)%Z then
            list <~ binn_list_add list item;;
            indices_loop items (i + 1) rest list
          else indices_loop items (i + 1) indices list
      end
  end.

(** The result of a projection: the pair that the source gave, whether the list
    of the projection is allocated, the error and the pair.  [loop] copies the
    items. *)
Definition project_next (kv : mdv_kvdata) (loop : list binn -> binn -> writer binn) (mem : nat -> bool) (n : nat)
  : outcome (bool * mdv_errno * option mdv_kvdata * nat) :=
  match binn_load kv.2 with
  | Some (B_list _ as v) =>
      r ← binn_create_list mem n;
      match r with
      | (None, n) => Done (false, MDV_NO_MEM, None, n)
      | (Some list, n) =>
          r ← loop (binn_items v) list mem n;
          match r with
          | (None, n) => Done (true, MDV_NO_MEM, None, n)
          | (Some list, n) => Done (true, MDV_OK, Some (kv.1, binn_bytes list), n)
          end
      end
  | _ => Done (false, MDV_FAILED, None, n)
  end.

(** [mem], [n]: the answers to the requests for memory and the number of those
    made.  The pair is written when the result is [MDV_OK]. *)
Fixpoint mdv_op_next (fuel : nat) (mem : nat -> bool) (n : nat) (h : heap) (a : nat)
  : outcome (heap * mdv_errno * option mdv_kvdata * nat) :=
  match fuel with
  | 0 => OutOfFuel
  | S fuel =>
      x ← deref (h_ops h !! a);
      match x with
      | Op_scan_seq rc set e current finished =>
          let '(e, current, finished, kv) := mdv_scan_seq_next e current finished in
          Done (set_op h a (Op_scan_seq rc set e current finished), if is_some kv then MDV_OK else MDV_FALSE, kv, n)
      | Op_select _ src _ => mdv_op_next fuel mem n h src
      | Op_project_range rc src from to kv _ =>
          let h := set_op h a (Op_project_range rc src from to kv false) in
          r ← mdv_op_next fuel mem n h src;
          let '(h, err, kv', n) := r in
          match kv' with
          | Some kv =>
              r ← project_next kv (fun items => range_loop items 0 from to) mem n;
              let '(current, err, res, n) := r in
              Done (set_op h a (Op_project_range rc src from to kv current), err, res, n)
          | None => Done (h, err, None, n)
          end
      | Op_project_by_indices rc src kv _ indices =>
          let h := set_op h a (Op_project_by_indices rc src kv false indices) in
          r ← mdv_op_next fuel mem n h src;
          let '(h, err, kv', n) := r in
          match kv' with
          | Some kv =>
              r ← project_next kv (fun items => indices_loop items 0 indices) mem n;
              let '(current, err, res, n) := r in
              Done (set_op h a (Op_project_by_indices rc src kv current indices), err, res, n)
          | None => Done (h, err, None, n)
          end
      end
  end.

(** ** Creation *)

(** [mem_rbr], [mem]: the rollbacker and the enumerator are allocated;
    [mem_scan]: the scan is.  A set with an open enumerator makes the call wait
    for its transaction. *)
Definition mdv_scan_seq (mem_scan mem_rbr mem : bool) (h : heap) (set : nat) : outcome (heap * option nat) :=
  if negb mem_scan then Done (h, None) else
  match h_sets h !! set with
  | None => OutOfFuel
  | Some o =>
      match mdv_2pset_enumerator mem_rbr mem o with
      | inl o => Done (mk_heap (h_ops h) (h_predicates h) (<[set := o]> (h_sets h)) (h_next h), None)
      | inr e =>
          let h := mk_heap (h_ops h) (h_predicates h) (delete set (h_sets h)) (h_next h) in
          let '(h, a) := new_op h (Op_scan_seq 1 set e false false) in Done (h, Some a)
      end
  end.

Definition mdv_select (mem : bool) (h : heap) (src predicate : nat) : outcome (heap * option nat) :=
  if negb mem then Done (h, None) else
  h ← mdv_op_retain h src;
  p ← deref (h_predicates h !! predicate);
  let h := mk_heap (h_ops h) (<[predicate := mdv_predicate_retain p]> (h_predicates h)) (h_sets h) (h_next h) in
  let '(h, a) := new_op h (Op_select 1 src predicate) in Done (h, Some a).

(** The pair of a new projection is not initialised. *)
Definition mdv_project_range (mem : bool) (h : heap) (src : nat) (from to : Z) : outcome (heap * option nat) :=
  if negb mem then Done (h, None) else
  h ← mdv_op_retain h src;
  let '(h, a) := new_op h (Op_project_range 1 src from to ([], []) false) in Done (h, Some a).

Definition mdv_project_by_indices (mem : bool) (h : heap) (src : nat) (size : nat) (indices : list Z)
  : outcome (heap * option nat) :=
  if negb mem then Done (h, None) else
  h ← mdv_op_retain h src;
  if length indices <? size then OutOfBounds (Z.of_nat (length indices)) else
  let '(h, a) := new_op h (Op_project_by_indices 1 src ([], []) false (take size indices)) in Done (h, Some a).


(** ** What a projection keeps *)

Fixpoint range_items (l : list binn) (i from to : Z) : list binn :=
  match l with
  | [] => []
  | x :: l => (if (from <=? i)%Z then [x] else []) ++ (if (to <=? i + 1)%Z then [] else range_items l (i + 1) from to)
  end.

Fixpoint indices_items (l : list binn) (i : Z) (indices : list Z) : list binn :=
  match l, indices with
  | x :: l, j :: rest => if (i =? j)%Z then x :: indices_items l (i + 1) rest else indices_items l (i + 1) indices
  | _, _ => []
  end.

Lemma makes_range l i from to acc : makes (range_loop l i from to (B_list acc)) (B_list (acc ++ range_items l i from to)).
Proof.
  revert i acc. induction l as [|x l IH]; intros i acc; cbn [range_loop range_items]; [rewrite app_nil_r; apply makes_ret|].
  apply makes_bind with (a := B_list (acc ++ if (from <=? i)%Z then [x] else [])).
  { destruct (from <=? i)%Z; [apply makes_list_add|rewrite app_nil_r; apply makes_ret]. }
  rewrite app_assoc. destruct (to <=? i + 1)%Z; [rewrite app_nil_r; apply makes_ret|apply IH].
Qed.

Lemma makes_indices l i indices acc : makes (indices_loop l i indices (B_list acc)) (B_list (acc ++ indices_items l i indices)).
Proof.
  revert i indices acc. induction l as [|x l IH]; intros i indices acc; cbn [indices_loop indices_items];
    [rewrite app_nil_r; apply makes_ret|]. destruct indices as [|j rest]; [rewrite app_nil_r; apply makes_ret|].
  destruct (i =? j)%Z; [|apply IH]. eapply makes_bind; [apply makes_list_add|].
  rewrite (assoc_L (++) acc [x] (indices_items l (i + 1) rest) : acc ++ x :: _ = _). apply IH.
Qed.

(** The range [from, to), of which at least one item is looked at. *)
Lemma range_items_spec l i from to :
  (0 <= i)%Z -> (i < to \/ i = 0)%Z ->
  range_items l i from to = drop (Z.to_nat (from - i)) (take (Z.to_nat (Z.max 1 (to - i))) l).
Proof.
  revert i. induction l as [|x l IH]; intros i Hi Ht; cbn [range_items]; [by rewrite take_nil, drop_nil|].
  replace (Z.to_nat (Z.max 1 (to - i))) with (S (Z.to_nat (to - (i + 1)))) by lia. cbn [take].
  destruct (Z.leb_spec to (i + 1)) as [Hto|Hto].
  - replace (Z.to_nat (to - (i + 1))) with 0 by lia. rewrite take_0, app_nil_r. destruct (Z.leb_spec from i).
    + by replace (Z.to_nat (from - i)) with 0 by lia.
    + rewrite drop_ge; [done|]. cbn. lia.
  - rewrite IH by lia. replace (Z.to_nat (Z.max 1 (to - (i + 1)))) with (Z.to_nat (to - (i + 1))) by lia.
    destruct (Z.leb_spec from i).
    + replace (Z.to_nat (from - i)) with 0 by lia. by replace (Z.to_nat (from - (i + 1))) with 0 by lia.
    + replace (Z.to_nat (from - i)) with (S (Z.to_nat (from - (i + 1)))) by lia. done.
Qed.

(** Ascending indices inside the list select its items. *)
Lemma indices_items_spec l i indices :
  (0 <= i)%Z -> StronglySorted Z.lt indices -> Forall (fun j => i <= j)%Z indices ->
  indices_items l i indices = omap (fun j => l !! Z.to_nat (j - i)) indices.
Proof.
  revert i indices. induction l as [|x l IH]; intros i indices Hi Hs Hf; cbn [indices_items].
  { clear. by induction indices. }
  destruct indices as [|j rest]; [done|]. apply StronglySorted_inv in Hs as [Hs Hr]. apply Forall_cons in Hf as [Hij Hf].
  assert (Hshift : forall k, (i < k)%Z -> (x :: l) !! Z.to_nat (k - i) = l !! Z.to_nat (k - (i + 1))).
  { intros k Hk. by replace (Z.to_nat (k - i)) with (S (Z.to_nat (k - (i + 1)))) by lia. }
  assert (Hext : forall js, Forall (fun k => i < k)%Z js ->
            omap (fun k => (x :: l) !! Z.to_nat (k - i)) js = omap (fun k => l !! Z.to_nat (k - (i + 1))) js).
  { induction 1 as [|k js Hk _ IHk]; cbn [omap list_omap]; [done|]. by rewrite Hshift, IHk. }
  destruct (Z.eqb_spec i j) as [->|Hne].
  - rewrite IH; [|lia|done|eapply Forall_impl; [exact Hr|cbn; lia]]. cbn [omap list_omap].
    rewrite Z.sub_diag. cbn [Z.to_nat lookup list_lookup]. f_equal. symmetry. apply Hext. eapply Forall_impl; [exact Hr|done].
  - rewrite IH; [|lia|by apply SSorted_cons|apply Forall_cons; split; [lia|eapply Forall_impl; [exact Hr|cbn; lia]]].
    symmetry. apply Hext. apply Forall_cons. split; [lia|]. eapply Forall_impl; [exact Hr|cbn; lia].
Qed.

(** A projection of a pair by [f]. *)
Definition project (f : list binn -> list binn) (kv : mdv_kvdata) : option mdv_kvdata :=
  match binn_load kv.2 with
  | Some (B_list docs) => Some (kv.1, binn_bytes (B_list (f docs)))
  | _ => None
  end.

Lemma project_next_ok `{!BinnLaws} f loop kv kv' mem n :
  (forall l, makes (loop l (B_list [])) (B_list (f l))) -> project f kv = Some kv' -> (forall i, mem i = true) ->
  exists n', project_next kv loop mem n = Done (true, MDV_OK, Some kv', n').
Proof.
  intros Hl Hp Hm. unfold project in Hp. unfold project_next. destruct (binn_load kv.2) as [[]|]; try done. injection Hp as <-.
  destruct (proj2 makes_create_list mem Hm n) as (n1 & ->). cbn [mbind outcome_bind]. rewrite items_list.
  destruct (proj2 (Hl l) mem Hm n1) as (n2 & ->). cbn [mbind outcome_bind]. by exists n2.
Qed.

(** ** The stages of a query *)

(** A stage reads from the operator before it. *)
Inductive stage :=
| St_select (predicate : nat)
| St_range (from to : Z)
| St_indices (indices : list Z).

(** What a stage does with a pair. *)
Definition apply_stage (s : stage) (kv : mdv_kvdata) : option mdv_kvdata :=
  match s with
  | St_select _ => Some kv
  | St_range from to => project (fun l => range_items l 0 from to) kv
  | St_indices indices => project (fun l => indices_items l 0 indices) kv
  end.

Definition stage_op (s : stage) (h : heap) (src : nat) : outcome (heap * option nat) :=
  match s with
  | St_select p => mdv_select true h src p
  | St_range from to => mdv_project_range true h src from to
  | St_indices indices => mdv_project_by_indices true h src (length indices) indices
  end.

(** A query: each operator is created on the one before, to which its creator
    keeps no reference. *)
Fixpoint build (h : heap) (a : nat) (stages : list stage) : outcome (heap * nat) :=
  match stages with
  | [] => Done (h, a)
  | s :: stages =>
      r ← stage_op s h a;
      b ← deref r.2;
      r ← mdv_op_release 1 r.1 (Some a);
      build r.1 b stages
  end.

(** [while (mdv_op_next(op, &kvdata) == MDV_OK)] *)
Fixpoint pull (fuel depth : nat) (mem : nat -> bool) (n : nat) (h : heap) (a : nat) : outcome (list mdv_kvdata * heap) :=
  match fuel with
  | 0 => OutOfFuel
  | S fuel =>
      r ← mdv_op_next depth mem n h a;
      let '(h, err, kv, n) := r in
      match kv with
      | Some kv => r ← pull fuel depth mem n h a; Done (kv :: r.1, r.2)
      | None => Done ([], h)
      end
  end.

(** ** The sequence an operator yields *)

Context `{!MdbLaws, !MdbCursorLaws, !BinnLaws}.
Context (n : Z) (Hn : (1 <= n < 2 ^ 32 - 5)%Z) (set : nat) (o : mdv_2pset) (m : gmap bytes bytes).
Context (Hlive : set_live n o) (Hobjects : sorted_entries m <> []).

(** The pairs a scan has still to yield. *)
Definition scan_at (e : objects_enumerator) (current finished : bool) (l : list mdv_kvdata) : Prop :=
  if finished then l = [] /\ exists i, at_entry n o m e i
  else if current then exists kv, rest_of n o m e (kv :: l)
  else rest_of n o m e l.

(** The source of a projection and what it keeps of a list. *)
Definition projection (x : mdv_op_obj) : option (nat * (list binn -> list binn)) :=
  match x with
  | Op_project_range _ src from to _ _ => Some (src, fun l => range_items l 0 from to)
  | Op_project_by_indices _ src _ _ indices => Some (src, fun l => indices_items l 0 indices)
  | _ => None
  end.

(** The operators at the addresses [path], each reading from the next, the last
    one a scan of the set, yield the pairs [items]; those of [l] are to come. *)
Inductive yields (h : heap) : list nat -> list mdv_kvdata -> list mdv_kvdata -> Prop :=
| yields_scan a rc e current finished l :
    h_ops h !! a = Some (Op_scan_seq rc set e current finished) -> scan_at e current finished l ->
    yields h [a] (sorted_entries m) l
| yields_select a rc src p path items l :
    h_ops h !! a = Some (Op_select rc src p) -> is_Some (h_predicates h !! p) -> a ∉ src :: path ->
    yields h (src :: path) items l -> yields h (a :: src :: path) items l
| yields_project a x src f path items l items' l' :
    h_ops h !! a = Some x -> projection x = Some (src, f) -> a ∉ src :: path ->
    yields h (src :: path) items l -> mapM (project f) items = Some items' -> mapM (project f) l = Some l' ->
    yields h (a :: src :: path) items' l'.

(** The counter of an operator and the predicate of a selection. *)
Definition shape (x : mdv_op_obj) : Z * option nat := (op_rc x, match x with Op_select _ _ p => Some p | _ => None end).

(** Two heaps that differ in the state of the operators of [path] only. *)
Record same_but (path : list nat) (h h' : heap) : Prop := {
  sb_shape : forall b, shape <$> h_ops h' !! b = shape <$> h_ops h !! b;
  sb_ops : forall b, b ∉ path -> h_ops h' !! b = h_ops h !! b;
  sb_predicates : h_predicates h' = h_predicates h;
  sb_sets : h_sets h' = h_sets h;
  sb_next : h_next h' = h_next h
}.

Lemma same_but_refl path h : same_but path h h.
Proof. by split. Qed.

Lemma same_but_set path h a x y :
  a ∈ path -> h_ops h !! a = Some y -> shape x = shape y -> same_but path h (set_op h a x).
Proof.
  intros Ha Hy Hs. split; try done; intros b; cbn [set_op h_ops].
  - destruct (decide (b = a)) as [->|Hne]; [rewrite lookup_insert_eq, Hy; cbn; by f_equal|by rewrite lookup_insert_ne].
  - intros Hb. by rewrite lookup_insert_ne by set_solver.
Qed.

Lemma same_but_trans path path' h1 h2 h3 : path ⊆ path' -> same_but path h1 h2 -> same_but path' h2 h3 -> same_but path' h1 h3.
Proof. intros Hp [A0 A1 A2 A3 A4] [B0 B1 B2 B3 B4]. split; [intros b; by rewrite B0| |congruence..]. intros b Hb. rewrite B1, A1 by set_solver. done. Qed.

Lemma same_but_below a path h x y h' :
  h_ops h !! a = Some y -> shape x = shape y -> same_but path (set_op h a x) h' -> same_but (a :: path) h h'.
Proof.
  intros Hy Hx Hs. apply (same_but_trans (a :: path) (a :: path) h (set_op h a x)); [done|by apply (same_but_set _ _ _ _ y); [left|..]|].
  apply (same_but_trans path (a :: path) _ h'); [set_solver|done|apply same_but_refl].
Qed.

Lemma same_but_weaken a path h h' : same_but path h h' -> same_but (a :: path) h h'.
Proof. intros Hs. apply (same_but_trans path (a :: path) h h'); [set_solver|done|apply same_but_refl]. Qed.

(** The predicates of the selections among the operators. *)
Definition select_predicate (h : heap) (a : nat) : option nat :=
  match h_ops h !! a with Some (Op_select _ _ p) => Some p | _ => None end.
Definition predicates_of (h : heap) (path : list nat) : list nat := omap (select_predicate h) path.

Lemma predicates_cons h a path :
  predicates_of h (a :: path)
  = match select_predicate h a with Some p => p :: predicates_of h path | None => predicates_of h path end.
Proof. done. Qed.

Lemma predicates_ext h h' path :
  (forall b, b ∈ path -> h_ops h' !! b = h_ops h !! b) -> predicates_of h' path = predicates_of h path.
Proof.
  unfold predicates_of. induction path as [|a path IH]; intros Ho; [done|]. cbn [omap list_omap].
  rewrite IH by set_solver. unfold select_predicate. by rewrite Ho by set_solver.
Qed.

Lemma yields_frame h h' path items l :
  (forall b, b ∈ path -> h_ops h' !! b = h_ops h !! b) ->
  (forall p, p ∈ predicates_of h path -> is_Some (h_predicates h !! p) -> is_Some (h_predicates h' !! p)) ->
  yields h path items l -> yields h' path items l.
Proof.
  intros Ho Hp Hy. induction Hy as [? ? ? ? ? ? Ha|? ? ? p ? ? ? Ha ? ? ? IH|? ? ? ? ? ? ? ? ? Ha ? ? ? IH].
  - eapply yields_scan; [by rewrite Ho by set_solver|done].
  - assert (Hsel : select_predicate h a = Some p) by (unfold select_predicate; by rewrite Ha). rewrite predicates_cons, Hsel in Hp.
    eapply yields_select; [rewrite Ho by set_solver; done|apply Hp; [set_solver|done]|done|apply IH; [set_solver|]].
    intros q Hq. apply Hp. by right.
  - eapply yields_project; [rewrite Ho by set_solver; done|done|done|apply IH; [set_solver|]|done..].
    intros q Hq. apply Hp. rewrite predicates_cons. destruct (select_predicate h a); [by right|done].
Qed.

Lemma yields_set_op h a x path items l : a ∉ path -> yields h path items l -> yields (set_op h a x) path items l.
Proof. intros Ha. apply yields_frame; [|done]. intros b Hb. cbn. by rewrite lookup_insert_ne by set_solver. Qed.

#[local] Existing Instance objects_laws.

(** A step of a scan. *)
Lemma scan_step e current finished l :
  scan_at e current finished l ->
  let '(e', current', finished', kv) := mdv_scan_seq_next e current finished in
  kv = head l /\ scan_at e' current' finished' (tail l).
Proof.
  unfold scan_at, mdv_scan_seq_next. destruct finished; [by intros [-> ?]|]. destruct current.
  - intros (kv & Hr). pose proof (next_law _ _ _ Hr) as Hnx. destruct (mdv_enumerator_next e) as [e' err].
    destruct l as [|kv' l].
    + destruct Hnx as [Herr Ha]. by rewrite bool_decide_eq_true_2.
    + destruct Hnx as [-> Hr']. rewrite bool_decide_eq_false_2 by (by intros []). rewrite (current_law _ _ _ Hr'). split; [done|by exists kv'].
  - intros Hr. destruct l as [|kv l]; [by destruct Hr as (? & _ & _ & ?)|]. rewrite (current_law _ _ _ Hr). split; [done|by exists kv].
Qed.

(** The step of a projection, when its source has made one. *)
Lemma mapM_cons_inv {A B} (f : A -> option B) l l' :
  mapM f l = Some l' ->
  match l with
  | [] => l' = []
  | x :: l => exists y k, f x = Some y /\ mapM f l = Some k /\ l' = y :: k
  end.
Proof.
  destruct l as [|x l]; cbn; [by intros [= <-]|]. destruct (f x) as [y|]; [|done]. cbn.
  destruct (mapM f l) as [k|]; [|done]. cbn. intros [= <-]. eauto.
Qed.

(** The two kinds of projections make a step in the same way. *)
Definition project_loop (x : mdv_op_obj) : list binn -> binn -> writer binn :=
  match x with
  | Op_project_range _ _ from to _ _ => fun items => range_loop items 0 from to
  | Op_project_by_indices _ _ _ _ indices => fun items => indices_loop items 0 indices
  | _ => fun _ => w_ret
  end.

Definition set_current (x : mdv_op_obj) (kv : option mdv_kvdata) (current : bool) : mdv_op_obj :=
  match x with
  | Op_project_range rc src from to kv0 _ => Op_project_range rc src from to (default kv0 kv) current
  | Op_project_by_indices rc src kv0 _ indices => Op_project_by_indices rc src (default kv0 kv) current indices
  | x => x
  end.

Lemma projection_current x kv c : projection (set_current x kv c) = projection x.
Proof. by destruct x. Qed.

Lemma shape_current x kv c : shape (set_current x kv c) = shape x.
Proof. by destruct x. Qed.

Lemma makes_project x src f l : projection x = Some (src, f) -> makes (project_loop x l (B_list [])) (B_list (f l)).
Proof. destruct x; cbn; intros [= <- <-]; [apply (makes_range l 0 from to [])|apply (makes_indices l 0 indices [])]. Qed.

Lemma next_project fuel mem k h a x src f :
  h_ops h !! a = Some x -> projection x = Some (src, f) ->
  mdv_op_next (S fuel) mem k h a
  = (r ← mdv_op_next fuel mem k (set_op h a (set_current x None false)) src;
     let '(h, err, kv, k) := r in
     match kv with
     | Some kv =>
         r ← project_next kv (project_loop x) mem k;
         let '(current, err, res, k) := r in Done (set_op h a (set_current x (Some kv) current), err, res, k)
     | None => Done (h, err, None, k)
     end).
Proof. intros Hx Hp. cbn [mdv_op_next]. rewrite Hx. by destruct x; cbn in Hp; try done; injection Hp as <- _. Qed.

Lemma next_ok path : forall h items l fuel mem k,
  yields h path items l -> length path <= fuel -> (forall i, mem i = true) ->
  match path with
  | [] => False
  | a :: _ => exists h' k', mdv_op_next fuel mem k h a
      = Done (h', match l with [] => MDV_FALSE | _ => MDV_OK end, head l, k')
      /\ yields h' path items (tail l) /\ same_but path h h'
  end.
Proof.
  induction path as [|a path IH]; intros h items l fuel mem k Hy Hf Hm; [inversion Hy|].
  destruct fuel as [|fuel]; [cbn in Hf; lia|]. cbn in Hf.
  inversion Hy as [? rc e current finished ? Ha Hs|? rc src p path' ? ? Ha Hp Hni Hy'|? x src f path' items0 l0 ? ? Ha Hx Hni Hy' Hi Hl]; subst.
  - cbn [mdv_op_next]. rewrite Ha. cbn [deref mbind outcome_bind]. apply scan_step in Hs.
    destruct (mdv_scan_seq_next e current finished) as [[[e' c'] f'] kv]. destruct Hs as [-> Hs].
    eexists _, k. split; [by destruct l|]. split; [|by eapply same_but_set; [left|exact Ha|]].
    eapply yields_scan; [cbn; by rewrite lookup_insert_eq|done].
  - cbn [mdv_op_next]. rewrite Ha. cbn [deref mbind outcome_bind].
    destruct (IH h items l fuel mem k Hy' ltac:(cbn in *; lia) Hm) as (h' & k' & E & Hy2 & Hsb).
    exists h', k'. split; [done|]. split; [|by apply same_but_weaken].
    eapply yields_select; [rewrite (sb_ops _ _ _ Hsb) by done; done|by rewrite (sb_predicates _ _ _ Hsb)|done|done].
  - rewrite (next_project _ _ _ _ _ _ _ _ Ha Hx).
    destruct (IH (set_op h a (set_current x None false)) items0 l0 fuel mem k) as (h' & k' & E & Hy2 & Hsb);
      [by apply yields_set_op|cbn in *; lia|done|].
    assert (Hsb' : same_but (a :: src :: path') h h') by (by eapply same_but_below; [exact Ha|apply shape_current|]).
    rewrite E. cbn [mbind outcome_bind]. apply mapM_cons_inv in Hl. destruct l0 as [|kv0 l0]; cbn [head].
    + subst l. eexists h', k'. split; [done|]. split; [|done].
      eapply yields_project; [rewrite (sb_ops _ _ _ Hsb) by done; apply lookup_insert_eq|by rewrite projection_current|done|exact Hy2|done..].
    + destruct Hl as (kv' & l' & Hkv & Hl' & ->).
      destruct (project_next_ok f (project_loop x) kv0 kv' mem k') as (k2 & ->); [intros; by eapply makes_project|done|done|].
      cbn [mbind outcome_bind]. eexists _, k2. split; [done|]. split; [|eapply same_but_trans; [reflexivity|exact Hsb'|]].
      2: { eapply same_but_set; [left|rewrite (sb_ops _ _ _ Hsb) by done; apply lookup_insert_eq|by rewrite !shape_current]. }
      eapply yields_project; [apply lookup_insert_eq|by rewrite projection_current|done|apply yields_set_op; [done|exact Hy2]|done..].
Qed.

(** Pulling all pairs. *)
Lemma pull_ok l : forall h a path items fuel depth mem k,
  yields h (a :: path) items l -> length l < fuel -> S (length path) <= depth -> (forall i, mem i = true) ->
  exists h', pull fuel depth mem k h a = Done (l, h') /\ yields h' (a :: path) items [] /\ same_but (a :: path) h h'.
Proof.
  induction l as [|kv l IH]; intros h a path items [|fuel] depth mem k Hy Hf Hd Hm; cbn [length] in Hf; try lia;
    destruct (next_ok (a :: path) h items _ depth mem k Hy Hd Hm) as (h1 & k1 & E & Hy1 & Hs1); cbn [pull]; rewrite E;
    cbn [head mbind outcome_bind tail] in *.
  - by exists h1.
  - destruct (IH h1 a path items fuel depth mem k1 Hy1 ltac:(lia) Hd Hm) as (h2 & -> & Hy2 & Hs2). cbn [mbind outcome_bind fst snd].
    exists h2. split; [done|]. split; [done|]. eapply same_but_trans; [reflexivity|exact Hs1|exact Hs2].
Qed.

(** Setting back. *)
Lemma reset_ok path : forall h items l fuel,
  yields h path items l -> length path <= fuel ->
  match path with
  | [] => False
  | a :: _ => exists h', mdv_op_reset fuel h a = Done (h', MDV_OK) /\ yields h' path items items /\ same_but path h h'
  end.
Proof.
  induction path as [|a path IH]; intros h items l fuel Hy Hf; [inversion Hy|]. destruct fuel as [|fuel]; [cbn in Hf; lia|]. cbn in Hf.
  inversion Hy as [? rc e current finished ? Ha Hs|? rc src p path' ? ? Ha Hp Hni Hy'|? x src f path' items0 l0 ? ? Ha Hx Hni Hy' Hi Hl]; subst.
  - cbn [mdv_op_reset]. rewrite Ha. cbn [deref mbind outcome_bind].
    assert (exists i, at_entry n o m e i) as Halive.
    { unfold scan_at in Hs. destruct finished; [apply Hs|]. destruct current; [destruct Hs as (? & i & Hat & _)|destruct Hs as (i & Hat & _)]; by exists (Some i). }
    destruct (reset_law e Halive Hobjects) as (e' & -> & Hr). eexists. split; [done|]. split; [|by eapply same_but_set; [left|exact Ha|]].
    eapply yields_scan; [apply lookup_insert_eq|done].
  - cbn [mdv_op_reset]. rewrite Ha. cbn [deref mbind outcome_bind].
    destruct (IH h items l fuel Hy' ltac:(cbn in *; lia)) as (h' & -> & Hy2 & Hsb).
    exists h'. split; [done|]. split; [|by apply same_but_weaken].
    eapply yields_select; [rewrite (sb_ops _ _ _ Hsb) by done; done|by rewrite (sb_predicates _ _ _ Hsb)|done|done].
  - assert (E : mdv_op_reset (S fuel) h a = mdv_op_reset fuel (set_op h a (set_current x None false)) src).
    { cbn [mdv_op_reset]. rewrite Ha. by destruct x; cbn in Hx; try done; injection Hx as <- _. }
    rewrite E. destruct (IH (set_op h a (set_current x None false)) items0 l0 fuel) as (h' & -> & Hy2 & Hsb);
      [by apply yields_set_op|cbn in *; lia|].
    exists h'. split; [done|]. split.
    + eapply yields_project; [rewrite (sb_ops _ _ _ Hsb) by done; apply lookup_insert_eq|by rewrite projection_current|done|exact Hy2|done..].
    + by eapply same_but_below; [exact Ha|apply shape_current|].
Qed.

(** ** Release *)

(** What the release of its reference leaves of a predicate. *)
Definition released (x : mdv_predicate) : option mdv_predicate := snd (fst (mdv_predicate_release (Some x))).

Lemma release_predicate_ok h p x :
  h_predicates h !! p = Some x ->
  exists ps, release_predicate h p = Done (mk_heap (h_ops h) ps (h_sets h) (h_next h))
    /\ (forall q, ps !! q = if decide (q = p) then released x else h_predicates h !! q).
Proof.
  intros Hx. unfold release_predicate, released. rewrite Hx. cbn [deref mbind outcome_bind].
  destruct (mdv_predicate_release (Some x)) as [[refs y] v]. cbn [fst snd]. eexists. split; [done|]. intros q.
  destruct (decide (q = p)) as [->|Hne]; destruct y as [y|].
  - apply lookup_insert_eq.
  - apply lookup_delete_eq.
  - by apply lookup_insert_ne.
  - by apply lookup_delete_ne.
Qed.

(** The heap after the operators of [path] were freed. *)
Record freed (path : list nat) (h h' : heap) : Prop := {
  fr_ops : forall b, h_ops h' !! b = if decide (b ∈ path) then None else h_ops h !! b;
  fr_predicates : forall q, h_predicates h' !! q
    = if decide (q ∈ predicates_of h path) then h_predicates h !! q ≫= released else h_predicates h !! q;
  fr_sets : exists o', h_sets h' = <[set := o']> (h_sets h) /\ set_live n o' /\ same_set o o';
  fr_next : h_next h' = h_next h
}.

(** The source was freed, then the operator itself. *)
Lemma freed_below a path h h1 h2 :
  freed path h1 h2 -> (forall b, b <> a -> h_ops h1 !! b = h_ops h !! b) -> a ∉ path -> h_sets h1 = h_sets h -> h_next h1 = h_next h ->
  match select_predicate h a with
  | Some p => (p ∉ predicates_of h path) /\ forall q, h_predicates h1 !! q = (if decide (q = p) then h_predicates h !! p ≫= released else h_predicates h !! q)
  | None => h_predicates h1 = h_predicates h
  end ->
  freed (a :: path) h (del_op h2 a).
Proof.
  intros [F1 F2 (o' & F3 & F3') F4] Ho Hna Hs Hnx Hp.
  assert (Hpred : predicates_of h1 path = predicates_of h path) by (apply predicates_ext; intros b Hb; apply Ho; set_solver).
  split; cbn [del_op h_ops h_predicates h_sets h_next].
  - intros b. destruct (decide (b = a)) as [->|Hne]; [rewrite decide_True by set_solver; apply lookup_delete_eq|].
    rewrite lookup_delete_ne, F1, Ho by done. destruct (decide (b ∈ path)); [by rewrite decide_True by set_solver|by rewrite decide_False by set_solver].
  - intros q. rewrite F2, Hpred, predicates_cons.
    destruct (select_predicate h a) as [p|].
    + destruct Hp as [Hpn Hp]. rewrite Hp. destruct (decide (q = p)) as [->|Hne].
      * rewrite decide_False by done. by rewrite decide_True by (by left).
      * destruct (decide (q ∈ predicates_of h path)); [by rewrite decide_True by (by right)|].
        by rewrite decide_False by (by intros [?|?]%elem_of_cons).
    + by rewrite Hp.
  - exists o'. by rewrite F3, Hs.
  - by rewrite F4.
Qed.

Lemma release_ok path : forall h items l fuel,
  yields h path items l -> Forall (fun a => op_rc <$> h_ops h !! a = Some 1%Z) path -> NoDup (predicates_of h path) -> length path <= fuel ->
  match path with
  | [] => False
  | a :: _ => exists h', mdv_op_release fuel h (Some a) = Done (h', 0%Z) /\ freed path h h'
  end.
Proof.
  induction path as [|a path IH]; intros h items l fuel Hy Hrc Hnd Hf; [inversion Hy|]. destruct fuel as [|fuel]; [cbn in Hf; lia|].
  cbn in Hf. apply Forall_cons in Hrc as [Hrca Hrc].
  assert (Hrest : forall h1 : heap, (forall b, b ∈ path -> h_ops h1 !! b = h_ops h !! b) ->
    Forall (fun a => op_rc <$> h_ops h1 !! a = Some 1%Z) path).
  { intros h1 Hh1. apply Forall_forall. intros b Hb. rewrite Hh1 by done. by eapply Forall_forall in Hrc. }
  inversion Hy as [? rc e current finished ? Ha Hs|? rc src p path' ? ? Ha [x Hp] Hni Hy'|? x src f path' items0 l0 ? ? Ha Hx Hni Hy' Hi Hl]; subst;
    cbn [mdv_op_release]; rewrite Ha in Hrca |- *; cbn [fmap option_fmap option_map op_rc deref mbind outcome_bind] in Hrca |- *; injection Hrca as Hrca;
    rewrite Hrca; change (rc_release 1) with (0, 0, true)%Z; cbv iota beta; cbn [negb].
  - assert (exists i, at_entry n o m e i) as (i & Hat).
    { unfold scan_at in Hs. destruct finished; [apply Hs|]. destruct current; [destruct Hs as (? & i & Hat & _)|destruct Hs as (i & Hat & _)]; by exists (Some i). }
    destruct (release_runs n Hn o m e i Hlive Hat) as (o' & Hrel & Hl' & Hso). unfold release_enumerator. rewrite Hrel. cbn [snd].
    eexists. split; [done|]. split; cbn [del_op set_op h_ops h_predicates h_sets h_next].
    + intros b. destruct (decide (b = a)) as [->|Hne]; [rewrite decide_True by set_solver; apply lookup_delete_eq|].
      rewrite decide_False by set_solver. by rewrite lookup_delete_ne, lookup_insert_ne.
    + intros q. rewrite predicates_cons. unfold select_predicate. rewrite Ha. by rewrite decide_False by (by intros ?%elem_of_nil).
    + by exists o'.
    + done.
  - assert (Hsel : select_predicate h a = Some p) by (unfold select_predicate; by rewrite Ha).
    rewrite predicates_cons, Hsel in Hnd.
    apply NoDup_cons in Hnd as [Hpn Hnd].
    match goal with |- context [release_predicate ?h1 p] => destruct (release_predicate_ok h1 p x Hp) as (ps & -> & Hps) end.
    cbn [mbind outcome_bind set_op h_ops h_predicates h_sets h_next] in Hps |- *.
    set (h1 := mk_heap _ ps _ _).
    assert (Hh1 : forall b, b <> a -> h_ops h1 !! b = h_ops h !! b) by (intros b Hb; cbn; by rewrite lookup_insert_ne).
    destruct (IH h1 items l fuel) as (h2 & -> & Hfr).
    + eapply yields_frame; [| |exact Hy']; [intros b Hb; apply Hh1; set_solver|]. intros q Hq [y Hy2]. cbn [h1 h_predicates].
      rewrite Hps, decide_False by (intros ->; done). by exists y.
    + apply Hrest. intros b Hb. apply Hh1. set_solver.
    + rewrite (predicates_ext h); [done|]. intros b Hb. apply Hh1. set_solver.
    + cbn in *. lia.
    + cbn [mbind outcome_bind fst]. eexists. split; [done|]. eapply freed_below; [exact Hfr|done..|]. rewrite Hsel.
      split; [done|]. intros q. cbn [h1 h_predicates]. rewrite Hps. by rewrite Hp.
  - assert (Hsel : select_predicate h a = None) by (unfold select_predicate; rewrite Ha; by destruct x).
    rewrite predicates_cons, Hsel in Hnd.
    set (h1 := set_op h a (set_rc x (fun _ => 0%Z))).
    assert (Hh1 : forall b, b <> a -> h_ops h1 !! b = h_ops h !! b) by (intros b Hb; cbn; by rewrite lookup_insert_ne).
    destruct (IH h1 items0 l0 fuel) as (h2 & E & Hfr).
    + by apply yields_set_op.
    + apply Hrest. intros b Hb. apply Hh1. set_solver.
    + rewrite (predicates_ext h); [done|]. intros b Hb. apply Hh1. set_solver.
    + cbn in *. lia.
    + exists (del_op h2 a). split.
      * destruct x; cbn in Hx; try done; injection Hx as <- _; by rewrite E.
      * eapply freed_below; [exact Hfr|done..|]. by rewrite Hsel.
Qed.

(** ** Building a query *)

Definition stage_obj (s : stage) (src : nat) : mdv_op_obj :=
  match s with
  | St_select p => Op_select 1 src p
  | St_range from to => Op_project_range 1 src from to ([], []) false
  | St_indices indices => Op_project_by_indices 1 src ([], []) false indices
  end.

Definition stage_predicate (s : stage) : option nat := match s with St_select p => Some p | _ => None end.

Definition retain_at (s : stage) (ps : gmap nat mdv_predicate) : gmap nat mdv_predicate :=
  match stage_predicate s with Some p => alter mdv_predicate_retain p ps | None => ps end.

(** A new operator on top of [a], whose creator drops its reference to [a]. *)
Definition stacked (s : stage) (h : heap) (a : nat) : heap :=
  mk_heap (<[h_next h := stage_obj s a]> (h_ops h)) (retain_at s (h_predicates h)) (h_sets h) (S (h_next h)).

Lemma stage_runs s h a x stages :
  h_ops h !! a = Some x -> op_rc x = 1%Z -> a < h_next h ->
  (forall p, stage_predicate s = Some p -> is_Some (h_predicates h !! p)) ->
  build h a (s :: stages) = build (stacked s h a) (h_next h) stages.
Proof.
  intros Hx Hrc Ha Hp. cbn [build].
  assert (Hret : mdv_op_retain h a = Done (set_op h a (set_rc x rc_retain))) by (unfold mdv_op_retain; by rewrite Hx).
  assert (Hst : stage_op s h a = Done (mk_heap (<[h_next h := stage_obj s a]> (<[a := set_rc x rc_retain]> (h_ops h)))
                                        (retain_at s (h_predicates h)) (h_sets h) (S (h_next h)), Some (h_next h))).
  { destruct s as [p|from to|indices]; cbn [stage_op]; unfold mdv_select, mdv_project_range, mdv_project_by_indices; cbn [negb];
      rewrite Hret; cbn [mbind outcome_bind set_op h_ops h_predicates h_sets h_next]; [|done|].
    - destruct (Hp p eq_refl) as [y Hy]. rewrite Hy. cbn [deref mbind outcome_bind new_op fst snd h_ops h_predicates h_sets h_next].
      unfold retain_at. cbn [stage_predicate]. do 3 f_equal. apply map_eq. intros q. destruct (decide (q = p)) as [->|Hne].
      + by rewrite lookup_insert_eq, lookup_alter_eq, Hy.
      + by rewrite lookup_insert_ne, lookup_alter_ne.
    - rewrite Nat.ltb_irrefl, firstn_all. done. }
  rewrite Hst. cbn [mbind outcome_bind fst snd deref mdv_op_release h_ops].
  rewrite lookup_insert_ne, lookup_insert_eq by lia. cbn [deref mbind outcome_bind].
  assert (Hrc2 : op_rc (set_rc x rc_retain) = 2%Z) by (destruct x; cbn in Hrc |- *; by rewrite Hrc). rewrite Hrc2.
  change (rc_release 2) with (1, 1, false)%Z. cbn [negb mbind outcome_bind fst]. unfold stacked, set_op. cbn [h_ops h_predicates h_sets h_next].
  replace (set_rc (set_rc x rc_retain) (fun _ => 1%Z)) with x by (by destruct x; cbn in Hrc |- *; rewrite Hrc).
  do 2 f_equal. apply map_eq. intros b. destruct (decide (b = a)) as [->|Hba].
  - by rewrite lookup_insert_eq, lookup_insert_ne by lia.
  - rewrite lookup_insert_ne by done. destruct (decide (b = h_next h)) as [->|Hbn]; [by rewrite !lookup_insert_eq|].
    by rewrite !lookup_insert_ne by done.
Qed.

(** The heap [h], made of [h0], has the query at [path], to which the caller has
    the only reference. *)
Record built (h0 h : heap) (path : list nat) (items : list mdv_kvdata) : Prop := {
  bt_yields : yields h path items items;
  bt_rc : Forall (fun a => op_rc <$> h_ops h !! a = Some 1%Z) path;
  bt_new : Forall (fun a => h_next h0 <= a < h_next h) path;
  bt_ops : forall b, b ∉ path -> h_ops h !! b = h_ops h0 !! b;
  bt_predicates : forall q, h_predicates h !! q
    = if decide (q ∈ predicates_of h path) then mdv_predicate_retain <$> h_predicates h0 !! q else h_predicates h0 !! q;
  bt_nodup : NoDup (predicates_of h path);
  bt_sets : h_sets h = delete set (h_sets h0)
}.

Lemma built_stage h0 h a path items s items' :
  built h0 h (a :: path) items -> h_next h0 <= h_next h -> mapM (apply_stage s) items = Some items' ->
  (forall p, stage_predicate s = Some p -> (p ∉ predicates_of h (a :: path)) /\ is_Some (h_predicates h0 !! p)) ->
  built h0 (stacked s h a) (h_next h :: a :: path) items'
  /\ predicates_of (stacked s h a) (h_next h :: a :: path) = match stage_predicate s with Some p => [p] | None => [] end ++ predicates_of h (a :: path).
Proof.
  intros [Hy Hrc Hnew Hops Hps Hnd Hsets] Hle Hmap Hp.
  assert (Hni : h_next h ∉ a :: path) by (intros Hin; eapply Forall_forall in Hnew; [|done]; cbn in Hnew; lia).
  assert (Hsame : forall b, b ∈ a :: path -> h_ops (stacked s h a) !! b = h_ops h !! b).
  { intros b Hb. cbn [stacked h_ops]. rewrite lookup_insert_ne; [done|]. intros <-. done. }
  assert (Hpred : predicates_of (stacked s h a) (h_next h :: a :: path)
                  = match stage_predicate s with Some p => [p] | None => [] end ++ predicates_of h (a :: path)).
  { rewrite predicates_cons, (predicates_ext h) by done. unfold select_predicate. cbn [stacked h_ops]. rewrite lookup_insert_eq. by destruct s. }
  assert (Hkeep : forall q, is_Some (h_predicates h !! q) -> is_Some (h_predicates (stacked s h a) !! q)).
  { intros q Hq. cbn [stacked h_predicates]. unfold retain_at. destruct (stage_predicate s) as [p|]; [|done].
    rewrite lookup_alter. destruct (decide (p = q)) as [->|]; [|done]. destruct Hq as [y ->]. by exists (mdv_predicate_retain y). }
  assert (Hy' : yields (stacked s h a) (a :: path) items items) by (apply (yields_frame h); [done|intros; by apply Hkeep|done]).
  split; [split|done].
  - destruct s as [p|from to|indices]; cbn [apply_stage] in Hmap.
    + assert (items' = items) as -> by (clear -Hmap; revert items' Hmap; induction items as [|kv l IH]; intros items' Hmap;
        apply mapM_cons_inv in Hmap; [done|]; destruct Hmap as (y & k & [= <-] & Hk & ->); f_equal; auto).
      destruct (Hp p eq_refl) as [Hn0 [y Hy0]]. eapply yields_select; [apply lookup_insert_eq| |done|done]. apply Hkeep. rewrite Hps.
      rewrite decide_False by done. by exists y.
    + eapply yields_project; [apply lookup_insert_eq|done|done|exact Hy'|done|done].
    + eapply yields_project; [apply lookup_insert_eq|done|done|exact Hy'|done|done].
  - apply Forall_cons. split; [cbn [stacked h_ops]; rewrite lookup_insert_eq; by destruct s|].
    apply Forall_forall. intros b Hb. rewrite Hsame by done. by eapply Forall_forall in Hrc.
  - apply Forall_cons. split; [cbn; lia|]. eapply Forall_impl; [exact Hnew|]. cbn. lia.
  - intros b Hb. cbn [stacked h_ops]. rewrite lookup_insert_ne by (intros <-; apply Hb; left). apply Hops. intros Hin. apply Hb. by right.
  - intros q. rewrite Hpred. cbn [stacked h_predicates]. unfold retain_at. destruct (stage_predicate s) as [p|]; [|apply Hps].
    destruct (Hp p eq_refl) as [Hn0 _]. cbn [app]. destruct (decide (q = p)) as [->|Hne].
    + rewrite lookup_alter_eq, Hps, decide_False by done. by rewrite decide_True by left.
    + rewrite lookup_alter_ne, Hps by done. destruct (decide (q ∈ predicates_of h (a :: path))); [by rewrite decide_True by (by right)|].
      by rewrite decide_False by (by intros [?|?]%elem_of_cons).
  - rewrite Hpred. destruct (stage_predicate s) as [p|]; [|done]. apply NoDup_cons. by split; [apply Hp|].
  - done.
Qed.

Fixpoint apply_stages (stages : list stage) (kv : mdv_kvdata) : option mdv_kvdata :=
  match stages with
  | [] => Some kv
  | s :: stages => apply_stage s kv ≫= apply_stages stages
  end.

Lemma mapM_id {A} (l : list A) : mapM Some l = Some l.
Proof. induction l as [|x l IH]; [done|]. cbn. by rewrite IH. Qed.

Lemma mapM_bind {A B C} (f : A -> option B) (g : B -> option C) l l' :
  mapM (fun x => f x ≫= g) l = Some l' -> exists k, mapM f l = Some k /\ mapM g k = Some l'.
Proof.
  revert l'. induction l as [|x l IH]; intros l' E; apply mapM_cons_inv in E; [subst; by exists []|].
  destruct E as (y & k & Hf & Hk & ->). destruct (f x) as [z|] eqn:Ez; [|done]. cbn in Hf.
  destruct (IH k Hk) as (k' & E1 & E2). exists (z :: k'). cbn. rewrite Ez, E1. cbn. by rewrite Hf, E2.
Qed.

Lemma build_ok h0 stages : forall h a path items rows,
  built h0 h (a :: path) items -> h_next h0 <= h_next h -> mapM (apply_stages stages) items = Some rows ->
  NoDup (omap stage_predicate stages) ->
  (forall p, p ∈ omap stage_predicate stages -> (p ∉ predicates_of h (a :: path)) /\ is_Some (h_predicates h0 !! p)) ->
  exists h' a' path', build h a stages = Done (h', a') /\ built h0 h' (a' :: path') rows /\ length path' = length stages + length path.
Proof.
  induction stages as [|s stages IH]; intros h a path items rows Hb Hle Hm Hnd Hp.
  { change (mapM Some items = Some rows) in Hm. rewrite mapM_id in Hm. injection Hm as <-. by exists h, a, path. }
  cbn [apply_stages] in Hm. apply mapM_bind in Hm as (mid & Hmid & Hm).
  assert (Hps : forall p, stage_predicate s = Some p -> (p ∉ predicates_of h (a :: path)) /\ is_Some (h_predicates h0 !! p)).
  { intros p Hsp. apply Hp. cbn [omap list_omap]. rewrite Hsp. by left. }
  destruct (built_stage _ _ _ _ _ _ _ Hb Hle Hmid Hps) as [Hb' Hpred].
  pose proof (bt_rc _ _ _ _ Hb) as Hrc. apply Forall_cons in Hrc as [Hrca _]. destruct (h_ops h !! a) as [x|] eqn:Ex; [|done]. injection Hrca as Hrca.
  pose proof (bt_new _ _ _ _ Hb) as Hnew. apply Forall_cons in Hnew as [Hnewa _].
  rewrite (stage_runs s h a x stages Ex Hrca ltac:(lia)).
  2: { intros p Hsp. destruct (Hps p Hsp) as [Hn0 [y Hy0]]. rewrite (bt_predicates _ _ _ _ Hb), decide_False by done. by exists y. }
  destruct (IH (stacked s h a) (h_next h) (a :: path) mid rows Hb') as (h' & a' & path' & E & Hb2 & Hlen); [cbn; lia|done| | |].
  - cbn [omap list_omap] in Hnd. destruct (stage_predicate s); [by apply NoDup_cons in Hnd as [_ ?]|done].
  - intros p Hin. rewrite Hpred. cbn [omap list_omap] in Hnd. specialize (Hp p). cbn [omap list_omap] in Hp.
    destruct (stage_predicate s) as [q|]; [|by apply Hp]. destruct Hp as [Hp1 Hp2]; [by right|]. split; [|done].
    apply NoDup_cons in Hnd as [Hq _]. by intros [->|?]%elem_of_cons.
  - exists h', a', path'. split; [done|]. split; [done|]. cbn in *. lia.
Qed.

Lemma same_but_predicates path h h' q : same_but q h h' -> predicates_of h' path = predicates_of h path.
Proof.
  intros Hs. unfold predicates_of. apply list_omap_ext, Forall2_same_length_lookup. split; [done|]. intros i a b Ha Hb.
  rewrite Ha in Hb. injection Hb as <-. pose proof (sb_shape _ _ _ Hs a) as Hsh. unfold select_predicate.
  destruct (h_ops h' !! a) as [[]|], (h_ops h !! a) as [[]|]; unfold shape in Hsh; cbn in Hsh; congruence.
Qed.

(** The whole life of a query leaves nothing behind. *)
Lemma built_release h0 h h' a path items l :
  built h0 h (a :: path) items -> yields h' (a :: path) items l -> same_but (a :: path) h h' ->
  (forall b, h_next h0 <= b -> h_ops h0 !! b = None) -> is_Some (h_sets h0 !! set) ->
  (forall p x, h_predicates h0 !! p = Some x -> (1 <= p_rc x < 2 ^ 32 - 1)%Z) ->
  exists h2 o', mdv_op_release (S (length path)) h' (Some a) = Done (h2, 0%Z)
    /\ h_ops h2 = h_ops h0 /\ h_predicates h2 = h_predicates h0 /\ h_sets h2 = <[set := o']> (h_sets h0)
    /\ set_live n o' /\ same_set o o'.
Proof.
  intros Hb Hy Hs Hfresh Hset Hrefs. pose proof (same_but_predicates (a :: path) _ _ _ Hs) as Hpred.
  destruct (release_ok (a :: path) h' items l (S (length path)) Hy) as (h2 & E & Hfr).
  - apply Forall_forall. intros b Hin. pose proof (bt_rc _ _ _ _ Hb) as Hrc. eapply Forall_forall in Hrc; [|exact Hin]. cbn in Hrc.
    pose proof (sb_shape _ _ _ Hs b) as Hsh. destruct (h_ops h' !! b) as [x|], (h_ops h !! b) as [y|]; try done.
    cbn in *. injection Hsh as Hsh _. by rewrite Hsh.
  - rewrite Hpred. apply Hb.
  - cbn. lia.
  - destruct (fr_sets _ _ _ Hfr) as (o' & Hso & Hl & Hsm). exists h2, o'. split; [done|]. split_and!; try done.
    + apply map_eq. intros b. rewrite (fr_ops _ _ _ Hfr). destruct (decide (b ∈ a :: path)) as [Hin|Hni].
      * symmetry. apply Hfresh. pose proof (bt_new _ _ _ _ Hb) as Hnew. eapply Forall_forall in Hnew; [|exact Hin]. cbn in Hnew. lia.
      * by rewrite (sb_ops _ _ _ Hs), (bt_ops _ _ _ _ Hb).
    + apply map_eq. intros q. rewrite (fr_predicates _ _ _ Hfr), Hpred, (sb_predicates _ _ _ Hs), (bt_predicates _ _ _ _ Hb).
      destruct (decide (q ∈ predicates_of h (a :: path))); [|done]. destruct (h_predicates h0 !! q) as [x|] eqn:Ex; [|done]. cbn.
      pose proof (Hrefs q x Ex). unfold released, mdv_predicate_release, mdv_predicate_retain, rc_retain, rc_release. cbn [p_rc].
      rewrite (wrap_id 64 (p_rc x + 1)), (wrap_id 64), (wrap_id 32) by (split; lia). destruct (Z.eqb_spec (p_rc x + 1 - 1) 0); [lia|].
      cbn. f_equal. destruct x. cbn. f_equal. lia.
    + rewrite Hso, (sb_sets _ _ _ Hs), (bt_sets _ _ _ _ Hb). by rewrite insert_delete_eq.
Qed.

(** ** Theorem *)

(** C14: a query made of a scan of a set and any selections and projections yields,
    for each object of the set in the order of the keys, the pair with the projected
    list; set back, it yields them again; its release frees every operator, gives back
    the predicates and leaves the set as it was.  A selection passes every row on, for
    its predicate is never evaluated, and a projection to the range [0, 0) yields the
    first item ([apply_stages]).  Memory is granted, the storage works, and the objects
    are lists that the projections can be made of. *)
Theorem mdv_query_correct `{!MdbReliable, !MdbCursorReliable} h stages rows mem :
  h_sets h !! set = Some o -> objects o = Some m -> (forall b, h_next h <= b -> h_ops h !! b = None) ->
  NoDup (omap stage_predicate stages) -> (forall p, p ∈ omap stage_predicate stages -> is_Some (h_predicates h !! p)) ->
  (forall p x, h_predicates h !! p = Some x -> (1 <= p_rc x < 2 ^ 32 - 1)%Z) ->
  mapM (apply_stages stages) (sorted_entries m) = Some rows -> (forall i, mem i = true) ->
  let depth := S (length stages) in
  exists h1 a0 h2 a h3 h4 h5 h6 o',
    mdv_scan_seq true true true h set = Done (h1, Some a0) /\ build h1 a0 stages = Done (h2, a)
    /\ pull (S (length rows)) depth mem 0 h2 a = Done (rows, h3)
    /\ mdv_op_reset depth h3 a = Done (h4, MDV_OK) /\ pull (S (length rows)) depth mem 0 h4 a = Done (rows, h5)
    /\ mdv_op_release depth h5 (Some a) = Done (h6, 0%Z)
    /\ h_ops h6 = h_ops h /\ h_predicates h6 = h_predicates h /\ h_sets h6 = <[set := o']> (h_sets h)
    /\ set_live n o' /\ same_set o o'.
Proof.
  intros Hset Hobj Hfresh Hnd Hps Hrefs Hrows Hmem depth.
  pose proof (create_runs n Hn true o None Hlive) as Hc. cbv zeta in Hc. unfold mdv_scan_seq, mdv_2pset_enumerator. rewrite Hset. cbn [negb].
  destruct (mdv_objects_enumerator_create _ _ _ _ _) as [o1|e].
  { destruct Hc as (_ & _ & Hc). by specialize (Hc _ _ eq_refl m Hobj). }
  destruct Hc as (m' & Hm' & _ & Hr). cbn [begins] in Hr. rewrite Hobj in Hm'. injection Hm' as <-.
  set (h1 := fst (new_op (mk_heap (h_ops h) (h_predicates h) (delete set (h_sets h)) (h_next h)) (Op_scan_seq 1 set e false false))).
  assert (Hscan : h_ops h1 !! h_next h = Some (Op_scan_seq 1 set e false false)) by (cbn; apply lookup_insert_eq).
  assert (Hb : built h h1 [h_next h] (sorted_entries m)).
  { split; [by eapply yields_scan|..].
    - apply Forall_singleton. by rewrite Hscan.
    - apply Forall_singleton. cbn. lia.
    - intros b Hb. cbn. rewrite lookup_insert_ne; [done|]. intros <-. apply Hb. by left.
    - intros q. rewrite predicates_cons. unfold select_predicate. rewrite Hscan. by rewrite decide_False by (by intros ?%elem_of_nil).
    - rewrite predicates_cons. unfold select_predicate. rewrite Hscan. apply NoDup_nil_2.
    - done. }
  destruct (build_ok h stages h1 (h_next h) [] (sorted_entries m) rows Hb) as (h2 & a & path & Hbuild & Hb2 & Hlen); [cbn; lia|done|done| |].
  { intros p Hp. split; [|by apply Hps]. rewrite predicates_cons. unfold select_predicate. rewrite Hscan. by intros ?%elem_of_nil. }
  assert (Hdepth : S (length path) <= depth) by (unfold depth; cbn in Hlen; lia).
  destruct (pull_ok rows h2 a path rows (S (length rows)) depth mem 0 (bt_yields _ _ _ _ Hb2)) as (h3 & Hp3 & Hy3 & Hs3); [lia|done..|].
  destruct (reset_ok (a :: path) h3 rows [] depth Hy3 Hdepth) as (h4 & Hr4 & Hy4 & Hs4).
  destruct (pull_ok rows h4 a path rows (S (length rows)) depth mem 0 Hy4) as (h5 & Hp5 & Hy5 & Hs5); [lia|done..|].
  assert (Hs : same_but (a :: path) h2 h5) by (eapply same_but_trans; [reflexivity|exact Hs3|]; eapply same_but_trans; [reflexivity|exact Hs4|done]).
  destruct (built_release h h2 h5 a path rows [] Hb2 Hy5 Hs Hfresh ltac:(by rewrite Hset) Hrefs) as (h6 & o' & Hrel & F1 & F2 & F3 & F4 & F5).
  exists h1, (h_next h), h2, a, h3, h4, h5, h6, o'. split; [done|]. split_and!; try done.
  replace depth with (S (length path)) by (unfold depth; cbn in Hlen; lia). done.
Qed.

End Ops.

(** ** An example *)

Definition demo_row (a b c : Z) : bytes := binn_bytes (B_list [B_int a; B_int b; B_int c]).
Definition demo_objects : gmap bytes bytes := {[ [2]%Z := demo_row 4 5 6; [1]%Z := demo_row 1 2 3 ]}.
Definition demo_set : mdv_2pset := mk_2pset (mk_lmdb 1 ({[ MDV_MAP_OBJECTS := demo_objects ]} : database, ∅) true) false 0.
Definition demo_heap : heap := mk_heap ∅ {[ 0 := parsed ]} {[ 7 := demo_set ]} 0.
Definition demo_stages : list stage := [St_select 0; St_indices [0; 2]%Z; St_range 1 2].
Definition demo_rows : list (bytes * bytes) := [([1]%Z, binn_bytes (B_list [B_int 3])); ([2]%Z, binn_bytes (B_list [B_int 6]))].

Lemma mdv_query_correct_witness :
  exists h1 a0 h2 a h3 h4 h5 h6 o',
    mdv_scan_seq true true true demo_heap 7 = Done (h1, Some a0) /\ build h1 a0 demo_stages = Done (h2, a)
    /\ pull 3 4 (fun _ => true) 0 h2 a = Done (demo_rows, h3)
    /\ mdv_op_reset 4 h3 a = Done (h4, MDV_OK) /\ pull 3 4 (fun _ => true) 0 h4 a = Done (demo_rows, h5)
    /\ mdv_op_release 4 h5 (Some a) = Done (h6, 0%Z)
    /\ h_ops h6 = h_ops demo_heap /\ h_predicates h6 = h_predicates demo_heap /\ h_sets h6 = <[7 := o']> (h_sets demo_heap)
    /\ set_live 1 o' /\ same_set demo_set o'.
Proof.
  assert (Hl : set_live 1 demo_set) by (split; [by split|cbn; set_solver]).
  assert (Hne : sorted_entries demo_objects <> []) by (intros E; apply (f_equal length) in E; rewrite length_sorted in E; done).
  refine (mdv_query_correct 1 ltac:(lia) 7 demo_set demo_objects Hl Hne demo_heap demo_stages demo_rows (fun _ => true)
            eq_refl eq_refl _ _ _ _ _ (fun _ => eq_refl)).
  - done.
  - cbn. repeat constructor; set_solver.
  - cbn. intros p ->%list_elem_of_singleton. by exists parsed.
  - intros p x Hx. unfold demo_heap in Hx. cbn [h_predicates] in Hx. apply lookup_singleton_Some in Hx as [_ <-]. cbn. lia.
  - vm_compute. reflexivity.
Defined.

(** The range [0, 0) is not empty: one item is copied before its end is tested. *)
Example empty_range : range_items [B_int 1; B_int 2] 0 0 0 = [B_int 1].
Proof. reflexivity. Qed.

End Ops.
