(* ===== verification/Types.v ===== *)
(** * Fields, data, tables and sets of rows (src/mdv_types)

    mdv_field.c, mdv_datum.c, mdv_table_desc.c, mdv_table.c and mdv_rowset.c.
    A text is the list of its characters without the last zero.  The fields of
    a table description are cells, [None] for one that was never written.
    Blocks that hold a structure and the strings it points to are filled at
    running offsets; an offset beyond the block is [OutOfBounds]. *)

From S2P Require Import Prelude Bitset Uuid Vector Rollbacker Binn.
Import Bitset Uuid Vector Rollbacker.

Module Types.

Abbreviation bytes := (list Z).

(** ** Fields *)

Definition MDV_FLD_TYPE_BOOL : Z := 1.
Definition MDV_FLD_TYPE_CHAR : Z := 2.
Definition MDV_FLD_TYPE_BYTE : Z := 3.
Definition MDV_FLD_TYPE_INT8 : Z := 4.
Definition MDV_FLD_TYPE_UINT8 : Z := 5.
Definition MDV_FLD_TYPE_INT16 : Z := 6.
Definition MDV_FLD_TYPE_UINT16 : Z := 7.
Definition MDV_FLD_TYPE_INT32 : Z := 8.
Definition MDV_FLD_TYPE_UINT32 : Z := 9.
Definition MDV_FLD_TYPE_INT64 : Z := 10.
Definition MDV_FLD_TYPE_UINT64 : Z := 11.
Definition MDV_FLD_TYPE_FLOAT : Z := 12.
Definition MDV_FLD_TYPE_DOUBLE : Z := 13.

Record mdv_field := mk_fld { fld_type : Z; fld_limit : Z; fld_name : bytes }.

Definition mdv_field_type_size (t : Z) : nat :=
  match t with
  | 1%Z | 2%Z | 3%Z | 4%Z | 5%Z => 1
  | 6%Z | 7%Z => 2
  | 8%Z | 9%Z => 4
  | 10%Z | 11%Z => 8
  | 12%Z => 4
  | 13%Z => 8
  | _ => 0
  end.

(** ** Data *)

(** [dt_data]: the bytes at [data.ptr]. *)
Record mdv_datum := mk_datum { dt_type : Z; dt_data : bytes }.

(** The macro of the constructors: a block of [offsetof + size * count] bytes is
    allocated, the items are copied, and a text gets a last zero, at the index
    [count] of the items. *)
Definition mdv_datum_type_create (mem : bool) (type : Z) (v : bytes) (count : nat) : outcome (option mdv_datum) :=
  let size := mdv_field_type_size type * count in
  if negb mem then Done None else
  if length v <? size then OutOfBounds (Z.of_nat (length v)) else
  let data := take size v in
  if (type =? MDV_FLD_TYPE_CHAR)%Z && negb (count <? size) then OutOfBounds (Z.of_nat count)
  else Done (Some (mk_datum type data)).

Definition mdv_datum_create (mem : bool) (type : Z) (v : bytes) (size : nat) : outcome (option mdv_datum) :=
  if (mdv_field_type_size type =? 0)%nat then Done None
  else mdv_datum_type_create mem type v (size / mdv_field_type_size type).

Definition mdv_datum_size (d : mdv_datum) : nat := length (dt_data d).
Definition mdv_datum_count (d : mdv_datum) : nat := mdv_datum_size d / mdv_field_type_size (dt_type d).

(** [mdv_datum_as_<type>] *)
Definition mdv_datum_as (type : Z) (d : mdv_datum) : option bytes :=
  if (dt_type d =? type)%Z then Some (dt_data d) else None.

(** ** Table descriptions *)

Record mdv_table_desc := mk_desc {
  td_name : bytes;
  td_size : nat;
  td_fields : list (option mdv_field)
}.

(** A field of a description. *)
Definition field_at (d : mdv_table_desc) (i : nat) : outcome mdv_field :=
  match td_fields d !! i with Some (Some f) => Done f | _ => OutOfBounds (Z.of_nat i) end.

(** A description that is extended: the vector of its fields and the list of its
    strings lie behind it.  [dd_current]: [desc->fields] is the array of the
    vector, and not one that was reallocated since; [dd_dynamic]: the mark
    [dynamic_alloc] of the descriptions that [mdv_table_desc_create] made. *)
Record dynamic_desc := mk_dynamic {
  dd_dynamic : bool;
  dd_name : bytes;
  dd_size : Z;
  dd_vector : mdv_vector (I := mdv_field);
  dd_strings : list bytes;
  dd_current : bool
}.

Inductive release_fn := Fn_rollbacker_free | Fn_free | Fn_vector_release | Fn_list_clear.
Inductive resource := Res_rollbacker | Res_desc | Res_fields | Res_strings.

(** [sizeof(mdv_field)], [sizeof(mdv_table)] *)
Definition sizeof_field : Z := 16.
Definition sizeof_table : Z := 48.

Definition push (r : option (mdv_rollbacker release_fn resource)) (f : release_fn) (x : resource) :=
  snd (mdv_rollbacker_push r (mk_op f [x])).

(** [mem_rbr], [mem], [mem_vec], [mem_data], [mem_name]: the rollbacker, the
    description, the vector, its array and the name are allocated.  The result
    and the calls of the rollback. *)
Definition mdv_table_desc_create (mem_rbr mem mem_vec mem_data mem_name : bool) (name : bytes)
  : option dynamic_desc * list (release_fn * list resource) :=
  let rbr := mdv_rollbacker_create mem_rbr Fn_rollbacker_free Res_rollbacker 2 in
  if negb mem then (None, mdv_rollback rbr) else
  let rbr := push rbr Fn_free Res_desc in
  match mdv_vector_create mem_vec mem_data 2 sizeof_field with
  | None => (None, mdv_rollback rbr)
  | Some v =>
      let rbr := push rbr Fn_vector_release Res_fields in
      if negb mem_name then (None, mdv_rollback rbr)
      else (Some (mk_dynamic true name 0 v [name] true), [])
  end.

(** [mem_vec], [mem_name]: the array grows, the name is allocated. *)
Definition mdv_table_desc_append (mem_vec mem_name : bool) (d : dynamic_desc) (f : mdv_field)
  : outcome (dynamic_desc * bool) :=
  if negb (dd_dynamic d) then Done (d, false) else
  '(v, p) ← mdv_vector_push_back 64 mem_vec (dd_vector d) f;
  let kept := dd_current d && (v_capacity v =? v_capacity (dd_vector d))%Z in
  match p with
  | None => Done (mk_dynamic true (dd_name d) (dd_size d) v (dd_strings d) kept, false)
  | Some i =>
      if negb mem_name then
        Done (mk_dynamic true (dd_name d) (dd_size d) (mdv_vector_erase v (v_item_size v * i)) (dd_strings d) kept, false)
      else
        Done (mk_dynamic true (dd_name d) (u32 (v_size v)) v (dd_strings d ++ [fld_name f]) true, true)
  end.

(** The calls that the release of a description makes. *)
Definition mdv_table_desc_free (d : option dynamic_desc) : list (release_fn * list resource) :=
  match d with
  | Some d =>
      if dd_dynamic d then [(Fn_vector_release, [Res_fields]); (Fn_list_clear, [Res_strings]); (Fn_free, [Res_desc])]
      else []
  | None => []
  end.

(** The fields as a client of the description reads them; after the array was
    left behind by a failed extension they are read from freed memory. *)
Definition dynamic_fields (d : dynamic_desc) : outcome (list (option mdv_field)) :=
  if dd_current d then Done (take (Z.to_nat (dd_size d)) (v_data (dd_vector d))) else OutOfBounds 0.

(** ** Tables *)

Record mdv_table := mk_table { tb_rc : Z; tb_id : mdv_uuid; tb_desc : mdv_table_desc }.

(** [mask && !mdv_bitset_test(mask, i)], negated. *)
Definition selected (mask : option mdv_bitset) (i : nat) : outcome bool :=
  match mask with
  | None => Done true
  | Some b => match mdv_bitset_test b i with Some t => Done t | None => OutOfBounds (Z.of_nat i) end
  end.

(** The loop of [mdv_table_size] over [n] fields from [i] on. *)
Fixpoint table_size_loop (d : mdv_table_desc) (mask : option mdv_bitset) (n i : nat) (size : Z) (count : nat) : outcome (Z * nat) :=
  match n with
  | 0 => Done (size, count)
  | S n =>
      sel ← selected mask i;
      if negb sel then table_size_loop d mask n (S i) size count else
      f ← field_at d i;
      table_size_loop d mask n (S i) (size + Z.of_nat (length (fld_name f)) + 1)%Z (S count)
  end.

Definition mdv_table_size (d : mdv_table_desc) (mask : option mdv_bitset) : outcome (Z * nat) :=
  '(size, count) ← table_size_loop d mask (td_size d) 0 0 0;
  Done (size + sizeof_table + Z.of_nat (length (td_name d)) + 1 + Z.of_nat count * sizeof_field, count)%Z.

(** A text is copied to the offset [strings] of a block of [size] bytes. *)
Definition put_string (size strings : Z) (s : bytes) : outcome Z :=
  let strings' := (strings + Z.of_nat (length s) + 1)%Z in
  if (strings' <=? size)%Z then Done strings' else OutOfBounds size.

(** The copy of the selected fields: the new fields and the end of the strings. *)
Fixpoint copy_fields (d : mdv_table_desc) (mask : option mdv_bitset) (size : Z) (n i : nat) (strings : Z) (acc : list mdv_field)
  : outcome (list mdv_field * Z) :=
  match n with
  | 0 => Done (acc, strings)
  | S n =>
      sel ← selected mask i;
      if negb sel then copy_fields d mask size n (S i) strings acc else
      f ← field_at d i;
      strings ← put_string size strings (fld_name f);
      copy_fields d mask size n (S i) strings (acc ++ [f])
  end.

Definition mdv_table_create_impl (mem : bool) (id : mdv_uuid) (d : mdv_table_desc) (mask : option mdv_bitset)
  : outcome (option mdv_table) :=
  '(size, count) ← mdv_table_size d mask;
  if negb mem then Done None else
  let strings := (sizeof_table + Z.of_nat count * sizeof_field)%Z in
  strings ← put_string size strings (td_name d);
  '(fields, strings) ← copy_fields d mask size (td_size d) 0 strings [];
  if negb (strings =? size)%Z then OutOfBounds strings
  else Done (Some (mk_table 1 id (mk_desc (td_name d) count (Some <$> fields)))).

Definition mdv_table_create (mem : bool) (id : mdv_uuid) (d : mdv_table_desc) : outcome (option mdv_table) :=
  mdv_table_create_impl mem id d None.

Definition mdv_table_slice (mem : bool) (t : mdv_table) (fields : mdv_bitset) : outcome (option mdv_table) :=
  mdv_table_create_impl mem (tb_id t) (tb_desc t) (Some fields).

Definition mdv_table_retain (t : mdv_table) : mdv_table := mk_table (rc_retain (tb_rc t)) (tb_id t) (tb_desc t).

(** The returned count, and the table unless it is freed. *)
Definition mdv_table_release (t : option mdv_table) : Z * option mdv_table :=
  match t with
  | None => (0%Z, None)
  | Some t =>
      let '(rc, refs, dead) := rc_release (tb_rc t) in
      (refs, if dead then None else Some (mk_table rc (tb_id t) (tb_desc t)))
  end.

(** ** Sets of rows *)

(** A row: the bytes of its fields. *)
Abbreviation mdv_row := (list bytes).

Record mdv_rowset := mk_rowset { rs_rc : Z; rs_table : mdv_table; rs_rows : list mdv_row }.

(** [rs_table] holds the table with the reference of the set. *)
Definition mdv_rowset_create (mem : bool) (t : mdv_table) : option mdv_rowset :=
  if negb mem then None else Some (mk_rowset 1 (mdv_table_retain t) []).

Definition mdv_rowset_retain (r : mdv_rowset) : mdv_rowset := mk_rowset (rc_retain (rs_rc r)) (rs_table r) (rs_rows r).

(** The returned count; the set unless it is freed, with the table that is left. *)
Definition mdv_rowset_release (r : option mdv_rowset) : Z * (option mdv_rowset + option mdv_table) :=
  match r with
  | None => (0%Z, inl None)
  | Some r =>
      let '(rc, refs, dead) := rc_release (rs_rc r) in
      (refs, if dead then inr (snd (mdv_table_release (Some (rs_table r)))) else inl (Some (mk_rowset rc (rs_table r) (rs_rows r))))
  end.

Definition mdv_rowset_table (r : mdv_rowset) : mdv_rowset := mk_rowset (rs_rc r) (mdv_table_retain (rs_table r)) (rs_rows r).

Definition mdv_rowset_emplace (r : mdv_rowset) (row : mdv_row) : mdv_rowset :=
  mk_rowset (rs_rc r) (rs_table r) (rs_rows r ++ [row]).

(** [offsetof(mdv_rowlist_entry, data) + offsetof(mdv_row, fields)], [sizeof(mdv_data)] *)
Definition row_header : Z := 16.
Definition sizeof_data : Z := 16.

(** The sum of the sizes of the first [n] fields from [j] on. *)
Fixpoint row_bytes (row : mdv_row) (n j : nat) : outcome Z :=
  match n with
  | 0 => Done 0%Z
  | S n => f ← read row j; rest ← row_bytes row n (S j); Done (Z.of_nat (length f) + rest)%Z
  end.

(** The copy of [n] fields behind the header of a block of [size] bytes: the
    fields and the end. *)
Fixpoint copy_row (size : Z) (row : mdv_row) (n j : nat) (pos : Z) (acc : mdv_row) : outcome (mdv_row * Z) :=
  match n with
  | 0 => Done (acc, pos)
  | S n =>
      f ← read row j;
      let pos' := (pos + Z.of_nat (length f))%Z in
      if (size <? pos')%Z then OutOfBounds size else copy_row size row n (S j) pos' (acc ++ [f])
  end.

(** [mem i]: the entry of the row [i] is allocated.  The set and the count. *)
Fixpoint append_loop (mem : nat -> bool) (r : mdv_rowset) (rows : list mdv_row) (appended : nat) : outcome (mdv_rowset * nat) :=
  match rows with
  | [] => Done (r, appended)
  | row :: rows =>
      let cols := td_size (tb_desc (rs_table r)) in
      sum ← row_bytes row cols 0;
      let header := (row_header + sizeof_data * Z.of_nat cols)%Z in
      let size := (header + sum)%Z in
      if negb (mem appended) then Done (r, appended) else
      '(row, pos) ← copy_row size row cols 0 header [];
      if negb (pos =? size)%Z then OutOfBounds pos
      else append_loop mem (mdv_rowset_emplace r row) rows (S appended)
  end.

Definition mdv_rowset_append (mem : nat -> bool) (r : mdv_rowset) (rows : list mdv_row) : outcome (mdv_rowset * nat) :=
  append_loop mem r rows 0.

(** An enumerator: the number of the current entry, [None] before the first. *)
Record rowset_enumerator := mk_rowset_enum { re_rc : Z; re_current : option nat }.

(** The set with the reference of the enumerator. *)
Definition mdv_rowset_enumerator (mem : bool) (r : mdv_rowset) : option (mdv_rowset * rowset_enumerator) :=
  if negb mem then None else Some (mdv_rowset_retain r, mk_rowset_enum 1 None).

Definition mdv_rowset_enumerator_reset (e : rowset_enumerator) : rowset_enumerator := mk_rowset_enum (re_rc e) None.

Definition mdv_rowset_enumerator_next (r : mdv_rowset) (e : rowset_enumerator) : rowset_enumerator * mdv_errno :=
  let i := match re_current e with None => 0 | Some i => S i end in
  if i <? length (rs_rows r) then (mk_rowset_enum (re_rc e) (Some i), MDV_OK)
  else (mk_rowset_enum (re_rc e) None, MDV_FAILED).

Definition mdv_rowset_enumerator_current (r : mdv_rowset) (e : rowset_enumerator) : option mdv_row :=
  match re_current e with None => None | Some i => rs_rows r !! i end.

(** The returned count; the enumerator unless it is freed, when the reference to
    the set is given back. *)
Definition mdv_rowset_enumerator_release (r : mdv_rowset) (e : option rowset_enumerator)
  : Z * (option rowset_enumerator * (option mdv_rowset + option mdv_table)) :=
  match e with
  | None => (0%Z, (None, inl (Some r)))
  | Some e =>
      let '(rc, refs, dead) := rc_release (re_rc e) in
      (refs, if dead then (None, snd (mdv_rowset_release (Some r))) else (Some (mk_rowset_enum rc (re_current e)), inl (Some r)))
  end.

(** [while (mdv_enumerator_next(e) == MDV_OK) ... mdv_enumerator_current(e)] *)
Fixpoint enumerate (fuel : nat) (r : mdv_rowset) (e : rowset_enumerator) : outcome (list mdv_row) :=
  match fuel with
  | 0 => OutOfFuel
  | S fuel =>
      let '(e, err) := mdv_rowset_enumerator_next r e in
      if decide (err = MDV_OK) then
        row ← deref (mdv_rowset_enumerator_current r e);
        rows ← enumerate fuel r e;
        Done (row :: rows)
      else Done []
  end.


(** ** Descriptions and masks *)

(** The description has the fields [l]. *)
Definition desc_ok (d : mdv_table_desc) (l : list mdv_field) : Prop := td_fields d = Some <$> l /\ td_size d = length l.

Definition keeps (mask : option mdv_bitset) (i : nat) : bool := match mask with None => true | Some b => bit b i end.

(** The mask covers [n] columns. *)
Definition covers (mask : option mdv_bitset) (n : nat) : Prop :=
  match mask with None => True | Some b => Bitset.wf b /\ n <= mdv_bitset_capacity b end.

(** What a mask keeps of a sequence that starts at column [i]. *)
Fixpoint pick {A} (mask : option mdv_bitset) (i : nat) (l : list A) : list A :=
  match l with
  | [] => []
  | x :: l => if keeps mask i then x :: pick mask (S i) l else pick mask (S i) l
  end.

Lemma pick_all {A} i (l : list A) : pick None i l = l.
Proof. revert i. induction l; intros; cbn; by f_equal. Qed.

Lemma selected_keeps mask n i : covers mask n -> i < n -> selected mask i = Done (keeps mask i).
Proof.
  destruct mask as [b|]; [|done]. intros [Hw Hn] Hi. unfold selected. by rewrite mdv_bitset_test_bit by (done || lia).
Qed.

Lemma field_at_ok d l i f : desc_ok d l -> l !! i = Some f -> field_at d i = Done f.
Proof. intros [Hf _] Hi. unfold field_at. by rewrite Hf, list_lookup_fmap, Hi. Qed.

Definition names_size (l : list mdv_field) : Z := foldr (fun f s => Z.of_nat (length (fld_name f)) + 1 + s)%Z 0%Z l.

Lemma names_size_pos l : (0 <= names_size l)%Z.
Proof. induction l as [|f l IH]; cbn; [done|]. fold (names_size l). lia. Qed.

Section Tables.
Context (d : mdv_table_desc) (l : list mdv_field) (mask : option mdv_bitset).
Context (Hd : desc_ok d l) (Hm : covers mask (length l)).

Lemma table_size_loop_spec n i size count :
  i + n = length l ->
  table_size_loop d mask n i size count
  = Done ((size + names_size (pick mask i (drop i l)))%Z, count + length (pick mask i (drop i l))).
Proof.
  revert i size count. induction n as [|n IH]; intros i size count Hi.
  { rewrite drop_ge by lia. cbn. by rewrite Z.add_0_r, Nat.add_0_r. }
  destruct (lookup_lt_is_Some_2 l i ltac:(lia)) as [f Hf]. rewrite (drop_S l f i Hf). cbn [table_size_loop pick].
  rewrite (selected_keeps mask (length l)) by (done || lia). cbn [mbind outcome_bind]. destruct (keeps mask i); cbn [negb].
  - rewrite (field_at_ok d l i f Hd Hf). cbn [mbind outcome_bind]. rewrite IH by lia. cbn [names_size foldr length].
    fold (names_size (pick mask (S i) (drop (S i) l))). apply f_equal, pair_equal_spec. split; lia.
  - by rewrite IH by lia.
Qed.

Lemma copy_fields_spec n i size strings acc :
  i + n = length l -> (strings + names_size (pick mask i (drop i l)) <= size)%Z ->
  copy_fields d mask size n i strings acc
  = Done (acc ++ pick mask i (drop i l), (strings + names_size (pick mask i (drop i l)))%Z).
Proof.
  revert i strings acc. induction n as [|n IH]; intros i strings acc Hi Hs.
  { rewrite drop_ge by lia. cbn. by rewrite app_nil_r, Z.add_0_r. }
  destruct (lookup_lt_is_Some_2 l i ltac:(lia)) as [f Hf]. rewrite (drop_S l f i Hf) in *. cbn [copy_fields pick] in *.
  rewrite (selected_keeps mask (length l)) by (done || lia). cbn [mbind outcome_bind]. destruct (keeps mask i); cbn [negb].
  - rewrite (field_at_ok d l i f Hd Hf). cbn [mbind outcome_bind]. unfold put_string. cbn [names_size foldr] in Hs.
    fold (names_size (pick mask (S i) (drop (S i) l))) in Hs. pose proof (names_size_pos (pick mask (S i) (drop (S i) l))).
    destruct (Z.leb_spec (strings + Z.of_nat (length (fld_name f)) + 1) size); [|lia]. cbn [mbind outcome_bind].
    rewrite IH by lia. rewrite <- app_assoc. cbn [names_size foldr app]. fold (names_size (pick mask (S i) (drop (S i) l))).
    apply f_equal, pair_equal_spec. split; [done|lia].
  - by rewrite IH by (lia || done).
Qed.

Lemma table_create_impl_spec id :
  mdv_table_create_impl true id d mask
  = Done (Some (mk_table 1 id (mk_desc (td_name d) (length (pick mask 0 l)) (Some <$> pick mask 0 l))))
  /\ mdv_table_create_impl false id d mask = Done None.
Proof.
  assert (Hs : mdv_table_size d mask
    = Done ((names_size (pick mask 0 l) + sizeof_table + Z.of_nat (length (td_name d)) + 1
              + Z.of_nat (length (pick mask 0 l)) * sizeof_field)%Z, length (pick mask 0 l))).
  { unfold mdv_table_size. rewrite (proj2 Hd), table_size_loop_spec by lia. done. }
  unfold mdv_table_create_impl. rewrite Hs. cbn [mbind outcome_bind negb]. split; [|done].
  pose proof (names_size_pos (pick mask 0 l)). unfold put_string.
  match goal with |- context [(?a <=? ?b)%Z] => destruct (Z.leb_spec a b); [|lia] end. cbn [mbind outcome_bind].
  rewrite (proj2 Hd), copy_fields_spec by (rewrite ?drop_0; lia). cbn [mbind outcome_bind]. rewrite drop_0.
  match goal with |- context [(?a =? ?b)%Z] => destruct (Z.eqb_spec a b); [|lia] end. done.
Qed.

End Tables.

(** ** Descriptions that grow *)

Record dynamic_ok (d : dynamic_desc) (l : list mdv_field) : Prop := {
  dy_dynamic : dd_dynamic d = true;
  dy_vector : holds (dd_vector d) l;
  dy_capacity : (0 < v_capacity (dd_vector d) < 2 ^ 63)%Z;
  dy_size : dd_size d = Z.of_nat (length l)
}.

Lemma dynamic_fields_ok d l : dynamic_ok d l -> dd_current d = true -> dynamic_fields d = Done (Some <$> l).
Proof.
  intros [_ [Hs Hc Hi [rest Hr]] _ Hz] Hcur. unfold dynamic_fields. rewrite Hcur, Hz, Nat2Z.id, Hr.
  by rewrite take_app_length' by (by rewrite length_fmap).
Qed.

Lemma push_back_capacity mem (v v' : mdv_vector (I := mdv_field)) l f p :
  holds v l -> (0 < v_capacity v < 2 ^ 63)%Z -> (Z.of_nat (length l) + 1 < 2 ^ 32)%Z ->
  mdv_vector_push_back 64 mem v f = Done (v', p) -> (0 < v_capacity v' < 2 ^ 63)%Z.
Proof.
  intros Hh Hc Hl. unfold mdv_vector_push_back, mdv_vector_resize_if_required. rewrite (h_size _ _ Hh).
  rewrite (wrap_id 64) by (split; lia). destruct (grow_loop_64 (Z.of_nat (length l) + 1) (v_capacity v) Hc ltac:(lia)) as (c & -> & ? & ? & Hb & He).
  destruct (Z.gtb_spec c (v_capacity v)); [destruct mem|]; cbn; intros [= <- <-]; cbn; lia.
Qed.

Lemma append_runs mem_vec mem_name d l f :
  dynamic_ok d l -> (Z.of_nat (length l) + 1 < 2 ^ 32)%Z ->
  exists d' ok, mdv_table_desc_append mem_vec mem_name d f = Done (d', ok)
    /\ (ok = true -> dynamic_ok d' (l ++ [f]) /\ dd_current d' = true)
    /\ (ok = false -> dynamic_ok d' l /\ (mem_vec = false \/ mem_name = false)).
Proof.
  intros [Hdy Hh Hc Hs] Hl. unfold mdv_table_desc_append. rewrite Hdy. cbn [negb]. pose proof (push_back_capacity mem_vec (dd_vector d)) as Hcap.
  destruct (append_spec mem_vec (dd_vector d) l [f] Hh Hc ltac:(cbn; lia)) as (v & q & E & Hq & Hmem).
  rewrite push_back_append, E. cbn [mbind outcome_bind].
  specialize (Hcap v l f q Hh Hc Hl). rewrite push_back_append in Hcap. specialize (Hcap E).
  destruct Hq as [(-> & -> & ->)|(-> & Hh')].
  { eexists _, false. split; [done|]. split; [done|]. intros _. split; [by split|by left]. }
  destruct mem_name; cbn [negb]; eexists _, _; (split; [done|]).
  - split; [|done]. intros _. split; [split|done]; cbn [dd_dynamic dd_vector dd_size]; [done..|].
    rewrite (h_size _ _ Hh'), wrap_id; [done|]. rewrite length_app. cbn. split; lia.
  - split; [done|]. intros _. split; [split; cbn [dd_dynamic dd_vector dd_size]; [done| | |done]|by right].
    + pose proof (erase_spec v (l ++ [f]) (length l) Hh' ltac:(rewrite length_app; cbn; lia) ltac:(rewrite length_app; cbn; lia)) as He.
      by rewrite delete_middle, app_nil_r in He.
    + unfold mdv_vector_erase. by repeat case_match.
Qed.

(** ** Rows *)

Lemma row_bytes_spec row n j :
  j + n <= length row -> row_bytes row n j = Done (Z.of_nat (length (concat (take n (drop j row))))).
Proof.
  revert j. induction n as [|n IH]; intros j Hj; [done|]. cbn [row_bytes].
  destruct (lookup_lt_is_Some_2 row j ltac:(lia)) as [f Hf]. rewrite (read_Done _ _ _ Hf). cbn [mbind outcome_bind].
  rewrite IH by lia. cbn [mbind outcome_bind]. rewrite (drop_S row f j Hf). cbn. rewrite length_app. f_equal. lia.
Qed.

Lemma copy_row_spec size row n j pos acc :
  j + n <= length row -> (pos + Z.of_nat (length (concat (take n (drop j row)))) <= size)%Z ->
  copy_row size row n j pos acc
  = Done (acc ++ take n (drop j row), (pos + Z.of_nat (length (concat (take n (drop j row)))))%Z).
Proof.
  revert j pos acc. induction n as [|n IH]; intros j pos acc Hj Hs.
  { cbn. by rewrite app_nil_r, Z.add_0_r. }
  cbn [copy_row]. destruct (lookup_lt_is_Some_2 row j ltac:(lia)) as [f Hf]. rewrite (read_Done _ _ _ Hf). cbn [mbind outcome_bind].
  rewrite (drop_S row f j Hf) in *. cbn in Hs. rewrite length_app in Hs.
  destruct (Z.ltb_spec size (pos + Z.of_nat (length f))); [lia|]. rewrite IH by lia.
  cbn [take firstn concat]. rewrite <- app_assoc, length_app. apply f_equal, pair_equal_spec. split; [done|lia].
Qed.

Lemma append_loop_spec mem rows r k :
  let cols := td_size (tb_desc (rs_table r)) in
  Forall (fun row => cols <= length row) rows ->
  exists m, append_loop mem r rows k = Done (mk_rowset (rs_rc r) (rs_table r) (rs_rows r ++ (take cols <$> take m rows)), k + m)
    /\ m <= length rows /\ ((forall i, mem i = true) -> m = length rows).
Proof.
  intros cols Hr. revert r k cols Hr. induction rows as [|row rows IH]; intros r k cols Hr.
  { exists 0. cbn. rewrite app_nil_r, Nat.add_0_r. by destruct r. }
  apply Forall_cons_1 in Hr as [Hrow Hr]. cbn [append_loop]. fold cols. rewrite (row_bytes_spec row cols 0) by lia.
  cbn [mbind outcome_bind]. destruct (mem k) eqn:Em; cbn [negb].
  - rewrite copy_row_spec by (rewrite ?drop_0; lia). cbn [mbind outcome_bind]. rewrite drop_0, Z.eqb_refl. cbn [negb app].
    destruct (IH (mdv_rowset_emplace r (take cols row)) (S k) Hr) as (m & -> & Hm & Hall). exists (S m). cbn.
    split_and!; [|lia|intros Ht; by rewrite (Hall Ht)]. rewrite <- app_assoc. apply f_equal, pair_equal_spec. split; [done|lia].
  - exists 0. cbn. rewrite app_nil_r, Nat.add_0_r. split_and!; [by destruct r|lia|]. intros Ht. by rewrite Ht in Em.
Qed.

Lemma enumerate_from r rc i fuel :
  length (rs_rows r) - i < fuel -> i <= length (rs_rows r) ->
  enumerate fuel r (mk_rowset_enum rc (match i with 0 => None | S i => Some i end)) = Done (drop i (rs_rows r)).
Proof.
  revert i. induction fuel as [|fuel IH]; intros i Hf Hi; [lia|]. cbn [enumerate]. unfold mdv_rowset_enumerator_next.
  cbn [re_current re_rc]. replace (match match i with 0 => None | S i0 => Some i0 end with None => 0 | Some i0 => S i0 end) with i
    by by destruct i.
  destruct (Nat.ltb_spec i (length (rs_rows r))) as [Hlt|Hge].
  - rewrite decide_True by done. destruct (lookup_lt_is_Some_2 (rs_rows r) i Hlt) as [row Hrow].
    unfold mdv_rowset_enumerator_current. cbn [re_current]. rewrite Hrow. cbn [deref mbind outcome_bind].
    rewrite (IH (S i)) by lia. cbn [mbind outcome_bind]. by rewrite (drop_S _ row i Hrow).
  - rewrite decide_False by done. by rewrite drop_ge by lia.
Qed.

(** ** Theorems *)

(** a table created from a description, or a slice of a table by a mask of
    its columns, has the fields the mask keeps, in their order, with their types,
    limits and names; the block that is allocated holds exactly the structure,
    the fields and the strings that are written into it (the assertion at the
    end holds).  Without memory the result is null. *)
Theorem mdv_table_slice_correct t l mask id :
  desc_ok (tb_desc t) l -> Bitset.wf mask -> length l <= mdv_bitset_capacity mask ->
  mdv_table_slice true t mask
    = Done (Some (mk_table 1 (tb_id t) (mk_desc (td_name (tb_desc t)) (length (pick (Some mask) 0 l)) (Some <$> pick (Some mask) 0 l))))
  /\ mdv_table_create true id (tb_desc t) = Done (Some (mk_table 1 id (tb_desc t)))
  /\ mdv_table_slice false t mask = Done None /\ mdv_table_create false id (tb_desc t) = Done None.
Proof.
  intros Hd Hw Hc. destruct (table_create_impl_spec (tb_desc t) l (Some mask) Hd (conj Hw Hc) (tb_id t)) as [E1 E2].
  destruct (table_create_impl_spec (tb_desc t) l None Hd I id) as [E3 E4]. rewrite pick_all, <- (proj2 Hd), <- (proj1 Hd) in E3.
  split_and!; [exact E1|by destruct (tb_desc t)|exact E2|exact E4].
Qed.

(** extending a description appends the field, or leaves the fields as they
    were when memory runs out; after a success the fields are read from the
    current array. *)
Theorem mdv_table_desc_append_correct mem_vec mem_name d l f :
  dynamic_ok d l -> (Z.of_nat (length l) + 1 < 2 ^ 32)%Z ->
  exists d' ok, mdv_table_desc_append mem_vec mem_name d f = Done (d', ok)
    /\ (ok = true -> dynamic_ok d' (l ++ [f]) /\ dynamic_fields d' = Done (Some <$> (l ++ [f])))
    /\ (ok = false -> dynamic_ok d' l /\ (mem_vec = false \/ mem_name = false)).
Proof.
  intros Hd Hl. destruct (append_runs mem_vec mem_name d l f Hd Hl) as (d' & ok & E & Ht & Hf). exists d', ok.
  split; [done|]. split; [|done]. intros Hok. destruct (Ht Hok) as [Hd' Hc]. split; [done|]. by apply dynamic_fields_ok.
Qed.

(** rows appended to a set are enumerated in order, each cut to the columns
    of the table; when memory runs out the rows before are kept, and the count
    says how many there are.  The enumeration ends. *)
Theorem mdv_rowset_append_enumerate mem r rows rc :
  let cols := td_size (tb_desc (rs_table r)) in
  Forall (fun row => cols <= length row) rows ->
  exists r' m, mdv_rowset_append mem r rows = Done (r', m)
    /\ m <= length rows /\ ((forall i, mem i = true) -> m = length rows)
    /\ enumerate (S (length (rs_rows r'))) r' (mk_rowset_enum rc None) = Done (rs_rows r ++ (take cols <$> take m rows)).
Proof.
  intros cols Hr. destruct (append_loop_spec mem rows r 0 Hr) as (m & E & Hm & Hall).
  eexists _, m. split; [exact E|]. split; [done|]. split; [done|]. by rewrite (enumerate_from _ rc 0) by lia.
Qed.

(** a datum holds a copy of the whole items of its argument, for every type
    but the text; for a text the zero behind the characters is written one byte
    behind the block, which is allocated without room for it. *)
Theorem mdv_datum_create_bounds type v :
  mdv_field_type_size type <> 0 ->
  mdv_datum_create true type v (length v)
  = if decide (type = MDV_FLD_TYPE_CHAR) then OutOfBounds (Z.of_nat (length v))
    else Done (Some (mk_datum type (take (mdv_field_type_size type * (length v / mdv_field_type_size type)) v))).
Proof.
  intros Hs. unfold mdv_datum_create, mdv_datum_type_create. rewrite (proj2 (Nat.eqb_neq _ _) Hs). cbn [negb].
  pose proof (Nat.Div0.mul_div_le (length v) (mdv_field_type_size type)) as Hle.
  destruct (Nat.ltb_spec (length v) (mdv_field_type_size type * (length v / mdv_field_type_size type))); [lia|].
  destruct (decide (type = MDV_FLD_TYPE_CHAR)) as [->|Hn].
  - change (mdv_field_type_size MDV_FLD_TYPE_CHAR) with 1. rewrite Nat.div_1_r, Nat.mul_1_l, Nat.ltb_irrefl. done.
  - by rewrite (proj2 (Z.eqb_neq _ _) Hn).
Qed.

(** ** Examples *)

Definition demo_fields : list mdv_field :=
  [mk_fld MDV_FLD_TYPE_UINT64 1 [105; 100]%Z; mk_fld MDV_FLD_TYPE_CHAR 0 [110]%Z; mk_fld MDV_FLD_TYPE_INT16 4 [118]%Z].
Definition demo_desc : mdv_table_desc := mk_desc [116]%Z 3 (Some <$> demo_fields).
Definition demo_table : mdv_table := mk_table 1 (mk_uuid 1 2) demo_desc.
Definition demo_mask : mdv_bitset := mk_bitset 1 3 [5]%Z.

Lemma demo_mask_wf : Bitset.wf demo_mask.
Proof. split; [done|]. repeat constructor; vm_compute; congruence. Qed.

Lemma mdv_table_slice_correct_witness :
  mdv_table_slice true demo_table demo_mask
  = Done (Some (mk_table 1 (mk_uuid 1 2)
      (mk_desc [116]%Z 2 [Some (mk_fld MDV_FLD_TYPE_UINT64 1 [105; 100]%Z); Some (mk_fld MDV_FLD_TYPE_INT16 4 [118]%Z)]))).
Proof.
  refine (proj1 (mdv_table_slice_correct demo_table demo_fields demo_mask (mk_uuid 0 0) (conj eq_refl eq_refl) demo_mask_wf _)).
  vm_compute. lia.
Defined.

Definition demo_dynamic : dynamic_desc := mk_dynamic true [116]%Z 0 (mk_vector 1 2 0 16 [None; None]) [[116]%Z] true.

Lemma demo_dynamic_ok : dynamic_ok demo_dynamic [].
Proof. split; [done|split; [done..|by exists [None; None]]|vm_compute; done|done]. Qed.

Lemma mdv_table_desc_append_correct_witness :
  exists d', mdv_table_desc_append true true demo_dynamic (mk_fld MDV_FLD_TYPE_BYTE 0 [110]%Z) = Done (d', true)
    /\ dynamic_fields d' = Done [Some (mk_fld MDV_FLD_TYPE_BYTE 0 [110]%Z)].
Proof.
  destruct (mdv_table_desc_append_correct true true demo_dynamic [] (mk_fld MDV_FLD_TYPE_BYTE 0 [110]%Z) demo_dynamic_ok
              ltac:(cbn; lia)) as (d' & [] & E & Ht & Hf).
  - exists d'. split; [exact E|apply (proj2 (Ht eq_refl))].
  - by destruct (proj2 (Hf eq_refl)).
Defined.

(** When the array has grown and the name cannot be allocated, the description
    still points to the old array. *)
Example append_leaves_stale_array :
  let f := mk_fld MDV_FLD_TYPE_BYTE 0 [110]%Z in
  (d1 ← mdv_table_desc_append true true demo_dynamic f;
   d2 ← mdv_table_desc_append true true d1.1 f;
   d3 ← mdv_table_desc_append true false d2.1 f;
   dynamic_fields d3.1) = OutOfBounds 0.
Proof. vm_compute. reflexivity. Qed.

Lemma mdv_rowset_append_enumerate_witness :
  exists r', mdv_rowset_append (fun i => i <? 2) (mk_rowset 1 demo_table []) (replicate 3 [[1]; [2]; [3]]%Z) = Done (r', 2)
    /\ enumerate 3 r' (mk_rowset_enum 1 None) = Done (replicate 2 [[1]; [2]; [3]]%Z).
Proof.
  destruct (mdv_rowset_append_enumerate (fun i => i <? 2) (mk_rowset 1 demo_table []) (replicate 3 [[1]; [2]; [3]]%Z) 1
              ltac:(repeat constructor)) as (r' & m & E & Hm & _ & He).
  vm_compute in E. injection E as <- <-. eexists. split; [vm_compute; reflexivity|exact He].
Defined.

Lemma mdv_datum_create_bounds_witness :
  mdv_datum_create true MDV_FLD_TYPE_INT16 [1; 2; 3; 4; 5]%Z 5 = Done (Some (mk_datum MDV_FLD_TYPE_INT16 [1; 2; 3; 4]%Z))
  /\ mdv_datum_create true MDV_FLD_TYPE_CHAR [104; 105]%Z 2 = OutOfBounds 2.
Proof.
  split; [exact (mdv_datum_create_bounds MDV_FLD_TYPE_INT16 [1; 2; 3; 4; 5]%Z ltac:(done))
         |exact (mdv_datum_create_bounds MDV_FLD_TYPE_CHAR [104; 105]%Z ltac:(done))].
Defined.

End Types.
