(* ===== verification/Serialization.v ===== *)
(** * Serialization (src/mdv_types/mdv_serialization.c)

    Table descriptions, tables, rows, sets of rows, topologies, identifiers and
    bit sets as binn documents, and back.  The writers give up when memory runs
    out; the readers compute the size of the block they need, allocate it and
    fill it at a running offset, where an offset behind the block, an index
    behind an array or a failed assertion is [OutOfBounds]. *)

From stdpp Require Import strings.
From S2P Require Import Prelude Bitset Uuid Vector Binn Types Topology.
Import Bitset Uuid Vector Binn Types Topology.

Module Serialization.
Local Open Scope string_scope.
Local Open Scope nat_scope.
Local Open Scope list_scope.

(** ** Writing *)

Definition binn_field (f : mdv_field) : writer binn :=
  obj <~ binn_create_object;;
  obj <~ binn_object_set obj "T" (B_int (u32 (fld_type f)));;
  obj <~ binn_object_set obj "L" (B_int (u32 (fld_limit f)));;
  binn_object_set obj "N" (B_str (fld_name f)).

(** The number of [n] bytes at a pointer. *)
Definition read_as (data : bytes) (n : nat) : outcome Z :=
  if length data <? n then OutOfBounds (Z.of_nat (length data)) else Done (of_le (take n data)).

Definition binn_add_to_list (list : binn) (type : Z) (data : bytes) : writer binn :=
  match type with
  | 1%Z => v <~ w_out (read_as data 1);; binn_list_add list (B_bool (negb (v =? 0)%Z))
  | 2%Z => v <~ w_out (read_as data 1);; binn_list_add list (B_int (i8 v))
  | 3%Z => v <~ w_out (read_as data 1);; binn_list_add list (B_int (i8 v))
  | 4%Z => v <~ w_out (read_as data 1);; binn_list_add list (B_int (i8 v))
  | 5%Z => v <~ w_out (read_as data 1);; binn_list_add list (B_int v)
  | 6%Z => v <~ w_out (read_as data 2);; binn_list_add list (B_int (i16 v))
  | 7%Z => v <~ w_out (read_as data 2);; binn_list_add list (B_int v)
  | 8%Z => v <~ w_out (read_as data 4);; binn_list_add list (B_int (i32 v))
  | 9%Z => v <~ w_out (read_as data 4);; binn_list_add list (B_int v)
  | 10%Z => v <~ w_out (read_as data 8);; binn_list_add list (B_int (i64 v))
  | 11%Z => v <~ w_out (read_as data 8);; binn_list_add list (B_int v)
  | 12%Z => v <~ w_out (read_as data 4);; binn_list_add list (B_float v)
  | 13%Z => v <~ w_out (read_as data 8);; binn_list_add list (B_double v)
  | _ => w_fail
  end.

(** The loop over the fields of a description. *)
Fixpoint binn_fields_loop (t : mdv_table_desc) (n i : nat) (fields : binn) : writer binn :=
  match n with
  | 0 => w_ret fields
  | S n =>
      f <~ w_out (field_at t i);;
      field <~ binn_field f;;
      fields <~ binn_list_add fields field;;
      binn_fields_loop t n (S i) fields
  end.

Definition mdv_binn_table_desc (t : mdv_table_desc) : writer binn :=
  obj <~ binn_create_object;;
  obj <~ binn_object_set obj "N" (B_str (td_name t));;
  obj <~ binn_object_set obj "S" (B_int (u32 (Z.of_nat (td_size t))));;
  fields <~ binn_create_list;;
  fields <~ binn_fields_loop t (td_size t) 0 fields;;
  binn_object_set obj "F" fields.

Definition mdv_binn_table_uuid (uuid : mdv_uuid) (obj : binn) : writer binn :=
  obj <~ binn_object_set obj "U0" (B_int (u64_0 uuid));;
  binn_object_set obj "U1" (B_int (u64_1 uuid)).

Definition mdv_binn_table (t : mdv_table) : writer binn :=
  obj <~ binn_create_object;;
  desc <~ mdv_binn_table_desc (tb_desc t);;
  obj <~ mdv_binn_table_uuid (tb_id t) obj;;
  binn_object_set obj "D" desc.

(** The items [j], [j + 1], ... of a field of several items. *)
Fixpoint binn_items_loop (type : Z) (ts : nat) (data : bytes) (n j : nat) (items : binn) : writer binn :=
  match n with
  | 0 => w_ret items
  | S n =>
      items <~ binn_add_to_list items type (drop (j * ts) data);;
      binn_items_loop type ts data n (S j) items
  end.

(** One field of a row. *)
Definition binn_row_field (f : mdv_field) (data : bytes) (list : binn) : writer binn :=
  let ts := mdv_field_type_size (fld_type f) in
  if (ts =? 0)%nat then w_fail else
  if negb (length data mod ts =? 0)%nat then w_fail else
  let arr_size := u32 (Z.of_nat (length data / ts)) in
  if negb (fld_limit f =? 0)%Z && (fld_limit f <? arr_size)%Z then w_fail else
  if (fld_limit f =? 1)%Z then binn_add_to_list list (fld_type f) data
  else if (ts =? 1)%nat then
    if (2 ^ 31 <=? arr_size)%Z then w_fail else binn_list_add list (B_blob (take (Z.to_nat arr_size) data))
  else
    items <~ binn_create_list;;
    items <~ binn_items_loop (fld_type f) ts data (Z.to_nat arr_size) 0 items;;
    binn_list_add list items.

Fixpoint binn_row_loop (row : mdv_row) (t : mdv_table_desc) (n i : nat) (list : binn) : writer binn :=
  match n with
  | 0 => w_ret list
  | S n =>
      f <~ w_out (field_at t i);;
      data <~ w_out (read row i);;
      list <~ binn_row_field f data list;;
      binn_row_loop row t n (S i) list
  end.

Definition mdv_binn_row (row : mdv_row) (t : mdv_table_desc) : writer binn :=
  list <~ binn_create_list;;
  binn_row_loop row t (td_size t) 0 list.

(** [while (mdv_enumerator_next(enumerator) == MDV_OK) ...] *)
Fixpoint binn_rows_loop (fuel : nat) (r : mdv_rowset) (e : rowset_enumerator) (list : binn) : writer binn :=
  match fuel with
  | 0 => w_out OutOfFuel
  | S fuel =>
      let '(e, err) := mdv_rowset_enumerator_next r e in
      if decide (err = MDV_OK) then
        row <~ w_out (deref (mdv_rowset_enumerator_current r e));;
        fields <~ mdv_binn_row row (tb_desc (rs_table r));;
        list <~ binn_list_add list fields;;
        binn_rows_loop fuel r e list
      else w_ret list
  end.

Definition mdv_binn_rowset (fuel : nat) (r : mdv_rowset) : writer binn :=
  list <~ binn_create_list;;
  _ <~ w_request;;
  binn_rows_loop fuel r (mk_rowset_enum 1 None) list.

Definition binn_node (n : mdv_toponode) : writer binn :=
  node <~ binn_create_object;;
  node <~ binn_object_set node "ID" (B_int (u32 (n_id n)));;
  node <~ binn_object_set node "U1" (B_int (u64_0 (n_uuid n)));;
  node <~ binn_object_set node "U2" (B_int (u64_1 (n_uuid n)));;
  binn_object_set node "A" (B_str (n_addr n)).

Fixpoint binn_nodes_loop (l : list mdv_toponode) (nodes : binn) : writer binn :=
  match l with
  | [] => w_ret nodes
  | n :: l => node <~ binn_node n;; nodes <~ binn_list_add nodes node;; binn_nodes_loop l nodes
  end.

(** The object lies in a buffer on the stack, which has room for its three
    numbers. *)
Definition binn_link (l : mdv_topolink) : binn :=
  B_object [("U1", B_int (u32 (node0 l))); ("U2", B_int (u32 (node1 l))); ("W", B_int (u32 (weight l)))].

Fixpoint binn_links_loop (l : list mdv_topolink) (links : binn) : writer binn :=
  match l with
  | [] => w_ret links
  | x :: l => links <~ binn_list_add links (binn_link x);; binn_links_loop l links
  end.

Definition mdv_topology_serialize (t : mdv_topology) : writer binn :=
  obj <~ binn_create_object;;
  nodes <~ binn_create_list;;
  links <~ binn_create_list;;
  nodes <~ binn_nodes_loop (t_nodes t) nodes;;
  links <~ binn_links_loop (t_links t) links;;
  obj <~ binn_object_set obj "NC" (B_int (Z.of_nat (length (t_nodes t))));;
  obj <~ binn_object_set obj "LC" (B_int (Z.of_nat (length (t_links t))));;
  obj <~ binn_object_set obj "ES" (B_int (Z.of_nat (length (t_extradata t))));;
  obj <~ match t_nodes t with [] => w_ret obj | _ => binn_object_set obj "N" nodes end;;
  match t_links t with [] => w_ret obj | _ => binn_object_set obj "L" links end.

Definition mdv_binn_uuid (uuid : mdv_uuid) : writer binn :=
  obj <~ binn_create_object;;
  obj <~ binn_object_set obj "U1" (B_int (u64_0 uuid));;
  binn_object_set obj "U2" (B_int (u64_1 uuid)).

Fixpoint binn_words_loop (words : list Z) (obj : binn) : writer binn :=
  match words with
  | [] => w_ret obj
  | w :: words => obj <~ binn_list_add obj (B_int (i32 w));; binn_words_loop words obj
  end.

Definition mdv_binn_bitset (b : mdv_bitset) : writer binn :=
  obj <~ binn_create_list;;
  if length (mdv_bitset_data b) <? mdv_bitset_capacity b / 32 then w_out (OutOfBounds (Z.of_nat (length (mdv_bitset_data b))))
  else binn_words_loop (take (mdv_bitset_capacity b / 32) (mdv_bitset_data b)) obj.

(** ** Reading *)

Section Reading.
Context `{Binn}.

Definition binn_get (val : binn) (type : Z) : option bytes :=
  match type with
  | 1%Z => (fun b : bool => [if b then 1 else 0]%Z) <$> binn_get_bool val
  | 2%Z | 3%Z | 4%Z | 5%Z => to_le 1 <$> binn_get_int32 val
  | 6%Z | 7%Z => to_le 2 <$> binn_get_int32 val
  | 8%Z => to_le 4 <$> binn_get_int32 val
  | 9%Z => to_le 4 <$> binn_get_int64 val
  | 10%Z | 11%Z => to_le 8 <$> binn_get_int64 val
  | 12%Z => (fun x => to_le 4 (f64_to_f32 x)) <$> binn_get_double val
  | 13%Z => to_le 8 <$> binn_get_double val
  | _ => None
  end.

(** [sizeof(mdv_table_desc)] *)
Definition sizeof_desc : Z := 24.

(** The sum of the sizes of the names of the fields. *)
Fixpoint names_loop (items : list binn) (size : Z) : option Z :=
  match items with
  | [] => Some size
  | value :: items =>
      match binn_object_get_str value "N" with
      | None => None
      | Some name => names_loop items (u32 (size + Z.of_nat (length name) + 1))
      end
  end.

(** The fields are written to their cells and their names to the offset [buff]
    of a block of [size] bytes; a field behind the cells would overwrite the
    name of the table. *)
Fixpoint fields_loop (items : list binn) (count : Z) (size : Z) (i : nat) (buff : Z) (cells : list (option mdv_field))
  : outcome (option (list (option mdv_field))) :=
  match items with
  | [] => Done (Some cells)
  | value :: items =>
      if (count <? Z.of_nat i)%Z then Done None else
      if (count <=? Z.of_nat i)%Z then OutOfBounds (Z.of_nat i) else
      match binn_object_get_uint32 value "T", binn_object_get_uint32 value "L", binn_object_get_str value "N" with
      | Some type, Some limit, Some name =>
          buff ← put_string size buff name;
          fields_loop items count size (S i) buff (<[i := Some (mk_fld type limit name)]> cells)
      | _, _, _ => Done None
      end
  end.

Definition mdv_unbinn_table_desc (mem : bool) (obj : binn) : outcome (option mdv_table_desc) :=
  match binn_object_get_str obj "N", binn_object_get_uint32 obj "S", binn_object_get_list obj "F" with
  | Some name, Some fields_count, Some binn_fields =>
      let size := u32 (sizeof_desc + fields_count * sizeof_field + Z.of_nat (length name) + 1) in
      match names_loop (binn_items binn_fields) size with
      | None => Done None
      | Some size =>
          if negb mem then Done None else
          if (size <? sizeof_desc)%Z then OutOfBounds size else
          buff ← put_string size (sizeof_desc + fields_count * sizeof_field) name;
          cells ← fields_loop (binn_items binn_fields) fields_count size 0 buff (replicate (Z.to_nat fields_count) None);
          Done (match cells with Some cells => Some (mk_desc name (Z.to_nat fields_count) cells) | None => None end)
      end
  | _, _, _ => Done None
  end.

Definition mdv_unbinn_table_uuid (obj : binn) : option mdv_uuid :=
  match binn_object_get_uint64 obj "U0", binn_object_get_uint64 obj "U1" with
  | Some a, Some b => Some (mk_uuid a b)
  | _, _ => None
  end.

(** [mem_desc], [mem]: the description and the table are allocated. *)
Definition mdv_unbinn_table (mem_desc mem : bool) (obj : binn) : outcome (option mdv_table) :=
  match mdv_unbinn_table_uuid obj, binn_object_get_object obj "D" with
  | Some id, Some desc =>
      desc ← mdv_unbinn_table_desc mem_desc desc;
      match desc with
      | None => Done None
      | Some desc => mdv_table_create mem id desc
      end
  | _, _ => Done None
  end.

(** Bytes of a block are written and read; a write behind its end is out of bounds. *)
Definition write_at (block : bytes) (pos : Z) (data : bytes) : outcome bytes :=
  if (pos + Z.of_nat (length data) <=? Z.of_nat (length block))%Z
  then Done (take (Z.to_nat pos) block ++ data ++ drop (Z.to_nat pos + length data) block)
  else OutOfBounds (Z.of_nat (length block)).

Definition read_at (block : bytes) (pos size : Z) : bytes := take (Z.to_nat size) (drop (Z.to_nat pos) block).

(** The field [idx] of the row in the block at the address [entry]: its [size] and
    [ptr] go to the array of the fields, its data to [pos]. *)
Definition put_field (entry : Z) (idx : nat) (pos : Z) (data block : bytes) : outcome (Z * bytes) :=
  block ← write_at block (row_header + sizeof_data * Z.of_nat idx) (to_le 8 (Z.of_nat (length data)) ++ to_le 8 (entry + pos));
  block ← write_at block pos data;
  Done ((pos + Z.of_nat (length data))%Z, block).

(** What the field [idx] of a finished row points to. *)
Definition field_of (entry : Z) (block : bytes) (idx : nat) : bytes :=
  let fld := (row_header + sizeof_data * Z.of_nat idx)%Z in
  read_at block (u64 (of_le (read_at block (fld + 8) 8) - entry)) (of_le (read_at block fld 8)).

(** A table as a row: its identifier and its name (with the last zero).  The
    mask decides on the size of the block and the number of the fields; both fields
    are written.  [entry]: the address of the block. *)
Definition mdv_unbinn_table_as_row_slice (mem : bool) (entry : Z) (obj : binn) (mask : option mdv_bitset) : outcome (option mdv_row) :=
  sel0 ← selected mask 0;
  sel1 ← selected mask 1;
  let uuid := if (sel0 : bool) then mdv_unbinn_table_uuid obj else Some (mk_uuid 0 0) in
  let name := if (sel1 : bool) then
                match binn_object_get_object obj "D" with
                | Some desc => (fun s : bytes => s ++ [0%Z]) <$> binn_object_get_str desc "N"
                | None => None
                end
              else Some [] in
  match uuid, name with
  | Some uuid, Some name =>
      let fields_num := (if sel0 then 1 else 0) + (if sel1 then 1 else 0) in
      let row_size := ((if sel0 then 16 else 0) + Z.of_nat (length name) + row_header + sizeof_data * Z.of_nat fields_num)%Z in
      if (fields_num =? 0)%nat then Done None else
      if negb mem then Done None else
      let pos := (row_header + sizeof_data * Z.of_nat fields_num)%Z in
      r ← put_field entry 0 pos (u8s uuid) (replicate (Z.to_nat row_size) 0%Z);
      r ← put_field entry 1 r.1 name r.2;
      if negb (r.1 =? row_size)%Z then OutOfBounds r.1 else Done (Some (field_of entry r.2 <$> seq 0 fields_num))
  | _, _ => Done None
  end.

(** The size of the data of a row and the number of its fields. *)
Fixpoint calc_loop (t : mdv_table_desc) (mask : option mdv_bitset) (items : list binn) (n : nat) (row_size : Z) (count : nat)
  : outcome (Z * nat) :=
  match items with
  | [] => Done (row_size, count)
  | value :: items =>
      sel ← selected mask n;
      if negb sel then calc_loop t mask items (S n) row_size count else
      f ← field_at t n;
      let ts := mdv_field_type_size (fld_type f) in
      let add := if (fld_limit f =? 1)%Z then Z.of_nat ts
                 else if (ts =? 1)%nat then Z.of_nat (length (binn_data value))
                 else u32 (Z.of_nat ts * mdv_binn_list_length value) in
      calc_loop t mask items (S n) (row_size + add)%Z (S count)
  end.

(** The size is 0 for a row of too many fields. *)
Definition mdv_calc_row_size (list : binn) (t : mdv_table_desc) (mask : option mdv_bitset) : outcome (Z * nat) :=
  '(row_size, count) ← calc_loop t mask (binn_items list) 0 0 0;
  if td_size t <? count then Done (0%Z, count)
  else Done (row_size + row_header + sizeof_data * Z.of_nat count, count)%Z.

(** The items of a field of several items: the bytes, [None] when one is not of
    the type. *)
Fixpoint array_loop (type : Z) (items : list binn) (row_size pos : Z) (acc : bytes) : outcome (option (bytes * Z)) :=
  match items with
  | [] => Done (Some (acc, pos))
  | v :: items =>
      match binn_get v type with
      | None => Done None
      | Some b =>
          let pos' := (pos + Z.of_nat (length b))%Z in
          if (pos' <=? row_size)%Z then array_loop type items row_size pos' (acc ++ b) else OutOfBounds row_size
      end
  end.

(** The bytes of one field and the offset behind them. *)
Definition unbinn_field (f : mdv_field) (value : binn) (row_size pos : Z) : outcome (option (bytes * Z)) :=
  let ts := mdv_field_type_size (fld_type f) in
  if (fld_limit f =? 1)%Z then array_loop (fld_type f) [value] row_size pos []
  else if (ts =? 1)%nat then
    let pos' := (pos + Z.of_nat (length (binn_data value)))%Z in
    if (pos' <=? row_size)%Z then Done (Some (binn_data value, pos')) else OutOfBounds row_size
  else array_loop (fld_type f) (binn_items value) row_size pos [].

Fixpoint unbinn_row_loop (t : mdv_table_desc) (mask : option mdv_bitset) (count : nat) (row_size : Z) (items : list binn)
    (n : nat) (pos : Z) (row : mdv_row) : outcome (option (mdv_row * Z)) :=
  match items with
  | [] => Done (Some (row, pos))
  | value :: items =>
      sel ← selected mask n;
      if negb sel then unbinn_row_loop t mask count row_size items (S n) pos row else
      f ← field_at t n;
      r ← unbinn_field f value row_size pos;
      match r with
      | None => Done None
      | Some (data, pos) =>
          if count <=? length row then OutOfBounds (Z.of_nat (length row))
          else unbinn_row_loop t mask count row_size items (S n) pos (row ++ [data])
      end
  end.

Definition mdv_unbinn_row_slice (mem : bool) (list : binn) (t : mdv_table_desc) (mask : option mdv_bitset)
  : outcome (option mdv_row) :=
  '(row_size, count) ← mdv_calc_row_size list t mask;
  if (row_size =? 0)%Z then Done None else
  if negb mem then Done None else
  r ← unbinn_row_loop t mask count row_size (binn_items list) 0 (row_header + sizeof_data * Z.of_nat count)%Z [];
  match r with
  | None => Done None
  | Some (row, pos) => if negb (pos =? row_size)%Z then OutOfBounds pos else Done (Some row)
  end.

Definition mdv_unbinn_row (mem : bool) (list : binn) (t : mdv_table_desc) : outcome (option mdv_row) :=
  mdv_unbinn_row_slice mem list t None.

(** [mem i]: the row [i] is allocated. *)
Fixpoint unbinn_rows_loop (mem : nat -> bool) (items : list binn) (i : nat) (r : mdv_rowset) : outcome (option mdv_rowset) :=
  match items with
  | [] => Done (Some r)
  | value :: items =>
      row ← mdv_unbinn_row (mem i) value (tb_desc (rs_table r));
      match row with
      | None => Done None
      | Some row => unbinn_rows_loop mem items (S i) (mdv_rowset_emplace r row)
      end
  end.

Definition mdv_unbinn_rowset (mem_set : bool) (mem : nat -> bool) (list : binn) (table : mdv_table) : outcome (option mdv_rowset) :=
  match mdv_rowset_create mem_set table with
  | None => Done None
  | Some r => unbinn_rows_loop mem (binn_items list) 0 r
  end.

(** The items of a vector. *)
Definition items_of {A} (v : mdv_vector (I := A)) : list A := omap id (take (Z.to_nat (v_size v)) (v_data v)).

(** [mdv_vector_append(extradata, addr, strlen(addr) + 1)] and the address it
    returns: a null pointer, or the addresses handed out before when the array
    is moved, are of no use to the nodes. *)
Definition append_addr (extra : mdv_vector (I := Z)) (addr : bytes) : outcome (mdv_vector (I := Z)) :=
  '(extra', p) ← mdv_vector_append 64 true extra (addr ++ [0%Z]);
  if is_some p && ((v_capacity extra' =? v_capacity extra)%Z || (v_size extra =? 0)%Z) then Done extra' else OutOfBounds (-1).

(** The loops over the nodes and the links; a vector grows with memory. *)
Fixpoint load_nodes (items : list binn) (count : Z) (i : Z) (nodes : mdv_vector (I := mdv_toponode)) (extra : mdv_vector (I := Z))
  : outcome (option (mdv_vector (I := mdv_toponode) * mdv_vector (I := Z))) :=
  match items with
  | [] => Done (Some (nodes, extra))
  | value :: items =>
      if (count <? i)%Z then Done None else
      match binn_object_get_uint32 value "ID", binn_object_get_uint64 value "U1", binn_object_get_uint64 value "U2",
            binn_object_get_str value "A" with
      | Some id, Some a, Some b, Some addr =>
          extra ← append_addr extra addr;
          '(nodes, _) ← mdv_vector_push_back 64 true nodes (mk_node (mk_uuid a b) id addr);
          load_nodes items count (i + 1) nodes extra
      | _, _, _, _ => Done None
      end
  end.

Fixpoint load_links (items : list binn) (nodes_count count : Z) (i : Z) (links : mdv_vector (I := mdv_topolink))
  : outcome (option (mdv_vector (I := mdv_topolink))) :=
  match items with
  | [] => Done (Some links)
  | value :: items =>
      if (count <? i)%Z then Done None else
      match binn_object_get_uint32 value "U1", binn_object_get_uint32 value "U2", binn_object_get_uint32 value "W" with
      | Some a, Some b, Some w =>
          if (nodes_count <=? a)%Z || (nodes_count <=? b)%Z then Done None else
          '(links, _) ← mdv_vector_push_back 64 true links (mk_link a b w);
          load_links items nodes_count count (i + 1) links
      | _, _, _ => Done None
      end
  end.

(** [mem]: the three vectors and their arrays, the topology and its map are
    allocated. *)
Definition mdv_topology_deserialize (qsort : list mdv_toponode -> list mdv_toponode) (mem : nat -> bool) (obj : binn)
  : outcome (option mdv_topology) :=
  match binn_object_get_uint64 obj "NC", binn_object_get_uint64 obj "LC", binn_object_get_uint64 obj "ES" with
  | Some nodes_count, Some links_count, Some extradata_size =>
      let nodes := if (nodes_count =? 0)%Z then Some [] else binn_items <$> binn_object_get_list obj "N" in
      let links := if (links_count =? 0)%Z then Some [] else binn_items <$> binn_object_get_list obj "L" in
      match nodes, links with
      | Some nodes, Some links =>
          match mdv_vector_create (mem 0) (mem 1) nodes_count 32, mdv_vector_create (mem 2) (mem 3) links_count 12,
                mdv_vector_create (mem 4) (mem 5) extradata_size 1 with
          | Some toponodes, Some topolinks, Some extradata =>
              r ← load_nodes nodes nodes_count 0 toponodes extradata;
              match r with
              | None => Done None
              | Some (toponodes, extradata) =>
                  r ← load_links links nodes_count links_count 0 topolinks;
                  match r with
                  | None => Done None
                  | Some topolinks =>
                      mdv_topology_create qsort (mem 6) (mem 7) (mem 8) (fun i => (mem (9 + 2 * i), mem (10 + 2 * i)))
                        (items_of toponodes) (items_of topolinks) (items_of extradata)
                  end
              end
          | _, _, _ => Done None
          end
      | _, _ => Done None
      end
  | _, _, _ => Done None
  end.

Definition mdv_unbinn_uuid (obj : binn) : option mdv_uuid :=
  match binn_object_get_uint64 obj "U1", binn_object_get_uint64 obj "U2" with
  | Some a, Some b => Some (mk_uuid a b)
  | _, _ => None
  end.

Fixpoint words_loop (items : list binn) (n : nat) (b : mdv_bitset) : outcome (option mdv_bitset) :=
  match items with
  | [] => Done (Some b)
  | value :: items =>
      match binn_get_int32 value with
      | None => Done None
      | Some w =>
          if length (bs_bits b) <=? n then OutOfBounds (Z.of_nat n)
          else words_loop items (S n) (mk_bitset (bs_rc b) (bs_size b) (<[n := u32 w]> (bs_bits b)))
      end
  end.

(** [mem]: what the allocator returns for the bit set. *)
Definition mdv_unbinn_bitset (mem : option (list Z)) (obj : binn) : outcome (option mdv_bitset) :=
  match mdv_bitset_create mem (Z.to_nat (mdv_binn_list_length obj) * 32) with
  | None => Done None
  | Some b => words_loop (binn_items obj) 0 b
  end.

End Reading.

(** ** Elements *)

(** The value that stands for an item of a field. *)
Definition elem_of (type : Z) (b : bytes) : binn :=
  let v := of_le b in
  match type with
  | 1%Z => B_bool (negb (v =? 0)%Z)
  | 2%Z | 3%Z | 4%Z => B_int (i8 v)
  | 6%Z => B_int (i16 v)
  | 8%Z => B_int (i32 v)
  | 10%Z => B_int (i64 v)
  | 12%Z => B_float v
  | 13%Z => B_double v
  | _ => B_int v
  end.

(** The items that survive: a boolean is 0 or 1, an unsigned number of 64 bits
    is below 2^63, a float is no signalling NaN. *)
Record elem_ok (type : Z) (b : bytes) : Prop := {
  el_size : length b = mdv_field_type_size type;
  el_bytes : Forall is_byte b;
  el_bool : type = MDV_FLD_TYPE_BOOL -> (of_le b = 0 \/ of_le b = 1)%Z;
  el_uint64 : type = MDV_FLD_TYPE_UINT64 -> (of_le b < 2 ^ 63)%Z;
  el_float : type = MDV_FLD_TYPE_FLOAT -> ~ signalling (of_le b)
}.

Lemma type_cases t :
  mdv_field_type_size t <> 0 -> t ∈ [1; 2; 3; 4; 5; 6; 7; 8; 9; 10; 11; 12; 13]%Z.
Proof.
  intros Ht. destruct t as [|p|p]; [done| |done].
  rewrite !elem_of_cons. do 5 (try destruct p as [p|p|]); first [exfalso; by apply Ht|tauto].
Qed.

Ltac type_case Ht :=
  apply type_cases in Ht; rewrite !elem_of_cons, elem_of_nil in Ht;
  destruct Ht as [-> | [-> | [-> | [-> | [-> | [-> | [-> | [-> | [-> | [-> | [-> | [-> | [-> | []]]]]]]]]]]]]].

Lemma read_as_app b rest : read_as (b ++ rest) (length b) = Done (of_le b).
Proof.
  unfold read_as. rewrite length_app, take_app_length. destruct (Nat.ltb_spec (length b + length rest) (length b)); [lia|done].
Qed.

Lemma makes_add_elem l type b rest :
  mdv_field_type_size type <> 0 -> length b = mdv_field_type_size type ->
  makes (binn_add_to_list (B_list l) type (b ++ rest)) (B_list (l ++ [elem_of type b])).
Proof.
  intros Ht Hb. pose proof (read_as_app b rest) as Hr. rewrite Hb in Hr.
  type_case Ht; unfold binn_add_to_list; (eapply makes_bind; [apply makes_out; exact Hr|apply makes_list_add]).
Qed.

Section RoundTrip.
Context `{BinnLaws}.

Lemma in_range_ok lo hi z : (lo <= z <= hi)%Z -> in_range lo hi z = Some z.
Proof. intros. unfold in_range. rewrite (proj2 (Z.leb_le lo z)), (proj2 (Z.leb_le z hi)) by lia. done. Qed.

Lemma get_elem type b :
  mdv_field_type_size type <> 0 -> elem_ok type b -> binn_get (elem_of type b) type = Some b.
Proof.
  intros Ht [Hl Hb Hbool Hu Hf]. pose proof (of_le_bound b Hb) as Hv. pose proof (to_of_le b Hb) as Hto.
  assert (Hs : forall n, length b = n -> to_le n (swrap (8 * Z.of_nat n) (of_le b)) = b) by (intros n <-; by rewrite to_le_swrap).
  type_case Ht; rewrite Hl in Hv, Hto; cbn in Hl; unfold elem_of, binn_get; cbn [mdv_field_type_size] in *.
  all: rewrite ?get_int32_int, ?get_int64_int, ?get_bool_bool, ?get_double_float, ?get_double_double.
  all: try (rewrite in_range_ok; [cbn [fmap option_fmap option_map]; f_equal; first [exact Hto | exact (Hs _ Hl)]|]).
  all: try match goal with |- context [swrap ?w ?z] => pose proof (swrap_bounds w z ltac:(lia)); lia end.
  all: try (specialize (Hu eq_refl)); try lia.
  - destruct b as [|c [|]]; [done| |done]. cbn in *. destruct (Hbool eq_refl) as [E|E]; rewrite E; cbn; do 2 f_equal; lia.
  - cbn [fmap option_fmap option_map]. rewrite f32_roundtrip by (auto; lia). by f_equal.
  - cbn [fmap option_fmap option_map]. by f_equal.
Qed.

(** ** Fields and rows *)

(** The [n] items of [ts] bytes in [data]. *)
Fixpoint chunks (ts n : nat) (data : bytes) : list bytes :=
  match n with 0 => [] | S n => take ts data :: chunks ts n (drop ts data) end.

Lemma length_chunks ts n data : length (chunks ts n data) = n.
Proof. revert data. induction n; intros; cbn; auto. Qed.

Lemma concat_chunks ts n data : length data = n * ts -> concat (chunks ts n data) = data.
Proof.
  revert data. induction n as [|n IH]; intros data Hl; cbn; [by destruct data|].
  rewrite IH by (rewrite length_drop; lia). apply take_drop.
Qed.

(** The items of the bytes of a field. *)
Definition items (f : mdv_field) (data : bytes) : list bytes :=
  let ts := mdv_field_type_size (fld_type f) in chunks ts (length data / ts) data.

(** The bytes are of the type of the field and within its limit. *)
Record field_ok (f : mdv_field) (data : bytes) : Prop := {
  fo_type : mdv_field_type_size (fld_type f) <> 0;
  fo_whole : length data mod mdv_field_type_size (fld_type f) = 0;
  fo_size : (Z.of_nat (length data) < 2 ^ 31)%Z;
  fo_limit : fld_limit f = 0%Z \/ (Z.of_nat (length data / mdv_field_type_size (fld_type f)) <= fld_limit f)%Z;
  fo_single : fld_limit f = 1%Z -> length data = mdv_field_type_size (fld_type f);
  fo_bytes : Forall is_byte data;
  fo_items : fld_limit f = 1%Z \/ mdv_field_type_size (fld_type f) <> 1 -> Forall (elem_ok (fld_type f)) (items f data)
}.

(** The value that stands for a field. *)
Definition field_doc (f : mdv_field) (data : bytes) : binn :=
  if (fld_limit f =? 1)%Z then elem_of (fld_type f) data
  else if (mdv_field_type_size (fld_type f) =? 1)%nat then B_blob data
  else B_list (elem_of (fld_type f) <$> items f data).

Section Field.
Context (f : mdv_field) (data : bytes) (Hf : field_ok f data).
Local Abbreviation ts := (mdv_field_type_size (fld_type f)).

Lemma field_length : length data = length data / ts * ts.
Proof.
  pose proof (Nat.div_mod (length data) ts (fo_type _ _ Hf)). pose proof (fo_whole _ _ Hf). lia.
Qed.

Lemma count_bound : (0 <= Z.of_nat (length data / ts) < 2 ^ 31)%Z.
Proof.
  pose proof (fo_size _ _ Hf). pose proof (fo_type _ _ Hf). pose proof field_length. nia.
Qed.

Lemma single_item : fld_limit f = 1%Z -> items f data = [data].
Proof.
  intros Hl. pose proof (fo_single _ _ Hf Hl) as E. unfold items. rewrite E, Nat.div_same by apply Hf. cbn.
  by rewrite firstn_all2 by lia.
Qed.

Lemma length_items : length (items f data) = length data / ts.
Proof. apply length_chunks. Qed.

Lemma concat_items : concat (items f data) = data.
Proof. apply concat_chunks. apply field_length. Qed.

Lemma makes_items_loop n j done_ :
  j + n = length data / ts ->
  makes (binn_items_loop (fld_type f) ts data n j (B_list done_))
        (B_list (done_ ++ (elem_of (fld_type f) <$> chunks ts n (drop (j * ts) data)))).
Proof.
  revert j done_. induction n as [|n IH]; intros j done_ Hj; cbn [binn_items_loop chunks fmap list_fmap].
  { rewrite app_nil_r. apply makes_ret. }
  eapply makes_bind.
  - rewrite <- (take_drop ts (drop (j * ts) data)) at 1. apply makes_add_elem; [apply Hf|].
    rewrite length_take, length_drop. pose proof field_length. nia.
  - rewrite drop_drop. replace (j * ts + ts) with (S j * ts) by lia.
    specialize (IH (S j) (done_ ++ [elem_of (fld_type f) (take ts (drop (j * ts) data))]) ltac:(lia)). by rewrite <- app_assoc in IH.
Qed.

Lemma makes_row_field l : makes (binn_row_field f data (B_list l)) (B_list (l ++ [field_doc f data])).
Proof.
  unfold binn_row_field, field_doc. pose proof count_bound as Hc.
  rewrite (proj2 (Nat.eqb_neq _ _) (fo_type _ _ Hf)), (proj2 (Nat.eqb_eq _ _) (fo_whole _ _ Hf)). cbn [negb].
  rewrite wrap_id by (split; lia).
  assert (negb (fld_limit f =? 0)%Z && (fld_limit f <? Z.of_nat (length data / ts))%Z = false) as ->.
  { destruct (fo_limit _ _ Hf) as [-> | Hl]; [done|]. apply andb_false_intro2. apply Z.ltb_ge. exact Hl. }
  destruct (Z.eqb_spec (fld_limit f) 1) as [H1|H1].
  - rewrite <- (app_nil_r data) at 1. apply makes_add_elem; [apply Hf|by apply Hf].
  - destruct (Nat.eqb_spec ts 1) as [Ht|Ht].
    + destruct (Z.leb_spec (2 ^ 31) (Z.of_nat (length data / ts))); [lia|]. rewrite Nat2Z.id, Ht, Nat.div_1_r, firstn_all.
      apply makes_list_add.
    + step_writer. rewrite Nat2Z.id. eapply makes_bind; [apply makes_items_loop; lia|]. cbn [Nat.mul drop app]. apply makes_list_add.
Qed.

(** What the reader of a row adds to its size for the field. *)
Lemma field_add :
  (if (fld_limit f =? 1)%Z then Z.of_nat ts
   else if (ts =? 1)%nat then Z.of_nat (length (binn_data (field_doc f data)))
   else u32 (Z.of_nat ts * mdv_binn_list_length (field_doc f data))) = Z.of_nat (length data).
Proof.
  unfold field_doc. destruct (Z.eqb_spec (fld_limit f) 1) as [H1|H1]; [by rewrite (fo_single _ _ Hf H1)|].
  destruct (Nat.eqb_spec ts 1); [done|]. unfold mdv_binn_list_length. rewrite items_list, length_fmap, length_items.
  pose proof count_bound. pose proof field_length. pose proof (fo_size _ _ Hf).
  rewrite (wrap_id 32 (Z.of_nat (length data / ts))), wrap_id by (split; nia). nia.
Qed.

Lemma array_loop_spec l row_size pos acc :
  Forall (elem_ok (fld_type f)) l -> (pos + Z.of_nat (length (concat l)) <= row_size)%Z ->
  array_loop (fld_type f) (elem_of (fld_type f) <$> l) row_size pos acc
  = Done (Some (acc ++ concat l, (pos + Z.of_nat (length (concat l)))%Z)).
Proof.
  intros Hl. revert pos acc. induction Hl as [|b l Hb Hl IH]; intros pos acc Hp; cbn [fmap list_fmap array_loop concat].
  { cbn. by rewrite app_nil_r, Z.add_0_r. }
  cbn [concat] in Hp. rewrite length_app in *. rewrite (get_elem _ b (fo_type _ _ Hf) Hb).
  destruct (Z.leb_spec (pos + Z.of_nat (length b)) row_size); [|lia]. rewrite IH by lia.
  rewrite <- app_assoc. apply f_equal, f_equal, pair_equal_spec. split; [done|lia].
Qed.

Lemma unbinn_field_spec row_size pos :
  (pos + Z.of_nat (length data) <= row_size)%Z ->
  unbinn_field f (field_doc f data) row_size pos = Done (Some (data, (pos + Z.of_nat (length data))%Z)).
Proof.
  intros Hp. unfold unbinn_field, field_doc. pose proof concat_items as Hcc.
  destruct (Z.eqb_spec (fld_limit f) 1) as [H1|H1].
  - pose proof (fo_items _ _ Hf (or_introl H1)) as Hit. rewrite (single_item H1) in Hit.
    pose proof (array_loop_spec [data] row_size pos [] Hit) as Ha. cbn [concat app fmap list_fmap] in Ha.
    rewrite app_nil_r in Ha. by apply Ha.
  - destruct (Nat.eqb_spec ts 1) as [Ht|Ht].
    + cbn [binn_data]. destruct (Z.leb_spec (pos + Z.of_nat (length data)) row_size); [done|lia].
    + rewrite items_list, array_loop_spec, Hcc; [done|by apply Hf; right|by rewrite Hcc].
Qed.

End Field.

(** A row of a table with the fields [l], and its document. *)
Definition row_ok (l : list mdv_field) (row : mdv_row) : Prop := Forall2 field_ok l row.
Definition row_doc (l : list mdv_field) (row : mdv_row) : binn := B_list (zip_with field_doc l row).

Section Row.
Context (t : mdv_table_desc) (l : list mdv_field) (row : mdv_row) (mask : option mdv_bitset).
Context (Hd : desc_ok t l) (Hr : row_ok l row) (Hm : covers mask (length l)).

Lemma row_length : length row = length l.
Proof. symmetry. by eapply Forall2_length. Qed.

Lemma row_at i : i < length l -> exists f data, l !! i = Some f /\ row !! i = Some data /\ field_ok f data.
Proof.
  intros Hi. destruct (lookup_lt_is_Some_2 l i Hi) as [f Hf]. destruct (Forall2_lookup_l _ _ _ _ _ Hr Hf) as (data & Hdata & Ho).
  by exists f, data.
Qed.

Lemma makes_row_loop n i docs :
  i + n = length l ->
  makes (binn_row_loop row t n i (B_list docs)) (B_list (docs ++ zip_with field_doc (drop i l) (drop i row))).
Proof.
  revert i docs. induction n as [|n IH]; intros i docs Hi; cbn [binn_row_loop].
  { rewrite !drop_ge by (rewrite ?row_length; lia). rewrite app_nil_r. apply makes_ret. }
  destruct (row_at i ltac:(lia)) as (f & data & Hf & Hdata & Ho). rewrite (drop_S l f i Hf), (drop_S row data i Hdata).
  eapply makes_bind; [apply makes_out; by apply (field_at_ok t l)|].
  eapply makes_bind; [apply makes_out; by apply read_Done|]. eapply makes_bind; [by apply makes_row_field|].
  specialize (IH (S i) (docs ++ [field_doc f data]) ltac:(lia)). by rewrite <- app_assoc in IH.
Qed.

Lemma makes_row : makes (mdv_binn_row row t) (row_doc l row).
Proof.
  unfold mdv_binn_row. step_writer. rewrite (proj2 Hd). by apply (makes_row_loop (length l) 0 []).
Qed.

Definition data_size (r : mdv_row) : Z := Z.of_nat (length (concat r)).

Lemma calc_loop_spec n i row_size count :
  i + n = length l ->
  calc_loop t mask (zip_with field_doc (drop i l) (drop i row)) i row_size count
  = Done ((row_size + data_size (pick mask i (drop i row)))%Z, count + length (pick mask i (drop i row))).
Proof.
  revert i row_size count. induction n as [|n IH]; intros i row_size count Hi.
  { rewrite !drop_ge by (rewrite ?row_length; lia). cbn. by rewrite Z.add_0_r, Nat.add_0_r. }
  destruct (row_at i ltac:(lia)) as (f & data & Hf & Hdata & Ho). rewrite (drop_S l f i Hf), (drop_S row data i Hdata).
  cbn [zip_with calc_loop pick]. rewrite (selected_keeps mask (length l)) by (done || lia). cbn [mbind outcome_bind].
  destruct (keeps mask i); cbn [negb]; [|by rewrite IH by lia].
  rewrite (field_at_ok t l i f Hd Hf). cbn [mbind outcome_bind]. rewrite (field_add f data Ho), IH by lia.
  unfold data_size. cbn [concat length]. rewrite length_app. apply f_equal, pair_equal_spec. split; lia.
Qed.

Lemma unbinn_row_loop_spec count row_size n i pos acc :
  i + n = length l -> count = length acc + length (pick mask i (drop i row)) ->
  (pos + data_size (pick mask i (drop i row)) <= row_size)%Z ->
  unbinn_row_loop t mask count row_size (zip_with field_doc (drop i l) (drop i row)) i pos acc
  = Done (Some (acc ++ pick mask i (drop i row), (pos + data_size (pick mask i (drop i row)))%Z)).
Proof.
  revert i pos acc. induction n as [|n IH]; intros i pos acc Hi Hc Hp.
  { rewrite !drop_ge by (rewrite ?row_length; lia). cbn. by rewrite app_nil_r, Z.add_0_r. }
  destruct (row_at i ltac:(lia)) as (f & data & Hf & Hdata & Ho). rewrite (drop_S l f i Hf), (drop_S row data i Hdata) in *.
  cbn [zip_with unbinn_row_loop pick] in *. rewrite (selected_keeps mask (length l)) by (done || lia). cbn [mbind outcome_bind].
  destruct (keeps mask i); cbn [negb]; [|by rewrite IH by (lia || done)].
  unfold data_size in *. cbn [concat length] in *. rewrite length_app in *.
  rewrite (field_at_ok t l i f Hd Hf). cbn [mbind outcome_bind]. rewrite (unbinn_field_spec f data Ho) by lia.
  cbn [mbind outcome_bind]. destruct (Nat.leb_spec count (length acc)); [lia|].
  rewrite IH by (rewrite ?length_app; cbn; lia). rewrite <- app_assoc.
  apply f_equal, f_equal, pair_equal_spec. split; [done|lia].
Qed.

Lemma pick_length {A} i (x : list A) : length (pick mask i x) <= length x.
Proof. revert i. induction x as [|a x IH]; intros i; cbn; [done|]. destruct (keeps mask i); cbn; specialize (IH (S i)); lia. Qed.

Lemma unbinn_row_spec :
  mdv_unbinn_row_slice true (row_doc l row) t mask = Done (Some (pick mask 0 row))
  /\ mdv_unbinn_row_slice false (row_doc l row) t mask = Done None.
Proof.
  assert (Hc : mdv_calc_row_size (row_doc l row) t mask
    = Done ((data_size (pick mask 0 row) + row_header + sizeof_data * Z.of_nat (length (pick mask 0 row)))%Z, length (pick mask 0 row))).
  { unfold mdv_calc_row_size, row_doc. rewrite items_list. pose proof (calc_loop_spec (length l) 0 0 0 ltac:(lia)) as E.
    rewrite !drop_0 in E. rewrite E. cbn [mbind outcome_bind]. cbn [Nat.add].
    destruct (Nat.ltb_spec (td_size t) (length (pick mask 0 row))) as [Hlt|]; [|done].
    rewrite (proj2 Hd) in Hlt. pose proof (pick_length 0 row). rewrite row_length in *. lia. }
  unfold mdv_unbinn_row_slice. rewrite Hc. cbn [mbind outcome_bind]. assert (0 <= data_size (pick mask 0 row))%Z by (unfold data_size; lia).
  match goal with |- context [(?a =? 0)%Z] => destruct (Z.eqb_spec a 0); [unfold row_header, sizeof_data in *; lia|] end.
  cbn [negb]. split; [|done]. unfold row_doc. rewrite items_list.
  pose proof (unbinn_row_loop_spec (length (pick mask 0 row))
     (data_size (pick mask 0 row) + row_header + sizeof_data * Z.of_nat (length (pick mask 0 row)))%Z (length l) 0
     (row_header + sizeof_data * Z.of_nat (length (pick mask 0 row)))%Z []) as E. rewrite !drop_0 in E.
  rewrite E by (cbn; lia). cbn [mbind outcome_bind app].
  match goal with |- context [(?a =? ?b)%Z] => destruct (Z.eqb_spec a b); [done|lia] end.
Qed.

End Row.
(** ** Rows that are refused *)

(** The type is unknown, the bytes are no whole items, or there are too many. *)
Definition bad_field (f : mdv_field) (data : bytes) : Prop :=
  let ts := mdv_field_type_size (fld_type f) in
  ts = 0 \/ length data mod ts <> 0
  \/ (fld_limit f <> 0 /\ Z.of_nat (length data / ts) < 2 ^ 32 /\ fld_limit f < Z.of_nat (length data / ts))%Z.

Lemma row_field_refused f data list mem n : bad_field f data -> binn_row_field f data list mem n = Done (None, n).
Proof.
  intros Hb. unfold binn_row_field. destruct (Nat.eqb_spec (mdv_field_type_size (fld_type f)) 0) as [|Ht]; [done|].
  destruct (Nat.eqb_spec (length data mod mdv_field_type_size (fld_type f)) 0) as [Hm|]; cbn [negb]; [|done].
  destruct Hb as [|[|(Hz & Hc & Hlt)]]; [done..|]. rewrite wrap_id by (split; lia).
  rewrite (proj2 (Z.eqb_neq _ _) Hz), (proj2 (Z.ltb_lt _ _) Hlt). done.
Qed.

Lemma row_loop_refused t l row i f data n k docs :
  desc_ok t l -> l !! i = Some f -> row !! i = Some data -> bad_field f data ->
  (forall j g d, j < i -> l !! j = Some g -> row !! j = Some d -> field_ok g d) -> k <= i -> k + n = length l ->
  forall mem m, exists m', binn_row_loop row t n k (B_list docs) mem m = Done (None, m').
Proof.
  intros Hd Hf Hdata Hb Hok. revert k docs. induction n as [|n IH]; intros k docs Hk Hn mem m.
  { apply lookup_lt_Some in Hf. lia. }
  cbn [binn_row_loop]. destruct (lookup_lt_is_Some_2 l k ltac:(apply lookup_lt_Some in Hf; lia)) as [g Hg].
  destruct (lookup_lt_is_Some_2 row k ltac:(apply lookup_lt_Some in Hdata; lia)) as [d Hdk].
  unfold w_bind at 1, w_out at 1. rewrite (field_at_ok t l k g Hd Hg). cbn [mbind outcome_bind].
  unfold w_bind at 1, w_out at 1. rewrite (read_Done _ _ _ Hdk). cbn [mbind outcome_bind].
  destruct (decide (k = i)) as [->|Hne].
  - simplify_eq. unfold w_bind. rewrite (row_field_refused f data _ mem m Hb). cbn. by exists m.
  - destruct (makes_row_field g d (Hok k g d ltac:(lia) Hg Hdk) docs) as [Hm _]. unfold w_bind.
    destruct (Hm mem m) as (m1 & [-> | ->]); cbn; [by exists m1|]. apply IH; lia.
Qed.

(** ** Sets of rows *)

Lemma makes_rows_loop l r rc n i docs :
  desc_ok (tb_desc (rs_table r)) l -> Forall (row_ok l) (rs_rows r) -> i + n = length (rs_rows r) ->
  makes (binn_rows_loop (S n) r (mk_rowset_enum rc (match i with 0 => None | S i => Some i end)) (B_list docs))
        (B_list (docs ++ (row_doc l <$> drop i (rs_rows r)))).
Proof.
  intros Hd Hr. revert i docs. induction n as [|n IH]; intros i docs Hi; cbn [binn_rows_loop]; unfold mdv_rowset_enumerator_next;
    cbn [re_current re_rc];
    replace (match match i with 0 => None | S i0 => Some i0 end with None => 0 | Some i0 => S i0 end) with i by by destruct i.
  - destruct (Nat.ltb_spec i (length (rs_rows r))); [lia|]. rewrite decide_False by done. rewrite drop_ge by lia.
    rewrite app_nil_r. apply makes_ret.
  - destruct (Nat.ltb_spec i (length (rs_rows r))) as [Hlt|]; [|lia]. rewrite decide_True by done.
    destruct (lookup_lt_is_Some_2 _ _ Hlt) as [row Hrow]. rewrite (drop_S _ row i Hrow).
    eapply makes_bind; [apply makes_out; unfold mdv_rowset_enumerator_current; cbn [re_current]; by rewrite Hrow|].
    eapply makes_bind; [apply makes_row; [exact Hd|by eapply Forall_lookup_1]|]. step_writer.
    specialize (IH (S i) (docs ++ [row_doc l row]) ltac:(lia)). by rewrite <- app_assoc in IH.
Qed.

Lemma unbinn_rows_spec l mem rows i r :
  desc_ok (tb_desc (rs_table r)) l -> Forall (row_ok l) rows -> (forall i, mem i = true) ->
  unbinn_rows_loop mem (row_doc l <$> rows) i r = Done (Some (mk_rowset (rs_rc r) (rs_table r) (rs_rows r ++ rows))).
Proof.
  intros Hd Hr Hm. revert i r Hd. induction Hr as [|row rows Hrow Hr IH]; intros i r Hd; cbn [fmap list_fmap unbinn_rows_loop].
  { rewrite app_nil_r. by destruct r. }
  unfold mdv_unbinn_row. rewrite Hm, (proj1 (unbinn_row_spec _ l row None Hd Hrow I)), pick_all. cbn [mbind outcome_bind].
  rewrite IH by done. cbn. by rewrite <- app_assoc.
Qed.

(** ** Tables *)

Definition field_object (f : mdv_field) : binn :=
  B_object [("T", B_int (fld_type f)); ("L", B_int (fld_limit f)); ("N", B_str (fld_name f))].

(** Numbers of 32 bits. *)
Definition field_fits (f : mdv_field) : Prop := fits 32 (fld_type f) /\ fits 32 (fld_limit f).

Lemma makes_field f : field_fits f -> makes (binn_field f) (field_object f).
Proof.
  intros [Ht Hl]. unfold binn_field. rewrite (wrap_id _ _ Ht), (wrap_id _ _ Hl). do 3 step_writer. by apply makes_object_set; [cbn; lia|].
Qed.

Lemma makes_fields_loop t l n i docs :
  desc_ok t l -> Forall field_fits l -> i + n = length l ->
  makes (binn_fields_loop t n i (B_list docs)) (B_list (docs ++ (field_object <$> drop i l))).
Proof.
  intros Hd Hl. revert i docs. induction n as [|n IH]; intros i docs Hi; cbn [binn_fields_loop].
  { rewrite drop_ge by lia. rewrite app_nil_r. apply makes_ret. }
  destruct (lookup_lt_is_Some_2 l i ltac:(lia)) as [f Hf]. rewrite (drop_S l f i Hf).
  eapply makes_bind; [apply makes_out; by apply (field_at_ok t l)|].
  eapply makes_bind; [apply makes_field; by eapply Forall_lookup_1|]. step_writer.
  specialize (IH (S i) (docs ++ [field_object f]) ltac:(lia)). by rewrite <- app_assoc in IH.
Qed.

Definition desc_object (t : mdv_table_desc) (l : list mdv_field) : binn :=
  B_object [("N", B_str (td_name t)); ("S", B_int (Z.of_nat (td_size t))); ("F", B_list (field_object <$> l))].

(** The size of the block a description is read into. *)
Definition desc_size (t : mdv_table_desc) (l : list mdv_field) : Z :=
  (sizeof_desc + Z.of_nat (length l) * sizeof_field + Z.of_nat (length (td_name t)) + 1 + names_size l)%Z.

Section Table.
Context (t : mdv_table_desc) (l : list mdv_field).
Context (Hd : desc_ok t l) (Hl : Forall field_fits l) (Hsz : (desc_size t l < 2 ^ 32)%Z).

Lemma makes_table_desc : makes (mdv_binn_table_desc t) (desc_object t l).
Proof.
  unfold mdv_binn_table_desc. do 2 step_writer. rewrite wrap_id.
  2: { rewrite (proj2 Hd). unfold desc_size, sizeof_desc, sizeof_field in Hsz. pose proof (names_size_pos l). split; lia. }
  step_writer. step_writer. rewrite (proj2 Hd) at 1.
  eapply makes_bind; [by apply (makes_fields_loop t l (length l) 0 [])|]. rewrite drop_0. by apply makes_object_set; [cbn; lia|].
Qed.

Lemma get_str_object f : binn_object_get_str (field_object f) "N" = Some (fld_name f).
Proof. unfold binn_object_get_str, binn_object_get_value, field_object. by rewrite pairs_object. Qed.

Lemma names_loop_spec k size :
  Forall field_fits k -> (0 <= size)%Z -> (size + names_size k < 2 ^ 32)%Z ->
  names_loop (field_object <$> k) size = Some (size + names_size k)%Z.
Proof.
  intros Hk. revert size. induction Hk as [|f k _ _ IH]; intros size Hpos Hs; cbn [fmap list_fmap names_loop].
  { cbn. by rewrite Z.add_0_r. }
  cbn [names_size foldr] in *. fold (names_size k) in *. pose proof (names_size_pos k).
  rewrite get_str_object, wrap_id by (split; lia). rewrite IH by lia. f_equal. lia.
Qed.

Lemma fields_loop_spec k size i buff cells :
  Forall field_fits k -> i + length k = length l -> length cells = length l ->
  (buff + names_size k <= size)%Z ->
  fields_loop (field_object <$> k) (Z.of_nat (length l)) size i buff cells = Done (Some (take i cells ++ (Some <$> k))).
Proof.
  intros Hk. revert i buff cells. induction Hk as [|f k [Ht Hlim] Hk IH]; intros i buff cells Hi Hc Hb; cbn [fmap list_fmap fields_loop length] in *.
  { rewrite app_nil_r, firstn_all2 by lia. done. }
  cbn [names_size foldr] in Hb. fold (names_size k) in Hb. pose proof (names_size_pos k).
  destruct (Z.ltb_spec (Z.of_nat (length l)) (Z.of_nat i)); [lia|]. destruct (Z.leb_spec (Z.of_nat (length l)) (Z.of_nat i)); [lia|].
  unfold binn_object_get_uint32, binn_object_get_value. rewrite get_str_object. unfold field_object at 1 2. rewrite !pairs_object.
  cbn [find_key same_key]. change (same_key "T" "T") with true. change (same_key "T" "L") with false. change (same_key "L" "L") with true.
  cbn iota. unfold fits in *. rewrite !in_range_ok by lia. unfold put_string.
  destruct (Z.leb_spec (buff + Z.of_nat (length (fld_name f)) + 1) size); [|lia]. cbn [mbind outcome_bind].
  rewrite IH by (rewrite ?length_insert; lia). f_equal. f_equal. destruct f. cbn.
  rewrite (take_S_r _ i (Some (mk_fld fld_type0 fld_limit0 fld_name0))) by (apply list_lookup_insert_eq; lia).
  rewrite take_insert_ge by lia. by rewrite <- app_assoc.
Qed.

Lemma unbinn_table_desc_spec :
  mdv_unbinn_table_desc true (desc_object t l) = Done (Some t) /\ mdv_unbinn_table_desc false (desc_object t l) = Done None.
Proof.
  pose proof (names_size_pos l). pose proof Hsz as Hsz'. unfold desc_size in Hsz'.
  unfold mdv_unbinn_table_desc, binn_object_get_str, binn_object_get_uint32, binn_object_get_list, binn_object_get_value, desc_object.
  rewrite pairs_object. cbn [find_key]. change (same_key "N" "N") with true. change (same_key "N" "S") with false.
  change (same_key "S" "S") with true. change (same_key "N" "F") with false. change (same_key "S" "F") with false.
  change (same_key "F" "F") with true. cbn iota. rewrite (proj2 Hd), in_range_ok by (unfold sizeof_desc, sizeof_field in *; lia).
  cbn [is_container]. rewrite items_list, wrap_id by (unfold sizeof_desc, sizeof_field in *; split; lia).
  rewrite names_loop_spec by (done || (unfold sizeof_desc, sizeof_field in *; lia)). cbn [negb]. split; [|done].
  match goal with |- context [(?a <? sizeof_desc)%Z] => destruct (Z.ltb_spec a sizeof_desc); [unfold sizeof_desc, sizeof_field in *; lia|] end.
  unfold put_string. match goal with |- context [(?a <=? ?b)%Z] => destruct (Z.leb_spec a b); [|lia] end. cbn [mbind outcome_bind].
  rewrite fields_loop_spec by (rewrite ?length_replicate, ?Nat2Z.id; done || lia). cbn [mbind outcome_bind].
  rewrite take_0, Nat2Z.id. cbn [app]. rewrite <- (proj1 Hd), <- (proj2 Hd). by destruct t.
Qed.

End Table.
(** ** Vectors with room *)

Lemma append_fits {A} (v : mdv_vector (I := A)) l x :
  holds v l -> (0 < v_capacity v < 2 ^ 63)%Z -> (Z.of_nat (length l) + Z.of_nat (length x) <= v_capacity v)%Z ->
  exists v', mdv_vector_append 64 true v x = Done (v', Some (Z.of_nat (length l))) /\ holds v' (l ++ x) /\ v_capacity v' = v_capacity v.
Proof.
  intros Hh Hc Hx. unfold mdv_vector_append, mdv_vector_resize_if_required. rewrite (h_size _ _ Hh).
  rewrite (wrap_id 64 (Z.of_nat (length l) + _)) by (split; lia).
  destruct (grow_loop_64 (Z.of_nat (length l) + Z.of_nat (length x)) (v_capacity v) Hc ltac:(lia)) as (c & -> & _ & _ & _ & He).
  rewrite (He Hx). destruct (Z.gtb_spec (v_capacity v) (v_capacity v)); [lia|]. rewrite (h_size _ _ Hh), (wrap_id 64) by (split; lia).
  eexists. split; [done|]. split; [|done]. pose proof (holds_write v l x Hh Hx) as Hw.
  rewrite (h_size _ _ Hh), length_app, Nat2Z.inj_add in Hw. exact Hw.
Qed.

Lemma holds_empty {A} capacity item_size (v : mdv_vector (I := A)) :
  (0 <= capacity)%Z -> (0 < item_size)%Z -> mdv_vector_create true true capacity item_size = Some v ->
  holds v [] /\ v_capacity v = capacity.
Proof.
  intros Hc Hi [= <-]. split; [|done]. split; cbn; [done|rewrite length_replicate; lia|done|by eexists].
Qed.

Lemma items_of_holds {A} (v : mdv_vector (I := A)) l : holds v l -> items_of v = l.
Proof.
  intros [Hs _ _ [rest Hr]]. unfold items_of. rewrite Hs, Nat2Z.id, Hr, take_app_length' by (by rewrite length_fmap).
  clear. induction l as [|a l IH]; [done|]. cbn. by f_equal.
Qed.

(** ** Topologies *)

Definition node_object (n : mdv_toponode) : binn :=
  B_object [("ID", B_int (n_id n)); ("U1", B_int (u64_0 (n_uuid n))); ("U2", B_int (u64_1 (n_uuid n))); ("A", B_str (n_addr n))].

Definition node_fits (n : mdv_toponode) : Prop := fits 32 (n_id n) /\ Uuid.wf (n_uuid n).

Lemma makes_node n : node_fits n -> makes (binn_node n) (node_object n).
Proof. intros [Hi _]. unfold binn_node. rewrite (wrap_id _ _ Hi). do 4 step_writer. by apply makes_object_set; [cbn; lia|]. Qed.

Lemma makes_nodes_loop l docs :
  Forall node_fits l -> makes (binn_nodes_loop l (B_list docs)) (B_list (docs ++ (node_object <$> l))).
Proof.
  intros Hl. revert docs. induction Hl as [|n l Hn _ IH]; intros docs; cbn [binn_nodes_loop fmap list_fmap].
  { rewrite app_nil_r. apply makes_ret. }
  eapply makes_bind; [by apply makes_node|]. step_writer. specialize (IH (docs ++ [node_object n])). by rewrite <- app_assoc in IH.
Qed.

Lemma makes_links_loop l docs : makes (binn_links_loop l (B_list docs)) (B_list (docs ++ (binn_link <$> l))).
Proof.
  revert docs. induction l as [|x l IH]; intros docs; cbn [binn_links_loop fmap list_fmap].
  { rewrite app_nil_r. apply makes_ret. }
  step_writer. specialize (IH (docs ++ [binn_link x])). by rewrite <- app_assoc in IH.
Qed.

Definition topology_object (t : mdv_topology) : binn :=
  B_object ([("NC", B_int (Z.of_nat (length (t_nodes t)))); ("LC", B_int (Z.of_nat (length (t_links t))));
             ("ES", B_int (Z.of_nat (length (t_extradata t))))]
            ++ match t_nodes t with [] => [] | _ => [("N", B_list (node_object <$> t_nodes t))] end
            ++ match t_links t with [] => [] | _ => [("L", B_list (binn_link <$> t_links t))] end).

Lemma makes_topology t : Forall node_fits (t_nodes t) -> makes (mdv_topology_serialize t) (topology_object t).
Proof.
  intros Hn. unfold mdv_topology_serialize. do 3 step_writer. eapply makes_bind; [by apply (makes_nodes_loop _ [])|].
  eapply makes_bind; [apply (makes_links_loop _ [])|]. do 3 step_writer. unfold topology_object.
  destruct (t_nodes t) as [|n ns].
  - step_writer. destruct (t_links t) as [|x xs]; [apply makes_ret|]. by apply makes_object_set; [cbn; lia|].
  - step_writer. destruct (t_links t) as [|x xs]; [apply makes_ret|]. by apply makes_object_set; [cbn; lia|].
Qed.

(** The addresses of the nodes, each with its last zero. *)
Definition addrs (l : list mdv_toponode) : bytes := concat ((fun n => n_addr n ++ [0%Z]) <$> l).

Lemma load_nodes_spec k count i done_ nodes ex extra :
  Forall node_fits k -> (i + Z.of_nat (length k) <= count)%Z -> (count < 2 ^ 63)%Z ->
  holds nodes done_ -> v_capacity nodes = count -> i = Z.of_nat (length done_) ->
  holds extra ex -> (0 < v_capacity extra < 2 ^ 63)%Z -> (Z.of_nat (length ex) + Z.of_nat (length (addrs k)) <= v_capacity extra)%Z ->
  exists nodes' extra', load_nodes (node_object <$> k) count i nodes extra = Done (Some (nodes', extra'))
    /\ holds nodes' (done_ ++ k) /\ holds extra' (ex ++ addrs k).
Proof.
  intros Hk. revert i done_ nodes ex extra. induction Hk as [|n k [Hid [Hu0 Hu1]] Hk IH]; intros i done_ nodes ex extra Hi Hcnt Hn Hcap Hlen He Hecap Hroom;
    cbn [fmap list_fmap load_nodes length] in *.
  { exists nodes, extra. by rewrite !app_nil_r. }
  destruct (Z.ltb_spec count i); [lia|].
  unfold binn_object_get_uint32, binn_object_get_uint64, binn_object_get_str, binn_object_get_value, node_object at 1 2 3 4. rewrite !pairs_object.
  cbn [find_key]. change (same_key "ID" "ID") with true. change (same_key "ID" "U1") with false. change (same_key "U1" "U1") with true.
  change (same_key "ID" "U2") with false. change (same_key "U1" "U2") with false. change (same_key "U2" "U2") with true.
  change (same_key "ID" "A") with false. change (same_key "U1" "A") with false. change (same_key "U2" "A") with false.
  change (same_key "A" "A") with true. cbn iota. unfold fits in *. rewrite !in_range_ok by lia.
  unfold addrs in Hroom. cbn [fmap list_fmap concat] in Hroom. rewrite length_app in Hroom. fold (addrs k) in Hroom.
  unfold append_addr. destruct (append_fits extra ex (n_addr n ++ [0%Z]) He Hecap ltac:(lia)) as (extra1 & -> & He1 & Hc1).
  cbn [mbind outcome_bind is_some]. rewrite Hc1, Z.eqb_refl. cbn [orb andb mbind outcome_bind].
  destruct (append_fits nodes done_ [n] Hn ltac:(lia) ltac:(cbn; lia)) as (nodes1 & E1 & Hn1 & Hcn1).
  assert (mk_node (mk_uuid (u64_0 (n_uuid n)) (u64_1 (n_uuid n))) (n_id n) (n_addr n) = n) as -> by by destruct n as [[] ? ?].
  rewrite push_back_append, E1. cbn [mbind outcome_bind].
  destruct (IH (i + 1)%Z (done_ ++ [n]) nodes1 (ex ++ n_addr n ++ [0%Z]) extra1) as (nodes' & extra' & E & R1 & R2);
    try done; try lia; [rewrite length_app; cbn; lia|rewrite Hc1, length_app; lia|].
  exists nodes', extra'. split; [exact E|]. rewrite <- !app_assoc in *. split; [done|]. unfold addrs. cbn. by rewrite <- app_assoc.
Qed.

Definition link_fits (nodes : Z) (l : mdv_topolink) : Prop :=
  (0 <= node0 l < nodes)%Z /\ (0 <= node1 l < nodes)%Z /\ fits 32 (weight l).

Lemma load_links_spec k nodes_count count i done_ links :
  Forall (link_fits nodes_count) k -> (nodes_count < 2 ^ 32)%Z -> (i + Z.of_nat (length k) <= count)%Z -> (count < 2 ^ 63)%Z ->
  holds links done_ -> v_capacity links = count -> i = Z.of_nat (length done_) ->
  exists links', load_links (binn_link <$> k) nodes_count count i links = Done (Some links') /\ holds links' (done_ ++ k).
Proof.
  intros Hk Hnc. revert i done_ links. induction Hk as [|x k (Ha & Hb & Hw) Hk IH]; intros i done_ links Hi Hcnt Hh Hcap Hlen;
    cbn [fmap list_fmap load_links length] in *.
  { exists links. by rewrite app_nil_r. }
  destruct (Z.ltb_spec count i); [lia|]. unfold binn_object_get_uint32, binn_object_get_value, binn_link at 1 2 3. rewrite !pairs_object.
  cbn [find_key]. change (same_key "U1" "U1") with true. change (same_key "U1" "U2") with false. change (same_key "U2" "U2") with true.
  change (same_key "U1" "W") with false. change (same_key "U2" "W") with false. change (same_key "W" "W") with true. cbn iota.
  unfold fits in *. rewrite !(wrap_id 32) by (unfold fits; lia). rewrite !in_range_ok by lia.
  destruct (Z.leb_spec nodes_count (node0 x)); [lia|]. destruct (Z.leb_spec nodes_count (node1 x)); [lia|]. cbn [orb].
  destruct (append_fits links done_ [x] Hh ltac:(lia) ltac:(cbn; lia)) as (links1 & E1 & Hh1 & Hc1).
  assert (mk_link (node0 x) (node1 x) (weight x) = x) as -> by by destruct x.
  rewrite push_back_append, E1. cbn [mbind outcome_bind].
  destruct (IH (i + 1)%Z (done_ ++ [x]) links1) as (links' & E & R); try done; try lia; [rewrite length_app; cbn; lia|].
  exists links'. split; [exact E|]. by rewrite <- app_assoc in R.
Qed.

(** A topology whose numbers have their widths and whose addresses lie in its
    extra data. *)
Record topology_ok (t : mdv_topology) : Prop := {
  to_nodes : Forall node_fits (t_nodes t);
  to_ids : NoDup (n_id <$> t_nodes t);
  to_links : Forall (link_fits (Z.of_nat (length (t_nodes t)))) (t_links t);
  to_node_count : (Z.of_nat (length (t_nodes t)) < 2 ^ 32)%Z;
  to_link_count : (Z.of_nat (length (t_links t)) < 2 ^ 63)%Z;
  to_extra : (Z.of_nat (length (t_extradata t)) < 2 ^ 63)%Z;
  to_addrs : length (addrs (t_nodes t)) <= length (t_extradata t)
}.

Lemma topology_ids t : topology_ok t -> ids_ok (t_nodes t).
Proof. intros Ht. split; [apply Ht|]. intros n Hn. by apply (proj1 (Forall_forall _ _) (to_nodes _ Ht) n Hn). Qed.

Lemma topology_valid t : topology_ok t -> valid (t_nodes t) (t_links t).
Proof.
  intros Ht l Hl. destruct (proj1 (Forall_forall _ _) (to_links _ Ht) l Hl) as (Ha & Hb & _).
  destruct (lookupZ_is_Some _ _ Ha) as [n0 E0]. destruct (lookupZ_is_Some _ _ Hb) as [n1 E1].
  exists (n0, n1, weight l). by apply resolve_Some.
Qed.

Lemma load_all_nodes t nodes extra :
  topology_ok t -> holds nodes [] -> v_capacity nodes = Z.of_nat (length (t_nodes t)) ->
  holds extra [] -> v_capacity extra = Z.of_nat (length (t_extradata t)) ->
  exists nodes' extra', load_nodes (node_object <$> t_nodes t) (Z.of_nat (length (t_nodes t))) 0 nodes extra = Done (Some (nodes', extra'))
    /\ holds nodes' (t_nodes t) /\ holds extra' (addrs (t_nodes t)).
Proof.
  intros Ht Hn Hcn He Hce. pose proof (to_addrs _ Ht) as Ha. destruct Ht as [Hf _ _ Hc _ Hx _]. destruct (t_nodes t) as [|n ns] eqn:En.
  { by exists nodes, extra. }
  assert (0 < length (addrs (n :: ns))) by (unfold addrs; cbn; rewrite !length_app; cbn; lia).
  apply (load_nodes_spec (n :: ns) _ 0 [] nodes [] extra); try done; cbn [length] in *; lia.
Qed.

Lemma deserialize_spec qsort t :
  (forall l, qsort l ≡ₚ l) -> topology_ok t ->
  exists links', mdv_topology_deserialize qsort (fun _ => true) (topology_object t)
      = Done (Some (mk_topology 1 (qsort (t_nodes t)) links' (addrs (t_nodes t))))
    /\ resolve (qsort (t_nodes t)) <$> links' = resolve (t_nodes t) <$> t_links t.
Proof.
  intros Hq Ht. destruct (create_spec qsort Hq (t_nodes t) (t_links t) (addrs (t_nodes t)) (topology_ids t Ht) (topology_valid t Ht))
    as (links' & Ec & Hr). exists links'. split; [|done].
  destruct (holds_empty (A := mdv_toponode) (Z.of_nat (length (t_nodes t))) 32 _ ltac:(lia) ltac:(lia) eq_refl) as [Hn Hcn].
  destruct (holds_empty (A := mdv_topolink) (Z.of_nat (length (t_links t))) 12 _ ltac:(lia) ltac:(lia) eq_refl) as [Hl Hcl].
  destruct (holds_empty (A := Z) (Z.of_nat (length (t_extradata t))) 1 _ ltac:(lia) ltac:(lia) eq_refl) as [He Hce].
  destruct (load_all_nodes t _ _ Ht Hn Hcn He Hce) as (nodes' & extra' & E1 & Hn' & He').
  destruct (load_links_spec (t_links t) (Z.of_nat (length (t_nodes t))) (Z.of_nat (length (t_links t))) 0 [] _ (to_links _ Ht)
    (to_node_count _ Ht) ltac:(lia) (to_link_count _ Ht) Hl Hcl eq_refl) as (links1 & E2 & Hl').
  unfold mdv_topology_deserialize, binn_object_get_uint64, binn_object_get_list, binn_object_get_value, topology_object.
  rewrite !pairs_object. cbn [find_key app]. change (same_key "NC" "NC") with true. change (same_key "NC" "LC") with false.
  change (same_key "LC" "LC") with true. change (same_key "NC" "ES") with false. change (same_key "LC" "ES") with false.
  change (same_key "ES" "ES") with true. change (same_key "NC" "N") with false. change (same_key "LC" "N") with false.
  change (same_key "ES" "N") with false. change (same_key "NC" "L") with false. change (same_key "LC" "L") with false.
  change (same_key "ES" "L") with false. cbn iota. rewrite !in_range_ok by (destruct Ht; lia).
  assert ((if (Z.of_nat (length (t_nodes t)) =? 0)%Z then Some [] else
    binn_items <$> (match find_key "N" (match t_nodes t with [] => [] | _ => [("N", B_list (node_object <$> t_nodes t))] end
       ++ match t_links t with [] => [] | _ => [("L", B_list (binn_link <$> t_links t))] end)
     with Some v => if is_container v then Some v else None | None => None end)) = Some (node_object <$> t_nodes t)) as ->.
  { destruct (t_nodes t) as [|n ns]; [done|]. cbn [length app find_key]. change (same_key "N" "N") with true. cbn. by rewrite items_list. }
  assert ((if (Z.of_nat (length (t_links t)) =? 0)%Z then Some [] else
    binn_items <$> (match find_key "L" (match t_nodes t with [] => [] | _ => [("N", B_list (node_object <$> t_nodes t))] end
       ++ match t_links t with [] => [] | _ => [("L", B_list (binn_link <$> t_links t))] end)
     with Some v => if is_container v then Some v else None | None => None end)) = Some (binn_link <$> t_links t)) as ->.
  { destruct (t_links t) as [|x xs]; [done|]. destruct (t_nodes t) as [|n ns]; cbn [length app find_key];
      change (same_key "N" "L") with false; change (same_key "L" "L") with true; cbn; by rewrite items_list. }
  cbn [mdv_vector_create negb]. rewrite E1. cbn [mbind outcome_bind]. rewrite E2. cbn [mbind outcome_bind].
  rewrite (items_of_holds _ _ Hn'), (items_of_holds _ _ He'), (items_of_holds _ _ Hl'). exact Ec.
Qed.

(** ** Bit sets *)

Definition bitset_doc (b : mdv_bitset) : binn := B_list ((fun w => B_int (i32 w)) <$> bs_bits b).

Lemma makes_words_loop words docs :
  makes (binn_words_loop words (B_list docs)) (B_list (docs ++ ((fun w => B_int (i32 w)) <$> words))).
Proof.
  revert docs. induction words as [|w words IH]; intros docs; cbn [binn_words_loop fmap list_fmap].
  { rewrite app_nil_r. apply makes_ret. }
  step_writer. specialize (IH (docs ++ [B_int (i32 w)])). by rewrite <- app_assoc in IH.
Qed.

Lemma makes_bitset b : Bitset.wf b -> makes (mdv_binn_bitset b) (bitset_doc b).
Proof.
  intros Hw. unfold mdv_binn_bitset, mdv_bitset_data. step_writer. rewrite (wf_len _ Hw).
  destruct (Nat.ltb_spec (mdv_bitset_capacity b / 32) (mdv_bitset_capacity b / 32)); [lia|].
  rewrite firstn_all2 by (rewrite (wf_len _ Hw); lia). apply (makes_words_loop _ []).
Qed.

Lemma words_loop_spec words n rc size bits :
  Forall (fits 32) words -> n + length words = length bits ->
  words_loop ((fun w => B_int (i32 w)) <$> words) n (mk_bitset rc size bits) = Done (Some (mk_bitset rc size (take n bits ++ words))).
Proof.
  intros Hw. revert n bits. induction Hw as [|w words Hw _ IH]; intros n bits Hn; cbn [fmap list_fmap words_loop length] in *.
  { by rewrite app_nil_r, firstn_all2 by lia. }
  rewrite get_int32_int, in_range_ok by (pose proof (swrap_bounds 32 w ltac:(lia)); lia). cbn [bs_bits bs_rc bs_size].
  destruct (Nat.leb_spec (length bits) n); [lia|]. rewrite wrap_swrap, (wrap_id 32 w Hw) by lia.
  rewrite IH by (rewrite length_insert; lia). rewrite (take_S_r _ n w) by (apply list_lookup_insert_eq; lia).
  rewrite take_insert_ge by lia. by rewrite <- app_assoc.
Qed.

Lemma unbinn_bitset_spec b words :
  Bitset.wf b -> length words = length (bs_bits b) -> (Z.of_nat (length (bs_bits b)) < 2 ^ 32)%Z ->
  mdv_unbinn_bitset (Some words) (bitset_doc b) = Done (Some (mk_bitset 1 (mdv_bitset_capacity b) (bs_bits b))).
Proof.
  intros Hw Hlen Hb. unfold mdv_unbinn_bitset, mdv_binn_list_length, bitset_doc. rewrite items_list, length_fmap.
  rewrite wrap_id, Nat2Z.id by (split; lia). cbn [mdv_bitset_create]. unfold mdv_bitset_fill. cbn [bs_rc bs_size bs_bits].
  assert (mdv_bitset_capacity (mk_bitset 1 (length (bs_bits b) * 32) words) / 32 = length (bs_bits b)) as ->.
  { unfold mdv_bitset_capacity. cbn [bs_size]. rewrite capacity_words, Nat.div_add_l, (Nat.div_small 31 32) by lia. lia. }
  rewrite words_loop_spec by (apply Hw || (unfold memcpy; rewrite !length_app, length_replicate, length_take, length_drop; lia)).
  cbn [take app]. do 3 f_equal. rewrite (wf_len _ Hw). unfold mdv_bitset_capacity, mdv_bitset_capacity_calc.
  rewrite (Nat.mul_comm 32), Nat.div_mul by lia. lia.
Qed.

Lemma unbinn_uuid_spec key0 key1 u rest :
  Uuid.wf u -> same_key key0 key0 = true -> same_key key0 key1 = false -> same_key key1 key1 = true ->
  let obj := B_object ([(key0, B_int (u64_0 u)); (key1, B_int (u64_1 u))] ++ rest) in
  binn_object_get_uint64 obj key0 = Some (u64_0 u) /\ binn_object_get_uint64 obj key1 = Some (u64_1 u).
Proof.
  intros [Ha Hb] E1 E2 E3 obj. unfold fits in *. unfold binn_object_get_uint64, binn_object_get_value, obj.
  rewrite pairs_object. cbn [find_key app]. rewrite E1, E2, E3. by rewrite !in_range_ok by lia.
Qed.

Definition table_object (t : mdv_table) (l : list mdv_field) : binn :=
  B_object [("U0", B_int (u64_0 (tb_id t))); ("U1", B_int (u64_1 (tb_id t))); ("D", desc_object (tb_desc t) l)].

Lemma makes_table t l :
  desc_ok (tb_desc t) l -> Forall field_fits l -> (desc_size (tb_desc t) l < 2 ^ 32)%Z ->
  makes (mdv_binn_table t) (table_object t l).
Proof.
  intros Hd Hl Hs. unfold mdv_binn_table, mdv_binn_table_uuid. step_writer.
  eapply makes_bind; [by apply makes_table_desc|]. eapply makes_bind; [step_writer|].
  - by apply makes_object_set; [cbn; lia|].
  - by apply makes_object_set; [cbn; lia|].
Qed.

Lemma get_table_desc t l : binn_object_get_object (table_object t l) "D" = Some (desc_object (tb_desc t) l).
Proof. unfold binn_object_get_object, binn_object_get_list, binn_object_get_value, table_object. by rewrite pairs_object. Qed.

Lemma get_table_uuid t l : Uuid.wf (tb_id t) -> mdv_unbinn_table_uuid (table_object t l) = Some (tb_id t).
Proof.
  intros Hw. unfold mdv_unbinn_table_uuid.
  destruct (unbinn_uuid_spec "U0" "U1" (tb_id t) [("D", desc_object (tb_desc t) l)] Hw eq_refl eq_refl eq_refl) as [E1 E2].
  cbn [app] in E1, E2. unfold table_object. rewrite E1, E2. by destruct (tb_id t).
Qed.

Lemma unbinn_table_spec t l :
  desc_ok (tb_desc t) l -> Uuid.wf (tb_id t) -> Forall field_fits l -> (desc_size (tb_desc t) l < 2 ^ 32)%Z ->
  mdv_unbinn_table true true (table_object t l) = Done (Some (mk_table 1 (tb_id t) (tb_desc t)))
  /\ mdv_unbinn_table false true (table_object t l) = Done None /\ mdv_unbinn_table true false (table_object t l) = Done None.
Proof.
  intros Hd Hw Hl Hs. unfold mdv_unbinn_table.
  rewrite get_table_desc, (get_table_uuid _ _ Hw). destruct (unbinn_table_desc_spec (tb_desc t) l Hd Hl Hs) as [E1 E2].
  rewrite E1, E2. cbn [mbind outcome_bind]. unfold mdv_table_create.
  destruct (table_create_impl_spec (tb_desc t) l None Hd I (tb_id t)) as [E3 E4]. rewrite E3, E4.
  rewrite pick_all, <- (proj2 Hd), <- (proj1 Hd). by destruct (tb_desc t).
Qed.

Lemma outcome_bind_assoc {A B C} (m : outcome A) (f : A -> outcome B) (g : B -> outcome C) : (x ← m; y ← f x; g y) = (y ← (x ← m; f x); g y).
Proof. by destruct m. Qed.

Lemma write_at_mid a b c data pos : pos = Z.of_nat (length a) -> length b = length data -> write_at (a ++ b ++ c) pos data = Done (a ++ data ++ c).
Proof.
  intros -> Hb. unfold write_at. rewrite !length_app. destruct (Z.leb_spec (Z.of_nat (length a) + Z.of_nat (length data)) (Z.of_nat (length a + (length b + length c)))); [|lia].
  by rewrite Nat2Z.id, take_app_length, <- Hb, <- drop_drop, drop_app_length, drop_app_length.
Qed.

Lemma read_at_mid a b c pos size : pos = Z.of_nat (length a) -> size = Z.of_nat (length b) -> read_at (a ++ b ++ c) pos size = b.
Proof. intros -> ->. unfold read_at. by rewrite !Nat2Z.id, drop_app_length, take_app_length. Qed.

Lemma write_at_length block pos data b : (0 <= pos)%Z -> write_at block pos data = Done b -> length b = length block.
Proof.
  intros Hpos. unfold write_at. destruct (Z.leb_spec (pos + Z.of_nat (length data)) (Z.of_nat (length block))) as [Hl|]; [|done]. intros [= <-].
  rewrite !length_app, length_take, length_drop. lia.
Qed.

Lemma write_at_done block pos data : write_at block pos data <> OutOfFuel.
Proof. unfold write_at. by destruct (_ <=? _)%Z. Qed.

Lemma write_at_behind block pos data : (Z.of_nat (length block) < pos + Z.of_nat (length data))%Z -> exists i, write_at block pos data = OutOfBounds i.
Proof. intros Hl. unfold write_at. destruct (Z.leb_spec (pos + Z.of_nat (length data)) (Z.of_nat (length block))); [lia|]. eauto. Qed.

(** A field whose array entry and data are in place. *)
Lemma field_of_block entry block idx data pos a b c d :
  block = a ++ to_le 8 (Z.of_nat (length data)) ++ to_le 8 (entry + pos) ++ b -> Z.of_nat (length a) = (row_header + sizeof_data * Z.of_nat idx)%Z ->
  block = c ++ data ++ d -> Z.of_nat (length c) = pos -> fits 64 (Z.of_nat (length data)) -> fits 64 pos -> field_of entry block idx = data.
Proof.
  intros E1 Ea E2 Ec Hd Hp. unfold field_of. rewrite <- Ea.
  assert (E3 : read_at block (Z.of_nat (length a)) 8 = to_le 8 (Z.of_nat (length data))) by (rewrite E1; apply read_at_mid; [done|by rewrite length_to_le]).
  assert (E4 : read_at block (Z.of_nat (length a) + 8) 8 = to_le 8 (entry + pos)) by (rewrite E1, app_assoc; apply read_at_mid; [rewrite length_app, length_to_le; lia|by rewrite length_to_le]).
  rewrite E3, E4, !of_to_le. change (256 ^ Z.of_nat 8)%Z with (2 ^ 64)%Z. rewrite (Z.mod_small (Z.of_nat (length data))) by exact Hd.
  assert (E5 : u64 ((entry + pos) `mod` 2 ^ 64 - entry) = pos). { unfold wrap. rewrite Zminus_mod_idemp_l. replace (entry + pos - entry)%Z with pos by lia. by apply wrap_id. }
  rewrite E5, E2. by apply read_at_mid.
Qed.

(** The block with both columns. *)
Lemma two_fields entry (d0 d1 : bytes) n :
  length d0 = 16 -> fits 63 (Z.of_nat (length d1)) -> n = 64 + length d1 ->
  exists block, (r ← put_field entry 0 48 d0 (replicate n 0%Z); put_field entry 1 r.1 d1 r.2) = Done (Z.of_nat n, block)
    /\ field_of entry block <$> seq 0 2 = [d0; d1].
Proof.
  intros Hd0 Hd1 ->. unfold fits in Hd1. rewrite (replicate_add 64), (replicate_add 48 16), (replicate_add 32 16), (replicate_add 16 16), <- !app_assoc.
  assert (Hl : forall v, length (to_le 8 v) = 8) by (intros; apply length_to_le).
  unfold put_field. change (row_header + sizeof_data * Z.of_nat 0)%Z with 16%Z. change (row_header + sizeof_data * Z.of_nat 1)%Z with 32%Z.
  rewrite (write_at_mid (replicate 16 0%Z)) by (rewrite ?length_app, ?Hl; done). cbn [mbind outcome_bind].
  set (s0 := to_le 8 (Z.of_nat (length d0)) ++ to_le 8 (entry + 48)). assert (Hs0 : length s0 = 16) by (unfold s0; by rewrite length_app, !Hl).
  rewrite (app_assoc (replicate 16 0%Z) s0), (app_assoc _ (replicate 16 0%Z)), write_at_mid by (rewrite ?length_app, ?length_replicate, ?Hs0, ?Hd0; done). cbn [mbind outcome_bind fst snd].
  rewrite <- (app_assoc (replicate 16 0%Z ++ s0)). set (s1 := to_le 8 (Z.of_nat (length d1)) ++ to_le 8 (entry + (48 + Z.of_nat (length d0)))). assert (Hs1 : length s1 = 16) by (unfold s1; by rewrite length_app, !Hl).
  rewrite (write_at_mid (replicate 16 0%Z ++ s0)) by (rewrite ?length_app, ?length_replicate, ?Hs0, ?Hs1; done). cbn [mbind outcome_bind].
  rewrite <- (app_nil_r (replicate (length d1) 0%Z)), (app_assoc _ s1), (app_assoc _ d0), write_at_mid by (rewrite ?length_app, ?length_replicate, ?Hs0, ?Hs1, ?Hd0; done). cbn [mbind outcome_bind].
  eexists. split; [f_equal; f_equal; lia|]. cbn [fmap list_fmap seq].
  rewrite (field_of_block entry _ 0 d0 48 (replicate 16 0%Z) (s1 ++ d0 ++ d1) (((replicate 16 0%Z ++ s0) ++ s1)) d1);
    [|unfold s0; by rewrite app_nil_r, <- !app_assoc|by rewrite length_replicate|by rewrite app_nil_r, <- !app_assoc|by rewrite !length_app, length_replicate, Hs0, Hs1|unfold fits; lia|unfold fits; lia].
  rewrite (field_of_block entry _ 1 d1 (48 + Z.of_nat (length d0)) (replicate 16 0%Z ++ s0) (d0 ++ d1) (((replicate 16 0%Z ++ s0) ++ s1) ++ d0) []);
    [done|unfold s1; by rewrite app_nil_r, <- !app_assoc|by rewrite length_app, length_replicate, Hs0|done|rewrite !length_app, length_replicate, Hs0, Hs1; lia|unfold fits; lia|unfold fits; lia].
Qed.

(** The block for the identifier alone: the entry of the second field is written
    over it. *)
Lemma first_field entry (d0 : bytes) :
  length d0 = 16 -> exists block, (r ← put_field entry 0 32 d0 (replicate 48 0%Z); put_field entry 1 r.1 [] r.2) = Done (48%Z, block)
    /\ field_of entry block <$> seq 0 1 = [to_le 8 0 ++ to_le 8 (entry + 48)].
Proof.
  intros Hd0. change (replicate 48 0%Z) with (replicate 16 0%Z ++ replicate 16 0%Z ++ replicate 16 0%Z ++ []). assert (Hl : forall v, length (to_le 8 v) = 8) by (intros; apply length_to_le).
  unfold put_field. change (row_header + sizeof_data * Z.of_nat 0)%Z with 16%Z. change (row_header + sizeof_data * Z.of_nat 1)%Z with 32%Z.
  rewrite (write_at_mid (replicate 16 0%Z)) by (rewrite ?length_app, ?Hl; done). cbn [mbind outcome_bind].
  set (s0 := to_le 8 (Z.of_nat (length d0)) ++ to_le 8 (entry + 32)). assert (Hs0 : length s0 = 16) by (unfold s0; by rewrite length_app, !Hl).
  rewrite (app_assoc (replicate 16 0%Z) s0), write_at_mid by (rewrite ?length_app, ?length_replicate, ?Hs0, ?Hd0; done). cbn [mbind outcome_bind fst snd length].
  set (s1 := to_le 8 (Z.of_nat 0) ++ to_le 8 (entry + (32 + Z.of_nat (length d0)))). assert (Hs1 : length s1 = 16) by (unfold s1; by rewrite length_app, !Hl).
  rewrite write_at_mid by (rewrite ?length_app, ?length_replicate, ?Hs0, ?Hd0, ?Hs1; done). cbn [mbind outcome_bind].
  rewrite (app_assoc _ s1), (write_at_mid _ [] [] []) by (rewrite ?length_app, ?length_replicate, ?Hs0, ?Hs1, ?Hd0; done). cbn [mbind outcome_bind app].
  eexists. split; [rewrite Hd0; done|]. cbn [fmap list_fmap seq]. rewrite app_nil_r. f_equal.
  rewrite (field_of_block entry _ 0 s1 32 (replicate 16 0%Z) s1 (replicate 16 0%Z ++ s0) []);
    [unfold s1; by rewrite Hd0|unfold s0; rewrite Hd0, Hs1; by rewrite <- !app_assoc|by rewrite length_replicate|by rewrite app_nil_r|by rewrite length_app, length_replicate, Hs0|by rewrite Hs1|done].
Qed.

(** The block for the name alone has no room for both. *)
Lemma second_field entry (d0 d1 : bytes) n :
  length d0 = 16 -> n = 32 + length d1 -> exists i, (r ← put_field entry 0 32 d0 (replicate n 0%Z); put_field entry 1 r.1 d1 r.2) = OutOfBounds i.
Proof.
  intros Hd0 ->. unfold put_field. change (row_header + sizeof_data * Z.of_nat 0)%Z with 16%Z. change (row_header + sizeof_data * Z.of_nat 1)%Z with 32%Z.
  assert (Hl : forall v, length (to_le 8 v) = 8) by (intros; apply length_to_le).
  match goal with |- context [write_at (replicate ?n ?x) 16%Z ?v] => destruct (write_at (replicate n x) 16%Z v) as [b0|i|] eqn:E0 end; [|by eexists|by apply write_at_done in E0]. cbn [mbind outcome_bind]. apply write_at_length in E0; [|lia].
  destruct (write_at b0 32 d0) as [b1|i|] eqn:E1; [|by eexists|by apply write_at_done in E1]. cbn [mbind outcome_bind fst snd]. apply write_at_length in E1; [|lia].
  match goal with |- context [write_at b1 32%Z ?v] => destruct (write_at b1 32%Z v) as [b2|i|] eqn:E2 end; [|by eexists|by apply write_at_done in E2]. cbn [mbind outcome_bind fst snd]. apply write_at_length in E2; [|lia].
  destruct (write_at_behind b2 (32 + Z.of_nat (length d0)) d1) as [i Ei]; [rewrite E2, E1, E0, length_replicate; lia|]. exists i. by rewrite Ei.
Qed.

Lemma table_as_row_spec entry t l mask :
  Uuid.wf (tb_id t) -> fits 32 (Z.of_nat (length (td_name (tb_desc t))) + 1) -> covers mask 2 ->
  let row := mdv_unbinn_table_as_row_slice true entry (table_object t l) mask in
  (keeps mask 0 = true -> keeps mask 1 = true -> row = Done (Some [u8s (tb_id t); td_name (tb_desc t) ++ [0%Z]]))
  /\ (keeps mask 0 = true -> keeps mask 1 = false -> row = Done (Some [to_le 8 0 ++ to_le 8 (entry + 48)]))
  /\ (keeps mask 0 = false -> keeps mask 1 = true -> exists i, row = OutOfBounds i)
  /\ (keeps mask 0 = false -> keeps mask 1 = false -> row = Done None).
Proof.
  intros Hw Hn Hm row. unfold row, mdv_unbinn_table_as_row_slice. rewrite !(selected_keeps mask 2) by (done || lia).
  cbn [mbind outcome_bind]. rewrite get_table_desc, (get_table_uuid _ _ Hw).
  assert (binn_object_get_str (desc_object (tb_desc t) l) "N" = Some (td_name (tb_desc t))) as ->
    by (unfold binn_object_get_str, binn_object_get_value, desc_object; by rewrite pairs_object).
  assert (Hlen : forall u, length (u8s u) = 16) by (intros; unfold u8s; by rewrite length_app, !length_to_le). set (name := td_name (tb_desc t) ++ [0%Z]) in *.
  assert (Hnl : Z.of_nat (length name) = (Z.of_nat (length (td_name (tb_desc t))) + 1)%Z) by (unfold name; rewrite length_app; cbn [length]; lia).
  destruct (keeps mask 0), (keeps mask 1); cbn [fmap option_fmap option_map Nat.add Nat.eqb negb]; split_and!; intros; try done.
  all: try change (td_name (tb_desc t) ++ [0%Z]) with name.
  - destruct (two_fields entry (u8s (tb_id t)) name (64 + length name) (Hlen _) ltac:(unfold fits in *; lia) eq_refl) as (block & E & Ef).
    replace (Z.to_nat _) with (64 + length name) by (unfold row_header, sizeof_data; lia). replace (row_header + sizeof_data * Z.of_nat 2)%Z with 48%Z by done. rewrite outcome_bind_assoc, E. cbn [mbind outcome_bind fst snd].
    destruct (Z.eqb_spec (Z.of_nat (64 + length name)) (16 + Z.of_nat (length name) + row_header + sizeof_data * Z.of_nat 2)) as [_|Hne]; [by rewrite Ef|unfold row_header, sizeof_data in Hne; lia].
  - destruct (first_field entry (u8s (tb_id t)) (Hlen _)) as (block & E & Ef). cbn [length]. change (Z.to_nat _) with 48. change (row_header + sizeof_data * Z.of_nat 1)%Z with 32%Z.
    rewrite outcome_bind_assoc, E. cbn [mbind outcome_bind fst snd]. change (48 =? _)%Z with true. cbn [negb]. by rewrite Ef.
  - destruct (second_field entry (u8s (mk_uuid 0 0)) name (32 + length name) (Hlen _) eq_refl) as (i & E). exists i.
    replace (Z.to_nat _) with (32 + length name) by (unfold row_header, sizeof_data; lia). change (row_header + sizeof_data * Z.of_nat 1)%Z with 32%Z. by rewrite outcome_bind_assoc, E.
Qed.

(** ** Theorems *)

(** C22: a row whose fields fit the description is written to a document, unless
    memory runs out; reading the document back gives the row, or the columns a mask
    keeps of it, within a block of exactly the size computed before.  The fields fit
    ([row_ok], [elem_ok]) when they have the sizes of the description, a boolean is 0
    or 1, an unsigned value of 64 bits is below [2^63], for others are written and
    cannot be read, and a float is no signalling NaN; the mask covers the columns. *)
Theorem mdv_row_roundtrip t l row mask :
  desc_ok t l -> row_ok l row -> covers mask (length l) ->
  exists doc, makes (mdv_binn_row row t) doc
    /\ mdv_unbinn_row true doc t = Done (Some row)
    /\ mdv_unbinn_row_slice true doc t mask = Done (Some (pick mask 0 row))
    /\ mdv_unbinn_row_slice false doc t mask = Done None.
Proof.
  intros Hd Hr Hm. exists (row_doc l row). split; [by apply makes_row|].
  destruct (unbinn_row_spec t l row mask Hd Hr Hm) as [E1 E2]. split; [|by split].
  unfold mdv_unbinn_row. by rewrite (proj1 (unbinn_row_spec t l row None Hd Hr I)), pick_all.
Qed.

(** a row is refused, whatever the allocator answers, when a field has an
    unknown type, its bytes are no whole items, or it has more items than its
    limit allows. *)
Theorem mdv_binn_row_refuses t l row i f data :
  desc_ok t l -> l !! i = Some f -> row !! i = Some data -> bad_field f data ->
  (forall j g d, j < i -> l !! j = Some g -> row !! j = Some d -> field_ok g d) ->
  forall mem n, exists n', mdv_binn_row row t mem n = Done (None, n').
Proof.
  intros Hd Hf Hdata Hb Hok mem n. unfold mdv_binn_row. unfold w_bind at 1.
  destruct (makes_create_list) as [Hm _]. destruct (Hm mem n) as (n1 & [-> | ->]); cbn; [by exists n1|].
  rewrite (proj2 Hd). apply (row_loop_refused t l row i f data); done || lia.
Qed.

(** a set of rows is written to a document and read back with the same rows
    for the same table. *)
Theorem mdv_rowset_roundtrip l r :
  desc_ok (tb_desc (rs_table r)) l -> Forall (row_ok l) (rs_rows r) ->
  exists doc, makes (mdv_binn_rowset (S (length (rs_rows r))) r) doc
    /\ mdv_unbinn_rowset true (fun _ => true) doc (rs_table r)
       = Done (Some (mk_rowset 1 (mdv_table_retain (rs_table r)) (rs_rows r))).
Proof.
  intros Hd Hr. exists (B_list (row_doc l <$> rs_rows r)). split.
  - unfold mdv_binn_rowset. step_writer. eapply makes_bind; [apply makes_request|].
    by apply (makes_rows_loop l r 1 (length (rs_rows r)) 0 []).
  - unfold mdv_unbinn_rowset. cbn [mdv_rowset_create negb]. rewrite items_list. by apply (unbinn_rows_spec l).
Qed.

(** a table is written to a document and read back with its identifier,
    name and fields; without memory the result is null. *)
Theorem mdv_table_roundtrip t l :
  desc_ok (tb_desc t) l -> Uuid.wf (tb_id t) -> Forall field_fits l -> (desc_size (tb_desc t) l < 2 ^ 32)%Z ->
  exists doc, makes (mdv_binn_table t) doc
    /\ mdv_unbinn_table true true doc = Done (Some (mk_table 1 (tb_id t) (tb_desc t)))
    /\ mdv_unbinn_table false true doc = Done None /\ mdv_unbinn_table true false doc = Done None.
Proof. intros Hd Hw Hl Hs. exists (table_object t l). split; [by apply makes_table|by apply unbinn_table_spec]. Qed.

(** a topology is written to a document and read back: the nodes, ordered
    by their identifiers, with their addresses, and links that join the same
    nodes with the same weights. *)
Theorem mdv_topology_roundtrip qsort t :
  (forall l, qsort l ≡ₚ l) -> topology_ok t ->
  exists doc links', makes (mdv_topology_serialize t) doc
    /\ mdv_topology_deserialize qsort (fun _ => true) doc
       = Done (Some (mk_topology 1 (qsort (t_nodes t)) links' (addrs (t_nodes t))))
    /\ resolve (qsort (t_nodes t)) <$> links' = resolve (t_nodes t) <$> t_links t.
Proof.
  intros Hq Ht. destruct (deserialize_spec qsort t Hq Ht) as (links' & E & Hr). exists (topology_object t), links'.
  split; [apply makes_topology, Ht|by split].
Qed.

(** identifiers and bit sets are read back as they were written; a bit set
    comes back with its words, its size rounded up to whole words. *)
Theorem mdv_bitset_uuid_roundtrip b words u :
  Bitset.wf b -> length words = length (bs_bits b) -> (Z.of_nat (length (bs_bits b)) < 2 ^ 32)%Z -> Uuid.wf u ->
  (exists doc, makes (mdv_binn_bitset b) doc
    /\ mdv_unbinn_bitset (Some words) doc = Done (Some (mk_bitset 1 (mdv_bitset_capacity b) (bs_bits b)))
    /\ mdv_unbinn_bitset None doc = Done None)
  /\ (exists doc, makes (mdv_binn_uuid u) doc /\ mdv_unbinn_uuid doc = Some u).
Proof.
  intros Hb Hw Hl Hu. split.
  - exists (bitset_doc b). split; [by apply makes_bitset|]. split; [by apply unbinn_bitset_spec|done].
  - exists (B_object [("U1", B_int (u64_0 u)); ("U2", B_int (u64_1 u))]). split.
    + unfold mdv_binn_uuid. do 2 step_writer. by apply makes_object_set; [cbn; lia|].
    + destruct (unbinn_uuid_spec "U1" "U2" u [] Hu eq_refl eq_refl eq_refl) as [E1 E2]. cbn [app] in *.
      unfold mdv_unbinn_uuid. rewrite E1, E2. by destruct u.
Qed.

(** C35: a table as a row of the list of tables.  With both columns the row holds
    the identifier and the name.  A mask that keeps one column makes the block too
    small for what is written: with the name alone the function writes behind its
    block, with the identifier alone the entry of the second field is written over the
    identifier.  Without a column there is no row. *)
Theorem mdv_table_as_row_slice_bounds entry t l mask :
  Uuid.wf (tb_id t) -> fits 32 (Z.of_nat (length (td_name (tb_desc t))) + 1) -> covers mask 2 ->
  let row := mdv_unbinn_table_as_row_slice true entry (table_object t l) mask in
  (keeps mask 0 = true -> keeps mask 1 = true -> row = Done (Some [u8s (tb_id t); td_name (tb_desc t) ++ [0%Z]]))
  /\ (keeps mask 0 = true -> keeps mask 1 = false -> row = Done (Some [to_le 8 0 ++ to_le 8 (entry + 48)]))
  /\ (keeps mask 0 = false -> keeps mask 1 = true -> exists i, row = OutOfBounds i)
  /\ (keeps mask 0 = false -> keeps mask 1 = false -> row = Done None).
Proof. apply table_as_row_spec. Qed.

(** A row with an unsigned number of 64 bits from 2^63 on is written and cannot
    be read back. *)
Lemma uint64_unreadable name v t :
  desc_ok t [mk_fld MDV_FLD_TYPE_UINT64 1 name] -> (2 ^ 63 <= v < 2 ^ 64)%Z ->
  exists doc, makes (mdv_binn_row [to_le 8 v] t) doc /\ mdv_unbinn_row true doc t = Done None.
Proof.
  intros Hd Hv. exists (B_list [B_int v]). split.
  - unfold mdv_binn_row. step_writer. rewrite (proj2 Hd). cbn [length binn_row_loop].
    eapply makes_bind; [apply makes_out; by apply (field_at_ok t _ 0 _ Hd)|]. eapply makes_bind; [apply makes_out; done|].
    eapply makes_bind; [|apply makes_ret]. unfold binn_row_field. cbn [fld_type fld_limit mdv_field_type_size]. rewrite length_to_le.
    change (negb (8 mod 8 =? 0)) with false. change (8 =? 0)%nat with false. cbn [Z.eqb Pos.eqb negb andb].
    change (1 <? u32 (Z.of_nat (8 / 8)))%Z with false. cbn iota.
    pose proof (makes_add_elem [] MDV_FLD_TYPE_UINT64 (to_le 8 v) [] ltac:(done) (length_to_le 8 v)) as Hm.
    rewrite app_nil_r in Hm. unfold elem_of in Hm. cbn [MDV_FLD_TYPE_UINT64] in Hm. by rewrite of_to_le_id in Hm by lia.
  - unfold mdv_unbinn_row, mdv_unbinn_row_slice, mdv_calc_row_size. rewrite items_list. cbn [calc_loop selected mbind outcome_bind negb].
    rewrite (field_at_ok t _ 0 _ Hd eq_refl). cbn [mbind outcome_bind fld_limit fld_type Z.eqb Pos.eqb]. rewrite (proj2 Hd).
    cbn -[binn_get_int64]. rewrite (field_at_ok t _ 0 _ Hd eq_refl). cbn -[binn_get_int64]. rewrite get_int64_int. unfold in_range.
    destruct (Z.leb_spec (- 2 ^ 63) v); [|lia]. destruct (Z.leb_spec v (2 ^ 63 - 1)); [lia|done].
Qed.

End RoundTrip.

(** ** Examples *)

Definition demo_row : mdv_row := [to_le 8 5; [104; 105]; [1; 0; 255; 255]]%Z.

(** Closed facts about bytes and items. *)
Ltac bytes_ok := repeat (apply Forall_cons_2; [split; vm_compute; congruence|]); apply Forall_nil_2.
Ltac items_ok := repeat (apply Forall_cons_2; [split; [done|bytes_ok|by intros|by vm_compute|by intros]|]); apply Forall_nil_2.

(** Rows of the columns [demo_fields]: a single value, a text, two items. *)
Ltac demo_row_tac :=
  repeat apply Forall2_cons_2; [..|apply Forall2_nil_2]; (split; [done|done|cbn; lia| |done|bytes_ok|]);
  [by right|intros _; items_ok|by left|by intros [|]|right; vm_compute; congruence|intros _; items_ok].

Lemma demo_row_ok : row_ok demo_fields demo_row.
Proof. demo_row_tac. Qed.

Lemma demo_covers n : n <= 32 -> covers (Some demo_mask) n.
Proof. intros Hn. exact (conj demo_mask_wf Hn). Qed.

Lemma mdv_row_roundtrip_witness :
  exists doc, makes (mdv_binn_row demo_row demo_desc) doc
    /\ mdv_unbinn_row_slice true doc demo_desc (Some demo_mask) = Done (Some [to_le 8 5; [1; 0; 255; 255]]%Z).
Proof.
  destruct (mdv_row_roundtrip demo_desc demo_fields demo_row (Some demo_mask) (conj eq_refl eq_refl) demo_row_ok
    (demo_covers 3 ltac:(lia))) as (doc & Hm & _ & Hr & _).
  exists doc. split; [exact Hm|exact Hr].
Defined.

Lemma mdv_binn_row_refuses_witness :
  exists n, mdv_binn_row [to_le 8 5; [104; 105]; [1; 0; 255]]%Z demo_desc (fun _ => true) 0 = Done (None, n).
Proof.
  refine (mdv_binn_row_refuses demo_desc demo_fields [to_le 8 5; [104; 105]; [1; 0; 255]]%Z 2 _ _ (conj eq_refl eq_refl)
    eq_refl eq_refl _ _ (fun _ => true) 0).
  - right. left. vm_compute. congruence.
  - intros j g d Hj Hg Hd. pose proof demo_row_ok as Hr. destruct j as [|[|[|]]]; [..|lia].
    + exact (Forall2_lookup_lr _ _ _ _ _ _ Hr Hg Hd).
    + exact (Forall2_lookup_lr _ _ _ _ _ _ Hr Hg Hd).
    + lia.
Defined.

Definition demo_rowset : mdv_rowset := mk_rowset 1 demo_table [demo_row; demo_row].

Lemma mdv_rowset_roundtrip_witness :
  exists doc, makes (mdv_binn_rowset 3 demo_rowset) doc
    /\ mdv_unbinn_rowset true (fun _ => true) doc demo_table = Done (Some (mk_rowset 1 (mdv_table_retain demo_table) [demo_row; demo_row])).
Proof.
  exact (mdv_rowset_roundtrip demo_fields demo_rowset (conj eq_refl eq_refl)
    (Forall_cons_2 _ _ _ demo_row_ok (Forall_cons_2 _ _ _ demo_row_ok (Forall_nil_2 _)))).
Defined.

Lemma demo_fields_fit : Forall field_fits demo_fields.
Proof. repeat constructor; vm_compute; congruence. Qed.

Lemma mdv_table_roundtrip_witness :
  exists doc, makes (mdv_binn_table demo_table) doc /\ mdv_unbinn_table true true doc = Done (Some demo_table).
Proof.
  destruct (mdv_table_roundtrip demo_table demo_fields (conj eq_refl eq_refl) ltac:(split; vm_compute; split; congruence)
    demo_fields_fit ltac:(vm_compute; congruence)) as (doc & Hm & Hr & _).
  exists doc. split; [exact Hm|exact Hr].
Defined.

Definition demo_topology : mdv_topology :=
  mk_topology 1 [mk_node (mk_uuid 1 0) 7 [97]%Z; mk_node (mk_uuid 2 0) 4 [98; 99]%Z] [mk_link 0 1 3] [97; 0; 98; 99; 0]%Z.

Lemma demo_topology_ok : topology_ok demo_topology.
Proof.
  split; cbn [t_nodes t_links t_extradata demo_topology length]; [..|lia|lia|lia|cbn; lia].
  - repeat (apply Forall_cons_2; [split; [|split]; split; vm_compute; congruence|]). apply Forall_nil_2.
  - apply (bool_decide_unpack _). vm_compute. exact I.
  - apply Forall_cons_2; [|apply Forall_nil_2]. split; [cbn; lia|]. split; [cbn; lia|]. split; vm_compute; congruence.
Qed.

Lemma mdv_topology_roundtrip_witness :
  exists doc links', makes (mdv_topology_serialize demo_topology) doc
    /\ mdv_topology_deserialize (merge_sort node_le) (fun _ => true) doc
       = Done (Some (mk_topology 1 (t_nodes demo_topology) links' [97; 0; 98; 99; 0]%Z)).
Proof.
  destruct (mdv_topology_roundtrip (merge_sort node_le) demo_topology (fun l => merge_sort_Permutation node_le l) demo_topology_ok)
    as (doc & links' & Hm & Hr & _).
  exists doc, links'. split; [exact Hm|exact Hr].
Defined.

Lemma mdv_bitset_uuid_roundtrip_witness :
  (exists doc, makes (mdv_binn_bitset demo_mask) doc
    /\ mdv_unbinn_bitset (Some [77]%Z) doc = Done (Some (mk_bitset 1 32 [5]%Z)) /\ mdv_unbinn_bitset None doc = Done None)
  /\ (exists doc, makes (mdv_binn_uuid (mk_uuid 3 4)) doc /\ mdv_unbinn_uuid doc = Some (mk_uuid 3 4)).
Proof.
  exact (mdv_bitset_uuid_roundtrip demo_mask [77]%Z (mk_uuid 3 4) demo_mask_wf eq_refl ltac:(vm_compute; congruence)
    ltac:(split; vm_compute; split; congruence)).
Defined.

Lemma mdv_table_as_row_slice_bounds_witness :
  mdv_unbinn_table_as_row_slice true 4096 (table_object demo_table demo_fields) None = Done (Some [u8s (mk_uuid 1 2); [116; 0]%Z])
  /\ mdv_unbinn_table_as_row_slice true 4096 (table_object demo_table demo_fields) (Some (mk_bitset 1 32 [1]%Z)) = Done (Some [to_le 8 0 ++ to_le 8 4144])
  /\ exists i, mdv_unbinn_table_as_row_slice true 4096 (table_object demo_table demo_fields) (Some (mk_bitset 1 32 [2]%Z)) = OutOfBounds i.
Proof.
  assert (Hw : Uuid.wf (tb_id demo_table)) by (split; vm_compute; split; congruence). assert (Hn : fits 32 (Z.of_nat (length (td_name (tb_desc demo_table))) + 1)) by (vm_compute; split; congruence).
  assert (Hc : forall w, fits 32 w -> covers (Some (mk_bitset 1 32 [w])) 2). { intros w Hb. split; [|change (2 <= 32); lia]. split; [done|]. constructor; [done|constructor]. }
  split; [|split].
  - exact (proj1 (mdv_table_as_row_slice_bounds 4096 demo_table demo_fields None Hw Hn I) eq_refl eq_refl).
  - apply (proj1 (proj2 (mdv_table_as_row_slice_bounds 4096 demo_table demo_fields (Some (mk_bitset 1 32 [1]%Z)) Hw Hn (Hc 1%Z ltac:(split; lia))))); vm_compute; reflexivity.
  - apply (proj1 (proj2 (proj2 (mdv_table_as_row_slice_bounds 4096 demo_table demo_fields (Some (mk_bitset 1 32 [2]%Z)) Hw Hn (Hc 2%Z ltac:(split; lia)))))); vm_compute; reflexivity.
Defined.

(** A field that holds one value is read without regard to the size of its data. *)
Example empty_single_field :
  mdv_binn_row [[]] (mk_desc [116]%Z 1 [Some (mk_fld MDV_FLD_TYPE_INT32 1 [118]%Z)]) (fun _ => true) 0 = OutOfBounds 0.
Proof. reflexivity. Qed.

(** A description that announces fewer fields than it lists. *)
Example too_many_fields :
  mdv_unbinn_table_desc true
    (B_object [("N", B_str [116]%Z); ("S", B_int 0); ("F", B_list [field_object (mk_fld MDV_FLD_TYPE_INT32 1 [118]%Z)])])
  = OutOfBounds 0.
Proof. reflexivity. Qed.

(** The size of the block is a 32-bit number. *)
Example size_overflow :
  mdv_unbinn_table_desc true (B_object [("N", B_str [116]%Z); ("S", B_int (2 ^ 28)); ("F", B_list [])]) = OutOfBounds 26.
Proof. vm_compute. reflexivity. Qed.

End Serialization.
