(* ===== verification/Slice.v ===== *)
(** * Pages of rows and views (src/mdv_core/storage)

    What mdv_rowdata.c and mdv_tables.c have in common: a page of rows is read
    from an enumerator, from the first object of a set on or behind the object
    that was read last; and the interface of the views, mdv_view.c, with the
    contract that a client of any view relies on. *)

From S2P Require Import Prelude Bitset Uuid Lmdb Memdb Session Pset Enumerator Types.
Import Bitset Lmdb Memdb Pset Session Enumerator Types.

Module Slice.

(** ** Reading rows from an enumerator *)

(** Which allocations succeed: the rollbacker and the enumerator, the slice of
    the table, the set of rows, the row read in the step [k]; [sm_entry k] is the
    address of the block of this row. *)
Record slice_mem := mk_slice_mem {
  sm_rbr : bool; sm_enum : bool; sm_table : bool; sm_set : bool; sm_row : nat -> bool; sm_entry : nat -> Z
}.

Section Slices.
Context {E Id : Type} `{IEnumerator E (bytes * bytes)}.
(** [restore k v]: the row of the value [v]; [key_id]: the identifier a key
    holds; [filter]: the result of the filter of the rows. *)
Context (restore : nat -> bytes -> outcome (option mdv_row)) (key_id : bytes -> outcome Id) (filter : mdv_row -> Z).

(** [for(size_t i = 0; i < count;) ...]; [k] numbers the steps. *)
Fixpoint slice_loop (fuel : nat) (count i k : nat) (e : E) (rowid : Id) (rs : mdv_rowset) : outcome (E * Id * mdv_rowset) :=
  match fuel with
  | 0 => OutOfFuel
  | S fuel =>
      if negb (i <? count) then Done (e, rowid, rs) else
      entry ← deref (mdv_enumerator_current e);
      row ← restore k entry.2;
      match row with
      | None => Done (e, rowid, rs)
      | Some row =>
          rowid ← key_id entry.1;
          let fst := filter row in
          if negb ((fst =? 1)%Z || (fst =? 0)%Z) then Done (e, rowid, rs) else
          let '(rs, i) := if (fst =? 1)%Z then (mdv_rowset_emplace rs row, S i) else (rs, i) in
          let '(e, err) := mdv_enumerator_next e in
          if decide (err <> MDV_OK) then Done (e, rowid, rs)
          else slice_loop fuel count i (S k) e rowid rs
      end
  end.

(** The slice of the table is made, filled and left to the set of rows. *)
Definition slice_rows (m : slice_mem) (fuel : nat) (e : E) (table : mdv_table) (fields : mdv_bitset) (count : nat) (rowid : Id)
  : outcome (E * Id * option mdv_rowset) :=
  table_slice ← mdv_table_slice (sm_table m) table fields;
  match table_slice with
  | None => Done (e, rowid, None)
  | Some table_slice =>
      match mdv_rowset_create (sm_set m) table_slice with
      | None => Done (e, rowid, None)
      | Some rs =>
          r ← slice_loop fuel count 0 0 e rowid rs;
          let '(e, rowid, rs) := r in
          t ← deref (snd (mdv_table_release (Some (rs_table rs))));
          Done (e, rowid, Some (mk_rowset (rs_rc rs) t (rs_rows rs)))
      end
  end.

(** What a slice of all rows of a sequence is made of. *)
Context (items : list (bytes * bytes)) (alive : E -> Prop) (rest : E -> list (bytes * bytes) -> Prop) {Hlaws : EnumeratorLaws items alive rest}.
Context (Hfilter : forall row, filter row = 1%Z).

Definition reads_as (kv : bytes * bytes) (x : Id * mdv_row) : Prop :=
  key_id kv.1 = Done x.1 /\ forall k, restore k kv.2 = Done (Some x.2).

Lemma slice_loop_ok l : forall xs fuel count i k e rowid rs,
  rest e l -> l <> [] -> Forall2 reads_as l xs -> length l < fuel ->
  exists e', slice_loop fuel count i k e rowid rs
    = Done (e', default rowid (fst <$> last (take (count - i) xs)),
            mk_rowset (rs_rc rs) (rs_table rs) (rs_rows rs ++ (snd <$> take (count - i) xs))) /\ alive e'.
Proof.
  induction l as [|kv l IH]; intros xs fuel count i k e rowid rs Hr Hne Hx Hf; [done|].
  destruct fuel as [|fuel]; [cbn in Hf; lia|]. apply Forall2_cons_inv_l in Hx as ([id row] & xs' & [Hk Hrow] & Hx & ->). cbn [slice_loop].
  destruct (Nat.ltb_spec i count) as [Hi|Hi]; cbn [negb].
  2: { exists e. replace (count - i) with 0 by lia. cbn. rewrite app_nil_r. split; [by destruct rs|by eapply rest_alive]. }
  rewrite (current_law _ _ _ Hr). cbn [deref mbind outcome_bind]. rewrite Hrow, Hk. cbn [mbind outcome_bind fst snd]. rewrite Hfilter.
  cbn [Z.eqb Pos.eqb orb negb]. replace (count - i) with (S (count - S i)) by lia. cbn [take].
  pose proof (next_law _ _ _ Hr) as Hn. destruct (mdv_enumerator_next e) as [e' err]. destruct l as [|kv' l].
  - apply Forall2_nil_inv_l in Hx as ->. destruct Hn as [Herr Ha]. rewrite decide_True by done. exists e'. rewrite take_nil. by cbn.
  - destruct Hn as [-> Hr']. rewrite decide_False by (by intros []).
    destruct (IH xs' fuel count (S i) (S k) e' id (mdv_rowset_emplace rs row) Hr' ltac:(done) Hx ltac:(cbn in *; lia)) as (e2 & -> & Ha).
    exists e2. split; [|done]. f_equal. f_equal; [f_equal|].
    + destruct (take (count - S i) xs') as [|y ys]; [done|]. cbn. by destruct (last (y :: ys)) eqn:El; [|apply last_None in El].
    + cbn [mdv_rowset_emplace rs_rows rs_rc rs_table]. by rewrite <- app_assoc.
Qed.

(** A page of rows: the first [count] of them, and the identifier of the last. *)
Lemma slice_rows_ok m l xs fuel count e rowid table fields desc :
  sm_table m = true -> sm_set m = true -> rest e l -> l <> [] -> Forall2 reads_as l xs -> length l < fuel ->
  desc_ok (tb_desc table) desc -> Bitset.wf fields -> length desc <= mdv_bitset_capacity fields ->
  exists e' t, slice_rows m fuel e table fields count rowid
    = Done (e', default rowid (fst <$> last (take count xs)), Some (mk_rowset 1 t (snd <$> take count xs)))
    /\ alive e' /\ mdv_table_slice true table fields = Done (Some t).
Proof.
  intros Hm1 Hm2 Hr Hne Hx Hf Hd Hb Hc. unfold slice_rows. rewrite Hm1.
  destruct (table_create_impl_spec (tb_desc table) desc (Some fields) Hd (conj Hb Hc) (tb_id table)) as [Ht _].
  unfold mdv_table_slice. rewrite Ht. cbn [mbind outcome_bind]. unfold mdv_rowset_create. rewrite Hm2. cbn [negb].
  match goal with |- context [slice_loop fuel count 0 0 e rowid ?rs] =>
    destruct (slice_loop_ok l xs fuel count 0 0 e rowid rs Hr Hne Hx Hf) as (e' & -> & Ha) end.
  cbn [mbind outcome_bind rs_rc rs_table rs_rows app]. rewrite Nat.sub_0_r. eexists e', _. split; [|split; done].
  by cbn.
Qed.

End Slices.

(** ** Pages of a set *)

(** Identifiers of rows: the bytes of an identifier are the key of its row.
    [id_of_key] copies a key whose size is asserted, [same_id] compares. *)
Class RowId (Id : Type) := {
  id_key : Id -> bytes;
  id_of_key : bytes -> outcome Id;
  same_id : Id -> Id -> bool;
  id_ok : Id -> Prop
}.

Class RowIdLaws (Id : Type) `{RowId Id} : Prop := {
  id_read id : id_ok id -> id_of_key (id_key id) = Done id;
  id_same id id' : id_ok id -> id_ok id' -> same_id id id' = bool_decide (id_key id = id_key id')
}.

Section Stored.
Context `{Mdb, !MdbCursor} {Id : Type} {RI : RowId Id}.
Context (restore : nat -> bytes -> outcome (option mdv_row)) (filter : mdv_row -> Z).

(** The enumerator is released and the set is accessible again. *)
Definition leave (e : objects_enumerator) : outcome mdv_2pset :=
  match snd (mdv_objects_enumerator_release (Some e)) with
  | inr (Some o) => Done o
  | _ => OutOfBounds (-1)
  end.

(** [rowid]: the identifier of the last row, read and written. *)
Definition slice_from_begin (m : slice_mem) (fuel : nat) (o : mdv_2pset) (table : mdv_table) (fields : mdv_bitset)
    (count : nat) (rowid : Id) : outcome (mdv_2pset * Id * option mdv_rowset) :=
  match mdv_2pset_enumerator (sm_rbr m) (sm_enum m) o with
  | inl o => Done (o, rowid, None)
  | inr e =>
      x ← slice_rows restore id_of_key filter m fuel e table fields count rowid;
      let '(e, rowid, rs) := x in
      o ← leave e;
      Done (o, rowid, rs)
  end.

Definition slice_behind (m : slice_mem) (fuel : nat) (o : mdv_2pset) (table : mdv_table) (fields : mdv_bitset)
    (count : nat) (rowid : Id) : outcome (mdv_2pset * Id * option mdv_rowset) :=
  match mdv_2pset_enumerator_from (sm_rbr m) (sm_enum m) o (id_key rowid) with
  | inl o => Done (o, rowid, None)
  | inr e =>
      entry ← deref (mdv_enumerator_current e);
      current_rowid ← id_of_key entry.1;
      let '(e, err) := if same_id current_rowid rowid then mdv_enumerator_next e else (e, MDV_OK) in
      if decide (err <> MDV_OK) then o ← leave e; Done (o, rowid, None) else
      x ← slice_rows restore id_of_key filter m fuel e table fields count rowid;
      let '(e, rowid, rs) := x in
      o ← leave e;
      Done (o, rowid, rs)
  end.

End Stored.

(** ** Views (mdv_view.c) *)

(** The table of functions of a view. *)
Class IView (V : Type) := {
  view_retain : V -> V;
  view_release : V -> Z * option V;
  view_desc : V -> V * mdv_table;
  view_fetch : V -> nat -> outcome (V * option mdv_rowset)
}.

Section Views.
Context {V : Type} `{IView V}.

Definition mdv_view_retain (v : V) : V := view_retain v.
Definition mdv_view_release (v : option V) : Z * option V := match v with Some v => view_release v | None => (0%Z, None) end.
Definition mdv_view_desc (v : V) : V * mdv_table := view_desc v.
Definition mdv_view_fetch (v : V) (count : nat) : outcome (V * option mdv_rowset) := view_fetch v count.

(** A client that fetches pages until there is none. *)
Fixpoint fetch_all (pages : nat) (v : V) (count : nat) : outcome (V * list mdv_row) :=
  match pages with
  | 0 => OutOfFuel
  | S pages =>
      x ← mdv_view_fetch v count;
      match x with
      | (v, None) => Done (v, [])
      | (v, Some rs) =>
          r ← fetch_all pages v count;
          Done (r.1, rs_rows rs ++ r.2)
      end
  end.

(** What a view of the rows [rows] promises: in a state [at_row v p] the rows
    before [p] were shown, and a page has the next ones. *)
Class ViewLaws (rows : list mdv_row) (table : mdv_table) (at_row : V -> nat -> Prop) (ended : V -> Prop) : Prop := {
  fetch_law v p count : at_row v p -> 1 <= count ->
    exists v', view_fetch v count
      = Done (v', match drop p rows with [] => None | _ => Some (mk_rowset 1 table (take count (drop p rows))) end)
      /\ (if decide (drop p rows = []) then ended v' else at_row v' (p + length (take count (drop p rows))))
}.

Lemma drop_taken {A} c (l : list A) : drop (length (take c l)) l = drop c l.
Proof. rewrite length_take. destruct (decide (c <= length l)); [by rewrite Nat.min_l|]. rewrite Nat.min_r by lia. by rewrite !drop_ge by lia. Qed.

(** All rows are shown, each once and in their order. *)
Lemma fetch_all_ok {rows table at_row ended} {VL : ViewLaws rows table at_row ended} pages : forall v p count,
  at_row v p -> 1 <= count -> length (drop p rows) < pages ->
  exists v', fetch_all pages v count = Done (v', drop p rows) /\ ended v'.
Proof.
  induction pages as [|pages IH]; intros v p count Hv Hc Hp; [lia|].
  destruct (fetch_law v p count Hv Hc) as (v1 & E & Hn). cbn [fetch_all]. unfold mdv_view_fetch. rewrite E. cbn [mbind outcome_bind].
  destruct (drop p rows) as [|x l] eqn:Ed; [exists v1; by rewrite decide_True in Hn|]. rewrite decide_False in Hn by done. rewrite <- Ed in *.
  assert (Hdrop : drop (p + length (take count (drop p rows))) rows = drop count (drop p rows)) by (rewrite <- drop_drop; apply drop_taken).
  destruct (IH v1 (p + length (take count (drop p rows))) count Hn Hc) as (v2 & -> & He).
  { rewrite Hdrop, length_drop. rewrite Ed in *. cbn [length] in *. lia. }
  cbn [mbind outcome_bind fst snd rs_rows]. exists v2. by rewrite Hdrop, take_drop.
Qed.

End Views.

(** ** Keys *)

(** The entries behind a key. *)
Definition above (k : bytes) (m : gmap bytes bytes) : list (bytes * bytes) :=
  base.filter (fun e : bytes * bytes => key_le false k e.1 /\ e.1 <> k) (sorted_entries m).

Lemma key_le_refl a : key_le false a a.
Proof. destruct (key_le_total false a a); done. Qed.

Lemma keys_nodup (m : gmap bytes bytes) : NoDup (sorted_entries m).*1.
Proof. unfold sorted_entries. rewrite (merge_sort_Permutation (entry_le false)). apply NoDup_fst_map_to_list. Qed.

Lemma filter_Forall_all {A} (P : A -> Prop) `{!forall x, Decision (P x)} (l : list A) : Forall P l -> base.filter P l = l.
Proof. intros Hf. apply filter_all. by apply Forall_forall. Qed.

Lemma sorted_from_filter (l : list (bytes * bytes)) k :
  StronglySorted (entry_le false) l -> drop (lower_pos false k l) l = base.filter (fun e : bytes * bytes => key_le false k e.1) l.
Proof.
  induction 1 as [|e l Hs IH Hf]; [done|]. cbn [lower_pos]. destruct (decide (key_le false k e.1)) as [Hk|Hk].
  - cbn [drop]. symmetry. apply filter_Forall_all. apply Forall_cons. split; [done|]. eapply Forall_impl; [exact Hf|].
    intros e' He'. cbn. eapply (key_le_trans false); [exact Hk|exact He'].
  - cbn [drop]. rewrite filter_cons_False by done. done.
Qed.

Lemma begins_above k m :
  begins (Some k) m = above k m \/ exists v, begins (Some k) m = (k, v) :: above k m.
Proof.
  cbn [begins]. rewrite (sorted_from_filter _ k (sorted_sorted m)). unfold above.
  pose proof (sorted_sorted m) as Hs. pose proof (keys_nodup m) as Hnd.
  induction Hs as [|e l Hs IH Hf]; [by left|]. cbn in Hnd. apply NoDup_cons in Hnd as [Hni Hnd].
  destruct (decide (key_le false k e.1)) as [Hk|Hk].
  - rewrite (filter_cons_True (fun e : bytes * bytes => key_le false k e.1)) by done.
    assert (Hall : Forall (fun e' : bytes * bytes => key_le false k e'.1) l).
    { eapply Forall_impl; [exact Hf|]. intros e' He'. cbn. eapply (key_le_trans false); [exact Hk|exact He']. }
    assert (Hgt : Forall (fun e' : bytes * bytes => key_le false k e'.1 /\ e'.1 <> k) l).
    { apply Forall_forall. intros e' He'. split; [by eapply Forall_forall in Hall|]. intros Ek.
      assert (e'.1 = e.1) as Eq. { apply bytes_leb_antisym; [rewrite Ek; exact Hk|]. by eapply Forall_forall in Hf. }
      apply Hni. rewrite <- Eq. by apply list_elem_of_fmap_2. }
    rewrite (filter_Forall_all _ _ Hall). destruct (decide (e.1 = k)) as [Ek|Ek].
    + right. exists e.2. rewrite filter_cons_False by (by intros [_ ?]). rewrite (filter_Forall_all _ _ Hgt). destruct e. cbn in Ek. by subst.
    + left. by rewrite filter_cons_True, (filter_Forall_all _ _ Hgt) by done.
  - rewrite !filter_cons_False by (done || by intros [? _]). by apply IH.
Qed.

Lemma above_length k m : length (above k m) <= size m.
Proof. rewrite <- length_sorted. apply length_filter. Qed.

(** Behind the entry [i] come the entries after it. *)
Lemma above_lookup m i e : sorted_entries m !! i = Some e -> above e.1 m = drop (S i) (sorted_entries m).
Proof.
  unfold above. pose proof (sorted_sorted m) as Hs. pose proof (keys_nodup m) as Hnd. revert i.
  induction Hs as [|e0 l Hs IH Hf]; intros i Hi; [done|]. cbn in Hnd. apply NoDup_cons in Hnd as [Hni Hnd]. destruct i as [|i].
  - cbn in Hi. injection Hi as ->. rewrite filter_cons_False by (by intros [_ ?]). cbn [drop]. rewrite drop_0. apply filter_Forall_all.
    apply Forall_forall. intros e' He'. split; [by eapply Forall_forall in Hf|]. intros Ek. apply Hni. rewrite <- Ek. by apply list_elem_of_fmap_2.
  - cbn in Hi. rewrite filter_cons_False; [by apply IH|]. intros [Hle Hne]. apply Hne. apply bytes_leb_antisym; [|exact Hle].
    apply list_elem_of_lookup_2 in Hi. by eapply Forall_forall in Hf.
Qed.

Lemma store_all_perm (items : list (bytes * bytes)) (m : gmap bytes bytes) :
  NoDup items.*1 -> Forall (fun x => m !! x.1 = None) items -> map_to_list (store_all items m) ≡ₚ items ++ map_to_list m.
Proof.
  revert m. induction items as [|[k v] items IH]; intros m Hnd Hf; [done|]. cbn in Hnd. apply NoDup_cons in Hnd as [Hni Hnd].
  apply Forall_cons in Hf as [Hk Hf]. cbn [fst] in Hk. unfold store_all. cbn [foldl fst snd]. fold (store_all items (m ∪ {[k := v]})).
  rewrite <- (insert_union_singleton_r m k v Hk), IH; [|done|].
  - rewrite map_to_list_insert by done. rewrite <- Permutation_middle. done.
  - apply Forall_forall. intros x Hx. rewrite lookup_insert_ne; [by eapply Forall_forall in Hf|]. intros ->. apply Hni. by apply list_elem_of_fmap_2.
Qed.


(** What is stored in an empty set is what an enumerator visits. *)
Lemma sorted_stored (items : list (bytes * bytes)) : NoDup items.*1 -> sorted_entries (store_all items ∅) ≡ₚ items.
Proof.
  intros Hnd. unfold sorted_entries. rewrite (merge_sort_Permutation (entry_le false)), store_all_perm; [by rewrite map_to_list_empty, app_nil_r|done|].
  by apply Forall_forall.
Qed.

(** ** What the pages hold *)

Section Pages.
Context `{Mdb, !MdbCursor, !MdbLaws, !MdbCursorLaws, !MdbReliable, !MdbCursorReliable} {Id : Type} {RI : RowId Id} {RL : RowIdLaws Id}.
Context (n : Z) (Hn : (1 <= n < 2 ^ 32 - 5)%Z).
Context (mem : slice_mem) (Hmem : sm_rbr mem = true /\ sm_enum mem = true /\ sm_table mem = true /\ sm_set mem = true).
Context (table : mdv_table) (desc : list mdv_field) (fields : mdv_bitset).
Context (Hdesc : desc_ok (tb_desc table) desc) (Hfields : Bitset.wf fields) (Hcover : length desc <= mdv_bitset_capacity fields).
Context (restore : nat -> bytes -> outcome (option mdv_row)) (filter : mdv_row -> Z) (Hfilter : forall row, filter row = 1%Z).

#[local] Existing Instance objects_laws.

(** The identifier and the row of an entry. *)
Definition entry_of (kv : bytes * bytes) (x : Id * mdv_row) : Prop :=
  id_ok x.1 /\ kv.1 = id_key x.1 /\ forall k, restore k kv.2 = Done (Some x.2).

Lemma entry_reads kv x : entry_of kv x -> reads_as restore id_of_key kv x.
Proof. intros (Ho & Hk & Hr). split; [rewrite Hk; by apply id_read|done]. Qed.

Definition table_of_slice : mdv_table := mk_table 1 (tb_id table)
  (mk_desc (td_name (tb_desc table)) (length (pick (Some fields) 0 desc)) (Some <$> pick (Some fields) 0 desc)).

Lemma table_slice_ok : mdv_table_slice true table fields = Done (Some table_of_slice).
Proof. apply (table_create_impl_spec (tb_desc table) desc (Some fields) Hdesc (conj Hfields Hcover) (tb_id table)). Qed.

Lemma leave_ok o m e i : set_live n o -> at_entry n o m e i -> exists o', leave e = Done o' /\ set_live n o' /\ same_set o o'.
Proof. intros Hl Hat. destruct (release_runs n Hn o m e i Hl Hat) as (o' & E & Hl' & Hs). exists o'. unfold leave. by rewrite E. Qed.

(** A page read from an open enumerator. *)
Lemma slice_impl_ok o m e l xs fuel count (rowid : Id) :
  set_live n o -> rest_of n o m e l -> l <> [] -> Forall2 entry_of l xs -> length l < fuel ->
  exists e' o', slice_rows restore id_of_key filter mem fuel e table fields count rowid
    = Done (e', default rowid (fst <$> last (take count xs)), Some (mk_rowset 1 table_of_slice (snd <$> take count xs)))
    /\ leave e' = Done o' /\ set_live n o' /\ same_set o o'.
Proof.
  intros Hl Hr Hne Hx Hf. destruct Hmem as (_ & _ & Hm1 & Hm2).
  destruct (slice_rows_ok restore id_of_key filter (sorted_entries m)
    (fun e => exists i, at_entry n o m e i) (rest_of n o m) Hfilter mem l xs fuel count e rowid table fields desc)
    as (e' & t & E & (i & Hat) & Ht); try done.
  { eapply Forall2_impl; [exact Hx|]. apply entry_reads. }
  destruct (leave_ok o m e' i Hl Hat) as (o' & Hlv & Hl' & Hs). exists e', o'. split; [|by split_and!].
  rewrite table_slice_ok in Ht. injection Ht as <-. exact E.
Qed.

(** What a page shows: the rows [xs] are there, [count] of them are asked for. *)
Definition page_of (o : mdv_2pset) (xs : list (Id * mdv_row)) (count : nat) (rowid : Id)
    (res : outcome (mdv_2pset * Id * option mdv_rowset)) : Prop :=
  exists o', set_live n o' /\ same_set o o'
    /\ res = Done (o', default rowid (fst <$> last (take count xs)),
                   match xs with [] => None | _ => Some (mk_rowset 1 table_of_slice (snd <$> take count xs)) end).

Lemma from_begin_runs o m xs fuel count rowid :
  set_live n o -> Enumerator.objects o = Some m -> Forall2 entry_of (sorted_entries m) xs -> size m < fuel ->
  page_of o xs count rowid (slice_from_begin restore filter mem fuel o table fields count rowid).
Proof.
  intros Hl Hm Hx Hf. unfold slice_from_begin, mdv_2pset_enumerator. pose proof (create_runs n Hn true o None Hl) as Hc.
  cbv zeta in Hc. destruct Hmem as (-> & -> & _). destruct (mdv_objects_enumerator_create _ _ _ _ _) as [o'|e].
  - destruct Hc as (Hl' & Hs & Hc). specialize (Hc _ _ eq_refl m Hm). cbn [begins] in Hc. rewrite Hc in Hx. apply Forall2_nil_inv_l in Hx as ->.
    exists o'. split_and!; try done. by rewrite take_nil.
  - destruct Hc as (m' & Hm' & Hne & Hr). rewrite Hm in Hm'. injection Hm' as <-. cbn [begins] in *.
    destruct (slice_impl_ok o m e _ xs fuel count rowid Hl Hr Hne Hx) as (e' & o' & -> & Hlv & Hl' & Hs); [by rewrite length_sorted|].
    cbn [mbind outcome_bind]. rewrite Hlv. cbn [mbind outcome_bind]. exists o'. split_and!; try done.
    destruct xs; [by apply Forall2_nil_inv_r in Hx|done].
Qed.

(** Every key is the key of an identifier. *)
Definition id_keys (m : gmap bytes bytes) : Prop := Forall (fun e => exists id, id_ok id /\ e.1 = id_key id) (sorted_entries m).

Lemma behind_runs o m xs fuel count (rowid : Id) :
  set_live n o -> Enumerator.objects o = Some m -> id_ok rowid -> id_keys m ->
  Forall2 entry_of (above (id_key rowid) m) xs -> size m < fuel ->
  page_of o xs count rowid (slice_behind restore filter mem fuel o table fields count rowid).
Proof.
  intros Hl Hm Hid Hkeys Hx Hf. unfold slice_behind, mdv_2pset_enumerator_from.
  pose proof (create_runs n Hn true o (Some (id_key rowid)) Hl) as Hc. cbv zeta in Hc.
  destruct (begins_above (id_key rowid) m) as [Hbe|[v0 Hbe]];
    (destruct Hmem as (-> & -> & _); destruct (mdv_objects_enumerator_create _ _ _ _ _) as [o'|e];
     [destruct Hc as (Hl' & Hs & Hc); specialize (Hc _ _ eq_refl m Hm); rewrite Hbe in Hc|destruct Hc as (m' & Hm' & Hne & Hr);
      rewrite Hm in Hm'; injection Hm' as <-; rewrite Hbe in Hr, Hne]).
  - rewrite Hc in Hx. apply Forall2_nil_inv_l in Hx as ->. exists o'. split_and!; try done. by rewrite take_nil.
  - destruct (above (id_key rowid) m) as [|kv l] eqn:Ea; [done|].
    assert (Hkv : kv ∈ above (id_key rowid) m) by (rewrite Ea; left). unfold above in Hkv. apply list_elem_of_filter in Hkv as [[_ Hnk] Hin].
    assert (Hlen : length (kv :: l) < fuel) by (rewrite <- Ea; pose proof (above_length (id_key rowid) m); lia).
    eapply Forall_forall in Hkeys; [|exact Hin]. destruct Hkeys as (id & Hok & Hu).
    rewrite (current_law _ _ _ Hr). cbn [deref mbind outcome_bind]. rewrite Hu, (id_read _ Hok). cbn [mbind outcome_bind].
    rewrite (id_same id rowid Hok Hid), <- Hu, bool_decide_eq_false_2 by done. rewrite decide_False by (by intros []).
    destruct (slice_impl_ok o m e _ xs fuel count rowid Hl Hr Hne Hx Hlen) as (e' & o' & -> & Hlv & Hl' & Hs).
    cbn [mbind outcome_bind]. rewrite Hlv. cbn [mbind outcome_bind]. exists o'. split_and!; try done.
    destruct xs; [by apply Forall2_nil_inv_r in Hx|done].
  - done.
  - rewrite (current_law _ _ _ Hr). cbn [deref mbind outcome_bind fst]. rewrite (id_read _ Hid). cbn [mbind outcome_bind].
    rewrite (id_same _ _ Hid Hid), bool_decide_eq_true_2 by done.
    pose proof (next_law _ _ _ Hr) as Hnx. destruct (mdv_enumerator_next e) as [e1 err].
    destruct (above (id_key rowid) m) as [|kv l] eqn:Ea.
    + destruct Hnx as [Herr (i & Hat)]. rewrite decide_True by done. destruct (leave_ok _ m e1 i Hl Hat) as (o' & -> & Hl' & Hs).
      cbn [mbind outcome_bind]. apply Forall2_nil_inv_l in Hx as ->. exists o'. split_and!; try done. by rewrite take_nil.
    + destruct Hnx as [-> Hr1]. rewrite decide_False by (by intros []).
      assert (Hlen : length (kv :: l) < fuel) by (rewrite <- Ea; pose proof (above_length (id_key rowid) m); lia).
      destruct (slice_impl_ok o m e1 _ xs fuel count rowid Hl Hr1 ltac:(done) Hx Hlen) as (e' & o' & -> & Hlv & Hl' & Hs).
      cbn [mbind outcome_bind]. rewrite Hlv. cbn [mbind outcome_bind]. exists o'. split_and!; try done.
      destruct xs; [by apply Forall2_nil_inv_r in Hx|done].
Qed.

(** ** The position of a view *)

(** The rows before the position [p] were shown; the next page starts at the
    beginning or behind the row with the identifier [rowid]. *)
Definition position (xs : list (Id * mdv_row)) (from_begin : bool) (rowid : Id) (p : nat) : Prop :=
  if from_begin then p = 0 else exists i x, p = S i /\ xs !! i = Some x /\ rowid = x.1.

Lemma entries_keys m xs : Forall2 entry_of (sorted_entries m) xs -> id_keys m.
Proof. intros Hx. eapply Forall2_Forall_l; [exact Hx|]. apply Forall_forall. intros x _ kv (Ho & Hk & _). by exists x.1. Qed.

Lemma same_set_trans o1 o2 o3 : same_set o1 o2 -> same_set o2 o3 -> same_set o1 o3.
Proof. intros (?&?&?&?) (?&?&?&?). unfold same_set. split_and!; congruence. Qed.

Lemma page_runs o o1 m xs fuel count from_begin rowid p :
  set_live n o1 -> same_set o o1 -> Enumerator.objects o = Some m -> Forall2 entry_of (sorted_entries m) xs -> size m < fuel -> 1 <= count ->
  position xs from_begin rowid p ->
  exists o' rowid', (if from_begin then slice_from_begin restore filter mem fuel o1 table fields count rowid
                     else slice_behind restore filter mem fuel o1 table fields count rowid)
    = Done (o', rowid', match drop p (snd <$> xs) with [] => None | _ => Some (mk_rowset 1 table_of_slice (take count (drop p (snd <$> xs)))) end)
    /\ set_live n o' /\ same_set o o'
    /\ (drop p (snd <$> xs) <> [] -> position xs false rowid' (p + length (take count (drop p (snd <$> xs))))).
Proof.
  intros Hl Hs Hobj Hx Hf Hc Hp.
  assert (Ho : Enumerator.objects o1 = Some m) by (unfold Enumerator.objects in *; by rewrite (proj1 Hs)).
  assert (Hpage : page_of o1 (drop p xs) count rowid
            (if from_begin then slice_from_begin restore filter mem fuel o1 table fields count rowid
             else slice_behind restore filter mem fuel o1 table fields count rowid)).
  { destruct from_begin.
    - cbn in Hp. subst p. rewrite drop_0. by apply (from_begin_runs _ m).
    - destruct Hp as (i & x & -> & Hi & Hid). destruct (Forall2_lookup_r _ _ _ _ _ Hx Hi) as (kv & Hkv & Hok & Hk & _).
      apply (behind_runs _ m); try done; [by rewrite Hid|by eapply entries_keys|].
      rewrite Hid, <- Hk, (above_lookup m i kv Hkv). by apply Forall2_drop. }
  destruct Hpage as (o' & Hl' & Hs' & ->). rewrite <- fmap_drop, <- fmap_take, length_fmap. exists o', (default rowid (fst <$> last (take count (drop p xs)))). split.
  { by destruct (drop p xs). }
  split; [done|]. split; [by eapply same_set_trans|]. intros Hne.
  destruct (last (take count (drop p xs))) as [x|] eqn:El.
  - rewrite last_lookup in El. destruct (length (take count (drop p xs))) as [|k] eqn:Ek.
    { apply length_zero_iff_nil in Ek. rewrite Ek in El. done. }
    exists (p + k), x. split; [lia|]. cbn [pred] in El. split; [|done]. apply lookup_take_Some in El as [El _]. by rewrite lookup_drop in El.
  - apply last_None in El. destruct (drop p xs); [done|]. destruct count; [lia|done].
Qed.

End Pages.
End Slice.
