(* ===== verification/Rowdata.v ===== *)
(** * Rows of a table and their views (src/mdv_core/storage)

    mdv_rowdata.c and mdv_rowdata_view.c: rows are the objects of a two-phase
    set, serialised as lists, under identifiers of twelve bytes.  A view hands
    them out page by page and remembers the identifier of the last row. *)

From S2P Require Import Prelude Bitset Uuid Vector Rollbacker Vm Predicate Lmdb Memdb Session Pset Enumerator Binn Types Serialization Slice.
Import Bitset Uuid Rollbacker Predicate Lmdb Memdb Pset Session Enumerator Binn Types Serialization Slice.

Module Rowdata.

(** ** Keys and identifiers *)

(** The identifier at a key, whose size is asserted. *)
Definition read_objid (key : bytes) : outcome mdv_objid :=
  if (length key =? 12)%nat then Done (mk_objid (of_le (take 4 key)) (of_le (drop 4 key))) else OutOfBounds (Z.of_nat (length key)).

Definition objid_ok (id : mdv_objid) : Prop := fits 32 (objid_node id) /\ fits 64 (objid_id id).

Lemma read_objid_u8s id : objid_ok id -> read_objid (objid_u8s id) = Done id.
Proof.
  intros [H1 H2]. unfold read_objid, objid_u8s. rewrite length_app, !length_to_le. cbn [Nat.add Nat.eqb].
  rewrite take_app_length', drop_app_length' by (by rewrite length_to_le). rewrite !of_to_le_id by done. by destruct id.
Qed.

Definition same_objid (a b : mdv_objid) : bool := (objid_node a =? objid_node b)%Z && (objid_id a =? objid_id b)%Z.

#[global] Instance objid_row : RowId mdv_objid := {|
  id_key := objid_u8s; id_of_key := read_objid; same_id := same_objid; id_ok := objid_ok
|}.

#[global] Instance objid_row_laws : RowIdLaws mdv_objid.
Proof.
  split; [apply read_objid_u8s|]. intros a b Ha Hb. cbn [same_id id_key objid_row]. unfold same_objid. symmetry.
  destruct (Z.eqb_spec (objid_node a) (objid_node b)) as [En|En], (Z.eqb_spec (objid_id a) (objid_id b)) as [Ei|Ei]; cbn [andb];
    first [apply bool_decide_eq_true_2; unfold objid_u8s; by rewrite En, Ei|
           apply bool_decide_eq_false_2; intros E; apply (f_equal read_objid) in E; rewrite !read_objid_u8s in E by done; by injection E as ->].
Qed.

(** ** The storage of the rows *)

Section Rowdata.
Context `{Mdb, !MdbCursor, Binn}.

Record mdv_rowdata := mk_rowdata { rd_objects : mdv_2pset; rd_table : mdv_uuid }.

(** [snprintf(name, size, "%s.mdb", ...)] *)
Definition MDV_STRG_UUID (uuid : mdv_uuid) (size : nat) : list Z :=
  take (size - 1) (mdv_uuid_to_str uuid ++ [46; 109; 100; 98]%Z).

Inductive rd_release_fn := Fn_rd_rollbacker_free | Fn_rd_free | Fn_rd_set_release.
Inductive rd_resource := Res_rd_rollbacker | Res_rowdata | Res_rd_objects.

Definition rd_push (r : option (mdv_rollbacker rd_release_fn rd_resource)) (f : rd_release_fn) (x : rd_resource) :=
  snd (mdv_rollbacker_push r (mk_op f [x])).

(** [open_set name]: the result of [mdv_2pset_open] in the directory.  The
    storage, or null and the calls of the rollback. *)
Definition mdv_rowdata_open (mem_rbr mem : bool) (open_set : list Z -> option mdv_2pset) (table : mdv_uuid)
  : option mdv_rowdata * list (rd_release_fn * list rd_resource) :=
  let rbr := mdv_rollbacker_create mem_rbr Fn_rd_rollbacker_free Res_rd_rollbacker 2 in
  if negb mem then (None, mdv_rollback rbr) else
  let rbr := rd_push rbr Fn_rd_free Res_rowdata in
  match open_set (MDV_STRG_UUID table 64) with
  | None => (None, mdv_rollback rbr)
  | Some o => (Some (mk_rowdata o table), [])
  end.

Definition mdv_rowdata_retain (r : option mdv_rowdata) : option mdv_rowdata :=
  match r with
  | None => None
  | Some r => match mdv_2pset_retain (Some (rd_objects r)) with
              | Some o => Some (mk_rowdata o (rd_table r))
              | None => Some r
              end
  end.

(** The returned count; the storage is freed with its set. *)
Definition mdv_rowdata_release (r : option mdv_rowdata) : Z * option mdv_rowdata :=
  match r with
  | None => (0%Z, None)
  | Some r =>
      let '(rc, o) := mdv_2pset_release (Some (rd_objects r)) in
      (rc, match o with Some o => Some (mk_rowdata o (rd_table r)) | None => None end)
  end.

Definition with_set (r : mdv_rowdata) (l : locals) : mdv_rowdata := mk_rowdata (l_objs l) (rd_table r).

Definition mdv_rowdata_reserve (lock : mdv_errno) (mem : bool) (r : mdv_rowdata) (range : Z) : mdv_rowdata * mdv_errno * option Z :=
  let '(l, err, id) := mdv_2pset_reserve_ids_range lock mem (rd_objects r) range in (with_set r l, err, id).

Definition mdv_rowdata_add_raw (mem : bool) (r : mdv_rowdata) (id : mdv_objid) (row : bytes) : mdv_rowdata * mdv_errno :=
  let '(l, err) := mdv_2pset_add mem (rd_objects r) (objid_u8s id) row in (with_set r l, err).

(** The pairs that [mdv_rowdata_batch_next] yields. *)
Fixpoint mdv_rowdata_batch_next (items : list binn) (node id : Z) : list (bytes * bytes) :=
  match items with
  | [] => []
  | item :: items => (objid_u8s (mk_objid node id), binn_data item) :: mdv_rowdata_batch_next items node (u64 (id + 1))
  end.

Definition mdv_rowdata_add_raw_rowset (mem : bool) (r : mdv_rowdata) (id : mdv_objid) (rowset : binn) : mdv_rowdata * mdv_errno :=
  let '(l, err) := mdv_2pset_add_batch mem (rd_objects r) (mdv_rowdata_batch_next (binn_items rowset) (objid_node id) (objid_id id)) in
  (with_set r l, err).

(** The row at a value: [binn_load] and [mdv_unbinn_row_slice]. *)
Definition restore_row (m : slice_mem) (desc : mdv_table_desc) (fields : mdv_bitset) (k : nat) (v : bytes) : outcome (option mdv_row) :=
  match binn_load v with
  | Some binn_row => mdv_unbinn_row_slice (sm_row m k) binn_row desc (Some fields)
  | None => Done None
  end.

Definition mdv_rowdata_slice_impl (m : slice_mem) (fuel : nat) (e : objects_enumerator) (table : mdv_table) (fields : mdv_bitset)
    (count : nat) (rowid : mdv_objid) (filter : mdv_row -> Z) : outcome (objects_enumerator * mdv_objid * option mdv_rowset) :=
  slice_rows (restore_row m (tb_desc table) fields) id_of_key filter m fuel e table fields count rowid.

(** [rowid]: the identifier of the last row, read and written. *)
Definition mdv_rowdata_slice_from_begin (m : slice_mem) (fuel : nat) (r : mdv_rowdata) (table : mdv_table) (fields : mdv_bitset)
    (count : nat) (rowid : mdv_objid) (filter : mdv_row -> Z) : outcome (mdv_rowdata * mdv_objid * option mdv_rowset) :=
  x ← slice_from_begin (restore_row m (tb_desc table) fields) filter m fuel (rd_objects r) table fields count rowid;
  let '(o, rowid, rs) := x in Done (mk_rowdata o (rd_table r), rowid, rs).

Definition mdv_rowdata_slice (m : slice_mem) (fuel : nat) (r : mdv_rowdata) (table : mdv_table) (fields : mdv_bitset)
    (count : nat) (rowid : mdv_objid) (filter : mdv_row -> Z) : outcome (mdv_rowdata * mdv_objid * option mdv_rowset) :=
  x ← slice_behind (restore_row m (tb_desc table) fields) filter m fuel (rd_objects r) table fields count rowid;
  let '(o, rowid, rs) := x in Done (mk_rowdata o (rd_table r), rowid, rs).

(** ** Views (mdv_rowdata_view.c) *)

Record mdv_rowdata_view := mk_view {
  vw_rc : Z;
  vw_source : mdv_rowdata;
  vw_table : mdv_table;
  vw_table_slice : mdv_table;
  vw_fields : mdv_bitset;
  vw_filter : mdv_predicate;
  vw_rowid : mdv_objid;
  vw_fetch_from_begin : bool
}.

(** [rowid]: what the new block holds.  The arguments get one reference more,
    which the view has. *)
Definition mdv_rowdata_view_create (mem mem_slice : bool) (source : mdv_rowdata) (table : mdv_table) (fields : mdv_bitset)
    (predicate : mdv_predicate) (rowid : mdv_objid) : outcome (option mdv_rowdata_view) :=
  if negb mem then Done None else
  table_slice ← mdv_table_slice mem_slice table fields;
  match table_slice with
  | None => Done None
  | Some table_slice =>
      source ← deref (mdv_rowdata_retain (Some source));
      Done (Some (mk_view 1 source (mdv_table_retain table) table_slice (mdv_bitset_retain fields) (mdv_predicate_retain predicate) rowid true))
  end.

Definition mdv_rowdata_view_retain (v : mdv_rowdata_view) : mdv_rowdata_view :=
  mk_view (rc_retain (vw_rc v)) (vw_source v) (vw_table v) (vw_table_slice v) (vw_fields v) (vw_filter v) (vw_rowid v) (vw_fetch_from_begin v).

(** The returned count; the view, or what is left of the objects it refers to. *)
Definition mdv_rowdata_view_release (v : option mdv_rowdata_view)
  : Z * (option mdv_rowdata_view + (option mdv_predicate * option mdv_rowdata * option mdv_table * option mdv_table * option mdv_bitset)) :=
  match v with
  | None => (0%Z, inl None)
  | Some v =>
      let '(rc, refs, dead) := rc_release (vw_rc v) in
      (refs, if dead then
               inr (snd (fst (mdv_predicate_release (Some (vw_filter v)))), snd (mdv_rowdata_release (Some (vw_source v))),
                    snd (mdv_table_release (Some (vw_table v))), snd (mdv_table_release (Some (vw_table_slice v))),
                    fst (mdv_bitset_release (vw_fields v)))
             else inl (Some (mk_view rc (vw_source v) (vw_table v) (vw_table_slice v) (vw_fields v) (vw_filter v) (vw_rowid v) (vw_fetch_from_begin v))))
  end.

(** The table of the rows of the view, with a reference more. *)
Definition mdv_rowdata_view_desc (v : mdv_rowdata_view) : mdv_rowdata_view * mdv_table :=
  let t := mdv_table_retain (vw_table_slice v) in
  (mk_view (vw_rc v) (vw_source v) (vw_table v) t (vw_fields v) (vw_filter v) (vw_rowid v) (vw_fetch_from_begin v), t).

Definition mdv_rowdata_view_filter (row : mdv_row) : Z := 1.

Definition mdv_rowdata_view_fetch (m : slice_mem) (fuel : nat) (v : mdv_rowdata_view) (count : nat) : outcome (mdv_rowdata_view * option mdv_rowset) :=
  x ← (if vw_fetch_from_begin v
       then mdv_rowdata_slice_from_begin m fuel (vw_source v) (vw_table v) (vw_fields v) count (vw_rowid v) mdv_rowdata_view_filter
       else mdv_rowdata_slice m fuel (vw_source v) (vw_table v) (vw_fields v) count (vw_rowid v) mdv_rowdata_view_filter);
  let '(source, rowid, rs) := x in
  Done (mk_view (vw_rc v) source (vw_table v) (vw_table_slice v) (vw_fields v) (vw_filter v) rowid false, rs).

(** The functions of this view. *)
#[global] Instance rowdata_view_vtbl (m : slice_mem) (fuel : nat) : IView mdv_rowdata_view := {|
  view_retain := mdv_rowdata_view_retain;
  view_release v := let '(rc, r) := mdv_rowdata_view_release (Some v) in (rc, match r with inl v => v | inr _ => None end);
  view_desc := mdv_rowdata_view_desc;
  view_fetch := mdv_rowdata_view_fetch m fuel
|}.

End Rowdata.

(** ** Sets of rows *)

Section Rowsets.
Context `{Binn}.

Lemma makes_rowset desc rset :
  desc_ok (tb_desc (rs_table rset)) desc -> Forall (row_ok desc) (rs_rows rset) ->
  makes (mdv_binn_rowset (S (length (rs_rows rset))) rset) (B_list (row_doc desc <$> rs_rows rset)).
Proof.
  intros Hdt Hok. unfold mdv_binn_rowset. step_writer. eapply makes_bind; [apply makes_request|].
  apply (makes_rows_loop desc rset 1 (length (rs_rows rset)) 0 []); [done|done|lia].
Qed.

Lemma batch_next_keys items node id : Forall (fun x : bytes * bytes => valid_key x.1) (mdv_rowdata_batch_next items node id).
Proof.
  revert id. induction items as [|item items IH]; intros id; cbn [mdv_rowdata_batch_next]; [done|]. constructor; [|apply IH].
  cbn [fst]. unfold valid_key, objid_u8s. rewrite length_app, !length_to_le. lia.
Qed.

End Rowsets.

(** ** Pages *)

Section Pages.
Context `{Mdb, !MdbCursor, !MdbLaws, !MdbCursorLaws, !MdbReliable, !MdbCursorReliable, Binn}.
Context (n : Z) (Hn : (1 <= n < 2 ^ 32 - 5)%Z).
Context (mem : slice_mem) (Hmem : sm_rbr mem = true /\ sm_enum mem = true /\ sm_table mem = true /\ sm_set mem = true)
  (Hrow : forall k, sm_row mem k = true).
Context (table : mdv_table) (desc : list mdv_field) (fields : mdv_bitset).
Context (Hdesc : desc_ok (tb_desc table) desc) (Hfields : Bitset.wf fields) (Hcover : length desc <= mdv_bitset_capacity fields).

(** The row that the mask selects of an entry, with its identifier. *)
Definition row_of (kv : bytes * bytes) (x : mdv_objid * mdv_row) : Prop :=
  objid_ok x.1 /\ kv.1 = objid_u8s x.1
  /\ exists v, binn_load kv.2 = Some v /\ mdv_unbinn_row_slice true v (tb_desc table) (Some fields) = Done (Some x.2).

Lemma row_of_entry kv x : row_of kv x -> entry_of (restore_row mem (tb_desc table) fields) kv x.
Proof. intros (Ho & Hk & v & Hv & Hr). split; [done|]. split; [done|]. intros k. unfold restore_row. rewrite Hv. by rewrite Hrow. Qed.

Lemma rows_entries l xs : Forall2 row_of l xs -> Forall2 (entry_of (restore_row mem (tb_desc table) fields)) l xs.
Proof. intros Hx. eapply Forall2_impl; [exact Hx|]. apply row_of_entry. Qed.

Section View.
Context (o : mdv_2pset) (m : gmap bytes bytes) (xs : list (mdv_objid * mdv_row)) (fuel : nat).
Context (Hobj : Enumerator.objects o = Some m) (Hrows : Forall2 row_of (sorted_entries m) xs) (Hfuel : size m < fuel).

(** The storage that a view reads is usable and has the same rows as before. *)
Definition view_live (v : mdv_rowdata_view) : Prop := set_live n (rd_objects (vw_source v)) /\ same_set o (rd_objects (vw_source v)).

(** The rows before the position [p] were shown. *)
Record view_at (v : mdv_rowdata_view) (p : nat) : Prop := {
  va_live : view_live v;
  va_table : vw_table v = table;
  va_fields : vw_fields v = fields;
  va_pos : position xs (vw_fetch_from_begin v) (vw_rowid v) p
}.

#[local] Existing Instance rowdata_view_vtbl.

Lemma rowdata_view_laws :
  @ViewLaws mdv_rowdata_view (rowdata_view_vtbl mem fuel) (snd <$> xs) (table_of_slice table desc fields) view_at view_live.
Proof.
  split. intros v p count [[Hl Hs] Ht Hf Hp] Hc. cbn [view_fetch rowdata_view_vtbl]. unfold mdv_rowdata_view_fetch. rewrite Ht, Hf.
  destruct (page_runs n Hn mem Hmem table desc fields Hdesc Hfields Hcover (restore_row mem (tb_desc table) fields) mdv_rowdata_view_filter
    (fun _ => eq_refl) o (rd_objects (vw_source v)) m xs fuel count _ _ p Hl Hs Hobj (rows_entries _ _ Hrows) Hfuel Hc Hp) as (o' & rowid' & E & Hl' & Hs' & Hp').
  unfold mdv_rowdata_slice_from_begin, mdv_rowdata_slice.
  eexists. split; [by destruct (vw_fetch_from_begin v); rewrite E|]. destruct (decide _) as [He|Hne]; [done|]. split; try done. by apply Hp'.
Qed.

End View.

(** ** Theorems *)

(** a page read after a row shows the first rows, as many as asked for, of
    those whose keys are behind the key of that row, whether the row is still
    there or not, and remembers the last of them; without any the result is
    null.  The set is left as it was and nothing stays open. *)
Theorem mdv_rowdata_slice_correct r m xs fuel count rowid :
  set_live n (rd_objects r) -> Enumerator.objects (rd_objects r) = Some m -> objid_ok rowid ->
  id_keys (Id := mdv_objid) m -> Forall2 row_of (above (objid_u8s rowid) m) xs -> size m < fuel ->
  exists r', mdv_rowdata_slice mem fuel r table fields count rowid mdv_rowdata_view_filter
    = Done (r', default rowid (fst <$> last (take count xs)),
            match xs with [] => None | _ => Some (mk_rowset 1 (table_of_slice table desc fields) (snd <$> take count xs)) end)
    /\ set_live n (rd_objects r') /\ same_set (rd_objects r) (rd_objects r').
Proof.
  intros Hl Hm Hid Hk Hx Hf.
  destruct (behind_runs (Id := mdv_objid) (RI := objid_row) n Hn mem Hmem table desc fields Hdesc Hfields Hcover (restore_row mem (tb_desc table) fields) mdv_rowdata_view_filter
    (fun _ => eq_refl) (rd_objects r) m xs fuel count rowid Hl Hm Hid Hk (rows_entries _ _ Hx) Hf) as (o' & Hl' & Hs & E).
  unfold mdv_rowdata_slice. rewrite E. eexists. split; [done|]. by split.
Qed.

(** C25: fetching the pages of a new view until there is none ends, and shows every
    row of the table once, in the order of the keys, cut to the columns of the
    view, whatever the size of the pages. *)
Theorem mdv_rowdata_view_pages v m xs fuel count :
  set_live n (rd_objects (vw_source v)) -> Enumerator.objects (rd_objects (vw_source v)) = Some m ->
  vw_table v = table -> vw_fields v = fields -> vw_fetch_from_begin v = true ->
  Forall2 row_of (sorted_entries m) xs -> size m < fuel -> 1 <= count ->
  exists v', @fetch_all _ (rowdata_view_vtbl mem fuel) (S (length xs)) v count = Done (v', snd <$> xs)
    /\ view_live (rd_objects (vw_source v)) v'.
Proof.
  intros Hl Hm Ht Hf Hb Hx Hfuel Hc.
  pose proof (rowdata_view_laws (rd_objects (vw_source v)) m xs fuel Hm Hx Hfuel) as Hlaws.
  apply (fetch_all_ok (VL := Hlaws) (S (length xs)) v 0 count); [|done|rewrite drop_0, length_fmap; lia].
  split; try done. by rewrite Hb.
Qed.

(** ** Rows that were inserted *)

(** The identifiers and the selected fields of rows numbered from [id] on. *)
Fixpoint numbered (rows : list mdv_row) (node id : Z) : list (mdv_objid * mdv_row) :=
  match rows with
  | [] => []
  | row :: rows => (mk_objid node id, pick (Some fields) 0 row) :: numbered rows node (id + 1)
  end.

Lemma numbered_rows rows node id : snd <$> numbered rows node id = pick (Some fields) 0 <$> rows.
Proof. revert id. induction rows as [|row rows IH]; intros id; cbn; [done|]. by rewrite IH. Qed.

Lemma numbered_length rows node id : length (numbered rows node id) = length rows.
Proof. revert id. induction rows as [|row rows IH]; intros id; cbn; [done|]. by rewrite IH. Qed.

(** The pairs of a batch read as the rows they were made of. *)
Lemma batch_rows `{!BinnLaws} rows node id :
  Forall (row_ok desc) rows -> Forall (fun row => doc_ok (row_doc desc row) /\ (Z.of_nat (length (binn_bytes (row_doc desc row))) < 2 ^ 31)%Z) rows ->
  fits 32 node -> (0 <= id)%Z -> (id + Z.of_nat (length rows) <= 2 ^ 64)%Z ->
  Forall2 row_of (mdv_rowdata_batch_next (row_doc desc <$> rows) node id) (numbered rows node id)
  /\ NoDup (mdv_rowdata_batch_next (row_doc desc <$> rows) node id).*1.
Proof.
  intros Hr Hd Hnode. revert id. induction rows as [|row rows IH]; intros id Hid Hle; cbn [fmap list_fmap mdv_rowdata_batch_next numbered].
  { split; [done|apply NoDup_nil_2]. }
  apply Forall_cons in Hr as [Hr0 Hr]. apply Forall_cons in Hd as [[Hdoc Hsize] Hd]. cbn [length] in Hle.
  destruct (decide (rows = [])) as [->|Hne].
  { cbn. split; [|apply NoDup_singleton]. apply Forall2_cons. split; [|done].
    split; [split; [done|cbn; split; lia]|]. split; [done|]. exists (row_doc desc row). split; [by apply load_bytes|].
    by apply (unbinn_row_spec (tb_desc table) desc row (Some fields)). }
  assert (1 <= length rows) by (destruct rows; [done|cbn; lia]).
  rewrite wrap_id by (split; lia). destruct (IH Hr Hd (id + 1)%Z ltac:(lia) ltac:(lia)) as [IH1 IH2]. split.
  - apply Forall2_cons. split; [|done]. split; [split; [done|cbn; split; lia]|]. split; [done|]. exists (row_doc desc row).
    split; [by apply load_bytes|]. by apply (unbinn_row_spec (tb_desc table) desc row (Some fields)).
  - apply NoDup_cons. split; [|done]. rewrite list_elem_of_fmap. intros ([k v] & Ek & Hin). cbn [fst] in Ek.
    assert (Hgt : Forall (fun x : mdv_objid * mdv_row => id < objid_id x.1)%Z (numbered rows node (id + 1))).
    { assert (forall j, (id < j)%Z -> Forall (fun x : mdv_objid * mdv_row => id < objid_id x.1)%Z (numbered rows node j)) as Hj.
      { clear. induction rows as [|row' rows' IHr]; intros j Hj; cbn; constructor; [done|]. apply IHr. lia. }
      apply Hj. lia. }
    apply list_elem_of_lookup in Hin as (i & Hi). destruct (Forall2_lookup_l _ _ _ _ _ IH1 Hi) as (x & Hx & (Hox & Hkx & _)).
    eapply Forall_lookup_1 in Hgt; [|exact Hx]. cbn [fst] in Hkx. rewrite <- Ek in Hkx. apply (f_equal read_objid) in Hkx.
    rewrite !read_objid_u8s in Hkx; [|done|split; [done|cbn; split; lia]]. injection Hkx as Hkx. rewrite <- Hkx in Hgt. cbn in Hgt. lia.
Qed.

(** The rows of one batch are fetched from the storage that holds them. *)
Lemma fetch_batch `{!BinnLaws} v rows node id fuel count :
  Forall (row_ok desc) rows -> Forall (fun row => doc_ok (row_doc desc row) /\ (Z.of_nat (length (binn_bytes (row_doc desc row))) < 2 ^ 31)%Z) rows ->
  fits 32 node -> (0 <= id)%Z -> (id + Z.of_nat (length rows) <= 2 ^ 64)%Z -> length rows < fuel -> 1 <= count ->
  set_live n (rd_objects (vw_source v)) ->
  Enumerator.objects (rd_objects (vw_source v)) = Some (store_all (mdv_rowdata_batch_next (row_doc desc <$> rows) node id) ∅) ->
  vw_table v = table -> vw_fields v = fields -> vw_fetch_from_begin v = true ->
  exists v' out, @fetch_all _ (rowdata_view_vtbl mem fuel) (S (length rows)) v count = Done (v', out) /\ out ≡ₚ pick (Some fields) 0 <$> rows.
Proof.
  intros Hrows_ok Hdoc Hnode Hid Hwrap Hfuel Hc Hlive Hobj Ht Hf Hfb.
  destruct (batch_rows rows node id Hrows_ok Hdoc Hnode Hid Hwrap) as [Hb Hnd]. set (items := mdv_rowdata_batch_next _ _ _) in *.
  assert (Hlen : length items = length rows) by (rewrite (Forall2_length _ _ _ Hb); apply numbered_length). set (m := store_all items ∅) in *.
  assert (Hperm : sorted_entries m ≡ₚ items) by (by apply sorted_stored). destruct (Permutation_Forall2 (symmetry Hperm) Hb) as (xs & Hxs & Hrows).
  assert (Hlx : length xs = length rows) by (rewrite <- Hxs; apply numbered_length).
  assert (Hsize : size m < fuel) by (rewrite <- length_sorted, Hperm; lia).
  pose proof (rowdata_view_laws (rd_objects (vw_source v)) m xs fuel Hobj Hrows Hsize) as Hlaws.
  destruct (fetch_all_ok (VL := Hlaws) (S (length rows)) v 0 count) as (v' & E & _).
  - split; try done. by rewrite Hfb.
  - done.
  - rewrite drop_0, length_fmap. lia.
  - exists v', (snd <$> xs). rewrite drop_0 in E. split; [done|]. rewrite <- Hxs. by rewrite numbered_rows.
Qed.

(** rows that are serialised, inserted into an empty table in one batch and
    fetched through a view come back complete, each cut to the columns of the
    view; no row is lost or shown twice, whatever the size of the pages. *)
Theorem mdv_rowdata_insert_fetch `{!MdbRoom, !BinnLaws} r rset id fuel count :
  tb_desc (rs_table rset) = tb_desc table -> Forall (row_ok desc) (rs_rows rset) -> rs_rows rset <> [] ->
  Forall (fun row => doc_ok (row_doc desc row) /\ (Z.of_nat (length (binn_bytes (row_doc desc row))) < 2 ^ 31)%Z) (rs_rows rset) ->
  set_live n (rd_objects r) -> Pset.objects (db (s_env (o_storage (rd_objects r)))) = ∅ -> removed (db (s_env (o_storage (rd_objects r)))) = ∅ ->
  objid_ok id -> (objid_id id + Z.of_nat (length (rs_rows rset)) <= 2 ^ 64)%Z -> length (rs_rows rset) < fuel -> 1 <= count ->
  exists doc, makes (mdv_binn_rowset (S (length (rs_rows rset))) rset) doc
    /\ let '(r', err) := mdv_rowdata_add_raw_rowset true r id doc in
       err = MDV_OK
       /\ forall v, vw_source v = r' -> vw_table v = table -> vw_fields v = fields -> vw_fetch_from_begin v = true ->
          exists v' rows, @fetch_all _ (rowdata_view_vtbl mem fuel) (S (length (rs_rows rset))) v count = Done (v', rows)
            /\ rows ≡ₚ pick (Some fields) 0 <$> rs_rows rset.
Proof.
  intros Hdt Hrows_ok Hne Hdoc Hl Hempty Hrem [Hnode Hid] Hwrap Hfuel Hc. exists (B_list (row_doc desc <$> rs_rows rset)). split; [apply makes_rowset; [by rewrite Hdt|done]|].
  unfold mdv_rowdata_add_raw_rowset. rewrite items_list. pose proof (batch_next_keys (row_doc desc <$> rs_rows rset) (objid_node id) (objid_id id)) as Hkey.
  set (items := mdv_rowdata_batch_next _ _ _) in *. pose proof (batch_stored n ltac:(lia) (rd_objects r) items) as Hst.
  pose proof (add_batch_keys true (rd_objects r) items (sl_keys _ _ Hl)) as Hkeys.
  destruct (mdv_2pset_add_batch true (rd_objects r) items) as [l err]. cbn [fst] in Hkeys.
  change (dbl (Pset.enter (rd_objects r))) with (db (s_env (o_storage (rd_objects r)))) in Hst. rewrite Hempty, Hrem in Hst.
  destruct Hst as (-> & Hbal & Hidle & Ho & _); [by apply set_balanced_enter; apply Hl|done|by apply Forall_forall| |].
  { unfold items. destruct (rs_rows rset) as [|row rows]; [done|]. by apply Exists_cons_hd. }
  split; [done|]. intros v Hv Ht Hf Hfb. apply (fetch_batch v (rs_rows rset) (objid_node id) (objid_id id)); try done; [apply Hid|rewrite Hv; by apply idle_set_live|by rewrite Hv].
Qed.

End Pages.

(** ** An example *)

Definition demo_rowdata (d : database) : mdv_rowdata := mk_rowdata (mk_2pset (mk_lmdb 1 (d, ∅) true) false 5) (mk_uuid 1 2).
Definition demo_other : mdv_row := [to_le 8 9; [111; 107]; [2; 0; 7; 0]]%Z.
Definition demo_batch : list (bytes * bytes) := mdv_rowdata_batch_next (row_doc demo_fields <$> [demo_row; demo_other; demo_row]) 1 5.
Definition demo_stored : gmap bytes bytes := store_all demo_batch ∅.
Definition demo_db : database := {[ MDV_MAP_OBJECTS := demo_stored ]}.
Definition demo_mem : slice_mem := mk_slice_mem true true true true (fun _ => true) (fun _ => 4096%Z).
Definition demo_view (r : mdv_rowdata) : mdv_rowdata_view :=
  mk_view 1 r demo_table demo_table demo_mask (mk_predicate 1 (Vector.mk_vector 1 0 0 1 []) []) (mk_objid 0 0) true.

Lemma demo_other_ok : row_ok demo_fields demo_other.
Proof. demo_row_tac. Qed.

Lemma demo_rows_ok : Forall (row_ok demo_fields) [demo_row; demo_other; demo_row].
Proof. repeat apply Forall_cons_2; [apply demo_row_ok|apply demo_other_ok|apply demo_row_ok|apply Forall_nil_2]. Qed.

Lemma demo_docs_ok : Forall (fun row => doc_ok (row_doc demo_fields row) /\ (Z.of_nat (length (binn_bytes (row_doc demo_fields row))) < 2 ^ 31)%Z)
  [demo_row; demo_other; demo_row].
Proof. repeat apply Forall_cons_2; [..|apply Forall_nil_2]; (split; [vm_compute; repeat split; first [congruence|bytes_ok]|by vm_compute]). Qed.

Lemma demo_sorted : sorted_entries demo_stored = demo_batch.
Proof. vm_compute. reflexivity. Qed.

Lemma demo_numbered : Forall2 (row_of demo_table demo_mask) (sorted_entries demo_stored) (numbered demo_mask [demo_row; demo_other; demo_row] 1 5).
Proof.
  rewrite demo_sorted. apply (batch_rows demo_table demo_fields demo_mask (conj eq_refl eq_refl) demo_mask_wf ltac:(vm_compute; lia));
    [apply demo_rows_ok|apply demo_docs_ok|split; lia|lia|cbn; lia].
Qed.

Lemma demo_live d : set_live 1 (rd_objects (demo_rowdata d)).
Proof. split; [by split|]. cbn. set_solver. Qed.

Lemma mdv_rowdata_slice_correct_witness :
  exists r', mdv_rowdata_slice demo_mem 4 (demo_rowdata demo_db) demo_table demo_mask 1 (mk_objid 1 5) mdv_rowdata_view_filter
    = Done (r', mk_objid 1 6, Some (mk_rowset 1 (table_of_slice demo_table demo_fields demo_mask) [pick (Some demo_mask) 0 demo_other]))
    /\ set_live 1 (rd_objects r') /\ same_set (rd_objects (demo_rowdata demo_db)) (rd_objects r').
Proof.
  apply (mdv_rowdata_slice_correct 1 ltac:(lia) demo_mem ltac:(by split_and!) ltac:(done) demo_table demo_fields demo_mask (conj eq_refl eq_refl)
    demo_mask_wf ltac:(vm_compute; lia) (demo_rowdata demo_db) demo_stored (numbered demo_mask [demo_other; demo_row] 1 6) 4 1 (mk_objid 1 5)).
  - apply demo_live.
  - reflexivity.
  - split; split; cbn; lia.
  - apply (entries_keys _ _ _ (rows_entries demo_mem (fun _ => eq_refl) _ _ _ _ demo_numbered)).
  - replace (above _ _) with (drop 1 (sorted_entries demo_stored)) by (vm_compute; reflexivity). exact (Forall2_drop _ _ _ 1 demo_numbered).
  - vm_compute. lia.
Defined.

Lemma mdv_rowdata_view_pages_witness :
  exists v', @fetch_all _ (rowdata_view_vtbl demo_mem 4) 4 (demo_view (demo_rowdata demo_db)) 2
    = Done (v', pick (Some demo_mask) 0 <$> [demo_row; demo_other; demo_row])
    /\ view_live 1 (rd_objects (demo_rowdata demo_db)) v'.
Proof.
  exact (mdv_rowdata_view_pages 1 ltac:(lia) demo_mem ltac:(by split_and!) ltac:(done) demo_table demo_fields demo_mask (conj eq_refl eq_refl)
    demo_mask_wf ltac:(vm_compute; lia) (demo_view (demo_rowdata demo_db)) demo_stored _ 4 2 (demo_live _) eq_refl eq_refl eq_refl eq_refl demo_numbered
    ltac:(vm_compute; lia) ltac:(lia)).
Defined.

Lemma mdv_rowdata_insert_fetch_witness :
  exists doc, makes (mdv_binn_rowset 4 (mk_rowset 1 demo_table [demo_row; demo_other; demo_row])) doc
    /\ let '(r', err) := mdv_rowdata_add_raw_rowset true (demo_rowdata ∅) (mk_objid 1 5) doc in
       err = MDV_OK /\ exists v' rows, @fetch_all _ (rowdata_view_vtbl demo_mem 4) 4 (demo_view r') 2 = Done (v', rows)
         /\ rows ≡ₚ pick (Some demo_mask) 0 <$> [demo_row; demo_other; demo_row].
Proof.
  destruct (mdv_rowdata_insert_fetch 1 ltac:(lia) demo_mem ltac:(by split_and!) ltac:(done) demo_table demo_fields demo_mask (conj eq_refl eq_refl)
    demo_mask_wf ltac:(vm_compute; lia) (demo_rowdata ∅) (mk_rowset 1 demo_table [demo_row; demo_other; demo_row]) (mk_objid 1 5) 4 2
    eq_refl demo_rows_ok ltac:(done) demo_docs_ok (demo_live _) ltac:(by vm_compute) ltac:(by vm_compute)
    ltac:(split; split; cbn; lia) ltac:(vm_compute; congruence) ltac:(vm_compute; lia) ltac:(lia)) as (doc & Hm & Hr).
  exists doc. split; [exact Hm|]. destruct (mdv_rowdata_add_raw_rowset _ _ _ _) as [r' err]. destruct Hr as [He Hv].
  split; [exact He|]. exact (Hv (demo_view r') eq_refl eq_refl eq_refl eq_refl).
Defined.

End Rowdata.
