(* ===== verification/Tables.v ===== *)
(** * Descriptions of tables and their views (src/mdv_core/storage)

    mdv_tables.c, mdv_tables_view.c and mdv_systbls.c: the descriptions of the
    tables are the objects of a two-phase set, under the identifiers of the
    tables.  They are read one by one, or listed as the rows of a table that is
    built in. *)

From stdpp Require Import strings.
From S2P Require Import Prelude Bitset Uuid Vector Rollbacker Vm Predicate Lmdb Memdb Session Pset Enumerator Binn Types Serialization Slice.
Import Bitset Uuid Rollbacker Predicate Lmdb Memdb Pset Session Enumerator Binn Types Serialization Slice.
#[local] Open Scope nat_scope.
#[local] Open Scope list_scope.

Module Tables.

(** ** The built-in table *)

(** [{ .a = 0x736c6274 }], the first four bytes of the identifier. *)
Definition MDV_SYSTBL_TABLES : mdv_uuid := mk_uuid 0x736c6274 0.

(** The fields "ID" and "Name". *)
Definition MDV_TABLES_FIELDS : list mdv_field := [mk_fld MDV_FLD_TYPE_BYTE 16 [73; 68]%Z; mk_fld MDV_FLD_TYPE_CHAR 0 [78; 97; 109; 101]%Z].

(** "mdv_tables" *)
Definition MDV_TABLES_DESC : mdv_table_desc :=
  mk_desc [109; 100; 118; 95; 116; 97; 98; 108; 101; 115]%Z 2 (Some <$> MDV_TABLES_FIELDS).

(** "tables.mdb" *)
Definition MDV_STRG_TABLES : list Z := [116; 97; 98; 108; 101; 115; 46; 109; 100; 98]%Z.

(** ** Identifiers as keys *)

(** The identifier at a key, whose size is asserted. *)
Definition read_uuid (key : bytes) : outcome mdv_uuid :=
  if (length key =? 16)%nat then Done (of_u8s key) else OutOfBounds (Z.of_nat (length key)).

Definition same_uuid (a b : mdv_uuid) : bool := (mdv_uuid_cmp a b =? 0)%Z.

#[global] Instance uuid_row : RowId mdv_uuid := {| id_key := u8s; id_of_key := read_uuid; same_id := same_uuid; id_ok := Uuid.wf |}.

Lemma u8s_inj a b : Uuid.wf a -> Uuid.wf b -> u8s a = u8s b -> a = b.
Proof. intros Ha Hb E. by rewrite <- (of_u8s_u8s a Ha), E, of_u8s_u8s. Qed.

#[global] Instance uuid_row_laws : RowIdLaws mdv_uuid.
Proof.
  split.
  - intros u Hu. cbn [id_of_key id_key uuid_row]. unfold read_uuid. rewrite u8s_length. cbn [Nat.eqb]. by rewrite of_u8s_u8s.
  - intros a b Ha Hb. cbn [same_id id_key uuid_row]. unfold same_uuid. symmetry. destruct (Z.eqb_spec (mdv_uuid_cmp a b) 0) as [E|E].
    + apply mdv_uuid_cmp_eq in E as ->. by apply bool_decide_eq_true_2.
    + apply bool_decide_eq_false_2. intros Eu. apply E, mdv_uuid_cmp_eq. by apply u8s_inj.
Qed.

(** ** The storage of the tables *)

Section Tables.
Context `{Mdb, !MdbCursor, Binn}.

Record mdv_tables := mk_tables { ts_objects : mdv_2pset; ts_desc : mdv_table }.

Inductive ts_release_fn := Fn_ts_rollbacker_free | Fn_ts_free | Fn_ts_table_release | Fn_ts_set_release.
Inductive ts_resource := Res_ts_rollbacker | Res_tables | Res_ts_desc | Res_ts_objects.

Definition ts_push (r : option (mdv_rollbacker ts_release_fn ts_resource)) (f : ts_release_fn) (x : ts_resource) :=
  snd (mdv_rollbacker_push r (mk_op f [x])).

(** [open_set name]: the result of [mdv_2pset_open] in the directory. *)
Definition mdv_tables_open (mem_rbr mem mem_desc : bool) (open_set : list Z -> option mdv_2pset)
  : outcome (option mdv_tables * list (ts_release_fn * list ts_resource)) :=
  let rbr := mdv_rollbacker_create mem_rbr Fn_ts_rollbacker_free Res_ts_rollbacker 3 in
  if negb mem then Done (None, mdv_rollback rbr) else
  let rbr := ts_push rbr Fn_ts_free Res_tables in
  desc ← mdv_table_create mem_desc MDV_SYSTBL_TABLES MDV_TABLES_DESC;
  match desc with
  | None => Done (None, mdv_rollback rbr)
  | Some desc =>
      let rbr := ts_push rbr Fn_ts_table_release Res_ts_desc in
      match open_set MDV_STRG_TABLES with
      | None => Done (None, mdv_rollback rbr)
      | Some o => Done (Some (mk_tables o desc), [])
      end
  end.

Definition mdv_tables_retain (ts : option mdv_tables) : option mdv_tables :=
  match ts with
  | None => None
  | Some ts => match mdv_2pset_retain (Some (ts_objects ts)) with
               | Some o => Some (mk_tables o (ts_desc ts))
               | None => Some ts
               end
  end.

(** The returned count; the storage, or what is left of its description. *)
Definition mdv_tables_release (ts : option mdv_tables) : Z * (option mdv_tables + option mdv_table) :=
  match ts with
  | None => (0%Z, inl None)
  | Some ts =>
      let '(rc, o) := mdv_2pset_release (Some (ts_objects ts)) in
      (rc, match o with
           | Some o => inl (Some (mk_tables o (ts_desc ts)))
           | None => inr (snd (mdv_table_release (Some (ts_desc ts))))
           end)
  end.

Definition with_objects (ts : mdv_tables) (l : locals) : mdv_tables := mk_tables (l_objs l) (ts_desc ts).

Definition mdv_tables_add_raw (mem : bool) (ts : mdv_tables) (uuid : mdv_uuid) (table : bytes) : mdv_tables * mdv_errno :=
  let '(l, err) := mdv_2pset_add mem (ts_objects ts) (u8s uuid) table in (with_objects ts l, err).

(** [mem_desc], [mem]: the description and the table are allocated. *)
Definition mdv_table_restore (mem_desc mem : bool) (data : bytes) : outcome (option mdv_table) :=
  match binn_load data with
  | None => Done None
  | Some obj => mdv_unbinn_table mem_desc mem obj
  end.

(** A callback that returns null, a table, or reads out of bounds. *)
Definition restored (r : outcome (option mdv_table)) : option (outcome mdv_table) :=
  match r with
  | Done None => None
  | Done (Some t) => Some (Done t)
  | OutOfBounds i => Some (OutOfBounds i)
  | OutOfFuel => Some OutOfFuel
  end.

Definition mdv_tables_get (mem mem_desc mem_table : bool) (ts : mdv_tables) (uuid : mdv_uuid) : mdv_tables * outcome (option mdv_table) :=
  let '(l, r) := mdv_2pset_get mem (ts_objects ts) (u8s uuid) (fun v => restored (mdv_table_restore mem_desc mem_table v)) in
  (with_objects ts l, match r with None => Done None | Some t => t ← t; Done (Some t) end).

(** The description of the list of tables, with a reference more. *)
Definition mdv_tables_desc (ts : mdv_tables) : mdv_tables * mdv_table :=
  let t := mdv_table_retain (ts_desc ts) in (mk_tables (ts_objects ts) t, t).

(** The row at a value: [binn_load] and [mdv_unbinn_table_as_row_slice]. *)
Definition restore_table_row (m : slice_mem) (fields : mdv_bitset) (k : nat) (v : bytes) : outcome (option mdv_row) :=
  match binn_load v with
  | Some obj => mdv_unbinn_table_as_row_slice (sm_row m k) (sm_entry m k) obj (Some fields)
  | None => Done None
  end.

Definition mdv_tables_slice_impl (m : slice_mem) (fuel : nat) (ts : mdv_tables) (e : objects_enumerator) (fields : mdv_bitset)
    (count : nat) (rowid : mdv_uuid) (filter : mdv_row -> Z) : outcome (objects_enumerator * mdv_uuid * option mdv_rowset) :=
  slice_rows (restore_table_row m fields) id_of_key filter m fuel e (ts_desc ts) fields count rowid.

Definition mdv_tables_slice_from_begin (m : slice_mem) (fuel : nat) (ts : mdv_tables) (fields : mdv_bitset)
    (count : nat) (rowid : mdv_uuid) (filter : mdv_row -> Z) : outcome (mdv_tables * mdv_uuid * option mdv_rowset) :=
  x ← slice_from_begin (restore_table_row m fields) filter m fuel (ts_objects ts) (ts_desc ts) fields count rowid;
  let '(o, rowid, rs) := x in Done (mk_tables o (ts_desc ts), rowid, rs).

Definition mdv_tables_slice (m : slice_mem) (fuel : nat) (ts : mdv_tables) (fields : mdv_bitset)
    (count : nat) (rowid : mdv_uuid) (filter : mdv_row -> Z) : outcome (mdv_tables * mdv_uuid * option mdv_rowset) :=
  x ← slice_behind (restore_table_row m fields) filter m fuel (ts_objects ts) (ts_desc ts) fields count rowid;
  let '(o, rowid, rs) := x in Done (mk_tables o (ts_desc ts), rowid, rs).

(** ** Views (mdv_tables_view.c) *)

Record mdv_tables_view := mk_tables_view {
  tv_rc : Z;
  tv_source : mdv_tables;
  tv_table_slice : mdv_table;
  tv_fields : mdv_bitset;
  tv_filter : mdv_predicate;
  tv_rowid : mdv_uuid;
  tv_fetch_from_begin : bool
}.

(** [rowid]: what the new block holds. *)
Definition mdv_tables_view_create (mem mem_slice : bool) (source : mdv_tables) (fields : mdv_bitset) (predicate : mdv_predicate)
    (rowid : mdv_uuid) : outcome (option mdv_tables_view) :=
  if negb mem then Done None else
  let '(source, table) := mdv_tables_desc source in
  slice ← mdv_table_slice mem_slice table fields;
  table ← deref (snd (mdv_table_release (Some table)));
  match slice with
  | None => Done None
  | Some slice =>
      source ← deref (mdv_tables_retain (Some (mk_tables (ts_objects source) table)));
      Done (Some (mk_tables_view 1 source slice (mdv_bitset_retain fields) (mdv_predicate_retain predicate) rowid true))
  end.

Definition mdv_tables_view_retain (v : mdv_tables_view) : mdv_tables_view :=
  mk_tables_view (rc_retain (tv_rc v)) (tv_source v) (tv_table_slice v) (tv_fields v) (tv_filter v) (tv_rowid v) (tv_fetch_from_begin v).

(** The returned count; the view, or what is left of the objects it refers to. *)
Definition mdv_tables_view_release (v : option mdv_tables_view)
  : Z * (option mdv_tables_view
         + (option mdv_predicate * (option mdv_tables + option mdv_table) * option mdv_table * option mdv_bitset)) :=
  match v with
  | None => (0%Z, inl None)
  | Some v =>
      let '(rc, refs, dead) := rc_release (tv_rc v) in
      (refs, if dead then
               inr (snd (fst (mdv_predicate_release (Some (tv_filter v)))), snd (mdv_tables_release (Some (tv_source v))),
                    snd (mdv_table_release (Some (tv_table_slice v))), fst (mdv_bitset_release (tv_fields v)))
             else inl (Some (mk_tables_view rc (tv_source v) (tv_table_slice v) (tv_fields v) (tv_filter v) (tv_rowid v) (tv_fetch_from_begin v))))
  end.

Definition mdv_tables_view_desc (v : mdv_tables_view) : mdv_tables_view * mdv_table :=
  let t := mdv_table_retain (tv_table_slice v) in
  (mk_tables_view (tv_rc v) (tv_source v) t (tv_fields v) (tv_filter v) (tv_rowid v) (tv_fetch_from_begin v), t).

Definition mdv_tables_view_filter (row : mdv_row) : Z := 1.

Definition mdv_tables_view_fetch (m : slice_mem) (fuel : nat) (v : mdv_tables_view) (count : nat) : outcome (mdv_tables_view * option mdv_rowset) :=
  x ← (if tv_fetch_from_begin v
       then mdv_tables_slice_from_begin m fuel (tv_source v) (tv_fields v) count (tv_rowid v) mdv_tables_view_filter
       else mdv_tables_slice m fuel (tv_source v) (tv_fields v) count (tv_rowid v) mdv_tables_view_filter);
  let '(source, rowid, rs) := x in
  Done (mk_tables_view (tv_rc v) source (tv_table_slice v) (tv_fields v) (tv_filter v) rowid false, rs).

(** The functions of this view. *)
#[global] Instance tables_view_vtbl (m : slice_mem) (fuel : nat) : IView mdv_tables_view := {|
  view_retain := mdv_tables_view_retain;
  view_release v := let '(rc, r) := mdv_tables_view_release (Some v) in (rc, match r with inl v => v | inr _ => None end);
  view_desc := mdv_tables_view_desc;
  view_fetch := mdv_tables_view_fetch m fuel
|}.

(** A client that adds serialised tables one after another. *)
Definition add_tables (ts : mdv_tables) (items : list (mdv_uuid * bytes)) : mdv_tables :=
  foldl (fun ts x => fst (mdv_tables_add_raw true ts x.1 x.2)) ts items.

End Tables.

(** ** Adding and reading *)

Section Stored.
Context `{Mdb, !MdbCursor, !MdbLaws, !MdbCursorLaws, !MdbReliable, !MdbCursorReliable, !MdbRoom, Binn, !BinnLaws}.
Context (n : Z) (Hn : (1 <= n < 2 ^ 32 - 5)%Z).

#[local] Abbreviation data ts := (db (s_env (o_storage (ts_objects ts)))).

(** A table and its columns, as they can be serialised and read again. *)
Record table_ok (t : mdv_table) (l : list mdv_field) : Prop := {
  to_desc : desc_ok (tb_desc t) l;
  to_id : Uuid.wf (tb_id t);
  to_fields : Forall field_fits l;
  to_size : (desc_size (tb_desc t) l < 2 ^ 32)%Z;
  to_doc : doc_ok (table_object t l);
  to_bytes : (Z.of_nat (length (binn_bytes (table_object t l))) < 2 ^ 31)%Z
}.

Lemma name_fits t l : table_ok t l -> fits 32 (Z.of_nat (length (td_name (tb_desc t))) + 1).
Proof.
  intros Ht. pose proof (to_size _ _ Ht) as Hs. unfold desc_size in Hs. pose proof (names_size_pos l). unfold sizeof_desc, sizeof_field in Hs. unfold fits. lia.
Qed.

Lemma uuid_key u : valid_key (u8s u).
Proof. unfold valid_key. rewrite u8s_length. lia. Qed.

(** The table that the objects hold under an identifier. *)
Definition table_at (objs rem : gmap bytes bytes) (u : mdv_uuid) : outcome (option mdv_table) :=
  if is_some (rem !! u8s u) then Done None
  else match objs !! u8s u with None => Done None | Some v => mdv_table_restore true true v end.

Lemma tables_add_runs ts u v :
  set_live n (ts_objects ts) -> removed (data ts) !! u8s u = None ->
  let '(ts', err) := mdv_tables_add_raw true ts u v in
  err = MDV_OK /\ set_live n (ts_objects ts') /\ ts_desc ts' = ts_desc ts
  /\ data ts' !! MDV_MAP_OBJECTS = Some (Pset.objects (data ts) ∪ {[u8s u := v]}) /\ data ts' !! MDV_MAP_REMOVED = Some (removed (data ts)).
Proof.
  intros Hl Hr. unfold mdv_tables_add_raw. pose proof (add_stored n ltac:(lia) (ts_objects ts) (u8s u) v) as Hst.
  pose proof (add_keys true (ts_objects ts) (u8s u) v (sl_keys _ _ Hl)) as Hk. destruct (mdv_2pset_add _ _ _ _) as [l err].
  destruct Hst as (-> & Hb & Hi & Ho & Hrm); [by apply set_balanced_enter; apply Hl|apply uuid_key|done|]. cbn [with_objects ts_objects ts_desc].
  split_and!; try done. by apply idle_set_live.
Qed.

Lemma get_runs_at ts u :
  set_live n (ts_objects ts) -> is_Some (data ts !! MDV_MAP_OBJECTS) -> is_Some (data ts !! MDV_MAP_REMOVED) ->
  snd (mdv_tables_get true true true ts u) = table_at (Pset.objects (data ts)) (removed (data ts)) u.
Proof.
  intros Hl Ho Hr. unfold mdv_tables_get.
  pose proof (get_reliable n ltac:(lia) (ts_objects ts) (u8s u) (fun v => restored (mdv_table_restore true true v))) as Hg.
  destruct (mdv_2pset_get _ _ _ _) as [l r]. cbn [snd] in *. rewrite Hg; [|by apply set_balanced_enter; apply Hl|apply uuid_key|done|done].
  change (dbl (Pset.enter (ts_objects ts))) with (data ts). unfold table_at. destruct (removed (data ts) !! u8s u); cbn [is_some]; [done|].
  destruct (Pset.objects (data ts) !! u8s u) as [v|]; cbn [mbind option_bind]; [|done]. by destruct (mdv_table_restore true true v) as [[t|]|i|].
Qed.

(** ** Listing *)

Lemma add_tables_runs items : forall ts,
  set_live n (ts_objects ts) -> removed (data ts) = ∅ -> items <> [] ->
  let ts' := add_tables ts items in
  set_live n (ts_objects ts') /\ ts_desc ts' = ts_desc ts
  /\ data ts' !! MDV_MAP_OBJECTS = Some (store_all ((fun x => (u8s x.1, x.2)) <$> items) (Pset.objects (data ts))).
Proof.
  induction items as [|[u v] items IH]; intros ts Hl Hr Hne ts'; [done|].
  pose proof (tables_add_runs ts u v Hl ltac:(by rewrite Hr)) as Ha. unfold ts', add_tables. cbn [foldl fst snd].
  destruct (mdv_tables_add_raw true ts u v) as [ts1 err]. destruct Ha as (_ & Hl1 & Hd1 & Ho1 & Hr1). cbn [fst].
  destruct (decide (items = [])) as [->|Hne']; [by cbn|].
  assert (removed (data ts1) = ∅) as Hr1' by (unfold removed at 1; rewrite Hr1; exact Hr).
  destruct (IH ts1 Hl1 Hr1' Hne') as (Hl2 & Hd2 & Ho2). unfold add_tables in Hl2, Hd2, Ho2. split_and!; [done|congruence|]. rewrite Ho2. f_equal.
  unfold Pset.objects at 1. rewrite Ho1. done.
Qed.

Section View.
Context (mem : slice_mem) (Hmem : sm_rbr mem = true /\ sm_enum mem = true /\ sm_table mem = true /\ sm_set mem = true)
  (Hrow : forall k, sm_row mem k = true).
Context (fields : mdv_bitset) (Hfields : Bitset.wf fields) (Hcover : 2 <= mdv_bitset_capacity fields).

(** The key and the row of an entry. *)
Definition table_row_of (kv : bytes * bytes) (x : mdv_uuid * mdv_row) : Prop :=
  Uuid.wf x.1 /\ kv.1 = u8s x.1
  /\ exists v, binn_load kv.2 = Some v /\ forall entry, mdv_unbinn_table_as_row_slice true entry v (Some fields) = Done (Some x.2).

Lemma table_row_entry kv x : table_row_of kv x -> entry_of (restore_table_row mem fields) kv x.
Proof. intros (Ho & Hk & v & Hv & Hr). split; [done|]. split; [done|]. intros k. unfold restore_table_row. rewrite Hv. by rewrite Hrow. Qed.

Section Laws.
Context (desc : mdv_table) (Hdesc : tb_desc desc = MDV_TABLES_DESC).
Context (o : mdv_2pset) (m : gmap bytes bytes) (xs : list (mdv_uuid * mdv_row)) (fuel : nat).
Context (Hobj : Enumerator.objects o = Some m) (Hrows : Forall2 table_row_of (sorted_entries m) xs) (Hfuel : size m < fuel).

(** The storage that a view reads is usable and has the same tables as before. *)
Definition tables_view_live (v : mdv_tables_view) : Prop :=
  set_live n (ts_objects (tv_source v)) /\ same_set o (ts_objects (tv_source v)).

(** The rows before the position [p] were shown. *)
Record tables_view_at (v : mdv_tables_view) (p : nat) : Prop := {
  ta_live : tables_view_live v;
  ta_desc : ts_desc (tv_source v) = desc;
  ta_fields : tv_fields v = fields;
  ta_pos : position xs (tv_fetch_from_begin v) (tv_rowid v) p
}.

Lemma tables_view_laws :
  @ViewLaws mdv_tables_view (tables_view_vtbl mem fuel) (snd <$> xs) (table_of_slice desc MDV_TABLES_FIELDS fields) tables_view_at tables_view_live.
Proof.
  split. intros v p count [[Hl Hs] Hd Hf Hp] Hc. cbn [view_fetch tables_view_vtbl]. unfold mdv_tables_view_fetch. rewrite Hf.
  assert (Hrows' : Forall2 (entry_of (restore_table_row mem fields)) (sorted_entries m) xs) by (eapply Forall2_impl; [exact Hrows|apply table_row_entry]).
  destruct (page_runs (RI := uuid_row) n Hn mem Hmem desc MDV_TABLES_FIELDS fields ltac:(by rewrite Hdesc) Hfields Hcover (restore_table_row mem fields)
    mdv_tables_view_filter (fun _ => eq_refl) o (ts_objects (tv_source v)) m xs fuel count _ _ p Hl Hs Hobj Hrows' Hfuel Hc Hp) as (o' & rowid' & E & Hl' & Hs' & Hp').
  unfold mdv_tables_slice_from_begin, mdv_tables_slice. rewrite Hd.
  eexists. split; [by destruct (tv_fetch_from_begin v); rewrite E|]. destruct (decide _) as [He|Hne]; [done|]. split; try done. by apply Hp'.
Qed.

End Laws.

(** The row of a table in the list of tables. *)
Definition table_row (t : mdv_table) : mdv_row := [u8s (tb_id t); td_name (tb_desc t) ++ [0%Z]].

Lemma stored_rows (tables : list (mdv_table * list mdv_field)) :
  Forall (fun x => table_ok x.1 x.2) tables -> bit fields 0 = true -> bit fields 1 = true ->
  Forall2 table_row_of ((fun x => (u8s (tb_id x.1), binn_bytes (table_object x.1 x.2))) <$> tables) ((fun x => (tb_id x.1, table_row x.1)) <$> tables).
Proof.
  intros Hok H0' H1'. apply Forall2_fmap, Forall_Forall2_diag. eapply Forall_impl; [exact Hok|]. intros [t l] Ht. cbn [fst snd] in *.
  split; [apply Ht|]. split; [done|]. exists (table_object t l). split; [apply load_bytes; [done|apply Ht|apply Ht]|].
  intros entry. by apply (table_as_row_spec entry t l (Some fields) (to_id _ _ Ht) (name_fits t l Ht) (conj Hfields Hcover)).
Qed.

Lemma stored_keys (tables : list (mdv_table * list mdv_field)) :
  Forall (fun x => table_ok x.1 x.2) tables -> NoDup ((fun x => tb_id x.1) <$> tables) -> NoDup ((fun x => u8s (tb_id x.1)) <$> tables).
Proof.
  induction tables as [|[t l] tables IH]; intros Hok Hnd; [apply NoDup_nil_2|]. cbn in *. apply Forall_cons in Hok as [Ht Hok].
  apply NoDup_cons in Hnd as [Hni Hnd]. apply NoDup_cons. split; [|by apply IH]. rewrite list_elem_of_fmap. intros (x & E & Hx). apply Hni.
  apply u8s_inj in E; [|apply Ht|eapply Forall_forall in Hok; [apply Hok|done]]. cbn in E. rewrite E. by apply (list_elem_of_fmap_2 (fun x => tb_id x.1)).
Qed.

End View.

(** ** Theorems *)

(** a table that is serialised and added is read back under its identifier,
    with its name and columns, when none was added under it before; of two
    additions the first one counts; tables under other identifiers read as
    before. *)
Theorem mdv_tables_add_get ts t l :
  set_live n (ts_objects ts) -> table_ok t l -> removed (data ts) !! u8s (tb_id t) = None ->
  exists doc, makes (mdv_binn_table t) doc
    /\ let '(ts', err) := mdv_tables_add_raw true ts (tb_id t) (binn_bytes doc) in
       err = MDV_OK
       /\ (Pset.objects (data ts) !! u8s (tb_id t) = None ->
           snd (mdv_tables_get true true true ts' (tb_id t)) = Done (Some (mk_table 1 (tb_id t) (tb_desc t))))
       /\ forall u, Uuid.wf u -> u <> tb_id t \/ is_Some (Pset.objects (data ts) !! u8s u) ->
           snd (mdv_tables_get true true true ts' u) = table_at (Pset.objects (data ts)) (removed (data ts)) u.
Proof.
  intros Hl Ht Hr. exists (table_object t l). split; [by apply makes_table; apply Ht|].
  pose proof (tables_add_runs ts (tb_id t) (binn_bytes (table_object t l)) Hl Hr) as Ha. destruct (mdv_tables_add_raw true ts _ _) as [ts' err].
  destruct Ha as (-> & Hl' & _ & Ho & Hrm). split; [done|].
  assert (Hg : forall u, snd (mdv_tables_get true true true ts' u)
    = table_at (Pset.objects (data ts) ∪ {[u8s (tb_id t) := binn_bytes (table_object t l)]}) (removed (data ts)) u).
  { intros u. rewrite get_runs_at by eauto. unfold Pset.objects at 1, removed at 1. by rewrite Ho, Hrm. }
  split.
  - intros Hnew. rewrite Hg. unfold table_at. rewrite Hr, lookup_union_r, lookup_singleton_eq by done. cbn [is_some]. unfold mdv_table_restore.
    rewrite load_bytes by (done || apply Ht). apply unbinn_table_spec; apply Ht.
  - intros u Hu Hcase. rewrite Hg. unfold table_at. destruct Hcase as [Hne|[v Hv]].
    + rewrite lookup_union_l; [done|]. rewrite lookup_singleton_ne; [done|]. intros E. apply Hne. symmetry. apply u8s_inj; [apply Ht|done|done].
    + by rewrite (lookup_union_Some_l _ _ _ _ Hv), Hv.
Qed.

(** tables that are serialised and added to an empty storage are all listed
    by a view of both columns, each once, whatever the size of the pages. *)
Theorem mdv_tables_add_list mem fields ts tables fuel count :
  sm_rbr mem = true /\ sm_enum mem = true /\ sm_table mem = true /\ sm_set mem = true -> (forall k, sm_row mem k = true) ->
  Bitset.wf fields -> 2 <= mdv_bitset_capacity fields -> bit fields 0 = true -> bit fields 1 = true ->
  set_live n (ts_objects ts) -> tb_desc (ts_desc ts) = MDV_TABLES_DESC -> Pset.objects (data ts) = ∅ -> removed (data ts) = ∅ ->
  tables <> [] -> Forall (fun x => table_ok x.1 x.2) tables -> NoDup ((fun x => tb_id x.1) <$> tables) ->
  length tables < fuel -> 1 <= count ->
  Forall (fun x => makes (mdv_binn_table x.1) (table_object x.1 x.2)) tables
  /\ forall v, tv_source v = add_tables ts ((fun x => (tb_id x.1, binn_bytes (table_object x.1 x.2))) <$> tables) ->
     tv_fields v = fields -> tv_fetch_from_begin v = true ->
     exists v' rows, @fetch_all _ (tables_view_vtbl mem fuel) (S (length tables)) v count = Done (v', rows)
       /\ rows ≡ₚ (fun x => table_row x.1) <$> tables.
Proof.
  intros Hmem Hrow Hw Hcap B0 B1 Hl Hd He Hr Hne Hok Hnd Hf Hc. split.
  { eapply Forall_impl; [exact Hok|]. intros [t l] Ht. apply makes_table; apply Ht. }
  intros v Hv Hvf Hb.
  destruct (add_tables_runs ((fun x => (tb_id x.1, binn_bytes (table_object x.1 x.2))) <$> tables) ts Hl Hr) as (Hl' & Hd' & Ho').
  { by intros E%fmap_nil_inv. }
  rewrite <- Hv in Hl', Hd', Ho'. rewrite He, <- list_fmap_compose in Ho'.
  set (items := (fun x => (u8s (tb_id x.1), binn_bytes (table_object x.1 x.2))) <$> tables).
  assert (Hperm : sorted_entries (store_all items ∅) ≡ₚ items).
  { apply sorted_stored. unfold items. rewrite <- list_fmap_compose. by apply stored_keys. }
  destruct (Permutation_Forall2 (symmetry Hperm) (stored_rows fields Hw Hcap tables Hok B0 B1)) as (xs & Hxs & Hrows).
  assert (Hlx : length xs = length tables) by (rewrite <- Hxs, length_fmap; done).
  assert (Hsize : size (store_all items ∅) < fuel) by (rewrite <- length_sorted, Hperm; unfold items; by rewrite length_fmap).
  pose proof (tables_view_laws mem Hmem Hrow fields Hw Hcap (ts_desc ts) Hd (ts_objects (tv_source v)) _ xs fuel Ho' Hrows Hsize) as Hlaws.
  destruct (fetch_all_ok (VL := Hlaws) (S (length tables)) v 0 count) as (v' & E & _).
  - split; try done. by rewrite Hb.
  - done.
  - rewrite drop_0, length_fmap. lia.
  - exists v', (snd <$> xs). rewrite drop_0 in E. split; [done|]. rewrite <- Hxs, <- list_fmap_compose. done.
Qed.

End Stored.
(** ** An example *)

Definition demo_tables : mdv_tables := mk_tables (mk_2pset (mk_lmdb 1 (∅ : database, ∅) true) false 5) (mk_table 1 MDV_SYSTBL_TABLES MDV_TABLES_DESC).
Definition other_table : mdv_table := mk_table 1 (mk_uuid 7 0) (mk_desc [117; 115]%Z 1 [Some (mk_fld MDV_FLD_TYPE_INT32 1 [118]%Z)]).
Definition both_columns : mdv_bitset := mk_bitset 1 2 [3]%Z.
Definition tables_mem : slice_mem := mk_slice_mem true true true true (fun _ => true) (fun _ => 4096%Z).
Definition tables_view (ts : mdv_tables) : mdv_tables_view :=
  mk_tables_view 1 ts (ts_desc ts) both_columns (mk_predicate 1 (Vector.mk_vector 1 0 0 1 []) []) (mk_uuid 0 0) true.

(** Closed facts about a table. *)
Ltac table_tac :=
  split; [done|split; vm_compute; split; congruence|repeat constructor; vm_compute; congruence|by vm_compute
         |vm_compute; repeat split; first [congruence|bytes_ok]|by vm_compute].

Lemma demo_table_ok : table_ok demo_table demo_fields.
Proof. table_tac. Qed.

Lemma other_table_ok : table_ok other_table [mk_fld MDV_FLD_TYPE_INT32 1 [118]%Z].
Proof. table_tac. Qed.

Lemma demo_tables_live : set_live 1 (ts_objects demo_tables).
Proof. split; [by split|]. cbn. set_solver. Qed.

Lemma mdv_tables_add_get_witness :
  exists doc, makes (mdv_binn_table demo_table) doc
    /\ let '(ts', err) := mdv_tables_add_raw true demo_tables (tb_id demo_table) (binn_bytes doc) in
       err = MDV_OK /\ snd (mdv_tables_get true true true ts' (tb_id demo_table)) = Done (Some demo_table).
Proof.
  destruct (mdv_tables_add_get 1 ltac:(lia) demo_tables demo_table demo_fields demo_tables_live demo_table_ok eq_refl) as (doc & Hm & Hr).
  exists doc. split; [exact Hm|]. destruct (mdv_tables_add_raw _ _ _ _) as [ts' err]. destruct Hr as (He & Hg & _). split; [exact He|]. exact (Hg eq_refl).
Defined.

Lemma mdv_tables_add_list_witness :
  exists v' rows,
    @fetch_all _ (tables_view_vtbl tables_mem 3) 3
      (tables_view (add_tables demo_tables [(tb_id demo_table, binn_bytes (table_object demo_table demo_fields));
        (tb_id other_table, binn_bytes (table_object other_table [mk_fld MDV_FLD_TYPE_INT32 1 [118]%Z]))])) 1 = Done (v', rows)
    /\ rows ≡ₚ [table_row demo_table; table_row other_table].
Proof.
  refine (proj2 (mdv_tables_add_list 1 ltac:(lia) tables_mem both_columns demo_tables
    [(demo_table, demo_fields); (other_table, [mk_fld MDV_FLD_TYPE_INT32 1 [118]%Z])] 3 1
    ltac:(by split_and!) ltac:(done) ltac:(split; [done|repeat constructor; vm_compute; congruence]) ltac:(vm_compute; lia) eq_refl eq_refl
    demo_tables_live eq_refl eq_refl eq_refl ltac:(done) _ _ ltac:(vm_compute; lia) ltac:(lia)) (tables_view _) eq_refl eq_refl eq_refl).
  - repeat apply Forall_cons_2; [exact demo_table_ok|exact other_table_ok|apply Forall_nil_2].
  - cbn. apply NoDup_cons. split; [|apply NoDup_singleton]. intros Hin%list_elem_of_singleton. discriminate.
Defined.

End Tables.
