(* ===== verification/Tablespace.v ===== *)
(** * Table space (src/mdv_core/storage/mdv_tablespace.c)

    The part of the service that owns the stored data: the list of the tables, a
    transaction log for every node, and a storage of rows for every table.
    Requests are written into the log of this node; the committer applies the
    logs to the tables and rows.

    The functions are computations (Action.v).  The storages of the logs and of
    the rows live in two hash maps: a pointer to one of them is the identifier
    under which it is found, and a change through the pointer is written back into
    the entry.  What opening a storage gives is an argument of the model; the
    generated identifier of a table too.  The error of a mutex or of the bus is
    MDV_FAILED. *)

From stdpp Require Import strings.
From S2P Require Import Prelude Uuid Hashmap Rollbacker Bitset Topology Lmdb Memdb Session Pset Enumerator Trlog Binn Action Types Serialization Slice Rowdata Tables.
Import Uuid Hashmap Rollbacker Bitset Topology Lmdb Memdb Session Pset Enumerator Trlog Binn Types Serialization Slice Rowdata Tables Action.
#[local] Open Scope string_scope.
#[local] Open Scope nat_scope.
#[local] Open Scope list_scope.

Module Tablespace.

Section Tablespace.
Context `{Mdb, !MdbCursor, Binn}.

(** ** Data *)

Record mdv_storage_id := mk_storage_id { si_uuid : mdv_uuid; si_id : Z }.
Record mdv_trlog_ref := mk_trlog_ref { tf_uuid : mdv_uuid; tf_trlog : mdv_trlog }.
Record mdv_rowdata_ref := mk_rowdata_ref { rf_uuid : mdv_uuid; rf_rowdata : mdv_rowdata }.

Record mdv_tablespace := mk_tablespace {
  sp_tables : mdv_tables;
  sp_trlogs : mdv_hashmap mdv_trlog_ref;
  sp_rowdata : mdv_hashmap mdv_rowdata_ref;
  sp_uuid : mdv_uuid;
  sp_storage_ids : mdv_hashmap mdv_storage_id
}.

Definition set_tables (s : mdv_tablespace) (x : mdv_tables) : mdv_tablespace :=
  mk_tablespace x (sp_trlogs s) (sp_rowdata s) (sp_uuid s) (sp_storage_ids s).
Definition set_trlogs (s : mdv_tablespace) (x : mdv_hashmap mdv_trlog_ref) : mdv_tablespace :=
  mk_tablespace (sp_tables s) x (sp_rowdata s) (sp_uuid s) (sp_storage_ids s).
Definition set_rowdata (s : mdv_tablespace) (x : mdv_hashmap mdv_rowdata_ref) : mdv_tablespace :=
  mk_tablespace (sp_tables s) (sp_trlogs s) x (sp_uuid s) (sp_storage_ids s).
Definition set_storage_ids (s : mdv_tablespace) (x : mdv_hashmap mdv_storage_id) : mdv_tablespace :=
  mk_tablespace (sp_tables s) (sp_trlogs s) (sp_rowdata s) (sp_uuid s) x.

Definition MDV_OP_TABLE_CREATE : Z := 0.
Definition MDV_OP_TABLE_DROP : Z := 1.
Definition MDV_OP_ROW_INSERT : Z := 2.

(** The bytes of an operation. *)
Definition make_op (type : Z) (payload : bytes) : bytes := to_le 4 (u32 (8 + Z.of_nat (length payload))) ++ to_le 4 type ++ payload.
Definition op_type (op : bytes) : Z := of_le (take 4 (drop 4 op)).
Definition op_payload (op : bytes) : bytes := drop 8 op.

(** What opening the storage of a log and the set of rows of a table gives, the
    size of the batches of the committer, and fuel. *)
Context (open_log : mdv_uuid -> option mdv_lmdb) (open_rows : list Z -> option mdv_2pset) (batch_size : Z) (fuel : nat).

Abbreviation sa := (action mdv_tablespace).

Definition err_of (ok : bool) : mdv_errno := if ok then MDV_OK else MDV_FAILED.

(** ** Numbers of the storages *)

Fixpoint storage_ids_loop {T} (nodes : list mdv_toponode) (idmap : mdv_hashmap mdv_storage_id) : action T (option (mdv_hashmap mdv_storage_id)) :=
  match nodes with
  | [] => mret (Some idmap)
  | node :: nodes =>
      m1 ← ask; m2 ← ask;
      r ← lift (deref (mdv_hashmap_insert si_uuid m1 m2 idmap (mk_storage_id (n_uuid node) (n_id node)) 24));
      match r.1 with
      | None => mret None
      | Some _ => storage_ids_loop nodes r.2
      end
  end.

Definition mdv_tablespace_storage_ids {T} (topology : mdv_topology) : action T (option (mdv_hashmap mdv_storage_id)) :=
  m1 ← ask; m2 ← ask;
  match mdv_hashmap_create m1 m2 (length (t_nodes topology)) 0 16 with
  | None => mret None
  | Some idmap => storage_ids_loop (t_nodes topology) idmap
  end.

(** Without the mutex the safe pointer gives null, which is dereferenced. *)
Definition mdv_tablespace_storage_id (uuid : mdv_uuid) : sa (option Z) :=
  lock ← ask;
  s ← get;
  idmap ← lift (deref (if (lock : bool) then Some (sp_storage_ids s) else None));
  r ← lift (deref (mdv_hashmap_find si_uuid idmap uuid));
  mret (si_id <$> (r : option mdv_storage_id)).

(** ** Logs *)

(** A function of the log found under an identifier, through the pointer. *)
Definition on_trlog {A} (uuid : mdv_uuid) (f : mdv_trlog -> outcome (mdv_trlog * A)) : sa A :=
  s ← get;
  r ← lift (deref (mdv_hashmap_find tf_uuid (sp_trlogs s) uuid));
  ref ← lift (deref r);
  x ← lift (f (tf_trlog ref));
  put (set_trlogs s (write_item tf_uuid (sp_trlogs s) (mk_trlog_ref (tf_uuid ref) x.1)));; mret x.2.

Definition retain_trlog (uuid : mdv_uuid) : sa unit :=
  on_trlog uuid (fun t => t ← deref (mdv_trlog_retain (Some t)); Done (t, tt)).

(** The entry of the map holds a reference, so that the log is not freed. *)
Definition release_trlog (uuid : mdv_uuid) : sa unit :=
  on_trlog uuid (fun t => t ← deref (snd (mdv_trlog_release (Some t))); Done (t, tt)).

(** Whether there is a log, which is retained. *)
Definition mdv_tablespace_trlog (uuid : mdv_uuid) : sa bool :=
  lock ← ask;
  if negb lock then mret false else
  s ← get;
  ref ← lift (deref (mdv_hashmap_find tf_uuid (sp_trlogs s) uuid));
  match ref with
  | None => mret false
  | Some _ => retain_trlog uuid;; mret true
  end.

(** A log that is not in the map is opened and put into it. *)
Definition open_trlog (uuid : mdv_uuid) : sa bool :=
  id ← mdv_tablespace_storage_id uuid;
  match id with
  | None => mret false
  | Some id =>
      m1 ← ask; m2 ← ask; subscribed ← ask;
      r ← lift (mdv_trlog_open fuel m1 m2 (open_log uuid) (err_of subscribed) uuid id);
      match r.1.1 with
      | None => mret false
      | Some trlog =>
          m1 ← ask; m2 ← ask;
          s ← get;
          r ← lift (deref (mdv_hashmap_insert tf_uuid m1 m2 (sp_trlogs s) (mk_trlog_ref uuid trlog) 24));
          put (set_trlogs s r.2);;
          mret (is_some r.1)
      end
  end.

Definition mdv_tablespace_trlog_create (uuid : mdv_uuid) : sa bool :=
  lock ← ask;
  if negb lock then mret false else
  s ← get;
  ref ← lift (deref (mdv_hashmap_find tf_uuid (sp_trlogs s) uuid));
  ok ← (match ref with Some _ => mret true | None => open_trlog uuid end);
  if (ok : bool) then retain_trlog uuid;; mret true else mret false.

(** ** Rows *)

Definition on_rowdata {A} (table : mdv_uuid) (f : mdv_rowdata -> outcome (mdv_rowdata * A)) : sa A :=
  s ← get;
  r ← lift (deref (mdv_hashmap_find rf_uuid (sp_rowdata s) table));
  ref ← lift (deref r);
  x ← lift (f (rf_rowdata ref));
  put (set_rowdata s (write_item rf_uuid (sp_rowdata s) (mk_rowdata_ref (rf_uuid ref) x.1)));; mret x.2.

Definition retain_rowdata (table : mdv_uuid) : sa unit :=
  on_rowdata table (fun r => r ← deref (mdv_rowdata_retain (Some r)); Done (r, tt)).

Definition release_rowdata (table : mdv_uuid) : sa unit :=
  on_rowdata table (fun r => r ← deref (snd (mdv_rowdata_release (Some r))); Done (r, tt)).

Definition open_rowdata (table : mdv_uuid) : sa bool :=
  m1 ← ask; m2 ← ask;
  match fst (mdv_rowdata_open m1 m2 open_rows table) with
  | None => mret false
  | Some rowdata =>
      m1 ← ask; m2 ← ask;
      s ← get;
      r ← lift (deref (mdv_hashmap_insert rf_uuid m1 m2 (sp_rowdata s) (mk_rowdata_ref table rowdata) 24));
      put (set_rowdata s r.2);;
      mret (is_some r.1)
  end.

Definition mdv_tablespace_rowdata_create (table : mdv_uuid) : sa bool :=
  lock ← ask;
  if negb lock then mret false else
  s ← get;
  ref ← lift (deref (mdv_hashmap_find rf_uuid (sp_rowdata s) table));
  ok ← (match ref with Some _ => mret true | None => open_rowdata table end);
  if (ok : bool) then retain_rowdata table;; mret true else mret false.

(** ** Operations are logged *)

(** The rollback of the functions below: with a rollbacker, the references of the
    log and of the rows are given back; without one nothing is. *)
Definition roll_trlog (rbr : bool) (uuid : mdv_uuid) : sa unit := if rbr then release_trlog uuid else mret tt.
Definition roll_rowdata (rbr : bool) (table : mdv_uuid) : sa unit := if rbr then release_rowdata table else mret tt.

Definition add_op (uuid : mdv_uuid) (op : bytes) : sa bool :=
  m1 ← ask; m2 ← ask;
  on_trlog uuid (fun t => Done (mdv_trlog_add_op m1 m2 t op)).

(** [uuid]: the generated identifier.  The table is retained for the caller; the
    rollback gives the first reference back. *)
Definition mdv_tablespace_log_create_table (uuid : mdv_uuid) (desc : mdv_table_desc) : sa (option mdv_table) :=
  rbr ← ask;
  s ← get;
  ok ← mdv_tablespace_trlog_create (sp_uuid s);
  if negb ok then mret None else
  m ← ask;
  table ← lift (mdv_table_create m uuid desc);
  match table with
  | None => roll_trlog rbr (sp_uuid s);; mret None
  | Some table =>
      obj ← write (mdv_binn_table table);
      match obj with
      | None => roll_trlog rbr (sp_uuid s);; mret None
      | Some obj =>
          m ← ask;
          if negb m then roll_trlog rbr (sp_uuid s);; mret None else
          ok ← add_op (sp_uuid s) (make_op MDV_OP_TABLE_CREATE (binn_bytes obj));
          roll_trlog rbr (sp_uuid s);;
          mret (if (ok : bool) then Some (if (rbr : bool) then table else mdv_table_retain table) else None)
      end
  end.

(** The payload of an insertion: the first identifier, the table and the rows. *)
Definition rowset_payload (id : Z) (table : mdv_uuid) (rowset : binn) : bytes := to_le 8 id ++ u8s table ++ binn_bytes rowset.

Definition reserve (table : mdv_uuid) (range : Z) : sa (mdv_errno * option Z) :=
  lock ← ask; m ← ask;
  on_rowdata table (fun r => let '(r, err, id) := mdv_rowdata_reserve (err_of lock) m r range in Done (r, (err, id))).

Definition mdv_tablespace_log_rowset (table : mdv_uuid) (rowset : binn) : sa mdv_errno :=
  rbr ← ask;
  s ← get;
  ok ← mdv_tablespace_trlog_create (sp_uuid s);
  if negb ok then mret MDV_FAILED else
  ok ← mdv_tablespace_rowdata_create table;
  if negb ok then roll_trlog rbr (sp_uuid s);; mret MDV_FAILED else
  r ← reserve table (mdv_binn_list_length rowset);
  if decide (r.1 <> MDV_OK) then roll_rowdata rbr table;; roll_trlog rbr (sp_uuid s);; mret r.1 else
  m ← ask;
  if negb m then roll_rowdata rbr table;; roll_trlog rbr (sp_uuid s);; mret MDV_NO_MEM else
  ok ← add_op (sp_uuid s) (make_op MDV_OP_ROW_INSERT (rowset_payload (default 0%Z r.2) table rowset));
  roll_rowdata rbr table;; roll_trlog rbr (sp_uuid s);;
  mret (err_of ok).

(** ** Operations are applied *)

Definition apply_create (op : bytes) : sa bool :=
  match binn_load (op_payload op) with
  | None => mret false
  | Some obj =>
      match mdv_unbinn_table_uuid obj with
      | None => mret true
      | Some uuid =>
          m ← ask;
          s ← get;
          let '(tables, err) := mdv_tables_add_raw m (sp_tables s) uuid (binn_bytes obj) in
          put (set_tables s tables);; mret (bool_decide (err = MDV_OK))
      end
  end.

(** Rows whose storage cannot be opened are passed over. *)
Definition apply_insert (node_id : Z) (op : bytes) : sa bool :=
  if length (op_payload op) <? 24 then lift (OutOfBounds 24) else
  let id := of_le (take 8 (op_payload op)) in
  let table := of_u8s (take 16 (drop 8 (op_payload op))) in
  match binn_load (drop 24 (op_payload op)) with
  | None => mret false
  | Some rowset =>
      ok ← mdv_tablespace_rowdata_create table;
      if negb ok then mret true else
      m ← ask;
      err ← on_rowdata table (fun r => Done (mdv_rowdata_add_raw_rowset m r (mk_objid node_id id) rowset));
      release_rowdata table;;
      mret (bool_decide (err = MDV_OK))
  end.

Definition mdv_tablespace_trlog_apply (node_id : Z) (op : bytes) : sa bool :=
  if (op_type op =? MDV_OP_TABLE_CREATE)%Z then apply_create op
  else if (op_type op =? MDV_OP_ROW_INSERT)%Z then apply_insert node_id op
  else mret true.

(** The callback of [mdv_trlog_apply]: its state are the answers that were used and
    the table space, or the access to a missing object. *)
Definition apply_callback (mem : nat -> bool) (node_id : Z) (st : outcome (nat * mdv_tablespace)) (op : bytes)
  : outcome (nat * mdv_tablespace) * bool :=
  match st with
  | Done (k, s) =>
      match mdv_tablespace_trlog_apply node_id op mem k s with
      | Done (ok, k, s) => (Done (k, s), ok)
      | OutOfBounds i => (OutOfBounds i, false)
      | OutOfFuel => (OutOfFuel, false)
      end
  | st => (st, false)
  end.

(** One batch of the log at an entry: the number of operations.  The log is changed
    through its pointer, the callback changes the rest. *)
Definition apply_log (ref : mdv_trlog_ref) (rbr : bool) (alloc : nat -> bool) : sa nat := fun mem k s =>
  r ← mdv_trlog_apply fuel rbr alloc (tf_trlog ref) batch_size (Done (k, s)) (apply_callback mem (l_id (tf_trlog ref)));
  let '(trlog, st, count) := (r : mdv_trlog * outcome (nat * mdv_tablespace) * nat) in
  ks ← st;
  let '(k, s) := (ks : nat * mdv_tablespace) in
  Done (count, k, set_trlogs s (write_item tf_uuid (sp_trlogs s) (mk_trlog_ref (tf_uuid ref) trlog))).

Definition apply_batch (uuid : mdv_uuid) : sa nat :=
  rbr ← ask; alloc ← asks (Z.to_nat (Z.max 1 batch_size));
  s ← get;
  r ← lift (deref (mdv_hashmap_find tf_uuid (sp_trlogs s) uuid));
  ref ← lift (deref r);
  apply_log ref rbr alloc.

Fixpoint apply_batches (rounds : nat) (uuid : mdv_uuid) : sa unit :=
  match rounds with
  | 0 => lift OutOfFuel
  | Datatypes.S rounds =>
      count ← apply_batch uuid;
      if (batch_size <=? Z.of_nat count)%Z then apply_batches rounds uuid else mret tt
  end.

Definition mdv_tablespace_log_apply (rounds : nat) (uuid : mdv_uuid) : sa bool :=
  ok ← mdv_tablespace_trlog uuid;
  if (ok : bool) then apply_batches rounds uuid;; release_trlog uuid;; mret true else mret true.

(** ** Handlers of events *)

(** The error and the table. *)
Definition mdv_tablespace_evt_table_get (table_id : mdv_uuid) : sa (mdv_errno * option mdv_table) :=
  s ← get;
  if (mdv_uuid_cmp MDV_SYSTBL_TABLES table_id =? 0)%Z then
    let '(tables, desc) := mdv_tables_desc (sp_tables s) in
    put (set_tables s tables);; mret (MDV_OK, Some desc)
  else
    m1 ← ask; m2 ← ask; m3 ← ask;
    let '(tables, r) := mdv_tables_get m1 m2 m3 (sp_tables s) table_id in
    put (set_tables s tables);;
    table ← lift r;
    mret (err_of (is_some (table : option mdv_table)), table).

Definition mdv_tablespace_evt_table_create (uuid : mdv_uuid) (desc : mdv_table_desc) : sa (mdv_errno * option mdv_uuid) :=
  table ← mdv_tablespace_log_create_table uuid desc;
  mret (match (table : option mdv_table) with Some table => (MDV_OK, Some (tb_id table)) | None => (MDV_FAILED, None) end).

Definition mdv_tablespace_evt_tables_get : sa mdv_errno :=
  s ← get;
  tables ← lift (deref (mdv_tables_retain (Some (sp_tables s))));
  put (set_tables s tables);; mret MDV_OK.

Definition mdv_tablespace_evt_rowdata_insert (table_id : mdv_uuid) (rows : binn) : sa mdv_errno := mdv_tablespace_log_rowset table_id rows.

Definition mdv_tablespace_evt_rowdata_get (table : mdv_uuid) : sa mdv_errno :=
  ok ← mdv_tablespace_rowdata_create table; mret (err_of ok).

Definition mdv_tablespace_evt_trlog_get (create : bool) (uuid : mdv_uuid) : sa mdv_errno :=
  ok ← (if create then mdv_tablespace_trlog_create uuid else mdv_tablespace_trlog uuid); mret (err_of ok).

Definition mdv_tablespace_evt_trlog_apply (rounds : nat) (trlog : mdv_uuid) : sa mdv_errno :=
  ok ← mdv_tablespace_log_apply rounds trlog; mret (err_of ok).

Definition mdv_tablespace_evt_topology (topology : mdv_topology) : sa mdv_errno :=
  idmap ← mdv_tablespace_storage_ids topology;
  match idmap with
  | None => mret MDV_NO_MEM
  | Some idmap =>
      lock ← ask;
      s ← get;
      if (lock : bool) then put (set_storage_ids s idmap);; mret MDV_OK else mret MDV_FAILED
  end.

(** ** Opening and closing *)

Inductive sp_release_fn := Fn_sp_rollbacker_free | Fn_sp_free | Fn_sp_safeptr_free | Fn_sp_tables_release | Fn_sp_mutex_free | Fn_sp_hashmap_release | Fn_sp_ebus_release.
Inductive sp_resource := Res_sp_rollbacker | Res_tablespace | Res_storage_ids | Res_sp_tables | Res_trlogs_mutex | Res_trlogs | Res_rowdata_mutex | Res_sp_rowdata | Res_sp_ebus.

Definition sp_push (r : option (mdv_rollbacker sp_release_fn sp_resource)) (f : sp_release_fn) (x : sp_resource) :=
  snd (mdv_rollbacker_push r (mk_op f [x])).

(** [open_tables]: what opening the set of the tables gives.  The table space, or
    the calls of the rollback. *)
Definition mdv_tablespace_open (open_tables : list Z -> option mdv_2pset) (uuid : mdv_uuid) (topology : mdv_topology)
  : action unit (mdv_tablespace + list (sp_release_fn * list sp_resource)) :=
  rb ← ask;
  let rbr := mdv_rollbacker_create rb Fn_sp_rollbacker_free Res_sp_rollbacker 8 in
  m ← ask;
  if negb m then mret (inr (mdv_rollback rbr)) else
  let rbr := sp_push rbr Fn_sp_free Res_tablespace in
  idmap ← mdv_tablespace_storage_ids topology;
  match idmap with
  | None => mret (inr (mdv_rollback rbr))
  | Some idmap =>
      m1 ← ask; m2 ← ask;
      if negb m1 || negb m2 then mret (inr (mdv_rollback rbr)) else
      let rbr := sp_push rbr Fn_sp_safeptr_free Res_storage_ids in
      m1 ← ask; m2 ← ask; m3 ← ask;
      tables ← lift (mdv_tables_open m1 m2 m3 open_tables);
      match tables.1 with
      | None => mret (inr (mdv_rollback rbr))
      | Some tables =>
          let rbr := sp_push rbr Fn_sp_tables_release Res_sp_tables in
          mutex ← ask;
          if negb mutex then mret (inr (mdv_rollback rbr)) else
          let rbr := sp_push rbr Fn_sp_mutex_free Res_trlogs_mutex in
          m1 ← ask; m2 ← ask;
          match mdv_hashmap_create m1 m2 64 0 16 with
          | None => mret (inr (mdv_rollback rbr))
          | Some trlogs =>
              let rbr := sp_push rbr Fn_sp_hashmap_release Res_trlogs in
              mutex ← ask;
              if negb mutex then mret (inr (mdv_rollback rbr)) else
              let rbr := sp_push rbr Fn_sp_mutex_free Res_rowdata_mutex in
              m1 ← ask; m2 ← ask;
              match mdv_hashmap_create m1 m2 64 0 16 with
              | None => mret (inr (mdv_rollback rbr))
              | Some rowdata =>
                  let rbr := sp_push rbr Fn_sp_hashmap_release Res_sp_rowdata in
                  let rbr := sp_push rbr Fn_sp_ebus_release Res_sp_ebus in
                  subscribed ← ask;
                  mret (if (subscribed : bool) then inl (mk_tablespace tables trlogs rowdata uuid idmap) else inr (mdv_rollback rbr))
              end
          end
      end
  end.

(** The references that are left of the tables, of the logs and of the rows. *)
Definition mdv_tablespace_close (s : mdv_tablespace) : (option mdv_tables + option mdv_table) * list (option mdv_trlog) * list (option mdv_rowdata) :=
  (snd (mdv_tables_release (Some (sp_tables s))),
   (fun ref => snd (mdv_trlog_release (Some (tf_trlog ref)))) <$> mdv_hashmap_foreach (sp_trlogs s),
   (fun ref => snd (mdv_rowdata_release (Some (rf_rowdata ref)))) <$> mdv_hashmap_foreach (sp_rowdata s)).

End Tablespace.
(** ** References *)

Section Refs.
Context `{Mdb, !MdbCursor, !MdbLaws, !MdbCursorLaws}.

#[local] Abbreviation data o := (db (s_env (o_storage o))).

(** A set with [c] references from which nothing was removed. *)
Definition store_ok (c : Z) (o : mdv_2pset) : Prop := set_live c o /\ removed (data o) = ∅.

Lemma storage_release_count (s : mdv_lmdb) c :
  (1 <= c < 2 ^ 32 - 1)%Z -> s_refs s = (c + 1)%Z -> mdv_storage_release true s = (mk_lmdb c (s_env s) (s_open s), c).
Proof.
  intros Hc Hs. unfold mdv_storage_release, rc_release. rewrite Hs, (wrap_id 64), (wrap_id 32) by (unfold fits; lia).
  replace (c + 1 - 1)%Z with c by lia. by rewrite (proj2 (Z.eqb_neq c 0)) by lia.
Qed.

Lemma retain_store c o : (1 <= c < 2 ^ 32 - 1)%Z -> store_ok c o ->
  exists o', mdv_2pset_retain (Some o) = Some o' /\ store_ok (c + 1) o' /\ data o' = data o /\ o_idgen o' = o_idgen o.
Proof.
  intros Hc [[[Hr Ho] Hk] He]. cbn [mdv_2pset_retain]. rewrite storage_retain_live by lia. eexists. split; [done|]. split; [|done].
  split; [|done]. split; [|done]. split; cbn; [lia|done].
Qed.

Lemma release_store c o : (1 <= c < 2 ^ 32 - 1)%Z -> store_ok (c + 1) o ->
  exists rc o', mdv_2pset_release (Some o) = (rc, Some o') /\ store_ok c o' /\ data o' = data o /\ o_idgen o' = o_idgen o.
Proof.
  intros Hc [[[Hr Ho] Hk] He]. cbn [mdv_2pset_release]. rewrite (storage_release_count _ c Hc Hr), (proj2 (Z.eqb_neq c 0)) by lia.
  eexists _, _. split; [done|]. split; [|done]. split; [|done]. by split.
Qed.

(** A log whose applied position is not behind its end. *)
Definition log_good (c : Z) (t : mdv_trlog) : Prop := trlog_ok c t /\ (l_applied t <= l_top t)%Z.

(** Two logs with the same contents. *)
Definition same_log (t t' : mdv_trlog) : Prop :=
  data_of t' = data_of t /\ l_top t' = l_top t /\ l_applied t' = l_applied t /\ l_id t' = l_id t /\ l_uuid t' = l_uuid t.

Lemma retain_log c t : (1 <= c < 2 ^ 32 - 1)%Z -> log_good c t -> exists t', mdv_trlog_retain (Some t) = Some t' /\ log_good (c + 1) t' /\ same_log t t'.
Proof.
  intros Hc [[[Hr Ho] Hlog Hab Htop Hap] Hle]. cbn [mdv_trlog_retain]. rewrite storage_retain_live by lia. eexists. split; [done|]. split; [|done].
  split; [|done]. split; try done. split; cbn; [lia|done].
Qed.

Lemma release_log c t : (1 <= c < 2 ^ 32 - 1)%Z -> log_good (c + 1) t ->
  exists rc t', mdv_trlog_release (Some t) = (rc, Some t') /\ log_good c t' /\ same_log t t'.
Proof.
  intros Hc [[[Hr Ho] Hlog Hab Htop Hap] Hle]. cbn [mdv_trlog_release]. rewrite (storage_release_count _ c Hc Hr), (proj2 (Z.eqb_neq c 0)) by lia.
  eexists _, _. split; [done|]. split; [|done]. by split.
Qed.

(** ** Entries of the maps *)

Definition log_at (s : mdv_tablespace) (u : mdv_uuid) : option mdv_trlog := tf_trlog <$> Hashmap.lookup tf_uuid (sp_trlogs s) u.
Definition rows_at (s : mdv_tablespace) (u : mdv_uuid) : option mdv_rowdata := rf_rowdata <$> Hashmap.lookup rf_uuid (sp_rowdata s) u.

Lemma write_ready {I} (key_of : I -> mdv_uuid) (hm : mdv_hashmap I) it size :
  Hashmap.ready key_of hm size -> Hashmap.lookup key_of hm (key_of it) <> None ->
  Hashmap.ready key_of (write_item key_of hm it) size
  /\ forall k, Hashmap.lookup key_of (write_item key_of hm it) k = if decide (k = key_of it) then Some it else Hashmap.lookup key_of hm k.
Proof.
  intros (Hw & Hc & Hs) Hin. destruct (write_item_spec key_of hm it Hw Hin) as [Hw' Hl]. split; [by split_and!|]. intros k. rewrite Hl.
  destruct (Z.eqb_spec (key_cmp_fn (key_of it) k) 0) as [E%uuid_keq|E]; [by rewrite decide_True|]. rewrite decide_False; [done|].
  intros ->. apply E. by apply uuid_keq.
Qed.

Context (mem : nat -> bool).

Lemma on_trlog_wp {A} s u t (f : mdv_trlog -> outcome (mdv_trlog * A)) t' x (Q : A -> mdv_tablespace -> Prop) :
  Hashmap.ready tf_uuid (sp_trlogs s) 24 -> log_at s u = Some t -> f t = Done (t', x) ->
  (forall hm, Hashmap.ready tf_uuid hm 24 -> (forall v, log_at (set_trlogs s hm) v = if decide (v = u) then Some t' else log_at s v) -> Q x (set_trlogs s hm)) ->
  wp mem (on_trlog u f) s Q.
Proof.
  intros Hr Ht Hf HQ. unfold on_trlog. wp_steps. unfold log_at in Ht. destruct (Hashmap.lookup tf_uuid (sp_trlogs s) u) as [ref|] eqn:El; [|done]. injection Ht as Ht.
  eapply wp_lift; [by rewrite (find_lookup tf_uuid _ u (proj1 Hr))|]. wp_steps. eapply wp_lift; [by rewrite El|]. wp_steps. eapply wp_lift; [by rewrite Ht|]. wp_steps. cbn [fst snd].
  destruct (lookup_elem tf_uuid _ _ _ (proj1 Hr) El) as [_ Eu%uuid_keq].
  destruct (write_ready tf_uuid (sp_trlogs s) (mk_trlog_ref (tf_uuid ref) t') 24 Hr ltac:(cbn; rewrite <- Eu, El; done)) as [Hr' Hl].
  apply HQ; [done|]. intros v. unfold log_at. cbn [sp_trlogs set_trlogs]. rewrite Hl. cbn [tf_uuid]. rewrite <- Eu. by destruct (decide (v = u)).
Qed.

Lemma on_rowdata_wp {A} s u r (f : mdv_rowdata -> outcome (mdv_rowdata * A)) r' x (Q : A -> mdv_tablespace -> Prop) :
  Hashmap.ready rf_uuid (sp_rowdata s) 24 -> rows_at s u = Some r -> f r = Done (r', x) ->
  (forall hm, Hashmap.ready rf_uuid hm 24 -> (forall v, rows_at (set_rowdata s hm) v = if decide (v = u) then Some r' else rows_at s v) -> Q x (set_rowdata s hm)) ->
  wp mem (on_rowdata u f) s Q.
Proof.
  intros Hr Ht Hf HQ. unfold on_rowdata. wp_steps. unfold rows_at in Ht. destruct (Hashmap.lookup rf_uuid (sp_rowdata s) u) as [ref|] eqn:El; [|done]. injection Ht as Ht.
  eapply wp_lift; [by rewrite (find_lookup rf_uuid _ u (proj1 Hr))|]. wp_steps. eapply wp_lift; [by rewrite El|]. wp_steps. eapply wp_lift; [by rewrite Ht|]. wp_steps. cbn [fst snd].
  destruct (lookup_elem rf_uuid _ _ _ (proj1 Hr) El) as [_ Eu%uuid_keq].
  destruct (write_ready rf_uuid (sp_rowdata s) (mk_rowdata_ref (rf_uuid ref) r') 24 Hr ltac:(cbn; rewrite <- Eu, El; done)) as [Hr' Hl].
  apply HQ; [done|]. intros v. unfold rows_at. cbn [sp_rowdata set_rowdata]. rewrite Hl. cbn [rf_uuid]. rewrite <- Eu. by destruct (decide (v = u)).
Qed.

End Refs.

#[local] Abbreviation mdv_trlog_data := (Z * bytes)%type.

(** ** Operations and their effect *)

Section Spec.
Context `{Binn}.

(** The operations of a log: a table is created, rows are inserted, or another
    operation, which is skipped. *)
Inductive operation :=
  | OpCreate (t : mdv_table) (l : list mdv_field)
  | OpInsert (id : Z) (table : mdv_uuid) (rowset : binn)
  | OpOther (type : Z) (payload : bytes).

Definition op_code (o : operation) : Z :=
  match o with OpCreate _ _ => MDV_OP_TABLE_CREATE | OpInsert _ _ _ => MDV_OP_ROW_INSERT | OpOther type _ => type end.

Definition op_body (o : operation) : bytes :=
  match o with
  | OpCreate t l => binn_bytes (table_object t l)
  | OpInsert id table rowset => rowset_payload id table rowset
  | OpOther _ payload => payload
  end.

Definition op_bytes (o : operation) : bytes := make_op (op_code o) (op_body o).

Definition rowset_ok (rowset : binn) : Prop :=
  is_container rowset = true /\ doc_ok rowset /\ (Z.of_nat (length (binn_bytes rowset)) < 2 ^ 31)%Z.

Definition op_wf (o : operation) : Prop :=
  match o with
  | OpCreate t l => table_ok t l
  | OpInsert id table rowset => fits 64 id /\ Uuid.wf table /\ rowset_ok rowset
  | OpOther type payload => fits 32 type /\ type <> MDV_OP_TABLE_CREATE /\ type <> MDV_OP_ROW_INSERT /\ (Z.of_nat (length payload) < 2 ^ 31)%Z
  end.

(** The tables and the rows as maps, and what an operation of the node with the
    number [node] adds to them. *)
Record contents := mk_contents { c_tables : gmap bytes bytes; c_rows : mdv_uuid -> gmap bytes bytes }.

Definition effect (node : Z) (c : contents) (o : operation) : contents :=
  match o with
  | OpCreate t l => mk_contents (c_tables c ∪ {[u8s (tb_id t) := binn_bytes (table_object t l)]}) (c_rows c)
  | OpInsert id table rowset =>
      mk_contents (c_tables c)
        (fun u => if decide (u = table) then store_all (mdv_rowdata_batch_next (binn_items rowset) node id) (c_rows c u) else c_rows c u)
  | OpOther _ _ => c
  end.

Lemma op_body_length o : op_wf o -> (Z.of_nat (length (op_body o)) < 2 ^ 32 - 8)%Z.
Proof.
  destruct o as [t l|id table rowset|type payload]; cbn [op_wf op_body].
  - intros Ht. pose proof (to_bytes _ _ Ht). lia.
  - intros (_ & _ & _ & _ & Hs). unfold rowset_payload. rewrite !length_app, length_to_le, u8s_length. lia.
  - lia.
Qed.

Lemma op_code_fits o : op_wf o -> fits 32 (op_code o).
Proof. destruct o; cbn [op_wf op_code]; [intros _; split; done..|tauto]. Qed.

Lemma op_bytes_ok o : op_wf o -> op_ok (op_bytes o).
Proof.
  intros Ho. pose proof (op_body_length o Ho). unfold op_ok, op_bytes, make_op, op_size. rewrite take_app_length' by (by rewrite length_to_le).
  rewrite of_to_le_id by (apply wrap_fits; lia). rewrite wrap_id by (unfold fits; lia). rewrite !length_app, !length_to_le. lia.
Qed.

Lemma op_type_bytes o : op_wf o -> op_type (op_bytes o) = op_code o.
Proof.
  intros Ho. unfold op_type, op_bytes, make_op. rewrite drop_app_length' by (by rewrite length_to_le). rewrite take_app_length' by (by rewrite length_to_le).
  apply of_to_le_id. by apply op_code_fits.
Qed.

Lemma op_payload_bytes o : op_payload (op_bytes o) = op_body o.
Proof. unfold op_payload, op_bytes, make_op. rewrite app_assoc. apply drop_app_length'. by rewrite length_app, !length_to_le. Qed.

End Spec.

(** ** The state of the table space *)

Section Correct.
Context `{Mdb, !MdbCursor, !MdbLaws, !MdbCursorLaws, !MdbReliable, !MdbCursorReliable, !MdbRoom, Binn, !BinnLaws}.
Context (n : Z) (Hn : (1 <= n < 2 ^ 32 - 7)%Z) (mem : nat -> bool) (Hg : granted mem).
Context (open_log : mdv_uuid -> option mdv_lmdb) (open_rows : list Z -> option mdv_2pset) (batch_size : Z) (fuel : nat).

#[local] Abbreviation data o := (db (s_env (o_storage o))).

(** The storages can be opened. *)
Definition log_store (st : mdv_lmdb) : Prop :=
  live n st /\ log_ok (db (s_env st)) (int_maps (s_env st)) /\ pos_ok (db (s_env st))
  /\ (forall id, is_Some (log (db (s_env st)) !! id) -> Trlog.id_ok id) /\ size (log_map (db (s_env st))) + 1 < fuel
  /\ (stored_pos (db (s_env st)) <= next_id (db (s_env st)))%Z.

Context (Hlogs : forall u, exists st, open_log u = Some st /\ log_store st).
Context (Hrows : forall u, exists o, open_rows (MDV_STRG_UUID u 64) = Some o /\ store_ok n o).

(** How many references there are to a storage: that of the map, and one more to
    the one that is in use. *)
Definition base (_ : mdv_uuid) : Z := n.
Definition bump (u : mdv_uuid) (v : mdv_uuid) : Z := if decide (v = u) then n + 1 else n.

Record space (cl cr : mdv_uuid -> Z) (s : mdv_tablespace) : Prop := {
  sp_store : store_ok n (ts_objects (sp_tables s));
  sp_maps : is_Some (data (ts_objects (sp_tables s)) !! MDV_MAP_OBJECTS) -> is_Some (data (ts_objects (sp_tables s)) !! MDV_MAP_REMOVED);
  sp_log_map : Hashmap.ready tf_uuid (sp_trlogs s) 24;
  sp_row_map : Hashmap.ready rf_uuid (sp_rowdata s) 24;
  sp_id_map : Hashmap.wf si_uuid (sp_storage_ids s);
  sp_logs : forall u t, log_at s u = Some t -> log_good (cl u) t;
  sp_rows : forall u r, rows_at s u = Some r -> store_ok (cr u) (rd_objects r)
}.

(** What a log holds, opened or not: its data, the next number and the applied
    position; and what the storage of a table holds: its data and the generator. *)
Definition log_view (s : mdv_tablespace) (u : mdv_uuid) : database * Z * Z :=
  match log_at s u with
  | Some t => (data_of t, l_top t, l_applied t)
  | None => match open_log u with
            | Some st => (db (s_env st), next_id (db (s_env st)), stored_pos (db (s_env st)))
            | None => (∅, 0%Z, 0%Z)
            end
  end.

Definition row_view (s : mdv_tablespace) (u : mdv_uuid) : database * Z :=
  match rows_at s u with
  | Some r => (data (rd_objects r), o_idgen (rd_objects r))
  | None => match open_rows (MDV_STRG_UUID u 64) with Some o => (data o, o_idgen o) | None => (∅, 0%Z) end
  end.

(** The number of a node in the identifiers of its rows. *)
Definition id_view (s : mdv_tablespace) (u : mdv_uuid) : option Z :=
  match log_at s u with Some t => Some (l_id t) | None => si_id <$> Hashmap.lookup si_uuid (sp_storage_ids s) u end.

Record same_space (s s' : mdv_tablespace) : Prop := {
  ss_uuid : sp_uuid s' = sp_uuid s;
  ss_tables : sp_tables s' = sp_tables s;
  ss_logs : forall u, log_view s' u = log_view s u;
  ss_rows : forall u, row_view s' u = row_view s u;
  ss_ids : forall u, id_view s' u = id_view s u
}.

Lemma same_space_refl s : same_space s s.
Proof. by split. Qed.

Lemma same_space_trans s1 s2 s3 : same_space s1 s2 -> same_space s2 s3 -> same_space s1 s3.
Proof. intros [] []. split; intros; congruence. Qed.

(** ** Logs *)

Lemma set_logs_space cl cl' cr s hm : space cl cr s -> Hashmap.ready tf_uuid hm 24 ->
  (forall u t, log_at (set_trlogs s hm) u = Some t -> log_good (cl' u) t) -> space cl' cr (set_trlogs s hm).
Proof. intros [] Hr Hl. by split. Qed.

Lemma set_rows_space cl cr cr' s hm : space cl cr s -> Hashmap.ready rf_uuid hm 24 ->
  (forall u r, rows_at (set_rowdata s hm) u = Some r -> store_ok (cr' u) (rd_objects r)) -> space cl cr' (set_rowdata s hm).
Proof. intros [] Hr Hl. by split. Qed.

(** One log is replaced by one with the same contents. *)
Lemma same_logs s hm u t t' : log_at s u = Some t -> same_log t t' ->
  (forall v, log_at (set_trlogs s hm) v = if decide (v = u) then Some t' else log_at s v) -> same_space s (set_trlogs s hm).
Proof.
  intros Ht (E1 & E2 & E3 & E4 & _) Hl. split; try done; intros v; unfold log_view, id_view; rewrite Hl; (destruct (decide (v = u)) as [->|]; [|done]); rewrite Ht; congruence.
Qed.

Lemma retain_trlog_wp s cr u t (Q : unit -> mdv_tablespace -> Prop) :
  space base cr s -> log_at s u = Some t ->
  (forall s', space (bump u) cr s' -> same_space s s' -> is_Some (log_at s' u) -> Q tt s') -> wp mem (retain_trlog u) s Q.
Proof.
  intros Hs Ht HQ. destruct (retain_log n t ltac:(lia) (sp_logs _ _ _ Hs u t Ht)) as (t' & E & Hg' & Hsame).
  unfold retain_trlog. eapply on_trlog_wp; [apply Hs|exact Ht|by rewrite E|]. intros hm Hr Hl. apply HQ.
  - apply (set_logs_space base); [done..|]. intros v x. rewrite Hl. unfold bump. case_decide; [intros [= <-]; done|]. apply (sp_logs _ _ _ Hs).
  - by eapply same_logs.
  - rewrite Hl, decide_True by done. eauto.
Qed.

Lemma release_trlog_wp s cr u (Q : unit -> mdv_tablespace -> Prop) :
  space (bump u) cr s -> is_Some (log_at s u) ->
  (forall s', space base cr s' -> same_space s s' -> is_Some (log_at s' u) -> Q tt s') -> wp mem (release_trlog u) s Q.
Proof.
  intros Hs [t Ht] HQ. pose proof (sp_logs _ _ _ Hs u t Ht) as Hlog. unfold bump in Hlog. rewrite decide_True in Hlog by done.
  destruct (release_log n t ltac:(lia) Hlog) as (rc & t' & E & Hg' & Hsame).
  unfold release_trlog. eapply on_trlog_wp; [apply Hs|exact Ht|by rewrite E|]. intros hm Hr Hl. apply HQ.
  - apply (set_logs_space (bump u)); [done..|]. intros v x. rewrite Hl. case_decide as Ev; [intros [= <-]; done|]. intros Hx.
    pose proof (sp_logs _ _ _ Hs v x Hx) as Hv. unfold bump in Hv. by rewrite decide_False in Hv.
  - by eapply same_logs.
  - rewrite Hl, decide_True by done. eauto.
Qed.

Lemma trlog_lookup s u : Hashmap.ready tf_uuid (sp_trlogs s) 24 ->
  exists ref, deref (mdv_hashmap_find tf_uuid (sp_trlogs s) u) = Done ref /\ tf_trlog <$> ref = log_at s u.
Proof. intros (Hw & _). rewrite (find_lookup tf_uuid _ u Hw). by eexists. Qed.

Lemma rowdata_lookup s u : Hashmap.ready rf_uuid (sp_rowdata s) 24 ->
  exists ref, deref (mdv_hashmap_find rf_uuid (sp_rowdata s) u) = Done ref /\ rf_rowdata <$> ref = rows_at s u.
Proof. intros (Hw & _). rewrite (find_lookup rf_uuid _ u Hw). by eexists. Qed.

(** A log is opened with what its storage holds. *)
Lemma open_trlog_wp s cr u (Q : bool -> mdv_tablespace -> Prop) :
  space base cr s -> log_at s u = None -> is_Some (id_view s u) ->
  (forall s' t, space base cr s' -> same_space s s' -> log_at s' u = Some t -> Q true s') -> wp mem (open_trlog open_log fuel u) s Q.
Proof.
  intros Hs Hno [id Hid] HQ. unfold open_trlog, mdv_tablespace_storage_id. wp_steps. rewrite (Hb Hg). eapply wp_lift; [done|]. wp_steps.
  unfold id_view in Hid. rewrite Hno in Hid. eapply wp_lift; [by rewrite (find_lookup si_uuid _ u (sp_id_map _ _ _ Hs))|]. wp_steps. rewrite Hid. wp_steps.
  rewrite (Hb0 Hg), (Hb1 Hg), (Hb2 Hg). cbn [err_of]. destruct (Hlogs u) as (st & Est & Hlive & Hlok & Hpos & Hids & Hfuel & Hle). rewrite Est.
  destruct (init_runs n ltac:(lia) fuel (mk_trlog u id st 0 0 [])) as (t & Ei & Htok & Hd & Htop & Hap & Huu & Hti & _); try done.
  change (data_of (mk_trlog u id st 0 0 [])) with (db (s_env st)) in *.
  eapply wp_lift; [unfold mdv_trlog_open; cbn [negb]; rewrite Ei; cbn [mbind outcome_bind]; rewrite decide_False by (intros Hx; by apply Hx); done|].
  cbn [fst snd]. wp_steps. rewrite (Hb3 Hg), (Hb4 Hg).
  destruct (insert_ready tf_uuid (sp_trlogs s) (mk_trlog_ref u t) 24 (sp_log_map _ _ _ Hs)) as (hm & E & Hr & Hl & _). eapply wp_lift; [by rewrite E|]. wp_steps. cbn [fst snd is_some].
  assert (Hat : forall v, log_at (set_trlogs s hm) v = if decide (v = u) then Some t else log_at s v).
  { intros v. unfold log_at. cbn [sp_trlogs set_trlogs]. rewrite Hl. cbn [tf_uuid]. destruct (Z.eqb_spec (key_cmp_fn u v) 0) as [Ev%uuid_keq|Ev].
    - by rewrite decide_True.
    - rewrite decide_False; [done|]. intros ->. apply Ev. by apply uuid_keq. }
  apply (HQ _ t).
  - apply (set_logs_space base); [done..|]. intros v x. rewrite Hat. case_decide; [intros [= <-]|apply (sp_logs _ _ _ Hs)]. split; [done|]. rewrite Htop, Hap. done.
  - split; try done; intros v; unfold log_view, id_view; rewrite Hat; (destruct (decide (v = u)) as [->|]; [|done]); rewrite Hno; [|by rewrite Hti].
    rewrite Est, Hd, Htop, Hap. done.
  - by rewrite Hat, decide_True.
Qed.

Lemma trlog_create_wp s cr u (Q : bool -> mdv_tablespace -> Prop) :
  space base cr s -> is_Some (id_view s u) ->
  (forall s', space (bump u) cr s' -> same_space s s' -> is_Some (log_at s' u) -> Q true s') -> wp mem (mdv_tablespace_trlog_create open_log fuel u) s Q.
Proof.
  intros Hs Hid HQ. unfold mdv_tablespace_trlog_create. wp_steps. rewrite (Hb Hg). cbn [negb]. wp_steps.
  destruct (trlog_lookup s u (sp_log_map _ _ _ Hs)) as (ref & E & Hat). eapply wp_lift; [exact E|]. wp_step.
  assert (Hend : forall s1 t, space base cr s1 -> same_space s s1 -> log_at s1 u = Some t -> wp mem (retain_trlog u;; mret true) s1 Q).
  { intros s1 t Hs1 Hsame Ht. wp_step. apply (retain_trlog_wp s1 cr u t); [done..|]. intros s2 Hs2 Hsame2 Ht2. wp_steps. apply HQ; [done| |done]. by eapply same_space_trans. }
  destruct ref as [ref|]; cbn in Hat.
  - wp_step. cbn iota. eapply Hend; [done|apply same_space_refl|by symmetry].
  - apply (open_trlog_wp s cr u); [done|done|done|]. intros s1 t Hs1 Hsame Ht. by eapply Hend.
Qed.

Lemma trlog_wp s cr u (Q : bool -> mdv_tablespace -> Prop) :
  space base cr s -> is_Some (log_at s u) ->
  (forall s', space (bump u) cr s' -> same_space s s' -> is_Some (log_at s' u) -> Q true s') -> wp mem (mdv_tablespace_trlog u) s Q.
Proof.
  intros Hs [t Ht] HQ. unfold mdv_tablespace_trlog. wp_steps. rewrite (Hb Hg). cbn [negb]. wp_steps.
  destruct (trlog_lookup s u (sp_log_map _ _ _ Hs)) as (ref & E & Hat). eapply wp_lift; [exact E|]. rewrite Ht in Hat. destruct ref as [ref|]; [|done]. wp_step.
  apply (retain_trlog_wp s cr u t); [done..|]. intros s2 Hs2 Hsame2 Ht2. wp_steps. by apply HQ.
Qed.

(** ** Rows *)

Lemma same_rows s hm u r r' : rows_at s u = Some r -> data (rd_objects r') = data (rd_objects r) -> o_idgen (rd_objects r') = o_idgen (rd_objects r) ->
  (forall v, rows_at (set_rowdata s hm) v = if decide (v = u) then Some r' else rows_at s v) -> same_space s (set_rowdata s hm).
Proof.
  intros Ht E1 E2 Hl. split; try done; intros v; unfold row_view; rewrite Hl; (destruct (decide (v = u)) as [->|]; [|done]); rewrite Ht; congruence.
Qed.

Lemma retain_rowdata_wp s cl u r (Q : unit -> mdv_tablespace -> Prop) :
  space cl base s -> rows_at s u = Some r ->
  (forall hm, let s' := set_rowdata s hm in space cl (bump u) s' -> same_space s s' -> is_Some (rows_at s' u) -> Q tt s') -> wp mem (retain_rowdata u) s Q.
Proof.
  intros Hs Ht HQ. destruct (retain_store n (rd_objects r) ltac:(lia) (sp_rows _ _ _ Hs u r Ht)) as (o' & E & Hg' & Hsame).
  unfold retain_rowdata. eapply on_rowdata_wp; [apply Hs|exact Ht|unfold mdv_rowdata_retain; rewrite E; done|]. intros hm Hr Hl. apply HQ.
  - apply (set_rows_space cl base); [done..|]. intros v x. rewrite Hl. unfold bump. case_decide; [intros [= <-]; done|]. apply (sp_rows _ _ _ Hs).
  - eapply same_rows; [done| | |exact Hl]; apply Hsame.
  - rewrite Hl, decide_True by done. eauto.
Qed.

Lemma release_rowdata_wp s cl u (Q : unit -> mdv_tablespace -> Prop) :
  space cl (bump u) s -> is_Some (rows_at s u) ->
  (forall hm, let s' := set_rowdata s hm in space cl base s' -> same_space s s' -> is_Some (rows_at s' u) -> Q tt s') -> wp mem (release_rowdata u) s Q.
Proof.
  intros Hs [r Ht] HQ. pose proof (sp_rows _ _ _ Hs u r Ht) as Hst. unfold bump in Hst. rewrite decide_True in Hst by done.
  destruct (release_store n (rd_objects r) ltac:(lia) Hst) as (rc & o' & E & Hg' & Hsame).
  unfold release_rowdata. eapply on_rowdata_wp; [apply Hs|exact Ht|unfold mdv_rowdata_release; rewrite E; done|]. intros hm Hr Hl. apply HQ.
  - apply (set_rows_space cl (bump u)); [done..|]. intros v x. rewrite Hl. case_decide as Ev; [intros [= <-]; done|]. intros Hx.
    pose proof (sp_rows _ _ _ Hs v x Hx) as Hv. unfold bump in Hv. by rewrite decide_False in Hv.
  - eapply same_rows; [done| | |exact Hl]; apply Hsame.
  - rewrite Hl, decide_True by done. eauto.
Qed.

Lemma rowdata_create_wp s cl u (Q : bool -> mdv_tablespace -> Prop) :
  space cl base s ->
  (forall hm, let s' := set_rowdata s hm in space cl (bump u) s' -> same_space s s' -> is_Some (rows_at s' u) -> Q true s') -> wp mem (mdv_tablespace_rowdata_create open_rows u) s Q.
Proof.
  intros Hs HQ. unfold mdv_tablespace_rowdata_create. wp_steps. rewrite (Hb Hg). cbn [negb]. wp_steps.
  destruct (rowdata_lookup s u (sp_row_map _ _ _ Hs)) as (ref & E & Hat). eapply wp_lift; [exact E|]. wp_step.
  assert (Hend : forall s1 r, (forall hm, set_rowdata s1 hm = set_rowdata s hm) -> space cl base s1 -> same_space s s1 -> rows_at s1 u = Some r ->
    wp mem (retain_rowdata u;; mret true) s1 Q).
  { intros s1 r Heq Hs1 Hsame Ht. wp_step. apply (retain_rowdata_wp s1 cl u r); [done..|]. cbn zeta. intros hm. rewrite Heq. intros Hs2 Hsame2 Ht2. wp_steps.
    apply HQ; [done| |done]. by eapply same_space_trans. }
  destruct ref as [ref|]; cbn in Hat.
  { wp_step. cbn iota. eapply Hend; [done|done|apply same_space_refl|by symmetry]. }
  destruct (Hrows u) as (o & Eo & Hst). unfold open_rowdata. wp_steps. rewrite (Hb0 Hg), (Hb1 Hg). unfold mdv_rowdata_open. cbn [negb]. rewrite Eo. cbn [fst]. wp_steps.
  rewrite (Hb2 Hg), (Hb3 Hg). destruct (insert_ready rf_uuid (sp_rowdata s) (mk_rowdata_ref u (mk_rowdata o u)) 24 (sp_row_map _ _ _ Hs)) as (hm & Ei & Hr & Hl & _).
  eapply wp_lift; [by rewrite Ei|]. wp_steps. cbn [fst snd is_some].
  assert (Hat' : forall v, rows_at (set_rowdata s hm) v = if decide (v = u) then Some (mk_rowdata o u) else rows_at s v).
  { intros v. unfold rows_at. cbn [sp_rowdata set_rowdata]. rewrite Hl. cbn [rf_uuid]. destruct (Z.eqb_spec (key_cmp_fn u v) 0) as [Ev%uuid_keq|Ev].
    - by rewrite decide_True.
    - rewrite decide_False; [done|]. intros ->. apply Ev. by apply uuid_keq. }
  apply (Hend _ (mk_rowdata o u)); [done|..].
  - apply (set_rows_space cl base); [done..|]. intros v x. rewrite Hat'. case_decide; [intros [= <-]; done|apply (sp_rows _ _ _ Hs)].
  - split; try done; intros v; unfold row_view; rewrite Hat'; (destruct (decide (v = u)) as [->|]; [|done]). rewrite <- Hat, Eo. done.
  - by rewrite Hat', decide_True.
Qed.

(** ** Additions to a log *)

(** The operations of a log behind its applied position, with their numbers, and its
    next number.  Those of a log that is not open lie in its storage; nothing is applied
    before the log is opened ([log_apply_closed]). *)
Definition pend (s : mdv_tablespace) (u : mdv_uuid) : list mdv_trlog_data := log_from (log_view s u).2 (log_view s u).1.1.
Definition top (s : mdv_tablespace) (u : mdv_uuid) : Z := (log_view s u).1.2.
Definition log_size (s : mdv_tablespace) (u : mdv_uuid) : nat := size (log (log_view s u).1.1).

(** The operation [op] was added to the log of [u]; nothing else changed. *)
Record appended (s s' : mdv_tablespace) (u : mdv_uuid) (op : bytes) : Prop := {
  ap_uuid : sp_uuid s' = sp_uuid s;
  ap_tables : sp_tables s' = sp_tables s;
  ap_pend : pend s' u = pend s u ++ [(top s u, op)];
  ap_top : top s' u = (top s u + 1)%Z;
  ap_size : log_size s' u = log_size s u + 1;
  ap_logs : forall v, v <> u -> log_view s' v = log_view s v;
  ap_rows : forall v, row_view s' v = row_view s v;
  ap_ids : forall v, id_view s' v = id_view s v
}.

Lemma log_from_snoc pos d d' t op :
  Trlog.above t (log d) -> log d' = <[t := op]> (log d) -> (pos <= t)%Z -> log_from pos d' = log_from pos d ++ [(t, op)].
Proof.
  intros Ha Hl Hp. assert (Hnone : log d !! t = None) by (destruct (log d !! t) eqn:E; [|done]; specialize (Ha t ltac:(eauto)); lia).
  apply ascending_ext.
  - apply ascending_filter, in_order_ascending.
  - apply StronglySorted_app_2; [|apply ascending_filter, in_order_ascending|repeat constructor].
    intros [i x] y Hx Hy. apply list_elem_of_singleton in Hy as ->. apply list_elem_of_filter in Hx as [_ Hx%elem_of_in_order]. cbn. apply Ha. eauto.
  - intros [i x]. unfold log_from. rewrite elem_of_app, !list_elem_of_filter, list_elem_of_singleton, !elem_of_in_order, Hl. cbn [fst].
    rewrite lookup_insert. case_decide as E; [subst i|]; split.
    + intros [_ [= ->]]. by right.
    + intros [[_ Hx]|[= ->]]; [by rewrite Hnone in Hx|done].
    + intros [? ?]. by left.
    + intros [[? ?]|[= -> ->]]; done.
Qed.

Lemma appended_same s s1 s' u op : same_space s s1 -> appended s1 s' u op -> appended s s' u op.
Proof.
  intros [E1 E2 E3 E4 E5] [A1 A2 A3 A4 A5 A6 A7 A8]. unfold pend, top, log_size in *.
  split; unfold pend, top, log_size; intros; rewrite <- ?E3, <- ?E4, <- ?E5, <- ?E1, <- ?E2; auto.
Qed.

Lemma same_appended s s1 s' u op : appended s s1 u op -> same_space s1 s' -> appended s s' u op.
Proof.
  intros [A1 A2 A3 A4 A5 A6 A7 A8] [E1 E2 E3 E4 E5]. unfold pend, top, log_size in *.
  split; unfold pend, top, log_size; intros; rewrite ?E3, ?E4, ?E5, ?E1, ?E2; auto.
Qed.

Lemma add_op_wp s cr u op (Q : bool -> mdv_tablespace -> Prop) :
  space (bump u) cr s -> is_Some (log_at s u) -> op_ok op -> (top s u < 2 ^ 64 - 1)%Z ->
  (forall hm, let s' := set_trlogs s hm in space (bump u) cr s' -> appended s s' u op -> is_Some (log_at s' u) -> Q true s') -> wp mem (add_op u op) s Q.
Proof.
  intros Hs [t Ht] Hop Htop HQ. unfold add_op. wp_steps. rewrite (Hb Hg), (Hb0 Hg). destruct (sp_logs _ _ _ Hs u t Ht) as [Hok Hle].
  unfold bump in Hok. rewrite decide_True in Hok by done. assert (Ev : log_view s u = (data_of t, l_top t, l_applied t)) by (unfold log_view; by rewrite Ht).
  unfold top in Htop. rewrite Ev in Htop. cbn in Htop. pose proof (add_op_runs (n + 1) ltac:(lia) t op true Hok Hop Htop) as Ha.
  destruct (mdv_trlog_add_op true true t op) as [t' ok] eqn:Eadd. destruct Ha as (Hok' & Hap & Hrel & Hlog). rewrite (Hrel _ _) in *. destruct Hlog as (Hlog & Hnone & Htop' & _ & _).
  assert (Hid : l_id t' = l_id t) by (change (l_id (t', true).1 = l_id t); rewrite <- Eadd; apply add_op_id).
  eapply on_trlog_wp; [apply Hs|exact Ht|by rewrite Eadd|]. intros hm Hr Hl. assert (Ev' : log_view (set_trlogs s hm) u = (data_of t', l_top t', l_applied t')).
  { unfold log_view. by rewrite Hl, decide_True. }
  apply HQ.
  - apply (set_logs_space (bump u)); [done..|]. intros v x. rewrite Hl. case_decide as E; [intros [= <-]|apply (sp_logs _ _ _ Hs)]. subst v. unfold bump.
    rewrite decide_True by done. split; [done|]. lia.
  - split; try done; unfold pend, top, log_size; rewrite ?Ev, ?Ev'; cbn [fst snd].
    + rewrite Hap. apply log_from_snoc; [apply (ok_above _ _ Hok)|done|done].
    + done.
    + rewrite Hlog, map_size_insert_None by done. lia.
    + intros v Hv. unfold log_view. by rewrite Hl, decide_False.
    + intros v. unfold id_view. rewrite Hl. destruct (decide (v = u)) as [->|]; [|done]. by rewrite Ht, Hid.
  - rewrite Hl, decide_True by done. eauto.
Qed.

(** ** Requests *)

Definition rows_in (s : mdv_tablespace) (u : mdv_uuid) : gmap bytes bytes := Pset.objects (row_view s u).1.
Definition gen_of (s : mdv_tablespace) (u : mdv_uuid) : Z := (row_view s u).2.
Definition tables_in (s : mdv_tablespace) : gmap bytes bytes := Pset.objects (data (ts_objects (sp_tables s))).

(** Identifiers of rows of [u] were reserved. *)
Record reserved_in (s s' : mdv_tablespace) (u : mdv_uuid) (range : Z) : Prop := {
  rs_uuid : sp_uuid s' = sp_uuid s;
  rs_tables' : sp_tables s' = sp_tables s;
  rs_logs : forall v, log_view s' v = log_view s v;
  rs_ids : forall v, id_view s' v = id_view s v;
  rs_rows_in : forall v, rows_in s' v = rows_in s v;
  rs_gen : forall v, gen_of s' v = if decide (v = u) then u64 (gen_of s u + range) else gen_of s v
}.

Lemma reserve_wp s cl u range (Q : mdv_errno * option Z -> mdv_tablespace -> Prop) :
  space cl (bump u) s -> is_Some (rows_at s u) ->
  (forall hm, let s' := set_rowdata s hm in space cl (bump u) s' -> reserved_in s s' u range -> is_Some (rows_at s' u) -> Q (MDV_OK, Some (gen_of s u)) s') -> wp mem (reserve u range) s Q.
Proof.
  intros Hs [r Hr] HQ. unfold reserve. wp_steps. rewrite (Hb Hg), (Hb0 Hg). cbn [err_of]. destruct (sp_rows _ _ _ Hs u r Hr) as [Hlive Hrem]. unfold bump in Hlive. rewrite decide_True in Hlive by done.
  assert (Hbal : Pset.balanced (n + 1) (Pset.enter (rd_objects r))) by (apply set_balanced_enter; apply Hlive).
  pose proof (reserve_runs (n + 1) ltac:(lia) (rd_objects r) range Hbal) as Hrun. pose proof (reserve_reliable (n + 1) ltac:(lia) (rd_objects r) range Hbal) as Hok.
  pose proof (reserve_keys MDV_OK true (rd_objects r) range (sl_keys _ _ Hlive)) as Hkeys.
  destruct (mdv_2pset_reserve_ids_range MDV_OK true (rd_objects r) range) as [[l err] id] eqn:E. cbn [fst snd] in Hok, Hkeys. subst err.
  destruct Hrun as (B & I & _ & [(Hx & _)|(_ & Hid & Hgen & _ & Hsame)]); [done|]. subst id.
  assert (Hobj : Pset.objects (dbl l) = Pset.objects (data (rd_objects r)) /\ removed (dbl l) = removed (data (rd_objects r))).
  { unfold Pset.objects, removed. by rewrite !Hsame. }
  destruct Hobj as [Hobj Hrem']. eapply on_rowdata_wp; [apply Hs|exact Hr|unfold mdv_rowdata_reserve; by rewrite E|]. intros hm Hready Hl. unfold with_set in Hl.
  replace (o_idgen (rd_objects r)) with (gen_of s u) by (unfold gen_of, row_view; by rewrite Hr). apply HQ.
  - apply (set_rows_space cl (bump u)); [done..|]. intros v x. rewrite Hl. case_decide as Ev; [intros [= <-]|apply (sp_rows _ _ _ Hs)]. subst v. unfold bump. rewrite decide_True by done. cbn [rd_objects].
    split; [by apply idle_set_live|]. change (removed (dbl l) = ∅). by rewrite Hrem'.
  - split; try done; intros v; unfold rows_in, gen_of, row_view; rewrite Hl; (destruct (decide (v = u)) as [->|]; [|done]); rewrite Hr; [exact Hobj|exact Hgen].
  - rewrite Hl, decide_True by done. eauto.
Qed.

(** ** One operation is applied *)

(** The tables and rows are those of [c]. *)
Definition holds (s : mdv_tablespace) (c : contents) : Prop := tables_in s = c_tables c /\ forall u, rows_in s u = c_rows c u.

(** The state that an operation leaves: only tables and rows have changed. *)
Record applied_in (s s' : mdv_tablespace) (c : contents) : Prop := {
  ai_uuid : sp_uuid s' = sp_uuid s;
  ai_trlogs : sp_trlogs s' = sp_trlogs s;
  ai_ids : sp_storage_ids s' = sp_storage_ids s;
  ai_holds : holds s' c
}.

Lemma holds_same s s' c : same_space s s' -> holds s c -> holds s' c.
Proof. intros [E1 E2 E3 E4 E5] [Ht Hr]. unfold holds, tables_in, rows_in. rewrite E2. split; [exact Ht|]. intros u. rewrite E4. apply Hr. Qed.

Lemma apply_create_wp cl s c t l node :
  space cl base s -> holds s c -> table_ok t l ->
  wp mem (apply_create (op_bytes (OpCreate t l))) s (fun ok s' => ok = true /\ space cl base s' /\ applied_in s s' (effect node c (OpCreate t l))).
Proof.
  intros Hs [Ht Hr] Hok. unfold apply_create. rewrite op_payload_bytes. cbn [op_body]. rewrite load_bytes by (done || apply Hok).
  rewrite get_table_uuid by apply Hok. wp_steps. rewrite (Hb Hg). destruct (sp_store _ _ _ Hs) as [Hl Hrem].
  pose proof (tables_add_runs n ltac:(lia) (sp_tables s) (tb_id t) (binn_bytes (table_object t l)) Hl ltac:(by rewrite Hrem)) as Ha.
  destruct (mdv_tables_add_raw true (sp_tables s) _ _) as [ts err]. destruct Ha as (-> & Hl' & _ & Ho & Hrm). wp_steps.
  split; [by rewrite bool_decide_eq_true_2|]. split.
  - destruct Hs. split; try done. split; [done|]. cbn [sp_tables set_tables]. unfold removed at 1. rewrite Hrm. exact Hrem.
  - split; try done. split; [|exact Hr]. unfold tables_in, Pset.objects at 1. cbn [sp_tables set_tables effect c_tables]. rewrite Ho. cbn. by rewrite <- Ht.
Qed.

(** Rows are added through the pointer to the storage of their table. *)
Lemma add_rowset_wp s cl u id node rowset (Q : mdv_errno -> mdv_tablespace -> Prop) :
  space cl (bump u) s -> is_Some (rows_at s u) ->
  (forall hm, let s' := set_rowdata s hm in space cl (bump u) s' -> is_Some (rows_at s' u) ->
     (forall v, rows_in s' v = if decide (v = u) then store_all (mdv_rowdata_batch_next (binn_items rowset) node id) (rows_in s u) else rows_in s v) ->
     (forall v, gen_of s' v = gen_of s v) -> Q MDV_OK s') ->
  wp mem (on_rowdata u (fun r => Done (mdv_rowdata_add_raw_rowset true r (mk_objid node id) rowset))) s Q.
Proof.
  intros Hs [r Hr] HQ. destruct (sp_rows _ _ _ Hs u r Hr) as [Hlive Hrem]. unfold bump in Hlive. rewrite decide_True in Hlive by done.
  assert (Hbal : Pset.balanced (n + 1) (Pset.enter (rd_objects r))) by (apply set_balanced_enter; apply Hlive).
  set (items := mdv_rowdata_batch_next (binn_items rowset) node id) in *.
  pose proof (batch_total (n + 1) ltac:(lia) (rd_objects r) items Hbal (batch_next_keys _ _ _)) as Hst.
  pose proof (add_batch_keys true (rd_objects r) items (sl_keys _ _ Hlive)) as Hkeys. cbn [mdv_rowdata_add_raw_rowset objid_node objid_id] in *.
  destruct (mdv_2pset_add_batch true (rd_objects r) items) as [l err] eqn:E. cbn [fst] in Hkeys.
  destruct Hst as (-> & B & I & Hgen & Hobj & Hrem' & _). { apply Forall_forall. intros x _. change (removed (data (rd_objects r)) !! x.1 = None). by rewrite Hrem. }
  eapply on_rowdata_wp; [apply Hs|exact Hr|unfold mdv_rowdata_add_raw_rowset; cbn [objid_node objid_id]; fold items; by rewrite E|].
  intros hm Hready Hl. unfold with_set in Hl. apply HQ.
  - apply (set_rows_space cl (bump u)); [done..|]. intros v x. rewrite Hl. case_decide as Ev; [intros [= <-]|apply (sp_rows _ _ _ Hs)]. subst v. unfold bump. rewrite decide_True by done.
    split; [by apply idle_set_live|]. change (removed (dbl l) = ∅). by rewrite Hrem'.
  - rewrite Hl, decide_True by done. eauto.
  - intros v. unfold rows_in, row_view. rewrite Hl. destruct (decide (v = u)) as [->|]; [|done]. rewrite Hr. exact Hobj.
  - intros v. unfold gen_of, row_view. rewrite Hl. destruct (decide (v = u)) as [->|]; [|done]. rewrite Hr. exact (f_equal snd Hgen).
Qed.

Lemma apply_insert_wp cl s c id table rowset node :
  space cl base s -> holds s c -> op_wf (OpInsert id table rowset) ->
  wp mem (apply_insert open_rows node (op_bytes (OpInsert id table rowset))) s
    (fun ok s' => ok = true /\ space cl base s' /\ applied_in s s' (effect node c (OpInsert id table rowset))).
Proof.
  intros Hs Hc (Hid & Hu & Hcont & Hdoc & Hsize). unfold apply_insert. rewrite op_payload_bytes. cbn [op_body]. unfold rowset_payload at 1.
  rewrite !length_app, length_to_le, u8s_length, (proj2 (Nat.ltb_ge _ _)) by lia. cbn zeta.
  assert (E1 : take 8 (rowset_payload id table rowset) = to_le 8 id) by (apply take_app_length'; by rewrite length_to_le).
  assert (E2 : drop 8 (rowset_payload id table rowset) = u8s table ++ binn_bytes rowset) by (apply drop_app_length'; by rewrite length_to_le).
  assert (E3 : drop 24 (rowset_payload id table rowset) = binn_bytes rowset) by (unfold rowset_payload; rewrite app_assoc; apply drop_app_length'; by rewrite length_app, length_to_le, u8s_length).
  rewrite E1, E2, E3, take_app_length' by (by rewrite u8s_length). rewrite of_to_le_id by done. rewrite of_u8s_u8s, load_bytes by done. wp_step.
  apply (rowdata_create_wp s cl table); [done|]. cbn zeta. intros hm1 Hs1 Hsame1 Hat1. cbn [negb]. wp_steps. rewrite (Hb Hg).
  apply (add_rowset_wp _ cl table id node rowset); [done..|]. cbn zeta. intros hm2 Hs2 Hat2 Hrows2 Hgen2. wp_steps.
  apply (release_rowdata_wp _ cl table); [done..|]. cbn zeta. intros hm3 Hs3 Hsame3 Hat3. wp_steps. split; [by rewrite bool_decide_eq_true_2|].
  split; [exact Hs3|]. split; try done. eapply holds_same; [exact Hsame3|]. destruct (holds_same _ _ _ Hsame1 Hc) as [Ht1 Hr1]. split; [exact Ht1|].
  intros v. rewrite Hrows2. cbn [effect c_rows]. destruct (decide (v = table)) as [->|]; by rewrite Hr1.
Qed.

Lemma apply_op_wp cl s c o node :
  space cl base s -> holds s c -> op_wf o ->
  wp mem (mdv_tablespace_trlog_apply open_rows node (op_bytes o)) s (fun ok s' => ok = true /\ space cl base s' /\ applied_in s s' (effect node c o)).
Proof.
  intros Hs Hc Ho. unfold mdv_tablespace_trlog_apply. rewrite op_type_bytes by done. destruct o as [t l|id table rowset|type payload].
  - by apply apply_create_wp.
  - by apply apply_insert_wp.
  - destruct Ho as (_ & Hc1 & Hc2 & _). cbn [op_code]. rewrite !(proj2 (Z.eqb_neq _ _)) by done. wp_steps. done.
Qed.

(** The callback on the operations of a log, one after another. *)
Lemma callback_folds cl ops node : forall s c (items : list mdv_trlog_data) k,
  space cl base s -> holds s c -> Forall op_wf ops -> items.*2 = op_bytes <$> ops ->
  exists k' s', foldl (fun st o => (apply_callback open_rows mem node st o.2).1) (Done (k, s)) items = Done (k', s')
    /\ space cl base s' /\ applied_in s s' (foldl (effect node) c ops).
Proof.
  induction ops as [|o ops IH]; intros s c items k Hs Hc Ho Hi; destruct items as [|[i x] items]; try done.
  { exists k, s. split; [done|]. split; [done|]. by split. }
  rewrite fmap_cons, (fmap_cons op_bytes) in Hi. injection Hi as E Hi. cbn [snd] in E. subst x. apply Forall_cons in Ho as [Ho Hos]. cbn [foldl fst snd apply_callback].
  destruct (apply_op_wp cl s c o node Hs Hc Ho k) as (ok & k1 & s1 & -> & _ & Hs1 & Hap). cbn [fst].
  destruct (IH s1 _ items k1 Hs1 (ai_holds _ _ _ Hap) Hos Hi) as (k2 & s2 & -> & Hs2 & Hap2). exists k2, s2. split; [done|]. split; [done|].
  destruct Hap, Hap2. split; try congruence.
Qed.

(** ** A log is applied *)

(** The first operations of the log of [u] were applied, and [rest] is pending. *)
Record drained (s s' : mdv_tablespace) (u : mdv_uuid) (rest : list mdv_trlog_data) : Prop := {
  dr_uuid : sp_uuid s' = sp_uuid s;
  dr_open : is_Some (log_at s' u);
  dr_pend : pend s' u = rest;
  dr_top : top s' u = top s u;
  dr_size : log_size s' u = log_size s u;
  dr_logs : forall v, v <> u -> log_view s' v = log_view s v;
  dr_ids : forall v, id_view s' v = id_view s v
}.

Lemma drained_trans s s1 s2 u rest1 rest2 : drained s s1 u rest1 -> drained s1 s2 u rest2 -> drained s s2 u rest2.
Proof. intros [] []. split; intros; try congruence; try done. rewrite dr_logs1, dr_logs0; done. Qed.

Lemma same_drained s s1 s2 u rest : same_space s s1 -> drained s1 s2 u rest -> drained s s2 u rest.
Proof. intros [E1 E2 E3 E4 E5] [D1 D2 D3 D4 D5 D6 D7]. unfold pend, top, log_size in *. split; unfold pend, top, log_size; intros; rewrite <- ?E3, <- ?E5, <- ?E1; auto. Qed.

Lemma drained_same s s1 s2 u rest : drained s s1 u rest -> same_space s1 s2 -> is_Some (log_at s2 u) -> drained s s2 u rest.
Proof. intros [D1 D2 D3 D4 D5 D6 D7] [E1 E2 E3 E4 E5] Hat. unfold pend, top, log_size in *. split; unfold pend, top, log_size; intros; rewrite ?E3, ?E5, ?E1; auto. Qed.

Lemma log_view_at s u t : log_at s u = Some t -> log_view s u = (data_of t, l_top t, l_applied t).
Proof. intros Ht. unfold log_view. by rewrite Ht. Qed.

(** The entry of a log is written back after the callback changed the rest. *)
Lemma write_log s s1 c u t t' : space (bump u) base s1 -> applied_in s s1 c -> log_at s u = Some t -> log_good (n + 1) t' -> l_id t' = l_id t ->
  let s' := set_trlogs s1 (write_item tf_uuid (sp_trlogs s1) (mk_trlog_ref u t')) in
  space (bump u) base s' /\ holds s' c /\ (forall v, log_at s' v = if decide (v = u) then Some t' else log_at s v).
Proof.
  intros Hs1 Hap Ht Hgood Hid s'. assert (Hat1 : forall v, log_at s1 v = log_at s v) by (intros v; unfold log_at; by rewrite (ai_trlogs _ _ _ Hap)).
  destruct (write_ready tf_uuid (sp_trlogs s1) (mk_trlog_ref u t') 24 (sp_log_map _ _ _ Hs1)) as [Hr Hl].
  { cbn [tf_uuid]. specialize (Hat1 u). unfold log_at in Hat1, Ht. rewrite Ht in Hat1. intros E. rewrite E in Hat1. done. }
  assert (Hat : forall v, log_at s' v = if decide (v = u) then Some t' else log_at s v).
  { intros v. rewrite <- Hat1. unfold log_at, s'. cbn [sp_trlogs set_trlogs]. rewrite Hl. cbn [tf_uuid]. by destruct (decide (v = u)). }
  split; [|split; [exact (ai_holds _ _ _ Hap)|exact Hat]]. apply (set_logs_space (bump u)); [done..|]. intros v x. fold s'. rewrite Hat. case_decide as E.
  - intros [= <-]. unfold bump. by rewrite decide_True.
  - rewrite <- Hat1. apply (sp_logs _ _ _ Hs1).
Qed.

Lemma apply_batch_wp s c u ops (Q : nat -> mdv_tablespace -> Prop) :
  space (bump u) base s -> is_Some (log_at s u) -> holds s c -> (pend s u).*2 = op_bytes <$> ops -> Forall op_wf ops -> log_size s u + 1 < fuel ->
  (forall count s' node, id_view s u = Some node -> count = min (Z.to_nat (Z.max 1 batch_size)) (length ops) -> space (bump u) base s' ->
     holds s' (foldl (effect node) c (take count ops)) -> drained s s' u (drop count (pend s u)) -> Q count s') ->
  wp mem (apply_batch open_rows batch_size fuel u) s Q.
Proof.
  intros Hs [t Ht] Hc Hops Hwf Hfuel HQ. unfold apply_batch. do 7 wp_step.
  pose proof (log_view_at s u t Ht) as Ev. pose proof Ht as Ht'. unfold log_at in Ht'. destruct (Hashmap.lookup tf_uuid (sp_trlogs s) u) as [ref|] eqn:El; [|done]. injection Ht' as Ht'.
  eapply wp_lift; [by rewrite (find_lookup tf_uuid _ u (proj1 (sp_log_map _ _ _ Hs)))|]. wp_step. eapply wp_lift; [by rewrite El|].
  destruct (lookup_elem tf_uuid _ _ _ (proj1 (sp_log_map _ _ _ Hs)) El) as [_ Eu%uuid_keq]. unfold apply_log. rewrite Ht', <- Eu. intros k. rewrite (Hb Hg).
  destruct (sp_logs _ _ _ Hs u t Ht) as [Hok Hle]. unfold bump in Hok. rewrite decide_True in Hok by done.
  assert (Ep : pend s u = pending t) by (unfold pend; by rewrite Ev). rewrite Ep in Hops.
  assert (Hsize : log_size s u = size (log (data_of t))) by (unfold log_size; by rewrite Ev).
  set (fn := apply_callback open_rows mem (l_id t)). assert (Hfold : forall pre, pre `prefix_of` pending t -> exists k' s', foldl (fun a o => (fn a o.2).1) (Done (k, s)) pre = Done (k', s')
    /\ space (bump u) base s' /\ applied_in s s' (foldl (effect (l_id t)) c (take (length pre) ops))).
  { intros pre [rest Hpre]. apply (callback_folds (bump u)); [done|done|by apply Forall_take|]. rewrite fmap_take, <- Hops, Hpre, fmap_app. rewrite take_app_length'; [done|by rewrite length_fmap]. }
  destruct (apply_runs (n + 1) ltac:(lia) fuel f t batch_size (Done (k, s)) fn Hok) as (t' & st & count & E & Hok' & Hap & _ & _ & _ & Hcount).
  { rewrite (log_map_size _ _ (ok_log _ _ Hok)). lia. }
  destruct Hap as (Hcl & _ & Harg & Hpend & Hlog & Htop & Hid & Happ).
  assert (Hlen : length (pending t) = length ops) by (rewrite <- (length_fmap snd), Hops; apply length_fmap).
  specialize (Hcount _ _ (Hf Hg)). assert (Hacc : forall pre o, pre ++ [o] `prefix_of` pending t -> (fn (foldl (fun a o => (fn a o.2).1) (Done (k, s)) pre) o.2).2 = true).
  { intros pre o Hpre. destruct (Hfold pre) as (k1 & s1 & -> & Hs1 & Hap1). { etrans; [|exact Hpre]. by exists [o]. }
    destruct Hpre as [rest Hpre]. assert (Ho : exists op, ops !! length pre = Some op /\ o.2 = op_bytes op).
    { assert (Hat : (op_bytes <$> ops) !! length pre = Some o.2). { rewrite <- Hops, Hpre, list_lookup_fmap, <- app_assoc, lookup_app_r, Nat.sub_diag by lia. done. }
      rewrite list_lookup_fmap in Hat. destruct (ops !! length pre) as [op|]; [|done]. injection Hat as Hat. eauto. }
    destruct Ho as (op & Hop & ->). unfold fn, apply_callback. eapply Forall_lookup_1 in Hwf; [|exact Hop].
    destruct (apply_op_wp (bump u) s1 _ op (l_id t) Hs1 (ai_holds _ _ _ Hap1) Hwf k1) as (ok & k2 & s2 & -> & -> & _). done. }
  specialize (Hcount Hacc). rewrite Hlen in Hcount.
  assert (Hst : st = foldl (fun a o => (fn a o.2).1) (Done (k, s)) (take count (pending t))).
  { destruct Harg as [->|(o & Ho & Hno & _)]; [done|]. rewrite Hacc in Hno; [done|]. rewrite <- (take_S_r _ _ _ Ho). apply prefix_take. }
  destruct (Hfold (take count (pending t)) (prefix_take _ _)) as (k1 & s1 & E1 & Hs1 & Hap1). rewrite <- Hst in E1. rewrite length_take, (Nat.min_l count) in Hap1 by done.
  fold fn. rewrite E. cbn [mbind outcome_bind]. rewrite E1. cbn [mbind outcome_bind]. eexists _, _, _. split; [done|].
  destruct (write_log s s1 _ u t t' Hs1 Hap1 Ht (conj Hok' (Happ Hle)) Hid) as (Hs2 & Hc2 & Hat2). set (s2 := set_trlogs s1 _) in *.
  assert (Hat : log_at s2 u = Some t') by (by rewrite Hat2, decide_True). pose proof (log_view_at s2 u t' Hat) as Ev2.
  apply (HQ _ _ (l_id t)); [unfold id_view; by rewrite Ht|done|done|done|].
  split; [exact (ai_uuid _ _ _ Hap1)|eauto|rewrite Ep; unfold pend; by rewrite Ev2|unfold top; by rewrite Ev, Ev2|unfold log_size; rewrite Ev, Ev2; cbn; by rewrite Hlog|..].
  - intros v Hv. unfold log_view. by rewrite Hat2, decide_False.
  - intros v. unfold id_view. rewrite Hat2. destruct (decide (v = u)) as [->|]; [by rewrite Ht, Hid|]. destruct (log_at s v); [done|].
    change (sp_storage_ids s2) with (sp_storage_ids s1). by rewrite (ai_ids _ _ _ Hap1).
Qed.

Lemma apply_batches_wp u node rounds : forall s c ops (Q : unit -> mdv_tablespace -> Prop),
  (1 <= batch_size)%Z -> space (bump u) base s -> is_Some (log_at s u) -> id_view s u = Some node -> holds s c ->
  (pend s u).*2 = op_bytes <$> ops -> Forall op_wf ops -> log_size s u + 1 < fuel -> length ops < rounds ->
  (forall s', space (bump u) base s' -> holds s' (foldl (effect node) c ops) -> drained s s' u [] -> Q tt s') ->
  wp mem (apply_batches open_rows batch_size fuel rounds u) s Q.
Proof.
  induction rounds as [|rounds IH]; intros s c ops Q Hbatch Hs Hat Hid Hc Hops Hwf Hfuel Hlen HQ; [lia|]. cbn [apply_batches]. wp_step.
  assert (Hl : length (pend s u) = length ops) by (rewrite <- (length_fmap snd), Hops; apply length_fmap).
  eapply apply_batch_wp; [done..|]. intros count s1 node' Hid' Hcount Hs1 Hc1 Hd. rewrite Hid in Hid'. injection Hid' as <-.
  destruct (Z.leb_spec batch_size (Z.of_nat count)) as [Hge|Hlt].
  - eapply (IH s1 _ (drop count ops)); [done|done|apply Hd|by rewrite (dr_ids _ _ _ _ Hd)|done| |by apply Forall_drop|by rewrite (dr_size _ _ _ _ Hd)|rewrite length_drop; lia|].
    { by rewrite (dr_pend _ _ _ _ Hd), fmap_drop, Hops, <- fmap_drop. }
    intros s2 Hs2 Hc2 Hd2. rewrite <- foldl_app, take_drop in Hc2. apply HQ; [done..|]. by eapply drained_trans.
  - wp_steps. rewrite take_ge in Hc1 by lia. rewrite drop_ge in Hd by lia. by apply HQ.
Qed.

Lemma log_apply_wp s c u node ops rounds (Q : bool -> mdv_tablespace -> Prop) :
  (1 <= batch_size)%Z -> space base base s -> is_Some (log_at s u) -> id_view s u = Some node -> holds s c ->
  (pend s u).*2 = op_bytes <$> ops -> Forall op_wf ops -> log_size s u + 1 < fuel -> length ops < rounds ->
  (forall s', space base base s' -> holds s' (foldl (effect node) c ops) -> drained s s' u [] -> Q true s') ->
  wp mem (mdv_tablespace_log_apply open_rows batch_size fuel rounds u) s Q.
Proof.
  intros Hbatch Hs Hat Hid Hc Hops Hwf Hfuel Hlen HQ. unfold mdv_tablespace_log_apply. wp_step. apply (trlog_wp s base u); [done..|].
  intros s1 Hs1 Hsame1 Hat1. cbn iota. wp_step. pose proof Hsame1 as [E1 E2 E3 E4 E5].
  apply (apply_batches_wp u node rounds s1 c ops); try done; [by rewrite E5|by eapply holds_same|unfold pend; by rewrite E3|unfold log_size; by rewrite E3|].
  intros s2 Hs2 Hc2 Hd2. wp_step. apply (release_trlog_wp s2 base u); [done|apply Hd2|]. intros s3 Hs3 Hsame3 Hat3. wp_steps. apply HQ; [done|by eapply holds_same|].
  eapply drained_same; [by eapply same_drained|done|done].
Qed.

(** ** Requests are logged *)

Lemma log_create_table_wp s id desc l (Q : option mdv_table -> mdv_tablespace -> Prop) :
  space base base s -> is_Some (id_view s (sp_uuid s)) -> (top s (sp_uuid s) < 2 ^ 64 - 1)%Z -> table_ok (mk_table 1 id desc) l ->
  (forall s', space base base s' -> appended s s' (sp_uuid s) (op_bytes (OpCreate (mk_table 1 id desc) l)) -> is_Some (log_at s' (sp_uuid s)) ->
     Q (Some (mk_table 1 id desc)) s') ->
  wp mem (mdv_tablespace_log_create_table open_log fuel id desc) s Q.
Proof.
  intros Hs Hid Htop Ht HQ. set (t := mk_table 1 id desc) in *. unfold mdv_tablespace_log_create_table. do 5 wp_step. rewrite (Hb Hg).
  apply (trlog_create_wp s base); [done..|]. intros s1 Hs1 Hsame1 Hat1. cbn [negb]. wp_steps. rewrite (Hb0 Hg).
  destruct (table_create_impl_spec desc l None (to_desc _ _ Ht) I id) as [E3 _]. rewrite pick_all in E3. destruct (to_desc _ _ Ht) as [Hd1 Hd2]. cbn [tb_desc] in Hd1, Hd2.
  rewrite <- Hd1, <- Hd2 in E3. eapply wp_lift; [unfold mdv_table_create; rewrite E3; by destruct desc|]. cbn beta iota. fold t. wp_step.
  eapply (wp_write _ _ (table_object t l)); [apply makes_table; apply Ht|]. intros obj _ Hobj. rewrite (Hobj Hg). wp_steps. rewrite (Hb1 Hg). cbn [negb]. wp_step.
  assert (Etop : top s1 (sp_uuid s) = top s (sp_uuid s)) by (unfold top; by rewrite (ss_logs _ _ Hsame1)).
  eapply (add_op_wp s1 base _ (op_bytes (OpCreate t l))); [done..|by apply op_bytes_ok|by rewrite Etop|]. cbn zeta. intros hm2 Hs2 Hap Hat2. set (s2 := set_trlogs s1 hm2) in *. cbn [roll_trlog]. wp_step.
  apply (release_trlog_wp s2 base); [done..|]. intros s3 Hs3 Hsame3 Hat3. wp_steps. apply HQ; [done| |done].
  eapply same_appended; [|done]. by eapply appended_same.
Qed.

(** The state after an insertion was logged: its rows have the identifiers from
    the generator on. *)
Record inserted_in (s s' : mdv_tablespace) (table : mdv_uuid) (rowset : binn) : Prop := {
  in_uuid : sp_uuid s' = sp_uuid s;
  in_tables : sp_tables s' = sp_tables s;
  in_pend : pend s' (sp_uuid s) = pend s (sp_uuid s) ++ [(top s (sp_uuid s), op_bytes (OpInsert (gen_of s table) table rowset))];
  in_top : top s' (sp_uuid s) = (top s (sp_uuid s) + 1)%Z;
  in_size : log_size s' (sp_uuid s) = log_size s (sp_uuid s) + 1;
  in_logs : forall v, v <> sp_uuid s -> log_view s' v = log_view s v;
  in_rows : forall v, rows_in s' v = rows_in s v;
  in_gen : forall v, gen_of s' v = if decide (v = table) then u64 (gen_of s table + mdv_binn_list_length rowset) else gen_of s v;
  in_ids : forall v, id_view s' v = id_view s v
}.

Lemma log_rowset_wp s table rowset (Q : mdv_errno -> mdv_tablespace -> Prop) :
  space base base s -> is_Some (id_view s (sp_uuid s)) -> (top s (sp_uuid s) < 2 ^ 64 - 1)%Z -> op_wf (OpInsert (gen_of s table) table rowset) ->
  (forall s', space base base s' -> inserted_in s s' table rowset -> is_Some (log_at s' (sp_uuid s)) -> Q MDV_OK s') ->
  wp mem (mdv_tablespace_log_rowset open_log open_rows fuel table rowset) s Q.
Proof.
  intros Hs Hid Htop Hwf HQ. unfold mdv_tablespace_log_rowset. do 5 wp_step. rewrite (Hb Hg). apply (trlog_create_wp s base); [done..|]. intros s1 Hs1 Hsame1 Hat1. cbn [negb]. wp_step.
  apply (rowdata_create_wp s1 (bump (sp_uuid s)) table); [done|]. cbn zeta. intros hm2 Hs2 Hsame2 Hat2. set (s2 := set_rowdata s1 hm2) in *. cbn [negb]. wp_step.
  pose proof (same_space_trans _ _ _ Hsame1 Hsame2) as Hsame. eapply (reserve_wp s2 (bump (sp_uuid s)) table); [done..|]. cbn zeta. intros hm3 Hs3 Hres Hat3. set (s3 := set_rowdata s2 hm3) in *.
  cbn [fst snd]. rewrite decide_False by (intros Hx; by apply Hx). wp_steps. rewrite (Hb0 Hg). cbn [negb default]. wp_step.
  assert (Egen : gen_of s2 table = gen_of s table) by (unfold gen_of; by rewrite (ss_rows _ _ Hsame)). change (default 0%Z (Some (gen_of s2 table))) with (gen_of s2 table). rewrite Egen.
  assert (Elog : forall v, log_view s3 v = log_view s v) by (intros v; by rewrite (rs_logs _ _ _ _ Hres), (ss_logs _ _ Hsame)).
  eapply (add_op_wp s3 _ _ (op_bytes (OpInsert (gen_of s table) table rowset))); [done|exact Hat1|by apply op_bytes_ok|unfold top; by rewrite Elog|].
  cbn zeta. intros hm4 Hs4 Hap Hat4. assert (Hrows4 : is_Some (rows_at (set_trlogs s3 hm4) table)) by exact Hat3. set (s4 := set_trlogs s3 hm4) in *.
  cbn [roll_rowdata]. wp_step.
  apply (release_rowdata_wp s4 (bump (sp_uuid s)) table); [done..|]. cbn zeta. intros hm5 Hs5 Hsame5 Hat5. wp_step. apply (release_trlog_wp _ base); [done|exact Hat4|].
  intros s6 Hs6 Hsame6 Hat6. wp_steps. pose proof (same_space_trans _ _ _ Hsame5 Hsame6) as Hsame'. pose proof (same_appended _ _ _ _ _ Hap Hsame') as Hap'. apply HQ; [done| |done].
  destruct Hap' as [A1 A2 A3 A4 A5 A6 A7 A8], Hres as [R1 R2 R3 R4 R5 R6], Hsame as [S1 S2 S3 S4 S5]. unfold pend, top, log_size in *.
  split; unfold pend, top, log_size; intros; rewrite ?A1, ?A2, ?A3, ?A4, ?A5, ?A8, ?R1, ?R2, ?R4, ?Elog, ?S1, ?S2, ?S5; try done.
  - rewrite A6 by done. by rewrite Elog.
  - unfold rows_in in *. by rewrite A7, R5, S4.
  - unfold gen_of in *. by rewrite A7, R6, !S4.
Qed.

(** ** Reading *)

Lemma table_get_wp s cl cr u t l (Q : mdv_errno * option mdv_table -> mdv_tablespace -> Prop) :
  space cl cr s -> tables_in s !! u8s u = Some (binn_bytes (table_object t l)) -> table_ok t l -> u <> MDV_SYSTBL_TABLES ->
  (forall ts, Q (MDV_OK, Some (mk_table 1 (tb_id t) (tb_desc t))) (set_tables s ts)) ->
  wp mem (mdv_tablespace_evt_table_get u) s Q.
Proof.
  intros Hs Hin Ht Hne HQ. unfold mdv_tablespace_evt_table_get. wp_steps. destruct (Z.eqb_spec (mdv_uuid_cmp MDV_SYSTBL_TABLES u) 0) as [E|_].
  { apply mdv_uuid_cmp_eq in E. congruence. }
  wp_steps. rewrite (Hb Hg), (Hb0 Hg), (Hb1 Hg). destruct (sp_store _ _ _ Hs) as [Hl Hrem]. unfold tables_in in Hin.
  assert (Hmap : is_Some (data (ts_objects (sp_tables s)) !! MDV_MAP_OBJECTS)).
  { unfold Pset.objects in Hin. destruct (data (ts_objects (sp_tables s)) !! MDV_MAP_OBJECTS); [eauto|]. cbn [default] in Hin. by rewrite lookup_empty in Hin. }
  pose proof (get_runs_at n ltac:(lia) (sp_tables s) u Hl Hmap (sp_maps _ _ _ Hs Hmap)) as Hget.
  destruct (mdv_tables_get true true true (sp_tables s) u) as [ts r]. cbn [snd] in Hget. wp_step. wp_step. wp_step.
  eapply wp_lift; [rewrite Hget; unfold table_at; rewrite Hrem, Hin, lookup_empty; cbn [is_some]; unfold mdv_table_restore; rewrite load_bytes by (done || apply Ht);
    apply unbinn_table_spec; apply Ht|]. wp_steps. apply HQ.
Qed.

(** ** Theorems *)

(** C8: applying the log of a node drains it: every pending operation takes effect
    once and in the order of the log, the tables and the rows end as the fold of the
    effects of the operations, nothing is pending, and the other logs are as they
    were.  An addition that comes second to an identifier has no effect, unknown
    operations are passed over.  The loop over the batches ends. *)
Theorem mdv_tablespace_log_apply_refines s c u node ops rounds :
  (1 <= batch_size)%Z -> space base base s -> is_Some (log_at s u) -> id_view s u = Some node -> holds s c ->
  (pend s u).*2 = op_bytes <$> ops -> Forall op_wf ops -> log_size s u + 1 < fuel -> length ops < rounds ->
  wp mem (mdv_tablespace_log_apply open_rows batch_size fuel rounds u) s (fun ok s' =>
    ok = true /\ space base base s' /\ holds s' (foldl (effect node) c ops)
    /\ pend s' u = [] /\ log_size s' u = log_size s u /\ forall v, v <> u -> log_view s' v = log_view s v).
Proof.
  intros Hbatch Hs Hat Hid Hc Hops Hwf Hfuel Hlen. apply (log_apply_wp s c u node ops rounds); try done.
  intros s' Hs' Hc' Hd. split_and!; try done; apply Hd.
Qed.

(** A client that creates a table, inserts rows, waits for the committer, and gets
    the rows and the description of the table. *)
Definition create_insert_get (rounds : nat) (id : mdv_uuid) (desc : mdv_table_desc) (rowset : binn) :
  action mdv_tablespace ((mdv_errno * option mdv_uuid) * mdv_errno * mdv_errno * mdv_errno * (mdv_errno * option mdv_table)) :=
  created ← mdv_tablespace_evt_table_create open_log fuel id desc;
  inserted ← mdv_tablespace_evt_rowdata_insert open_log open_rows fuel id rowset;
  s ← get;
  applied ← mdv_tablespace_evt_trlog_apply open_rows batch_size fuel rounds (sp_uuid s);
  rowdata ← mdv_tablespace_evt_rowdata_get open_rows id;
  table ← mdv_tablespace_evt_table_get id;
  mret (created, inserted, applied, rowdata, table).

Lemma create_insert_get_wp s id desc l rowset node rounds (Q : _ -> mdv_tablespace -> Prop) :
  (1 <= batch_size)%Z -> space base base s -> id_view s (sp_uuid s) = Some node -> (top s (sp_uuid s) < 2 ^ 64 - 2)%Z ->
  pend s (sp_uuid s) = [] -> log_size s (sp_uuid s) + 3 < fuel -> 2 < rounds ->
  table_ok (mk_table 1 id desc) l -> id <> MDV_SYSTBL_TABLES -> tables_in s !! u8s id = None ->
  fits 64 (gen_of s id) -> rowset_ok rowset ->
  (forall s' rd, rows_at s' id = Some rd -> set_live (n + 1) (rd_objects rd) ->
     rows_in s' id = store_all (mdv_rowdata_batch_next (binn_items rowset) node (gen_of s id)) (rows_in s id) ->
     forall ts, Q ((MDV_OK, Some id), MDV_OK, MDV_OK, MDV_OK, (MDV_OK, Some (mk_table 1 id desc))) (set_tables s' ts)) ->
  wp mem (create_insert_get rounds id desc rowset) s Q.
Proof.
  intros Hbatch Hs Hid Htop Hpend Hsize Hrounds Ht Hne Hnew Hgen Hrs HQ. unfold create_insert_get, mdv_tablespace_evt_table_create. do 2 wp_step.
  apply (log_create_table_wp s id desc l); [done|by eexists|lia|done|]. intros s1 Hs1 Hap Hat1. wp_steps. destruct Hap as [A1 A2 A3 A4 A5 A6 A7 A8].
  assert (Egen : gen_of s1 id = gen_of s id) by (unfold gen_of; by rewrite A7).
  apply (log_rowset_wp s1 id rowset); [done|rewrite A1, A8; by eexists|rewrite A1, A4; lia|rewrite Egen; split_and!; [done|apply Ht|done]|].
  intros s2 Hs2 Hin Hat2. wp_step. wp_step. wp_step. unfold mdv_tablespace_evt_trlog_apply. wp_step. destruct Hin as [I1 I2 I3 I4 I5 I6 I7 I8 I9]. rewrite A1 in *. rewrite I1.
  set (c := mk_contents (tables_in s) (rows_in s)). set (ops := [OpCreate (mk_table 1 id desc) l; OpInsert (gen_of s id) id rowset]).
  assert (Hc2 : holds s2 c). { split; [unfold tables_in; by rewrite I2, A2|]. intros v. rewrite I7. unfold rows_in at 1. by rewrite A7. }
  apply (log_apply_wp s2 c (sp_uuid s) node ops); try done.
  - by rewrite I9, A8.
  - rewrite I3, A3, Hpend, Egen. done.
  - unfold ops. apply Forall_cons_2; [exact Ht|]. apply Forall_cons_2; [|apply Forall_nil_2]. exact (conj Hgen (conj (to_id _ _ Ht) Hrs)).
  - rewrite I5, A5. lia.
  - intros s3 Hs3 Hc3 Hd. wp_step. cbn [err_of]. wp_step. unfold mdv_tablespace_evt_rowdata_get. wp_step.
    apply (rowdata_create_wp s3 base id); [done|]. cbn zeta. intros hm4 Hs4 Hsame4 [rd Hat4]. set (s4 := set_rowdata s3 hm4) in *.
    destruct (holds_same _ _ _ Hsame4 Hc3) as [Ht4 Hr4]. do 2 wp_step.
    apply (table_get_wp s4 base (bump id) id (mk_table 1 id desc) l); [done| |done|done|].
    + rewrite Ht4. cbn [foldl ops effect c_tables c]. by rewrite lookup_union_r, lookup_singleton_eq.
    + intros ts. wp_steps. apply (HQ s4 rd); [done| |].
      * pose proof (sp_rows _ _ _ Hs4 id rd Hat4) as [Hlive _]. unfold bump in Hlive. by rewrite decide_True in Hlive.
      * rewrite Hr4. cbn [foldl ops effect c_rows c]. by rewrite decide_True.
Qed.

Lemma rows_stored s u r : rows_at s u = Some r -> rows_in s u <> ∅ -> Enumerator.objects (rd_objects r) = Some (rows_in s u).
Proof.
  intros Hr. unfold rows_in, row_view. rewrite Hr. cbn [fst]. unfold Pset.objects, Enumerator.objects. by destruct (data (rd_objects r) !! MDV_MAP_OBJECTS).
Qed.

Lemma batch_stored_nonempty (items : list binn) node id : items <> [] -> store_all (mdv_rowdata_batch_next items node id) ∅ <> ∅.
Proof.
  destruct items as [|item items]; [done|]. intros _ E. cbn [mdv_rowdata_batch_next] in E. unfold store_all in E. cbn [foldl fst snd] in E.
  pose proof (store_all_keeps (mdv_rowdata_batch_next items node (u64 (id + 1))) (∅ ∪ {[objid_u8s (mk_objid node id) := binn_data item]}) (objid_u8s (mk_objid node id)) (binn_data item)) as Hk.
  unfold store_all in Hk. rewrite E, lookup_empty in Hk. discriminate Hk. by rewrite lookup_union_r, lookup_singleton_eq.
Qed.

(** C2: a table that is created, filled with rows and read after the log of the node
    was applied is found under its identifier with its name and columns, and a view
    of its rows shows exactly the rows of the request, cut to the columns of the
    view, whatever the sizes of the batches and of the pages. *)
Theorem mdv_tablespace_create_insert_read m fields s id desc l rows node rounds page_fuel count :
  sm_rbr m = true /\ sm_enum m = true /\ sm_table m = true /\ sm_set m = true -> (forall k, sm_row m k = true) ->
  Bitset.wf fields -> length l <= mdv_bitset_capacity fields ->
  (1 <= batch_size)%Z -> space base base s -> id_view s (sp_uuid s) = Some node -> fits 32 node -> (top s (sp_uuid s) < 2 ^ 64 - 2)%Z ->
  pend s (sp_uuid s) = [] -> log_size s (sp_uuid s) + 3 < fuel -> 2 < rounds ->
  table_ok (mk_table 1 id desc) l -> id <> MDV_SYSTBL_TABLES -> tables_in s !! u8s id = None -> rows_in s id = ∅ ->
  (0 <= gen_of s id)%Z -> (gen_of s id + Z.of_nat (length rows) <= 2 ^ 64)%Z ->
  rows <> [] -> Forall (row_ok l) rows -> Forall (fun row => doc_ok (row_doc l row) /\ (Z.of_nat (length (binn_bytes (row_doc l row))) < 2 ^ 31)%Z) rows ->
  rowset_ok (B_list (row_doc l <$> rows)) -> length rows < page_fuel -> 1 <= count ->
  makes (mdv_binn_rowset (S (length rows)) (mk_rowset 1 (mk_table 1 id desc) rows)) (B_list (row_doc l <$> rows))
  /\ wp mem (create_insert_get rounds id desc (B_list (row_doc l <$> rows))) s (fun r s' =>
       r = ((MDV_OK, Some id), MDV_OK, MDV_OK, MDV_OK, (MDV_OK, Some (mk_table 1 id desc)))
       /\ exists rd, rows_at s' id = Some rd
          /\ forall v, vw_source v = rd -> vw_table v = mk_table 1 id desc -> vw_fields v = fields -> vw_fetch_from_begin v = true ->
             exists v' out, @fetch_all _ (rowdata_view_vtbl m page_fuel) (S (length rows)) v count = Done (v', out)
               /\ out ≡ₚ pick (Some fields) 0 <$> rows).
Proof.
  intros Hmem Hrow Hfw Hcap Hbatch Hs Hid Hnode Htop Hpend Hsize Hrounds Ht Hne Hnew Hempty Hg0 Hg1 Hrne Hrok Hdoc Hrs Hpf Hc. split.
  { apply (makes_rowset l (mk_rowset 1 (mk_table 1 id desc) rows)); [apply Ht|done]. }
  assert (1 <= length rows) by (destruct rows; [done|cbn; lia]).
  apply (create_insert_get_wp s id desc l (B_list (row_doc l <$> rows)) node rounds); try done; [split; lia|].
  intros s' rd Hat Hlive Hout ts. split; [done|]. exists rd. split; [exact Hat|]. intros v Hv Hvt Hvf Hvb.
  rewrite items_list, Hempty in Hout. assert (Hst : Enumerator.objects (rd_objects rd) = Some (rows_in s' id)).
  { apply rows_stored; [done|]. rewrite Hout. apply batch_stored_nonempty. by destruct rows. }
  rewrite Hout in Hst. apply (fetch_batch (n + 1) ltac:(lia) m Hmem Hrow (mk_table 1 id desc) l fields (to_desc _ _ Ht) Hfw Hcap v rows node (gen_of s id)); try done; by rewrite Hv.
Qed.

(** ** Opening *)

Lemma storage_ids_loop_wp {T} nodes : forall idmap (s : T) (Q : option (mdv_hashmap mdv_storage_id) -> T -> Prop),
  Hashmap.ready si_uuid idmap 24 -> NoDup (n_uuid <$> nodes) ->
  (forall hm, Hashmap.ready si_uuid hm 24 -> (forall x, x ∈ nodes -> si_id <$> Hashmap.lookup si_uuid hm (n_uuid x) = Some (n_id x)) ->
     (forall u, u ∉ n_uuid <$> nodes -> Hashmap.lookup si_uuid hm u = Hashmap.lookup si_uuid idmap u) -> Q (Some hm) s) ->
  wp mem (storage_ids_loop nodes idmap) s Q.
Proof.
  induction nodes as [|x nodes IH]; intros idmap s Q Hr Hnd HQ; cbn [storage_ids_loop].
  { wp_steps. apply HQ; [done| |done]. intros x Hx. by apply not_elem_of_nil in Hx. }
  rewrite fmap_cons in Hnd. apply NoDup_cons in Hnd as [Hx Hnd]. wp_steps. rewrite (Hb Hg), (Hb0 Hg).
  destruct (insert_ready si_uuid idmap (mk_storage_id (n_uuid x) (n_id x)) 24 Hr) as (hm & E & Hr' & Hl & _). eapply wp_lift; [by rewrite E|]. cbn [fst snd].
  apply (IH hm); [done|done|]. intros hm' Hr'' Hin Hout.
  assert (Hlook : forall u, Hashmap.lookup si_uuid hm u = if decide (u = n_uuid x) then Some (mk_storage_id (n_uuid x) (n_id x)) else Hashmap.lookup si_uuid idmap u).
  { intros u. rewrite Hl. cbn [si_uuid]. destruct (Z.eqb_spec (key_cmp_fn (n_uuid x) u) 0) as [Eu%uuid_keq|Eu]; [by rewrite decide_True|]. rewrite decide_False; [done|]. intros ->. apply Eu. by apply uuid_keq. }
  apply HQ; [done|..].
  - intros y [->|Hy]%elem_of_cons; [|by apply Hin]. by rewrite Hout, Hlook, decide_True.
  - intros u Hu. rewrite fmap_cons, not_elem_of_cons in Hu. destruct Hu as [Hu1 Hu2]. by rewrite Hout, Hlook, decide_False.
Qed.

(** The rows that the storages of the tables have. *)
Definition stored_rows (u : mdv_uuid) : gmap bytes bytes :=
  match open_rows (MDV_STRG_UUID u 64) with Some o => Pset.objects (data o) | None => ∅ end.

(** A log that is not open is passed over. *)
Lemma log_apply_closed s u rounds : Hashmap.ready tf_uuid (sp_trlogs s) 24 -> log_at s u = None ->
  wp mem (mdv_tablespace_log_apply open_rows batch_size fuel rounds u) s (fun ok s' => ok = true /\ s' = s).
Proof.
  intros Hr Hno. unfold mdv_tablespace_log_apply, mdv_tablespace_trlog. wp_steps. rewrite (Hb Hg). cbn [negb]. wp_steps.
  destruct (trlog_lookup s u Hr) as (ref & E & Hat). eapply wp_lift; [exact E|]. rewrite Hno in Hat. destruct ref as [ref|]; [done|]. by wp_steps.
Qed.

(** A component asks for the log, and makes it so, gives it back, and the committer
    lets it be applied. *)
Definition recover (rounds : nat) (u : mdv_uuid) : action mdv_tablespace (mdv_errno * mdv_errno) :=
  e1 ← mdv_tablespace_evt_trlog_get open_log fuel true u;
  release_trlog u;;
  e2 ← mdv_tablespace_evt_trlog_apply open_rows batch_size fuel rounds u;
  mret (e1, e2).

Lemma recover_wp s c u node ops rounds (Q : mdv_errno * mdv_errno -> mdv_tablespace -> Prop) :
  (1 <= batch_size)%Z -> space base base s -> id_view s u = Some node -> holds s c ->
  (pend s u).*2 = op_bytes <$> ops -> Forall op_wf ops -> log_size s u + 1 < fuel -> length ops < rounds ->
  (forall s', space base base s' -> holds s' (foldl (effect node) c ops) -> is_Some (log_at s' u) -> pend s' u = [] -> Q (MDV_OK, MDV_OK) s') ->
  wp mem (recover rounds u) s Q.
Proof.
  intros Hbatch Hs Hid Hc Hops Hwf Hfuel Hlen HQ. unfold recover, mdv_tablespace_evt_trlog_get. wp_step. wp_step. apply (trlog_create_wp s base u); [done|by rewrite Hid|].
  intros s1 Hs1 Hsame1 Hat1. wp_steps. apply (release_trlog_wp s1 base u); [done..|]. intros s2 Hs2 Hsame2 Hat2. wp_step. unfold mdv_tablespace_evt_trlog_apply. wp_step.
  pose proof (same_space_trans _ _ _ Hsame1 Hsame2) as Hsame. pose proof Hsame as [E1 E2 E3 E4 E5].
  apply (log_apply_wp s2 c u node ops rounds); try done; [by rewrite E5|by eapply holds_same|unfold pend; by rewrite E3|unfold log_size; by rewrite E3|].
  intros s' Hs' Hc' Hd. wp_steps. apply HQ; try done; apply Hd.
Qed.

(** C27: what was logged and not applied before a restart is applied after it.  A
    table space opened over its storages, with a storage that works and memory
    granted, has the stored tables and rows; its logs are not open, and a request to
    apply one of them is passed over.  Once the log of a node of the topology is asked for and so opened,
    its application gives every operation that the storage has behind the stored
    position its effect, once and in order, with the number that the topology gives
    to the node, and then nothing is pending. *)
Theorem mdv_tablespace_open_recovers open_tables uuid topology o :
  (1 <= batch_size)%Z -> open_tables MDV_STRG_TABLES = Some o -> store_ok n o -> (is_Some (data o !! MDV_MAP_OBJECTS) -> is_Some (data o !! MDV_MAP_REMOVED)) ->
  t_nodes topology <> [] -> NoDup (n_uuid <$> t_nodes topology) ->
  wp mem (mdv_tablespace_open open_tables uuid topology) tt (fun r _ => exists s, r = inl s /\ space base base s
    /\ (forall u rounds, wp mem (mdv_tablespace_log_apply open_rows batch_size fuel rounds u) s (fun ok s' => ok = true /\ s' = s))
    /\ forall x st ops rounds, x ∈ t_nodes topology -> open_log (n_uuid x) = Some st ->
         (log_from (stored_pos (db (s_env st))) (db (s_env st))).*2 = op_bytes <$> ops -> Forall op_wf ops -> size (log (db (s_env st))) + 1 < fuel -> length ops < rounds ->
         wp mem (recover rounds (n_uuid x)) s (fun r s' => r = (MDV_OK, MDV_OK) /\ space base base s'
           /\ holds s' (foldl (effect (n_id x)) (mk_contents (Pset.objects (data o)) stored_rows) ops) /\ is_Some (log_at s' (n_uuid x)) /\ pend s' (n_uuid x) = [])).
Proof.
  intros Hbatch Ho Hst Hmaps Hne Hnd. unfold mdv_tablespace_open. wp_steps. rewrite (Hb0 Hg). cbn [negb]. wp_step. unfold mdv_tablespace_storage_ids. wp_steps. rewrite (Hb1 Hg), (Hb2 Hg).
  destruct (ready_create si_uuid (length (t_nodes topology)) 0 16 24) as (hm & -> & Hr & Hl & _); [destruct (t_nodes topology); [done|cbn; lia]|lia|].
  apply storage_ids_loop_wp; [done|done|]. intros ids Hids Hin _. wp_steps. rewrite (Hb3 Hg), (Hb4 Hg). cbn [negb orb]. wp_steps. rewrite (Hb6 Hg), (Hb7 Hg).
  destruct (table_create_impl_spec MDV_TABLES_DESC MDV_TABLES_FIELDS None ltac:(by split) I MDV_SYSTBL_TABLES) as [E3 _]. rewrite pick_all in E3.
  eapply wp_lift; [unfold mdv_tables_open; cbn [negb]; unfold mdv_table_create; rewrite E3; cbn [mbind outcome_bind]; by rewrite Ho|]. cbn [fst].
  wp_steps. rewrite (Hb8 Hg). cbn [negb]. wp_steps. rewrite (Hb9 Hg), (Hb10 Hg). destruct (ready_create tf_uuid 64 0 16 24) as (logs & -> & Hlr & Hll & _); [lia|lia|].
  wp_steps. rewrite (Hb11 Hg). cbn [negb]. wp_steps. rewrite (Hb12 Hg), (Hb13 Hg). destruct (ready_create rf_uuid 64 0 16 24) as (rows & -> & Hrr & Hrl & _); [lia|lia|].
  wp_steps. rewrite (Hb14 Hg). eexists. split; [done|].
  match goal with |- space _ _ ?x /\ _ => set (s := x) end.
  assert (Hno : forall u, log_at s u = None) by (intros u; unfold log_at, s; cbn [sp_trlogs]; by rewrite Hll).
  assert (Hnr : forall u, rows_at s u = None) by (intros u; unfold rows_at, s; cbn [sp_rowdata]; by rewrite Hrl).
  assert (Hs : space base base s) by (split; try done; [apply Hids|intros u t; by rewrite Hno|intros u r; by rewrite Hnr]).
  split; [done|]. split; [intros u rounds; by apply log_apply_closed|]. intros x st ops rounds Hx Eu Hops Hwf Hfuel Hlen.
  eapply (recover_wp s (mk_contents (Pset.objects (data o)) stored_rows) (n_uuid x) (n_id x) ops rounds); try done.
  - unfold id_view. rewrite Hno. by apply Hin.
  - split; [done|]. intros u. unfold rows_in, row_view, stored_rows. rewrite Hnr. cbn [c_rows]. by destruct (open_rows (MDV_STRG_UUID u 64)).
  - unfold pend, log_view. by rewrite Hno, Eu.
  - unfold log_size, log_view. by rewrite Hno, Eu.
Qed.

End Correct.
(** ** Examples *)

(** A map with one item. *)
Definition no_items {I} : mdv_hashmap I := default (mk_hashmap 0 0 0 0 0 []) (mdv_hashmap_create true true 4 0 16).
Definition one_item {I} (key_of : I -> mdv_uuid) (it : I) : mdv_hashmap I := match mdv_hashmap_insert key_of true true no_items it 24 with Some (_, hm) => hm | None => no_items end.

Lemma no_items_ready {I} (key_of : I -> mdv_uuid) : Hashmap.ready key_of no_items 24 /\ forall k, Hashmap.lookup key_of no_items k = None.
Proof. destruct (ready_create key_of 4 0 16 24 ltac:(lia) ltac:(lia)) as (hm & E & Hr & Hl & _). unfold no_items. rewrite E. by split. Qed.

Lemma one_item_ready {I} (key_of : I -> mdv_uuid) it :
  Hashmap.ready key_of (one_item key_of it) 24 /\ forall k, Hashmap.lookup key_of (one_item key_of it) k = if decide (k = key_of it) then Some it else None.
Proof.
  destruct (no_items_ready key_of) as [Hr Hno]. destruct (insert_ready key_of no_items it 24 Hr) as (hm & E & Hr' & Hl & _). unfold one_item. rewrite E. split; [done|].
  intros k. rewrite Hl, Hno. destruct (Z.eqb_spec (key_cmp_fn (key_of it) k) 0) as [Ek%uuid_keq|Ek]; [by rewrite decide_True|]. rewrite decide_False; [done|].
  intros ->. apply Ek. by apply uuid_keq.
Qed.

Definition demo_node : mdv_uuid := mk_uuid 3 4.
Definition demo_ids : mdv_hashmap mdv_storage_id := one_item si_uuid (mk_storage_id demo_node 2).
Definition new_log (_ : mdv_uuid) : option mdv_lmdb := Some (mk_lmdb 1 (∅ : database, ∅) true).
Definition new_rows (_ : list Z) : option mdv_2pset := Some (mk_2pset (mk_lmdb 1 (∅ : database, ∅) true) false 7).

(** A table space without tables and logs. *)
Definition demo_space : mdv_tablespace := mk_tablespace demo_tables no_items no_items demo_node demo_ids.

Lemma new_logs : forall u, exists st, new_log u = Some st /\ log_store 1 20 st.
Proof.
  intros u. eexists. split; [done|]. split; [by split|]. cbn [s_env db]. split_and!; try done.
  - split; [by intros [? ?]|]. intros k v Hk. by vm_compute in Hk.
  - intros id [op Hop]. by vm_compute in Hop.
  - vm_compute. lia.
Qed.

Lemma new_rows_ok : forall u, exists o, new_rows (MDV_STRG_UUID u 64) = Some o /\ store_ok 1 o.
Proof. intros u. eexists. split; [done|]. split; [|done]. split; [by split|]. cbn. set_solver. Qed.

Lemma demo_space_ok logs : Hashmap.ready tf_uuid logs 24 -> (forall u t, tf_trlog <$> Hashmap.lookup tf_uuid logs u = Some t -> log_good 1 t) ->
  space 1 (base 1) (base 1) (set_trlogs demo_space logs).
Proof.
  intros Hr Hl. split; cbn [sp_tables sp_trlogs sp_rowdata sp_storage_ids set_trlogs demo_space].
  - split; [exact demo_tables_live|done].
  - by intros [? ?].
  - exact Hr.
  - apply (no_items_ready rf_uuid).
  - apply (one_item_ready si_uuid).
  - exact Hl.
  - intros u r Hu. unfold rows_at in Hu. cbn [sp_rowdata set_trlogs demo_space] in Hu. by rewrite (proj2 (no_items_ready rf_uuid)) in Hu.
Qed.

Definition demo_rowset : binn := B_list (row_doc demo_fields <$> [demo_row; demo_other]).
Definition demo_ops : list operation := [OpCreate demo_table demo_fields; OpOther MDV_OP_TABLE_DROP [42]%Z; OpInsert 7 (tb_id demo_table) demo_rowset].
Definition filled_db : database :=
  {[ MDV_MAP_TRLOG := list_to_map (imap (fun i o => (to_le 8 (Z.of_nat i), op_bytes o)) demo_ops) ]}.
Definition filled_log : mdv_trlog := mk_trlog demo_node 2 (mk_lmdb 1 (filled_db, {[MDV_MAP_TRLOG]}) true) 3 0 [].

(** A table space whose log has operations that were not applied. *)
Definition filled_space : mdv_tablespace := set_trlogs demo_space (one_item tf_uuid (mk_trlog_ref demo_node filled_log)).

Lemma filled_log_at u : log_at filled_space u = if decide (u = demo_node) then Some filled_log else None.
Proof. unfold log_at. cbn [filled_space sp_trlogs set_trlogs]. rewrite (proj2 (one_item_ready tf_uuid _)). cbn [tf_uuid]. by destruct (decide (u = demo_node)). Qed.

Lemma filled_log_good : log_good 1 filled_log.
Proof.
  split; [|cbn; lia]. split; [done| | |cbn; lia..].
  - split; [intros _; vm_compute; reflexivity|].
    assert (Forall (fun e => length e.1 = 8 /\ Forall is_byte e.1 /\ op_ok e.2) (map_to_list (log_map filled_db))) as Hf by (vm_compute; repeat constructor; discriminate).
    intros k v Hk%elem_of_map_to_list. by apply (proj1 (Forall_forall _ _) Hf (k, v)).
  - assert (Forall (fun e => e.1 < 3)%Z (in_order (log (data_of filled_log)))) as Hf by (vm_compute; repeat constructor).
    intros id [op Hop%elem_of_in_order]. exact (proj1 (Forall_forall _ _) Hf (id, op) Hop).
Qed.

Lemma filled_space_ok : space 1 (base 1) (base 1) filled_space.
Proof.
  apply demo_space_ok; [apply one_item_ready|]. intros u t Ht. change (log_at filled_space u = Some t) in Ht. rewrite filled_log_at in Ht.
  case_decide; [|done]. injection Ht as <-. exact filled_log_good.
Qed.

Lemma demo_rowset_ok : rowset_ok demo_rowset.
Proof. split; [done|]. split; [vm_compute; repeat split; first [congruence|bytes_ok]|by vm_compute]. Qed.

Lemma demo_ops_wf : Forall op_wf demo_ops.
Proof.
  apply Forall_cons_2; [exact demo_table_ok|]. apply Forall_cons_2; [by vm_compute|]. apply Forall_cons_2; [|apply Forall_nil_2].
  split; [done|]. split; [split; vm_compute; split; congruence|exact demo_rowset_ok].
Qed.

Lemma mdv_tablespace_log_apply_refines_witness :
  wp (fun _ => true) (mdv_tablespace_log_apply new_rows 1 20 4 demo_node) filled_space (fun ok s' =>
    ok = true /\ tables_in s' = {[u8s (tb_id demo_table) := binn_bytes (table_object demo_table demo_fields)]}
    /\ size (rows_in new_rows s' (tb_id demo_table)) = 2 /\ pend new_log s' demo_node = []).
Proof.
  eapply wp_mono.
  - refine (mdv_tablespace_log_apply_refines 1 ltac:(lia) (fun _ => true) (fun _ => eq_refl) new_log new_rows 1 20 new_rows_ok filled_space
      (mk_contents (tables_in filled_space) (rows_in new_rows filled_space)) demo_node 2 demo_ops 4 ltac:(lia) filled_space_ok _ _ _ _ demo_ops_wf _ ltac:(cbn; lia)).
    + rewrite filled_log_at. by eexists.
    + unfold id_view. by rewrite filled_log_at.
    + by split.
    + unfold pend, log_view. rewrite filled_log_at. cbn [decide]. vm_compute. reflexivity.
    + unfold log_size, log_view. rewrite filled_log_at. vm_compute. lia.
  - intros ok s' (-> & _ & [Ht Hr] & Hp & _). split; [done|]. split; [rewrite Ht; vm_compute; reflexivity|]. split; [|exact Hp].
    rewrite Hr. vm_compute. reflexivity.
Defined.

Lemma mdv_tablespace_create_insert_read_witness :
  wp (fun _ => true) (create_insert_get new_log new_rows 1 20 3 (tb_id demo_table) (tb_desc demo_table) demo_rowset) demo_space (fun r s' =>
    r = ((MDV_OK, Some (tb_id demo_table)), MDV_OK, MDV_OK, MDV_OK, (MDV_OK, Some demo_table))
    /\ exists rd, rows_at s' (tb_id demo_table) = Some rd
       /\ exists v' out, @fetch_all _ (rowdata_view_vtbl demo_mem 4) 3 (demo_view rd) 1 = Done (v', out) /\ out ≡ₚ pick (Some demo_mask) 0 <$> [demo_row; demo_other]).
Proof.
  assert (Hs : space 1 (base 1) (base 1) demo_space).
  { apply (demo_space_ok no_items); [apply no_items_ready|]. intros u t. by rewrite (proj2 (no_items_ready tf_uuid)). }
  assert (Hlog : forall u, log_at demo_space u = None) by (intros u; unfold log_at; cbn [sp_trlogs demo_space]; by rewrite (proj2 (no_items_ready tf_uuid))).
  assert (Hrows : forall u, rows_at demo_space u = None) by (intros u; unfold rows_at; cbn [sp_rowdata demo_space]; by rewrite (proj2 (no_items_ready rf_uuid))).
  eapply wp_mono.
  - refine (proj2 (mdv_tablespace_create_insert_read 1 ltac:(lia) (fun _ => true) (fun _ => eq_refl) new_log new_rows 1 20 new_logs new_rows_ok demo_mem demo_mask demo_space
      (tb_id demo_table) (tb_desc demo_table) demo_fields [demo_row; demo_other] 2 3 4 1 ltac:(by split_and!) ltac:(done) demo_mask_wf ltac:(vm_compute; lia) ltac:(lia) Hs
      _ ltac:(done) _ _ _ ltac:(lia) demo_table_ok ltac:(done) _ _ _ _ ltac:(done) _ _ demo_rowset_ok ltac:(cbn; lia) ltac:(lia))).
    + unfold id_view. rewrite Hlog. cbn [sp_storage_ids sp_uuid demo_space]. unfold demo_ids. by rewrite (proj2 (one_item_ready si_uuid _)).
    + unfold top, log_view. rewrite Hlog. by vm_compute.
    + unfold pend, log_view. rewrite Hlog. by vm_compute.
    + unfold log_size, log_view. rewrite Hlog. vm_compute. lia.
    + by vm_compute.
    + unfold rows_in, row_view. rewrite Hrows. by vm_compute.
    + unfold gen_of, row_view. rewrite Hrows. by vm_compute.
    + unfold gen_of, row_view. rewrite Hrows. by vm_compute.
    + exact (Forall_take _ 2 _ demo_rows_ok).
    + exact (Forall_take _ 2 _ demo_docs_ok).
  - intros r s' (-> & rd & Hat & Hv). split; [done|]. exists rd. split; [done|]. exact (Hv (demo_view rd) eq_refl eq_refl eq_refl eq_refl).
Defined.

(** The operations of a stored log are applied after a start. *)
Definition stored_log (_ : mdv_uuid) : option mdv_lmdb := Some (l_storage filled_log).
Definition demo_topology : mdv_topology := mk_topology 1 [mk_node demo_node 2 [109]%Z] [] [].

Lemma stored_logs : forall u, exists st, stored_log u = Some st /\ log_store 1 20 st.
Proof.
  intros u. exists (l_storage filled_log). split; [done|]. destruct filled_log_good as [[Hl Hlog Hab _ _] _]. split_and!; [done|exact Hlog|intros v Hv; discriminate Hv| |vm_compute; lia|vm_compute; discriminate].
  intros id Hid. pose proof (Hab id Hid) as Hlt. destruct Hid as [op Hop]. apply (log_lookup _ _ _ _ Hlog) in Hop as [? _]. cbn [l_top filled_log] in Hlt. unfold Trlog.id_ok. lia.
Qed.

Lemma mdv_tablespace_open_recovers_witness :
  wp (fun _ => true) (mdv_tablespace_open (fun _ => Some (ts_objects demo_tables)) demo_node demo_topology) tt (fun r _ => exists s, r = inl s
    /\ wp (fun _ => true) (recover stored_log new_rows 1 20 4 demo_node) s (fun r s' => r = (MDV_OK, MDV_OK)
         /\ tables_in s' = {[u8s (tb_id demo_table) := binn_bytes (table_object demo_table demo_fields)]} /\ pend stored_log s' demo_node = [])).
Proof.
  eapply wp_mono.
  - refine (mdv_tablespace_open_recovers 1 ltac:(lia) (fun _ => true) (fun _ => eq_refl) stored_log new_rows 1 20 stored_logs new_rows_ok (fun _ => Some (ts_objects demo_tables)) demo_node demo_topology (ts_objects demo_tables)
      ltac:(lia) eq_refl (conj demo_tables_live eq_refl) _ ltac:(done) (NoDup_singleton _)). by intros [? ?].
  - intros r _ (s & -> & _ & _ & Hrec). exists s. split; [done|]. eapply wp_mono.
    + apply (Hrec (mk_node demo_node 2 [109]%Z) (l_storage filled_log) demo_ops 4); [by apply list_elem_of_singleton|done|vm_compute; reflexivity|exact demo_ops_wf|vm_compute; lia|cbn; lia].
    + intros r s' (-> & _ & [Ht _] & _ & Hp). split; [done|]. split; [rewrite Ht; vm_compute; reflexivity|exact Hp].
Defined.

End Tablespace.
