(* ===== verification/Ebus.v ===== *)
(** * Event bus (src/mdv_platform/mdv_ebus.c, src/mdv_platform/mdv_queuefd.c)

    Components subscribe functions to types of events.  A published event is
    handled at once, or put into one of the queues, from which the threads of the
    bus take events and call the subscribers.

    The list of the subscribers of a type is never changed in place: a subscription
    replaces it by a copy, while a thread that handles an event goes on with the
    list it started with.  The lists therefore live in a heap, with their counts of
    references.  Events live in a heap too.  What a subscribed function answers is
    an argument of the model, the calls are recorded.  A queue is a ring buffer and
    the counter of its descriptor, which has the semantics of a semaphore. *)

From S2P Require Import Prelude Queue Vector Hashmap Rollbacker Binn Action Topology Router.
Import Queue Vector Hashmap Rollbacker Binn Action Topology Router.
#[local] Open Scope nat_scope.
#[local] Open Scope list_scope.

Module Ebus.

(** ** Queues with descriptors *)

Section Queuefd.
Context {A : Type}.

Record mdv_queuefd := mk_queuefd { qf_count : Z; qf_queue : mdv_queue A }.

(** The release functions of [_mdv_queuefd_init]. *)
Inductive qf_release_fn := Fn_qf_rollbacker_free | Fn_qf_mutex_free.
Inductive qf_resource := Res_qf_rollbacker | Res_rmutex | Res_wmutex.

Definition qf_push (r : option (mdv_rollbacker qf_release_fn qf_resource)) (f : qf_release_fn) (x : qf_resource) :=
  snd (mdv_rollbacker_push r (mk_op f [x])).

(** [ring]: the memory of the queue.  The queue, or the calls of the rollback. *)
Definition mdv_queuefd_init (mem rmutex wmutex event : bool) (ring : list A) : mdv_queuefd + list (qf_release_fn * list qf_resource) :=
  let rbr := mdv_rollbacker_create mem Fn_qf_rollbacker_free Res_qf_rollbacker 4 in
  if negb rmutex then inr (mdv_rollback rbr) else
  let rbr := qf_push rbr Fn_qf_mutex_free Res_rmutex in
  if negb wmutex then inr (mdv_rollback rbr) else
  let rbr := qf_push rbr Fn_qf_mutex_free Res_wmutex in
  if negb event then inr (mdv_rollback rbr) else inl (mk_queuefd 0 (mdv_queue_clear 8 ring)).

(** [lock]: the mutex is locked; [written]: the descriptor takes the number.  An
    item whose number is not written stays in the queue. *)
Definition mdv_queuefd_push (lock written : bool) (q : mdv_queuefd) (x : A) : mdv_queuefd * bool :=
  if negb lock then (q, false) else
  let '(ok, ring) := mdv_queue_push_one (qf_queue q) x 8 in
  if negb ok then (q, false) else
  if written then (mk_queuefd (qf_count q + 1) ring, true) else (mk_queuefd (qf_count q) ring, false).

(** [taken]: the read of the descriptor succeeds when its counter is not zero. *)
Definition mdv_queuefd_pop (lock taken : bool) (q : mdv_queuefd) : mdv_queuefd * option A :=
  if negb lock then (q, None) else
  if negb taken || (qf_count q <=? 0)%Z then (q, None) else
  let '(x, ring) := mdv_queue_pop_one (qf_queue q) 8 in (mk_queuefd (qf_count q - 1) ring, x).

End Queuefd.
#[global] Arguments mdv_queuefd A : clear implicits.

(** ** Data *)

Definition MDV_EBUS_QUEUE_SIZE : nat := 256.
Definition MDV_EBUS_QUEUE_PUSH_ATTEMPTS : nat := 64.

Definition MDV_EVT_DEFAULT : Z := 0.
Definition MDV_EVT_UNIQUE : Z := 1.
Definition MDV_EVT_SYNC : Z := 2.

(** Addresses of events and of lists of subscribers; [sb_arg] and [sb_handler] are
    addresses as well. *)
Record mdv_ebus_subscriber := mk_subscriber { sb_arg : Z; sb_handler : Z }.
Record mdv_event_handlers := mk_handlers { eh_type : Z; eh_subscribers : nat }.
Record mdv_event := mk_event { ev_type : Z; ev_rc : Z }.
Record mdv_event_handler_type := mk_handler_type { ht_type : Z; ht_handler : Z }.

#[global] Instance subscriber_eq_dec : EqDecision mdv_ebus_subscriber.
Proof. solve_decision. Defined.

Definition mdv_u32_hash (v : Z) : Z := u32 v.
Definition mdv_u32_keys_cmp (a b : Z) : Z := i32 (a - b).

Definition type_key : HashKey Z := {| hash_fn := mdv_u32_hash; key_cmp_fn := mdv_u32_keys_cmp |}.
#[local] Existing Instance type_key.

Abbreviation subscribers := (mdv_vector (I := mdv_ebus_subscriber)).

Record mdv_ebus := mk_ebus {
  eb_rc : Z;
  eb_events_count : Z;
  eb_handlers : mdv_hashmap mdv_event_handlers;
  eb_idx : nat;
  eb_queues : list (mdv_queuefd nat);
  eb_events_gen : list Z;
  eb_vectors : gmap nat subscribers;
  eb_events : gmap nat mdv_event;
  eb_calls : list (mdv_ebus_subscriber * nat)
}.

Definition set_handlers (s : mdv_ebus) (x : mdv_hashmap mdv_event_handlers) : mdv_ebus :=
  mk_ebus (eb_rc s) (eb_events_count s) x (eb_idx s) (eb_queues s) (eb_events_gen s) (eb_vectors s) (eb_events s) (eb_calls s).
Definition set_idx (s : mdv_ebus) (x : nat) : mdv_ebus :=
  mk_ebus (eb_rc s) (eb_events_count s) (eb_handlers s) x (eb_queues s) (eb_events_gen s) (eb_vectors s) (eb_events s) (eb_calls s).
Definition set_queues (s : mdv_ebus) (x : list (mdv_queuefd nat)) : mdv_ebus :=
  mk_ebus (eb_rc s) (eb_events_count s) (eb_handlers s) (eb_idx s) x (eb_events_gen s) (eb_vectors s) (eb_events s) (eb_calls s).
Definition set_gen (s : mdv_ebus) (x : list Z) : mdv_ebus :=
  mk_ebus (eb_rc s) (eb_events_count s) (eb_handlers s) (eb_idx s) (eb_queues s) x (eb_vectors s) (eb_events s) (eb_calls s).
Definition set_vectors (s : mdv_ebus) (x : gmap nat subscribers) : mdv_ebus :=
  mk_ebus (eb_rc s) (eb_events_count s) (eb_handlers s) (eb_idx s) (eb_queues s) (eb_events_gen s) x (eb_events s) (eb_calls s).
Definition set_events (s : mdv_ebus) (x : gmap nat mdv_event) : mdv_ebus :=
  mk_ebus (eb_rc s) (eb_events_count s) (eb_handlers s) (eb_idx s) (eb_queues s) (eb_events_gen s) (eb_vectors s) x (eb_calls s).
Definition set_calls (s : mdv_ebus) (x : list (mdv_ebus_subscriber * nat)) : mdv_ebus :=
  mk_ebus (eb_rc s) (eb_events_count s) (eb_handlers s) (eb_idx s) (eb_queues s) (eb_events_gen s) (eb_vectors s) (eb_events s) x.
Definition set_rc (s : mdv_ebus) (x : Z) : mdv_ebus :=
  mk_ebus x (eb_events_count s) (eb_handlers s) (eb_idx s) (eb_queues s) (eb_events_gen s) (eb_vectors s) (eb_events s) (eb_calls s).

Abbreviation ea := (action mdv_ebus).

(** ** Lists of subscribers in the heap *)

Definition vector_at (a : nat) : ea subscribers := s ← get; lift (deref (eb_vectors s !! a)).

Definition new_vector (v : subscribers) : ea nat :=
  s ← get; let a := base.fresh (dom (eb_vectors s) : gset nat) in put (set_vectors s (<[a := v]> (eb_vectors s)));; mret a.

Definition retain_vector (a : nat) : ea unit :=
  v ← vector_at a; s ← get; put (set_vectors s (<[a := mdv_vector_retain false v]> (eb_vectors s))).

(** The last release frees the list. *)
Definition release_vector (a : nat) : ea unit :=
  v ← vector_at a; s ← get;
  put (set_vectors s (match snd (mdv_vector_release false (Some v)) with Some v => <[a := v]> (eb_vectors s) | None => delete a (eb_vectors s) end)).

Definition mdv_ebus_subscriber_equ (b : mdv_ebus_subscriber) (a : option mdv_ebus_subscriber) : bool :=
  match a with Some a => (sb_arg a =? sb_arg b)%Z && (sb_handler a =? sb_handler b)%Z | None => false end.

(** The list of a type, which is retained. *)
Definition mdv_ebus_evt_subscribers (type : Z) : ea (option nat) :=
  lock ← ask;
  if negb lock then mret None else
  s ← get;
  handlers ← lift (deref (mdv_hashmap_find eh_type (eb_handlers s) type));
  match handlers with
  | None => mret None
  | Some h => retain_vector (eh_subscribers h);; mret (Some (eh_subscribers h))
  end.

(** ** Handling of events *)

Section Bus.
Context (answer : mdv_ebus_subscriber -> nat -> mdv_errno).

Definition event_at (e : nat) : ea mdv_event := s ← get; lift (deref (eb_events s !! e)).

Definition call_subscriber (x : mdv_ebus_subscriber) (event : nat) : ea mdv_errno :=
  s ← get; put (set_calls s (eb_calls s ++ [(x, event)]));; mret (answer x event).

(** [if (err == MDV_OK || err == MDV_NO_IMPL) err = res;] *)
Definition join_errors (err res : mdv_errno) : mdv_errno :=
  if decide (err = MDV_OK \/ err = MDV_NO_IMPL) then res else err.

Fixpoint call_all (l : list (option mdv_ebus_subscriber)) (event : nat) (err : mdv_errno) : ea mdv_errno :=
  match l with
  | [] => mret err
  | x :: l => x ← lift (deref x); res ← call_subscriber x event; call_all l event (join_errors err res)
  end.

Definition mdv_ebus_event_process (event : nat) : ea mdv_errno :=
  ev ← event_at event;
  subscribers ← mdv_ebus_evt_subscribers (ev_type ev);
  match subscribers with
  | None => mret MDV_NO_IMPL
  | Some a =>
      v ← vector_at a;
      err ← call_all (take (Z.to_nat (v_size v)) (v_data v)) event MDV_NO_IMPL;
      release_vector a;; mret err
  end.

(** ** Events *)

(** [mem]: the event is allocated. *)
Definition mdv_event_create (mem : bool) (type : Z) : ea (option nat) :=
  if negb mem then mret None else
  s ← get;
  let e := base.fresh (dom (eb_events s) : gset nat) in
  put (set_events s (<[e := mk_event type 1]> (eb_events s)));; mret (Some e).

Definition mdv_event_retain (e : nat) : ea unit :=
  ev ← event_at e; s ← get; put (set_events s (<[e := mk_event (ev_type ev) (rc_retain (ev_rc ev))]> (eb_events s))).

Definition mdv_event_release (e : nat) : ea Z :=
  ev ← event_at e; s ← get;
  let '(rc, refs, dead) := rc_release (ev_rc ev) in
  put (set_events s (if dead then delete e (eb_events s) else <[e := mk_event (ev_type ev) rc]> (eb_events s)));; mret refs.

(** A change of the counter of a type. *)
Definition count_events (type : Z) (f : Z -> Z) : ea unit :=
  s ← get; n ← lift (deref (eb_events_gen s !! Z.to_nat type));
  put (set_gen s (<[Z.to_nat type := u64 (f n)]> (eb_events_gen s))).

(** The task of a thread for the queue [i]; [events]: the flags of epoll. *)
Definition mdv_ebus_evt_handler (epollin : bool) (i : nat) : ea unit :=
  if negb epollin then mret tt else
  lock ← ask; taken ← ask;
  s ← get;
  q ← lift (deref (eb_queues s !! i));
  let '(q, event) := mdv_queuefd_pop lock taken q in
  put (set_queues s (<[i := q]> (eb_queues s)));;
  match event with
  | None => mret tt
  | Some event =>
      ev ← event_at event;
      count_events (ev_type ev) (fun n => (n - 1)%Z);;
      mdv_ebus_event_process event;;
      mdv_event_release event;; mret tt
  end.

(** ** Publication *)

Fixpoint push_attempts (attempts : nat) (idx : nat) (event : nat) : ea bool :=
  match attempts with
  | 0 => mret false
  | S attempts =>
      lock ← ask; written ← ask;
      s ← get;
      q ← lift (deref (eb_queues s !! idx));
      let '(q, ok) := mdv_queuefd_push lock written q event in
      put (set_queues s (<[idx := q]> (eb_queues s)));;
      if (ok : bool) then mret true else push_attempts attempts idx event
  end.

(** The queues are taken in turn; the loop with the compare-and-exchange, when no
    other thread interferes. *)
Definition enqueue (event : nat) : ea mdv_errno :=
  s ← get;
  let idx := (eb_idx s + 1) mod length (eb_queues s) in
  put (set_idx s idx);;
  mdv_event_retain event;;
  ok ← push_attempts MDV_EBUS_QUEUE_PUSH_ATTEMPTS idx event;
  if (ok : bool) then mret MDV_OK else mdv_event_release event;; mret MDV_FAILED.

Definition mdv_ebus_publish (event : nat) (flags : Z) : ea mdv_errno :=
  ev ← event_at event;
  s ← get;
  if (eb_events_count s <=? ev_type ev)%Z then mret MDV_FAILED else
  if negb (Z.land flags MDV_EVT_SYNC =? 0)%Z then mdv_ebus_event_process event else
  if negb (Z.land flags MDV_EVT_UNIQUE =? 0)%Z then
    n ← lift (deref (eb_events_gen s !! Z.to_nat (ev_type ev)));
    if (n =? 0)%Z then count_events (ev_type ev) (fun _ => 1%Z);; enqueue event else mret MDV_EEXIST
  else count_events (ev_type ev) (fun n => (n + 1)%Z);; enqueue event.

End Bus.

(** ** Subscriptions *)

(** The entry of a type. *)
Definition mdv_ebus_handlers_unsafe (type : Z) : ea (option mdv_event_handlers) :=
  s ← get;
  handlers ← lift (deref (mdv_hashmap_find eh_type (eb_handlers s) type));
  match handlers with
  | Some h => mret (Some h)
  | None =>
      m1 ← ask; m2 ← ask;
      match mdv_vector_create m1 m2 4 16 with
      | None => mret None
      | Some v =>
          a ← new_vector v;
          m1 ← ask; m2 ← ask;
          s ← get;
          r ← lift (deref (mdv_hashmap_insert eh_type m1 m2 (eb_handlers s) (mk_handlers type a) 16));
          put (set_handlers s r.2);;
          match r.1 with
          | Some h => mret (Some h)
          | None => release_vector a;; mret None
          end
      end
  end.

(** [handlers->subscribers = a] *)
Definition set_subscribers (type : Z) (a : nat) : ea unit :=
  s ← get; put (set_handlers s (write_item eh_type (eb_handlers s) (mk_handlers type a))).

Definition mdv_ebus_subscribe_unsafe (type arg handler : Z) : ea mdv_errno :=
  handlers ← mdv_ebus_handlers_unsafe type;
  match handlers with
  | None => mret MDV_NO_MEM
  | Some h =>
      let subscriber := mk_subscriber arg handler in
      v ← vector_at (eh_subscribers h);
      match mdv_vector_find (mdv_ebus_subscriber_equ subscriber) v with
      | Some _ => mret MDV_OK
      | None =>
          m1 ← ask; m2 ← ask;
          match mdv_vector_clone m1 m2 v (v_size v + 1) with
          | None => mret MDV_NO_MEM
          | Some v' =>
              m ← ask;
              r ← lift (mdv_vector_push_back 64 m v' subscriber);
              a ← new_vector r.1;
              release_vector (eh_subscribers h);;
              set_subscribers (eh_type h) a;; mret MDV_OK
          end
      end
  end.

(** The error and the list before, whose reference is left to the caller. *)
Definition mdv_ebus_unsubscribe_unsafe (type arg handler : Z) : ea (mdv_errno * option nat) :=
  s ← get;
  handlers ← lift (deref (mdv_hashmap_find eh_type (eb_handlers s) type));
  match handlers with
  | None => mret (MDV_OK, None)
  | Some h =>
      v ← vector_at (eh_subscribers h);
      match mdv_vector_find (mdv_ebus_subscriber_equ (mk_subscriber arg handler)) v with
      | None => mret (MDV_OK, None)
      | Some idx =>
          m1 ← ask; m2 ← ask;
          match mdv_vector_clone m1 m2 v (v_size v) with
          | None => mret (MDV_NO_MEM, None)
          | Some v' =>
              a ← new_vector (mdv_vector_erase v' (v_item_size v' * idx));
              set_subscribers (eh_type h) a;; mret (MDV_OK, Some (eh_subscribers h))
          end
      end
  end.

(** Without other threads the loop does not end while there is a second
    reference. *)
Definition mdv_ebus_subscribers_wait_and_release (prev : option nat) : ea unit :=
  match prev with
  | None => mret tt
  | Some a =>
      v ← vector_at a;
      if (1 <? mdv_vector_refs v)%Z then lift OutOfFuel else release_vector a
  end.

Definition mdv_ebus_subscribe (type arg handler : Z) : ea mdv_errno :=
  lock ← ask;
  if negb lock then mret MDV_FAILED else mdv_ebus_subscribe_unsafe type arg handler.

(** [for(; i > 0; --i)]: the last list that was replaced. *)
Fixpoint unsubscribe_back (handlers : list mdv_event_handler_type) (arg : Z) (prev : option nat) : ea (option nat) :=
  match handlers with
  | [] => mret prev
  | h :: handlers => r ← mdv_ebus_unsubscribe_unsafe (ht_type h) arg (ht_handler h); unsubscribe_back handlers arg r.2
  end.

(** [done]: the handlers before, the last one first. *)
Fixpoint subscribe_loop (done handlers : list mdv_event_handler_type) (arg : Z) : ea (mdv_errno * option nat) :=
  match handlers with
  | [] => mret (MDV_OK, None)
  | h :: handlers =>
      err ← mdv_ebus_subscribe_unsafe (ht_type h) arg (ht_handler h);
      if decide (err <> MDV_OK) then prev ← unsubscribe_back done arg None; mret (err, prev)
      else subscribe_loop (h :: done) handlers arg
  end.

Definition mdv_ebus_subscribe_all (arg : Z) (handlers : list mdv_event_handler_type) : ea mdv_errno :=
  lock ← ask;
  if negb lock then mret MDV_FAILED else
  r ← subscribe_loop [] handlers arg;
  mdv_ebus_subscribers_wait_and_release r.2;; mret r.1.

Definition mdv_ebus_unsubscribe (type arg handler : Z) : ea unit :=
  lock ← ask;
  if negb lock then mret tt else
  r ← mdv_ebus_unsubscribe_unsafe type arg handler;
  mdv_ebus_subscribers_wait_and_release r.2.

Fixpoint mdv_ebus_unsubscribe_all (arg : Z) (handlers : list mdv_event_handler_type) : ea unit :=
  match handlers with
  | [] => mret tt
  | h :: handlers => mdv_ebus_unsubscribe (ht_type h) arg (ht_handler h);; mdv_ebus_unsubscribe_all arg handlers
  end.

(** ** Creation and destruction *)

Inductive eb_release_fn := Fn_eb_rollbacker_free | Fn_eb_free | Fn_eb_mutex_free | Fn_eb_hashmap_release | Fn_eb_threadpool_free.
Inductive eb_resource := Res_eb_rollbacker | Res_ebus | Res_eb_mutex | Res_eb_handlers | Res_eb_threads.

Definition eb_push (r : option (mdv_rollbacker eb_release_fn eb_resource)) (f : eb_release_fn) (x : eb_resource) :=
  snd (mdv_rollbacker_push r (mk_op f [x])).

(** The queues from [i] on, of which [n] are left; [room]: how many the block has
    memory for.  A queue whose mutexes are not created has a descriptor that was
    never written, which [mdv_queuefd_ok] reads. *)
Fixpoint init_queues {T} (n i room : nat) : action T (option (list (mdv_queuefd nat))) :=
  match n with
  | 0 => mret (Some [])
  | S n =>
      if room <=? i then lift (OutOfBounds (Z.of_nat i)) else
      mem ← ask; rmutex ← ask; wmutex ← ask; event ← ask;
      if negb rmutex || negb wmutex then lift (OutOfBounds (Z.of_nat i)) else
      match mdv_queuefd_init mem rmutex wmutex event (replicate MDV_EBUS_QUEUE_SIZE 0) with
      | inr _ => mret None
      | inl q =>
          added ← ask;
          if negb added then mret None else
          r ← init_queues n (S i) room;
          mret (cons q <$> r)
      end
  end.

(** The bus, or the calls of the rollback. *)
Definition mdv_ebus_create (queues_count : nat) (max_id : Z) : action unit (mdv_ebus + list (eb_release_fn * list eb_resource)) :=
  rb ← ask;
  let rbr := mdv_rollbacker_create rb Fn_eb_rollbacker_free Res_eb_rollbacker 4 in
  m ← ask;
  if negb m then mret (inr (mdv_rollback rbr)) else
  let rbr := eb_push rbr Fn_eb_free Res_ebus in
  let events_count := u32 (max_id + 1) in
  let size := if queues_count =? 0 then 1 else queues_count in
  mutex ← ask;
  if negb mutex then mret (inr (mdv_rollback rbr)) else
  let rbr := eb_push rbr Fn_eb_mutex_free Res_eb_mutex in
  m1 ← ask; m2 ← ask;
  match mdv_hashmap_create m1 m2 size 0 4 with
  | None => mret (inr (mdv_rollback rbr))
  | Some handlers =>
      let rbr := eb_push rbr Fn_eb_hashmap_release Res_eb_handlers in
      threads ← ask;
      if negb threads then mret (inr (mdv_rollback rbr)) else
      let rbr := eb_push rbr Fn_eb_threadpool_free Res_eb_threads in
      queues ← init_queues size 0 queues_count;
      match queues with
      | None => mret (inr (mdv_rollback rbr))
      | Some queues => mret (inl (mk_ebus 1 events_count handlers 0 queues (replicate (Z.to_nat events_count) 0%Z) ∅ ∅ []))
      end
  end.

(** [while (mdv_queuefd_pop(...)) release] *)
Fixpoint drain_queue (fuel i : nat) : ea unit :=
  match fuel with
  | 0 => lift OutOfFuel
  | S fuel =>
      lock ← ask; taken ← ask;
      s ← get;
      q ← lift (deref (eb_queues s !! i));
      let '(q, event) := mdv_queuefd_pop lock taken q in
      put (set_queues s (<[i := q]> (eb_queues s)));;
      match event with None => mret tt | Some event => mdv_event_release event;; drain_queue fuel i end
  end.

Fixpoint drain_queues (i n : nat) : ea unit :=
  match n with
  | 0 => mret tt
  | S n =>
      s ← get;
      q ← lift (deref (eb_queues s !! i));
      (if mdv_queue_size (qf_queue q) =? 0 then mret tt else drain_queue (S MDV_EBUS_QUEUE_SIZE) i);;
      drain_queues (S i) n
  end.

Fixpoint release_all (l : list mdv_event_handlers) : ea unit :=
  match l with [] => mret tt | h :: l => release_vector (eh_subscribers h);; release_all l end.

Definition mdv_ebus_free : ea unit :=
  s ← get;
  drain_queues 0 (length (eb_queues s));;
  release_all (mdv_hashmap_foreach (eb_handlers s)).

Definition mdv_ebus_retain (s : mdv_ebus) : mdv_ebus := set_rc s (rc_retain (eb_rc s)).

(** The returned count; with the last reference the bus is freed. *)
Definition mdv_ebus_release : ea Z :=
  s ← get;
  let '(rc, refs, dead) := rc_release (eb_rc s) in
  put (set_rc s rc);;
  if (dead : bool) then mdv_ebus_free;; mret refs else mret refs.

(** ** The subscribers of the types *)

#[local] Instance type_key_ok : HashKeyOk Z.
Proof. exact uint32_key_ok. Qed.

Lemma type_keq (a b : Z) : fits 32 a -> fits 32 b -> keq a b <-> a = b.
Proof. exact (uint32_keq a b). Qed.

Definition entry (s : mdv_ebus) (t : Z) : option mdv_event_handlers := Hashmap.lookup eh_type (eb_handlers s) t.

(** The subscribers in a list, and those of a type. *)
Definition items (v : subscribers) : list mdv_ebus_subscriber := omap id (take (Z.to_nat (v_size v)) (v_data v)).

Definition subs (s : mdv_ebus) (t : Z) : list mdv_ebus_subscriber :=
  match entry s t with Some h => default [] (items <$> eb_vectors s !! eh_subscribers h) | None => [] end.

(** A list without duplicates that only the bus refers to. *)
Record list_ok (v : subscribers) : Prop := {
  lo_holds : holds v (items v);
  lo_nodup : NoDup (items v);
  lo_cap : (0 < v_capacity v)%Z;
  lo_rc : v_rc v = 1%Z
}.

(** No thread handles an event, and the types have lists of their own. *)
Record bus_ok (s : mdv_ebus) : Prop := {
  bk_map : Hashmap.ready eh_type (eb_handlers s) 16;
  bk_list : forall t h, entry s t = Some h -> exists v, eb_vectors s !! eh_subscribers h = Some v /\ list_ok v;
  bk_own : forall t t' h h', entry s t = Some h -> entry s t' = Some h' -> eh_subscribers h = eh_subscribers h' -> keq t t'
}.

(** Everything but the subscriptions. *)
Definition rest (s : mdv_ebus) := (eb_rc s, eb_events_count s, eb_idx s, eb_queues s, eb_events_gen s, eb_events s, eb_calls s).

Lemma cells_items (v : subscribers) l : holds v l -> take (Z.to_nat (v_size v)) (v_data v) = Some <$> l /\ items v = l.
Proof.
  intros [Hs _ _ [r Hd]]. assert (E : take (Z.to_nat (v_size v)) (v_data v) = Some <$> l).
  { rewrite Hs, Nat2Z.id, Hd. apply take_app_length'. by rewrite length_fmap. }
  split; [done|]. unfold items. rewrite E. clear. induction l as [|x l IH]; [done|]. cbn. by rewrite IH.
Qed.

Lemma holds_items (v : subscribers) l : holds v l -> holds v (items v).
Proof. intros Hh. by rewrite (proj2 (cells_items v l Hh)). Qed.

Lemma find_subscriber (v : subscribers) x : list_ok v ->
  match mdv_vector_find (mdv_ebus_subscriber_equ x) v with
  | Some i => exists k, i = Z.of_nat k /\ items v !! k = Some x
  | None => x ∉ items v
  end.
Proof.
  intros [Hh _ _ _]. unfold mdv_vector_find. pose proof Hh as [Hs _ _ [r Hd]]. rewrite Hd, Hs, Nat2Z.id, find_loop_spec.
  assert (Hequ : forall y, mdv_ebus_subscriber_equ x (Some y) = true <-> y = x).
  { intros [a h]. destruct x as [a' h']. cbn. rewrite andb_true_iff, !Z.eqb_eq. split; [by intros [-> ->]|by intros [= -> ->]]. }
  destruct (list_find _ (items v)) as [[k y]|] eqn:E; cbn.
  - apply list_find_Some in E as (Hk & Hy & _). apply Is_true_true, Hequ in Hy as ->. exists k. by split.
  - apply list_find_None in E. intros Hin. eapply Forall_forall in E; [|exact Hin]. apply E, Is_true_true. by apply Hequ.
Qed.

Lemma subs_at s t h v : entry s t = Some h -> eb_vectors s !! eh_subscribers h = Some v -> subs s t = items v.
Proof. intros E Ev. unfold subs. by rewrite E, Ev. Qed.

(** A handler of an event calls every subscriber, in the order of the
    subscriptions. *)
Section Calls.
Context (answer : mdv_ebus_subscriber -> nat -> mdv_errno) (mem : nat -> bool).

Lemma call_all_wp l event err s (Q : mdv_errno -> mdv_ebus -> Prop) :
  Q (foldl (fun err x => join_errors err (answer x event)) err l) (set_calls s (eb_calls s ++ ((fun x => (x, event)) <$> l))) ->
  wp mem (call_all answer (Some <$> l) event err) s Q.
Proof.
  revert err s. induction l as [|x l IH]; intros err s HQ; cbn [fmap list_fmap call_all].
  - wp_step. cbn in HQ. rewrite app_nil_r in HQ. by destruct s.
  - wp_step. eapply wp_lift; [done|]. unfold call_subscriber. wp_steps. apply IH. cbn in HQ. cbn [eb_calls set_calls]. rewrite <- app_assoc. exact HQ.
Qed.

Lemma process_wp event ev s (Q : mdv_errno -> mdv_ebus -> Prop) :
  bus_ok s -> granted mem -> eb_events s !! event = Some ev ->
  Q (foldl (fun err x => join_errors err (answer x event)) MDV_NO_IMPL (subs s (ev_type ev)))
    (set_calls s (eb_calls s ++ ((fun x => (x, event)) <$> subs s (ev_type ev)))) ->
  wp mem (mdv_ebus_event_process answer event) s Q.
Proof.
  intros Hok Hg Hev HQ. unfold mdv_ebus_event_process, event_at. wp_steps. eapply wp_lift; [by rewrite Hev|]. wp_step. unfold mdv_ebus_evt_subscribers. wp_steps. rewrite (Hb Hg). cbn [negb]. wp_steps.
  eapply wp_lift; [by rewrite (find_lookup eh_type _ _ (proj1 (bk_map _ Hok)))|]. fold (entry s (ev_type ev)). destruct (entry s (ev_type ev)) as [h|] eqn:El.
  - destruct (bk_list _ Hok _ _ El) as (v & Hv & Hl). rewrite (subs_at _ _ _ _ El Hv) in HQ. unfold retain_vector, vector_at. wp_steps.
    eapply wp_lift; [by rewrite Hv|]. wp_steps. eapply wp_lift; [cbn [eb_vectors set_vectors]; by rewrite lookup_insert_eq|]. wp_steps.
    cbn [mdv_vector_retain v_size v_data]. rewrite (proj1 (cells_items v _ (lo_holds _ Hl))). apply call_all_wp. wp_step. unfold release_vector, vector_at. wp_steps.
    eapply wp_lift; [cbn [eb_vectors set_vectors set_calls]; by rewrite lookup_insert_eq|]. wp_steps.
    cbn [mdv_vector_retain mdv_vector_release v_rc v_capacity v_size v_item_size v_data]. rewrite (lo_rc _ Hl). change (rc_release (rc_retain 1)) with (1, 1, false)%Z. cbn [snd].
    cbn [eb_vectors set_vectors set_calls eb_calls]. rewrite insert_insert_eq. replace (mk_vector 1 (v_capacity v) (v_size v) (v_item_size v) (v_data v)) with v by (destruct v; cbn in *; by rewrite <- (lo_rc _ Hl)).
    rewrite (insert_id (eb_vectors s) _ v) by done. exact HQ.
  - unfold subs in HQ. rewrite El in HQ. cbn in HQ. wp_steps. rewrite app_nil_r in HQ. by destruct s.
Qed.

End Calls.

(** ** Subscriptions *)

(** The list of a type is replaced by one at a new address. *)
Definition replaced (s : mdv_ebus) (h : mdv_event_handlers) (a : nat) (v : subscribers) : mdv_ebus :=
  set_handlers (set_vectors s (delete (eh_subscribers h) (<[a := v]> (eb_vectors s)))) (write_item eh_type (eb_handlers s) (mk_handlers (eh_type h) a)).

Lemma replace_list s t h a v :
  bus_ok s -> entry s t = Some h -> eb_vectors s !! a = None -> list_ok v ->
  bus_ok (replaced s h a v) /\ (forall t', subs (replaced s h a v) t' = if (key_cmp_fn t t' =? 0)%Z then items v else subs s t').
Proof.
  intros Hok Hh Ha Hv. pose proof (bk_map _ Hok) as (Hw & Hc & Hs). destruct (lookup_elem eh_type _ _ _ Hw Hh) as [_ Hk].
  assert (Hent : Hashmap.lookup eh_type (eb_handlers s) (eh_type (mk_handlers (eh_type h) a)) <> None).
  { cbn [eh_type]. rewrite <- (lookup_keq eh_type _ _ _ Hw Hk). unfold entry in Hh. by rewrite Hh. }
  destruct (write_item_spec eh_type (eb_handlers s) (mk_handlers (eh_type h) a) Hw Hent) as [Hw' Hl]. cbn [eh_type] in Hl.
  assert (Hcmp : forall t', (key_cmp_fn (eh_type h) t' =? 0)%Z = (key_cmp_fn t t' =? 0)%Z).
  { intros t'. destruct (Z.eqb_spec (key_cmp_fn t t') 0) as [E|E]; [apply Z.eqb_eq|apply Z.eqb_neq]; fold (keq t t') in *.
    - change (keq (eh_type h) t'). etrans; [symmetry; exact Hk|exact E].
    - intros Hx. apply E. change (keq t t'). etrans; [exact Hk|exact Hx]. }
  assert (Hent' : forall t', entry (replaced s h a v) t' = if (key_cmp_fn t t' =? 0)%Z then Some (mk_handlers (eh_type h) a) else entry s t').
  { intros t'. unfold entry at 1. cbn [eb_handlers replaced set_handlers]. by rewrite Hl, Hcmp. }
  assert (Hne : eh_subscribers h <> a). { intros E. destruct (bk_list _ Hok _ _ Hh) as (v0 & Hv0 & _). congruence. }
  assert (Hkeep : forall t' h', entry s t' = Some h' -> (key_cmp_fn t t' =? 0)%Z = false -> eb_vectors (replaced s h a v) !! eh_subscribers h' = eb_vectors s !! eh_subscribers h').
  { intros t' h' Hh' E%Z.eqb_neq. cbn [eb_vectors replaced set_handlers set_vectors]. destruct (bk_list _ Hok _ _ Hh') as (v' & Hv' & _).
    rewrite lookup_delete_ne, lookup_insert_ne; [done|intros Ea; congruence|]. intros Ea. apply E. by apply (bk_own _ Hok t t' h h'). }
  assert (Hnew : eb_vectors (replaced s h a v) !! a = Some v).
  { cbn [eb_vectors replaced set_handlers set_vectors]. by rewrite lookup_delete_ne, lookup_insert_eq. }
  split; [split|].
  - split_and!; [exact Hw'|done|done].
  - intros t' h'. rewrite Hent'. destruct (key_cmp_fn t t' =? 0)%Z eqn:E; [intros [= <-]; by exists v|]. intros Hh'. rewrite (Hkeep t') by done. by apply (bk_list _ Hok t').
  - intros t1 t2 h1 h2. rewrite !Hent'. assert (Hold : forall t' h', entry s t' = Some h' -> eh_subscribers h' <> a).
    { intros t' h' Hh' E. destruct (bk_list _ Hok _ _ Hh') as (v' & Hv' & _). congruence. }
    destruct (Z.eqb_spec (key_cmp_fn t t1) 0) as [E1|E1], (Z.eqb_spec (key_cmp_fn t t2) 0) as [E2|E2].
    + intros _ _ _. fold (keq t t1) (keq t t2) in *. by rewrite <- E1.
    + intros [= <-] H2 E. cbn in E. symmetry in E. by apply Hold in H2.
    + intros H1 [= <-] E. cbn in E. by apply Hold in H1.
    + apply (bk_own _ Hok).
  - intros t'. unfold subs. rewrite Hent'. destruct (key_cmp_fn t t' =? 0)%Z eqn:E; [cbn [eh_subscribers]; by rewrite Hnew|].
    destruct (entry s t') as [h'|] eqn:Eh; [|done]. by rewrite (Hkeep t').
Qed.

Section Subscribe.
Context (mem : nat -> bool).

Lemma fresh_vector s : eb_vectors s !! base.fresh (dom (eb_vectors s) : gset nat) = None.
Proof. apply not_elem_of_dom. apply is_fresh. Qed.

Lemma release_last s a v (Q : unit -> mdv_ebus -> Prop) :
  eb_vectors s !! a = Some v -> v_rc v = 1%Z -> Q tt (set_vectors s (delete a (eb_vectors s))) -> wp mem (release_vector a) s Q.
Proof.
  intros Hv Hr HQ. unfold release_vector, vector_at. wp_steps. eapply wp_lift; [by rewrite Hv|]. wp_steps. cbn [mdv_vector_release]. rewrite Hr. change (rc_release 1) with (0, 0, true)%Z. exact HQ.
Qed.

(** The entry of a type is there after the call, unless memory was refused. *)
Lemma handlers_unsafe_wp s t (Q : option mdv_event_handlers -> mdv_ebus -> Prop) :
  bus_ok s ->
  (forall r s', bus_ok s' -> (forall t', subs s' t' = subs s t') -> rest s' = rest s -> (granted mem -> r <> None) ->
     (forall h, r = Some h -> entry s' t = Some h) -> Q r s') ->
  wp mem (mdv_ebus_handlers_unsafe t) s Q.
Proof.
  intros Hok HQ. unfold mdv_ebus_handlers_unsafe. wp_steps. eapply wp_lift; [by rewrite (find_lookup eh_type _ _ (proj1 (bk_map _ Hok)))|]. fold (entry s t).
  destruct (entry s t) as [h|] eqn:El.
  { wp_steps. apply HQ; try done. by intros h' [= <-]. }
  wp_steps. destruct (mdv_vector_create b b0 4 16) as [v|] eqn:Ev.
  2: { wp_steps. apply HQ; try done. intros Hg. rewrite (Hb Hg), (Hb0 Hg) in Ev. discriminate Ev. }
  assert (Hlist : list_ok v /\ items v = []).
  { unfold mdv_vector_create in Ev. destruct b, b0; try done. injection Ev as <-. split; [|done]. split; cbn; try done; [|constructor].
    split; cbn; [done|done|lia|]. by eexists. }
  destruct Hlist as [Hlist Hitems]. unfold new_vector. wp_steps. pose proof (fresh_vector s) as Hf. set (a := base.fresh (dom (eb_vectors s))) in *.
  destruct (insert_any eh_type (eb_handlers s) (mk_handlers t a) 16 b1 b2 (bk_map _ Hok)) as (r & hm & E & Hr & Hcase & Hgr & Hoth & Hin & Hnone & _). cbn [eh_type] in Hoth, Hin, Hnone.
  eapply wp_lift; [cbn [eb_handlers set_vectors]; by rewrite E|]. wp_steps. cbn [fst snd]. set (s1 := set_handlers (set_vectors s (<[a := v]> (eb_vectors s))) hm).
  assert (Hvec : forall t' h', entry s t' = Some h' -> eb_vectors s1 !! eh_subscribers h' = eb_vectors s !! eh_subscribers h').
  { intros t' h' Hh'. cbn [s1 eb_vectors set_handlers set_vectors]. destruct (bk_list _ Hok _ _ Hh') as (v' & Hv' & _). rewrite lookup_insert_ne; [done|]. intros Ea. congruence. }
  assert (Hno : forall t', keq t t' -> entry s t' = None). { intros t' Hk. unfold entry. rewrite <- (lookup_keq eh_type _ _ _ (proj1 (bk_map _ Hok)) Hk). exact El. }
  destruct Hcase as [-> | ->].
  - wp_steps. assert (Hent : forall t', entry s1 t' = if (key_cmp_fn t t' =? 0)%Z then Some (mk_handlers t a) else entry s t').
    { intros t'. unfold entry at 1. cbn [s1 eb_handlers set_handlers]. destruct (Z.eqb_spec (key_cmp_fn t t') 0) as [Ek|Ek]; [by apply Hin|by apply Hoth]. }
    apply HQ; [|..|done|done|].
    + split; [exact Hr|..].
      * intros t' h'. rewrite Hent. destruct (key_cmp_fn t t' =? 0)%Z; [intros [= <-]; exists v; split; [cbn; by rewrite lookup_insert_eq|done]|]. intros Hh'. rewrite (Hvec t') by done. by apply (bk_list _ Hok t').
      * intros t1 t2 h1 h2. rewrite !Hent. assert (Hold : forall t' h', entry s t' = Some h' -> eh_subscribers h' <> a).
        { intros t' h' Hh' Ea. destruct (bk_list _ Hok _ _ Hh') as (v' & Hv' & _). congruence. }
        destruct (Z.eqb_spec (key_cmp_fn t t1) 0) as [E1|E1], (Z.eqb_spec (key_cmp_fn t t2) 0) as [E2|E2].
        -- intros _ _ _. fold (keq t t1) (keq t t2) in *. by rewrite <- E1.
        -- intros [= <-] H2 Ex. cbn in Ex. symmetry in Ex. by apply Hold in H2.
        -- intros H1 [= <-] Ex. cbn in Ex. by apply Hold in H1.
        -- apply (bk_own _ Hok).
    + intros t'. unfold subs. rewrite Hent. destruct (Z.eqb_spec (key_cmp_fn t t') 0) as [Ek|Ek].
      * rewrite (Hno t' Ek). cbn. rewrite lookup_insert_eq. cbn. exact Hitems.
      * destruct (entry s t') as [h'|] eqn:Eh; [|done]. by rewrite (Hvec t').
    + intros h [= <-]. rewrite Hent. by rewrite (proj2 (Z.eqb_eq _ _) (reflexivity (R := keq) t)).
  - wp_step. apply (release_last s1 a v); [cbn; by rewrite lookup_insert_eq|apply Hlist|]. wp_steps.
    assert (Hmap : delete a (<[a := v]> (eb_vectors s)) = eb_vectors s) by (by rewrite delete_insert_id).
    assert (Hent : forall t', entry (set_vectors s1 (delete a (eb_vectors s1))) t' = entry s t').
    { intros t'. unfold entry at 1. cbn [s1 eb_handlers set_handlers set_vectors]. destruct (decide (key_cmp_fn t t' = 0%Z)) as [Ek|Ek]; [|by apply Hoth].
      rewrite (Hno t' Ek). destruct (Hnone eq_refl t' Ek) as [->|E']; [done|]. rewrite E'. apply (Hno t' Ek). }
    cbn [s1 eb_vectors set_handlers set_vectors] in *. rewrite Hmap in *. apply HQ; [|..|done|by intros Hg; rewrite (Hb1 Hg), (Hb2 Hg) in Hgr; specialize (Hgr eq_refl eq_refl)|done].
    + split; [exact Hr|..]; cbn [eb_vectors set_vectors set_handlers].
      * intros t' h'. rewrite Hent. apply (bk_list _ Hok).
      * intros t1 t2 h1 h2. rewrite !Hent. apply (bk_own _ Hok).
    + intros t'. unfold subs. by rewrite Hent.
Qed.

(** What a subscription and its removal do to the list of a type. *)
Definition add_subscriber (x : mdv_ebus_subscriber) (l : list mdv_ebus_subscriber) : list mdv_ebus_subscriber :=
  if decide (x ∈ l) then l else l ++ [x].
Definition remove_subscriber (x : mdv_ebus_subscriber) (l : list mdv_ebus_subscriber) : list mdv_ebus_subscriber := filter (.≠ x) l.

Definition updated (s s' : mdv_ebus) (t : Z) (l : list mdv_ebus_subscriber) : Prop :=
  forall t', subs s' t' = if (key_cmp_fn t t' =? 0)%Z then l else subs s t'.

Lemma subs_keq s t t' : bus_ok s -> keq t t' -> subs s t = subs s t'.
Proof. intros Hok Hk. unfold subs, entry. by rewrite (lookup_keq eh_type _ _ _ (proj1 (bk_map _ Hok)) Hk). Qed.

Lemma updated_same s s' t : bus_ok s -> (forall t', subs s' t' = subs s t') -> updated s s' t (subs s t).
Proof. intros Hok Hs t'. rewrite Hs. destruct (Z.eqb_spec (key_cmp_fn t t') 0) as [E|]; [|done]. symmetry. by apply subs_keq. Qed.

Lemma remove_delete l k x : NoDup l -> l !! k = Some x -> remove_subscriber x l = delete k l.
Proof.
  intros Hnd Hk. pose proof (take_drop_middle _ _ _ Hk) as E. rewrite delete_take_drop. unfold remove_subscriber. rewrite <- E in Hnd |- * at 1.
  rewrite filter_app, filter_cons_False by (intros Hx; by apply Hx). apply NoDup_app in Hnd as (_ & Hd & Hn). apply NoDup_cons in Hn as [Hn _]. f_equal.
  - apply Prelude.filter_all. intros y Hy ->. apply (Hd x Hy). by left.
  - apply Prelude.filter_all. intros y Hy ->. done.
Qed.

Lemma subscribe_unsafe_wp s t arg handler (Q : mdv_errno -> mdv_ebus -> Prop) :
  bus_ok s -> (Z.of_nat (length (subs s t)) < 2 ^ 32)%Z ->
  (forall err s', bus_ok s' -> rest s' = rest s -> err = MDV_OK \/ err = MDV_NO_MEM -> (granted mem -> err = MDV_OK) ->
     updated s s' t (if decide (err = MDV_OK) then add_subscriber (mk_subscriber arg handler) (subs s t) else subs s t) -> Q err s') ->
  wp mem (mdv_ebus_subscribe_unsafe t arg handler) s Q.
Proof.
  intros Hok Hlen HQ. unfold mdv_ebus_subscribe_unsafe. wp_step. apply handlers_unsafe_wp; [done|]. intros r s1 Hok1 Hsubs Hrest Hg Hent. destruct r as [h|].
  2: { wp_steps. apply HQ; try done; [by right|by intros Hx; apply Hg in Hx|]. by apply updated_same. }
  specialize (Hent h eq_refl). destruct (bk_list _ Hok1 _ _ Hent) as (v & Hv & Hl). pose proof (subs_at _ _ _ _ Hent Hv) as Es. rewrite Hsubs in Es.
  unfold vector_at. wp_steps. eapply wp_lift; [by rewrite Hv|]. pose proof (find_subscriber v (mk_subscriber arg handler) Hl) as Hf.
  destruct (mdv_vector_find (mdv_ebus_subscriber_equ (mk_subscriber arg handler)) v) as [i|].
  { wp_steps. destruct Hf as (k & _ & Hk). apply HQ; try done; [by left|]. rewrite decide_True by done. unfold add_subscriber. rewrite Es, decide_True by (by eapply list_elem_of_lookup_2).
    rewrite <- Es. by apply updated_same. }
  wp_steps. pose proof (lo_holds _ Hl) as Hh. rewrite <- Es in Hh, Hf. assert (Hsz : v_size v = Z.of_nat (length (subs s t))) by apply Hh.
  pose proof (clone_spec b b0 v _ (v_size v + 1) Hh ltac:(lia)) as Hc. destruct (mdv_vector_clone b b0 v (v_size v + 1)) as [v'|].
  2: { wp_steps. apply HQ; try done; [by right| |by apply updated_same]. intros Hx. rewrite (Hb Hx), (Hb0 Hx) in Hc. by destruct Hc. }
  destruct Hc as (Hh' & Hrc & Hcap & Hit). rewrite Hsz in Hcap. wp_steps. destruct (push_back_room b1 v' _ (mk_subscriber arg handler) Hh' ltac:(lia)) as (v2 & E2 & Hh2 & Hrc2 & Hcap2 & _).
  eapply wp_lift; [by rewrite E2|]. cbn [fst]. unfold new_vector. wp_steps. pose proof (fresh_vector s1) as Hfr. set (a := base.fresh (dom (eb_vectors s1))) in *.
  assert (Hne : eh_subscribers h <> a) by (intros Ea; congruence).
  apply (release_last _ (eh_subscribers h) v); [cbn; by rewrite lookup_insert_ne|apply Hl|]. unfold set_subscribers. wp_steps.
  assert (Hit2 : items v2 = subs s t ++ [mk_subscriber arg handler]) by (by apply cells_items).
  destruct (replace_list s1 t h a v2 Hok1 Hent Hfr) as [Hok2 Hsubs2].
  { split; [by eapply holds_items|rewrite Hit2|lia|by rewrite Hrc2]. rewrite Es. apply NoDup_app. split_and!; [apply Hl| |apply NoDup_singleton].
    intros y Hy ->%list_elem_of_singleton. apply Hf. by rewrite Es. }
  apply (HQ _ (replaced s1 h a v2)); try done; [by left|]. rewrite decide_True by done. unfold add_subscriber. rewrite decide_False by done.
  intros t'. rewrite Hsubs2, Hit2. by rewrite Hsubs.
Qed.

Lemma unsubscribe_wp s t arg handler (Q : unit -> mdv_ebus -> Prop) :
  bus_ok s -> (Z.of_nat (length (subs s t)) < 2 ^ 32)%Z ->
  (forall s', bus_ok s' -> rest s' = rest s ->
     (updated s s' t (remove_subscriber (mk_subscriber arg handler) (subs s t)) \/ ~ granted mem /\ forall t', subs s' t' = subs s t') -> Q tt s') ->
  wp mem (mdv_ebus_unsubscribe t arg handler) s Q.
Proof.
  intros Hok Hlen HQ. unfold mdv_ebus_unsubscribe. wp_steps. destruct b; cbn [negb].
  2: { wp_steps. apply HQ; [done|done|]. right. split; [|done]. intros Hg. by apply Hb in Hg. }
  unfold mdv_ebus_unsubscribe_unsafe. wp_steps. eapply wp_lift; [by rewrite (find_lookup eh_type _ _ (proj1 (bk_map _ Hok)))|]. fold (entry s t).
  assert (Hnot : mk_subscriber arg handler ∉ subs s t -> Q tt s).
  { intros Hn. apply HQ; [done|done|]. left. unfold remove_subscriber. rewrite Prelude.filter_all; [by apply updated_same|]. intros y Hy ->. done. }
  destruct (entry s t) as [h|] eqn:Hent.
  2: { wp_steps. cbn [snd mdv_ebus_subscribers_wait_and_release]. wp_steps. apply Hnot. unfold subs. rewrite Hent. apply not_elem_of_nil. }
  destruct (bk_list _ Hok _ _ Hent) as (v & Hv & Hl). pose proof (subs_at _ _ _ _ Hent Hv) as Es. unfold vector_at. wp_steps. eapply wp_lift; [by rewrite Hv|].
  pose proof (find_subscriber v (mk_subscriber arg handler) Hl) as Hf. destruct (mdv_vector_find (mdv_ebus_subscriber_equ (mk_subscriber arg handler)) v) as [i|].
  2: { wp_steps. cbn [snd mdv_ebus_subscribers_wait_and_release]. wp_steps. apply Hnot. by rewrite Es. }
  destruct Hf as (k & -> & Hk). wp_steps. pose proof (lo_holds _ Hl) as Hh. assert (Hsz : v_size v = Z.of_nat (length (items v))) by apply Hh. rewrite Es in Hlen.
  pose proof (clone_spec b b0 v _ (v_size v) Hh ltac:(lia)) as Hc. destruct (mdv_vector_clone b b0 v (v_size v)) as [v'|].
  2: { wp_steps. cbn [snd mdv_ebus_subscribers_wait_and_release]. wp_steps. apply HQ; [done|done|]. right. split; [|done]. intros Hx. rewrite (Hb0 Hx), (Hb1 Hx) in Hc. by destruct Hc. }
  destruct Hc as (Hh' & Hrc & Hcap & Hit). pose proof (lookup_lt_Some _ _ _ Hk) as Hlt. pose proof (erase_spec v' (items v) k Hh' Hlt ltac:(lia)) as He.
  unfold new_vector. wp_steps. pose proof (fresh_vector s) as Hfr. set (a := base.fresh (dom (eb_vectors s))) in *. unfold set_subscribers. wp_steps. cbn [snd mdv_ebus_subscribers_wait_and_release].
  assert (Hne : eh_subscribers h <> a) by (intros Ea; congruence). set (v2 := mdv_vector_erase v' (v_item_size v' * Z.of_nat k)) in *.
  wp_step. unfold vector_at. wp_steps. eapply wp_lift; [cbn; by rewrite lookup_insert_ne, Hv|]. unfold mdv_vector_refs. rewrite (lo_rc _ Hl). change (1 <? u32 1)%Z with false. cbn iota.
  apply (release_last _ (eh_subscribers h) v); [cbn; by rewrite lookup_insert_ne|apply Hl|].
  assert (Hit2 : items v2 = remove_subscriber (mk_subscriber arg handler) (subs s t)).
  { rewrite (proj2 (cells_items v2 _ He)), Es. symmetry. apply remove_delete; [apply Hl|done]. }
  assert (Hrc2 : v_rc v2 = 1%Z /\ v_capacity v2 = v_capacity v').
  { unfold v2, mdv_vector_erase. by repeat case_match. }
  destruct (replace_list s t h a v2 Hok Hent Hfr) as [Hok2 Hsubs2].
  { split; [by eapply holds_items|rewrite Hit2; apply NoDup_filter; rewrite Es; apply Hl|rewrite (proj2 Hrc2), Hcap; lia|apply Hrc2]. }
  apply (HQ (replaced s h a v2)); [done|done|]. left. intros t'. by rewrite Hsubs2, Hit2.
Qed.

End Subscribe.

(** ** Specification: lists of subscribers, lists of queued events, counters *)

Section Refinement.
Context (answer : mdv_ebus_subscriber -> nat -> mdv_errno).

Inductive bus_op :=
  | Op_subscribe (type arg handler : Z)
  | Op_unsubscribe (type arg handler : Z)
  | Op_publish (type flags : Z)
  | Op_handle (i : nat).

(** What the components and the threads do with the bus.  The publisher creates the
    event and gives it up afterwards. *)
Definition exec (o : bus_op) : ea mdv_errno :=
  match o with
  | Op_subscribe type arg handler => mdv_ebus_subscribe type arg handler
  | Op_unsubscribe type arg handler => mdv_ebus_unsubscribe type arg handler;; mret MDV_OK
  | Op_publish type flags =>
      m ← ask; event ← mdv_event_create m type;
      match event with
      | None => mret MDV_NO_MEM
      | Some event => err ← mdv_ebus_publish answer event flags; mdv_event_release event;; mret err
      end
  | Op_handle i => mdv_ebus_evt_handler answer true i;; mret MDV_OK
  end.

Fixpoint exec_all (ops : list bus_op) : ea (list mdv_errno) :=
  match ops with [] => mret [] | o :: ops => err ← exec o; errs ← exec_all ops; mret (err :: errs) end.

Record bus := mk_bus {
  sp_subs : Z -> list mdv_ebus_subscriber;
  sp_idx : nat;
  sp_queues : list (list (nat * Z));
  sp_gen : list Z;
  sp_calls : list (mdv_ebus_subscriber * nat)
}.

Definition spec_call (event : nat) (l : list mdv_ebus_subscriber) : mdv_errno :=
  foldl (fun err x => join_errors err (answer x event)) MDV_NO_IMPL l.

Definition spec_calls (b : bus) (event : nat) (type : Z) : list (mdv_ebus_subscriber * nat) :=
  sp_calls b ++ ((fun x => (x, event)) <$> sp_subs b type).

(** The queues are taken in turn, and a queue has room for 255 events. *)
Definition spec_enqueue (b : bus) (gen : list Z) (event : nat) (type : Z) : bus * mdv_errno :=
  let i := (sp_idx b + 1) mod length (sp_queues b) in
  let q := default [] (sp_queues b !! i) in
  if length q <? 255 then (mk_bus (sp_subs b) i (<[i := q ++ [(event, type)]]> (sp_queues b)) gen (sp_calls b), MDV_OK)
  else (mk_bus (sp_subs b) i (sp_queues b) gen (sp_calls b), MDV_FAILED).

Definition spec_count (b : bus) (type : Z) (f : Z -> Z) : list Z := alter (fun n => u64 (f n)) (Z.to_nat type) (sp_gen b).

Definition spec_publish (b : bus) (event : nat) (type flags : Z) : bus * mdv_errno :=
  if (Z.of_nat (length (sp_gen b)) <=? type)%Z then (b, MDV_FAILED) else
  if negb (Z.land flags MDV_EVT_SYNC =? 0)%Z then
    (mk_bus (sp_subs b) (sp_idx b) (sp_queues b) (sp_gen b) (spec_calls b event type), spec_call event (sp_subs b type)) else
  if negb (Z.land flags MDV_EVT_UNIQUE =? 0)%Z then
    if decide (sp_gen b !! Z.to_nat type = Some 0%Z) then spec_enqueue b (spec_count b type (fun _ => 1%Z)) event type else (b, MDV_EEXIST)
  else spec_enqueue b (spec_count b type (fun n => (n + 1)%Z)) event type.

Definition spec_step (b : bus) (o : bus_op) : bus * mdv_errno :=
  match o with
  | Op_subscribe t arg handler =>
      (mk_bus (fun t' => if decide (t = t') then add_subscriber (mk_subscriber arg handler) (sp_subs b t) else sp_subs b t')
         (sp_idx b) (sp_queues b) (sp_gen b) (sp_calls b), MDV_OK)
  | Op_unsubscribe t arg handler =>
      (mk_bus (fun t' => if decide (t = t') then remove_subscriber (mk_subscriber arg handler) (sp_subs b t) else sp_subs b t')
         (sp_idx b) (sp_queues b) (sp_gen b) (sp_calls b), MDV_OK)
  | Op_publish type flags => spec_publish b (base.fresh (list_to_set (concat (sp_queues b)).*1 : gset nat)) type flags
  | Op_handle i =>
      match sp_queues b !! i with
      | Some ((event, type) :: q) =>
          (mk_bus (sp_subs b) (sp_idx b) (<[i := q]> (sp_queues b)) (spec_count b type (fun n => (n - 1)%Z)) (spec_calls b event type), MDV_OK)
      | _ => (b, MDV_OK)
      end
  end.

Fixpoint spec_run (b : bus) (ops : list bus_op) : bus * list mdv_errno :=
  match ops with [] => (b, []) | o :: ops => let '(b, err) := spec_step b o in let '(b, errs) := spec_run b ops in (b, err :: errs) end.

Definition op_ok (queues : nat) (o : bus_op) : Prop :=
  match o with
  | Op_subscribe t _ _ | Op_unsubscribe t _ _ | Op_publish t _ => fits 32 t
  | Op_handle i => i < queues
  end.

(** A queue and the events in it. *)
Record queue_ok (q : mdv_queuefd nat) (l : list (nat * Z)) : Prop := {
  qo_wf : Queue.wf (qf_queue q);
  qo_cap : q_capacity (qf_queue q) = 255;
  qo_size : q_item_size (qf_queue q) = 8;
  qo_items : contents (qf_queue q) = l.*1;
  qo_count : qf_count q = Z.of_nat (length l)
}.

(** The heap of the events of some queues. *)
Definition heap (l : list (nat * Z)) : gmap nat mdv_event := list_to_map ((fun e => (e.1, mk_event e.2 1)) <$> l).

(** The bus has the lists of the specification; the heap of events has the queued
    events, each with the reference of its queue. *)
Record agrees (n : Z) (s : mdv_ebus) (b : bus) : Prop := {
  ag_bus : bus_ok s;
  ag_subs : forall t, fits 32 t -> subs s t = sp_subs b t;
  ag_len : forall t, (Z.of_nat (length (sp_subs b t)) <= n)%Z;
  ag_idx : eb_idx s = sp_idx b;
  ag_gen : eb_events_gen s = sp_gen b;
  ag_count : eb_events_count s = Z.of_nat (length (sp_gen b));
  ag_calls : eb_calls s = sp_calls b;
  ag_queues : Forall2 queue_ok (eb_queues s) (sp_queues b);
  ag_some : 0 < length (sp_queues b);
  ag_types : Forall (fun e => fits 32 e.2 /\ Z.to_nat e.2 < length (sp_gen b)) (concat (sp_queues b));
  ag_nodup : NoDup (concat (sp_queues b)).*1;
  ag_events : eb_events s = heap (concat (sp_queues b))
}.

Lemma concat_at {T} (qs : list (list T)) i q q' : qs !! i = Some q -> concat (<[i := q']> qs) ≡ₚ q' ++ concat (delete i qs).
Proof.
  intros Hq. assert (Hi : i < length qs) by (by eapply lookup_lt_Some). rewrite insert_take_drop, delete_take_drop, !concat_app by done. cbn [concat].
  by rewrite Permutation_app_swap_app.
Qed.

Lemma concat_same {T} (qs : list (list T)) i q : qs !! i = Some q -> concat qs ≡ₚ q ++ concat (delete i qs).
Proof. intros Hq. rewrite <- (list_insert_id qs i q Hq) at 1. by apply (concat_at qs i q). Qed.

Lemma alter_at {T} (f : T -> T) (l : list T) i x : l !! i = Some x -> alter f i l = <[i := f x]> l.
Proof. revert i. induction l as [|y l IH]; intros [|i] Hx; cbn in *; try done; [by injection Hx as ->|]. f_equal. by apply IH. Qed.

Lemma heap_keys l : ((fun e : nat * Z => (e.1, mk_event e.2 1)) <$> l).*1 = l.*1.
Proof. by rewrite <- list_fmap_compose. Qed.

Lemma heap_perm l l' : NoDup l.*1 -> l ≡ₚ l' -> heap l = heap l'.
Proof. intros Hn Hp. apply list_to_map_proper; [by rewrite heap_keys|by rewrite Hp]. Qed.

Lemma heap_dom l : dom (heap l) = list_to_set l.*1.
Proof. unfold heap. rewrite dom_list_to_map_L. by rewrite heap_keys. Qed.

Lemma heap_none l e : e ∉ l.*1 -> heap l !! e = None.
Proof. intros He. apply not_elem_of_dom. rewrite heap_dom. by rewrite elem_of_list_to_set. Qed.

Lemma push_queue q l event type : queue_ok q l ->
  exists q', mdv_queuefd_push true true q event = (q', length l <? 255) /\ queue_ok q' (if length l <? 255 then l ++ [(event, type)] else l) /\ (255 <= length l -> q' = q).
Proof.
  intros [Hw Hc Hs Hi Hn]. unfold mdv_queuefd_push. cbn [negb]. pose proof (push_one_refines _ event 8 Hw) as Hp. pose proof (exec_frame (qf_queue q) (Push1 event 8)) as Hf. cbn [Queue.exec] in Hf.
  destruct (mdv_queue_push_one (qf_queue q) event 8) as [ok ring]. cbn [snd] in Hf. destruct Hp as [Hw' Hp]. cbn [fifo_exec] in Hp. rewrite Hc, Hs, Hi, length_fmap in Hp. change (8 =? 8) with true in Hp. cbn [andb] in Hp.
  destruct (Nat.ltb_spec (length l) 255) as [Hl|Hl]; injection Hp as <- Hr; cbn [negb].
  - eexists. split; [done|]. split; [|lia]. split; cbn [qf_queue qf_count]; [done| | |by rewrite <- Hr, fmap_app|rewrite Hn, length_app; cbn; lia].
    + by rewrite (proj1 Hf).
    + by rewrite (proj2 Hf).
  - eexists. by split_and!.
Qed.

Lemma pop_queue q l : queue_ok q l ->
  exists q', mdv_queuefd_pop true true q = (q', head l.*1) /\ queue_ok q' (tail l).
Proof.
  intros [Hw Hc Hs Hi Hn]. unfold mdv_queuefd_pop. cbn [negb orb]. destruct l as [|[e t] l]; rewrite Hn; cbn [length].
  { exists q. split; [done|]. by split. }
  destruct (Z.leb_spec (Z.of_nat (S (length l))) 0) as [?|_]; [lia|]. pose proof (pop_one_refines _ 8 Hw) as Hp. pose proof (exec_frame (qf_queue q) (Pop1 8)) as Hf. cbn [Queue.exec] in Hf.
  destruct (mdv_queue_pop_one (qf_queue q) 8) as [x ring]. cbn [snd] in Hf. destruct Hp as [Hw' Hp]. cbn [fifo_exec] in Hp. rewrite Hs, Hi in Hp. change (8 =? 8) with true in Hp. cbn in Hp.
  injection Hp as <- Hr. eexists. split; [done|]. split; cbn [qf_queue qf_count tail]; [done| | |done|rewrite ?Hn; lia].
  - by rewrite (proj1 Hf).
  - by rewrite (proj2 Hf).
Qed.

Context (mem : nat -> bool) (Hmem : granted mem).

Lemma set_queues_same s : set_queues s (eb_queues s) = s.
Proof. by destruct s. Qed.

Lemma attempts_full n i e q l s (Q : bool -> mdv_ebus -> Prop) :
  eb_queues s !! i = Some q -> queue_ok q l -> 255 <= length l -> Q false s -> wp mem (push_attempts n i e) s Q.
Proof.
  intros Hq Hok Hl HQ. induction n as [|n IH]; cbn [push_attempts]; wp_steps; [done|]. eapply wp_lift; [by rewrite Hq|]. rewrite (Hb Hmem), (Hb0 Hmem).
  destruct (push_queue q l e 0 Hok) as (q' & -> & _ & Hsame). rewrite (Hsame Hl), (proj2 (Nat.ltb_ge _ _) Hl). wp_steps. by rewrite list_insert_id, set_queues_same.
Qed.

Lemma attempts_room n i e t q l s (Q : bool -> mdv_ebus -> Prop) :
  eb_queues s !! i = Some q -> queue_ok q l -> length l < 255 ->
  (forall q', queue_ok q' (l ++ [(e, t)]) -> Q true (set_queues s (<[i := q']> (eb_queues s)))) -> wp mem (push_attempts (S n) i e) s Q.
Proof.
  intros Hq Hok Hl HQ. cbn [push_attempts]; wp_steps. eapply wp_lift; [by rewrite Hq|]. rewrite (Hb Hmem), (Hb0 Hmem).
  destruct (push_queue q l e t Hok) as (q' & -> & Hq' & _). rewrite (proj2 (Nat.ltb_lt _ _) Hl) in *. wp_steps. by apply HQ.
Qed.

Lemma event_release_wp s e t rc (Q : Z -> mdv_ebus -> Prop) :
  eb_events s !! e = Some (mk_event t rc) ->
  (let '(rc, refs, dead) := rc_release rc in Q refs (set_events s (if (dead : bool) then delete e (eb_events s) else <[e := mk_event t rc]> (eb_events s)))) ->
  wp mem (mdv_event_release e) s Q.
Proof.
  intros He HQ. unfold mdv_event_release, event_at. wp_steps. eapply wp_lift; [by rewrite He|]. wp_steps. cbn [ev_rc ev_type]. destruct (rc_release rc) as [[rc' refs] dead]. wp_steps. exact HQ.
Qed.

Lemma enqueue_wp s e t l qs (Q : mdv_errno -> mdv_ebus -> Prop) :
  let i := (eb_idx s + 1) mod length qs in
  eb_events s !! e = Some (mk_event t 1) -> Forall2 queue_ok (eb_queues s) qs -> qs !! i = Some l ->
  (length l < 255 -> forall q', queue_ok q' (l ++ [(e, t)]) ->
     Q MDV_OK (set_queues (set_events (set_idx s i) (<[e := mk_event t 2]> (eb_events s))) (<[i := q']> (eb_queues s)))) ->
  (255 <= length l -> Q MDV_FAILED (set_idx s i)) ->
  wp mem (enqueue e) s Q.
Proof.
  cbn zeta. intros He Hqs Hl Hroom Hfull. unfold enqueue. wp_steps. rewrite (Forall2_length _ _ _ Hqs). set (i := (eb_idx s + 1) mod length qs) in *.
  unfold mdv_event_retain, event_at. wp_steps. eapply wp_lift; [cbn [eb_events set_idx]; by rewrite He|]. wp_steps. cbn [ev_type ev_rc eb_events set_idx]. change (rc_retain 1) with 2%Z.
  destruct (Forall2_lookup_r _ _ _ _ _ Hqs Hl) as (q & Hq & Hok). destruct (le_lt_dec 255 (length l)) as [Hlen|Hlen].
  - eapply attempts_full; [exact Hq|exact Hok|done|]. wp_step. eapply event_release_wp; [cbn [eb_events set_events]; by rewrite lookup_insert_eq|]. change (rc_release 2) with (1, 1, false)%Z.
    cbn [eb_events set_events]. rewrite insert_insert_eq, (insert_id (eb_events s) e (mk_event t 1)) by done. wp_steps. specialize (Hfull Hlen). by destruct s.
  - eapply attempts_room; [exact Hq|exact Hok|done|]. intros q' Hq'. wp_steps. exact (Hroom Hlen q' Hq').
Qed.

Lemma bus_frame s s' : eb_handlers s' = eb_handlers s -> eb_vectors s' = eb_vectors s -> bus_ok s -> bus_ok s' /\ forall t, subs s' t = subs s t.
Proof.
  intros Eh Ev [H1 H2 H3]. assert (Ee : forall t, entry s' t = entry s t) by (intros t; unfold entry; by rewrite Eh). split; [split|].
  - by rewrite Eh.
  - intros t h. rewrite Ee, Ev. apply H2.
  - intros t t' h h'. rewrite !Ee. apply H3.
  - intros t. unfold subs. by rewrite Ee, Ev.
Qed.

Lemma updated_spec s s' t l (f : Z -> list mdv_ebus_subscriber) :
  fits 32 t -> updated s s' t l -> (forall t', fits 32 t' -> subs s t' = f t') -> forall t', fits 32 t' -> subs s' t' = if decide (t = t') then l else f t'.
Proof.
  intros Ht Hu Hf t' Ht'. rewrite (Hu t'). pose proof (type_keq t t' Ht Ht') as Hk. change (keq t t') with (key_cmp_fn t t' = 0%Z) in Hk.
  destruct (Z.eqb_spec (key_cmp_fn t t') 0) as [E|E], (decide (t = t')) as [E'|E']; tauto || by apply Hf.
Qed.

(** A change of the subscriptions alone. *)
Lemma agrees_subs n s s' b f :
  agrees n s b -> bus_ok s' -> rest s' = rest s -> (forall t, fits 32 t -> subs s' t = f t) -> (forall t, (Z.of_nat (length (f t)) <= n + 1)%Z) ->
  agrees (n + 1) s' (mk_bus f (sp_idx b) (sp_queues b) (sp_gen b) (sp_calls b)).
Proof. intros Ha Hok Hr Hs Hl. unfold rest in Hr. injection Hr as E1 E2 E3 E4 E5 E6 E7. destruct Ha. split; cbn; rewrite ?E2, ?E3, ?E4, ?E5, ?E6, ?E7; done. Qed.

Lemma subscribe_step n s b t arg handler (Q : mdv_errno -> mdv_ebus -> Prop) :
  agrees n s b -> fits 32 t -> (n < 2 ^ 32)%Z ->
  (forall s', agrees (n + 1) s' (spec_step b (Op_subscribe t arg handler)).1 -> Q MDV_OK s') -> wp mem (exec (Op_subscribe t arg handler)) s Q.
Proof.
  intros Ha Ht Hn HQ. cbn [exec]. unfold mdv_ebus_subscribe. wp_steps. rewrite (Hb Hmem). cbn [negb]. pose proof (ag_subs _ _ _ Ha t Ht) as Es. pose proof (ag_len _ _ _ Ha) as Hl.
  apply subscribe_unsafe_wp; [apply Ha|rewrite Es; specialize (Hl t); lia|]. intros err s' Hok Hr _ Hg Hu. rewrite (Hg Hmem) in *. rewrite decide_True in Hu by done. apply HQ. cbn [spec_step fst].
  apply (agrees_subs n s); try done.
  - rewrite <- Es. apply (updated_spec s); [done|done|apply Ha].
  - intros t'. case_decide; [|specialize (Hl t'); lia]. unfold add_subscriber. specialize (Hl t). case_decide; [lia|]. rewrite length_app. cbn. lia.
Qed.

Lemma unsubscribe_step n s b t arg handler (Q : mdv_errno -> mdv_ebus -> Prop) :
  agrees n s b -> fits 32 t -> (n < 2 ^ 32)%Z ->
  (forall s', agrees (n + 1) s' (spec_step b (Op_unsubscribe t arg handler)).1 -> Q MDV_OK s') -> wp mem (exec (Op_unsubscribe t arg handler)) s Q.
Proof.
  intros Ha Ht Hn HQ. cbn [exec]. wp_step. pose proof (ag_subs _ _ _ Ha t Ht) as Es. pose proof (ag_len _ _ _ Ha) as Hl.
  apply unsubscribe_wp; [apply Ha|rewrite Es; specialize (Hl t); lia|]. intros s' Hok Hr [Hu|[Hng _]]; [|done]. wp_steps. apply HQ. cbn [spec_step fst]. apply (agrees_subs n s); try done.
  - rewrite <- Es. apply (updated_spec s); [done|done|apply Ha].
  - intros t'. case_decide; [|specialize (Hl t'); lia]. specialize (Hl t). pose proof (length_filter (.≠ mk_subscriber arg handler) (sp_subs b t)). unfold remove_subscriber. lia.
Qed.

Lemma agrees_weaken n n' s b : agrees n s b -> (n <= n')%Z -> agrees n' s b.
Proof. intros [] Hn. split; try done. intros t. specialize (ag_len0 t). lia. Qed.

(** The event of a queue is taken off. *)
Lemma handle_step n s b i (Q : mdv_errno -> mdv_ebus -> Prop) :
  agrees n s b -> i < length (sp_queues b) ->
  (forall s', agrees n s' (spec_step b (Op_handle i)).1 -> Q MDV_OK s') -> wp mem (exec (Op_handle i)) s Q.
Proof.
  intros Ha Hi HQ. cbn [exec]. unfold mdv_ebus_evt_handler. cbn [negb]. destruct (lookup_lt_is_Some_2 _ _ Hi) as [l Hl]. destruct (Forall2_lookup_r _ _ _ _ _ (ag_queues _ _ _ Ha) Hl) as (q & Hq & Hok).
  wp_steps. eapply wp_lift; [by rewrite Hq|]. rewrite (Hb Hmem), (Hb0 Hmem). destruct (pop_queue q l Hok) as (q' & E & Hok'). rewrite E. wp_steps. cbn [spec_step] in HQ. rewrite Hl in HQ.
  destruct l as [|[e t] l]; cbn [fmap list_fmap head tail fst] in *.
  { wp_steps. apply HQ. destruct Ha. pose proof (bus_frame s (set_queues s (<[i:=q']> (eb_queues s))) eq_refl eq_refl ag_bus0) as [Hb1 Hs1]. split; cbn; try done.
    rewrite <- (list_insert_id _ _ _ Hl). by apply Forall2_insert. }
  pose proof (concat_same _ _ _ Hl) as Hp. pose proof (concat_at _ _ _ l Hl) as Hp'. assert (Hp2 : concat (sp_queues b) ≡ₚ (e, t) :: concat (<[i:=l]> (sp_queues b))) by (rewrite Hp, Hp'; done).
  pose proof (ag_nodup _ _ _ Ha) as Hn. assert (Hh : eb_events s = <[e := mk_event t 1]> (heap (concat (<[i:=l]> (sp_queues b))))) by (rewrite (ag_events _ _ _ Ha); by rewrite (heap_perm _ _ Hn Hp2)).
  pose proof (ag_types _ _ _ Ha) as Hty. rewrite Hp2 in Hn, Hty. apply NoDup_cons in Hn as [Hn1 Hn2]. apply Forall_cons in Hty as [[Ht1 Ht2] Hty].
  unfold event_at. wp_steps. eapply wp_lift; [cbn [eb_events set_queues]; by rewrite Hh, lookup_insert_eq|]. cbn [ev_type]. unfold count_events. wp_steps.
  assert (Hg : exists g, sp_gen b !! Z.to_nat t = Some g) by (by apply lookup_lt_is_Some_2). destruct Hg as [g Hg].
  eapply wp_lift; [cbn [eb_events_gen set_queues]; by rewrite (ag_gen _ _ _ Ha), Hg|]. wp_steps.
  set (s1 := set_gen _ _). pose proof (bus_frame s s1 eq_refl eq_refl (ag_bus _ _ _ Ha)) as [Hb1 Hs1].
  apply (process_wp answer mem e (mk_event t 1)); [done|done|cbn; by rewrite Hh, lookup_insert_eq|]. wp_step. eapply event_release_wp; [cbn; by rewrite Hh, lookup_insert_eq|]. change (rc_release 1) with (0, 0, true)%Z. cbn iota. wp_steps.
  apply HQ. cbn [fst ev_type]. set (s2 := set_events _ _). pose proof (bus_frame s s2 eq_refl eq_refl (ag_bus _ _ _ Ha)) as [Hb2 Hs2]. destruct Ha. split; try done.
  - cbn. unfold spec_count. rewrite ag_gen0. symmetry. by apply (alter_at (fun n => u64 (n - 1))).
  - cbn. unfold spec_count. by rewrite length_alter.
  - cbn. unfold spec_calls. by rewrite ag_calls0, Hs1, ag_subs0.
  - by apply Forall2_insert.
  - cbn. by rewrite length_insert.
  - cbn. unfold spec_count. by rewrite length_alter.
  - cbn. rewrite Hh. rewrite delete_insert_id; [done|]. by apply heap_none.
Qed.

(** The publisher gives its reference up; the event goes, or stays in a queue. *)
Lemma published_freed n s b e t s' calls gen i err (Q : mdv_errno -> mdv_ebus -> Prop) :
  agrees n s b -> e ∉ (concat (sp_queues b)).*1 -> eb_events s' = <[e := mk_event t 1]> (eb_events s) ->
  eb_handlers s' = eb_handlers s -> eb_vectors s' = eb_vectors s -> eb_events_count s' = eb_events_count s -> eb_queues s' = eb_queues s ->
  eb_idx s' = i -> eb_calls s' = calls -> eb_events_gen s' = gen -> length gen = length (sp_gen b) ->
  (forall s'', agrees n s'' (mk_bus (sp_subs b) i (sp_queues b) gen calls) -> Q err s'') ->
  wp mem (mdv_event_release e;; mret err) s' Q.
Proof.
  intros Ha He Eev Eh Ev Ec Eq <- <- <- Hlen HQ. wp_step. eapply event_release_wp; [by rewrite Eev, lookup_insert_eq|]. change (rc_release 1) with (0, 0, true)%Z. cbn iota. wp_steps. apply HQ.
  destruct Ha. pose proof (bus_frame s (set_events s' (delete e (eb_events s'))) Eh Ev ag_bus0) as [Hb2 Hs2]. split; cbn [sp_subs sp_idx sp_queues sp_gen sp_calls]; try done; cbn; rewrite ?Eq, ?Ec, ?Hlen; try done.
  - intros t' Ht'. rewrite Hs2. by apply ag_subs0.
  - rewrite Eev, ag_events0. apply delete_insert_id. by apply heap_none.
Qed.

Lemma published_queued n s b e t s1 gen (Q : mdv_errno -> mdv_ebus -> Prop) :
  agrees n s b -> fits 32 t -> Z.to_nat t < length (sp_gen b) -> e ∉ (concat (sp_queues b)).*1 ->
  s1 = set_gen (set_events s (<[e := mk_event t 1]> (eb_events s))) gen -> length gen = length (sp_gen b) ->
  (forall s', agrees n s' (spec_enqueue b gen e t).1 -> Q (spec_enqueue b gen e t).2 s') ->
  wp mem (enqueue e) s1 (fun err s' => wp mem (mdv_event_release e;; mret err) s' Q).
Proof.
  intros Ha Ht Hlt He -> Hlen HQ. unfold spec_enqueue in HQ. pose proof (ag_some _ _ _ Ha) as Hsome.
  assert (Hi : (sp_idx b + 1) mod length (sp_queues b) < length (sp_queues b)) by (apply Nat.mod_upper_bound; lia). destruct (lookup_lt_is_Some_2 _ _ Hi) as [l Hl]. rewrite Hl in HQ. change (default [] (Some l)) with l in HQ. cbn zeta in HQ.
  apply (enqueue_wp _ e t l (sp_queues b)); cbn [eb_events eb_idx eb_queues set_gen set_events]; rewrite ?(ag_idx _ _ _ Ha); [by rewrite lookup_insert_eq|apply Ha|done|..]; set (i := (sp_idx b + 1) mod length (sp_queues b)) in *.
  - intros Hroom q' Hq'. rewrite (proj2 (Nat.ltb_lt _ _) Hroom) in HQ. wp_step. eapply event_release_wp; [cbn; by rewrite lookup_insert_eq|]. change (rc_release 2) with (1, 1, false)%Z. cbn iota. wp_steps. apply HQ. cbn [fst].
    set (s2 := set_events _ _). pose proof (bus_frame s s2 eq_refl eq_refl (ag_bus _ _ _ Ha)) as [Hb2 Hs2].
    assert (Hp : concat (<[i := l ++ [(e, t)]]> (sp_queues b)) ≡ₚ (e, t) :: concat (sp_queues b)) by (rewrite (concat_at _ _ _ _ Hl), (concat_same _ _ _ Hl); solve_Permutation).
    assert (Hnd : NoDup (concat (<[i := l ++ [(e, t)]]> (sp_queues b))).*1) by (rewrite Hp; cbn; apply NoDup_cons; split; [done|apply Ha]).
    destruct Ha. split; try done.
    + cbn. by rewrite Hlen.
    + by apply Forall2_insert.
    + cbn. by rewrite length_insert.
    + cbn [sp_queues sp_gen]. rewrite Hp, Hlen. by constructor.
    + cbn [s2 eb_events set_events sp_queues]. rewrite (heap_perm _ _ Hnd Hp). cbn. by rewrite !insert_insert_eq, ag_events0.
  - intros Hfull. rewrite (proj2 (Nat.ltb_ge _ _) Hfull) in HQ. eapply (published_freed n s b e t _ (sp_calls b) gen i); try done. apply Ha.
Qed.

Lemma publish_step n s b t flags (Q : mdv_errno -> mdv_ebus -> Prop) :
  agrees n s b -> fits 32 t ->
  (forall s', agrees n s' (spec_step b (Op_publish t flags)).1 -> Q (spec_step b (Op_publish t flags)).2 s') -> wp mem (exec (Op_publish t flags)) s Q.
Proof.
  intros Ha Ht HQ. cbn [exec]. wp_steps. rewrite (Hb Hmem). unfold mdv_event_create. cbn [negb]. wp_steps. cbn [spec_step] in HQ.
  assert (Ed : dom (eb_events s) = (list_to_set (concat (sp_queues b)).*1 : gset nat)) by (by rewrite (ag_events _ _ _ Ha), heap_dom). rewrite Ed.
  pose proof (is_fresh (list_to_set (concat (sp_queues b)).*1 : gset nat)) as He. set (e := base.fresh _) in *. rewrite elem_of_list_to_set in He. clearbody e.
  set (s1 := set_events s _). assert (Hfree : forall err, (forall s', agrees n s' b -> Q err s') -> wp mem (mdv_event_release e;; mret err) s1 Q).
  { intros err HQ'. apply (published_freed n s b e t s1 (sp_calls b) (sp_gen b) (sp_idx b)); try done; [apply Ha..|]. by destruct b. }
  assert (E1 : eb_events s1 !! e = Some (mk_event t 1)) by (cbn; by rewrite lookup_insert_eq).
  unfold mdv_ebus_publish, event_at. wp_steps. eapply wp_lift; [by rewrite E1|]. wp_steps. cbn [ev_type]. change (eb_events_count s1) with (eb_events_count s). rewrite (ag_count _ _ _ Ha). unfold spec_publish in HQ.
  destruct (Z.leb_spec (Z.of_nat (length (sp_gen b))) t) as [Hbig|Hlt]. { wp_step. apply (Hfree MDV_FAILED). exact HQ. }
  assert (Hty : Z.to_nat t < length (sp_gen b)) by (unfold fits in Ht; lia). destruct (lookup_lt_is_Some_2 _ _ Hty) as [g Hg]. destruct (negb (Z.land flags MDV_EVT_SYNC =? 0)%Z).
  { destruct (bus_frame s s1 eq_refl eq_refl (ag_bus _ _ _ Ha)) as [Hb1 Hs1]. apply (process_wp answer mem e (mk_event t 1)); [done|done|done|]. cbn [ev_type]. rewrite Hs1, (ag_subs _ _ _ Ha t Ht). cbn [fst snd] in HQ.
    apply (published_freed n s b e t _ (spec_calls b e t) (sp_gen b) (sp_idx b)); try done; [apply Ha| |apply Ha]. cbn. by rewrite (ag_calls _ _ _ Ha). }
  assert (Hq : forall f, (forall s', agrees n s' (spec_enqueue b (spec_count b t f) e t).1 -> Q (spec_enqueue b (spec_count b t f) e t).2 s') ->
             wp mem (count_events t f;; enqueue e) s1 (fun err s' => wp mem (mdv_event_release e;; mret err) s' Q)).
  { intros f HQ'. unfold count_events. wp_steps. eapply wp_lift; [cbn [eb_events_gen s1 set_events]; by rewrite (ag_gen _ _ _ Ha), Hg|]. wp_step.
    apply (published_queued n s b e t _ (spec_count b t f) Q Ha Ht Hty He); [|by apply length_alter|done]. cbn [s1 eb_events_gen set_events]. rewrite (ag_gen _ _ _ Ha).
    unfold spec_count. by rewrite (alter_at (fun n => u64 (f n)) (sp_gen b) (Z.to_nat t) g Hg). }
  destruct (negb (Z.land flags MDV_EVT_UNIQUE =? 0)%Z); [|by apply Hq].
  wp_step. eapply wp_lift; [cbn [eb_events_gen s1 set_events]; by rewrite (ag_gen _ _ _ Ha), Hg|]. rewrite Hg in HQ. destruct (Z.eqb_spec g 0) as [->|Hne].
  - rewrite decide_True in HQ by done. by apply Hq.
  - rewrite decide_False in HQ by congruence. wp_step. apply Hfree. exact HQ.
Qed.

Lemma step_wp n s b o (Q : mdv_errno -> mdv_ebus -> Prop) :
  agrees n s b -> op_ok (length (sp_queues b)) o -> (n < 2 ^ 32)%Z ->
  (forall s', agrees (n + 1) s' (spec_step b o).1 -> Q (spec_step b o).2 s') -> wp mem (exec o) s Q.
Proof.
  intros Ha Ho Hn HQ. destruct o as [t arg handler|t arg handler|t flags|i].
  - by apply (subscribe_step n s b).
  - by apply (unsubscribe_step n s b).
  - apply (publish_step n s b); [done|done|]. intros s' Ha'. apply HQ. apply (agrees_weaken n); [done|lia].
  - apply (handle_step n s b); [done|done|]. intros s' Ha'. replace MDV_OK with (spec_step b (Op_handle i)).2; [|cbn; by repeat case_match].
    apply HQ. apply (agrees_weaken n); [done|lia].
Qed.

Lemma spec_step_queues b o : length (sp_queues (spec_step b o).1) = length (sp_queues b).
Proof. destruct o; cbn; unfold spec_publish, spec_enqueue; repeat case_match; cbn; by rewrite ?length_insert. Qed.

Lemma run_wp ops : forall n s b (Q : list mdv_errno -> mdv_ebus -> Prop),
  agrees n s b -> Forall (op_ok (length (sp_queues b))) ops -> (n + Z.of_nat (length ops) < 2 ^ 32)%Z ->
  (forall s', agrees (n + Z.of_nat (length ops)) s' (spec_run b ops).1 -> Q (spec_run b ops).2 s') -> wp mem (exec_all ops) s Q.
Proof.
  induction ops as [|o ops IH]; intros n s b Q Ha Hops Hn HQ; cbn [exec_all].
  - wp_steps. apply HQ. cbn. by rewrite Z.add_0_r.
  - apply Forall_cons in Hops as [Ho Hops]. cbn [length] in *. wp_step. apply (step_wp n s b); [done|done|lia|]. intros s1 Ha1. wp_step. cbn [spec_run] in HQ. pose proof (spec_step_queues b o) as Eq.
    destruct (spec_step b o) as [b1 err]. cbn [fst snd] in *. apply (IH (n + 1)%Z s1 b1); [done|by rewrite Eq|lia|]. intros s2 Ha2. wp_steps. destruct (spec_run b1 ops) as [b2 errs]. cbn [fst snd] in *. apply HQ.
    replace (n + Z.of_nat (S (length ops)))%Z with (n + 1 + Z.of_nat (length ops))%Z by lia. exact Ha2.
Qed.

(** ** A new bus *)

Definition no_events (queues : nat) (max_id : Z) : bus := mk_bus (fun _ => []) 0 (replicate queues []) (replicate (Z.to_nat (max_id + 1)) 0%Z) [].

Lemma init_queues_wp n : forall i room (Q : option (list (mdv_queuefd nat)) -> unit -> Prop),
  i + n <= room -> (forall qs, Forall2 queue_ok qs (replicate n []) -> Q (Some qs) tt) -> wp mem (init_queues n i room) tt Q.
Proof.
  induction n as [|n IH]; intros i room Q Hi HQ; cbn [init_queues].
  - wp_steps. apply HQ. constructor.
  - destruct (Nat.leb_spec room i) as [?|_]; [lia|]. wp_steps. rewrite (Hb0 Hmem), (Hb1 Hmem), (Hb2 Hmem). cbn [negb orb]. unfold mdv_queuefd_init. cbn [negb]. wp_steps. rewrite (Hb3 Hmem). cbn [negb]. wp_step.
    apply IH; [lia|]. intros qs Hqs. wp_steps. apply HQ. cbn [replicate]. constructor; [|done]. split; try done. split; cbn; lia || done.
Qed.

Lemma create_wp queues max_id (Q : mdv_ebus + list (eb_release_fn * list eb_resource) -> unit -> Prop) :
  0 < queues -> fits 32 (max_id + 1) -> (forall s, agrees 0 s (no_events queues max_id) -> (forall t, subs s t = []) -> Q (inl s) tt) -> wp mem (mdv_ebus_create queues max_id) tt Q.
Proof.
  intros Hq Hid HQ. unfold mdv_ebus_create. wp_steps. rewrite (Hb0 Hmem). cbn [negb]. wp_steps. rewrite (Hb1 Hmem). cbn [negb]. wp_steps. rewrite (Hb2 Hmem), (Hb3 Hmem).
  destruct (Nat.eqb_spec queues 0) as [?|_]; [lia|]. destruct (ready_create eh_type queues 0 4 16 Hq ltac:(lia)) as (hm & -> & Hr & Hl & _). cbn zeta. wp_steps. rewrite (Hb4 Hmem). cbn [negb]. wp_step.
  apply init_queues_wp; [lia|]. intros qs Hqs. wp_steps. rewrite (wrap_id 32) by done.
  assert (Hno : forall m, concat (replicate m []) = ([] : list (nat * Z))) by (by induction m).
  assert (Hnone : forall x t, entry (mk_ebus 1 x hm 0 qs (replicate (Z.to_nat (max_id + 1)) 0%Z) ∅ ∅ []) t = None) by (intros x t; apply Hl).
  apply HQ; [|by intros t; unfold subs; rewrite Hnone].
  split; cbn; rewrite ?Hno, ?length_replicate; try done; [|by intros t _; unfold subs; rewrite Hnone|unfold fits in Hid; lia|constructor..].
  split; [done|..]; intros *; rewrite !Hnone; done.
Qed.

(** ** The counters of the types *)

Definition queued (b : bus) (t : Z) : nat := length (filter (fun e => e.2 = t) (concat (sp_queues b))).
Definition counted (b : bus) (t : Z) : Z := default 0%Z (sp_gen b !! Z.to_nat t).
Definition types_ok (b : bus) : Prop := Forall (fun e => fits 32 e.2) (concat (sp_queues b)).

Lemma counted_alter b t t' f idx qs calls subs' :
  fits 32 t -> fits 32 t' -> Z.to_nat t < length (sp_gen b) ->
  counted (mk_bus subs' idx qs (spec_count b t' f) calls) t = if decide (t = t') then u64 (f (counted b t)) else counted b t.
Proof.
  intros Ht Ht' Hlt. unfold counted, spec_count. cbn [sp_gen]. destruct (lookup_lt_is_Some_2 _ _ Hlt) as [g Hg]. case_decide as E.
  - subst. rewrite list_lookup_alter_eq, Hg. done.
  - rewrite list_lookup_alter_ne; [done|]. unfold fits in *. lia.
Qed.

(** An event more, or an event less. *)
Lemma queued_insert b subs' idx gen calls i l e t' t :
  sp_queues b !! i = Some l -> queued (mk_bus subs' idx (<[i := l ++ [(e, t')]]> (sp_queues b)) gen calls) t = queued b t + if decide (t = t') then 1 else 0.
Proof.
  intros Hl. unfold queued. cbn [sp_queues]. assert (Hp : concat (<[i := l ++ [(e, t')]]> (sp_queues b)) ≡ₚ (e, t') :: concat (sp_queues b)) by (rewrite (concat_at _ _ _ _ Hl), (concat_same _ _ _ Hl); solve_Permutation).
  rewrite Hp, filter_cons. cbn [snd]. repeat case_decide; cbn; try lia; congruence.
Qed.

Lemma queued_tail b subs' idx gen calls i l e t' t :
  sp_queues b !! i = Some ((e, t') :: l) -> queued b t = queued (mk_bus subs' idx (<[i := l]> (sp_queues b)) gen calls) t + if decide (t = t') then 1 else 0.
Proof.
  intros Hl. unfold queued. cbn [sp_queues]. assert (Hp : concat (sp_queues b) ≡ₚ (e, t') :: concat (<[i := l]> (sp_queues b))) by (rewrite (concat_at _ _ _ _ Hl), (concat_same _ _ _ Hl); done).
  rewrite Hp, filter_cons. cbn [snd]. repeat case_decide; cbn; try lia; congruence.
Qed.

(** More is counted than is queued, and nothing counts it down. *)
Definition stuck (k : Z) (b : bus) (t : Z) : Prop :=
  types_ok b /\ Z.to_nat t < length (sp_gen b) /\ (Z.of_nat (queued b t) < counted b t <= k)%Z.

Lemma stuck_enqueue k b t t' e : fits 32 t -> fits 32 t' -> (k + 1 < 2 ^ 64)%Z -> 0 < length (sp_queues b) -> stuck k b t ->
  forall f, (t = t' -> f (counted b t) = (counted b t + 1)%Z) -> stuck (k + 1) (spec_enqueue b (spec_count b t' f) e t').1 t.
Proof.
  intros Ht Ht' Hk Hq (Hty & Hlt & Hc) f Hf. unfold spec_enqueue. assert (Hi : (sp_idx b + 1) mod length (sp_queues b) < length (sp_queues b)) by (apply Nat.mod_upper_bound; lia).
  destruct (lookup_lt_is_Some_2 _ _ Hi) as [l Hl]. rewrite Hl. change (default [] (Some l)) with l. set (i := (sp_idx b + 1) mod length (sp_queues b)) in *.
  assert (Hu : t = t' -> u64 (f (counted b t)) = (counted b t + 1)%Z) by (intros E; rewrite Hf by done; apply wrap_id; unfold fits; lia).
  destruct (length l <? 255); cbn [fst]; (split; [|split]); try (unfold spec_count; cbn [sp_gen]; by rewrite length_alter); try done; rewrite ?counted_alter by done.
  - unfold types_ok. cbn [sp_queues]. rewrite (concat_at _ _ _ _ Hl), <- app_assoc. unfold types_ok in Hty. rewrite (concat_same _ _ _ Hl) in Hty. apply Forall_app in Hty as [H1 H2]. apply Forall_app. split; [done|]. by constructor.
  - rewrite (queued_insert _ _ _ _ _ _ _ _ _ _ Hl). case_decide; rewrite ?Hu by done; lia.
  - change (queued (mk_bus _ _ (sp_queues b) _ _) t) with (queued b t). case_decide; rewrite ?Hu by done; lia.
Qed.

Lemma stuck_step k b t o : fits 32 t -> (k + 1 < 2 ^ 64)%Z -> op_ok (length (sp_queues b)) o -> 0 < length (sp_queues b) -> stuck k b t -> stuck (k + 1) (spec_step b o).1 t.
Proof.
  intros Ht Hk Ho Hq Hs. assert (Hs' : stuck (k + 1) b t) by (destruct Hs as (? & ? & ?); split_and!; done || lia). destruct o as [t' a h|t' a h|t' flags|i]; cbn [spec_step fst]; [exact Hs'|exact Hs'|..].
  - unfold spec_publish. repeat case_match; try exact Hs'; apply stuck_enqueue; try done. intros ->. destruct Hs as (_ & _ & Hc). unfold counted in Hc. match goal with H : sp_gen b !! _ = Some 0%Z |- _ => rewrite H in Hc end. cbn in Hc. lia.
  - destruct (sp_queues b !! i) as [[|[e t'] l]|] eqn:Hl; try exact Hs'. cbn [fst]. destruct Hs as (Hty & Hlt & Hc). unfold types_ok in Hty.
    assert (Hp : concat (sp_queues b) ≡ₚ (e, t') :: concat (<[i := l]> (sp_queues b))) by (rewrite (concat_at _ _ _ _ Hl), (concat_same _ _ _ Hl); done). rewrite Hp in Hty. apply Forall_cons in Hty as [Ht' Hty].
    split; [done|]. split; [unfold spec_count; cbn [sp_gen]; by rewrite length_alter|]. rewrite counted_alter by done.
    pose proof (queued_tail b (sp_subs b) (sp_idx b) (spec_count b t' (fun n => (n - 1)%Z)) (spec_calls b e t') i l e t' t Hl) as Eq. rewrite Eq in Hc. case_decide; [|lia]. rewrite (wrap_id 64); unfold fits; lia.
Qed.

Lemma stuck_run ops : forall k b t, fits 32 t -> (k + Z.of_nat (length ops) < 2 ^ 64)%Z -> Forall (op_ok (length (sp_queues b))) ops -> 0 < length (sp_queues b) -> stuck k b t ->
  stuck (k + Z.of_nat (length ops)) (spec_run b ops).1 t /\ length (sp_queues (spec_run b ops).1) = length (sp_queues b).
Proof.
  induction ops as [|o ops IH]; intros k b t Ht Hk Ho Hq Hs; cbn [spec_run length] in *; [cbn; by rewrite Z.add_0_r|]. apply Forall_cons in Ho as [Ho Hops]. pose proof (spec_step_queues b o) as Eq.
  pose proof (stuck_step k b t o Ht ltac:(lia) Ho Hq Hs) as H1. destruct (spec_step b o) as [b1 err]. cbn [fst] in *. rewrite <- Eq in Hops, Hq. destruct (IH (k + 1)%Z b1 t Ht ltac:(lia) Hops Hq H1) as [H2 H3]. destruct (spec_run b1 ops) as [b2 errs]. cbn [fst] in *.
  split; [|congruence]. replace (k + Z.of_nat (S (length ops)))%Z with (k + 1 + Z.of_nat (length ops))%Z by lia. exact H2.
Qed.

Lemma stuck_unique k b t : fits 32 t -> stuck k b t -> (spec_step b (Op_publish t MDV_EVT_UNIQUE)).2 = MDV_EEXIST.
Proof.
  intros Ht (_ & Hlt & Hc). cbn [spec_step]. unfold spec_publish. destruct (Z.leb_spec (Z.of_nat (length (sp_gen b))) t) as [?|_]; [unfold fits in Ht; lia|]. change (negb (Z.land MDV_EVT_UNIQUE MDV_EVT_SYNC =? 0)%Z) with false.
  change (negb (Z.land MDV_EVT_UNIQUE MDV_EVT_UNIQUE =? 0)%Z) with true. cbn iota. rewrite decide_False; [done|]. intros E. unfold counted in Hc. rewrite E in Hc. cbn in Hc. lia.
Qed.

Lemma spec_run_lengths ops : forall b, length (sp_queues (spec_run b ops).1) = length (sp_queues b) /\ length (sp_gen (spec_run b ops).1) = length (sp_gen b).
Proof.
  induction ops as [|o ops IH]; intros b; cbn [spec_run]; [done|]. pose proof (spec_step_queues b o) as E. assert (E' : length (sp_gen (spec_step b o).1) = length (sp_gen b)).
  { destruct o; cbn; unfold spec_publish, spec_enqueue, spec_count; repeat case_match; cbn; by rewrite ?length_alter. }
  destruct (spec_step b o) as [b1 err]. specialize (IH b1). destruct (spec_run b1 ops). cbn [fst] in *. by rewrite <- E, <- E'.
Qed.

Lemma run_types ops n s b : agrees n s b -> Forall (op_ok (length (sp_queues b))) ops -> (n + Z.of_nat (length ops) < 2 ^ 32)%Z -> types_ok (spec_run b ops).1.
Proof.
  intros Ha Ho Hn. destruct (run_wp ops n s b (fun _ _ => types_ok (spec_run b ops).1) Ha Ho Hn) with (k := 0) as (? & ? & ? & _ & Ht); [|done].
  intros s' Ha'. eapply Forall_impl; [apply (ag_types _ _ _ Ha')|]. by intros e [He _].
Qed.

Lemma spec_run_app ops1 : forall b ops2, spec_run b (ops1 ++ ops2) = let r1 := spec_run b ops1 in let r2 := spec_run r1.1 ops2 in (r2.1, r1.2 ++ r2.2).
Proof.
  induction ops1 as [|o ops1 IH]; intros b ops2; cbn [app spec_run]; [cbn; by destruct (spec_run b ops2)|]. destruct (spec_step b o) as [b1 err]. rewrite IH. cbn zeta. destruct (spec_run b1 ops1) as [b2 errs]. cbn [fst snd]. by destruct (spec_run b2 ops2).
Qed.

End Refinement.

(** ** Subscriptions when memory and locks may be refused *)

Definition is_subscription (o : bus_op) : Prop := match o with Op_subscribe _ _ _ | Op_unsubscribe _ _ _ => True | _ => False end.

Definition at_most (n : Z) (s : mdv_ebus) : Prop := forall t, (Z.of_nat (length (subs s t)) <= n)%Z.

Lemma updated_most s s' t l n : at_most n s -> updated s s' t l -> (Z.of_nat (length l) <= n)%Z -> at_most n s'.
Proof. intros Hs Hu Hl t'. rewrite (Hu t'). by destruct (key_cmp_fn t t' =? 0)%Z. Qed.

Lemma subscription_step answer mem s o n (Q : mdv_errno -> mdv_ebus -> Prop) :
  bus_ok s -> at_most n s -> (n < 2 ^ 32)%Z -> is_subscription o ->
  (forall err s', bus_ok s' -> at_most (n + 1) s' -> rest s' = rest s -> Q err s') -> wp mem (exec answer o) s Q.
Proof.
  intros Hok Hn Hlt Ho HQ. assert (Hmore : at_most (n + 1) s) by (intros t; specialize (Hn t); lia).
  destruct o as [t arg handler|t arg handler|t flags|i]; try done; cbn [exec]; pose proof (Hn t) as Ht.
  - unfold mdv_ebus_subscribe. wp_steps. destruct b; cbn [negb]; [|wp_steps; by apply HQ]. apply subscribe_unsafe_wp; [done|lia|]. intros err s' Hok' Hr _ _ Hu. apply HQ; [done| |done].
    eapply updated_most; [exact Hmore|exact Hu|]. case_decide; [|lia]. unfold add_subscriber. case_decide; [lia|]. rewrite length_app. cbn. lia.
  - wp_step. apply unsubscribe_wp; [done|lia|]. intros s' Hok' Hr [Hu|[_ Hs]]; wp_steps; apply HQ; try done.
    + eapply updated_most; [exact Hmore|exact Hu|]. pose proof (length_filter (.≠ mk_subscriber arg handler) (subs s t)). unfold remove_subscriber. lia.
    + intros t'. rewrite Hs. apply Hmore.
Qed.

Lemma subscriptions_wp answer mem ops : forall s n (Q : list mdv_errno -> mdv_ebus -> Prop),
  bus_ok s -> at_most n s -> (n + Z.of_nat (length ops) < 2 ^ 32)%Z -> Forall is_subscription ops ->
  (forall errs s', bus_ok s' -> rest s' = rest s -> Q errs s') -> wp mem (exec_all answer ops) s Q.
Proof.
  induction ops as [|o ops IH]; intros s n Q Hok Hn Hlt Ho HQ; cbn [exec_all length] in *; [wp_steps; by apply HQ|]. apply Forall_cons in Ho as [Ho Hops]. wp_step. apply (subscription_step _ _ _ _ n); [done|done|lia|done|].
  intros err s' Hok' Hn' Hr. wp_step. apply (IH s' (n + 1)%Z); [done|done|lia|done|]. intros errs s'' Hok'' Hr'. wp_steps. apply HQ; [done|congruence].
Qed.

(** A thread takes the list of a type and is delayed; a subscriber comes, and one
    of the list goes: its removal waits for the current list only. *)
Definition late_call (answer : mdv_ebus_subscriber -> nat -> mdv_errno) : ea (list mdv_ebus_subscriber) :=
  mdv_ebus_subscribe 0 1 1;;
  list ← mdv_ebus_evt_subscribers 0;
  mdv_ebus_subscribe 0 2 2;;
  mdv_ebus_unsubscribe 0 1 1;;
  s ← get;
  match list with
  | None => mret []
  | Some a => v ← vector_at a; call_all answer (take (Z.to_nat (v_size v)) (v_data v)) 7 MDV_NO_IMPL;; release_vector a;; mret (subs s 0)
  end.

(** ** Theorems *)

(** C10: whatever the components do with a new event bus, it behaves like lists:
    one list of subscribers per type, without duplicates and in the order of the
    subscriptions, one list of events per queue, and the counters of the events
    that are underway.  A synchronous event calls every subscriber of its type once
    and in order, and returns the first error of theirs; a queued event does so
    when a thread takes it, in the order of the queue.  Reference counts, copies
    of the lists and the ring buffers do not show, and every event is freed when
    no queue holds it. *)
Theorem mdv_ebus_refines (answer : mdv_ebus_subscriber -> nat -> mdv_errno) (mem : nat -> bool) queues max_id (ops : list bus_op) :
  granted mem -> 0 < queues -> fits 32 (max_id + 1) -> Forall (op_ok queues) ops -> (Z.of_nat (length ops) < 2 ^ 32)%Z ->
  wp mem (mdv_ebus_create queues max_id) tt (fun r _ => exists s, r = inl s /\
    wp mem (exec_all answer ops) s (fun errs s' =>
      errs = (spec_run answer (no_events queues max_id) ops).2 /\
      agrees (Z.of_nat (length ops)) s' (spec_run answer (no_events queues max_id) ops).1)).
Proof.
  intros Hm Hq Hid Hops Hlen. apply create_wp; [done..|]. intros s Ha _. exists s. split; [done|]. apply (run_wp answer mem Hm ops 0 s _ _ Ha); [|lia|done].
  cbn [sp_queues no_events]. by rewrite length_replicate.
Qed.

(** Two subscribers of a type, of which one goes between two events. *)
Lemma mdv_ebus_refines_witness :
  let ops := [Op_subscribe 1 10 100; Op_subscribe 1 20 200; Op_publish 1 MDV_EVT_DEFAULT; Op_unsubscribe 1 10 100;
              Op_publish 1 MDV_EVT_SYNC; Op_publish 1 MDV_EVT_UNIQUE; Op_handle 1; Op_publish 1 MDV_EVT_UNIQUE] in
  let answer := fun x (_ : nat) => if (sb_arg x =? 10)%Z then MDV_FAILED else MDV_OK in
  wp (fun _ => true) (mdv_ebus_create 2 3) tt (fun r _ => exists s, r = inl s /\
    wp (fun _ => true) (exec_all answer ops) s (fun errs s' =>
      errs = [MDV_OK; MDV_OK; MDV_OK; MDV_OK; MDV_OK; MDV_EEXIST; MDV_OK; MDV_OK] /\
      eb_calls s' = [(mk_subscriber 20 200, 1); (mk_subscriber 20 200, 0)])).
Proof.
  cbn zeta. eapply wp_mono; [apply (mdv_ebus_refines (fun x (_ : nat) => if (sb_arg x =? 10)%Z then MDV_FAILED else MDV_OK) (fun _ => true) 2 3
    [Op_subscribe 1 10 100; Op_subscribe 1 20 200; Op_publish 1 MDV_EVT_DEFAULT; Op_unsubscribe 1 10 100;
     Op_publish 1 MDV_EVT_SYNC; Op_publish 1 MDV_EVT_UNIQUE; Op_handle 1; Op_publish 1 MDV_EVT_UNIQUE]); try done; try lia|].
  - repeat constructor; cbn; unfold fits; lia.
  - intros r _ (s & -> & Hs). exists s. split; [done|]. eapply wp_mono; [exact Hs|]. cbn beta. intros errs s' [-> Ha]. split; [vm_compute; reflexivity|].
    rewrite (ag_calls _ _ _ Ha). vm_compute. reflexivity.
Defined.

(** C32: subscriptions and their removals keep the bus well formed whatever the
    allocator and the mutex answer, in any order: every type has a list of its own,
    without duplicates, to which only the bus refers, and queues, counters, events
    and calls are left alone. *)
Theorem mdv_ebus_subscriptions_ok (answer : mdv_ebus_subscriber -> nat -> mdv_errno) (mem : nat -> bool) (s : mdv_ebus) n (ops : list bus_op) :
  bus_ok s -> at_most n s -> (n + Z.of_nat (length ops) < 2 ^ 32)%Z -> Forall is_subscription ops ->
  wp mem (exec_all answer ops) s (fun _ s' => bus_ok s' /\ rest s' = rest s).
Proof. intros Hok Hn Hlen Ho. apply (subscriptions_wp _ _ _ _ n); auto. Qed.

(** A bus that has refused memory for every second request. *)
Lemma mdv_ebus_subscriptions_ok_witness :
  let mem := fun i => Nat.even i in
  wp (fun _ => true) (mdv_ebus_create 1 0) tt (fun r _ => exists s, r = inl s /\
    wp mem (exec_all (fun _ _ => MDV_OK) [Op_subscribe 0 1 1; Op_subscribe 0 2 2; Op_unsubscribe 0 1 1]) s (fun _ s' => bus_ok s' /\ rest s' = rest s)).
Proof.
  cbn zeta. apply create_wp; [done|lia|unfold fits; lia|]. intros s Ha Hs. exists s. split; [done|].
  apply (mdv_ebus_subscriptions_ok (fun _ _ => MDV_OK) (fun i => Nat.even i) s 0); [apply Ha| |cbn; lia|by repeat constructor]. intros t. by rewrite Hs.
Defined.

(** a publication that fails because the queue is full leaves the counter of
    the type too high by one.  From then on, whatever happens, unique events of
    the type are refused as if one were still queued. *)
Theorem mdv_ebus_unique_lost (answer : mdv_ebus_subscriber -> nat -> mdv_errno) (mem : nat -> bool) queues max_id (before after : list bus_op) type :
  granted mem -> 0 < queues -> fits 32 (max_id + 1) -> (0 <= type <= max_id)%Z ->
  Forall (op_ok queues) (before ++ after) -> (Z.of_nat (length (before ++ after)) + 1 < 2 ^ 32)%Z ->
  let b := (spec_run answer (no_events queues max_id) before).1 in
  (Z.of_nat (queued b type) < counted b type < 2 ^ 32)%Z ->
  wp mem (mdv_ebus_create queues max_id) tt (fun r _ => exists s, r = inl s /\
    wp mem (exec_all answer (before ++ after ++ [Op_publish type MDV_EVT_UNIQUE])) s (fun errs _ => last errs = Some MDV_EEXIST)).
Proof.
  intros Hm Hq Hid Ht Hops Hlen b Hst. apply create_wp; [done..|]. intros s Ha _. exists s. split; [done|]. rewrite length_app in Hlen. assert (Hf : fits 32 type) by (unfold fits in *; lia).
  destruct (spec_run_lengths answer before (no_events queues max_id)) as [Hqs Hgen]. fold b in Hqs, Hgen. cbn [sp_queues sp_gen no_events] in Hqs, Hgen. rewrite length_replicate in Hqs. rewrite length_replicate in Hgen. assert (Hty : types_ok b).
  { apply (run_types answer mem Hm before 0 s _ Ha); [|lia]. cbn. rewrite length_replicate. by apply Forall_app in Hops as [Hops _]. }
  apply (run_wp answer mem Hm _ 0 s _ _ Ha).
  - cbn [sp_queues no_events]. rewrite length_replicate, app_assoc. apply Forall_app. split; [done|]. by apply Forall_singleton.
  - rewrite !length_app. cbn. lia.
  - intros s' _. rewrite spec_run_app. cbn zeta. fold b. rewrite spec_run_app. cbn zeta. cbn [snd]. rewrite !last_app. apply Forall_app in Hops as [_ Hops].
    destruct (stuck_run answer after (2 ^ 32) b type Hf ltac:(lia) ltac:(by rewrite Hqs) ltac:(lia)) as [Hs _]; [split_and!; [done|lia|lia|lia]|].
    cbn [spec_run]. pose proof (stuck_unique answer _ _ type Hf Hs) as E. destruct (spec_step answer _ _) as [b2 err]. cbn [snd] in *. by rewrite E.
Qed.

(** 256 events for one queue, all of which that found room are handled. *)
Lemma mdv_ebus_unique_lost_witness :
  let before := replicate 256 (Op_publish 0 MDV_EVT_DEFAULT) in
  let after := replicate 255 (Op_handle 0) in
  wp (fun _ => true) (mdv_ebus_create 1 0) tt (fun r _ => exists s, r = inl s /\
    wp (fun _ => true) (exec_all (fun _ _ => MDV_OK) (before ++ after ++ [Op_publish 0 MDV_EVT_UNIQUE])) s (fun errs _ => last errs = Some MDV_EEXIST)).
Proof.
  apply (mdv_ebus_unique_lost (fun _ _ => MDV_OK) (fun _ => true) 1 0 (replicate 256 (Op_publish 0 MDV_EVT_DEFAULT)) (replicate 255 (Op_handle 0)) 0); try done; try lia.
  - apply Forall_app. split; apply Forall_replicate; cbn; unfold fits; lia.
Defined.

(** a subscriber may be called after its removal has returned.  The removal
    waits until nobody uses the current list, but a thread may still hold the
    list before it, which the subscription in between has replaced. *)
Theorem mdv_ebus_call_after_unsubscribe :
  wp (fun _ => true) (mdv_ebus_create 1 0) tt (fun r _ => exists s, r = inl s /\
    wp (fun _ => true) (late_call (fun _ _ => MDV_OK)) s (fun l s' =>
      l = [mk_subscriber 2 2] /\ eb_calls s' = [(mk_subscriber 1 1, 7)])).
Proof.
  intros k. eexists _, _, _. split; [vm_compute; reflexivity|]. eexists. split; [reflexivity|]. intros k'. eexists _, _, _. split; [vm_compute; reflexivity|]. split; reflexivity.
Qed.

End Ebus.
