(* ===== verification/Threadpool.v ===== *)
(** * Thread pools (src/mdv_platform/mdv_threadpool.c)

    A thread pool keeps the tasks of descriptors in a hash map and their interest
    lists in an epoll instance.  A worker waits for events and calls the functions
    of their tasks; a descriptor of the pool itself tells the workers to stop.

    A descriptor is the number the system gave; the pointers of the events are the
    entries of the map, which are found by their descriptors. *)

From S2P Require Import Prelude Hashmap Rollbacker Topology Router Action.
Import Hashmap Rollbacker Action.
#[local] Open Scope nat_scope.
#[local] Open Scope list_scope.

Module Threadpool.

(** ** Descriptors (src/mdv_platform/mdv_def.c) *)

(** A descriptor is an [int] in a pointer whose other bits are zero. *)
Definition mdv_descriptor_hash (fd : Z) : Z := u32 fd.
Definition mdv_descriptor_cmp (fd1 fd2 : Z) : Z := i32 (fd1 - fd2).

Definition descriptor_key : HashKey Z := {| hash_fn := mdv_descriptor_hash; key_cmp_fn := mdv_descriptor_cmp |}.
#[local] Existing Instance descriptor_key.

(** Bits of the events (src/mdv_platform/mdv_epoll.h). *)
Definition MDV_EPOLLIN : Z := 1.
Definition MDV_EPOLLOUT : Z := 2.
Definition MDV_EPOLLRDHUP : Z := 4.
Definition MDV_EPOLLERR : Z := 8.
Definition MDV_EPOLLET : Z := 16.
Definition MDV_EPOLLONESHOT : Z := 32.
Definition MDV_EPOLLEXCLUSIVE : Z := 64.

(** [events & bit] *)
Definition has (events bit : Z) : bool := negb (Z.land events bit =? 0)%Z.

Section Threadpool.
Context {F C : Type}.

(** ** The state *)

(** [fn] is the name of a handler. *)
Record mdv_threadpool_task := mk_task { tk_fd : Z; tk_fn : option F; tk_context : option C }.

(** An item of an epoll instance; it is disarmed once a one-shot event was
    delivered. *)
Record epoll_item := mk_item { ep_events : Z; ep_armed : bool }.

Record mdv_threadpool := mk_threadpool {
  tp_stopfd : Z;
  tp_epoll : gmap Z epoll_item;
  tp_tasks : mdv_hashmap mdv_threadpool_task
}.

Definition set_tasks (tp : mdv_threadpool) (tasks : mdv_hashmap mdv_threadpool_task) : mdv_threadpool :=
  mk_threadpool (tp_stopfd tp) (tp_epoll tp) tasks.
Definition set_epoll (tp : mdv_threadpool) (epoll : gmap Z epoll_item) : mdv_threadpool :=
  mk_threadpool (tp_stopfd tp) epoll (tp_tasks tp).

(** [lock]: can the mutex be locked? *)
Context (lock : bool).

Abbreviation ta := (action mdv_threadpool).

(** ** Interest lists (src/mdv_platform/mdv_epoll.c) *)

(** The system may have no room for a new item; a descriptor is in the list once. *)
Definition mdv_epoll_add (fd events : Z) : ta bool :=
  ok ← ask;
  tp ← get;
  match tp_epoll tp !! fd with
  | None => if (ok : bool) then put (set_epoll tp (<[fd := mk_item events true]> (tp_epoll tp)));; mret true else mret false
  | Some _ => mret false
  end.

Definition mdv_epoll_mod (fd events : Z) : ta bool :=
  ok ← ask;
  tp ← get;
  match tp_epoll tp !! fd with
  | Some _ => if (ok : bool) then put (set_epoll tp (<[fd := mk_item events true]> (tp_epoll tp)));; mret true else mret false
  | None => mret false
  end.

(** The system refuses only a descriptor that is not in the list. *)
Definition mdv_epoll_del (fd : Z) : ta bool :=
  tp ← get;
  match tp_epoll tp !! fd with
  | Some _ => put (set_epoll tp (delete fd (tp_epoll tp)));; mret true
  | None => mret false
  end.

(** ** Tasks *)

(** Is the task registered? *)
Definition mdv_threadpool_add (events : Z) (task : mdv_threadpool_task) : ta bool :=
  if negb lock then mret false else
  m1 ← ask; m2 ← ask;
  tp ← get;
  r ← lift (deref (mdv_hashmap_insert tk_fd m1 m2 (tp_tasks tp) task 24));
  put (set_tasks tp r.2);;
  match r.1 with
  | None => mret false
  | Some entry =>
      ok ← mdv_epoll_add (tk_fd task) events;
      if (ok : bool) then mret true else
      tp ← get;
      r ← lift (deref (mdv_hashmap_erase tk_fd (tp_tasks tp) (tk_fd task)));
      put (set_tasks tp r.2);; mret false
  end.

Definition mdv_threadpool_rearm (events : Z) (task : mdv_threadpool_task) : ta bool := mdv_epoll_mod (tk_fd task) events.

Definition mdv_threadpool_remove (fd : Z) : ta bool :=
  if negb lock then mret false else
  ok ← mdv_epoll_del fd;
  if (ok : bool) then
    tp ← get;
    r ← lift (deref (mdv_hashmap_erase tk_fd (tp_tasks tp) fd));
    put (set_tasks tp r.2);; mret true
  else mret false.

(** The tasks [fn] is called for. *)
Definition mdv_threadpool_foreach (tp : mdv_threadpool) : list mdv_threadpool_task :=
  if negb lock then [] else filter (fun task => tk_fd task <> tp_stopfd tp) (mdv_hashmap_foreach (tp_tasks tp)).

(** What a worker does with an event. *)
Inductive work := Wk_stop | Wk_skip | Wk_call (fn : F) (task : mdv_threadpool_task).

(** [mdv_epoll_wait] reports an event of [fd], and the worker takes the task of it. *)
Definition mdv_threadpool_worker (fd : Z) : ta work :=
  tp ← get;
  item ← lift (deref (tp_epoll tp !! fd));
  (if has (ep_events item) MDV_EPOLLONESHOT then put (set_epoll tp (<[fd := mk_item (ep_events item) false]> (tp_epoll tp))) else mret tt);;
  found ← lift (deref (mdv_hashmap_find tk_fd (tp_tasks tp) fd));
  task ← lift (deref found);
  if (tk_fd task =? tp_stopfd tp)%Z then mret Wk_stop else
  match tk_fn task with
  | Some fn => mret (Wk_call fn task)
  | None => mret Wk_skip
  end.

(** ** Creation *)

Inductive tp_release_fn := Fn_tp_rollbacker_free | Fn_tp_free | Fn_epoll_close | Fn_eventfd_close | Fn_tp_mutex_free | Fn_tp_hashmap_release | Fn_thread_join.
Inductive tp_resource := Res_tp_rollbacker | Res_tp | Res_epollfd | Res_stopfd | Res_tasks_mtx | Res_tasks | Res_thread (i : nat).

Definition tp_push (r : option (mdv_rollbacker tp_release_fn tp_resource)) (f : tp_release_fn) (x : tp_resource) :=
  snd (mdv_rollbacker_push r (mk_op f [x])).

(** The pool and the calls that were made when one step of a creation failed. *)
Abbreviation undone := (list (tp_release_fn * list tp_resource)).

Definition mdv_threadpool_free : undone :=
  [(Fn_epoll_close, [Res_epollfd]); (Fn_eventfd_close, [Res_stopfd]); (Fn_tp_hashmap_release, [Res_tasks]);
   (Fn_tp_mutex_free, [Res_tasks_mtx]); (Fn_tp_free, [Res_tp])].

(** [threads]: the threads that were started. *)
Definition mdv_threadpool_stop (threads : nat) : undone := (fun i => (Fn_thread_join, [Res_thread i])) <$> seq 0 threads.

Definition mdv_threadpool_add_default_tasks : ta bool :=
  tp ← get; mdv_threadpool_add (Z.lor MDV_EPOLLIN MDV_EPOLLERR) (mk_task (tp_stopfd tp) None None).

(** Threads from [i] on, of which [n] are left: how many run, and are they all? *)
Fixpoint start_threads (n i : nat) : ta (nat * bool) :=
  match n with
  | 0 => mret (i, true)
  | S n => ok ← ask; if (ok : bool) then start_threads n (S i) else mret (i, false)
  end.

(** [stopfd]: the descriptor the system gave. *)
Definition mdv_threadpool_create (size : nat) (stopfd : Z) : action unit (mdv_threadpool + undone) :=
  rb ← ask;
  let rbr := mdv_rollbacker_create rb Fn_tp_rollbacker_free Res_tp_rollbacker 4 in
  let rollbacker_free := if (rb : bool) then [(Fn_tp_rollbacker_free, [Res_tp_rollbacker])] else [] in
  m ← ask;
  if negb m then mret (inr (mdv_rollback rbr)) else
  let rbr := tp_push rbr Fn_tp_free Res_tp in
  epoll ← ask;
  if negb epoll then mret (inr (mdv_rollback rbr)) else
  let rbr := tp_push rbr Fn_epoll_close Res_epollfd in
  stop ← ask;
  if negb stop then mret (inr (mdv_rollback rbr)) else
  let rbr := tp_push rbr Fn_eventfd_close Res_stopfd in
  mutex ← ask;
  if negb mutex then mret (inr (mdv_rollback rbr)) else
  let rbr := tp_push rbr Fn_tp_mutex_free Res_tasks_mtx in
  m1 ← ask; m2 ← ask;
  match mdv_hashmap_create m1 m2 256 0 8 with
  | None => mret (inr (mdv_rollback rbr))
  | Some tasks =>
      r ← run_on (mk_threadpool stopfd ∅ tasks) mdv_threadpool_add_default_tasks;
      if negb r.1 then mret (inr (rollbacker_free ++ mdv_threadpool_free)) else
      started ← run_on r.2 (start_threads size 0);
      let '(threads, all, _) := (started : nat * bool * mdv_threadpool) in
      if all then mret (inl r.2)
      else mret (inr (rollbacker_free ++ mdv_threadpool_stop threads ++ mdv_threadpool_free))
  end.

(** ** The tasks as a finite map *)

#[local] Instance descriptor_key_ok : HashKeyOk Z.
Proof. exact Router.uint32_key_ok. Qed.

Lemma descriptor_keq (a b : Z) : keq a b <-> u32 a = u32 b.
Proof. exact (Topology.u32_keq a b). Qed.

(** The map of the pool has the tasks [m], and the epoll instance their
    descriptors. *)
Record pool (tp : mdv_threadpool) (m : gmap Z mdv_threadpool_task) : Prop := {
  pl_ready : ready tk_fd (tp_tasks tp) 24;
  pl_lookup : forall fd, Hashmap.lookup tk_fd (tp_tasks tp) fd = m !! u32 fd;
  pl_tasks : forall fd t, m !! fd = Some t -> tk_fd t = fd /\ fits 32 fd;
  pl_epoll : forall fd, is_Some (tp_epoll tp !! fd) <-> is_Some (m !! fd)
}.

Context (mem : nat -> bool).

Lemma u32_same (a b : Z) : (key_cmp_fn a b =? 0)%Z = bool_decide (u32 a = u32 b).
Proof. case_bool_decide as E; [by apply Z.eqb_eq, descriptor_keq|]. apply Z.eqb_neq. intros Hk. by apply E, descriptor_keq. Qed.

Lemma erase_pool tp (m : gmap Z mdv_threadpool_task) fd :
  ready tk_fd (tp_tasks tp) 24 -> (forall x, Hashmap.lookup tk_fd (tp_tasks tp) x = m !! u32 x) -> fits 32 fd ->
  exists r hm, mdv_hashmap_erase tk_fd (tp_tasks tp) fd = Some (r, hm) /\ ready tk_fd hm 24
    /\ forall x, Hashmap.lookup tk_fd hm x = delete fd m !! u32 x.
Proof.
  intros Hr Hl Hf. destruct (erase_ready tk_fd _ fd _ Hr) as (r & hm & E & Hr' & Hl'). exists r, hm. split_and!; [done|done|].
  intros x. rewrite Hl', u32_same, (wrap_id 32 fd Hf), Hl. case_bool_decide as E'; [by rewrite E', lookup_delete_eq|by rewrite lookup_delete_ne].
Qed.

Lemma pool_epoll tp m e : (forall fd, is_Some (e !! fd) <-> is_Some (m !! fd)) -> pool tp m -> pool (set_epoll tp e) m.
Proof. intros He [H1 H2 H3 H4]. by split. Qed.

(** The task of a descriptor. *)
Definition task_at (tp : mdv_threadpool) (fd : Z) : option mdv_threadpool_task := Hashmap.lookup tk_fd (tp_tasks tp) fd.

Lemma task_at_Some tp m fd t : pool tp m -> task_at tp fd = Some t /\ tk_fd t = fd <-> m !! fd = Some t.
Proof.
  intros [P1 P2 P3 P4]. unfold task_at. rewrite P2. split.
  - intros [E Et]. destruct (P3 _ _ E) as [E' _]. congruence.
  - intros E. destruct (P3 _ _ E) as [Et Hf]. by rewrite (wrap_id 32 _ Hf).
Qed.

Lemma task_at_in tp m fd t : pool tp m -> task_at tp fd = Some t -> t ∈ mdv_hashmap_foreach (tp_tasks tp).
Proof. intros Hp E. by apply (lookup_elem tk_fd _ fd t (proj1 (pl_ready _ _ Hp))) in E as [? _]. Qed.

(** A task is added, or the pool keeps its tasks. *)
Lemma add_task_wp events task tp m (Q : bool -> mdv_threadpool -> Prop) :
  lock = true -> pool tp m -> fits 32 (tk_fd task) -> m !! tk_fd task = None ->
  (forall ok tp', (granted mem -> ok = true) -> tp_stopfd tp' = tp_stopfd tp -> pool tp' (if ok then <[tk_fd task := task]> m else m) -> Q ok tp') ->
  wp mem (mdv_threadpool_add events task) tp Q.
Proof.
  intros Hlock [P1 P2 P3 P4] Hf Hn HQ. unfold mdv_threadpool_add. rewrite Hlock. cbn [negb]. wp_step. wp_step. wp_step. wp_step. wp_step. wp_step. wp_step.
  destruct (insert_any tk_fd _ task 24 b b0 P1) as (r & hm & E & Hr & Hcase & Hgr & Hne & Hs & Hno & _). eapply wp_lift; [by rewrite E|]. wp_step. wp_step. cbn [fst snd].
  destruct Hcase as [-> | ->].
  - assert (Hl : forall x, Hashmap.lookup tk_fd hm x = <[tk_fd task := task]> m !! u32 x).
    { intros x. destruct (decide (u32 x = tk_fd task)) as [E'|E'].
      - rewrite E', lookup_insert_eq. apply Hs; [done|]. apply descriptor_keq. by rewrite (wrap_id 32 _ Hf).
      - rewrite lookup_insert_ne by done. rewrite Hne; [done|]. intros Hk%descriptor_keq. apply E'. by rewrite <- Hk, (wrap_id 32 _ Hf). }
    assert (He : tp_epoll tp !! tk_fd task = None) by (apply eq_None_not_Some; rewrite P4, Hn; by intros [? ?]).
    wp_step. unfold mdv_epoll_add. wp_step. wp_step. wp_step. wp_step. cbn [tp_epoll set_tasks]. rewrite He. destruct b1.
    + wp_steps. apply HQ; [done|done|]. split; cbn [tp_tasks tp_epoll set_epoll set_tasks]; [done|done|..].
      * intros fd t. rewrite lookup_insert_Some. intros [[<- <-]|[_ Ht]]; [done|by apply P3].
      * intros fd. destruct (decide (fd = tk_fd task)) as [->|]; [rewrite !lookup_insert_eq; naive_solver|]. by rewrite !lookup_insert_ne.
    + wp_steps. destruct (erase_pool (set_tasks tp hm) (<[tk_fd task := task]> m) (tk_fd task) Hr Hl Hf) as (r & hm' & E' & Hr' & Hl'). eapply wp_lift; [by rewrite E'|].
      wp_steps. apply HQ; [intros Hg; by specialize (Hb1 Hg)|done|]. split; cbn [tp_tasks tp_epoll set_tasks]; [done| |done|done].
      intros x. rewrite Hl', delete_insert_id by done. done.
  - wp_steps. apply HQ; [intros Hg; by specialize (Hgr (Hb Hg) (Hb0 Hg))|done|]. split; cbn [tp_tasks tp_epoll set_tasks]; [done| |done|done].
    intros x. destruct (decide (u32 x = tk_fd task)) as [E'|E'].
    + rewrite E', Hn. destruct (Hno eq_refl x) as [|E2]; [apply descriptor_keq; by rewrite (wrap_id 32 _ Hf)|done|]. by rewrite E2, P2, E'.
    + rewrite Hne; [done|]. intros Hk%descriptor_keq. apply E'. by rewrite <- Hk, (wrap_id 32 _ Hf).
Qed.

(** A registered task is removed. *)
Lemma remove_task_wp fd t tp m (Q : bool -> mdv_threadpool -> Prop) :
  lock = true -> pool tp m -> m !! fd = Some t ->
  (forall tp', tp_stopfd tp' = tp_stopfd tp -> pool tp' (delete fd m) -> Q true tp') ->
  wp mem (mdv_threadpool_remove fd) tp Q.
Proof.
  intros Hlock Hp Ht HQ. pose proof Hp as [P1 P2 P3 P4]. destruct (P3 _ _ Ht) as [_ Hf]. unfold mdv_threadpool_remove. rewrite Hlock. cbn [negb]. wp_step. unfold mdv_epoll_del. wp_step. wp_step.
  destruct (P4 fd) as [_ [i Hi]]; [by rewrite Ht|]. rewrite Hi. wp_steps.
  destruct (erase_pool (set_epoll tp (delete fd (tp_epoll tp))) m fd P1 P2 Hf) as (r & hm & E & Hr & Hl). eapply wp_lift; [by rewrite E|]. wp_steps.
  apply HQ; [done|]. split; cbn [tp_tasks tp_epoll set_tasks set_epoll]; [done|done|..].
  - intros x y. rewrite lookup_delete_Some. intros [_ Hx]. by apply P3.
  - intros x. destruct (decide (x = fd)) as [->|]; [by rewrite !lookup_delete_eq|by rewrite !lookup_delete_ne].
Qed.

Lemma rearm_task_wp events task tp m (Q : bool -> mdv_threadpool -> Prop) :
  pool tp m -> is_Some (m !! tk_fd task) ->
  (forall ok tp', (granted mem -> ok = true) -> tp_stopfd tp' = tp_stopfd tp -> pool tp' m -> Q ok tp') ->
  wp mem (mdv_threadpool_rearm events task) tp Q.
Proof.
  intros Hp Ht HQ. pose proof (pl_epoll _ _ Hp) as He. unfold mdv_threadpool_rearm, mdv_epoll_mod. do 4 wp_step. destruct (proj2 (He (tk_fd task)) Ht) as [i Hi]. rewrite Hi.
  destruct b; wp_steps; (apply HQ; [done|done|]); [|done]. apply pool_epoll; [|done].
  intros fd. destruct (decide (fd = tk_fd task)) as [->|]; [rewrite lookup_insert_eq; naive_solver|by rewrite lookup_insert_ne].
Qed.

(** A worker finds the task of a descriptor that has an event. *)
Lemma worker_wp fd t tp m (Q : work -> mdv_threadpool -> Prop) :
  pool tp m -> m !! fd = Some t ->
  (forall tp', tp_stopfd tp' = tp_stopfd tp -> pool tp' m ->
     Q (if (fd =? tp_stopfd tp)%Z then Wk_stop else match tk_fn t with Some fn => Wk_call fn t | None => Wk_skip end) tp') ->
  wp mem (mdv_threadpool_worker fd) tp Q.
Proof.
  intros Hp Ht HQ. pose proof Hp as [P1 P2 P3 P4]. destruct (P3 _ _ Ht) as [E Hf]. unfold mdv_threadpool_worker. wp_step. wp_step. wp_step. destruct (proj2 (P4 fd)) as [i Hi]; [by rewrite Ht|].
  eapply wp_lift; [by rewrite Hi|]. wp_step.
  assert (Hrest : forall tp', tp_stopfd tp' = tp_stopfd tp -> pool tp' m -> wp mem (found ← lift (deref (mdv_hashmap_find tk_fd (tp_tasks tp) fd)); task ← lift (deref found); if (tk_fd task =? tp_stopfd tp)%Z then mret Wk_stop else match tk_fn task with Some fn => mret (Wk_call fn task) | None => mret Wk_skip end) tp' Q).
  { intros tp' Es Hp'. wp_step. eapply wp_lift; [by rewrite (find_lookup tk_fd _ fd (proj1 P1)), P2, (wrap_id 32 _ Hf), Ht|]. wp_step. eapply wp_lift; [done|]. rewrite E.
    specialize (HQ tp' Es Hp'). destruct (fd =? tp_stopfd tp)%Z; [by wp_step|]. destruct (tk_fn t); by wp_step. }
  destruct (has _ _); wp_step; [|by apply Hrest]. apply Hrest; [done|]. apply pool_epoll; [|done].
  intros x. destruct (decide (x = fd)) as [->|]; [rewrite lookup_insert_eq, <- P4, Hi; naive_solver|by rewrite lookup_insert_ne].
Qed.

(** The tasks of an enumeration. *)
Lemma foreach_tasks tp m : lock = true -> pool tp m -> mdv_threadpool_foreach tp ≡ₚ (map_to_list (delete (tp_stopfd tp) m)).*2.
Proof.
  intros Hlock [P1 P2 P3 P4]. unfold mdv_threadpool_foreach. rewrite Hlock. cbn [negb]. destruct P1 as (Hw & _ & _).
  assert (Hin : forall t, t ∈ mdv_hashmap_foreach (tp_tasks tp) <-> m !! tk_fd t = Some t).
  { intros t. rewrite (elem_of_foreach tk_fd _ t Hw), P2. split.
    - intros E. destruct (P3 _ _ E) as [E' Hf]. by rewrite E'.
    - intros E. by rewrite (wrap_id 32 _ (proj2 (P3 _ _ E))). }
  apply NoDup_Permutation.
  - apply NoDup_filter, (NoDup_fmap_1 tk_fd). by apply (foreach_keys_nodup tk_fd).
  - apply (NoDup_fmap_1 tk_fd). rewrite <- list_fmap_compose, (Forall_fmap_ext_1 (tk_fd ∘ snd) fst); [apply NoDup_fst_map_to_list|].
    apply Forall_forall. intros [fd t] [_ E]%elem_of_map_to_list%lookup_delete_Some. by destruct (P3 _ _ E).
  - intros t. rewrite list_elem_of_filter, Hin, list_elem_of_fmap. split.
    + intros [Hne E]. exists (tk_fd t, t). split; [done|]. apply elem_of_map_to_list, lookup_delete_Some. done.
    + intros ([fd t'] & -> & [Hne E]%elem_of_map_to_list%lookup_delete_Some). cbn. destruct (P3 _ _ E) as [-> _]. done.
Qed.

Lemma start_threads_wp n i tp (Q : nat * bool -> mdv_threadpool -> Prop) :
  (forall k all, (granted mem -> all = true) -> Q (k, all) tp) -> wp mem (start_threads n i) tp Q.
Proof.
  intros HQ. revert i. induction n as [|n IH]; intros i; cbn [start_threads]; [wp_step; by apply HQ|]. wp_step. wp_step. destruct b; [apply IH|wp_step; apply HQ; intros Hg; by specialize (Hb Hg)].
Qed.

(** The task that stops the workers. *)
Definition stop_task (stopfd : Z) : mdv_threadpool_task := mk_task stopfd None None.

(** A new pool has the task of its own descriptor. *)
Lemma create_pool_wp size stopfd (Q : mdv_threadpool + undone -> unit -> Prop) :
  lock = true -> fits 32 stopfd ->
  (forall tp, tp_stopfd tp = stopfd -> pool tp {[stopfd := stop_task stopfd]} -> Q (inl tp) tt) ->
  (forall l, ~ granted mem -> Q (inr l) tt) ->
  wp mem (mdv_threadpool_create size stopfd) tt Q.
Proof.
  intros Hlock Hf HQ HQ'. unfold mdv_threadpool_create. assert (Hno : forall b (l : undone), (granted mem -> b = true) -> b = false -> wp mem (mret (inr l)) tt Q).
  { intros b l Hb E. wp_step. apply HQ'. intros Hg. specialize (Hb Hg). congruence. }
  wp_step. wp_step. wp_step. wp_step. destruct b0; cbn [negb]; [|by eapply Hno]. wp_step. wp_step. destruct b0; cbn [negb]; [|by eapply Hno]. wp_step. wp_step. destruct b0; cbn [negb]; [|by eapply Hno]. wp_step. wp_step. destruct b0; cbn [negb]; [|by eapply Hno]. cbn [negb].
  wp_step. wp_step. wp_step. wp_step. destruct (mdv_hashmap_create b0 b1 256 0 8) as [hm|] eqn:E.
  - destruct (mdv_hashmap_create_wf tk_fd _ _ _ _ _ _ E) as [Hw Hl].
    assert (Hp : pool (mk_threadpool stopfd ∅ hm) ∅).
    { assert (hm = mk_hashmap 1 256 0 0 8 (replicate 256 [])) as ->; [unfold mdv_hashmap_create in E; change (256 * (5 / 4)) with 256 in E; destruct b0, b1; cbn [negb Nat.eqb] in E; congruence|].
      split; cbn; [split_and!; [done|cbn; lia|cbn; lia]|done|done|intros fd; rewrite !lookup_empty; done]. }
    wp_step. apply wp_run_on. unfold mdv_threadpool_add_default_tasks. wp_step. wp_step.
    eapply add_task_wp; [done|exact Hp|done|done|]. intros ok tp Hok Es Hp'. destruct ok; cbn [fst snd negb]; [|by eapply Hno].
    wp_step. apply wp_run_on. apply start_threads_wp. intros k all Hall. destruct all; [|by eapply Hno]. wp_step. by apply HQ.
  - apply (Hno (b0 && b1)); [intros Hg; apply andb_true_intro; auto|]. destruct b0, b1; done.
Qed.

End Threadpool.
End Threadpool.
