(* ===== verification/Syncerlog.v ===== *)
(** * Synchronization of a transaction log (src/mdv_core/mdv_syncerlog.c,
    src/mdv_core/mdv_syncer.c)

    A node sends the operations of a transaction log to a peer.  When the log
    changes, it asks the peer for the state of its copy; the peer answers with the
    number of its next operation; the answer makes the node schedule jobs, which
    read ranges of the log and send them; the peer saves what it gets and answers
    with its state again.  Any number of threads do this at the same time.  They
    share two counters without a lock: the requests that came in, and the position
    up to which jobs were scheduled.

    The threads are modelled step by step, a step for each access to something
    shared, and the system as a relation between states, in which any thread may go
    on, any message may be delivered and any job may run.  What the logs promise is
    an interface, which the logs of [Trlog] implement at the end of the file. *)

From S2P Require Import Prelude Rollbacker Uuid Lmdb Memdb Session Trlog.
Import Uuid Lmdb.
#[local] Open Scope Z_scope.
#[local] Open Scope list_scope.

Module Syncerlog.

Abbreviation rows := (list (Z * bytes)).

(** ** What the synchronization uses of a log *)

(** [tl_new_id] and [tl_store] are the two parts of [mdv_trlog_add_op]: the number
    is taken before the operation is committed under it. *)
Class Translog (T : Type) := {
  tl_top : T -> Z;
  tl_range : T -> Z -> Z -> rows;
  tl_add : T -> rows -> T;
  tl_new_id : T -> T;
  tl_store : T -> Z -> bytes -> T
}.

Class TranslogLaws (T : Type) `{Translog T} := {
  tl_ok : T -> Prop;
  tl_map : T -> gmap Z bytes;
  tl_op_ok : bytes -> Prop;
  tl_top_range t : tl_ok t -> 0 <= tl_top t < 2 ^ 64;
  tl_top_above t id : tl_ok t -> is_Some (tl_map t !! id) -> 0 <= id < tl_top t;
  tl_ops t id op : tl_ok t -> tl_map t !! id = Some op -> tl_op_ok op;
  tl_range_elem t l r id op : tl_ok t -> 0 <= l < 2 ^ 64 -> (id, op) ∈ tl_range t l r <-> tl_map t !! id = Some op /\ l <= id < r;
  tl_add_map t l : tl_ok t -> Forall (fun o => 0 <= o.1 < 2 ^ 64 - 1 /\ tl_op_ok o.2) l ->
    tl_ok (tl_add t l) /\ tl_map (tl_add t l) = tl_map t ∪ list_to_map l /\ tl_top (tl_add t l) = foldl (fun m o => Z.max m (o.1 + 1)) (tl_top t) l;
  tl_new_id_map t : tl_ok t -> tl_top t < 2 ^ 64 - 1 ->
    tl_ok (tl_new_id t) /\ tl_map (tl_new_id t) = tl_map t /\ tl_top (tl_new_id t) = tl_top t + 1;
  tl_store_map t id op : tl_ok t -> 0 <= id < tl_top t -> tl_op_ok op -> tl_map t !! id = None ->
    tl_ok (tl_store t id op) /\ tl_map (tl_store t id op) = <[id := op]> (tl_map t) /\ tl_top (tl_store t id op) = tl_top t
}.

(** ** Events *)

Record mdv_evt_trlog_sync := mk_sync { sy_trlog : mdv_uuid; sy_from : mdv_uuid; sy_to : mdv_uuid }.
Record mdv_evt_trlog_state := mk_state { ts_trlog : mdv_uuid; ts_from : mdv_uuid; ts_to : mdv_uuid; ts_top : Z }.
Record mdv_evt_trlog_data := mk_data { td_trlog : mdv_uuid; td_from : mdv_uuid; td_to : mdv_uuid; td_rows : rows; td_count : Z }.

(** The counters that the threads share, and the identifiers. *)
Record mdv_syncerlog := mk_syncerlog {
  sl_uuid : mdv_uuid;
  sl_peer : mdv_uuid;
  sl_trlog : mdv_uuid;
  sl_requests : Z;
  sl_synced : Z
}.

Definition set_requests (s : mdv_syncerlog) (n : Z) : mdv_syncerlog := mk_syncerlog (sl_uuid s) (sl_peer s) (sl_trlog s) n (sl_synced s).
Definition set_synced (s : mdv_syncerlog) (n : Z) : mdv_syncerlog := mk_syncerlog (sl_uuid s) (sl_peer s) (sl_trlog s) (sl_requests s) n.

(** ** Threads *)

(** Where a thread is, with its local variables: in [mdv_syncerlog_start], in
    [mdv_syncerlog_schedule], or in [mdv_trlog_add_op] of the log. *)
Inductive thread :=
  | St_empty
  | St_add
  | St_publish
  | Sc_requests (pos : Z)
  | Sc_synced (pos requests : Z)
  | Sc_top (requests synced : Z)
  | Sc_cas (requests synced trlog_top rrange : Z)
  | Sc_emit (requests synced trlog_top rrange : Z)
  | Sc_finish (requests synced : Z)
  | Add_store (id : Z) (op : bytes)
  | Add_notify.

(** What a step does beside. *)
Inductive effect :=
  | E_none
  | E_sync (m : mdv_evt_trlog_sync)
  | E_job (lrange rrange : Z)
  | E_store (id : Z) (op : bytes)
  | E_changed.

Section Threads.
Context (batch_size : Z).

(** The checks and the publication of [mdv_syncerlog_start]; [published]: the
    message is sent. *)
Definition mdv_syncerlog_start (published : bool) (trlog_top : Z) (t : thread) (s : mdv_syncerlog) : option thread * mdv_syncerlog * effect :=
  match t with
  | St_empty => if trlog_top =? 0 then (None, s, E_none) else (Some St_add, s, E_none)
  | St_add =>
      let requests := sl_requests s in
      let s := set_requests s (u64 (requests + 1)) in
      if negb (requests =? 0) then (None, s, E_none) else (Some St_publish, s, E_none)
  | _ =>
      if published then (None, s, E_sync (mk_sync (sl_trlog s) (sl_uuid s) (sl_peer s)))
      else (None, set_requests s 0, E_none)
  end.

(** The accesses of [mdv_syncerlog_schedule]; [spurious]: the weak exchange fails
    without a reason. *)
Definition mdv_syncerlog_schedule (spurious : bool) (top : Z) (t : thread) (s : mdv_syncerlog) : option thread * mdv_syncerlog * effect :=
  match t with
  | Sc_requests pos => (Some (Sc_synced pos (sl_requests s)), s, E_none)
  | Sc_synced pos requests =>
      let synced := sl_synced s in
      (Some (Sc_top requests (if synced <? pos then pos else synced)), s, E_none)
  | Sc_top requests synced =>
      let trlog_top := top in
      if trlog_top <=? synced then (Some (Sc_finish requests synced), s, E_none) else
      let rrange := if u64 (synced + batch_size) <? trlog_top then u64 (synced + batch_size) else trlog_top in
      (Some (Sc_cas requests synced trlog_top rrange), s, E_none)
  | Sc_cas requests synced trlog_top rrange =>
      if spurious || negb (sl_synced s =? synced) then (Some (Sc_top requests (sl_synced s)), s, E_none)
      else (Some (Sc_emit requests synced trlog_top rrange), set_synced s rrange, E_none)
  | Sc_emit requests synced trlog_top rrange =>
      let emit := synced <? rrange in
      let synced' := if emit then rrange else synced in
      (Some (if rrange <? trlog_top then Sc_top requests synced' else Sc_finish requests synced'), s, if emit then E_job synced rrange else E_none)
  | Sc_finish requests synced =>
      if sl_requests s =? requests then (None, set_requests s 0, E_none) else (Some (Sc_top (sl_requests s) synced), s, E_none)
  | t => (Some t, s, E_none)
  end.

(** A step of a thread of the node. *)
Definition thread_step (ok spurious : bool) (top : Z) (t : thread) (s : mdv_syncerlog) : option thread * mdv_syncerlog * effect :=
  match t with
  | St_empty | St_add | St_publish => mdv_syncerlog_start ok top t s
  | Add_store id op => (Some Add_notify, s, E_store id op)
  | Add_notify => (None, s, E_changed)
  | t => mdv_syncerlog_schedule spurious top t s
  end.

End Threads.

(** ** Handlers of events *)

Definition mdv_syncerlog_evt_changed (s : mdv_syncerlog) (trlog : mdv_uuid) : option thread :=
  if decide (trlog = sl_trlog s) then Some St_empty else None.

Definition mdv_syncerlog_evt_trlog_state (s : mdv_syncerlog) (m : mdv_evt_trlog_state) : option thread :=
  if decide (sl_peer s <> ts_from m \/ sl_uuid s <> ts_to m \/ sl_trlog s <> ts_trlog m) then None else Some (Sc_requests (ts_top m)).

Section Handlers.
Context {T : Type} `{Translog T}.

(** The job that sends a range. *)
Definition mdv_syncerlog_data_send_fn (s : mdv_syncerlog) (log : T) (lrange rrange : Z) : option mdv_evt_trlog_data :=
  let l := tl_range log lrange rrange in
  if (length l =? 0)%nat then None else Some (mk_data (sl_trlog s) (sl_uuid s) (sl_peer s) l (u32 (Z.of_nat (length l)))).

(** The peer, [uuid], answers with the state of its log. *)
Definition mdv_syncer_evt_trlog_sync (uuid : mdv_uuid) (log : option T) (m : mdv_evt_trlog_sync) : option mdv_evt_trlog_state :=
  if decide (uuid <> sy_to m) then None else
  Some (mk_state (sy_trlog m) (sy_to m) (sy_from m) (match log with Some log => tl_top log | None => 0 end)).

(** The peer takes the rows into a job. *)
Definition mdv_syncer_evt_trlog_data (uuid : mdv_uuid) (m : mdv_evt_trlog_data) : option mdv_evt_trlog_data :=
  if decide (uuid <> td_to m) then None else Some m.

(** The job of the peer: the rows are added and the state is sent; [added]: the
    storage takes them. *)
Definition mdv_syncer_data_save_fn (added : bool) (uuid : mdv_uuid) (log : T) (m : mdv_evt_trlog_data) : T * mdv_evt_trlog_state :=
  let log := if added then tl_add log (td_rows m) else log in
  (log, mk_state (td_trlog m) uuid (td_from m) (tl_top log)).

(** ** The node and its peer *)

(** [y_ranges]: the ranges in the order in which they were claimed, [y_emitted]:
    those for which a job was requested. *)
Record sys := mk_sys {
  y_syncer : mdv_syncerlog;
  y_log : T;
  y_peer : T;
  y_changed : bool;
  y_threads : list thread;
  y_syncs : list mdv_evt_trlog_sync;
  y_states : list mdv_evt_trlog_state;
  y_jobs : list (Z * Z);
  y_data : list mdv_evt_trlog_data;
  y_saves : list mdv_evt_trlog_data;
  y_ranges : list (Z * Z);
  y_emitted : list (Z * Z)
}.

End Handlers.
#[global] Arguments sys T : clear implicits.

Section Setters.
Context {T : Type}.
Implicit Types y : sys T.

Definition set_syncer y x := mk_sys x (y_log y) (y_peer y) (y_changed y) (y_threads y) (y_syncs y) (y_states y) (y_jobs y) (y_data y) (y_saves y) (y_ranges y) (y_emitted y).
Definition set_log y x := mk_sys (y_syncer y) x (y_peer y) (y_changed y) (y_threads y) (y_syncs y) (y_states y) (y_jobs y) (y_data y) (y_saves y) (y_ranges y) (y_emitted y).
Definition set_peer y x := mk_sys (y_syncer y) (y_log y) x (y_changed y) (y_threads y) (y_syncs y) (y_states y) (y_jobs y) (y_data y) (y_saves y) (y_ranges y) (y_emitted y).
Definition set_changed y x := mk_sys (y_syncer y) (y_log y) (y_peer y) x (y_threads y) (y_syncs y) (y_states y) (y_jobs y) (y_data y) (y_saves y) (y_ranges y) (y_emitted y).
Definition set_threads y x := mk_sys (y_syncer y) (y_log y) (y_peer y) (y_changed y) x (y_syncs y) (y_states y) (y_jobs y) (y_data y) (y_saves y) (y_ranges y) (y_emitted y).
Definition set_syncs y x := mk_sys (y_syncer y) (y_log y) (y_peer y) (y_changed y) (y_threads y) x (y_states y) (y_jobs y) (y_data y) (y_saves y) (y_ranges y) (y_emitted y).
Definition set_states y x := mk_sys (y_syncer y) (y_log y) (y_peer y) (y_changed y) (y_threads y) (y_syncs y) x (y_jobs y) (y_data y) (y_saves y) (y_ranges y) (y_emitted y).
Definition set_jobs y x := mk_sys (y_syncer y) (y_log y) (y_peer y) (y_changed y) (y_threads y) (y_syncs y) (y_states y) x (y_data y) (y_saves y) (y_ranges y) (y_emitted y).
Definition set_data y x := mk_sys (y_syncer y) (y_log y) (y_peer y) (y_changed y) (y_threads y) (y_syncs y) (y_states y) (y_jobs y) x (y_saves y) (y_ranges y) (y_emitted y).
Definition set_saves y x := mk_sys (y_syncer y) (y_log y) (y_peer y) (y_changed y) (y_threads y) (y_syncs y) (y_states y) (y_jobs y) (y_data y) x (y_ranges y) (y_emitted y).
Definition set_ranges y x := mk_sys (y_syncer y) (y_log y) (y_peer y) (y_changed y) (y_threads y) (y_syncs y) (y_states y) (y_jobs y) (y_data y) (y_saves y) x (y_emitted y).
Definition set_emitted y x := mk_sys (y_syncer y) (y_log y) (y_peer y) (y_changed y) (y_threads y) (y_syncs y) (y_states y) (y_jobs y) (y_data y) (y_saves y) (y_ranges y) x.
End Setters.

(** ** Steps of the system *)

(** A step is as it should be, it adds to the log, it is a weak exchange that fails
    without a reason, it fails, or it is one of an addition whose number is taken
    and whose operation is not stored yet. *)
Inductive label := L_ok | L_add | L_spurious | L_fail | L_race.

Section System.
Context {T : Type} `{Translog T} (batch_size : Z) (op_ok : bytes -> Prop).
Implicit Types y : sys T.

Definition put_effect (ok : bool) (e : effect) y : sys T :=
  match e with
  | E_none => y
  | E_sync m => set_syncs y (m :: y_syncs y)
  | E_job l r => let y := set_emitted y ((l, r) :: y_emitted y) in if ok then set_jobs y ((l, r) :: y_jobs y) else y
  | E_store id op => set_log y (tl_store (y_log y) id op)
  | E_changed => if ok then set_changed y true else y
  end.

(** A range is claimed when the position moves. *)
Definition claim (t' : option thread) (ranges : list (Z * Z)) : list (Z * Z) :=
  match t' with Some (Sc_emit _ synced _ rrange) => ranges ++ [(synced, rrange)] | _ => ranges end.

Definition run_thread (ok spurious : bool) (l1 : list thread) (t : thread) (l2 : list thread) y : sys T :=
  let '(t', s, e) := thread_step batch_size ok spurious (tl_top (y_log y)) t (y_syncer y) in
  put_effect ok e (set_ranges (set_threads (set_syncer y s) (l1 ++ option_list t' ++ l2)) (claim t' (y_ranges y))).

Definition thread_label (ok spurious : bool) (t : thread) : label :=
  match t with
  | Add_store _ _ => L_race
  | Sc_cas _ _ _ _ => if spurious then L_spurious else if ok then L_ok else L_fail
  | _ => if ok then L_ok else L_fail
  end.

(** The node and the peer. *)
Definition node y : mdv_uuid := sl_uuid (y_syncer y).
Definition peer y : mdv_uuid := sl_peer (y_syncer y).

Inductive step : label -> sys T -> sys T -> Prop :=
  (* an addition to the log of the node, as a whole and with its parts apart *)
  | step_append y op : op_ok op ->
      step L_add y (set_threads (set_log y (tl_store (tl_new_id (y_log y)) (tl_top (y_log y)) op)) (Add_notify :: y_threads y))
  | step_reserve y op : op_ok op ->
      step L_race y (set_threads (set_log y (tl_new_id (y_log y))) (Add_store (tl_top (y_log y)) op :: y_threads y))
  | step_thread y ok spurious l1 t l2 : y_threads y = l1 ++ t :: l2 ->
      step (thread_label ok spurious t) y (run_thread ok spurious l1 t l2 y)
  (* events and messages that arrive *)
  | step_changed y : y_changed y = true ->
      step L_ok y (set_threads (set_changed y false) (option_list (mdv_syncerlog_evt_changed (y_syncer y) (sl_trlog (y_syncer y))) ++ y_threads y))
  | step_sync y l1 m l2 : y_syncs y = l1 ++ m :: l2 ->
      step L_ok y (set_states (set_syncs y (l1 ++ l2)) (option_list (mdv_syncer_evt_trlog_sync (peer y) (Some (y_peer y)) m) ++ y_states y))
  | step_state y l1 m l2 : y_states y = l1 ++ m :: l2 ->
      step L_ok y (set_threads (set_states y (l1 ++ l2)) (option_list (mdv_syncerlog_evt_trlog_state (y_syncer y) m) ++ y_threads y))
  | step_data y l1 m l2 : y_data y = l1 ++ m :: l2 ->
      step L_ok y (set_saves (set_data y (l1 ++ l2)) (option_list (mdv_syncer_evt_trlog_data (peer y) m) ++ y_saves y))
  (* jobs *)
  | step_send y l1 l r l2 : y_jobs y = l1 ++ (l, r) :: l2 ->
      step L_ok y (set_data (set_jobs y (l1 ++ l2)) (option_list (mdv_syncerlog_data_send_fn (y_syncer y) (y_log y) l r) ++ y_data y))
  | step_save y ok l1 m l2 : y_saves y = l1 ++ m :: l2 ->
      let '(log, m') := mdv_syncer_data_save_fn ok (peer y) (y_peer y) m in
      step (if (ok : bool) then L_ok else L_fail) y (set_states (set_peer (set_saves y (l1 ++ l2)) log) (m' :: y_states y))
  (* what may be lost *)
  | lose_sync y l1 m l2 : y_syncs y = l1 ++ m :: l2 -> step L_fail y (set_syncs y (l1 ++ l2))
  | lose_state y l1 m l2 : y_states y = l1 ++ m :: l2 -> step L_fail y (set_states y (l1 ++ l2))
  | lose_job y l1 j l2 : y_jobs y = l1 ++ j :: l2 -> step L_fail y (set_jobs y (l1 ++ l2))
  | lose_data y l1 m l2 : y_data y = l1 ++ m :: l2 -> step L_fail y (set_data y (l1 ++ l2))
  | lose_save y l1 m l2 : y_saves y = l1 ++ m :: l2 -> step L_fail y (set_saves y (l1 ++ l2)).

(** The numbers stay below the limit of 64 bits. *)
Definition roomy y : Prop := tl_top (y_log y) + batch_size < 2 ^ 64 /\ sl_requests (y_syncer y) < 2 ^ 64 - 1.

Inductive steps : list label -> sys T -> sys T -> Prop :=
  | steps_nil y : steps [] y y
  | steps_snoc ls l y y' y'' : steps ls y y' -> roomy y' -> step l y' y'' -> steps (ls ++ [l]) y y''.

(** A new synchronizer, which starts at once. *)
Definition mdv_syncerlog_create (uuid peer trlog : mdv_uuid) : mdv_syncerlog := mk_syncerlog uuid peer trlog 0 0.

Definition created (uuid peer trlog : mdv_uuid) (log peer_log : T) : sys T :=
  mk_sys (mdv_syncerlog_create uuid peer trlog) log peer_log false [St_empty] [] [] [] [] [] [] [].

(** Nothing is left to do. *)
Definition quiescent y : Prop :=
  y_changed y = false /\ y_threads y = [] /\ y_syncs y = [] /\ y_states y = [] /\ y_jobs y = [] /\ y_data y = [] /\ y_saves y = [].

(** ** Ranges *)

(** Consecutive ranges from [a] to [b], none empty and none above the size of a
    batch. *)
Fixpoint tiles (a : Z) (l : list (Z * Z)) (b : Z) : Prop :=
  match l with [] => a = b | (x, y) :: l => x = a /\ x < y <= x + batch_size /\ tiles y l b end.

Lemma tiles_snoc a l b c : tiles a l b -> b < c <= b + batch_size -> tiles a (l ++ [(b, c)]) c.
Proof. revert a. induction l as [|[x y] l IH]; intros a Hl Hc; cbn in *; [by subst|]. destruct Hl as (-> & Hy & Hl). split; [done|]. split; [done|]. by apply IH. Qed.

Lemma tiles_le a l b : tiles a l b -> a <= b.
Proof. revert a. induction l as [|[x y] l IH]; intros a Hl; cbn in *; [lia|]. destruct Hl as (-> & Hy & Hl). apply IH in Hl. lia. Qed.

(** The range that a thread has claimed and for which it is to request a job. *)
Definition emits (t : thread) : option (Z * Z) := match t with Sc_emit _ synced _ rrange => Some (synced, rrange) | _ => None end.

Definition range_ok (t : thread) : Prop :=
  match t with Sc_cas _ s _ r => 0 <= s -> s < r <= s + batch_size | Sc_emit _ s _ r => s < r | _ => True end.

Record tiled y : Prop := {
  ti_ranges : tiles 0 (y_ranges y) (sl_synced (y_syncer y));
  ti_threads : Forall range_ok (y_threads y);
  ti_emitted : y_emitted y ++ omap emits (y_threads y) ⊆+ y_ranges y
}.

(** Nothing but a step of a thread touches the ranges. *)
Lemma tiled_same y y' l : tiled y -> y_ranges y' = y_ranges y -> sl_synced (y_syncer y') = sl_synced (y_syncer y) -> y_emitted y' = y_emitted y ->
  y_threads y' = l ++ y_threads y -> Forall (fun t => range_ok t /\ emits t = None) l -> tiled y'.
Proof.
  intros [H1 H2 H3] E1 E2 E3 E4 Hl. split; rewrite ?E1, ?E2, ?E3, ?E4; try done.
  - apply Forall_app. split; [|done]. eapply Forall_impl; [exact Hl|]. by intros t [Ht _].
  - rewrite omap_app. replace (omap emits l) with ([] : list (Z * Z)); [done|]. symmetry. clear -Hl. induction Hl as [|t l [_ Ht] _ IH]; [done|]. cbn. by rewrite Ht.
Qed.

Hypothesis Hbatch : 0 < batch_size.

(** A thread goes on without a change of the ranges. *)
Lemma tiled_quiet y y' l1 t l2 t' :
  tiled y -> y_threads y = l1 ++ t :: l2 -> y_threads y' = l1 ++ option_list t' ++ l2 -> emits t = None -> Forall range_ok (option_list t') -> t' ≫= emits = None ->
  y_ranges y' = y_ranges y -> sl_synced (y_syncer y') = sl_synced (y_syncer y) -> y_emitted y' = y_emitted y -> tiled y'.
Proof.
  intros [H1 H2 H3] E E' Ht Hr Ht' E1 E2 E3. rewrite E in H2, H3. apply Forall_app in H2 as [Hf1 [_ Hf2]%Forall_cons]. split; rewrite ?E1, ?E2, ?E3, ?E'; try done.
  - apply Forall_app. split; [done|]. apply Forall_app. by split.
  - rewrite !omap_app in *. cbn in H3. rewrite Ht in H3. destruct t' as [t'|]; cbn in *; [by rewrite Ht'|done].
Qed.

Lemma tiled_thread y ok spurious l1 t l2 :
  roomy y -> y_threads y = l1 ++ t :: l2 -> tiled y -> tiled (run_thread ok spurious l1 t l2 y).
Proof.
  intros [Hroom _] Et Hy. pose proof (tiles_le _ _ _ (ti_ranges _ Hy)) as Hle. pose proof (ti_threads _ Hy) as Hf. rewrite Et in Hf. apply Forall_app in Hf as [Hf1 [Ht Hf2]%Forall_cons].
  unfold run_thread. destruct (emits t) as [[s r]|] eqn:Em.
  - destruct t; try discriminate Em. injection Em as -> ->. cbn [range_ok thread_step mdv_syncerlog_schedule] in *. rewrite (proj2 (Z.ltb_lt _ _) Ht).
    destruct Hy as [H1 _ H3]. rewrite Et, omap_app in H3. cbn in H3.
    assert (Hgo : forall t' y', emits t' = None -> range_ok t' -> y_threads y' = l1 ++ t' :: l2 -> y_syncer y' = y_syncer y -> y_ranges y' = y_ranges y -> y_emitted y' = (s, r) :: y_emitted y -> tiled y').
    { intros t' y' He Hr E1 E2 E3 E4. split; rewrite ?E1, ?E2, ?E3, ?E4; [done|by apply Forall_app; split; [|constructor]|]. rewrite omap_app. cbn. rewrite He.
      etrans; [|exact H3]. apply Permutation_submseteq. solve_Permutation. }
    destruct (r <? trlog_top), ok; (eapply Hgo; [| |cbn; reflexivity|done..]); done.
  - assert (Hq : forall t' y', Forall range_ok (option_list t') -> t' ≫= emits = None -> y_threads y' = l1 ++ option_list t' ++ l2 -> y_ranges y' = y_ranges y ->
              sl_synced (y_syncer y') = sl_synced (y_syncer y) -> y_emitted y' = y_emitted y -> tiled y') by (intros t' y' Ha Hb E1 E2 E3 E4; by apply (tiled_quiet y y' l1 t l2 t')).
    destruct t; try discriminate Em; cbn [thread_step mdv_syncerlog_start mdv_syncerlog_schedule].
    + destruct (tl_top (y_log y) =? 0); (eapply Hq; [| |reflexivity|done..]); repeat constructor.
    + destruct (negb (sl_requests (y_syncer y) =? 0)); (eapply Hq; [| |reflexivity|done..]); repeat constructor.
    + destruct ok; (eapply Hq; [| |reflexivity|done..]); repeat constructor.
    + (eapply Hq; [| |reflexivity|done..]); repeat constructor.
    + (eapply Hq; [| |reflexivity|done..]); repeat constructor.
    + destruct (Z.leb_spec (tl_top (y_log y)) synced) as [|Hlt]; (eapply Hq; [| |reflexivity|done..]); try (by repeat constructor).
      constructor; [|done]. cbn [range_ok]. intros Hs. rewrite (wrap_id 64) by (unfold fits; lia). destruct (Z.ltb_spec (synced + batch_size) (tl_top (y_log y))); lia.
    + destruct spurious; [(eapply Hq; [| |reflexivity|done..]); repeat constructor|]. cbn [orb]. destruct (Z.eqb_spec (sl_synced (y_syncer y)) synced) as [E|_]; cbn [negb]; [|(eapply Hq; [| |reflexivity|done..]); repeat constructor].
      destruct Hy as [H1 _ H3]. rewrite E in H1, Hle. specialize (Ht Hle). rewrite Et, omap_app in H3. cbn in H3. split; cbn [put_effect set_ranges set_threads set_syncer y_ranges y_syncer y_threads y_emitted sl_synced set_synced claim].
      * by apply tiles_snoc.
      * apply Forall_app. split; [done|]. constructor; [|done]. cbn. lia.
      * rewrite omap_app. cbn. rewrite (Permutation_app_comm (y_ranges y)). cbn. etrans; [|by apply submseteq_skip]. apply Permutation_submseteq. solve_Permutation.
    + destruct (sl_requests (y_syncer y) =? requests); (eapply Hq; [| |reflexivity|done..]); repeat constructor.
    + (eapply Hq; [| |reflexivity|done..]); repeat constructor.
    + destruct ok; (eapply Hq; [| |reflexivity|done..]); repeat constructor.
Qed.

Lemma tiled_step l y y' : roomy y -> step l y y' -> tiled y -> tiled y'.
Proof.
  intros Hr Hs Hy. destruct Hs as [y op _|y op _|y ok sp l1 t l2 E|y E|y l1 m l2 E|y l1 m l2 E|y l1 m l2 E|y l1 l r l2 E|y ok l1 m l2 E|y l1 m l2 E|y l1 m l2 E|y l1 m l2 E|y l1 m l2 E|y l1 m l2 E].
  - by apply (tiled_same y _ [Add_notify]); [..|repeat constructor].
  - by apply (tiled_same y _ [Add_store (tl_top (y_log y)) op]); [..|repeat constructor].
  - by apply tiled_thread.
  - eapply (tiled_same y); [done..|reflexivity|]. unfold mdv_syncerlog_evt_changed. case_match; cbn; repeat constructor.
  - by apply (tiled_same y _ []).
  - eapply (tiled_same y); [done..|reflexivity|]. unfold mdv_syncerlog_evt_trlog_state. case_match; cbn; repeat constructor.
  - by apply (tiled_same y _ []).
  - by apply (tiled_same y _ []).
  - by apply (tiled_same y _ []).
  - by apply (tiled_same y _ []).
  - by apply (tiled_same y _ []).
  - by apply (tiled_same y _ []).
  - by apply (tiled_same y _ []).
  - by apply (tiled_same y _ []).
Qed.

End System.

(** ** The invariant of runs without failures *)

#[global] Instance thread_eq_dec : EqDecision thread.
Proof. solve_decision. Defined.

Section Convergence.
Context {T : Type} `{TranslogLaws T} (batch_size base : Z).
Implicit Types y : sys T.

Abbreviation requests y := (sl_requests (y_syncer y)).
Abbreviation synced y := (sl_synced (y_syncer y)).
Abbreviation top y := (tl_top (y_log y)).

(** Up to where the operations were sent, or were with the peer from the start. *)
Definition cov (s : mdv_syncerlog) : Z := Z.max (sl_synced s) base.

Definition thread_ok (log_top : Z) (s : mdv_syncerlog) (t : thread) : Prop :=
  match t with
  | Sc_requests pos => 0 <= pos <= cov s
  | Sc_synced pos r => 0 <= pos <= cov s /\ 0 <= r
  | Sc_top r sy | Sc_finish r sy => 0 <= sy <= cov s /\ 0 <= r
  | Sc_cas r sy tp rr => 0 <= sy /\ sy < rr <= tp /\ tp <= log_top /\ 0 <= r
  | Sc_emit r sy tp rr => 0 <= sy < rr /\ rr <= sl_synced s /\ rr <= tp <= log_top /\ 0 <= r
  | Add_store _ _ => False
  | _ => True
  end.

(** A thread that takes care of the requests so far. *)
Definition serves (n : Z) (t : thread) : Prop :=
  match t with
  | St_publish | Sc_requests _ => True
  | Sc_synced _ r | Sc_top r _ | Sc_cas r _ _ _ | Sc_emit r _ _ _ | Sc_finish r _ => 1 <= r <= n
  | _ => False
  end.

(** A thread that looks at the end of the log again, or has seen the last one. *)
Definition awake_thread (log_top n : Z) (t : thread) : Prop :=
  match t with
  | Sc_cas r _ tp _ | Sc_emit r _ tp _ => tp = log_top \/ (1 <= r /\ r <> n)
  | Sc_finish r _ => 1 <= r /\ r <> n
  | Add_store _ _ => False
  | _ => True
  end.

(** An operation on its way. *)
Definition underway y (id : Z) : Prop :=
  (exists m, m ∈ y_saves y /\ id ∈ (td_rows m).*1) \/ (exists m, m ∈ y_data y /\ id ∈ (td_rows m).*1) \/
  (exists l r, (l, r) ∈ y_jobs y /\ l <= id < r) \/ (exists l r, (l, r) ∈ omap emits (y_threads y) /\ l <= id < r).

Definition sync_ok (s : mdv_syncerlog) (m : mdv_evt_trlog_sync) : Prop := m = mk_sync (sl_trlog s) (sl_uuid s) (sl_peer s).
Definition state_ok (s : mdv_syncerlog) (m : mdv_evt_trlog_state) : Prop :=
  ts_from m = sl_peer s /\ ts_to m = sl_uuid s /\ ts_trlog m = sl_trlog s /\ 0 <= ts_top m <= cov s.
Definition data_ok (s : mdv_syncerlog) (log : T) (m : mdv_evt_trlog_data) : Prop :=
  td_from m = sl_uuid s /\ td_to m = sl_peer s /\ td_trlog m = sl_trlog s /\
  Forall (fun o => tl_map log !! o.1 = Some o.2 /\ o.1 < sl_synced s) (td_rows m).

(** Somebody will answer the requests; somebody will see the end of the log. *)
Definition counted y : Prop :=
  requests y <> 0 -> y_syncs y <> [] \/ y_states y <> [] \/ exists t, t ∈ y_threads y /\ serves (requests y) t.
Definition awake y : Prop :=
  cov (y_syncer y) < top y -> y_changed y = true \/ y_syncs y <> [] \/ y_states y <> [] \/ exists t, t ∈ y_threads y /\ awake_thread (top y) (requests y) t.

Record inv y : Prop := {
  v_log : tl_ok (y_log y);
  v_peer : tl_ok (y_peer y);
  v_sub : tl_map (y_peer y) ⊆ tl_map (y_log y);
  v_pos : 0 <= synced y <= top y;
  v_base : 0 <= base <= top y;
  v_req : 0 <= requests y;
  v_ptop : tl_top (y_peer y) <= cov (y_syncer y);
  v_threads : Forall (thread_ok (top y) (y_syncer y)) (y_threads y);
  v_syncs : Forall (sync_ok (y_syncer y)) (y_syncs y);
  v_states : Forall (state_ok (y_syncer y)) (y_states y);
  v_jobs : Forall (fun j => 0 <= j.1 < j.2 /\ j.2 <= synced y) (y_jobs y);
  v_data : Forall (data_ok (y_syncer y) (y_log y)) (y_data y);
  v_saves : Forall (data_ok (y_syncer y) (y_log y)) (y_saves y);
  v_cover : forall id, is_Some (tl_map (y_log y) !! id) -> id < cov (y_syncer y) -> is_Some (tl_map (y_peer y) !! id) \/ underway y id;
  v_counted : counted y;
  v_awake : awake y
}.

(** More of the log is known, and the position is further. *)
Definition later (s s' : mdv_syncerlog) : Prop :=
  sl_uuid s' = sl_uuid s /\ sl_peer s' = sl_peer s /\ sl_trlog s' = sl_trlog s /\ sl_synced s <= sl_synced s'.

Lemma cov_later s s' : later s s' -> cov s <= cov s'.
Proof. intros (_ & _ & _ & Hs). unfold cov. lia. Qed.

Lemma thread_ok_later n n' s s' t : later s s' -> n <= n' -> thread_ok n s t -> thread_ok n' s' t.
Proof. intros Hl Hn. pose proof (cov_later _ _ Hl). destruct Hl as (_ & _ & _ & Hs). destruct t; cbn; intuition lia. Qed.

Lemma state_ok_later s s' m : later s s' -> state_ok s m -> state_ok s' m.
Proof. intros Hl (E1 & E2 & E3 & Ht). pose proof (cov_later _ _ Hl). destruct Hl as (E4 & E5 & E6 & _). unfold state_ok. rewrite E4, E5, E6. split_and!; try done; lia. Qed.

Lemma sync_ok_later s s' m : later s s' -> sync_ok s m -> sync_ok s' m.
Proof. intros (E1 & E2 & E3 & _). unfold sync_ok. by rewrite E1, E2, E3. Qed.

Lemma data_ok_later s s' log log' m : later s s' -> tl_map log ⊆ tl_map log' -> data_ok s log m -> data_ok s' log' m.
Proof.
  intros (E1 & E2 & E3 & Hs) Hm (F1 & F2 & F3 & Hr). unfold data_ok. rewrite E1, E2, E3. split_and!; try done. eapply Forall_impl; [exact Hr|]. cbn. intros o [Ho Hlt]. split; [|lia]. by eapply lookup_weaken.
Qed.

Lemma underway_more y y' id :
  y_saves y ⊆ y_saves y' -> y_data y ⊆ y_data y' -> y_jobs y ⊆ y_jobs y' -> omap emits (y_threads y) ⊆ omap emits (y_threads y') -> underway y id -> underway y' id.
Proof. intros H1 H2 H3 H4. unfold underway. set_solver. Qed.

Lemma cons_some {A} (x : A) l : x :: l <> [].
Proof. done. Qed.

(** An addition to the log. *)
Lemma inv_append y op : roomy batch_size y -> 0 < batch_size -> tl_op_ok op -> inv y ->
  inv (set_threads (set_log y (tl_store (tl_new_id (y_log y)) (tl_top (y_log y)) op)) (Add_notify :: y_threads y)).
Proof.
  intros [Hroom _] Hbatch Hop Hy. destruct Hy. pose proof (tl_top_range _ v_log0) as Htr. destruct (tl_new_id_map _ v_log0 ltac:(lia)) as (N1 & N2 & N3).
  assert (Hnone : tl_map (y_log y) !! top y = None). { destruct (tl_map (y_log y) !! top y) eqn:E; [|done]. pose proof (tl_top_above _ (top y) v_log0 ltac:(eauto)). lia. }
  assert (Hid : 0 <= top y < tl_top (tl_new_id (y_log y))) by lia. destruct (tl_store_map (tl_new_id (y_log y)) (top y) op N1 Hid Hop ltac:(by rewrite N2)) as (S1 & S2 & S3). clear Hid. set (log := tl_store _ _ _) in *. rewrite N2 in S2. rewrite N3 in S3.
  assert (Hlat : later (y_syncer y) (y_syncer y)) by (split_and!; done || lia). assert (Hsub : tl_map (y_log y) ⊆ tl_map log) by (rewrite S2; by apply insert_subseteq).
  split; cbn [set_threads set_log y_syncer y_log y_peer y_changed y_threads y_syncs y_states y_jobs y_data y_saves]; rewrite ?S3; try done; try lia.
  - by etrans.
  - constructor; [done|]. eapply Forall_impl; [exact v_threads0|]. intros t. by apply thread_ok_later; [|lia].
  - eapply Forall_impl; [exact v_data0|]. intros m. by apply data_ok_later.
  - eapply Forall_impl; [exact v_saves0|]. intros m. by apply data_ok_later.
  - intros id Hid Hlt. assert (Hold : is_Some (tl_map (y_log y) !! id)). { rewrite S2 in Hid. unfold cov in Hlt. rewrite lookup_insert_ne in Hid; [done|]. lia. }
    destruct (v_cover0 id Hold Hlt) as [Hp|Hu]; [by left|right]. eapply underway_more; [..|exact Hu]; cbn; set_solver.
  - intros Hr. destruct (v_counted0 Hr) as [?|[?|(t & Ht & Hs)]]; [by left|by right; left|]. right; right. exists t. split; [|done]. cbn. set_solver.
  - intros _. right; right; right. exists Add_notify. split; [|done]. cbn. set_solver.
Qed.

(** Messages and jobs that arrive. *)
Lemma inv_changed y : inv y -> y_changed y = true ->
  inv (set_threads (set_changed y false) (option_list (mdv_syncerlog_evt_changed (y_syncer y) (sl_trlog (y_syncer y))) ++ y_threads y)).
Proof.
  intros Hy Hc. unfold mdv_syncerlog_evt_changed. rewrite decide_True by done. destruct Hy. split; try done; cbn.
  - by constructor.
  - intros Hr. destruct (v_counted0 Hr) as [?|[?|(t & Ht & Hs)]]; [by left|by right; left|]. right; right. exists t. split; [by right|done].
  - intros _. right; right; right. exists St_empty. split; [by left|done].
Qed.

Lemma inv_sync y l1 m l2 : inv y -> y_syncs y = l1 ++ m :: l2 ->
  inv (set_states (set_syncs y (l1 ++ l2)) (option_list (mdv_syncer_evt_trlog_sync (peer y) (Some (y_peer y)) m) ++ y_states y)).
Proof.
  intros Hy E. destruct Hy. rewrite E in v_syncs0. apply Forall_app in v_syncs0 as [Hs1 [-> Hs2]%Forall_cons]. unfold mdv_syncer_evt_trlog_sync. rewrite decide_False by (unfold peer; cbn; tauto).
  split; try done; cbn.
  - by apply Forall_app.
  - constructor; [|done]. split_and!; try done. apply (tl_top_range _ v_peer0).
  - intros _. right; left. done.
  - intros _. right; right; left. done.
Qed.

Lemma inv_state y l1 m l2 : inv y -> y_states y = l1 ++ m :: l2 ->
  inv (set_threads (set_states y (l1 ++ l2)) (option_list (mdv_syncerlog_evt_trlog_state (y_syncer y) m) ++ y_threads y)).
Proof.
  intros Hy E. destruct Hy. rewrite E in v_states0. apply Forall_app in v_states0 as [Hs1 [(F1 & F2 & F3 & Ht) Hs2]%Forall_cons]. unfold mdv_syncerlog_evt_trlog_state. rewrite decide_False by (rewrite F1, F2, F3; tauto).
  split; try done; cbn.
  - by constructor.
  - by apply Forall_app.
  - intros _. right; right. exists (Sc_requests (ts_top m)). split; [by left|done].
  - intros _. right; right; right. exists (Sc_requests (ts_top m)). split; [by left|done].
Qed.

Lemma inv_data y l1 m l2 : inv y -> y_data y = l1 ++ m :: l2 ->
  inv (set_saves (set_data y (l1 ++ l2)) (option_list (mdv_syncer_evt_trlog_data (peer y) m) ++ y_saves y)).
Proof.
  intros Hy E. destruct Hy. rewrite E in v_data0. apply Forall_app in v_data0 as [Hs1 [Hm Hs2]%Forall_cons]. unfold mdv_syncer_evt_trlog_data. rewrite decide_False by (destruct Hm as (_ & -> & _); unfold peer; tauto).
  split; try done; cbn.
  - by apply Forall_app.
  - by constructor.
  - intros id Hid Hlt. destruct (v_cover0 id Hid Hlt) as [Hp|Hu]; [by left|right]. unfold underway in *. rewrite E in Hu. cbn.
    destruct Hu as [(m1 & Hm1 & Hid1)|[(m1 & Hm1 & Hid1)|Hu]]; [left; exists m1; set_solver| |by right; right].
    apply elem_of_app in Hm1 as [?|[->|?]%elem_of_cons]; [right; left; exists m1; set_solver|left; exists m; set_solver|right; left; exists m1; set_solver].
Qed.

Lemma inv_send y l1 l r l2 : inv y -> roomy batch_size y -> 0 < batch_size -> y_jobs y = l1 ++ (l, r) :: l2 ->
  inv (set_data (set_jobs y (l1 ++ l2)) (option_list (mdv_syncerlog_data_send_fn (y_syncer y) (y_log y) l r) ++ y_data y)).
Proof.
  intros Hy [Hroom _] Hb E. destruct Hy. rewrite E in v_jobs0. apply Forall_app in v_jobs0 as [Hs1 [[Hlr Hr] Hs2]%Forall_cons]. cbn in Hlr, Hr. assert (Hl : 0 <= l < 2 ^ 64) by lia.
  pose proof (fun id op => tl_range_elem _ l r id op v_log0 Hl) as Hel. unfold mdv_syncerlog_data_send_fn. set (rs := tl_range (y_log y) l r) in *.
  assert (Hcov : forall id, is_Some (tl_map (y_log y) !! id) -> l <= id < r -> id ∈ rs.*1).
  { intros id [op Hop] Hid. apply list_elem_of_fmap. exists (id, op). split; [done|]. by apply Hel. }
  split; try done; cbn.
  - by apply Forall_app.
  - destruct (length rs =? 0)%nat; [done|]. cbn. constructor; [|done]. split_and!; try done. apply Forall_forall. intros [id op] Hin%Hel. cbn. split; [apply Hin|lia].
  - intros id Hid Hlt. destruct (v_cover0 id Hid Hlt) as [Hp|Hu]; [by left|right]. unfold underway in *. rewrite E in Hu. cbn.
    destruct (Nat.eqb_spec (length rs) 0) as [E0|E0]; cbn.
    + assert (Hno : forall j, l <= j < r -> is_Some (tl_map (y_log y) !! j) -> False). { intros j Hj Hsome. specialize (Hcov j Hsome Hj). apply length_zero_iff_nil in E0. rewrite E0 in Hcov. by apply elem_of_nil in Hcov. }
      destruct Hu as [?|[?|[(a & b & Hin & Hab)|?]]]; auto. right; right; left. exists a, b. split; [|done]. apply elem_of_app in Hin as [?|[Hin|?]%elem_of_cons]; [set_solver| |set_solver]. injection Hin as -> ->. by destruct (Hno id Hab).
    + destruct Hu as [?|[(m1 & ? & ?)|[(a & b & Hin & Hab)|?]]]; [auto|right; left; exists m1; split; [by right|done]| |auto].
      apply elem_of_app in Hin as [?|[Hin|?]%elem_of_cons]; [right; right; left; exists a, b; split; [apply elem_of_app; by left|done]| |right; right; left; exists a, b; split; [apply elem_of_app; by right|done]]. injection Hin as -> ->.
      right; left. eexists. split; [by left|]. cbn. by apply Hcov.
Qed.

Lemma raise_bound l a b : a <= b -> Forall (fun o : Z * bytes => o.1 < b) l -> foldl (fun m o => Z.max m (o.1 + 1)) a l <= b.
Proof. intros Ha Hl. revert a Ha. induction Hl as [|o l Ho _ IH]; intros a Ha; cbn; [done|]. apply IH. lia. Qed.

Lemma raise_mono l a : a <= foldl (fun m (o : Z * bytes) => Z.max m (o.1 + 1)) a l.
Proof. revert a. induction l as [|o l IH]; intros a; cbn; [lia|]. specialize (IH (Z.max a (o.1 + 1))). lia. Qed.

Lemma inv_save y l1 m l2 : inv y -> roomy batch_size y -> 0 < batch_size -> y_saves y = l1 ++ m :: l2 ->
  let '(log, m') := mdv_syncer_data_save_fn true (peer y) (y_peer y) m in
  inv (set_states (set_peer (set_saves y (l1 ++ l2)) log) (m' :: y_states y)).
Proof.
  intros Hy [Hroom _] Hb E. destruct Hy. rewrite E in v_saves0. apply Forall_app in v_saves0 as [Hs1 [(F1 & F2 & F3 & Hrows) Hs2]%Forall_cons]. unfold mdv_syncer_data_save_fn.
  destruct (tl_add_map (y_peer y) (td_rows m) v_peer0) as (A1 & A2 & A3).
  { eapply Forall_impl; [exact Hrows|]. cbn. intros o [Ho Hlt]. pose proof (tl_top_above _ o.1 v_log0 ltac:(eauto)). split; [lia|]. exact (tl_ops _ _ _ v_log0 Ho). }
  set (log := tl_add _ _) in *. assert (Htop : tl_top log <= cov (y_syncer y)).
  { rewrite A3. apply raise_bound; [done|]. eapply Forall_impl; [exact Hrows|]. cbn. unfold cov. intros o [_ Ho]. lia. }
  assert (Hin : forall id, is_Some (tl_map (y_peer y) !! id) \/ id ∈ (td_rows m).*1 -> is_Some (tl_map log !! id)).
  { intros id Hid. rewrite A2. destruct (tl_map (y_peer y) !! id) as [x|] eqn:Ex; [rewrite (lookup_union_Some_l _ _ _ _ Ex); eauto|]. destruct Hid as [[? ?]|Hid]; [done|]. rewrite lookup_union_r by done.
    destruct (list_to_map (M := gmap Z bytes) (td_rows m) !! id) eqn:En; [eauto|]. apply not_elem_of_list_to_map in En. done. }
  split; try done; cbn.
  - rewrite A2. apply map_union_least; [done|]. apply map_subseteq_spec. intros id op Hl%elem_of_list_to_map_2. eapply Forall_forall in Hrows; [|exact Hl]. apply Hrows.
  - constructor; [|done]. split_and!; try done. rewrite A3. etrans; [|apply raise_mono]. apply (tl_top_range _ v_peer0).
  - by apply Forall_app.
  - intros id Hid Hlt. destruct (v_cover0 id Hid Hlt) as [Hp|Hu]; [left; by apply Hin; left|]. unfold underway in *. rewrite E in Hu. cbn. destruct Hu as [(m1 & Hm1 & Hid1)|Hu]; [|right; by right].
    apply elem_of_app in Hm1 as [?|[->|?]%elem_of_cons]; [right; left; set_solver|left; by apply Hin; right|right; left; set_solver].
  - intros _. right; left. done.
  - intros _. right; right; left. done.
Qed.

(** ** Steps of the threads *)

(** Other threads than the one that goes on. *)
Lemma pick l1 (t u : thread) l2 t' : u ∈ l1 ++ t :: l2 -> u = t \/ u ∈ l1 ++ option_list t' ++ l2.
Proof. intros [?|[?|?]%elem_of_cons]%elem_of_app; [right|by left|right]; rewrite !elem_of_app; auto. Qed.

Lemma awake_other tp n n' u : awake_thread tp n u -> n' = n \/ n' = 0 -> awake_thread tp n' u.
Proof. intros Hu [-> | ->]; [done|]. destruct u; cbn in *; intuition lia. Qed.

(** A thread goes on.  Given are who answers the requests, when their number is no
    longer the same, who sees the end of the log, when the thread was to see it,
    and what becomes of the range that the thread had claimed. *)
Lemma inv_go y l1 t l2 t' s' :
  inv y -> y_threads y = l1 ++ t :: l2 -> later (y_syncer y) s' -> sl_synced s' <= top y -> 0 <= sl_requests s' ->
  Forall (thread_ok (top y) s') (option_list t') ->
  (forall l r, emits t = Some (l, r) -> (l, r) ∈ y_jobs y) ->
  (forall id, cov (y_syncer y) <= id < cov s' -> exists l r, (l, r) ∈ omap emits (option_list t') /\ l <= id < r) ->
  (sl_requests s' <> 0 -> serves (requests y) t \/ sl_requests s' <> requests y -> (exists u, u ∈ l1 ++ option_list t' ++ l2 /\ serves (sl_requests s') u) \/ y_syncs y <> [] \/ y_states y <> []) ->
  (cov s' < top y -> awake_thread (top y) (requests y) t \/ (sl_requests s' <> requests y /\ sl_requests s' <> 0) ->
     (exists u, u ∈ l1 ++ option_list t' ++ l2 /\ awake_thread (top y) (sl_requests s') u) \/ y_changed y = true \/ y_syncs y <> [] \/ y_states y <> []) ->
  inv (set_threads (set_syncer y s') (l1 ++ option_list t' ++ l2)).
Proof.
  intros Hy E Hlat Es Hr Ht' He Hnew Hserve Hawake. destruct Hy. pose proof (cov_later _ _ Hlat) as Hcov. pose proof Hlat as (_ & _ & _ & Hsy).
  rewrite E in v_threads0. apply Forall_app in v_threads0 as [Hf1 [Hf Hf2]%Forall_cons].
  assert (Hmono : forall l, Forall (thread_ok (top y) (y_syncer y)) l -> Forall (thread_ok (top y) s') l) by (intros l Hl; eapply Forall_impl; [exact Hl|]; intros u; by apply thread_ok_later).
  split; cbn [set_threads set_syncer y_syncer y_log y_peer y_changed y_threads y_syncs y_states y_jobs y_data y_saves]; try done; try lia.
  - rewrite !Forall_app. auto.
  - eapply Forall_impl; [exact v_syncs0|]. intros m. by apply sync_ok_later.
  - eapply Forall_impl; [exact v_states0|]. intros m. by apply state_ok_later.
  - eapply Forall_impl; [exact v_jobs0|]. cbn. intros [l r] [? ?]. cbn in *. lia.
  - eapply Forall_impl; [exact v_data0|]. intros m. by apply data_ok_later.
  - eapply Forall_impl; [exact v_saves0|]. intros m. by apply data_ok_later.
  - intros id Hid Hlt. unfold underway. cbn. rewrite !omap_app. destruct (decide (id < cov (y_syncer y))) as [Hold|Hn].
    + destruct (v_cover0 id Hid Hold) as [?|[?|[?|[?|(l & r & Hin & Hlr)]]]]; auto. rewrite E, omap_app in Hin. apply elem_of_app in Hin as [Hin|Hin]; [right; right; right; right; exists l, r; rewrite !elem_of_app; auto|].
      cbn in Hin. destruct (emits t) as [[l0 r0]|] eqn:Em; [apply elem_of_cons in Hin as [Hin|Hin]|]; [|right; right; right; right; exists l, r; rewrite !elem_of_app; auto..].
      injection Hin as -> ->. right; right; right; left. exists l0, r0. auto.
    + destruct (Hnew id ltac:(lia)) as (l & r & Hin & Hlr). right; right; right; right. exists l, r. rewrite !elem_of_app. auto.
  - intros Hn. cbn in *. destruct (decide (sl_requests s' = requests y)) as [Eq|Ne].
    + rewrite Eq in Hn. destruct (v_counted0 Hn) as [?|[?|(u & Hu & Hs)]]; auto. rewrite E in Hu. apply (pick _ _ _ _ t') in Hu as [->|Hu]; [|rewrite <- Eq in Hs; eauto]. rewrite <- Eq in Hn. destruct (Hserve Hn (or_introl Hs)) as [?|[?|?]]; auto.
    + destruct (Hserve Hn (or_intror Ne)) as [?|[?|?]]; auto.
  - intros Hlt. cbn in *. assert (Hgo : awake_thread (top y) (requests y) t \/ (sl_requests s' <> requests y /\ sl_requests s' <> 0) ->
      y_changed y = true \/ y_syncs y <> [] \/ y_states y <> [] \/ exists u, u ∈ l1 ++ option_list t' ++ l2 /\ awake_thread (top y) (sl_requests s') u).
    { intros Hx. destruct (Hawake Hlt Hx) as [?|[?|[?|?]]]; auto. }
    destruct (v_awake0 ltac:(lia)) as [?|[?|[?|(u & Hu & Hs)]]]; auto. rewrite E in Hu. apply (pick _ _ _ _ t') in Hu as [->|Hu]; [auto|].
    destruct (decide (sl_requests s' = requests y \/ sl_requests s' = 0)) as [Eq|Ne]; [|apply Hgo; right; lia]. right; right; right. exists u. split; [done|]. by apply (awake_other _ (requests y)).
Qed.

(** The thread that goes on is among the threads. *)
Lemma goes_on l1 t' l2 : (t' : thread) ∈ l1 ++ option_list (Some t') ++ l2.
Proof. cbn. rewrite elem_of_app. right. by left. Qed.

Lemma later_refl s : later s s.
Proof. split_and!; done. Qed.

Lemma inv_ghost y l l' : inv y -> inv (set_emitted (set_ranges y l) l').
Proof. intros []. by split. Qed.

(** The steps that change nothing shared. *)
Lemma inv_local y l1 t l2 t' :
  inv y -> y_threads y = l1 ++ t :: l2 -> thread_ok (top y) (y_syncer y) t' -> emits t = None ->
  (requests y <> 0 -> serves (requests y) t -> serves (requests y) t') ->
  (cov (y_syncer y) < top y -> awake_thread (top y) (requests y) t -> awake_thread (top y) (requests y) t') ->
  inv (set_threads (set_syncer y (y_syncer y)) (l1 ++ option_list (Some t') ++ l2)).
Proof.
  intros Hy E Ht He Hs Ha. apply (inv_go y l1 t l2 (Some t')); try done; try apply Hy.
  - by constructor.
  - intros l r Hx. congruence.
  - intros id Hid. lia.
  - intros Hn [Hx|Hx]; [|done]. left. exists t'. split; [apply goes_on|auto].
  - intros Hc [Hx|Hx]; [|tauto]. left. exists t'. split; [apply goes_on|auto].
Qed.

Lemma inv_more_syncs y m : inv y -> sync_ok (y_syncer y) m -> inv (set_syncs y (m :: y_syncs y)).
Proof. intros [] Hm. split; try done; cbn; [by constructor|by left|by right; left]. Qed.

Lemma inv_more_jobs y l r : inv y -> 0 <= l < r -> r <= synced y -> inv (set_jobs y ((l, r) :: y_jobs y)).
Proof.
  intros [] Hl Hr. split; try done; cbn; [by constructor|]. intros id Hid Hlt. destruct (v_cover0 id Hid Hlt) as [?|Hu]; [by left|right]. eapply underway_more; [..|exact Hu]; cbn; set_solver.
Qed.

Lemma inv_more_changes y : inv y -> inv (set_changed y true).
Proof. intros []. split; try done. intros _. by left. Qed.

(** The counter goes up: whoever answered the requests sees that there is one more. *)
Lemma serves_more y l1 l2 : inv y -> y_threads y = l1 ++ St_add :: l2 -> requests y <> 0 ->
  (exists u, u ∈ l1 ++ option_list None ++ l2 /\ serves (requests y + 1) u /\ awake_thread (top y) (requests y + 1) u) \/ y_syncs y <> [] \/ y_states y <> [].
Proof.
  intros Hy E Hn. destruct (v_counted _ Hy Hn) as [?|[?|(u & Hu & Hs)]]; auto. left. exists u. rewrite E in Hu. apply (pick _ _ _ _ None) in Hu as [->|Hu]; [done|]. split; [done|]. destruct u; cbn in *; try done; split; lia.
Qed.

Lemma inv_start_add y l1 l2 : inv y -> roomy batch_size y -> y_threads y = l1 ++ St_add :: l2 ->
  let '(t', s, _) := mdv_syncerlog_start true (top y) St_add (y_syncer y) in inv (set_threads (set_syncer y s) (l1 ++ option_list t' ++ l2)).
Proof.
  intros Hy [_ Hroom] E. cbn [mdv_syncerlog_start]. pose proof (v_req _ Hy) as Hr. rewrite (wrap_id 64) by (unfold fits; lia). destruct (Z.eqb_spec (requests y) 0) as [E0|Hne]; cbn [negb].
  - apply (inv_go y l1 St_add l2 (Some St_publish)); try done; try apply Hy; [cbn; lia|by constructor|intros id; unfold cov; cbn; lia|..]; intros _ _; left; exists St_publish; (split; [apply goes_on|done]).
  - pose proof (serves_more y l1 l2 Hy E Hne) as Hs. apply (inv_go y l1 St_add l2 None); try done; try apply Hy; [cbn; lia|intros id; unfold cov; cbn; lia|..]; intros _ _;
      (destruct Hs as [(u & Hu & Hs1 & Hs2)|[?|?]]; [left; exists u; by split|auto..]).
Qed.

Lemma inv_cas y l1 r sy tp rr l2 : inv y -> y_threads y = l1 ++ Sc_cas r sy tp rr :: l2 -> synced y = sy ->
  inv (set_threads (set_syncer y (set_synced (y_syncer y) rr)) (l1 ++ option_list (Some (Sc_emit r sy tp rr)) ++ l2)).
Proof.
  intros Hy E Esy. pose proof (v_threads _ Hy) as Hf. rewrite E in Hf. apply Forall_app in Hf as [_ [Ht _]%Forall_cons]. cbn in Ht.
  apply (inv_go y l1 (Sc_cas r sy tp rr) l2 (Some (Sc_emit r sy tp rr))); try done; try apply Hy.
  - split_and!; try done. cbn. lia.
  - cbn. lia.
  - constructor; [|done]. cbn. lia.
  - intros id. unfold cov. cbn. intros Hid. exists sy, rr. split; [by left|lia].
  - intros Hn [Hx|Hx]; [|done]. left. eexists. split; [apply goes_on|done].
  - intros Hc [Hx|Hx]; [|by destruct Hx]. left. eexists. split; [apply goes_on|done].
Qed.

Lemma inv_emit y l1 r sy tp rr l2 : inv y -> y_threads y = l1 ++ Sc_emit r sy tp rr :: l2 -> (sy, rr) ∈ y_jobs y ->
  inv (set_threads (set_syncer y (y_syncer y)) (l1 ++ option_list (Some (if rr <? tp then Sc_top r rr else Sc_finish r rr)) ++ l2)).
Proof.
  intros Hy E Hj. pose proof (v_threads _ Hy) as Hf. rewrite E in Hf. apply Forall_app in Hf as [_ [Ht _]%Forall_cons]. cbn in Ht. apply (inv_go y l1 (Sc_emit r sy tp rr) l2 (Some _)); try done; try apply Hy.
  - constructor; [|done]. unfold cov. destruct (rr <? tp); cbn; unfold cov; lia.
  - intros l r0 [= <- <-]. done.
  - intros id Hid. lia.
  - intros Hn [Hx|Hx]; [|done]. left. eexists. split; [apply goes_on|]. by destruct (rr <? tp).
  - intros Hc [Hx|Hx]; [|tauto]. left. eexists. split; [apply goes_on|]. destruct (Z.ltb_spec rr tp); cbn in *; [done|]. unfold cov in Hc. lia.
Qed.

Lemma inv_thread y spurious l1 t l2 :
  0 < batch_size -> roomy batch_size y -> inv y -> y_threads y = l1 ++ t :: l2 -> thread_label true spurious t <> L_race -> inv (run_thread batch_size true spurious l1 t l2 y).
Proof.
  intros Hb Hroom Hy E Hlab. pose proof (v_threads _ Hy) as Hf. rewrite E in Hf. apply Forall_app in Hf as [_ [Ht _]%Forall_cons]. unfold run_thread.
  assert (Hgh : forall y' l, inv y' -> inv (set_ranges y' l)) by (intros y' l []; by split). pose proof Hroom as [Hr1 Hr2].
  destruct t as [| | |pos|pos rq|rq sy|rq sy tp rr|rq sy tp rr|rq sy|id op|]; try done; cbn [thread_step mdv_syncerlog_schedule thread_ok] in *.
  - cbn [mdv_syncerlog_start]. destruct (Z.eqb_spec (top y) 0) as [E0|E0]; [|by apply Hgh, (inv_local y l1 St_empty)]. apply Hgh, (inv_go y l1 St_empty l2 None); try done; try apply Hy; [|by intros _ [?|?]|].
    + intros id Hid. lia.
    + intros Hc. unfold cov in Hc. pose proof (v_pos _ Hy). lia.
  - pose proof (inv_start_add y l1 l2 Hy Hroom E) as Hs. destruct (mdv_syncerlog_start true (top y) St_add (y_syncer y)) as [[t' s] e] eqn:Es. assert (He : e = E_none) by (cbn in Es; destruct (negb _); by injection Es). rewrite He. by apply Hgh.
  - cbn [mdv_syncerlog_start put_effect]. set (m := mk_sync _ _ _). pose proof (inv_more_syncs y m Hy eq_refl) as H1.
    apply (Hgh (set_threads (set_syncer (set_syncs y (m :: y_syncs y)) (y_syncer y)) (l1 ++ option_list None ++ l2)) (y_ranges y)), (inv_go _ l1 St_publish l2 None); try done; try apply Hy.
    + intros id Hid. cbn in Hid. lia.
    + intros _ _. by right; left.
    + intros _ _. by right; right; left.
  - apply Hgh, (inv_local y l1 (Sc_requests pos)); try done; cbn; pose proof (v_req _ Hy); lia.
  - apply Hgh, (inv_local y l1 (Sc_synced pos rq)); try done. cbn. unfold cov in *. pose proof (v_pos _ Hy). destruct (Z.ltb_spec (synced y) pos); lia.
  - destruct (Z.leb_spec (top y) sy) as [Hle|Hlt]; apply Hgh, (inv_local y l1 (Sc_top rq sy)); try done; cbn.
    + intros Hc. unfold cov in *. lia.
    + rewrite (wrap_id 64) by (unfold fits; lia). destruct (Z.ltb_spec (sy + batch_size) (top y)); lia.
    + intros _ _. by left.
  - destruct (spurious || negb (synced y =? sy)) eqn:Ec.
    + apply Hgh, (inv_local y l1 (Sc_cas rq sy tp rr)); try done. cbn. unfold cov. pose proof (v_pos _ Hy). lia.
    + apply orb_false_iff in Ec as [_ Ec%negb_false_iff%Z.eqb_eq]. by apply Hgh, inv_cas.
  - rewrite (proj2 (Z.ltb_lt sy rr)) by lia. cbn [put_effect]. pose proof (inv_more_jobs y sy rr Hy ltac:(lia) ltac:(lia)) as H1.
    apply (inv_emit _ l1 rq sy tp rr l2) in H1; [|done|by left]. apply (inv_ghost _ (y_ranges y) ((sy, rr) :: y_emitted y)) in H1. by destruct (rr <? tp).
  - destruct (Z.eqb_spec (requests y) rq) as [Er|Er].
    + apply Hgh, (inv_go y l1 (Sc_finish rq sy) l2 None); try done; try apply Hy; cbn.
      * intros id Hid. unfold cov in Hid. cbn in Hid. lia.
      * intros _ [[_ Hx]|[_ Hx]]; [|done]. by destruct Hx.
    + apply Hgh, (inv_local y l1 (Sc_finish rq sy)); try done; cbn; [|intros Hn _]; pose proof (v_req _ Hy); lia.
  - cbn [put_effect]. pose proof (inv_more_changes y Hy) as H1.
    apply (Hgh (set_threads (set_syncer (set_changed y true) (y_syncer y)) (l1 ++ option_list None ++ l2)) (y_ranges y)), (inv_go _ l1 Add_notify l2 None); try done; try apply Hy.
    + intros id Hid. cbn in Hid. lia.
    + by intros _ [?|?].
    + intros _ _. by right; left.
Qed.

(** Labels of steps that do what they should. *)
Definition regular (l : label) : Prop := l = L_ok \/ l = L_add \/ l = L_spurious.

Lemma inv_step l y y' : 0 < batch_size -> roomy batch_size y -> step batch_size tl_op_ok l y y' -> regular l -> inv y -> inv y'.
Proof.
  intros Hb Hr Hs Hl Hy. unfold regular in Hl. destruct Hs as [y op Hop|y op _|y ok sp l1 t l2 E|y E|y l1 m l2 E|y l1 m l2 E|y l1 m l2 E|y l1 l r l2 E|y ok l1 m l2 E|y l1 m l2 E|y l1 m l2 E|y l1 m l2 E|y l1 m l2 E|y l1 m l2 E]; try (by destruct Hl as [Hl|[Hl|Hl]]).
  - by apply inv_append.
  - assert (Heq : run_thread batch_size ok sp l1 t l2 y = run_thread batch_size true sp l1 t l2 y).
    { destruct ok; [done|]. destruct t as [| | |pos|pos rq|rq sy|rq sy tp rr|rq sy tp rr|rq sy|id op|]; cbn in Hl; try (by destruct Hl as [Hl|[Hl|Hl]]). destruct sp; [done|]. by destruct Hl as [Hl|[Hl|Hl]]. }
    rewrite Heq. apply inv_thread; try done. intros Hx. destruct t; cbn in *; try (by destruct ok, sp).  by destruct Hl as [Hl|[Hl|Hl]].
  - by apply inv_changed.
  - by apply inv_sync.
  - by apply inv_state.
  - by apply inv_data.
  - by apply inv_send.
  - destruct ok; [by apply (inv_save y l1 m l2)|by destruct Hl as [Hl|[Hl|Hl]]].
Qed.

Lemma inv_steps ls y y' : 0 < batch_size -> steps batch_size tl_op_ok ls y y' -> Forall regular ls -> inv y -> inv y'.
Proof.
  intros Hb Hs Hl Hy. induction Hs as [y|ls l y y1 y2 _ IH Hr Hs]; [done|]. apply Forall_app in Hl as [Hl [Hl1 _]%Forall_cons]. eapply inv_step; eauto.
Qed.

Lemma inv_created uuid peer trlog (log peer_log : T) :
  tl_ok log -> tl_ok peer_log -> tl_map peer_log ⊆ tl_map log -> tl_top peer_log = base -> base <= tl_top log ->
  (forall id, is_Some (tl_map log !! id) -> id < base -> is_Some (tl_map peer_log !! id)) -> inv (created uuid peer trlog log peer_log).
Proof.
  intros H1 H2 H3 H4 H5 H6. pose proof (tl_top_range _ H1). pose proof (tl_top_range _ H2). assert (Hc : cov (mdv_syncerlog_create uuid peer trlog) = base) by (unfold cov; cbn; lia).
  split; cbn; rewrite ?Hc; try done; try lia; try (by constructor).
  - intros id Hid Hlt. left. by apply H6.
  - intros _. right; right; right. exists St_empty. split; [by left|done].
Qed.

Lemma inv_quiescent y : inv y -> quiescent y -> tl_map (y_peer y) = tl_map (y_log y).
Proof.
  intros Hy (Q1 & Q2 & Q3 & Q4 & Q5 & Q6 & Q7). destruct Hy. apply map_eq. intros id. destruct (tl_map (y_log y) !! id) as [op|] eqn:El.
  - assert (Hlt : id < cov (y_syncer y)).
    { destruct (Z.le_gt_cases (top y) (cov (y_syncer y))) as [Hle|Hgt]; [pose proof (tl_top_above _ id v_log0 ltac:(eauto)); lia|]. destruct (v_awake0 Hgt) as [?|[?|[?|(t & Ht & _)]]]; try congruence. rewrite Q2 in Ht. by apply elem_of_nil in Ht. }
    destruct (v_cover0 id ltac:(eauto) Hlt) as [[op' Hp]|Hu].
    + pose proof (lookup_weaken _ _ _ _ Hp v_sub0). congruence.
    + unfold underway in Hu. rewrite Q2, Q5, Q6, Q7 in Hu. destruct Hu as [(? & Hx & _)|[(? & Hx & _)|[(? & ? & Hx & _)|(? & ? & Hx & _)]]]; by apply elem_of_nil in Hx.
  - destruct (tl_map (y_peer y) !! id) as [op|] eqn:Ep; [|done]. pose proof (lookup_weaken _ _ _ _ Ep v_sub0). congruence.
Qed.

(** ** The work ends *)

(** How often a thread, or what comes of it, changes the counter of the requests. *)
Definition pot_thread (t : thread) : nat :=
  match t with St_empty | St_add | Add_notify | Add_store _ _ | Sc_emit _ _ _ _ => 2 | _ => 1 end.

Definition pot y : nat :=
  (sum_list_with pot_thread (y_threads y) + (if y_changed y then 2 else 0) + length (y_syncs y) + length (y_states y) + length (y_jobs y) + length (y_data y) + length (y_saves y))%nat.

(** How far a thread is from its end, when the counters stay as they are. *)
Definition off (a b : Z) (n : nat) : nat := if a =? b then 0%nat else n.

Definition weight_thread (s : mdv_syncerlog) (t : thread) : nat :=
  let m r := off r (sl_requests s) 10 in
  let n p := off p (sl_synced s) 5 in
  match t with
  | Sc_finish r p => 1 + m r + n p
  | Sc_cas r p _ _ => 2 + m r + n p
  | Sc_top r p => 3 + m r + n p
  | Sc_synced _ r => 9 + m r
  | Sc_requests _ => 20
  | Sc_emit _ _ _ _ => 43
  | St_publish => 23
  | St_add => 1
  | St_empty => 2
  | Add_notify => 4
  | Add_store _ _ => 5
  end%nat.

Definition weight y : nat :=
  (sum_list_with (weight_thread (y_syncer y)) (y_threads y) + (if y_changed y then 3 else 0) + 22 * length (y_syncs y) + 21 * length (y_states y)
   + 24 * length (y_jobs y) + 23 * length (y_data y) + 22 * length (y_saves y))%nat.

Definition left_of y : nat := Z.to_nat (top y - synced y).

Definition less y' y : Prop :=
  (left_of y' < left_of y)%nat \/ (left_of y' = left_of y /\ (pot y' < pot y)%nat) \/ (left_of y' = left_of y /\ pot y' = pot y /\ (weight y' < weight y)%nat).

Lemma off_le a b n : (off a b n <= n)%nat.
Proof. unfold off. destruct (a =? b); lia. Qed.

Lemma off_same a n : off a a n = 0%nat.
Proof. unfold off. by rewrite Z.eqb_refl. Qed.

Lemma off_diff a b n : a <> b -> off a b n = n.
Proof. intros Hab. unfold off. by rewrite (proj2 (Z.eqb_neq _ _) Hab). Qed.

Ltac weigh E := unfold less, left_of, pot, weight; cbn -[Nat.mul]; rewrite ?E, ?sum_list_with_app, ?length_app; cbn -[Nat.mul].

Lemma less_thread y l1 t l2 : inv y -> y_threads y = l1 ++ t :: l2 -> t <> St_add -> (forall id op, t <> Add_store id op) -> less (run_thread batch_size true false l1 t l2 y) y.
Proof.
  intros Hy E Hadd Hst. pose proof (v_threads _ Hy) as Hf. rewrite E in Hf. apply Forall_app in Hf as [_ [Ht _]%Forall_cons]. unfold run_thread.
  destruct t as [| | |pos|pos rq|rq sy|rq sy tp rr|rq sy tp rr|rq sy|id op|]; cbn [thread_step mdv_syncerlog_start mdv_syncerlog_schedule orb put_effect thread_ok] in *; try done.
  - destruct (top y =? 0); weigh E; lia.
  - weigh E. lia.
  - weigh E. rewrite off_same. lia.
  - set (p := if synced y <? pos then pos else synced y). pose proof (off_le p (synced y) 5). weigh E. fold p. lia.
  - destruct (top y <=? sy); weigh E; lia.
  - destruct (Z.eqb_spec (synced y) sy) as [Es|Es]; cbn [negb].
    + left. unfold left_of. cbn. pose proof (v_pos _ Hy). lia.
    + weigh E. rewrite off_same, (off_diff sy (synced y)) by congruence. lia.
  - rewrite (proj2 (Z.ltb_lt sy rr)) by lia. pose proof (off_le rq (requests y) 10). pose proof (off_le rr (synced y) 5). destruct (rr <? tp); weigh E; lia.
  - destruct (Z.eqb_spec (requests y) rq) as [Er|Er].
    + right; left. weigh E. lia.
    + weigh E. rewrite off_same, (off_diff rq (requests y)) by congruence. lia.
  - weigh E. destruct (y_changed y); lia.
Qed.

Lemma less_step y y' : inv y -> step batch_size tl_op_ok L_ok y y' -> less y' y.
Proof.
  intros Hy Hs. remember L_ok as l eqn:El. destruct Hs as [y op Hop|y op _|y ok sp l1 t l2 E|y E|y l1 m l2 E|y l1 m l2 E|y l1 m l2 E|y l1 l r l2 E|y ok l1 m l2 E|y l1 m l2 E|y l1 m l2 E|y l1 m l2 E|y l1 m l2 E|y l1 m l2 E]; try discriminate El.
  - assert (Hok : ok = true /\ run_thread batch_size ok sp l1 t l2 y = run_thread batch_size true false l1 t l2 y).
    { destruct t; cbn in El; try discriminate El; destruct ok, sp; try discriminate El; done. }
    destruct Hok as [-> ->]. destruct (decide (t = St_add)) as [->|Hne].
    + unfold run_thread. cbn [thread_step mdv_syncerlog_start]. destruct (negb (requests y =? 0)); right; left; weigh E; lia.
    + apply less_thread; try done. intros id op ->. discriminate El.
  - unfold mdv_syncerlog_evt_changed. rewrite decide_True by done. weigh E. lia.
  - destruct (mdv_syncer_evt_trlog_sync (peer y) (Some (y_peer y)) m); weigh E; lia.
  - unfold mdv_syncerlog_evt_trlog_state. case_decide; weigh E; lia.
  - destruct (mdv_syncer_evt_trlog_data (peer y) m); weigh E; lia.
  - destruct (mdv_syncerlog_data_send_fn (y_syncer y) (y_log y) l r); weigh E; lia.
  - destruct ok; [|done]. weigh E. lia.
Qed.

(** Without additions every run ends. *)
Lemma less_acc y : 0 < batch_size -> inv y -> Acc (fun y' y => roomy batch_size y /\ step batch_size tl_op_ok L_ok y y') y.
Proof.
  intros Hb. remember (left_of y) as a eqn:Ea. revert y Ea. induction a as [a IHa] using lt_wf_ind. intros y Ea. remember (pot y) as p eqn:Ep. revert y Ea Ep. induction p as [p IHp] using lt_wf_ind. intros y Ea Ep.
  remember (weight y) as w eqn:Ew. revert y Ea Ep Ew. induction w as [w IHw] using lt_wf_ind. intros y -> -> -> Hy. constructor. intros y' [Hr Hs]. pose proof (less_step y y' Hy Hs) as Hl.
  assert (Hy' : inv y') by (eapply inv_step; [done|done|exact Hs|by left|done]). destruct Hl as [Hl|[[El Hl]|(El & Ep & Hl)]]; [by apply (IHa _ Hl)|by apply (IHp _ Hl)|by apply (IHw _ Hl)].
Qed.

(** There is a step unless everything is done. *)
Lemma progress y : inv y -> quiescent y \/ exists y', step batch_size tl_op_ok L_ok y y'.
Proof.
  intros Hy. destruct (y_changed y) eqn:E1; [right; eexists; by apply step_changed|]. destruct (y_threads y) as [|t l] eqn:E2.
  2: { right. pose proof (v_threads _ Hy) as Hf. rewrite E2 in Hf. apply Forall_cons in Hf as [Ht _]. exists (run_thread batch_size true false [] t l y).
       replace L_ok with (thread_label true false t) by (by destruct t). by apply step_thread. }
  destruct (y_syncs y) as [|m l] eqn:E3; [|right; eexists; by apply (step_sync _ _ y [] m l)]. destruct (y_states y) as [|m l] eqn:E4; [|right; eexists; by apply (step_state _ _ y [] m l)].
  destruct (y_jobs y) as [|[a b] l] eqn:E5; [|right; eexists; by apply (step_send _ _ y [] a b l)]. destruct (y_data y) as [|m l] eqn:E6; [|right; eexists; by apply (step_data _ _ y [] m l)].
  destruct (y_saves y) as [|m l] eqn:E7; [|right; eexists; by apply (step_save _ _ y true [] m l)]. left. by split_and!.
Qed.

End Convergence.

(** ** A thread on its own *)

Section Alone.
Context (batch_size : Z).

(** [mdv_syncerlog_schedule] from a position on, when no other thread interferes:
    the ranges of the jobs. *)
Fixpoint schedule_alone (fuel : nat) (top : Z) (t : thread) (s : mdv_syncerlog) : option (mdv_syncerlog * list (Z * Z)) :=
  match fuel with
  | O => None
  | S fuel =>
      let '(t', s, e) := mdv_syncerlog_schedule batch_size false top t s in
      let jobs := match e with E_job l r => [(l, r)] | _ => [] end in
      match t' with
      | None => Some (s, jobs)
      | Some t' => match schedule_alone fuel top t' s with Some (s, jobs') => Some (s, jobs ++ jobs') | None => None end
      end
  end.

(** The reference: the numbers from [a] to [b] cut into pieces. *)
Fixpoint pieces (n : nat) (a b : Z) : list (Z * Z) :=
  match n with
  | O => []
  | S n => if b <=? a then [] else (a, Z.min b (a + batch_size)) :: pieces n (Z.min b (a + batch_size)) b
  end.

Lemma finish_alone fuel top s sy :
  schedule_alone (S fuel) top (Sc_finish (sl_requests s) sy) s = Some (set_requests s 0, []).
Proof. cbn. by rewrite Z.eqb_refl. Qed.

Lemma rounds_alone n : forall fuel top s,
  0 < batch_size -> 0 <= sl_synced s -> top + batch_size < 2 ^ 64 -> top - sl_synced s <= Z.of_nat n -> (3 * n + 2 <= fuel)%nat ->
  schedule_alone fuel top (Sc_top (sl_requests s) (sl_synced s)) s = Some (set_requests (set_synced s (Z.max top (sl_synced s))) 0, pieces n (sl_synced s) top).
Proof.
  induction n as [|n IH]; intros fuel top s Hb Hs Ht Hn Hf; (destruct fuel as [|fuel]; [lia|]); cbn [schedule_alone mdv_syncerlog_schedule pieces].
  - destruct (Z.leb_spec top (sl_synced s)) as [Hle|?]; [|lia]. destruct fuel as [|fuel]; [lia|]. rewrite finish_alone. rewrite Z.max_r by done. by destruct s.
  - destruct (Z.leb_spec top (sl_synced s)) as [Hle|Hlt].
    + destruct fuel as [|fuel]; [lia|]. rewrite finish_alone. rewrite Z.max_r by done. by destruct s.
    + rewrite (wrap_id 64) by (unfold fits; lia). set (r := if sl_synced s + batch_size <? top then sl_synced s + batch_size else top).
      assert (Er : r = Z.min top (sl_synced s + batch_size)) by (unfold r; destruct (Z.ltb_spec (sl_synced s + batch_size) top); lia). clearbody r.
      destruct fuel as [|fuel]; [lia|]. cbn [schedule_alone mdv_syncerlog_schedule]. rewrite Z.eqb_refl. cbn [orb negb]. destruct fuel as [|fuel]; [lia|]. cbn [schedule_alone mdv_syncerlog_schedule].
      rewrite (proj2 (Z.ltb_lt (sl_synced s) r)) by lia. rewrite <- Er. pose proof (IH fuel top (set_synced s r) Hb) as IH'. cbn [set_synced sl_synced sl_requests] in IH'. destruct (Z.ltb_spec r top) as [Hrt|Hrt].
      * rewrite IH' by lia. cbn. by rewrite !Z.max_l by lia.
      * assert (r = top) as -> by lia. destruct fuel as [|fuel]; [lia|]. pose proof (finish_alone fuel top (set_synced s top) top) as Hfin. cbn [set_synced sl_requests] in Hfin. rewrite Hfin. cbn. rewrite Z.max_l by lia.
        destruct n; cbn [pieces]; [done|]. by rewrite Z.leb_refl.
Qed.

Lemma schedule_alone_spec fuel top s pos :
  0 < batch_size -> 0 <= sl_synced s -> top + batch_size < 2 ^ 64 -> (3 * Z.to_nat (top - sl_synced s) + 7 <= fuel)%nat ->
  schedule_alone fuel top (Sc_requests pos) s =
    if top <=? Z.max (sl_synced s) pos then Some (set_requests s 0, [])
    else Some (set_requests (set_synced s top) 0, pieces (Z.to_nat (top - sl_synced s)) (sl_synced s) top).
Proof.
  intros Hb Hs Ht Hf. do 2 (destruct fuel as [|fuel]; [lia|]). cbn [schedule_alone mdv_syncerlog_schedule]. set (p := if sl_synced s <? pos then pos else sl_synced s).
  assert (Ep : p = Z.max (sl_synced s) pos) by (unfold p; destruct (Z.ltb_spec (sl_synced s) pos); lia). rewrite <- Ep. clearbody p.
  destruct (Z.leb_spec top p) as [Hle|Hlt].
  - do 2 (destruct fuel as [|fuel]; [lia|]). cbn [schedule_alone mdv_syncerlog_schedule]. rewrite (proj2 (Z.leb_le _ _) Hle). cbn. by rewrite Z.eqb_refl.
  - destruct (Z.eq_dec p (sl_synced s)) as [E|Hne].
    + rewrite E. rewrite (rounds_alone (Z.to_nat (top - sl_synced s))) by lia. by rewrite Z.max_l by lia.
    + do 2 (destruct fuel as [|fuel]; [lia|]). cbn [schedule_alone mdv_syncerlog_schedule]. rewrite (proj2 (Z.leb_gt _ _) Hlt). cbn [schedule_alone mdv_syncerlog_schedule]. rewrite (proj2 (Z.eqb_neq (sl_synced s) p)) by congruence. cbn [orb negb].
      rewrite (rounds_alone (Z.to_nat (top - sl_synced s))) by lia. by rewrite Z.max_l by lia.
Qed.

End Alone.

(** ** A scheduler *)

(** A step that does not add to the log, if there is one: of the first thread that
    is not in the middle of an addition, or of the first message or job. *)
Section Drive.
Context {T : Type} `{Translog T} (batch_size : Z) (op_ok : bytes -> Prop).
Implicit Types y : sys T.

Definition adding (t : thread) : bool := match t with Add_store _ _ => true | _ => false end.

Definition roomy_b y : bool := (tl_top (y_log y) + batch_size <? 2 ^ 64) && (sl_requests (y_syncer y) <? 2 ^ 64 - 1).

Fixpoint split_threads (l1 l : list thread) : option (list thread * thread * list thread) :=
  match l with
  | [] => None
  | t :: l => if adding t then split_threads (l1 ++ [t]) l else Some (l1, t, l)
  end.

Definition next y : option (sys T) :=
  if negb (roomy_b y) then None else
  match split_threads [] (y_threads y) with
  | Some (l1, t, l2) => Some (run_thread batch_size true false l1 t l2 y)
  | None =>
      if y_changed y then Some (set_threads (set_changed y false) (option_list (mdv_syncerlog_evt_changed (y_syncer y) (sl_trlog (y_syncer y))) ++ y_threads y)) else
      match y_syncs y, y_states y, y_jobs y, y_data y, y_saves y with
      | m :: l, _, _, _, _ => Some (set_states (set_syncs y l) (option_list (mdv_syncer_evt_trlog_sync (peer y) (Some (y_peer y)) m) ++ y_states y))
      | _, m :: l, _, _, _ => Some (set_threads (set_states y l) (option_list (mdv_syncerlog_evt_trlog_state (y_syncer y) m) ++ y_threads y))
      | _, _, (a, b) :: l, _, _ => Some (set_data (set_jobs y l) (option_list (mdv_syncerlog_data_send_fn (y_syncer y) (y_log y) a b) ++ y_data y))
      | _, _, _, m :: l, _ => Some (set_saves (set_data y l) (option_list (mdv_syncer_evt_trlog_data (peer y) m) ++ y_saves y))
      | _, _, _, _, m :: l =>
          let '(log, m') := mdv_syncer_data_save_fn true (peer y) (y_peer y) m in Some (set_states (set_peer (set_saves y l) log) (m' :: y_states y))
      | _, _, _, _, _ => None
      end
  end.

Fixpoint drive (fuel : nat) y : sys T :=
  match fuel with
  | O => y
  | S fuel => match next y with Some y' => drive fuel y' | None => y end
  end.

Lemma split_threads_spec l : forall l1 l1' t l2, split_threads l1 l = Some (l1', t, l2) -> l1 ++ l = l1' ++ t :: l2 /\ adding t = false.
Proof.
  induction l as [|u l IH]; intros l1 l1' t l2 E; cbn in E; [done|]. destruct (adding u) eqn:Ea; [|by injection E as <- <- <-]. destruct (IH _ _ _ _ E) as [E1 E2]. split; [|done]. by rewrite <- E1, <- app_assoc.
Qed.

Lemma next_step y y' : next y = Some y' -> roomy batch_size y /\ step batch_size op_ok L_ok y y'.
Proof.
  unfold next. destruct (roomy_b y) eqn:Er; [|done]. cbn [negb]. apply andb_true_iff in Er as [Er1%Z.ltb_lt Er2%Z.ltb_lt]. intros E. split; [by split|]. destruct (split_threads [] (y_threads y)) as [[[l1 t] l2]|] eqn:Es.
  - apply split_threads_spec in Es as [Et Ha]. injection E as <-. replace L_ok with (thread_label true false t) by (by destruct t). by apply step_thread.
  - destruct (y_changed y) eqn:Ec; [injection E as <-; by apply step_changed|]. destruct (y_syncs y) as [|m l] eqn:E1; [|injection E as <-; rewrite <- ?E1; by apply (step_sync _ _ y [] m l)].
    destruct (y_states y) as [|m l] eqn:E2; [|injection E as <-; by apply (step_state _ _ y [] m l)]. destruct (y_jobs y) as [|[a b] l] eqn:E3; [|injection E as <-; by apply (step_send _ _ y [] a b l)].
    destruct (y_data y) as [|m l] eqn:E4; [|injection E as <-; by apply (step_data _ _ y [] m l)]. destruct (y_saves y) as [|m l] eqn:E5; [done|].
    pose proof (step_save batch_size op_ok y true [] m l E5) as Hs. destruct (mdv_syncer_data_save_fn true (peer y) (y_peer y) m) as [log m']. injection E as <-. by rewrite E2 in Hs.
Qed.

Lemma drive_steps fuel : forall ls y0 y, steps batch_size op_ok ls y0 y -> exists n, steps batch_size op_ok (ls ++ replicate n L_ok) y0 (drive fuel y).
Proof.
  induction fuel as [|fuel IH]; intros ls y0 y Hs; cbn [drive]; [exists O; by rewrite app_nil_r|]. destruct (next y) as [y'|] eqn:E; [|exists O; by rewrite app_nil_r].
  apply next_step in E as [Hr Hst]. destruct (IH (ls ++ [L_ok]) y0 y') as [n Hn]; [by eapply steps_snoc|]. exists (S n). by rewrite <- app_assoc in Hn.
Qed.

End Drive.

(** ** The logs of the storage *)

Section Logs.
Context `{MdbLaws, !MdbCursor, !MdbCursorLaws}.
Import Trlog.

(** A read leaves the log as it is.  [tl_store] adds the operation under the number
    that was taken, as the rest of [mdv_trlog_add_op] does. *)
#[export] Instance trlog_log : Translog mdv_trlog := {|
  tl_top := l_top;
  tl_range t l r := match mdv_trlog_range_read (S (S (size (log (data_of t))))) true (fun _ => true) t l r with Done (_, ops) => ops | _ => [] end;
  tl_add t l := (mdv_trlog_add true true t l).1;
  tl_new_id t := (mdv_trlog_new_id t).1;
  tl_store t id op := (mdv_trlog_add true true t [(id, op)]).1
|}.

Context `{!MdbReliable, !MdbCursorReliable, !MdbRoom} (n : Z) (Hn : 1 <= n < 2 ^ 32 - 4).

Lemma log_add_reliable t ops : trlog_ok n t -> ops_ok ops ->
  let t' := (mdv_trlog_add true true t ops).1 in trlog_ok n t' /\ log (data_of t') = log (data_of t) ∪ list_to_map ops /\ l_top t' = raise (l_top t) ops.
Proof.
  intros Hok Hops. pose proof (add_runs n Hn t ops true Hok Hops) as Ha. destruct (mdv_trlog_add true true t ops) as [t' ok]. destruct Ha as (A1 & _ & A2 & _ & A3). rewrite (A2 _) in A3. cbn.
  destruct A3 as (ops' & _ & A4 & A5 & A6 & _). rewrite (A4 _) in A5, A6. done.
Qed.

Lemma log_range_reliable t l r : trlog_ok n t -> 0 <= l < 2 ^ 64 -> tl_range t l r = filter (fun x => l <= x.1 < r) (in_order (log (data_of t))).
Proof.
  intros Hok Hl. cbn [tl_range trlog_log]. destruct (mdv_trlog_range_read_correct n Hn (S (S (size (log (data_of t))))) (fun _ => true) t l r Hok Hl ltac:(lia)) as (s & ops & -> & _ & _ & _ & Hr). by apply Hr.
Qed.

Lemma trlog_op t id op : trlog_ok n t -> log (data_of t) !! id = Some op -> op_ok op.
Proof.
  intros Hok Hop. unfold log in Hop. apply elem_of_list_to_map_2, list_elem_of_fmap in Hop as ([k v] & E & Hin). injection E as -> ->. apply elem_of_map_to_list in Hin. by destruct (lk_key _ _ (ok_log _ _ Hok) _ _ Hin) as (_ & _ & Hv).
Qed.

Lemma trlog_id t id : trlog_ok n t -> is_Some (log (data_of t) !! id) -> 0 <= id < l_top t.
Proof.
  intros Hok Hop. pose proof (ok_above _ _ Hok id Hop) as Hlt. destruct Hop as [op Hop]. unfold log in Hop. apply elem_of_list_to_map_2, list_elem_of_fmap in Hop as ([k v] & E & Hin). injection E as -> ->.
  apply elem_of_map_to_list in Hin. destruct (lk_key _ _ (ok_log _ _ Hok) _ _ Hin) as (Hk & Hb & _). cbn. pose proof (key_range k Hk Hb). cbn in Hlt. lia.
Qed.

#[export] Program Instance trlog_laws : TranslogLaws mdv_trlog := {|
  tl_ok := trlog_ok n;
  tl_map t := log (data_of t);
  tl_op_ok := op_ok
|}.
Next Obligation. intros t Hok. apply (ok_top _ _ Hok). Qed.
Next Obligation. intros t id Hok Hid. by apply trlog_id. Qed.
Next Obligation. intros t id op Hok Hop. by apply (trlog_op t id). Qed.
Next Obligation. intros t l r id op Hok Hl. rewrite (log_range_reliable t l r Hok Hl), list_elem_of_filter. cbn. rewrite elem_of_in_order. tauto. Qed.
Next Obligation. intros t l Hok Hl. apply (log_add_reliable t l Hok). eapply Forall_impl; [exact Hl|]. by intros o [? ?]. Qed.
Next Obligation. intros t Hok Ht. pose proof (ok_top _ _ Hok). cbn. rewrite (wrap_id 64) by (unfold fits; cbn in *; lia). split; [|done]. apply set_top_ok; [done|cbn in *; lia]. Qed.
Next Obligation.
  intros t id op Hok Hid Hop Hnone. pose proof (ok_top _ _ Hok). cbn in Hid. destruct (log_add_reliable t [(id, op)] Hok) as (A1 & A2 & A3); [repeat constructor; cbn; unfold id_ok; lia || done|]. split; [done|]. split.
  - cbn [tl_store trlog_log]. rewrite A2. cbn. apply map_eq. intros j. destruct (decide (id = j)) as [<-|Hne]; [by rewrite lookup_union_r, !lookup_insert_eq|].
    rewrite lookup_insert_ne by done. destruct (log (data_of t) !! j) eqn:Ej; [by apply lookup_union_Some_l|]. rewrite lookup_union_r by done. by rewrite lookup_insert_ne, lookup_empty.
  - cbn [tl_top tl_store trlog_log]. rewrite A3. cbn. lia.
Qed.

(** An addition as a whole. *)
Lemma add_op_parts t op : trlog_ok n t -> op_ok op -> l_top t < 2 ^ 64 - 1 ->
  let t1 := (mdv_trlog_add_op true true t op).1 in let t2 := tl_store (tl_new_id t) (l_top t) op in
  log (data_of t1) = log (data_of t2) /\ l_top t1 = l_top t2.
Proof.
  intros Hok Hop Ht. pose proof (ok_top _ _ Hok) as Hr. pose proof (add_op_runs n Hn t op true Hok Hop Ht) as Ha. destruct (mdv_trlog_add_op true true t op) as [t1 ok]. destruct Ha as (_ & _ & A1 & A2). rewrite (A1 _ _) in A2. destruct A2 as (A2 & A3 & A4 & _).
  destruct (@tl_new_id_map _ _ trlog_laws t Hok Ht) as (N1 & N2 & N3). destruct (@tl_store_map _ _ trlog_laws (tl_new_id t) (l_top t) op N1) as (S1 & S2 & S3); [cbn in N3 |- *; lia|done|by rewrite N2|]. cbn zeta.
  cbn [tl_map trlog_laws fst] in *. rewrite S2, N2, A2, A4. split; [done|]. symmetry. etrans; [exact S3|exact N3].
Qed.

End Logs.

(** ** Theorems *)

(** C7: whatever the order in which threads, messages and jobs of a node and its peer get
    their turn, and however many threads schedule jobs at the same time: when nothing
    is left to do, the log of the peer is the log of the node.  The conditions: every
    operation of the node below the end of the log of the peer is stored at the peer;
    no step fails, no message and no change event is lost; and an operation is stored
    as soon as it has its number ([regular]).  Without the last one the statement is
    false, as [mdv_syncerlog_race] shows. *)
Theorem mdv_syncerlog_converges {T : Type} `{TranslogLaws T} batch_size uuid peer trlog (log peer_log : T) ls y :
  0 < batch_size -> tl_ok log -> tl_ok peer_log -> tl_map peer_log ⊆ tl_map log -> tl_top peer_log <= tl_top log ->
  (forall id, is_Some (tl_map log !! id) -> id < tl_top peer_log -> is_Some (tl_map peer_log !! id)) ->
  steps batch_size tl_op_ok ls (created uuid peer trlog log peer_log) y -> Forall regular ls -> quiescent y ->
  tl_map (y_peer y) = tl_map (y_log y).
Proof.
  intros Hb H1 H2 H3 H4 H5 Hs Hl Hq. apply (inv_quiescent (tl_top peer_log)); [|done]. eapply inv_steps; [done|exact Hs|done|]. by apply inv_created.
Qed.

(** C9: the synchronization comes to its end.  When no operation is added any more,
    there is no infinite run from a state that was reached, and while something is
    left to do there is a next step.  Together with the last property: the peer
    gets the whole log. *)
Theorem mdv_syncerlog_terminates {T : Type} `{TranslogLaws T} batch_size uuid peer trlog (log peer_log : T) ls y :
  0 < batch_size -> tl_ok log -> tl_ok peer_log -> tl_map peer_log ⊆ tl_map log -> tl_top peer_log <= tl_top log ->
  (forall id, is_Some (tl_map log !! id) -> id < tl_top peer_log -> is_Some (tl_map peer_log !! id)) ->
  steps batch_size tl_op_ok ls (created uuid peer trlog log peer_log) y -> Forall regular ls ->
  Acc (fun y' y => roomy batch_size y /\ step batch_size tl_op_ok L_ok y y') y /\ (quiescent y \/ exists y', step batch_size tl_op_ok L_ok y y').
Proof.
  intros Hb H1 H2 H3 H4 H5 Hs Hl. assert (Hy : inv (tl_top peer_log) y) by (eapply inv_steps; [done|exact Hs|done|]; by apply inv_created).
  split; [by apply (less_acc _ (tl_top peer_log))|by apply (progress _ (tl_top peer_log))].
Qed.

(** C13: no operation is sent twice by a synchronizer and none is skipped between
    two jobs: whatever happens, losses and failures included, the ranges that the
    threads claim follow one another from zero to the shared position without a
    gap, none is empty or longer than a batch, and each is given to one job at
    most. *)
Theorem mdv_syncerlog_ranges {T : Type} `{Translog T} (op_ok : bytes -> Prop) batch_size uuid peer trlog (log peer_log : T) ls y :
  0 < batch_size -> steps batch_size op_ok ls (created uuid peer trlog log peer_log) y ->
  tiles batch_size 0 (y_ranges y) (sl_synced (y_syncer y)) /\ y_emitted y ⊆+ y_ranges y.
Proof.
  intros Hb Hs. assert (Hy : tiled batch_size y).
  { remember (created uuid peer trlog log peer_log) as y0 eqn:E0. induction Hs as [y|ls l y y1 y2 _ IH Hr Hs]; [subst; split; cbn; [done|by repeat constructor|done]|]. eapply tiled_step; [done|done|exact Hs|by apply IH]. }
  split; [apply Hy|]. etrans; [|apply (ti_emitted _ _ Hy)]. apply submseteq_inserts_r. done.
Qed.

(** C31: a thread that schedules on its own does what the reference does: it cuts the
    operations from the shared position to the end of the log into batches, and
    requests a job for each of them, within three rounds per operation.  The
    position that the peer reports counts only when the peer has the whole log:
    otherwise the peer is sent everything from the shared position on. *)
Theorem mdv_syncerlog_schedule_pieces batch_size fuel top s pos :
  0 < batch_size -> 0 <= sl_synced s -> top + batch_size < 2 ^ 64 -> (3 * Z.to_nat (top - sl_synced s) + 7 <= fuel)%nat ->
  schedule_alone batch_size fuel top (Sc_requests pos) s =
    if top <=? Z.max (sl_synced s) pos then Some (set_requests s 0, [])
    else Some (set_requests (set_synced s top) 0, pieces batch_size (Z.to_nat (top - sl_synced s)) (sl_synced s) top).
Proof. apply schedule_alone_spec. Qed.

Lemma mdv_syncerlog_schedule_pieces_witness :
  schedule_alone 32 307 70 (Sc_requests 40) (mk_syncerlog (mk_uuid 1 2) (mk_uuid 3 4) (mk_uuid 1 2) 1 0)
  = Some (mk_syncerlog (mk_uuid 1 2) (mk_uuid 3 4) (mk_uuid 1 2) 0 70, [(0, 32); (32, 64); (64, 70)]).
Proof. rewrite mdv_syncerlog_schedule_pieces by (cbn; lia). reflexivity. Defined.

(** *** Two logs in memory *)

Import Lmdb Memdb Trlog.

Definition demo_peer_db : database := ∅.
Definition demo_peer : mdv_trlog := mk_trlog (mk_uuid 1 2) 0 (mk_lmdb 1 (demo_peer_db, ∅) true) 0 0 [].

Lemma demo_peer_ok : trlog_ok 1 demo_peer.
Proof.
  split; [done| | |cbn; lia..].
  - split; [by intros [? Hx]|]. by intros k v Hk.
  - intros id [op Hop%elem_of_in_order]. by apply elem_of_nil in Hop.
Qed.

Definition demo_sys : sys mdv_trlog := created (mk_uuid 1 2) (mk_uuid 3 4) (mk_uuid 1 2) demo_log demo_peer.

#[local] Instance demo_laws : TranslogLaws mdv_trlog := trlog_laws 1 ltac:(lia).

Definition done_b {T} (y : sys T) : bool :=
  negb (y_changed y) && match y_threads y, y_syncs y, y_states y, y_jobs y, y_data y, y_saves y with [], [], [], [], [], [] => true | _, _, _, _, _, _ => false end.

Lemma done_quiescent {T} (y : sys T) : done_b y = true -> quiescent y.
Proof. unfold done_b. intros [Hc%negb_true_iff Hd]%andb_true_iff. unfold quiescent. by repeat case_match. Qed.

Lemma demo_sub : log (data_of demo_peer) ⊆ log (data_of demo_log).
Proof. apply map_subseteq_spec. by intros id op Hop%elem_of_in_order%elem_of_nil. Qed.

Lemma demo_below id : is_Some (log (data_of demo_log) !! id) -> id < 0 -> is_Some (log (data_of demo_peer) !! id).
Proof. intros Hid Hlt. apply (trlog_id 1 demo_log) in Hid; [lia|apply demo_ok]. Qed.

Definition demo_end : sys mdv_trlog := drive 1 60 demo_sys.

Lemma demo_run : exists k, steps 1 op_ok (replicate k L_ok) demo_sys demo_end.
Proof. exact (drive_steps 1 op_ok 60 [] demo_sys demo_sys (steps_nil _ _ _)). Qed.

Lemma demo_done : quiescent demo_end.
Proof. apply done_quiescent. vm_compute. reflexivity. Qed.

Lemma demo_regular k : Forall regular (replicate k L_ok).
Proof. apply Forall_replicate. by left. Qed.

(** The two operations of a log come to the other one, in two batches. *)
Lemma mdv_syncerlog_converges_witness :
  tl_map (y_peer demo_end) = tl_map (y_log demo_end) /\ in_order (log (data_of (y_peer demo_end))) = [(0, demo_op 1 42); (1, demo_op 1 43)] /\ length (y_emitted demo_end) = 2%nat.
Proof.
  split; [|split; vm_compute; reflexivity]. destruct demo_run as [k Hk].
  exact (mdv_syncerlog_converges 1 (mk_uuid 1 2) (mk_uuid 3 4) (mk_uuid 1 2) demo_log demo_peer (replicate k L_ok) demo_end
    ltac:(lia) demo_ok demo_peer_ok demo_sub ltac:(cbn; lia) demo_below Hk (demo_regular k) demo_done).
Defined.

Lemma mdv_syncerlog_terminates_witness : exists k, steps 1 op_ok (replicate k L_ok) demo_sys demo_end /\ Acc (fun y' y => roomy 1 y /\ step 1 op_ok L_ok y y') demo_end.
Proof.
  destruct demo_run as [k Hk]. exists k. split; [exact Hk|].
  exact (proj1 (mdv_syncerlog_terminates 1 (mk_uuid 1 2) (mk_uuid 3 4) (mk_uuid 1 2) demo_log demo_peer (replicate k L_ok) demo_end
    ltac:(lia) demo_ok demo_peer_ok demo_sub ltac:(cbn; lia) demo_below Hk (demo_regular k))).
Defined.

Lemma mdv_syncerlog_ranges_witness : tiles 1 0 (y_ranges demo_end) 2 /\ y_ranges demo_end = [(0, 1); (1, 2)].
Proof.
  split; [|vm_compute; reflexivity]. destruct demo_run as [k Hk]. assert (E : sl_synced (y_syncer demo_end) = 2) by (vm_compute; reflexivity). rewrite <- E.
  exact (proj1 (mdv_syncerlog_ranges op_ok 1 (mk_uuid 1 2) (mk_uuid 3 4) (mk_uuid 1 2) demo_log demo_peer (replicate k L_ok) demo_end ltac:(lia) Hk)).
Defined.

(** A third operation has its number, and is not stored when the jobs run. *)
Definition demo_race : sys mdv_trlog := set_threads (set_log demo_sys (tl_new_id demo_log)) (Add_store 2 (demo_op 1 44) :: y_threads demo_sys).
Definition demo_sent : sys mdv_trlog := drive 32 60 demo_race.
Definition demo_stored : sys mdv_trlog := run_thread 32 true false [] (Add_store 2 (demo_op 1 44)) [] demo_sent.
Definition demo_lost : sys mdv_trlog := drive 32 60 demo_stored.

Lemma demo_op_ok : op_ok (demo_op 1 44).
Proof. vm_compute. reflexivity. Qed.

(** C37: an operation may never reach the peer although nothing fails and every
    thread ends.  A new operation gets its number, which moves the end of the log,
    before it is stored.  A thread that schedules jobs in between claims the
    number, its job does not find the operation, and the position has passed it
    for ever. *)
Theorem mdv_syncerlog_race :
  exists ls y, steps 32 op_ok ls demo_sys y /\ Forall (fun l => l = L_ok \/ l = L_race) ls /\ quiescent y /\
    log (data_of (y_log y)) !! 2 = Some (demo_op 1 44) /\ log (data_of (y_peer y)) !! 2 = None /\ l_top (y_log y) = sl_synced (y_syncer y).
Proof.
  assert (H1 : steps 32 op_ok [L_race] demo_sys demo_race).
  { apply (steps_snoc 32 op_ok [] L_race demo_sys demo_sys); [constructor|by split|]. exact (step_reserve 32 op_ok demo_sys (demo_op 1 44) demo_op_ok). }
  assert (H2 : exists k, steps 32 op_ok ([L_race] ++ replicate k L_ok) demo_sys demo_sent) by exact (drive_steps 32 op_ok 60 _ _ _ H1). destruct H2 as [k1 H2].
  assert (H3 : steps 32 op_ok (([L_race] ++ replicate k1 L_ok) ++ [L_race]) demo_sys demo_stored).
  { eapply steps_snoc; [exact H2|split; vm_compute; reflexivity|]. apply (step_thread 32 op_ok demo_sent true false [] (Add_store 2 (demo_op 1 44)) []). vm_compute. reflexivity. }
  assert (H4 : exists k, steps 32 op_ok ((([L_race] ++ replicate k1 L_ok) ++ [L_race]) ++ replicate k L_ok) demo_sys demo_lost) by exact (drive_steps 32 op_ok 60 _ _ _ H3). destruct H4 as [k2 H4]. eexists _, demo_lost. split; [exact H4|]. split; [|split; [apply done_quiescent; vm_compute; reflexivity|]].
  - rewrite !Forall_app. split_and!; try (apply Forall_replicate; by left); by repeat constructor; right.
  - split; [|split]; vm_compute; reflexivity.
Qed.

End Syncerlog.
