(* ===== verification/Committer.v ===== *)
(** * Committer (src/mdv_core/mdv_committer.c)

    When a transaction log changes, the committer lets a job apply its operations to
    the storages.  A counter of requests per log, which threads share without a
    lock, makes sure that there is one job for a log at most and that no change is
    missed: the thread that counts the first request starts the job, and the job
    goes on until no request came in while it applied the log.

    The model has the threads of one log, with a step for each access to the counter
    and for the beginning and the end of an application.  What an application does
    to the tables is the subject of [Tablespace]: it applies the operations that are
    in the log when it begins, and maybe some that are added while it runs. *)

From S2P Require Import Prelude.
#[local] Open Scope Z_scope.
#[local] Open Scope list_scope.

Module Committer.

(** Where a thread is: after an addition to the log, in [mdv_committer_start], in
    [mdv_committer_job_emit], or in [mdv_committer_fn]. *)
Inductive cthread :=
  | Cm_notify
  | Cm_add
  | Cm_emit
  | Cf_load
  | Cf_begin (requests : Z)
  | Cf_end (requests top : Z)
  | Cf_cas (requests : Z).

#[global] Instance cthread_eq_dec : EqDecision cthread.
Proof. solve_decision. Defined.

(** [c_top]: the end of the log, one above the largest number that is stored;
    [c_applied]: the position up to which the log was applied; [c_changed]: the event
    mdv_evt_trlog_changed of this log is queued; [c_jobs]: jobs that wait for a
    thread. *)
Record csys := mk_csys {
  c_requests : Z;
  c_top : Z;
  c_applied : Z;
  c_changed : bool;
  c_jobs : nat;
  c_threads : list cthread
}.

Definition set_crequests (c : csys) (n : Z) : csys := mk_csys n (c_top c) (c_applied c) (c_changed c) (c_jobs c) (c_threads c).
Definition set_capplied (c : csys) (n : Z) : csys := mk_csys (c_requests c) (c_top c) n (c_changed c) (c_jobs c) (c_threads c).
Definition set_ctop (c : csys) (n : Z) : csys := mk_csys (c_requests c) n (c_applied c) (c_changed c) (c_jobs c) (c_threads c).
Definition set_cchanged (c : csys) (b : bool) : csys := mk_csys (c_requests c) (c_top c) (c_applied c) b (c_jobs c) (c_threads c).
Definition set_cjobs (c : csys) (n : nat) : csys := mk_csys (c_requests c) (c_top c) (c_applied c) (c_changed c) n (c_threads c).
Definition set_cthreads (c : csys) (l : list cthread) : csys := mk_csys (c_requests c) (c_top c) (c_applied c) (c_changed c) (c_jobs c) l.

(** ** Steps of the functions *)

(** [mdv_committer_start]: the request is counted, and the first one emits the job. *)
Definition mdv_committer_start (c : csys) : option cthread * csys :=
  let requests := c_requests c in
  (if requests =? 0 then Some Cm_emit else None, set_crequests c (u64 (requests + 1))).

(** [mdv_committer_job_emit]; [ok]: there is memory and the job is taken. *)
Definition mdv_committer_job_emit (ok : bool) (c : csys) : option cthread * csys :=
  (None, if ok then set_cjobs c (S (c_jobs c)) else c).

(** [mdv_committer_fn]; [ok]: there is memory for the event, and the log is applied;
    [pos]: up to where. *)
Definition mdv_committer_fn (ok : bool) (pos : Z) (t : cthread) (c : csys) : option cthread * csys :=
  match t with
  | Cf_load => (Some (Cf_begin (c_requests c)), c)
  | Cf_begin requests => (if ok then Some (Cf_end requests (c_top c)) else None, c)
  | Cf_end requests _ => (Some (Cf_cas requests), if ok then set_capplied c pos else c)
  | Cf_cas requests => if c_requests c =? requests then (None, set_crequests c 0) else (Some (Cf_begin (c_requests c)), c)
  | t => (Some t, c)
  end.

Definition cthread_step (ok : bool) (pos : Z) (t : cthread) (c : csys) : option cthread * csys :=
  match t with
  | Cm_notify => (None, if ok then set_cchanged c true else c)
  | Cm_add => mdv_committer_start c
  | Cm_emit => mdv_committer_job_emit ok c
  | t => mdv_committer_fn ok pos t c
  end.

(** An application visits the stored operations from the applied position on in the
    order of their numbers, over gaps too, until there is none: it goes at least to
    the end that the log had when it began, and not behind its end. *)
Definition pos_ok (c : csys) (t : cthread) (pos : Z) : Prop :=
  match t with Cf_end _ top => Z.max (c_applied c) top <= pos <= c_top c | _ => True end.

Definition run_cthread (ok : bool) (pos : Z) (l1 : list cthread) (t : cthread) (l2 : list cthread) (c : csys) : csys :=
  let '(t', c) := cthread_step ok pos t c in set_cthreads c (l1 ++ option_list t' ++ l2).

Inductive clabel := C_ok | C_add | C_fail.

(** An operation is stored under any number: above the end of the log, which may
    leave a gap, or in a gap. *)
Inductive cstep : clabel -> csys -> csys -> Prop :=
  | cstep_append c id : cstep C_add c (set_cthreads (set_ctop c (Z.max (c_top c) (id + 1))) (Cm_notify :: c_threads c))
  | cstep_thread c (ok : bool) pos l1 t l2 : c_threads c = l1 ++ t :: l2 -> pos_ok c t pos ->
      cstep (if ok then C_ok else C_fail) c (run_cthread ok pos l1 t l2 c)
  | cstep_changed c : c_changed c = true -> cstep C_ok c (set_cthreads (set_cchanged c false) (Cm_add :: c_threads c))
  | cstep_job c n : c_jobs c = S n -> cstep C_ok c (set_cthreads (set_cjobs c n) (Cf_load :: c_threads c)).

Inductive csteps : list clabel -> csys -> csys -> Prop :=
  | csteps_nil c : csteps [] c c
  | csteps_snoc ls l c c' c'' : csteps ls c c' -> c_requests c' < 2 ^ 64 - 1 -> cstep l c' c'' -> csteps (ls ++ [l]) c c''.

(** A log with operations that are to be applied, of which the committer is told. *)
Definition opened (top applied : Z) : csys := mk_csys 0 top applied true 0 [].

Definition cquiescent (c : csys) : Prop := c_changed c = false /\ c_jobs c = O /\ c_threads c = [].

(** ** The invariant *)

(** Threads that have the job of the log, or are to start it. *)
Definition holds_job (t : cthread) : bool := match t with Cm_notify | Cm_add => false | _ => true end.

Definition holders (c : csys) : nat := (c_jobs c + length (filter (fun t => holds_job t = true) (c_threads c)))%nat.

Definition cthread_ok (c : csys) (t : cthread) : Prop :=
  match t with
  | Cf_begin r | Cf_cas r => 1 <= r <= c_requests c
  | Cf_end r top => 1 <= r <= c_requests c /\ top <= c_top c
  | _ => True
  end.

Definition cawake_thread (c : csys) (t : cthread) : Prop :=
  match t with
  | Cf_end r top => top = c_top c \/ r <> c_requests c
  | Cf_cas r => r <> c_requests c
  | _ => True
  end.

Record cinv (c : csys) : Prop := {
  ci_req : 0 <= c_requests c;
  ci_one : holders c = if c_requests c =? 0 then O else 1%nat;
  ci_threads : Forall (cthread_ok c) (c_threads c);
  ci_applied : c_applied c <= c_top c;
  ci_awake : c_applied c < c_top c -> c_changed c = true \/ c_jobs c <> O \/ exists t, t ∈ c_threads c /\ cawake_thread c t
}.

Abbreviation held l := (length (filter (fun t => holds_job t = true) l)).

Lemma held_app l1 l2 : held (l1 ++ l2) = (held l1 + held l2)%nat.
Proof. by rewrite filter_app, length_app. Qed.

Lemma held_cons t l : held (t :: l) = ((if holds_job t then 1 else 0) + held l)%nat.
Proof. rewrite filter_cons. by destruct (holds_job t) eqn:E; case_decide. Qed.

Lemma held_none l : held l = O -> forall u, u ∈ l -> holds_job u = false.
Proof. intros Hl u Hu. destruct (holds_job u) eqn:E; [|done]. apply nil_length_inv in Hl. exfalso. eapply elem_of_nil. rewrite <- Hl. by apply list_elem_of_filter. Qed.

Lemma free_ok c u : holds_job u = false -> cthread_ok c u /\ cawake_thread c u.
Proof. by destruct u. Qed.

Lemma other_thread (l1 : list cthread) t u l2 t' : u ∈ l1 ++ t :: l2 -> u = t \/ u ∈ l1 ++ option_list t' ++ l2.
Proof. intros [?|[?|?]%elem_of_cons]%elem_of_app; [right|by left|right]; rewrite !elem_of_app; auto. Qed.

(** A thread goes on, the counter and the end of the log stay. *)
Lemma cinv_go c c' l1 t l2 t' :
  cinv c -> c_threads c = l1 ++ t :: l2 -> c_threads c' = l1 ++ option_list t' ++ l2 -> c_requests c' = c_requests c -> c_top c' = c_top c -> c_applied c <= c_applied c' <= c_top c ->
  ((if holds_job t then 1 else 0) + c_jobs c = held (option_list t') + c_jobs c')%nat -> (c_changed c = true -> c_changed c' = true) -> (c_jobs c <> O -> c_jobs c' <> O) ->
  Forall (cthread_ok c) (option_list t') ->
  (c_applied c' < c_top c -> cawake_thread c t -> c_changed c' = true \/ c_jobs c' <> O \/ exists u, t' = Some u /\ cawake_thread c u) -> cinv c'.
Proof.
  intros [H1 H2 H3 H4 H5] E E' Er Et Ha Hh Hc Hj Ht' Hw. rewrite E in H3. apply Forall_app in H3 as [F1 [F F2]%Forall_cons].
  assert (Hok : forall u, cthread_ok c u -> cthread_ok c' u) by (intros u; destruct u; cbn; rewrite ?Er, ?Et; done).
  assert (Haw : forall u, cawake_thread c u -> cawake_thread c' u) by (intros u; destruct u; cbn; rewrite ?Er, ?Et; done).
  split; rewrite ?Er, ?Et; [done| | |lia|].
  - unfold holders in *. rewrite E in H2. rewrite E'. rewrite held_app, held_cons in H2. rewrite !held_app. lia.
  - rewrite E', !Forall_app. split_and!; (eapply Forall_impl; [eassumption|auto]).
  - intros Hlt. destruct (H5 ltac:(lia)) as [?|[?|(u & Hu & Hs)]]; auto. rewrite E in Hu. rewrite E'. apply (other_thread _ _ _ _ t') in Hu as [->|Hu]; [|eauto 6].
    destruct (Hw Hlt Hs) as [?|[?|(u & -> & Hau)]]; auto. right; right. exists u. split; [|auto]. cbn. rewrite elem_of_app. right. by left.
Qed.

Lemma cinv_start c l1 l2 : cinv c -> c_requests c < 2 ^ 64 - 1 -> c_threads c = l1 ++ Cm_add :: l2 ->
  let '(t', c') := mdv_committer_start c in cinv (set_cthreads c' (l1 ++ option_list t' ++ l2)).
Proof.
  intros [H1 H2 H3 H4 H5] Hr E. unfold mdv_committer_start. rewrite (wrap_id 64) by (unfold fits; lia). rewrite E in H3. apply Forall_app in H3 as [F1 [_ F2]%Forall_cons].
  unfold holders in H2. rewrite E, held_app, held_cons in H2. cbn [holds_job] in H2. set (t' := if c_requests c =? 0 then Some Cm_emit else None). set (c' := set_cthreads _ _).
  assert (Hok : forall u, cthread_ok c u -> cthread_ok c' u) by (intros u; destruct u; cbn; lia). assert (Ft : Forall (cthread_ok c) (option_list t')) by (unfold t'; destruct (c_requests c =? 0); by repeat constructor).
  split; cbn [c' set_cthreads set_crequests c_requests c_top c_applied c_jobs c_changed c_threads]; [lia| | |done|].
  - unfold holders, c'. cbn [c_jobs c_threads set_cthreads set_crequests]. rewrite !held_app. unfold t'. destruct (Z.eqb_spec (c_requests c) 0), (Z.eqb_spec (c_requests c + 1) 0); change (held (option_list (Some Cm_emit))) with 1%nat; change (held (option_list None)) with O; lia.
  - rewrite !Forall_app. split_and!; (eapply Forall_impl; [eassumption|auto]).
  - intros _. destruct (Z.eqb_spec (c_requests c) 0) as [E0|E0]; cbn in H2.
    + right; right. exists Cm_emit. split; [|done]. unfold t'. cbn. rewrite elem_of_app. right. by left.
    + destruct (c_jobs c) as [|n] eqn:Ej; [|by right; left]. assert (Hex : exists u, u ∈ l1 ++ l2 /\ holds_job u = true).
      { assert (Hl : held (l1 ++ l2) = 1%nat) by (rewrite held_app; lia). destruct (filter (fun t => holds_job t = true) (l1 ++ l2)) as [|u l] eqn:Ef; [done|]. exists u. assert (Hu : u ∈ filter (fun t => holds_job t = true) (l1 ++ l2)) by (rewrite Ef; by left).
        by apply list_elem_of_filter in Hu as [? ?]. }
      destruct Hex as (u & Hu & Hh). right; right. exists u. split; [rewrite !elem_of_app; apply elem_of_app in Hu; tauto|]. assert (Hcu : cthread_ok c u).
      { apply elem_of_app in Hu as [Hu|Hu]; [eapply Forall_forall in F1|eapply Forall_forall in F2]; eauto. }
      destruct u; cbn in *; lia || done.
Qed.

Lemma cinv_cas c l1 r l2 : cinv c -> c_threads c = l1 ++ Cf_cas r :: l2 -> c_requests c = r -> cinv (set_cthreads (set_crequests c 0) (l1 ++ option_list None ++ l2)).
Proof.
  intros [H1 H2 H3 H4 H5] E Er. rewrite E in H3. apply Forall_app in H3 as [F1 [F F2]%Forall_cons]. cbn in F. unfold holders in H2. rewrite E, held_app, held_cons in H2. cbn [holds_job] in H2.
  destruct (Z.eqb_spec (c_requests c) 0) as [?|_]; [lia|]. assert (Hl : held (l1 ++ l2) = O) by (rewrite held_app; lia). pose proof (held_none _ Hl) as Hfree. split; cbn; [lia| | |done|].
  - unfold holders. cbn [c_jobs c_threads set_cthreads set_crequests]. rewrite Hl. lia.
  - apply Forall_forall. intros u Hu. by apply free_ok, Hfree.
  - intros Hlt. destruct (H5 Hlt) as [?|[?|(u & Hu & Hs)]]; auto. rewrite E in Hu. apply (other_thread _ _ _ _ None) in Hu as [->|Hu]; [by destruct Hs|]. right; right. exists u. split; [done|]. by apply free_ok, Hfree.
Qed.

Lemma cinv_thread c pos l1 t l2 : cinv c -> c_requests c < 2 ^ 64 - 1 -> c_threads c = l1 ++ t :: l2 -> pos_ok c t pos -> cinv (run_cthread true pos l1 t l2 c).
Proof.
  intros Hc Hr E Hp. pose proof (ci_threads _ Hc) as Hf. rewrite E in Hf. apply Forall_app in Hf as [_ [Ht _]%Forall_cons]. pose proof (ci_applied _ Hc) as Hap. pose proof (ci_req _ Hc) as Hreq. unfold run_cthread.
  destruct t as [| | | |r|r tp|r]; cbn [cthread_step mdv_committer_fn mdv_committer_job_emit pos_ok cthread_ok] in *.
  - eapply (cinv_go c _ l1 Cm_notify l2 None); try done; try (cbn; lia); by left.
  - by pose proof (cinv_start c l1 l2 Hc Hr E).
  - eapply (cinv_go c _ l1 Cm_emit l2 None); try done; try (cbn; lia); by right; left.
  - assert (Hn : c_requests c <> 0). { intros E0. pose proof (ci_one _ Hc) as H1. unfold holders in H1. rewrite E, held_app, held_cons, E0 in H1. cbn in H1. lia. }
    eapply (cinv_go c _ l1 Cf_load l2 (Some _)); try done; try (cbn; lia); try (repeat constructor; cbn; lia). intros _ _. right; right. by eexists.
  - eapply (cinv_go c _ l1 (Cf_begin r) l2 (Some _)); try done; try (cbn; lia); try (repeat constructor; cbn; lia). intros _ _. right; right. eexists. split; [done|]. by left.
  - eapply (cinv_go c _ l1 (Cf_end r tp) l2 (Some _)); try done; try (cbn; lia); try (repeat constructor; cbn; lia). intros Hlt; cbn in Hlt; intros [Hx|Hx]; [lia|]. right; right. by eexists.
  - destruct (Z.eqb_spec (c_requests c) r) as [Er|Er]; [by apply (cinv_cas c l1 r l2)|].
    eapply (cinv_go c _ l1 (Cf_cas r) l2 (Some _)); try done; try (cbn; lia); try (repeat constructor; cbn; lia). intros _ _. right; right. by eexists.
Qed.

Lemma cinv_step l c c' : c_requests c < 2 ^ 64 - 1 -> cstep l c c' -> l <> C_fail -> cinv c -> cinv c'.
Proof.
  intros Hr Hs Hl Hc. destruct Hs as [c id|c ok pos l1 t l2 E Hp|c E|c n E].
  - destruct Hc as [H1 H2 H3 H4 H5]. split; try done; cbn; [|lia|].
    + constructor; [done|]. eapply Forall_impl; [exact H3|]. intros u. destruct u; cbn; lia.
    + intros _. right; right. exists Cm_notify. split; [by left|done].
  - destruct ok; [|done]. by apply cinv_thread.
  - destruct Hc as [H1 H2 H3 H4 H5]. split; try done; cbn; [by constructor|]. intros _. right; right. exists Cm_add. split; [by left|done].
  - destruct Hc as [H1 H2 H3 H4 H5]. split; try done.
    + unfold holders in *. cbn [c_jobs c_threads set_cthreads set_cjobs c_requests]. rewrite held_cons. cbn [holds_job]. rewrite E in H2. lia.
    + by constructor.
    + intros _. right; right. exists Cf_load. split; [by left|done].
Qed.

Lemma cinv_steps ls c c' : csteps ls c c' -> Forall (fun l => l <> C_fail) ls -> cinv c -> cinv c'.
Proof. intros Hs Hl Hc. induction Hs as [c|ls l c c1 c2 _ IH Hr Hs]; [done|]. apply Forall_app in Hl as [Hl [Hl1 _]%Forall_cons]. eapply cinv_step; eauto. Qed.

Lemma cinv_opened top applied : applied <= top -> cinv (opened top applied).
Proof. intros Ha. split; cbn; try done. by left. Qed.

(** ** The work ends *)

Definition cpot_thread (t : cthread) : nat := match t with Cm_notify | Cm_add => 2 | _ => 1 end.

Definition cpot (c : csys) : nat := (sum_list_with cpot_thread (c_threads c) + (if c_changed c then 2 else 0) + c_jobs c)%nat.

Definition cweight_thread (n : Z) (t : cthread) : nat :=
  let m r := if r =? n then O else 10%nat in
  match t with
  | Cf_cas r => 1 + m r
  | Cf_end r _ => 2 + m r
  | Cf_begin r => 3 + m r
  | Cf_load => 15
  | Cm_emit => 17
  | Cm_add => 1
  | Cm_notify => 3
  end%nat.

Definition cweight (c : csys) : nat := (sum_list_with (cweight_thread (c_requests c)) (c_threads c) + (if c_changed c then 2 else 0) + 16 * c_jobs c)%nat.

Definition cless (c' c : csys) : Prop := (cpot c' < cpot c)%nat \/ (cpot c' = cpot c /\ (cweight c' < cweight c)%nat).

Ltac cweigh E := unfold cless, cpot, cweight; cbn -[Nat.mul]; rewrite ?E, ?sum_list_with_app; cbn -[Nat.mul].

Lemma cless_step c c' : cstep C_ok c c' -> cless c' c.
Proof.
  intros Hs. remember C_ok as l eqn:El. destruct Hs as [c id|c ok pos l1 t l2 E Hp|c E|c n E]; try discriminate El.
  - destruct ok; [|discriminate El]. unfold run_cthread. destruct t as [| | | |r|r tp|r]; cbn [cthread_step mdv_committer_start mdv_committer_job_emit mdv_committer_fn].
    + cweigh E. destruct (c_changed c); lia.
    + left. destruct (c_requests c =? 0); cweigh E; lia.
    + cweigh E. lia.
    + cweigh E. rewrite Z.eqb_refl. lia.
    + cweigh E. lia.
    + cweigh E. lia.
    + destruct (Z.eqb_spec (c_requests c) r) as [Er|Er]; [left; cweigh E; lia|]. cweigh E. rewrite Z.eqb_refl, (proj2 (Z.eqb_neq r (c_requests c))) by congruence. lia.
  - cweigh E. lia.
  - cweigh E. lia.
Qed.

Lemma cless_acc c : Acc (fun c' c => cstep C_ok c c') c.
Proof.
  remember (cpot c) as p eqn:Ep. revert c Ep. induction p as [p IHp] using lt_wf_ind. intros c Ep. remember (cweight c) as w eqn:Ew. revert c Ep Ew. induction w as [w IHw] using lt_wf_ind.
  intros c -> ->. constructor. intros c' Hs. destruct (cless_step c c' Hs) as [Hl|[El Hl]]; [by apply (IHp _ Hl)|by apply (IHw _ Hl)].
Qed.

Lemma cprogress c : cinv c -> cquiescent c \/ exists c', cstep C_ok c c'.
Proof.
  intros Hc. destruct (c_changed c) eqn:E1; [right; eexists; by apply cstep_changed|]. destruct (c_jobs c) as [|n] eqn:E2; [|right; eexists; by apply (cstep_job c n)]. destruct (c_threads c) as [|t l] eqn:E3; [by left|].
  right. exists (run_cthread true (c_top c) [] t l c). apply (cstep_thread c true (c_top c) [] t l E3). pose proof (ci_threads _ Hc) as Hf. rewrite E3 in Hf. apply Forall_cons in Hf as [Ht _].
  pose proof (ci_applied _ Hc). destruct t; cbn in *; try done. lia.
Qed.

(** *** A log without its job *)

(** A request was counted and nobody has the job. *)
Definition orphaned (c : csys) : Prop := 0 < c_requests c /\ holders c = O.

Lemma orphaned_step l c c' : c_requests c < 2 ^ 64 - 1 -> cstep l c c' -> orphaned c -> orphaned c' /\ c_applied c' = c_applied c.
Proof.
  unfold orphaned, holders. intros Hr Hs [H1 H2]. destruct Hs as [c id|c ok pos l1 t l2 E Hp|c E|c n E].
  - by cbn.
  - rewrite E, held_app, held_cons in H2. assert (Hj : holds_job t = false) by (destruct (holds_job t); [lia|done]). unfold run_cthread.
    destruct t; try discriminate Hj; cbn [cthread_step mdv_committer_start].
    + destruct ok; cbn [c_requests c_jobs c_threads c_applied set_cthreads set_cchanged]; rewrite !held_app; change (held (option_list None)) with O; (split; [split|]); done || lia.
    + rewrite (wrap_id 64) by (unfold fits; lia). destruct (Z.eqb_spec (c_requests c) 0) as [?|_]; [lia|]. cbn [c_requests c_jobs c_threads c_applied set_cthreads set_crequests]. rewrite !held_app; change (held (option_list None)) with O; (split; [split|]); done || lia.
  - by cbn.
  - lia.
Qed.

Lemma orphaned_steps ls c c' : csteps ls c c' -> orphaned c -> orphaned c' /\ c_applied c' = c_applied c.
Proof. intros Hs Hc. induction Hs as [c|ls l c c1 c2 _ IH Hr Hs]; [done|]. destruct (IH Hc) as [H1 H2]. destruct (orphaned_step _ _ _ Hr Hs H1) as [H3 H4]. split; [done|congruence]. Qed.

(** Whatever fails, there is one job at most, and none while no request is counted. *)
Definition one_job (c : csys) : Prop := 0 <= c_requests c /\ (holders c <= if (c_requests c =? 0)%Z then 0 else 1)%nat.

Lemma one_job_step l c c' : c_requests c < 2 ^ 64 - 1 -> cstep l c c' -> one_job c -> one_job c'.
Proof.
  unfold one_job, holders. intros Hr Hs [H1 H2]. destruct Hs as [c id|c ok pos l1 t l2 E Hp|c E|c n E].
  - by cbn.
  - rewrite E, held_app, held_cons in H2. unfold run_cthread.
    destruct t; cbn [cthread_step mdv_committer_start mdv_committer_job_emit mdv_committer_fn holds_job] in *.
    + destruct ok; cbn [c_requests c_jobs c_threads set_cthreads set_cchanged]; rewrite !held_app; change (held (option_list None)) with O; (split; [done|]); lia.
    + rewrite (wrap_id 64) by (unfold fits; lia). cbn [c_requests c_jobs c_threads set_cthreads set_crequests]. rewrite !held_app. destruct (Z.eqb_spec (c_requests c) 0), (Z.eqb_spec (c_requests c + 1) 0); try lia;
        [change (held (option_list (Some Cm_emit))) with 1%nat|change (held (option_list None)) with O]; split; lia.
    + destruct ok; cbn [c_requests c_jobs c_threads set_cthreads set_cjobs]; rewrite !held_app; change (held (option_list None)) with O; (split; [done|]); lia.
    + cbn [c_requests c_jobs c_threads set_cthreads]. rewrite !held_app. change (held (option_list (Some (Cf_begin (c_requests c))))) with 1%nat. split; [done|lia].
    + destruct ok; cbn [c_requests c_jobs c_threads set_cthreads]; rewrite !held_app; [change (held (option_list (Some (Cf_end requests (c_top c))))) with 1%nat|change (held (option_list None)) with O]; (split; [done|lia]).
    + destruct ok; cbn [c_requests c_jobs c_threads set_cthreads set_capplied]; rewrite !held_app; change (held (option_list (Some (Cf_cas requests)))) with 1%nat; (split; [done|lia]).
    + destruct (c_requests c =? requests); cbn [c_requests c_jobs c_threads set_cthreads set_crequests]; rewrite !held_app; [change (held (option_list None)) with O|change (held (option_list (Some (Cf_begin (c_requests c))))) with 1%nat]; (split; [lia|]); [|lia].
      destruct (c_requests c =? 0)%Z; cbn; lia.
  - by cbn.
  - cbn [c_requests c_jobs c_threads set_cthreads set_cjobs]. rewrite held_cons. cbn [holds_job]. rewrite E in H2. split; [done|lia].
Qed.

Lemma one_job_steps ls c c' : csteps ls c c' -> one_job c -> one_job c'.
Proof. intros Hs Hc. induction Hs as [c|ls l c c1 c2 _ IH Hr Hs]; [done|]. eapply one_job_step; eauto. Qed.

(** The thread that has the job gives up. *)
Lemma job_lost c l1 t l2 pos : one_job c -> c_threads c = l1 ++ t :: l2 -> t = Cm_emit \/ (exists requests, t = Cf_begin requests) ->
  orphaned (run_cthread false pos l1 t l2 c) /\ c_applied (run_cthread false pos l1 t l2 c) = c_applied c.
Proof.
  unfold one_job, orphaned, holders. intros [H1 H2] E Ht. rewrite E, held_app, held_cons in H2.
  assert (Hj : holds_job t = true) by (by destruct Ht as [->|[r ->]]). rewrite Hj in H2. destruct (Z.eqb_spec (c_requests c) 0); [lia|].
  destruct Ht as [->|[r ->]]; cbn [run_cthread cthread_step mdv_committer_job_emit mdv_committer_fn c_requests c_jobs c_threads c_applied set_cthreads]; rewrite !held_app; change (held (option_list None)) with O; (split; [split|]); done || lia.
Qed.

(** ** Theorems *)

(** C11: no change of a log is missed by the committer, whatever the order in which
    its threads and jobs get their turn, as long as no step of them fails: there is
    one job for the log at most, the work ends when no operation is stored any more,
    and when nothing is left to do, the log is applied up to its end.  Failing steps
    are an allocation, a job that is not taken, an application that reports an error,
    and a change event that is not queued, as for one of another log that is queued.
    The statement is about the position: an operation that is stored in a gap below
    the position is passed over. *)
Theorem mdv_committer_applies top applied ls c :
  applied <= top -> csteps ls (opened top applied) c -> Forall (fun l => l <> C_fail) ls ->
  (holders c <= 1)%nat /\ Acc (fun c' c => cstep C_ok c c') c /\ (cquiescent c \/ exists c', cstep C_ok c c') /\
  (cquiescent c -> c_applied c = c_top c).
Proof.
  intros Ha Hs Hl. assert (Hc : cinv c) by (eapply cinv_steps; [exact Hs|done|by apply cinv_opened]). split_and!.
  - rewrite (ci_one _ Hc). destruct (c_requests c =? 0); lia.
  - apply cless_acc.
  - by apply cprogress.
  - intros (Q1 & Q2 & Q3). destruct (Z.lt_ge_cases (c_applied c) (c_top c)) as [Hlt|Hge]; [|pose proof (ci_applied _ Hc); lia]. destruct (ci_awake _ Hc Hlt) as [?|[?|(t & Ht & _)]]; try congruence. rewrite Q3 in Ht. by apply elem_of_nil in Ht.
Qed.

(** *** A scheduler, and a log with three operations to apply *)

Definition cnext (c : csys) : csys :=
  match c_changed c, c_jobs c, c_threads c with
  | true, _, _ => set_cthreads (set_cchanged c false) (Cm_add :: c_threads c)
  | _, S n, _ => set_cthreads (set_cjobs c n) (Cf_load :: c_threads c)
  | _, _, t :: l => run_cthread true (c_top c) [] t l c
  | _, _, [] => c
  end.

Definition cdone (c : csys) : bool := negb (c_changed c) && (c_jobs c =? 0)%nat && match c_threads c with [] => true | _ => false end.

Fixpoint cdrive (fuel : nat) (c : csys) : csys :=
  match fuel with
  | O => c
  | S fuel => if (c_requests c <? 2 ^ 64 - 1) && negb (cdone c) then cdrive fuel (cnext c) else c
  end.

Lemma cnext_step c : cinv c -> cdone c = false -> cstep C_ok c (cnext c).
Proof.
  intros Hc Hd. unfold cnext, cdone in *. destruct (c_changed c) eqn:E1; [by apply cstep_changed|]. destruct (c_jobs c) as [|n] eqn:E2; [|by apply cstep_job]. destruct (c_threads c) as [|t l] eqn:E3; [done|].
  apply (cstep_thread c true (c_top c) [] t l E3). pose proof (ci_threads _ Hc) as Hf. rewrite E3 in Hf. apply Forall_cons in Hf as [Ht _]. pose proof (ci_applied _ Hc). destruct t; cbn in *; try done. lia.
Qed.

Lemma cdrive_steps fuel : forall ls c0 c, csteps ls c0 c -> cinv c -> exists n, csteps (ls ++ replicate n C_ok) c0 (cdrive fuel c).
Proof.
  induction fuel as [|fuel IH]; intros ls c0 c Hs Hc; cbn [cdrive]; [exists O; by rewrite app_nil_r|]. destruct (Z.ltb_spec (c_requests c) (2 ^ 64 - 1)) as [Hr|]; [|exists O; by rewrite app_nil_r]. cbn [andb].
  destruct (cdone c) eqn:Ed; [exists O; by rewrite app_nil_r|]. cbn [negb]. pose proof (cnext_step c Hc Ed) as Hst. destruct (IH (ls ++ [C_ok]) c0 (cnext c)) as [n Hn]; [by eapply csteps_snoc|by eapply cinv_step|]. exists (S n). by rewrite <- app_assoc in Hn.
Qed.

Lemma mdv_committer_applies_witness : c_applied (cdrive 20 (opened 5 2)) = c_top (cdrive 20 (opened 5 2)).
Proof.
  destruct (cdrive_steps 20 [] _ _ (csteps_nil (opened 5 2)) (cinv_opened 5 2 ltac:(lia))) as [n Hn]. apply (mdv_committer_applies 5 2 ([] ++ replicate n C_ok) (cdrive 20 (opened 5 2))); [lia|done|by apply Forall_replicate|].
  vm_compute. by split.
Defined.

(** C38: when the job of a log cannot be started, or there is no memory for its
    event, the request stays counted, in every execution.  From then on nothing of
    this log is ever applied again, whatever is added to it and whether later steps
    fail or not: every later request counts itself and leaves the work to the job
    that does not exist. *)
Theorem mdv_committer_orphaned top applied ls c l1 t l2 pos ls' c' :
  csteps ls (opened top applied) c -> c_threads c = l1 ++ t :: l2 -> t = Cm_emit \/ (exists requests, t = Cf_begin requests) ->
  csteps ls' (run_cthread false pos l1 t l2 c) c' ->
  c_applied c' = c_applied c /\ 0 < c_requests c' /\ holders c' = O.
Proof.
  intros Hs E Ht Hs'. assert (Ho : orphaned (run_cthread false pos l1 t l2 c) /\ c_applied (run_cthread false pos l1 t l2 c) = c_applied c).
  { apply job_lost; [|done..]. eapply one_job_steps; [exact Hs|]. by split. }
  destruct Ho as [Ho Ea]. destruct (orphaned_steps ls' _ _ Hs' Ho) as [[? ?] ?]. split_and!; congruence.
Qed.

(** The job is not taken; then an operation is added. *)
Lemma mdv_committer_orphaned_witness : exists c c', csteps [C_ok; C_ok] (opened 5 2) c /\ cstep C_fail c (run_cthread false 5 [] Cm_emit [] c) /\
  csteps [C_add] (run_cthread false 5 [] Cm_emit [] c) c' /\ c_applied c' = 2 /\ c_top c' = 6.
Proof.
  set (c1 := cnext (opened 5 2)). set (c2 := cnext c1). set (c3 := run_cthread false 5 [] Cm_emit [] c2). exists c2, (set_cthreads (set_ctop c3 6) (Cm_notify :: c_threads c3)).
  assert (S1 : csteps [C_ok] (opened 5 2) c1) by (apply (csteps_snoc [] C_ok _ (opened 5 2)); [constructor|reflexivity|by apply (cstep_changed (opened 5 2))]).
  assert (S2 : csteps [C_ok; C_ok] (opened 5 2) c2) by (apply (csteps_snoc [C_ok] C_ok _ c1); [done|reflexivity|by apply (cstep_thread c1 true 5 [] Cm_add [])]).
  assert (S4 : csteps [C_add] c3 (set_cthreads (set_ctop c3 6) (Cm_notify :: c_threads c3))) by (apply (csteps_snoc [] C_add _ c3); [constructor|reflexivity|apply (cstep_append c3 5)]).
  split; [exact S2|]. split; [by apply (cstep_thread c2 false 5 [] Cm_emit [])|]. split; [exact S4|]. split; [|reflexivity].
  etrans; [apply (mdv_committer_orphaned 5 2 [C_ok; C_ok] c2 [] Cm_emit [] 5 [C_add] _ S2 eq_refl (or_introl eq_refl) S4)|reflexivity].
Defined.

End Committer.
