(* ===== verification/Msg.v ===== *)
(** * Messages on a connection (src/mdv_net/mdv_msg.c)

    Reads and writes of descriptors (src/mdv_platform/mdv_def.c), the codes of
    errors (mdv_errno.c) and the frames of messages: a header in the order of
    bytes of the network and a payload.  A read can give any part of what was
    asked for and can be interrupted; a message is filled over several calls. *)

From S2P Require Import Prelude.
From S2P Require Import Uuid.

Module Msg.

Abbreviation bytes := (list Z).

(** ** Codes of errors *)

(** The values of the enumeration; [mdv_errno] is [int]. *)
Definition code (e : mdv_errno) : Z :=
  match e with
  | MDV_OK => 1 | MDV_FALSE => 0 | MDV_FAILED => -1 | MDV_INVALID_ARG => -2 | MDV_INVALID_TYPE => -3 | MDV_ENOENT => -4
  | MDV_EAGAIN => -5 | MDV_CLOSED => -6 | MDV_EEXIST => -7 | MDV_NO_MEM => -8 | MDV_INPROGRESS => -9 | MDV_ETIMEDOUT => -10
  | MDV_BUSY => -11 | MDV_NO_IMPL => -12 | MDV_STACK_OVERFLOW => -13
  end.

Coercion code : mdv_errno >-> Z.

Definition EPERM : Z := 1.
Definition ENOENT : Z := 2.
Definition EAGAIN : Z := 11.
Definition EEXIST : Z := 17.
Definition ETIMEDOUT : Z := 110.
Definition EINPROGRESS : Z := 115.

Definition mdv_error (errno : Z) : Z :=
  if (errno =? ENOENT)%Z then MDV_ENOENT
  else if (errno =? EAGAIN)%Z then MDV_EAGAIN
  else if (errno =? EEXIST)%Z then MDV_EEXIST
  else if (errno =? EINPROGRESS)%Z then MDV_INPROGRESS
  else if (errno =? ETIMEDOUT)%Z then MDV_ETIMEDOUT
  else errno.

(** ** Descriptors *)

(** What the system will answer to the calls of [read]: bytes that arrived
    together, where no bytes mean that the other side closed the connection, or
    an error.  Behind the last answer nothing has arrived yet. *)
Inductive rd := Rd_data (bs : bytes) | Rd_error (errno : Z).

Definition sys_read (i : list rd) (len : nat) : list rd * (bytes + Z) :=
  match i with
  | [] => ([], inr EAGAIN)
  | Rd_error e :: i => (i, inr e)
  | Rd_data bs :: i' =>
      match bs with
      | [] => (i, inl [])
      | _ => (if len <? length bs then Rd_data (drop len bs) :: i' else i', inl (take len bs))
      end
  end.

(** The answers that are left, the error, the bytes that were stored, [*len]. *)
Definition mdv_read (i : list rd) (len : nat) : list rd * Z * bytes * nat :=
  if (len =? 0)%nat then (i, code MDV_OK, [], 0) else
  match sys_read i len with
  | (i, inr e) => (i, mdv_error e, [], len)
  | (i, inl []) => (i, code MDV_CLOSED, [], len)
  | (i, inl bs) => (i, code MDV_OK, bs, length bs)
  end.

(** Reads into [buf] from [have] on until [want] bytes are there. *)
Fixpoint read_loop (fuel : nat) (i : list rd) (buf : bytes) (have want : nat) : outcome (list rd * bytes * nat * Z) :=
  match fuel with
  | 0 => OutOfFuel
  | S fuel =>
      if negb (have <? want) then Done (i, buf, have, code MDV_OK) else
      let '(i, err, bs, len) := mdv_read i (want - have) in
      if negb (err =? MDV_OK)%Z then Done (i, buf, have, err)
      else read_loop fuel i (memcpy buf have bs) (have + len) want
  end.

(** [mdv_read_all] goes on after [MDV_EAGAIN]. *)
Fixpoint mdv_read_all (fuel : nat) (i : list rd) (buf : bytes) (total len : nat) : outcome (list rd * bytes * Z) :=
  match fuel with
  | 0 => OutOfFuel
  | S fuel =>
      if negb (total <? len) then Done (i, buf, code MDV_OK) else
      let '(i, err, bs, rlen) := mdv_read i (len - total) in
      if (err =? MDV_EAGAIN)%Z then mdv_read_all fuel i buf total len
      else if (err =? MDV_OK)%Z then mdv_read_all fuel i (memcpy buf total bs) (total + rlen) len
      else Done (i, buf, err)
  end.

Fixpoint mdv_skip (fuel : nat) (i : list rd) (skipped len : nat) : outcome (list rd * Z) :=
  match fuel with
  | 0 => OutOfFuel
  | S fuel =>
      if negb (skipped <? len) then Done (i, code MDV_OK) else
      match sys_read i (Nat.min 64 (len - skipped)) with
      | (i, inr e) => Done (i, mdv_error e)
      | (i, inl []) => Done (i, code MDV_CLOSED)
      | (i, inl bs) => mdv_skip fuel i (skipped + length bs) len
      end
  end.

(** What the system will answer to the calls of [write], and what was sent; in
    the end it accepts everything. *)
Inductive wr := Wr_accept (n : nat) | Wr_error (errno : Z).

Record sink := mk_sink { sk_answers : list wr; sk_sent : bytes }.

(** The sink, the error, [*len]. *)
Definition mdv_write (o : sink) (data : bytes) : sink * Z * nat :=
  match data with
  | [] => (o, code MDV_OK, 0)
  | _ =>
      match sk_answers o with
      | [] => (mk_sink [] (sk_sent o ++ data), code MDV_OK, length data)
      | Wr_accept n :: a => (mk_sink a (sk_sent o ++ take n data), code MDV_OK, Nat.min n (length data))
      | Wr_error e :: a => (mk_sink a (sk_sent o), mdv_error e, length data)
      end
  end.

(** [data]: what is left to be written. *)
Fixpoint mdv_write_all (fuel : nat) (o : sink) (data : bytes) : outcome (sink * Z) :=
  match fuel with
  | 0 => OutOfFuel
  | S fuel =>
      match data with
      | [] => Done (o, code MDV_OK)
      | _ =>
          let '(o, err, wlen) := mdv_write o data in
          if (err =? MDV_EAGAIN)%Z then mdv_write_all fuel o data
          else if (err =? MDV_OK)%Z then mdv_write_all fuel o (drop wlen data)
          else Done (o, err)
      end
  end.

(** ** Messages *)

(** The order of bytes of the network, on a little-endian machine. *)
Definition mdv_hton16 (v : Z) : Z := of_le (rev (to_le 2 v)).
Definition mdv_hton32 (v : Z) : Z := of_le (rev (to_le 4 v)).
Definition mdv_ntoh16 (v : Z) : Z := of_le (rev (to_le 2 v)).
Definition mdv_ntoh32 (v : Z) : Z := of_le (rev (to_le 4 v)).

Definition sizeof_msghdr : nat := 8.
Definition MDV_MSG_SIZE_MAX : Z := 100 * 1024 * 1024.

(** The header is its eight bytes in memory. *)
Record mdv_msg := mk_msg { m_hdr : bytes; m_available_size : Z; m_payload : option bytes }.

Definition hdr_id (h : bytes) : Z := of_le (slice h 0 2).
Definition hdr_number (h : bytes) : Z := of_le (slice h 2 2).
Definition hdr_size (h : bytes) : Z := of_le (slice h 4 4).
Definition mdv_msghdr (id number size : Z) : bytes := to_le 2 id ++ to_le 2 number ++ to_le 4 size.

(** [memset(msg, 0, sizeof *msg)] *)
Definition no_msg : mdv_msg := mk_msg (replicate 8 0%Z) 0 None.

Definition mdv_write_msg (fuel : nat) (o : sink) (msg : mdv_msg) : outcome (sink * Z) :=
  if (MDV_MSG_SIZE_MAX <? hdr_size (m_hdr msg))%Z then Done (o, code MDV_FAILED) else
  let hdr := mdv_msghdr (mdv_hton16 (hdr_id (m_hdr msg))) (mdv_hton16 (hdr_number (m_hdr msg))) (mdv_hton32 (hdr_size (m_hdr msg))) in
  r ← mdv_write_all fuel o hdr;
  let '(o, err) := r in
  if negb (err =? MDV_OK)%Z then Done (o, err) else
  let size := Z.to_nat (hdr_size (m_hdr msg)) in
  match m_payload msg with
  | None => if (size =? 0)%nat then Done (o, code MDV_OK) else OutOfBounds (-1)
  | Some p => if length p <? size then OutOfBounds (Z.of_nat (length p)) else mdv_write_all fuel o (take size p)
  end.

(** The payload behind a complete header. *)
Definition read_payload (fuel : nat) (i : list rd) (hdr : bytes) (available : nat) (payload : option bytes) : outcome (list rd * mdv_msg * Z) :=
  let size := Z.to_nat (hdr_size hdr) in
  match payload with
  | None => if (size =? 0)%nat then Done (i, mk_msg hdr (Z.of_nat available) None, code MDV_OK) else OutOfBounds (-1)
  | Some p =>
      r ← read_loop fuel i p (available - sizeof_msghdr) size;
      let '(i, p, have, err) := r in
      Done (i, mk_msg hdr (Z.of_nat (sizeof_msghdr + have)) (Some p), err)
  end.

(** [mem]: the payload is allocated; [fresh]: what the new block holds. *)
Definition mdv_read_msg (mem : bool) (fresh : nat -> bytes) (fuel : nat) (i : list rd) (msg : mdv_msg) : outcome (list rd * mdv_msg * Z) :=
  let available := Z.to_nat (m_available_size msg) in
  if available <? sizeof_msghdr then
    r ← read_loop fuel i (m_hdr msg) available sizeof_msghdr;
    let '(i, hdr, available, err) := r in
    if negb (err =? MDV_OK)%Z then Done (i, mk_msg hdr (Z.of_nat available) (m_payload msg), err) else
    let hdr := mdv_msghdr (mdv_ntoh16 (hdr_id hdr)) (mdv_ntoh16 (hdr_number hdr)) (mdv_ntoh32 (hdr_size hdr)) in
    if (MDV_MSG_SIZE_MAX <? hdr_size hdr)%Z then Done (i, no_msg, code MDV_FAILED) else
    if (hdr_size hdr =? 0)%Z then read_payload fuel i hdr available None
    else if negb mem then Done (i, no_msg, code MDV_NO_MEM)
    else read_payload fuel i hdr available (Some (fresh (Z.to_nat (hdr_size hdr))))
  else read_payload fuel i (m_hdr msg) available (m_payload msg).

Definition mdv_free_msg (msg : mdv_msg) : mdv_msg := no_msg.

(** A reader that collects the messages until nothing is left or an error
    occurs. *)
Fixpoint receive (fuel : nat) (fresh : nat -> bytes) (i : list rd) (msg : mdv_msg) (got : list mdv_msg) : outcome (list mdv_msg * mdv_msg * Z) :=
  match fuel with
  | 0 => OutOfFuel
  | S fuel =>
      r ← mdv_read_msg true fresh (S fuel) i msg;
      let '(i, msg, err) := r in
      if (err =? MDV_OK)%Z then receive fuel fresh i (mdv_free_msg msg) (got ++ [msg])
      else if (err =? MDV_EAGAIN)%Z && negb (length i =? 0)%nat then receive fuel fresh i msg got
      else Done (got, msg, err)
  end.

(** A writer of several messages. *)
Fixpoint send_all (fuel : nat) (o : sink) (msgs : list mdv_msg) : outcome (sink * Z) :=
  match msgs with
  | [] => Done (o, code MDV_OK)
  | msg :: msgs =>
      r ← mdv_write_msg fuel o msg;
      let '(o, err) := r in
      if negb (err =? MDV_OK)%Z then Done (o, err) else send_all fuel o msgs
  end.

(** ** Reading in pieces *)

(** The bytes that will arrive. *)
Definition arriving (i : list rd) : bytes := concat ((fun e => match e with Rd_data bs => bs | Rd_error _ => [] end) <$> i).

(** The connection stays open; the only errors say that nothing is there yet. *)
Definition calm (i : list rd) : Prop := Forall (fun e => match e with Rd_data bs => bs <> [] | Rd_error e => e = EAGAIN end) i.

Definition cost (i : list rd) : nat := sum_list ((fun e => match e with Rd_data bs => S (length bs) | Rd_error _ => 1 end) <$> i).

Lemma sys_read_calm i len :
  calm i -> 0 < len ->
  match sys_read i len with
  | (i', inr e) => e = EAGAIN /\ calm i' /\ arriving i' = arriving i /\ (i = [] \/ cost i' < cost i)
  | (i', inl bs) => bs <> [] /\ length bs <= len /\ arriving i = bs ++ arriving i' /\ calm i' /\ cost i' < cost i
  end.
Proof.
  intros Hc Hl. destruct i as [|[bs|e] i]; cbn [sys_read]; [by split_and!; auto| |].
  - apply Forall_cons in Hc as [Hne Hc]. destruct bs as [|b bs]; [done|]. clear Hne. destruct (Nat.ltb_spec len (length (b :: bs))) as [Hlt|Hge].
    + split_and!; [by destruct len; [lia|]|rewrite length_take; lia| | |].
      * change (arriving (Rd_data (b :: bs) :: i)) with ((b :: bs) ++ arriving i). change (arriving (Rd_data (drop len (b :: bs)) :: i)) with (drop len (b :: bs) ++ arriving i).
        by rewrite app_assoc, take_drop.
      * apply Forall_cons. split; [|done]. intros E. apply (f_equal length) in E. rewrite length_drop in E. cbn [length] in *. lia.
      * unfold cost. rewrite !fmap_cons. cbn [sum_list fmap list_fmap id]. rewrite length_drop. unfold id. cbn [length] in *. lia.
    + split_and!; [by destruct len; [lia|]|rewrite length_take; lia| |done|].
      * rewrite (take_ge (b :: bs)) by lia. done.
      * unfold cost. rewrite fmap_cons. cbn. lia.
  - apply Forall_cons in Hc as [-> Hc]. split_and!; [done..|]. right. unfold cost. rewrite fmap_cons. cbn. lia.
Qed.

(** The target [full] is read up to [have]. *)
Definition filled (full buf : bytes) (have : nat) : Prop := length buf = length full /\ have <= length full /\ take have buf = take have full.

Lemma fill_more full buf have bs :
  filled full buf have -> length bs <= length full - have ->
  bs = take (length bs) (drop have full) -> filled full (memcpy buf have bs) (have + length bs).
Proof.
  intros (Hb & Hh & Ht) Hl Hbs. unfold filled. rewrite length_memcpy by lia. split_and!; [done|lia|].
  unfold memcpy. rewrite app_assoc, take_app_le by (rewrite length_app, length_take; lia).
  rewrite take_ge by (rewrite length_app, length_take; lia). rewrite Ht. rewrite Hbs at 1. by rewrite take_take_drop.
Qed.

Lemma read_loop_ok fuel : forall i full buf have rest,
  calm i -> filled full buf have -> arriving i = drop have full ++ rest -> cost i < fuel ->
  exists i' buf' have' err, read_loop fuel i buf have (length full) = Done (i', buf', have', err) /\ calm i' /\ filled full buf' have'
    /\ arriving i' = drop have' full ++ rest /\ have <= have' /\ cost i' <= cost i
    /\ (err = code MDV_OK /\ have' = length full \/ err = code MDV_EAGAIN /\ have' < length full /\ cost i' < cost i).
Proof.
  induction fuel as [|fuel IH]; intros i full buf have rest Hc Hf Ha Hfuel; [lia|]. cbn [read_loop].
  destruct (Nat.ltb_spec have (length full)) as [Hlt|Hge]; cbn [negb].
  2: { exists i, buf, have, (code MDV_OK). split_and!; try done. left. split; [done|]. destruct Hf as (_ & ? & _). lia. }
  unfold mdv_read. destruct (Nat.eqb_spec (length full - have) 0); [lia|]. pose proof (sys_read_calm i (length full - have) Hc ltac:(lia)) as Hs.
  destruct (sys_read i (length full - have)) as [i' [bs|e]].
  - destruct Hs as (Hne & Hl & Hd & Hc' & Hcost). destruct bs as [|b bs]; [done|]. cbn [Z.eqb code Pos.eqb negb].
    assert (Hbs : b :: bs = take (length (b :: bs)) (drop have full)).
    { rewrite Ha in Hd. apply (f_equal (take (length (b :: bs)))) in Hd. rewrite take_app_length in Hd.
      rewrite take_app_le in Hd by (rewrite length_drop; lia). done. }
    pose proof (fill_more full buf have (b :: bs) Hf Hl Hbs) as Hf'.
    destruct (IH i' full (memcpy buf have (b :: bs)) (have + length (b :: bs)) rest Hc' Hf') as (i2 & buf2 & have2 & err & E & Hc2 & Hf2 & Ha2 & Hh2 & Hco2 & Hcase).
    { rewrite Ha in Hd. rewrite <- (take_drop (length (b :: bs)) (drop have full)), <- Hbs, <- app_assoc in Hd. apply app_inv_head in Hd.
      by rewrite drop_drop in Hd. }
    { lia. }
    exists i2, buf2, have2, err. rewrite E. split_and!; try done; [lia|lia|]. destruct Hcase as [Hk|(? & ? & ?)]; [by left|right; split_and!; [done..|lia]].
  - destruct Hs as (-> & Hc' & Hd & Hcost). cbn. exists i', buf, have, (code MDV_EAGAIN). split_and!; try done.
    + by rewrite Hd.
    + destruct Hcost as [-> |?]; [|lia]. cbn in Ha. symmetry in Ha. apply app_nil in Ha as [Ha _]. apply (f_equal length) in Ha. rewrite length_drop in Ha. cbn in Ha. lia.
    + right. split_and!; [done..|]. destruct Hcost as [-> |?]; [|done]. cbn in Ha. symmetry in Ha. apply app_nil in Ha as [Ha _].
      apply (f_equal length) in Ha. rewrite length_drop in Ha. cbn in Ha. lia.
Qed.

(** ** Headers *)

Lemma rev_bytes l : Forall is_byte l -> Forall is_byte (rev l).
Proof. rewrite !Forall_forall. intros Hl x Hx. apply Hl. apply list_elem_of_In, in_rev. by apply list_elem_of_In. Qed.

(** Swapping the bytes twice. *)
Lemma swap_twice n z : (0 <= z < 256 ^ Z.of_nat n)%Z -> of_le (rev (to_le n (of_le (rev (to_le n z))))) = z.
Proof.
  intros Hz. pose proof (to_of_le (rev (to_le n z)) (rev_bytes _ (to_le_bytes n z))) as E. rewrite length_rev, length_to_le in E.
  rewrite E, rev_involutive. by apply of_to_le_id.
Qed.

Lemma swap_bound n z : (0 <= of_le (rev (to_le n z)) < 256 ^ Z.of_nat n)%Z.
Proof. pose proof (of_le_bound (rev (to_le n z)) (rev_bytes _ (to_le_bytes n z))) as Hb. by rewrite length_rev, length_to_le in Hb. Qed.

Lemma hdr_fields id number size :
  fits 16 id -> fits 16 number -> fits 32 size ->
  hdr_id (mdv_msghdr id number size) = id /\ hdr_number (mdv_msghdr id number size) = number /\ hdr_size (mdv_msghdr id number size) = size
  /\ length (mdv_msghdr id number size) = 8.
Proof.
  intros Hi Hn Hs. unfold hdr_id, hdr_number, hdr_size, mdv_msghdr, slice. rewrite !length_app, !length_to_le. split_and!; [| | |done].
  - rewrite drop_0, take_app_length' by (by rewrite length_to_le). by apply of_to_le_id.
  - rewrite drop_app_length', take_app_length' by (by rewrite length_to_le). by apply of_to_le_id.
  - rewrite app_assoc, drop_app_length', take_ge by (rewrite ?length_app, !length_to_le; lia). by apply of_to_le_id.
Qed.

(** ** Frames *)

Record message := mk_message { ms_id : Z; ms_number : Z; ms_payload : bytes }.

Definition message_ok (m : message) : Prop :=
  fits 16 (ms_id m) /\ fits 16 (ms_number m) /\ (Z.of_nat (length (ms_payload m)) <= MDV_MSG_SIZE_MAX)%Z.

Definition ms_size (m : message) : Z := Z.of_nat (length (ms_payload m)).
Definition host_hdr (m : message) : bytes := mdv_msghdr (ms_id m) (ms_number m) (ms_size m).
Definition wire_hdr (m : message) : bytes := mdv_msghdr (mdv_hton16 (ms_id m)) (mdv_hton16 (ms_number m)) (mdv_hton32 (ms_size m)).
Definition wire (m : message) : bytes := wire_hdr m ++ ms_payload m.

(** The message as it is in memory; [available] is not used by writers. *)
Definition msg_of (m : message) (available : Z) : mdv_msg :=
  mk_msg (host_hdr m) available (match ms_payload m with [] => None | p => Some p end).

Definition full_msg (m : message) : mdv_msg := msg_of m (Z.of_nat (sizeof_msghdr + length (ms_payload m))).

Lemma size_fits m : message_ok m -> fits 32 (ms_size m).
Proof. intros (_ & _ & Hs). unfold fits, ms_size, MDV_MSG_SIZE_MAX in *. lia. Qed.

Lemma host_fields m : message_ok m ->
  hdr_id (host_hdr m) = ms_id m /\ hdr_number (host_hdr m) = ms_number m /\ hdr_size (host_hdr m) = ms_size m /\ length (host_hdr m) = 8.
Proof. intros Hm. apply hdr_fields; [apply Hm|apply Hm|by apply size_fits]. Qed.

Lemma wire_fields m : message_ok m ->
  mdv_msghdr (mdv_ntoh16 (hdr_id (wire_hdr m))) (mdv_ntoh16 (hdr_number (wire_hdr m))) (mdv_ntoh32 (hdr_size (wire_hdr m))) = host_hdr m
  /\ length (wire_hdr m) = 8.
Proof.
  intros Hm. destruct (hdr_fields (mdv_hton16 (ms_id m)) (mdv_hton16 (ms_number m)) (mdv_hton32 (ms_size m))) as (E1 & E2 & E3 & E4);
    [apply (swap_bound 2)|apply (swap_bound 2)|apply (swap_bound 4)|]. unfold wire_hdr. rewrite E1, E2, E3. split; [|done].
  unfold host_hdr, mdv_ntoh16, mdv_ntoh32, mdv_hton16, mdv_hton32. f_equal; [apply (swap_twice 2)|apply (swap_twice 2)|apply (swap_twice 4)]; [apply Hm..|by apply size_fits].
Qed.

(** [k] bytes of the frame of [m] were read. *)
Definition partial (m : message) (k : nat) (msg : mdv_msg) : Prop :=
  m_available_size msg = Z.of_nat k /\ k < length (wire m)
  /\ if decide (k < 8) then filled (wire_hdr m) (m_hdr msg) k
     else m_hdr msg = host_hdr m /\ exists b, m_payload msg = Some b /\ filled (ms_payload m) b (k - 8).

(** What a call of [mdv_read_msg] leaves behind. *)
Definition progress (m : message) (i : list rd) (rest : bytes) (i' : list rd) (msg' : mdv_msg) (err : Z) : Prop :=
  calm i' /\ cost i' <= cost i
  /\ (err = code MDV_OK /\ msg' = full_msg m /\ arriving i' = rest
      \/ err = code MDV_EAGAIN /\ cost i' < cost i /\ exists k', partial m k' msg' /\ arriving i' = drop k' (wire m) ++ rest).

Lemma read_payload_ok m fuel i b k rest :
  message_ok m -> calm i -> 8 <= k -> filled (ms_payload m) b (k - 8) -> ms_payload m <> [] -> arriving i = drop (k - 8) (ms_payload m) ++ rest -> cost i < fuel ->
  exists i' msg' err, read_payload fuel i (host_hdr m) k (Some b) = Done (i', msg', err) /\ progress m i rest i' msg' err.
Proof.
  intros Hm Hc Hk Hf Hne Ha Hfuel. destruct (host_fields m Hm) as (_ & _ & Hs & Hl). destruct (wire_fields m Hm) as [_ Hwl].
  unfold read_payload. rewrite Hs. unfold ms_size. rewrite Nat2Z.id. unfold sizeof_msghdr.
  destruct (read_loop_ok fuel i (ms_payload m) b (k - 8) rest Hc Hf Ha Hfuel) as (i' & b' & have & err & -> & Hc' & Hf' & Ha' & Hh & Hco & Hcase).
  cbn [mbind outcome_bind]. eexists _, _, _. split; [done|]. split; [done|]. split; [done|]. destruct Hcase as [(-> & ->)|(-> & Hlt & Hco')].
  - left. split; [done|]. destruct Hf' as (Hlb & _ & Ht). rewrite <- Hlb, take_ge in Ht by lia. rewrite Hlb, take_ge in Ht by lia. subst b'. split.
    + unfold full_msg, msg_of. by destruct (ms_payload m).
    + by rewrite Ha', drop_ge.
  - right. split; [done|]. split; [done|]. exists (8 + have). split.
    + split; [done|]. unfold wire. rewrite length_app, Hwl. split; [lia|]. rewrite decide_False by lia. cbn [m_hdr m_payload]. split; [done|].
      exists b'. split; [done|]. by replace (8 + have - 8) with have by lia.
    + rewrite Ha'. unfold wire. rewrite drop_app_ge, Hwl by lia. do 2 f_equal. lia.
Qed.

Lemma filled_all full buf : filled full buf (length full) -> buf = full.
Proof. intros (Hl & _ & Ht). rewrite <- Hl, take_ge in Ht by lia. by rewrite Hl, take_ge in Ht by lia. Qed.

Lemma read_msg_ok m fresh fuel i msg k rest :
  message_ok m -> (forall n, length (fresh n) = n) -> calm i -> partial m k msg -> arriving i = drop k (wire m) ++ rest -> cost i < fuel ->
  exists i' msg' err, mdv_read_msg true fresh fuel i msg = Done (i', msg', err) /\ progress m i rest i' msg' err.
Proof.
  intros Hm Hfresh Hc (Hav & Hk & Hp) Ha Hfuel. destruct (wire_fields m Hm) as [Hconv Hwl]. destruct (host_fields m Hm) as (_ & _ & Hsz & _).
  unfold mdv_read_msg. rewrite Hav, Nat2Z.id. unfold sizeof_msghdr. destruct (Nat.ltb_spec k 8) as [Hk8|Hk8].
  - rewrite decide_True in Hp by done. assert (Ha' : arriving i = drop k (wire_hdr m) ++ (ms_payload m ++ rest)).
    { rewrite Ha. unfold wire. rewrite drop_app_le by lia. by rewrite <- app_assoc. }
    destruct (read_loop_ok fuel i (wire_hdr m) (m_hdr msg) k _ Hc Hp Ha' Hfuel) as (i1 & h1 & have & err & E & Hc1 & Hf1 & Ha1 & Hh1 & Hco1 & Hcase).
    rewrite Hwl in E. rewrite E. cbn [mbind outcome_bind]. destruct Hcase as [(-> & ->)|(-> & Hlt & Hco')].
    2: { cbn [Z.eqb code Pos.eqb negb]. eexists _, _, _. split; [done|]. split; [done|]. split; [done|]. right. split; [done|]. split; [done|]. exists have.
         split; [|rewrite Ha1; unfold wire; rewrite drop_app_le by lia; by rewrite app_assoc].
         split; [done|]. split; [unfold wire; rewrite length_app; lia|]. by rewrite decide_True by lia. }
    cbn [Z.eqb code Pos.eqb negb]. apply filled_all in Hf1 as ->. rewrite Hconv, Hsz, Hwl. rewrite drop_ge in Ha1 by done. cbn [app] in Ha1.
    pose proof (proj2 (proj2 Hm)) as Hmax. unfold ms_size in *. destruct (Z.ltb_spec MDV_MSG_SIZE_MAX (Z.of_nat (length (ms_payload m)))); [lia|].
    destruct (Z.eqb_spec (Z.of_nat (length (ms_payload m))) 0) as [E0|E0].
    + unfold read_payload. rewrite Hsz, E0. cbn [Z.to_nat Nat.eqb]. eexists _, _, _. split; [done|]. split; [done|]. split; [done|]. left. split; [done|].
      assert (ms_payload m = []) as Ep by (apply length_zero_iff_nil; lia). unfold full_msg, msg_of. rewrite Ep in *. by split.
    + cbn [negb]. rewrite Nat2Z.id. destruct (read_payload_ok m fuel i1 (fresh (length (ms_payload m))) 8 rest) as (i' & msg' & err & -> & Hpr); try done || lia.
      * split; [apply Hfresh|]. split; [lia|]. by rewrite !take_0.
      * intros Ep. by rewrite Ep in E0.
      * exists i', msg', err. split; [done|]. destruct Hpr as (Hc' & Hco & Hcase). split; [done|]. split; [lia|].
        destruct Hcase as [?|(? & ? & ?)]; [by left|right; split_and!; [done|lia|done]].
  - rewrite decide_False in Hp by lia. destruct Hp as (-> & b & -> & Hf).
    apply read_payload_ok; try done.
    + intros Ep. unfold wire in Hk. rewrite Ep, app_nil_r in Hk. lia.
    + rewrite Ha. unfold wire. rewrite drop_app_ge by lia. by rewrite Hwl.
Qed.

(** ** A sequence of messages *)

Lemma partial_start m : message_ok m -> partial m 0 no_msg.
Proof.
  intros Hm. destruct (wire_fields m Hm) as [_ Hwl]. split; [done|]. split; [unfold wire; rewrite length_app; lia|]. rewrite decide_True by lia.
  split; [by rewrite Hwl|]. split; [lia|]. by rewrite !take_0.
Qed.

(** Nothing arrives any more. *)
Lemma read_msg_idle fresh fuel i :
  calm i -> arriving i = [] ->
  exists i', mdv_read_msg true fresh (S fuel) i no_msg = Done (i', no_msg, code MDV_EAGAIN) /\ calm i' /\ arriving i' = [] /\ (i' = [] \/ cost i' < cost i).
Proof.
  intros Hc Ha. pose proof (sys_read_calm i 8 Hc ltac:(lia)) as Hs. destruct (sys_read i 8) as [i' [bs|e]] eqn:E.
  - destruct Hs as (Hne & _ & Hd & _). rewrite Ha in Hd. by destruct bs.
  - destruct Hs as (-> & Hc' & Hd & Hcost). exists i'.
    assert (Er : mdv_read i 8 = (i', code MDV_EAGAIN, [], 8)) by (unfold mdv_read; cbn [Nat.eqb]; by rewrite E).
    split_and!; [|done|by rewrite Hd|].
    + unfold mdv_read_msg. change (Z.to_nat (m_available_size no_msg)) with 0. cbn [Nat.ltb Nat.leb sizeof_msghdr read_loop Nat.sub negb]. by rewrite Er.
    + destruct Hcost as [-> |?]; [|by right]. cbn in E. injection E as <-. by left.
Qed.

Definition reading (ms : list message) (i : list rd) (msg : mdv_msg) : Prop :=
  match ms with
  | [] => msg = no_msg /\ arriving i = []
  | m :: ms => exists k, partial m k msg /\ arriving i = drop k (wire m) ++ concat (wire <$> ms)
  end.

Lemma reading_start ms i : Forall message_ok ms -> arriving i = concat (wire <$> ms) -> reading ms i no_msg.
Proof.
  intros Hok Ha. destruct ms as [|m ms]; [by split|]. apply Forall_cons in Hok as [Hm _]. exists 0. split; [by apply partial_start|]. by rewrite drop_0.
Qed.

Lemma receive_ok fresh fuel : (forall n, length (fresh n) = n) -> forall ms i msg got,
  Forall message_ok ms -> calm i -> reading ms i msg -> cost i + length ms < fuel ->
  receive fuel fresh i msg got = Done (got ++ (full_msg <$> ms), no_msg, code MDV_EAGAIN).
Proof.
  intros Hfresh. induction fuel as [|fuel IH]; intros ms i msg got Hok Hc Hr Hf; [lia|]. cbn [receive]. destruct ms as [|m ms].
  - destruct Hr as [-> Ha]. destruct (read_msg_idle fresh fuel i Hc Ha) as (i' & -> & Hc' & Ha' & Hcost). cbn [mbind outcome_bind Z.eqb code Pos.eqb andb].
    destruct i' as [|e i']; cbn [length Nat.eqb negb]; [by rewrite app_nil_r|]. destruct Hcost as [?|Hcost]; [done|]. apply IH; try done. cbn [length] in *. lia.
  - apply Forall_cons in Hok as [Hm Hok]. destruct Hr as (k & Hp & Ha).
    destruct (read_msg_ok m fresh (S fuel) i msg k (concat (wire <$> ms)) Hm Hfresh Hc Hp Ha ltac:(lia)) as (i' & msg' & err & -> & Hc' & Hcost & Hcase).
    cbn [mbind outcome_bind]. destruct Hcase as [(-> & -> & Ha')|(-> & Hlt & k' & Hp' & Ha')]; cbn [Z.eqb code Pos.eqb andb].
    + rewrite (IH ms); try done; [by rewrite <- app_assoc|by apply reading_start|cbn [length] in *; lia].
    + assert (Hi : i' <> []).
      { intros ->. change (arriving []) with (@nil Z) in Ha'. symmetry in Ha'. apply app_nil in Ha' as [Ha' _]. apply (f_equal length) in Ha'. rewrite length_drop in Ha'.
        destruct Hp' as (_ & Hk' & _). cbn [length] in Ha'. lia. }
      destruct i' as [|e i']; [done|]. cbn [length Nat.eqb negb]. apply IH; [by apply Forall_cons|done|by exists k'|cbn [length] in *; lia].
Qed.

(** ** Writing in pieces *)

(** The other side takes what is written, in parts and after interruptions. *)
Definition willing (a : list wr) : Prop := Forall (fun e => match e with Wr_accept _ => True | Wr_error e => e = EAGAIN end) a.

Lemma write_all_ok fuel : forall o data,
  willing (sk_answers o) -> length (sk_answers o) + 1 < fuel ->
  exists a', mdv_write_all fuel o data = Done (mk_sink a' (sk_sent o ++ data), code MDV_OK) /\ willing a' /\ length a' <= length (sk_answers o).
Proof.
  induction fuel as [|fuel IH]; intros [a sent] data Hw Hf; [lia|]. cbn [sk_answers sk_sent] in *. destruct data as [|b data].
  { exists a. by rewrite app_nil_r. }
  cbn [mdv_write_all mdv_write sk_answers sk_sent]. destruct a as [|[n|e] a].
  - cbn [Z.eqb code Pos.eqb]. rewrite drop_ge by lia. destruct fuel as [|fuel]; [cbn in Hf; lia|]. by exists [].
  - apply Forall_cons in Hw as [_ Hw]. cbn [Z.eqb code Pos.eqb].
    destruct (IH (mk_sink a (sent ++ take n (b :: data))) (drop (Nat.min n (length (b :: data))) (b :: data)) Hw ltac:(cbn in *; lia)) as (a' & -> & Hw' & Hl).
    exists a'. cbn [sk_sent sk_answers] in *. split_and!; [|done|cbn; lia]. do 3 f_equal. rewrite <- app_assoc. f_equal.
    destruct (decide (n <= length (b :: data))); [by rewrite Nat.min_l, take_drop by lia|].
    rewrite Nat.min_r, take_ge, drop_ge by lia. by rewrite app_nil_r.
  - apply Forall_cons in Hw as [-> Hw]. cbn [mdv_error Z.eqb EAGAIN ENOENT Pos.eqb code].
    destruct (IH (mk_sink a sent) (b :: data) Hw ltac:(cbn in *; lia)) as (a' & -> & Hw' & Hl). exists a'. split_and!; [done..|]. cbn in *. lia.
Qed.

Lemma write_msg_ok fuel o m available :
  message_ok m -> willing (sk_answers o) -> length (sk_answers o) + 1 < fuel ->
  exists a', mdv_write_msg fuel o (msg_of m available) = Done (mk_sink a' (sk_sent o ++ wire m), code MDV_OK) /\ willing a' /\ length a' <= length (sk_answers o).
Proof.
  intros Hm Hw Hf. destruct (host_fields m Hm) as (E1 & E2 & E3 & _). unfold mdv_write_msg. cbn [m_hdr msg_of m_payload]. rewrite E1, E2, E3.
  pose proof (proj2 (proj2 Hm)) as Hmax. unfold ms_size in *. destruct (Z.ltb_spec MDV_MSG_SIZE_MAX (Z.of_nat (length (ms_payload m)))); [lia|].
  destruct (write_all_ok fuel o (wire_hdr m) Hw Hf) as (a1 & Ew & Hw1 & Hl1). unfold wire_hdr, ms_size in Ew. rewrite Ew. clear Ew.
  cbn [mbind outcome_bind Z.eqb code Pos.eqb negb]. rewrite Nat2Z.id. fold (ms_size m). fold (wire_hdr m).
  destruct (write_all_ok fuel (mk_sink a1 (sk_sent o ++ wire_hdr m)) (ms_payload m) Hw1 ltac:(cbn; lia)) as (a2 & Ew & Hw2 & Hl2).
  unfold wire. rewrite app_assoc. destruct (ms_payload m) as [|b p] eqn:Ep; cbn [sk_sent sk_answers] in *.
  - cbn [length Nat.eqb]. exists a1. by rewrite app_nil_r.
  - destruct (Nat.ltb_spec (length (b :: p)) (length (b :: p))); [lia|]. rewrite take_ge by lia. exists a2. split_and!; [done..|lia].
Qed.

Lemma send_all_ok fuel ms : forall o,
  Forall message_ok ms -> willing (sk_answers o) -> length (sk_answers o) + 1 < fuel ->
  exists a', send_all fuel o ((fun m => msg_of m 0) <$> ms) = Done (mk_sink a' (sk_sent o ++ concat (wire <$> ms)), code MDV_OK).
Proof.
  induction ms as [|m ms IH]; intros o Hok Hw Hf; [exists (sk_answers o); cbn; rewrite app_nil_r; by destruct o|].
  apply Forall_cons in Hok as [Hm Hok]. cbn [fmap list_fmap send_all]. destruct (write_msg_ok fuel o m 0 Hm Hw Hf) as (a1 & -> & Hw1 & Hl1).
  cbn [mbind outcome_bind Z.eqb code Pos.eqb negb]. destruct (IH (mk_sink a1 (sk_sent o ++ wire m)) Hok Hw1 ltac:(cbn; lia)) as (a2 & ->).
  exists a2. cbn [sk_sent concat]. by rewrite <- app_assoc.
Qed.

(** ** Theorems *)

(** messages that are written to a connection are read on the other side, the
    same ones and in the same order, with their identifiers, numbers and
    payloads, however the writes are cut and interrupted and however the bytes
    arrive. *)
Theorem mdv_msg_roundtrip ms answers i fresh fuel :
  Forall message_ok ms -> willing answers -> calm i -> (forall n, length (fresh n) = n) ->
  length answers + 1 < fuel -> cost i + length ms < fuel ->
  exists o, send_all fuel (mk_sink answers []) ((fun m => msg_of m 0) <$> ms) = Done (o, code MDV_OK)
    /\ (arriving i = sk_sent o -> receive fuel fresh i no_msg [] = Done (full_msg <$> ms, no_msg, code MDV_EAGAIN)).
Proof.
  intros Hok Hw Hc Hfr Hf1 Hf2. destruct (send_all_ok fuel ms (mk_sink answers []) Hok Hw Hf1) as (a & ->). eexists. split; [done|].
  cbn [sk_sent app]. intros Ha. rewrite (receive_ok fresh fuel Hfr ms); try done. by apply reading_start.
Qed.

(** Two messages, written in parts and read byte by byte with interruptions. *)
Lemma mdv_msg_roundtrip_witness :
  let ms := [mk_message 3 0x1234 [7; 8; 9]; mk_message 1000 1 []]%Z in
  let i := [Rd_data [0; 3; 0x12]; Rd_error EAGAIN; Rd_data [0x34; 0; 0; 0]; Rd_data [3; 7]; Rd_error EAGAIN; Rd_data [8; 9; 3; 0xE8; 0; 1; 0; 0; 0; 0]]%Z in
  receive 40 (fun n => replicate n 0%Z) i no_msg [] = Done (full_msg <$> ms, no_msg, code MDV_EAGAIN).
Proof.
  intros ms i.
  destruct (mdv_msg_roundtrip ms [Wr_accept 3; Wr_error EAGAIN; Wr_accept 0; Wr_accept 6] i (fun n => replicate n 0%Z) 40) as (o & Hs & Hr).
  - repeat apply Forall_cons_2; [..|apply Forall_nil_2]; (split; [|split]; vm_compute; try split; congruence).
  - repeat constructor.
  - repeat constructor; discriminate.
  - intros n. apply length_replicate.
  - cbn. lia.
  - cbn. lia.
  - apply Hr. vm_compute in Hs. injection Hs as <-. reflexivity.
Defined.

(** An error that the enumeration does not know is returned as the system gave
    it; the first of them is taken for success, and nothing is sent. *)
Example eperm_is_ok : mdv_write_all 5 (mk_sink [Wr_error EPERM] []) [1; 2; 3]%Z = Done (mk_sink [] [], code MDV_OK).
Proof. reflexivity. Qed.

End Msg.
