(* ===== verification/Dispatcher.v ===== *)
(** * Dispatcher of messages (src/mdv_net/mdv_dispatcher.c)

    Threads send requests over one connection and wait; the thread that reads
    the connection hands a message to the request with its number, or to the
    handler of its kind.  The parts of the functions between two points where
    another thread can run (the sections under a mutex, the parts of the
    waiting loop) are functions on the state of the dispatcher; [step] runs one of them,
    and an execution is any sequence of steps. *)

From S2P Require Import Prelude.
From S2P Require Import Rollbacker Msg.
Import Rollbacker Msg.

Module Dispatcher.

(** ** The state *)

Definition MDV_DISP_REQS : nat := 4.
Definition MDV_INVALID_DESCRIPTOR : Z := -1.

(** [rq_cv]: the index of the condition variable; [rq_resp]: the buffer of the
    thread that waits. *)
Record mdv_request := mk_request { rq_cv : nat; rq_resp : nat; rq_request_id : Z; rq_ready : bool }.

(** [d_cvs]: the stack of unused condition variables, its top first; a handler
    is the address of its function and argument. *)
Record mdv_dispatcher := mk_dispatcher {
  d_fd : Z;
  d_message : mdv_msg;
  d_handlers : gmap Z nat;
  d_requests : gmap Z mdv_request;
  d_cvs : list nat;
  d_id : Z
}.

Definition set_requests (d : mdv_dispatcher) (r : gmap Z mdv_request) (cvs : list nat) : mdv_dispatcher :=
  mk_dispatcher (d_fd d) (d_message d) (d_handlers d) r cvs (d_id d).

(** [mdv_stack_push], which does nothing when the stack is full. *)
Definition push_cv (cvs : list nat) (cv : nat) : list nat := if length cvs <? MDV_DISP_REQS then cv :: cvs else cvs.

(** The functions that a failed creation calls. *)
Inductive dp_release_fn := Fn_dp_rollbacker_free | Fn_dp_free | Fn_dp_mutex_free | Fn_dp_hashmap_release | Fn_dp_condvar_free.
Inductive dp_resource := Res_dp_rollbacker | Res_dispatcher | Res_fd_mutex | Res_requests_mutex | Res_handlers | Res_requests | Res_condvar (i : nat).

Definition dp_push (r : option (mdv_rollbacker dp_release_fn dp_resource)) (f : dp_release_fn) (x : dp_resource) :=
  snd (mdv_rollbacker_push r (mk_op f [x])).

(** The condition variables are made in turn; the ones made before a failure
    are freed. *)
Fixpoint create_condvars (mem_cv : nat -> bool) (n i : nat) (cvs : list nat) : list nat + list (dp_release_fn * list dp_resource) :=
  match n with
  | 0 => inl cvs
  | S n =>
      if mem_cv i then create_condvars mem_cv n (S i) (push_cv cvs i)
      else inr ((fun j => (Fn_dp_condvar_free, [Res_condvar j])) <$> seq 0 i)
  end.

Definition mdv_dispatcher_create (mem_rbr mem mutex1 mutex2 mem_handlers mem_requests : bool) (mem_cv : nat -> bool) (fd : Z)
  : option mdv_dispatcher * list (dp_release_fn * list dp_resource) :=
  let rbr := mdv_rollbacker_create mem_rbr Fn_dp_rollbacker_free Res_dp_rollbacker 5 in
  if negb mem then (None, mdv_rollback rbr) else
  let rbr := dp_push rbr Fn_dp_free Res_dispatcher in
  if negb mutex1 then (None, mdv_rollback rbr) else
  let rbr := dp_push rbr Fn_dp_mutex_free Res_fd_mutex in
  if negb mutex2 then (None, mdv_rollback rbr) else
  let rbr := dp_push rbr Fn_dp_mutex_free Res_requests_mutex in
  if negb mem_handlers then (None, mdv_rollback rbr) else
  let rbr := dp_push rbr Fn_dp_hashmap_release Res_handlers in
  if negb mem_requests then (None, mdv_rollback rbr) else
  let rbr := dp_push rbr Fn_dp_hashmap_release Res_requests in
  match create_condvars mem_cv MDV_DISP_REQS 0 [] with
  | inr calls => (None, calls ++ mdv_rollback rbr)
  | inl cvs => (Some (mk_dispatcher fd no_msg ∅ ∅ cvs 0), [])
  end.

Definition mdv_dispatcher_free (d : option mdv_dispatcher) : list (dp_release_fn * list dp_resource) :=
  match d with
  | None => []
  | Some _ =>
      ((fun j => (Fn_dp_condvar_free, [Res_condvar j])) <$> seq 0 MDV_DISP_REQS)
      ++ [(Fn_dp_hashmap_release, [Res_handlers]); (Fn_dp_hashmap_release, [Res_requests]);
          (Fn_dp_mutex_free, [Res_fd_mutex]); (Fn_dp_mutex_free, [Res_requests_mutex]); (Fn_dp_free, [Res_dispatcher])]
  end.

(** [mem]: the entry of the map is allocated. *)
Definition mdv_dispatcher_reg (mem : bool) (d : mdv_dispatcher) (id : Z) (handler : nat) : mdv_dispatcher * mdv_errno :=
  if mem then (mk_dispatcher (d_fd d) (d_message d) (<[id := handler]> (d_handlers d)) (d_requests d) (d_cvs d) (d_id d), MDV_OK)
  else (d, MDV_NO_MEM).

Definition mdv_dispatcher_set_fd (d : mdv_dispatcher) (fd : Z) : mdv_dispatcher :=
  mk_dispatcher fd (d_message d) (d_handlers d) (d_requests d) (d_cvs d) (d_id d).

Definition mdv_dispatcher_fd (d : mdv_dispatcher) : Z := d_fd d.

(** ** Sending a request *)

(** [atomic_fetch_add_explicit(&pd->id, 1, ...)] *)
Definition take_number (d : mdv_dispatcher) : mdv_dispatcher * Z :=
  (mk_dispatcher (d_fd d) (d_message d) (d_handlers d) (d_requests d) (d_cvs d) (u16 (d_id d + 1)), d_id d).

(** The section that registers the request: the entry, identified by its
    number, and the error.  [lock]: the mutex was locked; [mem]: the entry was
    allocated.  The top of an empty stack is a null pointer that is read. *)
Definition register_request (lock mem : bool) (d : mdv_dispatcher) (number : Z) (resp : nat) : outcome (mdv_dispatcher * option Z * Z) :=
  if negb lock then Done (d, None, code MDV_OK) else
  match d_cvs d with
  | [] => OutOfBounds (-1)
  | cv :: cvs =>
      if mem then Done (set_requests d (<[number := mk_request cv resp number false]> (d_requests d)) cvs, Some number, code MDV_OK)
      else Done (set_requests d (delete number (d_requests d)) (push_cv cvs cv), None, code MDV_NO_MEM)
  end.

(** [entry->...]: the entry must be in the map. *)
Definition entry_at (d : mdv_dispatcher) (entry : option Z) : outcome mdv_request :=
  k ← deref entry; deref (d_requests d !! k).

(** The condition variable goes back, the entry is erased. *)
Definition erase_request (d : mdv_dispatcher) (entry : option Z) : outcome mdv_dispatcher :=
  r ← entry_at d entry;
  Done (set_requests d (delete (rq_request_id r) (d_requests d)) (push_cv (d_cvs d) (rq_cv r))).

(** The section after a failed write. *)
Definition cancel_request (lock : bool) (d : mdv_dispatcher) (entry : option Z) : outcome mdv_dispatcher :=
  if lock then erase_request d entry else Done d.

(** The condition of the loop [while(!entry->ready)]. *)
Definition must_wait (d : mdv_dispatcher) (entry : option Z) : outcome bool :=
  r ← entry_at d entry; Done (negb (rq_ready r)).

(** After [mdv_condvar_timedwait], which returned [waited]: is the loop left,
    and with which error? *)
Definition wake_up (d : mdv_dispatcher) (waited : Z) : bool * Z :=
  if (d_fd d =? MDV_INVALID_DESCRIPTOR)%Z then (true, code MDV_CLOSED)
  else if (waited =? MDV_ETIMEDOUT)%Z then (true, waited)
  else (false, waited).

(** The section after the loop.  The response is in the buffer already. *)
Definition finish_request (lock : bool) (d : mdv_dispatcher) (entry : option Z) (err : Z) : outcome (mdv_dispatcher * Z) :=
  if negb lock then Done (d, err) else
  r ← entry_at d entry;
  let err := if rq_ready r && (err =? MDV_OK)%Z then err else if (err =? MDV_OK)%Z then code MDV_ETIMEDOUT else err in
  d ← erase_request d entry;
  Done (d, err).

(** ** Reading *)

(** The section that looks for the request with the number of the message: the
    buffers, and whether the message was handed over.  [signal]: the condition
    variable was signalled. *)
Definition deliver (lock signal : bool) (d : mdv_dispatcher) (resps : gmap nat mdv_msg) (msg : mdv_msg)
  : outcome (mdv_dispatcher * gmap nat mdv_msg * bool) :=
  if negb lock then Done (d, resps, false) else
  match d_requests d !! hdr_number (m_hdr msg) with
  | None => Done (d, resps, false)
  | Some r =>
      let resps := <[rq_resp r := msg]> resps in
      let d := set_requests d (<[hdr_number (m_hdr msg) := mk_request (rq_cv r) (rq_resp r) (rq_request_id r) true]> (d_requests d)) (d_cvs d) in
      if signal then Done (d, resps, true)
      else
        d ← erase_request d (Some (hdr_number (m_hdr msg)));
        Done (d, <[rq_resp r := mdv_free_msg msg]> resps, true)
  end.

(** A message is complete in [d_message].  [handle h msg]: the result of the
    handler.  The last result is the handler that was called. *)
Definition dispatch (lock signal : bool) (handle : nat -> mdv_msg -> Z) (d : mdv_dispatcher) (resps : gmap nat mdv_msg)
  : outcome (mdv_dispatcher * gmap nat mdv_msg * Z * option nat) :=
  let msg := d_message d in
  r ← deliver lock signal d resps msg;
  let '(d, resps, handled) := r in
  let d := mk_dispatcher (d_fd d) no_msg (d_handlers d) (d_requests d) (d_cvs d) (d_id d) in
  if (handled : bool) then Done (d, resps, code MDV_OK, None)
  else match d_handlers d !! hdr_id (m_hdr msg) with
       | Some h => Done (d, resps, handle h msg, Some h)
       | None => Done (d, resps, code MDV_NO_IMPL, None)
       end.

Definition mdv_dispatcher_read (mem : bool) (fresh : nat -> bytes) (fuel : nat) (i : list rd) (lock signal : bool) (handle : nat -> mdv_msg -> Z)
    (d : mdv_dispatcher) (resps : gmap nat mdv_msg) : outcome (list rd * mdv_dispatcher * gmap nat mdv_msg * Z * option nat) :=
  r ← mdv_read_msg mem fresh fuel i (d_message d);
  let '(i, msg, err) := r in
  let d := mk_dispatcher (d_fd d) msg (d_handlers d) (d_requests d) (d_cvs d) (d_id d) in
  if negb (err =? MDV_OK)%Z then Done (i, d, resps, err, None) else
  r ← dispatch lock signal handle d resps;
  let '(d, resps, err, h) := r in
  Done (i, d, resps, err, h).

(** ** Messages without a response *)

Definition set_number (msg : mdv_msg) (number : Z) : mdv_msg :=
  mk_msg (mdv_msghdr (hdr_id (m_hdr msg)) number (hdr_size (m_hdr msg))) (m_available_size msg) (m_payload msg).

Definition mdv_dispatcher_reply (fuel : nat) (lock : bool) (o : sink) (msg : mdv_msg) : outcome (sink * Z) :=
  if lock then mdv_write_msg fuel o msg else Done (o, code MDV_FAILED).

Definition mdv_dispatcher_post (fuel : nat) (lock : bool) (d : mdv_dispatcher) (o : sink) (msg : mdv_msg) : outcome (mdv_dispatcher * sink * Z) :=
  let '(d, number) := take_number d in
  r ← mdv_dispatcher_reply fuel lock o (set_number msg number);
  Done (d, r.1, r.2).

Definition mdv_dispatcher_write_raw (fuel : nat) (lock : bool) (o : sink) (data : bytes) : outcome (sink * Z) :=
  if lock then mdv_write_all fuel o data else Done (o, code MDV_FAILED).

(** ** Executions *)

(** Where a thread is in [mdv_dispatcher_send]. *)
Inductive phase :=
| Ph_numbered (number : Z)
| Ph_registered (number : Z) (entry : option Z)
| Ph_write_failed (number : Z) (entry : option Z) (err : Z)
| Ph_waiting (number : Z) (entry : option Z) (err : Z)
| Ph_sleeping (number : Z) (entry : option Z)
| Ph_waited (number : Z) (entry : option Z) (err : Z)
| Ph_returned (number : Z) (err : Z).

(** [y_received]: the messages that were read; [y_calls]: those that handlers
    were called with. *)
Record system := mk_system {
  y_disp : mdv_dispatcher;
  y_resps : gmap nat mdv_msg;
  y_threads : gmap nat phase;
  y_received : list mdv_msg;
  y_calls : list (nat * mdv_msg)
}.

(** The thread [t] goes on, with the answers of the calls it makes; a message
    was read; the connection is closed or opened again. *)
Inductive event :=
| Ev_call (t : nat)
| Ev_register (t : nat) (lock mem : bool)
| Ev_write (t : nat) (lock : bool) (err : Z)
| Ev_cancel (t : nat) (lock : bool)
| Ev_wait (t : nat)
| Ev_wake (t : nat) (waited : Z)
| Ev_finish (t : nat) (lock : bool)
| Ev_read (lock signal : bool) (msg : mdv_msg)
| Ev_fd (fd : Z).

Definition goto (y : system) (d : mdv_dispatcher) (t : nat) (p : phase) : system :=
  mk_system d (y_resps y) (<[t := p]> (y_threads y)) (y_received y) (y_calls y).

(** [None]: the event cannot happen. *)
Definition step (y : system) (e : event) : option (outcome system) :=
  let d := y_disp y in
  match e with
  | Ev_call t =>
      match y_threads y !! t with
      | None => let '(d, number) := take_number d in Some (Done (goto y d t (Ph_numbered number)))
      | Some _ => None
      end
  | Ev_register t lock mem =>
      match y_threads y !! t with
      | Some (Ph_numbered number) =>
          Some (r ← register_request lock mem d number t;
                let '(d, entry, err) := r in
                Done (goto y d t (if (err =? MDV_OK)%Z then Ph_registered number entry else Ph_returned number err)))
      | _ => None
      end
  | Ev_write t lock err =>
      match y_threads y !! t with
      | Some (Ph_registered number entry) =>
          let err := if lock then err else code MDV_OK in
          Some (Done (goto y d t (if (err =? MDV_OK)%Z then Ph_waiting number entry err else Ph_write_failed number entry err)))
      | _ => None
      end
  | Ev_cancel t lock =>
      match y_threads y !! t with
      | Some (Ph_write_failed number entry err) => Some (d ← cancel_request lock d entry; Done (goto y d t (Ph_returned number err)))
      | _ => None
      end
  | Ev_wait t =>
      match y_threads y !! t with
      | Some (Ph_waiting number entry err) =>
          Some (wait ← must_wait d entry;
                Done (goto y d t (if (wait : bool) then Ph_sleeping number entry else Ph_waited number entry err)))
      | _ => None
      end
  | Ev_wake t waited =>
      match y_threads y !! t with
      | Some (Ph_sleeping number entry) =>
          let '(out, err) := wake_up d waited in
          Some (Done (goto y d t (if out then Ph_waited number entry err else Ph_waiting number entry err)))
      | _ => None
      end
  | Ev_finish t lock =>
      match y_threads y !! t with
      | Some (Ph_waited number entry err) =>
          Some (r ← finish_request lock d entry err;
                Done (goto y r.1 t (Ph_returned number r.2)))
      | _ => None
      end
  | Ev_read lock signal msg =>
      Some (r ← dispatch lock signal (fun _ _ => code MDV_OK) (mk_dispatcher (d_fd d) msg (d_handlers d) (d_requests d) (d_cvs d) (d_id d)) (y_resps y);
            let '(d, resps, _, h) := r in
            Done (mk_system d resps (y_threads y) (y_received y ++ [msg]) (y_calls y ++ match h with Some h => [(h, msg)] | None => [] end)))
  | Ev_fd fd => Some (Done (mk_system (mdv_dispatcher_set_fd d fd) (y_resps y) (y_threads y) (y_received y) (y_calls y)))
  end.

(** Executions from a new dispatcher, in which no mutex and no condition
    variable fails and no request is pending when its number comes round again
    after 65536 messages. *)
Definition sound (y : system) (e : event) : Prop :=
  match e with
  | Ev_register t lock _ =>
      lock = true /\ match y_threads y !! t with Some (Ph_numbered number) => d_requests (y_disp y) !! number = None | _ => True end
  | Ev_write _ lock _ | Ev_cancel _ lock | Ev_finish _ lock => lock = true
  | Ev_read lock signal _ => lock = true /\ signal = true
  | Ev_call _ | Ev_wait _ | Ev_wake _ _ | Ev_fd _ => True
  end.

Definition start (d : mdv_dispatcher) : system := mk_system d ∅ ∅ [] [].

Inductive reachable (d : mdv_dispatcher) : system -> Prop :=
| reach_start : reachable d (start d)
| reach_step y e y' : reachable d y -> sound y e -> step y e = Some (Done y') -> reachable d y'.

(** ** The invariant *)

(** The number of the request of a thread that is registered. *)
Definition pending (p : phase) : option Z :=
  match p with
  | Ph_registered k e | Ph_write_failed k e _ | Ph_waiting k e _ | Ph_sleeping k e | Ph_waited k e _ => e
  | Ph_numbered _ | Ph_returned _ _ => None
  end.

(** A registered thread knows its entry. *)
Definition phase_ok (p : phase) : Prop :=
  match p with
  | Ph_registered k e | Ph_waiting k e _ | Ph_sleeping k e | Ph_waited k e _ => e = Some k
  | Ph_write_failed k e err => e = Some k /\ err <> code MDV_OK
  | Ph_numbered _ | Ph_returned _ _ => True
  end.

(** A message with the number [k] was read and is in the buffer of [t]. *)
Definition answered (y : system) (t : nat) (k : Z) : Prop :=
  exists msg, y_resps y !! t = Some msg /\ hdr_number (m_hdr msg) = k /\ msg ∈ y_received y.

Definition cvs_of (r : gmap Z mdv_request) : list nat := rq_cv <$> (map_to_list r).*2.

Record inv (y : system) : Prop := {
  i_cvs : d_cvs (y_disp y) ++ cvs_of (d_requests (y_disp y)) ≡ₚ seq 0 MDV_DISP_REQS;
  i_phase t p : y_threads y !! t = Some p -> phase_ok p;
  i_thread t p k : y_threads y !! t = Some p -> pending p = Some k -> exists r, d_requests (y_disp y) !! k = Some r /\ rq_resp r = t;
  i_request k r : d_requests (y_disp y) !! k = Some r ->
    rq_request_id r = k /\ (exists p, y_threads y !! rq_resp r = Some p /\ pending p = Some k) /\ (rq_ready r = true -> answered y (rq_resp r) k);
  i_returned t k : y_threads y !! t = Some (Ph_returned k MDV_OK) -> answered y t k
}.

Lemma cvs_insert r k x : r !! k = None -> cvs_of (<[k := x]> r) ≡ₚ rq_cv x :: cvs_of r.
Proof. intros Hn. unfold cvs_of. by rewrite (map_to_list_insert r k x Hn). Qed.

Lemma cvs_delete r k x : r !! k = Some x -> cvs_of r ≡ₚ rq_cv x :: cvs_of (delete k r).
Proof. intros Hk. unfold cvs_of. by rewrite <- (map_to_list_delete r k x Hk). Qed.

(** Replacing an entry by one with the same condition variable. *)
Lemma cvs_update r k x x' : r !! k = Some x -> rq_cv x' = rq_cv x -> cvs_of (<[k := x']> r) ≡ₚ cvs_of r.
Proof.
  intros Hk Hc. rewrite (cvs_delete r k x Hk), <- insert_delete_eq, cvs_insert by (by rewrite lookup_delete_eq). by rewrite Hc.
Qed.

Lemma push_cv_ok cvs cv rest : cvs ++ cv :: rest ≡ₚ seq 0 MDV_DISP_REQS -> push_cv cvs cv ++ rest ≡ₚ seq 0 MDV_DISP_REQS.
Proof.
  intros Hp. unfold push_cv. pose proof (Permutation_length Hp) as Hl. rewrite length_app, length_seq in Hl. cbn [length] in Hl.
  destruct (Nat.ltb_spec (length cvs) MDV_DISP_REQS); [|lia]. rewrite <- Hp. cbn [app]. by rewrite Permutation_middle.
Qed.

(** A thread moves on with its request, if it has one. *)
Lemma inv_goto y d t p' :
  inv y -> d_requests d = d_requests (y_disp y) -> d_cvs d = d_cvs (y_disp y) -> phase_ok p' ->
  pending p' = (y_threads y !! t) ≫= pending -> (forall k, p' <> Ph_returned k MDV_OK) -> inv (goto y d t p').
Proof.
  intros I Hr Hc Hok Hp Hret. split; cbn [goto y_disp y_threads y_resps y_received]; rewrite ?Hr, ?Hc.
  - apply I.
  - intros t' p. destruct (decide (t' = t)) as [->|Hne]; [rewrite lookup_insert_eq; by intros [= <-]|rewrite lookup_insert_ne by done; apply I].
  - intros t' p k. destruct (decide (t' = t)) as [->|Hne]; [|rewrite lookup_insert_ne by done; apply (i_thread y I)].
    rewrite lookup_insert_eq. intros [= <-] Hk. rewrite Hp in Hk. destruct (y_threads y !! t) as [p|] eqn:Et; [|done]. by apply (i_thread y I t p).
  - intros k r Hk. destruct (i_request y I k r Hk) as (Hid & (p & Ht & Hpk) & Ha). split_and!; [done| |exact Ha].
    destruct (decide (rq_resp r = t)) as [E|Hne]; [|exists p; by rewrite lookup_insert_ne]. exists p'. rewrite E, lookup_insert_eq. split; [done|].
    rewrite Hp. rewrite E in Ht. by rewrite Ht.
  - intros t' k. destruct (decide (t' = t)) as [->|Hne]; [|rewrite lookup_insert_ne by done; apply (i_returned y I)].
    rewrite lookup_insert_eq. intros [= E]. by destruct (Hret k).
Qed.

Lemma erase_ok y t p k : inv y -> y_threads y !! t = Some p -> pending p = Some k ->
  exists r, d_requests (y_disp y) !! k = Some r /\ rq_resp r = t
    /\ erase_request (y_disp y) (Some k) = Done (set_requests (y_disp y) (delete k (d_requests (y_disp y))) (push_cv (d_cvs (y_disp y)) (rq_cv r))).
Proof.
  intros I Ht Hp. destruct (i_thread y I t p k Ht Hp) as (r & Hk & Hrt). exists r. split_and!; [done..|].
  unfold erase_request, entry_at. cbn [deref mbind outcome_bind]. rewrite Hk. cbn [deref mbind outcome_bind]. by rewrite (proj1 (i_request y I k r Hk)).
Qed.

(** A registered thread returns and gives up its entry. *)
Lemma inv_return y t p k r err :
  inv y -> y_threads y !! t = Some p -> pending p = Some k -> d_requests (y_disp y) !! k = Some r -> (err = code MDV_OK -> answered y t k) ->
  inv (goto y (set_requests (y_disp y) (delete k (d_requests (y_disp y))) (push_cv (d_cvs (y_disp y)) (rq_cv r))) t (Ph_returned k err)).
Proof.
  intros I Ht Hp Hk Ha. destruct (i_thread y I t p k Ht Hp) as (r' & Hk' & Hrt). rewrite Hk in Hk'. injection Hk' as <-.
  split; cbn [goto y_disp y_threads y_resps y_received set_requests d_requests d_cvs].
  - apply push_cv_ok. rewrite <- (cvs_delete _ _ _ Hk). apply I.
  - intros t' p'. destruct (decide (t' = t)) as [->|Hne]; [rewrite lookup_insert_eq; by intros [= <-]|rewrite lookup_insert_ne by done; apply I].
  - intros t' p' k'. destruct (decide (t' = t)) as [->|Hne]; [rewrite lookup_insert_eq; by intros [= <-]|]. rewrite lookup_insert_ne by done. intros Ht' Hp'.
    destruct (i_thread y I t' p' k' Ht' Hp') as (r' & Hk' & Hr'). exists r'. split; [|done]. rewrite lookup_delete_ne; [done|]. intros ->. congruence.
  - intros k' r' Hk'. apply lookup_delete_Some in Hk' as [Hne Hk']. destruct (i_request y I k' r' Hk') as (Hid & (p' & Ht' & Hpk) & Hans). split_and!; [done| |exact Hans].
    exists p'. rewrite lookup_insert_ne; [done|]. intros E. rewrite <- E in Ht'. rewrite Ht in Ht'. injection Ht' as <-. congruence.
  - intros t' k'. destruct (decide (t' = t)) as [->|Hne]; [|rewrite lookup_insert_ne by done; apply (i_returned y I)].
    rewrite lookup_insert_eq. intros [= <- ->]. by apply Ha.
Qed.

(** A thread registers its request. *)
Lemma inv_register y t k cv cvs :
  inv y -> y_threads y !! t = Some (Ph_numbered k) -> d_requests (y_disp y) !! k = None -> d_cvs (y_disp y) = cv :: cvs ->
  inv (goto y (set_requests (y_disp y) (<[k := mk_request cv t k false]> (d_requests (y_disp y))) cvs) t (Ph_registered k (Some k))).
Proof.
  intros I Ht Hk Hc. split; cbn [goto y_disp y_threads y_resps y_received set_requests d_requests d_cvs].
  - rewrite cvs_insert by done. cbn [rq_cv]. rewrite <- Permutation_middle. pose proof (i_cvs y I) as Hp. by rewrite Hc in Hp.
  - intros t' p'. destruct (decide (t' = t)) as [->|Hne]; [rewrite lookup_insert_eq; by intros [= <-]|rewrite lookup_insert_ne by done; apply I].
  - intros t' p' k'. destruct (decide (t' = t)) as [->|Hne].
    + rewrite lookup_insert_eq. intros [= <-] [= <-]. exists (mk_request cv t k false). by rewrite lookup_insert_eq.
    + rewrite lookup_insert_ne by done. intros Ht' Hp'. destruct (i_thread y I t' p' k' Ht' Hp') as (r' & Hk' & Hr'). exists r'. split; [|done].
      rewrite lookup_insert_ne; [done|]. intros ->. congruence.
  - intros k' r'. destruct (decide (k' = k)) as [->|Hne].
    + rewrite lookup_insert_eq. intros [= <-]. split; [done|]. split; [|done]. exists (Ph_registered k (Some k)). cbn [rq_resp]. by rewrite lookup_insert_eq.
    + rewrite lookup_insert_ne by done. intros Hk'. destruct (i_request y I k' r' Hk') as (Hid & (p' & Ht' & Hpk) & Hans). split_and!; [done| |exact Hans].
      exists p'. rewrite lookup_insert_ne; [done|]. intros E. rewrite <- E, Ht in Ht'. injection Ht' as <-. done.
  - intros t' k'. destruct (decide (t' = t)) as [->|Hne]; [rewrite lookup_insert_eq; by intros [=]|rewrite lookup_insert_ne by done; apply (i_returned y I)].
Qed.

(** A message is read. *)
Lemma answered_mono y y' t k :
  answered y t k -> y_resps y' !! t = y_resps y !! t -> (forall msg, msg ∈ y_received y -> msg ∈ y_received y') -> answered y' t k.
Proof. intros (msg & Hm & Hn & Hin) Hr Hl. exists msg. rewrite Hr. split_and!; auto. Qed.

Lemma inv_deliver y msg r d calls :
  inv y -> d_requests (y_disp y) !! hdr_number (m_hdr msg) = Some r ->
  d_requests d = <[hdr_number (m_hdr msg) := mk_request (rq_cv r) (rq_resp r) (rq_request_id r) true]> (d_requests (y_disp y)) -> d_cvs d = d_cvs (y_disp y) ->
  inv (mk_system d (<[rq_resp r := msg]> (y_resps y)) (y_threads y) (y_received y ++ [msg]) calls).
Proof.
  intros I Hk Hr Hc. set (k := hdr_number (m_hdr msg)) in *. destruct (i_request y I k r Hk) as (Hid & (p & Ht & Hp) & _).
  assert (Hother : forall t k', answered y t k' -> t <> rq_resp r -> answered (mk_system d (<[rq_resp r := msg]> (y_resps y)) (y_threads y) (y_received y ++ [msg]) calls) t k').
  { intros t k' Ha Hne. eapply answered_mono; [exact Ha|cbn; by rewrite lookup_insert_ne|]. cbn. intros m Hm. apply elem_of_app. by left. }
  assert (Hthis : answered (mk_system d (<[rq_resp r := msg]> (y_resps y)) (y_threads y) (y_received y ++ [msg]) calls) (rq_resp r) k).
  { exists msg. cbn. rewrite lookup_insert_eq. split_and!; [done..|]. apply elem_of_app. right. by apply list_elem_of_singleton. }
  split; cbn [y_disp y_threads]; rewrite ?Hr, ?Hc.
  - rewrite (cvs_update _ _ r) by done. apply I.
  - apply I.
  - intros t p' k' Ht' Hp'. destruct (i_thread y I t p' k' Ht' Hp') as (r' & Hk' & Hr'). destruct (decide (k' = k)) as [->|Hne].
    + eexists. rewrite lookup_insert_eq. split; [done|]. cbn. congruence.
    + exists r'. by rewrite lookup_insert_ne.
  - intros k' r'. destruct (decide (k' = k)) as [->|Hne].
    + rewrite lookup_insert_eq. intros [= <-]. cbn [rq_request_id rq_resp rq_ready]. split_and!; [done|by exists p|done].
    + rewrite lookup_insert_ne by done. intros Hk'. destruct (i_request y I k' r' Hk') as (Hid' & (p' & Ht' & Hpk) & Hans). split_and!; [done|by exists p'|].
      intros Hrd. apply Hother; [by apply Hans|]. intros E. rewrite E, Ht in Ht'. congruence.
  - intros t k' Hret. apply Hother; [by apply (i_returned y I)|]. intros ->. rewrite Ht in Hret. injection Hret as ->. done.
Qed.

Lemma inv_received y msg d calls :
  inv y -> d_requests d = d_requests (y_disp y) -> d_cvs d = d_cvs (y_disp y) ->
  inv (mk_system d (y_resps y) (y_threads y) (y_received y ++ [msg]) calls).
Proof.
  intros I Hr Hc. assert (Hmono : forall t k, answered y t k -> answered (mk_system d (y_resps y) (y_threads y) (y_received y ++ [msg]) calls) t k).
  { intros t k Ha. eapply answered_mono; [exact Ha|done|]. cbn. intros m Hm. apply elem_of_app. by left. }
  split; cbn [y_disp y_threads]; rewrite ?Hr, ?Hc; [apply I|apply I|apply I| |].
  - intros k r Hk. destruct (i_request y I k r Hk) as (Hid & Ht & Hans). split_and!; [done|done|]. intros. by apply Hmono, Hans.
  - intros t k Hret. by apply Hmono, (i_returned y I).
Qed.

Lemma cvs_length y : inv y -> length (d_cvs (y_disp y)) + size (d_requests (y_disp y)) = MDV_DISP_REQS.
Proof.
  intros I. pose proof (Permutation_length (i_cvs y I)) as Hl. unfold cvs_of in Hl. rewrite length_app, !length_fmap, length_seq in Hl.
  by rewrite length_map_to_list in Hl.
Qed.

Lemma register_ok y t lock mem : inv y -> sound y (Ev_register t lock mem) ->
  match step y (Ev_register t lock mem) with Some (Done y') => inv y' | Some (OutOfBounds _) => d_cvs (y_disp y) = [] | Some OutOfFuel => False | None => True end.
Proof.
  intros I [-> Hs]. cbn [step]. destruct (y_threads y !! t) as [[k|k e|k e err|k e err|k e|k e err|k err]|] eqn:Et; try done.
  unfold register_request. cbn [negb]. destruct (d_cvs (y_disp y)) as [|cv cvs] eqn:Ec; [done|]. destruct mem; cbn [mbind outcome_bind].
  - by apply inv_register.
  - cbn [Z.eqb code Pos.eqb]. apply inv_goto; try done.
    + cbn. by apply delete_id.
    + cbn [set_requests d_cvs]. pose proof (cvs_length y I) as Hl. rewrite Ec in Hl |- *. cbn [length] in Hl. unfold push_cv.
      destruct (Nat.ltb_spec (length cvs) MDV_DISP_REQS); [done|lia].
    + by rewrite Et.
Qed.

(** The steps of a thread that is registered. *)
Lemma thread_ok y t e : inv y -> sound y e ->
  (exists lock err, e = Ev_write t lock err) \/ (exists lock, e = Ev_cancel t lock) \/ e = Ev_wait t \/ (exists w, e = Ev_wake t w) \/ (exists lock, e = Ev_finish t lock) ->
  match step y e with Some (Done y') => inv y' | Some _ => False | None => True end.
Proof.
  intros I Hs [(lock & err & ->)|[(lock & ->)|[->|[(w & ->)|(lock & ->)]]]]; cbn [step sound] in *.
  - destruct (y_threads y !! t) as [[k|k e|k e err'|k e err'|k e|k e err'|k err']|] eqn:Et; try done. pose proof (i_phase y I t _ Et) as Hok.
    subst lock. destruct (Z.eqb_spec err MDV_OK); apply inv_goto; try done; by rewrite Et.
  - destruct (y_threads y !! t) as [[k|k e|k e err'|k e err'|k e|k e err'|k err']|] eqn:Et; try done. pose proof (i_phase y I t _ Et) as Hok. destruct Hok as [-> Hne]. subst lock.
    destruct (erase_ok y t _ k I Et eq_refl) as (r & Hk & Hrt & Er). unfold cancel_request. rewrite Er. cbn [mbind outcome_bind].
    by eapply inv_return.
  - destruct (y_threads y !! t) as [[k|k e|k e err'|k e err'|k e|k e err'|k err']|] eqn:Et; try done. pose proof (i_phase y I t _ Et) as Hok. cbn in Hok. subst.
    destruct (i_thread y I t _ k Et eq_refl) as (r & Hk & Hrt). unfold must_wait, entry_at. cbn [deref mbind outcome_bind]. rewrite Hk. cbn [deref mbind outcome_bind].
    destruct (negb (rq_ready r)); apply inv_goto; try done; by rewrite Et.
  - destruct (y_threads y !! t) as [[k|k e|k e err'|k e err'|k e|k e err'|k err']|] eqn:Et; try done. pose proof (i_phase y I t _ Et) as Hok.
    destruct (wake_up (y_disp y) w) as [[] err]; apply inv_goto; try done; by rewrite Et.
  - destruct (y_threads y !! t) as [[k|k e|k e err'|k e err'|k e|k e err'|k err']|] eqn:Et; try done. pose proof (i_phase y I t _ Et) as Hok. cbn in Hok. subst.
    destruct (erase_ok y t _ k I Et eq_refl) as (r & Hk & Hrt & Er). unfold finish_request. cbn [negb]. unfold entry_at. cbn [deref mbind outcome_bind].
    rewrite Hk. cbn [deref mbind outcome_bind]. rewrite Er. cbn [mbind outcome_bind fst snd]. eapply inv_return; try done.
    intros Hok. destruct (i_request y I k r Hk) as (_ & _ & Ha). rewrite Hrt in Ha. apply Ha. destruct (rq_ready r); [done|]. cbn [andb] in Hok.
    by destruct (Z.eqb_spec err' MDV_OK).
Qed.

(** Every step keeps the invariant; the only null pointer that is read is the
    top of an empty stack of condition variables. *)
Lemma step_ok y e : inv y -> sound y e ->
  match step y e with
  | Some (Done y') => inv y'
  | Some (OutOfBounds _) => (exists t mem, e = Ev_register t true mem) /\ d_cvs (y_disp y) = []
  | Some OutOfFuel => False
  | None => True
  end.
Proof.
  intros I Hs. destruct e as [t|t lock mem|t lock err|t lock|t|t w|t lock|lock signal msg|fd].
  - cbn [step]. destruct (y_threads y !! t) eqn:Et; [done|]. apply inv_goto; try done. by rewrite Et.
  - pose proof (register_ok y t lock mem I Hs) as Hr. destruct Hs as [-> _]. destruct (step y _) as [[y'|i|]|]; [done| |done|done]. split; [by exists t, mem|done].
  - pose proof (thread_ok y t _ I Hs (or_introl (ex_intro _ lock (ex_intro _ err eq_refl)))) as Hr. by destruct (step y _) as [[]|].
  - pose proof (thread_ok y t _ I Hs ltac:(eauto)) as Hr. by destruct (step y _) as [[]|].
  - pose proof (thread_ok y t _ I Hs ltac:(eauto)) as Hr. by destruct (step y _) as [[]|].
  - pose proof (thread_ok y t _ I Hs ltac:(eauto 6)) as Hr. by destruct (step y _) as [[]|].
  - pose proof (thread_ok y t _ I Hs ltac:(eauto 7)) as Hr. by destruct (step y _) as [[]|].
  - destruct Hs as [-> ->]. cbn [step]. unfold dispatch, deliver. cbn [negb d_message set_requests d_requests].
    destruct (d_requests (y_disp y) !! hdr_number (m_hdr msg)) as [r|] eqn:Ek; cbn [mbind outcome_bind].
    + by eapply inv_deliver.
    + cbn [d_handlers]. destruct (d_handlers (y_disp y) !! hdr_id (m_hdr msg)); by apply inv_received.
  - cbn [step]. split; cbn [y_disp y_threads mdv_dispatcher_set_fd d_requests d_cvs]; apply I.
Qed.

(** ** A request with its response *)

Definition ready (y : system) (t : nat) (k : Z) : Prop :=
  exists r, d_requests (y_disp y) !! k = Some r /\ rq_resp r = t /\ rq_ready r = true.

Definition thread_of (e : event) : option nat :=
  match e with
  | Ev_call t | Ev_register t _ _ | Ev_write t _ _ | Ev_cancel t _ | Ev_wait t | Ev_wake t _ | Ev_finish t _ => Some t
  | Ev_read _ _ _ | Ev_fd _ => None
  end.

Lemma read_ready y t p k msg : inv y -> y_threads y !! t = Some p -> pending p = Some k -> hdr_number (m_hdr msg) = k ->
  exists y', step y (Ev_read true true msg) = Some (Done y') /\ ready y' t k /\ y_resps y' !! t = Some msg /\ y_threads y' = y_threads y /\ y_calls y' = y_calls y.
Proof.
  intros I Ht Hp Hk. destruct (i_thread y I t p k Ht Hp) as (r & Hreq & Hrt). cbn [step]. unfold dispatch, deliver. cbn [negb d_message d_requests set_requests]. rewrite Hk, Hreq. cbn [mbind outcome_bind].
  eexists. split; [done|]. unfold ready. cbn [y_disp y_resps y_threads y_calls d_requests set_requests]. rewrite app_nil_r. split_and!; [|by rewrite Hrt, lookup_insert_eq|done..]. eexists. rewrite lookup_insert_eq. by split.
Qed.

(** Another thread leaves the request as it is. *)
Lemma ready_goto y d t t' k p p' :
  t' <> t -> y_threads y !! t = Some p -> (forall r, d_requests (y_disp y) !! k = Some r -> d_requests d !! k = Some r) -> ready y t k ->
  y_threads (goto y d t' p') !! t = Some p /\ ready (goto y d t' p') t k.
Proof.
  intros Hne Ht Hd (r & Hreq & Hrd). cbn [goto y_threads]. rewrite lookup_insert_ne by done. split; [done|]. exists r. split; [by apply Hd|done].
Qed.

(** A request of another thread has another number. *)
Lemma other_number y t t' p k k' : inv y -> t' <> t -> y_threads y !! t' = Some p -> pending p = Some k' -> ready y t k -> k' <> k.
Proof. intros I Hne Ht Hp (r & Hreq & Hrt & _) ->. destruct (i_thread y I t' p k Ht Hp) as (r' & Hreq' & Hrt'). congruence. Qed.

(** Another thread erases its own entry. *)
Lemma erase_kept y t t' p p' k k' d : inv y -> t' <> t -> y_threads y !! t' = Some p -> pending p = Some k' -> erase_request (y_disp y) (Some k') = Done d -> ready y t k ->
  forall r, d_requests (y_disp y) !! k = Some r -> d_requests (y_disp (goto y d t' p')) !! k = Some r.
Proof.
  intros I Hne Ht Hp Ed Hrd r Hr. destruct (erase_ok y t' p k' I Ht Hp) as (r' & _ & _ & E). rewrite E in Ed. injection Ed as <-. cbn [goto y_disp set_requests d_requests].
  rewrite lookup_delete_ne; [done|]. by eapply other_number.
Qed.

Lemma read_kept y y' t p k msg : y_threads y !! t = Some p -> ready y t k -> step y (Ev_read true true msg) = Some (Done y') -> y_threads y' !! t = Some p /\ ready y' t k.
Proof.
  intros Ht (r & Hreq & Hrt & Hrd). cbn [step]. unfold dispatch, deliver. cbn [negb d_message d_requests set_requests].
  destruct (d_requests (y_disp y) !! hdr_number (m_hdr msg)) as [r'|] eqn:E; cbn [mbind outcome_bind].
  - intros [= <-]. split; [done|]. unfold ready. cbn [y_disp d_requests]. destruct (decide (hdr_number (m_hdr msg) = k)) as [Ek|Ek]; [|exists r; by rewrite lookup_insert_ne].
    rewrite Ek in *. rewrite Hreq in E. injection E as <-. eexists. rewrite lookup_insert_eq. by split.
  - cbn [d_handlers]. destruct (d_handlers (y_disp y) !! hdr_id (m_hdr msg)); intros [= <-]; (split; [done|]); by exists r.
Qed.

Lemma ready_kept y e y' t p k :
  inv y -> sound y e -> step y e = Some (Done y') -> thread_of e <> Some t -> y_threads y !! t = Some p -> ready y t k -> y_threads y' !! t = Some p /\ ready y' t k.
Proof.
  intros I Hs Est He Ht Hrd. destruct e as [t'|t' lock mem|t' lock err|t' lock|t'|t' w|t' lock|lock signal msg|fd]; cbn [thread_of] in He; try (assert (Hne : t' <> t) by congruence).
  - cbn [step] in Est. destruct (y_threads y !! t'); [done|]. injection Est as <-. by apply ready_goto.
  - cbn [step] in Est. destruct Hs as [-> Hs]. destruct (y_threads y !! t') as [[k'|k' e|k' e err'|k' e err'|k' e|k' e err'|k' err']|] eqn:Et; try done.
    assert (Hk : k' <> k) by (destruct Hrd as (r & Hreq & _); congruence). unfold register_request in Est. cbn [negb] in Est. destruct (d_cvs (y_disp y)) as [|cv cvs]; [done|].
    destruct mem; cbn [mbind outcome_bind] in Est; injection Est as <-; apply ready_goto; try done; cbn [set_requests d_requests]; intros r Hr; [by rewrite lookup_insert_ne|by rewrite lookup_delete_ne].
  - cbn [step] in Est. destruct (y_threads y !! t') as [[k'|k' e|k' e err'|k' e err'|k' e|k' e err'|k' err']|]; try done. injection Est as <-. by apply ready_goto.
  - cbn [step sound] in *. destruct (y_threads y !! t') as [[k'|k' e|k' e err'|k' e err'|k' e|k' e err'|k' err']|] eqn:Et; try done. destruct (i_phase y I t' _ Et) as [-> _]. subst lock.
    unfold cancel_request in Est. destruct (erase_request (y_disp y) (Some k')) as [d| |] eqn:Ed; try done. cbn [mbind outcome_bind] in Est. injection Est as <-. apply ready_goto; try done. by eapply (erase_kept y t t' _ (Ph_returned k' err')).
  - cbn [step] in Est. destruct (y_threads y !! t') as [[k'|k' e|k' e err'|k' e err'|k' e|k' e err'|k' err']|]; try done. destruct (must_wait (y_disp y) e) as [w| |]; try done. cbn [mbind outcome_bind] in Est. injection Est as <-. by apply ready_goto.
  - cbn [step] in Est. destruct (y_threads y !! t') as [[k'|k' e|k' e err'|k' e err'|k' e|k' e err'|k' err']|]; try done. destruct (wake_up (y_disp y) w). injection Est as <-. by apply ready_goto.
  - cbn [step sound] in *. destruct (y_threads y !! t') as [[k'|k' e|k' e err'|k' e err'|k' e|k' e err'|k' err']|] eqn:Et; try done. pose proof (i_phase y I t' _ Et) as Ee. cbn in Ee. subst e lock.
    unfold finish_request in Est. cbn [negb] in Est. destruct (entry_at (y_disp y) (Some k')) as [r'| |]; try done. cbn [mbind outcome_bind] in Est.
    destruct (erase_request (y_disp y) (Some k')) as [d| |] eqn:Ed; try done. cbn [mbind outcome_bind fst snd] in Est. injection Est as <-. apply ready_goto; try done. by eapply (erase_kept y t t' _ (Ph_returned k' err')).
  - destruct Hs as [-> ->]. by eapply read_kept.
  - cbn [step] in Est. injection Est as <-. by split.
Qed.

Lemma finish_ready y t k err : inv y -> ready y t k -> y_threads y !! t = Some (Ph_waited k (Some k) err) ->
  exists y' r, step y (Ev_finish t true) = Some (Done y') /\ y_threads y' !! t = Some (Ph_returned k err) /\ answered y' t k
    /\ d_requests (y_disp y) !! k = Some r /\ d_requests (y_disp y') = delete k (d_requests (y_disp y)) /\ d_cvs (y_disp y') = rq_cv r :: d_cvs (y_disp y).
Proof.
  intros I (r & Hreq & Hrt & Hrd) Ht. destruct (i_request y I k r Hreq) as (Hid & _ & Ha). pose proof (cvs_length y I) as Hl.
  assert (Hsz : size (d_requests (y_disp y)) <> 0) by (intros E%map_size_empty_inv; by rewrite E in Hreq). cbn [step]. rewrite Ht. unfold finish_request, erase_request, entry_at. cbn [negb deref mbind outcome_bind].
  rewrite Hreq. cbn [deref mbind outcome_bind fst snd]. rewrite Hrd, Hid. cbn [andb]. eexists _, r. split; [done|]. cbn [goto y_threads y_disp set_requests d_requests d_cvs]. rewrite lookup_insert_eq. split_and!; try done.
  - do 2 f_equal. by destruct (Z.eqb_spec err MDV_OK).
  - specialize (Ha Hrd). rewrite Hrt in Ha. by eapply answered_mono.
  - unfold push_cv. destruct (Nat.ltb_spec (length (d_cvs (y_disp y))) MDV_DISP_REQS); [done|lia].
Qed.

(** A dispatcher without requests and with all condition variables. *)
Definition idle (d : mdv_dispatcher) : Prop := d_requests d = ∅ /\ d_cvs d ≡ₚ seq 0 MDV_DISP_REQS.

Lemma start_inv d : idle d -> inv (start d).
Proof.
  intros [Hr Hc]. split; cbn [start y_disp y_threads].
  - by rewrite Hr, app_nil_r.
  - intros t p. by rewrite lookup_empty.
  - intros t p k. by rewrite lookup_empty.
  - intros k r. by rewrite Hr, lookup_empty.
  - intros t k. by rewrite lookup_empty.
Qed.

Lemma reachable_inv d y : idle d -> reachable d y -> inv y.
Proof.
  intros Hd Hr. induction Hr as [|y e y' Hr IH Hs Est]; [by apply start_inv|]. pose proof (step_ok y e IH Hs) as Hok. by rewrite Est in Hok.
Qed.

Lemma create_idle fd : exists d, mdv_dispatcher_create true true true true true true (fun _ => true) fd = (Some d, []) /\ idle d /\ d_fd d = fd.
Proof. eexists. split; [vm_compute; reflexivity|]. split; [|done]. split; [done|]. cbn [d_cvs seq MDV_DISP_REQS]. apply (Permutation_rev [3; 2; 1; 0]). Qed.

(** ** Theorems *)

(** C20: whatever the threads do, a request that returns [MDV_OK] has in its buffer
    a message that was read from the connection and has the number of the
    request; no step reads a null pointer or an erased entry, but for the
    registration of a request while four others are pending.  This holds as long as
    the mutexes are locked, the condition variables are signalled, and no request is
    still pending when its number of 16 bits comes round again. *)
Theorem mdv_dispatcher_send_safe fd d y :
  mdv_dispatcher_create true true true true true true (fun _ => true) fd = (Some d, []) -> reachable d y ->
  (forall t k, y_threads y !! t = Some (Ph_returned k MDV_OK) -> answered y t k)
  /\ forall e, sound y e ->
     match step y e with
     | Some (Done _) | None => True
     | Some (OutOfBounds _) => (exists t mem, e = Ev_register t true mem) /\ size (d_requests (y_disp y)) = MDV_DISP_REQS
     | Some OutOfFuel => False
     end.
Proof.
  intros Hd Hr. destruct (create_idle fd) as (d' & Hd' & Hi & _). rewrite Hd' in Hd. injection Hd as <-. pose proof (reachable_inv _ _ Hi Hr) as I.
  split; [apply I|]. intros e Hs. pose proof (step_ok y e I Hs) as Hok. destruct (step y e) as [[y'|i|]|]; try done. destruct Hok as [He Hc].
  split; [done|]. pose proof (cvs_length y I) as Hl. rewrite Hc in Hl. exact Hl.
Qed.

(** the condition variables are neither lost nor shared: each one is in the
    stack or belongs to one pending request, so that at most four requests are
    pending, and all are free again when every thread has returned. *)
Theorem mdv_dispatcher_condvars fd d y :
  mdv_dispatcher_create true true true true true true (fun _ => true) fd = (Some d, []) -> reachable d y ->
  d_cvs (y_disp y) ++ cvs_of (d_requests (y_disp y)) ≡ₚ seq 0 MDV_DISP_REQS
  /\ size (d_requests (y_disp y)) <= MDV_DISP_REQS
  /\ ((forall t p, y_threads y !! t = Some p -> pending p = None) -> d_requests (y_disp y) = ∅ /\ d_cvs (y_disp y) ≡ₚ seq 0 MDV_DISP_REQS).
Proof.
  intros Hd Hr. destruct (create_idle fd) as (d' & Hd' & Hi & _). rewrite Hd' in Hd. injection Hd as <-. pose proof (reachable_inv _ _ Hi Hr) as I.
  split; [apply I|]. split; [pose proof (cvs_length y I); lia|]. intros Hnone.
  assert (Hr0 : d_requests (y_disp y) = ∅).
  { apply map_empty. intros k. destruct (d_requests (y_disp y) !! k) as [r|] eqn:Ek; [|done].
    destruct (i_request y I k r Ek) as (_ & (p & Ht & Hp) & _). by rewrite (Hnone _ _ Ht) in Hp. }
  split; [done|]. pose proof (i_cvs y I) as Hp. by rewrite Hr0, app_nil_r in Hp.
Qed.

(** C21: a thread that waits is served, whatever the other threads do in between,
    while the mutexes are locked and the condition variables are signalled.  A message
    with the number of its request makes the request ready and is put into its buffer,
    without a call of a handler; no step of another thread changes this.  The thread,
    woken by the signal while the connection is open, leaves the loop, returns
    [MDV_OK] with a message of its number, and erases its entry and gives its
    condition variable back; if the wait is reported as timed out, it returns this
    error although the response is there.  A message with a number that no request
    has goes to the handler of its kind, and no buffer changes. *)
Theorem mdv_dispatcher_delivers d y t k :
  idle d -> reachable d y ->
  (forall p msg, y_threads y !! t = Some p -> pending p = Some k -> hdr_number (m_hdr msg) = k ->
     exists y', step y (Ev_read true true msg) = Some (Done y') /\ ready y' t k /\ y_resps y' !! t = Some msg
       /\ y_threads y' = y_threads y /\ y_calls y' = y_calls y)
  /\ (forall e p y', sound y e -> step y e = Some (Done y') -> thread_of e <> Some t ->
        y_threads y !! t = Some p -> pending p = Some k -> ready y t k -> y_threads y' !! t = Some p /\ ready y' t k)
  /\ (ready y t k ->
        (y_threads y !! t = Some (Ph_sleeping k (Some k)) -> d_fd (y_disp y) <> MDV_INVALID_DESCRIPTOR ->
           step y (Ev_wake t MDV_OK) = Some (Done (goto y (y_disp y) t (Ph_waiting k (Some k) MDV_OK)))
           /\ step y (Ev_wake t MDV_ETIMEDOUT) = Some (Done (goto y (y_disp y) t (Ph_waited k (Some k) MDV_ETIMEDOUT))))
        /\ (forall err, y_threads y !! t = Some (Ph_waiting k (Some k) err) -> step y (Ev_wait t) = Some (Done (goto y (y_disp y) t (Ph_waited k (Some k) err))))
        /\ (forall err, y_threads y !! t = Some (Ph_waited k (Some k) err) ->
             exists y' r, step y (Ev_finish t true) = Some (Done y') /\ y_threads y' !! t = Some (Ph_returned k err) /\ answered y' t k
               /\ d_requests (y_disp y) !! k = Some r /\ d_requests (y_disp y') = delete k (d_requests (y_disp y)) /\ d_cvs (y_disp y') = rq_cv r :: d_cvs (y_disp y)))
  /\ (forall msg, d_requests (y_disp y) !! hdr_number (m_hdr msg) = None ->
      exists y', step y (Ev_read true true msg) = Some (Done y') /\ y_resps y' = y_resps y /\ y_threads y' = y_threads y
        /\ y_calls y' = y_calls y ++ match d_handlers (y_disp y) !! hdr_id (m_hdr msg) with Some h => [(h, msg)] | None => [] end).
Proof.
  intros Hi Hr. pose proof (reachable_inv _ _ Hi Hr) as I. split_and!.
  - intros p msg Ht Hp Hk. by eapply read_ready.
  - intros e p y' Hs Est He Ht Hp Hrd. by eapply ready_kept.
  - intros Hrd. pose proof Hrd as (r & Hreq & Hrt & Hready). split_and!.
    + intros Ht Hfd. cbn [step]. rewrite Ht. unfold wake_up. by destruct (Z.eqb_spec (d_fd (y_disp y)) MDV_INVALID_DESCRIPTOR).
    + intros err Ht. cbn [step]. rewrite Ht. unfold must_wait, entry_at. cbn [deref mbind outcome_bind]. rewrite Hreq. cbn [deref mbind outcome_bind]. by rewrite Hready.
    + intros err Ht. by apply finish_ready.
  - intros msg Hnone. cbn [step]. unfold dispatch, deliver. cbn [negb d_message d_requests]. rewrite Hnone. cbn [mbind outcome_bind d_handlers].
    destruct (d_handlers (y_disp y) !! hdr_id (m_hdr msg)); eexists; (split; [done|]); done.
Qed.

(** with four requests pending, a fifth one is not refused as busy: the top of
    the empty stack is read. *)
Theorem mdv_dispatcher_fifth_request d y t k mem :
  idle d -> reachable d y -> size (d_requests (y_disp y)) = MDV_DISP_REQS -> y_threads y !! t = Some (Ph_numbered k) ->
  step y (Ev_register t true mem) = Some (OutOfBounds (-1)).
Proof.
  intros Hi Hr Hsz Ht. pose proof (cvs_length y (reachable_inv _ _ Hi Hr)) as Hl. cbn [step]. rewrite Ht. unfold register_request. cbn [negb].
  destruct (d_cvs (y_disp y)); [done|]. cbn [length] in Hl. lia.
Qed.

(** ** Examples *)

#[global] Instance sound_dec y e : Decision (sound y e).
Proof. destruct e; cbn; try apply _. destruct (y_threads y !! t) as [[]|]; apply _. Defined.

(** An execution along a list of events. *)
Fixpoint run (y : system) (es : list event) : option system :=
  match es with
  | [] => Some y
  | e :: es =>
      if decide (sound y e) then
        match step y e with Some (Done y') => run y' es | _ => None end
      else None
  end.

Lemma run_reachable d es : forall y y', reachable d y -> run y es = Some y' -> reachable d y'.
Proof.
  induction es as [|e es IH]; intros y y' Hr Hrun; cbn in Hrun; [by injection Hrun as <-|].
  destruct (decide (sound y e)) as [Hs|]; [|done]. destruct (step y e) as [[y1|i|]|] eqn:Est; try done. eapply IH; [|exact Hrun]. by eapply reach_step.
Qed.

Definition demo_disp : mdv_dispatcher := mk_dispatcher 9 no_msg {[ 4%Z := 77 ]} ∅ [3; 2; 1; 0] 0.
Definition demo_msg (id number : Z) : mdv_msg := full_msg (mk_message id number [5; 6]%Z).

(** Two threads send; the second one is answered, the first one sleeps. *)
Definition demo_events : list event :=
  [Ev_call 1; Ev_call 2; Ev_register 2 true true; Ev_register 1 true true; Ev_write 1 true MDV_OK; Ev_write 2 true MDV_OK;
   Ev_wait 2; Ev_wait 1; Ev_read true true (demo_msg 5 1); Ev_wake 2 MDV_OK; Ev_wait 2; Ev_finish 2 true].

Definition demo_system : system := default (start demo_disp) (run (start demo_disp) demo_events).

Lemma demo_reachable : reachable demo_disp demo_system.
Proof. apply (run_reachable demo_disp demo_events (start demo_disp)); [apply reach_start|]. vm_compute. reflexivity. Qed.

Lemma demo_idle : idle demo_disp.
Proof. split; [done|]. apply (Permutation_rev [3; 2; 1; 0]). Qed.

(** A new dispatcher, one request and its response. *)
Definition new_disp : mdv_dispatcher := mk_dispatcher 9 no_msg ∅ ∅ [3; 2; 1; 0] 0.
Definition new_events : list event :=
  [Ev_call 1; Ev_register 1 true true; Ev_write 1 true MDV_OK; Ev_read true true (demo_msg 5 0); Ev_wait 1; Ev_finish 1 true].
Definition new_system : system := default (start new_disp) (run (start new_disp) new_events).

Lemma new_reachable : reachable new_disp new_system.
Proof. apply (run_reachable new_disp new_events (start new_disp)); [apply reach_start|]. vm_compute. reflexivity. Qed.

Lemma mdv_dispatcher_send_safe_witness : y_threads new_system !! 1 = Some (Ph_returned 0 MDV_OK) /\ answered new_system 1 0.
Proof.
  assert (Ht : y_threads new_system !! 1 = Some (Ph_returned 0 MDV_OK)) by (vm_compute; reflexivity).
  split; [exact Ht|]. exact (proj1 (mdv_dispatcher_send_safe 9 new_disp new_system eq_refl new_reachable) 1 0%Z Ht).
Defined.

Lemma mdv_dispatcher_condvars_witness : d_cvs (y_disp new_system) ≡ₚ [0; 1; 2; 3].
Proof.
  apply (proj2 (proj2 (mdv_dispatcher_condvars 9 new_disp new_system eq_refl new_reachable))). intros t p Ht.
  assert (E : y_threads new_system = {[ 1 := Ph_returned 0 MDV_OK ]}) by (vm_compute; reflexivity). rewrite E in Ht.
  apply lookup_singleton_Some in Ht as [_ <-]. reflexivity.
Defined.

(** The first thread sleeps, its response is read, it wakes up and returns. *)
Lemma mdv_dispatcher_delivers_witness :
  exists y1, step demo_system (Ev_read true true (demo_msg 5 0)) = Some (Done y1) /\ ready y1 1 0 /\ y_resps y1 !! 1 = Some (demo_msg 5 0)
    /\ step y1 (Ev_wake 1 MDV_OK) = Some (Done (goto y1 (y_disp y1) 1 (Ph_waiting 0 (Some 0%Z) MDV_OK))).
Proof.
  destruct (mdv_dispatcher_delivers demo_disp demo_system 1 0 demo_idle demo_reachable) as [Hread _].
  destruct (Hread (Ph_sleeping 0 (Some 0%Z)) (demo_msg 5 0)) as (y1 & E1 & R1 & M1 & T1 & _); [vm_compute; reflexivity..|].
  assert (Hr1 : reachable demo_disp y1) by (eapply reach_step; [exact demo_reachable| |exact E1]; by split).
  exists y1. split; [exact E1|]. split; [exact R1|]. split; [exact M1|]. destruct (mdv_dispatcher_delivers demo_disp y1 1 0 demo_idle Hr1) as (_ & _ & Hown & _).
  apply (proj1 (Hown R1)).
  - rewrite T1. vm_compute. reflexivity.
  - assert (E : (match step demo_system (Ev_read true true (demo_msg 5 0)) with Some (Done y) => d_fd (y_disp y) | _ => 0%Z end) = 9%Z) by (vm_compute; reflexivity).
    rewrite E1 in E. by rewrite E.
Defined.

Definition five_events : list event :=
  (Ev_call <$> seq 1 5) ++ ((fun t => Ev_register t true true) <$> seq 1 4).
Definition five_system : system := default (start demo_disp) (run (start demo_disp) five_events).

Lemma five_reachable : reachable demo_disp five_system.
Proof. apply (run_reachable demo_disp five_events (start demo_disp)); [apply reach_start|]. vm_compute. reflexivity. Qed.

Lemma mdv_dispatcher_fifth_request_witness : step five_system (Ev_register 5 true true) = Some (OutOfBounds (-1)).
Proof.
  apply (mdv_dispatcher_fifth_request demo_disp five_system 5 4 true demo_idle five_reachable); vm_compute; reflexivity.
Defined.

(** *** The number comes round *)

(** One thread sleeps with the request 0; [n] others came and went, because their
    messages could not be written. *)
Record passed (n : nat) (y : system) : Prop := {
  pa_requests : d_requests (y_disp y) = {[ 0%Z := mk_request 3 0 0 false ]};
  pa_cvs : d_cvs (y_disp y) = [2; 1; 0];
  pa_id : d_id (y_disp y) = u16 (Z.of_nat n + 1);
  pa_sleeper : y_threads y !! 0 = Some (Ph_sleeping 0 (Some 0%Z));
  pa_fresh : forall t, n < t -> y_threads y !! t = None;
  pa_fd : d_fd (y_disp y) <> MDV_INVALID_DESCRIPTOR
}.

Lemma passed_next d n y : reachable d y -> passed n y -> (Z.of_nat n + 1 < 2 ^ 16)%Z -> exists y', reachable d y' /\ passed (S n) y'.
Proof.
  intros Hr [P1 P2 P3 P4 P5 P6] Hn. rewrite (wrap_id 16) in P3 by (split; lia). set (k := (Z.of_nat n + 1)%Z) in *. assert (Hk : k <> 0%Z) by lia.
  assert (Hd : d_requests (y_disp y) !! k = None) by (by rewrite P1, lookup_singleton_ne).
  set (d1 := (take_number (y_disp y)).1). set (t := S n). set (y1 := goto y d1 t (Ph_numbered k)).
  set (d2 := set_requests d1 (<[k := mk_request 2 t k false]> (d_requests d1)) [1; 0]). set (y2 := goto y1 d2 t (Ph_registered k (Some k))).
  set (y3 := goto y2 d2 t (Ph_write_failed k (Some k) (code MDV_FAILED))). set (d4 := set_requests d2 (delete k (d_requests d2)) [2; 1; 0]). set (y4 := goto y3 d4 t (Ph_returned k (code MDV_FAILED))).
  assert (S1 : step y (Ev_call t) = Some (Done y1)). { cbn [step]. rewrite P5 by lia. unfold y1, d1, take_number. cbn [fst]. by rewrite P3. }
  assert (S2 : step y1 (Ev_register t true true) = Some (Done y2)). { cbn [step y1 goto y_threads y_disp]. rewrite lookup_insert_eq. unfold register_request, d2, d1, take_number. cbn [negb d_cvs fst]. by rewrite P2. }
  assert (S3 : step y2 (Ev_write t true (code MDV_FAILED)) = Some (Done y3)). { cbn [step y2 goto y_threads y_disp]. by rewrite lookup_insert_eq. }
  assert (S4 : step y3 (Ev_cancel t true) = Some (Done y4)).
  { cbn [step y3 goto y_threads y_disp]. rewrite lookup_insert_eq. unfold cancel_request, erase_request, entry_at. cbn [deref mbind outcome_bind d2 d_requests set_requests]. rewrite lookup_insert_eq. done. }
  exists y4. split.
  - assert (R1 : reachable d y1) by (eapply reach_step; [exact Hr| |exact S1]; done).
    assert (R2 : reachable d y2). { eapply reach_step; [exact R1| |exact S2]. split; [done|]. cbn [y1 goto y_threads y_disp]. by rewrite lookup_insert_eq. }
    assert (R3 : reachable d y3) by (eapply reach_step; [exact R2| |exact S3]; done). eapply reach_step; [exact R3| |exact S4]. done.
  - split; cbn [y4 y3 y2 y1 goto y_disp y_threads d4 d2 d1 take_number fst set_requests d_requests d_cvs d_id d_fd]; try done.
    + by rewrite delete_insert_id.
    + rewrite P3. f_equal. lia.
    + by rewrite !lookup_insert_ne.
    + intros t' Ht'. rewrite !lookup_insert_ne by lia. apply P5. lia.
Qed.

Lemma passed_many d n : forall y, reachable d y -> passed 0 y -> (Z.of_nat n < 2 ^ 16)%Z -> exists y', reachable d y' /\ passed n y'.
Proof.
  induction n as [|n IH]; intros y Hr Hy Hn; [by exists y|]. destruct (IH y Hr Hy ltac:(lia)) as (y1 & R1 & P1). apply (passed_next d n y1 R1 P1). lia.
Qed.

(** The events that follow, in which the number condition is not asked for. *)
Fixpoint play (y : system) (es : list event) : option system :=
  match es with
  | [] => Some y
  | e :: es => match step y e with Some (Done y') => play y' es | _ => None end
  end.

Lemma wake_open d : d_fd d <> MDV_INVALID_DESCRIPTOR -> wake_up d MDV_OK = (false, code MDV_OK).
Proof. intros Hfd. unfold wake_up. by destruct (Z.eqb_spec (d_fd d) MDV_INVALID_DESCRIPTOR). Qed.

Lemma play_cons y e es y' z : step y e = Some (Done y') -> play y' es = Some z -> play y (e :: es) = Some z.
Proof. intros E. cbn [play]. by rewrite E. Qed.

(** The number of a request has 16 bits and comes round.  A new dispatcher
    reaches, with every lock and signal successful, a state in which one request is
    pending, whose thread sleeps, and the next request gets the same number: it
    registers, its response is read and it returns [MDV_OK], whereby it erases the
    entry; the sleeping thread, woken, reads the missing entry. *)
Theorem mdv_dispatcher_number_wraps fd d msg :
  mdv_dispatcher_create true true true true true true (fun _ => true) fd = (Some d, []) -> fd <> MDV_INVALID_DESCRIPTOR -> hdr_number (m_hdr msg) = 0%Z ->
  exists y t y', reachable d y /\ size (d_requests (y_disp y)) = 1 /\ y_threads y !! 0 = Some (Ph_sleeping 0 (Some 0%Z))
    /\ play y [Ev_call t; Ev_register t true true; Ev_write t true MDV_OK; Ev_read true true msg; Ev_wait t; Ev_finish t true; Ev_wake 0 MDV_OK] = Some y'
    /\ y_threads y' !! t = Some (Ph_returned 0 MDV_OK) /\ step y' (Ev_wait 0) = Some (OutOfBounds (-1)).
Proof.
  intros Hd Hfd Hm. change (mdv_dispatcher_create true true true true true true (fun _ => true) fd) with (Some (mk_dispatcher fd no_msg ∅ ∅ [3; 2; 1; 0] 0), @nil (dp_release_fn * list dp_resource)) in Hd. injection Hd as <-.
  set (d := mk_dispatcher fd no_msg ∅ ∅ [3; 2; 1; 0] 0) in *.
  assert (H0 : exists y0, reachable d y0 /\ passed 0 y0).
  { exists (mk_system (mk_dispatcher fd no_msg ∅ {[0%Z := mk_request 3 0 0 false]} [2; 1; 0] 1) ∅ {[0 := Ph_sleeping 0 (Some 0%Z)]} [] []). split.
    - eapply (run_reachable d [Ev_call 0; Ev_register 0 true true; Ev_write 0 true MDV_OK; Ev_wait 0]); [apply reach_start|]. vm_compute. reflexivity.
    - split; try done. intros t Ht. cbn [y_threads]. by rewrite lookup_singleton_ne by lia. }
  destruct H0 as (y0 & R0 & P0). destruct (passed_many d (Z.to_nat 65535) y0 R0 P0 ltac:(lia)) as (y & Ry & [P1 P2 P3 P4 P5 P6]).
  rewrite Z2Nat.id in P3 by lia. change (u16 (65535 + 1)) with 0%Z in P3. set (t := S (Z.to_nat 65535)). 
  assert (Ht : y_threads y !! t = None) by (apply P5; lia). assert (Hne : 0 <> t) by done. clearbody t. destruct y as [[fd' m hs rs cvs id] resps ths rcv calls]. cbn [y_disp d_requests d_cvs d_id d_fd y_threads] in *. subst rs cvs id.
  exists (mk_system (mk_dispatcher fd' m hs {[0%Z := mk_request 3 0 0 false]} [2; 1; 0] 0) resps ths rcv calls), t. eexists. split; [done|]. split; [apply map_size_singleton|]. split; [done|].
  split.
  { eapply play_cons; [cbn [step y_threads]; rewrite Ht; reflexivity|]. cbn [take_number d_id y_disp u16]. unfold goto. cbn [y_resps y_threads y_received y_calls].
    eapply play_cons; [cbn [step y_threads]; rewrite lookup_insert_eq; reflexivity|]. unfold goto. cbn [y_resps y_threads y_received y_calls Z.eqb code Pos.eqb set_requests d_requests d_fd d_message d_handlers d_id].
    eapply play_cons; [cbn [step y_threads]; rewrite lookup_insert_eq; reflexivity|]. unfold goto. cbn [y_disp y_resps y_threads y_received y_calls Z.eqb code Pos.eqb].
    eapply play_cons; [cbn [step y_disp]; unfold dispatch, deliver; cbn [negb d_message d_requests set_requests]; rewrite Hm, lookup_insert_eq; reflexivity|]. cbn [rq_resp rq_cv rq_request_id d_fd d_handlers d_requests d_cvs d_id set_requests].
    eapply play_cons; [cbn [step y_threads y_disp]; rewrite lookup_insert_eq; unfold must_wait, entry_at; cbn [deref mbind outcome_bind d_requests Pos.eqb]; rewrite lookup_insert_eq; reflexivity|]. unfold goto. cbn [y_disp y_resps y_threads y_received y_calls negb rq_ready].
    eapply play_cons; [cbn [step y_threads y_disp]; rewrite lookup_insert_eq; unfold finish_request, erase_request, entry_at; cbn [negb deref mbind outcome_bind d_requests Pos.eqb]; rewrite lookup_insert_eq; reflexivity|]. unfold goto. cbn [y_disp y_resps y_threads y_received y_calls fst snd rq_request_id rq_cv set_requests d_requests d_cvs d_fd].
    eapply play_cons; [cbn [step y_threads y_disp]; rewrite !lookup_insert_ne, P4 by done; rewrite wake_open by done; reflexivity|]. reflexivity. }
  split.
  - unfold goto. cbn [y_threads]. rewrite lookup_insert_ne by done. by rewrite lookup_insert_eq.
  - unfold goto. cbn [step y_threads y_disp]. rewrite lookup_insert_eq. unfold must_wait, entry_at. cbn [Z.eqb code Pos.eqb deref mbind outcome_bind d_requests Pos.eqb]. cbn [fst set_requests d_requests deref mbind outcome_bind]. by rewrite lookup_delete_eq.
Qed.

Lemma mdv_dispatcher_number_wraps_witness :
  exists y t y', reachable new_disp y /\ size (d_requests (y_disp y)) = 1 /\ y_threads y !! 0 = Some (Ph_sleeping 0 (Some 0%Z))
    /\ play y [Ev_call t; Ev_register t true true; Ev_write t true MDV_OK; Ev_read true true (demo_msg 5 0); Ev_wait t; Ev_finish t true; Ev_wake 0 MDV_OK] = Some y'
    /\ y_threads y' !! t = Some (Ph_returned 0 MDV_OK) /\ step y' (Ev_wait 0) = Some (OutOfBounds (-1)).
Proof. apply (mdv_dispatcher_number_wraps 9 new_disp (demo_msg 5 0)); [reflexivity|discriminate|reflexivity]. Defined.

(** Both sides number their own requests: a request of the other side (kind 4,
    for which there is a handler) that has the number of a pending request is
    taken for its response. *)
Example request_taken_for_response :
  exists y, run (start demo_disp) [Ev_call 1; Ev_register 1 true true; Ev_write 1 true MDV_OK; Ev_read true true (demo_msg 4 0); Ev_wait 1; Ev_finish 1 true] = Some y
    /\ y_threads y !! 1 = Some (Ph_returned 0 MDV_OK) /\ y_resps y !! 1 = Some (demo_msg 4 0) /\ y_calls y = [].
Proof. eexists. split; [vm_compute; reflexivity|]. by split_and!. Qed.

(** When the condition variable cannot be signalled, the entry is erased under
    the thread that still uses it. *)
Example failed_signal_frees_entry :
  match run (start demo_disp) [Ev_call 1; Ev_register 1 true true; Ev_write 1 true MDV_OK] with
  | Some y => match step y (Ev_read true false (demo_msg 5 0)) with
              | Some (Done y) => step y (Ev_wait 1) = Some (OutOfBounds (-1))
              | _ => False
              end
  | None => False
  end.
Proof. vm_compute. reflexivity. Qed.

End Dispatcher.
