(* ===== verification/Messages.v ===== *)
(** * Messages between clients and servers (src/mdv_api/mdv_messages.c)

    Each message is written to a document and read from one; the documents are
    the payloads of the frames of [Msg]. *)

From stdpp Require Import strings.
From S2P Require Import Prelude Bitset Uuid Binn Topology Types Serialization Msg.
Import Bitset Uuid Binn Topology Types Serialization.
#[local] Open Scope nat_scope.
#[local] Open Scope list_scope.
#[local] Open Scope string_scope.

Module Messages.
Section Messages.
Context `{Binn}.

(** [mdv_message_id(name)] *)
Definition mdv_msg_status_id : Z := 1.
Definition mdv_msg_create_table_id : Z := 3.
Definition mdv_msg_get_table_id : Z := 4.
Definition mdv_msg_table_info_id : Z := 5.
Definition mdv_msg_table_desc_id : Z := 6.
Definition mdv_msg_get_topology_id : Z := 7.
Definition mdv_msg_topology_id : Z := 8.
Definition mdv_msg_insert_into_id : Z := 9.
Definition mdv_msg_select_id : Z := 10.
Definition mdv_msg_view_id : Z := 11.
Definition mdv_msg_fetch_id : Z := 12.
Definition mdv_msg_rowset_id : Z := 13.
Definition mdv_msg_delete_from_id : Z := 14.

Definition mdv_msg_name (id : Z) : string :=
  if (id =? mdv_msg_status_id)%Z then "STATUS"
  else if (id =? mdv_msg_create_table_id)%Z then "CREATE TABLE"
  else if (id =? mdv_msg_get_table_id)%Z then "GET TABLE"
  else if (id =? mdv_msg_table_info_id)%Z then "TABLE INFO"
  else if (id =? mdv_msg_table_desc_id)%Z then "TABLE DESC"
  else if (id =? mdv_msg_get_topology_id)%Z then "GET TOPOLOGY"
  else if (id =? mdv_msg_topology_id)%Z then "TOPOLOGY"
  else if (id =? mdv_msg_insert_into_id)%Z then "INSERT INTO"
  else if (id =? mdv_msg_select_id)%Z then "SELECT"
  else if (id =? mdv_msg_view_id)%Z then "VIEW"
  else if (id =? mdv_msg_fetch_id)%Z then "FETCH"
  else if (id =? mdv_msg_rowset_id)%Z then "ROWSET"
  else if (id =? mdv_msg_delete_from_id)%Z then "DELETE FROM"
  else "UNKOWN".

(** ** Status *)

Definition mdv_msg_status_binn (err : Z) (message : bytes) : writer binn :=
  obj <~ binn_create_object;;
  obj <~ binn_object_set obj "E" (B_int err);;
  binn_object_set obj "M" (B_str message).

Definition mdv_msg_status_unbinn (obj : binn) : option (Z * bytes) :=
  match binn_object_get_int32 obj "E", binn_object_get_str obj "M" with
  | Some err, Some message => Some (err, message)
  | _, _ => None
  end.

(** ** Tables *)

Definition mdv_msg_create_table_binn (desc : mdv_table_desc) : writer binn := mdv_binn_table_desc desc.

(** The returned flag compares the address of the message, which is not null:
    it is true also when there is no description. *)
Definition mdv_msg_create_table_unbinn (mem : bool) (obj : binn) : outcome (bool * option mdv_table_desc) :=
  desc ← mdv_unbinn_table_desc mem obj; Done (true, desc).

Definition mdv_msg_create_table_free (desc : option mdv_table_desc) : option mdv_table_desc := None.

(** An identifier under the keys "0" and "1", as GET TABLE and TABLE INFO have it. *)
Definition mdv_msg_get_table_binn (id : mdv_uuid) : writer binn :=
  obj <~ binn_create_object;;
  obj <~ binn_object_set obj "0" (B_int (u64_0 id));;
  binn_object_set obj "1" (B_int (u64_1 id)).

Definition mdv_msg_get_table_unbinn (obj : binn) : option mdv_uuid :=
  match binn_object_get_uint64 obj "0", binn_object_get_uint64 obj "1" with
  | Some a, Some b => Some (mk_uuid a b)
  | _, _ => None
  end.

Definition mdv_msg_table_info_binn (id : mdv_uuid) : writer binn :=
  obj <~ binn_create_object;;
  obj <~ binn_object_set obj "0" (B_int (u64_0 id));;
  binn_object_set obj "1" (B_int (u64_1 id)).

Definition mdv_msg_table_info_unbinn (obj : binn) : option mdv_uuid :=
  match binn_object_get_uint64 obj "0", binn_object_get_uint64 obj "1" with
  | Some a, Some b => Some (mk_uuid a b)
  | _, _ => None
  end.

(** ** Topology *)

Definition mdv_msg_get_topology_binn : writer binn := binn_create_object.
Definition mdv_msg_get_topology_unbinn (obj : binn) : bool := true.

Definition mdv_msg_topology_binn (t : mdv_topology) : writer binn := mdv_topology_serialize t.
Definition mdv_msg_topology_unbinn (qsort : list mdv_toponode -> list mdv_toponode) (mem : nat -> bool) (obj : binn) : outcome (option mdv_topology) :=
  mdv_topology_deserialize qsort mem obj.

(** ** Rows *)

(** [rows]: a list that was serialised before. *)
Definition mdv_msg_insert_into_binn (table : mdv_uuid) (rows : binn) : writer binn :=
  obj <~ binn_create_object;;
  obj <~ binn_object_set obj "U0" (B_int (u64_0 table));;
  obj <~ binn_object_set obj "U1" (B_int (u64_1 table));;
  binn_object_set obj "R" rows.

Definition mdv_msg_insert_into_unbinn (obj : binn) : option (mdv_uuid * binn) :=
  match binn_object_get_uint64 obj "U0", binn_object_get_uint64 obj "U1", binn_object_get_list obj "R" with
  | Some a, Some b, Some rows => Some (mk_uuid a b, rows)
  | _, _, _ => None
  end.

Definition mdv_msg_select_binn (table : mdv_uuid) (fields : mdv_bitset) (filter : bytes) : writer binn :=
  fields <~ mdv_binn_bitset fields;;
  obj <~ binn_create_object;;
  obj <~ binn_object_set obj "T0" (B_int (u64_0 table));;
  obj <~ binn_object_set obj "T1" (B_int (u64_1 table));;
  obj <~ binn_object_set obj "F" fields;;
  binn_object_set obj "S" (B_str filter).

(** [mem]: the words of the new bit set, if it is allocated. *)
Definition mdv_msg_select_unbinn (mem : option (list Z)) (obj : binn) : outcome (option (mdv_uuid * mdv_bitset * bytes)) :=
  match binn_object_get_uint64 obj "T0", binn_object_get_uint64 obj "T1", binn_object_get_list obj "F", binn_object_get_str obj "S" with
  | Some a, Some b, Some fields, Some filter =>
      fields ← mdv_unbinn_bitset mem fields;
      match fields with
      | None => Done None
      | Some fields => Done (Some (mk_uuid a b, fields, filter))
      end
  | _, _, _, _ => Done None
  end.

(** The bit set is released and the pointer cleared. *)
Definition mdv_msg_select_free (fields : option mdv_bitset) : option mdv_bitset * option mdv_bitset :=
  match fields with
  | Some b => (fst (mdv_bitset_release b), None)
  | None => (None, None)
  end.

Definition mdv_msg_view_binn (id : Z) : writer binn :=
  obj <~ binn_create_object;; binn_object_set obj "V" (B_int id).
Definition mdv_msg_view_unbinn (obj : binn) : option Z := binn_object_get_uint32 obj "V".

Definition mdv_msg_fetch_binn (id : Z) : writer binn :=
  obj <~ binn_create_object;; binn_object_set obj "V" (B_int id).
Definition mdv_msg_fetch_unbinn (obj : binn) : option Z := binn_object_get_uint32 obj "V".

Definition mdv_msg_rowset_binn (rows : binn) : writer binn :=
  obj <~ binn_create_object;; binn_object_set obj "R" rows.
Definition mdv_msg_rowset_unbinn (obj : binn) : option binn := binn_object_get_list obj "R".

Definition mdv_msg_delete_from_binn (table : mdv_uuid) (filter : bytes) : writer binn :=
  obj <~ binn_create_object;;
  obj <~ binn_object_set obj "T0" (B_int (u64_0 table));;
  obj <~ binn_object_set obj "T1" (B_int (u64_1 table));;
  binn_object_set obj "F" (B_str filter).

Definition mdv_msg_delete_from_unbinn (obj : binn) : option (mdv_uuid * bytes) :=
  match binn_object_get_uint64 obj "T0", binn_object_get_uint64 obj "T1", binn_object_get_str obj "F" with
  | Some a, Some b, Some filter => Some (mk_uuid a b, filter)
  | _, _, _ => None
  end.

(** ** All messages *)

Inductive mdv_message :=
| Msg_status (err : Z) (message : bytes)
| Msg_create_table (desc : mdv_table_desc)
| Msg_get_table (id : mdv_uuid)
| Msg_table_info (id : mdv_uuid)
| Msg_table_desc (desc : mdv_table_desc)
| Msg_get_topology
| Msg_topology (t : mdv_topology)
| Msg_insert_into (table : mdv_uuid) (rows : binn)
| Msg_select (table : mdv_uuid) (fields : mdv_bitset) (filter : bytes)
| Msg_view (id : Z)
| Msg_fetch (id : Z)
| Msg_rowset (rows : binn)
| Msg_delete_from (table : mdv_uuid) (filter : bytes).

Definition message_id (m : mdv_message) : Z :=
  match m with
  | Msg_status _ _ => mdv_msg_status_id
  | Msg_create_table _ => mdv_msg_create_table_id
  | Msg_get_table _ => mdv_msg_get_table_id
  | Msg_table_info _ => mdv_msg_table_info_id
  | Msg_table_desc _ => mdv_msg_table_desc_id
  | Msg_get_topology => mdv_msg_get_topology_id
  | Msg_topology _ => mdv_msg_topology_id
  | Msg_insert_into _ _ => mdv_msg_insert_into_id
  | Msg_select _ _ _ => mdv_msg_select_id
  | Msg_view _ => mdv_msg_view_id
  | Msg_fetch _ => mdv_msg_fetch_id
  | Msg_rowset _ => mdv_msg_rowset_id
  | Msg_delete_from _ _ => mdv_msg_delete_from_id
  end.

Definition message_binn (m : mdv_message) : writer binn :=
  match m with
  | Msg_status err message => mdv_msg_status_binn err message
  | Msg_create_table desc => mdv_msg_create_table_binn desc
  | Msg_get_table id => mdv_msg_get_table_binn id
  | Msg_table_info id => mdv_msg_table_info_binn id
  | Msg_table_desc desc => mdv_binn_table_desc desc
  | Msg_get_topology => mdv_msg_get_topology_binn
  | Msg_topology t => mdv_msg_topology_binn t
  | Msg_insert_into table rows => mdv_msg_insert_into_binn table rows
  | Msg_select table fields filter => mdv_msg_select_binn table fields filter
  | Msg_view id => mdv_msg_view_binn id
  | Msg_fetch id => mdv_msg_fetch_binn id
  | Msg_rowset rows => mdv_msg_rowset_binn rows
  | Msg_delete_from table filter => mdv_msg_delete_from_binn table filter
  end.

(** The words that the bit set of a select message needs. *)
Definition fields_words (obj : binn) : nat :=
  match binn_object_get_list obj "F" with Some fields => Z.to_nat (mdv_binn_list_length fields) | None => 0 end.

(** What the handler of a kind of messages reads.  [qsort]: the sort of the nodes;
    [words n]: what [n] words of memory for a bit set hold at first. *)
Definition message_unbinn (qsort : list mdv_toponode -> list mdv_toponode) (words : nat -> list Z) (id : Z) (obj : binn) : outcome (option mdv_message) :=
  if (id =? mdv_msg_status_id)%Z then Done (option_map (fun x => Msg_status x.1 x.2) (mdv_msg_status_unbinn obj))
  else if (id =? mdv_msg_create_table_id)%Z then
    mbind (fun r : bool * option mdv_table_desc => Done (option_map Msg_create_table r.2)) (mdv_msg_create_table_unbinn true obj)
  else if (id =? mdv_msg_get_table_id)%Z then Done (option_map Msg_get_table (mdv_msg_get_table_unbinn obj))
  else if (id =? mdv_msg_table_info_id)%Z then Done (option_map Msg_table_info (mdv_msg_table_info_unbinn obj))
  else if (id =? mdv_msg_table_desc_id)%Z then mbind (fun desc => Done (option_map Msg_table_desc desc)) (mdv_unbinn_table_desc true obj)
  else if (id =? mdv_msg_get_topology_id)%Z then Done (if mdv_msg_get_topology_unbinn obj then Some Msg_get_topology else None)
  else if (id =? mdv_msg_topology_id)%Z then
    mbind (fun t => Done (option_map Msg_topology t)) (mdv_msg_topology_unbinn qsort (fun _ => true) obj)
  else if (id =? mdv_msg_insert_into_id)%Z then Done (option_map (fun x => Msg_insert_into x.1 x.2) (mdv_msg_insert_into_unbinn obj))
  else if (id =? mdv_msg_select_id)%Z then
    mbind (fun r => Done (option_map (fun x => Msg_select x.1.1 x.1.2 x.2) r)) (mdv_msg_select_unbinn (Some (words (fields_words obj))) obj)
  else if (id =? mdv_msg_view_id)%Z then Done (option_map Msg_view (mdv_msg_view_unbinn obj))
  else if (id =? mdv_msg_fetch_id)%Z then Done (option_map Msg_fetch (mdv_msg_fetch_unbinn obj))
  else if (id =? mdv_msg_rowset_id)%Z then Done (option_map Msg_rowset (mdv_msg_rowset_unbinn obj))
  else if (id =? mdv_msg_delete_from_id)%Z then Done (option_map (fun x => Msg_delete_from x.1 x.2) (mdv_msg_delete_from_unbinn obj))
  else Done None.

End Messages.

(** ** Round trips *)

(** The fields are in the range of their types. *)
Definition message_ok (m : mdv_message) : Prop :=
  match m with
  | Msg_status err _ => (- 2 ^ 31 <= err < 2 ^ 31)%Z
  | Msg_create_table desc | Msg_table_desc desc => exists l, desc_ok desc l /\ Forall field_fits l /\ (desc_size desc l < 2 ^ 32)%Z
  | Msg_get_table id | Msg_table_info id => Uuid.wf id
  | Msg_get_topology => True
  | Msg_topology t => topology_ok t
  | Msg_insert_into table rows => Uuid.wf table /\ is_container rows = true
  | Msg_select table fields _ =>
      Uuid.wf table /\ Bitset.wf fields /\ (Z.of_nat (length (bs_bits fields)) < 2 ^ 32)%Z
  | Msg_view id | Msg_fetch id => fits 32 id
  | Msg_rowset rows => is_container rows = true
  | Msg_delete_from table _ => Uuid.wf table
  end.

(** Equal, but that bit sets are rounded up to whole words, and topologies have
    their nodes sorted and links between the same nodes. *)
Definition same_message (qsort : list mdv_toponode -> list mdv_toponode) (m m' : mdv_message) : Prop :=
  match m with
  | Msg_topology t =>
      exists links, m' = Msg_topology (mk_topology 1 (qsort (t_nodes t)) links (addrs (t_nodes t)))
        /\ resolve (qsort (t_nodes t)) <$> links = resolve (t_nodes t) <$> t_links t
  | Msg_select table fields filter => m' = Msg_select table (mk_bitset 1 (mdv_bitset_capacity fields) (bs_bits fields)) filter
  | _ => m' = m
  end.

Section RoundTrip.
Context `{BinnLaws} (qsort : list mdv_toponode -> list mdv_toponode) (Hsort : forall l, qsort l ≡ₚ l) (words : nat -> list Z) (Hwords : forall n, length (words n) = n).

Lemma message_roundtrip m : message_ok m ->
  exists doc m', makes (message_binn m) doc /\ message_unbinn qsort words (message_id m) doc = Done (Some m') /\ same_message qsort m m' /\ is_container doc = true.
Proof.
  destruct m as [err message|desc|id|id|desc| |t|table rows|table fields filter|id|id|rows|table filter]; cbn [message_ok message_binn message_id same_message]; intros Hok.
  - eexists _, _. split; [unfold mdv_msg_status_binn; do 2 step_writer; last_writer|]. split; [|by split].
    unfold message_unbinn, mdv_msg_status_unbinn. cbn [Z.eqb Pos.eqb mdv_msg_status_id app]. by do 2 step_reader.
  - destruct Hok as (l & Hd & Hl & Hs). eexists _, _. split; [by apply makes_table_desc|]. split; [|by split].
    unfold message_unbinn, mdv_msg_create_table_unbinn. cbn [Z.eqb Pos.eqb mdv_msg_status_id mdv_msg_create_table_id].
    by rewrite (proj1 (unbinn_table_desc_spec desc l Hd Hl Hs)).
  - destruct Hok as [Ha Hb]. eexists _, _. split; [unfold mdv_msg_get_table_binn; do 2 step_writer; last_writer|]. split; [|by split].
    unfold message_unbinn, mdv_msg_get_table_unbinn. cbn -[binn_object_get_uint64]. do 2 step_reader. by destruct id.
  - destruct Hok as [Ha Hb]. eexists _, _. split; [unfold mdv_msg_table_info_binn; do 2 step_writer; last_writer|]. split; [|by split].
    unfold message_unbinn, mdv_msg_table_info_unbinn. cbn -[binn_object_get_uint64]. do 2 step_reader. by destruct id.
  - destruct Hok as (l & Hd & Hl & Hs). eexists _, _. split; [by apply makes_table_desc|]. split; [|by split].
    unfold message_unbinn. cbn [Z.eqb Pos.eqb mdv_msg_status_id mdv_msg_create_table_id mdv_msg_get_table_id mdv_msg_table_info_id mdv_msg_table_desc_id].
    by rewrite (proj1 (unbinn_table_desc_spec desc l Hd Hl Hs)).
  - eexists _, _. split; [apply makes_create_object|]. by split.
  - destruct (deserialize_spec qsort t Hsort Hok) as (links & E & Hr). eexists _, _. split; [apply makes_topology, Hok|].
    unfold message_unbinn, mdv_msg_topology_unbinn. cbn -[mdv_topology_deserialize topology_object]. rewrite E. split; [done|]. split; [by exists links|done].
  - destruct Hok as [[Ha Hb] Hr]. eexists _, _. split; [unfold mdv_msg_insert_into_binn; do 3 step_writer; last_writer|]. split; [|by split].
    unfold message_unbinn, mdv_msg_insert_into_unbinn. cbn -[binn_object_get_uint64 binn_object_get_list]. do 3 step_reader. by destruct table.
  - destruct Hok as ([Ha Hb] & Hw & Hmax). eexists _, _. split.
    { unfold mdv_msg_select_binn. eapply makes_bind; [by apply makes_bitset|]. do 4 step_writer. last_writer. }
    split; [|by split]. unfold message_unbinn, mdv_msg_select_unbinn. cbn -[binn_object_get_uint64 binn_object_get_list binn_object_get_str mdv_unbinn_bitset].
    do 4 step_reader. rewrite unbinn_bitset_spec; [by destruct table|done| |done].
    rewrite Hwords. unfold fields_words. step_reader. unfold mdv_binn_list_length, bitset_doc. rewrite items_list, length_fmap, wrap_id by (split; lia). apply Nat2Z.id.
  - eexists _, _. split; [unfold mdv_msg_view_binn; step_writer; last_writer|]. split; [|by split].
    unfold message_unbinn, mdv_msg_view_unbinn. cbn -[binn_object_get_uint32]. by step_reader.
  - eexists _, _. split; [unfold mdv_msg_fetch_binn; step_writer; last_writer|]. split; [|by split].
    unfold message_unbinn, mdv_msg_fetch_unbinn. cbn -[binn_object_get_uint32]. by step_reader.
  - eexists _, _. split; [unfold mdv_msg_rowset_binn; step_writer; last_writer|]. split; [|by split].
    unfold message_unbinn, mdv_msg_rowset_unbinn. cbn -[binn_object_get_list]. by step_reader.
  - destruct Hok as [Ha Hb]. eexists _, _. split; [unfold mdv_msg_delete_from_binn; do 3 step_writer; last_writer|]. split; [|by split].
    unfold message_unbinn, mdv_msg_delete_from_unbinn. cbn -[binn_object_get_uint64 binn_object_get_str]. do 3 step_reader. by destruct table.
Qed.

End RoundTrip.
End Messages.
