(* ===== verification/User.v ===== *)
(** * Sessions of clients (src/mdv_core/mdv_user.c)

    A connected client has a session on the server.  The handlers of its requests
    read the document of the message, publish an event and answer: requests for
    tables and insertions are answered at once, from what the subscriber of the
    event returned; a select and a fetch are put into the queues of the event bus,
    and answered when the event with the result comes back to the session.

    The event bus is the subject of [Ebus]; here an event of the service is a call of
    its subscriber.  What the tables and logs answer is the class [Core], which the
    table space implements (src/mdv_core/storage/mdv_tablespace.c). *)

From stdpp Require Import strings.
From S2P Require Import Prelude Bitset Uuid Rollbacker Binn Topology Types Serialization Action Msg Dispatcher Messages.
Import Bitset Uuid Rollbacker Binn Topology Types Serialization Action Msg Dispatcher Messages.
#[local] Open Scope nat_scope.
#[local] Open Scope list_scope.

Module User.

(** ** Safe pointers (src/mdv_platform/mdv_safeptr.c) *)

(** A pointer behind a mutex, with the functions that count its references. *)
Section Safeptr.
Context {T : Type} (retain : T -> T) (release : T -> option T).

Record mdv_safeptr := mk_safeptr { sf_ptr : option T }.

Definition mdv_safeptr_create (mem mutex : bool) (ptr : option T) : option mdv_safeptr :=
  if mem && mutex then Some (mk_safeptr (retain <$> ptr)) else None.

(** What is left of the object. *)
Definition mdv_safeptr_free (p : option mdv_safeptr) : option T := p ≫= fun p => sf_ptr p ≫= release.

(** The pointer, the error, and what is left of the object that was there. *)
Definition mdv_safeptr_set (lock : bool) (p : mdv_safeptr) (ptr : option T) : mdv_safeptr * mdv_errno * option T :=
  if lock then (mk_safeptr (retain <$> ptr), MDV_OK, sf_ptr p ≫= release) else (p, MDV_FAILED, sf_ptr p).

(** The object is the one in the pointer, with a reference more. *)
Definition mdv_safeptr_get (lock : bool) (p : mdv_safeptr) : mdv_safeptr * option T :=
  if lock then (mk_safeptr (retain <$> sf_ptr p), retain <$> sf_ptr p) else (p, None).

End Safeptr.
#[global] Arguments mdv_safeptr : clear implicits.

(** ** The state *)

(** What the subscriber of the events of tables answers; an identifier or a table
    comes with [MDV_OK].  A table comes with a reference, which is given back. *)
Class Core (K : Type) := {
  core_table_create : option mdv_table_desc -> action K (mdv_errno * option mdv_uuid);
  core_table_get : mdv_uuid -> action K (mdv_errno * option mdv_table);
  core_table_release : mdv_table -> action K unit;
  core_rowdata_insert : mdv_uuid -> binn -> action K mdv_errno
}.

(** Events that wait in the queues of the bus. *)
Inductive request_event :=
| Evt_select (session : mdv_uuid) (request_id : Z) (table : mdv_uuid) (fields : mdv_bitset) (filter : bytes)
| Evt_view_fetch (session : mdv_uuid) (request_id : Z) (view_id : Z).

(** Events with results. *)
Inductive reply_event :=
| Evt_topology (topology : mdv_topology)
| Evt_status (session : mdv_uuid) (request_id : Z) (err : Z) (message : bytes)
| Evt_view (session : mdv_uuid) (request_id : Z) (view_id : Z)
| Evt_view_data (session : mdv_uuid) (request_id : Z) (rows : binn).

(** [us_sink]: the connection of the dispatcher. *)
Record mdv_user := mk_user {
  us_session : mdv_uuid;
  us_uuid : mdv_uuid;
  us_topology : mdv_safeptr mdv_topology;
  us_sink : sink
}.

Definition set_topology (u : mdv_user) (p : mdv_safeptr mdv_topology) : mdv_user := mk_user (us_session u) (us_uuid u) p (us_sink u).
Definition set_sink (u : mdv_user) (o : sink) : mdv_user := mk_user (us_session u) (us_uuid u) (us_topology u) o.

(** The calls of the rollback when a session cannot be made. *)
Inductive us_release_fn := Fn_us_rollbacker_free | Fn_us_free | Fn_us_ebus_release | Fn_us_safeptr_free | Fn_us_dispatcher_free.
Inductive us_resource := Res_us_rollbacker | Res_user | Res_us_ebus | Res_us_topology | Res_us_dispatcher.

Definition us_push (r : option (mdv_rollbacker us_release_fn us_resource)) (f : us_release_fn) (x : us_resource) :=
  snd (mdv_rollbacker_push r (mk_op f [x])).

(** [o]: the connection; [reg]: are the handlers of the messages registered? *)
Definition mdv_user_create (mem_rbr mem mem_ptr mutex dispatcher reg subscribed : bool) (o : sink) (uuid session : mdv_uuid) (topology : option mdv_topology)
  : mdv_user + list (us_release_fn * list us_resource) :=
  let rbr := mdv_rollbacker_create mem_rbr Fn_us_rollbacker_free Res_us_rollbacker 4 in
  if negb mem then inr (mdv_rollback rbr) else
  let rbr := us_push rbr Fn_us_free Res_user in
  let rbr := us_push rbr Fn_us_ebus_release Res_us_ebus in
  match mdv_safeptr_create mdv_topology_retain mem_ptr mutex topology with
  | None => inr (mdv_rollback rbr)
  | Some ptr =>
      let rbr := us_push rbr Fn_us_safeptr_free Res_us_topology in
      if negb dispatcher then inr (mdv_rollback rbr) else
      let rbr := us_push rbr Fn_us_dispatcher_free Res_us_dispatcher in
      if negb reg then inr (mdv_rollback rbr) else
      if negb subscribed then inr (mdv_rollback rbr) else inl (mk_user session uuid ptr o)
  end.

(** The service as its sessions see it; a session is found at its place in the
    list. *)
Record hub (K : Type) := mk_hub { hb_core : K; hb_users : list mdv_user; hb_requests : list request_event }.
#[global] Arguments mk_hub {K}.
#[global] Arguments hb_core {K}.
#[global] Arguments hb_users {K}.
#[global] Arguments hb_requests {K}.

Section User.
Context `{Binn} {K : Type} `{Core K}.

(** [fuel]: for the writes to a connection; [fresh]: what a new block holds;
    [is_empty]: is it the static empty topology? *)
Context (fuel : nat) (fresh : nat -> list Z) (is_empty : mdv_topology -> bool).

Abbreviation ha := (action (hub K)).

Definition set_core (s : hub K) (c : K) : hub K := mk_hub c (hb_users s) (hb_requests s).
Definition set_users (s : hub K) (l : list mdv_user) : hub K := mk_hub (hb_core s) l (hb_requests s).
Definition set_requests (s : hub K) (l : list request_event) : hub K := mk_hub (hb_core s) (hb_users s) l.

(** A synchronous event of the tables. *)
Definition in_core {A} (m : action K A) : ha A := zoom hb_core set_core m.

Definition user_at (u : nat) : ha mdv_user := s ← get; lift (deref (hb_users s !! u)).
Definition put_user (u : nat) (x : mdv_user) : ha unit := s ← get; put (set_users s (<[u := x]> (hb_users s))).

(** [mdv_ebus_publish(..., MDV_EVT_DEFAULT)] *)
Definition publish_request (e : request_event) : ha Z :=
  ok ← ask;
  if (ok : bool) then s ← get; put (set_requests s (hb_requests s ++ [e]));; mret (code MDV_OK)
  else mret (code MDV_FAILED).

(** ** Replies *)

Definition mdv_user_reply (u : nat) (msg : message) : ha Z :=
  user ← user_at u;
  lock ← ask;
  r ← lift (mdv_dispatcher_reply fuel lock (us_sink user) (msg_of msg 0));
  put_user u (set_sink user r.1);; mret r.2.

Definition mdv_user_status_reply (u : nat) (id : Z) (err : Z) (text : bytes) : ha Z :=
  status ← write (mdv_msg_status_binn err text);
  match (status : option binn) with
  | None => mret (code MDV_FAILED)
  | Some status => mdv_user_reply u (mk_message mdv_msg_status_id id (binn_data status))
  end.

Definition mdv_user_view_reply (u : nat) (id : Z) (view_id : Z) : ha Z :=
  view ← write (mdv_msg_view_binn view_id);
  match (view : option binn) with
  | None => mret (code MDV_FAILED)
  | Some view => mdv_user_reply u (mk_message mdv_msg_view_id id (binn_data view))
  end.

Definition mdv_user_view_data_reply (u : nat) (id : Z) (rows : binn) : ha Z :=
  rowset ← write (mdv_msg_rowset_binn rows);
  match (rowset : option binn) with
  | None => mret (code MDV_FAILED)
  | Some rowset => mdv_user_reply u (mk_message mdv_msg_rowset_id id (binn_data rowset))
  end.

Definition mdv_user_table_info_reply (u : nat) (id : Z) (table : mdv_uuid) : ha Z :=
  table_info ← write (mdv_msg_table_info_binn table);
  match (table_info : option binn) with
  | None => mret (code MDV_FAILED)
  | Some table_info => mdv_user_reply u (mk_message mdv_msg_table_info_id id (binn_data table_info))
  end.

Definition mdv_user_table_desc_reply (u : nat) (id : Z) (desc : mdv_table_desc) : ha Z :=
  table_desc ← write (mdv_binn_table_desc desc);
  match (table_desc : option binn) with
  | None => mret (code MDV_FAILED)
  | Some table_desc => mdv_user_reply u (mk_message mdv_msg_table_desc_id id (binn_data table_desc))
  end.

Definition mdv_user_topology_reply (u : nat) (id : Z) (topology : mdv_topology) : ha Z :=
  obj ← write (mdv_msg_topology_binn topology);
  match (obj : option binn) with
  | None => mret (code MDV_FAILED)
  | Some obj => mdv_user_reply u (mk_message mdv_msg_topology_id id (binn_data obj))
  end.

(** The end of most handlers: an error is reported as a status. *)
Definition or_status (u : nat) (id : Z) (err : Z) : ha Z :=
  if negb (err =? MDV_OK)%Z then mdv_user_status_reply u id err [] else mret err.

(** ** Handlers of requests *)

Definition msg_number (msg : mdv_msg) : Z := hdr_number (m_hdr msg).

(** [binn_load(msg->payload, ...)] *)
Definition load_msg (msg : mdv_msg) : option binn := m_payload msg ≫= binn_load.

(** The description moves into the event. *)
Definition mdv_user_create_table_handler (u : nat) (msg : mdv_msg) : ha Z :=
  match load_msg msg with
  | None => mret (code MDV_FAILED)
  | Some obj =>
      mem ← ask;
      r ← lift (mdv_msg_create_table_unbinn mem obj);
      err ← (if (r.1 : bool) then
               evt ← ask;
               if (evt : bool) then
                 x ← in_core (core_table_create r.2);
                 if decide (x.1 = MDV_OK) then id ← lift (deref x.2); mdv_user_table_info_reply u (msg_number msg) id
                 else mret (code x.1)
               else mret (code MDV_FAILED)
             else mret (code MDV_FAILED));
      or_status u (msg_number msg) err
  end.

Definition mdv_user_get_table_handler (u : nat) (msg : mdv_msg) : ha Z :=
  match load_msg msg with
  | None => mret (code MDV_FAILED)
  | Some obj =>
      err ← (match mdv_msg_get_table_unbinn obj with
             | Some id =>
                 evt ← ask;
                 if (evt : bool) then
                   x ← in_core (core_table_get id);
                   if decide (x.1 = MDV_OK) then
                     table ← lift (deref x.2);
                     err ← mdv_user_table_desc_reply u (msg_number msg) (tb_desc table);
                     in_core (core_table_release table);; mret err
                   else mret (code x.1)
                 else mret (code MDV_FAILED)
             | None => mret (code MDV_FAILED)
             end);
      or_status u (msg_number msg) err
  end.

Definition mdv_user_insert_into_handler (u : nat) (msg : mdv_msg) : ha Z :=
  match load_msg msg with
  | None => mret (code MDV_FAILED)
  | Some obj =>
      err ← (match mdv_msg_insert_into_unbinn obj with
             | Some (table, rows) =>
                 evt ← ask;
                 if (evt : bool) then err ← in_core (core_rowdata_insert table rows); mret (code err)
                 else mret (code MDV_FAILED)
             | None => mret (code MDV_FAILED)
             end);
      mdv_user_status_reply u (msg_number msg) err []
  end.

(** Not implemented: the answer is always an error. *)
Definition mdv_user_delete_from_handler (u : nat) (msg : mdv_msg) : ha Z :=
  match load_msg msg with
  | None => mret (code MDV_FAILED)
  | Some obj => mdv_user_status_reply u (msg_number msg) MDV_FAILED []
  end.

(** "Topology getting failed" *)
Definition topology_failed : bytes :=
  [84; 111; 112; 111; 108; 111; 103; 121; 32; 103; 101; 116; 116; 105; 110; 103; 32; 102; 97; 105; 108; 101; 100]%Z.

(** The reference that the handler took is given back. *)
Definition release_topology (u : nat) (topology : mdv_topology) : ha unit :=
  user ← user_at u;
  put_user u (set_topology user (mk_safeptr (snd (mdv_topology_release (is_empty topology) (Some topology))))).

Definition mdv_user_get_topology_handler (u : nat) (msg : mdv_msg) : ha Z :=
  user ← user_at u;
  lock ← ask;
  let '(p, topology) := mdv_safeptr_get mdv_topology_retain lock (us_topology user) in
  put_user u (set_topology user p);;
  match topology with
  | Some topology =>
      err ← mdv_user_topology_reply u (msg_number msg) topology;
      release_topology u topology;; mret err
  | None => mdv_user_status_reply u (msg_number msg) MDV_FAILED topology_failed
  end.

(** The words of the new bit set. *)
Definition fields_words (obj : binn) : list Z :=
  match binn_object_get_list obj "F" with
  | Some fields => fresh (Z.to_nat (mdv_binn_list_length fields))
  | None => []
  end.

(** The fields have a reference of the event and one of the message, which is
    given back. *)
Definition mdv_user_select_handler (u : nat) (msg : mdv_msg) : ha Z :=
  match load_msg msg with
  | None => mret (code MDV_FAILED)
  | Some obj =>
      mem ← ask;
      select ← lift (mdv_msg_select_unbinn (if (mem : bool) then Some (fields_words obj) else None) obj);
      err ← (match (select : option (mdv_uuid * mdv_bitset * bytes)) with
             | Some (table, fields, filter) =>
                 evt ← ask;
                 if (evt : bool) then
                   user ← user_at u;
                   publish_request (Evt_select (us_session user) (msg_number msg) table fields filter)
                 else mret (code MDV_FAILED)
             | None => mret (code MDV_FAILED)
             end);
      or_status u (msg_number msg) err
  end.

Definition mdv_user_fetch_handler (u : nat) (msg : mdv_msg) : ha Z :=
  match load_msg msg with
  | None => mret (code MDV_FAILED)
  | Some obj =>
      err ← (match mdv_msg_fetch_unbinn obj with
             | Some view_id =>
                 evt ← ask;
                 if (evt : bool) then
                   user ← user_at u;
                   publish_request (Evt_view_fetch (us_session user) (msg_number msg) view_id)
                 else mret (code MDV_FAILED)
             | None => mret (code MDV_FAILED)
             end);
      or_status u (msg_number msg) err
  end.

(** ** Handlers of events *)

Definition mdv_user_evt_topology (u : nat) (topology : mdv_topology) : ha Z :=
  user ← user_at u;
  lock ← ask;
  let '(p, err, _) := mdv_safeptr_set mdv_topology_retain (fun t => snd (mdv_topology_release (is_empty t) (Some t))) lock (us_topology user) (Some topology) in
  put_user u (set_topology user p);; mret (code err).

Definition mdv_user_evt_status (u : nat) (session : mdv_uuid) (request_id err : Z) (text : bytes) : ha Z :=
  user ← user_at u;
  if negb (mdv_uuid_cmp session (us_session user) =? 0)%Z then mret (code MDV_OK)
  else mdv_user_status_reply u request_id err text.

Definition mdv_user_evt_view (u : nat) (session : mdv_uuid) (request_id view_id : Z) : ha Z :=
  user ← user_at u;
  if negb (mdv_uuid_cmp session (us_session user) =? 0)%Z then mret (code MDV_OK)
  else mdv_user_view_reply u request_id view_id.

Definition mdv_user_evt_view_data (u : nat) (session : mdv_uuid) (request_id : Z) (rows : binn) : ha Z :=
  user ← user_at u;
  if negb (mdv_uuid_cmp session (us_session user) =? 0)%Z then mret (code MDV_OK)
  else mdv_user_view_data_reply u request_id rows.

(** The table of the subscriptions of a session. *)
Definition mdv_user_handlers (u : nat) (e : reply_event) : ha Z :=
  match e with
  | Evt_topology topology => mdv_user_evt_topology u topology
  | Evt_status session request_id err text => mdv_user_evt_status u session request_id err text
  | Evt_view session request_id view_id => mdv_user_evt_view u session request_id view_id
  | Evt_view_data session request_id rows => mdv_user_evt_view_data u session request_id rows
  end.

(** [mdv_ebus_publish(..., MDV_EVT_SYNC)]: all sessions are called, the first error
    is returned, [MDV_NO_IMPL] when there is no session. *)
Fixpoint notify_users (l : list nat) (e : reply_event) (err : Z) : ha Z :=
  match l with
  | [] => mret err
  | u :: l =>
      res ← mdv_user_handlers u e;
      notify_users l e (if (err =? MDV_OK)%Z || (err =? MDV_NO_IMPL)%Z then res else err)
  end.

Definition publish_reply (e : reply_event) : ha Z :=
  s ← get; notify_users (seq 0 (length (hb_users s))) e (code MDV_NO_IMPL).

(** The table of the messages that a session handles; [None]: no handler. *)
Definition user_handler (u : nat) (id : Z) : option (mdv_msg -> ha Z) :=
  if (id =? mdv_msg_create_table_id)%Z then Some (mdv_user_create_table_handler u)
  else if (id =? mdv_msg_get_table_id)%Z then Some (mdv_user_get_table_handler u)
  else if (id =? mdv_msg_insert_into_id)%Z then Some (mdv_user_insert_into_handler u)
  else if (id =? mdv_msg_get_topology_id)%Z then Some (mdv_user_get_topology_handler u)
  else if (id =? mdv_msg_select_id)%Z then Some (mdv_user_select_handler u)
  else if (id =? mdv_msg_fetch_id)%Z then Some (mdv_user_fetch_handler u)
  else if (id =? mdv_msg_delete_from_id)%Z then Some (mdv_user_delete_from_handler u)
  else None.

(** A message of the client was read: [mdv_user_recv_impl]. *)
Definition mdv_user_recv (u : nat) (msg : mdv_msg) : ha Z :=
  match user_handler u (hdr_id (m_hdr msg)) with
  | Some handler => handler msg
  | None => mret (code MDV_NO_IMPL)
  end.

End User.

(** ** What is written to the connections *)

Lemma write_all_total fuel : forall o data, length (sk_answers o) + 1 < fuel ->
  exists o' err, mdv_write_all fuel o data = Done (o', err) /\ length (sk_answers o') <= length (sk_answers o).
Proof.
  induction fuel as [|fuel IH]; intros [a sent] data Hf; [lia|]. cbn [sk_answers] in *. destruct data as [|b data]; [by exists (mk_sink a sent), (code MDV_OK)|].
  cbn [mdv_write_all]. unfold mdv_write. cbn [sk_answers sk_sent]. destruct a as [|[n|e] a].
  - cbn [Z.eqb code Pos.eqb]. rewrite drop_ge by lia. destruct fuel as [|fuel]; [cbn in Hf; lia|]. eexists _, _. by split.
  - cbn [Z.eqb code Pos.eqb length] in *. destruct (IH (mk_sink a (sent ++ take n (b :: data))) (drop (Nat.min n (S (length data))) (b :: data)) ltac:(cbn; lia)) as (o' & err & E & Hl).
    exists o', err. split; [exact E|cbn in Hl; lia].
  - cbn [length] in *. destruct (IH (mk_sink a sent) (b :: data) ltac:(cbn; lia)) as (o1 & e1 & E1 & Hl1).
    destruct (IH (mk_sink a sent) (drop (length (b :: data)) (b :: data)) ltac:(cbn; lia)) as (o2 & e2 & E2 & Hl2). cbn [sk_answers] in *.
    destruct (mdv_error e =? MDV_EAGAIN)%Z; [exists o1, e1; split; [exact E1|lia]|]. destruct (mdv_error e =? MDV_OK)%Z; [exists o2, e2; split; [exact E2|lia]|].
    eexists _, _. split; [done|cbn; lia].
Qed.

Lemma of_le_slice_size m : (hdr_size (host_hdr m) <= Z.of_nat (length (ms_payload m)))%Z /\ (0 <= hdr_size (host_hdr m))%Z.
Proof.
  assert (E : hdr_size (host_hdr m) = (ms_size m mod 2 ^ 32)%Z).
  { unfold hdr_size, host_hdr, mdv_msghdr, slice. rewrite app_assoc, drop_app_length', take_ge by (rewrite ?length_app, !length_to_le; lia). rewrite of_to_le. done. }
  rewrite E. unfold ms_size. pose proof (Z.mod_pos_bound (Z.of_nat (length (ms_payload m))) (2 ^ 32)). pose proof (Z.mod_le (Z.of_nat (length (ms_payload m))) (2 ^ 32)). lia.
Qed.

Lemma write_msg_total fuel o m : length (sk_answers o) + 1 < fuel ->
  exists o' err, mdv_write_msg fuel o (msg_of m 0) = Done (o', err) /\ length (sk_answers o') <= length (sk_answers o).
Proof.
  intros Hf. unfold mdv_write_msg. cbn [m_hdr msg_of m_payload]. destruct (of_le_slice_size m) as [Hs Hp].
  destruct (MDV_MSG_SIZE_MAX <? hdr_size (host_hdr m))%Z; [by eexists _, _|].
  match goal with |- context [mdv_write_all fuel o ?h] => destruct (write_all_total fuel o h Hf) as (o1 & e1 & -> & Hl1) end. cbn [mbind outcome_bind].
  destruct (e1 =? MDV_OK)%Z; cbn [negb]; [|by eexists _, _]. destruct (ms_payload m) as [|b p] eqn:Ep.
  - cbn [length] in Hs. replace (hdr_size (host_hdr m)) with 0%Z by lia. by eexists _, _.
  - destruct (Nat.ltb_spec (length (b :: p)) (Z.to_nat (hdr_size (host_hdr m)))) as [?|_]; [lia|].
    match goal with |- context [mdv_write_all fuel o1 ?d] => destruct (write_all_total fuel o1 d ltac:(lia)) as (o2 & e2 & -> & Hl2) end. eexists _, _. split; [done|lia].
Qed.

Section Replies.
Context `{Binn} {K : Type} `{Core K}.
Context (fuel : nat) (is_empty : mdv_topology -> bool) (mem : nat -> bool).

(** Fuel for the answers of the connections. *)
Definition sinks_ok (l : list mdv_user) : Prop := Forall (fun u => length (sk_answers (us_sink u)) + 1 < fuel) l.

(** What does not change when a session writes. *)
Definition identity (u : mdv_user) := (us_session u, us_uuid u, us_topology u).

Definition quiet (s s' : hub K) : Prop :=
  hb_core s' = hb_core s /\ hb_requests s' = hb_requests s /\ identity <$> hb_users s' = identity <$> hb_users s /\ (sinks_ok (hb_users s) -> sinks_ok (hb_users s')).

#[global] Instance quiet_preorder : PreOrder quiet.
Proof. split; [by intros s|]. intros s1 s2 s3 (A1 & A2 & A3 & A4) (B1 & B2 & B3 & B4). split_and!; [congruence..|auto]. Qed.

Lemma quiet_length s s' : quiet s s' -> length (hb_users s') = length (hb_users s).
Proof. intros (_ & _ & E & _). apply (f_equal length) in E. by rewrite !length_fmap in E. Qed.

(** A session can always reply; the result may be an error. *)
Lemma reply_any u msg s (Q : Z -> hub K -> Prop) :
  u < length (hb_users s) -> sinks_ok (hb_users s) -> (forall err s', quiet s s' -> Q err s') -> wp mem (mdv_user_reply fuel u msg) s Q.
Proof.
  intros Hu Hs HQ. apply lookup_lt_is_Some in Hu as [x Hx]. pose proof (proj1 (Forall_lookup _ _) Hs _ _ Hx) as Hf. cbn beta in Hf. unfold mdv_user_reply, user_at. wp_steps.
  eapply wp_lift; [by rewrite Hx|]. wp_steps.
  assert (Hr : exists o' err, mdv_dispatcher_reply fuel b (us_sink x) (msg_of msg 0) = Done (o', err) /\ length (sk_answers o') <= length (sk_answers (us_sink x))).
  { unfold mdv_dispatcher_reply. destruct b; [by apply write_msg_total|]. by eexists _, _. }
  destruct Hr as (o' & err & Er & Hl). eapply wp_lift; [exact Er|]. cbn [fst snd]. unfold put_user. wp_steps. apply HQ. split_and!; try done; cbn [hb_users set_users].
  - rewrite list_fmap_insert. apply list_insert_id. rewrite list_lookup_fmap, Hx. by destruct x.
  - intros _. apply Forall_insert; [done|cbn; lia].
Qed.

(** The reply of a document. *)
Lemma doc_reply_any u id number (w : writer binn) doc s (Q : Z -> hub K -> Prop) :
  makes w doc -> u < length (hb_users s) -> sinks_ok (hb_users s) -> (forall err s', quiet s s' -> Q err s') ->
  wp mem (x ← write w; match (x : option binn) with None => mret (code MDV_FAILED) | Some x => mdv_user_reply fuel u (mk_message id number (binn_data x)) end) s Q.
Proof. intros Hm Hu Hs HQ. wp_step. eapply wp_write; [exact Hm|]. intros r [-> | ->] _; [by apply reply_any|]. wp_step. by apply HQ. Qed.

Lemma makes_status err message : makes (mdv_msg_status_binn err message) (B_object [("E", B_int err); ("M", B_str message)]).
Proof. unfold mdv_msg_status_binn. do 2 step_writer. last_writer. Qed.

Lemma makes_view id : makes (mdv_msg_view_binn id) (B_object [("V", B_int id)]).
Proof. unfold mdv_msg_view_binn. step_writer. last_writer. Qed.

Lemma makes_msg_rowset rows : makes (mdv_msg_rowset_binn rows) (B_object [("R", rows)]).
Proof. unfold mdv_msg_rowset_binn. step_writer. last_writer. Qed.

(** The handlers of the events with results. *)
Lemma handlers_any u e s (Q : Z -> hub K -> Prop) :
  (forall t, e <> Evt_topology t) -> u < length (hb_users s) -> sinks_ok (hb_users s) -> (forall err s', quiet s s' -> Q err s') -> wp mem (mdv_user_handlers fuel is_empty u e) s Q.
Proof.
  intros He Hu Hs HQ. pose proof Hu as [x Hx]%lookup_lt_is_Some. destruct e as [t|session req err message|session req id|session req rows]; [by destruct (He t)|..];
    cbn [mdv_user_handlers]; [unfold mdv_user_evt_status|unfold mdv_user_evt_view|unfold mdv_user_evt_view_data]; unfold user_at; wp_steps; (eapply wp_lift; [by rewrite Hx|]);
    (destruct (negb _); [wp_step; by apply HQ|]).
  - by eapply doc_reply_any; [apply makes_status|..].
  - by eapply doc_reply_any; [apply makes_view|..].
  - by eapply doc_reply_any; [apply makes_msg_rowset|..].
Qed.

Lemma publish_any e s (Q : Z -> hub K -> Prop) :
  (forall t, e <> Evt_topology t) -> sinks_ok (hb_users s) -> (forall err s', quiet s s' -> Q err s') -> wp mem (publish_reply fuel is_empty e) s Q.
Proof.
  intros He Hs HQ. unfold publish_reply. wp_steps. assert (Hl : Forall (fun u => u < length (hb_users s)) (seq 0 (length (hb_users s)))).
  { apply Forall_forall. intros u Hu. apply elem_of_seq in Hu. lia. }
  revert HQ Hs Hl. generalize (code MDV_NO_IMPL), (seq 0 (length (hb_users s))). intros err l. revert err s. induction l as [|u l IH]; intros err s HQ Hs Hl; cbn [notify_users]; [wp_step; by apply HQ|].
  apply Forall_cons in Hl as [Hu Hl]. wp_step. apply handlers_any; [done..|]. intros res s' Hq. apply IH; [|by apply Hq|].
  - intros err' s'' Hq'. apply HQ. by etrans.
  - by rewrite (quiet_length _ _ Hq).
Qed.

(** *** The replies of the first session when nothing fails *)

Context (Hgranted : granted mem).

(** The other side reads what is written, and no other session has its identifier. *)
Definition ready (h : hub K) : Prop := exists u, hb_users h !! 0 = Some u /\ willing (sk_answers (us_sink u)) /\
  forall i x, hb_users h !! i = Some x -> us_session x = us_session u -> i = 0.

(** The message [r] was written to the connection of the first session. *)
Definition sends (h h' : hub K) (r : message) : Prop :=
  quiet h h' /\ ready h' /\ exists u u', hb_users h !! 0 = Some u /\ hb_users h' !! 0 = Some u' /\ sk_sent (us_sink u') = sk_sent (us_sink u) ++ wire r.

Lemma reply_sends msg h (Q : Z -> hub K -> Prop) :
  ready h -> sinks_ok (hb_users h) -> Msg.message_ok msg -> (forall h', sends h h' msg -> Q (code MDV_OK) h') -> wp mem (mdv_user_reply fuel 0 msg) h Q.
Proof.
  intros (u & Hu & Hw & Hown) Hs Hm HQ. pose proof (proj1 (Forall_lookup _ _) Hs _ _ Hu) as Hf. cbn beta in Hf. unfold mdv_user_reply, user_at. wp_steps. eapply wp_lift; [by rewrite Hu|]. wp_steps. rewrite (Hb Hgranted).
  destruct (write_msg_ok fuel (us_sink u) msg 0 Hm Hw Hf) as (a' & E & Hw' & Hl). eapply wp_lift; [exact E|]. cbn [fst snd]. unfold put_user. wp_steps. apply HQ. cbn [hb_users set_users].
  assert (Hlt : 0 < length (hb_users h)) by (by eapply lookup_lt_Some). split_and!.
  - split_and!; [done|done| |]; cbn [hb_users set_users].
    + rewrite list_fmap_insert. apply list_insert_id. rewrite list_lookup_fmap, Hu. by destruct u.
    + intros _. apply Forall_insert; [done|cbn; lia].
  - eexists. cbn [hb_users set_users]. rewrite list_lookup_insert_eq by done. split; [done|]. split; [done|]. intros i x Hx Hc. destruct (decide (i = 0)) as [->|Hne]; [done|].
    rewrite list_lookup_insert_ne in Hx by done. by eapply Hown.
  - eexists _, _. split; [done|]. cbn [hb_users set_users]. rewrite list_lookup_insert_eq by done. by split.
Qed.

Lemma doc_reply_sends id number (w : writer binn) doc h (Q : Z -> hub K -> Prop) :
  makes w doc -> is_container doc = true -> ready h -> sinks_ok (hb_users h) -> Msg.message_ok (mk_message id number (binn_bytes doc)) ->
  (forall h', sends h h' (mk_message id number (binn_bytes doc)) -> Q (code MDV_OK) h') ->
  wp mem (x ← write w; match (x : option binn) with None => mret (code MDV_FAILED) | Some x => mdv_user_reply fuel 0 (mk_message id number (binn_data x)) end) h Q.
Proof. intros Hw Hc Hr Hs Hm HQ. wp_step. eapply wp_write; [exact Hw|]. intros r _ ->; [|done]. assert (binn_data doc = binn_bytes doc) as -> by (by destruct doc). by apply reply_sends. Qed.

(** The message that an event with a result becomes. *)
Definition reply_doc (e : reply_event) : mdv_uuid * message :=
  match e with
  | Evt_topology _ => (mk_uuid 0 0, mk_message 0 0 [])
  | Evt_status session req err text => (session, mk_message mdv_msg_status_id req (binn_bytes (B_object [("E", B_int err); ("M", B_str text)])))
  | Evt_view session req id => (session, mk_message mdv_msg_view_id req (binn_bytes (B_object [("V", B_int id)])))
  | Evt_view_data session req rows => (session, mk_message mdv_msg_rowset_id req (binn_bytes (B_object [("R", rows)])))
  end.

(** The sessions that an event is not for. *)
Lemma others_wp e l h (Q : Z -> hub K -> Prop) :
  (forall t, e <> Evt_topology t) -> Forall (fun i => exists x, hb_users h !! i = Some x /\ mdv_uuid_cmp (reply_doc e).1 (us_session x) <> 0%Z) l -> Q (code MDV_OK) h ->
  wp mem (notify_users fuel is_empty l e (code MDV_OK)) h Q.
Proof.
  intros He Hl HQ. induction Hl as [|i l (x & Hx & Hc) _ IH]; cbn [notify_users]; [by wp_step|]. wp_step. destruct e as [t|session req err text|session req id|session req rows]; [by destruct (He t)|..];
    cbn [mdv_user_handlers reply_doc fst] in *; [unfold mdv_user_evt_status|unfold mdv_user_evt_view|unfold mdv_user_evt_view_data]; unfold user_at; wp_steps; (eapply wp_lift; [by rewrite Hx|]);
    (destruct (Z.eqb_spec (mdv_uuid_cmp session (us_session x)) 0); [done|]); cbn [negb]; wp_step; exact IH.
Qed.

Lemma publish_sends e h (Q : Z -> hub K -> Prop) :
  (forall t, e <> Evt_topology t) -> ready h -> sinks_ok (hb_users h) -> (forall u, hb_users h !! 0 = Some u -> us_session u = (reply_doc e).1) -> Msg.message_ok (reply_doc e).2 ->
  (forall h', sends h h' (reply_doc e).2 -> Q (code MDV_OK) h') -> wp mem (publish_reply fuel is_empty e) h Q.
Proof.
  intros He Hr Hs Hsess Hm HQ. pose proof Hr as (u & Hu & Hw & Hown). specialize (Hsess u Hu). unfold publish_reply. wp_steps.
  destruct (hb_users h) as [|u0 l] eqn:El; [done|]. cbn in Hu. injection Hu as ->. cbn [length seq notify_users]. wp_step.
  assert (Hrest : forall h', sends h h' (reply_doc e).2 -> wp mem (notify_users fuel is_empty (seq 1 (length l)) e (code MDV_OK)) h' Q).
  { intros h' Hse. apply others_wp; [done| |by apply HQ]. apply Forall_forall. intros i Hi. apply elem_of_seq in Hi. destruct Hse as ((_ & _ & Hid & _) & _). rewrite El in Hid.
    destruct (lookup_lt_is_Some_2 (hb_users h') i) as [x Hx]; [apply (f_equal length) in Hid; rewrite !length_fmap in Hid; rewrite Hid; cbn; lia|]. exists x. split; [done|].
    destruct ((u :: l) !! i) as [y|] eqn:Ey; [|apply lookup_ge_None in Ey; cbn in Ey; lia]. assert (Exy : identity x = identity y).
    { apply (f_equal (.!! i)) in Hid. rewrite !list_lookup_fmap, Hx, Ey in Hid. by apply (inj Some) in Hid. }
    injection Exy as Es _ _. rewrite Es, <- Hsess. intros Hc%mdv_uuid_cmp_eq. pose proof (Hown i y Ey (eq_sym Hc)). lia. }
  assert (Hu' : hb_users h !! 0 = Some u) by (by rewrite El). rewrite <- El in Hs.
  destruct e as [t|session req err text|session req id|session req rows]; [by destruct (He t)|..]; cbn [mdv_user_handlers reply_doc fst snd] in *;
    [unfold mdv_user_evt_status|unfold mdv_user_evt_view|unfold mdv_user_evt_view_data]; unfold user_at; wp_steps; (eapply wp_lift; [by rewrite Hu'|]); rewrite Hsess, (proj2 (mdv_uuid_cmp_eq _ _) eq_refl); cbn [Z.eqb negb].
  - eapply doc_reply_sends; [apply makes_status|done..|]. exact Hrest.
  - eapply doc_reply_sends; [apply makes_view|done..|]. exact Hrest.
  - eapply doc_reply_sends; [apply makes_msg_rowset|done..|]. exact Hrest.
Qed.

End Replies.
End User.
