(* ===== verification/Fetcher.v ===== *)
(** * Fetcher (src/mdv_core/mdv_fetcher.c)

    The part of the service that reads the tables for the clients.  A select makes a
    view of a table and registers it under a number; a fetch lets a job read the
    next page of the view with that number.  The results go to the session that
    asked, as events.

    Views have reference counters: the map of the registered views and every job hold
    a reference.  They live at addresses, [ft_heap], so that a view that was freed
    can be told from one that is used.  What the tables and their views do is the
    class [Views]. *)

From stdpp Require Import strings.
From S2P Require Import Prelude Bitset Uuid Hashmap Rollbacker Binn Topology Router Types Serialization Predicate Rowdata Tables Action Msg Messages User.
Import Bitset Uuid Hashmap Rollbacker Binn Topology Router Types Serialization Action Msg User.
#[local] Open Scope string_scope.
#[local] Open Scope nat_scope.
#[local] Open Scope list_scope.

Module Fetcher.

(** What the storages answer to the fetcher.  A pointer to a storage of rows is the
    identifier of its table. *)
Class Views (K V : Type) := {
  core_rowdata_get : mdv_uuid -> action K mdv_errno;
  core_rowdata_release : mdv_uuid -> action K unit;
  core_rowdata_view : mdv_uuid -> mdv_table -> mdv_bitset -> Predicate.mdv_predicate -> action K (option V);
  core_tables_get : action K mdv_errno;
  core_tables_release : action K unit;
  core_tables_view : mdv_bitset -> Predicate.mdv_predicate -> action K (option V);
  core_view_retain : V -> V;
  core_view_release : V -> action K (option V);
  core_view_fetch : V -> nat -> action K (V * option mdv_rowset)
}.

(** ** The state *)

(** [fv_view], [fc_view]: the address of the view. *)
Record mdv_fetcher_view := mk_fetcher_view { fv_id : Z; fv_view : nat; fv_last_access_time : Z }.

Record mdv_fetcher_context := mk_context { fc_session : mdv_uuid; fc_request_id : Z; fc_view : nat; fc_view_id : Z }.

(** [ft_jobs]: the jobs that wait for a thread; [ft_hub]: the rest of the service. *)
Record mdv_fetcher (K V : Type) := mk_fetcher {
  ft_rc : Z;
  ft_active_jobs : Z;
  ft_idgen : Z;
  ft_views : mdv_hashmap mdv_fetcher_view;
  ft_jobs : list mdv_fetcher_context;
  ft_heap : gmap nat V;
  ft_next : nat;
  ft_hub : hub K
}.
#[global] Arguments mk_fetcher {K V}.
#[global] Arguments ft_rc {K V}.
#[global] Arguments ft_active_jobs {K V}.
#[global] Arguments ft_idgen {K V}.
#[global] Arguments ft_views {K V}.
#[global] Arguments ft_jobs {K V}.
#[global] Arguments ft_heap {K V}.
#[global] Arguments ft_next {K V}.
#[global] Arguments ft_hub {K V}.

(** The calls of the rollback when the fetcher cannot be made. *)
Inductive ft_release_fn := Fn_ft_rollbacker_free | Fn_ft_free | Fn_ft_ebus_release | Fn_ft_mutex_free | Fn_ft_hashmap_release | Fn_ft_jobber_release.
Inductive ft_resource := Res_ft_rollbacker | Res_fetcher | Res_ft_ebus | Res_ft_mutex | Res_ft_views | Res_ft_jobber.

Definition ft_push (r : option (mdv_rollbacker ft_release_fn ft_resource)) (f : ft_release_fn) (x : ft_resource) :=
  snd (mdv_rollbacker_push r (mk_op f [x])).

Definition mdv_fetcher_create {K V} (mem_rbr mem mutex mem_map mem_buckets jobber subscribed : bool) (h : hub K)
  : mdv_fetcher K V + list (ft_release_fn * list ft_resource) :=
  let rbr := mdv_rollbacker_create mem_rbr Fn_ft_rollbacker_free Res_ft_rollbacker 5 in
  if negb mem then inr (mdv_rollback rbr) else
  let rbr := ft_push rbr Fn_ft_free Res_fetcher in
  let rbr := ft_push rbr Fn_ft_ebus_release Res_ft_ebus in
  if negb mutex then inr (mdv_rollback rbr) else
  let rbr := ft_push rbr Fn_ft_mutex_free Res_ft_mutex in
  match mdv_hashmap_create mem_map mem_buckets 8 0 4 with
  | None => inr (mdv_rollback rbr)
  | Some views =>
      let rbr := ft_push rbr Fn_ft_hashmap_release Res_ft_views in
      if negb jobber then inr (mdv_rollback rbr) else
      let rbr := ft_push rbr Fn_ft_jobber_release Res_ft_jobber in
      if negb subscribed then inr (mdv_rollback rbr) else inl (mk_fetcher 1 0 0 views [] ∅ 0 h)
  end.

Definition mdv_u32_hash (v : Z) : Z := u32 v.
Definition mdv_u32_cmp (a b : Z) : Z := i32 (a - b).
Definition view_key : HashKey Z := {| hash_fn := mdv_u32_hash; key_cmp_fn := mdv_u32_cmp |}.
#[local] Existing Instance view_key.

(** The bytes of a text. *)
Definition text (s : string) : bytes := (fun c => Z.of_N (Ascii.N_of_ascii c)) <$> String.list_ascii_of_string s.

Section Fetcher.
Context `{Binn} {K V : Type} `{Core K, Views K V}.

(** [batch_size]: rows of a page; [clock]: the time; the others as in [User]. *)
Context (fuel : nat) (is_empty : mdv_topology -> bool) (batch_size : nat) (clock : Z).

Abbreviation fetcher := (mdv_fetcher K V).
Abbreviation fa := (action (mdv_fetcher K V)).

Definition set_rc (s : fetcher) (rc : Z) : fetcher :=
  mk_fetcher rc (ft_active_jobs s) (ft_idgen s) (ft_views s) (ft_jobs s) (ft_heap s) (ft_next s) (ft_hub s).
Definition set_active (s : fetcher) (n : Z) : fetcher :=
  mk_fetcher (ft_rc s) n (ft_idgen s) (ft_views s) (ft_jobs s) (ft_heap s) (ft_next s) (ft_hub s).
Definition set_idgen (s : fetcher) (n : Z) : fetcher :=
  mk_fetcher (ft_rc s) (ft_active_jobs s) n (ft_views s) (ft_jobs s) (ft_heap s) (ft_next s) (ft_hub s).
Definition set_views (s : fetcher) (x : mdv_hashmap mdv_fetcher_view) : fetcher :=
  mk_fetcher (ft_rc s) (ft_active_jobs s) (ft_idgen s) x (ft_jobs s) (ft_heap s) (ft_next s) (ft_hub s).
Definition set_jobs (s : fetcher) (l : list mdv_fetcher_context) : fetcher :=
  mk_fetcher (ft_rc s) (ft_active_jobs s) (ft_idgen s) (ft_views s) l (ft_heap s) (ft_next s) (ft_hub s).
Definition set_heap (s : fetcher) (h : gmap nat V) (next : nat) : fetcher :=
  mk_fetcher (ft_rc s) (ft_active_jobs s) (ft_idgen s) (ft_views s) (ft_jobs s) h next (ft_hub s).
Definition set_hub (s : fetcher) (h : hub K) : fetcher :=
  mk_fetcher (ft_rc s) (ft_active_jobs s) (ft_idgen s) (ft_views s) (ft_jobs s) (ft_heap s) (ft_next s) h.

(** Events for the tables and for the sessions. *)
Definition in_core {A} (m : action K A) : fa A := zoom ft_hub set_hub (User.in_core m).
Definition publish (e : reply_event) : fa Z := zoom ft_hub set_hub (publish_reply fuel is_empty e).

(** ** Views at addresses *)

Definition view_at (a : nat) : fa V := s ← get; lift (deref (ft_heap s !! a)).
Definition put_view (a : nat) (v : V) : fa unit := s ← get; put (set_heap s (<[a := v]> (ft_heap s)) (ft_next s)).

Definition new_view (v : V) : fa nat :=
  s ← get; put (set_heap s (<[ft_next s := v]> (ft_heap s)) (S (ft_next s)));; mret (ft_next s).

Definition retain_view (a : nat) : fa unit := v ← view_at a; put_view a (core_view_retain v).

Definition release_view (a : nat) : fa unit :=
  v ← view_at a;
  r ← in_core (core_view_release v);
  s ← get;
  put (set_heap s (match (r : option V) with Some v => <[a := v]> (ft_heap s) | None => delete a (ft_heap s) end) (ft_next s)).

(** ** Storages *)

(** Was the storage found?  It has a reference more. *)
Definition mdv_fetcher_rowdata (table_id : mdv_uuid) : fa bool :=
  evt ← ask;
  if (evt : bool) then err ← in_core (core_rowdata_get table_id); mret (bool_decide (err = MDV_OK)) else mret false.

Definition mdv_fetcher_table (table_id : mdv_uuid) : fa (option mdv_table) :=
  evt ← ask;
  if (evt : bool) then
    x ← in_core (core_table_get table_id);
    mret (if decide (x.1 = MDV_OK) then x.2 else None)
  else mret None.

Definition mdv_fetcher_tables : fa bool :=
  evt ← ask;
  if (evt : bool) then err ← in_core core_tables_get; mret (bool_decide (err = MDV_OK)) else mret false.

(** ** The map of the views *)

Definition find_view (view_id : Z) : fa (option mdv_fetcher_view) :=
  s ← get; lift (deref (mdv_hashmap_find fv_id (ft_views s) view_id)).

(** The view has a reference more. *)
Definition mdv_fetcher_view_find (view_id : Z) : fa (option nat) :=
  lock ← ask;
  if (lock : bool) then
    x ← find_view view_id;
    match (x : option mdv_fetcher_view) with
    | Some x => retain_view (fv_view x);; mret (Some (fv_view x))
    | None => mret None
    end
  else mret None.

(** The error and the number of the view. *)
Definition mdv_fetcher_view_register (view : nat) : fa (mdv_errno * option Z) :=
  lock ← ask;
  if (lock : bool) then
    s ← get;
    let id := ft_idgen s in
    put (set_idgen s (u32 (id + 1)));;
    retain_view view;;
    m1 ← ask; m2 ← ask;
    s ← get;
    r ← lift (deref (mdv_hashmap_insert fv_id m1 m2 (ft_views s) (mk_fetcher_view id view clock) 24));
    put (set_views s r.2);;
    match r.1 with
    | None => release_view view;; mret (MDV_NO_MEM, None)
    | Some _ => mret (MDV_OK, Some id)
    end
  else mret (MDV_FAILED, None).

Definition mdv_fetcher_view_unregister (view_id : Z) : fa unit :=
  lock ← ask;
  if (lock : bool) then
    x ← find_view view_id;
    match (x : option mdv_fetcher_view) with
    | Some x =>
        release_view (fv_view x);;
        s ← get;
        r ← lift (deref (mdv_hashmap_erase fv_id (ft_views s) view_id));
        put (set_views s r.2)
    | None => mret tt
    end
  else mret tt.

(** ** Selects *)

(** The new view, at its address, or the text of the error. *)
Definition mdv_fetcher_rowdata_view_create (table : mdv_table) (fields : mdv_bitset) (predicate : Predicate.mdv_predicate) : fa (nat + bytes) :=
  ok ← mdv_fetcher_rowdata (tb_id table);
  if (ok : bool) then
    view ← in_core (core_rowdata_view (tb_id table) table fields predicate);
    r ← (match (view : option V) with
         | Some v => a ← new_view v; mret (inl a)
         | None => mret (inr (text "View creation failed"))
         end);
    in_core (core_rowdata_release (tb_id table));; mret r
  else mret (inr (text "Rowdata storage not found")).

Definition mdv_fetcher_tables_view_create (fields : mdv_bitset) (predicate : Predicate.mdv_predicate) : fa (nat + bytes) :=
  ok ← mdv_fetcher_tables;
  if (ok : bool) then
    view ← in_core (core_tables_view fields predicate);
    r ← (match (view : option V) with
         | Some v => a ← new_view v; mret (inl a)
         | None => mret (inr (text "View creation failed"))
         end);
    in_core core_tables_release;; mret r
  else mret (inr (text "Tables storage not found")).

(** [mdv_predicate_parse(filter)], with the answers of the allocator. *)
Definition parse_filter (filter : bytes) : fa (option Predicate.mdv_predicate) :=
  m1 ← ask; m2 ← ask; m3 ← ask; m4 ← ask; m5 ← ask;
  r ← lift (Predicate.mdv_predicate_parse (Predicate.mk_parse_mem m1 m2 m3 m4 m5) (Some filter));
  mret r.1.

(** The view that was made is registered, or the error passed on. *)
Definition register_view (view : nat + bytes) : fa (mdv_errno * bytes * option Z) :=
  match view with
  | inl view =>
      r ← mdv_fetcher_view_register view;
      release_view view;;
      mret (r.1, if decide (r.1 = MDV_OK) then [] else text "View registration failed", r.2)
  | inr message => mret (MDV_FAILED, message, None)
  end.

(** The error with its text, the number of the view. *)
Definition mdv_fetcher_view_create (table_id : mdv_uuid) (fields : mdv_bitset) (filter : bytes) : fa (mdv_errno * bytes * option Z) :=
  table ← mdv_fetcher_table table_id;
  match (table : option mdv_table) with
  | None => mret (MDV_FAILED, text "Table not found", None)
  | Some table =>
      predicate ← parse_filter filter;
      r ← (match (predicate : option Predicate.mdv_predicate) with
           | None => mret (MDV_FAILED, text "Rows filter is incorrect", None)
           | Some predicate =>
               view ← (if (mdv_uuid_cmp Tables.MDV_SYSTBL_TABLES table_id =? 0)%Z
                       then mdv_fetcher_tables_view_create fields predicate
                       else mdv_fetcher_rowdata_view_create table fields predicate);
               register_view view
           end);
      in_core (core_table_release table);; mret r
  end.

(** A status for the session that asked. *)
Definition publish_status (session : mdv_uuid) (request_id err : Z) (message : bytes) : fa Z :=
  evt ← ask;
  if (evt : bool) then publish (Evt_status session request_id err message) else mret err.

(** The number of a view that was not registered is [~0u]. *)
Definition mdv_fetcher_evt_select (session : mdv_uuid) (request_id : Z) (table : mdv_uuid) (fields : mdv_bitset) (filter : bytes) : fa Z :=
  r ← mdv_fetcher_view_create table fields filter;
  let '(err, message, view_id) := r in
  (if decide (err = MDV_OK) then
     evt ← ask;
     if (evt : bool) then publish (Evt_view session request_id (default (2 ^ 32 - 1)%Z view_id)) else mret (code err)
   else publish_status session request_id err message);;
  mret (code MDV_OK).

(** ** Fetches *)

Definition mdv_fetcher_retain : fa unit := s ← get; put (set_rc s (rc_retain (ft_rc s))).

(** [while(active_jobs > 0) mdv_sleep(100)]: the thread that waits is given [spins]
    rounds, in which no other thread ends a job. *)
Fixpoint wait_jobs (spins : nat) : fa unit :=
  match spins with
  | 0 => lift OutOfFuel
  | S spins => s ← get; if (0 <? ft_active_jobs s)%Z then wait_jobs spins else mret tt
  end.

Fixpoint release_views (l : list mdv_fetcher_view) : fa unit :=
  match l with [] => mret tt | x :: l => release_view (fv_view x);; release_views l end.

Definition mdv_fetcher_free (spins : nat) : fa unit :=
  wait_jobs spins;; s ← get; release_views (mdv_hashmap_foreach (ft_views s)).

(** The returned count. *)
Definition mdv_fetcher_release (spins : nat) : fa Z :=
  s ← get;
  let '(rc, refs, dead) := rc_release (ft_rc s) in
  put (set_rc s rc);;
  if (dead : bool) then mdv_fetcher_free spins;; mret refs else mret refs.

(** The body of a job. *)
Definition mdv_fetcher_fn (ctx : mdv_fetcher_context) : fa unit :=
  v ← view_at (fc_view ctx);
  x ← in_core (core_view_fetch v batch_size);
  put_view (fc_view ctx) x.1;;
  r ← (match x.2 with
       | Some rowset =>
           list ← write (mdv_binn_rowset (S (length (rs_rows rowset))) rowset);
           match (list : option binn) with
           | Some list =>
               evt ← ask;
               if (evt : bool) then err ← publish (Evt_view_data (fc_session ctx) (fc_request_id ctx) list); mret (err, [])
               else mret (code MDV_FAILED, [])
           | None => mret (code MDV_FAILED, text "Rowset serialization failed")
           end
       | None => mdv_fetcher_view_unregister (fc_view_id ctx);; mret (code MDV_FAILED, [])
       end);
  if (r.1 =? MDV_OK)%Z then mret tt
  else publish_status (fc_session ctx) (fc_request_id ctx) r.1 r.2;; mret tt.

(** The fetcher is released before the counter of its jobs is decremented. *)
Definition mdv_fetcher_finalize (spins : nat) (ctx : mdv_fetcher_context) : fa unit :=
  release_view (fc_view ctx);;
  mdv_fetcher_release spins;;
  s ← get;
  put (set_active s (u64 (ft_active_jobs s - 1))).

(** The error and its text. *)
Definition mdv_fetcher_job_emit (spins : nat) (session : mdv_uuid) (request_id view_id : Z) : fa (mdv_errno * bytes) :=
  view ← mdv_fetcher_view_find view_id;
  match (view : option nat) with
  | None => mret (MDV_FAILED, text "View not found")
  | Some view =>
      job ← ask;
      if (job : bool) then
        mdv_fetcher_retain;;
        push ← ask;
        if (push : bool) then
          s ← get;
          put (set_active (set_jobs s (ft_jobs s ++ [mk_context session request_id view view_id])) (u64 (ft_active_jobs s + 1)));;
          mret (MDV_OK, [])
        else
          release_view view;;
          mdv_fetcher_release spins;;
          mret (MDV_FAILED, text "Data fetch job failed")
      else release_view view;; mret (MDV_NO_MEM, text "No memory for new data fetcher job")
  end.

Definition mdv_fetcher_evt_view_fetch (spins : nat) (session : mdv_uuid) (request_id view_id : Z) : fa Z :=
  r ← mdv_fetcher_job_emit spins session request_id view_id;
  if decide (r.1 = MDV_OK) then mret (code r.1) else publish_status session request_id r.1 r.2.

(** The table of the subscriptions of the fetcher. *)
Definition mdv_fetcher_handlers (spins : nat) (e : request_event) : fa Z :=
  match e with
  | Evt_select session request_id table fields filter => mdv_fetcher_evt_select session request_id table fields filter
  | Evt_view_fetch session request_id view_id => mdv_fetcher_evt_view_fetch spins session request_id view_id
  end.

(** ** Threads *)

(** Handlers and jobs as a whole, one after the other; [FetcherThreads] cuts them into
    the steps that run between those of other threads.  A thread of the bus takes the
    event [i] of those that wait in the queues. *)
Definition take_event (spins i : nat) : fa unit :=
  s ← get;
  e ← lift (deref (hb_requests (ft_hub s) !! i));
  put (set_hub s (set_requests (ft_hub s) (delete i (hb_requests (ft_hub s)))));;
  mdv_fetcher_handlers spins e;; mret tt.

(** A thread of the jobber takes the job [i]. *)
Definition take_job (spins i : nat) : fa unit :=
  s ← get;
  ctx ← lift (deref (ft_jobs s !! i));
  put (set_jobs s (delete i (ft_jobs s)));;
  mdv_fetcher_fn ctx;;
  mdv_fetcher_finalize spins ctx.

End Fetcher.

(** ** Safety *)

(** What the fetcher relies on: the storages stay in order whatever is asked, a
    table comes with [MDV_OK], a new view has one reference, and the pages have rows
    of their table. *)
Class ViewsLaws (K V : Type) `{Core K, Views K V} := {
  core_ok : K -> Prop;
  view_rc : V -> Z;
  table_get_law mem k id : core_ok k -> wp mem (core_table_get id) k (fun _ k' => core_ok k');
  table_release_law mem k t : core_ok k -> wp mem (core_table_release t) k (fun _ k' => core_ok k');
  rowdata_get_law mem k id : core_ok k -> wp mem (core_rowdata_get id) k (fun _ k' => core_ok k');
  rowdata_release_law mem k id : core_ok k -> wp mem (core_rowdata_release id) k (fun _ k' => core_ok k');
  tables_get_law mem k : core_ok k -> wp mem core_tables_get k (fun _ k' => core_ok k');
  tables_release_law mem k : core_ok k -> wp mem core_tables_release k (fun _ k' => core_ok k');
  rowdata_view_law mem k id t f p : core_ok k ->
    wp mem (core_rowdata_view id t f p) k (fun r k' => core_ok k' /\ forall v, r = Some v -> view_rc v = 1%Z);
  tables_view_law mem k f p : core_ok k ->
    wp mem (core_tables_view f p) k (fun r k' => core_ok k' /\ forall v, r = Some v -> view_rc v = 1%Z);
  retain_law v : (1 <= view_rc v < 2 ^ 32 - 1)%Z -> view_rc (core_view_retain v) = (view_rc v + 1)%Z;
  release_law mem k v : core_ok k -> (1 <= view_rc v < 2 ^ 32)%Z ->
    wp mem (core_view_release v) k (fun r k' => core_ok k' /\
      match r with Some v' => (1 < view_rc v)%Z /\ view_rc v' = (view_rc v - 1)%Z | None => view_rc v = 1%Z end);
  view_fetch_law mem k v count : core_ok k ->
    wp mem (core_view_fetch v count) k (fun r k' => core_ok k' /\ view_rc r.1 = view_rc v /\
      forall rs, r.2 = Some rs -> exists desc, desc_ok (tb_desc (rs_table rs)) desc /\ Forall (row_ok desc) (rs_rows rs))
}.

Section Safety.
Context `{Binn} {K V : Type} `{ViewsLaws K V}.
Context (fuel : nat) (is_empty : mdv_topology -> bool) (batch_size : nat) (clock : Z) (spins : nat) (mem : nat -> bool).

#[local] Instance view_key_ok : HashKeyOk Z.
Proof. exact uint32_key_ok. Qed.

Lemma view_keq (a b : Z) : fits 32 a -> fits 32 b -> keq a b <-> a = b.
Proof. exact (uint32_keq a b). Qed.

Abbreviation fetcher := (mdv_fetcher K V).

(** The references to the view at an address. *)
Definition refs (a : nat) (l : list nat) : Z := Z.of_nat (length (filter (eq a) l)).

(** Every view has as many references as are counted, and is freed without one. *)
Definition heap_ok (h : gmap nat V) (l : list nat) : Prop :=
  forall a, match h !! a with Some v => view_rc v = refs a l /\ (1 <= refs a l)%Z | None => refs a l = 0%Z end.

(** The map has the views [R]. *)
Definition map_ok (s : fetcher) (R : gmap Z nat) : Prop :=
  Hashmap.ready fv_id (ft_views s) 24
  /\ (forall id, fits 32 id -> fv_view <$> Hashmap.lookup fv_id (ft_views s) id = R !! id)
  /\ (forall id a, R !! id = Some a -> (0 <= id < ft_idgen s)%Z).

Definition held (R : gmap Z nat) (s : fetcher) : list nat := (map_to_list R).*2 ++ (fc_view <$> ft_jobs s).

(** [extra]: references to views of the thread that runs; [n]: its references to the
    fetcher, and the jobs of it that are counted.  The service has a reference to the
    fetcher, and every job one. *)
Record finv (s : fetcher) (R : gmap Z nat) (extra : list nat) (n : nat * Z) : Prop := {
  fi_heap : heap_ok (ft_heap s) (held R s ++ extra);
  fi_map : map_ok s R;
  fi_own : NoDup (map_to_list R).*2;
  fi_next : forall a, is_Some (ft_heap s !! a) -> a < ft_next s;
  fi_rc : ft_rc s = (1 + Z.of_nat (length (ft_jobs s) + n.1))%Z;
  fi_active : ft_active_jobs s = u64 (Z.of_nat (length (ft_jobs s)) + n.2);
  fi_core : core_ok (hb_core (ft_hub s));
  fi_users : sinks_ok fuel (hb_users (ft_hub s))
}.

(** References of threads, not more than can be counted. *)
Definition few (d : Z) (ex : list nat) : Prop := (Z.of_nat (length ex) <= 2 ^ 30 + d)%Z.
Definition few_refs (n : nat) : Prop := (Z.of_nat n <= 2 ^ 30)%Z.

(** Not more jobs than can be counted, and a number for a new view. *)
Definition room (s : fetcher) : Prop := (Z.of_nat (length (ft_jobs s)) < 2 ^ 31)%Z.
Definition has_number (s : fetcher) : Prop := (0 <= ft_idgen s < 2 ^ 32 - 1)%Z.

(** *** References *)

Lemma refs_cons a b l : refs a (b :: l) = ((if decide (a = b) then 1 else 0) + refs a l)%Z.
Proof. unfold refs. rewrite filter_cons. by destruct (decide (a = b)); cbn [length]; rewrite ?Nat2Z.inj_succ; lia. Qed.

Lemma refs_app a l1 l2 : refs a (l1 ++ l2) = (refs a l1 + refs a l2)%Z.
Proof. unfold refs. rewrite filter_app, length_app. lia. Qed.

Lemma refs_perm a l l' : l ≡ₚ l' -> refs a l = refs a l'.
Proof. intros Hp. unfold refs. by rewrite Hp. Qed.

Lemma refs_nonneg a l : (0 <= refs a l)%Z.
Proof. unfold refs. lia. Qed.

Lemma refs_length a l : (refs a l <= Z.of_nat (length l))%Z.
Proof. unfold refs. pose proof (length_filter (eq a) l). lia. Qed.

Lemma refs_in a l : a ∈ l -> (1 <= refs a l)%Z.
Proof. induction 1 as [a l|a b l _ IH]; rewrite refs_cons; [rewrite decide_True by done; pose proof (refs_nonneg a l)|case_decide]; lia. Qed.

Lemma refs_out a l : a ∉ l -> refs a l = 0%Z.
Proof. induction l as [|b l IH]; [done|]. intros [? ?]%not_elem_of_cons. rewrite refs_cons, decide_False, IH by done. done. Qed.

Lemma refs_nodup a l : NoDup l -> (refs a l <= 1)%Z.
Proof. induction 1 as [|b l Hb _ IH]; [done|]. rewrite refs_cons. case_decide as E; [|lia]. subst. rewrite refs_out by done. lia. Qed.

Lemma heap_ok_perm h l l' : l ≡ₚ l' -> heap_ok h l -> heap_ok h l'.
Proof. intros Hp Hh a. specialize (Hh a). by rewrite <- (refs_perm a l l' Hp). Qed.

Lemma heap_live h l a : heap_ok h l -> a ∈ l -> exists v, h !! a = Some v /\ view_rc v = refs a l.
Proof. intros Hh Ha. specialize (Hh a). apply refs_in in Ha. destruct (h !! a) as [v|]; [|lia]. exists v. split; [done|apply Hh]. Qed.

Lemma heap_retain h l a v : heap_ok h l -> h !! a = Some v -> (refs a l < 2 ^ 32 - 1)%Z -> heap_ok (<[a := core_view_retain v]> h) (a :: l).
Proof.
  intros Hh Ha Hb b. rewrite refs_cons. pose proof (Hh a) as Hla. rewrite Ha in Hla. destruct (decide (b = a)) as [->|Hne].
  - rewrite lookup_insert_eq, retain_law; lia.
  - rewrite lookup_insert_ne by done. apply Hh.
Qed.

Lemma heap_release h l a v r :
  heap_ok h (a :: l) -> h !! a = Some v -> match r with Some v' => (1 < view_rc v)%Z /\ view_rc v' = (view_rc v - 1)%Z | None => view_rc v = 1%Z end ->
  heap_ok (match r with Some v' => <[a := v']> h | None => delete a h end) l.
Proof.
  intros Hh Ha Hr b. pose proof (Hh b) as Hb. rewrite refs_cons in Hb. destruct (decide (b = a)) as [->|Hne].
  - rewrite Ha in Hb. destruct r as [v'|]; [rewrite lookup_insert_eq|rewrite lookup_delete_eq]; lia.
  - destruct r as [v'|]; [rewrite lookup_insert_ne by done|rewrite lookup_delete_ne by done]; exact Hb.
Qed.

Lemma heap_new h l a v : heap_ok h l -> h !! a = None -> view_rc v = 1%Z -> heap_ok (<[a := v]> h) (a :: l).
Proof.
  intros Hh Ha Hv b. rewrite refs_cons. pose proof (Hh b) as Hb. destruct (decide (b = a)) as [->|Hne].
  - rewrite lookup_insert_eq. rewrite Ha in Hb. lia.
  - rewrite lookup_insert_ne by done. exact Hb.
Qed.

Lemma heap_write h l a v v' : heap_ok h l -> h !! a = Some v -> view_rc v' = view_rc v -> heap_ok (<[a := v']> h) l.
Proof.
  intros Hh Ha Hv b. pose proof (Hh b) as Hb. destruct (decide (b = a)) as [->|Hne].
  - rewrite lookup_insert_eq. rewrite Ha in Hb. by rewrite Hv.
  - by rewrite lookup_insert_ne.
Qed.

Lemma views_held_bound s R ex n a : finv s R ex n -> room s -> few 4 ex -> (refs a (held R s ++ ex) < 2 ^ 32 - 1)%Z.
Proof.
  intros Hi Hj Hx. unfold room in Hj. unfold few in Hx. unfold held. rewrite !refs_app. pose proof (refs_nodup a _ (fi_own _ _ _ _ Hi)). pose proof (refs_length a (fc_view <$> ft_jobs s)) as Hl.
  rewrite length_fmap in Hl. pose proof (refs_length a ex). lia.
Qed.

(** *** The parts of the functions *)

Definition with_core (s : fetcher) (k : K) : fetcher := set_hub s (set_core (ft_hub s) k).

Lemma in_core_wp {A} (m : action K A) s (Q : A -> fetcher -> Prop) :
  wp mem m (hb_core (ft_hub s)) (fun a k => Q a (with_core s k)) -> wp mem (in_core m) s Q.
Proof. intros Hm. unfold in_core, User.in_core. apply wp_zoom, wp_zoom. exact Hm. Qed.

Lemma finv_core s R ex n k : finv s R ex n -> core_ok k -> finv (with_core s k) R ex n.
Proof. intros Hi Hk. by destruct Hi. Qed.

Lemma finv_hub s R ex n h : finv s R ex n -> quiet fuel (ft_hub s) h -> finv (set_hub s h) R ex n.
Proof. intros [I1 I2 I3 I4 I5 I6 I7 I8] (E1 & E2 & E3 & E4). split; try done; cbn; [by rewrite E1|auto]. Qed.

Lemma finv_perm s R ex ex' n : ex ≡ₚ ex' -> finv s R ex n -> finv s R ex' n.
Proof. intros Hp [I1 I2 I3 I4 I5 I6 I7 I8]. split; try done. eapply heap_ok_perm; [|exact I1]. by rewrite Hp. Qed.

Lemma room_like s s' : room s -> ft_jobs s' = ft_jobs s -> room s'.
Proof. intros Hr E. unfold room. by rewrite E. Qed.

(** An event for the storages that leaves them in order. *)
Lemma core_wp {A} (m : action K A) s R ex n (P : A -> Prop) (Q : A -> fetcher -> Prop) :
  finv s R ex n -> (forall k, core_ok k -> wp mem m k (fun a k' => core_ok k' /\ P a)) ->
  (forall a k, P a -> finv (with_core s k) R ex n -> Q a (with_core s k)) -> wp mem (in_core m) s Q.
Proof.
  intros Hi Hm HQ. apply in_core_wp. eapply wp_mono; [apply Hm; by destruct Hi|]. cbn beta. intros a k [Hk HP]. apply HQ; [done|]. by apply finv_core.
Qed.

Lemma publish_event_wp e s R ex n (Q : Z -> fetcher -> Prop) :
  finv s R ex n -> (forall t, e <> Evt_topology t) ->
  (forall err h, quiet fuel (ft_hub s) h -> finv (set_hub s h) R ex n -> Q err (set_hub s h)) -> wp mem (publish fuel is_empty e) s Q.
Proof.
  intros Hi He HQ. unfold publish. apply wp_zoom. apply publish_any; [done|by destruct Hi|]. intros err h Hq. apply HQ; [done|]. by apply finv_hub.
Qed.

Lemma status_wp session req err message s R ex n (Q : Z -> fetcher -> Prop) :
  finv s R ex n -> (forall e h, quiet fuel (ft_hub s) h -> finv (set_hub s h) R ex n -> Q e (set_hub s h)) ->
  wp mem (publish_status fuel is_empty session req err message) s Q.
Proof.
  intros Hi HQ. unfold publish_status. wp_step. wp_step. destruct b; [by eapply publish_event_wp|]. wp_step.
  assert (E : set_hub s (ft_hub s) = s) by (by destruct s). rewrite <- E. apply HQ; [done|by rewrite E].
Qed.

Lemma retain_view_wp a s R ex n (Q : unit -> fetcher -> Prop) :
  finv s R ex n -> room s -> few 4 ex -> a ∈ held R s ++ ex ->
  (forall v, ft_heap s !! a = Some v -> let s' := set_heap s (<[a := core_view_retain v]> (ft_heap s)) (ft_next s) in finv s' R (a :: ex) n -> Q tt s') ->
  wp mem (retain_view a) s Q.
Proof.
  intros Hi Hr Hx Ha HQ. destruct (heap_live _ _ _ (fi_heap _ _ _ _ Hi) Ha) as (v & Hv & _). unfold retain_view, view_at, put_view. wp_steps. eapply wp_lift; [by rewrite Hv|]. wp_steps.
  apply (HQ v Hv). pose proof (views_held_bound s R ex n a Hi Hr Hx) as Hb. destruct Hi as [I1 I2 I3 I4 I5 I6 I7 I8]. split; try done; cbn [ft_heap set_heap ft_next].
  - change (held R (set_heap s (<[a:=core_view_retain v]> (ft_heap s)) (ft_next s))) with (held R s). eapply heap_ok_perm; [|by apply (heap_retain _ (held R s ++ ex) a v)]. by rewrite Permutation_middle.
  - intros b [x Hx']. destruct (decide (b = a)) as [->|Hne]; [by apply I4|]. apply I4. rewrite lookup_insert_ne in Hx' by done. by exists x.
Qed.

(** What a release leaves: the other views are as before, and the view itself unless
    it was freed. *)
Definition released (s s' : fetcher) (a : nat) : Prop :=
  exists k v r, ft_heap s !! a = Some v /\ s' = set_heap (with_core s k) (match r with Some v' => <[a := v']> (ft_heap s) | None => delete a (ft_heap s) end) (ft_next s)
    /\ exists m i j, core_view_release v m i (hb_core (ft_hub s)) = Done (r, j, k).

Lemma release_heap_wp a s l (Q : unit -> fetcher -> Prop) :
  heap_ok (ft_heap s) (a :: l) -> (refs a (a :: l) < 2 ^ 32)%Z -> core_ok (hb_core (ft_hub s)) ->
  (forall s', released s s' a -> heap_ok (ft_heap s') l -> core_ok (hb_core (ft_hub s')) -> Q tt s') -> wp mem (release_view a) s Q.
Proof.
  intros Hh Hb Hc HQ. destruct (heap_live _ _ a Hh) as (v & Hv & Hrc); [by left|]. unfold release_view, view_at. wp_steps. eapply wp_lift; [by rewrite Hv|]. wp_step. apply in_core_wp.
  assert (Hge : (1 <= view_rc v < 2 ^ 32)%Z) by (rewrite Hrc; split; [apply refs_in; by left|lia]).
  assert (Hw : wp mem (core_view_release v) (hb_core (ft_hub s)) (fun r k => (core_ok k /\ match r with Some v' => (1 < view_rc v)%Z /\ view_rc v' = (view_rc v - 1)%Z | None => view_rc v = 1%Z end)
    /\ exists m i j, core_view_release v m i (hb_core (ft_hub s)) = Done (r, j, k))).
  { intros i. destruct (release_law mem _ v Hc Hge i) as (r & j & k & E & HQ'). exists r, j, k. split; [done|]. split; [done|]. by exists mem, i, j. }
  eapply wp_mono; [exact Hw|]. cbn beta. intros r k [[Hk Hr'] Hrun]. wp_steps. apply HQ; [|by eapply heap_release|done]. exists k, v, r. split; [done|]. split; [by destruct r|done].
Qed.

Lemma released_next s s' a : released s s' a -> (forall b, is_Some (ft_heap s !! b) -> b < ft_next s) -> forall b, is_Some (ft_heap s' !! b) -> b < ft_next s'.
Proof.
  intros (k & v & r & Hv & -> & _) Hn b [x Hx]. apply Hn. cbn in Hx. destruct r as [v'|]; [destruct (decide (b = a)) as [->|Hne]; [by exists v|rewrite lookup_insert_ne in Hx by done; by exists x]|].
  apply lookup_delete_Some in Hx as [_ Hx]. by exists x.
Qed.

Lemma release_view_wp a s R ex n (Q : unit -> fetcher -> Prop) :
  finv s R (a :: ex) n -> room s -> few 3 ex ->
  (forall s', released s s' a -> finv s' R ex n -> Q tt s') -> wp mem (release_view a) s Q.
Proof.
  intros Hi Hr Hx HQ. pose proof (views_held_bound s R (a :: ex) n a Hi Hr ltac:(unfold few in *; cbn; lia)) as Hb. destruct Hi as [I1 I2 I3 I4 I5 I6 I7 I8].
  assert (Hp : held R s ++ a :: ex ≡ₚ a :: held R s ++ ex) by (by rewrite Permutation_middle). rewrite (refs_perm _ _ _ Hp) in Hb.
  eapply release_heap_wp; [eapply heap_ok_perm; [exact Hp|exact I1]|lia|done|]. intros s' Hrel Hh Hc. apply HQ; [done|]. pose proof (released_next _ _ _ Hrel I4).
  destruct Hrel as (k & v & r & _ & -> & _). by split.
Qed.

Lemma new_view_wp v s R ex n (Q : nat -> fetcher -> Prop) :
  finv s R ex n -> view_rc v = 1%Z ->
  (let s' := set_heap s (<[ft_next s := v]> (ft_heap s)) (S (ft_next s)) in finv s' R (ft_next s :: ex) n -> ft_next s ∉ (map_to_list R).*2 -> Q (ft_next s) s') -> wp mem (new_view v) s Q.
Proof.
  intros Hi Hv HQ. unfold new_view. wp_steps. assert (Hnone : ft_heap s !! ft_next s = None).
  { destruct (ft_heap s !! ft_next s) as [x|] eqn:E; [|done]. pose proof (fi_next _ _ _ _ Hi (ft_next s)) as Hn. rewrite E in Hn. pose proof (Hn ltac:(by exists x)). lia. }
  pose proof Hi as [I1 I2 I3 I4 I5 I6 I7 I8]. apply HQ.
  - split; try done; cbn [ft_heap set_heap ft_next].
    + change (held R (set_heap _ _ _)) with (held R s). eapply heap_ok_perm; [|by apply (heap_new _ (held R s ++ ex) (ft_next s) v)]. by rewrite Permutation_middle.
    + intros b [x Hx]. destruct (decide (b = ft_next s)) as [->|Hne]; [lia|]. rewrite lookup_insert_ne in Hx by done. pose proof (I4 b ltac:(by exists x)). lia.
  - intros Hin. pose proof (refs_in (ft_next s) (held R s ++ ex)) as Hr. specialize (I1 (ft_next s)). rewrite Hnone in I1. rewrite I1 in Hr.
    assert (Hm : ft_next s ∈ held R s ++ ex) by (unfold held; rewrite !elem_of_app; auto). specialize (Hr Hm). lia.
Qed.

(** *** The map of the views *)

(** The jobs, the sessions and the queues are as before. *)
Definition frame (s s' : fetcher) : Prop :=
  ft_jobs s' = ft_jobs s /\ hb_users (ft_hub s') = hb_users (ft_hub s) /\ hb_requests (ft_hub s') = hb_requests (ft_hub s).

#[global] Instance frame_preorder : PreOrder frame.
Proof. split; [by intros s|]. intros s1 s2 s3 (A1 & A2 & A3) (B1 & B2 & B3). split_and!; congruence. Qed.

Lemma frame_core s k : frame s (with_core s k).
Proof. done. Qed.

Lemma frame_released s s' a : released s s' a -> frame s s'.
Proof. by intros (k & v & r & _ & -> & _). Qed.

Lemma frame_room s s' : frame s s' -> room s -> room s'.
Proof. intros (E & _) Hr. by eapply room_like. Qed.

Lemma find_view_wp id s R ex n (Q : option mdv_fetcher_view -> fetcher -> Prop) :
  finv s R ex n -> fits 32 id ->
  (forall x, fv_view <$> x = R !! id -> (forall y, x = Some y -> Hashmap.lookup fv_id (ft_views s) id = Some y) -> Q x s) -> wp mem (find_view id) s Q.
Proof.
  intros Hi Hid HQ. destruct (fi_map _ _ _ _ Hi) as (Hw & Hl & _). unfold find_view. wp_steps. eapply wp_lift; [by rewrite (find_lookup fv_id _ _ (proj1 Hw))|].
  apply HQ; [by apply Hl|done].
Qed.

Lemma in_held R s id a : R !! id = Some a -> a ∈ held R s.
Proof. intros E. unfold held. rewrite elem_of_app. left. apply list_elem_of_fmap. exists (id, a). split; [done|]. by apply elem_of_map_to_list. Qed.

Lemma view_find_wp id s R ex n (Q : option nat -> fetcher -> Prop) :
  finv s R ex n -> room s -> few 4 ex -> fits 32 id -> ((granted mem -> R !! id = None) -> Q None s) ->
  (forall a v, R !! id = Some a -> ft_heap s !! a = Some v -> let s' := set_heap s (<[a := core_view_retain v]> (ft_heap s)) (ft_next s) in finv s' R (a :: ex) n -> Q (Some a) s') -> wp mem (mdv_fetcher_view_find id) s Q.
Proof.
  intros Hi Hr Hex Hid HN HS. unfold mdv_fetcher_view_find. wp_step. wp_step. destruct b; [|wp_step; apply HN; intros Hg; by specialize (Hb Hg)]. wp_step. eapply find_view_wp; [done..|].
  intros [x|] Hx _; cbn in Hx; [|cbn iota; wp_step; by apply HN].
  wp_step. eapply (retain_view_wp (fv_view x)); [done|done|done|rewrite elem_of_app; left; by eapply in_held|]. intros v Hv s' Hi'. wp_step. by eapply HS.
Qed.

(** A new number: the map gets the view, which gets the reference of the map. *)
Lemma map_ok_insert s R id a hm : map_ok s R -> id = ft_idgen s -> has_number s -> Hashmap.ready fv_id hm 24 ->
  (forall k, ~ keq id k -> Hashmap.lookup fv_id hm k = Hashmap.lookup fv_id (ft_views s) k) ->
  (forall k, keq id k -> fv_view <$> Hashmap.lookup fv_id hm k = Some a) ->
  R !! id = None /\ map_ok (set_views (set_idgen s (u32 (id + 1))) hm) (<[id := a]> R).
Proof.
  intros (Hw & Hl & Hb) -> Hg Hw' Hne He. unfold has_number in Hg. assert (Hfit : fits 32 (ft_idgen s)) by (unfold fits; lia). rewrite wrap_id by (unfold fits; lia). split.
  { destruct (R !! ft_idgen s) as [x|] eqn:E; [|done]. pose proof (Hb _ _ E). lia. }
  split_and!; [done| |].
  - intros k Hk. cbn [ft_views set_views]. destruct (decide (k = ft_idgen s)) as [->|Hd]; [rewrite lookup_insert_eq; apply He; by apply (view_keq _ _ Hfit Hfit)|].
    rewrite lookup_insert_ne by done. rewrite Hne; [by apply Hl|]. intros Hq. apply (view_keq (ft_idgen s) k Hfit Hk) in Hq. congruence.
  - intros k x Hx. cbn [ft_idgen set_views set_idgen]. destruct (decide (k = ft_idgen s)) as [->|Hd]; [lia|]. rewrite lookup_insert_ne in Hx by done. pose proof (Hb _ _ Hx). lia.
Qed.

Lemma finv_idgen s R ex n : finv s R ex n -> has_number s -> finv (set_idgen s (u32 (ft_idgen s + 1))) R ex n.
Proof.
  intros [I1 (Hw & Hl & Hb) I3 I4 I5 I6 I7 I8] Hg. unfold has_number in Hg. split; try done. split_and!; [done..|]. intros id a Ha. cbn. rewrite wrap_id by (unfold fits; lia). pose proof (Hb _ _ Ha). lia.
Qed.

(** A registration that failed leaves the map as it was. *)
Lemma map_ok_failed s R hm : map_ok s R -> has_number s -> Hashmap.ready fv_id hm 24 ->
  (forall k, ~ keq (ft_idgen s) k -> Hashmap.lookup fv_id hm k = Hashmap.lookup fv_id (ft_views s) k) ->
  (forall k, keq (ft_idgen s) k -> Hashmap.lookup fv_id hm k = None \/ Hashmap.lookup fv_id hm k = Hashmap.lookup fv_id (ft_views s) k) ->
  map_ok (set_views (set_idgen s (u32 (ft_idgen s + 1))) hm) R.
Proof.
  intros (Hw & Hl & Hb) Hg Hw' Hne He. unfold has_number in Hg. assert (Hfit : fits 32 (ft_idgen s)) by (unfold fits; lia). rewrite wrap_id by (unfold fits; lia). split_and!; [done| |].
  - intros k Hk. cbn [ft_views set_views]. rewrite <- Hl by done. destruct (decide (k = ft_idgen s)) as [->|Hd].
    + destruct (He (ft_idgen s)) as [-> | ->]; [by apply (view_keq _ _ Hfit Hfit)| |done]. destruct (R !! ft_idgen s) as [x|] eqn:E; [pose proof (Hb _ _ E); lia|]. by rewrite (Hl _ Hfit), E.
    + rewrite Hne; [done|]. intros Hq. apply (view_keq (ft_idgen s) k Hfit Hk) in Hq. congruence.
  - intros k x Hx. cbn [ft_idgen set_views set_idgen]. pose proof (Hb _ _ Hx). lia.
Qed.

(** The state after the registration of the view [v] at [a]. *)
Definition registered (s : fetcher) (a : nat) (v : V) (hm : mdv_hashmap mdv_fetcher_view) : fetcher :=
  set_views (set_heap (set_idgen s (u32 (ft_idgen s + 1))) (<[a := core_view_retain v]> (ft_heap s)) (ft_next s)) hm.

Lemma map_perm (R : gmap Z nat) (id : Z) (a : nat) : R !! id = None -> (map_to_list (<[id := a]> R)).*2 ≡ₚ a :: (map_to_list R).*2.
Proof. intros E. by rewrite (map_to_list_insert R id a E). Qed.

Lemma view_register_wp a s R ex n (Q : mdv_errno * option Z -> fetcher -> Prop) :
  finv s R (a :: ex) n -> room s -> few 2 ex -> has_number s -> a ∉ (map_to_list R).*2 ->
  (forall v hm, ft_heap s !! a = Some v -> finv (registered s a v hm) (<[ft_idgen s := a]> R) (a :: ex) n -> R !! ft_idgen s = None -> Q (MDV_OK, Some (ft_idgen s)) (registered s a v hm)) ->
  (~ granted mem -> forall err s', err <> MDV_OK -> finv s' R (a :: ex) n -> frame s s' -> Q (err, None) s') ->
  wp mem (mdv_fetcher_view_register clock a) s Q.
Proof.
  intros Hi Hr Hex Hg Ha HS HF. unfold mdv_fetcher_view_register. wp_step. wp_step. destruct b; [|wp_step; apply HF; [intros Hgr; by specialize (Hb Hgr)|done..]]. wp_step. wp_step. cbn zeta. do 2 wp_step.
  pose proof (finv_idgen _ _ _ _ Hi Hg) as Hi1. wp_step. eapply (retain_view_wp a); [exact Hi1|by eapply room_like|unfold few in *; cbn; lia|rewrite elem_of_app; right; by left|]. intros v Hv s2 Hi2.
  wp_step. wp_step. wp_step. wp_step. wp_step. wp_step. destruct (fi_map _ _ _ _ Hi) as (Hw & Hl & Hbd). wp_step.
  destruct (insert_any fv_id (ft_views s2) (mk_fetcher_view (ft_idgen s) a clock) 24 b b0 Hw) as (r & hm & E & Hw' & Hcase & Hgr & Hne & Hok & Hfail & _). eapply wp_lift; [by rewrite E|]. cbn [fst snd].
  wp_step. wp_step. change (ft_views s2) with (ft_views s) in *. cbn [fv_id] in *. destruct Hcase as [-> | ->].
  - cbn iota. wp_step. destruct (map_ok_insert s R (ft_idgen s) a hm (fi_map _ _ _ _ Hi) eq_refl Hg Hw' Hne) as [Hnone Hmap]; [intros k Hk; by rewrite (Hok eq_refl k Hk)|].
    apply HS; [done| |done]. destruct Hi2 as [I1 I2 I3 I4 I5 I6 I7 I8]. split; try done.
    + eapply heap_ok_perm; [|exact I1]. unfold held. cbn [ft_jobs set_views]. rewrite map_perm by done. cbn [app]. by rewrite <- !Permutation_middle.
    + rewrite map_perm by done. by constructor.
  - cbn iota. wp_step. assert (Hi3 : finv (set_views s2 hm) R (a :: a :: ex) n).
    { destruct Hi2 as [I1 I2 I3 I4 I5 I6 I7 I8]. split; try done. by apply (map_ok_failed s R hm (fi_map _ _ _ _ Hi)); [..|apply Hfail]. }
    eapply (release_view_wp a); [exact Hi3|by eapply room_like|unfold few in *; cbn; lia|]. intros s4 Hrel Hi4. wp_step. apply HF; [|done|done|].
    + intros Hg'. by pose proof (Hgr (Hb0 Hg') (Hb1 Hg')).
    + etrans; [|by eapply frame_released]. done.
Qed.

Lemma delete_perm (R : gmap Z nat) (id : Z) (a : nat) : R !! id = Some a -> (map_to_list R).*2 ≡ₚ a :: (map_to_list (delete id R)).*2.
Proof. intros E. by rewrite <- (map_to_list_delete R id a E). Qed.

Lemma map_ok_delete s R id hm : map_ok s R -> fits 32 id -> Hashmap.ready fv_id hm 24 ->
  (forall k, Hashmap.lookup fv_id hm k = if (key_cmp_fn id k =? 0)%Z then None else Hashmap.lookup fv_id (ft_views s) k) -> map_ok (set_views s hm) (delete id R).
Proof.
  intros (Hw & Hl & Hb) Hid Hw' He. split_and!; [done| |].
  - intros k Hk. cbn [ft_views set_views]. rewrite He. destruct (Z.eqb_spec (key_cmp_fn id k) 0) as [Hq|Hq].
    + apply (view_keq id k Hid Hk) in Hq as ->. by rewrite lookup_delete_eq.
    + rewrite lookup_delete_ne; [by apply Hl|]. intros ->. apply Hq. by apply (view_keq k k).
  - intros k x [_ Hx]%lookup_delete_Some. by apply Hb in Hx.
Qed.

Lemma unregister_wp id s R ex n (Q : unit -> fetcher -> Prop) :
  finv s R ex n -> room s -> few 3 ex -> fits 32 id ->
  (forall s', finv s' R ex n -> (granted mem -> R !! id = None) -> s' = s -> Q tt s') ->
  (forall a s' hm, R !! id = Some a -> released s s' a -> finv (set_views s' hm) (delete id R) ex n -> Q tt (set_views s' hm)) ->
  wp mem (mdv_fetcher_view_unregister id) s Q.
Proof.
  intros Hi Hr Hx Hid HN HS. unfold mdv_fetcher_view_unregister. wp_step. wp_step. destruct b; [|wp_step; apply HN; [done| |done]; intros Hg; by specialize (Hb Hg)].
  wp_step. eapply find_view_wp; [done..|]. intros [x|] Ex _; cbn in Ex; cbn iota; [|wp_step; by apply HN]. symmetry in Ex. set (a := fv_view x) in *.
  pose proof (views_held_bound s R ex n a Hi Hr ltac:(unfold few in *; lia)) as Hbd. pose proof Hi as [I1 I2 I3 I4 I5 I6 I7 I8].
  assert (Hp : held R s ++ ex ≡ₚ a :: held (delete id R) s ++ ex) by (unfold held; by rewrite (delete_perm R id a Ex)). rewrite (refs_perm _ _ _ Hp) in Hbd.
  wp_step. eapply release_heap_wp; [eapply heap_ok_perm; [exact Hp|exact I1]|lia|done|]. intros s' Hrel Hh Hc. pose proof (released_next _ _ _ Hrel I4) as Hnx.
  wp_step. wp_step. wp_step. assert (Ev : ft_views s' = ft_views s) by (by destruct Hrel as (k & v & r & _ & -> & _)).
  destruct (erase_ready fv_id (ft_views s') id 24) as (r & hm & E & Hw & Hl); [rewrite Ev; apply I2|]. eapply wp_lift; [by rewrite E|]. cbn [fst snd]. wp_step. eapply HS; [done..|].
  rewrite Ev in Hl. pose proof (map_ok_delete s R id hm I2 Hid Hw Hl) as Hm. pose proof (delete_perm R id a Ex) as Hd. rewrite Hd in I3. apply NoDup_cons in I3 as [_ I3].
  destruct Hrel as (k & v & r' & _ & -> & _). by split.
Qed.

(** *** Selects *)

(** What the storages answer when they are all asked for memory in vain, or not. *)
Section Create.
Context (P : option V -> Prop).

Definition makes_view (m : action K (option V)) : Prop :=
  forall k, core_ok k -> wp mem m k (fun r k' => core_ok k' /\ P r /\ forall v, r = Some v -> view_rc v = 1%Z).

(** After the storage was asked: the view is put at an address, the storage is
    released. *)
Lemma made_view_wp (m : action K (option V)) (release : action K unit) s R ex n (Q : nat + bytes -> fetcher -> Prop) :
  finv s R ex n -> makes_view m -> (forall k, core_ok k -> wp mem release k (fun _ k' => core_ok k')) ->
  (forall v s', P (Some v) -> finv s' R (ft_next s :: ex) n -> frame s s' -> ft_idgen s' = ft_idgen s -> ft_heap s' !! ft_next s = Some v -> ft_next s ∉ (map_to_list R).*2 -> Q (inl (ft_next s)) s') ->
  (forall text s', P None -> finv s' R ex n -> frame s s' -> Q (inr text) s') ->
  wp mem (view ← in_core m;
          r ← (match (view : option V) with Some v => a ← new_view v; mret (inl a) | None => mret (inr (text "View creation failed")) end);
          in_core release;; mret r) s Q.
Proof.
  intros Hi Hm Hrel HS HF. wp_step. eapply core_wp; [exact Hi|intros k Hk; exact (Hm k Hk)|]. cbn beta. intros r k [HP Hrc] Hi1. wp_step.
  assert (Hre : forall s1 R ex0 n (Q' : unit -> fetcher -> Prop), finv s1 R ex0 n -> (forall k, finv (with_core s1 k) R ex0 n -> Q' tt (with_core s1 k)) -> wp mem (in_core release) s1 Q').
  { intros s1 R1 ex1 n1 Q' Hi' HQ'. eapply (core_wp _ _ _ _ _ (fun _ => True)); [exact Hi'|intros k0 Hk0; eapply wp_mono; [by apply Hrel|done]|]. intros [] k0 _. apply HQ'. }
  destruct r as [v|].
  - wp_step. eapply new_view_wp; [exact Hi1|by apply Hrc|]. intros s2 Hi2 Hni. wp_step. wp_step. eapply Hre; [exact Hi2|]. intros k2 Hi3. wp_step. eapply HS; try done. cbn. by rewrite lookup_insert_eq.
  - wp_step. wp_step. eapply Hre; [exact Hi1|]. intros k2 Hi3. wp_step. by apply HF.
Qed.

End Create.

(** *** The registration of a view that was made *)

Section Register.
Context (P : V -> Prop) (Hretain : forall v, P v -> P (core_view_retain v))
  (Hrelease : forall v m i k r j k', P v -> core_view_release v m i k = Done (Some r, j, k') -> P r).

(** The view that is left with fewer references. *)
Lemma released_live s s' a : released s s' a -> (forall v, ft_heap s !! a = Some v -> P v) -> forall v, ft_heap s' !! a = Some v -> P v.
Proof.
  intros (k & v & r & Hv & -> & (m & i & j & Er)) HP x Hx. cbn in Hx. destruct r as [v'|]; [|by rewrite lookup_delete_eq in Hx]. rewrite lookup_insert_eq in Hx. injection Hx as ->.
  eapply Hrelease; [by apply HP|exact Er].
Qed.

Lemma register_view_wp a v s R n (Q : mdv_errno * bytes * option Z -> fetcher -> Prop) :
  finv s R [a] n -> room s -> has_number s -> a ∉ (map_to_list R).*2 -> ft_heap s !! a = Some v -> P v ->
  (forall s' v', finv s' (<[ft_idgen s := a]> R) [] n -> frame s s' -> R !! ft_idgen s = None -> ft_idgen s' = (ft_idgen s + 1)%Z -> ft_heap s' !! a = Some v' -> P v' -> Q (MDV_OK, [], Some (ft_idgen s)) s') ->
  (~ granted mem -> forall err text s', err <> MDV_OK -> finv s' R [] n -> frame s s' -> Q (err, text, None) s') ->
  wp mem (register_view clock (inl a)) s Q.
Proof.
  intros Hi Hr Hg Ha Hv HP HS HF. unfold register_view. wp_step. eapply view_register_wp; [exact Hi|done..| |].
  - intros v0 hm Hv0 Hi1 Hnone. wp_step. rewrite Hv in Hv0. injection Hv0 as <-. eapply release_view_wp; [exact Hi1|done|unfold few in *; cbn; lia|]. intros s' Hrel Hi2. wp_step. cbn [fst snd]. rewrite decide_True by done.
    destruct (heap_live _ _ a (fi_heap _ _ _ _ Hi2)) as (v' & Hv' & _); [rewrite elem_of_app; left; eapply in_held; by rewrite lookup_insert_eq|].
    eapply HS; [exact Hi2| |exact Hnone| |exact Hv'|].
    + etrans; [|by eapply frame_released]. done.
    + destruct Hrel as (k & v1 & r & _ & -> & _). cbn. apply wrap_id. unfold fits, has_number in *. lia.
    + eapply released_live; [exact Hrel| |exact Hv']. intros x Hx. cbn in Hx. rewrite lookup_insert_eq in Hx. injection Hx as <-. by apply Hretain.
  - intros Hng err s' Herr Hi' Hf. wp_step. eapply release_view_wp; [exact Hi'|by eapply frame_room|unfold few in *; cbn; lia|]. intros s2 Hrel Hi2. wp_step. cbn [fst snd].
    apply HF; [done..|]. etrans; [exact Hf|by eapply frame_released].
Qed.

(** *** The handler of selects *)

Lemma parse_filter_wp filter s (Q : option Predicate.mdv_predicate -> fetcher -> Prop) :
  (forall r, (granted mem -> is_Some r) -> Q r s) -> wp mem (parse_filter filter) s Q.
Proof.
  intros HQ. unfold parse_filter. do 11 wp_step.
  assert (E : exists r c, Predicate.mdv_predicate_parse (Predicate.mk_parse_mem b b0 b1 b2 b3) (Some filter) = Done (r, c) /\ (b0 && b1 && b2 = true -> is_Some r)).
  { destruct b, b0, b1, b2; eexists _, _; (split; [reflexivity|]); try done; by eexists. }
  destruct E as (r & c & E & Hr). eapply wp_lift; [exact E|]. wp_step. apply HQ. intros Hg. apply Hr. by rewrite (Hb0 Hg), (Hb1 Hg), (Hb2 Hg).
Qed.

(** [G]: the memory is there and the table is found; then the select succeeds. *)
Context (G : Prop) (PO : option V -> Prop) (table_id : mdv_uuid) (fields : mdv_bitset) (PT : mdv_table -> Prop).

Record select_spec : Prop := {
  sl_granted : G -> granted mem;
  sl_none : G -> ~ PO None;
  sl_some v : PO (Some v) -> P v;
  sl_get k : core_ok k -> wp mem (core_table_get table_id) k (fun x k' => core_ok k' /\ (forall t, x = (MDV_OK, Some t) -> PT t) /\ (G -> exists t, x = (MDV_OK, Some t)));
  sl_rowdata t k : PT t -> mdv_uuid_cmp Tables.MDV_SYSTBL_TABLES table_id <> 0%Z -> core_ok k ->
    wp mem (core_rowdata_get (tb_id t)) k (fun e k' => core_ok k' /\ (G -> e = MDV_OK));
  sl_tables k : mdv_uuid_cmp Tables.MDV_SYSTBL_TABLES table_id = 0%Z -> core_ok k -> wp mem core_tables_get k (fun e k' => core_ok k' /\ (G -> e = MDV_OK));
  sl_rowdata_view t p : PT t -> mdv_uuid_cmp Tables.MDV_SYSTBL_TABLES table_id <> 0%Z -> makes_view PO (core_rowdata_view (tb_id t) t fields p);
  sl_tables_view p : mdv_uuid_cmp Tables.MDV_SYSTBL_TABLES table_id = 0%Z -> makes_view PO (core_tables_view fields p)
}.

Context (HG : select_spec).

(** The view is made, of the rows of a table or of the tables. *)
Lemma view_made_wp t p s R ex n (Q : nat + bytes -> fetcher -> Prop) :
  PT t -> finv s R ex n ->
  (forall v a s', PO (Some v) -> finv s' R (a :: ex) n -> frame s s' -> ft_idgen s' = ft_idgen s -> ft_heap s' !! a = Some v -> a ∉ (map_to_list R).*2 -> a = ft_next s -> Q (inl a) s') ->
  (forall text s', ~ G -> finv s' R ex n -> frame s s' -> Q (inr text) s') ->
  wp mem (if (mdv_uuid_cmp Tables.MDV_SYSTBL_TABLES table_id =? 0)%Z then mdv_fetcher_tables_view_create fields p else mdv_fetcher_rowdata_view_create t fields p) s Q.
Proof.
  intros HT Hi HS HF. destruct (Z.eqb_spec (mdv_uuid_cmp Tables.MDV_SYSTBL_TABLES table_id) 0) as [Es|Es].
  - unfold mdv_fetcher_tables_view_create, mdv_fetcher_tables. do 3 wp_step. destruct b.
    2: { wp_step. wp_step. apply HF; [|done|done]. intros Hgd. by specialize (Hb (sl_granted HG Hgd)). }
    wp_step. eapply core_wp; [exact Hi|intros k Hk; by apply (sl_tables HG)|]. cbn beta. intros e k He Hi1. wp_step. destruct (decide (e = MDV_OK)) as [->|Hne].
    + rewrite bool_decide_true by done. eapply (made_view_wp PO); [exact Hi1|by apply (sl_tables_view HG)|intros k0 Hk0; by apply tables_release_law|..].
      * intros v s' HP Hi' Hf Eg Hv Hn. by eapply HS.
      * intros text s' HP Hi' Hf. apply HF; [|done|done]. intros Hgd. by apply (sl_none HG Hgd).
    + rewrite bool_decide_false by done. wp_step. apply HF; [intros Hgd; by apply Hne, He|done..].
  - unfold mdv_fetcher_rowdata_view_create, mdv_fetcher_rowdata. do 3 wp_step. destruct b.
    2: { wp_step. wp_step. apply HF; [|done|done]. intros Hgd. by specialize (Hb (sl_granted HG Hgd)). }
    wp_step. eapply core_wp; [exact Hi|intros k Hk; by apply (sl_rowdata HG)|]. cbn beta. intros e k He Hi1. wp_step. destruct (decide (e = MDV_OK)) as [->|Hne].
    + rewrite bool_decide_true by done. eapply (made_view_wp PO); [exact Hi1|by apply (sl_rowdata_view HG)|intros k0 Hk0; by apply rowdata_release_law|..].
      * intros v s' HP Hi' Hf Eg Hv Hn. by eapply HS.
      * intros text s' HP Hi' Hf. apply HF; [|done|done]. intros Hgd. by apply (sl_none HG Hgd).
    + rewrite bool_decide_false by done. wp_step. apply HF; [intros Hgd; by apply Hne, He|done..].
Qed.

Lemma view_create_wp filter s R n (Q : mdv_errno * bytes * option Z -> fetcher -> Prop) :
  finv s R [] n -> room s -> has_number s ->
  (forall a s' v', finv s' (<[ft_idgen s := a]> R) [] n -> frame s s' -> R !! ft_idgen s = None -> ft_idgen s' = (ft_idgen s + 1)%Z -> ft_heap s' !! a = Some v' -> P v' -> Q (MDV_OK, [], Some (ft_idgen s)) s') ->
  (forall err text s', ~ G -> err <> MDV_OK -> finv s' R [] n -> frame s s' -> Q (err, text, None) s') ->
  wp mem (mdv_fetcher_view_create clock table_id fields filter) s Q.
Proof.
  intros Hi Hr Hn HS HF. unfold mdv_fetcher_view_create, mdv_fetcher_table. do 3 wp_step. destruct b.
  2: { wp_step. wp_step. apply HF; [|done..]. intros Hgd. by specialize (Hb (sl_granted HG Hgd)). }
  wp_step. eapply core_wp; [exact Hi|intros k Hk; by apply (sl_get HG)|]. cbn beta. intros [e t] k [HT Hok] Hi1. wp_step. cbn [fst snd] in *.
  destruct (decide (e = MDV_OK)) as [->|Hne]; [destruct t as [t|]|]; cycle 1.
  { wp_step. apply HF; [|done..]. intros Hgd. by destruct (Hok Hgd) as (t & [= ?]). }
  { wp_step. apply HF; [|done..]. intros Hgd. by destruct (Hok Hgd) as (t' & [= ? ?]). }
  specialize (HT t eq_refl). wp_step. apply parse_filter_wp. intros p Hp. wp_step.
  assert (Hrel : forall s1 R ex n r (Q' : (mdv_errno * bytes * option Z) -> fetcher -> Prop), finv s1 R ex n -> (forall k, finv (with_core s1 k) R ex n -> Q' r (with_core s1 k)) ->
    wp mem (in_core (core_table_release t);; mret r) s1 Q').
  { intros s1 R1 ex1 n1 r Q' Hi' HQ'. wp_step. eapply (core_wp _ _ _ _ _ (fun _ => True)); [exact Hi'|intros k0 Hk0; eapply wp_mono; [by apply table_release_law|done]|]. intros [] k0 _ Hi''. wp_step. by apply HQ'. }
  destruct p as [p|].
  2: { wp_step. eapply Hrel; [exact Hi1|]. intros k2 Hi2. apply HF; [|done..]. intros Hgd. by destruct (Hp (sl_granted HG Hgd)). }
  wp_step. eapply view_made_wp; [exact HT|exact Hi1|..].
  - intros v a s' HPv Hi' Hf Eg Hv Hna _. eapply (register_view_wp a v); [exact Hi'|by eapply frame_room|unfold has_number in *; by rewrite Eg|done|exact Hv|by apply (sl_some HG)|..].
    + intros s2 v' Hi2 Hf2 Hnone Eg2 Hv' HPv'. eapply Hrel; [exact Hi2|]. intros k2 Hi3. rewrite Eg in *. eapply (HS a _ v'); try done. etrans; [exact Hf|exact Hf2].
    + intros Hng err text s2 Herr Hi2 Hf2. eapply Hrel; [exact Hi2|]. intros k2 Hi3. apply HF; [|done..|]; [intros Hgd; by apply Hng, (sl_granted HG)|etrans; [exact Hf|exact Hf2]].
  - intros text s' HnG Hi' Hf. unfold register_view. wp_step. eapply Hrel; [exact Hi'|]. intros k2 Hi3. by apply HF.
Qed.

End Register.

(** *** Jobs *)

Lemma retain_wp s R ex n n2 (Q : unit -> fetcher -> Prop) :
  finv s R ex (n, n2) -> room s -> few_refs n -> (forall s', finv s' R ex (S n, n2) -> s' = set_rc s (ft_rc s + 1) -> Q tt s') -> wp mem mdv_fetcher_retain s Q.
Proof.
  intros Hi Hr Hn HQ. unfold mdv_fetcher_retain. wp_steps. unfold room in Hr. unfold few_refs in Hn. pose proof (fi_rc _ _ _ _ Hi) as Hrc. cbn [fst] in Hrc.
  assert (E : rc_retain (ft_rc s) = (ft_rc s + 1)%Z) by (unfold rc_retain; apply wrap_id; unfold fits; lia). rewrite E. apply HQ; [|done].
  destruct Hi as [I1 I2 I3 I4 I5 I6 I7 I8]. split; try done. cbn in *. lia.
Qed.

(** The last reference is that of the service. *)
Lemma release_wp s R ex n n2 (Q : Z -> fetcher -> Prop) :
  finv s R ex (S n, n2) -> room s -> few_refs n -> (forall c s', finv s' R ex (n, n2) -> s' = set_rc s (ft_rc s - 1) -> Q c s') -> wp mem (mdv_fetcher_release spins) s Q.
Proof.
  intros Hi Hr Hn HQ. unfold mdv_fetcher_release. wp_steps. unfold room in Hr. unfold few_refs in Hn. pose proof (fi_rc _ _ _ _ Hi) as Hrc. cbn [fst] in Hrc. unfold rc_release.
  assert (E : u64 (ft_rc s - 1) = (ft_rc s - 1)%Z) by (apply wrap_id; unfold fits; lia). rewrite E. assert (E' : u32 (ft_rc s - 1) = (ft_rc s - 1)%Z) by (apply wrap_id; unfold fits; lia). rewrite E'.
  destruct (Z.eqb_spec (ft_rc s - 1) 0); [lia|]. cbn iota beta. wp_steps. apply HQ; [|done]. destruct Hi as [I1 I2 I3 I4 I5 I6 I7 I8]. split; try done. cbn in *. lia.
Qed.

Lemma u64_add (a b : Z) : u64 (u64 a + b) = u64 (a + b).
Proof. unfold wrap. apply Zplus_mod_idemp_l. Qed.

(** The references that a new job takes over. *)
Lemma finv_push s R a session req id : finv s R [a] (1, 0%Z) -> room s ->
  finv (set_active (set_jobs s (ft_jobs s ++ [mk_context session req a id])) (u64 (ft_active_jobs s + 1))) R [] (0, 0%Z).
Proof.
  intros [I1 I2 I3 I4 I5 I6 I7 I8] Hr. unfold room in Hr. split; try done; cbn [ft_heap ft_jobs ft_rc ft_active_jobs set_active set_jobs fst snd] in *.
  - eapply heap_ok_perm; [|exact I1]. unfold held. cbn [ft_jobs set_active set_jobs]. rewrite fmap_app, app_nil_r. cbn. by rewrite app_assoc.
  - rewrite length_app. cbn. lia.
  - rewrite length_app. cbn [length]. rewrite I6, u64_add. f_equal. lia.
Qed.

Lemma job_emit_wp session req id s R (Q : mdv_errno * bytes -> fetcher -> Prop) :
  finv s R [] (0, 0%Z) -> room s -> fits 32 id ->
  (forall a v s', R !! id = Some a -> ft_heap s !! a = Some v -> finv s' R [] (0, 0%Z) -> ft_jobs s' = ft_jobs s ++ [mk_context session req a id] -> ft_hub s' = ft_hub s ->
     ft_heap s' !! a = Some (core_view_retain v) -> ft_idgen s' = ft_idgen s -> Q (MDV_OK, []) s') ->
  (forall err text s', (granted mem -> R !! id = None) -> err <> MDV_OK -> finv s' R [] (0, 0%Z) -> frame s s' -> Q (err, text) s') ->
  wp mem (mdv_fetcher_job_emit spins session req id) s Q.
Proof.
  intros Hi Hr Hid HS HF. unfold mdv_fetcher_job_emit. wp_step. eapply view_find_wp; [exact Hi|done..| |]; [intros Hn; wp_step; by apply HF|]. intros a v Ha Hv s1 Hi1. wp_step. wp_step.
  assert (Hr1 : room s1) by done. destruct b.
  - wp_step. eapply retain_wp; [exact Hi1|done|unfold few_refs; lia|]. intros s2 Hi2 E2. assert (Hr2 : room s2) by (by subst s2). wp_step. wp_step. destruct b.
    + do 5 wp_step. eapply HS; [done..|by apply finv_push| | | |]; rewrite E2; try done. cbn. by rewrite lookup_insert_eq.
    + wp_step. eapply release_view_wp; [exact Hi2|done|unfold few in *; cbn; lia|]. intros s3 Hrel Hi3. pose proof (frame_released _ _ _ Hrel) as Hf. wp_step. eapply release_wp; [exact Hi3|by eapply frame_room|unfold few_refs; lia|].
      intros c s4 Hi4 E4. wp_step. apply HF; [|done|done|]; [intros Hg; by specialize (Hb0 Hg)|]. rewrite E4. etrans; [|exact Hf]. by rewrite E2.
  - wp_step. eapply release_view_wp; [exact Hi1|done|unfold few in *; cbn; lia|]. intros s3 Hrel Hi3. wp_step. apply HF; [|done|done|]; [intros Hg; by specialize (Hb Hg)|]. etrans; [|by eapply frame_released]. done.
Qed.

(** A page is read, and the view written back. *)
Lemma fetch_wp {A} a s R ex n (PF : V -> V * option mdv_rowset -> Prop) (Q : A -> fetcher -> Prop) (cont : option mdv_rowset -> action fetcher A) :
  finv s R ex n -> a ∈ held R s ++ ex -> (forall v k, ft_heap s !! a = Some v -> core_ok k -> wp mem (core_view_fetch v batch_size) k (fun r _ => PF v r)) ->
  (forall v r k, ft_heap s !! a = Some v -> PF v r ->
     (forall rs, r.2 = Some rs -> exists desc, desc_ok (tb_desc (rs_table rs)) desc /\ Forall (row_ok desc) (rs_rows rs)) ->
     let s' := set_heap (with_core s k) (<[a := r.1]> (ft_heap s)) (ft_next s) in finv s' R ex n -> wp mem (cont r.2) s' Q) ->
  wp mem (v ← view_at a; x ← in_core (core_view_fetch v batch_size); put_view a x.1;; cont x.2) s Q.
Proof.
  intros Hi Ha HPF HQ. destruct (heap_live _ _ _ (fi_heap _ _ _ _ Hi) Ha) as (v & Hv & _). unfold view_at, put_view. do 3 wp_step. eapply wp_lift; [by rewrite Hv|]. wp_step. apply in_core_wp.
  assert (Hw : wp mem (core_view_fetch v batch_size) (hb_core (ft_hub s)) (fun r k => PF v r /\ core_ok k /\ view_rc r.1 = view_rc v /\
    forall rs, r.2 = Some rs -> exists desc, desc_ok (tb_desc (rs_table rs)) desc /\ Forall (row_ok desc) (rs_rows rs))).
  { intros i. destruct (view_fetch_law mem _ v batch_size (fi_core _ _ _ _ Hi) i) as (r & j & k & E & HQ'). destruct (HPF v _ Hv (fi_core _ _ _ _ Hi) i) as (r2 & j2 & k2 & E2 & HP).
    exists r, j, k. rewrite E in E2. injection E2 as <- <- <-. by split_and!; try apply HQ'. }
  eapply wp_mono; [exact Hw|]. cbn beta. intros r k (HP & Hk & Hrc & Hrows). wp_steps. eapply (HQ v r k); [done..|]. destruct Hi as [I1 I2 I3 I4 I5 I6 I7 I8]. split; try done; cbn [ft_heap set_heap ft_next].
  - change (held R (set_heap _ _ _)) with (held R s). by eapply heap_write.
  - intros b [x Hx]. destruct (decide (b = a)) as [->|Hne]; [by apply I4|]. apply I4. cbn in Hx. rewrite lookup_insert_ne in Hx by done. by exists x.
Qed.

(** Whatever a step does, it leaves the invariant and not more than a job more. *)
Definition safe_after (n : nat * Z) (ex : list nat) (s s' : fetcher) : Prop :=
  ft_jobs s' = ft_jobs s /\ hb_requests (ft_hub s') = hb_requests (ft_hub s) /\ exists R', finv s' R' ex n.

Lemma fn_safe ctx s R n :
  finv s R [fc_view ctx] n -> room s -> fits 32 (fc_view_id ctx) -> wp mem (mdv_fetcher_fn fuel is_empty batch_size ctx) s (fun _ s' => safe_after n [fc_view ctx] s s').
Proof.
  intros Hi Hr Hid. unfold mdv_fetcher_fn.
  assert (Hend : forall s' R' (r : Z * bytes), ft_jobs s' = ft_jobs s -> hb_requests (ft_hub s') = hb_requests (ft_hub s) -> finv s' R' [fc_view ctx] n ->
    wp mem (if (r.1 =? MDV_OK)%Z then mret tt else publish_status fuel is_empty (fc_session ctx) (fc_request_id ctx) r.1 r.2;; mret tt) s' (fun _ s' => safe_after n [fc_view ctx] s s')).
  { intros s' R' r Hj Hq Hi'. destruct (r.1 =? MDV_OK)%Z; [wp_step; split_and!; [done..|by exists R']|]. wp_step. eapply status_wp; [exact Hi'|]. intros e h Hh Hi2. wp_step.
    split_and!; [done| |by exists R']. rewrite <- Hq. apply Hh. }
  eapply (fetch_wp (fc_view ctx) s R [fc_view ctx] n (fun _ _ => True)) with (cont := fun x => mbind _ (match x with Some _ => _ | None => _ end));
    [exact Hi|rewrite elem_of_app; right; by left|intros v k Hv Hk; by eapply wp_mono; [by apply view_fetch_law|]|].
  intros v [v' [rs|]] k Hv _ Hrows s1 Hi1; cbn [fst snd] in *; wp_step.
  - destruct (Hrows rs eq_refl) as (desc & Hd & Hrs). wp_step. eapply wp_write; [by apply (Rowdata.Rowdata.makes_rowset desc)|]. intros r [-> | ->] _; [|wp_step; by eapply Hend].
    do 2 wp_step. destruct b; [|wp_step; by eapply Hend]. wp_step. eapply publish_event_wp; [exact Hi1|done|]. intros err h Hq Hi2. wp_step. eapply Hend; [done|apply Hq|done].
  - wp_step. eapply unregister_wp; [exact Hi1|done|unfold few in *; cbn; lia|done| |].
    + intros s' Hi' _ ->. wp_step. by eapply Hend.
    + intros a s' hm Ha Hrel Hi'. wp_step. destruct (frame_released _ _ _ Hrel) as (E1 & _ & E2). by eapply Hend; [exact E1|exact E2|exact Hi'].
Qed.

Lemma finalize_wp ctx s R (Q : unit -> fetcher -> Prop) :
  finv s R [fc_view ctx] (1, 1%Z) -> room s ->
  (forall s1 s', finv s' R [] (0, 0%Z) -> released s s1 (fc_view ctx) -> ft_heap s' = ft_heap s1 -> ft_idgen s' = ft_idgen s -> frame s s' -> Q tt s') -> wp mem (mdv_fetcher_finalize spins ctx) s Q.
Proof.
  intros Hi Hr HQ. unfold mdv_fetcher_finalize. wp_step. eapply release_view_wp; [exact Hi|done|unfold few in *; cbn; lia|]. intros s1 Hrel Hi1. pose proof (frame_released _ _ _ Hrel) as Hf. wp_step.
  eapply release_wp; [exact Hi1|by eapply frame_room|unfold few_refs; lia|]. intros c s2 Hi2 E2. wp_steps. assert (Hj : ft_jobs s2 = ft_jobs s) by (rewrite E2; apply Hf). apply (HQ s1); [|done|by rewrite E2|rewrite E2; by destruct Hrel as (k & v & r & _ & -> & _)|].
  - destruct Hi2 as [I1 I2 I3 I4 I5 I6 I7 I8]. split; try done. cbn [ft_active_jobs set_active ft_jobs snd] in *. unfold room in Hr. rewrite I6, Hj, <- Z.add_opp_r, u64_add. f_equal. lia.
  - etrans; [exact Hf|]. by rewrite E2.
Qed.

(** *** Events *)

Lemma any_select table_id fields : select_spec (fun _ => True) False (fun _ => True) table_id fields (fun _ => True).
Proof.
  split; try done.
  - intros k Hk. eapply wp_mono; [by apply table_get_law|]. done.
  - intros t k _ _ Hk. eapply wp_mono; [by apply rowdata_get_law|]. done.
  - intros k _ Hk. eapply wp_mono; [by apply tables_get_law|]. done.
  - intros t p _ _ k Hk. eapply wp_mono; [by apply rowdata_view_law|]. by intros r k' [? ?].
  - intros p _ k Hk. eapply wp_mono; [by apply tables_view_law|]. by intros r k' [? ?].
Qed.

Lemma select_safe session req table_id fields filter s R :
  finv s R [] (0, 0%Z) -> room s -> has_number s ->
  wp mem (mdv_fetcher_evt_select fuel is_empty clock session req table_id fields filter) s (fun _ s' => safe_after (0, 0%Z) [] s s').
Proof.
  intros Hi Hr Hn. unfold mdv_fetcher_evt_select. wp_step. eapply (view_create_wp (fun _ => True)); [done|done|by apply any_select|exact Hi|done|done|..].
  - intros a s' v' Hi' Hf _ _ _ _. wp_step. rewrite decide_True by done. wp_step. wp_step. destruct b.
    + eapply publish_event_wp; [exact Hi'|done|]. intros err h Hq Hi2. wp_step. split_and!; [apply Hf|etrans; [apply Hq|apply Hf]|by eexists].
    + wp_step. wp_step. split_and!; [apply Hf|apply Hf|by eexists].
  - intros err text s' _ Herr Hi' Hf. wp_step. rewrite decide_False by done. eapply status_wp; [exact Hi'|]. intros e h Hq Hi2. wp_step. split_and!; [apply Hf|etrans; [apply Hq|apply Hf]|by eexists].
Qed.

Lemma view_fetch_safe session req id s R :
  finv s R [] (0, 0%Z) -> room s -> fits 32 id ->
  wp mem (mdv_fetcher_evt_view_fetch fuel is_empty spins session req id) s (fun _ s' =>
    (exists R', finv s' R' [] (0, 0%Z)) /\ hb_requests (ft_hub s') = hb_requests (ft_hub s) /\ exists a, ft_jobs s' = ft_jobs s \/ ft_jobs s' = ft_jobs s ++ [mk_context session req a id]).
Proof.
  intros Hi Hr Hid. unfold mdv_fetcher_evt_view_fetch. wp_step. eapply job_emit_wp; [exact Hi|done|done|..].
  - intros a v s' Ha Hv Hi' Hj Hh _ _. rewrite decide_True by done. wp_step. split_and!; [by eexists|by rewrite Hh|]. exists a. by right.
  - intros err text s' _ Herr Hi' Hf. rewrite decide_False by done. eapply status_wp; [exact Hi'|]. intros e h Hq Hi2. split_and!; [by eexists|etrans; [apply Hq|apply Hf]|]. exists 0. left. apply Hf.
Qed.

End Safety.

(** *** Executions *)

Section Executions.
Context `{Binn} {K V : Type} `{ViewsLaws K V}.
Context (fuel : nat) (is_empty : mdv_topology -> bool) (batch_size : nat) (spins : nat).

Abbreviation fetcher := (mdv_fetcher K V).

Definition request_ok (e : request_event) : Prop := match e with Evt_select _ _ _ _ _ => True | Evt_view_fetch _ _ view_id => fits 32 view_id end.

Definition hub_ok (h : hub K) : Prop := core_ok (hb_core h) /\ sinks_ok fuel (hb_users h) /\ Forall request_ok (hb_requests h).

(** The rest of the service changes the sessions, the tables and the queues; events
    and jobs are handled one after the other, in any order, with any answers of the
    system at any time. *)
Inductive reached : fetcher -> Prop :=
| reached_new m1 m2 m3 m4 m5 m6 m7 h s : hub_ok h -> mdv_fetcher_create m1 m2 m3 m4 m5 m6 m7 h = inl s -> reached s
| reached_hub s h' : reached s -> hub_ok h' -> reached (set_hub s h')
| reached_event s mem clock i k k' s' : reached s -> room s -> has_number s ->
    take_event fuel is_empty clock spins i mem k s = Done (tt, k', s') -> reached s'
| reached_job s mem i k k' s' : reached s -> room s -> take_job fuel is_empty batch_size spins i mem k s = Done (tt, k', s') -> reached s'.

Definition sinv (s : fetcher) : Prop :=
  (exists R, finv fuel s R [] (0, 0%Z)) /\ Forall request_ok (hb_requests (ft_hub s)) /\ Forall (fun ctx => fits 32 (fc_view_id ctx)) (ft_jobs s).

Lemma take_event_safe mem clock i s :
  sinv s -> room s -> has_number s -> i < length (hb_requests (ft_hub s)) -> wp mem (take_event fuel is_empty clock spins i) s (fun _ => sinv).
Proof.
  intros ((R & Hi) & Hreq & Hjobs) Hr Hn Hlt. apply lookup_lt_is_Some in Hlt as [e He]. pose proof (proj1 (Forall_lookup _ _) Hreq _ _ He) as Hok. unfold take_event. wp_steps. eapply wp_lift; [by rewrite He|].
  set (s1 := set_hub s _). wp_steps. assert (Hi1 : finv fuel s1 R [] (0, 0%Z)) by (by destruct Hi). assert (Hreq1 : Forall request_ok (hb_requests (ft_hub s1))) by (cbn; by apply Forall_delete).
  destruct e as [session req table fields filter|session req id]; cbn [mdv_fetcher_handlers].
  - eapply wp_mono; [by eapply select_safe|]. cbn beta. intros c s' (Ej & Eq & R' & Hi'). wp_step. split_and!; [by exists R'|by rewrite Eq|by rewrite Ej].
  - eapply wp_mono; [by eapply view_fetch_safe|]. cbn beta. intros c s' ((R' & Hi') & Eq & a & Ej). wp_step. split_and!; [by exists R'|by rewrite Eq|].
    destruct Ej as [-> | ->]; [done|]. apply Forall_app. split; [done|]. apply Forall_singleton. exact Hok.
Qed.

(** The references of a job that a thread takes. *)
Lemma finv_take s R ex n1 n2 i ctx : finv fuel s R ex (n1, n2) -> ft_jobs s !! i = Some ctx -> finv fuel (set_jobs s (delete i (ft_jobs s))) R (fc_view ctx :: ex) (S n1, (n2 + 1)%Z).
Proof.
  intros [I1 I2 I3 I4 I5 I6 I7 I8] Hc. assert (Hp : ft_jobs s ≡ₚ ctx :: delete i (ft_jobs s)) by (by apply delete_Permutation). assert (Hl : length (ft_jobs s) = S (length (delete i (ft_jobs s)))) by (by rewrite Hp at 1).
  split; try done; cbn [ft_heap ft_rc ft_active_jobs ft_jobs set_jobs fst snd] in *; [|lia|rewrite I6, Hl; f_equal; lia].
  eapply heap_ok_perm; [|exact I1]. unfold held. cbn [ft_jobs set_jobs]. rewrite Hp at 1. cbn. rewrite <- !app_assoc. cbn. by rewrite <- !Permutation_middle.
Qed.

Lemma take_job_safe mem i s : sinv s -> room s -> i < length (ft_jobs s) -> wp mem (take_job fuel is_empty batch_size spins i) s (fun _ => sinv).
Proof.
  intros ((R & Hi) & Hreq & Hjobs) Hr Hlt. apply lookup_lt_is_Some in Hlt as [ctx Hc]. pose proof (proj1 (Forall_lookup _ _) Hjobs _ _ Hc) as Hid. cbn beta in Hid. unfold take_job. wp_steps. eapply wp_lift; [by rewrite Hc|].
  set (s1 := set_jobs s _). wp_steps. pose proof (finv_take s R [] 0 0 i ctx Hi Hc) as Hi1. fold s1 in Hi1.
  assert (Hr1 : room s1). { unfold room in *. cbn. pose proof (delete_Permutation _ _ _ Hc) as Hp. apply Permutation_length in Hp. cbn in Hp. lia. }
  eapply wp_mono; [by eapply fn_safe|]. cbn beta. intros [] s2 (Ej & Eq & R2 & Hi2). eapply finalize_wp; [exact Hi2|by eapply room_like|]. intros s3 s' Hi' _ _ _ (Ej' & _ & Eq').
  split_and!; [by exists R2|by rewrite Eq', Eq|]. rewrite Ej', Ej. by apply Forall_delete.
Qed.

Lemma reached_sinv s : reached s -> sinv s.
Proof.
  induction 1 as [m1 m2 m3 m4 m5 m6 m7 h s (Hc & Hu & Hq) Es|s h' Hs IH (Hc & Hu & Hq)|s mem clock i k k' s' Hs IH Hr Hn E|s mem i k k' s' Hs IH Hr E].
  - unfold mdv_fetcher_create in Es. destruct m2, m3; try done. cbn [negb] in Es. destruct (mdv_hashmap_create m4 m5 8 0 4) as [hm|] eqn:Em; [|done]. destruct m6, m7; try done. injection Es as <-.
    split_and!; [|done|done]. exists ∅. destruct (mdv_hashmap_create_wf fv_id _ _ _ _ _ _ Em) as [Hw Hl]. split; try done; cbn.
    + split_and!; [|intros id _; by rewrite Hl|done]. split_and!; [done| |]; (destruct m4, m5; [|done..]); injection Em as <-; unfold few in *; cbn; lia.
    + constructor.
    + intros a [x Hx]. by rewrite lookup_empty in Hx.
  - destruct IH as ((R & Hi) & _ & Hj). split_and!; [|done|done]. exists R. destruct Hi. by split.
  - destruct (decide (i < length (hb_requests (ft_hub s)))) as [Hlt|Hge].
    + destruct (take_event_safe mem clock i s IH Hr Hn Hlt k) as ([] & k2 & s2 & E2 & Hs2). rewrite E in E2. by injection E2 as <- <-.
    + unfold take_event, mbind, action_bind, get, lift in E. by rewrite lookup_ge_None_2 in E by lia.
  - destruct (decide (i < length (ft_jobs s))) as [Hlt|Hge].
    + destruct (take_job_safe mem i s IH Hr Hlt k) as ([] & k2 & s2 & E2 & Hs2). rewrite E in E2. by injection E2 as <- <-.
    + unfold take_job, mbind, action_bind, get, lift in E. by rewrite lookup_ge_None_2 in E by lia.
Qed.

Lemma wait_jobs_active mem k (s : fetcher) n : (0 < ft_active_jobs s)%Z -> wait_jobs n mem k s = OutOfFuel.
Proof. intros Ha. induction n as [|n IH]; [done|]. cbn [wait_jobs]. unfold mbind, action_bind, get. destruct (Z.ltb_spec 0 (ft_active_jobs s)); [exact IH|lia]. Qed.

(** C39: when the service gives its reference to the fetcher back while a job is left,
    the job never ends: it gives the last reference back before it is no longer
    counted, and waits for itself, for any number of rounds. *)
Theorem mdv_fetcher_last_job_waits s ctx mem k :
  reached s -> ft_jobs s = [ctx] ->
  mdv_fetcher_release spins mem k s = Done (1%Z, k, set_rc s 1) /\ forall k', take_job fuel is_empty batch_size spins 0 mem k' (set_rc s 1) = OutOfFuel.
Proof.
  intros ((R & Hi) & _ & Hids)%reached_sinv Hj. pose proof (fi_rc _ _ _ _ _ Hi) as Hrc. pose proof (fi_active _ _ _ _ _ Hi) as Hact. rewrite Hj in Hrc, Hact. cbn in Hrc, Hact. split.
  { unfold mdv_fetcher_release, mbind, action_bind, get, put. rewrite Hrc. done. }
  assert (Hi2 : finv fuel (set_jobs (set_rc s 1) []) R [fc_view ctx] (0, 1%Z)).
  { pose proof (finv_take s R [] 0 0 0 ctx Hi) as Ht. rewrite Hj in Ht. destruct (Ht eq_refl) as [J1 J2 J3 J4 J5 J6 J7 J8]. by split. }
  intros k'. assert (Et : take_job fuel is_empty batch_size spins 0 mem k' (set_rc s 1) = (mdv_fetcher_fn fuel is_empty batch_size ctx;; mdv_fetcher_finalize spins ctx) mem k' (set_jobs (set_rc s 1) [])).
  { unfold take_job, mbind, action_bind, get, lift. cbn [ft_jobs set_rc]. by rewrite Hj. }
  rewrite Et. unfold mbind at 1, action_bind at 1.
  rewrite Hj, Forall_singleton in Hids. assert (Hroom : room (set_jobs (set_rc s 1) [])) by done. destruct (fn_safe fuel is_empty batch_size mem ctx _ R (0, 1%Z) Hi2 Hroom Hids k') as ([] & k2 & s2 & E2 & Ej2 & _ & R2 & Hi3).
  rewrite E2. unfold mdv_fetcher_finalize, mbind at 1, action_bind at 1. assert (Hroom2 : room s2) by (unfold room; by rewrite Ej2).
  destruct (release_view_wp fuel mem (fc_view ctx) s2 R2 [] (0, 1%Z) (fun _ s3 => finv fuel s3 R2 [] (0, 1%Z) /\ frame s2 s3) Hi3 Hroom2 ltac:(unfold few in *; cbn; lia)) with (k := k2) as ([] & k3 & s3 & E3 & Hi4 & Hf).
  { intros s3 Hrel Hi4. split; [done|by eapply frame_released]. }
  rewrite E3. pose proof (fi_rc _ _ _ _ _ Hi4) as Hrc4. pose proof (fi_active _ _ _ _ _ Hi4) as Hact4. rewrite (proj1 Hf), Ej2 in Hrc4, Hact4. cbn in Hrc4, Hact4.
  unfold mdv_fetcher_release, mdv_fetcher_free, mbind, action_bind, get, put. assert (Er : rc_release (ft_rc s3) = (0%Z, 0%Z, true)) by (by rewrite Hrc4). rewrite Er. cbn beta iota.
  rewrite wait_jobs_active; [done|]. cbn [ft_active_jobs set_rc]. rewrite Hact4. done.
Qed.

End Executions.

(** ** Storages in memory *)

(** Tables with their rows; a view has its place in the rows of its table. *)
Definition storage : Type := list (mdv_table * list mdv_row).
Record storage_view := mk_storage_view { tv_rc : Z; tv_id : mdv_uuid; tv_pos : nat }.

Definition stored_at (k : storage) (id : mdv_uuid) : option (mdv_table * list mdv_row) := List.find (fun x => (mdv_uuid_cmp (tb_id x.1) id =? 0)%Z) k.

Definition storage_insert `{Binn} (id : mdv_uuid) (rows : binn) (k : storage) : mdv_errno * storage :=
  match stored_at k id with
  | Some (t, _) =>
      match mdv_unbinn_rowset true (fun _ => true) rows t with
      | Done (Some rs) => (MDV_OK, (fun x => if (mdv_uuid_cmp (tb_id x.1) id =? 0)%Z then (x.1, x.2 ++ rs_rows rs) else x) <$> k)
      | _ => (MDV_FAILED, k)
      end
  | None => (MDV_FAILED, k)
  end.

#[global] Instance storage_core `{Binn} : Core storage := {|
  core_table_create desc := k ← get;
    match desc with
    | Some desc => let id := mk_uuid (Z.of_nat (S (length k))) 1 in put (k ++ [(mk_table 1 id desc, [])]);; mret (MDV_OK, Some id)
    | None => mret (MDV_FAILED, None)
    end;
  core_table_get id := k ← get; mret (match stored_at k id with Some x => (MDV_OK, Some x.1) | None => (MDV_FAILED, None) end);
  core_table_release _ := mret tt;
  core_rowdata_insert id rows := k ← get; let '(err, k) := storage_insert id rows k in put k;; mret err
|}.

#[global] Instance storage_views : Views storage storage_view := {|
  core_rowdata_get id := k ← get; mret (match stored_at k id with Some _ => MDV_OK | None => MDV_FAILED end);
  core_rowdata_release _ := mret tt;
  core_rowdata_view id _ _ _ := mret (Some (mk_storage_view 1 id 0));
  core_tables_get := mret MDV_FAILED;
  core_tables_release := mret tt;
  core_tables_view _ _ := mret None;
  core_view_retain v := mk_storage_view (tv_rc v + 1) (tv_id v) (tv_pos v);
  core_view_release v := mret (if (tv_rc v =? 1)%Z then None else Some (mk_storage_view (tv_rc v - 1) (tv_id v) (tv_pos v)));
  core_view_fetch v count := k ← get;
    mret (match stored_at k (tv_id v) with
          | Some (t, rows) =>
              match drop (tv_pos v) rows with
              | [] => (v, None)
              | l => (mk_storage_view (tv_rc v) (tv_id v) (tv_pos v + length (take count l)), Some (mk_rowset 1 t (take count l)))
              end
          | None => (v, None)
          end)
|}.

(** The rows are rows of their table. *)
Definition storage_ok (k : storage) : Prop := Forall (fun x => exists desc, desc_ok (tb_desc x.1) desc /\ Forall (row_ok desc) x.2) k.

Lemma stored_ok k id x : storage_ok k -> stored_at k id = Some x -> exists desc, desc_ok (tb_desc x.1) desc /\ Forall (row_ok desc) x.2.
Proof. intros Hk Hx. apply List.find_some in Hx as [Hin _]. apply (proj1 (Forall_forall _ _) Hk). by apply list_elem_of_In. Qed.

(** No operation of the fetcher changes the storages: they keep any property. *)
Lemma storage_laws `{Binn} (P : storage -> Prop) : (forall k, P k -> storage_ok k) -> ViewsLaws storage storage_view.
Proof.
  intros HP. refine (Build_ViewsLaws storage storage_view _ _ P tv_rc _ _ _ _ _ _ _ _ _ _ _); intros; cbn; wp_steps; try done.
  - split; [done|]. by intros v [= <-].
  - split; [done|]. destruct (Z.eqb_spec (tv_rc v) 1); [done|cbn; lia].
  - split; [done|]. destruct (stored_at k (tv_id v)) as [[t rows]|] eqn:E; [|done]. destruct (stored_ok k (tv_id v) (t, rows) (HP k ltac:(done)) E) as (desc & Hd & Hr).
    destruct (drop (tv_pos v) rows) as [|row l] eqn:Ed; [done|]. split; [done|]. intros rs [= <-]. exists desc. split; [done|]. apply Forall_take. rewrite <- Ed. by apply Forall_drop.
Defined.

(** ** Witnesses *)

#[local] Instance demo_laws : ViewsLaws storage storage_view := storage_laws storage_ok (fun k Hk => Hk).

Definition all_fields : mdv_bitset := mk_bitset 1 32 [7]%Z.
Definition demo_user : mdv_user := mk_user (mk_uuid 5 6) (mk_uuid 0 0) (mk_safeptr None) (mk_sink [] []).
Definition demo_hub : hub storage :=
  mk_hub [(demo_table, [demo_row; demo_row])] [demo_user] [Evt_select (mk_uuid 5 6) 4 (tb_id demo_table) all_fields []; Evt_view_fetch (mk_uuid 5 6) 5 0].

Definition state_after {A} (o : outcome (A * nat * mdv_fetcher storage storage_view)) : mdv_fetcher storage storage_view :=
  match o with Done (_, _, s) => s | _ => mk_fetcher 0 0 0 (mk_hashmap 0 0 0 0 0 []) [] ∅ 0 demo_hub end.

(** A fetcher with a select and a fetch that wait, then after the select, and with
    the job of the fetch. *)
Definition demo_new : mdv_fetcher storage storage_view := match mdv_fetcher_create true true true true true true true demo_hub with inl s => s | inr _ => state_after (A := unit) OutOfFuel end.
Definition demo_selected := state_after (take_event 100 (fun _ => false) 7 1 0 (fun _ => true) 0 demo_new).
Definition demo_fetching := state_after (take_event 100 (fun _ => false) 7 1 0 (fun _ => true) 0 demo_selected).

Lemma demo_hub_ok : hub_ok 100 demo_hub.
Proof. split_and!; [|repeat constructor; cbn; lia|repeat constructor; cbn; lia]. constructor; [|done]. exists demo_fields. split; [done|]. constructor; [|constructor; [|done]]; apply demo_row_ok. Qed.

Lemma demo_reached : reached 100 (fun _ => false) 1 1 demo_fetching.
Proof.
  assert (Hnew : reached 100 (fun _ => false) 1 1 demo_new) by (eapply (reached_new _ _ _ _ true true true true true true true demo_hub); [apply demo_hub_ok|done]).
  assert (Hsel : reached 100 (fun _ => false) 1 1 demo_selected).
  { eapply (reached_event _ _ _ _ demo_new (fun _ => true) 7 0 0); [exact Hnew|by vm_compute|vm_compute; split; congruence|]. unfold demo_selected. vm_compute. reflexivity. }
  eapply (reached_event _ _ _ _ demo_selected (fun _ => true) 7 0 0); [exact Hsel|by vm_compute|vm_compute; split; congruence|]. unfold demo_fetching. vm_compute. reflexivity.
Qed.

Lemma mdv_fetcher_last_job_waits_witness : take_job 100 (fun _ => false) 1 1 0 (fun _ => true) 0 (set_rc demo_fetching 1) = OutOfFuel.
Proof. eapply (mdv_fetcher_last_job_waits 100 (fun _ => false) 1 1 demo_fetching _ (fun _ => true) 0 demo_reached). vm_compute. reflexivity. Defined.

End Fetcher.
