(* ===== verification/FetcherThreads.v ===== *)
(** * Threads of the fetcher (src/mdv_core/mdv_fetcher.c)

    Selects, fetches and jobs run in several threads at once.  Here each of them is a
    task that is cut where another thread can see or change what the fetcher shares: a
    section under the mutex of the map of the views is one step, and so are a change
    of a counter of references, a call of a storage, a page that is read from a view,
    and a push of a job; its counting is a step of its own.  [run_task] runs the steps
    of a task in a row, which is the handler or the job of [Fetcher] ([select_run],
    [fetch_run], [job_run]); an execution, [interleaved], runs the steps of any number
    of tasks in any order.  Two jobs that read from one view read their pages one after
    the other. *)

From stdpp Require Import strings.
From S2P Require Import Prelude Bitset Uuid Hashmap Rollbacker Binn Topology Router Types Serialization Predicate Rowdata Tables Action Msg Messages User Fetcher.
Import Bitset Uuid Hashmap Rollbacker Binn Topology Router Types Serialization Action Msg User Fetcher.
#[local] Open Scope string_scope.
#[local] Open Scope nat_scope.
#[local] Open Scope list_scope.
#[local] Existing Instance view_key.

Module FetcherThreads.

Section Tasks.
Context `{Binn} {K V : Type} `{Core K, Views K V}.
Context (fuel : nat) (is_empty : mdv_topology -> bool) (batch_size : nat) (clock : Z) (spins : nat).

Abbreviation fa := (action (mdv_fetcher K V)).

(** Where a thread is: in the handler of a select, in that of a fetch, or in a job. *)
Inductive task :=
| Tk_select (session : mdv_uuid) (request_id : Z) (table_id : mdv_uuid) (fields : mdv_bitset) (filter : bytes)
| Tk_create (session : mdv_uuid) (request_id : Z) (table_id : mdv_uuid) (fields : mdv_bitset) (table : mdv_table) (predicate : Predicate.mdv_predicate)
| Tk_register (session : mdv_uuid) (request_id : Z) (table : mdv_table) (view : nat)
| Tk_registered (session : mdv_uuid) (request_id : Z) (table : mdv_table) (view : nat) (r : mdv_errno * option Z)
| Tk_table (session : mdv_uuid) (request_id : Z) (table : mdv_table) (r : mdv_errno * bytes * option Z)
| Tk_selected (session : mdv_uuid) (request_id : Z) (r : mdv_errno * bytes * option Z)
| Tk_fetch (session : mdv_uuid) (request_id view_id : Z)
| Tk_found (session : mdv_uuid) (request_id view_id : Z) (view : nat)
| Tk_push (session : mdv_uuid) (request_id view_id : Z) (view : nat)
| Tk_count
| Tk_refused (session : mdv_uuid) (request_id : Z) (view : nat)
| Tk_unpushed (session : mdv_uuid) (request_id : Z)
| Tk_no_job (session : mdv_uuid) (request_id : Z) (view : nat)
| Tk_failed (session : mdv_uuid) (request_id : Z) (err : mdv_errno) (message : bytes)
| Tk_job (ctx : mdv_fetcher_context)
| Tk_page (ctx : mdv_fetcher_context) (rowset : option mdv_rowset)
| Tk_result (ctx : mdv_fetcher_context) (r : Z * bytes)
| Tk_release (ctx : mdv_fetcher_context)
| Tk_leave
| Tk_uncount.

Definition request_task (e : request_event) : task :=
  match e with
  | Evt_select session request_id table fields filter => Tk_select session request_id table fields filter
  | Evt_view_fetch session request_id view_id => Tk_fetch session request_id view_id
  end.

(** The next step of a task, and where it is then. *)
Definition task_step (t : task) : fa (option task) :=
  match t with
  | Tk_select session req table_id fields filter =>
      table ← mdv_fetcher_table table_id;
      match (table : option mdv_table) with
      | None => mret (Some (Tk_selected session req (MDV_FAILED, text "Table not found", None)))
      | Some table =>
          predicate ← parse_filter filter;
          mret (Some (match (predicate : option Predicate.mdv_predicate) with
                      | None => Tk_table session req table (MDV_FAILED, text "Rows filter is incorrect", None)
                      | Some predicate => Tk_create session req table_id fields table predicate
                      end))
      end
  | Tk_create session req table_id fields table predicate =>
      view ← (if (mdv_uuid_cmp Tables.MDV_SYSTBL_TABLES table_id =? 0)%Z
              then mdv_fetcher_tables_view_create fields predicate
              else mdv_fetcher_rowdata_view_create table fields predicate);
      mret (Some (match (view : nat + bytes) with
                  | inl view => Tk_register session req table view
                  | inr message => Tk_table session req table (MDV_FAILED, message, None)
                  end))
  | Tk_register session req table view =>
      r ← mdv_fetcher_view_register clock view; mret (Some (Tk_registered session req table view r))
  | Tk_registered session req table view r =>
      release_view view;;
      mret (Some (Tk_table session req table (r.1, if decide (r.1 = MDV_OK) then [] else text "View registration failed", r.2)))
  | Tk_table session req table r => in_core (core_table_release table);; mret (Some (Tk_selected session req r))
  | Tk_selected session req r =>
      let '(err, message, view_id) := r in
      (if decide (err = MDV_OK) then
         evt ← ask;
         if (evt : bool) then publish fuel is_empty (Evt_view session req (default (2 ^ 32 - 1)%Z view_id)) else mret (code err)
       else publish_status fuel is_empty session req err message);;
      mret None
  | Tk_fetch session req view_id =>
      view ← mdv_fetcher_view_find view_id;
      mret (Some (match (view : option nat) with
                  | None => Tk_failed session req MDV_FAILED (text "View not found")
                  | Some view => Tk_found session req view_id view
                  end))
  | Tk_found session req view_id view =>
      job ← ask;
      if (job : bool) then mdv_fetcher_retain;; mret (Some (Tk_push session req view_id view))
      else mret (Some (Tk_no_job session req view))
  | Tk_push session req view_id view =>
      push ← ask;
      if (push : bool) then s ← get; put (set_jobs s (ft_jobs s ++ [mk_context session req view view_id]));; mret (Some Tk_count)
      else mret (Some (Tk_refused session req view))
  | Tk_count => s ← get; put (set_active s (u64 (ft_active_jobs s + 1)));; mret None
  | Tk_refused session req view => release_view view;; mret (Some (Tk_unpushed session req))
  | Tk_unpushed session req => mdv_fetcher_release spins;; mret (Some (Tk_failed session req MDV_FAILED (text "Data fetch job failed")))
  | Tk_no_job session req view => release_view view;; mret (Some (Tk_failed session req MDV_NO_MEM (text "No memory for new data fetcher job")))
  | Tk_failed session req err message => publish_status fuel is_empty session req err message;; mret None
  | Tk_job ctx =>
      v ← view_at (fc_view ctx);
      x ← in_core (core_view_fetch v batch_size);
      put_view (fc_view ctx) x.1;;
      mret (Some (Tk_page ctx x.2))
  | Tk_page ctx (Some rowset) =>
      list ← write (mdv_binn_rowset (S (length (rs_rows rowset))) rowset);
      match (list : option binn) with
      | Some list =>
          evt ← ask;
          if (evt : bool) then err ← publish fuel is_empty (Evt_view_data (fc_session ctx) (fc_request_id ctx) list); mret (Some (Tk_result ctx (err, [])))
          else mret (Some (Tk_result ctx (code MDV_FAILED, [])))
      | None => mret (Some (Tk_result ctx (code MDV_FAILED, text "Rowset serialization failed")))
      end
  | Tk_page ctx None => mdv_fetcher_view_unregister (fc_view_id ctx);; mret (Some (Tk_result ctx (code MDV_FAILED, [])))
  | Tk_result ctx r =>
      (if (r.1 =? MDV_OK)%Z then mret tt else publish_status fuel is_empty (fc_session ctx) (fc_request_id ctx) r.1 r.2;; mret tt);;
      mret (Some (Tk_release ctx))
  | Tk_release ctx => release_view (fc_view ctx);; mret (Some Tk_leave)
  | Tk_leave => mdv_fetcher_release spins;; mret (Some Tk_uncount)
  | Tk_uncount => s ← get; put (set_active s (u64 (ft_active_jobs s - 1)));; mret None
  end.

(** The steps of a task in a row. *)
Fixpoint run_task (n : nat) (t : task) : fa unit :=
  match n with
  | 0 => lift OutOfFuel
  | S n => x ← task_step t; match (x : option task) with Some t => run_task n t | None => mret tt end
  end.

End Tasks.

Arguments task : clear implicits.

(** ** The steps are the functions *)

Section Laws.
Context {S A B C : Type}.
Implicit Types (m : action S A) (mem : nat -> bool) (k : nat) (s : S).

Lemma bind_assoc m (f : A -> action S B) (g : B -> action S C) mem k s : ((m ≫= f) ≫= g) mem k s = (m ≫= (fun x => f x ≫= g)) mem k s.
Proof. unfold mbind, action_bind. by destruct (m mem k s) as [[[a k'] s']| |]. Qed.

Lemma ret_bind (a : A) (f : A -> action S B) mem k s : (mret a ≫= f) mem k s = f a mem k s.
Proof. done. Qed.

Lemma bind_ext m (f g : A -> action S B) mem k s : (forall a k s, f a mem k s = g a mem k s) -> (m ≫= f) mem k s = (m ≫= g) mem k s.
Proof. intros E. unfold mbind, action_bind. destruct (m mem k s) as [[[a k'] s']| |]; [apply E|done..]. Qed.

End Laws.

Section Runs.
Context `{Binn} {K V : Type} `{Core K, Views K V}.
Context (fuel : nat) (is_empty : mdv_topology -> bool) (batch_size : nat) (clock : Z) (spins : nat).
Abbreviation run := (run_task fuel is_empty batch_size clock spins).

Lemma run_next n t mem k (s : mdv_fetcher K V) :
  run (S n) t mem k s = (task_step fuel is_empty batch_size clock spins t ≫= fun x => match x with Some t => run n t | None => mret tt end) mem k s.
Proof. done. Qed.

Ltac run_step :=
  lazymatch goal with
  | |- ?x = ?x => reflexivity
  | |- ((?m ≫= ?f) ≫= ?g) _ _ _ = _ => rewrite (bind_assoc m f g)
  | |- _ = ((?m ≫= ?f) ≫= ?g) _ _ _ => rewrite (bind_assoc m f g)
  | |- (mret ?a ≫= ?f) _ _ _ = _ => rewrite (ret_bind a f)
  | |- _ = (mret ?a ≫= ?f) _ _ _ => rewrite (ret_bind a f)
  | |- ((match ?x with _ => _ end) ≫= _) _ _ _ = _ => destruct x eqn:?
  | |- (match ?x with _ => _ end) _ _ _ = _ => destruct x eqn:?
  | |- _ = (match ?x with _ => _ end) _ _ _ => destruct x eqn:?
  | |- (?m ≫= ?f) ?mem ?k ?s = (?m ≫= ?g) ?mem ?k ?s => apply (bind_ext m f g mem k s); intros
  | |- _ = ((match ?x with _ => _ end) ≫= _) _ _ _ => destruct x eqn:?
  | |- run_task _ _ _ _ _ _ (match ?x with _ => _ end) _ _ _ = _ => destruct x eqn:?
  | |- run_task _ _ _ _ _ (S ?n) ?t _ _ _ = _ => rewrite (run_next n t); cbn [task_step]
  end; cbn beta iota zeta delta [fst snd];
  repeat match goal with E : ?x = _ |- context [match ?x with _ => _ end] => rewrite E; cbn iota end.

Lemma select_run session req table_id fields filter mem k (s : mdv_fetcher K V) :
  run 7 (Tk_select session req table_id fields filter) mem k s = (mdv_fetcher_evt_select fuel is_empty clock session req table_id fields filter;; mret tt) mem k s.
Proof. unfold mdv_fetcher_evt_select, mdv_fetcher_view_create, register_view. repeat run_step. Qed.

Lemma fetch_run session req view_id mem k (s : mdv_fetcher K V) :
  run 6 (Tk_fetch session req view_id) mem k s = (mdv_fetcher_evt_view_fetch fuel is_empty spins session req view_id;; mret tt) mem k s.
Proof. unfold mdv_fetcher_evt_view_fetch, mdv_fetcher_job_emit. repeat run_step; try done. Qed.

Lemma job_run ctx mem k (s : mdv_fetcher K V) :
  run 6 (Tk_job ctx) mem k s = (mdv_fetcher_fn fuel is_empty batch_size ctx;; mdv_fetcher_finalize spins ctx) mem k s.
Proof. unfold mdv_fetcher_fn, mdv_fetcher_finalize. repeat run_step; try done. Qed.

End Runs.

(** ** Executions *)

(** The references of a task: to views, to the fetcher, and the jobs that are counted
    for it; a job that was pushed and not yet counted is one less. *)
Definition task_views (t : task) : list nat :=
  match t with
  | Tk_register _ _ _ view | Tk_registered _ _ _ view _ | Tk_found _ _ _ view | Tk_push _ _ _ view | Tk_refused _ _ view | Tk_no_job _ _ view => [view]
  | Tk_job ctx | Tk_page ctx _ | Tk_result ctx _ | Tk_release ctx => [fc_view ctx]
  | _ => []
  end.

Definition task_refs (t : task) : nat :=
  match t with
  | Tk_push _ _ _ _ | Tk_refused _ _ _ | Tk_unpushed _ _ | Tk_job _ | Tk_page _ _ | Tk_result _ _ | Tk_release _ | Tk_leave => 1
  | _ => 0
  end.

Definition task_counted (t : task) : Z :=
  match t with
  | Tk_count => -1
  | Tk_job _ | Tk_page _ _ | Tk_result _ _ | Tk_release _ | Tk_leave | Tk_uncount => 1
  | _ => 0
  end.

(** The steps that a task has left at most. *)
Definition steps_left (t : task) : nat :=
  match t with
  | Tk_select _ _ _ _ _ | Tk_fetch _ _ _ | Tk_job _ => 6
  | Tk_create _ _ _ _ _ _ | Tk_found _ _ _ _ | Tk_page _ _ => 5
  | Tk_register _ _ _ _ | Tk_push _ _ _ _ | Tk_result _ _ => 4
  | Tk_registered _ _ _ _ _ | Tk_refused _ _ _ | Tk_release _ => 3
  | Tk_table _ _ _ _ | Tk_unpushed _ _ | Tk_no_job _ _ _ | Tk_leave => 2
  | Tk_selected _ _ _ | Tk_failed _ _ _ _ | Tk_count | Tk_uncount => 1
  end.

Definition views (ts : list task) : list nat := ts ≫= task_views.
Definition fetcher_refs (ts : list task) : nat := sum_list (task_refs <$> ts).
Definition counted (ts : list task) : Z := foldr (fun t n => (task_counted t + n)%Z) 0%Z ts.

Section Executions.
Context `{Binn} {K V : Type} `{ViewsLaws K V}.
Context (fuel : nat) (is_empty : mdv_topology -> bool) (batch_size : nat) (spins : nat).

Abbreviation fetcher := (mdv_fetcher K V).

(** Not more tasks than can be counted. *)
Definition few_tasks (ts : list task) : Prop := (Z.of_nat (length ts) < 2 ^ 29)%Z.

(** The threads take events and jobs in any order, and a step of any task is next,
    with any answers of the system at any time; the rest of the service changes the
    sessions, the tables and the queues. *)
Inductive interleaved : fetcher -> list task -> Prop :=
| il_new m1 m2 m3 m4 m5 m6 m7 h s : hub_ok fuel h -> mdv_fetcher_create m1 m2 m3 m4 m5 m6 m7 h = inl s -> interleaved s []
| il_hub s ts h' : interleaved s ts -> hub_ok fuel h' -> interleaved (set_hub s h') ts
| il_event s ts i e : interleaved s ts -> hb_requests (ft_hub s) !! i = Some e ->
    interleaved (set_hub s (set_requests (ft_hub s) (delete i (hb_requests (ft_hub s))))) (request_task e :: ts)
| il_job s ts i ctx : interleaved s ts -> ft_jobs s !! i = Some ctx -> interleaved (set_jobs s (delete i (ft_jobs s))) (Tk_job ctx :: ts)
| il_step s ts i t mem clock k o k' s' : interleaved s ts -> ts !! i = Some t -> room s -> has_number s -> few_tasks ts ->
    task_step fuel is_empty batch_size clock spins t mem k s = Done (o, k', s') -> interleaved s' (option_list o ++ delete i ts).

(** The numbers of views fit their width, and a page has rows of its table. *)
Definition task_ok (t : task) : Prop :=
  match t with
  | Tk_fetch _ _ view_id | Tk_found _ _ view_id _ | Tk_push _ _ view_id _ => fits 32 view_id
  | Tk_job ctx | Tk_result ctx _ | Tk_release ctx => fits 32 (fc_view_id ctx)
  | Tk_page ctx rowset => fits 32 (fc_view_id ctx) /\
      forall rs, rowset = Some rs -> exists desc, desc_ok (tb_desc (rs_table rs)) desc /\ Forall (row_ok desc) (rs_rows rs)
  | _ => True
  end.

(** What a step of a task leaves, beside the other tasks: references [ex] to views
    and [n] to the fetcher.  A view that neither the fetcher nor the task knew is not
    known after the step, unless it is new. *)
Definition stepped (s : fetcher) (R : gmap Z nat) (t : task) (ex : list nat) (n : nat * Z) (o : option task) (s' : fetcher) : Prop :=
  exists R', finv fuel s' R' (views (option_list o) ++ ex) (fetcher_refs (option_list o) + n.1, (counted (option_list o) + n.2)%Z)
  /\ (forall t', o = Some t' -> task_ok t' /\ steps_left t' < steps_left t)
  /\ hb_requests (ft_hub s') = hb_requests (ft_hub s)
  /\ (exists l, ft_jobs s' = ft_jobs s ++ l /\ Forall (fun ctx => fits 32 (fc_view_id ctx)) l)
  /\ (forall a, a <> ft_next s -> a ∉ held R s ++ task_views t -> a ∉ held R' s' ++ views (option_list o))
  /\ (forall session req table a, o = Some (Tk_register session req table a) -> a = ft_next s /\ held R' s' = held R s).

(** A step that leaves the map as it was. *)
Lemma stepped_same s R t ex n o s' :
  finv fuel s' R (views (option_list o) ++ ex) (fetcher_refs (option_list o) + n.1, (counted (option_list o) + n.2)%Z) ->
  ft_jobs s' = ft_jobs s -> hb_requests (ft_hub s') = hb_requests (ft_hub s) -> (forall t', o = Some t' -> task_ok t' /\ steps_left t' < steps_left t) ->
  (forall a, a ∈ views (option_list o) -> a ∈ held R s ++ task_views t) -> (forall session req table a, o <> Some (Tk_register session req table a)) ->
  stepped s R t ex n o s'.
Proof.
  intros Hi Ej Eq Hok Hv Hn. assert (Eh : held R s' = held R s) by (unfold held; by rewrite Ej). exists R. split_and!; [done..| | |].
  - exists []. by rewrite app_nil_r.
  - intros a _ Ha Hin. apply Ha. rewrite Eh in Hin. apply elem_of_app in Hin as [?|?]; [apply elem_of_app; by left|by apply Hv].
  - intros ???? E. by destruct (Hn _ _ _ _ E).
Qed.

Section Steps.
Context (clock : Z) (mem : nat -> bool) (s : fetcher) (R : gmap Z nat) (ex : list nat) (n1 : nat) (n2 : Z).
Context (Hroom : room s) (Hnum : has_number s) (Hex : few 0 ex) (Hrefs : few_refs n1).

Definition before (t : task) : Prop := finv fuel s R (task_views t ++ ex) (task_refs t + n1, (task_counted t + n2)%Z).
Definition step_ok (t : task) : Prop := wp mem (task_step fuel is_empty batch_size clock spins t) s (stepped s R t ex (n1, n2)).

(** The map is as before, and so are the jobs. *)
Ltac same := eapply stepped_same; [eassumption|try done..];
  try (intros ? [= <-]; split; [done|cbn; lia]); try (cbn; intros ? ?; set_solver).

Lemma select_step session req table_id fields filter : before (Tk_select session req table_id fields filter) -> step_ok (Tk_select session req table_id fields filter).
Proof.
  intros Hi. unfold step_ok. cbn [task_step]. unfold mdv_fetcher_table. do 3 wp_step. destruct b; [|do 2 wp_step; same].
  wp_step. eapply (core_wp fuel mem _ _ _ _ _ (fun _ => True)); [exact Hi|intros k Hk; eapply wp_mono; [by apply table_get_law|done]|]. intros [e t] k _ Hi1. wp_step. cbn [fst snd].
  destruct (decide (e = MDV_OK)) as [->|]; [|wp_step; same]. destruct t as [t|]; [|wp_step; same]. wp_step. apply parse_filter_wp. intros [p|] _; wp_step; same.
Qed.

Lemma create_step session req table_id fields table p : before (Tk_create session req table_id fields table p) -> step_ok (Tk_create session req table_id fields table p).
Proof.
  intros Hi. unfold step_ok. cbn [task_step]. wp_step. eapply (view_made_wp fuel mem (fun _ => True)); [by apply any_select|done|exact Hi|..].
  - intros v a s' _ Hi' (Ej & _ & Eq) Eg Hv Hn Ea. wp_step. assert (Eh : held R s' = held R s) by (unfold held; by rewrite Ej).
    exists R. split_and!; [exact Hi'|by intros ? [= <-]; split; [done|cbn; lia]|done|by exists []; rewrite app_nil_r| |by intros ???? [= <- <- <- <-]].
    intros b Hb Hin. rewrite Eh. cbn. rewrite elem_of_app, list_elem_of_singleton. rewrite elem_of_app in Hin. intros [?| ->]; tauto.
  - intros text s' _ Hi' (Ej & _ & Eq). wp_step. same.
Qed.

Lemma register_step session req table view : before (Tk_register session req table view) -> view ∉ (map_to_list R).*2 -> step_ok (Tk_register session req table view).
Proof.
  intros Hi Hv. unfold step_ok. cbn [task_step]. wp_step. eapply view_register_wp; [exact Hi|done|unfold few in *; lia|done|done|..].
  - intros v hm Hl Hi' Hnone. wp_step. exists (<[ft_idgen s := view]> R). split_and!; [exact Hi'|by intros ? [= <-]; split; [done|cbn; lia]|done|by exists []; rewrite app_nil_r| |done].
    intros a _ Ha Hin. apply Ha. revert Hin. unfold held. cbn [ft_jobs registered set_views]. rewrite !elem_of_app, map_perm by done. cbn. rewrite !elem_of_cons. tauto.
  - intros _ err s' _ Hi' (Ej & _ & Eq). wp_step. same.
Qed.

Lemma table_step session req table r : before (Tk_table session req table r) -> step_ok (Tk_table session req table r).
Proof.
  intros Hi. unfold step_ok. cbn [task_step]. wp_step. eapply (core_wp fuel mem _ _ _ _ _ (fun _ => True)); [exact Hi|intros k Hk; eapply wp_mono; [by apply table_release_law|done]|]. intros [] k _ Hi'. wp_step. same.
Qed.

Lemma selected_step session req r : before (Tk_selected session req r) -> step_ok (Tk_selected session req r).
Proof.
  intros Hi. destruct r as [[err message] view_id]. unfold step_ok. cbn [task_step]. wp_step. case_decide.
  - do 2 wp_step. destruct b; [|do 2 wp_step; same]. eapply publish_event_wp; [exact Hi|done|]. intros e h Hq Hi'. wp_step. same. apply Hq.
  - eapply status_wp; [exact Hi|]. intros e h Hq Hi'. wp_step. same. apply Hq.
Qed.

Lemma fetch_step session req view_id : fits 32 view_id -> before (Tk_fetch session req view_id) -> step_ok (Tk_fetch session req view_id).
Proof.
  intros Hid Hi. unfold step_ok. cbn [task_step]. wp_step. eapply view_find_wp; [exact Hi|done|unfold few in *; cbn; lia|done|intros _; wp_step; same|].
  intros a v Ha Hv s' Hi'. wp_step. same. cbn. intros b ->%list_elem_of_singleton. rewrite elem_of_app. left. by eapply in_held.
Qed.

Lemma found_step session req view_id view : fits 32 view_id -> before (Tk_found session req view_id view) -> step_ok (Tk_found session req view_id view).
Proof.
  intros Hid Hi. unfold step_ok. cbn [task_step]. do 2 wp_step. destruct b; [|wp_step; same]. wp_step. eapply retain_wp; [exact Hi|done|done|]. intros s' Hi' E. wp_step. same; by rewrite E.
Qed.

Lemma push_step session req view_id view : fits 32 view_id -> before (Tk_push session req view_id view) -> step_ok (Tk_push session req view_id view).
Proof.
  intros Hid Hi. unfold step_ok. cbn [task_step]. do 2 wp_step. destruct b; [|wp_step; same]. do 4 wp_step. wp_step.
  exists R. split_and!; [|by intros ? [= <-]; split; [done|cbn; lia]|done|eexists; split; [done|by constructor]| |done].
  - destruct Hi as [I1 I2 I3 I4 I5 I6 I7 I8]. split; try done; cbn [ft_heap ft_jobs ft_rc ft_active_jobs set_jobs fst snd] in *.
    + eapply heap_ok_perm; [|exact I1]. unfold held. cbn. rewrite fmap_app. cbn. by rewrite <- !app_assoc.
    + rewrite length_app. cbn in *. lia.
    + rewrite length_app. cbn in *. rewrite I6. f_equal. lia.
  - intros a _ Ha Hin. apply Ha. revert Hin. unfold held. cbn. rewrite fmap_app, app_nil_r. cbn. by rewrite app_assoc.
Qed.

(** A change of the counter of the jobs. *)
Lemma finv_count ex0 m x d : finv fuel s R ex0 (m, x) -> finv fuel (set_active s (u64 (ft_active_jobs s + d))) R ex0 (m, (x + d)%Z).
Proof. intros [I1 I2 I3 I4 I5 I6 I7 I8]. split; try done. cbn [ft_active_jobs set_active ft_jobs snd] in *. rewrite I6, u64_add. f_equal. lia. Qed.

Lemma count_step : before Tk_count -> step_ok Tk_count.
Proof.
  intros Hi. unfold step_ok. cbn [task_step]. do 4 wp_step. wp_step. apply (finv_count _ _ _ 1) in Hi. replace (task_counted Tk_count + n2 + 1)%Z with n2 in Hi by (cbn; lia). same.
Qed.

Lemma uncount_step : before Tk_uncount -> step_ok Tk_uncount.
Proof.
  intros Hi. unfold step_ok. cbn [task_step]. do 4 wp_step. wp_step. apply (finv_count _ _ _ (-1)) in Hi. replace (task_counted Tk_uncount + n2 + -1)%Z with n2 in Hi by (cbn; lia). same.
Qed.

(** Steps that give a reference to a view back, or one to the fetcher. *)
Lemma give_view view t t' : task_views t = [view] -> task_views t' = [] -> task_refs t' = task_refs t -> task_counted t' = task_counted t -> task_ok t' -> steps_left t' < steps_left t ->
  before t -> wp mem (release_view view;; mret (Some t')) s (stepped s R t ex (n1, n2)).
Proof.
  intros Ev Ev' Er Ec Hok Hl Hi. unfold before in Hi. rewrite Ev in Hi. wp_step. eapply release_view_wp; [exact Hi|done|unfold few in *; lia|]. intros s' (Ej & _ & Eq)%frame_released Hi'. wp_step.
  apply (stepped_same s R t ex (n1, n2) (Some t')); [|done|done|by intros ? [= <-]|cbn; rewrite Ev'; set_solver|by intros ???? [= ->]].
  unfold views, fetcher_refs, counted. cbn. rewrite Ev', Er, Ec. cbn. by rewrite Nat.add_0_r, Z.add_0_r.
Qed.

Lemma give_fetcher t t' : task_views t = [] -> task_views t' = [] -> task_refs t = 1 -> task_refs t' = 0 -> task_counted t' = task_counted t -> task_ok t' -> steps_left t' < steps_left t ->
  before t -> wp mem (mdv_fetcher_release spins;; mret (Some t')) s (stepped s R t ex (n1, n2)).
Proof.
  intros Ev Ev' Er Er' Ec Hok Hl Hi. unfold before in Hi. rewrite Ev, Er in Hi. wp_step. eapply release_wp; [exact Hi|done|done|]. intros c s' Hi' E. wp_step.
  apply (stepped_same s R t ex (n1, n2) (Some t')); [|by rewrite E|by rewrite E|by intros ? [= <-]|cbn; rewrite Ev'; set_solver|by intros ???? [= ->]].
  unfold views, fetcher_refs, counted. cbn. rewrite Ev', Er', Ec. cbn. by rewrite Z.add_0_r.
Qed.

Lemma failed_step session req err message : before (Tk_failed session req err message) -> step_ok (Tk_failed session req err message).
Proof. intros Hi. unfold step_ok. cbn [task_step]. wp_step. eapply status_wp; [exact Hi|]. intros e h Hq Hi'. wp_step. same. apply Hq. Qed.

Lemma job_step ctx : fits 32 (fc_view_id ctx) -> before (Tk_job ctx) -> step_ok (Tk_job ctx).
Proof.
  intros Hid Hi. unfold step_ok. cbn [task_step].
  eapply (fetch_wp fuel batch_size mem (fc_view ctx) s R (fc_view ctx :: ex) _ (fun _ _ => True)) with (cont := fun x => mret (Some (Tk_page ctx x)));
    [exact Hi|rewrite elem_of_app; right; by left|intros v k Hv Hk; by eapply wp_mono; [by apply view_fetch_law|]|].
  intros v r k Hv _ Hrows s' Hi'. wp_step. same.
Qed.

Lemma page_step ctx rowset : task_ok (Tk_page ctx rowset) -> before (Tk_page ctx rowset) -> step_ok (Tk_page ctx rowset).
Proof.
  intros [Hid Hrows] Hi. unfold step_ok. destruct rowset as [rs|]; cbn [task_step].
  - destruct (Hrows rs eq_refl) as (desc & Hd & Hrs). wp_step. eapply wp_write; [by apply (Rowdata.Rowdata.makes_rowset desc)|]. intros r [-> | ->] _; [|wp_step; same].
    do 2 wp_step. destruct b; [|wp_step; same]. wp_step. eapply publish_event_wp; [exact Hi|done|]. intros err h Hq Hi2. wp_step. same. apply Hq.
  - wp_step. eapply unregister_wp; [exact Hi|done|unfold few in *; cbn; lia|done|intros s' Hi' _ ->; wp_step; same|].
    intros a s' hm Ha Hrel Hi'. wp_step. destruct (frame_released _ _ _ Hrel) as (E1 & _ & E2). exists (delete (fc_view_id ctx) R). split_and!; [exact Hi'|by intros ? [= <-]; split; [done|cbn; lia]|done|by exists []; rewrite app_nil_r| |done].
    intros b _ Hb Hin. apply Hb. revert Hin. unfold held. cbn [ft_jobs set_views]. rewrite E1, (delete_perm R _ _ Ha), !elem_of_app, elem_of_cons. cbn. tauto.
Qed.

Lemma result_step ctx r : fits 32 (fc_view_id ctx) -> before (Tk_result ctx r) -> step_ok (Tk_result ctx r).
Proof.
  intros Hid Hi. unfold step_ok. cbn [task_step]. wp_step. destruct (r.1 =? MDV_OK)%Z; [do 2 wp_step; same|]. wp_step. eapply status_wp; [exact Hi|]. intros e h Hq Hi'. do 2 wp_step. same. apply Hq.
Qed.

(** *** The next step of any task *)

Lemma task_step_wp t : before t -> task_ok t -> (forall session req table a, t = Tk_register session req table a -> a ∉ (map_to_list R).*2) -> step_ok t.
Proof.
  intros Hi Hok Hnew. destruct t; try (unfold step_ok; cbn [task_step]; first [eapply give_view|eapply give_fetcher]; (done || (cbn; lia))).
  - by apply select_step.
  - by apply create_step.
  - apply register_step; [done|by eapply Hnew].
  - by apply table_step.
  - by apply selected_step.
  - by apply fetch_step.
  - by apply found_step.
  - by apply push_step.
  - by apply count_step.
  - by apply failed_step.
  - by apply job_step.
  - by apply page_step.
  - by apply result_step.
  - by apply uncount_step.
Qed.

End Steps.

(** *** All tasks together *)

Lemma views_app ts1 ts2 : views (ts1 ++ ts2) = views ts1 ++ views ts2.
Proof. apply bind_app. Qed.

Lemma fetcher_refs_app ts1 ts2 : fetcher_refs (ts1 ++ ts2) = fetcher_refs ts1 + fetcher_refs ts2.
Proof. unfold fetcher_refs. induction ts1; cbn in *; lia. Qed.

Lemma counted_app ts1 ts2 : counted (ts1 ++ ts2) = (counted ts1 + counted ts2)%Z.
Proof. unfold counted. induction ts1; cbn in *; lia. Qed.

#[local] Instance views_perm : Proper ((≡ₚ) ==> (≡ₚ)) views.
Proof. intros l l' Hp. unfold views. by rewrite Hp. Qed.

#[local] Instance fetcher_refs_perm : Proper ((≡ₚ) ==> (=)) fetcher_refs.
Proof. intros l l' Hp. unfold fetcher_refs. induction Hp; cbn in *; lia. Qed.

#[local] Instance counted_perm : Proper ((≡ₚ) ==> (=)) counted.
Proof. intros l l' Hp. unfold counted. induction Hp; cbn in *; lia. Qed.

Lemma views_few ts : few_tasks ts -> few 0 (views ts) /\ few_refs (fetcher_refs ts).
Proof.
  intros Hf. unfold few_tasks, few, few_refs in *. assert (length (views ts) <= length ts /\ fetcher_refs ts <= length ts); [|lia]. clear Hf.
  induction ts as [|t ts [IH1 IH2]]; [done|]. unfold views, fetcher_refs in *. cbn. rewrite length_app. assert (length (task_views t) <= 1 /\ task_refs t <= 1) by (destruct t; cbn; lia). lia.
Qed.

(** The view of a select that is not yet registered is known to no other task. *)
Definition exclusive (s : fetcher) (R : gmap Z nat) (ts : list task) : Prop :=
  forall session req table a, Tk_register session req table a ∈ ts -> refs a (held R s ++ views ts) = 1%Z.

Definition tinv (s : fetcher) (ts : list task) : Prop :=
  (exists R, finv fuel s R (views ts) (fetcher_refs ts, counted ts) /\ exclusive s R ts)
  /\ Forall task_ok ts /\ Forall request_ok (hb_requests (ft_hub s)) /\ Forall (fun ctx => fits 32 (fc_view_id ctx)) (ft_jobs s).

Lemma no_view s R ex n : finv fuel s R ex n -> refs (ft_next s) (held R s ++ ex) = 0%Z.
Proof.
  intros Hi. pose proof (fi_heap _ _ _ _ _ Hi (ft_next s)) as Hh. destruct (ft_heap s !! ft_next s) eqn:E; [|done]. pose proof (fi_next _ _ _ _ _ Hi (ft_next s)) as Hn. rewrite E in Hn. specialize (Hn ltac:(by eexists)). lia.
Qed.

Lemma exclusive_step s R t rest n o s' R' :
  exclusive s R (t :: rest) -> finv fuel s R (task_views t ++ views rest) n ->
  (forall a, a <> ft_next s -> a ∉ held R s ++ task_views t -> a ∉ held R' s' ++ views (option_list o)) ->
  (forall session req table a, o = Some (Tk_register session req table a) -> a = ft_next s /\ held R' s' = held R s) ->
  exclusive s' R' (option_list o ++ rest).
Proof.
  intros Hx Hi Hk Hn session req table a [Ho|Hr]%elem_of_app; rewrite views_app; rewrite !refs_app.
  - destruct o as [u|]; [|by apply not_elem_of_nil in Ho]. apply list_elem_of_singleton in Ho as <-. destruct (Hn _ _ _ _ eq_refl) as [-> ->]. pose proof (no_view _ _ _ _ Hi) as Hz. rewrite !refs_app in Hz.
    cbn. rewrite refs_cons, decide_True by done. change (refs (ft_next s) []) with 0%Z. pose proof (refs_nonneg (ft_next s) (held R s)). pose proof (refs_nonneg (ft_next s) (views rest)). pose proof (refs_nonneg (ft_next s) (task_views t)). lia.
  - specialize (Hx session req table a ltac:(by right)). change (views (t :: rest)) with (task_views t ++ views rest) in Hx. assert (Hne : a <> ft_next s). { intros ->. rewrite (no_view _ _ _ _ Hi) in Hx. lia. }
    assert (Ha : a ∈ views rest). { unfold views. apply list_elem_of_bind. eexists. split; [|exact Hr]. cbn. by left. }
    apply refs_in in Ha. rewrite !refs_app in Hx. pose proof (refs_nonneg a (held R s)). pose proof (refs_nonneg a (task_views t)).
    assert (Hout : a ∉ held R s ++ task_views t). { intros Hin%refs_in. rewrite refs_app in Hin. lia. }
    specialize (Hk a Hne Hout). apply refs_out in Hk. rewrite refs_app in Hk. lia.
Qed.

Lemma task_step_safe mem clock s ts i t :
  tinv s ts -> ts !! i = Some t -> room s -> has_number s -> few_tasks ts ->
  wp mem (task_step fuel is_empty batch_size clock spins t) s (fun o s' => tinv s' (option_list o ++ delete i ts) /\ forall t', o = Some t' -> steps_left t' < steps_left t).
Proof.
  intros ((R & Hi & Hx) & Hts & Hreq & Hjobs) Ht Hr Hn Hf. pose proof (delete_Permutation _ _ _ Ht) as Hp. destruct (views_few _ Hf) as [Hf1 Hf2]. set (rest := delete i ts) in *.
  assert (Hi1 : finv fuel s R (task_views t ++ views rest) (task_refs t + fetcher_refs rest, (task_counted t + counted rest)%Z)).
  { eapply finv_perm; [|assert (En : (fetcher_refs ts, counted ts) = (task_refs t + fetcher_refs rest, (task_counted t + counted rest)%Z)) by (rewrite Hp; done); rewrite <- En; exact Hi]. by rewrite Hp. }
  assert (Hx1 : exclusive s R (t :: rest)). { intros session req table a Ha. rewrite <- Hp in Ha. rewrite <- (Hx _ _ _ _ Ha). apply refs_perm. by rewrite Hp. }
  assert (Hfew : few 0 (views rest) /\ few_refs (fetcher_refs rest)). { apply views_few. unfold few_tasks in *. apply Permutation_length in Hp. cbn in Hp. lia. }
  rewrite Hp in Hts. apply Forall_cons in Hts as [Hok Hts].
  eapply wp_mono; [apply (task_step_wp clock mem s R (views rest) (fetcher_refs rest) (counted rest)); try done; try apply Hfew|].
  - intros session req table a ->. specialize (Hx1 _ _ _ a ltac:(by left)). cbn in Hx1. rewrite refs_app, refs_cons, decide_True in Hx1 by done. intros Hin%refs_in. unfold held in Hx1. rewrite !refs_app in Hx1.
    pose proof (refs_nonneg a (fc_view <$> ft_jobs s)). pose proof (refs_nonneg a (views rest)). change (rest ≫= task_views) with (views rest) in Hx1. lia.
  - cbn beta. intros o s' (R' & Hi' & Hoks & Eq & (l & Ej & Hl) & Hk & Hnew). split; [split_and!|].
    + exists R'. rewrite views_app, fetcher_refs_app, counted_app. split; [exact Hi'|]. by eapply exclusive_step.
    + apply Forall_app. split; [|done]. destruct o; [|done]. apply Forall_singleton. by apply Hoks.
    + by rewrite Eq.
    + rewrite Ej. by apply Forall_app.
    + intros t' E. by apply Hoks.
Qed.

Lemma interleaved_tinv s ts : interleaved s ts -> tinv s ts.
Proof.
  induction 1 as [m1 m2 m3 m4 m5 m6 m7 h s Hh Es|s ts h' Hs IH (Hc & Hu & Hq)|s ts i e Hs IH He|s ts i ctx Hs IH Hc|s ts i t mem clock k o k' s' Hs IH Ht Hr Hn Hf E].
  - destruct (reached_sinv fuel is_empty batch_size spins s) as ((R & Hi) & Hq & Hj); [by eapply reached_new|]. split_and!; [|done..]. exists R. split; [done|]. by intros ???? Ha%elem_of_nil.
  - destruct IH as ((R & Hi & Hx) & Ht & _ & Hj). split_and!; [|done..]. exists R. split; [|exact Hx]. destruct Hi. by split.
  - destruct IH as ((R & Hi & Hx) & Ht & Hq & Hj). pose proof (proj1 (Forall_lookup _ _) Hq _ _ He) as Hok. split_and!; [|by constructor; [destruct e|]|cbn; by apply Forall_delete|done].
    exists R. destruct e; (split; [by destruct Hi|]); intros ???? [[=]|Ha]%elem_of_cons; by apply (Hx _ _ _ _ Ha).
  - destruct IH as ((R & Hi & Hx) & Ht & Hq & Hj). pose proof (proj1 (Forall_lookup _ _) Hj _ _ Hc) as Hok. split_and!; [|by constructor|done|cbn; by apply Forall_delete].
    exists R. split.
    + pose proof (finv_take fuel s R (views ts) _ _ i ctx Hi Hc) as Hi'. by rewrite Z.add_comm in Hi'.
    + intros ???? [[=]|Ha]%elem_of_cons. rewrite <- (Hx _ _ _ _ Ha). apply refs_perm. unfold held. cbn [ft_jobs set_jobs].
      assert (Hp : fc_view <$> ft_jobs s ≡ₚ fc_view ctx :: (fc_view <$> delete i (ft_jobs s))) by (by rewrite (delete_Permutation (ft_jobs s) i ctx Hc) at 1).
      rewrite Hp. cbn. rewrite <- !app_assoc. cbn. by rewrite <- !Permutation_middle.
  - destruct (task_step_safe mem clock s ts i t IH Ht Hr Hn Hf k) as (o2 & k2 & s2 & E2 & Hs2 & _). rewrite E in E2. by injection E2 as <- <- <-.
Qed.

(** C4: in every execution of the fetcher, in which the steps of any number of selects,
    fetches and jobs follow each other in any order while the sessions and the tables
    change and any call to the system can fail, a view is alive exactly as long as the
    map of the views, a job or a thread holds it, and its counter is the number of
    these references; the counters of the fetcher are those of its jobs and threads;
    the next step of any thread can be made, without access to a view that was freed,
    and every thread comes to the end of its handler or job.  A section under the
    mutex is a step, and so is a page that is read: it is not shown what two jobs do
    that read from the same view at the same time.  There are fewer than [2^31] jobs,
    [2^29] threads and [2^32 - 1] views that were ever registered. *)
Theorem mdv_fetcher_threads_safe s ts :
  interleaved s ts ->
  (exists R, (forall id, fits 32 id -> fv_view <$> Hashmap.lookup fv_id (ft_views s) id = R !! id) /\ heap_ok (ft_heap s) (held R s ++ views ts))
  /\ ft_rc s = (1 + Z.of_nat (length (ft_jobs s) + fetcher_refs ts))%Z
  /\ ft_active_jobs s = u64 (Z.of_nat (length (ft_jobs s)) + counted ts)
  /\ (room s -> has_number s -> few_tasks ts -> forall i t mem clock k, ts !! i = Some t ->
       exists o k' s', task_step fuel is_empty batch_size clock spins t mem k s = Done (o, k', s') /\ forall t', o = Some t' -> steps_left t' < steps_left t).
Proof.
  intros Hs%interleaved_tinv. pose proof Hs as ((R & [I1 (_ & I2 & _) _ _ I5 I6 _ _] & _) & _). split_and!; [by exists R|done|done|].
  intros Hr Hn Hf i t mem clock k Ht. destruct (task_step_safe mem clock s ts i t Hs Ht Hr Hn Hf k) as (o & k' & s' & E & _ & Hl). by exists o, k', s'.
Qed.

(** *** Schedules *)

#[local] Instance room_decision (s : fetcher) : Decision (room s) := _ : Decision (_ < _)%Z.
#[local] Instance number_decision (s : fetcher) : Decision (has_number s) := _ : Decision (_ /\ _).
#[local] Instance few_decision ts : Decision (few_tasks ts) := _ : Decision (_ < _)%Z.

(** Which event, job or task is next. *)
Inductive move := Mv_event (i : nat) | Mv_job (i : nat) | Mv_step (i : nat).

Definition move_next (mem : nat -> bool) (clock : Z) (w : fetcher * list task) (m : move) : option (fetcher * list task) :=
  let '(s, ts) := w in
  match m with
  | Mv_event i => e ← hb_requests (ft_hub s) !! i; Some (set_hub s (set_requests (ft_hub s) (delete i (hb_requests (ft_hub s)))), request_task e :: ts)
  | Mv_job i => ctx ← ft_jobs s !! i; Some (set_jobs s (delete i (ft_jobs s)), Tk_job ctx :: ts)
  | Mv_step i =>
      t ← ts !! i;
      if decide (room s /\ has_number s /\ few_tasks ts) then
        match task_step fuel is_empty batch_size clock spins t mem 0 s with Done (o, _, s') => Some (s', option_list o ++ delete i ts) | _ => None end
      else None
  end.

Definition schedule (mem : nat -> bool) (clock : Z) (w : fetcher * list task) (l : list move) : option (fetcher * list task) :=
  foldl (fun w m => w ≫= fun w => move_next mem clock w m) (Some w) l.

Lemma move_interleaved mem clock w m w' : interleaved w.1 w.2 -> move_next mem clock w m = Some w' -> interleaved w'.1 w'.2.
Proof.
  destruct w as [s ts], m as [i|i|i]; cbn; intros Hs E.
  - destruct (hb_requests (ft_hub s) !! i) eqn:Ei; [|done]. injection E as <-. by apply il_event.
  - destruct (ft_jobs s !! i) eqn:Ei; [|done]. injection E as <-. by apply il_job.
  - destruct (ts !! i) as [t|] eqn:Ei; [|done]. cbn in E. case_decide as Hc; [|done]. destruct (task_step _ _ _ _ _ _ _ _ _) as [[[o k'] s']| |] eqn:Et; [|done..]. injection E as <-.
    eapply il_step; [exact Hs|exact Ei|apply Hc|apply Hc|apply Hc|exact Et].
Qed.

Lemma schedule_interleaved mem clock l : forall w w', interleaved w.1 w.2 -> schedule mem clock w l = Some w' -> interleaved w'.1 w'.2.
Proof.
  unfold schedule. induction l as [|m l IH]; intros w w' Hs E; cbn in E; [by injection E as <-|].
  destruct (move_next mem clock w m) as [w1|] eqn:Em; [|assert (En : foldl (fun w m => w ≫= fun w => move_next mem clock w m) None l = None) by (clear; by induction l); by rewrite En in E].
  eapply (IH w1); [by eapply move_interleaved|exact E].
Qed.

End Executions.

(** ** Witness *)

#[local] Existing Instance demo_laws.

Definition two_fetches : hub storage :=
  mk_hub [(demo_table, [demo_row; demo_row])] [demo_user]
    [Evt_select (mk_uuid 5 6) 4 (tb_id demo_table) all_fields []; Evt_view_fetch (mk_uuid 5 6) 5 0; Evt_view_fetch (mk_uuid 5 6) 6 0].

Definition two_new : mdv_fetcher storage storage_view := match mdv_fetcher_create true true true true true true true two_fetches with inl s => s | inr _ => demo_new end.

(** The select runs to its end; the two fetches are handled at once, and then their
    jobs; the first has its page, and the second has unregistered the view. *)
Definition two_jobs : option (mdv_fetcher storage storage_view * list task) :=
  schedule 100 (fun _ => false) 2 1 (fun _ => true) 7 (two_new, [])
    ([Mv_event 0] ++ replicate 6 (Mv_step 0) ++ [Mv_event 0; Mv_event 0] ++ [Mv_step 0; Mv_step 1; Mv_step 1; Mv_step 0; Mv_step 1; Mv_step 0; Mv_job 0; Mv_step 1; Mv_step 1; Mv_job 0]
     ++ [Mv_step 1; Mv_step 1; Mv_step 1; Mv_step 1]).

Lemma two_fetches_ok : hub_ok 100 two_fetches.
Proof.
  destruct demo_hub_ok as (Hc & Hu & _). split_and!; [exact Hc|exact Hu|repeat constructor; cbn; lia].
Qed.

Lemma two_jobs_interleaved s ts : two_jobs = Some (s, ts) -> interleaved 100 (fun _ => false) 2 1 s ts.
Proof.
  intros E. unfold two_jobs in E. eapply (schedule_interleaved 100 (fun _ => false) 2 1) in E; [exact E|]. clear E.
  apply (il_new 100 _ _ _ true true true true true true true two_fetches); [exact two_fetches_ok|reflexivity].
Qed.

Lemma mdv_fetcher_threads_safe_witness :
  match two_jobs with
  | Some (s, ts) => mdv_hashmap_foreach (ft_views s) = [] /\ views ts = [0; 0] /\ ft_rc s = 3%Z
      /\ forall i t, ts !! i = Some t -> exists o k' s', task_step 100 (fun _ => false) 2 8 1 t (fun _ => false) 0 s = Done (o, k', s')
  | None => False
  end.
Proof.
  destruct two_jobs as [[s ts]|] eqn:E; [|vm_compute in E; discriminate E].
  destruct (mdv_fetcher_threads_safe 100 (fun _ => false) 2 1 s ts (two_jobs_interleaved s ts E)) as (_ & _ & _ & Hstep).
  assert (Ew : match two_jobs with Some (s, ts) => mdv_hashmap_foreach (ft_views s) = [] /\ views ts = [0; 0] /\ ft_rc s = 3%Z /\ ft_idgen s = 1%Z /\ length (ft_jobs s) = 0 /\ length ts = 2 | None => False end) by (vm_compute; split_and!; reflexivity).
  rewrite E in Ew. destruct Ew as (E1 & E2 & E3 & E4 & E5 & E6). split_and!; [exact E1|exact E2|exact E3|]. clear E. intros i t Ht.
  destruct (Hstep ltac:(unfold room; rewrite E5; lia) ltac:(unfold has_number; rewrite E4; lia) ltac:(unfold few_tasks; rewrite E6; lia) i t (fun _ => false) 8%Z 0 Ht) as (o & k' & s' & Es & _).
  exists o, k', s'. exact Es.
Defined.

End FetcherThreads.
