(* ===== verification/Client.v ===== *)
(** * Client library (src/mdv_api/mdv_client.c, mdv_connection.c, mdv_proto.c)

    The functions that programs call to use a server: each writes a request to a
    document, sends it over the connection, waits for the response and reads it.  A
    select gives a set of rows whose enumerator fetches page after page.

    What a request over the connection gives is the class [Remote]; the dispatcher
    and the frames are the subject of [Dispatcher] and [Msg].  At the end of the file
    the server of [User] and [Fetcher] is put behind it: the bytes that the client
    writes are read by the session of the client, the threads of the server do what
    there is to do, and the client reads the bytes of the answer. *)

From stdpp Require Import strings.
From S2P Require Import Prelude Bitset Uuid Hashmap Rollbacker Binn Topology Router Types Serialization Action Msg Messages User Fetcher.
Import Bitset Uuid Hashmap Rollbacker Binn Topology Types Serialization Action Msg Messages User.
#[local] Open Scope string_scope.
#[local] Open Scope nat_scope.
#[local] Open Scope list_scope.

Module Client.

(** ** Handshake (mdv_proto.c) *)

Definition MDV_USER_CHANNEL : Z := 0.
Definition MDV_PEER_CHANNEL : Z := 1.
Definition MDV_SIGNATURE : bytes := [77; 68; 86]%Z.
Definition MDV_VERSION : Z := 1.

(** The structure has 24 bytes: the signature, the type, the version, the
    identifier. *)
Definition handshake_bytes (type : Z) (uuid : mdv_uuid) : bytes :=
  MDV_SIGNATURE ++ to_le 1 type ++ to_le 4 (mdv_hton32 MDV_VERSION) ++ u8s uuid.

Definition mdv_handshake_write (fuel : nat) (o : sink) (type : Z) (uuid : mdv_uuid) : outcome (sink * Z) :=
  mdv_write_all fuel o (handshake_bytes type uuid).

(** What is left to read, the error, the type and the identifier. *)
Definition mdv_handshake_read (fuel : nat) (i : list rd) : outcome (list rd * Z * option (Z * mdv_uuid)) :=
  r ← mdv_read_all fuel i (replicate 24 0%Z) 0 24;
  let '(i, buf, err) := r in
  if (err =? MDV_OK)%Z then
    if negb (bool_decide (slice buf 0 3 = MDV_SIGNATURE)) then Done (i, code MDV_FAILED, None)
    else if negb (mdv_ntoh32 (of_le (slice buf 4 4)) =? MDV_VERSION)%Z then Done (i, code MDV_FAILED, None)
    else Done (i, err, Some (of_le (slice buf 3 1), mk_uuid (of_le (slice buf 8 8)) (of_le (slice buf 16 8))))
  else Done (i, err, None).

Lemma read_all_ok fuel : forall i full buf have rest,
  calm i -> filled full buf have -> arriving i = drop have full ++ rest -> cost i < fuel ->
  exists i', mdv_read_all fuel i buf have (length full) = Done (i', full, code MDV_OK) /\ calm i' /\ arriving i' = rest.
Proof.
  induction fuel as [|fuel IH]; intros i full buf have rest Hc Hf Ha Hfuel; [lia|]. cbn [mdv_read_all]. destruct (Nat.ltb_spec have (length full)) as [Hlt|Hge]; cbn [negb].
  2: { assert (have = length full) as -> by (destruct Hf as (_ & ? & _); lia). exists i. rewrite (filled_all _ _ Hf). by rewrite drop_all in Ha. }
  unfold mdv_read. destruct (Nat.eqb_spec (length full - have) 0); [lia|]. pose proof (sys_read_calm i (length full - have) Hc ltac:(lia)) as Hs. destruct (sys_read i (length full - have)) as [i' [bs|e]].
  - destruct Hs as (Hne & Hl & Hd & Hc' & Hcost). destruct bs as [|b bs]; [done|]. cbn [Z.eqb code Pos.eqb]. rewrite Ha in Hd.
    assert (Hbs : b :: bs = take (length (b :: bs)) (drop have full)). { pose proof (f_equal (take (length (b :: bs))) Hd) as Ht. rewrite take_app_length, take_app_le in Ht by (rewrite length_drop; lia). done. }
    apply (IH i' full _ _ rest Hc' (fill_more full buf have (b :: bs) Hf Hl Hbs)); [|lia].
    rewrite <- (take_drop (length (b :: bs)) (drop have full)), <- Hbs, <- app_assoc in Hd. apply app_inv_head in Hd. by rewrite drop_drop in Hd.
  - destruct Hs as (-> & Hc' & Hd & Hcost). cbn. apply (IH i' full buf have rest Hc' Hf); [by rewrite Hd|]. destruct Hcost as [-> |?]; [|lia]. cbn in Ha. symmetry in Ha.
    apply app_nil in Ha as [Ha _]. apply (f_equal length) in Ha. rewrite length_drop in Ha. cbn in Ha. lia.
Qed.

Lemma handshake_length type uuid : length (handshake_bytes type uuid) = 24.
Proof. unfold handshake_bytes, u8s. rewrite !length_app, !length_to_le. done. Qed.

(** what one side writes as its handshake, over a connection that takes it in any
    pieces, the other side reads as the same type and identifier, however the bytes
    arrive, and leaves the bytes behind the handshake. *)
Theorem mdv_handshake_roundtrip type uuid answers i rest fuel :
  fits 8 type -> Uuid.wf uuid -> willing answers -> length answers + 1 < fuel -> calm i -> cost i < fuel ->
  exists o, mdv_handshake_write fuel (mk_sink answers []) type uuid = Done (o, code MDV_OK)
    /\ (arriving i = sk_sent o ++ rest -> exists i', mdv_handshake_read fuel i = Done (i', code MDV_OK, Some (type, uuid)) /\ arriving i' = rest).
Proof.
  intros Ht [Ha Hb] Hw Hf Hc Hcost. destruct (write_all_ok fuel (mk_sink answers []) (handshake_bytes type uuid) Hw Hf) as (a' & E & _). exists (mk_sink a' (handshake_bytes type uuid)). split; [exact E|].
  intros Harr. cbn [sk_sent] in Harr. destruct (read_all_ok fuel i (handshake_bytes type uuid) (replicate 24 0%Z) 0 rest Hc) as (i' & Er & _ & Hrest); [split_and!; [by rewrite handshake_length|lia|done]|exact Harr|done|].
  exists i'. split; [|done]. unfold mdv_handshake_read. rewrite handshake_length in Er. rewrite Er. cbn [mbind outcome_bind Z.eqb code Pos.eqb].
  assert (E1 : slice (handshake_bytes type uuid) 0 3 = MDV_SIGNATURE) by done.
  assert (E2 : slice (handshake_bytes type uuid) 3 1 = to_le 1 type) by done.
  assert (E3 : slice (handshake_bytes type uuid) 4 4 = to_le 4 (mdv_hton32 MDV_VERSION)) by done.
  assert (E4 : slice (handshake_bytes type uuid) 8 8 = to_le 8 (u64_0 uuid)) by done.
  assert (E5 : slice (handshake_bytes type uuid) 16 8 = to_le 8 (u64_1 uuid)) by done.
  rewrite E1, E2, E3, E4, E5. rewrite bool_decide_eq_true_2 by done. cbn [negb]. rewrite !of_to_le. unfold mdv_ntoh32, mdv_hton32. change (256 ^ Z.of_nat 1)%Z with 256%Z.
  rewrite (Z.mod_small type), (Z.mod_small (u64_0 uuid)), (Z.mod_small (u64_1 uuid)) by (unfold fits in *; lia). destruct uuid. done.
Qed.

Lemma mdv_handshake_roundtrip_witness :
  exists o, mdv_handshake_write 60 (mk_sink [Wr_accept 3; Wr_error EAGAIN] []) MDV_PEER_CHANNEL (mk_uuid 3 4) = Done (o, code MDV_OK)
    /\ exists i', mdv_handshake_read 60 [Rd_data (take 5 (handshake_bytes 1 (mk_uuid 3 4))); Rd_error EAGAIN; Rd_data (drop 5 (handshake_bytes 1 (mk_uuid 3 4)) ++ [9]%Z)]
         = Done (i', code MDV_OK, Some (1%Z, mk_uuid 3 4)) /\ arriving i' = [9%Z].
Proof.
  destruct (mdv_handshake_roundtrip MDV_PEER_CHANNEL (mk_uuid 3 4) [Wr_accept 3; Wr_error EAGAIN]
    [Rd_data (take 5 (handshake_bytes 1 (mk_uuid 3 4))); Rd_error EAGAIN; Rd_data (drop 5 (handshake_bytes 1 (mk_uuid 3 4)) ++ [9]%Z)] [9]%Z 60) as (o & E & Hr).
  - done.
  - done.
  - by repeat constructor.
  - cbn. lia.
  - repeat constructor; done.
  - vm_compute. lia.
  - exists o. split; [exact E|]. apply Hr. vm_compute in E. injection E as <-. vm_compute. reflexivity.
Defined.

(** ** Requests *)

(** A request with its kind and payload: the error, and the response that comes with
    [MDV_OK]. *)
Class Remote (W : Type) := remote_send : Z -> bytes -> action W (Z * option mdv_msg).

(** [cn_uuid]: the identifier of the server. *)
Record mdv_connection := mk_connection { cn_rc : Z; cn_uuid : mdv_uuid }.

Definition mdv_connection_retain (con : mdv_connection) : mdv_connection := mk_connection (rc_retain (cn_rc con)) (cn_uuid con).

Definition mdv_connection_release (con : mdv_connection) : option mdv_connection :=
  let '(rc, _, dead) := rc_release (cn_rc con) in if dead then None else Some (mk_connection rc (cn_uuid con)).

(** [cl_world]: the connection and what is behind it. *)
Record mdv_client (W : Type) := mk_client { cl_connection : mdv_safeptr mdv_connection; cl_world : W }.
#[global] Arguments mk_client {W}.
#[global] Arguments cl_connection {W}.
#[global] Arguments cl_world {W}.

(** The calls of the rollback when a connection cannot be made. *)
Inductive cn_release_fn := Fn_cn_rollbacker_free | Fn_cn_free | Fn_cn_dispatcher_free.
Inductive cn_resource := Res_cn_rollbacker | Res_connection | Res_cn_dispatcher.

Definition cn_push (r : option (mdv_rollbacker cn_release_fn cn_resource)) (f : cn_release_fn) (x : cn_resource) :=
  snd (mdv_rollbacker_push r (mk_op f [x])).

(** [dispatcher]: is a dispatcher made?  [reg]: is the handler of the status
    registered?  Without a connection the descriptor is shut down. *)
Definition mdv_connection_create (mem_rbr mem dispatcher reg : bool) (uuid : mdv_uuid) : mdv_connection + list (cn_release_fn * list cn_resource) :=
  let rbr := mdv_rollbacker_create mem_rbr Fn_cn_rollbacker_free Res_cn_rollbacker 2 in
  if negb mem then inr (mdv_rollback rbr) else
  let rbr := cn_push rbr Fn_cn_free Res_connection in
  if negb dispatcher then inr (mdv_rollback rbr) else
  let rbr := cn_push rbr Fn_cn_dispatcher_free Res_cn_dispatcher in
  if negb reg then inr (mdv_rollback rbr) else inl (mk_connection 1 uuid).

(** The set of rows of a select, and its enumerator: the page with the rows that were
    fetched last. *)
Record mdv_rowset_impl := mk_rowset_impl { ri_rc : Z; ri_view_id : Z; ri_table : mdv_table }.
Record mdv_rowset_enumerator_impl := mk_enumerator_impl { ei_rowset : mdv_rowset_impl; ei_fset : option (mdv_rowset * rowset_enumerator) }.

Section Client.
Context `{Binn} {W : Type} `{Remote W}.
Context (qsort : list mdv_toponode -> list mdv_toponode).

Abbreviation ca := (action (mdv_client W)).

Definition set_connection (s : mdv_client W) (p : mdv_safeptr mdv_connection) : mdv_client W := mk_client p (cl_world s).
Definition set_world (s : mdv_client W) (w : W) : mdv_client W := mk_client (cl_connection s) w.

(** The connection has a reference more. *)
Definition mdv_client_channel_retain : ca (option mdv_connection) :=
  lock ← ask;
  s ← get;
  let '(p, con) := mdv_safeptr_get mdv_connection_retain lock (cl_connection s) in
  put (set_connection s p);; mret con.

Definition mdv_client_channel_release (con : mdv_connection) : ca unit :=
  s ← get; put (set_connection s (mk_safeptr (mdv_connection_release con))).

(** A connection is set in place of the one before. *)
Definition mdv_client_channel_set (con : mdv_connection) : ca bool :=
  lock ← ask;
  s ← get;
  let '(p, err, _) := mdv_safeptr_set mdv_connection_retain mdv_connection_release lock (cl_connection s) (Some con) in
  put (set_connection s p);; mret (bool_decide (err = MDV_OK)).

(** The client announces itself with an identifier of zeros. *)
Definition mdv_client_handshake_impl (fuel : nat) (o : sink) : outcome (sink * Z) := mdv_handshake_write fuel o MDV_USER_CHANNEL (mk_uuid 0 0).
Definition mdv_client_accept_impl (fuel : nat) (i : list rd) : outcome (list rd * Z * option (Z * mdv_uuid)) := mdv_handshake_read fuel i.

(** The channel has a reference to the new connection, and the client another. *)
Definition mdv_client_channel_create_impl (channel_id : mdv_uuid) : ca (option mdv_connection) :=
  m1 ← ask; m2 ← ask; m3 ← ask; m4 ← ask;
  match mdv_connection_create m1 m2 m3 m4 channel_id with
  | inr _ => mret None
  | inl con => ok ← mdv_client_channel_set con; mret (if (ok : bool) then Some (mdv_connection_retain con) else None)
  end.

(** The connection has a reference more while the request is under way. *)
Definition mdv_connection_send (con : mdv_connection) (id : Z) (payload : bytes) : ca (mdv_connection * (Z * option mdv_msg)) :=
  let con := mdv_connection_retain con in
  r ← zoom cl_world set_world (remote_send id payload);
  con ← lift (deref (mdv_connection_release con));
  mret (con, r).

Definition mdv_client_send (id : Z) (payload : bytes) : ca (Z * option mdv_msg) :=
  con ← mdv_client_channel_retain;
  match (con : option mdv_connection) with
  | None => mret (code MDV_FAILED, None)
  | Some con =>
      x ← mdv_connection_send con id payload;
      mdv_client_channel_release x.1;; mret x.2
  end.

(** ** Responses *)

Definition mdv_client_table_info_handler (msg : mdv_msg) : Z * option mdv_uuid :=
  match load_msg msg with
  | None => (code MDV_FAILED, None)
  | Some obj =>
      match mdv_msg_table_info_unbinn obj with
      | None => (code MDV_FAILED, None)
      | Some info => (code MDV_OK, Some info)
      end
  end.

Definition mdv_client_table_desc_handler (msg : mdv_msg) : ca (option mdv_table_desc) :=
  match load_msg msg with
  | None => mret None
  | Some obj => mem ← ask; lift (mdv_unbinn_table_desc mem obj)
  end.

(** [return 0] is [MDV_FALSE]. *)
Definition mdv_client_view_handler (msg : mdv_msg) : Z * option Z :=
  match load_msg msg with
  | None => (code MDV_FALSE, None)
  | Some obj =>
      match mdv_msg_view_unbinn obj with
      | None => (code MDV_FAILED, None)
      | Some view => (code MDV_OK, Some view)
      end
  end.

(** The status, if the message has one. *)
Definition mdv_client_status_handler (msg : mdv_msg) : option Z :=
  match load_msg msg with
  | None => None
  | Some obj => fst <$> mdv_msg_status_unbinn obj
  end.

Definition mdv_client_rowset_handler (msg : mdv_msg) (table : mdv_table) : ca (Z * option mdv_rowset) :=
  match load_msg msg with
  | None => mret (code MDV_FAILED, None)
  | Some obj =>
      match mdv_msg_rowset_unbinn obj with
      | None => mret (code MDV_FAILED, None)
      | Some rows =>
          m ← ask;
          f ← asks (length (binn_items rows));
          rowset ← lift (mdv_unbinn_rowset m f rows table);
          mret (if is_some (rowset : option mdv_rowset) then code MDV_OK else code MDV_FAILED, rowset)
      end
  end.

Definition mdv_client_topology_handler (msg : mdv_msg) : ca (Z * option mdv_topology) :=
  match load_msg msg with
  | None => mret (code MDV_FAILED, None)
  | Some obj =>
      f ← asks 8;
      topology ← lift (mdv_msg_topology_unbinn qsort f obj);
      mret (if is_some (topology : option mdv_topology) then code MDV_OK else code MDV_FAILED, topology)
  end.

(** [case mdv_message_id(status)] and [default] of the functions: the error. *)
Definition other_response (msg : mdv_msg) : Z :=
  if (hdr_id (m_hdr msg) =? mdv_msg_status_id)%Z then default (code MDV_FAILED) (mdv_client_status_handler msg) else code MDV_FAILED.

Definition is_msg (msg : mdv_msg) (id : Z) : bool := (hdr_id (m_hdr msg) =? id)%Z.

(** ** Functions of the library *)

(** The identifier is used also when it could not be read. *)
Definition mdv_create_table (desc : mdv_table_desc) : ca (option mdv_table) :=
  msg ← write (mdv_msg_create_table_binn desc);
  match (msg : option binn) with
  | None => mret None
  | Some msg =>
      r ← mdv_client_send mdv_msg_create_table_id (binn_data msg);
      if (r.1 =? MDV_OK)%Z then
        resp ← lift (deref r.2);
        if is_msg resp mdv_msg_table_info_id then
          info ← lift (deref (mdv_client_table_info_handler resp).2);
          mem ← ask;
          lift (mdv_table_create mem info desc)
        else mret None
      else mret None
  end.

Definition mdv_get_table (uuid : mdv_uuid) : ca (option mdv_table) :=
  msg ← write (mdv_msg_get_table_binn uuid);
  match (msg : option binn) with
  | None => mret None
  | Some msg =>
      r ← mdv_client_send mdv_msg_get_table_id (binn_data msg);
      if (r.1 =? MDV_OK)%Z then
        resp ← lift (deref r.2);
        if is_msg resp mdv_msg_table_desc_id then
          desc ← mdv_client_table_desc_handler resp;
          match (desc : option mdv_table_desc) with
          | Some desc => mem ← ask; lift (mdv_table_create mem uuid desc)
          | None => mret None
          end
        else mret None
      else mret None
  end.

Definition mdv_get_topology : ca (option mdv_topology) :=
  msg ← write mdv_msg_get_topology_binn;
  match (msg : option binn) with
  | None => mret None
  | Some msg =>
      r ← mdv_client_send mdv_msg_get_topology_id (binn_data msg);
      if (r.1 =? MDV_OK)%Z then
        resp ← lift (deref r.2);
        if is_msg resp mdv_msg_topology_id then x ← mdv_client_topology_handler resp; mret x.2 else mret None
      else mret None
  end.

(** The routes from the server. *)
Definition mdv_get_routes (m : Router.routes_mem) : ca (option (mdv_hashmap mdv_uuid)) :=
  topology ← mdv_get_topology;
  match (topology : option mdv_topology) with
  | None => mret None
  | Some topology =>
      con ← mdv_client_channel_retain;
      match (con : option mdv_connection) with
      | None => mret None
      | Some con =>
          routes ← lift (Router.mdv_routes_find m topology (cn_uuid con));
          mdv_client_channel_release con;; mret routes.1
      end
  end.

Definition mdv_insert (rowset : mdv_rowset) : ca Z :=
  rows ← write (mdv_binn_rowset (S (length (rs_rows rowset))) rowset);
  match (rows : option binn) with
  | None => mret (code MDV_FAILED)
  | Some rows =>
      msg ← write (mdv_msg_insert_into_binn (tb_id (rs_table rowset)) rows);
      match (msg : option binn) with
      | None => mret (code MDV_FAILED)
      | Some msg =>
          r ← mdv_client_send mdv_msg_insert_into_id (binn_data msg);
          if (r.1 =? MDV_OK)%Z then resp ← lift (deref r.2); mret (other_response resp) else mret r.1
      end
  end.

(** The error and the number of the view. *)
Definition mdv_select_request (table : mdv_table) (fields : mdv_bitset) (filter : bytes) : ca (Z * option Z) :=
  msg ← write (mdv_msg_select_binn (tb_id table) fields filter);
  match (msg : option binn) with
  | None => mret (code MDV_FAILED, None)
  | Some msg =>
      r ← mdv_client_send mdv_msg_select_id (binn_data msg);
      if (r.1 =? MDV_OK)%Z then
        resp ← lift (deref r.2);
        mret (if is_msg resp mdv_msg_view_id then mdv_client_view_handler resp else (other_response resp, None))
      else mret (r.1, None)
  end.

(** The set of rows takes the reference to the table that the caller has. *)
Definition mdv_rowset_impl_create (mem : bool) (table : mdv_table) (view_id : Z) : option mdv_rowset_impl :=
  if mem then Some (mk_rowset_impl 1 view_id table) else None.

Definition mdv_rowset_impl_retain (rowset : mdv_rowset_impl) : mdv_rowset_impl := mk_rowset_impl (rc_retain (ri_rc rowset)) (ri_view_id rowset) (ri_table rowset).

(** The count, and the set unless it is freed.  The view on the server stays. *)
Definition mdv_rowset_impl_release (rowset : option mdv_rowset_impl) : Z * option mdv_rowset_impl :=
  match rowset with
  | None => (0%Z, None)
  | Some rowset => let '(rc, refs, dead) := rc_release (ri_rc rowset) in (refs, if dead then None else Some (mk_rowset_impl rc (ri_view_id rowset) (ri_table rowset)))
  end.

(** The set cannot be filled by the program. *)
Definition mdv_rowset_impl_append (rowset : mdv_rowset_impl) (rows : list mdv_row) : Z := u64 (code MDV_NO_IMPL).
Definition mdv_rowset_impl_emplace (rowset : mdv_rowset_impl) (entry : mdv_row) : mdv_rowset_impl := rowset.

(** The number of a view is zero before it is known. *)
Definition mdv_select (table : mdv_table) (fields : mdv_bitset) (filter : bytes) : ca (option mdv_rowset_impl) :=
  mem ← ask;
  table_slice ← lift (mdv_table_slice mem table fields);
  match (table_slice : option mdv_table) with
  | None => mret None
  | Some table_slice =>
      r ← mdv_select_request table fields filter;
      if (r.1 =? MDV_OK)%Z then
        mem ← ask;
        mret (mdv_rowset_impl_create mem table_slice (default 0%Z r.2))
      else mret None
  end.

(** ** The enumerator of the rows *)

Definition mdv_rowset_enumerator_impl_create (rowset : mdv_rowset_impl) : ca (option mdv_rowset_enumerator_impl) :=
  mem ← ask; mret (if (mem : bool) then Some (mk_enumerator_impl (mdv_rowset_impl_retain rowset) None) else None).

(** The enumerator gives its references back: the set of rows that is left. *)
Definition mdv_rowset_enumerator_impl_release (impl : mdv_rowset_enumerator_impl) : option mdv_rowset_impl := (mdv_rowset_impl_release (Some (ei_rowset impl))).2.

Definition mdv_rowset_enumerator_impl_reset : Z := code MDV_NO_IMPL.

(** The response to a fetch: the error, and the page with its enumerator.  When
    there is no memory for the enumerator the error stays [MDV_OK]. *)
Definition fetched (resp : mdv_msg) (table : mdv_table) : ca (Z * option (mdv_rowset * rowset_enumerator)) :=
  if is_msg resp mdv_msg_rowset_id then
    r ← mdv_client_rowset_handler resp table;
    match r.2 with
    | None => mret (r.1, None)
    | Some fset =>
        mem ← ask;
        match mdv_rowset_enumerator mem fset with
        | None => mret (r.1, None)
        | Some (fset, e) => let '(e, err) := mdv_rowset_enumerator_next fset e in mret (code err, Some (fset, e))
        end
    end
  else mret (other_response resp, None).

(** The page is dropped, and the next one fetched. *)
Definition fetch_page (rowset : mdv_rowset_impl) : ca (mdv_rowset_enumerator_impl * Z) :=
  msg ← write (mdv_msg_fetch_binn (ri_view_id rowset));
  match (msg : option binn) with
  | None => mret (mk_enumerator_impl rowset None, code MDV_FAILED)
  | Some msg =>
      r ← mdv_client_send mdv_msg_fetch_id (binn_data msg);
      if (r.1 =? MDV_OK)%Z then
        resp ← lift (deref r.2);
        x ← fetched resp (ri_table rowset);
        mret (mk_enumerator_impl rowset x.2, x.1)
      else mret (mk_enumerator_impl rowset None, r.1)
  end.

Definition mdv_rowset_enumerator_impl_next (impl : mdv_rowset_enumerator_impl) : ca (mdv_rowset_enumerator_impl * Z) :=
  let '(e, err) := match ei_fset impl with
                   | Some (fset, e) => let '(e, err) := mdv_rowset_enumerator_next fset e in (Some (fset, e), err)
                   | None => (None, MDV_FAILED)
                   end in
  if decide (err = MDV_OK) then mret (mk_enumerator_impl (ei_rowset impl) e, code MDV_OK) else fetch_page (ei_rowset impl).

Definition mdv_rowset_enumerator_impl_current (impl : mdv_rowset_enumerator_impl) : option mdv_row :=
  match ei_fset impl with Some (fset, e) => mdv_rowset_enumerator_current fset e | None => None end.

(** A program that reads all rows: the rows and the error at the end. *)
Fixpoint read_rows (fuel : nat) (impl : mdv_rowset_enumerator_impl) : ca (list mdv_row * Z) :=
  match fuel with
  | 0 => lift OutOfFuel
  | S fuel =>
      r ← mdv_rowset_enumerator_impl_next impl;
      if (r.2 =? MDV_OK)%Z then
        row ← lift (deref (mdv_rowset_enumerator_impl_current r.1));
        x ← read_rows fuel r.1;
        mret (row :: x.1, x.2)
      else mret ([], r.2)
  end.

Definition select_rows (fuel : nat) (table : mdv_table) (fields : mdv_bitset) (filter : bytes) : ca (option (list mdv_row * Z)) :=
  rowset ← mdv_select table fields filter;
  match (rowset : option mdv_rowset_impl) with
  | None => mret None
  | Some rowset =>
      impl ← mdv_rowset_enumerator_impl_create rowset;
      match (impl : option mdv_rowset_enumerator_impl) with
      | None => mret None
      | Some impl => x ← read_rows fuel impl; mret (Some x)
      end
  end.

End Client.

(** ** The server behind the connection *)

(** [nt_number]: the counter of the dispatcher of the client; the session of the
    client is the first of the server. *)
Record network (K V : Type) := mk_network { nt_number : Z; nt_server : Fetcher.mdv_fetcher K V }.
#[global] Arguments mk_network {K V}.
#[global] Arguments nt_number {K V}.
#[global] Arguments nt_server {K V}.

Section Network.
Context `{Binn} {K V : Type} `{Core K, Fetcher.Views K V}.
Context (fuel : nat) (fresh : nat -> list Z) (is_empty : mdv_topology -> bool) (batch_size : nat) (clock : Z).

Abbreviation na := (action (network K V)).
Abbreviation server := (Fetcher.mdv_fetcher K V).

Definition set_server (s : network K V) (x : server) : network K V := mk_network (nt_number s) x.

(** The messages that arrive as one piece of bytes. *)
Definition messages (bs : bytes) : outcome (list mdv_msg) :=
  match bs with
  | [] => Done []
  | _ => r ← receive fuel fresh [Rd_data bs] no_msg []; Done r.1.1
  end.

Fixpoint serve (msgs : list mdv_msg) : action server unit :=
  match msgs with
  | [] => mret tt
  | msg :: msgs => zoom Fetcher.ft_hub Fetcher.set_hub (mdv_user_recv fuel fresh is_empty 0 msg);; serve msgs
  end.

(** The threads of the server take events and jobs until there is none. *)
Fixpoint settle (rounds : nat) : action server unit :=
  match rounds with
  | 0 => lift OutOfFuel
  | S rounds =>
      s ← get;
      match hb_requests (Fetcher.ft_hub s), Fetcher.ft_jobs s with
      | _ :: _, _ => Fetcher.take_event fuel is_empty clock 1 0;; settle rounds
      | [], _ :: _ => Fetcher.take_job fuel is_empty batch_size 1 0;; settle rounds
      | [], [] => mret tt
      end
  end.

(** The bytes that the session has written. *)
Definition sent (s : server) : outcome bytes := u ← deref (hb_users (Fetcher.ft_hub s) !! 0); Done (sk_sent (us_sink u)).

Definition handle (data : bytes) : action server bytes :=
  s ← get;
  before ← lift (sent s);
  msgs ← lift (messages data);
  serve msgs;;
  settle 3;;
  s ← get;
  after ← lift (sent s);
  mret (drop (length before) after).

(** [mdv_dispatcher_send]: the request gets the next number, the response is the
    message with this number. *)
Definition call (id : Z) (payload : bytes) : na (Z * option mdv_msg) :=
  s ← get;
  let number := nt_number s in
  put (mk_network (u16 (number + 1)) (nt_server s));;
  o ← lift (mdv_write_msg fuel (mk_sink [] []) (msg_of (mk_message id number payload) 0));
  if (o.2 =? MDV_OK)%Z then
    answer ← zoom nt_server set_server (handle (sk_sent o.1));
    msgs ← lift (messages answer);
    mret (match List.find (fun msg => (hdr_number (m_hdr msg) =? number)%Z) msgs with
          | Some msg => (code MDV_OK, Some msg)
          | None => (code MDV_ETIMEDOUT, None)
          end)
  else mret (o.2, None).

Definition network_remote : Remote (network K V) := call.

End Network.
(** ** Requests that are answered *)

Lemma wp_and {S A} (mem : nat -> bool) (m : action S A) s (Q1 Q2 : A -> S -> Prop) : wp mem m s Q1 -> wp mem m s Q2 -> wp mem m s (fun a s' => Q1 a s' /\ Q2 a s').
Proof. intros W1 W2 k. destruct (W1 k) as (a & k' & s' & E & HQ). destruct (W2 k) as (a2 & k2 & s2 & E2 & HQ2). rewrite E in E2. injection E2 as <- <- <-. by exists a, k', s'. Qed.

Section Answers.
Context `{BL : BinnLaws} {K V : Type} `{HL : Fetcher.ViewsLaws K V}.
Context (fuel : nat) (fresh : nat -> list Z) (is_empty : mdv_topology -> bool) (batch_size : nat) (clock : Z) (qsort : list mdv_toponode -> list mdv_toponode).
Context (mem : nat -> bool) (Hmem : granted mem) (Hfresh : forall n, length (fresh n) = n).

Abbreviation server := (Fetcher.mdv_fetcher K V).
Abbreviation net := (network K V).
#[local] Instance remote : Remote net := network_remote fuel fresh is_empty batch_size clock.

(** A message that fits into a frame and is read with the fuel. *)
Definition fits_frame (m : message) : Prop := Msg.message_ok m /\ length (wire m) + 2 < fuel.

Lemma messages_one m : fits_frame m -> messages fuel fresh (wire m) = Done [full_msg m].
Proof.
  intros [Hm Hf]. unfold messages. assert (Hne : wire m <> []). { intros E. apply (f_equal length) in E. unfold wire in E. rewrite length_app, (proj2 (wire_fields m Hm)) in E. cbn in E. lia. }
  destruct (wire m) as [|b l] eqn:Ew; [done|]. rewrite <- Ew in *. rewrite (receive_ok fresh fuel Hfresh [m] [Rd_data (wire m)] no_msg []).
  - done.
  - by apply Forall_singleton.
  - by apply Forall_singleton.
  - apply reading_start; [by apply Forall_singleton|]. cbn. by rewrite !app_nil_r.
  - change (cost [Rd_data (wire m)]) with (S (length (wire m)) + 0). cbn [length]. lia.
Qed.

(** The bytes that the first session has written. *)
Definition written (x : server) : bytes := match hb_users (Fetcher.ft_hub x) !! 0 with Some u => sk_sent (us_sink u) | None => [] end.

Lemma sent_written x : ready (Fetcher.ft_hub x) -> sent x = Done (written x).
Proof. intros (u & Hu & _). unfold sent, written. by rewrite Hu. Qed.

(** The server answers the message with one message of the same number. *)
Lemma call_wp id payload (w : net) (Q : Z * option mdv_msg -> net -> Prop) :
  let m := mk_message id (nt_number w) payload in
  fits_frame m -> ready (Fetcher.ft_hub (nt_server w)) ->
  wp mem (mdv_user_recv fuel fresh is_empty 0 (full_msg m)) (Fetcher.ft_hub (nt_server w)) (fun _ h =>
    wp mem (settle fuel is_empty batch_size clock 3) (Fetcher.set_hub (nt_server w) h) (fun _ x => exists r, ready (Fetcher.ft_hub x) /\
      written x = written (nt_server w) ++ wire r /\ fits_frame r /\ ms_number r = nt_number w /\ Q (code MDV_OK, Some (full_msg r)) (mk_network (u16 (nt_number w + 1)) x))) ->
  wp mem (call fuel fresh is_empty batch_size clock id payload) w Q.
Proof.
  intros m Hm Hr Hw. unfold call. do 4 wp_step. wp_step. destruct (write_msg_ok fuel (mk_sink [] []) m 0 (proj1 Hm)) as (a' & E & _ & _); [constructor|destruct Hm as [_ ?]; cbn; lia|].
  eapply wp_lift; [exact E|]. cbn [fst snd sk_sent Z.eqb code Pos.eqb app]. wp_step. apply wp_zoom. cbn [nt_server]. unfold handle. do 3 wp_step. eapply wp_lift; [by apply sent_written|]. wp_step.
  eapply wp_lift; [by apply messages_one|]. cbn [serve]. wp_step. wp_step. apply wp_zoom. eapply wp_mono; [exact Hw|]. cbn beta. intros e h Hs. wp_step. wp_step. eapply wp_mono; [exact Hs|]. cbn beta.
  intros [] x (r & Hrx & Hwr & Hfr & Hn & HQ). do 3 wp_step. eapply wp_lift; [by apply sent_written|]. wp_step. wp_step. rewrite Hwr, drop_app_length. eapply wp_lift; [by apply messages_one|]. wp_step. cbn [List.find].
  assert (En : hdr_number (m_hdr (full_msg r)) = nt_number w) by (rewrite <- Hn; apply (host_fields r (proj1 Hfr))). rewrite En, Z.eqb_refl. exact HQ.
Qed.

(** *** Documents in frames *)

(** A document that the library can write, that fits into a frame and is read with
    the fuel. *)
Definition doc_fits (doc : binn) : Prop :=
  is_container doc = true /\ doc_ok doc /\ (Z.of_nat (length (binn_bytes doc)) <= MDV_MSG_SIZE_MAX)%Z /\ length (binn_bytes doc) + 10 < fuel.

Definition doc_msg (id number : Z) (doc : binn) : message := mk_message id number (binn_bytes doc).

Lemma doc_frame id number doc : doc_fits doc -> fits 16 id -> fits 16 number -> fits_frame (doc_msg id number doc).
Proof.
  intros (_ & _ & Hs & Hf) Hi Hn. assert (Hm : Msg.message_ok (doc_msg id number doc)) by (by split_and!). split; [done|]. unfold wire. rewrite length_app, (proj2 (wire_fields _ Hm)). cbn. lia.
Qed.

Lemma load_full id number doc : doc_fits doc -> load_msg (full_msg (doc_msg id number doc)) = Some doc.
Proof.
  intros (Hc & Hd & Hs & _). unfold load_msg, full_msg, msg_of, doc_msg. cbn [m_payload ms_payload]. pose proof (bytes_container doc Hc) as Hne.
  assert (Hl : binn_load (binn_bytes doc) = Some doc) by (apply load_bytes; [done|done|unfold MDV_MSG_SIZE_MAX in Hs; lia]). destruct (binn_bytes doc); [done|]. exact Hl.
Qed.

Lemma full_fields id number doc : doc_fits doc -> fits 16 id -> fits 16 number ->
  hdr_id (m_hdr (full_msg (doc_msg id number doc))) = id /\ hdr_number (m_hdr (full_msg (doc_msg id number doc))) = number.
Proof. intros Hd Hi Hn. destruct (host_fields _ (proj1 (doc_frame id number doc Hd Hi Hn))) as (E1 & E2 & _). by split. Qed.

Definition select_doc (table : mdv_uuid) (fields : mdv_bitset) (filter : bytes) : binn :=
  B_object [("T0", B_int (u64_0 table)); ("T1", B_int (u64_1 table)); ("F", bitset_doc fields); ("S", B_str filter)].

(** A request and the response with the number of a view. *)
Definition view_doc (id : Z) : binn := B_object [("V", B_int id)].
Definition rowset_doc (rows : binn) : binn := B_object [("R", rows)].
Definition status_doc (err : Z) (text : bytes) : binn := B_object [("E", B_int err); ("M", B_str text)].

Lemma makes_select table fields filter : Bitset.wf fields -> makes (mdv_msg_select_binn table fields filter) (select_doc table fields filter).
Proof. intros Hw. unfold mdv_msg_select_binn. eapply makes_bind; [by apply makes_bitset|]. do 4 step_writer. last_writer. Qed.

Lemma makes_fetch id : makes (mdv_msg_fetch_binn id) (view_doc id).
Proof. unfold mdv_msg_fetch_binn. step_writer. last_writer. Qed.

(** The fields as the server reads them. *)
Definition sent_fields (fields : mdv_bitset) : mdv_bitset := mk_bitset 1 (mdv_bitset_capacity fields) (bs_bits fields).

(** *** Requests that are queued *)

Lemma recv_select table fields filter number h u (Q : Z -> hub K -> Prop) :
  doc_fits (select_doc table fields filter) -> fits 16 number -> Uuid.wf table -> Bitset.wf fields -> (Z.of_nat (length (bs_bits fields)) < 2 ^ 32)%Z -> hb_users h !! 0 = Some u ->
  Q (code MDV_OK) (set_requests h (hb_requests h ++ [Evt_select (us_session u) number table (sent_fields fields) filter])) ->
  wp mem (mdv_user_recv fuel fresh is_empty 0 (full_msg (doc_msg mdv_msg_select_id number (select_doc table fields filter)))) h Q.
Proof.
  intros Hd Hn [Ha Hb] Hf Hlen Hu HQ. destruct (full_fields mdv_msg_select_id number _ Hd ltac:(done) Hn) as [Ei En]. unfold mdv_user_recv. rewrite Ei. cbn [user_handler Z.eqb Pos.eqb mdv_msg_select_id mdv_msg_create_table_id mdv_msg_get_table_id mdv_msg_insert_into_id mdv_msg_get_topology_id].
  unfold mdv_user_select_handler. rewrite (load_full _ _ _ Hd). wp_step. wp_step. rewrite (Hb0 Hmem). unfold msg_number. rewrite En.
  assert (E : mdv_msg_select_unbinn (Some (fields_words fresh (select_doc table fields filter))) (select_doc table fields filter) = Done (Some (table, sent_fields fields, filter))).
  { unfold mdv_msg_select_unbinn, fields_words, select_doc. do 4 step_reader. assert (El : mdv_binn_list_length (bitset_doc fields) = Z.of_nat (length (bs_bits fields))).
    { unfold mdv_binn_list_length, bitset_doc. rewrite items_list, length_fmap. apply wrap_id. unfold fits. lia. }
    rewrite El, Nat2Z.id. rewrite (unbinn_bitset_spec fields) by (try done; apply Hfresh). cbn [mbind outcome_bind]. by destruct table. }
  wp_step. eapply wp_lift; [exact E|]. wp_step. wp_step. wp_step. rewrite (Hb1 Hmem). wp_step. unfold user_at. wp_steps. eapply wp_lift; [by rewrite Hu|]. unfold publish_request. wp_step. wp_step.
  rewrite (Hb2 Hmem). do 5 wp_step. unfold or_status. cbn [Z.eqb code Pos.eqb negb]. wp_step. exact HQ.
Qed.

Lemma recv_fetch id number h u (Q : Z -> hub K -> Prop) :
  doc_fits (view_doc id) -> fits 16 number -> fits 32 id -> hb_users h !! 0 = Some u ->
  Q (code MDV_OK) (set_requests h (hb_requests h ++ [Evt_view_fetch (us_session u) number id])) ->
  wp mem (mdv_user_recv fuel fresh is_empty 0 (full_msg (doc_msg mdv_msg_fetch_id number (view_doc id)))) h Q.
Proof.
  intros Hd Hn Hid Hu HQ. destruct (full_fields mdv_msg_fetch_id number _ Hd ltac:(done) Hn) as [Ei En]. unfold mdv_user_recv. rewrite Ei. cbn [user_handler Z.eqb Pos.eqb mdv_msg_select_id mdv_msg_create_table_id mdv_msg_get_table_id mdv_msg_insert_into_id mdv_msg_get_topology_id mdv_msg_fetch_id].
  unfold mdv_user_fetch_handler. rewrite (load_full _ _ _ Hd). unfold msg_number. rewrite En. wp_step. assert (E : mdv_msg_fetch_unbinn (view_doc id) = Some id) by (unfold mdv_msg_fetch_unbinn, view_doc; by step_reader). rewrite E.
  wp_step. wp_step. rewrite (Hb Hmem). wp_step. unfold user_at. wp_steps. eapply wp_lift; [by rewrite Hu|]. unfold publish_request. wp_step. wp_step. rewrite (Hb0 Hmem). do 5 wp_step. unfold or_status. cbn [Z.eqb code Pos.eqb negb]. wp_step. exact HQ.
Qed.

(** *** The server between two requests *)

(** Nothing waits, and the first session can be written to. *)
Record idle (x : server) (R : gmap Z nat) : Prop := {
  id_inv : Fetcher.finv fuel x R [] (0, 0%Z);
  id_jobs : Fetcher.ft_jobs x = [];
  id_requests : hb_requests (Fetcher.ft_hub x) = [];
  id_ready : ready (Fetcher.ft_hub x)
}.

Lemma publish_ok e x R ex n (Q : Z -> server -> Prop) :
  Fetcher.finv fuel x R ex n -> ready (Fetcher.ft_hub x) -> (forall t, e <> Evt_topology t) -> (forall u, hb_users (Fetcher.ft_hub x) !! 0 = Some u -> us_session u = (reply_doc e).1) ->
  Msg.message_ok (reply_doc e).2 -> (forall h, sends fuel (Fetcher.ft_hub x) h (reply_doc e).2 -> Fetcher.finv fuel (Fetcher.set_hub x h) R ex n -> Q (code MDV_OK) (Fetcher.set_hub x h)) ->
  wp mem (Fetcher.publish fuel is_empty e) x Q.
Proof.
  intros Hi Hr He Hs Hm HQ. unfold Fetcher.publish. apply wp_zoom. eapply publish_sends; [done|done|done|by destruct Hi|done|done|]. intros h Hh. apply HQ; [done|]. eapply Fetcher.finv_hub; [done|apply Hh].
Qed.

Lemma sends_written x h r : sends fuel (Fetcher.ft_hub x) h r -> written (Fetcher.set_hub x h) = written x ++ wire r /\ ready h.
Proof. intros (_ & Hr & u & u' & E & E' & Es). split; [|done]. unfold written. cbn [Fetcher.ft_hub Fetcher.set_hub]. by rewrite E, E'. Qed.

Lemma ready_frame (x x' : server) : Fetcher.frame x x' -> ready (Fetcher.ft_hub x) -> ready (Fetcher.ft_hub x').
Proof. intros (_ & E & _) (u & Hu). exists u. by rewrite E. Qed.

Lemma written_frame (x x' : server) : Fetcher.frame x x' -> written x' = written x.
Proof. intros (_ & E & _). unfold written. by rewrite E. Qed.

(** Rounds of the threads. *)
Lemma settle_event rounds (x : server) e l (Q : unit -> server -> Prop) : hb_requests (Fetcher.ft_hub x) = e :: l ->
  wp mem (Fetcher.take_event fuel is_empty clock 1 0) x (fun _ x' => wp mem (settle fuel is_empty batch_size clock rounds) x' Q) -> wp mem (settle fuel is_empty batch_size clock (S rounds)) x Q.
Proof. intros E Hw. cbn [settle]. do 2 wp_step. rewrite E. wp_step. exact Hw. Qed.

Lemma settle_job rounds (x : server) j l (Q : unit -> server -> Prop) : hb_requests (Fetcher.ft_hub x) = [] -> Fetcher.ft_jobs x = j :: l ->
  wp mem (Fetcher.take_job fuel is_empty batch_size 1 0) x (fun _ x' => wp mem (settle fuel is_empty batch_size clock rounds) x' Q) -> wp mem (settle fuel is_empty batch_size clock (S rounds)) x Q.
Proof. intros E Ej Hw. cbn [settle]. do 2 wp_step. rewrite E, Ej. wp_step. exact Hw. Qed.

Lemma settle_done rounds (x : server) (Q : unit -> server -> Prop) : hb_requests (Fetcher.ft_hub x) = [] -> Fetcher.ft_jobs x = [] -> Q tt x -> wp mem (settle fuel is_empty batch_size clock (S rounds)) x Q.
Proof. intros E Ej HQ. cbn [settle]. do 2 wp_step. rewrite E, Ej. by wp_step. Qed.

(** *** The client *)

(** The client is connected, its connection has a reference more and less than
    can be counted, and the server is idle. *)
Record online (s : mdv_client net) (R : gmap Z nat) : Prop := {
  on_con : exists con, cl_connection s = mk_safeptr (Some con) /\ (1 <= cn_rc con < 2 ^ 32 - 2)%Z;
  on_number : fits 16 (nt_number (cl_world s));
  on_idle : idle (nt_server (cl_world s)) R
}.

Lemma connection_balanced con : (1 <= cn_rc con < 2 ^ 32 - 1)%Z -> mdv_connection_release (mdv_connection_retain con) = Some con.
Proof.
  intros Hc. unfold mdv_connection_release, mdv_connection_retain, rc_release, rc_retain. cbn [cn_rc cn_uuid]. rewrite (wrap_id 64 (cn_rc con + 1)) by (unfold fits; lia). replace (cn_rc con + 1 - 1)%Z with (cn_rc con) by lia.
  rewrite (wrap_id 64), (wrap_id 32) by (unfold fits; lia). destruct (Z.eqb_spec (cn_rc con) 0); [lia|]. by destruct con.
Qed.

Lemma client_send_wp id payload s R (Q : Z * option mdv_msg -> mdv_client net -> Prop) :
  online s R -> wp mem (call fuel fresh is_empty batch_size clock id payload) (cl_world s) (fun r w => Q r (set_world s w)) -> wp mem (mdv_client_send id payload) s Q.
Proof.
  intros [(con & Ec & Hc) _ _] Hw. unfold mdv_client_send, mdv_client_channel_retain. do 5 wp_step. rewrite (Hb Hmem), Ec. cbn [mdv_safeptr_get sf_ptr fmap option_fmap option_map]. do 4 wp_step. unfold mdv_connection_send. wp_step.
  apply wp_zoom. eapply wp_mono; [exact Hw|]. cbn beta. intros r w HQ. wp_step. assert (Hr : cn_rc (mdv_connection_retain con) = (cn_rc con + 1)%Z) by (unfold mdv_connection_retain, rc_retain; cbn [cn_rc]; apply wrap_id; unfold fits; lia).
  eapply wp_lift; [rewrite connection_balanced by lia; done|]. wp_step. unfold mdv_client_channel_release. wp_steps. cbn [set_world set_connection cl_connection cl_world fst snd].
  rewrite connection_balanced by lia. unfold set_world in HQ. rewrite Ec in HQ. exact HQ.
Qed.

Lemma online_world s R x n : online s R -> fits 16 n -> forall R', idle x R' -> online (set_world s (mk_network n x)) R'.
Proof. intros [Hc Hn _] Hf R' Hi. by split. Qed.

Lemma next_number (w : net) : fits 16 (u16 (nt_number w + 1)).
Proof. unfold fits, wrap. pose proof (Z.mod_pos_bound (nt_number w + 1) (2 ^ 16)). lia. Qed.

Lemma is_doc_msg id id' number doc : doc_fits doc -> fits 16 id -> fits 16 number -> is_msg (full_msg (doc_msg id number doc)) id' = (id =? id')%Z.
Proof. intros Hd Hi Hn. unfold is_msg. by rewrite (proj1 (full_fields id number doc Hd Hi Hn)). Qed.

(** *** Calls that are answered at once *)

(** The storages of the server. *)
Definition core_of (s : mdv_client net) : K := hb_core (Fetcher.ft_hub (nt_server (cl_world s))).

(** The hub of the server, with other storages. *)
Definition hub_with (s : mdv_client net) (k : K) : hub K := set_core (Fetcher.ft_hub (nt_server (cl_world s))) k.

(** A handler that answers at once, after the storages were changed. *)
Lemma sync_call_wp id doc s R (Q : Z * option mdv_msg -> mdv_client net -> Prop) :
  online s R -> doc_fits doc -> fits 16 id ->
  wp mem (mdv_user_recv fuel fresh is_empty 0 (full_msg (doc_msg id (nt_number (cl_world s)) doc))) (Fetcher.ft_hub (nt_server (cl_world s))) (fun _ h => exists k rid rdoc,
     Fetcher.core_ok k /\ sends fuel (hub_with s k) h (doc_msg rid (nt_number (cl_world s)) rdoc) /\ doc_fits rdoc /\ fits 16 rid /\
     forall s', online s' R -> core_of s' = k -> Q (code MDV_OK, Some (full_msg (doc_msg rid (nt_number (cl_world s)) rdoc))) s') ->
  wp mem (mdv_client_send id (binn_bytes doc)) s Q.
Proof.
  intros Ho Hd Hid Hw. pose proof Ho as [_ Hnum [Hi Hj Hq Hr]]. eapply client_send_wp; [exact Ho|]. apply call_wp; [by apply (doc_frame id)|exact Hr|].
  eapply wp_mono; [exact Hw|]. cbn beta. intros e h (k & rid & rdoc & Hk & Hse & Hrd & Hrid & HQ). pose proof (sends_written (Fetcher.with_core (nt_server (cl_world s)) k) h _ Hse) as [Ew Hrh].
  pose proof (Fetcher.finv_hub fuel (Fetcher.with_core (nt_server (cl_world s)) k) R [] (0, 0%Z) h (Fetcher.finv_core _ _ _ _ _ k Hi Hk) (proj1 Hse)) as Hi'.
  assert (Eq : hb_requests h = []) by (by rewrite (proj1 (proj2 (proj1 Hse)))). apply settle_done; [exact Eq|exact Hj|]. exists (doc_msg rid (nt_number (cl_world s)) rdoc). split_and!; [exact Hrh|exact Ew|by apply doc_frame|done|].
  apply HQ; [|apply (proj1 (proj1 Hse))]. apply (online_world s R); [done|apply next_number|]. split; [exact Hi'|exact Hj|exact Eq|exact Hrh].
Qed.

(** What the hub of a connected client is, whatever the storages are. *)
Lemma hub_ready s R k : online s R -> ready (hub_with s k) /\ sinks_ok fuel (hb_users (hub_with s k)).
Proof. intros [_ _ [Hi _ _ Hr]]. split; [exact Hr|]. by destruct Hi. Qed.

(** An event for the storages. *)
Lemma hub_core_wp {A} (m : action K A) s (P : A -> K -> Prop) (Q : A -> hub K -> Prop) :
  wp mem m (core_of s) P -> (forall a k, P a k -> Q a (hub_with s k)) -> wp mem (in_core m) (Fetcher.ft_hub (nt_server (cl_world s))) Q.
Proof. intros Hm HQ. unfold in_core. apply wp_zoom. eapply wp_mono; [exact Hm|]. exact HQ. Qed.

(** The reply of a document to the request. *)
Lemma hub_reply_wp s R k rid (w : writer binn) rdoc (Q : Z -> hub K -> Prop) :
  online s R -> makes w rdoc -> doc_fits rdoc -> fits 16 rid -> 
  (forall h, sends fuel (hub_with s k) h (doc_msg rid (nt_number (cl_world s)) rdoc) -> Q (code MDV_OK) h) ->
  wp mem (x ← write w; match (x : option binn) with None => mret (code MDV_FAILED) | Some x => mdv_user_reply fuel 0 (mk_message rid (nt_number (cl_world s)) (binn_data x)) end) (hub_with s k) Q.
Proof.
  intros Ho Hw Hd Hi HQ. destruct (hub_ready s R k Ho) as [Hr Hs]. eapply doc_reply_sends; [exact Hmem|exact Hw|apply Hd|exact Hr|exact Hs|apply (doc_frame rid _ _ Hd Hi (on_number _ _ Ho))|exact HQ].
Qed.

(** The number of the request, and its handler. *)
Lemma recv_handler id doc s R handler (Q : Z -> hub K -> Prop) h :
  online s R -> doc_fits doc -> fits 16 id -> user_handler fuel fresh is_empty 0 id = Some handler ->
  (forall msg, load_msg msg = Some doc -> msg_number msg = nt_number (cl_world s) -> wp mem (handler msg) h Q) ->
  wp mem (mdv_user_recv fuel fresh is_empty 0 (full_msg (doc_msg id (nt_number (cl_world s)) doc))) h Q.
Proof.
  intros Ho Hd Hi Hh HQ. destruct (full_fields id (nt_number (cl_world s)) doc Hd Hi (on_number _ _ Ho)) as [Ei En]. unfold mdv_user_recv. rewrite Ei, Hh. apply HQ; [by apply load_full|exact En].
Qed.

(** The status in a response. *)
Lemma status_response number (e : mdv_errno) : doc_fits (status_doc e []) -> fits 16 number -> other_response (full_msg (doc_msg mdv_msg_status_id number (status_doc e []))) = code e.
Proof.
  intros Hd Hn. unfold other_response. rewrite (proj1 (full_fields mdv_msg_status_id number _ Hd ltac:(done) Hn)). cbn [Z.eqb Pos.eqb mdv_msg_status_id].
  unfold mdv_client_status_handler. rewrite load_full by done. assert (E : mdv_msg_status_unbinn (status_doc e []) = Some (code e, [])); [|by rewrite E].
  unfold mdv_msg_status_unbinn, status_doc. assert (-(2 ^ 31) <= code e < 2 ^ 31)%Z by (destruct e; cbn; lia). by do 2 step_reader.
Qed.

(** Documents with the answers. *)
Definition id_doc (id : mdv_uuid) : binn := B_object [("0", B_int (u64_0 id)); ("1", B_int (u64_1 id))].
Definition insert_doc (id : mdv_uuid) (rows : binn) : binn := B_object [("U0", B_int (u64_0 id)); ("U1", B_int (u64_1 id)); ("R", rows)].

(** A description of a table that can be sent. *)
Definition desc_sent (desc : mdv_table_desc) : Prop :=
  exists l, desc_ok desc l /\ Forall field_fits l /\ (desc_size desc l < 2 ^ 32)%Z /\ doc_fits (desc_object desc l).

Context (Hstatuses : forall e : mdv_errno, doc_fits (status_doc e [])).

(** An error is answered with a status. *)
Lemma or_status_wp s R k (e : mdv_errno) (Q : Z -> hub K -> Prop) :
  online s R -> e <> MDV_OK -> (forall h, sends fuel (hub_with s k) h (doc_msg mdv_msg_status_id (nt_number (cl_world s)) (status_doc e [])) -> Q (code MDV_OK) h) ->
  wp mem (or_status fuel 0 (nt_number (cl_world s)) e) (hub_with s k) Q.
Proof.
  intros Ho He HQ. unfold or_status. destruct (Z.eqb_spec e MDV_OK); [by destruct e|]. cbn [negb]. unfold mdv_user_status_reply. eapply hub_reply_wp; [exact Ho|apply makes_status|apply Hstatuses|done|exact HQ].
Qed.

(** A table is made when the storages make it, under the identifier that they give. *)
Lemma create_table_wp desc s R (P : mdv_errno * option mdv_uuid -> K -> Prop) (Q : option mdv_table -> mdv_client net -> Prop) :
  online s R -> desc_sent desc -> wp mem (core_table_create (Some desc)) (core_of s) P ->
  (forall x k, P x k -> Fetcher.core_ok k /\ (x.1 = MDV_OK -> exists id, x.2 = Some id /\ Uuid.wf id /\ doc_fits (id_doc id))) ->
  (forall x s', P x (core_of s') -> online s' R -> Q (if decide (x.1 = MDV_OK) then (fun id => mk_table 1 id desc) <$> x.2 else None) s') ->
  wp mem (mdv_create_table desc) s Q.
Proof.
  intros Ho (l & Hdesc & Hfields & Hsize & Hd) Hcore HP HQ. pose proof (on_number _ _ Ho) as Hnum. unfold mdv_create_table. wp_step. eapply wp_write; [by apply makes_table_desc|]. intros r _ ->; [|done].
  change (binn_data (desc_object desc l)) with (binn_bytes (desc_object desc l)). wp_step. eapply sync_call_wp; [exact Ho|exact Hd|done|]. eapply recv_handler; [exact Ho|exact Hd|done|done|]. intros msg El En.
  unfold mdv_user_create_table_handler. rewrite El, En. do 3 wp_step. rewrite (Hb Hmem). eapply wp_lift; [unfold mdv_msg_create_table_unbinn; by rewrite (proj1 (unbinn_table_desc_spec desc l Hdesc Hfields Hsize))|].
  cbn [fst snd]. do 3 wp_step. rewrite (Hb0 Hmem). wp_step. eapply hub_core_wp; [exact Hcore|]. intros x k HPx. destruct (HP x k HPx) as [Hk Hx]. pose proof (fun s' => HQ x s') as HQx. destruct (decide (x.1 = MDV_OK)) as [E1|E1].
  - destruct (Hx E1) as (id & E2 & Hwf & Hti). rewrite E2 in *. wp_step. eapply wp_lift; [done|]. unfold mdv_user_table_info_reply. eapply hub_reply_wp; [exact Ho|unfold mdv_msg_table_info_binn; do 2 step_writer; last_writer|exact Hti|done|].
    intros h Hse. unfold or_status. cbn [Z.eqb code Pos.eqb negb]. wp_step. exists k, mdv_msg_table_info_id, (id_doc id). split_and!; [done|exact Hse|done|done|]. intros s' Ho' Ek.
    cbn [fst snd Z.eqb code Pos.eqb]. wp_step. eapply wp_lift; [done|]. rewrite is_doc_msg by done. cbn [Z.eqb Pos.eqb mdv_msg_table_info_id]. unfold mdv_client_table_info_handler. rewrite load_full by done.
    assert (Eu : mdv_msg_table_info_unbinn (id_doc id) = Some id). { destruct Hwf. unfold mdv_msg_table_info_unbinn, id_doc. do 2 step_reader. by destruct id. }
    rewrite Eu. cbn [snd]. wp_step. eapply wp_lift; [done|]. do 2 wp_step. rewrite (Hb1 Hmem).
    eapply wp_lift; [unfold mdv_table_create; rewrite (proj1 (table_create_impl_spec desc l None Hdesc I id)); rewrite pick_all, <- (proj2 Hdesc), <- (proj1 Hdesc); by destruct desc|].
    apply HQx; [by rewrite Ek|done].
  - wp_step. eapply or_status_wp; [exact Ho|done|]. intros h Hse. exists k, mdv_msg_status_id, (status_doc x.1 []). split_and!; [done|exact Hse|apply Hstatuses|done|]. intros s' Ho' Ek.
    cbn [fst snd Z.eqb code Pos.eqb]. wp_step. eapply wp_lift; [done|]. rewrite is_doc_msg by done. cbn [Z.eqb Pos.eqb mdv_msg_table_info_id mdv_msg_status_id]. wp_step. apply HQx; [by rewrite Ek|done].
Qed.

(** The storages give a table out and take it back, or refuse; [P] is what they
    answer and how they are in the end. *)
Definition table_read (P : mdv_errno * option mdv_table -> K -> Prop) (x : mdv_errno * option mdv_table) (k : K) : Prop :=
  if decide (x.1 = MDV_OK) then exists t, x.2 = Some t /\ desc_sent (tb_desc t) /\ wp mem (core_table_release t) k (fun _ => P x) else P x k.

(** A table is read when the storages have it. *)
Lemma get_table_wp id s R (P : mdv_errno * option mdv_table -> K -> Prop) (Q : option mdv_table -> mdv_client net -> Prop) :
  online s R -> Uuid.wf id -> doc_fits (id_doc id) -> wp mem (core_table_get id) (core_of s) (table_read P) -> (forall x k, P x k -> Fetcher.core_ok k) ->
  (forall x s', P x (core_of s') -> online s' R -> Q (if decide (x.1 = MDV_OK) then (fun t => mk_table 1 id (tb_desc t)) <$> x.2 else None) s') ->
  wp mem (mdv_get_table id) s Q.
Proof.
  intros Ho Hwf Hd Hcore HP HQ. pose proof (on_number _ _ Ho) as Hnum. unfold mdv_get_table. wp_step. eapply wp_write; [unfold mdv_msg_get_table_binn; do 2 step_writer; last_writer|]. intros r _ ->; [|done].
  change (binn_data _) with (binn_bytes (id_doc id)). wp_step. eapply sync_call_wp; [exact Ho|exact Hd|done|]. eapply recv_handler; [exact Ho|exact Hd|done|done|]. intros msg El En.
  unfold mdv_user_get_table_handler. rewrite El, En. wp_step. assert (Eu : mdv_msg_get_table_unbinn (id_doc id) = Some id). { destruct Hwf. unfold mdv_msg_get_table_unbinn, id_doc. do 2 step_reader. by destruct id. }
  rewrite Eu. do 2 wp_step. rewrite (Hb Hmem). wp_step. eapply hub_core_wp; [exact Hcore|]. intros x k HPx. unfold table_read in HPx. pose proof (HQ x) as HQx. destruct (decide (x.1 = MDV_OK)) as [E1|E1].
  - destruct HPx as (t & E2 & (l & Hdesc & Hfields & Hsize & Htd) & Hrel). rewrite E2 in *. wp_step. eapply wp_lift; [done|]. wp_step. unfold mdv_user_table_desc_reply. eapply hub_reply_wp; [exact Ho|by apply makes_table_desc|exact Htd|done|].
    intros h Hse. wp_step. unfold in_core. apply wp_zoom. pose proof Hse as ((Eh & Eq & Eid & Hs) & Hr' & u & u' & Hu & Hu' & Esent). rewrite Eh. eapply wp_mono; [exact Hrel|]. cbn beta. intros [] k2 HPk. pose proof (HP _ _ HPk) as Hk2. wp_step.
    unfold or_status. cbn [Z.eqb code Pos.eqb negb]. wp_step. exists k2, mdv_msg_table_desc_id, (desc_object (tb_desc t) l). split_and!; [done| |done|done|].
    { split; [done|]. split; [done|]. exists u, u'. done. }
    intros s' Ho' Ek. cbn [fst snd Z.eqb code Pos.eqb]. wp_step. eapply wp_lift; [done|]. rewrite is_doc_msg by done. cbn [Z.eqb Pos.eqb mdv_msg_table_desc_id]. unfold mdv_client_table_desc_handler. rewrite load_full by done.
    do 3 wp_step. rewrite (Hb0 Hmem). eapply wp_lift; [by apply unbinn_table_desc_spec|]. cbn iota. do 2 wp_step. rewrite (Hb1 Hmem).
    eapply wp_lift; [unfold mdv_table_create; rewrite (proj1 (table_create_impl_spec (tb_desc t) l None Hdesc I id)); rewrite pick_all, <- (proj2 Hdesc), <- (proj1 Hdesc); done|].
    specialize (HQx s'). rewrite Ek in HQx. specialize (HQx HPk Ho'). cbn in HQx. by destruct (tb_desc t).
  - wp_step. eapply or_status_wp; [exact Ho|done|]. intros h Hse. exists k, mdv_msg_status_id, (status_doc x.1 []). split_and!; [by eapply HP|exact Hse|apply Hstatuses|done|]. intros s' Ho' Ek.
    cbn [fst snd Z.eqb code Pos.eqb]. wp_step. eapply wp_lift; [done|]. rewrite is_doc_msg by done. cbn [Z.eqb Pos.eqb mdv_msg_table_desc_id mdv_msg_status_id]. wp_step. apply HQx; [by rewrite Ek|done].
Qed.

(** An insertion gives the error of the storages, which get the rows of the client. *)
Lemma client_insert_wp rowset desc s R (P : mdv_errno -> K -> Prop) (Q : Z -> mdv_client net -> Prop) :
  let id := tb_id (rs_table rowset) in
  let rows := B_list (row_doc desc <$> rs_rows rowset) in
  online s R -> Uuid.wf id -> desc_ok (tb_desc (rs_table rowset)) desc -> Forall (row_ok desc) (rs_rows rowset) -> doc_fits (insert_doc id rows) ->
  wp mem (core_rowdata_insert id rows) (core_of s) P -> (forall e k, P e k -> Fetcher.core_ok k) ->
  (forall (e : mdv_errno) s', P e (core_of s') -> online s' R -> Q (code e) s') -> wp mem (mdv_insert rowset) s Q.
Proof.
  intros id rows Ho Hwf Hdesc Hrows Hd Hcore HP HQ. pose proof (on_number _ _ Ho) as Hnum. unfold mdv_insert. wp_step. eapply wp_write; [by apply (Rowdata.Rowdata.makes_rowset desc)|]. intros r0 _ ->; [|done].
  wp_step. eapply wp_write; [unfold mdv_msg_insert_into_binn; do 3 step_writer; last_writer|]. intros r1 _ ->; [|done].
  change (binn_data _) with (binn_bytes (insert_doc id rows)). wp_step. eapply sync_call_wp; [exact Ho|exact Hd|done|]. eapply recv_handler; [exact Ho|exact Hd|done|done|]. intros msg El En.
  unfold mdv_user_insert_into_handler. rewrite El, En. wp_step. assert (Eu : mdv_msg_insert_into_unbinn (insert_doc id rows) = Some (id, rows)). { destruct Hwf. unfold mdv_msg_insert_into_unbinn, insert_doc. do 3 step_reader. by destruct id. }
  rewrite Eu. do 2 wp_step. rewrite (Hb Hmem). wp_step. eapply hub_core_wp; [exact Hcore|]. intros e k HPx. wp_step. unfold mdv_user_status_reply. eapply hub_reply_wp; [exact Ho|apply makes_status|apply Hstatuses|done|].
  intros h Hse. exists k, mdv_msg_status_id, (status_doc e []). split_and!; [by eapply HP|exact Hse|apply Hstatuses|done|]. intros s' Ho' Ek. cbn [fst snd Z.eqb code Pos.eqb]. wp_step. eapply wp_lift; [done|]. wp_step.
  rewrite status_response by done. apply HQ; [by rewrite Ek|done].
Qed.

(** C3: a call of the client library over the connection is the call of the storages
    of the server: the table that is made has the identifier that the storages gave
    and the description of the caller, or there is none when they refuse; the table
    that is read has the description of the one that the storages hand out, which
    they get back; an insertion gives them the rows of the caller and returns their
    error.  Afterwards the storages are as
    they left them, and the next call can be made. *)
Theorem mdv_client_calls_storages s R :
  online s R ->
  (forall desc P, desc_sent desc -> wp mem (core_table_create (Some desc)) (core_of s) P ->
     (forall x k, P x k -> Fetcher.core_ok k /\ (x.1 = MDV_OK -> exists id, x.2 = Some id /\ Uuid.wf id /\ doc_fits (id_doc id))) ->
     wp mem (mdv_create_table desc) s (fun r s' => online s' R /\ exists x, P x (core_of s') /\ r = if decide (x.1 = MDV_OK) then (fun id => mk_table 1 id desc) <$> x.2 else None))
  /\ (forall id P, Uuid.wf id -> doc_fits (id_doc id) -> wp mem (core_table_get id) (core_of s) (table_read P) -> (forall x k, P x k -> Fetcher.core_ok k) ->
     wp mem (mdv_get_table id) s (fun r s' => online s' R /\ exists x, P x (core_of s') /\ r = if decide (x.1 = MDV_OK) then (fun t => mk_table 1 id (tb_desc t)) <$> x.2 else None))
  /\ (forall rowset desc P, let rows := B_list (row_doc desc <$> rs_rows rowset) in
     Uuid.wf (tb_id (rs_table rowset)) -> desc_ok (tb_desc (rs_table rowset)) desc -> Forall (row_ok desc) (rs_rows rowset) -> doc_fits (insert_doc (tb_id (rs_table rowset)) rows) ->
     wp mem (core_rowdata_insert (tb_id (rs_table rowset)) rows) (core_of s) P -> (forall e k, P e k -> Fetcher.core_ok k) ->
     wp mem (mdv_insert rowset) s (fun r s' => online s' R /\ exists e : mdv_errno, P e (core_of s') /\ r = code e)).
Proof.
  intros Ho. split_and!.
  - intros desc P Hd Hw HP. eapply create_table_wp; [exact Ho|exact Hd|exact Hw|exact HP|]. intros x s' HPx Ho'. split; [done|]. by exists x.
  - intros id P Hid Hd Hw HP. eapply get_table_wp; [exact Ho|exact Hid|exact Hd|exact Hw|exact HP|]. intros x s' HPx Ho'. split; [done|]. by exists x.
  - intros rowset desc P rows Hid Hd Hr Hf Hw HP. eapply client_insert_wp; [exact Ho|exact Hid|exact Hd|exact Hr|exact Hf|exact Hw|exact HP|]. intros e s' HPe Ho'. split; [done|]. by exists e.
Qed.

(** *** A table that the server has *)

(** What the storages answer for the table with the given rows of the selected
    fields; [shows v p]: the view [v] has shown the rows before [p]. *)
Record serves (table slice : mdv_table) (fields : mdv_bitset) (rows : list mdv_row) (shows : V -> nat -> Prop) : Prop := {
  sv_user : mdv_uuid_cmp Tables.Tables.MDV_SYSTBL_TABLES (tb_id table) <> 0%Z;
  sv_get k : Fetcher.core_ok k -> wp mem (core_table_get (tb_id table)) k (fun x _ => exists t, x = (MDV_OK, Some t) /\ tb_id t = tb_id table);
  sv_rowdata k : Fetcher.core_ok k -> wp mem (Fetcher.core_rowdata_get (tb_id table)) k (fun e _ => e = MDV_OK);
  sv_view t p k : tb_id t = tb_id table -> Fetcher.core_ok k ->
    wp mem (Fetcher.core_rowdata_view (tb_id table) t (sent_fields fields) p) k (fun r _ => exists v, r = Some v /\ shows v 0);
  sv_retain v p : shows v p -> shows (Fetcher.core_view_retain v) p;
  sv_release v p m i k r j k' : shows v p -> Fetcher.core_view_release v m i k = Done (Some r, j, k') -> shows r p;
  sv_fetch v p k : Fetcher.core_ok k -> shows v p -> wp mem (Fetcher.core_view_fetch v batch_size) k (fun r _ =>
    r.2 = (match drop p rows with [] => None | l => Some (mk_rowset 1 slice (take batch_size l)) end)
    /\ (drop p rows <> [] -> shows r.1 (p + length (take batch_size (drop p rows)))))
}.

Context (table slice : mdv_table) (fields : mdv_bitset) (rows : list mdv_row) (shows : V -> nat -> Prop) (Hserves : serves table slice fields rows shows).

Lemma serves_select : Fetcher.select_spec mem (fun v => shows v 0) True (fun r => exists v, r = Some v /\ shows v 0) (tb_id table) (sent_fields fields) (fun t => tb_id t = tb_id table).
Proof.
  split; try done.
  - by intros _ (v & ? & _).
  - by intros v (v' & [= <-] & ?).
  - intros k Hk. eapply wp_mono; [apply wp_and; [by apply Fetcher.table_get_law|by apply (sv_get _ _ _ _ _ Hserves)]|]. cbn beta. intros x k' [Hk' (t & -> & Ht)]. split_and!; [done| |by exists t]. by intros t' [= <-].
  - intros t k Ht _ Hk. rewrite Ht. eapply wp_mono; [apply wp_and; [by apply Fetcher.rowdata_get_law|by apply (sv_rowdata _ _ _ _ _ Hserves)]|]. cbn beta. by intros e k' [? ?].
  - intros k Hs. by destruct (sv_user _ _ _ _ _ Hserves).
  - intros t p Ht _ k Hk. rewrite Ht. eapply wp_mono; [apply wp_and; [by apply Fetcher.rowdata_view_law|by apply (sv_view _ _ _ _ _ Hserves)]|]. cbn beta. intros r k' [[? ?] ?]. done.
  - intros p Hs. by destruct (sv_user _ _ _ _ _ Hserves).
Qed.

(** A registered view of the table. *)
Definition has_view (x : server) (R : gmap Z nat) (id : Z) (p : nat) : Prop := exists a v, R !! id = Some a /\ Fetcher.ft_heap x !! a = Some v /\ shows v p.

(** The select is answered with the number of a new view. *)
Lemma settle_select x R u filter number (Q : unit -> server -> Prop) :
  idle x R -> Fetcher.has_number x -> hb_users (Fetcher.ft_hub x) !! 0 = Some u -> doc_fits (view_doc (Fetcher.ft_idgen x)) -> fits 16 number ->
  (forall x' R', idle x' R' -> has_view x' R' (Fetcher.ft_idgen x) 0 -> written x' = written x ++ wire (doc_msg mdv_msg_view_id number (view_doc (Fetcher.ft_idgen x))) ->
     (forall id, id <> Fetcher.ft_idgen x -> R' !! id = R !! id) -> Fetcher.ft_idgen x' = (Fetcher.ft_idgen x + 1)%Z -> Q tt x') ->
  wp mem (settle fuel is_empty batch_size clock 3)
    (Fetcher.set_hub x (set_requests (Fetcher.ft_hub x) (hb_requests (Fetcher.ft_hub x) ++ [Evt_select (us_session u) number (tb_id table) (sent_fields fields) filter]))) Q.
Proof.
  intros [Hi Hj Hq Hr] Hn Hu Hd Hnum HQ. set (x0 := Fetcher.set_hub x _).
  eapply settle_event; [cbn [Fetcher.ft_hub Fetcher.set_hub hb_requests set_requests x0]; by rewrite Hq|]. unfold Fetcher.take_event. do 3 wp_step. eapply wp_lift; [cbn [Fetcher.ft_hub Fetcher.set_hub hb_requests set_requests x0]; by rewrite Hq|]. do 2 wp_step. cbn [Fetcher.mdv_fetcher_handlers]. wp_step.
  set (x1 := Fetcher.set_hub x0 _). assert (Hi1 : Fetcher.finv fuel x1 R [] (0, 0%Z)) by (by destruct Hi). assert (Hroom : Fetcher.room x1) by (unfold Fetcher.room; cbn; rewrite Hj; done).
  assert (Eq1 : hb_requests (Fetcher.ft_hub x1) = []) by (cbn; by rewrite Hq).
  unfold Fetcher.mdv_fetcher_evt_select. wp_step. eapply (Fetcher.view_create_wp _ _ _ (fun v => shows v 0)); [intros v; apply (sv_retain _ _ _ _ _ Hserves)|intros v m i k r j k'; apply (sv_release _ _ _ _ _ Hserves)|exact serves_select|exact Hi1|done|done| |].
  - intros a x2 v Hi2 Hf Hnone Eg Hv Hsh. wp_step. rewrite decide_True by done. wp_step. wp_step. rewrite (Hb Hmem). cbn [default]. pose proof (ready_frame _ _ Hf Hr) as Hr2.
    eapply publish_ok; [exact Hi2|exact Hr2|done| | |].
    + intros u' Hu'. rewrite (proj1 (proj2 Hf)) in Hu'. cbn in Hu'. rewrite Hu in Hu'. by injection Hu' as <-.
    + apply (doc_frame mdv_msg_view_id number _ Hd ltac:(done) Hnum).
    + intros h Hse Hi3. wp_step. wp_step. destruct (sends_written _ _ _ Hse) as [Ew Hr3].
      assert (Eq3 : hb_requests h = []) by (rewrite (proj1 (proj2 (proj1 Hse))), (proj2 (proj2 Hf)); exact Eq1). assert (Ej : Fetcher.ft_jobs x2 = []) by (rewrite (proj1 Hf); exact Hj). apply settle_done; [done..|].
      eapply HQ; [split; [exact Hi3|exact Ej|exact Eq3|exact Hr3]| | | |exact Eg].
      * exists a, v. cbn [Fetcher.ft_idgen Fetcher.set_hub x1 x0] in *. rewrite lookup_insert_eq. by split_and!.
      * rewrite Ew, (written_frame _ _ Hf). done.
      * intros id Hne. rewrite lookup_insert_ne by (cbn; congruence). done.
  - intros err text x2 Hng. by destruct Hng.
Qed.

Context (desc : list mdv_field) (Hdesc : desc_ok (tb_desc slice) desc) (Hrows : Forall (row_ok desc) rows) (Hbatch : 1 <= batch_size).

(** The page behind the row [p]. *)
Definition page (p : nat) : list mdv_row := take batch_size (drop p rows).
Definition page_doc (p : nat) : binn := rowset_doc (B_list (row_doc desc <$> page p)).

Lemma page_rows p : Forall (row_ok desc) (page p).
Proof. by apply Forall_take, Forall_drop. Qed.

Definition fetch_ctx (u : mdv_user) (number : Z) (a : nat) (id : Z) : Fetcher.mdv_fetcher_context := Fetcher.mk_context (us_session u) number a id.

(** What the job of a fetch does: it sends the next page, or says that there is none
    and drops the view. *)
Lemma job_wp x R u number a v id p (Q : unit -> server -> Prop) :
  let ctx := fetch_ctx u number a id in
  Fetcher.finv fuel x R [a] (1, 1%Z) -> Fetcher.room x -> ready (Fetcher.ft_hub x) -> hb_users (Fetcher.ft_hub x) !! 0 = Some u -> R !! id = Some a -> fits 32 id -> fits 16 number ->
  Fetcher.ft_heap x !! a = Some v -> shows v p ->
  (drop p rows <> [] -> doc_fits (page_doc p)) -> doc_fits (status_doc MDV_FAILED []) ->
  (forall x' v', drop p rows <> [] -> Fetcher.finv fuel x' R [a] (1, 1%Z) -> Fetcher.ft_jobs x' = Fetcher.ft_jobs x -> hb_requests (Fetcher.ft_hub x') = hb_requests (Fetcher.ft_hub x) -> ready (Fetcher.ft_hub x') ->
     Fetcher.ft_heap x' !! a = Some v' -> shows v' (p + length (page p)) -> written x' = written x ++ wire (doc_msg mdv_msg_rowset_id number (page_doc p)) -> Fetcher.ft_idgen x' = Fetcher.ft_idgen x -> Q tt x') ->
  (forall x', drop p rows = [] -> Fetcher.finv fuel x' (delete id R) [a] (1, 1%Z) -> Fetcher.ft_jobs x' = Fetcher.ft_jobs x -> hb_requests (Fetcher.ft_hub x') = hb_requests (Fetcher.ft_hub x) -> ready (Fetcher.ft_hub x') ->
     written x' = written x ++ wire (doc_msg mdv_msg_status_id number (status_doc MDV_FAILED [])) -> Fetcher.ft_idgen x' = Fetcher.ft_idgen x -> Q tt x') ->
  wp mem (Fetcher.mdv_fetcher_fn fuel is_empty batch_size ctx) x Q.
Proof.
  intros ctx Hi Hroom Hr Hu HR Hid Hnum Hv Hsh Hpd Hsd HP HE. unfold Fetcher.mdv_fetcher_fn.
  eapply (Fetcher.fetch_wp fuel batch_size mem a x R [a] (1, 1%Z) (fun v0 r => r.2 = (match drop p rows with [] => None | l => Some (mk_rowset 1 slice (take batch_size l)) end)
    /\ (drop p rows <> [] -> shows r.1 (p + length (take batch_size (drop p rows)))))) with (cont := fun y => mbind _ (match y with Some _ => _ | None => _ end));
    [exact Hi|rewrite elem_of_app; right; by left| |].
  { intros v0 k Hv0 Hk. rewrite Hv in Hv0. injection Hv0 as <-. by apply (sv_fetch _ _ _ _ _ Hserves). }
  intros v0 [v1 r] k Hv0 [Er Hs1] _ x1 Hi1. cbn [fst snd] in *. subst r. assert (Hr1 : ready (Fetcher.ft_hub x1)) by done. wp_step. destruct (drop p rows) as [|y l] eqn:Ed.
  - wp_step. eapply Fetcher.unregister_wp; [exact Hi1|done|unfold Fetcher.few; cbn; lia|done| |].
    + intros x2 _ Hnone _. pose proof (Hnone Hmem) as E. cbn in E. congruence.
    + intros a' x2 hm _ Hrel Hi2. pose proof (Fetcher.frame_released _ _ _ Hrel) as Hf. wp_step. cbn [fst snd Z.eqb code Pos.eqb]. wp_step. unfold Fetcher.publish_status. wp_step. wp_step. rewrite (Hb Hmem).
      set (x3 := Fetcher.set_views x2 hm) in *. assert (Hf3 : Fetcher.frame x1 x3) by done. eapply publish_ok; [exact Hi2|by eapply (ready_frame x1)|done| | |].
      * intros u' Hu'. rewrite (proj1 (proj2 Hf3)) in Hu'. cbn in Hu'. rewrite Hu in Hu'. by injection Hu' as <-.
      * apply (doc_frame mdv_msg_status_id number _ Hsd ltac:(done) Hnum).
      * intros h Hse Hi4. wp_step. destruct (sends_written _ _ _ Hse) as [Ew Hr4]. eapply HE; [done|exact Hi4|exact (proj1 Hf3)| |exact Hr4| |].
        -- cbn. rewrite (proj1 (proj2 (proj1 Hse))). exact (proj2 (proj2 Hf3)).
        -- rewrite Ew, (written_frame _ _ Hf3). done.
        -- by destruct Hrel as (k' & v' & r' & _ & -> & _).
  - rewrite <- Ed in *. specialize (Hpd ltac:(by rewrite Ed)). specialize (Hs1 ltac:(by rewrite Ed)). wp_step. eapply wp_write; [apply (Rowdata.Rowdata.makes_rowset desc); [exact Hdesc|apply page_rows]|]. intros r _ ->; [|done].
    wp_step. wp_step. rewrite (Hb Hmem). wp_step. cbn [rs_rows]. eapply publish_ok; [exact Hi1|exact Hr1|done| | |].
    + intros u' Hu'. cbn in Hu'. rewrite Hu in Hu'. by injection Hu' as <-.
    + apply (doc_frame mdv_msg_rowset_id number _ Hpd ltac:(done) Hnum).
    + intros h Hse Hi4. wp_step. cbn [fst snd Z.eqb code Pos.eqb]. wp_step. destruct (sends_written _ _ _ Hse) as [Ew Hr4]. eapply (HP _ v1); [by rewrite Ed|exact Hi4|done| |exact Hr4| |exact Hs1| |done].
      * exact (proj1 (proj2 (proj1 Hse))).
      * cbn. by rewrite lookup_insert_eq.
      * exact Ew.
Qed.

(** A fetch is answered with the next page, or with a status behind the last row;
    then the view is dropped. *)
Lemma settle_fetch x R u number id p (Q : unit -> server -> Prop) :
  idle x R -> hb_users (Fetcher.ft_hub x) !! 0 = Some u -> has_view x R id p -> fits 32 id -> fits 16 number ->
  (drop p rows <> [] -> doc_fits (page_doc p)) -> doc_fits (status_doc MDV_FAILED []) ->
  (forall x', drop p rows <> [] -> idle x' R -> has_view x' R id (p + length (page p)) -> written x' = written x ++ wire (doc_msg mdv_msg_rowset_id number (page_doc p)) ->
     Fetcher.ft_idgen x' = Fetcher.ft_idgen x -> Q tt x') ->
  (forall x', drop p rows = [] -> idle x' (delete id R) -> written x' = written x ++ wire (doc_msg mdv_msg_status_id number (status_doc MDV_FAILED [])) -> Fetcher.ft_idgen x' = Fetcher.ft_idgen x -> Q tt x') ->
  wp mem (settle fuel is_empty batch_size clock 3)
    (Fetcher.set_hub x (set_requests (Fetcher.ft_hub x) (hb_requests (Fetcher.ft_hub x) ++ [Evt_view_fetch (us_session u) number id]))) Q.
Proof.
  intros [Hi Hj Hq Hr] Hu (a & v & HR & Hv & Hsh) Hid Hnum Hpd Hsd HP HE. set (x0 := Fetcher.set_hub x _).
  eapply settle_event; [cbn [Fetcher.ft_hub Fetcher.set_hub hb_requests set_requests x0]; by rewrite Hq|]. unfold Fetcher.take_event. do 3 wp_step. eapply wp_lift; [cbn [Fetcher.ft_hub Fetcher.set_hub hb_requests set_requests x0]; by rewrite Hq|]. do 2 wp_step. cbn [Fetcher.mdv_fetcher_handlers]. wp_step.
  set (x1 := Fetcher.set_hub x0 _). assert (Hi1 : Fetcher.finv fuel x1 R [] (0, 0%Z)) by (by destruct Hi). assert (Hroom : Fetcher.room x1) by (unfold Fetcher.room; cbn; rewrite Hj; done).
  assert (Eq1 : hb_requests (Fetcher.ft_hub x1) = []) by (cbn; by rewrite Hq).
  unfold Fetcher.mdv_fetcher_evt_view_fetch. wp_step. eapply Fetcher.job_emit_wp; [exact Hi1|done|done| |]; [|intros err text x2 Hn; by rewrite (Hn Hmem) in HR].
  intros a' v' x2 HR' Hv' Hi2 Ej2 Eh2 Ev2 Eg2. rewrite HR in HR'. injection HR' as <-. cbn in Hv'. rewrite Hv in Hv'. injection Hv' as <-. cbn [fst]. rewrite decide_True by done. do 2 wp_step.
  eapply settle_job; [by rewrite Eh2|rewrite Ej2; cbn [Fetcher.ft_jobs Fetcher.set_hub x1 x0]; by rewrite Hj|]. unfold Fetcher.take_job. do 3 wp_step.
  eapply wp_lift; [rewrite Ej2; cbn [Fetcher.ft_jobs Fetcher.set_hub x1 x0]; by rewrite Hj|]. do 2 wp_step. wp_step.
  assert (Hctx : Fetcher.ft_jobs x2 !! 0 = Some (fetch_ctx u number a id)) by (rewrite Ej2; cbn [Fetcher.ft_jobs Fetcher.set_hub x1 x0]; by rewrite Hj).
  pose proof (Fetcher.finv_take fuel x2 R [] 0 0 0 _ Hi2 Hctx) as Hi3. set (x3 := Fetcher.set_jobs x2 _) in *. cbn [fetch_ctx Fetcher.fc_view] in Hi3.
  assert (Ej3 : Fetcher.ft_jobs x3 = []) by (cbn [x3 Fetcher.set_jobs Fetcher.ft_jobs]; rewrite Ej2; cbn [Fetcher.ft_jobs Fetcher.set_hub x1 x0]; by rewrite Hj).
  assert (Hr3 : ready (Fetcher.ft_hub x3)) by (cbn; by rewrite Eh2). assert (Ew3 : written x3 = written x) by (unfold written; cbn; by rewrite Eh2).
  assert (Hroom3 : Fetcher.room x3) by (unfold Fetcher.room; by rewrite Ej3).
  (* the end of the job *)
  assert (Hfin : forall x4 R' (Q' : unit -> server -> Prop), Fetcher.finv fuel x4 R' [a] (1, 1%Z) -> Fetcher.ft_jobs x4 = [] -> hb_requests (Fetcher.ft_hub x4) = [] -> ready (Fetcher.ft_hub x4) ->
    (forall x5 s5, idle x5 R' -> Fetcher.released x4 s5 a -> Fetcher.ft_heap x5 = Fetcher.ft_heap s5 -> written x5 = written x4 -> Fetcher.ft_idgen x5 = Fetcher.ft_idgen x4 -> Q' tt x5) ->
    wp mem (Fetcher.mdv_fetcher_finalize 1 (fetch_ctx u number a id)) x4 (fun _ x5 => wp mem (settle fuel is_empty batch_size clock 1) x5 Q')).
  { intros x4 R' Q' Hi4 Ej4 Eq4 Hr4 HQ'. eapply Fetcher.finalize_wp; [exact Hi4|unfold Fetcher.room; by rewrite Ej4|]. intros s5 x5 Hi5 Hrel Eh5 Eg5 Hf5.
    assert (Eq5 : hb_requests (Fetcher.ft_hub x5) = []) by (by rewrite (proj2 (proj2 Hf5))). assert (Ej5 : Fetcher.ft_jobs x5 = []) by (by rewrite (proj1 Hf5)). apply settle_done; [done..|].
    eapply HQ'; [|exact Hrel|exact Eh5|by apply written_frame|exact Eg5]. split; [done|done|done|by eapply ready_frame]. }
  eapply (job_wp x3 R u number a (Fetcher.core_view_retain v) id p); [exact Hi3|exact Hroom3|exact Hr3|by cbn; rewrite Eh2|exact HR|exact Hid|exact Hnum|exact Ev2|by apply (sv_retain _ _ _ _ _ Hserves)|exact Hpd|exact Hsd| |].
  - intros x4 v4 Hne Hi4 Ej4 Eq4 Hr4 Hv4 Hs4 Ew4 Eg4. eapply (Hfin x4 R Q); [exact Hi4|by rewrite Ej4|rewrite Eq4; cbn; by rewrite Eh2, Eq1|exact Hr4|]. intros x5 s5 Hid5 Hrel Eh5 Ew5 Eg5.
    apply HP; [done|exact Hid5| |by rewrite Ew5, Ew4, Ew3|by rewrite Eg5, Eg4; cbn; rewrite Eg2].
    destruct (Fetcher.heap_live _ _ a (Fetcher.fi_heap _ _ _ _ _ (id_inv _ _ Hid5))) as (v5 & Hv5 & _); [rewrite elem_of_app; left; by eapply Fetcher.in_held|]. exists a, v5. split; [done|]. split; [done|]. rewrite Eh5 in Hv5.
    eapply (Fetcher.released_live (fun v => shows v (p + length (page p)))); [intros; by eapply (sv_release _ _ _ _ _ Hserves)|exact Hrel| |exact Hv5]. intros y Hy. rewrite Hv4 in Hy. by injection Hy as <-.
  - intros x4 He Hi4 Ej4 Eq4 Hr4 Ew4 Eg4. eapply (Hfin x4 (delete id R) Q); [exact Hi4|by rewrite Ej4|rewrite Eq4; cbn; by rewrite Eh2, Eq1|exact Hr4|]. intros x5 s5 Hid5 Hrel Eh5 Ew5 Eg5.
    apply HE; [done|exact Hid5|by rewrite Ew5, Ew4, Ew3|by rewrite Eg5, Eg4; cbn; rewrite Eg2].
Qed.

(** The select gives the number of a view that has shown nothing yet. *)
Lemma select_request_wp s R filter (Q : Z * option Z -> mdv_client net -> Prop) :
  let id := Fetcher.ft_idgen (nt_server (cl_world s)) in
  online s R -> Fetcher.has_number (nt_server (cl_world s)) -> doc_fits (select_doc (tb_id table) fields filter) -> doc_fits (view_doc id) -> Uuid.wf (tb_id table) -> Bitset.wf fields ->
  (Z.of_nat (length (bs_bits fields)) < 2 ^ 32)%Z ->
  (forall s' R', online s' R' -> has_view (nt_server (cl_world s')) R' id 0 -> (forall i, i <> id -> R' !! i = R !! i) -> Q (code MDV_OK, Some id) s') ->
  wp mem (mdv_select_request table fields filter) s Q.
Proof.
  intros id Ho Hn Hsd Hvd Hu Hf Hlen HQ. pose proof Ho as [_ Hnum Hi]. pose proof (id_ready _ _ Hi) as (u & Huser & _). unfold mdv_select_request. wp_step. eapply wp_write; [by apply makes_select|]. intros r _ ->; [|done].
  change (binn_data (select_doc (tb_id table) fields filter)) with (binn_bytes (select_doc (tb_id table) fields filter)). wp_step. eapply client_send_wp; [exact Ho|].
  apply call_wp; [by apply (doc_frame mdv_msg_select_id)|apply Hi|]. eapply recv_select; [done..|]. eapply settle_select; [exact Hi|exact Hn|exact Huser|exact Hvd|exact Hnum|].
  intros x' R' Hi' Hv Ew HR Eg. exists (doc_msg mdv_msg_view_id (nt_number (cl_world s)) (view_doc id)). split_and!; [apply Hi'|exact Ew|by apply doc_frame|done|].
  cbn [fst snd Z.eqb code Pos.eqb]. wp_step. eapply wp_lift; [done|]. wp_step. rewrite is_doc_msg by done. cbn [Z.eqb Pos.eqb mdv_msg_view_id]. unfold mdv_client_view_handler. rewrite load_full by done.
  assert (E : mdv_msg_view_unbinn (view_doc id) = Some id). { unfold mdv_msg_view_unbinn, view_doc. assert (fits 32 id) by (unfold Fetcher.has_number, fits in *; lia). by step_reader. }
  rewrite E. eapply HQ; [|exact Hv|exact HR]. apply (online_world s R); [done|apply next_number|done].
Qed.

(** *** The rows of a select *)

(** [tslice]: the table of the selected fields, as the client has made it. *)
Context (tslice : mdv_table) (Htslice : desc_ok (tb_desc tslice) desc).
Context (Hpages : forall p, drop p rows <> [] -> doc_fits (page_doc p)) (Hstatus : doc_fits (status_doc MDV_FAILED [])).

(** The rows of the page that the enumerator has not shown yet. *)
Definition in_page (impl : mdv_rowset_enumerator_impl) (l : list mdv_row) : Prop :=
  match ei_fset impl with
  | None => l = []
  | Some (fset, e) => exists i, re_current e = Some i /\ l = drop (S i) (rs_rows fset)
  end.

Lemma fetched_page number p s (Q : Z * option (mdv_rowset * rowset_enumerator) -> mdv_client net -> Prop) :
  drop p rows <> [] -> fits 16 number ->
  (forall fset, rs_rows fset = page p -> Q (code MDV_OK, Some (fset, mk_rowset_enum 1 (Some 0))) s) ->
  wp mem (fetched (full_msg (doc_msg mdv_msg_rowset_id number (page_doc p))) tslice) s Q.
Proof.
  intros Hne Hn HQ. pose proof (Hpages p Hne) as Hd. unfold fetched. rewrite is_doc_msg by done. cbn [Z.eqb Pos.eqb mdv_msg_rowset_id]. wp_step. unfold mdv_client_rowset_handler. rewrite load_full by done.
  assert (E : mdv_msg_rowset_unbinn (page_doc p) = Some (B_list (row_doc desc <$> page p))) by (unfold mdv_msg_rowset_unbinn, page_doc, rowset_doc; by step_reader). rewrite E. do 4 wp_step. rewrite (Hb Hmem). wp_step.
  assert (Er : mdv_unbinn_rowset true f (B_list (row_doc desc <$> page p)) tslice = Done (Some (mk_rowset 1 (mdv_table_retain tslice) (page p)))).
  { unfold mdv_unbinn_rowset. cbn [mdv_rowset_create negb]. rewrite items_list. rewrite (unbinn_rows_spec desc); [done|exact Htslice|apply page_rows|by apply Hf]. }
  eapply wp_lift; [exact Er|]. wp_step. cbn [is_some fst snd]. do 2 wp_step. rewrite (Hb0 Hmem). cbn [mdv_rowset_enumerator negb]. unfold mdv_rowset_enumerator_next. cbn [re_current re_rc mdv_rowset_retain rs_rows].
  assert (Hl : 0 < length (page p)) by (unfold page; destruct (drop p rows); [done|]; rewrite length_take; cbn; lia). destruct (Nat.ltb_spec 0 (length (page p))); [|lia]. cbn beta iota. wp_step. by apply HQ.
Qed.

(** The error behind the last row is that of the status. *)
Lemma fetched_end number s (Q : Z * option (mdv_rowset * rowset_enumerator) -> mdv_client net -> Prop) :
  fits 16 number -> Q (code MDV_FAILED, None) s -> wp mem (fetched (full_msg (doc_msg mdv_msg_status_id number (status_doc MDV_FAILED []))) tslice) s Q.
Proof.
  intros Hn HQ. unfold fetched. rewrite is_doc_msg by done. cbn [Z.eqb Pos.eqb mdv_msg_rowset_id mdv_msg_status_id]. wp_step. unfold other_response. rewrite (proj1 (full_fields mdv_msg_status_id number _ Hstatus ltac:(done) Hn)). cbn [Z.eqb Pos.eqb mdv_msg_status_id].
  unfold mdv_client_status_handler. rewrite load_full by done. assert (E : mdv_msg_status_unbinn (status_doc MDV_FAILED []) = Some (code MDV_FAILED, [])) by (unfold mdv_msg_status_unbinn, status_doc; by do 2 step_reader).
  rewrite E. exact HQ.
Qed.

(** A fetch over the connection. *)
Lemma fetch_call_wp s R rc id p (Q : mdv_rowset_enumerator_impl * Z -> mdv_client net -> Prop) :
  let rs := mk_rowset_impl rc id tslice in
  online s R -> has_view (nt_server (cl_world s)) R id p -> doc_fits (view_doc id) -> fits 32 id ->
  (forall s' fset, drop p rows <> [] -> online s' R -> has_view (nt_server (cl_world s')) R id (p + length (page p)) -> rs_rows fset = page p ->
     Q (mk_enumerator_impl rs (Some (fset, mk_rowset_enum 1 (Some 0))), code MDV_OK) s') ->
  (forall s', drop p rows = [] -> online s' (delete id R) -> Q (mk_enumerator_impl rs None, code MDV_FAILED) s') ->
  wp mem (fetch_page rs) s Q.
Proof.
  intros rs Ho Hv Hvd Hid HP HE. pose proof Ho as [_ Hnum Hi]. pose proof (id_ready _ _ Hi) as (u & Huser & _). unfold fetch_page. cbn [rs ri_view_id ri_table]. wp_step. eapply wp_write; [apply makes_fetch|]. intros r _ ->; [|done].
  change (binn_data (view_doc id)) with (binn_bytes (view_doc id)). wp_step. eapply client_send_wp; [exact Ho|]. apply call_wp; [by apply (doc_frame mdv_msg_fetch_id)|apply Hi|]. eapply recv_fetch; [done..|].
  eapply (settle_fetch _ R u _ id p); [exact Hi|exact Huser|exact Hv|exact Hid|exact Hnum|apply Hpages|exact Hstatus| |].
  - intros x' Hne Hi' Hv' Ew _. exists (doc_msg mdv_msg_rowset_id (nt_number (cl_world s)) (page_doc p)). split_and!; [apply Hi'|exact Ew|apply doc_frame; [by apply Hpages|done|done]|done|].
    cbn [fst snd Z.eqb code Pos.eqb]. wp_step. eapply wp_lift; [done|]. wp_step. apply fetched_page; [done|done|]. intros fset Hfs. wp_step. cbn [fst snd]. apply HP; [done| |exact Hv'|exact Hfs].
    apply (online_world s R); [done|apply next_number|done].
  - intros x' He Hi' Ew _. exists (doc_msg mdv_msg_status_id (nt_number (cl_world s)) (status_doc MDV_FAILED [])). split_and!; [apply Hi'|exact Ew|by apply doc_frame|done|].
    cbn [fst snd Z.eqb code Pos.eqb]. wp_step. eapply wp_lift; [done|]. wp_step. apply fetched_end; [done|]. wp_step. cbn [fst snd]. apply HE; [done|]. apply (online_world s R); [done|apply next_number|done].
Qed.

(** All rows are shown, each once and in their order. *)
Lemma read_rows_wp n : forall s R rc id p impl l (Q : list mdv_row * Z -> mdv_client net -> Prop),
  online s R -> has_view (nt_server (cl_world s)) R id p -> doc_fits (view_doc id) -> fits 32 id -> ei_rowset impl = mk_rowset_impl rc id tslice -> in_page impl l ->
  length (l ++ drop p rows) < n -> (forall s', online s' (delete id R) -> Q (l ++ drop p rows, code MDV_FAILED) s') -> wp mem (read_rows n impl) s Q.
Proof.
  induction n as [|n IH]; intros s R rc id p impl l Q Ho Hv Hvd Hid Hrs Hp Hn HQ; [lia|]. cbn [read_rows]. wp_step. unfold mdv_rowset_enumerator_impl_next. rewrite Hrs. cbn [ri_view_id ri_table ei_rowset].
  assert (Hfetch : l = [] -> wp mem (fetch_page (mk_rowset_impl rc id tslice)) s (fun r s' => wp mem (if (r.2 =? MDV_OK)%Z then row ← lift (deref (mdv_rowset_enumerator_impl_current r.1)); x ← read_rows n r.1; mret (row :: x.1, x.2) else mret ([], r.2)) s' Q)).
  { intros ->. eapply fetch_call_wp; [exact Ho|exact Hv|exact Hvd|exact Hid| |].
    - intros s' fset Hne Ho' Hv' Hfs. cbn [fst snd Z.eqb code Pos.eqb]. wp_step. unfold mdv_rowset_enumerator_impl_current. cbn [ei_fset]. unfold mdv_rowset_enumerator_current. cbn [re_current]. rewrite Hfs.
      assert (Hpg : exists row l', page p = row :: l') by (unfold page; destruct (drop p rows) as [|row l'] eqn:Ed; [done|]; destruct batch_size as [|b]; [lia|]; by exists row, (take b l')). destruct Hpg as (row & l' & Epg).
      assert (Edrop : drop p rows = row :: l' ++ drop (p + length (page p)) rows).
      { rewrite <- drop_drop. rewrite app_comm_cons, <- Epg. unfold page. by rewrite Slice.Slice.drop_taken, take_drop. }
      rewrite Epg. eapply wp_lift; [done|]. wp_step. eapply (IH s' R rc id (p + length (page p)) _ l'); [exact Ho'|exact Hv'|exact Hvd|exact Hid|done| | |].
      + cbn [in_page ei_fset]. exists 0. split; [done|]. by rewrite Hfs, Epg.
      + rewrite Edrop in Hn. cbn [app length] in Hn. lia.
      + intros s'' Ho''. wp_step. cbn [fst snd]. rewrite app_comm_cons, <- app_comm_cons, <- Edrop. by apply (HQ s'').
    - intros s' He Ho'. cbn [fst snd Z.eqb code Pos.eqb]. wp_step. specialize (HQ s' Ho'). by rewrite He in HQ. }
  unfold in_page in Hp. destruct (ei_fset impl) as [[fset e]|]; [|by apply Hfetch]. destruct Hp as (i & Hcur & ->). unfold mdv_rowset_enumerator_next. rewrite Hcur. destruct (Nat.ltb_spec (S i) (length (rs_rows fset))) as [Hlt|Hge].
  - rewrite decide_True by done. wp_step. cbn [fst snd Z.eqb code Pos.eqb]. wp_step. unfold mdv_rowset_enumerator_impl_current. cbn [ei_fset]. unfold mdv_rowset_enumerator_current. cbn [re_current].
    destruct (lookup_lt_is_Some_2 _ _ Hlt) as [row Hrow]. rewrite Hrow. eapply wp_lift; [done|]. rewrite (drop_S _ _ _ Hrow) in *. wp_step.
    eapply (IH s R rc id p _ (drop (S (S i)) (rs_rows fset))); [exact Ho|exact Hv|exact Hvd|exact Hid|done| | |].
    + cbn [in_page ei_fset]. by exists (S i).
    + cbn [app length] in Hn. lia.
    + intros s' Ho'. wp_step. by apply (HQ s').
  - rewrite decide_False by done. apply Hfetch. by apply drop_ge.
Qed.

(** The whole of a select: afterwards the server has the views that it had before. *)
Lemma select_rows_wp n s R filter (Q : option (list mdv_row * Z) -> mdv_client net -> Prop) :
  let id := Fetcher.ft_idgen (nt_server (cl_world s)) in
  online s R -> Fetcher.has_number (nt_server (cl_world s)) -> doc_fits (select_doc (tb_id table) fields filter) -> doc_fits (view_doc id) -> Uuid.wf (tb_id table) -> Bitset.wf fields ->
  (Z.of_nat (length (bs_bits fields)) < 2 ^ 32)%Z -> mdv_table_slice true table fields = Done (Some tslice) -> length rows < n ->
  (forall s', online s' R -> Q (Some (rows, code MDV_FAILED)) s') -> wp mem (select_rows n table fields filter) s Q.
Proof.
  intros id Ho Hn Hsd Hvd Hu Hf Hlen Hts Hfuel HQ. unfold select_rows, mdv_select. do 3 wp_step. rewrite (Hb Hmem). wp_step. eapply wp_lift; [exact Hts|]. cbn iota. wp_step. eapply select_request_wp; [done..|]. intros s' R' Ho' Hv HR.
  cbn [fst snd Z.eqb code Pos.eqb default]. do 3 wp_step. rewrite (Hb0 Hmem). cbn [mdv_rowset_impl_create]. wp_step. unfold mdv_rowset_enumerator_impl_create. do 3 wp_step. rewrite (Hb1 Hmem). wp_step.
  eapply (read_rows_wp n s' R' _ id 0 _ []); [exact Ho'|exact Hv|exact Hvd|unfold Fetcher.has_number, fits in *; lia|done|done|rewrite drop_0; exact Hfuel|]. intros s'' Ho''. wp_step. rewrite drop_0. apply HQ.
  assert (E : delete id R' = R); [|by rewrite E in Ho'']. apply map_eq. intros i. destruct (decide (i = id)) as [->|Hne]; [|rewrite lookup_delete_ne by done; by apply HR].
  rewrite lookup_delete_eq. destruct (R !! id) as [a|] eqn:Ea; [|done]. destruct (Fetcher.fi_map _ _ _ _ _ (id_inv _ _ (on_idle _ _ Ho))) as (_ & _ & Hb2). pose proof (Hb2 _ _ Ea). unfold id in *. lia.
Qed.


End Answers.

(** ** Witnesses *)

Section Demo.

(** A server with one table of two rows, and pages of one row. *)
Definition demo_rows : list mdv_row := [demo_row; demo_row].
Definition demo_store : Fetcher.storage := [(demo_table, demo_rows)].
Definition demo_fresh (n : nat) : list Z := replicate n 0%Z.
Definition no_empty (_ : mdv_topology) : bool := false.

Lemma demo_store_ok k : k = demo_store -> Fetcher.storage_ok k.
Proof. intros ->. constructor; [|done]. exists demo_fields. split; [done|]. constructor; [|constructor; [|done]]; apply demo_row_ok. Qed.

#[local] Instance demo_remote : Remote (network Fetcher.storage Fetcher.storage_view) := network_remote 1000 demo_fresh no_empty 1 7.

Definition demo_server (h : hub Fetcher.storage) : Fetcher.mdv_fetcher Fetcher.storage Fetcher.storage_view :=
  match Fetcher.mdv_fetcher_create true true true true true true true h with inl x => x | inr _ => Fetcher.demo_new end.
Definition demo_client : mdv_client (network Fetcher.storage Fetcher.storage_view) :=
  mk_client (mk_safeptr (Some (mk_connection 2 (mk_uuid 8 9)))) (mk_network 0 (demo_server (mk_hub demo_store [Fetcher.demo_user] []))).

Lemma demo_ready : ready (mk_hub demo_store [Fetcher.demo_user] []).
Proof. exists Fetcher.demo_user. split; [done|]. split; [by constructor|]. intros [|i] x Hx Hs; [done|]. by destruct i. Qed.

Ltac fits_doc := split_and!; [reflexivity|vm_compute; repeat split; first [congruence|bytes_ok]|vm_compute; congruence|apply Nat.ltb_lt; vm_compute; reflexivity].

Lemma demo_statuses (e : mdv_errno) : doc_fits 1000 (status_doc e []).
Proof. destruct e; fits_doc. Qed.

(** The laws for storages of which only [P] is known. *)
Lemma demo_online (P : Fetcher.storage -> Prop) (HP : forall k, P k -> Fetcher.storage_ok k) : P demo_store ->
  exists R, online (HL := Fetcher.storage_laws P HP) 1000 demo_client R.
Proof.
  intros Hk. pose (L := Fetcher.storage_laws P HP).
  destruct (Fetcher.reached_sinv (H2 := L) 1000 no_empty 1 1 (demo_server (mk_hub demo_store [Fetcher.demo_user] []))) as ((R & Hi) & _).
  { eapply (Fetcher.reached_new (H2 := L) _ _ _ _ true true true true true true true (mk_hub demo_store [Fetcher.demo_user] [])); [|done]. split_and!; [exact Hk|repeat constructor; cbn; lia|constructor]. }
  exists R. split; [|vm_compute; split; congruence|].
  - eexists. split; [done|]. cbn. lia.
  - split; [exact Hi|done|done|apply demo_ready].
Qed.

Lemma demo_serves : let L := Fetcher.storage_laws (fun k => k = demo_store) demo_store_ok in
  serves (HL := L) 1 (fun _ => true) demo_table demo_table Fetcher.all_fields demo_rows (fun v p => Fetcher.tv_id v = tb_id demo_table /\ Fetcher.tv_pos v = p).
Proof.
  intros L. split.
  - by vm_compute.
  - intros k ->. cbn. wp_steps. by exists demo_table.
  - intros k ->. cbn. by wp_steps.
  - intros t p k Ht ->. cbn. wp_steps. by eexists.
  - by intros v p.
  - intros v p m i k r j k' [E1 E2] E. cbn in E. destruct (Fetcher.tv_rc v =? 1)%Z; [done|]. by injection E as <- <- <-.
  - intros v p k -> [E1 E2]. cbn. wp_steps. rewrite E1, E2. cbn -[take drop]. destruct (drop p demo_rows) as [|row l]; [done|]. done.
Qed.


Lemma demo_desc_sent : desc_sent 1000 demo_desc.
Proof. exists demo_fields. split; [done|]. split; [apply demo_fields_fit|]. split; [by vm_compute|fits_doc]. Qed.

Lemma mdv_client_calls_storages_witness :
  wp (fun _ => true) (mdv_create_table demo_desc) demo_client (fun r s => r = Some (mk_table 1 (mk_uuid 2 1) demo_desc) /\ length (core_of s) = 2)
  /\ wp (fun _ => true) (mdv_get_table (tb_id demo_table)) demo_client (fun r s => r = Some demo_table /\ core_of s = demo_store)
  /\ wp (fun _ => true) (mdv_insert (mk_rowset 1 demo_table [demo_row])) demo_client (fun r s => r = code MDV_OK /\ core_of s = [(demo_table, [demo_row; demo_row; demo_row])]).
Proof.
  destruct (demo_online Fetcher.storage_ok (fun k Hk => Hk) (demo_store_ok _ eq_refl)) as [R Ho]. pose (L := Fetcher.storage_laws Fetcher.storage_ok (fun k Hk => Hk)).
  destruct (mdv_client_calls_storages (HL := L) 1000 demo_fresh no_empty 1 7 (fun _ => true) (fun _ => eq_refl) (fun n => length_replicate n 0%Z) demo_statuses demo_client R Ho) as (Hc & Hg & Hi). split; [|split].
  - eapply wp_mono; [apply (Hc demo_desc (fun x k => x = (MDV_OK, Some (mk_uuid 2 1)) /\ k = demo_store ++ [(mk_table 1 (mk_uuid 2 1) demo_desc, [])]) demo_desc_sent)|].
    + cbn. by wp_steps.
    + intros x k [-> ->]. split; [|intros _; exists (mk_uuid 2 1); split; [done|]; split; [vm_compute; repeat split; congruence|fits_doc]].
      apply Forall_app. split; [by apply demo_store_ok|]. constructor; [|done]. by exists demo_fields.
    + cbn beta. intros r s (_ & x & [-> Hk] & ->). split; [done|]. by rewrite Hk.
  - eapply wp_mono; [apply (Hg (tb_id demo_table) (fun x k => x = (MDV_OK, Some demo_table) /\ k = demo_store))|].
    + vm_compute; repeat split; congruence.
    + fits_doc.
    + change (core_of demo_client) with demo_store. cbn. wp_steps. unfold table_read. cbn. exists demo_table. split; [done|]. split; [apply demo_desc_sent|]. by wp_steps.
    + intros x k [_ ->]. by apply demo_store_ok.
    + cbn beta. intros r s (_ & x & [-> Hk] & ->). done.
  - eapply wp_mono; [apply (Hi (mk_rowset 1 demo_table [demo_row]) demo_fields (fun e k => e = MDV_OK /\ k = [(demo_table, [demo_row; demo_row; demo_row])]))|].
    + vm_compute; repeat split; congruence.
    + done.
    + constructor; [apply demo_row_ok|done].
    + fits_doc.
    + assert (E : Fetcher.storage_insert (tb_id demo_table) (B_list (row_doc demo_fields <$> [demo_row])) demo_store = (MDV_OK, [(demo_table, [demo_row; demo_row; demo_row])])) by (vm_compute; reflexivity).
      change (core_of demo_client) with demo_store. cbn [core_rowdata_insert Fetcher.storage_core rs_rows rs_table]. wp_step. wp_step. rewrite E. by wp_steps.
    + intros e k [_ ->]. constructor; [|done]. exists demo_fields. split; [done|]. constructor; [apply demo_row_ok|]. constructor; [apply demo_row_ok|]. constructor; [apply demo_row_ok|done].
    + cbn beta. intros r s (_ & e & [-> Hk] & ->). done.
Defined.

End Demo.
End Client.
