(* ===== verification/P2pmsg.v ===== *)
(** * Messages between the nodes (src/mdv_core/mdv_p2pmsg.c)

    The messages by which the nodes of the network greet each other, exchange
    the topology and the transaction logs, and broadcast.  A failed assertion is
    [OutOfBounds]. *)

From stdpp Require Import strings.
From S2P Require Import Prelude Uuid Hashmap Binn Topology Types Trlog Serialization.
Import Uuid Hashmap Binn Topology Types Trlog Serialization.
#[local] Open Scope nat_scope.
#[local] Open Scope list_scope.
#[local] Open Scope string_scope.

Module P2pmsg.
Section P2pmsg.
Context `{Binn}.

(** [mdv_message_id(name)] *)
Definition mdv_msg_p2p_hello_id : Z := 1000.
Definition mdv_msg_p2p_status_id : Z := 1001.
Definition mdv_msg_p2p_linkstate_id : Z := 1002.
Definition mdv_msg_p2p_toposync_id : Z := 1003.
Definition mdv_msg_p2p_topodiff_id : Z := 1004.
Definition mdv_msg_p2p_trlog_sync_id : Z := 1005.
Definition mdv_msg_p2p_trlog_state_id : Z := 1006.
Definition mdv_msg_p2p_trlog_data_id : Z := 1007.
Definition mdv_msg_p2p_broadcast_id : Z := 1008.

Definition mdv_p2p_msg_name (id : Z) : string :=
  if (id =? mdv_msg_p2p_hello_id)%Z then "P2P HELLO"
  else if (id =? mdv_msg_p2p_status_id)%Z then "P2P STATUS"
  else if (id =? mdv_msg_p2p_linkstate_id)%Z then "P2P LINK STATE"
  else if (id =? mdv_msg_p2p_toposync_id)%Z then "P2P TOPOLOGY SYNC"
  else if (id =? mdv_msg_p2p_topodiff_id)%Z then "P2P TOPOLOGY DIFF"
  else if (id =? mdv_msg_p2p_trlog_sync_id)%Z then "P2P TRLOG SYNC"
  else if (id =? mdv_msg_p2p_trlog_state_id)%Z then "P2P TRLOG STATE"
  else if (id =? mdv_msg_p2p_trlog_data_id)%Z then "P2P TRLOG DATA"
  else if (id =? mdv_msg_p2p_broadcast_id)%Z then "P2P BROADCAST"
  else "P2P UNKOWN".

(** ** Greeting, status and links *)

Definition mdv_binn_p2p_hello (listen : bytes) : writer binn :=
  obj <~ binn_create_object;; binn_object_set obj "L" (B_str listen).

Definition mdv_unbinn_p2p_hello (obj : binn) : option bytes := binn_object_get_str obj "L".

Definition mdv_binn_p2p_status (err : Z) (message : bytes) : writer binn :=
  obj <~ binn_create_object;;
  obj <~ binn_object_set obj "E" (B_int err);;
  binn_object_set obj "M" (B_str message).

Definition mdv_unbinn_p2p_status (obj : binn) : option (Z * bytes) :=
  match binn_object_get_int32 obj "E", binn_object_get_str obj "M" with
  | Some err, Some message => Some (err, message)
  | _, _ => None
  end.

Record mdv_msg_p2p_linkstate := mk_linkstate { ls_src : mdv_uuid; ls_dst : mdv_uuid; ls_connected : bool }.

Definition mdv_binn_p2p_linkstate (msg : mdv_msg_p2p_linkstate) : writer binn :=
  obj <~ binn_create_object;;
  obj <~ binn_object_set obj "U1" (B_int (u64_0 (ls_src msg)));;
  obj <~ binn_object_set obj "U2" (B_int (u64_1 (ls_src msg)));;
  obj <~ binn_object_set obj "U3" (B_int (u64_0 (ls_dst msg)));;
  obj <~ binn_object_set obj "U4" (B_int (u64_1 (ls_dst msg)));;
  binn_object_set obj "F" (B_bool (ls_connected msg)).

Definition mdv_unbinn_p2p_linkstate (obj : binn) : option mdv_msg_p2p_linkstate :=
  match binn_object_get_uint64 obj "U1", binn_object_get_uint64 obj "U2",
        binn_object_get_uint64 obj "U3", binn_object_get_uint64 obj "U4", binn_object_get_bool obj "F" with
  | Some a, Some b, Some c, Some d, Some connected => Some (mk_linkstate (mk_uuid a b) (mk_uuid c d) connected)
  | _, _, _, _, _ => None
  end.

(** ** Topology *)

Definition mdv_binn_p2p_toposync (t : mdv_topology) : writer binn := mdv_topology_serialize t.
Definition mdv_unbinn_p2p_toposync (qsort : list mdv_toponode -> list mdv_toponode) (mem : nat -> bool) (obj : binn) : outcome (option mdv_topology) :=
  mdv_topology_deserialize qsort mem obj.
Definition mdv_p2p_toposync_free (is_empty : bool) (t : option mdv_topology) : option mdv_topology * option mdv_topology :=
  ((mdv_topology_release is_empty t).2, None).

Definition mdv_binn_p2p_topodiff (t : mdv_topology) : writer binn := mdv_topology_serialize t.
Definition mdv_unbinn_p2p_topodiff (qsort : list mdv_toponode -> list mdv_toponode) (mem : nat -> bool) (obj : binn) : outcome (option mdv_topology) :=
  mdv_topology_deserialize qsort mem obj.
Definition mdv_p2p_topodiff_free (is_empty : bool) (t : option mdv_topology) : option mdv_topology * option mdv_topology :=
  ((mdv_topology_release is_empty t).2, None).

(** ** Transaction logs *)

Definition mdv_binn_p2p_trlog_sync (trlog : mdv_uuid) : writer binn :=
  obj <~ binn_create_object;;
  obj <~ binn_object_set obj "U0" (B_int (u64_0 trlog));;
  binn_object_set obj "U1" (B_int (u64_1 trlog)).

Definition mdv_unbinn_p2p_trlog_sync (obj : binn) : option mdv_uuid :=
  match binn_object_get_uint64 obj "U0", binn_object_get_uint64 obj "U1" with
  | Some a, Some b => Some (mk_uuid a b)
  | _, _ => None
  end.

Definition mdv_binn_p2p_trlog_state (trlog : mdv_uuid) (trlog_top : Z) : writer binn :=
  obj <~ binn_create_object;;
  obj <~ binn_object_set obj "U0" (B_int (u64_0 trlog));;
  obj <~ binn_object_set obj "U1" (B_int (u64_1 trlog));;
  binn_object_set obj "T" (B_int trlog_top).

Definition mdv_unbinn_p2p_trlog_state (obj : binn) : option (mdv_uuid * Z) :=
  match binn_object_get_uint64 obj "U0", binn_object_get_uint64 obj "U1", binn_object_get_uint64 obj "T" with
  | Some a, Some b, Some top => Some (mk_uuid a b, top)
  | _, _, _ => None
  end.

(** An operation with its number, as in [Trlog]. *)
Abbreviation mdv_trlog_data := (Z * bytes)%type.

Record mdv_msg_p2p_trlog_data := mk_trlog_msg { td_trlog : mdv_uuid; td_count : Z; td_rows : list mdv_trlog_data }.

(** The parts of the bytes of an operation. *)
Definition op_type (op : bytes) : Z := of_le (take 4 (drop 4 op)).
Definition op_payload (op : bytes) : bytes := drop 8 op.

(** [binn_object_set_blob] reads [size] bytes from the pointer; a negative size
    is refused. *)
Definition binn_object_set_blob (obj : binn) (key : string) (data : bytes) (size : Z) : writer binn :=
  if (size <? 0)%Z then w_fail
  else if (Z.of_nat (length data) <? size)%Z then w_out (OutOfBounds size)
  else binn_object_set obj key (B_blob (take (Z.to_nat size) data)).

Definition binn_trlog_row (entry : mdv_trlog_data) : writer binn :=
  row <~ binn_create_object;;
  let payload_size := u32 (op_size entry.2 - 8) in
  row <~ binn_object_set row "I" (B_int entry.1);;
  row <~ binn_object_set row "S" (B_int (op_size entry.2));;
  row <~ binn_object_set row "T" (B_int (op_type entry.2));;
  binn_object_set_blob row "O" (op_payload entry.2) (i32 payload_size).

Fixpoint binn_trlog_rows (l : list mdv_trlog_data) (rows : binn) : writer binn :=
  match l with
  | [] => w_ret rows
  | entry :: l => row <~ binn_trlog_row entry;; rows <~ binn_list_add rows row;; binn_trlog_rows l rows
  end.

Definition mdv_binn_p2p_trlog_data (msg : mdv_msg_p2p_trlog_data) : writer binn :=
  rows <~ binn_create_list;;
  rows <~ binn_trlog_rows (td_rows msg) rows;;
  obj <~ binn_create_object;;
  obj <~ binn_object_set obj "U0" (B_int (u64_0 (td_trlog msg)));;
  obj <~ binn_object_set obj "U1" (B_int (u64_1 (td_trlog msg)));;
  obj <~ binn_object_set obj "C" (B_int (td_count msg));;
  binn_object_set obj "R" rows.

(** One row: the sizes must agree, which is asserted before it is tested; then
    memory for the entry is needed.  [None]: failure. *)
Definition unbinn_trlog_row (mem : bool) (row : binn) : outcome (option mdv_trlog_data) :=
  match binn_object_get_uint64 row "I", binn_object_get_uint32 row "S", binn_object_get_uint32 row "T", binn_object_get_blob row "O" with
  | Some id, Some size, Some type, Some payload =>
      if negb (8 + Z.of_nat (length payload) =? size)%Z then OutOfBounds size
      else if mem then Done (Some (id, to_le 4 size ++ to_le 4 type ++ payload)%list)
      else Done None
  | _, _, _, _ => Done None
  end.

(** The rows are added to the list of the message, which is emptied after a
    failure. *)
Fixpoint unbinn_trlog_rows (mem : nat -> bool) (items : list binn) (rows : list mdv_trlog_data) : outcome (bool * list mdv_trlog_data) :=
  match items with
  | [] => Done (true, rows)
  | row :: items =>
      r ← unbinn_trlog_row (mem (length items)) row;
      match r with
      | Some op => unbinn_trlog_rows mem items (rows ++ [op])
      | None => Done (false, [])
      end
  end.

Definition mdv_unbinn_p2p_trlog_data (mem : nat -> bool) (obj : binn) (rows : list mdv_trlog_data)
  : outcome (option mdv_msg_p2p_trlog_data) :=
  match binn_object_get_uint64 obj "U0", binn_object_get_uint64 obj "U1", binn_object_get_uint32 obj "C", binn_object_get_list obj "R" with
  | Some a, Some b, Some count, Some list =>
      r ← unbinn_trlog_rows mem (binn_items list) rows;
      Done (if (r.1 : bool) then Some (mk_trlog_msg (mk_uuid a b) count r.2) else None)
  | _, _, _, _ => Done None
  end.

Definition mdv_p2p_trlog_data_free (msg : mdv_msg_p2p_trlog_data) : mdv_msg_p2p_trlog_data :=
  mk_trlog_msg (td_trlog msg) (td_count msg) [].

(** ** Broadcast *)

Abbreviation hashset := (mdv_hashmap mdv_uuid).

(** [bc_data]: the data with its size. *)
Record mdv_msg_p2p_broadcast := mk_broadcast { bc_msg_id : Z; bc_data : bytes; bc_notified : hashset }.

(** The object lies in a buffer on the stack, which has room for its two numbers. *)
Definition binn_notified (u : mdv_uuid) : binn := B_object [("U1", B_int (u64_0 u)); ("U2", B_int (u64_1 u))].

Fixpoint binn_notified_loop (l : list mdv_uuid) (notified : binn) : writer binn :=
  match l with
  | [] => w_ret notified
  | u :: l => notified <~ binn_list_add notified (binn_notified u);; binn_notified_loop l notified
  end.

Definition mdv_binn_p2p_broadcast (msg : mdv_msg_p2p_broadcast) : writer binn :=
  notified <~ binn_create_list;;
  notified <~ binn_notified_loop (mdv_hashmap_foreach (bc_notified msg)) notified;;
  obj <~ binn_create_object;;
  obj <~ binn_object_set obj "M" (B_int (bc_msg_id msg));;
  obj <~ binn_object_set_blob obj "D" (bc_data msg) (i32 (Z.of_nat (length (bc_data msg))));;
  binn_object_set obj "N" notified.

(** [mem]: the answers of the allocator for each insertion.  After a failure the
    set is left in the message. *)
Fixpoint unbinn_notified_loop (mem : nat -> bool * bool) (items : list binn) (notified : hashset) : outcome (bool * hashset) :=
  match items with
  | [] => Done (true, notified)
  | value :: items =>
      match binn_object_get_uint64 value "U1", binn_object_get_uint64 value "U2" with
      | Some a, Some b =>
          match mdv_hashmap_insert id (mem (length items)).1 (mem (length items)).2 notified (mk_uuid a b) 16 with
          | None => OutOfBounds 0
          | Some (None, notified) => Done (false, notified)
          | Some (Some _, notified) => unbinn_notified_loop mem items notified
          end
      | _, _ => Done (false, notified)
      end
  end.

(** The first part: whether the message was read; the second: the set that the
    message holds afterwards. *)
Definition mdv_unbinn_p2p_broadcast (mem_set mem_buckets : bool) (mem : nat -> bool * bool) (obj : binn)
  : outcome (option mdv_msg_p2p_broadcast * option hashset) :=
  match binn_object_get_uint16 obj "M", binn_object_get_blob obj "D", binn_object_get_list obj "N" with
  | Some msg_id, Some data, Some list =>
      match mdv_hashmap_create mem_set mem_buckets 1 0 16 with
      | None => Done (None, None)
      | Some notified =>
          r ← unbinn_notified_loop mem (binn_items list) notified;
          Done (if (r.1 : bool) then Some (mk_broadcast msg_id data r.2) else None, Some r.2)
      end
  | _, _, _ => Done (None, None)
  end.

(** ** All messages *)

Inductive p2p_message :=
| P2p_hello (listen : bytes)
| P2p_status (err : Z) (message : bytes)
| P2p_linkstate (msg : mdv_msg_p2p_linkstate)
| P2p_toposync (t : mdv_topology)
| P2p_topodiff (t : mdv_topology)
| P2p_trlog_sync (trlog : mdv_uuid)
| P2p_trlog_state (trlog : mdv_uuid) (trlog_top : Z)
| P2p_trlog_data (msg : mdv_msg_p2p_trlog_data)
| P2p_broadcast (msg : mdv_msg_p2p_broadcast).

Definition p2p_id (m : p2p_message) : Z :=
  match m with
  | P2p_hello _ => mdv_msg_p2p_hello_id
  | P2p_status _ _ => mdv_msg_p2p_status_id
  | P2p_linkstate _ => mdv_msg_p2p_linkstate_id
  | P2p_toposync _ => mdv_msg_p2p_toposync_id
  | P2p_topodiff _ => mdv_msg_p2p_topodiff_id
  | P2p_trlog_sync _ => mdv_msg_p2p_trlog_sync_id
  | P2p_trlog_state _ _ => mdv_msg_p2p_trlog_state_id
  | P2p_trlog_data _ => mdv_msg_p2p_trlog_data_id
  | P2p_broadcast _ => mdv_msg_p2p_broadcast_id
  end.

Definition p2p_binn (m : p2p_message) : writer binn :=
  match m with
  | P2p_hello listen => mdv_binn_p2p_hello listen
  | P2p_status err message => mdv_binn_p2p_status err message
  | P2p_linkstate msg => mdv_binn_p2p_linkstate msg
  | P2p_toposync t => mdv_binn_p2p_toposync t
  | P2p_topodiff t => mdv_binn_p2p_topodiff t
  | P2p_trlog_sync trlog => mdv_binn_p2p_trlog_sync trlog
  | P2p_trlog_state trlog top => mdv_binn_p2p_trlog_state trlog top
  | P2p_trlog_data msg => mdv_binn_p2p_trlog_data msg
  | P2p_broadcast msg => mdv_binn_p2p_broadcast msg
  end.

(** What the handler of a kind of messages reads, with memory.  The list of
    operations of a new message is empty. *)
Definition p2p_unbinn (qsort : list mdv_toponode -> list mdv_toponode) (id : Z) (obj : binn) : outcome (option p2p_message) :=
  if (id =? mdv_msg_p2p_hello_id)%Z then Done (option_map P2p_hello (mdv_unbinn_p2p_hello obj))
  else if (id =? mdv_msg_p2p_status_id)%Z then Done (option_map (fun x => P2p_status x.1 x.2) (mdv_unbinn_p2p_status obj))
  else if (id =? mdv_msg_p2p_linkstate_id)%Z then Done (option_map P2p_linkstate (mdv_unbinn_p2p_linkstate obj))
  else if (id =? mdv_msg_p2p_toposync_id)%Z then
    mbind (fun t => Done (option_map P2p_toposync t)) (mdv_unbinn_p2p_toposync qsort (fun _ => true) obj)
  else if (id =? mdv_msg_p2p_topodiff_id)%Z then
    mbind (fun t => Done (option_map P2p_topodiff t)) (mdv_unbinn_p2p_topodiff qsort (fun _ => true) obj)
  else if (id =? mdv_msg_p2p_trlog_sync_id)%Z then Done (option_map P2p_trlog_sync (mdv_unbinn_p2p_trlog_sync obj))
  else if (id =? mdv_msg_p2p_trlog_state_id)%Z then Done (option_map (fun x => P2p_trlog_state x.1 x.2) (mdv_unbinn_p2p_trlog_state obj))
  else if (id =? mdv_msg_p2p_trlog_data_id)%Z then
    mbind (fun m => Done (option_map P2p_trlog_data m)) (mdv_unbinn_p2p_trlog_data (fun _ => true) obj [])
  else if (id =? mdv_msg_p2p_broadcast_id)%Z then
    mbind (fun r : option mdv_msg_p2p_broadcast * option hashset => Done (option_map P2p_broadcast r.1))
      (mdv_unbinn_p2p_broadcast true true (fun _ => (true, true)) obj)
  else Done None.

End P2pmsg.

(** ** Round trips *)

#[local] Open Scope list_scope.

(** An operation that a log holds, of less than 2^31 bytes of payload. *)
Definition row_fits (e : Z * bytes) : Prop :=
  fits 64 e.1 /\ op_ok e.2 /\ Forall is_byte e.2 /\ (8 <= Z.of_nat (length e.2) < 2 ^ 31 + 8)%Z.

(** The fields are in the range of their types. *)
Definition p2p_ok (m : p2p_message) : Prop :=
  match m with
  | P2p_hello _ => True
  | P2p_status err _ => (- 2 ^ 31 <= err < 2 ^ 31)%Z
  | P2p_linkstate msg => Uuid.wf (ls_src msg) /\ Uuid.wf (ls_dst msg)
  | P2p_toposync t | P2p_topodiff t => topology_ok t
  | P2p_trlog_sync trlog => Uuid.wf trlog
  | P2p_trlog_state trlog top => Uuid.wf trlog /\ fits 64 top
  | P2p_trlog_data msg => Uuid.wf (td_trlog msg) /\ fits 32 (td_count msg) /\ Forall row_fits (td_rows msg)
  | P2p_broadcast msg =>
      fits 16 (bc_msg_id msg) /\ (Z.of_nat (length (bc_data msg)) < 2 ^ 31)%Z /\
      Hashmap.wf id (bc_notified msg) /\ Forall Uuid.wf (mdv_hashmap_foreach (bc_notified msg))
  end.

(** Equal, but that topologies have their nodes sorted and links between the same
    nodes, and the sets of notified nodes have the same members. *)
Definition same_p2p (qsort : list mdv_toponode -> list mdv_toponode) (m m' : p2p_message) : Prop :=
  let sorted (t t' : mdv_topology) := exists links, t' = mk_topology 1 (qsort (t_nodes t)) links (addrs (t_nodes t))
        /\ resolve (qsort (t_nodes t)) <$> links = resolve (t_nodes t) <$> t_links t in
  match m with
  | P2p_toposync t => exists t', m' = P2p_toposync t' /\ sorted t t'
  | P2p_topodiff t => exists t', m' = P2p_topodiff t' /\ sorted t t'
  | P2p_broadcast msg =>
      exists set', m' = P2p_broadcast (mk_broadcast (bc_msg_id msg) (bc_data msg) set')
        /\ Hashmap.wf id set' /\ forall u, Hashmap.lookup id set' u = Hashmap.lookup id (bc_notified msg) u
  | _ => m' = m
  end.

Section RoundTrip.
Context `{BinnLaws} (qsort : list mdv_toponode -> list mdv_toponode) (Hsort : forall l, qsort l ≡ₚ l).

Definition row_object (e : Z * bytes) : binn :=
  B_object [("I", B_int e.1); ("S", B_int (op_size e.2)); ("T", B_int (op_type e.2)); ("O", B_blob (op_payload e.2))].

Lemma makes_set_blob l k data size : size = Z.of_nat (length data) -> String.length k <= 255 -> find_key k l = None ->
  makes (binn_object_set_blob (B_object l) k data size) (B_object (l ++ [(k, B_blob data)])).
Proof.
  intros -> Hk Hf. unfold binn_object_set_blob. rewrite (proj2 (Z.ltb_ge _ 0)), Z.ltb_irrefl by lia.
  rewrite take_ge by lia. by apply makes_object_set.
Qed.

Lemma makes_trlog_row e : row_fits e -> makes (binn_trlog_row e) (row_object e).
Proof.
  intros (Hi & Ho & Hb & Hl). unfold binn_trlog_row. do 4 step_writer.
  apply makes_set_blob; [|cbn; lia|reflexivity]. rewrite Ho. unfold op_payload. rewrite length_drop.
  rewrite (wrap_id 32) by (unfold fits; lia). rewrite swrap_id by lia. lia.
Qed.

Lemma makes_trlog_rows l docs : Forall row_fits l -> makes (binn_trlog_rows l (B_list docs)) (B_list (docs ++ (row_object <$> l))).
Proof.
  intros Hl. revert docs. induction Hl as [|e l He _ IH]; intros docs; cbn [binn_trlog_rows fmap list_fmap]; [rewrite app_nil_r; apply makes_ret|].
  eapply makes_bind; [by apply makes_trlog_row|]. step_writer. specialize (IH (docs ++ [row_object e])). by rewrite <- app_assoc in IH.
Qed.

Lemma op_parts op : Forall is_byte op -> 8 <= length op -> to_le 4 (op_size op) ++ to_le 4 (op_type op) ++ op_payload op = op.
Proof.
  intros Hb Hl. unfold op_size, op_type, op_payload.
  rewrite <- (take_drop 4 op) at 4. f_equal.
  - rewrite <- (to_of_le (take 4 op)) at 2 by by apply Forall_take. by rewrite length_take_le by lia.
  - rewrite <- (take_drop 4 (drop 4 op)) at 2. rewrite drop_drop. f_equal.
    rewrite <- (to_of_le (take 4 (drop 4 op))) at 2 by by apply Forall_take, Forall_drop. rewrite length_take_le; [done|]. rewrite length_drop. lia.
Qed.

Lemma unbinn_trlog_row_spec e : row_fits e -> unbinn_trlog_row true (row_object e) = Done (Some e).
Proof.
  intros (Hi & Ho & Hb & Hl). unfold unbinn_trlog_row, row_object.
  assert (Hs : fits 32 (op_size e.2)) by (rewrite Ho; unfold fits; lia).
  assert (Ht : fits 32 (op_type e.2)).
  { unfold op_type, fits. pose proof (of_le_bound (take 4 (drop 4 e.2)) ltac:(by apply Forall_take, Forall_drop)) as Hx.
    rewrite length_take_le in Hx by (rewrite length_drop; lia). exact Hx. }
  do 4 step_reader. rewrite Ho at 1. unfold op_payload at 1. rewrite length_drop.
  rewrite (proj2 (Z.eqb_eq _ _)) by lia. cbn [negb]. rewrite op_parts by (done || lia). by destruct e.
Qed.

Lemma unbinn_trlog_rows_spec l rows : Forall row_fits l -> unbinn_trlog_rows (fun _ => true) (row_object <$> l) rows = Done (true, rows ++ l).
Proof.
  intros Hl. revert rows. induction Hl as [|e l He _ IH]; intros rows; cbn [unbinn_trlog_rows fmap list_fmap]; [by rewrite app_nil_r|].
  rewrite (unbinn_trlog_row_spec e He). cbn [mbind outcome_bind]. by rewrite IH, <- app_assoc.
Qed.

Lemma makes_notified_loop l docs : makes (binn_notified_loop l (B_list docs)) (B_list (docs ++ (binn_notified <$> l))).
Proof.
  revert docs. induction l as [|u l IH]; intros docs; cbn [binn_notified_loop fmap list_fmap]; [rewrite app_nil_r; apply makes_ret|].
  step_writer. specialize (IH (docs ++ [binn_notified u])). by rewrite <- app_assoc in IH.
Qed.

Lemma unbinn_notified_loop_spec l hm : Forall Uuid.wf l -> ready id hm 16 ->
  exists hm', unbinn_notified_loop (fun _ => (true, true)) (binn_notified <$> l) hm = Done (true, hm') /\ ready id hm' 16
    /\ forall u, Hashmap.lookup id hm' u = if decide (u ∈ l) then Some u else Hashmap.lookup id hm u.
Proof.
  intros Hl. revert hm. induction Hl as [|u l [Ha Hb] _ IH]; intros hm Hr; cbn [unbinn_notified_loop fmap list_fmap].
  { by exists hm. }
  unfold binn_notified at 1 2. do 2 step_reader. cbn [fst snd]. destruct (insert_ready id hm (mk_uuid (u64_0 u) (u64_1 u)) 16 Hr) as (hm1 & -> & Hr1 & Hl1 & _).
  destruct (IH hm1 Hr1) as (hm' & -> & Hr' & Hl'). exists hm'. split_and!; try done. intros v. rewrite Hl', Hl1.
  replace (mk_uuid (u64_0 u) (u64_1 u)) with u by by destruct u. cbn [id].
  destruct (Z.eqb_spec (key_cmp_fn u v) 0) as [->%uuid_keq|Hne].
  - rewrite (decide_True _ _ (list_elem_of_here v l)). by destruct (decide (v ∈ l)).
  - destruct (decide (v ∈ l)), (decide (v ∈ u :: l)) as [Hv|Hv]; try done; [by destruct Hv; right|].
    apply elem_of_cons in Hv as [-> | ?]; [|done]. destruct Hne. by apply uuid_keq.
Qed.

(** The set that is read has the members of the one that was written. *)
Lemma notified_roundtrip hm : Hashmap.wf id hm -> Forall Uuid.wf (mdv_hashmap_foreach hm) ->
  exists empty hm', mdv_hashmap_create true true 1 0 16 = Some empty
    /\ unbinn_notified_loop (fun _ => (true, true)) (binn_notified <$> mdv_hashmap_foreach hm) empty = Done (true, hm')
    /\ Hashmap.wf id hm' /\ forall u, Hashmap.lookup id hm' u = Hashmap.lookup id hm u.
Proof.
  intros Hw Hu. destruct (ready_create (I := mdv_uuid) id 1 0 16 16 ltac:(lia) ltac:(lia)) as (empty & Ec & Hr & Hempty & _).
  destruct (unbinn_notified_loop_spec _ empty Hu Hr) as (hm' & El & Hr' & Hl'). exists empty, hm'. split_and!; [done|done|apply Hr'|].
  intros u. rewrite Hl', Hempty, (lookup_foreach id hm u Hw). destruct (decide (u ∈ mdv_hashmap_foreach hm)) as [Hin|Hin].
  - symmetry. apply (bucket_find_in id u); [exact (foreach_nodup id hm Hw)|done].
  - symmetry. apply bucket_find_None. intros v Hv ->%uuid_keq. done.
Qed.

Lemma p2p_roundtrip m : p2p_ok m ->
  exists doc m', makes (p2p_binn m) doc /\ p2p_unbinn qsort (p2p_id m) doc = Done (Some m') /\ same_p2p qsort m m' /\ is_container doc = true.
Proof.
  destruct m as [listen|err message|[src dst connected]|t|t|trlog|trlog top|[trlog count rows]|[msg_id data notified]];
    cbn [p2p_ok p2p_binn p2p_id same_p2p ls_src ls_dst td_trlog td_count td_rows bc_msg_id bc_data bc_notified]; intros Hok; unfold p2p_unbinn.
  - eexists _, _. split; [unfold mdv_binn_p2p_hello; step_writer; last_writer|]. split; [|by split].
    cbn -[mdv_unbinn_p2p_hello]. unfold mdv_unbinn_p2p_hello. by step_reader.
  - eexists _, _. split; [unfold mdv_binn_p2p_status; do 2 step_writer; last_writer|]. split; [|by split].
    cbn -[mdv_unbinn_p2p_status]. unfold mdv_unbinn_p2p_status. by do 2 step_reader.
  - destruct Hok as [[Ha Hb] [Hc Hd]]. eexists _, _. split; [unfold mdv_binn_p2p_linkstate; do 5 step_writer; last_writer|]. split; [|by split].
    cbn -[mdv_unbinn_p2p_linkstate]. unfold mdv_unbinn_p2p_linkstate. do 5 step_reader. by destruct src, dst.
  - destruct (deserialize_spec qsort t Hsort Hok) as (links & E & Hr). eexists _, _. split; [apply makes_topology, Hok|].
    cbn -[mdv_unbinn_p2p_toposync topology_object]. unfold mdv_unbinn_p2p_toposync. rewrite E. split; [done|]. split; [|done]. eexists; split; [done|by exists links].
  - destruct (deserialize_spec qsort t Hsort Hok) as (links & E & Hr). eexists _, _. split; [apply makes_topology, Hok|].
    cbn -[mdv_unbinn_p2p_topodiff topology_object]. unfold mdv_unbinn_p2p_topodiff. rewrite E. split; [done|]. split; [|done]. eexists; split; [done|by exists links].
  - destruct Hok as [Ha Hb]. eexists _, _. split; [unfold mdv_binn_p2p_trlog_sync; do 2 step_writer; last_writer|]. split; [|by split].
    cbn -[mdv_unbinn_p2p_trlog_sync]. unfold mdv_unbinn_p2p_trlog_sync. do 2 step_reader. by destruct trlog.
  - destruct Hok as [[Ha Hb] Ht]. eexists _, _. split; [unfold mdv_binn_p2p_trlog_state; do 3 step_writer; last_writer|]. split; [|by split].
    cbn -[mdv_unbinn_p2p_trlog_state]. unfold mdv_unbinn_p2p_trlog_state. do 3 step_reader. by destruct trlog.
  - destruct Hok as ([Ha Hb] & Hc & Hr). eexists _, _. split.
    { unfold mdv_binn_p2p_trlog_data. step_writer. eapply makes_bind; [by apply makes_trlog_rows|]. do 4 step_writer. last_writer. }
    split; [|by split]. cbn -[mdv_unbinn_p2p_trlog_data]. unfold mdv_unbinn_p2p_trlog_data. do 4 step_reader.
    rewrite items_list, unbinn_trlog_rows_spec by done. by destruct trlog.
  - destruct Hok as (Hm & Hd & Hw & Hu). destruct (notified_roundtrip notified Hw Hu) as (empty & set' & Ec & El & Hw' & Hl'). eexists _, _. split.
    { unfold mdv_binn_p2p_broadcast. step_writer. eapply makes_bind; [apply makes_notified_loop|]. do 2 step_writer.
      eapply makes_bind; [apply makes_set_blob; [rewrite swrap_id; cbn; lia|cbn; lia|reflexivity]|]. last_writer. }
    cbn -[mdv_unbinn_p2p_broadcast]. unfold mdv_unbinn_p2p_broadcast. do 3 step_reader. rewrite items_list. cbn [app bc_notified]. rewrite Ec, El. split; [done|]. split; [|done].
    by exists set'.
Qed.

End RoundTrip.
End P2pmsg.
