(* ===== verification/Exchange.v ===== *)
(** * Exchange of messages over a connection

    The handlers of clients (src/mdv_api/mdv_client.c, src/mdv_core/mdv_user.c)
    and of peers (src/mdv_core/mdv_peer.c) put the bytes of a document into the
    payload of a frame and read the document from the payload of the frame that
    they got.  [Protocol] is what they need of the messages; [Messages] and
    [P2pmsg] provide it. *)

From stdpp Require Import strings.
From S2P Require Import Prelude Bitset Uuid Hashmap Binn Topology Types Serialization Msg Messages P2pmsg.
Import Bitset Uuid Binn Topology Types Serialization Msg.
#[local] Open Scope nat_scope.
#[local] Open Scope list_scope.

Module Exchange.

(** The messages of a protocol: their identifiers, how they are written to
    documents and how a document is read. *)
Class Protocol `{Binn} (M : Type) := {
  proto_id : M -> Z;
  proto_write : M -> writer binn;
  proto_read : Z -> binn -> outcome (option M)
}.

(** The messages of [ok] are written and read back as messages that mean the same. *)
Class ProtocolOk `{P : Protocol M} (ok : M -> Prop) (same : M -> M -> Prop) : Prop := {
  proto_id_fits m : ok m -> fits 16 (proto_id m);
  proto_roundtrip m : ok m ->
    exists doc m', makes (proto_write m) doc /\ proto_read (proto_id m) doc = Done (Some m') /\ same m m' /\ is_container doc = true
}.

(** The document that is made, computed. *)
Definition made {A} (m : writer A) : option A := match m (fun _ => true) 0 with Done (r, _) => r | _ => None end.

Lemma makes_made {A} (m : writer A) a : makes m a -> made m = Some a.
Proof. intros [_ Hm]. unfold made. by destruct (Hm (fun _ => true) (fun _ => eq_refl) 0) as [n ->]. Qed.

Lemma makes_all {A B} (f : A -> writer B) xs docs : Forall2 (fun x doc => makes (f x) doc) xs docs -> docs = omap (fun x => made (f x)) xs.
Proof. induction 1 as [|x doc xs docs Hx _ IH]; [done|]. cbn. by rewrite (makes_made _ _ Hx), <- IH. Qed.

Section Exchange.
Context `{BL : BinnLaws} {M : Type} {P : Protocol M}.

(** A message with its number, as it is handed to the connection. *)
Definition frame_msg (m : M) (number : Z) (doc : binn) : message := mk_message (proto_id m) number (binn_bytes doc).

(** What a handler makes of a frame. *)
Definition unframe_msg (msg : mdv_msg) : outcome (option M) :=
  match m_payload msg with
  | None => Done None
  | Some payload =>
      match binn_load payload with
      | None => Done None
      | Some doc => proto_read (hdr_id (m_hdr msg)) doc
      end
  end.

(** A document that the library can write and that fits into a frame. *)
Definition doc_fits (doc : binn) : Prop := doc_ok doc /\ (Z.of_nat (length (binn_bytes doc)) <= MDV_MSG_SIZE_MAX)%Z.

Context (ok : M -> Prop) (same : M -> M -> Prop) {PO : ProtocolOk ok same}.

Lemma unframe_frame m number doc m' :
  ok m -> fits 16 number -> is_container doc = true -> doc_fits doc -> proto_read (proto_id m) doc = Done (Some m') ->
  message_ok (frame_msg m number doc) /\ unframe_msg (full_msg (frame_msg m number doc)) = Done (Some m').
Proof.
  intros Hm Hn Hc [Hd Hs] Hr. assert (Hok : message_ok (frame_msg m number doc)) by (split_and!; [by apply proto_id_fits|done|done]).
  split; [done|]. destruct (host_fields _ Hok) as (Hid & _). unfold unframe_msg, full_msg, msg_of. cbn [m_payload m_hdr]. rewrite Hid.
  unfold frame_msg. cbn [ms_payload ms_id]. pose proof (bytes_container doc Hc) as Hne.
  assert (load : binn_load (binn_bytes doc) = Some doc) by (apply load_bytes; [done|done|unfold MDV_MSG_SIZE_MAX in Hs; lia]).
  destruct (binn_bytes doc) as [|b l]; [done|]. by rewrite load.
Qed.

(** All the messages of a conversation. *)
Lemma exchange_ok (xs : list (M * Z)) : Forall (fun x => ok x.1 /\ fits 16 x.2) xs ->
  exists docs, Forall2 (fun x doc => makes (proto_write x.1) doc) xs docs /\
    (Forall doc_fits docs ->
     exists ms', Forall2 (fun x m' => same x.1 m') xs ms' /\
       Forall message_ok (zip_with (fun x doc => frame_msg x.1 x.2 doc) xs docs) /\
       unframe_msg <$> (full_msg <$> zip_with (fun x doc => frame_msg x.1 x.2 doc) xs docs) = (fun m' => Done (Some m')) <$> ms').
Proof.
  induction 1 as [|[m number] xs [Hm Hn] _ IH]; [exists []; split; [constructor|]; intros _; by exists []|]. cbn [fst snd] in *.
  destruct IH as (docs & Hmk & IH). destruct (proto_roundtrip m Hm) as (doc & m' & Hw & Hr & Hs & Hc).
  exists (doc :: docs). split; [by constructor|]. intros [Hd Hds]%Forall_cons. destruct (IH Hds) as (ms' & Hsame & Hok & Hun).
  destruct (unframe_frame m number doc m' Hm Hn Hc Hd Hr) as [Hok1 Hun1]. exists (m' :: ms'). split; [by constructor|]. split; [by constructor|].
  cbn [zip_with fmap list_fmap]. cbn [fst snd]. rewrite Hun1. by f_equal.
Qed.

(** Over a connection. *)
Lemma exchange_connected (xs : list (M * Z)) answers i fresh fuel :
  Forall (fun x => ok x.1 /\ fits 16 x.2) xs -> willing answers -> calm i -> (forall n, length (fresh n) = n) ->
  length answers + 1 < fuel -> cost i + length xs < fuel ->
  exists docs, Forall2 (fun x doc => makes (proto_write x.1) doc) xs docs /\
    (Forall doc_fits docs ->
     exists o, send_all fuel (mk_sink answers []) ((fun m => msg_of m 0) <$> zip_with (fun x doc => frame_msg x.1 x.2 doc) xs docs) = Done (o, code MDV_OK) /\
       (arriving i = sk_sent o ->
        exists got ms', receive fuel fresh i no_msg [] = Done (got, no_msg, code MDV_EAGAIN) /\
          unframe_msg <$> got = (fun m' => Done (Some m')) <$> ms' /\ Forall2 (fun x m' => same x.1 m') xs ms')).
Proof.
  intros Hxs Hw Hc Hfr Hf1 Hf2. destruct (exchange_ok xs Hxs) as (docs & Hmk & Hdocs). exists docs. split; [done|]. intros Hfit.
  destruct (Hdocs Hfit) as (ms' & Hsame & Hok & Hun). destruct (send_all_ok fuel _ (mk_sink answers []) Hok Hw Hf1) as (a & ->).
  eexists. split; [done|]. cbn [sk_sent app]. intros Ha. exists (full_msg <$> zip_with (fun x doc => frame_msg x.1 x.2 doc) xs docs), ms'.
  split; [|by split]. rewrite (receive_ok fresh fuel Hfr _ i no_msg [] Hok Hc); [done|by apply reading_start|].
  rewrite length_zip_with_l_eq; [done|]. by apply Forall2_length in Hmk.
Qed.

End Exchange.

(** ** The two protocols *)

Section Protocols.
Context `{Binn} (qsort : list mdv_toponode -> list mdv_toponode) (words : nat -> list Z).

Definition client_protocol : Protocol Messages.mdv_message := {|
  proto_id := Messages.message_id;
  proto_write := Messages.message_binn;
  proto_read := Messages.message_unbinn qsort words
|}.

Definition peer_protocol : Protocol P2pmsg.p2p_message := {|
  proto_id := P2pmsg.p2p_id;
  proto_write := P2pmsg.p2p_binn;
  proto_read := P2pmsg.p2p_unbinn qsort
|}.
End Protocols.

Section ProtocolsOk.
Context `{BinnLaws} (qsort : list mdv_toponode -> list mdv_toponode) (Hsort : forall l, qsort l ≡ₚ l) (words : nat -> list Z) (Hwords : forall n, length (words n) = n).

#[export] Instance client_protocol_ok :
  ProtocolOk (P := client_protocol qsort words) Messages.message_ok (Messages.same_message qsort).
Proof. split; [intros m _; by destruct m|]. intros m Hm. by apply Messages.message_roundtrip. Qed.

#[export] Instance peer_protocol_ok : ProtocolOk (P := peer_protocol qsort) P2pmsg.p2p_ok (P2pmsg.same_p2p qsort).
Proof. split; [intros m _; by destruct m|]. intros m Hm. by apply P2pmsg.p2p_roundtrip. Qed.

End ProtocolsOk.

(** ** Theorems *)

(** C18: the messages that a client and a server write, each with its fields in the
    range of their types and a document that fits a message, are the ones the other side reads,
    in the same order, up to the order of the nodes of a topology and the size of a bit
    set in whole words: the messages are written to documents, the documents to
    frames, the frames to the connection in pieces, which are read in pieces and taken
    apart again.  The connection takes and gives bytes without an error, and memory is
    granted. *)
Theorem mdv_client_exchange `{BinnLaws} (qsort : list mdv_toponode -> list mdv_toponode) (words : nat -> list Z)
    (xs : list (Messages.mdv_message * Z)) answers i fresh fuel :
  (forall l, qsort l ≡ₚ l) -> (forall n, length (words n) = n) ->
  Forall (fun x => Messages.message_ok x.1 /\ fits 16 x.2) xs -> willing answers -> calm i -> (forall n, length (fresh n) = n) ->
  length answers + 1 < fuel -> cost i + length xs < fuel ->
  exists docs, Forall2 (fun x doc => makes (Messages.message_binn x.1) doc) xs docs /\
    (Forall doc_fits docs ->
     exists o, send_all fuel (mk_sink answers [])
         ((fun m => msg_of m 0) <$> zip_with (fun x doc => frame_msg (P := client_protocol qsort words) x.1 x.2 doc) xs docs) = Done (o, code MDV_OK) /\
       (arriving i = sk_sent o ->
        exists got ms', receive fuel fresh i no_msg [] = Done (got, no_msg, code MDV_EAGAIN) /\
          unframe_msg (P := client_protocol qsort words) <$> got = (fun m' => Done (Some m')) <$> ms' /\
          Forall2 (fun x m' => Messages.same_message qsort x.1 m') xs ms')).
Proof. intros Hsort Hwords. apply (exchange_connected (P := client_protocol qsort words)), client_protocol_ok; done. Qed.

(** the same for the nodes of the network: greetings, states of links,
    topologies, operations of the transaction logs and broadcasts arrive as they
    were sent, broadcasts with the same set of notified nodes. *)
Theorem mdv_peer_exchange `{BinnLaws} (qsort : list mdv_toponode -> list mdv_toponode)
    (xs : list (P2pmsg.p2p_message * Z)) answers i fresh fuel :
  (forall l, qsort l ≡ₚ l) ->
  Forall (fun x => P2pmsg.p2p_ok x.1 /\ fits 16 x.2) xs -> willing answers -> calm i -> (forall n, length (fresh n) = n) ->
  length answers + 1 < fuel -> cost i + length xs < fuel ->
  exists docs, Forall2 (fun x doc => makes (P2pmsg.p2p_binn x.1) doc) xs docs /\
    (Forall doc_fits docs ->
     exists o, send_all fuel (mk_sink answers [])
         ((fun m => msg_of m 0) <$> zip_with (fun x doc => frame_msg (P := peer_protocol qsort) x.1 x.2 doc) xs docs) = Done (o, code MDV_OK) /\
       (arriving i = sk_sent o ->
        exists got ms', receive fuel fresh i no_msg [] = Done (got, no_msg, code MDV_EAGAIN) /\
          unframe_msg (P := peer_protocol qsort) <$> got = (fun m' => Done (Some m')) <$> ms' /\
          Forall2 (fun x m' => P2pmsg.same_p2p qsort x.1 m') xs ms')).
Proof. intros Hsort. apply (exchange_connected (P := peer_protocol qsort)), peer_protocol_ok, Hsort. Qed.

Definition zeros (n : nat) : list Z := replicate n 0%Z.

(** Two selects with different numbers of words and a status, in one piece. *)
Lemma mdv_client_exchange_witness :
  let fields := Bitset.mk_bitset 1 32 [5%Z] in
  let more := Bitset.mk_bitset 1 40 [5%Z; 1%Z] in
  let xs := [(Messages.Msg_select (mk_uuid 1 2) fields [97%Z], 7%Z); (Messages.Msg_select (mk_uuid 1 2) more [97%Z], 9%Z); (Messages.Msg_status (-3) [98%Z], 8%Z)] in
  exists bytes got ms', receive 2000 (fun n => replicate n 0%Z) [Rd_data bytes] no_msg [] = Done (got, no_msg, code MDV_EAGAIN) /\
    unframe_msg (P := client_protocol (fun l => l) zeros) <$> got = (fun m' => Done (Some m')) <$> ms' /\
    Forall2 (fun x m' => Messages.same_message (fun l => l) x.1 m') xs ms'.
Proof.
  intros fields more xs. set (docs := omap (fun x => made (Messages.message_binn x.1)) xs).
  set (sent := concat (wire <$> zip_with (fun x doc => frame_msg (P := client_protocol (fun l => l) zeros) x.1 x.2 doc) xs docs)).
  destruct (mdv_client_exchange (fun l => l) zeros xs [] [Rd_data sent] (fun n => replicate n 0%Z) 2000) as (docs' & Hmk & Hex).
  - done.
  - intros n. apply length_replicate.
  - repeat constructor; vm_compute; (done || lia || congruence).
  - constructor.
  - repeat constructor. by vm_compute.
  - intros n. apply length_replicate.
  - cbn. lia.
  - vm_compute. lia.
  - apply (makes_all (fun x => Messages.message_binn x.1)) in Hmk as ->. destruct Hex as (o & Hs & Hr).
    + repeat constructor; vm_compute; congruence.
    + exists sent. apply Hr. vm_compute in Hs. injection Hs as <-. by vm_compute.
Defined.

(** A greeting and an operation of a log. *)
Lemma mdv_peer_exchange_witness :
  let xs := [(P2pmsg.P2p_hello [97%Z], 1%Z); (P2pmsg.P2p_trlog_data (P2pmsg.mk_trlog_msg (mk_uuid 1 2) 1 [(4%Z, to_le 4 9 ++ to_le 4 1 ++ [77%Z])]), 2%Z)] in
  exists bytes got ms', receive 2000 (fun n => replicate n 0%Z) [Rd_data bytes] no_msg [] = Done (got, no_msg, code MDV_EAGAIN) /\
    unframe_msg (P := peer_protocol (fun l => l)) <$> got = (fun m' => Done (Some m')) <$> ms' /\
    Forall2 (fun x m' => P2pmsg.same_p2p (fun l => l) x.1 m') xs ms'.
Proof.
  intros xs. set (docs := omap (fun x => made (P2pmsg.p2p_binn x.1)) xs).
  set (sent := concat (wire <$> zip_with (fun x doc => frame_msg (P := peer_protocol (fun l => l)) x.1 x.2 doc) xs docs)).
  destruct (mdv_peer_exchange (fun l => l) xs [] [Rd_data sent] (fun n => replicate n 0%Z) 2000) as (docs' & Hmk & Hex).
  - done.
  - repeat constructor; vm_compute; (done || lia || congruence).
  - constructor.
  - repeat constructor. by vm_compute.
  - intros n. apply length_replicate.
  - cbn. lia.
  - vm_compute. lia.
  - apply (makes_all (fun x => P2pmsg.p2p_binn x.1)) in Hmk as ->. destruct Hex as (o & Hs & Hr).
    + repeat constructor; vm_compute; congruence.
    + exists sent. apply Hr. vm_compute in Hs. injection Hs as <-. by vm_compute.
Defined.

End Exchange.
