(* ===== verification/Nodes.v ===== *)
(** * Known nodes (src/mdv_core/mdv_node.c, src/mdv_core/storage/mdv_nodes.c)

    The nodes of the network that a node knows, with their local identifiers and
    addresses, kept in a map of the storage under their identifiers. *)

From stdpp Require Import strings.
From S2P Require Import Prelude Uuid Rollbacker Lmdb Memdb Session Binn.
Import Uuid Lmdb Memdb Binn Session.
#[local] Open Scope string_scope.
#[local] Open Scope nat_scope.
#[local] Open Scope list_scope.

Module Nodes.

Definition MDV_ADDR_LEN_MAX : nat := 256.
Definition MDV_LOCAL_ID : Z := 0.
Definition MDV_MAP_NODES : string := "NODES".

(** The address is the text without the zero byte at its end. *)
Record mdv_node := mk_cnode { cn_uuid : mdv_uuid; cn_id : Z; cn_addr : bytes }.

Definition mdv_node_size (node : mdv_node) : nat := 20 + length (cn_addr node) + 1.

Definition mdv_node_init (uuid : mdv_uuid) (id : Z) (addr : bytes) : option mdv_node :=
  if MDV_ADDR_LEN_MAX <=? length addr then None else Some (mk_cnode uuid id addr).

Section Nodes.
Context `{Mdb, !MdbCursor, Binn}.

Definition mdv_binn_node (node : mdv_node) : writer binn :=
  obj <~ binn_create_object;;
  obj <~ binn_object_set obj "I" (B_int (cn_id node));;
  binn_object_set obj "A" (B_str (cn_addr node)).

Definition mdv_unbinn_node (obj : binn) (uuid : mdv_uuid) : option mdv_node :=
  match binn_object_get_uint32 obj "I", binn_object_get_str obj "A" with
  | Some id, Some addr => if MDV_ADDR_LEN_MAX <=? length addr then None else Some (mk_cnode uuid id addr)
  | _, _ => None
  end.

(** The body of the loop: a node that cannot be read is passed over.  Sixteen
    bytes are read at the key. *)
Definition nodes_body {A} (fn : A -> mdv_node -> outcome A) (a : A) (kv : bytes * bytes) : outcome (A * bool) :=
  if length kv.1 <? 16 then OutOfBounds (Z.of_nat (length kv.1)) else
  match binn_load kv.2 with
  | None => Done (a, false)
  | Some obj =>
      match mdv_unbinn_node obj (of_u8s (take 16 kv.1)) with
      | Some node => a ← fn a node; Done (a, false)
      | None => Done (a, false)
      end
  end.

(** [mem]: the rollbacker is allocated. *)
Definition mdv_nodes_foreach {A} (fuel : nat) (mem : bool) (s : mdv_lmdb) (arg : A) (fn : A -> mdv_node -> outcome A)
  : outcome (mdv_lmdb * A * mdv_errno) :=
  let rbr := new_rollbacker mem 2 in
  let f := start (enter s) in
  if negb (mdv_transaction_ok (fr_txn f)) then Done (fr_st (rollback rbr f), arg, MDV_FAILED) else
  let rbr := push_op rbr Fn_transaction_abort Var_transaction in
  let f := open_map f MDV_MAP_NODES MDV_MAP_CREATE in
  if negb (mdv_map_ok (fr_map f)) then Done (fr_st (rollback rbr f), arg, MDV_FAILED) else
  let rbr := push_op rbr Fn_map_close Var_map in
  r ← foreach fuel f ([], []) MDV_CURSOR_FIRST MDV_CURSOR_NEXT (nodes_body fn) arg;
  let '(f, arg) := r in
  let '(f, ok) := commit f in
  if negb ok then Done (fr_st (rollback rbr f), arg, MDV_FAILED)
  else Done (fr_st (close_map f), arg, MDV_OK).

(** [mem_obj]: the answers of the allocator while the document is written. *)
Definition mdv_nodes_store (mem : bool) (mem_obj : nat -> bool) (s : mdv_lmdb) (node : mdv_node) : outcome (mdv_lmdb * mdv_errno) :=
  let rbr := new_rollbacker mem 2 in
  let f := start (enter s) in
  if negb (mdv_transaction_ok (fr_txn f)) then Done (fr_st (rollback rbr f), MDV_FAILED) else
  let rbr := push_op rbr Fn_transaction_abort Var_transaction in
  let f := open_map f MDV_MAP_NODES MDV_MAP_CREATE in
  if negb (mdv_map_ok (fr_map f)) then Done (fr_st (rollback rbr f), MDV_FAILED) else
  let rbr := push_op rbr Fn_map_close Var_map in
  r ← mdv_binn_node node mem_obj 0;
  match r with
  | (None, _) => Done (fr_st (rollback rbr f), MDV_FAILED)
  | (Some obj, _) =>
      let '(f, ok) := put f (u8s (cn_uuid node)) (binn_bytes obj) in
      if negb ok then Done (fr_st (rollback rbr f), MDV_FAILED) else
      let '(f, ok) := commit f in
      if negb ok then Done (fr_st (rollback rbr f), MDV_FAILED)
      else Done (fr_st (close_map f), MDV_OK)
  end.

End Nodes.

(** ** What is stored *)

Section Laws.
Context `{Mdb, !MdbCursor, BinnLaws, !MdbLaws, !MdbCursorLaws}.
Context (n : Z) (Hn : (1 <= n < 2 ^ 32 - 4)%Z).

Definition node_doc (node : mdv_node) : binn := B_object [("I", B_int (cn_id node)); ("A", B_str (cn_addr node))].

(** Nodes that can be written: identifiers of their widths, addresses of bytes
    that are not too long, documents not longer than the format allows. *)
Definition node_ok (node : mdv_node) : Prop :=
  Uuid.wf (cn_uuid node) /\ fits 32 (cn_id node) /\ Forall is_byte (cn_addr node) /\ length (cn_addr node) < MDV_ADDR_LEN_MAX
  /\ (Z.of_nat (length (binn_bytes (node_doc node))) < 2 ^ 31)%Z.

Lemma makes_known_node node : makes (mdv_binn_node node) (node_doc node).
Proof. unfold mdv_binn_node. do 2 step_writer. last_writer. Qed.

Lemma unbinn_node_doc node : node_ok node -> mdv_unbinn_node (node_doc node) (cn_uuid node) = Some node.
Proof.
  intros (Hu & Hi & Hb & Ha & _). unfold mdv_unbinn_node, node_doc. do 2 step_reader.
  destruct (Nat.leb_spec MDV_ADDR_LEN_MAX (length (cn_addr node))); [lia|]. by destruct node.
Qed.

Lemma load_node node : node_ok node -> binn_load (binn_bytes (node_doc node)) = Some (node_doc node).
Proof.
  intros (_ & Hi & Hb & _ & Hs). apply load_bytes; [done| |done]. cbn. unfold fits in Hi. split; [lia|]. by split.
Qed.

Definition entry_of (node : mdv_node) : bytes * bytes := (u8s (cn_uuid node), binn_bytes (node_doc node)).

(** The map of the storage holds the nodes [m], by their identifiers. *)
Definition nodes_in (d : database) (m : gmap mdv_uuid mdv_node) : Prop :=
  (forall u node, m !! u = Some node -> cn_uuid node = u /\ node_ok node)
  /\ forall k v, default ∅ (d !! MDV_MAP_NODES) !! k = Some v <-> exists node, m !! cn_uuid node = Some node /\ entry_of node = (k, v).

Lemma entry_inj a b : node_ok a -> node_ok b -> u8s (cn_uuid a) = u8s (cn_uuid b) -> cn_uuid a = cn_uuid b.
Proof. intros Ha Hb E. rewrite <- (of_u8s_u8s _ (proj1 Ha)), E. by apply of_u8s_u8s, Hb. Qed.

Lemma body_entry {A} (fn : A -> mdv_node -> outcome A) a node : node_ok node -> nodes_body fn a (entry_of node) = (a ← fn a node; Done (a, false)).
Proof.
  intros Hok. unfold nodes_body, entry_of. cbn [fst snd]. rewrite u8s_length. cbn [Nat.ltb Nat.leb].
  rewrite load_node by done. rewrite take_ge by by rewrite u8s_length. rewrite of_u8s_u8s by apply Hok. by rewrite unbinn_node_doc.
Qed.

(** The calls of the function, in the order of the loop. *)
Fixpoint visit {A} (fn : A -> mdv_node -> outcome A) (nodes : list mdv_node) (a : A) : outcome A :=
  match nodes with
  | [] => Done a
  | node :: nodes => a ← fn a node; visit fn nodes a
  end.

Lemma fold_entries {A} (fn : A -> mdv_node -> outcome A) nodes a : Forall node_ok nodes -> fold_break (nodes_body fn) a (entry_of <$> nodes) = visit fn nodes a.
Proof.
  intros Hok. revert a. induction Hok as [|node nodes Hn1 _ IH]; intros a; [done|]. cbn [fmap list_fmap fold_break visit].
  rewrite body_entry by done. destruct (fn a node); [|done..]. cbn [mbind outcome_bind]. apply IH.
Qed.

(** The entries of the map are those of the nodes. *)
Lemma entries_nodes d m (l : list (bytes * bytes)) M :
  nodes_in d m -> d !! MDV_MAP_NODES = Some M -> l ≡ₚ map_to_list M ->
  exists nodes, l = entry_of <$> nodes /\ Forall node_ok nodes /\ nodes ≡ₚ (map_to_list m).*2.
Proof.
  intros [Hm Hd] HM Hl. rewrite HM in Hd. cbn [default from_option id] in Hd.
  assert (Hl' : Forall (fun e => exists node, m !! cn_uuid node = Some node /\ entry_of node = e) l).
  { apply Forall_forall. intros [k v] Hin. rewrite Hl in Hin. apply elem_of_map_to_list in Hin. by apply Hd. }
  assert (exists nodes, l = entry_of <$> nodes /\ Forall (fun node => m !! cn_uuid node = Some node) nodes) as (nodes & -> & Hin).
  { clear Hl. induction Hl' as [|e l (node & Hnode & <-) _ (nodes & -> & Hin)]; [by exists []|]. exists (node :: nodes). split; [done|by constructor]. }
  exists nodes. split; [done|]. split; [eapply Forall_impl; [exact Hin|]; intros node Hx; by apply (Hm (cn_uuid node))|].
  assert (Hnd : NoDup (entry_of <$> nodes)) by (rewrite Hl; apply NoDup_map_to_list).
  apply NoDup_Permutation; [by apply NoDup_fmap_1 in Hnd| |].
  - apply NoDup_fmap_2_strong; [|apply NoDup_map_to_list]. intros [u1 x1] [u2 x2] Hp1%elem_of_map_to_list Hp2%elem_of_map_to_list E. cbn in E. subst x2.
    by rewrite <- (proj1 (Hm _ _ Hp1)), <- (proj1 (Hm _ _ Hp2)).
  - intros node. split.
    + intros Hx. apply list_elem_of_fmap. exists (cn_uuid node, node). split; [done|]. apply elem_of_map_to_list. by eapply Forall_forall in Hin.
    + intros ([u x] & -> & Hx%elem_of_map_to_list)%list_elem_of_fmap. cbn [snd]. destruct (Hm _ _ Hx) as [Hu Hok]. subst u.
      assert (He : entry_of x ∈ entry_of <$> nodes) by (rewrite Hl; apply elem_of_map_to_list, Hd; exists x; by split).
      apply list_elem_of_fmap in He as (y & Ey & Hy). eapply Forall_forall in Hin as Hy'; [|exact Hy].
      assert (cn_uuid x = cn_uuid y) as Exy by (apply entry_inj; [done|by apply (Hm (cn_uuid y))|exact (f_equal fst Ey)]).
      rewrite Exy, Hy' in Hx. by injection Hx as ->.
Qed.

Lemma nodes_insert d m node :
  nodes_in d m -> node_ok node ->
  nodes_in (alter (fun M => <[u8s (cn_uuid node) := binn_bytes (node_doc node)]> M) MDV_MAP_NODES (ensure MDV_MAP_NODES d)) (<[cn_uuid node := node]> m).
Proof.
  intros [Hm Hd] Hok. split.
  - intros u x. rewrite lookup_insert. case_decide as E; [|apply Hm]. intros Ex. injection Ex as <-. by subst u.
  - intros k v. rewrite lookup_alter, decide_True by done. rewrite ensure_lookup, decide_True by done. cbn [fmap option_fmap option_map default from_option id].
    rewrite lookup_insert. case_decide as E.
    + split.
      * intros Ev. injection Ev as <-. exists node. rewrite lookup_insert_eq. unfold entry_of. by rewrite E.
      * intros (x & Hx & Ex). apply (f_equal fst) in Ex as Ek. apply (f_equal snd) in Ex as Ev. cbn [entry_of fst snd] in Ek, Ev. subst k v. rewrite lookup_insert in Hx. case_decide as Eu; [by injection Hx as <-|].
        destruct Eu. apply entry_inj; [done|by apply (Hm (cn_uuid x))|done].
    + rewrite Hd. split; intros (x & Hx & Ex); exists x; (split; [|done]); apply (f_equal fst) in Ex; cbn [entry_of fst] in Ex; rewrite lookup_insert in *.
      * rewrite decide_False; [done|]. intros Eu. by rewrite <- Ex, Eu in E.
      * rewrite decide_False in Hx; [done|]. intros Eu. by rewrite <- Ex, Eu in E.
Qed.

Lemma nodes_ensure d m : nodes_in d m -> nodes_in (ensure MDV_MAP_NODES d) m.
Proof. intros [Hm Hd]. split; [done|]. intros k v. rewrite <- Hd, ensure_lookup, decide_True by done. done. Qed.

Abbreviation data_at := (fun s : mdv_lmdb => db (s_env s)).

(** Storing a node, on every branch. *)
Lemma store_runs mem_obj s m node :
  live n s -> nodes_in (data_at s) m -> node_ok node ->
  exists s' err, mdv_nodes_store true mem_obj s node = Done (s', err) /\ live n s'
    /\ (err = MDV_OK /\ nodes_in (data_at s') (<[cn_uuid node := node]> m) \/ err = MDV_FAILED /\ data_at s' = data_at s)
    /\ (MdbReliable -> MdbRoom -> (forall i, mem_obj i = true) -> err = MDV_OK).
Proof.
  intros Hlive Hin Hok. pose proof (opened n Hn (enter s) MDV_MAP_NODES MDV_MAP_CREATE (balanced_enter n _ Hlive) (idle_enter s)) as Ho.
  pose proof (fun _ : MdbReliable => opened_reliable n Hn (enter s) MDV_MAP_NODES MDV_MAP_CREATE (balanced_enter n _ Hlive) (idle_enter s) ltac:(by right)) as Hrel.
  cbn zeta in Ho. unfold mdv_nodes_store. destruct (mdv_transaction_ok _) eqn:E1; cbn [negb] in *.
  2: { rewrite rollback_none. eexists _, _. split; [done|]. split; [by eapply clean_live|]. split; [right; split; [done|apply Ho]|]. intros Hr. by destruct (Hrel Hr). }
  destruct (mdv_map_ok _) eqn:E2; cbn [negb] in *.
  2: { rewrite rollback_txn by lia. eexists _, _. split; [done|]. split; [by eapply clean_live|]. split; [right; split; [done|apply Ho]|]. intros Hr. by destruct (Hrel Hr). }
  destruct Ho as (x & Hi & Hd & _ & Hv & _). destruct (makes_known_node node) as [Hmk Hmk1].
  assert (Hfail : forall f' x', inside n f' MDV_MAP_NODES x' -> data f' = data (enter s) -> live n (fr_st (abort (close_map f'))) /\ data_at (fr_st (abort (close_map f'))) = data_at s).
  { intros f' x' Hi' Hd'. destruct (clean_close_abort n Hn f' (in_bal _ _ _ _ Hi') (in_cur _ _ _ _ Hi')) as (B & I & D & _).
    split; [by apply idle_live|]. exact (eq_trans D Hd'). }
  destruct (Hmk mem_obj 0) as (k & [Em|Em]); rewrite Em; cbn [mbind outcome_bind].
  { rewrite rollback_map by lia. eexists _, _. split; [done|]. destruct (Hfail _ _ Hi Hd) as [Hl' Hd']. split; [done|]. split; [by right|].
    intros _ _ Hmem. destruct (Hmk1 mem_obj Hmem 0) as (k' & Em'). congruence. }
  assert (Hkey : valid_key (u8s (cn_uuid node))) by (unfold valid_key; rewrite u8s_length; lia).
  pose proof (put_inside n _ _ x (u8s (cn_uuid node)) (binn_bytes (node_doc node)) 0 Hi Hkey) as Hp. unfold put, mdv_map_put.
  destruct (mdv_map_put_impl _ _ _ _ _) as [t ok]. destruct Hp as (x1 & Hi1 & _ & Hv1 & _ & Hroom). destruct ok; cbn [negb].
  2: { rewrite rollback_map by lia. eexists _, _. split; [done|]. destruct (Hfail _ _ Hi1 Hd) as [Hl' Hd']. split; [done|]. split; [by right|].
       intros _ Hr _. by specialize (Hroom Hr (or_introl eq_refl)). }
  pose proof (commit_inside n Hn _ _ _ Hi1) as Hc. pose proof (fun _ : MdbReliable => commit_reliable_ok _ x1 (in_txn _ _ _ _ Hi1)) as Hcr.
  destruct (commit _) as [f2 ok]. cbn [snd] in Hcr. destruct ok; cbn [negb].
  - destruct Hc as (B & I & Hd2 & _). eexists _, _. split; [done|]. split; [by apply idle_live|]. split; [|done]. left. split; [done|].
    change (nodes_in (data (close_map f2)) (<[cn_uuid node := node]> m)). rewrite Hd2, Hv1, Hv. by apply nodes_insert.
  - rewrite rollback_map by lia. eexists _, _. split; [done|]. split; [by eapply clean_live|]. split; [right; split; [done|]|intros Hr; by specialize (Hcr Hr)].
    destruct Hc as (_ & _ & D & _). exact (eq_trans D Hd).
Qed.

(** Visiting the nodes: all of them, unless the storage fails. *)
Lemma foreach_runs {A} (fn : A -> mdv_node -> outcome A) fuel s m (a : A) :
  live n s -> nodes_in (data_at s) m -> size m + 1 < fuel ->
  exists nodes (seen : bool), nodes ≡ₚ (map_to_list m).*2 /\ Forall node_ok nodes
    /\ (MdbReliable -> MdbCursorReliable -> seen = true)
    /\ (exists s' err, live n s' /\ nodes_in (data_at s') m
         /\ (MdbReliable -> MdbCursorReliable -> err = MDV_OK)
         /\ mdv_nodes_foreach fuel true s a fn = (a ← visit fn (if seen then nodes else []) a; Done (s', a, err))).
Proof.
  intros Hlive Hin Hf. pose proof (opened n Hn (enter s) MDV_MAP_NODES MDV_MAP_CREATE (balanced_enter n _ Hlive) (idle_enter s)) as Ho.
  pose proof (fun _ : MdbReliable => opened_reliable n Hn (enter s) MDV_MAP_NODES MDV_MAP_CREATE (balanced_enter n _ Hlive) (idle_enter s) ltac:(by right)) as Hrel.
  assert (Hnone : exists nodes, nodes ≡ₚ (map_to_list m).*2 /\ Forall node_ok nodes).
  { exists (map_to_list m).*2. split; [done|]. apply Forall_forall. intros x ([u y] & -> & Hy%elem_of_map_to_list)%list_elem_of_fmap. by apply (proj1 Hin u). }
  cbn zeta in Ho. unfold mdv_nodes_foreach. destruct (mdv_transaction_ok _) eqn:E1; cbn [negb] in *.
  2: { destruct Hnone as (nodes & Hperm & Hok). exists nodes, false. split_and!; try done; [intros Hr; by destruct (Hrel Hr)|]. rewrite rollback_none. eexists _, MDV_FAILED.
       split; [by eapply clean_live|]. split; [destruct Ho as (_ & _ & D & _); unfold data in D; by rewrite D|]. split; [intros Hr; by destruct (Hrel Hr)|done]. }
  destruct (mdv_map_ok _) eqn:E2; cbn [negb] in *.
  2: { destruct Hnone as (nodes & Hperm & Hok). exists nodes, false. split_and!; try done; [intros Hr; by destruct (Hrel Hr)|]. rewrite rollback_txn by lia. eexists _, MDV_FAILED.
       split; [by eapply clean_live|]. split; [destruct Ho as (_ & _ & D & _); unfold data in D; by rewrite D|]. split; [intros Hr; by destruct (Hrel Hr)|done]. }
  clear Hnone. destruct Ho as (x & Hi & Hd & _ & Hv & _). assert (HM : view x !! MDV_MAP_NODES = Some (default ∅ (data_at s !! MDV_MAP_NODES))).
  { rewrite Hv, ensure_lookup, decide_True by done. done. }
  assert (Hin' : nodes_in (view x) m) by (rewrite Hv; by apply nodes_ensure).
  destruct (entries_nodes (view x) m _ _ Hin' HM (entries_perm x _ _ _ (in_hnd _ _ _ _ Hi) HM)) as (nodes & El & Hok & Hperm).
  destruct (foreach_ok n Hn fuel _ MDV_MAP_NODES x ([], []) MDV_CURSOR_FIRST 0 (nodes_body fn) a Hi ltac:(done)) as (seen & f' & Hseen & Hi' & Hst & _ & _ & ->).
  { rewrite El, length_fmap, Hperm, length_fmap, length_map_to_list. done. }
  exists nodes, seen. split_and!; try done.
  assert (Ef : fold_break (nodes_body fn) a (if seen then drop 0 (entries x (m_dbmap (fr_map (open_map (start (enter s)) MDV_MAP_NODES MDV_MAP_CREATE)))) else []) = visit fn (if seen then nodes else []) a).
  { destruct seen; [|done]. rewrite drop_0, El. by apply fold_entries. }
  rewrite Ef. pose proof (commit_inside n Hn _ _ _ Hi') as Hc. pose proof (fun _ : MdbReliable => commit_reliable_ok _ x (in_txn _ _ _ _ Hi')) as Hcr.
  destruct (commit f') as [f2 ok] eqn:Ec. cbn [snd] in Hcr. destruct ok.
  - destruct Hc as (B & I & Hd2 & _). exists (fr_st (close_map f2)), MDV_OK. split; [by apply idle_live|].
    split; [change (nodes_in (data (close_map f2)) m); by rewrite Hd2|]. split; [done|]. destruct (visit _ _ _); [|done..]. cbn [mbind outcome_bind]. by rewrite Ec.
  - exists (fr_st (abort (close_map f2))), MDV_FAILED. split; [by eapply clean_live|]. split.
    { destruct Hc as (_ & _ & D & _). change (nodes_in (data (abort (close_map f2))) m). rewrite D. unfold data. rewrite Hst. unfold data in Hd. by rewrite Hd. }
    split; [intros Hr; by specialize (Hcr Hr)|]. destruct (visit _ _ _); [|done..]. cbn [mbind outcome_bind]. rewrite Ec. cbn [negb]. by rewrite rollback_map by lia.
Qed.

(** Any node is stored or refused, and the storage stays usable. *)
Lemma store_total mem_obj s node : live n s ->
  exists s' err, mdv_nodes_store true mem_obj s node = Done (s', err) /\ live n s'
    /\ (MdbReliable -> MdbRoom -> (forall i, mem_obj i = true) -> err = MDV_OK).
Proof.
  intros Hlive. pose proof (opened n Hn (enter s) MDV_MAP_NODES MDV_MAP_CREATE (balanced_enter n _ Hlive) (idle_enter s)) as Ho.
  pose proof (fun _ : MdbReliable => opened_reliable n Hn (enter s) MDV_MAP_NODES MDV_MAP_CREATE (balanced_enter n _ Hlive) (idle_enter s) ltac:(by right)) as Hrel.
  cbn zeta in Ho. unfold mdv_nodes_store. destruct (mdv_transaction_ok _) eqn:E1; cbn [negb] in *.
  2: { rewrite rollback_none. eexists _, _. split; [done|]. split; [by eapply clean_live|]. intros Hr. by destruct (Hrel Hr). }
  destruct (mdv_map_ok _) eqn:E2; cbn [negb] in *.
  2: { rewrite rollback_txn by lia. eexists _, _. split; [done|]. split; [by eapply clean_live|]. intros Hr. by destruct (Hrel Hr). }
  destruct Ho as (x & Hi & _). destruct (makes_known_node node) as [Hmk Hmk1].
  assert (Hfail : forall f' x', inside n f' MDV_MAP_NODES x' -> live n (fr_st (abort (close_map f')))).
  { intros f' x' Hi'. destruct (clean_close_abort n Hn f' (in_bal _ _ _ _ Hi') (in_cur _ _ _ _ Hi')) as (B & I & _). by apply idle_live. }
  destruct (Hmk mem_obj 0) as (k & [Em|Em]); rewrite Em; cbn [mbind outcome_bind].
  { rewrite rollback_map by lia. eexists _, _. split; [done|]. split; [by eapply Hfail|]. intros _ _ Hmem. destruct (Hmk1 mem_obj Hmem 0) as (k' & Em'). congruence. }
  assert (Hkey : valid_key (u8s (cn_uuid node))) by (unfold valid_key; rewrite u8s_length; lia).
  pose proof (put_inside n _ _ x (u8s (cn_uuid node)) (binn_bytes (node_doc node)) 0 Hi Hkey) as Hp. unfold put, mdv_map_put.
  destruct (mdv_map_put_impl _ _ _ _ _) as [t ok]. destruct Hp as (x1 & Hi1 & _ & _ & _ & Hroom). destruct ok; cbn [negb].
  2: { rewrite rollback_map by lia. eexists _, _. split; [done|]. split; [by eapply Hfail|]. intros _ Hr _. by specialize (Hroom Hr (or_introl eq_refl)). }
  pose proof (commit_inside n Hn _ _ _ Hi1) as Hc. pose proof (fun _ : MdbReliable => commit_reliable_ok _ x1 (in_txn _ _ _ _ Hi1)) as Hcr.
  destruct (commit _) as [f2 ok]. cbn [snd] in Hcr. destruct ok; cbn [negb].
  - destruct Hc as (B & I & _). eexists _, _. split; [done|]. split; [by apply idle_live|done].
  - rewrite rollback_map by lia. eexists _, _. split; [done|]. split; [by eapply clean_live|]. intros Hr. by specialize (Hcr Hr).
Qed.

Definition collect (l : list mdv_node) (node : mdv_node) : outcome (list mdv_node) := Done (l ++ [node]).

Lemma visit_collect nodes l : visit collect nodes l = Done (l ++ nodes).
Proof. revert l. induction nodes as [|x nodes IH]; intros l; cbn [visit]; [by rewrite app_nil_r|]. cbn [collect mbind outcome_bind]. by rewrite IH, <- app_assoc. Qed.

End Laws.
(** ** Theorem *)

(** a node that is stored is there after a restart: visiting the nodes of the
    storage gives every node that was stored, the last description of each, and
    no other.  A store that fails leaves the storage as it was. *)
Theorem mdv_nodes_store_load `{Mdb, !MdbCursor, BinnLaws, !MdbLaws, !MdbCursorLaws} (n : Z) mem_obj s m node fuel :
  (1 <= n < 2 ^ 32 - 4)%Z -> live n s -> nodes_in (db (s_env s)) m -> node_ok node -> size m + 2 < fuel ->
  exists s' err, mdv_nodes_store true mem_obj s node = Done (s', err) /\ live n s'
    /\ (MdbReliable -> MdbRoom -> (forall i, mem_obj i = true) -> err = MDV_OK)
    /\ let m' := if decide (err = MDV_OK) then <[cn_uuid node := node]> m else m in
       exists nodes s'' err', nodes ≡ₚ (map_to_list m').*2 /\ live n s''
         /\ (MdbReliable -> MdbCursorReliable -> mdv_nodes_foreach fuel true s' [] collect = Done (s'', nodes, err') /\ err' = MDV_OK).
Proof.
  intros Hn Hl Hin Hok Hf. destruct (store_runs n Hn mem_obj s m node Hl Hin Hok) as (s' & err & -> & Hl' & Hcase & Hrel).
  exists s', err. split; [done|]. split; [done|]. split; [done|]. cbn zeta.
  assert (Hin' : nodes_in (db (s_env s')) (if decide (err = MDV_OK) then <[cn_uuid node := node]> m else m)).
  { destruct Hcase as [[-> Hx]|[-> Hx]]; [by rewrite decide_True|]. rewrite decide_False by done. by rewrite Hx. }
  destruct (foreach_runs n Hn collect fuel s' _ [] Hl' Hin') as (nodes & seen & Hperm & _ & Hseen & s'' & err' & Hl2 & _ & Herr & Hrun).
  { destruct (decide _); [|lia]. pose proof (map_size_insert (cn_uuid node) node m) as E. destruct (m !! cn_uuid node); cbn in E; lia. }
  exists nodes, s'', err'. split; [done|]. split; [done|]. intros Hr Hc. rewrite (Hseen Hr Hc), visit_collect in Hrun. split; [done|]. by apply Herr.
Qed.

Definition empty_storage : mdv_lmdb := mk_lmdb 1 (∅ : database, ∅) true.
Definition demo_node : mdv_node := mk_cnode (mk_uuid 7 8) 3 [116; 99; 112]%Z.

Lemma mdv_nodes_store_load_witness :
  exists s' s'', mdv_nodes_store true (fun _ => true) empty_storage demo_node = Done (s', MDV_OK)
    /\ mdv_nodes_foreach 4 true s' [] collect = Done (s'', [demo_node], MDV_OK).
Proof.
  destruct (mdv_nodes_store_load 1 (fun _ => true) empty_storage ∅ demo_node 4) as (s' & err & Hs & _ & Herr & Hload).
  - lia.
  - by split.
  - split; [done|]. intros k v. split; [done|]. intros (node & Hnode & _). done.
  - split_and!; vm_compute; try (split; congruence); try lia; try done. repeat constructor; discriminate.
  - rewrite map_size_empty. lia.
  - specialize (Herr _ _ (fun _ => eq_refl)). subst err. cbn zeta in Hload. rewrite decide_True in Hload by done.
    destruct Hload as (nodes & s'' & err' & Hperm & _ & Hrun). destruct (Hrun _ _) as [Hf ->]. rewrite insert_empty, map_to_list_singleton in Hperm.
    apply Permutation_singleton_r in Hperm as ->. exists s', s''. by split.
Defined.

End Nodes.
