(* ===== verification/Tracker.v ===== *)
(** * Tracker of the topology (src/mdv_core/mdv_tracker.c)

    Every node keeps the nodes it knows and the links between them, in hash
    maps: nodes by their identifiers and by local numbers, links by the numbers
    of their ends.  Events of the bus change them: links that go up or down,
    topologies and broadcasts of other nodes; the tracker answers with events of
    its own.

    The functions are computations (Action.v): they change the tracker and ask for the
    answers of the allocator, of the mutexes and of the bus, in order; the error
    of a mutex or of the bus is MDV_FAILED, and the rollbackers of the storage
    functions are allocated.  The
    counters of references of events, topologies and sets are not part of the
    model of the handlers. *)

From stdpp Require Import strings.
From S2P Require Import Prelude Uuid Hashmap Rollbacker Topology Lmdb Memdb Session Binn Serialization P2pmsg Nodes Action.
Import Uuid Hashmap Rollbacker Topology Lmdb Memdb Binn Serialization P2pmsg Nodes Action.
#[local] Open Scope string_scope.
#[local] Open Scope nat_scope.
#[local] Open Scope list_scope.

(** ** Keys *)

(** The two local numbers of a link, in ascending order. *)
Definition ordered (id : Z * Z) : Z * Z := if (id.1 <? id.2)%Z then id else (id.2, id.1).

Definition mdv_tracker_link_hash (id : Z * Z) : Z :=
  let '(a, b) := ordered id in
  let FNV_offset_basis := 0x811c9dc5%Z in
  let FNV_prime := 0x01000193%Z in
  Z.lxor (u64 (Z.lxor (u64 (FNV_offset_basis * FNV_prime)) a * FNV_prime)) b.

Definition mdv_tracker_link_cmp (id1 id2 : Z * Z) : Z :=
  let '(a1, b1) := ordered id1 in
  let '(a2, b2) := ordered id2 in
  if (a1 <? a2)%Z then -1 else if (a2 <? a1)%Z then 1 else if (b1 <? b2)%Z then -1 else if (b2 <? b1)%Z then 1 else 0.

#[export] Instance link_key : HashKey (Z * Z) := {| hash_fn := mdv_tracker_link_hash; key_cmp_fn := mdv_tracker_link_cmp |}.

Lemma link_keq (a b : Z * Z) : keq a b <-> ordered a = ordered b.
Proof.
  unfold keq. cbn [key_cmp_fn link_key]. unfold mdv_tracker_link_cmp. destruct (ordered a) as [a1 b1], (ordered b) as [a2 b2].
  destruct (Z.ltb_spec a1 a2), (Z.ltb_spec a2 a1), (Z.ltb_spec b1 b2), (Z.ltb_spec b2 b1);
    split; intros E; try lia; try (injection E as -> ->; lia); f_equal; lia.
Qed.

#[export] Instance link_key_ok : HashKeyOk (Z * Z).
Proof.
  split; [split; intros ?; intros *; rewrite !link_keq; congruence|].
  intros a b Hab%link_keq. cbn. unfold mdv_tracker_link_hash. by rewrite Hab.
Qed.

Module Tracker.

#[local] Existing Instance Topology.u32_key.
#[local] Existing Instance Topology.u32_key_ok.

(** ** Data *)

Record mdv_tracker_link := mk_tlink { tl_id : Z * Z; tl_weight : Z }.

(** The entry of a node in the map of the local numbers; the pointer to the node
    is its identifier. *)
Record mdv_node_id := mk_node_id { nid_id : Z; nid_node : mdv_uuid }.

Abbreviation hashset := (mdv_hashmap mdv_uuid).

(** The events that the tracker publishes. *)
Inductive tracker_event :=
| Evt_topology (t : mdv_topology)
| Evt_topology_sync (from to : mdv_uuid) (t : mdv_topology)
| Evt_broadcast_post (msg_id : Z) (data : bytes) (notified peers : hashset).

Section Tracker.
Context `{Mdb, !MdbCursor, Binn} (qsort : list mdv_toponode -> list mdv_toponode).

(** [tr_events]: what was published. *)
Record mdv_tracker := mk_tracker {
  tr_rc : Z;
  tr_uuid : mdv_uuid;
  tr_max_id : Z;
  tr_storage : mdv_lmdb;
  tr_nodes : mdv_hashmap mdv_node;
  tr_ids : mdv_hashmap mdv_node_id;
  tr_links : mdv_hashmap mdv_tracker_link;
  tr_events : list tracker_event
}.

Definition set_max_id (t : mdv_tracker) (x : Z) : mdv_tracker :=
  mk_tracker (tr_rc t) (tr_uuid t) x (tr_storage t) (tr_nodes t) (tr_ids t) (tr_links t) (tr_events t).
Definition set_storage (t : mdv_tracker) (x : mdv_lmdb) : mdv_tracker :=
  mk_tracker (tr_rc t) (tr_uuid t) (tr_max_id t) x (tr_nodes t) (tr_ids t) (tr_links t) (tr_events t).
Definition set_nodes (t : mdv_tracker) (x : mdv_hashmap mdv_node) : mdv_tracker :=
  mk_tracker (tr_rc t) (tr_uuid t) (tr_max_id t) (tr_storage t) x (tr_ids t) (tr_links t) (tr_events t).
Definition set_ids (t : mdv_tracker) (x : mdv_hashmap mdv_node_id) : mdv_tracker :=
  mk_tracker (tr_rc t) (tr_uuid t) (tr_max_id t) (tr_storage t) (tr_nodes t) x (tr_links t) (tr_events t).
Definition set_links (t : mdv_tracker) (x : mdv_hashmap mdv_tracker_link) : mdv_tracker :=
  mk_tracker (tr_rc t) (tr_uuid t) (tr_max_id t) (tr_storage t) (tr_nodes t) (tr_ids t) x (tr_events t).
Definition add_event (t : mdv_tracker) (e : tracker_event) : mdv_tracker :=
  mk_tracker (tr_rc t) (tr_uuid t) (tr_max_id t) (tr_storage t) (tr_nodes t) (tr_ids t) (tr_links t) (tr_events t ++ [e]).

(** ** Computations *)

Abbreviation tm := (action mdv_tracker).

(** The answers for the insertions of a loop. *)
Definition pairs (f : nat -> bool) (i : nat) : bool * bool := (f (2 * i), f (2 * i + 1)).

(** ** Nodes *)

(** The result: whether the node is in the maps.  A node without an entry in
    the map of numbers is removed again. *)
Definition mdv_tracker_insert (node : mdv_node) : tm bool :=
  t ← get;
  m1 ← ask; m2 ← ask;
  r ← lift (deref (mdv_hashmap_insert cn_uuid m1 m2 (tr_nodes t) node (mdv_node_size node)));
  put (set_nodes t r.2);;
  match r.1 with
  | None => mret false
  | Some entry =>
      m1 ← ask; m2 ← ask;
      t ← get;
      r ← lift (deref (mdv_hashmap_insert nid_id m1 m2 (tr_ids t) (mk_node_id (cn_id node) (cn_uuid entry)) 16));
      put (set_ids t r.2);;
      match r.1 with
      | Some _ => mret true
      | None =>
          t ← get;
          e ← lift (deref (mdv_hashmap_erase cn_uuid (tr_nodes t) (cn_uuid node)));
          put (set_nodes t e.2);; mret false
      end
  end.

Definition mdv_tracker_erase (node : mdv_node) : tm unit :=
  t ← get;
  e1 ← lift (deref (mdv_hashmap_erase nid_id (tr_ids t) (cn_id node)));
  e2 ← lift (deref (mdv_hashmap_erase cn_uuid (tr_nodes t) (cn_uuid node)));
  put (set_nodes (set_ids t e1.2) e2.2).

Definition mdv_tracker_find (t : mdv_tracker) (uuid : mdv_uuid) : outcome (option mdv_node) :=
  deref (mdv_hashmap_find cn_uuid (tr_nodes t) uuid).

Definition mdv_tracker_new_id : tm Z :=
  t ← get; put (set_max_id t (u32 (tr_max_id t + 1)));; mret (u32 (tr_max_id t + 1)).

(** The loop with the compare-and-exchange, when no other thread interferes. *)
Definition mdv_tracker_id_maximize (id : Z) : tm unit :=
  t ← get; if (tr_max_id t <? id)%Z then put (set_max_id t id) else mret tt.

Definition store_node (node : mdv_node) : tm mdv_errno :=
  t ← get;
  f ← asks 3;
  r ← lift (mdv_nodes_store true f (tr_storage t) node);
  put (set_storage t r.1);; mret r.2.

(** The callback of [mdv_nodes_foreach]: its result is not examined. *)
Definition load_node (mem : nat -> bool) (st : nat * mdv_tracker) (node : mdv_node) : outcome (nat * mdv_tracker) :=
  match mdv_tracker_insert node mem st.1 st.2 with
  | Done (_, n, t) => Done (n, t)
  | OutOfBounds i => OutOfBounds i
  | OutOfFuel => OutOfFuel
  end.

Definition load_nodes (fuel : nat) : tm mdv_errno := fun mem n t =>
  match mdv_nodes_foreach fuel true (tr_storage t) (n, t) (load_node mem) with
  | Done (s, (n, t), err) => Done (err, n, set_storage t s)
  | OutOfBounds i => OutOfBounds i
  | OutOfFuel => OutOfFuel
  end.

(** [listen]: the address of the configuration. *)
Definition mdv_tracker_load (fuel : nat) (listen : bytes) : tm mdv_errno :=
  t ← get;
  match mdv_node_init (tr_uuid t) MDV_LOCAL_ID listen with
  | None => mret MDV_FAILED
  | Some node =>
      mdv_tracker_id_maximize (cn_id node);;
      ok ← mdv_tracker_insert node;
      if negb ok then mret MDV_FAILED else
      load_nodes fuel
  end.

(** The node is new, or its address changed, or it is known already. *)
Definition mdv_tracker_register (uuid : mdv_uuid) (addr : bytes) : tm mdv_errno :=
  lock ← ask;
  if negb lock then mret MDV_FAILED else
  t ← get;
  found ← lift (mdv_tracker_find t uuid);
  match found with
  | Some node =>
      if decide (addr = cn_addr node) then mret MDV_OK else
      match mdv_node_init uuid (cn_id node) addr with
      | None => mret MDV_FAILED
      | Some new_node =>
          store_node new_node;;
          ok ← mdv_tracker_insert new_node;
          mret (if (ok : bool) then MDV_OK else MDV_FAILED)
      end
  | None =>
      id ← mdv_tracker_new_id;
      match mdv_node_init uuid id addr with
      | None => mret MDV_FAILED
      | Some new_node =>
          err ← store_node new_node;
          if decide (err = MDV_OK) then
            ok ← mdv_tracker_insert new_node;
            mret (if (ok : bool) then MDV_OK else MDV_FAILED)
          else mret err
      end
  end.

(** ** Links *)

Definition mdv_tracker_linkstate2 (link : mdv_tracker_link) (connected : bool) : tm mdv_errno :=
  lock ← ask;
  if negb lock then mret MDV_FAILED else
  t ← get;
  if connected then
    m1 ← ask; m2 ← ask;
    r ← lift (deref (mdv_hashmap_insert tl_id m1 m2 (tr_links t) link 12));
    put (set_links t r.2);;
    mret (match r.1 with Some _ => MDV_OK | None => MDV_NO_MEM end)
  else
    r ← lift (deref (mdv_hashmap_erase tl_id (tr_links t) (tl_id link)));
    put (set_links t r.2);; mret MDV_OK.

(** The number of a node, 0 for this node. *)
Definition node_identifier (t : mdv_tracker) (peer : mdv_uuid) : outcome (option Z) :=
  if (mdv_uuid_cmp peer (tr_uuid t) =? 0)%Z then Done (Some MDV_LOCAL_ID)
  else node ← mdv_tracker_find t peer; Done (cn_id <$> (node : option mdv_node)).

Definition mdv_tracker_node_identifiers (peer_1 peer_2 : mdv_uuid) : tm (option (Z * Z)) :=
  lock ← ask;
  if negb lock then mret None else
  t ← get;
  a ← lift (node_identifier t peer_1);
  match a with
  | None => mret None
  | Some a =>
      b ← lift (node_identifier t peer_2);
      mret (match b with Some b => Some (a, b) | None => None end)
  end.

Definition mdv_tracker_linkstate_add (peer_1 peer_2 : mdv_uuid) (connected : bool) (weight : Z) : tm mdv_errno :=
  ids ← mdv_tracker_node_identifiers peer_1 peer_2;
  match ids with
  | None => mret MDV_FAILED
  | Some id => mdv_tracker_linkstate2 (mk_tlink id weight) connected
  end.

(** The error and whether the nodes are linked. *)
Definition mdv_tracker_linkstate_get (peer_1 peer_2 : mdv_uuid) (connected : bool) : tm (mdv_errno * bool) :=
  ids ← mdv_tracker_node_identifiers peer_1 peer_2;
  match ids with
  | None => mret (MDV_OK, false)
  | Some ids =>
      lock ← ask;
      if negb lock then mret (MDV_FAILED, connected) else
      t ← get;
      link ← lift (deref (mdv_hashmap_find tl_id (tr_links t) ids));
      mret (MDV_OK, is_some link)
  end.

Fixpoint register_all (nodes : list mdv_toponode) : tm mdv_errno :=
  match nodes with
  | [] => mret MDV_OK
  | toponode :: nodes =>
      err ← mdv_tracker_register (n_uuid toponode) (n_addr toponode);
      if decide (err = MDV_OK) then register_all nodes else mret MDV_FAILED
  end.

Fixpoint link_all (nodes : list mdv_toponode) (links : list mdv_topolink) : tm mdv_errno :=
  match links with
  | [] => mret MDV_OK
  | topolink :: links =>
      match lookupZ nodes (node0 topolink), lookupZ nodes (node1 topolink) with
      | Some src, Some dst =>
          err ← mdv_tracker_linkstate_add (n_uuid src) (n_uuid dst) true (weight topolink);
          if decide (err = MDV_OK) then link_all nodes links else mret MDV_FAILED
      | _, _ => mret MDV_FAILED
      end
  end.

Definition mdv_tracker_topodiff_add (diff : mdv_topology) : tm mdv_errno :=
  err ← register_all (t_nodes diff);
  if decide (err = MDV_OK) then link_all (t_nodes diff) (t_links diff) else mret MDV_FAILED.

Definition mdv_tracker_links_count : tm nat :=
  lock ← ask; t ← get; mret (if (lock : bool) then hm_size (tr_links t) else 0).

(** The calls of the function. *)
Definition mdv_tracker_links_foreach {A} (fn : mdv_tracker_link -> A -> A) (arg : A) : tm A :=
  lock ← ask; t ← get; mret (if (lock : bool) then foldl (fun a l => fn l a) arg (mdv_hashmap_foreach (tr_links t)) else arg).

Definition mdv_tracker_links : tm (option (list mdv_tracker_link)) :=
  lock ← ask;
  if negb lock then mret None else
  t ← get;
  if hm_size (tr_links t) =? 0 then mret (Some [])
  else m ← ask; mret (if (m : bool) then Some (mdv_hashmap_foreach (tr_links t)) else None).

(** ** The topology *)

Record mdv_topology_node := mk_tnode { tn_id : Z; tn_idx : Z; tn_node : mdv_node }.

(** A node without memory is left out.  [idx0]: what the field holds at first. *)
Fixpoint tracker_nodes_loop (idx0 : Z) (l : list mdv_node) (nodes : mdv_hashmap mdv_topology_node) : tm (mdv_hashmap mdv_topology_node) :=
  match l with
  | [] => mret nodes
  | node :: l =>
      m1 ← ask; m2 ← ask;
      r ← lift (deref (mdv_hashmap_insert tn_id m1 m2 nodes (mk_tnode (cn_id node) idx0 node) 16));
      tracker_nodes_loop idx0 l r.2
  end.

Definition mdv_tracker_nodes : tm (option (mdv_hashmap mdv_topology_node)) :=
  t ← get;
  m1 ← ask; m2 ← ask;
  match mdv_hashmap_create m1 m2 (Z.to_nat (u32 (tr_max_id t + 1))) 0 4 with
  | None => mret None
  | Some nodes =>
      lock ← ask;
      if negb lock then mret (Some nodes) else
      nodes ← tracker_nodes_loop 0 (mdv_hashmap_foreach (tr_nodes t)) nodes;
      mret (Some nodes)
  end.

Definition mdv_topology_extra_size (nodes : mdv_hashmap mdv_topology_node) : nat :=
  foldl (fun size n => size + (length (cn_addr (tn_node n)) + 1)) 0 (mdv_hashmap_foreach nodes).

(** The nodes get their positions, in the order of the map. *)
Fixpoint number_nodes (l : list mdv_topology_node) (n : nat) (nodes : mdv_hashmap mdv_topology_node) : mdv_hashmap mdv_topology_node :=
  match l with
  | [] => nodes
  | x :: l => number_nodes l (S n) (write_item tn_id nodes (mk_tnode (tn_id x) (Z.of_nat n) (tn_node x)))
  end.

Definition toponode_of (x : mdv_topology_node) : mdv_toponode := mk_node (cn_uuid (tn_node x)) (tn_id x) (cn_addr (tn_node x)).

(** The ends of a link: a number without a node is dereferenced. *)
Definition topolink_of (nodes : mdv_hashmap mdv_topology_node) (link : mdv_tracker_link) : outcome mdv_topolink :=
  n0 ← deref (mdv_hashmap_find tn_id nodes (tl_id link).1);
  n1 ← deref (mdv_hashmap_find tn_id nodes (tl_id link).2);
  n0 ← deref n0;
  n1 ← deref n1;
  Done (mk_link (tn_idx n0) (tn_idx n1) (tl_weight link)).

(** The vectors have room for what is put into them. *)
Definition mdv_tracker_topology : tm (option mdv_topology) :=
  nodes ← mdv_tracker_nodes;
  match nodes with
  | None => mret None
  | Some nodes =>
      links ← mdv_tracker_links;
      match links with
      | None => mret None
      | Some links =>
          m1 ← (if hm_size nodes =? 0 then mret true else ask);
          m2 ← (if length links =? 0 then mret true else ask);
          m3 ← (if mdv_topology_extra_size nodes =? 0 then mret true else ask);
          if negb m1 || negb m2 || negb m3 then mret None else
          let l := mdv_hashmap_foreach nodes in
          let nodes := number_nodes l 0 nodes in
          let toponodes := toponode_of <$> l in
          let extradata := concat ((fun x => cn_addr (tn_node x) ++ [0%Z]) <$> l) in
          topolinks ← lift (mapO (topolink_of nodes) links);
          c1 ← ask; c2 ← ask; c3 ← ask; c4 ← asks (2 * length toponodes);
          lift (mdv_topology_create qsort c1 c2 c3 (pairs c4) toponodes topolinks extradata)
      end
  end.

(** ** Events *)

(** An event is created and published; the result is the error. *)
Definition publish (no_mem failed : mdv_errno) (e : tracker_event) : tm mdv_errno :=
  m ← ask;
  if negb m then mret no_mem else
  ok ← ask;
  if (ok : bool) then t ← get; put (add_event t e);; mret MDV_OK else mret failed.

Definition mdv_tracker_topology_changed : tm (option mdv_topology) :=
  topology ← mdv_tracker_topology;
  match topology with
  | None => mret None
  | Some t => publish MDV_FAILED MDV_FAILED (Evt_topology t);; mret (Some t)
  end.

Definition mdv_topology_peers_of (t : mdv_topology) (node : mdv_uuid) : tm (option hashset) :=
  m1 ← ask; m2 ← ask; f ← asks (2 * length (t_links t)); lift (mdv_topology_peers m1 m2 (pairs f) t node).

Definition mdv_tracker_linkstate_broadcast (topology : mdv_topology) (src dst : mdv_uuid) (connected : bool) : tm mdv_errno :=
  t ← get;
  peers ← mdv_topology_peers_of topology (tr_uuid t);
  match peers with
  | None => mret MDV_FAILED
  | Some peers =>
      obj ← write (mdv_binn_p2p_linkstate (mk_linkstate src dst connected));
      match obj with
      | None => mret MDV_FAILED
      | Some obj => publish MDV_NO_MEM MDV_FAILED (Evt_broadcast_post mdv_msg_p2p_linkstate_id (binn_bytes obj) peers peers)
      end
  end.

(** [link_state]: who tells, the two nodes and whether they are connected. *)
Record mdv_evt_link_state := mk_link_state {
  lk_from : mdv_uuid; lk_src : mdv_uuid; lk_src_addr : bytes; lk_dst : mdv_uuid; lk_dst_addr : bytes; lk_connected : bool
}.

Definition same (a b : mdv_uuid) : bool := (mdv_uuid_cmp a b =? 0)%Z.

Definition mdv_tracker_evt_link_state (e : mdv_evt_link_state) : tm mdv_errno :=
  err ← mdv_tracker_register (lk_src e) (lk_src_addr e);
  if decide (err <> MDV_OK) then mret err else
  err ← mdv_tracker_register (lk_dst e) (lk_dst_addr e);
  if decide (err <> MDV_OK) then mret err else
  err ← mdv_tracker_linkstate_add (lk_src e) (lk_dst e) (lk_connected e) 1;
  if decide (err <> MDV_OK) then mret err else
  topology ← mdv_tracker_topology_changed;
  match topology with
  | None => mret MDV_FAILED
  | Some topology =>
      t ← get;
      if same (tr_uuid t) (lk_from e) && same (tr_uuid t) (lk_src e) then
        if lk_connected e then publish MDV_FAILED MDV_FAILED (Evt_topology_sync (tr_uuid t) (lk_dst e) topology)
        else mdv_tracker_linkstate_broadcast topology (lk_src e) (lk_dst e) (lk_connected e)
      else mret MDV_OK
  end.

(** The error and the new value of the field [connected]. *)
Definition mdv_tracker_evt_link_check (src dst : mdv_uuid) (connected : bool) : tm (mdv_errno * bool) :=
  mdv_tracker_linkstate_get src dst connected.

(** The receivers: the neighbours but the other node, or the other node. *)
Fixpoint insert_all (l : list mdv_uuid) (skip : option mdv_uuid) (dst : hashset) : tm (option hashset) :=
  match l with
  | [] => mret (Some dst)
  | u :: l =>
      if (match skip with Some s => same u s | None => false end) then insert_all l skip dst else
      m1 ← ask; m2 ← ask;
      r ← lift (deref (mdv_hashmap_insert id m1 m2 dst u 16));
      match r.1 with
      | None => mret None
      | Some _ => insert_all l skip r.2
      end
  end.

Definition mdv_tracker_topology_broadcast (segment_gw : mdv_uuid) (current_segment : bool) (diff : mdv_topology) (peers : hashset) : tm mdv_errno :=
  m1 ← ask; m2 ← ask;
  match mdv_hashmap_create m1 m2 1 0 16 with
  | None => mret MDV_NO_MEM
  | Some dst =>
      dst ← (if current_segment then insert_all (mdv_hashmap_foreach peers) (Some segment_gw) dst else insert_all [segment_gw] None dst);
      match dst with
      | None => mret MDV_NO_MEM
      | Some dst =>
          obj ← write (mdv_binn_p2p_topodiff diff);
          match obj with
          | None => mret MDV_FAILED
          | Some obj => publish MDV_NO_MEM MDV_FAILED (Evt_broadcast_post mdv_msg_p2p_topodiff_id (binn_bytes obj) peers dst)
          end
      end
  end.

(** The static empty topology is the one without a counter of references. *)
Definition is_empty_topology (t : mdv_topology) : bool := (t_rc t =? 0)%Z.

(** The answers for [mdv_topology_diff]. *)
Definition diff_mem_of (f : nat -> bool) (k : nat) : diff_mem :=
  mk_diff_mem (f 0) (f 1) (f 2) (fun i => pairs f (8 + i)) (f 3) (f 4) (f 5) (f 6) (f 7) (f 8) (f 9) (f 10) (f 11) (f 12)
    (fun i => pairs f (8 + k + i)).

(** Both differences are computed and sent in the same way; an empty one is not. *)
Definition send_diff (from : mdv_uuid) (current : bool) (a : mdv_topology) (na : mdv_uuid) (b : mdv_topology) (nb : mdv_uuid) (peers : hashset) : tm mdv_errno :=
  let k := length (t_links a) + length (t_links b) + length (t_nodes a) + 2 in
  f ← asks (16 + 4 * k);
  d ← lift (mdv_topology_diff qsort (diff_mem_of f k) a na b nb);
  match d.1 with
  | None => mret MDV_OK
  | Some diff => if is_empty_topology diff then mret MDV_OK else mdv_tracker_topology_broadcast from current diff peers
  end.

Definition mdv_tracker_evt_topology_sync (from to : mdv_uuid) (other : mdv_topology) : tm mdv_errno :=
  t ← get;
  if negb (same (tr_uuid t) to) then mret MDV_OK else
  topology ← mdv_tracker_topology;
  match topology with
  | None => mret MDV_FAILED
  | Some topology =>
      peers ← mdv_topology_peers_of topology (tr_uuid t);
      match peers with
      | None => mret MDV_FAILED
      | Some peers =>
          m1 ← ask; m2 ← ask;
          r ← lift (deref (mdv_hashmap_insert id m1 m2 peers (tr_uuid t) 16));
          match r.1 with
          | None => mret MDV_FAILED
          | Some _ =>
              err1 ← send_diff from true other from topology to r.2;
              err2 ← send_diff from false topology to other from r.2;
              mret (if decide (err2 <> MDV_OK) then err2 else err1)
          end
      end
  end.

(** What the tracker takes from a broadcast: whether its topology changed. *)
Definition apply_broadcast (msg_id : Z) (data : bytes) : tm bool :=
  match binn_load data with
  | None => mret false
  | Some obj =>
      if (msg_id =? mdv_msg_p2p_topodiff_id)%Z then
        f ← asks 16;
        diff ← lift (mdv_unbinn_p2p_topodiff qsort f obj);
        match diff with
        | None => mret false
        | Some diff => err ← mdv_tracker_topodiff_add diff; mret (bool_decide (err = MDV_OK))
        end
      else if (msg_id =? mdv_msg_p2p_linkstate_id)%Z then
        match mdv_unbinn_p2p_linkstate obj with
        | None => mret false
        | Some l => err ← mdv_tracker_linkstate_add (ls_src l) (ls_dst l) (ls_connected l) 1; mret (bool_decide (err = MDV_OK))
        end
      else mret false
  end.

Fixpoint erase_all (l : list mdv_uuid) (peers : hashset) : outcome hashset :=
  match l with
  | [] => Done peers
  | u :: l => r ← deref (mdv_hashmap_erase id peers u); erase_all l r.2
  end.

(** The error and the set of notified nodes of the event, which grows. *)
Fixpoint notify_all (l : list mdv_uuid) (notified : hashset) : tm (mdv_errno * hashset) :=
  match l with
  | [] => mret (MDV_OK, notified)
  | u :: l =>
      m1 ← ask; m2 ← ask;
      r ← lift (deref (mdv_hashmap_insert id m1 m2 notified u 16));
      match r.1 with
      | None => mret (MDV_NO_MEM, r.2)
      | Some _ => notify_all l r.2
      end
  end.

(** The message goes on to the neighbours that were not notified. *)
Definition forward_broadcast (topology : mdv_topology) (msg_id : Z) (data : bytes) (notified : hashset) : tm (mdv_errno * hashset) :=
  t ← get;
  peers ← mdv_topology_peers_of topology (tr_uuid t);
  match peers with
  | None => mret (MDV_FAILED, notified)
  | Some peers =>
      peers ← lift (erase_all (mdv_hashmap_foreach notified) peers);
      if hm_size peers =? 0 then mret (MDV_OK, notified) else
      r ← notify_all (mdv_hashmap_foreach peers) notified;
      if decide (r.1 = MDV_OK) then
        err ← publish MDV_NO_MEM MDV_FAILED (Evt_broadcast_post msg_id data r.2 peers);
        mret (err, r.2)
      else mret r
  end.

Definition mdv_tracker_evt_broadcast (msg_id : Z) (data : bytes) (notified : hashset) : tm (mdv_errno * hashset) :=
  changed ← apply_broadcast msg_id data;
  topology ← (if (changed : bool) then mdv_tracker_topology_changed else mdv_tracker_topology);
  match topology with
  | None => mret (MDV_FAILED, notified)
  | Some topology => forward_broadcast topology msg_id data notified
  end.

(** ** Creation *)

Inductive tr_release_fn := Fn_tr_rollbacker_free | Fn_tr_free | Fn_tr_storage_release | Fn_tr_ebus_release | Fn_tr_hashmap_release | Fn_tr_mutex_free.
Inductive tr_resource := Res_tr_rollbacker | Res_tracker | Res_tr_storage | Res_tr_ebus | Res_tr_nodes | Res_nodes_mutex | Res_tr_ids | Res_tr_links | Res_links_mutex.

Definition tr_push (r : option (mdv_rollbacker tr_release_fn tr_resource)) (f : tr_release_fn) (x : tr_resource) :=
  snd (mdv_rollbacker_push r (mk_op f [x])).

Definition tr_call (s : mdv_lmdb) (c : tr_release_fn * list tr_resource) : mdv_lmdb :=
  match c with (Fn_tr_storage_release, [Res_tr_storage]) => fst (mdv_storage_release true s) | _ => s end.

(** [mem]: the answers; the first ones are those for the rollbacker, the tracker,
    the maps and the mutexes.  The tracker or the calls of the rollback, and the
    storage. *)
Definition mdv_tracker_create (fuel : nat) (mem : nat -> bool) (uuid : mdv_uuid) (storage : mdv_lmdb) (listen : bytes)
  : outcome (option mdv_tracker * list (tr_release_fn * list tr_resource) * mdv_lmdb) :=
  let rbr := mdv_rollbacker_create (mem 0) Fn_tr_rollbacker_free Res_tr_rollbacker 8 in
  let fail rbr s := Done (None, mdv_rollback rbr, foldl tr_call s (mdv_rollback rbr)) in
  if negb (mem 1) then fail rbr storage else
  let rbr := tr_push rbr Fn_tr_free Res_tracker in
  let s := mdv_storage_retain true storage in
  let rbr := tr_push rbr Fn_tr_storage_release Res_tr_storage in
  let rbr := tr_push rbr Fn_tr_ebus_release Res_tr_ebus in
  match mdv_hashmap_create (mem 2) (mem 3) 256 0 16 with
  | None => fail rbr s
  | Some nodes =>
      let rbr := tr_push rbr Fn_tr_hashmap_release Res_tr_nodes in
      if negb (mem 4) then fail rbr s else
      let rbr := tr_push rbr Fn_tr_mutex_free Res_nodes_mutex in
      match mdv_hashmap_create (mem 5) (mem 6) 256 0 4 with
      | None => fail rbr s
      | Some ids =>
          let rbr := tr_push rbr Fn_tr_hashmap_release Res_tr_ids in
          match mdv_hashmap_create (mem 7) (mem 8) 256 0 8 with
          | None => fail rbr s
          | Some links =>
              let rbr := tr_push rbr Fn_tr_hashmap_release Res_tr_links in
              if negb (mem 9) then fail rbr s else
              let rbr := tr_push rbr Fn_tr_mutex_free Res_links_mutex in
              r ← mdv_tracker_load fuel listen mem 10 (mk_tracker 1 uuid 0 s nodes ids links []);
              let '(err, n, t) := r in
              if decide (err <> MDV_OK) then fail rbr (tr_storage t) else
              if negb (mem n) then fail rbr (tr_storage t) else Done (Some t, [], tr_storage t)
          end
      end
  end.

Definition mdv_tracker_retain (t : mdv_tracker) : mdv_tracker :=
  mk_tracker (rc_retain (tr_rc t)) (tr_uuid t) (tr_max_id t) (tr_storage t) (tr_nodes t) (tr_ids t) (tr_links t) (tr_events t).

(** With the last reference everything is released, the storage too. *)
Definition mdv_tracker_release (t : option mdv_tracker) : option mdv_tracker * option mdv_lmdb :=
  match t with
  | None => (None, None)
  | Some t =>
      let '(rc, _, freed) := rc_release (tr_rc t) in
      if freed : bool then (None, Some (fst (mdv_storage_release true (tr_storage t))))
      else (Some (mk_tracker rc (tr_uuid t) (tr_max_id t) (tr_storage t) (tr_nodes t) (tr_ids t) (tr_links t) (tr_events t)), None)
  end.

End Tracker.

Abbreviation tm := (action mdv_tracker).

Ltac tr_simpl := cbn [tr_rc tr_uuid tr_max_id tr_storage tr_nodes tr_ids tr_links tr_events set_max_id set_storage set_nodes set_ids set_links add_event].
Ltac wp_lift E := eapply wp_lift; [tr_simpl; rewrite E; reflexivity|]; cbn beta; cbn [fst snd].

(** ** The state of the tracker *)

Section Correct.
Context `{Mdb, !MdbCursor, !MdbLaws, !MdbCursorLaws, BinnLaws}.
Context (n : Z) (Hn : (1 <= n < 2 ^ 32 - 4)%Z) (mem : nat -> bool).

Definition node_at (t : mdv_tracker) (u : mdv_uuid) : option mdv_node := Hashmap.lookup cn_uuid (tr_nodes t) u.

(** A node with the local number [id] is known. *)
Definition known (t : mdv_tracker) (id : Z) : Prop := exists u x, node_at t u = Some x /\ cn_id x = id.

(** The maps are well formed, local numbers are unique and not above the largest,
    this node has the number 0, and links end at known nodes. *)
Record tracker_ok (t : mdv_tracker) : Prop := {
  k_live : Session.live n (tr_storage t);
  k_nodes : ready cn_uuid (tr_nodes t) 16;
  k_ids : ready nid_id (tr_ids t) 16;
  k_links : ready tl_id (tr_links t) 12;
  k_self : exists x, node_at t (tr_uuid t) = Some x /\ cn_id x = MDV_LOCAL_ID;
  k_range : forall u x, node_at t u = Some x -> (0 <= cn_id x <= tr_max_id t)%Z;
  k_max : (0 <= tr_max_id t < 2 ^ 32 - 1)%Z;
  k_inj : forall u v x y, node_at t u = Some x -> node_at t v = Some y -> cn_id x = cn_id y -> u = v;
  k_ends : forall l, l ∈ mdv_hashmap_foreach (tr_links t) -> known t (tl_id l).1 /\ known t (tl_id l).2
}.

Lemma node_at_uuid t u x : tracker_ok t -> node_at t u = Some x -> cn_uuid x = u.
Proof. intros Hok Hx. symmetry. apply uuid_keq. by eapply (lookup_elem cn_uuid (tr_nodes t)), Hx; apply Hok. Qed.

(** What an operation leaves of the nodes: those of before keep their numbers. *)
Definition keeps (t t' : mdv_tracker) : Prop := forall u x, node_at t u = Some x -> exists x', node_at t' u = Some x' /\ cn_id x' = cn_id x.

Lemma keeps_known t t' id : keeps t t' -> known t id -> known t' id.
Proof. intros Hk (u & x & Hx & <-). destruct (Hk u x Hx) as (x' & Hx' & E). by exists u, x'. Qed.

(** An insertion of a node. *)
Lemma insert_wp t node (Q : bool -> mdv_tracker -> Prop) :
  ready cn_uuid (tr_nodes t) 16 -> ready nid_id (tr_ids t) 16 ->
  (forall ok nodes' ids', ready cn_uuid nodes' 16 -> ready nid_id ids' 16 -> (granted mem -> ok = true) ->
     (forall v, v <> cn_uuid node -> Hashmap.lookup cn_uuid nodes' v = node_at t v) ->
     (if ok then Hashmap.lookup cn_uuid nodes' (cn_uuid node) = Some node
      else Hashmap.lookup cn_uuid nodes' (cn_uuid node) = None \/ Hashmap.lookup cn_uuid nodes' (cn_uuid node) = node_at t (cn_uuid node)) ->
     Q ok (set_ids (set_nodes t nodes') ids')) ->
  wp mem (mdv_tracker_insert node) t Q.
Proof.
  intros Hr Hi HQ. unfold mdv_tracker_insert. wp_steps.
  assert (Hr' : ready cn_uuid (tr_nodes t) (mdv_node_size node)) by (destruct Hr as (? & ? & ?); unfold mdv_node_size; split_and!; [done|done|lia]).
  destruct (insert_any cn_uuid (tr_nodes t) node _ b b0 Hr') as (r & nodes' & E & _ & Hcase & Hg & Hother & Hin & Hout & Hready). wp_lift E. wp_steps.
  assert (Hother' : forall v, v <> cn_uuid node -> Hashmap.lookup cn_uuid nodes' v = node_at t v) by (intros v Hv; apply Hother; intros Ev%uuid_keq; by destruct Hv).
  destruct Hcase as [-> | ->]; wp_steps.
  2: { replace (set_nodes t nodes') with (set_ids (set_nodes t nodes') (tr_ids t)) by by destruct t. apply HQ; try done; [by apply Hready| |].
       - intros Hgr. specialize (Hg (Hb Hgr) (Hb0 Hgr)). done.
       - apply Hout; [done|]. by apply uuid_keq. }
  destruct (insert_any nid_id (tr_ids t) (mk_node_id (cn_id node) (cn_uuid node)) 16 b1 b2 Hi) as (r & ids' & E' & _ & Hcase & Hg' & _ & _ & _ & Hready').
  wp_lift E'. wp_steps. destruct Hcase as [-> | ->]; wp_steps.
  - apply HQ; try done; [by apply Hready|by apply Hready'|]. apply Hin; [done|]. by apply uuid_keq.
  - destruct (erase_ready cn_uuid nodes' (cn_uuid node) 16 (Hready _ Hr)) as (e & nodes2 & Ee & Hready2 & Hl2). wp_lift Ee. wp_steps.
    apply (HQ false nodes2 ids'); try done; [by apply Hready'| | |].
    + intros Hgr. specialize (Hg' (Hb1 Hgr) (Hb2 Hgr)). done.
    + intros v Hv. rewrite Hl2. destruct (Z.eqb_spec (key_cmp_fn (cn_uuid node) v) 0) as [Ev%uuid_keq|]; [by destruct Hv|]. by apply Hother'.
    + left. rewrite Hl2, (proj2 (Z.eqb_eq _ 0)); [done|]. by apply (uuid_keq (cn_uuid node)).
Qed.


(** A change of one node that keeps its number, or a new node with a new one. *)
Lemma ok_update t t' u :
  tracker_ok t -> tr_uuid t' = tr_uuid t -> Session.live n (tr_storage t') -> ready cn_uuid (tr_nodes t') 16 -> ready nid_id (tr_ids t') 16 ->
  tr_links t' = tr_links t -> (tr_max_id t <= tr_max_id t' < 2 ^ 32 - 1)%Z -> (forall v, v <> u -> node_at t' v = node_at t v) ->
  match node_at t' u, node_at t u with
  | Some x, Some y => cn_id x = cn_id y
  | Some x, None => (tr_max_id t < cn_id x <= tr_max_id t')%Z
  | None, y => y = None
  end ->
  tracker_ok t' /\ keeps t t'.
Proof.
  intros Hok Hu Hl Hnd Hid Hlk Hm Hother Hat. assert (Hkeep : keeps t t').
  { intros v x Hx. destruct (decide (v = u)) as [->|Hne]; [|exists x; by rewrite Hother]. rewrite Hx in Hat. destruct (node_at t' u) as [x'|]; [|done]. by exists x'. }
  assert (Hback : forall v x, node_at t' v = Some x -> (exists y, node_at t v = Some y /\ cn_id y = cn_id x) \/ v = u /\ (tr_max_id t < cn_id x <= tr_max_id t')%Z).
  { intros v x Hx. destruct (decide (v = u)) as [->|Hne]; [|left; exists x; by rewrite <- Hother]. rewrite Hx in Hat.
    destruct (node_at t u) as [y|]; [left; by exists y|by right]. }
  pose proof (k_max _ Hok) as Hmax. split; [|done]. split; try done.
  - by rewrite Hlk; apply Hok.
  - rewrite Hu. destruct (k_self _ Hok) as (x & Hx & <-). apply (Hkeep _ _ Hx).
  - intros v x Hx. destruct (Hback v x Hx) as [(y & Hy & <-)|[_ ?]]; [|lia]. pose proof (k_range _ Hok v y Hy). lia.
  - lia.
  - intros v w x y Hx Hy E. destruct (Hback v x Hx) as [(x0 & Hx0 & Ex)|[-> Hx0]], (Hback w y Hy) as [(y0 & Hy0 & Ey)|[-> Hy0]].
    + apply (k_inj _ Hok v w x0 y0 Hx0 Hy0). congruence.
    + pose proof (k_range _ Hok v x0 Hx0). lia.
    + pose proof (k_range _ Hok w y0 Hy0). lia.
    + done.
  - rewrite Hlk. intros l Hin. destruct (k_ends _ Hok l Hin). split; by eapply keeps_known.
Qed.

Lemma store_wp t node (Q : mdv_errno -> mdv_tracker -> Prop) :
  Session.live n (tr_storage t) ->
  (forall err s', Session.live n s' -> (granted mem -> MdbReliable -> MdbRoom -> err = MDV_OK) -> Q err (set_storage t s')) -> wp mem (store_node node) t Q.
Proof.
  intros Hl HQ. unfold store_node. wp_steps. destruct (store_total n Hn f (tr_storage t) node Hl) as (s' & err & E & Hl' & Hrel).
  wp_lift E. wp_steps. apply HQ; [done|]. intros Hg Hr Hroom. apply (Hrel Hr Hroom). by apply Hf.
Qed.

(** The address of the node, if it is known, is the given one. *)
Definition stable (t : mdv_tracker) (u : mdv_uuid) (addr : bytes) : Prop := forall x, node_at t u = Some x -> cn_addr x = addr.

Lemma register_wp t u addr (Q : mdv_errno -> mdv_tracker -> Prop) :
  tracker_ok t -> (tr_max_id t + 1 < 2 ^ 32 - 1)%Z -> stable t u addr \/ granted mem ->
  (forall err t', tracker_ok t' -> keeps t t' -> tr_uuid t' = tr_uuid t -> tr_links t' = tr_links t -> tr_events t' = tr_events t ->
     (tr_max_id t <= tr_max_id t' <= tr_max_id t + 1)%Z -> (forall v, v <> u -> node_at t' v = node_at t v) ->
     (err = MDV_OK -> exists x, node_at t' u = Some x /\ cn_addr x = addr) ->
     (granted mem -> MdbReliable -> MdbRoom -> length addr < MDV_ADDR_LEN_MAX -> err = MDV_OK) -> Q err t') ->
  wp mem (mdv_tracker_register u addr) t Q.
Proof.
  intros Hok Hmax Hst HQ. unfold mdv_tracker_register. wp_steps. destruct b; cbn [negb].
  2: { wp_steps. apply HQ; try done; [by intros v x Hx; exists x|lia|]. intros Hg. by specialize (Hb Hg). }
  wp_steps. pose proof (find_lookup cn_uuid (tr_nodes t) u (proj1 (k_nodes _ Hok))) as Ef.
  assert (Ef' : mdv_tracker_find t u = Done (node_at t u)) by (unfold mdv_tracker_find; by rewrite Ef). wp_lift Ef'.
  destruct (node_at t u) as [x|] eqn:Ex.
  - destruct (decide (addr = cn_addr x)) as [Ea|Ea].
    { wp_steps. apply HQ; try done; [by intros v y Hy; exists y|lia|]. intros _. by exists x. }
    destruct Hst as [Hst|Hg]; [by destruct Ea; symmetry; apply Hst|].
    unfold mdv_node_init. destruct (Nat.leb_spec MDV_ADDR_LEN_MAX (length addr)) as [Hlen|Hlen].
    { wp_steps. apply HQ; try done; [by intros v y Hy; exists y|lia|]. lia. }
    wp_steps. apply store_wp; [apply Hok|]. intros err s' Hl' _. wp_steps. apply insert_wp; [apply Hok|apply Hok|].
    intros ok nodes' ids' Hn' Hi' Hgr Hother Hin. rewrite (Hgr Hg) in *. cbn [cn_uuid] in *. wp_steps.
    destruct (ok_update t (set_ids (set_nodes (set_storage t s') nodes') ids') u) as [Hok' Hk']; try done; [tr_simpl; pose proof (k_max _ Hok); lia| |].
    { unfold node_at in *. tr_simpl. rewrite Hin, Ex. done. }
    apply HQ; try done; [tr_simpl; lia|]. intros _. eexists. split; [exact Hin|done].
  - wp_steps. assert (Ew : u32 (tr_max_id t + 1) = (tr_max_id t + 1)%Z) by (apply wrap_id; pose proof (k_max _ Hok); unfold fits; lia).
    unfold mdv_tracker_new_id. wp_steps. rewrite Ew. unfold mdv_node_init.
    assert (Hok1 : forall s', Session.live n s' -> tracker_ok (set_storage (set_max_id t (tr_max_id t + 1)) s') /\ keeps t (set_storage (set_max_id t (tr_max_id t + 1)) s')).
    { intros s' Hl'. apply (ok_update t _ u); try done; try apply Hok; [tr_simpl; lia|]. unfold node_at in *. tr_simpl. by rewrite Ex. }
    destruct (Nat.leb_spec MDV_ADDR_LEN_MAX (length addr)) as [Hlen|Hlen].
    { wp_steps. destruct (Hok1 (tr_storage t) (k_live _ Hok)) as [Hok' Hk']. apply HQ; try done; [tr_simpl; lia|lia]. }
    wp_steps. apply store_wp; [apply Hok|]. intros err s' Hl' Hrel. destruct (Hok1 s' Hl') as [Hok' Hk'].
    destruct (decide (err = MDV_OK)) as [->|Hne]; wp_steps.
    2: { apply HQ; try done; [tr_simpl; lia|]. intros Hg Hr Hroom _. by destruct (Hne (Hrel Hg Hr Hroom)). }
    apply insert_wp; [apply Hok|apply Hok|]. intros ok nodes' ids' Hn' Hi' Hgr Hother Hin. cbn [cn_uuid] in *. wp_steps.
    destruct (ok_update t (set_ids (set_nodes (set_storage (set_max_id t (tr_max_id t + 1)) s') nodes') ids') u) as [Hok2 Hk2]; try done; [tr_simpl; lia| |].
    { unfold node_at in *. tr_simpl. rewrite Ex. destruct ok; [rewrite Hin; cbn; lia|]. destruct Hin as [E1|E1]; [by rewrite E1|]. by rewrite (eq_trans E1 Ex). }
    apply HQ; try done; [tr_simpl; lia| |].
    + destruct ok; [|done]. intros _. eexists. split; [exact Hin|done].
    + intros Hg _ _ _. by rewrite (Hgr Hg).
Qed.


(** ** Links *)

Definition link_at (t : mdv_tracker) (id : Z * Z) : option mdv_tracker_link := Hashmap.lookup tl_id (tr_links t) id.

Lemma identifier_ok t u : tracker_ok t -> node_identifier t u = Done (cn_id <$> node_at t u).
Proof.
  intros Hok. unfold node_identifier. destruct (Z.eqb_spec (mdv_uuid_cmp u (tr_uuid t)) 0) as [E|E].
  - apply mdv_uuid_cmp_eq in E as ->. destruct (k_self _ Hok) as (x & -> & Ex). cbn. by rewrite Ex.
  - unfold mdv_tracker_find. by rewrite (find_lookup cn_uuid (tr_nodes t) u (proj1 (k_nodes _ Hok))).
Qed.

Lemma identifiers_wp t u v (Q : option (Z * Z) -> mdv_tracker -> Prop) :
  tracker_ok t ->
  (forall r, match r with
             | Some ids => exists x y, node_at t u = Some x /\ node_at t v = Some y /\ ids = (cn_id x, cn_id y)
             | None => True
             end -> (granted mem -> forall x y, node_at t u = Some x -> node_at t v = Some y -> r = Some (cn_id x, cn_id y)) ->
     (r = None -> granted mem -> node_at t u = None \/ node_at t v = None) -> Q r t) ->
  wp mem (mdv_tracker_node_identifiers u v) t Q.
Proof.
  intros Hok HQ. unfold mdv_tracker_node_identifiers. wp_steps. destruct b; cbn [negb].
  2: { wp_steps. apply HQ; [done|..]; intros; by specialize (Hb ltac:(done)). }
  wp_steps. wp_lift (identifier_ok t u Hok). destruct (node_at t u) as [x|]; cbn [fmap option_fmap option_map].
  2: { wp_steps. apply HQ; try done. intros. by left. }
  wp_steps. wp_lift (identifier_ok t v Hok). destruct (node_at t v) as [y|]; cbn [fmap option_fmap option_map]; wp_steps; apply HQ; try done.
  - by exists x, y.
  - by intros _ x' y' [= <-] [= <-].
  - intros. by right.
Qed.

(** The links after a change of the link [id]. *)
Definition relinked (t t' : mdv_tracker) (id : Z * Z) (r : option mdv_tracker_link) : Prop :=
  forall a, link_at t' a = if decide (ordered id = ordered a) then r else link_at t a.

Lemma set_links_ok t links' :
  tracker_ok t -> ready tl_id links' 12 ->
  (forall l, Hashmap.lookup tl_id links' (tl_id l) = Some l -> link_at t (tl_id l) = Some l \/ known t (tl_id l).1 /\ known t (tl_id l).2) ->
  tracker_ok (set_links t links').
Proof.
  intros Hok Hr Hl. destruct Hok as [? ? ? Hlk ? ? ? ? Hends]. split; try done.
  intros l Hin. tr_simpl. apply (elem_of_foreach tl_id links' l (proj1 Hr)) in Hin. destruct (Hl l Hin) as [E|?]; [|done].
  apply Hends. by apply (elem_of_foreach tl_id (tr_links t) l (proj1 Hlk)).
Qed.

Lemma linkstate_add_wp t u v (connected : bool) (w : Z) (Q : mdv_errno -> mdv_tracker -> Prop) :
  tracker_ok t ->
  (forall err t', tracker_ok t' -> tr_nodes t' = tr_nodes t -> tr_uuid t' = tr_uuid t -> tr_events t' = tr_events t -> tr_max_id t' = tr_max_id t ->
     (err = MDV_OK -> exists x y, node_at t u = Some x /\ node_at t v = Some y
        /\ relinked t t' (cn_id x, cn_id y) (if connected then Some (mk_tlink (cn_id x, cn_id y) w) else None)) ->
     (granted mem -> is_Some (node_at t u) -> is_Some (node_at t v) -> err = MDV_OK) -> Q err t') ->
  wp mem (mdv_tracker_linkstate_add u v connected w) t Q.
Proof.
  intros Hok HQ. unfold mdv_tracker_linkstate_add. wp_step. apply identifiers_wp; [done|]. intros [id|] Hids Hg Hnone.
  2: { wp_steps. apply HQ; try done. intros Hgr [x Hx] [y Hy]. by destruct (Hnone eq_refl Hgr); simplify_eq. }
  destruct Hids as (x & y & Hx & Hy & ->). assert (Hkx : known t (cn_id x)) by by exists u, x. assert (Hky : known t (cn_id y)) by by exists v, y.
  unfold mdv_tracker_linkstate2. wp_steps. destruct b; cbn [negb]; wp_steps.
  2: { apply HQ; try done. intros Hgr _ _. by specialize (Hb Hgr). }
  pose proof (k_links _ Hok) as Hlk. destruct connected; wp_steps.
  - destruct (insert_any tl_id (tr_links t) (mk_tlink (cn_id x, cn_id y) w) 12 b b0 Hlk) as (r & links' & E & Hr' & Hcase & Hgr & Hother & Hin & Hout & _).
    wp_lift E. wp_steps. assert (Hok' : tracker_ok (set_links t links')).
    { apply set_links_ok; [done|done|]. intros l Hl. destruct (decide (ordered (cn_id x, cn_id y) = ordered (tl_id l))) as [Hk|Hk]; rewrite <- link_keq in Hk.
      - destruct Hcase as [-> | ->]; [|destruct (Hout eq_refl _ Hk) as [E0|E0]; rewrite E0 in Hl; [done|by left]].
        right. rewrite (Hin eq_refl _ Hk) in Hl. by injection Hl as <-.
      - left. by rewrite (Hother _ Hk) in Hl. }
    apply HQ; try done.
    + destruct Hcase as [-> | ->]; [|done]. intros _. exists x, y. split_and!; [done..|]. intros a. unfold link_at. tr_simpl.
      destruct (decide (ordered (cn_id x, cn_id y) = ordered a)) as [Ho|Ho]; [apply (Hin eq_refl); by apply link_keq|].
      apply Hother. intros Hk%link_keq. done.
    + intros Hg' _ _. by rewrite (Hgr (Hb0 Hg') (Hb1 Hg')).
  - destruct (erase_ready tl_id (tr_links t) (cn_id x, cn_id y) 12 Hlk) as (r & links' & E & Hr' & Hl'). cbn [tl_id]. wp_lift E. wp_steps.
    assert (Hok' : tracker_ok (set_links t links')).
    { apply set_links_ok; [done|done|]. intros l Hl. left. rewrite Hl' in Hl. by destruct (key_cmp_fn _ _ =? 0)%Z. }
    apply HQ; try done. intros _. exists x, y. split_and!; [done..|]. intros a. unfold link_at. tr_simpl. rewrite Hl'.
    destruct (Z.eqb_spec (key_cmp_fn (cn_id x, cn_id y) a) 0) as [Hk%link_keq|Hk]; [by rewrite decide_True|].
    rewrite decide_False; [done|]. intros Ho. by apply Hk, link_keq.
Qed.


(** ** The topology *)

Definition tnode_of (x : mdv_node) : mdv_topology_node := mk_tnode (cn_id x) 0 x.
Definition node_view (x : mdv_node) : mdv_toponode := mk_node (cn_uuid x) (cn_id x) (cn_addr x).

Lemma nodes_loop_wp t l : granted mem -> forall hm (Q : mdv_hashmap mdv_topology_node -> mdv_tracker -> Prop),
  ready tn_id hm 16 -> NoDup (cn_id <$> l) -> Forall (fun x => fits 32 (cn_id x)) l -> Forall (fun x => Hashmap.lookup tn_id hm (cn_id x) = None) l ->
  (forall hm', ready tn_id hm' 16 ->
     (forall y, y ∈ mdv_hashmap_foreach hm' <-> y ∈ mdv_hashmap_foreach hm \/ exists x, x ∈ l /\ y = tnode_of x) -> Q hm' t) ->
  wp mem (tracker_nodes_loop 0 l hm) t Q.
Proof.
  intros Hg. induction l as [|x l IH]; intros hm Q Hr Hnd Hfit Hnew HQ; cbn [tracker_nodes_loop]; wp_steps.
  { apply HQ; [done|]. intros y. split; [by left|]. intros [?|(x & Hx & _)]; [done|by apply elem_of_nil in Hx]. }
  rewrite (Hb Hg), (Hb0 Hg). destruct (insert_ready tn_id hm (tnode_of x) 16 Hr) as (hm1 & E & Hr1 & Hl1 & _). unfold tnode_of in E at 1. wp_lift E.
  apply NoDup_cons in Hnd as [Hx Hnd]. apply Forall_cons in Hfit as [Hfx Hfit]. apply Forall_cons in Hnew as [Hnx Hnew].
  apply IH; [done|done|done| |].
  - apply Forall_forall. intros y Hy. rewrite Hl1. destruct (Z.eqb_spec (key_cmp_fn (tn_id (tnode_of x)) (cn_id y)) 0) as [Hk%u32_keq|_].
    + destruct Hx. cbn in Hk. eapply Forall_forall in Hfit; [|exact Hy]. rewrite !wrap_id in Hk by done. rewrite Hk. by apply list_elem_of_fmap_2.
    + by eapply Forall_forall in Hnew.
  - intros hm' Hr' Hin. apply HQ; [done|]. intros y. rewrite Hin.
    assert (Hone : y ∈ mdv_hashmap_foreach hm1 <-> y ∈ mdv_hashmap_foreach hm \/ y = tnode_of x).
    { rewrite !(elem_of_foreach tn_id _ y) by (apply Hr || apply Hr1). rewrite Hl1.
      destruct (Z.eqb_spec (key_cmp_fn (tn_id (tnode_of x)) (tn_id y)) 0) as [Hk|Hk].
      - rewrite <- (lookup_keq tn_id hm (cn_id x) (tn_id y)) by (apply Hr || exact Hk). rewrite Hnx. split; [intros [= <-]; by right|]. by intros [? | ->].
      - split; [by left|]. intros [? | ->]; [done|]. destruct Hk. by apply u32_keq. }
    rewrite Hone. split.
    + intros [[?| ->]|(z & Hz & ->)]; [by left|right; exists x; split; [by left|done]|right; exists z; split; [by right|done]].
    + intros [?|(z & [-> | Hz]%elem_of_cons & ->)]; [by left; left|by left; right|right; by exists z].
Qed.

Lemma number_nodes_spec l : forall k hm,
  Hashmap.wf tn_id hm -> nodup_keys tn_id l -> Forall (fun x => Hashmap.lookup tn_id hm (tn_id x) <> None) l ->
  Hashmap.wf tn_id (number_nodes l k hm)
  /\ (forall i x, l !! i = Some x -> Hashmap.lookup tn_id (number_nodes l k hm) (tn_id x) = Some (mk_tnode (tn_id x) (Z.of_nat (k + i)) (tn_node x)))
  /\ (forall id, Forall (fun x => ~ keq (tn_id x) id) l -> Hashmap.lookup tn_id (number_nodes l k hm) id = Hashmap.lookup tn_id hm id).
Proof.
  induction l as [|x l IH]; intros k hm Hw Hnd Hin; [by split_and!|]. cbn [number_nodes]. destruct Hnd as [Hx Hnd]. apply Forall_cons in Hin as [Hix Hin].
  destruct (write_item_spec tn_id hm (mk_tnode (tn_id x) (Z.of_nat k) (tn_node x)) Hw Hix) as [Hw1 Hl1]. cbn [tn_id] in Hl1.
  destruct (IH (S k) (write_item tn_id hm (mk_tnode (tn_id x) (Z.of_nat k) (tn_node x))) Hw1 Hnd) as (Hw2 & Hat & Hother).
  { eapply Forall_impl; [exact Hin|]. intros y Hy. cbn. rewrite Hl1. by destruct (key_cmp_fn (tn_id x) (tn_id y) =? 0)%Z. }
  split_and!; [done| |].
  - intros [|i] y Hy; cbn in Hy.
    + injection Hy as <-. rewrite Hother; [rewrite Hl1, (proj2 (Z.eqb_eq _ 0)); [by rewrite Nat.add_0_r|by apply u32_keq]|].
      eapply Forall_impl; [exact Hx|]. intros y Hy Hk. apply Hy. by symmetry.
    + rewrite (Hat i y Hy). by rewrite Nat.add_succ_r.
  - intros id [Hne Hl]%Forall_cons. rewrite (Hother id Hl), Hl1. destruct (Z.eqb_spec (key_cmp_fn (tn_id x) id) 0); done.
Qed.

(** The map of the numbered nodes. *)
Lemma tracker_nodes_wp t (Q : option (mdv_hashmap mdv_topology_node) -> mdv_tracker -> Prop) :
  tracker_ok t -> granted mem ->
  (forall hm, ready tn_id hm 16 -> mdv_hashmap_foreach hm ≡ₚ tnode_of <$> mdv_hashmap_foreach (tr_nodes t) -> Q (Some hm) t) ->
  wp mem mdv_tracker_nodes t Q.
Proof.
  intros Hok Hg HQ. unfold mdv_tracker_nodes. wp_steps. rewrite (Hb Hg), (Hb0 Hg). pose proof (k_max _ Hok) as Hmax.
  rewrite (wrap_id 32 (tr_max_id t + 1)) by (unfold fits; lia).
  destruct (ready_create tn_id (Z.to_nat (tr_max_id t + 1)) 0 4 16) as (hm & -> & Hr & Hl & _); [lia|lia|]. wp_steps. rewrite (Hb1 Hg). cbn [negb]. wp_steps.
  pose proof (proj1 (k_nodes _ Hok)) as Hw.
  assert (Hat : forall x, x ∈ mdv_hashmap_foreach (tr_nodes t) -> node_at t (cn_uuid x) = Some x) by (intros x Hx; by apply (elem_of_foreach cn_uuid)).
  assert (Hnd : NoDup (mdv_hashmap_foreach (tr_nodes t))) by (eapply NoDup_fmap_1, (foreach_keys_nodup cn_uuid); done).
  apply nodes_loop_wp; [done|done| | | |].
  - apply NoDup_fmap_2_strong; [|done]. intros x y Hx%Hat Hy%Hat E. pose proof (k_inj _ Hok _ _ _ _ Hx Hy E) as Eu. rewrite Eu in Hx. congruence.
  - apply Forall_forall. intros x Hx%Hat. pose proof (k_range _ Hok _ _ Hx). unfold fits. lia.
  - apply Forall_forall. intros x _. apply Hl.
  - intros hm' Hr' Hin. wp_steps. apply HQ; [done|]. apply NoDup_Permutation.
    + eapply NoDup_fmap_1, (foreach_keys_nodup tn_id), Hr'.
    + apply NoDup_fmap_2; [|done]. intros x y E. exact (f_equal tn_node E).
    + intros y. rewrite Hin, list_elem_of_fmap. split; [|by right; naive_solver].
      intros [Hy|(x & Hx & ->)]; [|by exists x]. apply (elem_of_foreach tn_id hm y (proj1 Hr)) in Hy. by rewrite Hl in Hy.
Qed.


Context (qsort : list mdv_toponode -> list mdv_toponode) (Hsort : forall l, qsort l ≡ₚ l).

(** The topology has the known nodes and, in the order of the map, the links. *)
Definition describes (t : mdv_tracker) (topo : mdv_topology) : Prop :=
  t_nodes topo ≡ₚ node_view <$> mdv_hashmap_foreach (tr_nodes t)
  /\ Forall2 (fun tl l => exists u v x y, node_at t u = Some x /\ node_at t v = Some y /\ tl_id l = (cn_id x, cn_id y)
        /\ resolve (t_nodes topo) tl = Some (node_view x, node_view y, tl_weight l)) (t_links topo) (mdv_hashmap_foreach (tr_links t)).

Lemma idxs_loop_ext (m m' : nat -> bool * bool) nodes : (forall i, m i = m' i) -> forall k hm, node_idxs_loop m k nodes hm = node_idxs_loop m' k nodes hm.
Proof.
  intros Hm. induction nodes as [|x nodes IH]; intros k hm; [done|]. cbn [node_idxs_loop]. rewrite Hm.
  destruct (deref _) as [[r hm']| |]; [|done..]. apply IH.
Qed.

Lemma create_ext (m : nat -> bool * bool) nodes links extra : (forall i, m i = (true, true)) ->
  mdv_topology_create qsort true true true m nodes links extra = mdv_topology_create qsort true true true all_ok nodes links extra.
Proof.
  intros Hm. unfold mdv_topology_create. destruct (mdv_hashmap_create _ _ _ _ _); [|done]. cbn [negb]. destruct (mapO _ links); [|done..].
  cbn [mbind outcome_bind]. by rewrite (idxs_loop_ext m all_ok).
Qed.

(** The place of a node in the list of the numbered nodes. *)
Lemma numbered t hm u x :
  tracker_ok t -> ready tn_id hm 16 -> mdv_hashmap_foreach hm ≡ₚ tnode_of <$> mdv_hashmap_foreach (tr_nodes t) -> node_at t u = Some x ->
  exists i, (toponode_of <$> mdv_hashmap_foreach hm) !! i = Some (node_view x)
    /\ mdv_hashmap_find tn_id (number_nodes (mdv_hashmap_foreach hm) 0 hm) (cn_id x) = Some (Some (mk_tnode (cn_id x) (Z.of_nat i) x)).
Proof.
  intros Hok Hr Hperm Hx. pose proof (node_at_uuid t u x Hok Hx) as Eu. subst u.
  assert (Hin : tnode_of x ∈ mdv_hashmap_foreach hm).
  { rewrite Hperm. apply list_elem_of_fmap_2. apply (elem_of_foreach cn_uuid); [apply Hok|done]. }
  apply list_elem_of_lookup in Hin as [i Hi]. exists i. split; [by rewrite list_lookup_fmap, Hi|].
  destruct (number_nodes_spec (mdv_hashmap_foreach hm) 0 hm (proj1 Hr)) as (Hw & Hat & _).
  - exact (foreach_nodup tn_id hm (proj1 Hr)).
  - apply Forall_forall. intros y Hy. by rewrite (lookup_in tn_id hm y (proj1 Hr) Hy).
  - rewrite (find_lookup tn_id _ _ Hw). f_equal. apply (Hat i _ Hi).
Qed.

Lemma topology_wp t (Q : option mdv_topology -> mdv_tracker -> Prop) :
  tracker_ok t -> granted mem -> (forall topo, describes t topo -> topo_ok topo -> t_rc topo = 1%Z -> Q (Some topo) t) -> wp mem (mdv_tracker_topology qsort) t Q.
Proof.
  intros Hok Hg HQ. unfold mdv_tracker_topology. wp_step. apply tracker_nodes_wp; [done|done|]. intros hm Hr Hperm. wp_step.
  assert (Hlinks : forall Q', Q' (Some (mdv_hashmap_foreach (tr_links t))) t -> wp mem mdv_tracker_links t Q').
  { intros Q' HQ'. unfold mdv_tracker_links. wp_steps. rewrite (Hb Hg). cbn [negb]. wp_steps.
    destruct (Nat.eqb_spec (hm_size (tr_links t)) 0) as [E|E]; wp_steps; [|by rewrite (Hb0 Hg)].
    rewrite (wf_size tl_id _ (proj1 (k_links _ Hok))) in E. by destruct (mdv_hashmap_foreach (tr_links t)). }
  apply Hlinks. assert (Hmaybe : forall (c : bool) (k : bool -> tm (option mdv_topology)), wp mem (k true) t Q -> wp mem (x ← (if c then mret true else ask); k x) t Q).
  { intros c k Hk. wp_step. destruct c; wp_steps; [done|]. by rewrite (Hb Hg). }
  do 3 apply Hmaybe. cbn [negb orb]. set (l := mdv_hashmap_foreach hm).
  destruct (mapO_spec (topolink_of (number_nodes l 0 hm))
    (fun lk tl => exists u v x y, node_at t u = Some x /\ node_at t v = Some y /\ tl_id lk = (cn_id x, cn_id y)
       /\ resolve (toponode_of <$> l) tl = Some (node_view x, node_view y, tl_weight lk)) (mdv_hashmap_foreach (tr_links t))) as (tls & Etls & Htls).
  { intros lk Hlk. destruct (k_ends _ Hok lk Hlk) as [(u & x & Hx & Ex) (v & y & Hy & Ey)].
    destruct (numbered t hm u x Hok Hr Hperm Hx) as (i & Hi & Fi). destruct (numbered t hm v y Hok Hr Hperm Hy) as (j & Hj & Fj).
    exists (mk_link (Z.of_nat i) (Z.of_nat j) (tl_weight lk)). unfold topolink_of. rewrite <- Ex, <- Ey. fold l in Fi, Fj. rewrite Fi, Fj. cbn [deref mbind outcome_bind tn_idx].
    split; [done|]. exists u, v, x, y. split_and!; [done..|by destruct (tl_id lk); cbn in *; subst|]. apply resolve_Some. cbn [node0 node1 weight].
    rewrite !lookupZ_nat. done. }
  wp_step. wp_lift Etls. wp_steps. rewrite (Hb Hg), (Hb0 Hg), (Hb1 Hg), create_ext by (intros i; unfold pairs; by rewrite !(Hf Hg)).
  assert (Hview : toponode_of <$> l ≡ₚ node_view <$> mdv_hashmap_foreach (tr_nodes t)) by (unfold l; rewrite Hperm, <- list_fmap_compose; done).
  assert (Hat : forall x, x ∈ mdv_hashmap_foreach (tr_nodes t) -> node_at t (cn_uuid x) = Some x) by (intros x Hx; apply (elem_of_foreach cn_uuid); [apply Hok|done]).
  assert (Hids : forall l', l' ≡ₚ toponode_of <$> l -> ids_ok l').
  { intros l' Hl'. split.
    - rewrite Hl', Hview, <- list_fmap_compose. apply NoDup_fmap_2_strong; [|exact (NoDup_fmap_1 _ _ (foreach_keys_nodup cn_uuid _ (proj1 (k_nodes _ Hok))))].
      intros x y Hx%Hat Hy%Hat E. pose proof (k_inj _ Hok _ _ _ _ Hx Hy E) as Eu. rewrite Eu in Hx. congruence.
    - intros x Hx. rewrite Hl', Hview in Hx. apply list_elem_of_fmap in Hx as (y & -> & Hy%Hat). pose proof (k_range _ Hok _ _ Hy). pose proof (k_max _ Hok). unfold fits. cbn. lia. }
  destruct (create_spec qsort Hsort (toponode_of <$> l) tls (concat ((fun x => cn_addr (tn_node x) ++ [0%Z]) <$> l)) (Hids (toponode_of <$> l) ltac:(reflexivity))) as (links' & -> & Hres).
  { intros tl Htl. apply list_elem_of_lookup in Htl as [i Hi]. destruct (Forall2_lookup_r _ _ _ _ _ Htls Hi) as (lk & _ & u & v & x & y & _ & _ & _ & Hx). eauto. }
  eapply wp_lift; [done|]. apply HQ; [|split; [by apply Hids; cbn; apply Hsort|]|done].
  - split; [cbn [t_nodes]; by rewrite Hsort|]. cbn [t_nodes t_links]. apply Forall2_flip in Htls. apply Forall2_same_length_lookup. split.
    { apply Forall2_length in Htls. apply (f_equal length) in Hres. rewrite !length_fmap in Hres. congruence. }
    intros i tl lk Hi Hlk. apply (f_equal (.!! i)) in Hres. rewrite !list_lookup_fmap, Hi in Hres. cbn in Hres. destruct (tls !! i) as [tl0|] eqn:E0; [|done]. cbn in Hres.
    injection Hres as Hres. destruct (Forall2_lookup_lr _ _ _ _ _ _ Htls E0 Hlk) as (u & v & x & y & Hx & Hy & Ei & Hr0). exists u, v, x, y. split_and!; [done..|]. by rewrite Hres.
  - intros tl Htl. cbn [t_nodes t_links] in *. apply list_elem_of_lookup in Htl as [i Hi]. apply (f_equal (.!! i)) in Hres. rewrite !list_lookup_fmap, Hi in Hres. cbn in Hres.
    destruct (tls !! i) as [tl0|] eqn:E0; [|done]. cbn in Hres. injection Hres as Hres. rewrite Hres.
    destruct (Forall2_lookup_r _ _ _ _ _ Htls E0) as (lk & _ & u & v & x & y & _ & _ & _ & Hx). eauto.
Qed.


(** ** Neighbours *)

(** The two nodes are linked. *)
Definition adjacent (t : mdv_tracker) (u v : mdv_uuid) : Prop :=
  exists x y l, node_at t u = Some x /\ node_at t v = Some y /\ link_at t (cn_id x, cn_id y) = Some l.

Lemma ordered_swap a b : ordered (a, b) = ordered (b, a).
Proof. unfold ordered. cbn [fst snd]. destruct (Z.ltb_spec a b), (Z.ltb_spec b a); try done; f_equal; lia. Qed.

Lemma ordered_inj a b c d : ordered (a, b) = ordered (c, d) -> a = c /\ b = d \/ a = d /\ b = c.
Proof. unfold ordered. cbn [fst snd]. destruct (Z.ltb_spec a b), (Z.ltb_spec c d); intros [= -> ->]; auto. Qed.

Lemma link_at_ordered t id id' : tracker_ok t -> ordered id = ordered id' -> link_at t id = link_at t id'.
Proof. intros Hok Ho. apply (lookup_keq tl_id); [apply Hok|]. by apply link_keq. Qed.

Lemma adjacent_sym t u v : tracker_ok t -> adjacent t u v -> adjacent t v u.
Proof. intros Hok (x & y & l & Hx & Hy & Hl). exists y, x, l. split_and!; [done..|]. by rewrite (link_at_ordered t _ (cn_id x, cn_id y) Hok (ordered_swap _ _)). Qed.

Lemma describes_neighbour t topo u v :
  tracker_ok t -> describes t topo -> neighbour (t_nodes topo) (t_links topo) u v <-> adjacent t u v.
Proof.
  intros Hok [_ Hd]. split.
  - intros (tl & r & Htl & Hr & Huv). apply list_elem_of_lookup in Htl as [i Hi]. destruct (Forall2_lookup_l _ _ _ _ _ Hd Hi) as (l & Hl & u' & v' & x & y & Hx & Hy & Eid & Hr').
    rewrite Hr in Hr'. injection Hr' as ->. cbn in Huv. rewrite (node_at_uuid _ _ _ Hok Hx), (node_at_uuid _ _ _ Hok Hy) in Huv.
    assert (Hl' : link_at t (cn_id x, cn_id y) = Some l).
    { rewrite <- Eid. apply (elem_of_foreach tl_id); [apply Hok|]. by eapply list_elem_of_lookup_2. }
    assert (adjacent t u' v') by by exists x, y, l. destruct Huv as [[-> ->]|[-> ->]]; [done|by apply adjacent_sym].
  - intros (x & y & l & Hx & Hy & Hl). destruct (lookup_elem tl_id (tr_links t) _ _ (proj1 (k_links _ Hok)) Hl) as [Hin Hk%link_keq].
    apply list_elem_of_lookup in Hin as [i Hi]. destruct (Forall2_lookup_r _ _ _ _ _ Hd Hi) as (tl & Htl & u' & v' & x' & y' & Hx' & Hy' & Eid & Hr).
    exists tl, (node_view x', node_view y', tl_weight l). split; [by eapply list_elem_of_lookup_2|]. split; [done|]. cbn.
    rewrite (node_at_uuid _ _ _ Hok Hx'), (node_at_uuid _ _ _ Hok Hy'). rewrite Eid in Hk. apply ordered_inj in Hk as [[E1 E2]|[E1 E2]].
    + left. split; symmetry; eapply (k_inj _ Hok); eauto.
    + right. split; symmetry; eapply (k_inj _ Hok); eauto.
Qed.

Lemma peers_loop_ext (m m' : nat -> bool * bool) nodes node links : (forall i, m i = m' i) -> forall i hm,
  peers_loop m i nodes node links hm = peers_loop m' i nodes node links hm.
Proof.
  intros Hm. induction links as [|l links IH]; intros i hm; [done|]. cbn [peers_loop]. destruct (at_ nodes (node0 l)); [|done..].
  destruct (at_ nodes (node1 l)); [|done..]. cbn [mbind outcome_bind]. rewrite Hm.
  repeat (destruct (mdv_uuid_cmp _ _ =? 0)%Z; cbn iota); try apply IH;
    (destruct (deref _) as [[r hm']| |]; [|done..]; cbn [mbind outcome_bind]; destruct r; [apply IH|done]).
Qed.

Lemma lookup_uuid (hm : hashset) k v : Hashmap.wf id hm -> Hashmap.lookup id hm k = Some v -> v = k.
Proof. intros Hw Hl. destruct (lookup_elem id hm k v Hw Hl) as [_ Hk%uuid_keq]. by symmetry. Qed.

(** The members of a set. *)
Definition members (hm : hashset) : gset mdv_uuid := list_to_set (mdv_hashmap_foreach hm).

Lemma elem_of_members hm u : Hashmap.wf id hm -> u ∈ members hm <-> Hashmap.lookup id hm u = Some u.
Proof. intros Hw. unfold members. rewrite elem_of_list_to_set. by apply (elem_of_foreach id). Qed.

Lemma peers_wp t topo u (Q : option hashset -> mdv_tracker -> Prop) :
  granted mem -> topo_ok topo ->
  (forall hm, ready id hm 16 -> (forall v, v ∈ members hm <-> neighbour (t_nodes topo) (t_links topo) u v) -> Q (Some hm) t) ->
  wp mem (mdv_topology_peers_of topo u) t Q.
Proof.
  intros Hg [_ Hv] HQ. unfold mdv_topology_peers_of. wp_steps. rewrite (Hb Hg), (Hb0 Hg). unfold mdv_topology_peers.
  destruct (ready_create (id : mdv_uuid -> mdv_uuid) 4 0 16 16) as (hm & -> & Hr & Hl & _); [lia|lia|].
  rewrite (peers_loop_ext _ all_ok) by (intros i; unfold pairs; by rewrite !(Hf Hg)).
  destruct (peers_loop_spec (t_nodes topo) u (t_links topo) 0 hm Hv Hr) as (hm' & -> & Hr' & Hk).
  eapply wp_lift; [done|]. apply HQ; [done|]. intros v. rewrite elem_of_members by apply Hr'. rewrite Hk, Hl. naive_solver.
Qed.

Lemma publish_wp t no_mem failed e (Q : mdv_errno -> mdv_tracker -> Prop) : granted mem -> Q MDV_OK (add_event t e) -> wp mem (publish no_mem failed e) t Q.
Proof. intros Hg HQ. unfold publish. wp_steps. rewrite (Hb Hg). cbn [negb]. wp_steps. rewrite (Hb0 Hg). by wp_steps. Qed.

Lemma add_event_ok t e : tracker_ok t -> tracker_ok (add_event t e).
Proof. intros []. by split. Qed.

Lemma changed_wp t (Q : option mdv_topology -> mdv_tracker -> Prop) :
  tracker_ok t -> granted mem ->
  (forall topo, describes t topo -> topo_ok topo -> Q (Some topo) (add_event t (Evt_topology topo))) -> wp mem (mdv_tracker_topology_changed qsort) t Q.
Proof.
  intros Hok Hg HQ. unfold mdv_tracker_topology_changed. wp_step. apply topology_wp; [done|done|]. intros topo Hd Ho _. wp_step. apply publish_wp; [done|]. wp_steps. by apply HQ.
Qed.


(** ** Links that go up and down *)

(** The pairs are the same, in one order or the other. *)
Definition same_pair (a b u v : mdv_uuid) : Prop := a = u /\ b = v \/ a = v /\ b = u.

Lemma adjacent_keeps t t' a b : tracker_ok t -> tracker_ok t' -> keeps t t' -> tr_links t' = tr_links t -> adjacent t' a b <-> adjacent t a b.
Proof.
  intros Hok Hok' Hk Hl. unfold adjacent, link_at. rewrite Hl. split.
  - intros (x & y & l & Hx & Hy & Hlk). destruct (lookup_elem tl_id (tr_links t) _ _ (proj1 (k_links _ Hok)) Hlk) as [Hin Ho%link_keq].
    destruct (k_ends _ Hok l Hin) as [(u & x0 & Hx0 & Ex) (v & y0 & Hy0 & Ey)]. destruct (Hk u x0 Hx0) as (x1 & Hx1 & Ex1), (Hk v y0 Hy0) as (y1 & Hy1 & Ey1).
    destruct (tl_id l) as [i j] eqn:Eid. cbn [fst snd] in Ex, Ey. apply ordered_inj in Ho as [[E1 E2]|[E1 E2]].
    + assert (u = a) as -> by (eapply (k_inj _ Hok'); [exact Hx1|exact Hx|congruence]). assert (v = b) as -> by (eapply (k_inj _ Hok'); [exact Hy1|exact Hy|congruence]).
      exists x0, y0, l. split_and!; [done..|]. by rewrite Ex, Ey, <- E1, <- E2.
    + assert (u = b) as -> by (eapply (k_inj _ Hok'); [exact Hx1|exact Hy|congruence]). assert (v = a) as -> by (eapply (k_inj _ Hok'); [exact Hy1|exact Hx|congruence]).
      exists y0, x0, l. split_and!; [done..|]. by rewrite Ex, Ey, <- E1, <- E2.
  - intros (x & y & l & Hx & Hy & Hlk). destruct (Hk a x Hx) as (x' & Hx' & Ex), (Hk b y Hy) as (y' & Hy' & Ey). exists x', y', l. by rewrite Ex, Ey.
Qed.

Lemma adjacent_relinked t t' u v x y (r : option mdv_tracker_link) a b :
  tracker_ok t -> tr_nodes t' = tr_nodes t -> node_at t u = Some x -> node_at t v = Some y -> relinked t t' (cn_id x, cn_id y) r ->
  adjacent t' a b <-> (same_pair a b u v /\ is_Some r) \/ (~ same_pair a b u v /\ adjacent t a b).
Proof.
  intros Hok Hnd Hx Hy Hrel.
  assert (Hpair : forall xa yb, node_at t a = Some xa -> node_at t b = Some yb -> ordered (cn_id x, cn_id y) = ordered (cn_id xa, cn_id yb) <-> same_pair a b u v).
  { intros xa yb Ha Hb. split.
    - intros [[E1 E2]|[E1 E2]]%ordered_inj; [left|right]; (split; eapply (k_inj _ Hok); eauto).
    - intros [[-> ->]|[-> ->]]; simplify_eq; [done|apply ordered_swap]. }
  assert (Hat : forall w, node_at t' w = node_at t w) by (intros w; unfold node_at; by rewrite Hnd). unfold adjacent. setoid_rewrite Hat. split.
  - intros (xa & yb & l & Ha & Hb & Hl). rewrite Hrel in Hl. case_decide as Ho.
    + left. split; [by eapply Hpair|]. by exists l.
    + right. split; [intros Hp; by apply Ho; eapply Hpair|]. by exists xa, yb, l.
  - intros [[Hp [l Hl]]|[Hp (xa & yb & l & Ha & Hb & Hl)]].
    + assert (exists xa yb, node_at t a = Some xa /\ node_at t b = Some yb) as (xa & yb & Ha & Hb) by (destruct Hp as [[-> ->]|[-> ->]]; eauto).
      exists xa, yb, l. split_and!; [done..|]. rewrite Hrel, decide_True; [done|by eapply Hpair].
    + exists xa, yb, l. split_and!; [done..|]. rewrite Hrel, decide_False; [done|]. intros Ho. by apply Hp; eapply Hpair.
Qed.

Definition is_topology (ev : tracker_event) : Prop := match ev with Evt_topology _ => True | _ => False end.

Lemma makes_linkstate m : exists doc, makes (mdv_binn_p2p_linkstate m) doc
  /\ (Uuid.wf (ls_src m) -> Uuid.wf (ls_dst m) -> is_container doc = true /\ doc_ok doc /\ mdv_unbinn_p2p_linkstate doc = Some m).
Proof.
  destruct m as [src dst c]. eexists. split; [unfold mdv_binn_p2p_linkstate; do 5 step_writer; last_writer|]. cbn [ls_src ls_dst]. intros [Ha Hb] [Hc Hd].
  split; [done|]. split; [cbn; unfold fits in *; lia|]. cbn -[mdv_unbinn_p2p_linkstate]. unfold mdv_unbinn_p2p_linkstate. do 5 step_reader. by destruct src, dst.
Qed.

Lemma makes_unique {A} (w : writer A) a b : makes w a -> makes w b -> a = b.
Proof. intros [_ Ha] [_ Hb]. destruct (Ha (fun _ => true) (fun _ => eq_refl) 0) as (k & E), (Hb (fun _ => true) (fun _ => eq_refl) 0) as (k' & E'). congruence. Qed.

Lemma same_iff a b : same a b = true <-> a = b.
Proof. unfold same. by rewrite Z.eqb_eq, mdv_uuid_cmp_eq. Qed.

(** The neighbours are told that the link is down. *)
Definition told (t : mdv_tracker) (src dst : mdv_uuid) (evs : list tracker_event) : Prop :=
  exists doc peers, makes (mdv_binn_p2p_linkstate (mk_linkstate src dst false)) doc /\ ready id peers 16
    /\ (forall v, v ∈ members peers <-> adjacent t (tr_uuid t) v)
    /\ evs = [Evt_broadcast_post mdv_msg_p2p_linkstate_id (binn_bytes doc) peers peers].

(** A link event, when everything is granted. *)
Lemma link_state_wp t e (Q : mdv_errno -> mdv_tracker -> Prop) :
  tracker_ok t -> granted mem -> MdbReliable -> MdbRoom -> (tr_max_id t + 2 < 2 ^ 32 - 1)%Z ->
  length (lk_src_addr e) < MDV_ADDR_LEN_MAX -> length (lk_dst_addr e) < MDV_ADDR_LEN_MAX ->
  (forall t' topo evs, tracker_ok t' -> keeps t t' -> tr_uuid t' = tr_uuid t -> (tr_max_id t' <= tr_max_id t + 2)%Z -> describes t' topo ->
     tr_events t' = tr_events t ++ Evt_topology topo :: evs -> Forall (fun ev => ~ is_topology ev) evs ->
     (tr_uuid t = lk_from e -> tr_uuid t = lk_src e -> lk_connected e = false -> told t' (lk_src e) (lk_dst e) evs) ->
     (forall a b, adjacent t' a b <-> same_pair a b (lk_src e) (lk_dst e) /\ lk_connected e = true \/ ~ same_pair a b (lk_src e) (lk_dst e) /\ adjacent t a b) ->
     Q MDV_OK t') ->
  wp mem (mdv_tracker_evt_link_state qsort e) t Q.
Proof.
  intros Hok Hg Hrel Hroom Hmax Hl1 Hl2 HQ. unfold mdv_tracker_evt_link_state. wp_step. apply register_wp; [done|lia|by right|].
  intros err t1 Hok1 Hk1 Hu1 Hlk1 Hev1 Hm1 Hoth1 Hsrc1 Herr. rewrite (Herr Hg Hrel Hroom Hl1) in *. clear Herr. rewrite decide_False by (intros Hx; by apply Hx). wp_step.
  apply register_wp; [done|lia|by right|]. intros err2 t2 Hok2 Hk2 Hu2 Hlk2 Hev2 Hm2 Hoth2 Hdst2 Herr. rewrite (Herr Hg Hrel Hroom Hl2) in *. clear Herr err err2.
  rewrite decide_False by (intros Hx; by apply Hx). wp_step. destruct (Hsrc1 eq_refl) as (xs & Hxs & _). destruct (Hk2 _ _ Hxs) as (xs' & Hxs' & _). destruct (Hdst2 eq_refl) as (xd & Hxd & _).
  apply linkstate_add_wp; [done|]. intros err t3 Hok3 Hnd3 Hu3 Hev3 Hm3 Hrl Herr. rewrite (Herr Hg ltac:(eauto) ltac:(eauto)) in *. clear Herr.
  rewrite decide_False by (intros Hx; by apply Hx). destruct (Hrl eq_refl) as (x & y & Hx & Hy & Hrl'). wp_step. apply changed_wp; [done|done|]. intros topo Hd Ht. wp_steps. tr_simpl.
  assert (Hfinal : forall evs t4, t4 = mk_tracker (tr_rc t3) (tr_uuid t3) (tr_max_id t3) (tr_storage t3) (tr_nodes t3) (tr_ids t3) (tr_links t3) (tr_events t3 ++ Evt_topology topo :: evs) -> Forall (fun ev => ~ is_topology ev) evs ->
    (tr_uuid t = lk_from e -> tr_uuid t = lk_src e -> lk_connected e = false -> told t3 (lk_src e) (lk_dst e) evs) -> Q MDV_OK t4).
  { intros evs t4 -> Hevs Htold. apply (HQ _ topo evs); try done; tr_simpl; [destruct Hok3; by split| |congruence|lia|congruence|].
    { intros w xw Hw. destruct (Hk1 w xw Hw) as (x1 & Hx1 & E1), (Hk2 w x1 Hx1) as (x2 & Hx2 & E2). exists x2. unfold node_at in *. tr_simpl. rewrite Hnd3. split; [done|congruence]. }
    intros a b. change (adjacent t3 a b <-> same_pair a b (lk_src e) (lk_dst e) /\ lk_connected e = true \/ ~ same_pair a b (lk_src e) (lk_dst e) /\ adjacent t a b).
    rewrite (adjacent_relinked t2 t3 (lk_src e) (lk_dst e) x y _ a b Hok2 Hnd3 Hx Hy Hrl').
    rewrite (adjacent_keeps t1 t2 a b Hok1 Hok2 Hk2 Hlk2), (adjacent_keeps t t1 a b Hok Hok1 Hk1 Hlk1). destruct (lk_connected e); [by intuition eauto|].
    split; intros [[? Hc]|?]; try (by right); by destruct Hc. }
  destruct (same _ _ && _) eqn:Esame.
  2: { wp_steps. apply (Hfinal []); [by destruct t3|constructor|]. intros E1 E2 _. rewrite Hu3, Hu2, Hu1, <- E1, <- E2, (proj2 (same_iff _ _) eq_refl) in Esame. done. }
  destruct (lk_connected e) eqn:Ec.
  - apply publish_wp; [done|]. eapply (Hfinal [_]); [unfold add_event; tr_simpl; by rewrite <- app_assoc|by repeat constructor; intros []|done].
  - unfold mdv_tracker_linkstate_broadcast. wp_steps. apply peers_wp; [done|done|]. intros peers Hp Hnb. wp_step.
    destruct (makes_linkstate (mk_linkstate (lk_src e) (lk_dst e) false)) as (doc & Hdoc & _).
    eapply wp_write; [exact Hdoc|]. intros r _ Hgr. rewrite (Hgr Hg). apply publish_wp; [done|].
    eapply (Hfinal [_]); [unfold add_event; tr_simpl; by rewrite <- app_assoc|by repeat constructor; intros []|]. intros _ _ _. exists doc, peers. split_and!; try done.
    intros v. by rewrite Hnb, (describes_neighbour t3 topo _ _ Hok3 Hd).
Qed.

(** ** A new tracker *)

Lemma load_wp t fuel listen (Q : mdv_errno -> mdv_tracker -> Prop) :
  granted mem -> MdbReliable -> MdbCursorReliable -> Session.live n (tr_storage t) -> nodes_in (db (s_env (tr_storage t))) ∅ ->
  ready cn_uuid (tr_nodes t) 16 -> ready nid_id (tr_ids t) 16 -> ready tl_id (tr_links t) 12 ->
  tr_max_id t = 0%Z -> (forall u, node_at t u = None) -> (forall a, link_at t a = None) -> length listen < MDV_ADDR_LEN_MAX -> 1 < fuel ->
  (forall t', tracker_ok t' -> tr_max_id t' = 0%Z -> tr_uuid t' = tr_uuid t -> tr_events t' = tr_events t -> (forall a, link_at t' a = None) ->
     (forall u, node_at t' u = if decide (u = tr_uuid t) then Some (mk_cnode u MDV_LOCAL_ID listen) else None) -> Q MDV_OK t') ->
  wp mem (mdv_tracker_load fuel listen) t Q.
Proof.
  intros Hg Hrel Hcur Hlive Hin Hnd Hid Hlk Hmax Hnone Hnol Hlen Hf HQ. unfold mdv_tracker_load, mdv_node_init. wp_steps.
  rewrite (proj2 (Nat.leb_gt _ _) Hlen). unfold mdv_tracker_id_maximize. wp_steps. cbn [cn_id]. rewrite Hmax. cbn [MDV_LOCAL_ID Z.ltb Z.compare]. wp_steps.
  apply insert_wp; [done|done|]. intros ok nodes' ids' Hn' Hi' Hgr Hother Hself. rewrite (Hgr Hg) in *. cbn [negb cn_uuid] in *.
  set (t1 := set_ids (set_nodes t nodes') ids').
  assert (Hat : forall u, node_at t1 u = if decide (u = tr_uuid t) then Some (mk_cnode u MDV_LOCAL_ID listen) else None).
  { intros u. unfold node_at, t1. tr_simpl. case_decide as E; [by subst u|]. rewrite (Hother u E). apply Hnone. }
  assert (Hok : forall s', Session.live n s' -> tracker_ok (set_storage t1 s')).
  { intros s' Hs'. split; try done; cbn.
    - exists (mk_cnode (tr_uuid t) MDV_LOCAL_ID listen). split; [|done]. change (node_at t1 (tr_uuid t) = Some (mk_cnode (tr_uuid t) MDV_LOCAL_ID listen)). by rewrite Hat, decide_True.
    - intros u x Hx. change (node_at t1 u = Some x) in Hx. rewrite Hat in Hx. case_decide; [|done]. injection Hx as <-. cbn. rewrite Hmax. done.
    - rewrite Hmax. done.
    - intros u v x y Hx Hy _. change (node_at t1 u = Some x) in Hx. change (node_at t1 v = Some y) in Hy. rewrite Hat in Hx, Hy. by repeat case_decide; simplify_eq.
    - intros l Hl. apply (elem_of_foreach tl_id (tr_links t) l (proj1 Hlk)) in Hl. unfold link_at in Hnol. by rewrite Hnol in Hl. }
  intros k. unfold load_nodes.
  destruct (foreach_runs n Hn (load_node mem) fuel (tr_storage t1) ∅ (k, t1) Hlive Hin) as (nodes & seen & Hperm & _ & _ & s' & err & Hs' & _ & Herr & ->).
  { rewrite map_size_empty. lia. }
  rewrite map_to_list_empty in Hperm. apply Permutation_nil_r in Hperm as ->. destruct seen; cbn [Nodes.visit mbind outcome_bind];
    (eexists _, _, _; split; [done|]; rewrite (Herr Hrel Hcur); apply HQ; try done; by apply Hok).
Qed.

Lemma create_ok fuel uuid storage listen :
  granted mem -> MdbReliable -> MdbCursorReliable -> Session.live (n - 1) storage -> nodes_in (db (s_env storage)) ∅ ->
  length listen < MDV_ADDR_LEN_MAX -> 1 < fuel ->
  exists t, mdv_tracker_create fuel mem uuid storage listen = Done (Some t, [], tr_storage t) /\ tracker_ok t
    /\ tr_max_id t = 0%Z /\ tr_uuid t = uuid /\ tr_events t = [] /\ (forall a b, ~ adjacent t a b).
Proof.
  intros Hg Hrel Hcur [Hs Ho] Hin Hlen Hf. unfold mdv_tracker_create. rewrite !Hg. cbn [negb].
  destruct (ready_create cn_uuid 256 0 16 16) as (nodes & -> & Hnd & Hnl & _); [lia|lia|].
  destruct (ready_create nid_id 256 0 4 16) as (ids & -> & Hid & _); [lia|lia|].
  destruct (ready_create tl_id 256 0 8 12) as (links & -> & Hlk & Hll & _); [lia|lia|].
  assert (Er : mdv_storage_retain true storage = mk_lmdb n (s_env storage) (s_open storage)) by (rewrite storage_retain_live by lia; f_equal; lia).
  rewrite Er. destruct (load_wp (mk_tracker 1 uuid 0 (mk_lmdb n (s_env storage) (s_open storage)) nodes ids links []) fuel listen
    (fun err t' => err = MDV_OK /\ tracker_ok t' /\ tr_max_id t' = 0%Z /\ tr_uuid t' = uuid /\ tr_events t' = [] /\ (forall a b, ~ adjacent t' a b))) with (k := 10)
    as (err & k' & t' & -> & -> & Hok & Hrest); try done.
  { intros t' Hok' Hm Hu He Hnol _. split_and!; try done. intros a b (x & y & l & _ & _ & Hl). by rewrite Hnol in Hl. }
  cbn [mbind outcome_bind]. rewrite decide_False by (intros Hx; by apply Hx). rewrite Hg. cbn [negb]. by exists t'.
Qed.

(** ** A tracker over stored nodes *)

(** The maps are well formed. *)
Definition maps_ok (t : mdv_tracker) : Prop :=
  Session.live n (tr_storage t) /\ ready cn_uuid (tr_nodes t) 16 /\ ready nid_id (tr_ids t) 16 /\ ready tl_id (tr_links t) 12.

Lemma visit_load nodes : granted mem -> NoDup (cn_uuid <$> nodes) -> forall k t, maps_ok t ->
  exists k' nodes' ids', Nodes.visit (load_node mem) nodes (k, t) = Done (k', set_ids (set_nodes t nodes') ids') /\ maps_ok (set_ids (set_nodes t nodes') ids')
    /\ (forall node, node ∈ nodes -> Hashmap.lookup cn_uuid nodes' (cn_uuid node) = Some node)
    /\ (forall u, u ∉ cn_uuid <$> nodes -> Hashmap.lookup cn_uuid nodes' u = node_at t u).
Proof.
  intros Hg. induction nodes as [|node nodes IH]; intros Hnd k t Hm.
  { exists k, (tr_nodes t), (tr_ids t). replace (set_ids (set_nodes t (tr_nodes t)) (tr_ids t)) with t by by destruct t. split_and!; try done. by intros ? ?%elem_of_nil. }
  rewrite fmap_cons, NoDup_cons in Hnd. destruct Hnd as [Hnew Hnd], Hm as (M1 & M2 & M3 & M4).
  destruct (insert_wp t node (fun (ok : bool) t' => ok = true /\ exists nodes' ids', t' = set_ids (set_nodes t nodes') ids' /\ maps_ok t'
    /\ Hashmap.lookup cn_uuid nodes' (cn_uuid node) = Some node /\ forall v, v <> cn_uuid node -> Hashmap.lookup cn_uuid nodes' v = node_at t v) M2 M3) with (k := k) as (ok & k1 & t1 & E & -> & n1 & i1 & -> & Hm1 & Hin1 & Hother).
  { intros ok nodes' ids' G1 G2 G3 G4 G5. rewrite (G3 Hg) in *. split; [done|]. by exists nodes', ids'. }
  assert (El : load_node mem (k, t) node = Done (k1, set_ids (set_nodes t n1) i1)) by (unfold load_node; cbn [fst snd]; by rewrite E).
  cbn [Nodes.visit]. rewrite El. cbn [mbind outcome_bind].
  destruct (IH Hnd k1 _ Hm1) as (k' & n2 & i2 & -> & Hm2 & Hin2 & Hout). exists k', n2, i2. split_and!; try done.
  - intros a [->|Ha]%elem_of_cons; [|by apply Hin2]. by rewrite Hout.
  - intros u Hu. rewrite fmap_cons, not_elem_of_cons in Hu. destruct Hu as [Hne Hu]. rewrite (Hout u Hu). by apply Hother.
Qed.

Lemma stored_nodup (m : gmap mdv_uuid mdv_node) nodes : (forall u node, m !! u = Some node -> cn_uuid node = u) -> nodes ≡ₚ (map_to_list m).*2 -> NoDup (cn_uuid <$> nodes).
Proof.
  intros Hm ->. assert (E : cn_uuid <$> (map_to_list m).*2 = (map_to_list m).*1); [|rewrite E; apply NoDup_fst_map_to_list].
  rewrite <- list_fmap_compose. apply list_fmap_ext. intros i [u node] Hi. cbn. apply Hm. apply elem_of_map_to_list. by eapply list_elem_of_lookup_2.
Qed.

Lemma load_stored_wp t fuel listen m (Q : mdv_errno -> mdv_tracker -> Prop) :
  granted mem -> MdbReliable -> MdbCursorReliable -> maps_ok t -> nodes_in (db (s_env (tr_storage t))) m -> tr_max_id t = 0%Z -> (forall u, node_at t u = None) ->
  length listen < MDV_ADDR_LEN_MAX -> size m + 1 < fuel ->
  (forall t', maps_ok t' -> tr_max_id t' = 0%Z -> tr_uuid t' = tr_uuid t -> tr_links t' = tr_links t ->
     (forall u node, m !! u = Some node -> node_at t' u = Some node) -> (forall u, m !! u = None -> u <> tr_uuid t -> node_at t' u = None) -> Q MDV_OK t') ->
  wp mem (mdv_tracker_load fuel listen) t Q.
Proof.
  intros Hg Hrel Hcur Hmaps Hin Hmax Hnone Hlen Hf HQ. pose proof Hmaps as (M1 & M2 & M3 & M4). unfold mdv_tracker_load, mdv_node_init. wp_steps.
  rewrite (proj2 (Nat.leb_gt _ _) Hlen). unfold mdv_tracker_id_maximize. wp_steps. cbn [cn_id]. rewrite Hmax. cbn [MDV_LOCAL_ID Z.ltb Z.compare]. wp_steps.
  apply insert_wp; [done|done|]. intros ok nodes' ids' Hn' Hi' Hgr Hother Hself. rewrite (Hgr Hg) in *. cbn [negb cn_uuid] in *.
  set (t1 := set_ids (set_nodes t nodes') ids'). intros k. unfold load_nodes.
  destruct (foreach_runs n Hn (load_node mem) fuel (tr_storage t1) m (k, t1) M1 Hin Hf) as (nodes & seen & Hperm & _ & Hseen & s' & err & Hs' & _ & Herr & ->).
  rewrite (Hseen Hrel Hcur), (Herr Hrel Hcur). pose proof (fun u node Hu => proj1 (proj1 Hin u node Hu)) as Hkey.
  destruct (visit_load nodes Hg (stored_nodup m nodes Hkey Hperm) k t1) as (k' & n2 & i2 & -> & Hm2 & Hin2 & Hout); [by split_and!|]. cbn [mbind outcome_bind].
  eexists _, _, _. split; [done|]. destruct Hm2 as (_ & G2 & G3 & G4). apply HQ; try done.
  - intros u node Hu. unfold node_at. tr_simpl. rewrite <- (Hkey u node Hu). apply Hin2. rewrite Hperm. apply list_elem_of_fmap. exists (u, node). split; [done|]. by apply elem_of_map_to_list.
  - intros u Hu Hne. unfold node_at. tr_simpl. rewrite Hout.
    + unfold node_at, t1. tr_simpl. by rewrite Hother.
    + rewrite Hperm. intros (x & -> & (y & -> & Hy%elem_of_map_to_list')%list_elem_of_fmap)%list_elem_of_fmap. rewrite <- (Hkey _ _ Hy) in Hy. congruence.
Qed.

Lemma create_stored fuel uuid storage listen m :
  granted mem -> MdbReliable -> MdbCursorReliable -> Session.live (n - 1) storage -> nodes_in (db (s_env storage)) m -> length listen < MDV_ADDR_LEN_MAX -> size m + 1 < fuel ->
  exists t, mdv_tracker_create fuel mem uuid storage listen = Done (Some t, [], tr_storage t) /\ maps_ok t /\ tr_max_id t = 0%Z /\ tr_uuid t = uuid
    /\ (forall a, link_at t a = None) /\ (forall u node, m !! u = Some node -> node_at t u = Some node) /\ (forall u, m !! u = None -> u <> uuid -> node_at t u = None).
Proof.
  intros Hg Hrel Hcur [Hs Ho] Hin Hlen Hf. unfold mdv_tracker_create. rewrite !Hg. cbn [negb].
  destruct (ready_create cn_uuid 256 0 16 16) as (nodes & -> & Hnd & Hnl & _); [lia|lia|].
  destruct (ready_create nid_id 256 0 4 16) as (ids & -> & Hid & _); [lia|lia|].
  destruct (ready_create tl_id 256 0 8 12) as (links & -> & Hlk & Hll & _); [lia|lia|].
  assert (Er : mdv_storage_retain true storage = mk_lmdb n (s_env storage) (s_open storage)) by (rewrite storage_retain_live by lia; f_equal; lia).
  rewrite Er. destruct (load_stored_wp (mk_tracker 1 uuid 0 (mk_lmdb n (s_env storage) (s_open storage)) nodes ids links []) fuel listen m
    (fun err t' => err = MDV_OK /\ maps_ok t' /\ tr_max_id t' = 0%Z /\ tr_uuid t' = uuid /\ (forall a, link_at t' a = None)
      /\ (forall u node, m !! u = Some node -> node_at t' u = Some node) /\ (forall u, m !! u = None -> u <> uuid -> node_at t' u = None))) with (k := 10)
    as (err & k' & t' & -> & -> & Hrest); try done.
  { intros t' Hm Hx Hu Hl Hin' Hout'. split_and!; try done. intros a. unfold link_at. rewrite Hl. apply Hll. }
  cbn [mbind outcome_bind]. rewrite decide_False by (intros Hx; by apply Hx). rewrite Hg. cbn [negb]. by exists t'.
Qed.

(** A node that is not known gets the next number, whoever has it. *)
Lemma register_next_wp t u addr (Q : mdv_errno -> mdv_tracker -> Prop) :
  granted mem -> MdbReliable -> MdbRoom -> maps_ok t -> (0 <= tr_max_id t < 2 ^ 32 - 1)%Z -> node_at t u = None -> length addr < MDV_ADDR_LEN_MAX ->
  (forall t', maps_ok t' -> tr_uuid t' = tr_uuid t -> tr_links t' = tr_links t -> node_at t' u = Some (mk_cnode u (tr_max_id t + 1) addr) ->
     (forall v, v <> u -> node_at t' v = node_at t v) -> Q MDV_OK t') ->
  wp mem (mdv_tracker_register u addr) t Q.
Proof.
  intros Hg Hrel Hroom (M1 & M2 & M3 & M4) Hmax Hnew Hlen HQ. unfold mdv_tracker_register. wp_steps. rewrite (Hb Hg). cbn [negb]. wp_steps.
  assert (Ef : mdv_tracker_find t u = Done (node_at t u)) by (unfold mdv_tracker_find; by rewrite (find_lookup cn_uuid (tr_nodes t) u (proj1 M2))). wp_lift Ef. rewrite Hnew.
  wp_steps. unfold mdv_tracker_new_id. wp_steps. rewrite (wrap_id 32) by (unfold fits; lia). unfold mdv_node_init. rewrite (proj2 (Nat.leb_gt _ _) Hlen).
  wp_steps. apply store_wp; [done|]. intros err s' Hl' Hst. rewrite (Hst Hg Hrel Hroom), decide_True by done. wp_steps.
  apply insert_wp; [done|done|]. intros ok nodes' ids' G1 G2 G3 G4 G5. rewrite (G3 Hg) in *. cbn [cn_uuid] in *. wp_steps. by apply HQ.
Qed.

Lemma own_identifier t : node_identifier t (tr_uuid t) = Done (Some MDV_LOCAL_ID).
Proof. unfold node_identifier. by rewrite (proj2 (mdv_uuid_cmp_eq _ _) eq_refl). Qed.

Lemma other_identifier t u x : ready cn_uuid (tr_nodes t) 16 -> u <> tr_uuid t -> node_at t u = Some x -> node_identifier t u = Done (Some (cn_id x)).
Proof.
  intros Hr Hne Hx. unfold node_identifier. destruct (Z.eqb_spec (mdv_uuid_cmp u (tr_uuid t)) 0) as [E%mdv_uuid_cmp_eq|_]; [done|].
  unfold mdv_tracker_find. rewrite (find_lookup cn_uuid (tr_nodes t) u (proj1 Hr)). unfold node_at in Hx. by rewrite Hx.
Qed.

(** A link is kept under the numbers of its ends. *)
Lemma link_wp t u y (w : Z) (Q : mdv_errno -> mdv_tracker -> Prop) :
  granted mem -> maps_ok t -> u <> tr_uuid t -> node_at t u = Some y ->
  (forall t', maps_ok t' -> tr_uuid t' = tr_uuid t -> tr_nodes t' = tr_nodes t -> is_Some (link_at t' (MDV_LOCAL_ID, cn_id y)) -> Q MDV_OK t') ->
  wp mem (mdv_tracker_linkstate_add (tr_uuid t) u true w) t Q.
Proof.
  intros Hg (M1 & M2 & M3 & M4) Hne Hy HQ. unfold mdv_tracker_linkstate_add, mdv_tracker_node_identifiers. wp_steps. rewrite (Hb Hg). cbn [negb]. wp_steps.
  wp_lift (own_identifier t). wp_steps. wp_lift (other_identifier t u y M2 Hne Hy). wp_steps. unfold mdv_tracker_linkstate2. wp_steps. rewrite (Hb0 Hg). cbn [negb]. wp_steps.
  destruct (insert_any tl_id (tr_links t) (mk_tlink (MDV_LOCAL_ID, cn_id y) w) 12 b1 b2 M4) as (r & links' & E & Hr & _ & Hgr & _ & Hin & _).
  rewrite (Hgr (Hb1 Hg) (Hb2 Hg)) in *. wp_lift E. wp_steps. apply HQ; try done. unfold link_at. tr_simpl. rewrite Hin; [done|done|]. by apply link_keq.
Qed.

Lemma link_known_wp t v x c (Q : mdv_errno * bool -> mdv_tracker -> Prop) :
  granted mem -> maps_ok t -> v <> tr_uuid t -> node_at t v = Some x -> is_Some (link_at t (MDV_LOCAL_ID, cn_id x)) -> Q (MDV_OK, true) t ->
  wp mem (mdv_tracker_evt_link_check (tr_uuid t) v c) t Q.
Proof.
  intros Hg (M1 & M2 & M3 & M4) Hne Hx [l Hl] HQ. unfold mdv_tracker_evt_link_check, mdv_tracker_linkstate_get, mdv_tracker_node_identifiers. wp_steps. rewrite (Hb Hg). cbn [negb]. wp_steps.
  wp_lift (own_identifier t). wp_steps. wp_lift (other_identifier t v x M2 Hne Hx). wp_steps. rewrite (Hb0 Hg). cbn [negb]. wp_steps.
  pose proof (find_lookup tl_id (tr_links t) (MDV_LOCAL_ID, cn_id x) (proj1 M4)) as E. wp_lift (f_equal deref E). wp_steps. unfold link_at in Hl. by rewrite Hl.
Qed.

(** ** Sequences of link events *)

Lemma link_check_wp t u v c (Q : mdv_errno * bool -> mdv_tracker -> Prop) :
  tracker_ok t -> granted mem -> (forall b, b = true <-> adjacent t u v -> Q (MDV_OK, b) t) -> wp mem (mdv_tracker_evt_link_check u v c) t Q.
Proof.
  intros Hok Hg HQ. unfold mdv_tracker_evt_link_check, mdv_tracker_linkstate_get. wp_step. apply identifiers_wp; [done|]. intros [ids|] Hids _ Hnone.
  - destruct Hids as (x & y & Hx & Hy & ->). wp_steps. rewrite (Hb Hg). cbn [negb]. wp_steps.
    pose proof (find_lookup tl_id (tr_links t) (cn_id x, cn_id y) (proj1 (k_links _ Hok))) as E. wp_lift (f_equal deref E). wp_steps.
    apply HQ. fold (link_at t (cn_id x, cn_id y)). unfold is_some. split.
    + destruct (link_at t (cn_id x, cn_id y)) as [l|] eqn:El; [|done]. intros _. by exists x, y, l.
    + intros (x' & y' & l & Hx' & Hy' & Hl). simplify_eq. by rewrite Hl.
  - wp_steps. apply HQ. split; [done|]. intros (x & y & l & Hx & Hy & _). by destruct (Hnone eq_refl Hg); simplify_eq.
Qed.

(** The handler, for the events one after the other: the errors. *)
Fixpoint handle_links (es : list mdv_evt_link_state) : tm (list mdv_errno) :=
  match es with
  | [] => mret []
  | e :: es => err ← mdv_tracker_evt_link_state qsort e; errs ← handle_links es; mret (err :: errs)
  end.

(** What the events say about the graph: the last one about a pair counts. *)
Definition step_graph (G : mdv_uuid -> mdv_uuid -> Prop) (e : mdv_evt_link_state) (a b : mdv_uuid) : Prop :=
  same_pair a b (lk_src e) (lk_dst e) /\ lk_connected e = true \/ ~ same_pair a b (lk_src e) (lk_dst e) /\ G a b.

Lemma step_graph_iff (G G' : mdv_uuid -> mdv_uuid -> Prop) es : (forall a b, G a b <-> G' a b) -> forall a b, foldl step_graph G es a b <-> foldl step_graph G' es a b.
Proof. revert G G'. induction es as [|e es IH]; intros G G' Hg a b; [apply Hg|]. cbn [foldl]. apply IH. intros c d. unfold step_graph. by rewrite (Hg c d). Qed.

Definition short_addrs (e : mdv_evt_link_state) : Prop := length (lk_src_addr e) < MDV_ADDR_LEN_MAX /\ length (lk_dst_addr e) < MDV_ADDR_LEN_MAX.

(** The last topology that was published describes the tracker. *)
Definition shown (t : mdv_tracker) : Prop :=
  exists topo evs evs', describes t topo /\ tr_events t = evs ++ Evt_topology topo :: evs' /\ Forall (fun ev => ~ is_topology ev) evs'.

Lemma handle_links_wp es : granted mem -> MdbReliable -> MdbRoom -> Forall short_addrs es -> forall t (Q : list mdv_errno -> mdv_tracker -> Prop),
  tracker_ok t -> (tr_max_id t + 2 * Z.of_nat (length es) < 2 ^ 32 - 1)%Z ->
  (forall t', tracker_ok t' -> tr_uuid t' = tr_uuid t -> (tr_max_id t' <= tr_max_id t + 2 * Z.of_nat (length es))%Z -> (forall a b, adjacent t' a b <-> foldl step_graph (adjacent t) es a b) ->
     (es <> [] \/ shown t -> shown t') ->
     Q (replicate (length es) MDV_OK) t') ->
  wp mem (handle_links es) t Q.
Proof.
  intros Hg Hrel Hroom Hes. induction Hes as [|e es [Ha Hb] _ IH]; intros t Q Hok Hmax HQ; cbn [handle_links].
  { wp_steps. apply HQ; try done; [cbn; lia|]. by intros [?|?]. }
  cbn [length] in Hmax. wp_step. apply link_state_wp; [done..|lia|done|done|]. intros t1 topo evs Hok1 _ Hu1 Hm1 Hd1 He1 Hevs _ Hadj. wp_step.
  apply IH; [done|lia|]. intros t2 Hok2 Hu2 Hm2 Hadj2 Hlast. wp_steps. apply HQ; [done|congruence|cbn [length]; lia| |].
  - intros a b. rewrite Hadj2. cbn [foldl]. apply step_graph_iff. intros c d. apply Hadj.
  - intros _. apply Hlast. right. by exists topo, (tr_events t), evs.
Qed.

(** ** Broadcasts *)

Lemma erase_all_spec l : forall peers, ready id peers 16 ->
  exists peers', erase_all l peers = Done peers' /\ ready id peers' 16 /\ forall u, u ∈ members peers' <-> u ∈ members peers /\ u ∉ l.
Proof.
  induction l as [|a l IH]; intros peers Hr; cbn [erase_all].
  { exists peers. split_and!; [done..|]. intros u. set_solver. }
  destruct (erase_ready id peers a 16 Hr) as (r & peers1 & -> & Hr1 & Hl1). cbn [deref mbind outcome_bind snd].
  destruct (IH peers1 Hr1) as (peers' & E & Hr' & Hm). exists peers'. split_and!; [done..|]. intros u. rewrite Hm, !elem_of_members by (apply Hr || apply Hr1).
  rewrite Hl1, not_elem_of_cons. destruct (Z.eqb_spec (key_cmp_fn a u) 0) as [E1%uuid_keq|E1]; [naive_solver|].
  assert (u <> a) by (intros ->; apply E1; by apply uuid_keq). naive_solver.
Qed.

Lemma notify_all_wp t l : granted mem -> forall notified (Q : mdv_errno * hashset -> mdv_tracker -> Prop), ready id notified 16 ->
  (forall hm, ready id hm 16 -> (forall u, u ∈ members hm <-> u ∈ members notified \/ u ∈ l) -> Q (MDV_OK, hm) t) ->
  wp mem (notify_all l notified) t Q.
Proof.
  intros Hg. induction l as [|a l IH]; intros notified Q Hr HQ; cbn [notify_all]; wp_steps.
  { apply HQ; [done|]. set_solver. }
  rewrite (Hb Hg), (Hb0 Hg). destruct (insert_ready id notified a 16 Hr) as (hm1 & E & Hr1 & Hl1 & _). wp_lift E.
  apply IH; [done|]. intros hm Hr' Hm. apply HQ; [done|]. intros u. rewrite Hm, !elem_of_members by (apply Hr || apply Hr1).
  rewrite Hl1, elem_of_cons. cbn [id]. destruct (Z.eqb_spec (key_cmp_fn a u) 0) as [E1%uuid_keq|E1]; [naive_solver|].
  assert (u <> a) by (intros ->; apply E1; by apply uuid_keq). naive_solver.
Qed.


(** What is published for a message that comes with the set [seen]: nothing if all
    neighbours were notified, or a message for those that were not. *)
Inductive forwarded (near : mdv_uuid -> Prop) (msg_id : Z) (data : bytes) (seen : gset mdv_uuid) : list tracker_event -> Prop :=
| forwarded_none : (forall v, near v -> v ∈ seen) -> forwarded near msg_id data seen []
| forwarded_post notified peers v :
    ready id notified 16 -> ready id peers 16 -> near v -> v ∉ seen ->
    (forall u, u ∈ members peers <-> near u /\ u ∉ seen) -> (forall u, u ∈ members notified <-> near u \/ u ∈ seen) ->
    forwarded near msg_id data seen [Evt_broadcast_post msg_id data notified peers].

Lemma forward_wp t topo msg_id data notified (Q : mdv_errno * hashset -> mdv_tracker -> Prop) :
  tracker_ok t -> granted mem -> describes t topo -> topo_ok topo -> ready id notified 16 ->
  (forall r evs, forwarded (adjacent t (tr_uuid t)) msg_id data (members notified) evs -> Q (MDV_OK, r) (foldl add_event t evs)) ->
  wp mem (forward_broadcast topo msg_id data notified) t Q.
Proof.
  intros Hok Hg Hd Ht Hr HQ. unfold forward_broadcast. wp_steps. apply peers_wp; [done|done|]. intros peers Hp Hnb. wp_step.
  destruct (erase_all_spec (mdv_hashmap_foreach notified) peers Hp) as (peers' & E & Hp' & Hm). wp_lift E.
  assert (Hpeers : forall u, u ∈ members peers' <-> adjacent t (tr_uuid t) u /\ u ∉ members notified).
  { intros u. rewrite Hm, Hnb, (describes_neighbour t topo _ _ Hok Hd). unfold members at 1. by rewrite elem_of_list_to_set. }
  rewrite (wf_size id peers' (proj1 Hp')). destruct (mdv_hashmap_foreach peers') as [|v l] eqn:El; cbn [length Nat.eqb].
  - wp_steps. apply (HQ notified []). constructor. intros v Hv. destruct (decide (v ∈ members notified)) as [|Hn']; [done|].
    assert (Hin : v ∈ members peers') by by apply Hpeers. unfold members in Hin. rewrite El in Hin. set_solver.
  - wp_step. apply notify_all_wp; [done|done|]. intros hm Hh Hhm. cbn [fst snd]. rewrite decide_True by done. wp_step.
    assert (Hv : v ∈ members peers') by (unfold members; rewrite El; set_solver). apply Hpeers in Hv as [Hv Hv'].
    apply publish_wp; [done|]. wp_steps. apply (HQ hm [_]). apply (forwarded_post _ _ _ _ _ _ v); try done. intros u. rewrite Hhm.
    assert (Eu : u ∈ v :: l <-> u ∈ members peers') by (unfold members; rewrite El; by rewrite elem_of_list_to_set). rewrite Eu, Hpeers.
    destruct (decide (u ∈ members notified)); naive_solver.
Qed.

(** The bytes hold the message. *)
Definition carries (data : bytes) (m : mdv_msg_p2p_linkstate) : Prop := exists obj, binn_load data = Some obj /\ mdv_unbinn_p2p_linkstate obj = Some m.

Lemma carries_doc m doc :
  makes (mdv_binn_p2p_linkstate m) doc -> Uuid.wf (ls_src m) -> Uuid.wf (ls_dst m) -> (Z.of_nat (length (binn_bytes doc)) < 2 ^ 31)%Z -> carries (binn_bytes doc) m.
Proof.
  intros Hdoc Hs Hd Hlen. destruct (makes_linkstate m) as (doc' & Hdoc' & Hok). rewrite (makes_unique _ _ _ Hdoc Hdoc') in *.
  destruct (Hok Hs Hd) as (Hc & Hk & Hu). exists doc'. split; [by apply load_bytes|done].
Qed.

(** A message about a link changes the links, and goes on to the neighbours that
    the node has after the change. *)
Lemma broadcast_linkstate_wp t data m notified (Q : mdv_errno * hashset -> mdv_tracker -> Prop) :
  tracker_ok t -> granted mem -> carries data m -> is_Some (node_at t (ls_src m)) -> is_Some (node_at t (ls_dst m)) -> ready id notified 16 ->
  (forall r t' topo evs, tracker_ok t' -> tr_uuid t' = tr_uuid t -> tr_nodes t' = tr_nodes t ->
     (forall a b, adjacent t' a b <-> same_pair a b (ls_src m) (ls_dst m) /\ ls_connected m = true \/ ~ same_pair a b (ls_src m) (ls_dst m) /\ adjacent t a b) ->
     tr_events t' = tr_events t ++ Evt_topology topo :: evs -> describes t' topo ->
     forwarded (adjacent t' (tr_uuid t)) mdv_msg_p2p_linkstate_id data (members notified) evs -> Q (MDV_OK, r) t') ->
  wp mem (mdv_tracker_evt_broadcast qsort mdv_msg_p2p_linkstate_id data notified) t Q.
Proof.
  intros Hok Hg (obj & Hload & Hm) Hs Hd Hr HQ. unfold mdv_tracker_evt_broadcast, apply_broadcast. rewrite Hload. cbn [mdv_msg_p2p_linkstate_id mdv_msg_p2p_topodiff_id Z.eqb Pos.eqb].
  rewrite Hm. do 2 wp_step. apply linkstate_add_wp; [done|]. intros err t1 Hok1 Hnd1 Hu1 Hev1 Hmax1 Hrl Herr. rewrite (Herr Hg Hs Hd) in *.
  wp_steps. rewrite bool_decide_eq_true_2 by done. apply changed_wp; [done|done|]. intros topo Hdesc Ht.
  apply forward_wp; [by apply add_event_ok|done|done|done|done|]. intros r evs Hfw.
  assert (Hfold : forall evs t0, tracker_ok t0 -> tracker_ok (foldl add_event t0 evs) /\ tr_uuid (foldl add_event t0 evs) = tr_uuid t0 /\ tr_nodes (foldl add_event t0 evs) = tr_nodes t0
    /\ tr_links (foldl add_event t0 evs) = tr_links t0 /\ tr_events (foldl add_event t0 evs) = tr_events t0 ++ evs).
  { clear. induction evs as [|e evs IH]; intros t0 Ht0; cbn [foldl]; [by rewrite app_nil_r|].
    destruct (IH (add_event t0 e) (add_event_ok _ _ Ht0)) as (? & -> & -> & -> & ->). tr_simpl. by rewrite <- app_assoc. }
  destruct (Hfold evs (add_event t1 (Evt_topology topo)) (add_event_ok _ _ Hok1)) as (Hok2 & Hu2 & Hnd2 & Hl2 & He2).
  assert (Hsame : forall t2, tr_nodes t2 = tr_nodes t1 -> tr_links t2 = tr_links t1 -> forall a b, adjacent t2 a b = adjacent t1 a b).
  { intros t2 E1 E2 a b. unfold adjacent, node_at, link_at. by rewrite E1, E2. }
  destruct (Hrl eq_refl) as (x & y & Hx & Hy & Hrl'). apply (HQ r _ topo evs).
  - done.
  - rewrite Hu2. by rewrite <- Hu1.
  - by rewrite Hnd2.
  - intros a b. rewrite (Hsame _ Hnd2 Hl2), (adjacent_relinked t t1 _ _ x y _ a b Hok Hnd1 Hx Hy Hrl'). destruct (ls_connected m); [by intuition eauto|].
    split; intros [[? Hc]|?]; try (by right); by destruct Hc.
  - rewrite He2. tr_simpl. by rewrite Hev1, <- app_assoc.
  - unfold describes, node_at in *. by rewrite Hnd2, Hl2.
  - cbn [tr_uuid add_event] in Hfw. rewrite Hu1 in Hfw. destruct Hfw; econstructor; try done;
      setoid_rewrite (Hsame _ Hnd2 Hl2); try done.
Qed.

(** ** Differences of topologies *)

(** The nodes and links of a difference become known.  The addresses of known
    nodes are the same, or no request is refused. *)
Lemma register_all_wp nodes : forall t (Q : mdv_errno -> mdv_tracker -> Prop),
  tracker_ok t -> (tr_max_id t + Z.of_nat (length nodes) < 2 ^ 32 - 1)%Z -> NoDup (n_uuid <$> nodes) ->
  Forall (fun x => stable t (n_uuid x) (n_addr x)) nodes \/ granted mem ->
  (forall err t', tracker_ok t' -> keeps t t' -> tr_uuid t' = tr_uuid t -> tr_links t' = tr_links t -> tr_events t' = tr_events t ->
     (forall v, v ∉ n_uuid <$> nodes -> node_at t' v = node_at t v) ->
     (err = MDV_OK -> forall x, x ∈ nodes -> exists y, node_at t' (n_uuid x) = Some y /\ cn_addr y = n_addr x) ->
     (granted mem -> MdbReliable -> MdbRoom -> Forall (fun x => length (n_addr x) < MDV_ADDR_LEN_MAX) nodes -> err = MDV_OK) -> Q err t') ->
  wp mem (register_all nodes) t Q.
Proof.
  induction nodes as [|x nodes IH]; intros t Q Hok Hmax Hnd Hst HQ; cbn [register_all length] in *.
  { wp_steps. apply HQ; try done; [by intros u y Hy; exists y|]. intros _ x Hx. by apply elem_of_nil in Hx. }
  apply NoDup_cons in Hnd as [Hx Hnd]. wp_step. apply register_wp; [done|lia|destruct Hst as [[? _]%Forall_cons|]; auto|].
  intros err t1 Hok1 Hk1 Hu1 Hl1 He1 Hm1 Hoth1 Hin1 Herr1. destruct (decide (err = MDV_OK)) as [->|Hne].
  2: { wp_steps. apply HQ; try done; [intros v [Hv _]%not_elem_of_cons; by apply Hoth1|]. intros Hg Hr Hroom [Ha _]%Forall_cons. by destruct (Hne (Herr1 Hg Hr Hroom Ha)). }
  assert (Hdiff : forall y, y ∈ nodes -> n_uuid y <> n_uuid x) by (intros y Hy E; destruct Hx; rewrite <- E; by apply list_elem_of_fmap_2).
  apply IH; [done|lia|done| |].
  - destruct Hst as [[_ Hst]%Forall_cons|]; [left|by right]. apply Forall_forall. intros y Hy z Hz. rewrite (Hoth1 _ (Hdiff y Hy)) in Hz.
    eapply Forall_forall in Hst; [|exact Hy]. by apply Hst.
  - intros err t2 Hok2 Hk2 Hu2 Hl2 He2 Hoth2 Hin2 Herr2. apply HQ; [done| |congruence..| | |].
    + intros u y Hy. destruct (Hk1 u y Hy) as (y1 & Hy1 & E1), (Hk2 u y1 Hy1) as (y2 & Hy2 & E2). exists y2. split; [done|congruence].
    + intros v [Hv Hv']%not_elem_of_cons. by rewrite (Hoth2 v Hv'), (Hoth1 v Hv).
    + intros -> y [-> | Hy]%elem_of_cons; [|by apply Hin2]. destruct (Hin1 eq_refl) as (y1 & Hy1 & Ea).
      exists y1. by rewrite Hoth2.
    + intros Hg Hr Hroom [_ Ha]%Forall_cons. by apply Herr2.
Qed.

Lemma neighbour_cons nodes l links a b :
  neighbour nodes (l :: links) a b
  <-> match resolve nodes l with
      | Some r => n_uuid r.1.1 = a /\ n_uuid r.1.2 = b \/ n_uuid r.1.2 = a /\ n_uuid r.1.1 = b
      | None => False
      end \/ neighbour nodes links a b.
Proof.
  unfold neighbour. split.
  - intros (l' & r & [-> | Hl]%elem_of_cons & Hr & Hab); [left; by rewrite Hr|right; by exists l', r].
  - intros [Hab|(l' & r & Hl & Hr & Hab)]; [|exists l', r; split; [by right|done]]. destruct (resolve nodes l) as [r|] eqn:Er; [|done]. exists l, r. split; [by left|done].
Qed.

Lemma link_all_wp nodes links : valid nodes links -> forall t (Q : mdv_errno -> mdv_tracker -> Prop), tracker_ok t ->
  (forall err t', tracker_ok t' -> tr_nodes t' = tr_nodes t -> tr_uuid t' = tr_uuid t -> tr_events t' = tr_events t ->
     (err = MDV_OK -> forall a b, adjacent t' a b <-> adjacent t a b \/ neighbour nodes links a b) ->
     (granted mem -> (forall x, x ∈ nodes -> is_Some (node_at t (n_uuid x))) -> err = MDV_OK) -> Q err t') ->
  wp mem (link_all nodes links) t Q.
Proof.
  induction links as [|l links IH]; intros Hv t Q Hok HQ; cbn [link_all].
  { wp_steps. apply HQ; try done. intros _ a b. split; [by left|]. intros [?|(l & r & Hl & _)]; [done|by apply elem_of_nil in Hl]. }
  destruct (Hv l ltac:(left)) as [[[src dst] w] Hl]. pose proof (proj1 (resolve_Some _ _ _ _ _) Hl) as (E0 & E1 & _). rewrite E0, E1. wp_step.
  apply linkstate_add_wp; [done|]. intros err t1 Hok1 Hnd1 Hu1 He1 _ Hrl Herr. destruct (decide (err = MDV_OK)) as [->|Hne].
  2: { wp_steps. apply HQ; try done. intros Hg Hk. destruct Hne. apply Herr; [done|..]; apply Hk; by eapply lookupZ_elem. }
  destruct (Hrl eq_refl) as (x & y & Hx & Hy & Hrl'). apply IH; [intros l' Hl'; apply Hv; by right|done|].
  intros err t2 Hok2 Hnd2 Hu2 He2 Hadj Herr2. apply HQ; [done|congruence..| |].
  - intros E a b. rewrite (Hadj E), (adjacent_relinked t t1 _ _ x y _ a b Hok Hnd1 Hx Hy Hrl'), neighbour_cons, Hl. cbn.
    assert (Hadj1 : same_pair a b (n_uuid src) (n_uuid dst) \/ ~ same_pair a b (n_uuid src) (n_uuid dst)).
    { destruct (decide (a = n_uuid src /\ b = n_uuid dst \/ a = n_uuid dst /\ b = n_uuid src)); [by left|by right]. }
    unfold same_pair in *. intuition eauto.
  - intros Hg Hk. apply Herr2; [done|]. intros z Hz. unfold node_at. rewrite Hnd1. by apply Hk.
Qed.

Lemma topodiff_wp t diff (Q : mdv_errno -> mdv_tracker -> Prop) :
  tracker_ok t -> valid (t_nodes diff) (t_links diff) -> (tr_max_id t + Z.of_nat (length (t_nodes diff)) < 2 ^ 32 - 1)%Z -> NoDup (n_uuid <$> t_nodes diff) ->
  Forall (fun x => stable t (n_uuid x) (n_addr x)) (t_nodes diff) \/ granted mem ->
  (forall err t', tracker_ok t' -> keeps t t' -> tr_uuid t' = tr_uuid t -> tr_events t' = tr_events t ->
     (err = MDV_OK -> forall a b, adjacent t' a b <-> adjacent t a b \/ neighbour (t_nodes diff) (t_links diff) a b) ->
     (err = MDV_OK -> forall x, x ∈ t_nodes diff -> exists y, node_at t' (n_uuid x) = Some y /\ cn_addr y = n_addr x) ->
     (granted mem -> MdbReliable -> MdbRoom -> Forall (fun x => length (n_addr x) < MDV_ADDR_LEN_MAX) (t_nodes diff) -> err = MDV_OK) -> Q err t') ->
  wp mem (mdv_tracker_topodiff_add diff) t Q.
Proof.
  intros Hok Hv Hmax Hnd Hst HQ. unfold mdv_tracker_topodiff_add. wp_step. apply register_all_wp; [done..|].
  intros err t1 Hok1 Hk1 Hu1 Hl1 He1 _ Hin1 Herr1. destruct (decide (err = MDV_OK)) as [->|Hne].
  2: { wp_steps. apply HQ; try done. intros Hg Hr Hroom Ha. by destruct (Hne (Herr1 Hg Hr Hroom Ha)). }
  apply link_all_wp; [done|done|]. intros err t2 Hok2 Hnd2 Hu2 He2 Hadj Herr2. apply HQ; [done| |congruence..| | |].
  - intros u x Hx. unfold node_at. rewrite Hnd2. by apply Hk1.
  - intros E a b. by rewrite (Hadj E), (adjacent_keeps t t1 a b Hok Hok1 Hk1 Hl1).
  - intros _ x Hx. destruct (Hin1 eq_refl x Hx) as (y & Hy & Ea). exists y. unfold node_at. by rewrite Hnd2.
  - intros Hg _ _ _. apply Herr2; [done|]. intros x Hx. destruct (Hin1 eq_refl x Hx) as (y & Hy & _). eauto.
Qed.

End Correct.

(** ** An example *)

Definition me : mdv_uuid := mk_uuid 1 1.
Definition peer_a : mdv_uuid := mk_uuid 2 2.
Definition peer_b : mdv_uuid := mk_uuid 3 3.
Definition yes (_ : nat) : bool := true.

(** A tracker on an empty storage. *)
Lemma new_tracker u : exists t, mdv_tracker_create 8 yes u empty_storage [109]%Z = Done (Some t, [], tr_storage t) /\ tracker_ok 2 t
  /\ tr_max_id t = 0%Z /\ tr_uuid t = u /\ tr_events t = [] /\ (forall a b, ~ adjacent t a b).
Proof.
  apply (create_ok 2); [lia|done|apply _|apply _|done| |cbn; unfold MDV_ADDR_LEN_MAX; lia|lia].
  split; [done|]. intros k v. split; [done|]. intros (node & Hnode & _). done.
Qed.

Definition link (a b : mdv_uuid) (c : bool) : mdv_evt_link_state := mk_link_state b a [97]%Z b [98]%Z c.

(** ** Theorems *)

(** C16: the tracker refines the graph of links that the events describe: after any
    sequence of events about links, two nodes are linked exactly if the last event
    about them says so (or if they were linked before and there is none), the handler
    of link checks answers so, and the last published topology shows exactly these
    links.  The tracker is one whose local numbers are unique and not above the
    largest ([tracker_ok]), as one made on a storage without nodes is and stays
    ([create_ok]); one made on a storage with nodes need not be, and there the
    statement is false ([mdv_tracker_restart_collides]).  Memory is granted, the
    storage works, and the addresses are short. *)
Theorem mdv_tracker_follows_links `{Mdb, !MdbCursor, !MdbLaws, !MdbCursorLaws, BinnLaws} (n : Z) mem qsort es t k :
  (1 <= n < 2 ^ 32 - 4)%Z -> (forall l, qsort l ≡ₚ l) -> granted mem -> MdbReliable -> MdbRoom -> Forall short_addrs es ->
  tracker_ok n t -> (tr_max_id t + 2 * Z.of_nat (length es) < 2 ^ 32 - 1)%Z ->
  let linked := foldl step_graph (adjacent t) es in
  exists k' t', handle_links qsort es mem k t = Done (replicate (length es) MDV_OK, k', t') /\ tracker_ok n t'
    /\ (forall a b, adjacent t' a b <-> linked a b)
    /\ (forall a b c j, exists r j', mdv_tracker_evt_link_check a b c mem j t' = Done ((MDV_OK, r), j', t') /\ (r = true <-> linked a b))
    /\ (es <> [] -> exists topo evs evs', tr_events t' = evs ++ Evt_topology topo :: evs' /\ Forall (fun ev => ~ is_topology ev) evs'
          /\ forall a b, neighbour (t_nodes topo) (t_links topo) a b <-> linked a b).
Proof.
  intros Hn Hsort Hg Hrel Hroom Hes Hok Hmax linked.
  destruct (handle_links_wp n Hn mem qsort Hsort es Hg Hrel Hroom Hes t
    (fun r t' => r = replicate (length es) MDV_OK /\ tracker_ok n t' /\ (forall a b, adjacent t' a b <-> linked a b) /\ (es <> [] -> shown t')) Hok Hmax) with (k := k)
    as (r & k' & t' & E & -> & Hok' & Hadj & Hshown).
  { intros t' Hok' _ _ Hadj Hshown. split_and!; try done. intros Hne. apply Hshown. by left. }
  exists k', t'. split_and!; try done.
  - intros a b c j. destruct (link_check_wp n mem t' a b c (fun r t'' => t'' = t' /\ r.1 = MDV_OK /\ (r.2 = true <-> linked a b)) Hok' Hg) with (k := j) as ([e r] & j' & t'' & Ej & -> & He & Hr).
    { intros r Hr. split_and!; try done. cbn. by rewrite Hr, Hadj. }
    cbn in He, Hr. subst e. by exists r, j'.
  - intros Hne. destruct (Hshown Hne) as (topo & evs & evs' & Hd & He & Hev). exists topo, evs, evs'. split_and!; try done.
    intros a b. by rewrite (describes_neighbour n t' topo a b Hok' Hd), Hadj.
Qed.

(** Two links go up, one of them down again. *)
Lemma mdv_tracker_follows_links_witness :
  exists t k' t', mdv_tracker_create 8 yes me empty_storage [109]%Z = Done (Some t, [], tr_storage t)
    /\ handle_links (fun l => l) [link me peer_a true; link me peer_b true; link peer_a me false] yes 0 t = Done ([MDV_OK; MDV_OK; MDV_OK], k', t')
    /\ adjacent t' me peer_b /\ ~ adjacent t' me peer_a.
Proof.
  destruct (new_tracker me) as (t & Ec & Hok & Hm & _).
  destruct (mdv_tracker_follows_links 2 yes (fun l => l) [link me peer_a true; link me peer_b true; link peer_a me false] t 0) as (k' & t' & E & _ & Hadj & _).
  - lia.
  - done.
  - done.
  - apply _.
  - apply _.
  - repeat constructor; vm_compute; lia.
  - done.
  - clear Ec. rewrite Hm. done.
  - exists t, k', t'. split; [exact Ec|]. split; [exact E|]. split.
    + clear Ec E. apply Hadj. right. split; [by intros [[? ?]|[? ?]]|]. left. split; [by left|done].
    + clear Ec E. intros Hx%Hadj. destruct Hx as [[_ ?]|[Hx _]]; [done|]. apply Hx. by right.
Defined.

(** C19: a difference of topologies that a node receives leaves the tracker well formed:
    local numbers stay unique and do not change, links end at known nodes.  If it
    reports no error, the links are those of before and those of the difference, and
    the nodes of the difference are known with their addresses; if nothing is refused,
    there is no error.  The allocator, the mutexes and the storage answer as they will
    if no node of the difference is known with another address, and grant everything
    otherwise: without memory a node whose address changed is lost.  The tracker is
    well formed before ([tracker_ok], which does not hold after a restart with stored
    nodes), and the difference lists a node once. *)
Theorem mdv_tracker_topodiff_correct `{Mdb, !MdbCursor, !MdbLaws, !MdbCursorLaws, BinnLaws} (n : Z) mem diff t k :
  (1 <= n < 2 ^ 32 - 4)%Z -> tracker_ok n t -> valid (t_nodes diff) (t_links diff) -> (tr_max_id t + Z.of_nat (length (t_nodes diff)) < 2 ^ 32 - 1)%Z ->
  NoDup (n_uuid <$> t_nodes diff) -> Forall (fun x => stable t (n_uuid x) (n_addr x)) (t_nodes diff) \/ granted mem ->
  exists err k' t', mdv_tracker_topodiff_add diff mem k t = Done (err, k', t') /\ tracker_ok n t' /\ keeps t t'
    /\ (err = MDV_OK -> (forall a b, adjacent t' a b <-> adjacent t a b \/ neighbour (t_nodes diff) (t_links diff) a b)
          /\ forall x, x ∈ t_nodes diff -> exists y, node_at t' (n_uuid x) = Some y /\ cn_addr y = n_addr x)
    /\ (granted mem -> MdbReliable -> MdbRoom -> Forall (fun x => length (n_addr x) < MDV_ADDR_LEN_MAX) (t_nodes diff) -> err = MDV_OK).
Proof.
  intros Hn Hok Hv Hmax Hnd Hst. revert k. change (wp mem (mdv_tracker_topodiff_add diff) t (fun err t' => tracker_ok n t' /\ keeps t t'
    /\ (err = MDV_OK -> (forall a b, adjacent t' a b <-> adjacent t a b \/ neighbour (t_nodes diff) (t_links diff) a b)
          /\ forall x, x ∈ t_nodes diff -> exists y, node_at t' (n_uuid x) = Some y /\ cn_addr y = n_addr x)
    /\ (granted mem -> MdbReliable -> MdbRoom -> Forall (fun x => length (n_addr x) < MDV_ADDR_LEN_MAX) (t_nodes diff) -> err = MDV_OK))).
  apply (topodiff_wp n Hn); [done..|]. intros err t' Hok' Hk' _ _ Hadj Hin Herr. split_and!; try done. auto.
Qed.

Definition demo_diff : mdv_topology :=
  mk_topology 1 [mk_node me 0 [109]%Z; mk_node peer_a 1 [97]%Z] [mk_link 0 1 1] [].

Lemma mdv_tracker_topodiff_correct_witness :
  exists t k' t', mdv_tracker_create 8 yes me empty_storage [109]%Z = Done (Some t, [], tr_storage t)
    /\ mdv_tracker_topodiff_add demo_diff yes 0 t = Done (MDV_OK, k', t') /\ adjacent t' me peer_a.
Proof.
  destruct (new_tracker me) as (t & Ec & Hok & Hm & _).
  destruct (mdv_tracker_topodiff_correct 2 yes demo_diff t 0) as (err & k' & t' & E & _ & _ & Hadj & Herr).
  - lia.
  - done.
  - intros l Hl. apply list_elem_of_singleton in Hl as ->. by eexists.
  - rewrite Hm. done.
  - clear Ec. repeat constructor; set_solver.
  - right. exact (fun _ => eq_refl).
  - specialize (Herr (fun _ => eq_refl) _ _ ltac:(repeat constructor; vm_compute; lia)). subst err. exists t, k', t'. split_and!; [done..|].
    apply Hadj; [done|]. right. exists (mk_link 0 1 1). eexists. split; [exact (list_elem_of_here _ _)|]. split; [reflexivity|]. left. by split.
Defined.

(** C36: after a restart local numbers are given twice.  The largest number is not
    taken from the stored nodes: a tracker that is made on a storage with a node of
    number 1 (the first node that a tracker ever learned of has it) knows all stored
    nodes and gives number 1 again to the first new node.  When the link to the new
    node is reported, the tracker takes it for a link to the stored node, too: a
    check of a link to the stored node, of which nothing was reported since the
    restart, answers that it is there. *)
Theorem mdv_tracker_restart_collides `{Mdb, !MdbCursor, !MdbLaws, !MdbCursorLaws, BinnLaws} (n : Z) mem fuel uuid storage listen m v x u addr w :
  (1 <= n < 2 ^ 32 - 4)%Z -> granted mem -> MdbReliable -> MdbCursorReliable -> MdbRoom -> Session.live (n - 1) storage -> nodes_in (db (s_env storage)) m ->
  length listen < MDV_ADDR_LEN_MAX -> length addr < MDV_ADDR_LEN_MAX -> size m + 1 < fuel ->
  m !! v = Some x -> cn_id x = 1%Z -> v <> uuid -> m !! u = None -> u <> uuid ->
  exists t t1 t2 k1 k2 k3 y, mdv_tracker_create fuel mem uuid storage listen = Done (Some t, [], tr_storage t)
    /\ (forall a node, m !! a = Some node -> node_at t a = Some node) /\ (forall a, link_at t a = None)
    /\ mdv_tracker_register u addr mem 0 t = Done (MDV_OK, k1, t1) /\ node_at t1 v = Some x /\ node_at t1 u = Some y /\ cn_id y = cn_id x
    /\ mdv_tracker_linkstate_add uuid u true w mem k1 t1 = Done (MDV_OK, k2, t2)
    /\ mdv_tracker_evt_link_check uuid v false mem k2 t2 = Done ((MDV_OK, true), k3, t2).
Proof.
  intros Hn Hg Hrel Hcur Hroom Hlive Hin Hlen Hlen' Hf Hv Hx Hvu Hu Huu.
  destruct (create_stored n Hn mem fuel uuid storage listen m Hg Hrel Hcur Hlive Hin Hlen Hf) as (t & -> & Hm & Hmax & Eu & Hnol & Hat & Hnew).
  destruct (register_next_wp n Hn mem t u addr (fun err t1 => err = MDV_OK /\ maps_ok n t1 /\ tr_uuid t1 = uuid /\ node_at t1 v = Some x /\ node_at t1 u = Some (mk_cnode u 1 addr))) with (k := 0)
    as (err & k1 & t1 & E1 & -> & Hm1 & Eu1 & Hv1 & Hu1); try done; [by rewrite Hmax|by apply Hnew| |].
  { intros t1 Hm1 Eu1 _ Hu1 Hother. split_and!; try done; [congruence| |by rewrite Hmax in Hu1]. rewrite Hother; [by apply Hat|]. intros ->. congruence. }
  destruct (link_wp n mem t1 u (mk_cnode u 1 addr) w (fun err t2 => err = MDV_OK /\ maps_ok n t2 /\ tr_uuid t2 = uuid /\ tr_nodes t2 = tr_nodes t1 /\ is_Some (link_at t2 (MDV_LOCAL_ID, 1%Z)))) with (k := k1)
    as (err & k2 & t2 & E2 & -> & Hm2 & Eu2 & En2 & Hl2); try done; [congruence| |].
  { intros t2 Hm2 Eu2 En2 Hl2. split_and!; try done. congruence. }
  destruct (link_known_wp n mem t2 v x false (fun r t3 => r = (MDV_OK, true) /\ t3 = t2)) with (k := k2) as (r & k3 & t3 & E3 & -> & ->); try done; [congruence|unfold node_at; by rewrite En2|by rewrite Hx|].
  rewrite Eu1 in E2. rewrite Eu2 in E3. exists t, t1, t2, k1, k2, k3, (mk_cnode u 1 addr). split_and!; done || congruence.
Qed.

(** A node that learned of [peer_a] in an earlier run learns of [peer_b]. *)
Lemma mdv_tracker_restart_collides_witness :
  exists storage t t1 t2 k1 k2 k3 y, mdv_tracker_create 8 yes me storage [109]%Z = Done (Some t, [], tr_storage t)
    /\ mdv_tracker_register peer_b [98]%Z yes 0 t = Done (MDV_OK, k1, t1) /\ node_at t1 peer_a = Some (mk_cnode peer_a 1 [97]%Z) /\ node_at t1 peer_b = Some y /\ cn_id y = 1%Z
    /\ mdv_tracker_linkstate_add me peer_b true 1 yes k1 t1 = Done (MDV_OK, k2, t2)
    /\ mdv_tracker_evt_link_check me peer_a false yes k2 t2 = Done ((MDV_OK, true), k3, t2).
Proof.
  destruct (store_runs 1 ltac:(lia) yes empty_storage ∅ (mk_cnode peer_a 1 [97]%Z)) as (storage & err & _ & Hl & Hcase & Hrel).
  { done. }
  { split; [done|]. intros k v. split; [done|]. intros (node & Hnode & _). done. }
  { split_and!; [vm_compute; repeat split; congruence|vm_compute; split; congruence|repeat constructor; vm_compute; congruence|vm_compute; lia|vm_compute; reflexivity]. }
  specialize (Hrel _ _ (fun _ => eq_refl)). destruct Hcase as [[_ Hin]|[-> _]]; [|done]. exists storage.
  destruct (mdv_tracker_restart_collides 2 yes 8 me storage [109]%Z (<[peer_a := mk_cnode peer_a 1 [97]%Z]> ∅) peer_a (mk_cnode peer_a 1 [97]%Z) peer_b [98]%Z 1)
    as (t & t1 & t2 & k1 & k2 & k3 & y & E & _ & _ & E1 & Hv & Hu & Ey & E2 & E3).
  - lia.
  - exact (fun _ => eq_refl).
  - apply _.
  - apply _.
  - apply _.
  - exact Hl.
  - exact Hin.
  - apply Nat.ltb_lt. reflexivity.
  - apply Nat.ltb_lt. reflexivity.
  - rewrite map_size_insert_None, map_size_empty by apply lookup_empty. lia.
  - apply lookup_insert_eq.
  - reflexivity.
  - discriminate.
  - rewrite lookup_insert_ne by discriminate. apply lookup_empty.
  - discriminate.
  - exists t, t1, t2, k1, k2, k3, y. exact (conj E (conj E1 (conj Hv (conj Hu (conj Ey (conj E2 E3)))))).
Defined.

End Tracker.
