(* ===== verification/Flooding.v ===== *)
(** * Broadcasts in a network of nodes

    Trackers of several nodes together: a node whose link goes down tells its
    neighbours (src/mdv_core/mdv_tracker.c), each connection to a peer among the
    receivers sends the message (src/mdv_core/mdv_peer.c), and a node that gets it
    changes its own links and sends the message on.  The messages are delivered in
    any order. *)

From stdpp Require Import strings.
From S2P Require Import Prelude Uuid Hashmap Topology Lmdb Memdb Session Binn P2pmsg Nodes Action Tracker.
Import Uuid Hashmap Topology Lmdb Memdb Binn P2pmsg Nodes Action Tracker.
#[local] Open Scope string_scope.
#[local] Open Scope nat_scope.
#[local] Open Scope list_scope.

Module Flooding.

Section Flooding.
Context `{Mdb, !MdbCursor, Binn} (qsort : list mdv_toponode -> list mdv_toponode).

(** The nodes, and the messages on their way: the receiver and the set of nodes
    that were notified. *)
Record network := mk_network { nw_nodes : gmap mdv_uuid mdv_tracker; nw_copies : list (mdv_uuid * hashset) }.

(** Of the connections to peers, those of the receivers send the message. *)
Definition mdv_peer_evt_broadcast_post (peer : mdv_uuid) (e : tracker_event) : option (mdv_uuid * hashset) :=
  match e with
  | Evt_broadcast_post _ _ notified peers =>
      match mdv_hashmap_find id peers peer with
      | Some (Some _) => Some (peer, notified)
      | _ => None
      end
  | _ => None
  end.

(** What is sent for the events; [conns]: the peers with a connection. *)
Definition sent (conns : list mdv_uuid) (evs : list tracker_event) : list (mdv_uuid * hashset) :=
  evs ≫= fun e => omap (fun peer => mdv_peer_evt_broadcast_post peer e) conns.

(** A message about a link is delivered: the receiver handles it, and sends what
    it publishes.  [conns]: the connections of the nodes.  The message is given as its
    contents; that the peers write and read it as the same contents is the subject
    of [P2pmsg] and [Peer]. *)
Inductive delivered (conns : mdv_uuid -> list mdv_uuid) (data : bytes) : network -> network -> Prop :=
| deliver_copy mem k w l1 u notified l2 t r k' t' :
    granted mem -> w !! u = Some t ->
    mdv_tracker_evt_broadcast qsort mdv_msg_p2p_linkstate_id data notified mem k t = Done (r, k', t') ->
    delivered conns data (mk_network w (l1 ++ (u, notified) :: l2))
      (mk_network (<[u := t']> w) (l1 ++ l2 ++ sent (conns u) (drop (length (tr_events t)) (tr_events t')))).

End Flooding.

(** ** How many messages *)

(** More than the messages that follow from one whose set lacks [k] nodes. *)
Fixpoint budget (k : nat) : nat := match k with 0 => 1 | S k' => 1 + S k' * budget k' end.

Lemma budget_mono k k' : k <= k' -> budget k <= budget k'.
Proof. induction 1 as [|k' _ IH]; [done|]. cbn [budget]. nia. Qed.

Lemma budget_pos k : 0 < budget k.
Proof. destruct k; cbn [budget]; lia. Qed.

(** [j] new nodes, each with a message that lacks [j] nodes less. *)
Lemma budget_split k j : 0 < j <= k -> j * budget (k - j) < budget k.
Proof. intros Hj. destruct k as [|k]; [lia|]. pose proof (budget_mono (S k - j) k ltac:(lia)). cbn [budget]. nia. Qed.

(** An event that is handled twice. *)
Lemma step_idem e (G G' : mdv_uuid -> mdv_uuid -> Prop) : (forall a b, G' a b <-> step_graph G e a b) -> forall a b, step_graph G' e a b <-> G' a b.
Proof. intros HG a b. unfold step_graph at 1. rewrite HG. unfold step_graph. destruct (decide (a = lk_src e /\ b = lk_dst e \/ a = lk_dst e /\ b = lk_src e)); unfold same_pair; tauto. Qed.

Section Correct.
Context `{Mdb, !MdbCursor, !MdbLaws, !MdbCursorLaws, BinnLaws}.
Context (n : Z) (Hn : (1 <= n < 2 ^ 32 - 4)%Z).
Context (qsort : list mdv_toponode -> list mdv_toponode) (Hsort : forall l, qsort l ≡ₚ l).

(** The graph after the event, its nodes and the connections between them. *)
Context (e : mdv_evt_link_state) (graph : mdv_uuid -> mdv_uuid -> Prop) (V : gset mdv_uuid) (conns : mdv_uuid -> list mdv_uuid).
Context (data : bytes) (Hdata : carries data (mk_linkstate (lk_src e) (lk_dst e) (lk_connected e))).
Context (Hgraph : forall a b, graph a b -> a ∈ V /\ b ∈ V).
Context (Hconns : forall a, NoDup (conns a) /\ forall b, graph a b -> b ∈ conns a).

(** The node knows the ends of the link, and has the graph or gets it from the event. *)
Definition node_good (u : mdv_uuid) (t : mdv_tracker) : Prop :=
  tracker_ok n t /\ tr_uuid t = u /\ is_Some (node_at t (lk_src e)) /\ is_Some (node_at t (lk_dst e))
  /\ forall a b, step_graph (adjacent t) e a b <-> graph a b.

Definition good (st : network) : Prop :=
  dom (nw_nodes st) = V /\ (forall u t, nw_nodes st !! u = Some t -> node_good u t)
  /\ forall c, c ∈ nw_copies st -> c.1 ∈ V /\ ready id c.2 16 /\ members c.2 ⊆ V.

Definition weight (st : network) : nat := list_sum ((fun c => budget (size (V ∖ members c.2))) <$> nw_copies st).

(** The node has the graph of after the event. *)
Definition informed (st : network) (u : mdv_uuid) : Prop := exists t, nw_nodes st !! u = Some t /\ forall a b, adjacent t a b <-> graph a b.

(** Nodes that were sent the message have it on its way, or have handled it and
    sent it to all their neighbours. *)
Definition spread (origin : mdv_uuid) (st : network) : Prop :=
  exists told : gset mdv_uuid, (forall v, graph origin v -> v ∈ told)
    /\ (forall c, c ∈ nw_copies st -> c.1 ∈ told /\ members c.2 ⊆ told)
    /\ forall u, u ∈ told -> u ∈ (nw_copies st).*1 \/ informed st u /\ forall v, graph u v -> v ∈ told.

Lemma omap_nothing {A B} (f : A -> option B) l : (forall a, f a = None) -> omap f l = [].
Proof. intros Hf. induction l as [|a l IH]; [done|]. cbn [omap list_omap]. by rewrite Hf. Qed.

(** The messages of one event: one for each receiver. *)
Lemma sent_post u msg_id notified peers :
  ready id peers 16 -> (forall v, v ∈ members peers -> v ∈ conns u) ->
  sent (conns u) [Evt_broadcast_post msg_id data notified peers] ≡ₚ (fun v => (v, notified)) <$> elements (members peers).
Proof.
  intros Hr Hin. unfold sent. cbn [mbind list_bind]. rewrite app_nil_r. destruct (Hconns u) as [Hnd _]. apply NoDup_Permutation.
  - clear Hin. induction Hnd as [|v l Hv Hnd IH]; [constructor|]. cbn [omap list_omap mdv_peer_evt_broadcast_post]. rewrite (find_lookup id peers v (proj1 Hr)).
    destruct (Hashmap.lookup id peers v); [|done]. constructor; [|done]. intros (v' & Hv' & E)%list_elem_of_omap. cbn in E.
    destruct (mdv_hashmap_find id peers v') as [[?|]|]; [|done..]. injection E as ->. done.
  - apply NoDup_fmap; [intros ? ? [=]; done|]. apply NoDup_elements.
  - intros [v s]. rewrite list_elem_of_omap, list_elem_of_fmap. cbn [mdv_peer_evt_broadcast_post]. split.
    + intros (v' & Hv' & E). rewrite (find_lookup id peers v' (proj1 Hr)) in E. destruct (Hashmap.lookup id peers v') as [x|] eqn:Ex; [|done]. injection E as <- <-.
      exists v'. split; [done|]. apply elem_of_elements, elem_of_members; [apply Hr|]. rewrite Ex. f_equal. by eapply lookup_uuid; [apply Hr|].
    + intros (v' & E & Hv'%elem_of_elements). injection E as -> ->. exists v'. split; [by apply Hin|]. apply elem_of_members in Hv'; [|apply Hr].
      by rewrite (find_lookup id peers v' (proj1 Hr)), Hv'.
Qed.

(** A delivery: the receiver has the graph, and its neighbours that were not
    notified are sent the message. *)
Lemma handled mem k u notified t : node_good u t -> ready id notified 16 -> granted mem ->
  exists r k' t' (news : gset mdv_uuid) notified', mdv_tracker_evt_broadcast qsort mdv_msg_p2p_linkstate_id data notified mem k t = Done (r, k', t')
    /\ node_good u t' /\ (forall a b, adjacent t' a b <-> graph a b)
    /\ sent (conns u) (drop (length (tr_events t)) (tr_events t')) ≡ₚ (fun v => (v, notified')) <$> elements news
    /\ (forall v, v ∈ news <-> graph u v /\ v ∉ members notified)
    /\ (news = ∅ \/ ready id notified' 16 /\ members notified' = news ∪ members notified).
Proof.
  intros (Hok & Hu & Hs & Hd & Hg) Hr Hgr.
  destruct (broadcast_linkstate_wp n Hn mem qsort Hsort t data _ notified
    (fun _ t' => tracker_ok n t' /\ tr_uuid t' = tr_uuid t /\ tr_nodes t' = tr_nodes t /\ (forall a b, adjacent t' a b <-> graph a b)
       /\ exists topo evs, tr_events t' = tr_events t ++ Evt_topology topo :: evs
            /\ forwarded (adjacent t' (tr_uuid t)) mdv_msg_p2p_linkstate_id data (members notified) evs) Hok Hgr Hdata Hs Hd Hr) with (k := k)
    as (r & k' & t' & E & Hok' & Hu' & Hnd' & Hadj & topo & evs & Hevs & Hfw).
  { intros r t' topo evs Hok' Hu' Hnd' Hadj Hevs _ Hfw. split_and!; try done; [|by exists topo, evs]. intros a b. rewrite Hadj. apply Hg. }
  exists r, k', t'. assert (Hnear : forall v, adjacent t' (tr_uuid t) v <-> graph u v) by (intros v; by rewrite Hadj, Hu).
  assert (Hgood : node_good u t').
  { split_and!; try done; [congruence| | |]; try (unfold node_at; rewrite Hnd'; done). intros a b. rewrite (step_idem e (adjacent t) (adjacent t')); [apply Hadj|].
    intros c d. by rewrite Hadj, Hg. }
  rewrite Hevs, drop_app_length. cbn [sent mbind list_bind]. destruct Hfw as [Hall|notified' peers v Hn' Hp Hv Hv' Hpeers Hnot].
  - exists ∅, notified. split_and!; try done; [by rewrite elements_empty, omap_nothing| |by left].
    intros v. split; [set_solver|]. intros [Hv Hv']. destruct Hv'. apply Hall. by apply Hnear.
  - exists (members peers), notified'. split_and!; try done.
    + rewrite omap_nothing by done. apply sent_post; [done|]. intros x [Hx _]%Hpeers. apply Hconns. by apply Hnear.
    + intros x. by rewrite Hpeers, Hnear.
    + right. split; [done|]. apply set_eq. intros x. rewrite elem_of_union, Hnot, Hpeers, Hnear. destruct (decide (x ∈ members notified)); naive_solver.
Qed.

Lemma weight_app w w' w'' l l' : weight (mk_network w (l ++ l')) = weight (mk_network w' l) + weight (mk_network w'' l').
Proof. unfold weight. cbn [nw_copies]. by rewrite fmap_app, list_sum_app. Qed.

Lemma weight_perm w w' l l' : l ≡ₚ l' -> weight (mk_network w l) = weight (mk_network w' l').
Proof. intros Hl. unfold weight, list_sum. cbn [nw_copies]. induction Hl; cbn [fmap list_fmap fold_right] in *; lia. Qed.

Lemma weight_news w notified (news seen : gset mdv_uuid) :
  members notified = news ∪ seen -> news ⊆ V -> news ## seen -> news <> ∅ ->
  weight (mk_network w ((fun v => (v, notified)) <$> elements news)) < budget (size (V ∖ seen)).
Proof.
  intros Em Hsub Hdisj Hne. assert (Ew : weight (mk_network w ((fun v => (v, notified)) <$> elements news)) = size news * budget (size (V ∖ members notified))).
  { unfold weight, list_sum. cbn [nw_copies]. change (size news) with (length (elements news)). induction (elements news) as [|v l IH]; [done|]. cbn [fmap list_fmap fold_right length snd Nat.mul] in *. lia. }
  rewrite Ew, Em. assert (Hin : news ⊆ V ∖ seen) by set_solver.
  replace (V ∖ (news ∪ seen)) with ((V ∖ seen) ∖ news) by set_solver. rewrite size_difference by done. apply budget_split.
  pose proof (subseteq_size _ _ Hin). assert (size news <> 0) by (intros E%size_empty_inv; set_solver). lia.
Qed.

(** A step keeps the network in order, costs a part of the budget, and spreads. *)
Lemma deliver_good origin st st' : good st -> delivered qsort conns data st st' ->
  good st' /\ weight st' < weight st /\ (spread origin st -> spread origin st').
Proof.
  intros (Hdom & Hnodes & Hcopies) Hstep. destruct Hstep as [mem k w l1 u notified l2 t r k' t' Hgr Ht Hrun]. cbn [nw_nodes nw_copies] in *.
  assert (Hmid : (u, notified) ∈ l1 ++ (u, notified) :: l2) by (apply elem_of_app; right; left).
  assert (Hside : forall c, c ∈ l1 \/ c ∈ l2 -> c ∈ l1 ++ (u, notified) :: l2) by (intros c [?|?]; apply elem_of_app; [by left|right; by right]).
  destruct (Hcopies (u, notified) Hmid) as (Hu & Hr & Hseen). cbn [fst snd] in *.
  destruct (handled mem k u notified t (Hnodes u t Ht) Hr Hgr) as (r0 & k0 & t0 & news & notified' & E & Hgood & Hadj & Hsent & Hnews & Hcase).
  rewrite Hrun in E. injection E as <- <- <-. set (new := sent (conns u) (drop (length (tr_events t)) (tr_events t'))) in *.
  assert (Hnew : forall c, c ∈ new <-> exists v, v ∈ news /\ c = (v, notified')).
  { intros c. rewrite Hsent, list_elem_of_fmap. setoid_rewrite elem_of_elements. naive_solver. }
  assert (HnV : news ⊆ V) by (intros v [Hv _]%Hnews; exact (proj2 (Hgraph _ _ Hv))). split_and!.
  - split; [cbn; rewrite dom_insert_L; set_solver|]. split.
    + cbn. intros v x Hx. destruct (decide (u = v)) as [->|Hne]; [rewrite lookup_insert_eq in Hx; by injection Hx as <-|]. rewrite lookup_insert_ne in Hx by done. by apply Hnodes.
    + cbn. intros c Hc. rewrite !elem_of_app in Hc. destruct Hc as [Hc|[Hc|(v & Hv & ->)%Hnew]]; [apply Hcopies, Hside; auto..|]. cbn.
      destruct Hcase as [->|[Hr' Em]]; [set_solver|]. split; [by apply HnV|]. split; [done|]. rewrite Em. set_solver.
  - rewrite (weight_app _ w w), (weight_app _ w w), (weight_app w w w l1). replace ((u, notified) :: l2) with ([(u, notified)] ++ l2) by done. rewrite (weight_app w w w [_]).
    assert (E1 : weight (mk_network w [(u, notified)]) = budget (size (V ∖ members notified))) by (unfold weight; cbn; lia). rewrite E1.
    enough (weight (mk_network w new) < budget (size (V ∖ members notified))) by lia. rewrite (weight_perm w w new _ Hsent).
    destruct (decide (news = ∅)) as [->|Hne]; [rewrite elements_empty; apply budget_pos|]. destruct Hcase as [|[_ Em]]; [done|].
    apply weight_news; [done|done|set_solver|done].
  - intros (told & Horig & Htold & Hdone). cbn [nw_nodes nw_copies] in *. destruct (Htold (u, notified) Hmid) as [Hut Hst]. cbn [fst snd] in *.
    exists (told ∪ news). split; [set_solver|]. split.
    + intros c. cbn. rewrite !elem_of_app. intros [Hc|[Hc|(v & Hv & ->)%Hnew]]; [destruct (Htold c ltac:(apply Hside; auto)); set_solver..|]. cbn.
      destruct Hcase as [->|[_ Em]]; [set_solver|]. rewrite Em. set_solver.
    + intros v Hv. destruct (decide (v = u)) as [->|Hne].
      { right. split; [exists t'; cbn [nw_nodes]; by rewrite lookup_insert_eq|]. intros x Hx. destruct (decide (x ∈ members notified)); [set_solver|]. set_solver. }
      cbn. rewrite !fmap_app, !elem_of_app. apply elem_of_union in Hv as [Hv|Hv].
      * destruct (Hdone v Hv) as [Hc|[(x & Hx & Hax) Hnb]].
        -- left. rewrite fmap_app, elem_of_app in Hc. cbn in Hc. set_solver.
        -- right. split; [exists x; cbn [nw_nodes]; by rewrite lookup_insert_ne|set_solver].
      * left. right. right. apply list_elem_of_fmap. exists (v, notified'). split; [done|]. apply Hnew. by exists v.
Qed.

(** However the messages are delivered, their number is bounded. *)
Lemma deliver_acc st : good st -> Acc (fun b a => delivered qsort conns data a b) st.
Proof.
  remember (weight st) as k eqn:Ek. revert st Ek. induction k as [k IH] using lt_wf_ind. intros st -> Hgood. constructor. intros st' Hstep.
  destruct (deliver_good (lk_src e) st st' Hgood Hstep) as (Hgood' & Hw & _). by eapply IH.
Qed.

Lemma deliver_reachable origin st st' : good st -> spread origin st -> rtc (delivered qsort conns data) st st' -> good st' /\ spread origin st'.
Proof.
  intros Hg Hs Hr. induction Hr as [|st st1 st' Hstep _ IH]; [done|]. destruct (deliver_good origin st st1 Hg Hstep) as (Hg1 & _ & Hs1). by apply IH; [|apply Hs1].
Qed.

(** A message on its way can be delivered. *)
Lemma deliver_progress st : good st -> nw_copies st <> [] -> exists st', delivered qsort conns data st st'.
Proof.
  destruct st as [w [|[u notified] l]]; [done|]. intros (Hdom & Hnodes & Hcopies) _. cbn [nw_nodes nw_copies] in *.
  destruct (Hcopies (u, notified) ltac:(left)) as (Hu & Hr & _). cbn [fst snd] in *. rewrite <- Hdom in Hu. apply elem_of_dom in Hu as [t Ht].
  destruct (handled (fun _ => true) 0 u notified t (Hnodes u t Ht) Hr (fun _ => eq_refl)) as (r & k' & t' & _ & _ & E & _).
  eexists. by eapply (deliver_copy qsort conns data (fun _ => true) 0 w [] u notified l).
Qed.

(** A node that has the graph keeps it. *)
Lemma deliver_informed st st' u : good st -> informed st u -> rtc (delivered qsort conns data) st st' -> informed st' u.
Proof.
  intros Hg Hi Hr. revert Hg Hi. induction Hr as [|st st1 st' Hstep _ IH]; [done|]. intros Hg Hi. destruct (deliver_good u st st1 Hg Hstep) as (Hg1 & _). apply IH; [done|].
  destruct Hg as (_ & Hnodes & Hcopies), Hstep as [mem k w l1 v notified l2 t r k' t' Hgr Ht Hrun], Hi as (x & Hx & Hax). cbn [nw_nodes nw_copies] in *.
  destruct (decide (v = u)) as [->|Hne]; [|exists x; cbn; by rewrite lookup_insert_ne].
  destruct (Hcopies (u, notified) ltac:(apply elem_of_app; right; left)) as (_ & Hr & _).
  destruct (handled mem k u notified t (Hnodes u t Ht) Hr Hgr) as (r0 & k0 & t0 & _ & _ & E & _ & Hadj & _). rewrite Hrun in E. injection E as <- <- <-.
  exists t'. cbn. by rewrite lookup_insert_eq.
Qed.

(** When no message is left, all that are connected with the origin have the graph. *)
Lemma spread_done origin st v : spread origin st -> nw_copies st = [] -> tc graph origin v -> informed st v.
Proof.
  intros (told & Horig & _ & Hdone) Hnil Hpath. assert (Hin : v ∈ told).
  { induction Hpath as [x y Hxy|x y z Hxy _ IH]; [by apply Horig|]. apply IH. destruct (Hdone y (Horig y Hxy)) as [Hc|[_ Hnb]]; [|done].
    by rewrite Hnil in Hc; apply elem_of_nil in Hc. }
  destruct (Hdone v Hin) as [Hc|[Hi _]]; [by rewrite Hnil in Hc; apply elem_of_nil in Hc|done].
Qed.

End Correct.

(** ** A link goes down *)

Section Down.
Context `{Mdb, !MdbCursor, !MdbLaws, !MdbCursorLaws, BinnLaws}.
Context (n : Z) (Hn : (1 <= n < 2 ^ 32 - 4)%Z).
Context (qsort : list mdv_toponode -> list mdv_toponode) (Hsort : forall l, qsort l ≡ₚ l).

(** All nodes know the same links, between nodes of the network. *)
Definition agrees (w : gmap mdv_uuid mdv_tracker) (G : mdv_uuid -> mdv_uuid -> Prop) : Prop :=
  (forall u t, w !! u = Some t -> tracker_ok n t /\ tr_uuid t = u /\ forall a b, adjacent t a b <-> G a b)
  /\ forall a b, G a b -> a ∈ dom w /\ b ∈ dom w.

(** One connection with each neighbour. *)
Definition connected (conns : mdv_uuid -> list mdv_uuid) (G : mdv_uuid -> mdv_uuid -> Prop) : Prop :=
  forall a, NoDup (conns a) /\ forall b, G a b -> b ∈ conns a.

(** The node [o] finds that its link is down. *)
Record link_down (w : gmap mdv_uuid mdv_tracker) (G : mdv_uuid -> mdv_uuid -> Prop) (o : mdv_uuid) (e : mdv_evt_link_state) : Prop := {
  ld_from : lk_from e = o; ld_src : lk_src e = o; ld_down : lk_connected e = false;
  ld_link : G o (lk_dst e); ld_addrs : short_addrs e;
  ld_wf : Uuid.wf o /\ Uuid.wf (lk_dst e);
  ld_size : forall doc, makes (mdv_binn_p2p_linkstate (mk_linkstate o (lk_dst e) false)) doc -> (Z.of_nat (length (binn_bytes doc)) < 2 ^ 31)%Z;
  ld_room : forall t, w !! o = Some t -> (tr_max_id t + 2 < 2 ^ 32 - 1)%Z
}.

(** The message that was published. *)
Definition posts (t t' : mdv_tracker) (data : bytes) : Prop :=
  exists peers, Evt_broadcast_post mdv_msg_p2p_linkstate_id data peers peers ∈ drop (length (tr_events t)) (tr_events t').

Lemma down_start w G o e conns t mem k :
  granted mem -> MdbReliable -> MdbRoom -> agrees w G -> connected conns G -> link_down w G o e -> w !! o = Some t ->
  exists k' t' data, mdv_tracker_evt_link_state qsort e mem k t = Done (MDV_OK, k', t') /\ posts t t' data
    /\ let st := mk_network (<[o := t']> w) (sent (conns o) (drop (length (tr_events t)) (tr_events t'))) in
       carries data (mk_linkstate (lk_src e) (lk_dst e) (lk_connected e))
       /\ good n e (step_graph G e) (dom w) st /\ spread (step_graph G e) o st /\ informed (step_graph G e) st o.
Proof.
  intros Hg Hrel Hroom [Hagree Hin] Hconns Hdown Ht. destruct (Hagree o t Ht) as (Hok & Hu & Hadj). pose proof (ld_down _ _ _ _ Hdown) as Hd.
  destruct (ld_addrs _ _ _ _ Hdown) as [Ha1 Ha2]. pose proof (ld_src _ _ _ _ Hdown) as Hs. pose proof (ld_from _ _ _ _ Hdown) as Hf.
  destruct (link_state_wp n Hn mem qsort Hsort t e
    (fun err t' => err = MDV_OK /\ tracker_ok n t' /\ keeps t t' /\ tr_uuid t' = o /\ (forall a b, adjacent t' a b <-> step_graph G e a b)
       /\ exists topo evs, tr_events t' = tr_events t ++ Evt_topology topo :: evs /\ told t' (lk_src e) (lk_dst e) evs) Hok Hg Hrel Hroom (ld_room _ _ _ _ Hdown t Ht) Ha1 Ha2) with (k := k)
    as (err & k' & t' & Erun & -> & Hok' & Hk' & Hu' & Hadj' & topo & evs & Hevs & doc & peers & Hdoc & Hr & Hpeers & ->).
  { intros t' topo evs Hok' Hk' Hu' _ _ Hevs _ Htold Hadj'. split_and!; try done; [congruence| |].
    - intros a b. rewrite Hadj'. unfold step_graph. by rewrite Hadj.
    - exists topo, evs. split; [done|]. apply Htold; congruence. }
  assert (Hcarry : carries (binn_bytes doc) (mk_linkstate (lk_src e) (lk_dst e) (lk_connected e))).
  { rewrite Hd. apply carries_doc; [done|cbn; rewrite Hs; apply (ld_wf _ _ _ _ Hdown)|apply (ld_wf _ _ _ _ Hdown)|]. apply (ld_size _ _ _ _ Hdown). by rewrite <- Hs. }
  assert (Hsub : forall a b, step_graph G e a b -> G a b) by (intros a b [[_ E]|[_ ?]]; [congruence|done]).
  assert (Hsent : sent (conns o) (drop (length (tr_events t)) (tr_events t')) ≡ₚ (fun v => (v, peers)) <$> elements (members peers)).
  { rewrite Hevs, drop_app_length. cbn [sent mbind list_bind]. rewrite omap_nothing by done. apply (sent_post (step_graph G e) conns); [|done|].
    - intros a. split; [apply Hconns|]. intros b Hb. by apply Hconns, Hsub.
    - intros v Hv%Hpeers. apply Hconns, Hsub, Hadj'. by rewrite <- Hu'. }
  assert (Hnear : forall v, v ∈ members peers <-> step_graph G e o v) by (intros v; by rewrite Hpeers, Hadj', Hu').
  exists k', t', (binn_bytes doc). split; [done|]. split; [exists peers; rewrite Hevs, drop_app_length; right; left|]. cbn zeta. split; [done|].
  assert (Hc : forall c, c ∈ sent (conns o) (drop (length (tr_events t)) (tr_events t')) <-> exists v, v ∈ members peers /\ c = (v, peers)).
  { intros c. rewrite Hsent, list_elem_of_fmap. setoid_rewrite elem_of_elements. naive_solver. }
  assert (Ho : o ∈ dom w) by by apply elem_of_dom; eauto.
  assert (HV : forall v, v ∈ members peers -> v ∈ dom w) by (intros v Hv; apply Hnear, Hsub in Hv; exact (proj2 (Hin _ _ Hv))).
  assert (Hends : forall t1, (forall a b, adjacent t1 a b <-> G a b) -> is_Some (node_at t1 (lk_src e)) /\ is_Some (node_at t1 (lk_dst e))).
  { intros t1 Ht1. pose proof (ld_link _ _ _ _ Hdown) as Hl. rewrite <- Hs in Hl. apply Ht1 in Hl as (x & y & l & Hx & Hy & _). eauto. }
  split; [|split].
  - split; [cbn; rewrite dom_insert_L; set_solver|]. split; cbn [nw_nodes nw_copies].
    + intros v x Hx. destruct (decide (o = v)) as [<-|Hne].
      * rewrite lookup_insert_eq in Hx. injection Hx as <-. destruct (Hends t Hadj) as [[xs Hxs] [xd Hxd]].
        destruct (Hk' _ _ Hxs) as (? & ? & _), (Hk' _ _ Hxd) as (? & ? & _). split_and!; try done; [by eexists..|].
        intros a b. etrans; [exact (step_idem e G (adjacent t') Hadj' a b)|apply Hadj'].
      * rewrite lookup_insert_ne in Hx by done. destruct (Hagree v x Hx) as (Hokx & Hux & Hadjx). destruct (Hends x Hadjx). split_and!; try done.
        intros a b. unfold step_graph. by rewrite Hadjx.
    + intros c (v & Hv & ->)%Hc. cbn. split; [by apply HV|]. split; [done|]. intros x Hx. by apply HV.
  - exists (members peers). split; [intros v Hv; by apply Hnear|]. cbn [nw_nodes nw_copies]. split.
    + intros c (v & Hv & ->)%Hc. by cbn.
    + intros u Hv. left. apply list_elem_of_fmap. exists (u, peers). split; [done|]. apply Hc. by exists u.
  - exists t'. cbn. rewrite lookup_insert_eq. by split.
Qed.

(** The links that are left are between nodes with a connection. *)
Lemma down_graph w G o e conns : agrees w G -> connected conns G -> link_down w G o e ->
  (forall a b, step_graph G e a b -> a ∈ dom w /\ b ∈ dom w) /\ connected conns (step_graph G e).
Proof.
  intros [_ Hin] Hco Hdown. assert (Hsub : forall a b, step_graph G e a b -> G a b) by (intros a b [[_ E]|[_ ?]]; [by rewrite (ld_down _ _ _ _ Hdown) in E|done]).
  split; [intros a b Hab; by apply Hin, Hsub|]. intros a. split; [apply Hco|]. intros b Hb. by apply Hco, Hsub.
Qed.

(** C17: when a link goes down, the messages about it come to an end: however they
    are delivered, there are only finitely many, and one that is on its way can
    always be delivered. *)
Theorem mdv_link_down_terminates w G o e conns t mem k :
  granted mem -> MdbReliable -> MdbRoom -> agrees w G -> connected conns G -> link_down w G o e -> w !! o = Some t ->
  exists k' t' data, mdv_tracker_evt_link_state qsort e mem k t = Done (MDV_OK, k', t') /\ posts t t' data
    /\ let st := mk_network (<[o := t']> w) (sent (conns o) (drop (length (tr_events t)) (tr_events t'))) in
       Acc (fun b a => delivered qsort conns data a b) st
       /\ forall st', rtc (delivered qsort conns data) st st' -> nw_copies st' <> [] -> exists st'', delivered qsort conns data st' st''.
Proof.
  intros Hg Hrel Hroom Hag Hco Hdown Ht. destruct (down_start w G o e conns t mem k Hg Hrel Hroom Hag Hco Hdown Ht) as (k' & t' & data & Hrun & Hpost & Hdata & Hgood & Hspread & _).
  destruct (down_graph w G o e conns Hag Hco Hdown) as [HV HC]. exists k', t', data. split; [done|]. split; [done|]. split.
  - by eapply (deliver_acc n Hn qsort Hsort).
  - intros st' Hr Hne. destruct (deliver_reachable n Hn qsort Hsort e _ _ conns data Hdata HV HC o _ st' Hgood Hspread Hr) as [Hgood' _].
    by eapply (deliver_progress n Hn qsort Hsort).
Qed.

(** C15: when a link goes down and no message about it is left, then every node
    that is still connected with the one that found it knows it: its links are
    those of before without this one. *)
Theorem mdv_link_down_reaches w G o e conns t mem k :
  granted mem -> MdbReliable -> MdbRoom -> agrees w G -> connected conns G -> link_down w G o e -> w !! o = Some t ->
  exists k' t' data, mdv_tracker_evt_link_state qsort e mem k t = Done (MDV_OK, k', t') /\ posts t t' data
    /\ let st := mk_network (<[o := t']> w) (sent (conns o) (drop (length (tr_events t)) (tr_events t'))) in
       forall st' v, rtc (delivered qsort conns data) st st' -> nw_copies st' = [] ->
         rtc (fun a b => G a b /\ ~ same_pair a b o (lk_dst e)) o v ->
         exists tv, nw_nodes st' !! v = Some tv /\ forall a b, adjacent tv a b <-> G a b /\ ~ same_pair a b o (lk_dst e).
Proof.
  intros Hg Hrel Hroom Hag Hco Hdown Ht. destruct (down_start w G o e conns t mem k Hg Hrel Hroom Hag Hco Hdown Ht) as (k' & t' & data & Hrun & Hpost & Hdata & Hgood & Hspread & Hinf).
  destruct (down_graph w G o e conns Hag Hco Hdown) as [HV HC]. exists k', t', data. split; [done|]. split; [done|]. cbn zeta. intros st' v Hr Hnil Hpath.
  destruct (deliver_reachable n Hn qsort Hsort e _ _ conns data Hdata HV HC o _ st' Hgood Hspread Hr) as [_ Hspread'].
  assert (Hstep : forall a b, step_graph G e a b <-> G a b /\ ~ same_pair a b o (lk_dst e)).
  { intros a b. unfold step_graph. rewrite (ld_down _ _ _ _ Hdown), (ld_src _ _ _ _ Hdown). intuition discriminate. }
  assert (Hv : informed (step_graph G e) st' v).
  { apply rtc_tc in Hpath as [<-|Hpath].
    - exact (deliver_informed n Hn qsort Hsort e _ _ conns data Hdata HV HC _ st' o Hgood Hinf Hr).
    - apply (spread_done (step_graph G e) o); [done|done|]. revert Hpath. apply tc_congruence with (f := id). intros a b Hab. by apply Hstep. }
  destruct Hv as (tv & Htv & Hadj). exists tv. split; [done|]. intros a b. by rewrite Hadj, Hstep.
Qed.

End Down.
(** ** An example *)

(** Three nodes, each linked with the others. *)
Definition ups : list mdv_evt_link_state := [link me peer_a true; link peer_a peer_b true; link me peer_b true].
Definition triangle : mdv_uuid -> mdv_uuid -> Prop := foldl step_graph (fun _ _ => False) ups.
Definition all_nodes (_ : mdv_uuid) : list mdv_uuid := [me; peer_a; peer_b].
Definition down : mdv_evt_link_state := mk_link_state me me [97]%Z peer_b [98]%Z false.

Lemma triangle_tracker u : exists t, tracker_ok 2 t /\ tr_uuid t = u /\ (tr_max_id t <= 6)%Z /\ forall a b, adjacent t a b <-> triangle a b.
Proof.
  destruct (new_tracker u) as (t & _ & Hok & Hm & Hu & _ & Hnone).
  destruct (handle_links_wp 2 ltac:(lia) yes (fun l => l) (fun l => reflexivity l) ups (fun _ => eq_refl) _ _ ltac:(repeat constructor; vm_compute; lia) t
    (fun _ t' => tracker_ok 2 t' /\ tr_uuid t' = u /\ (tr_max_id t' <= 6)%Z /\ forall a b, adjacent t' a b <-> triangle a b)) with (k := 0) as (_ & _ & t' & _ & Ht').
  - done.
  - rewrite Hm. done.
  - intros t' Hok' Hu' Hm' Hadj _. split_and!; [done|congruence|rewrite Hm in Hm'; exact Hm'|]. intros a b. rewrite Hadj. apply step_graph_iff. intros c d. by split; [intros ?%Hnone|].
  - by exists t'.
Qed.

Lemma triangle_nodes a b : triangle a b -> a ∈ all_nodes a /\ b ∈ all_nodes a.
Proof. unfold triangle, ups, step_graph, same_pair, all_nodes. cbn. set_solver. Qed.

Lemma triangle_network : exists w t, agrees 2 w triangle /\ connected all_nodes triangle /\ link_down w triangle me down /\ w !! me = Some t.
Proof.
  destruct (triangle_tracker me) as (t0 & Hok0 & Hu0 & Hm0 & Hg0), (triangle_tracker peer_a) as (t1 & Hok1 & Hu1 & _ & Hg1), (triangle_tracker peer_b) as (t2 & Hok2 & Hu2 & _ & Hg2).
  exists {[me := t0; peer_a := t1; peer_b := t2]}, t0. split_and!.
  - split.
    + intros u t Ht. rewrite !lookup_insert_Some, lookup_singleton_Some in Ht. destruct Ht as [[<- <-]|[_ [[<- <-]|[_ [<- <-]]]]]; done.
    + intros a b [Ha Hb]%triangle_nodes. rewrite !dom_insert_L, dom_singleton_L. unfold all_nodes in *. set_solver.
  - intros a. split; [unfold all_nodes; repeat constructor; set_solver|]. by intros b [_ Hb]%triangle_nodes.
  - split; try done.
    + left. split; [by left|done].
    + split; vm_compute; lia.
    + intros doc [_ Hd]. destruct (Hd yes (fun _ => eq_refl) 0) as (k & E). vm_compute in E. injection E as <- _. vm_compute. reflexivity.
    + intros t Ht. rewrite lookup_insert_eq in Ht. injection Ht as <-. lia.
  - apply lookup_insert_eq.
Qed.

Lemma mdv_link_down_terminates_witness : exists w t k' t' data,
  mdv_tracker_evt_link_state (fun l => l) down yes 0 t = Done (MDV_OK, k', t')
  /\ Acc (fun b a => delivered (fun l => l) all_nodes data a b) (mk_network (<[me := t']> w) (sent (all_nodes me) (drop (length (tr_events t)) (tr_events t')))).
Proof.
  destruct triangle_network as (w & t & Hag & Hco & Hdown & Ht).
  destruct (mdv_link_down_terminates 2 ltac:(lia) (fun l => l) (fun l => reflexivity l) w triangle me down all_nodes t yes 0 (fun _ => eq_refl) _ _ Hag Hco Hdown Ht) as (k' & t' & data & E & _ & Hacc & _).
  exists w, t, k', t', data. by split.
Defined.

(** The node at the other end learns of it from the third node. *)
Lemma mdv_link_down_reaches_witness : exists w t k' t' data,
  mdv_tracker_evt_link_state (fun l => l) down yes 0 t = Done (MDV_OK, k', t')
  /\ forall st', rtc (delivered (fun l => l) all_nodes data) (mk_network (<[me := t']> w) (sent (all_nodes me) (drop (length (tr_events t)) (tr_events t')))) st' ->
       nw_copies st' = [] -> exists tb, nw_nodes st' !! peer_b = Some tb /\ ~ adjacent tb me peer_b.
Proof.
  destruct triangle_network as (w & t & Hag & Hco & Hdown & Ht).
  destruct (mdv_link_down_reaches 2 ltac:(lia) (fun l => l) (fun l => reflexivity l) w triangle me down all_nodes t yes 0 (fun _ => eq_refl) _ _ Hag Hco Hdown Ht) as (k' & t' & data & E & _ & Hreach).
  exists w, t, k', t', data. split; [done|]. intros st' Hr Hnil. destruct (Hreach st' peer_b Hr Hnil) as (tb & Htb & Hadj).
  - apply (rtc_l _ me peer_a); [|apply rtc_once]; (split; [|by intros [[? ?]|[? ?]]]).
    + right. split; [by intros [[? ?]|[? ?]]|]. right. split; [by intros [[? ?]|[? ?]]|]. left. split; [by left|done].
    + right. split; [by intros [[? ?]|[? ?]]|]. left. split; [by left|done].
  - exists tb. split; [done|]. intros [_ Hx]%Hadj. apply Hx. by left.
Defined.

End Flooding.
