(* ===== verification/Peer.v ===== *)
(** * Connections to peers (src/mdv_core/mdv_peer.c)

    A connection to another node relays events between the event buses of the two
    nodes: an event for the peer is written to a message, and a message of the peer
    is published as an event.  The first message is a greeting with the address of
    the node, upon which the link is reported; the end of the connection is reported
    too.

    The frames of the connection are the subject of [Msg], the documents of
    [P2pmsg]; the events are handled by the tracker and by the synchronizers. *)

From stdpp Require Import strings.
From S2P Require Import Prelude Uuid Hashmap Rollbacker Binn Topology Types Serialization Action Msg Dispatcher Messages User P2pmsg Exchange Nodes Tracker.
Import Uuid Hashmap Rollbacker Binn Topology Types Serialization Action Msg Dispatcher P2pmsg.
#[local] Open Scope string_scope.
#[local] Open Scope nat_scope.
#[local] Open Scope list_scope.

Module Peer.

(** ** The state *)

Abbreviation hashset := (mdv_hashmap mdv_uuid).
Abbreviation mdv_trlog_data := (Z * bytes)%type.

Inductive mdv_channel_dir := MDV_CHIN | MDV_CHOUT.

(** Events on the bus of a node. *)
Inductive peer_event :=
| Ev_link_state (e : Tracker.Tracker.mdv_evt_link_state)
| Ev_topology_sync (from to : mdv_uuid) (topology : mdv_topology)
| Ev_broadcast (from : mdv_uuid) (msg_id : Z) (data : bytes) (notified : hashset)
| Ev_broadcast_post (msg_id : Z) (data : bytes) (notified peers : hashset)
| Ev_trlog_sync (trlog from to : mdv_uuid)
| Ev_trlog_state (trlog from to : mdv_uuid) (top : Z)
| Ev_trlog_data (trlog from to : mdv_uuid) (rows : list mdv_trlog_data) (count : Z).

(** [pe_sink]: the connection of the dispatcher; [pe_events]: the events that were
    published. *)
Record mdv_peer := mk_peer {
  pe_rc : Z;
  pe_dir : mdv_channel_dir;
  pe_uuid : mdv_uuid;
  pe_peer_uuid : mdv_uuid;
  pe_peer_addr : option bytes;
  pe_dispatcher : mdv_dispatcher;
  pe_sink : sink;
  pe_events : list peer_event
}.

Definition set_rc (s : mdv_peer) (rc : Z) : mdv_peer :=
  mk_peer rc (pe_dir s) (pe_uuid s) (pe_peer_uuid s) (pe_peer_addr s) (pe_dispatcher s) (pe_sink s) (pe_events s).
Definition set_addr (s : mdv_peer) (addr : option bytes) : mdv_peer :=
  mk_peer (pe_rc s) (pe_dir s) (pe_uuid s) (pe_peer_uuid s) addr (pe_dispatcher s) (pe_sink s) (pe_events s).
Definition set_channel (s : mdv_peer) (d : mdv_dispatcher) (o : sink) : mdv_peer :=
  mk_peer (pe_rc s) (pe_dir s) (pe_uuid s) (pe_peer_uuid s) (pe_peer_addr s) d o (pe_events s).
Definition set_events (s : mdv_peer) (l : list peer_event) : mdv_peer :=
  mk_peer (pe_rc s) (pe_dir s) (pe_uuid s) (pe_peer_uuid s) (pe_peer_addr s) (pe_dispatcher s) (pe_sink s) l.

Section Peer.
Context `{Binn}.

(** [listen]: the address in the configuration; [fuel]: for the writes. *)
Context (qsort : list mdv_toponode -> list mdv_toponode) (listen : bytes) (fuel : nat).

Abbreviation pa := (action mdv_peer).

(** [mdv_ebus_publish(..., MDV_EVT_DEFAULT)] of an event that was made. *)
Definition publish (e : peer_event) : pa mdv_errno :=
  ok ← ask;
  if (ok : bool) then s ← get; put (set_events s (pe_events s ++ [e]));; mret MDV_OK else mret MDV_FAILED.

(** An event is made and published; [no_mem]: the error without memory.  The error of
    the bus is not passed on. *)
Definition publish_new (no_mem : mdv_errno) (e : peer_event) : pa Z :=
  evt ← ask;
  if (evt : bool) then publish e;; mret (code MDV_OK) else mret (code no_mem).

(** ** The life of a connection *)

Definition mdv_peer_connected (addr : bytes) (uuid : mdv_uuid) : pa Z :=
  s ← get;
  publish_new MDV_OK (Ev_link_state (match pe_dir s with
    | MDV_CHIN => Tracker.Tracker.mk_link_state (pe_uuid s) uuid addr (pe_uuid s) listen true
    | MDV_CHOUT => Tracker.Tracker.mk_link_state (pe_uuid s) (pe_uuid s) listen uuid addr true
    end)).

(** A link that was not reported is not taken back. *)
Definition mdv_peer_disconnected : pa unit :=
  s ← get;
  match pe_peer_addr s with
  | None => mret tt
  | Some addr => publish_new MDV_OK (Ev_link_state (Tracker.Tracker.mk_link_state (pe_uuid s) (pe_uuid s) listen (pe_peer_uuid s) addr false));; mret tt
  end.

Definition mdv_peer_free : pa unit := mdv_peer_disconnected.

(** A connection without references is not taken up again. *)
Definition mdv_peer_retain : pa bool :=
  s ← get; if (pe_rc s =? 0)%Z then mret false else put (set_rc s (u32 (pe_rc s + 1)));; mret true.

(** The returned count. *)
Definition mdv_peer_release : pa Z :=
  s ← get;
  let rc := u32 (pe_rc s - 1) in
  put (set_rc s rc);;
  if (rc =? 0)%Z then mdv_peer_free;; mret rc else mret rc.

(** ** Messages to the peer *)

Definition mdv_peer_post (id : Z) (payload : bytes) : pa Z :=
  ok ← mdv_peer_retain;
  if (ok : bool) then
    s ← get;
    lock ← ask;
    r ← lift (mdv_dispatcher_post fuel lock (pe_dispatcher s) (pe_sink s) (msg_of (mk_message id 0 payload) 0));
    put (set_channel s r.1.1 r.1.2);;
    mdv_peer_release;; mret r.2
  else mret (code MDV_CLOSED).

(** A document is written and posted. *)
Definition post_doc (id : Z) (w : writer binn) : pa Z :=
  obj ← write w;
  match (obj : option binn) with
  | None => mret (code MDV_FAILED)
  | Some obj => mdv_peer_post id (binn_data obj)
  end.

Definition mdv_peer_hello : pa Z := post_doc mdv_msg_p2p_hello_id (mdv_binn_p2p_hello listen).
Definition mdv_peer_toposync (topology : mdv_topology) : pa Z := post_doc mdv_msg_p2p_toposync_id (mdv_binn_p2p_toposync topology).
Definition mdv_peer_trlog_sync (trlog : mdv_uuid) : pa Z := post_doc mdv_msg_p2p_trlog_sync_id (mdv_binn_p2p_trlog_sync trlog).
Definition mdv_peer_trlog_state (trlog : mdv_uuid) (top : Z) : pa Z := post_doc mdv_msg_p2p_trlog_state_id (mdv_binn_p2p_trlog_state trlog top).
Definition mdv_peer_trlog_data (trlog : mdv_uuid) (rows : list mdv_trlog_data) (count : Z) : pa Z :=
  post_doc mdv_msg_p2p_trlog_data_id (mdv_binn_p2p_trlog_data (mk_trlog_msg trlog count rows)).
Definition mdv_peer_broadcast (msg : mdv_msg_p2p_broadcast) : pa Z := post_doc mdv_msg_p2p_broadcast_id (mdv_binn_p2p_broadcast msg).

(** ** Events of the bus *)

Definition same_uuid (a b : mdv_uuid) : bool := (mdv_uuid_cmp a b =? 0)%Z.

(** A peer that is not among the receivers is left out. *)
Definition mdv_peer_evt_broadcast_post (msg_id : Z) (data : bytes) (notified peers : hashset) : pa Z :=
  s ← get;
  x ← lift (deref (mdv_hashmap_find id peers (pe_peer_uuid s)));
  match (x : option mdv_uuid) with
  | None => mret (code MDV_OK)
  | Some _ => mdv_peer_broadcast (mk_broadcast msg_id data notified)
  end.

Definition mdv_peer_evt_topology_sync (from to : mdv_uuid) (topology : mdv_topology) : pa Z :=
  s ← get;
  if same_uuid (pe_uuid s) from && same_uuid (pe_peer_uuid s) to then mdv_peer_toposync topology else mret (code MDV_OK).

Definition mdv_peer_evt_trlog_sync (trlog from to : mdv_uuid) : pa Z :=
  s ← get; if same_uuid (pe_peer_uuid s) to then mdv_peer_trlog_sync trlog else mret (code MDV_OK).

Definition mdv_peer_evt_trlog_state (trlog from to : mdv_uuid) (top : Z) : pa Z :=
  s ← get; if same_uuid (pe_peer_uuid s) to then mdv_peer_trlog_state trlog top else mret (code MDV_OK).

Definition mdv_peer_evt_trlog_data (trlog from to : mdv_uuid) (rows : list mdv_trlog_data) (count : Z) : pa Z :=
  s ← get; if same_uuid (pe_peer_uuid s) to then mdv_peer_trlog_data trlog rows count else mret (code MDV_OK).

(** The table of the subscriptions; the connection has no handler for the others. *)
Definition mdv_peer_handlers (e : peer_event) : pa Z :=
  match e with
  | Ev_topology_sync from to topology => mdv_peer_evt_topology_sync from to topology
  | Ev_broadcast_post msg_id data notified peers => mdv_peer_evt_broadcast_post msg_id data notified peers
  | Ev_trlog_sync trlog from to => mdv_peer_evt_trlog_sync trlog from to
  | Ev_trlog_state trlog from to top => mdv_peer_evt_trlog_state trlog from to top
  | Ev_trlog_data trlog from to rows count => mdv_peer_evt_trlog_data trlog from to rows count
  | Ev_link_state _ | Ev_broadcast _ _ _ _ => mret (code MDV_OK)
  end.

(** ** Messages of the peer *)

Definition mdv_peer_hello_handler (msg : mdv_msg) : pa Z :=
  match User.User.load_msg msg with
  | None => mret (code MDV_FAILED)
  | Some obj =>
      match mdv_unbinn_p2p_hello obj with
      | None => mret (code MDV_FAILED)
      | Some addr =>
          mem ← ask;
          s ← get;
          put (set_addr s (if (mem : bool) then Some addr else None));;
          if (mem : bool) then mdv_peer_connected addr (pe_peer_uuid s) else mret (code MDV_FAILED)
      end
  end.

(** The reference of the message to the topology moves to the event. *)
Definition mdv_peer_toposync_handler (msg : mdv_msg) : pa Z :=
  match User.User.load_msg msg with
  | None => mret (code MDV_FAILED)
  | Some obj =>
      f ← asks 8;
      topology ← lift (mdv_unbinn_p2p_toposync qsort f obj);
      match (topology : option mdv_topology) with
      | None => mret (code MDV_FAILED)
      | Some topology => s ← get; publish_new MDV_OK (Ev_topology_sync (pe_peer_uuid s) (pe_uuid s) topology)
      end
  end.

(** Items of a list of the document. *)
Definition items_at (obj : binn) (key : string) : nat := match binn_object_get_list obj key with Some l => length (binn_items l) | None => 0 end.

Definition mdv_peer_broadcast_handler (msg : mdv_msg) : pa Z :=
  match User.User.load_msg msg with
  | None => mret (code MDV_FAILED)
  | Some obj =>
      m1 ← ask; m2 ← ask;
      f1 ← asks (items_at obj "N"); f2 ← asks (items_at obj "N");
      r ← lift (mdv_unbinn_p2p_broadcast m1 m2 (fun i => (f1 i, f2 i)) obj);
      match r.1 with
      | None => mret (code MDV_FAILED)
      | Some req => s ← get; publish_new MDV_OK (Ev_broadcast (pe_peer_uuid s) (bc_msg_id req) (bc_data req) (bc_notified req))
      end
  end.

Definition mdv_peer_trlog_sync_handler (msg : mdv_msg) : pa Z :=
  match User.User.load_msg msg with
  | None => mret (code MDV_FAILED)
  | Some obj =>
      match mdv_unbinn_p2p_trlog_sync obj with
      | None => mret (code MDV_FAILED)
      | Some trlog => s ← get; publish_new MDV_NO_MEM (Ev_trlog_sync trlog (pe_peer_uuid s) (pe_uuid s))
      end
  end.

Definition mdv_peer_trlog_state_handler (msg : mdv_msg) : pa Z :=
  match User.User.load_msg msg with
  | None => mret (code MDV_FAILED)
  | Some obj =>
      match mdv_unbinn_p2p_trlog_state obj with
      | None => mret (code MDV_FAILED)
      | Some (trlog, top) => s ← get; publish_new MDV_NO_MEM (Ev_trlog_state trlog (pe_peer_uuid s) (pe_uuid s) top)
      end
  end.

(** The operations move to the event. *)
Definition mdv_peer_trlog_data_handler (msg : mdv_msg) : pa Z :=
  match User.User.load_msg msg with
  | None => mret (code MDV_FAILED)
  | Some obj =>
      f ← asks (items_at obj "R");
      req ← lift (mdv_unbinn_p2p_trlog_data f obj []);
      match (req : option mdv_msg_p2p_trlog_data) with
      | None => mret (code MDV_FAILED)
      | Some req => s ← get; publish_new MDV_NO_MEM (Ev_trlog_data (td_trlog req) (pe_peer_uuid s) (pe_uuid s) (td_rows req) (td_count req))
      end
  end.

(** The table of the messages that are handled. *)
Definition peer_handler (id : Z) : option (mdv_msg -> pa Z) :=
  if (id =? mdv_msg_p2p_hello_id)%Z then Some mdv_peer_hello_handler
  else if (id =? mdv_msg_p2p_toposync_id)%Z then Some mdv_peer_toposync_handler
  else if (id =? mdv_msg_p2p_broadcast_id)%Z then Some mdv_peer_broadcast_handler
  else if (id =? mdv_msg_p2p_trlog_sync_id)%Z then Some mdv_peer_trlog_sync_handler
  else if (id =? mdv_msg_p2p_trlog_state_id)%Z then Some mdv_peer_trlog_state_handler
  else if (id =? mdv_msg_p2p_trlog_data_id)%Z then Some mdv_peer_trlog_data_handler
  else None.

(** A message of the peer was read: [mdv_peer_recv_impl]. *)
Definition mdv_peer_recv (msg : mdv_msg) : pa Z :=
  match peer_handler (hdr_id (m_hdr msg)) with
  | Some handler => handler msg
  | None => mret (code MDV_NO_IMPL)
  end.

(** ** Creation *)

Inductive pe_release_fn := Fn_pe_rollbacker_free | Fn_pe_free | Fn_pe_ebus_release | Fn_pe_dispatcher_free.
Inductive pe_resource := Res_pe_rollbacker | Res_peer | Res_pe_ebus | Res_pe_dispatcher.

Definition pe_push (r : option (mdv_rollbacker pe_release_fn pe_resource)) (f : pe_release_fn) (x : pe_resource) :=
  snd (mdv_rollbacker_push r (mk_op f [x])).

(** [d]: the dispatcher, if it is made; [reg]: are the handlers of the messages
    registered?  The greeting is posted at once. *)
Definition mdv_peer_create (mem_rbr mem : bool) (d : option mdv_dispatcher) (reg subscribed : bool) (o : sink) (uuid peer_uuid : mdv_uuid) (dir : mdv_channel_dir)
  : action unit (mdv_peer + list (pe_release_fn * list pe_resource)) :=
  let rbr := mdv_rollbacker_create mem_rbr Fn_pe_rollbacker_free Res_pe_rollbacker 3 in
  if negb mem then mret (inr (mdv_rollback rbr)) else
  let rbr := pe_push rbr Fn_pe_free Res_peer in
  let rbr := pe_push rbr Fn_pe_ebus_release Res_pe_ebus in
  match d with
  | None => mret (inr (mdv_rollback rbr))
  | Some d =>
      let rbr := pe_push rbr Fn_pe_dispatcher_free Res_pe_dispatcher in
      if negb reg then mret (inr (mdv_rollback rbr)) else
      if negb subscribed then mret (inr (mdv_rollback rbr)) else
      fun mem k u =>
        match mdv_peer_hello mem k (mk_peer 1 dir uuid peer_uuid None d o []) with
        | Done (err, k, s) => Done (if (err =? MDV_OK)%Z then inl s else inr (mdv_rollback rbr), k, u)
        | OutOfBounds i => OutOfBounds i
        | OutOfFuel => OutOfFuel
        end
  end.

(** ** Many events and messages *)

Fixpoint handle_events (evs : list peer_event) : pa unit :=
  match evs with [] => mret tt | e :: evs => mdv_peer_handlers e;; handle_events evs end.

Fixpoint handle_messages (msgs : list mdv_msg) : pa unit :=
  match msgs with [] => mret tt | msg :: msgs => mdv_peer_recv msg;; handle_messages msgs end.

End Peer.

(** ** Relayed events *)

(** Every request is granted. *)
Definition yes (_ : nat) : bool := true.

Lemma wp_ask_yes {S} (s : S) (Q : bool -> S -> Prop) : Q true s -> wp yes ask s Q.
Proof. intros HQ k. by exists true, (Datatypes.S k), s. Qed.

Lemma wp_asks_yes {S} n (s : S) (Q : (nat -> bool) -> S -> Prop) : Q (fun _ => true) s -> wp yes (asks n) s Q.
Proof. intros HQ k. by exists (fun _ => true), (k + n), s. Qed.

Lemma wp_write_yes {S A} (w : writer A) a (s : S) (Q : option A -> S -> Prop) : makes w a -> Q (Some a) s -> wp yes (write w) s Q.
Proof. intros Hw HQ. eapply wp_write; [exact Hw|]. intros r _ Hr. by rewrite (Hr (fun _ => eq_refl)). Qed.

Ltac yes_step := first [apply wp_ask_yes|apply wp_asks_yes|wp_step]; cbn beta.
Ltac yes_steps := repeat yes_step.

Section Relay.
Context `{BL : BinnLaws} (qsort : list mdv_toponode -> list mdv_toponode) (Hsort : forall l, qsort l ≡ₚ l) (fuel : nat).

(** The connection is held and can be written to. *)
Record alive (s : mdv_peer) : Prop := {
  al_rc : (1 <= pe_rc s < 2 ^ 32 - 1)%Z;
  al_number : fits 16 (d_id (pe_dispatcher s));
  al_sink : willing (sk_answers (pe_sink s));
  al_fuel : length (sk_answers (pe_sink s)) + 1 < fuel
}.

(** What was written, and nothing else changed. *)
Definition wrote (s s' : mdv_peer) (bs : bytes) : Prop :=
  alive s' /\ exists d o, s' = set_channel s d o /\ sk_sent o = sk_sent (pe_sink s) ++ bs.

Lemma publish_yes no_mem e s (Q : Z -> mdv_peer -> Prop) : Q (code MDV_OK) (set_events s (pe_events s ++ [e])) -> wp yes (publish_new no_mem e) s Q.
Proof. intros HQ. unfold publish_new, publish. by yes_steps. Qed.

Lemma post_wp listen id payload s (Q : Z -> mdv_peer -> Prop) :
  alive s -> Msg.message_ok (mk_message id (d_id (pe_dispatcher s)) payload) ->
  (forall s', wrote s s' (wire (mk_message id (d_id (pe_dispatcher s)) payload)) -> Q (code MDV_OK) s') -> wp yes (mdv_peer_post listen fuel id payload) s Q.
Proof.
  intros [Hrc Hnum Hw Hf] Hm HQ. unfold mdv_peer_post, mdv_peer_retain. do 3 yes_step. destruct (Z.eqb_spec (pe_rc s) 0); [lia|]. yes_steps.
  assert (Hm0 : Msg.message_ok (mk_message id 0 payload)) by (destruct Hm as (? & _ & ?); by split_and!).
  assert (En : set_number (msg_of (mk_message id 0 payload) 0) (d_id (pe_dispatcher s)) = msg_of (mk_message id (d_id (pe_dispatcher s)) payload) 0).
  { destruct (host_fields _ Hm0) as (E1 & _ & E3 & _). unfold set_number, msg_of. cbn [m_hdr m_available_size m_payload ms_payload] in *. by rewrite E1, E3. }
  destruct (write_msg_ok fuel (pe_sink s) (mk_message id (d_id (pe_dispatcher s)) payload) 0 Hm Hw Hf) as (a' & E & Hw' & Hl).
  eapply wp_lift; [unfold mdv_dispatcher_post, take_number; cbn [pe_dispatcher set_rc pe_sink]; rewrite En; unfold mdv_dispatcher_reply; rewrite E; done|].
  cbn [fst snd]. unfold mdv_peer_release. yes_steps. cbn [pe_rc set_channel set_rc]. rewrite (wrap_id 32 (pe_rc s + 1)) by (unfold fits; lia).
  replace (pe_rc s + 1 - 1)%Z with (pe_rc s) by lia. rewrite (wrap_id 32) by (unfold fits; lia). destruct (Z.eqb_spec (pe_rc s) 0); [lia|]. wp_steps. apply HQ. split.
  - split; cbn; [done| |done|lia]. unfold fits, wrap. pose proof (Z.mod_pos_bound (d_id (pe_dispatcher s) + 1) (2 ^ 16)). lia.
  - eexists _, _. split; [reflexivity|]. done.
Qed.

(** The frame of a message of the node. *)
Definition frame_of (m : p2p_message) (number : Z) (doc : binn) : message := mk_message (p2p_id m) number (binn_bytes doc).

(** A message that fits into a frame. *)
Definition sendable (m : p2p_message) : Prop := p2p_ok m /\ forall doc, makes (p2p_binn m) doc -> Exchange.doc_fits doc.

Lemma p2p_id_fits m : fits 16 (p2p_id m).
Proof. by destruct m. Qed.

Lemma post_doc_wp listen m s (Q : Z -> mdv_peer -> Prop) :
  alive s -> sendable m ->
  (forall doc m' s', is_container doc = true -> Exchange.doc_fits doc -> p2p_unbinn qsort (p2p_id m) doc = Done (Some m') -> same_p2p qsort m m' ->
     wrote s s' (wire (frame_of m (d_id (pe_dispatcher s)) doc)) -> Q (code MDV_OK) s') -> wp yes (post_doc listen fuel (p2p_id m) (p2p_binn m)) s Q.
Proof.
  intros Ha [Hm Hfit] HQ. destruct (p2p_roundtrip qsort Hsort m Hm) as (doc & m' & Hw & Hr & Hs & Hc). pose proof (Hfit doc Hw) as Hd. unfold post_doc. wp_step. eapply wp_write_yes; [exact Hw|].
  assert (E : binn_data doc = binn_bytes doc) by (by destruct doc). rewrite E. apply post_wp; [done| |intros s' Hs'; by eapply HQ].
  split_and!; [apply p2p_id_fits|by destruct Ha|apply Hd].
Qed.

(** The message that a connection makes of an event, if it is for its peer. *)
Definition posted (s : mdv_peer) (e : peer_event) : option p2p_message :=
  match e with
  | Ev_topology_sync from to t => if same_uuid (pe_uuid s) from && same_uuid (pe_peer_uuid s) to then Some (P2p_toposync t) else None
  | Ev_broadcast_post msg_id data notified peers =>
      match mdv_hashmap_find id peers (pe_peer_uuid s) with Some (Some _) => Some (P2p_broadcast (mk_broadcast msg_id data notified)) | _ => None end
  | Ev_trlog_sync trlog _ to => if same_uuid (pe_peer_uuid s) to then Some (P2p_trlog_sync trlog) else None
  | Ev_trlog_state trlog _ to top => if same_uuid (pe_peer_uuid s) to then Some (P2p_trlog_state trlog top) else None
  | Ev_trlog_data trlog _ to rows count => if same_uuid (pe_peer_uuid s) to then Some (P2p_trlog_data (mk_trlog_msg trlog count rows)) else None
  | Ev_link_state _ | Ev_broadcast _ _ _ _ => None
  end.

(** The sets of the event are well-formed. *)
Definition event_ok (e : peer_event) : Prop := match e with Ev_broadcast_post _ _ _ peers => Hashmap.wf id peers | _ => True end.

Lemma handlers_wp listen e s (Q : Z -> mdv_peer -> Prop) :
  event_ok e -> wp yes (match posted s e with Some m => post_doc listen fuel (p2p_id m) (p2p_binn m) | None => mret (code MDV_OK) end) s Q -> wp yes (mdv_peer_handlers listen fuel e) s Q.
Proof.
  intros He Hw. destruct e as [e|from to t|from msg_id data notified|msg_id data notified peers|trlog from to|trlog from to top|trlog from to rows count]; cbn [mdv_peer_handlers posted] in *; try exact Hw.
  - unfold mdv_peer_evt_topology_sync. do 2 wp_step. by destruct (same_uuid (pe_uuid s) from && same_uuid (pe_peer_uuid s) to).
  - unfold mdv_peer_evt_broadcast_post. do 3 wp_step. rewrite (find_lookup id peers _ He) in *. eapply wp_lift; [done|]. by destruct (Hashmap.lookup id peers (pe_peer_uuid s)).
  - unfold mdv_peer_evt_trlog_sync. do 2 wp_step. by destruct (same_uuid (pe_peer_uuid s) to).
  - unfold mdv_peer_evt_trlog_state. do 2 wp_step. by destruct (same_uuid (pe_peer_uuid s) to).
  - unfold mdv_peer_evt_trlog_data. do 2 wp_step. by destruct (same_uuid (pe_peer_uuid s) to).
Qed.

(** The event that the message of a peer becomes. *)
Definition arrived (s : mdv_peer) (m : p2p_message) : option peer_event :=
  match m with
  | P2p_toposync t => Some (Ev_topology_sync (pe_peer_uuid s) (pe_uuid s) t)
  | P2p_broadcast msg => Some (Ev_broadcast (pe_peer_uuid s) (bc_msg_id msg) (bc_data msg) (bc_notified msg))
  | P2p_trlog_sync trlog => Some (Ev_trlog_sync trlog (pe_peer_uuid s) (pe_uuid s))
  | P2p_trlog_state trlog top => Some (Ev_trlog_state trlog (pe_peer_uuid s) (pe_uuid s) top)
  | P2p_trlog_data msg => Some (Ev_trlog_data (td_trlog msg) (pe_peer_uuid s) (pe_uuid s) (td_rows msg) (td_count msg))
  | _ => None
  end.

(** A frame with the document of the message. *)
Definition carries (m : p2p_message) (fr : message) : Prop := exists number doc m',
  fr = frame_of m number doc /\ fits 16 number /\ is_container doc = true /\ Exchange.doc_fits doc /\ p2p_unbinn qsort (p2p_id m) doc = Done (Some m') /\ same_p2p qsort m m'.

Lemma carries_ok m fr : carries m fr -> Msg.message_ok fr.
Proof. intros (number & doc & m' & -> & Hn & _ & Hd & _). split_and!; [apply p2p_id_fits|done|apply Hd]. Qed.

Lemma load_frame m number doc : is_container doc = true -> Exchange.doc_fits doc -> User.User.load_msg (full_msg (frame_of m number doc)) = Some doc.
Proof.
  intros Hc [Hd Hs]. unfold User.User.load_msg, full_msg, msg_of, frame_of. cbn [m_payload ms_payload]. pose proof (bytes_container doc Hc) as Hne.
  assert (Hl : binn_load (binn_bytes doc) = Some doc) by (apply load_bytes; [done|done|unfold MDV_MSG_SIZE_MAX in Hs; lia]). destruct (binn_bytes doc); [done|]. exact Hl.
Qed.

Lemma recv_wp listen m fr s (Q : Z -> mdv_peer -> Prop) :
  carries m fr -> is_Some (arrived s m) ->
  (forall m' e', same_p2p qsort m m' -> arrived s m' = Some e' -> Q (code MDV_OK) (set_events s (pe_events s ++ [e']))) -> wp yes (mdv_peer_recv qsort listen (full_msg fr)) s Q.
Proof.
  intros Hcar Hkind HQ. pose proof (carries_ok _ _ Hcar) as Hok. destruct Hcar as (number & doc & m' & -> & Hn & Hc & Hd & Hr & Hs). unfold mdv_peer_recv.
  assert (Ei : hdr_id (m_hdr (full_msg (frame_of m number doc))) = p2p_id m) by apply (host_fields _ Hok). rewrite Ei. clear Ei.
  pose proof (load_frame m number doc Hc Hd) as El. set (msg := full_msg (frame_of m number doc)) in *. clearbody msg. specialize (HQ m').
  destruct m as [addr|err message|ls|t|t|trlog|trlog top|data|bc]; cbn [arrived] in Hkind; try by destruct Hkind. all: cbn [p2p_id] in *; unfold p2p_unbinn, peer_handler in *; cbn -[mdv_unbinn_p2p_toposync mdv_unbinn_p2p_trlog_sync mdv_unbinn_p2p_trlog_state mdv_unbinn_p2p_trlog_data mdv_unbinn_p2p_broadcast mdv_peer_toposync_handler mdv_peer_broadcast_handler mdv_peer_trlog_sync_handler mdv_peer_trlog_state_handler mdv_peer_trlog_data_handler same_p2p] in *.
  - unfold mdv_peer_toposync_handler. rewrite El. yes_steps. destruct (mdv_unbinn_p2p_toposync qsort (fun _ => true) doc) as [[t'|]|i|] eqn:E; try done. injection Hr as <-. eapply wp_lift; [reflexivity|]. cbn iota. yes_steps. apply publish_yes. by apply HQ.
  - unfold mdv_peer_trlog_sync_handler. rewrite El. destruct (mdv_unbinn_p2p_trlog_sync doc) as [trlog'|]; try done. injection Hr as <-. yes_steps. apply publish_yes. by apply HQ.
  - unfold mdv_peer_trlog_state_handler. rewrite El. destruct (mdv_unbinn_p2p_trlog_state doc) as [[trlog' top']|]; try done. injection Hr as <-. yes_steps. apply publish_yes. by apply HQ.
  - unfold mdv_peer_trlog_data_handler. rewrite El. yes_steps. destruct (mdv_unbinn_p2p_trlog_data (fun _ => true) doc []) as [[t'|]|i|] eqn:E; try done. injection Hr as <-. eapply wp_lift; [reflexivity|]. cbn iota. yes_steps. apply publish_yes. by apply HQ.
  - unfold mdv_peer_broadcast_handler. rewrite El. yes_steps. destruct (mdv_unbinn_p2p_broadcast true true (fun _ => (true, true)) doc) as [[[t'|] set']|i|] eqn:E; try done. injection Hr as <-. eapply wp_lift; [reflexivity|]. cbn [fst]. yes_steps. apply publish_yes. by apply HQ.
Qed.

(** *** Many events *)

Lemma posted_channel s d o e : posted (set_channel s d o) e = posted s e.
Proof. by destruct e. Qed.

Lemma wrote_trans s1 s2 s3 b1 b2 : wrote s1 s2 b1 -> wrote s2 s3 b2 -> wrote s1 s3 (b1 ++ b2).
Proof. intros (_ & d & o & -> & Eo) (Ha & d' & o' & -> & Eo'). split; [done|]. exists d', o'. split; [done|]. by rewrite Eo', app_assoc, <- Eo. Qed.

Lemma wrote_posted s s' bs e : wrote s s' bs -> posted s' e = posted s e.
Proof. intros (_ & d & o & -> & _). apply posted_channel. Qed.

Lemma events_wp listen evs : forall s, alive s -> Forall event_ok evs -> Forall sendable (omap (posted s) evs) ->
  wp yes (handle_events listen fuel evs) s (fun _ s' => exists frames, wrote s s' (concat (wire <$> frames)) /\ Forall2 carries (omap (posted s) evs) frames).
Proof.
  induction evs as [|e evs IH]; intros s Ha He Hs; cbn [handle_events].
  - wp_step. exists []. split; [|constructor]. split; [done|]. exists (pe_dispatcher s), (pe_sink s). split; [by destruct s|]. by rewrite app_nil_r.
  - apply Forall_cons in He as [He1 He]. wp_step. apply handlers_wp; [done|]. cbn [omap list_omap] in Hs |- *. destruct (posted s e) as [m|].
    + apply Forall_cons in Hs as [Hm Hs]. eapply post_doc_wp; [done|done|]. intros doc m' s' Hc Hd Hr Hsame Hw. eapply wp_mono; [apply IH; [apply Hw|done|]|].
      * erewrite list_omap_ext; [exact Hs|]. apply Forall_Forall2_diag, Forall_forall. intros x _. by eapply wrote_posted.
      * cbn beta. intros [] s'' (frames & Hw' & H2). exists (frame_of m (d_id (pe_dispatcher s)) doc :: frames). split; [rewrite fmap_cons; by eapply wrote_trans|].
        constructor; [by exists (d_id (pe_dispatcher s)), doc, m'; split_and!; try done; destruct Ha|].
        erewrite list_omap_ext in H2; [exact H2|]. apply Forall_Forall2_diag, Forall_forall. intros x _. by eapply wrote_posted.
    + wp_step. by apply IH.
Qed.

Lemma messages_wp listen ms frames : Forall2 carries ms frames -> forall s, Forall (fun m => is_Some (arrived s m)) ms ->
  wp yes (handle_messages qsort listen (full_msg <$> frames)) s (fun _ s' => exists evs, s' = set_events s (pe_events s ++ evs)
    /\ Forall2 (fun m e' => exists m', same_p2p qsort m m' /\ arrived s m' = Some e') ms evs).
Proof.
  induction 1 as [|m fr ms frames Hm _ IH]; intros s Hk; cbn [fmap list_fmap handle_messages].
  - wp_step. exists []. split; [|constructor]. rewrite app_nil_r. by destruct s.
  - apply Forall_cons in Hk as [Hk1 Hk]. wp_step. eapply recv_wp; [exact Hm|done|]. intros m' e' Hs He. eapply wp_mono; [by apply IH|]. cbn beta. intros [] s' (evs & -> & H2). exists (e' :: evs). cbn [pe_events set_events]. rewrite <- app_assoc.
    split; [done|]. constructor; [by exists m'|done].
Qed.

(** The event on the bus of the node [b] that stands for an event on the bus of the
    node [a]. *)
Definition relayed (a b : mdv_uuid) (e e' : peer_event) : Prop :=
  match e with
  | Ev_topology_sync _ _ t => exists t', e' = Ev_topology_sync a b t' /\ same_p2p qsort (P2p_toposync t) (P2p_toposync t')
  | Ev_broadcast_post msg_id data notified _ =>
      exists notified', e' = Ev_broadcast a msg_id data notified' /\ Hashmap.wf id notified' /\ forall u, Hashmap.lookup id notified' u = Hashmap.lookup id notified u
  | Ev_trlog_sync trlog _ _ => e' = Ev_trlog_sync trlog a b
  | Ev_trlog_state trlog _ _ top => e' = Ev_trlog_state trlog a b top
  | Ev_trlog_data trlog _ _ rows count => e' = Ev_trlog_data trlog a b rows count
  | Ev_link_state _ | Ev_broadcast _ _ _ _ => False
  end.

Lemma posted_kind s s' e m : posted s e = Some m -> is_Some (arrived s' m).
Proof.
  destruct e as [e|from to t|from msg_id data notified|msg_id data notified peers|trlog from to|trlog from to top|trlog from to rows count]; cbn [posted]; try done.
  - destruct (same_uuid _ _ && same_uuid _ _); [|done]. by intros [= <-].
  - destruct (mdv_hashmap_find _ _ _) as [[?|]|]; [|done..]. by intros [= <-].
  - destruct (same_uuid _ _); [|done]. by intros [= <-].
  - destruct (same_uuid _ _); [|done]. by intros [= <-].
  - destruct (same_uuid _ _); [|done]. by intros [= <-].
Qed.

Lemma posted_relayed s s' e m m' e' : posted s e = Some m -> same_p2p qsort m m' -> arrived s' m' = Some e' -> relayed (pe_peer_uuid s') (pe_uuid s') e e'.
Proof.
  destruct e as [e|from to t|from msg_id data notified|msg_id data notified peers|trlog from to|trlog from to top|trlog from to rows count]; cbn [posted relayed]; try done.
  - destruct (same_uuid _ _ && same_uuid _ _); [|done]. intros [= <-] Hs Ha. pose proof Hs as (t' & -> & _). injection Ha as <-. by exists t'.
  - destruct (mdv_hashmap_find _ _ _) as [[?|]|]; [|done..]. intros [= <-] (set' & -> & Hw & Hl) [= <-]. by exists set'.
  - destruct (same_uuid _ _); [|done]. by intros [= <-] -> [= <-].
  - destruct (same_uuid _ _); [|done]. by intros [= <-] -> [= <-].
  - destruct (same_uuid _ _); [|done]. by intros [= <-] -> [= <-].
Qed.

Lemma relayed_all s s' evs evs' : Forall2 (fun m e' => exists m', same_p2p qsort m m' /\ arrived s' m' = Some e') (omap (posted s) evs) evs' ->
  Forall2 (relayed (pe_peer_uuid s') (pe_uuid s')) (filter (fun e => is_Some (posted s e)) evs) evs'.
Proof.
  revert evs'. induction evs as [|e evs IH]; intros evs' H2; cbn [omap list_omap] in H2; [by inversion H2|]. rewrite filter_cons. destruct (posted s e) as [m|] eqn:E.
  - inversion H2 as [|? e' ? evs'' (m' & Hs & Ha) H2']; subst. rewrite decide_True by done. constructor; [by eapply posted_relayed|by apply IH].
  - rewrite decide_False by (by intros [? ?]). by apply IH.
Qed.

Lemma length_omap_le {A B} (f : A -> option B) (l : list A) : length (omap f l) <= length l.
Proof. induction l as [|x l IH]; [done|]. cbn [omap list_omap]. destruct (f x); cbn [length]; lia. Qed.

(** C5: a connection relays the events of a node that are for its peer: whatever
    events are on the bus of the node, the bytes that the connection writes, read by
    the other side in any pieces, become the same events on the bus of the peer, in
    the same order, from this node and to the peer; topologies come with their nodes
    sorted, and sets of notified nodes with the same members.  Events for others are
    not sent. *)
Theorem mdv_peer_relays listen listen' s s' evs i fresh :
  alive s -> pe_peer_uuid s' = pe_uuid s -> pe_uuid s' = pe_peer_uuid s -> Forall event_ok evs -> Forall sendable (omap (posted s) evs) ->
  calm i -> cost i + length evs < fuel -> (forall n, length (fresh n) = n) ->
  wp yes (handle_events listen fuel evs) s (fun _ s1 => pe_events s1 = pe_events s /\ exists bs, sk_sent (pe_sink s1) = sk_sent (pe_sink s) ++ bs /\
    (arriving i = bs -> exists msgs, receive fuel fresh i no_msg [] = Done (msgs, no_msg, code MDV_EAGAIN) /\
       wp yes (handle_messages qsort listen' msgs) s' (fun _ s2 => exists evs', pe_events s2 = pe_events s' ++ evs'
         /\ Forall2 (relayed (pe_uuid s) (pe_peer_uuid s)) (filter (fun e => is_Some (posted s e)) evs) evs'))).
Proof.
  intros Ha E1 E2 He Hs Hc Hf Hfresh. eapply wp_mono; [by apply events_wp|]. cbn beta. intros [] s1 (frames & (_ & d & o & -> & Eo) & Hcar). split; [done|]. exists (concat (wire <$> frames)). split; [exact Eo|].
  intros Harr. assert (Hok : Forall Msg.message_ok frames) by (eapply Forall2_Forall_r; [exact Hcar|]; apply Forall_forall; intros m _ fr; apply carries_ok).
  assert (Hl : length frames <= length evs) by (rewrite <- (Forall2_length _ _ _ Hcar); apply length_omap_le). exists (full_msg <$> frames). split.
  { rewrite (receive_ok fresh fuel Hfresh frames i no_msg [] Hok Hc); [done|by apply reading_start|lia]. }
  eapply wp_mono; [apply (messages_wp listen' _ _ Hcar)|].
  - apply Forall_forall. intros m (e & He1 & Hp)%list_elem_of_omap. by eapply posted_kind.
  - cbn beta. intros [] s2 (evs' & -> & H2). exists evs'. split; [done|]. rewrite <- E1, <- E2. by apply relayed_all.
Qed.

(** *** Greeting *)

Lemma hello_recv listen addr fr s (Q : Z -> mdv_peer -> Prop) :
  carries (P2p_hello addr) fr -> wp yes (mdv_peer_connected listen addr (pe_peer_uuid s)) (set_addr s (Some addr)) Q -> wp yes (mdv_peer_recv qsort listen (full_msg fr)) s Q.
Proof.
  intros Hcar HQ. pose proof (carries_ok _ _ Hcar) as Hok. destruct Hcar as (number & doc & m' & -> & Hn & Hc & Hd & Hr & Hs). unfold mdv_peer_recv.
  assert (Ei : hdr_id (m_hdr (full_msg (frame_of (P2p_hello addr) number doc))) = mdv_msg_p2p_hello_id) by apply (host_fields _ Hok). rewrite Ei.
  change (peer_handler qsort listen mdv_msg_p2p_hello_id) with (Some (mdv_peer_hello_handler listen)). cbn iota. unfold mdv_peer_hello_handler. rewrite load_frame by done.
  unfold p2p_unbinn in Hr. cbn -[mdv_unbinn_p2p_hello] in Hr. destruct (mdv_unbinn_p2p_hello doc) as [addr'|]; [|done]. injection Hr as <-. cbn in Hs. injection Hs as ->. yes_steps. exact HQ.
Qed.

(** The link that a connection reports to its bus: the side that called is the source. *)
Definition link_of (listen addr : bytes) (s : mdv_peer) : Tracker.Tracker.mdv_evt_link_state :=
  match pe_dir s with
  | MDV_CHIN => Tracker.Tracker.mk_link_state (pe_uuid s) (pe_peer_uuid s) addr (pe_uuid s) listen true
  | MDV_CHOUT => Tracker.Tracker.mk_link_state (pe_uuid s) (pe_uuid s) listen (pe_peer_uuid s) addr true
  end.

(** a new connection greets the other side, which reports the link with the
    addresses of both nodes, from the node that called to the node that was called;
    when the connection is freed it reports that the link is down. *)
Theorem mdv_peer_reports_link listen listen' d o a b dir s' i fresh :
  sendable (P2p_hello listen) -> d_id d = 0%Z -> willing (sk_answers o) -> length (sk_answers o) + 1 < fuel ->
  calm i -> cost i + 1 < fuel -> (forall n, length (fresh n) = n) ->
  wp yes (mdv_peer_create listen fuel true true (Some d) true true o a b dir) tt (fun r _ => exists s bs, r = inl s /\ alive s /\ sk_sent (pe_sink s) = sk_sent o ++ bs /\
    (arriving i = bs -> exists msgs, receive fuel fresh i no_msg [] = Done (msgs, no_msg, code MDV_EAGAIN) /\
       wp yes (handle_messages qsort listen' msgs) s' (fun _ s2 => pe_events s2 = pe_events s' ++ [Ev_link_state (link_of listen' listen s')] /\ pe_peer_addr s2 = Some listen /\
         wp yes (mdv_peer_free listen') s2 (fun _ s3 => pe_events s3 = pe_events s2 ++ [Ev_link_state (Tracker.Tracker.mk_link_state (pe_uuid s') (pe_uuid s') listen' (pe_peer_uuid s') listen false)])))).
Proof.
  intros Hs Ed Hw Hf Hc Hcost Hfresh k. set (s0 := mk_peer 1 dir a b None d o []). assert (Ha : alive s0) by (by split; cbn; rewrite ?Ed).
  assert (Hpost : wp yes (mdv_peer_hello listen fuel) s0 (fun err s => err = code MDV_OK /\ exists fr, carries (P2p_hello listen) fr /\ wrote s0 s (wire fr))).
  { apply (post_doc_wp listen (P2p_hello listen) s0); [done|done|]. intros doc m' s Hcd Hd Hr Hsame Hwr. split; [done|]. exists (frame_of (P2p_hello listen) 0 doc). split; [by exists 0%Z, doc, m'|].
    change (d_id (pe_dispatcher s0)) with (d_id d) in Hwr. by rewrite Ed in Hwr. }
  destruct (Hpost k) as (err & k1 & s & E & -> & fr & Hcar & Hal & d1 & o1 & Es & Eo). exists (inl s), k1, tt. split; [unfold mdv_peer_create; cbn [negb]; fold s0; by rewrite E|].
  exists s, (wire fr). split_and!; [done|done|by rewrite Es|]. intros Harr. exists [full_msg fr]. split.
  { rewrite (receive_ok fresh fuel Hfresh [fr] i no_msg []); [done|apply Forall_singleton; by eapply carries_ok|done| |cbn; lia]. apply reading_start; [apply Forall_singleton; by eapply carries_ok|]. cbn. by rewrite app_nil_r. }
  cbn [handle_messages]. wp_step. eapply hello_recv; [exact Hcar|]. unfold mdv_peer_connected. yes_steps. apply publish_yes. yes_steps. split; [by destruct s' as [? []]|]. split; [done|].
  unfold mdv_peer_free, mdv_peer_disconnected. wp_step. wp_step. cbn [pe_peer_addr set_events set_addr]. wp_step. apply publish_yes. by wp_step.
Qed.

End Relay.

(** ** Witnesses *)

Definition demo_dispatcher : mdv_dispatcher := mk_dispatcher 3 no_msg ∅ ∅ [] 0.
Definition node_a : mdv_uuid := mk_uuid 1 0.
Definition node_b : mdv_uuid := mk_uuid 2 0.
Definition side_a : mdv_peer := mk_peer 1 MDV_CHOUT node_a node_b None demo_dispatcher (mk_sink [] []) [].
Definition side_b : mdv_peer := mk_peer 1 MDV_CHIN node_b node_a None demo_dispatcher (mk_sink [] []) [].

Lemma made_fits (m : p2p_message) : match Exchange.made (p2p_binn m) with Some doc => Exchange.doc_fits doc | None => False end -> forall doc, makes (p2p_binn m) doc -> Exchange.doc_fits doc.
Proof. intros Hm doc Hd. by rewrite (Exchange.makes_made _ _ Hd) in Hm. Qed.

(** Requests for a log: one for the peer, one for another node. *)
Definition demo_events : list peer_event := [Ev_trlog_sync (mk_uuid 7 0) node_a node_b; Ev_trlog_sync (mk_uuid 8 0) node_a (mk_uuid 3 0)].

Lemma demo_alive : alive 2000 side_a.
Proof. split; [cbn; lia|done|constructor|cbn; lia]. Qed.

Lemma mdv_peer_relays_witness :
  exists s1 k msgs, handle_events [] 2000 demo_events yes 0 side_a = Done (tt, k, s1)
    /\ receive 2000 (fun n => replicate n 0%Z) [Rd_data (sk_sent (pe_sink s1))] no_msg [] = Done (msgs, no_msg, code MDV_EAGAIN)
    /\ wp yes (handle_messages (fun l => l) [] msgs) side_b (fun _ s2 => pe_events s2 = [Ev_trlog_sync (mk_uuid 7 0) node_a node_b]).
Proof.
  set (bs := match handle_events [] 2000 demo_events yes 0 side_a with Done (_, _, s) => sk_sent (pe_sink s) | _ => [] end).
  destruct (mdv_peer_relays (fun l => l) (fun l => Permutation_refl l) 2000 [] [] side_a side_b demo_events [Rd_data bs] (fun n => replicate n 0%Z) demo_alive) with (k := 0)
    as ([] & k & s1 & E & _ & bs' & Ebs & Hrest); [done|done|by repeat constructor| |by repeat constructor|vm_compute; lia|intros n; apply length_replicate|].
  - constructor; [|constructor]. split; [done|]. apply made_fits. vm_compute. repeat split; congruence.
  - assert (Eb : bs = sk_sent (pe_sink s1)) by (unfold bs; by rewrite E). destruct Hrest as (msgs & Er & Hm); [unfold arriving; cbn -[bs]; by rewrite app_nil_r, Eb, Ebs|].
    exists s1, k, msgs. split; [exact E|]. split; [by rewrite <- Eb|]. eapply wp_mono; [exact Hm|]. cbn beta. intros [] s2 (evs' & -> & H2).
    assert (Ef : filter (fun e => is_Some (posted side_a e)) demo_events = [Ev_trlog_sync (mk_uuid 7 0) node_a node_b]) by (vm_compute; reflexivity).
    rewrite Ef in H2. inversion H2 as [|? e' ? l He Hl]; subst. inversion Hl; subst. cbn in He. by subst.
Defined.

Lemma mdv_peer_reports_link_witness :
  exists s msgs, (exists k, mdv_peer_create [97]%Z 2000 true true (Some demo_dispatcher) true true (mk_sink [] []) node_a node_b MDV_CHOUT yes 0 tt = Done (inl s, k, tt))
    /\ receive 2000 (fun n => replicate n 0%Z) [Rd_data (sk_sent (pe_sink s))] no_msg [] = Done (msgs, no_msg, code MDV_EAGAIN)
    /\ wp yes (handle_messages (fun l => l) [98]%Z msgs) side_b (fun _ s2 => pe_events s2 = [Ev_link_state (Tracker.Tracker.mk_link_state node_b node_a [97]%Z node_b [98]%Z true)]).
Proof.
  set (bs := match mdv_peer_create [97]%Z 2000 true true (Some demo_dispatcher) true true (mk_sink [] []) node_a node_b MDV_CHOUT yes 0 tt with Done (inl s, _, _) => sk_sent (pe_sink s) | _ => [] end).
  destruct (mdv_peer_reports_link (fun l => l) (fun l => Permutation_refl l) 2000 [97]%Z [98]%Z demo_dispatcher (mk_sink [] []) node_a node_b MDV_CHOUT side_b [Rd_data bs] (fun n => replicate n 0%Z)) with (k := 0)
    as (r & k & [] & E & s & bs' & -> & _ & Ebs & Hrest); [|done|constructor|cbn; lia|by repeat constructor|vm_compute; lia|intros n; apply length_replicate|].
  - split; [done|]. apply made_fits. vm_compute. repeat split; first [congruence|bytes_ok].
  - assert (Eb : bs = sk_sent (pe_sink s)) by (unfold bs; by rewrite E). destruct Hrest as (msgs & Er & Hm); [unfold arriving; cbn -[bs]; by rewrite app_nil_r, Eb, Ebs|].
    exists s, msgs. split; [by exists k|]. split; [by rewrite <- Eb|]. eapply wp_mono; [exact Hm|]. cbn beta. by intros [] s2 (-> & _).
Defined.

End Peer.
