(* ===== verification/Netaddr.v ===== *)
(** * Network addresses (src/mdv_net/mdv_netaddr.c)

    An address is written as a protocol, a host and a port, "tcp://host:port".  The
    resolver of the system is the parameter [getaddrinfo]: from a host and a port, an
    error or a list of families with the bytes of their addresses.  A string is the
    list of its characters without the final zero; a socket address is the structure
    [sockaddr_storage] of 128 bytes. *)

From S2P Require Import Prelude Bloom Hashmap Binn Msg.
Import Bloom.Hash Hashmap Binn Msg.
#[local] Open Scope nat_scope.
#[local] Open Scope list_scope.

Module Netaddr.

Inductive mdv_socket_type := MDV_SOCK_STREAM | MDV_SOCK_DGRAM | MDV_SOCK_UNKNOWN.

Record mdv_netaddr := mk_netaddr { na_type : mdv_socket_type; na_addr : bytes }.

#[global] Instance mdv_socket_type_eq_dec : EqDecision mdv_socket_type.
Proof. solve_decision. Defined.
#[global] Instance mdv_netaddr_eq_dec : EqDecision mdv_netaddr.
Proof. solve_decision. Defined.

Definition MDV_ADDR_LEN_MAX : nat := 256.
Definition AF_INET : Z := 2.
Definition AF_INET6 : Z := 10.
Definition sizeof_sockaddr_storage : nat := 128.
Definition sizeof_sockaddr_in : nat := 16.
Definition sizeof_sockaddr_in6 : nat := 28.

(** ** Strings of the C library *)

Definition tolower (c : Z) : Z := if (65 <=? c)%Z && (c <=? 90)%Z then (c + 32)%Z else c.

(** [strncasecmp(a, str, 3) == 0] for [a] of three characters in lower case *)
Definition starts3 (a str : bytes) : bool := bool_decide (tolower <$> take 3 str = a).

Definition tcp : bytes := [116; 99; 112]%Z.
Definition udp : bytes := [117; 100; 112]%Z.
Definition delimiter : bytes := [58; 47; 47]%Z.
Definition colon : Z := 58.

(** The place of the first occurrence. *)
Fixpoint strstr (str pat : bytes) : option nat :=
  if bool_decide (take (length pat) str = pat) then Some 0
  else match str with [] => None | _ :: str => S <$> strstr str pat end.

(** The place of the last occurrence. *)
Fixpoint strrchr (str : bytes) (c : Z) : option nat :=
  match str with
  | [] => None
  | x :: str => match strrchr str c with Some i => Some (S i) | None => if (x =? c)%Z then Some 0 else None end
  end.

(** ** From a string to an address *)

(** A null pointer is read when there is no protocol. *)
Definition mdv_str2socket_type (str : option bytes) : outcome mdv_socket_type :=
  str ← deref str;
  Done (if starts3 tcp str then MDV_SOCK_STREAM else if starts3 udp str then MDV_SOCK_DGRAM else MDV_SOCK_UNKNOWN).

Definition ss_family (addr : bytes) : Z := of_le (take 2 addr).

(** The loop over the addresses: an address of version 4 ends it, one of version 6 is
    taken when there is none yet. *)
Fixpoint pick_addr (l : list (Z * bytes)) (addr : bytes) (ret : Z) : bytes * Z :=
  match l with
  | [] => (addr, ret)
  | (family, src) :: l =>
      if (family =? AF_INET)%Z then (memcpy addr 0 (take sizeof_sockaddr_in src), code MDV_OK)
      else if (ss_family addr =? 0)%Z && (family =? AF_INET6)%Z
      then pick_addr l (memcpy addr 0 (take sizeof_sockaddr_in6 src)) (code MDV_OK)
      else pick_addr l addr ret
  end.

Section Netaddr.
Context (getaddrinfo : bytes -> option bytes -> Z + list (Z * bytes)).

(** The address or the error; the protocol ends at the delimiter, the port follows the
    last colon. *)
Definition mdv_str2netaddr (str : option bytes) : outcome (mdv_netaddr + Z) :=
  match str with
  | None => Done (inr (code MDV_INVALID_ARG))
  | Some str =>
      if MDV_ADDR_LEN_MAX <? length str + 1 then Done (inr (code MDV_INVALID_ARG)) else
      let '(proto, host) :=
        match strstr str delimiter with
        | Some i => (Some (take i str), drop (i + 3) str)
        | None => (None, str)
        end in
      type ← mdv_str2socket_type proto;
      let '(host, port) :=
        match strrchr host colon with
        | Some i => (take i host, Some (drop (S i) host))
        | None => (host, None)
        end in
      match getaddrinfo host port with
      | inl err => Done (inr err)
      | inr result =>
          let '(addr, ret) := pick_addr result (replicate sizeof_sockaddr_storage 0%Z) (code MDV_FAILED) in
          Done (if (ret =? code MDV_OK)%Z then inl (mk_netaddr type addr) else inr ret)
      end
  end.

(** ** What is resolved *)

Lemma strstr_here proto rest : colon ∉ proto -> strstr (proto ++ delimiter ++ rest) delimiter = Some (length proto).
Proof.
  intros Hn. induction proto as [|x l IH]; [done|]. apply not_elem_of_cons in Hn as [Hx Hl]. cbn [app strstr length]. rewrite IH by done.
  rewrite bool_decide_eq_false_2; [done|]. intros E. unfold delimiter, colon in *. cbn in E. injection E as E _. congruence.
Qed.

Lemma strrchr_none s : colon ∉ s -> strrchr s colon = None.
Proof. induction s as [|x s IH]; [done|]. intros [Hx Hs]%not_elem_of_cons. cbn. rewrite IH by done. by destruct (Z.eqb_spec x colon). Qed.

Lemma strrchr_here host port : colon ∉ port -> strrchr (host ++ colon :: port) colon = Some (length host).
Proof. intros Hn. induction host as [|x l IH]; [cbn; by rewrite strrchr_none|]. cbn. by rewrite IH. Qed.

(** An address in full: the host and the port reach the resolver as they are written. *)
Lemma str2netaddr_full proto host port :
  colon ∉ proto -> colon ∉ port -> length proto + length host + length port <= 251 ->
  mdv_str2netaddr (Some (proto ++ delimiter ++ host ++ colon :: port)) =
    type ← mdv_str2socket_type (Some proto);
    Done (match getaddrinfo host (Some port) with
          | inl err => inr err
          | inr result =>
              let '(addr, ret) := pick_addr result (replicate sizeof_sockaddr_storage 0%Z) (code MDV_FAILED) in
              if (ret =? code MDV_OK)%Z then inl (mk_netaddr type addr) else inr ret
          end).
Proof.
  intros Hp Ho Hl. unfold mdv_str2netaddr. rewrite !length_app. cbn [length delimiter].
  destruct (Nat.ltb_spec MDV_ADDR_LEN_MAX (length proto + (3 + (length host + S (length port))) + 1)); [unfold MDV_ADDR_LEN_MAX in *; lia|].
  rewrite strstr_here by done. rewrite take_app_length.
  assert (E : drop (length proto + 3) (proto ++ delimiter ++ host ++ colon :: port) = host ++ colon :: port).
  { rewrite app_assoc. apply drop_app_length'. rewrite length_app. done. }
  rewrite E, strrchr_here, take_app_length by done.
  assert (E2 : drop (S (length host)) (host ++ colon :: port) = port).
  { change (colon :: port) with ([colon] ++ port). rewrite app_assoc. apply drop_app_length'. rewrite length_app. cbn. lia. }
  rewrite E2. cbn [mdv_str2socket_type deref mbind outcome_bind]. destruct (getaddrinfo host (Some port)); [done|]. by destruct (pick_addr _ _ _).
Qed.

(** Without a protocol a null pointer is read. *)
Lemma str2netaddr_null str : length str <= 255 -> strstr str delimiter = None -> mdv_str2netaddr (Some str) = OutOfBounds (-1).
Proof. intros Hl Hn. unfold mdv_str2netaddr. destruct (Nat.ltb_spec MDV_ADDR_LEN_MAX (length str + 1)); [unfold MDV_ADDR_LEN_MAX in *; lia|]. by rewrite Hn. Qed.

End Netaddr.

(** An address of version 4 behind one of version 6 leaves bytes of the latter: the
    address differs from the one that is resolved alone. *)
Example pick_mixed :
  let a6 := 10%Z :: 0%Z :: replicate 26 7%Z in let a4 := 2%Z :: 0%Z :: replicate 14 5%Z in
  let zero := replicate sizeof_sockaddr_storage 0%Z in
  (pick_addr [(AF_INET6, a6); (AF_INET, a4)] zero 0).1 <> (pick_addr [(AF_INET, a4)] zero 0).1.
Proof. by vm_compute. Qed.

(** ** Addresses as keys (src/mdv_net/mdv_chaman.c) *)

(** [memcmp] of two structures of the same size. *)
Fixpoint sockaddr_cmp (a b : bytes) : Z :=
  match a, b with
  | [], [] => 0
  | [], _ => -1
  | _, [] => 1
  | x :: a, y :: b => if (x <? y)%Z then -1 else if (y <? x)%Z then 1 else sockaddr_cmp a b
  end.

Definition mdv_netaddr_hash (addr : mdv_netaddr) : Z := mdv_hash_murmur2a (na_addr addr) 0.
Definition mdv_netaddr_cmp (a b : mdv_netaddr) : Z := sockaddr_cmp (na_addr a) (na_addr b).

#[export] Instance netaddr_key : HashKey mdv_netaddr := {| hash_fn := mdv_netaddr_hash; key_cmp_fn := mdv_netaddr_cmp |}.

Lemma sockaddr_cmp_eq a b : sockaddr_cmp a b = 0%Z <-> a = b.
Proof.
  revert b. induction a as [|x a IH]; intros [|y b]; cbn; [done|by split|by split|].
  destruct (Z.ltb_spec x y); [split; [done|intros [= -> _]; lia]|]. destruct (Z.ltb_spec y x); [split; [done|intros [= -> _]; lia]|].
  rewrite IH. split; [intros ->; f_equal; lia|by intros [= _ ->]].
Qed.

(** The type of the socket is not part of the key. *)
Lemma netaddr_keq (a b : mdv_netaddr) : keq a b <-> na_addr a = na_addr b.
Proof. apply sockaddr_cmp_eq. Qed.

#[export] Instance netaddr_key_ok : HashKeyOk mdv_netaddr.
Proof.
  split; [split; intros ?; intros *; rewrite !netaddr_keq; congruence|].
  intros a b E%netaddr_keq. cbn. unfold mdv_netaddr_hash. by rewrite E.
Qed.

End Netaddr.
