(* ===== verification/Chaman.v ===== *)
(** * The manager of channels (src/mdv_net/mdv_chaman.c)

    The manager listens on addresses, dials addresses and keeps dialing those whose
    connection is lost, waits for handshakes and keeps the channels of the connections.
    Every descriptor has a task in a thread pool; the handlers of the tasks are run one
    after the other here, each of them on behalf of one event of the pool.

    What a connection is, is left to the user of the manager: the callbacks of its
    configuration are the class [Channels], and what the manager relies on is
    [ChannelsLaws]. *)

From S2P Require Import Prelude Uuid Hashmap Rollbacker Binn Topology Action Msg Threadpool Peer Netaddr.
Import Uuid Hashmap Rollbacker Binn Topology Action Msg Threadpool Netaddr.
#[local] Open Scope nat_scope.
#[local] Open Scope list_scope.

Module Chaman.

(** ** The state *)

Abbreviation mdv_channel_dir := Peer.mdv_channel_dir.
Abbreviation MDV_CHIN := Peer.MDV_CHIN.
Abbreviation MDV_CHOUT := Peer.MDV_CHOUT.

(** The callbacks of the configuration, and the methods of a channel.  A channel is the
    number of an object of the user. *)
Class Channels (W : Type) := {
  handshake : Z -> action W Z;
  accept : Z -> action W (Z * Z * mdv_uuid);
  create_channel : Z -> Z -> mdv_channel_dir -> mdv_uuid -> action W (option nat);
  mdv_channel_recv : nat -> action W Z;
  mdv_channel_id : nat -> action W mdv_uuid;
  mdv_channel_release : nat -> action W unit
}.

Inductive mdv_dialer_state := MDV_DIALER_DISCONNECTED | MDV_DIALER_CONNECTED | MDV_DIALER_CONNECTING.

#[global] Instance mdv_dialer_state_eq_dec : EqDecision mdv_dialer_state.
Proof. solve_decision. Defined.

Record mdv_dialer := mk_dialer {
  dl_addr : mdv_netaddr;
  dl_state : mdv_dialer_state;
  dl_attempt_time : Z;
  dl_channel_id : mdv_uuid;
  dl_channel_type : Z
}.

Definition set_state (d : mdv_dialer) (st : mdv_dialer_state) : mdv_dialer :=
  mk_dialer (dl_addr d) st (dl_attempt_time d) (dl_channel_id d) (dl_channel_type d).
Definition set_connected (d : mdv_dialer) (id : mdv_uuid) : mdv_dialer :=
  mk_dialer (dl_addr d) MDV_DIALER_CONNECTED (dl_attempt_time d) id (dl_channel_type d).
Definition set_attempt (d : mdv_dialer) (time : Z) : mdv_dialer :=
  mk_dialer (dl_addr d) MDV_DIALER_CONNECTING time (dl_channel_id d) (dl_channel_type d).

(** The dialer of a reference is the one with this address; it is not used. *)
Record mdv_channel_ref := mk_ref { cr_id : mdv_uuid; cr_channel : nat; cr_dialer : option mdv_netaddr }.

Definition sizeof_dialer : nat := 176.
Definition sizeof_channel_ref : nat := 32.

Inductive mdv_context_type := MDV_CT_SELECTOR | MDV_CT_LISTENER | MDV_CT_DIALER | MDV_CT_RECV | MDV_CT_TIMER.

(** What follows the type in a context. *)
Inductive mdv_context :=
| Ctx_selector (addr : mdv_netaddr) (dir : mdv_channel_dir)
| Ctx_listener
| Ctx_dialer (addr : mdv_netaddr) (channel_type : Z)
| Ctx_recv (addr : mdv_netaddr) (channel : nat)
| Ctx_timer.

Inductive mdv_handler :=
| mdv_chaman_select_fn | mdv_chaman_accept_fn | mdv_chaman_dialer_fn | mdv_chaman_recv_fn | mdv_chaman_timer_fn.

Abbreviation ctask := (mdv_threadpool_task (F := mdv_handler) (C := mdv_context_type * mdv_context)).
Abbreviation cpool := (mdv_threadpool (F := mdv_handler) (C := mdv_context_type * mdv_context)).

Definition selector_task (fd : Z) (addr : mdv_netaddr) (dir : mdv_channel_dir) : ctask :=
  mk_task fd (Some mdv_chaman_select_fn) (Some (MDV_CT_SELECTOR, Ctx_selector addr dir)).
Definition listener_task (fd : Z) : ctask := mk_task fd (Some mdv_chaman_accept_fn) (Some (MDV_CT_LISTENER, Ctx_listener)).
Definition dialer_task (fd : Z) (addr : mdv_netaddr) (type : Z) : ctask :=
  mk_task fd (Some mdv_chaman_dialer_fn) (Some (MDV_CT_DIALER, Ctx_dialer addr type)).
Definition recv_task (fd : Z) (addr : mdv_netaddr) (channel : nat) : ctask :=
  mk_task fd (Some mdv_chaman_recv_fn) (Some (MDV_CT_RECV, Ctx_recv addr channel)).
(** The source gives it the type of a dialer. *)
Definition timer_task (fd : Z) : ctask := mk_task fd (Some mdv_chaman_timer_fn) (Some (MDV_CT_DIALER, Ctx_timer)).

Definition oneshot_in : Z := Z.lor (Z.lor (Z.lor MDV_EPOLLET MDV_EPOLLONESHOT) MDV_EPOLLIN) MDV_EPOLLERR.
Definition oneshot_out : Z := Z.lor (Z.lor (Z.lor MDV_EPOLLET MDV_EPOLLONESHOT) MDV_EPOLLOUT) MDV_EPOLLERR.

Section Chaman.
Context {W : Type} `{Channels W}.

(** [cm_open]: the descriptors that are open; [cm_world]: the state of the user. *)
Record mdv_chaman := mk_chaman {
  cm_pool : cpool;
  cm_dialers : mdv_hashmap mdv_dialer;
  cm_channels : mdv_hashmap mdv_channel_ref;
  cm_open : gset Z;
  cm_world : W
}.

Definition set_pool (s : mdv_chaman) (tp : cpool) : mdv_chaman := mk_chaman tp (cm_dialers s) (cm_channels s) (cm_open s) (cm_world s).
Definition set_dialers (s : mdv_chaman) (hm : mdv_hashmap mdv_dialer) : mdv_chaman := mk_chaman (cm_pool s) hm (cm_channels s) (cm_open s) (cm_world s).
Definition set_channels (s : mdv_chaman) (hm : mdv_hashmap mdv_channel_ref) : mdv_chaman := mk_chaman (cm_pool s) (cm_dialers s) hm (cm_open s) (cm_world s).
Definition set_open (s : mdv_chaman) (o : gset Z) : mdv_chaman := mk_chaman (cm_pool s) (cm_dialers s) (cm_channels s) o (cm_world s).
Definition set_world (s : mdv_chaman) (w : W) : mdv_chaman := mk_chaman (cm_pool s) (cm_dialers s) (cm_channels s) (cm_open s) w.

(** [lock]: can the mutexes be locked?  [retry_interval] is of the configuration. *)
Context (lock : bool) (retry_interval : Z).
Context (getaddrinfo : bytes -> option bytes -> Z + list (Z * bytes)).

Abbreviation ca := (action mdv_chaman).

Definition in_pool {A} (m : action cpool A) : ca A := zoom cm_pool set_pool m.
Definition in_world {A} (m : action W A) : ca A := zoom cm_world set_world m.

(** ** Descriptors *)

(** The system gives a descriptor that is not open, if it has one. *)
Definition new_descriptor : ca (option Z) :=
  ok ← ask;
  s ← get;
  let fd := base.fresh (cm_open s) in
  if (ok : bool) && (0 <=? fd)%Z && (fd <? 2 ^ 31)%Z then put (set_open s ({[fd]} ∪ cm_open s));; mret (Some fd) else mret None.

(** Only an open descriptor may be closed; it leaves the interest lists. *)
Definition mdv_socket_close (fd : Z) : ca unit :=
  s ← get;
  if bool_decide (fd ∈ cm_open s) then
    put (set_open (set_pool s (set_epoll (cm_pool s) (delete fd (tp_epoll (cm_pool s))))) (cm_open s ∖ {[fd]}))
  else lift (OutOfBounds fd).

(** ** Dialers *)

Definition find_dialer (addr : mdv_netaddr) : ca (option mdv_dialer) :=
  s ← get; lift (deref (mdv_hashmap_find dl_addr (cm_dialers s) addr)).

(** A write through the pointer to a dialer. *)
Definition write_dialer (d : mdv_dialer) : ca unit :=
  s ← get; put (set_dialers s (write_item dl_addr (cm_dialers s) d)).

Definition mdv_chaman_dialer_state (addr : mdv_netaddr) (state : mdv_dialer_state) : ca unit :=
  if negb lock then mret tt else
  dialer ← find_dialer addr;
  match dialer with Some d => write_dialer (set_state d state) | None => mret tt end.

(** [now]: the time. *)
Definition mdv_chaman_dialer_reg (now : Z) (netaddr : mdv_netaddr) (channel_type : Z) : ca mdv_errno :=
  if negb lock then mret MDV_FAILED else
  dialer ← find_dialer netaddr;
  match dialer with
  | Some _ => mret MDV_EEXIST
  | None =>
      m1 ← ask; m2 ← ask;
      s ← get;
      r ← lift (deref (mdv_hashmap_insert dl_addr m1 m2 (cm_dialers s) (mk_dialer netaddr MDV_DIALER_CONNECTING now (mk_uuid 0 0) channel_type) sizeof_dialer));
      put (set_dialers s r.2);;
      mret (match r.1 with Some _ => MDV_OK | None => MDV_FAILED end)
  end.

Definition mdv_chaman_dialer_unreg (addr : mdv_netaddr) : ca unit :=
  if negb lock then mret tt else
  s ← get;
  r ← lift (deref (mdv_hashmap_erase dl_addr (cm_dialers s) addr));
  put (set_dialers s r.2).

(** A connection that is established at once is closed, and reported as made. *)
Definition mdv_chaman_connect (netaddr : mdv_netaddr) (channel_type : Z) : ca mdv_errno :=
  sd ← new_descriptor;
  match sd with
  | None => mret MDV_FAILED
  | Some sd =>
      pending ← ask;
      if negb pending then connected ← ask; mdv_socket_close sd;; mret (if (connected : bool) then MDV_OK else MDV_FAILED) else
      added ← in_pool (mdv_threadpool_add lock oneshot_out (dialer_task sd netaddr channel_type));
      if negb added then mdv_socket_close sd;; mret MDV_FAILED else mret MDV_OK
  end.

Definition mdv_chaman_dial (now : Z) (addr : option bytes) (type : Z) : ca Z :=
  netaddr ← lift (mdv_str2netaddr getaddrinfo addr);
  match netaddr with
  | inr err => mret err
  | inl netaddr =>
      err ← mdv_chaman_dialer_reg now netaddr type;
      match err with
      | MDV_EEXIST => mret (code MDV_OK)
      | MDV_FAILED => mret (code err)
      | _ =>
          err ← mdv_chaman_connect netaddr type;
          if bool_decide (err = MDV_OK) then mret (code MDV_OK)
          else mdv_chaman_dialer_unreg netaddr;; mret (code err)
      end
  end.

(** The dialers in the order of the map. *)
Fixpoint retry (dialers : list mdv_dialer) (time : Z) : ca unit :=
  match dialers with
  | [] => mret tt
  | d :: dialers =>
      (if bool_decide (dl_state d = MDV_DIALER_DISCONNECTED) && (u64 (dl_attempt_time d + retry_interval) <? time)%Z
       then write_dialer (set_attempt d time);; mdv_chaman_connect (dl_addr d) (dl_channel_type d);; mret tt
       else mret tt);;
      retry dialers time
  end.

Definition mdv_chaman_timer_handler (now : Z) : ca unit :=
  if negb lock then mret tt else s ← get; retry (mdv_hashmap_foreach (cm_dialers s)) now.

(** ** Connections *)

Definition mdv_chaman_selector_reg (fd : Z) (addr : mdv_netaddr) (dir : mdv_channel_dir) : ca mdv_errno :=
  added ← in_pool (mdv_threadpool_add lock oneshot_in (selector_task fd addr dir));
  mret (if (added : bool) then MDV_OK else MDV_FAILED).

(** [handshake(...) != MDV_OK || mdv_chaman_selector_reg(...) != MDV_OK] *)
Definition greeting_failed (fd : Z) (addr : mdv_netaddr) (dir : mdv_channel_dir) : ca bool :=
  err ← in_world (handshake fd);
  if negb (err =? code MDV_OK)%Z then mret true else
  err ← mdv_chaman_selector_reg fd addr dir; mret (bool_decide (err <> MDV_OK)).

Definition mdv_chaman_dialer_handler (events fd : Z) (addr : mdv_netaddr) : ca unit :=
  in_pool (mdv_threadpool_remove lock fd);;
  if has events MDV_EPOLLERR then
    mdv_socket_close fd;; mdv_chaman_dialer_state addr MDV_DIALER_DISCONNECTED
  else if has events MDV_EPOLLOUT then
    failed ← greeting_failed fd addr MDV_CHOUT;
    if (failed : bool) then mdv_socket_close fd;; mdv_chaman_dialer_state addr MDV_DIALER_DISCONNECTED else mret tt
  else mret tt.

(** Erases a channel and releases it; its dialer has to dial again. *)
Definition drop_channel (id : mdv_uuid) (channel : nat) (addr : mdv_netaddr) : ca unit :=
  s ← get;
  r ← lift (deref (mdv_hashmap_erase cr_id (cm_channels s) id));
  put (set_channels s r.2);;
  in_world (mdv_channel_release channel);;
  dialer ← find_dialer addr;
  match dialer with Some d => write_dialer (set_state d MDV_DIALER_DISCONNECTED) | None => mret tt end.

Definition mdv_chaman_recv_handler (events : Z) (task : ctask) (addr : mdv_netaddr) (channel : nat) : ca unit :=
  err ← in_world (mdv_channel_recv channel);
  if negb (has events MDV_EPOLLERR) && ((err =? code MDV_EAGAIN)%Z || (err =? code MDV_OK)%Z)
  then in_pool (mdv_threadpool_rearm oneshot_in task);; mret tt
  else
    (if negb lock then mret tt else id ← in_world (mdv_channel_id channel); drop_channel id channel addr);;
    in_pool (mdv_threadpool_remove lock (tk_fd task));;
    mdv_socket_close (tk_fd task).

(** The error and the channel of a new connection. *)
Definition register_channel (sock : Z) (addr : mdv_netaddr) (channel_type : Z) (dir : mdv_channel_dir) (channel_id : mdv_uuid)
  : ca (option nat) :=
  s ← get;
  ref ← lift (deref (mdv_hashmap_find cr_id (cm_channels s) channel_id));
  dialer ← find_dialer addr;
  let connected := match dialer with Some d => write_dialer (set_connected d channel_id) | None => mret tt end in
  match ref with
  | Some _ => connected;; mdv_socket_close sock;; mret None
  | None =>
      channel ← in_world (create_channel sock channel_type dir channel_id);
      match channel with
      | None => mdv_socket_close sock;; mret None
      | Some channel =>
          m1 ← ask; m2 ← ask;
          s ← get;
          r ← lift (deref (mdv_hashmap_insert cr_id m1 m2 (cm_channels s) (mk_ref channel_id channel (dl_addr <$> dialer)) sizeof_channel_ref));
          put (set_channels s r.2);;
          match r.1 with
          | Some _ => connected;; mret (Some channel)
          | None => in_world (mdv_channel_release channel);; mdv_socket_close sock;; mret None
          end
      end
  end.

Definition mdv_chaman_new_connection (sock : Z) (addr : mdv_netaddr) (channel_type : Z) (dir : mdv_channel_dir) (channel_id : mdv_uuid) : ca unit :=
  if negb lock then mret tt else
  channel ← register_channel sock addr channel_type dir channel_id;
  match channel with
  | None => mret tt
  | Some channel =>
      added ← in_pool (mdv_threadpool_add lock oneshot_in (recv_task sock addr channel));
      if (added : bool) then mret tt else
      drop_channel channel_id channel addr;; mdv_socket_close sock
  end.

Definition mdv_chaman_select_handler (events : Z) (task : ctask) (addr : mdv_netaddr) (dir : mdv_channel_dir) : ca unit :=
  let fd := tk_fd task in
  r ← in_world (accept fd);
  let '(err, type, channel_id) := (r : Z * Z * mdv_uuid) in
  if negb (has events MDV_EPOLLERR) && (err =? code MDV_EAGAIN)%Z then
    armed ← in_pool (mdv_threadpool_rearm oneshot_in task);
    if (armed : bool) then mret tt else in_pool (mdv_threadpool_remove lock fd);; mdv_socket_close fd
  else
    in_pool (mdv_threadpool_remove lock fd);;
    if (err =? code MDV_OK)%Z then mdv_chaman_new_connection fd addr type dir channel_id else mdv_socket_close fd.

(** [from]: the address of the other side. *)
Definition mdv_chaman_accept_handler (from : bytes) : ca unit :=
  sock ← new_descriptor;
  match sock with
  | None => mret tt
  | Some sock =>
      failed ← greeting_failed sock (mk_netaddr MDV_SOCK_STREAM from) MDV_CHIN;
      if (failed : bool) then mdv_socket_close sock else mret tt
  end.

(** [rb]: has the rollbacker memory?  A task that is not added is reported as success. *)
Definition mdv_chaman_listen (rb : bool) (addr : option bytes) : ca Z :=
  netaddr ← lift (mdv_str2netaddr getaddrinfo addr);
  match netaddr with
  | inr err => mret err
  | inl _ =>
      sd ← new_descriptor;
      match sd with
      | None => mret (code MDV_FAILED)
      | Some sd =>
          let rollback := if rb then mdv_socket_close sd else mret tt in
          bound ← ask;
          if negb bound then rollback;; mret (code MDV_FAILED) else
          listening ← ask;
          if negb listening then rollback;; mret (code MDV_FAILED) else
          added ← in_pool (mdv_threadpool_add lock (Z.lor (Z.lor MDV_EPOLLEXCLUSIVE MDV_EPOLLIN) MDV_EPOLLERR) (listener_task sd));
          if negb added then rollback;; mret (code MDV_OK) else mret (code MDV_OK)
      end
  end.

(** ** Creation and destruction *)

Inductive cm_release_fn := Fn_cm_rollbacker_free | Fn_cm_free | Fn_cm_mutex_free | Fn_cm_hashmap_release | Fn_cm_threadpool_free | Fn_timerfd_close.
Inductive cm_resource := Res_cm_rollbacker | Res_chaman | Res_cm_mutex | Res_dialers | Res_channels | Res_cm_threadpool | Res_timer.

Definition cm_push (r : option (mdv_rollbacker cm_release_fn cm_resource)) (f : cm_release_fn) (x : cm_resource) :=
  snd (mdv_rollbacker_push r (mk_op f [x])).

(** The manager, or the calls of the rollback.  [threads]: the size of the pool;
    [stopfd] and [timer]: the descriptors the system gave. *)
Definition mdv_chaman_create (threads : nat) (stopfd timer : Z) (w : W) : action unit (mdv_chaman + list (cm_release_fn * list cm_resource)) :=
  rb ← ask;
  let rbr := mdv_rollbacker_create rb Fn_cm_rollbacker_free Res_cm_rollbacker 6 in
  m ← ask;
  if negb m then mret (inr (mdv_rollback rbr)) else
  let rbr := cm_push rbr Fn_cm_free Res_chaman in
  mutex ← ask;
  if negb mutex then mret (inr (mdv_rollback rbr)) else
  let rbr := cm_push rbr Fn_cm_mutex_free Res_cm_mutex in
  m1 ← ask; m2 ← ask;
  match mdv_hashmap_create m1 m2 4 0 136 with
  | None => mret (inr (mdv_rollback rbr))
  | Some dialers =>
      let rbr := cm_push rbr Fn_cm_hashmap_release Res_dialers in
      m1 ← ask; m2 ← ask;
      match mdv_hashmap_create m1 m2 4 0 16 with
      | None => mret (inr (mdv_rollback rbr))
      | Some channels =>
          let rbr := cm_push rbr Fn_cm_hashmap_release Res_channels in
          pool ← mdv_threadpool_create lock threads stopfd;
          match pool with
          | inr _ => mret (inr (mdv_rollback rbr))
          | inl pool =>
              let rbr := cm_push rbr Fn_cm_threadpool_free Res_cm_threadpool in
              made ← ask;
              if negb made then mret (inr (mdv_rollback rbr)) else
              let rbr := cm_push rbr Fn_timerfd_close Res_timer in
              armed ← ask;
              if negb armed then mret (inr (mdv_rollback rbr)) else
              r ← run_on pool (mdv_threadpool_add lock (Z.lor MDV_EPOLLEXCLUSIVE MDV_EPOLLIN) (timer_task timer));
              if negb r.1 then mret (inr (mdv_rollback rbr)) else
              mret (inl (mk_chaman r.2 dialers channels {[stopfd; timer]} w))
          end
      end
  end.

(** [mdv_timerfd_close] and [mdv_socket_close] close the descriptor. *)
Definition mdv_fd_close (task : ctask) : ca unit :=
  context ← lift (deref (tk_context task));
  match context.1 with
  | MDV_CT_SELECTOR | MDV_CT_LISTENER | MDV_CT_DIALER => mdv_socket_close (tk_fd task)
  | MDV_CT_RECV => mdv_socket_close (tk_fd task)
  | MDV_CT_TIMER => mdv_socket_close (tk_fd task)
  end.

Fixpoint close_all (tasks : list ctask) : ca unit :=
  match tasks with [] => mret tt | task :: tasks => mdv_fd_close task;; close_all tasks end.

Fixpoint release_channels (refs : list mdv_channel_ref) : ca unit :=
  match refs with [] => mret tt | ref :: refs => in_world (mdv_channel_release (cr_channel ref));; release_channels refs end.

(** The workers are stopped; the descriptors, the pool with its own one, and the
    channels go. *)
Definition mdv_chaman_free : ca unit :=
  s ← get;
  close_all (mdv_threadpool_foreach lock (cm_pool s));;
  mdv_socket_close (tp_stopfd (cm_pool s));;
  release_channels (mdv_hashmap_foreach (cm_channels s)).

(** ** Executions *)

(** A call of the user, or an event of a descriptor. *)
Inductive chaman_event :=
| Ev_dial (now : Z) (addr : option bytes) (type : Z)
| Ev_listen (rb : bool) (addr : option bytes)
| Ev_ready (fd events now : Z) (from : bytes).

(** The handler of a task, with the context it expects. *)
Definition run_handler (fn : mdv_handler) (task : ctask) (events now : Z) (from : bytes) : ca unit :=
  match fn, snd <$> tk_context task with
  | mdv_chaman_select_fn, Some (Ctx_selector addr dir) => mdv_chaman_select_handler events task addr dir
  | mdv_chaman_accept_fn, Some Ctx_listener => mdv_chaman_accept_handler from
  | mdv_chaman_dialer_fn, Some (Ctx_dialer addr _) => mdv_chaman_dialer_handler events (tk_fd task) addr
  | mdv_chaman_recv_fn, Some (Ctx_recv addr channel) => mdv_chaman_recv_handler events task addr channel
  | mdv_chaman_timer_fn, Some Ctx_timer => mdv_chaman_timer_handler now
  | _, _ => lift (OutOfBounds (tk_fd task))
  end.

Definition exec (e : chaman_event) : ca unit :=
  match e with
  | Ev_dial now addr type => mdv_chaman_dial now addr type;; mret tt
  | Ev_listen rb addr => mdv_chaman_listen rb addr;; mret tt
  | Ev_ready fd events now from =>
      work ← in_pool (mdv_threadpool_worker fd);
      match work with
      | Wk_call fn task => run_handler fn task events now from
      | Wk_stop | Wk_skip => mret tt
      end
  end.

End Chaman.
#[global] Arguments mdv_chaman : clear implicits.

(** ** What the manager relies on *)

(** [live]: the channels the manager has a reference of, with their identifiers. *)
Class ChannelsLaws (W : Type) `{Channels W} := {
  live : W -> gmap nat mdv_uuid;
  good : W -> Prop;
  law_handshake : forall mem fd w, good w -> wp mem (handshake fd) w (fun _ w' => good w' /\ live w' = live w);
  law_accept : forall mem fd w, good w -> wp mem (accept fd) w (fun _ w' => good w' /\ live w' = live w);
  law_create : forall mem fd type dir id w, good w -> wp mem (create_channel fd type dir id) w (fun c w' => good w' /\
    match c with Some c => live w !! c = None /\ live w' = <[c := id]> (live w) | None => live w' = live w end);
  law_recv : forall mem c id w, good w -> live w !! c = Some id -> wp mem (mdv_channel_recv c) w (fun _ w' => good w' /\ live w' = live w);
  law_id : forall mem c id w, good w -> live w !! c = Some id -> wp mem (mdv_channel_id c) w (fun x w' => x = id /\ w' = w);
  law_release : forall mem c id w, good w -> live w !! c = Some id -> wp mem (mdv_channel_release c) w (fun _ w' => good w' /\ live w' = delete c (live w))
}.

Section Laws.
Context {W : Type} `{ChannelsLaws W}.
Context (retry_interval : Z) (getaddrinfo : bytes -> option bytes -> Z + list (Z * bytes)) (mem : nat -> bool).

Abbreviation chaman := (mdv_chaman W).

(** ** The invariant *)

Inductive typed : ctask -> Prop :=
| typed_selector fd addr dir : typed (selector_task fd addr dir)
| typed_listener fd : typed (listener_task fd)
| typed_dialer fd addr type : typed (dialer_task fd addr type)
| typed_recv fd addr c : typed (recv_task fd addr c)
| typed_timer fd : typed (timer_task fd).

(** The tasks are [m].  [ex]: open descriptors without a task; [cx]: channels without a
    task; [dx]: descriptors of tasks whose channel is gone. *)
Record inv (s : chaman) (m : gmap Z ctask) (ex : gset Z) (cx : gset nat) (dx : gset Z) : Prop := {
  i_pool : pool (cm_pool s) m;
  i_open : cm_open s = dom m ∪ ex;
  i_ex : ex ## dom m;
  i_fits : forall fd, fd ∈ ex -> fits 32 fd;
  i_stop : m !! tp_stopfd (cm_pool s) = Some (stop_task (tp_stopfd (cm_pool s)));
  i_typed : forall fd t, m !! fd = Some t -> fd <> tp_stopfd (cm_pool s) -> typed t;
  i_dialers : ready dl_addr (cm_dialers s) sizeof_dialer;
  i_channels : ready cr_id (cm_channels s) sizeof_channel_ref;
  i_good : good (cm_world s);
  i_refs : forall id r, Hashmap.lookup cr_id (cm_channels s) id = Some r -> live (cm_world s) !! cr_channel r = Some id;
  i_live : forall c id, live (cm_world s) !! c = Some id -> exists r, Hashmap.lookup cr_id (cm_channels s) id = Some r /\ cr_channel r = c;
  i_recv : forall fd addr c, m !! fd = Some (recv_task fd addr c) -> fd ∉ dx -> is_Some (live (cm_world s) !! c) /\ c ∉ cx;
  i_task : forall c, is_Some (live (cm_world s) !! c) -> c ∉ cx -> exists fd addr, m !! fd = Some (recv_task fd addr c) /\ fd ∉ dx;
  i_inj : forall fd fd' addr addr' c, m !! fd = Some (recv_task fd addr c) -> m !! fd' = Some (recv_task fd' addr' c) -> fd ∉ dx -> fd' ∉ dx -> fd = fd'
}.

Lemma inv_world s m ex cx dx w : inv s m ex cx dx -> good w -> live w = live (cm_world s) -> inv (set_world s w) m ex cx dx.
Proof. intros [] Hg E. split; cbn [cm_pool cm_dialers cm_channels cm_open cm_world set_world]; rewrite ?E; done. Qed.

Lemma inv_dialers s m ex cx dx hm : inv s m ex cx dx -> ready dl_addr hm sizeof_dialer -> inv (set_dialers s hm) m ex cx dx.
Proof. intros [] Hr. by split. Qed.

Lemma inv_pool s m ex cx dx tp : inv s m ex cx dx -> pool tp m -> tp_stopfd tp = tp_stopfd (cm_pool s) -> inv (set_pool s tp) m ex cx dx.
Proof. intros [] Hp E. split; cbn [cm_pool cm_dialers cm_channels cm_open cm_world set_pool]; rewrite ?E; done. Qed.

(** A call of the user that keeps the channels. *)
Lemma world_wp {A} (f : action W A) s m ex cx dx (Q : A -> chaman -> Prop) :
  inv s m ex cx dx -> wp mem f (cm_world s) (fun _ w => good w /\ live w = live (cm_world s)) ->
  (forall a s', inv s' m ex cx dx -> cm_pool s' = cm_pool s -> cm_dialers s' = cm_dialers s -> live (cm_world s') = live (cm_world s) -> Q a s') -> wp mem (in_world f) s Q.
Proof. intros Hi Hw HQ. apply wp_zoom. eapply wp_mono; [exact Hw|]. cbn beta. intros a w [Hg E]. apply HQ; [by apply inv_world|done|done|done]. Qed.

Lemma task_fd s m ex cx dx fd t : inv s m ex cx dx -> m !! fd = Some t -> tk_fd t = fd /\ fits 32 fd.
Proof. intros Hi. apply (pl_tasks _ _ (i_pool _ _ _ _ _ Hi)). Qed.

Lemma loose_none s m fd cx dx : inv s m {[fd]} cx dx -> m !! fd = None.
Proof. intros Hi. apply not_elem_of_dom. pose proof (i_ex _ _ _ _ _ Hi) as E. clear -E. set_solver. Qed.

(** ** Descriptors *)

Lemma new_descriptor_wp s m cx dx (Q : option Z -> chaman -> Prop) :
  inv s m ∅ cx dx -> (forall fd s', m !! fd = None -> inv s' m {[fd]} cx dx -> cm_dialers s' = cm_dialers s -> Q (Some fd) s') -> Q None s -> wp mem new_descriptor s Q.
Proof.
  intros Hi HQ HN. unfold new_descriptor. do 4 wp_step. pose proof (is_fresh (cm_open s)) as Hfr. destruct Hi as [I1 I2 I3 I4 I5 I6 I7 I8 I9 I10 I11 I12 I13 I14].
  set (fd := base.fresh (cm_open s)) in *. destruct b; cbn [andb]; [|by wp_step]. destruct (Z.leb_spec 0 fd), (Z.ltb_spec fd (2 ^ 31)); cbn [andb]; [|by wp_step..].
  assert (Hd : fd ∉ dom m) by (clear -I2 Hfr; set_solver). assert (Hn : m !! fd = None) by (by apply not_elem_of_dom). wp_steps. apply HQ; [done| |done].
  split; cbn [cm_pool cm_dialers cm_channels cm_open cm_world set_open]; try done; [clear -I2; set_solver|clear -Hd; set_solver|]. intros x ->%elem_of_singleton. unfold fits. lia.
Qed.

Lemma close_wp fd s m cx dx (Q : unit -> chaman -> Prop) :
  inv s m {[fd]} cx dx -> (forall s', inv s' m ∅ cx dx -> cm_dialers s' = cm_dialers s -> Q tt s') -> wp mem (mdv_socket_close fd) s Q.
Proof.
  intros Hi HQ. unfold mdv_socket_close. do 2 wp_step. pose proof (loose_none _ _ _ _ _ Hi) as Hn. destruct Hi as [I1 I2 I3 I4 I5 I6 I7 I8 I9 I10 I11 I12 I13 I14].
  rewrite bool_decide_eq_true_2 by (clear -I2; set_solver). wp_step. apply HQ; [|done].
  split; cbn [cm_pool cm_dialers cm_channels cm_open cm_world set_open set_pool set_epoll tp_stopfd]; try done; [|clear -I2 I3; set_solver].
  apply pool_epoll; [|done]. intros x. destruct (decide (x = fd)) as [->|]; [rewrite lookup_delete_eq, Hn; naive_solver|]. rewrite lookup_delete_ne by done. apply I1.
Qed.

(** A task for a descriptor without one. *)
Lemma add_wp events task s m cx dx (Q : bool -> chaman -> Prop) :
  inv s m {[tk_fd task]} cx dx -> typed task -> (forall addr c, task <> recv_task (tk_fd task) addr c) ->
  (forall ok s', (granted mem -> ok = true) -> inv s' (if ok then <[tk_fd task := task]> m else m) (if ok then ∅ else {[tk_fd task]}) cx dx -> cm_dialers s' = cm_dialers s -> Q ok s') ->
  wp mem (in_pool (mdv_threadpool_add true events task)) s Q.
Proof.
  intros Hi Ht Hnr HQ. apply wp_zoom. pose proof (loose_none _ _ _ _ _ Hi) as Hn.
  eapply add_task_wp; [done|apply Hi|by apply (i_fits _ _ _ _ _ Hi), elem_of_singleton|done|]. intros ok tp Hok Es Hp. apply HQ; [done| |done].
  destruct ok; [|by apply inv_pool]. pose proof Hi as [I1 I2 I3 I4 I5 I6 I7 I8 I9 I10 I11 I12 I13 I14].
  assert (Hold : forall fd addr c, <[tk_fd task := task]> m !! fd = Some (recv_task fd addr c) <-> m !! fd = Some (recv_task fd addr c)).
  { intros fd addr c. rewrite lookup_insert_Some. split; [|intros E; right; split; [congruence|done]]. intros [[<- E]|[_ E]]; [by destruct (Hnr addr c)|done]. }
  split; cbn [cm_pool cm_dialers cm_channels cm_open cm_world set_pool]; rewrite ?Es; try done; [clear -I2; set_solver|..].
  - rewrite lookup_insert_ne by congruence. done.
  - intros fd t. rewrite lookup_insert_Some. intros [[<- <-]|[_ E]]; [done|]. by eapply I6.
  - intros fd addr c E%Hold. by eapply I12.
  - intros c Hc Hx. destruct (I13 c Hc Hx) as (fd & addr & E & Hd). exists fd, addr. by rewrite Hold.
  - intros fd fd' addr addr' c E%Hold E'%Hold. by eapply I14.
Qed.

(** The task of a channel without one. *)
Lemma add_recv_wp events fd addr c s m (Q : bool -> chaman -> Prop) :
  inv s m {[fd]} {[c]} ∅ -> is_Some (live (cm_world s) !! c) ->
  (forall ok s', (granted mem -> ok = true) -> (if ok then inv s' (<[fd := recv_task fd addr c]> m) ∅ ∅ ∅ else inv s' m {[fd]} {[c]} ∅ /\ live (cm_world s') = live (cm_world s)) -> cm_dialers s' = cm_dialers s -> Q ok s') ->
  wp mem (in_pool (mdv_threadpool_add true events (recv_task fd addr c))) s Q.
Proof.
  intros Hi Hc HQ. apply wp_zoom. pose proof (loose_none _ _ _ _ _ Hi) as Hn.
  eapply add_task_wp; [done|apply Hi|by apply (i_fits _ _ _ _ _ Hi), elem_of_singleton|done|]. cbn [recv_task tk_fd]. intros ok tp Hok Es Hp. apply HQ; [done| |done].
  destruct ok; [|split; [by apply inv_pool|done]]. pose proof Hi as [I1 I2 I3 I4 I5 I6 I7 I8 I9 I10 I11 I12 I13 I14].
  split; cbn [cm_pool cm_dialers cm_channels cm_open cm_world set_pool]; rewrite ?Es; try done; [clear -I2; set_solver|..].
  - rewrite lookup_insert_ne by congruence. done.
  - intros x t. rewrite lookup_insert_Some. intros [[<- <-]|[_ E]]; [constructor|]. by eapply I6.
  - intros x a y. rewrite lookup_insert_Some. intros [[<- E]|[_ E]]; [injection E as _ <-; by split|]. intros Hx. destruct (I12 _ _ _ E Hx) as [? _]. done.
  - intros y Hy _. destruct (decide (y = c)) as [->|Hne].
    + exists fd, addr. by rewrite lookup_insert_eq.
    + destruct (I13 y Hy) as (x & a & E & Hd); [by apply not_elem_of_singleton|]. exists x, a. rewrite lookup_insert_ne by congruence. done.
  - intros x x' a a' y. rewrite !lookup_insert_Some. intros [[<- E]|[_ E]] [[<- E']|[_ E']] Hd Hd'; [done|..|by eapply I14].
    + injection E as _ <-. destruct (I12 _ _ _ E') as [_ []]; [done|by apply elem_of_singleton].
    + injection E' as _ <-. destruct (I12 _ _ _ E) as [_ []]; [done|by apply elem_of_singleton].
Qed.

(** A task is removed; its descriptor is left to the caller. *)
Lemma remove_wp fd t s m cx dx (Q : bool -> chaman -> Prop) :
  inv s m ∅ cx dx -> m !! fd = Some t -> fd <> tp_stopfd (cm_pool s) -> (forall addr c, t = recv_task fd addr c -> fd ∈ dx) ->
  (forall ok s', inv s' (delete fd m) {[fd]} cx (dx ∖ {[fd]}) -> cm_dialers s' = cm_dialers s -> cm_world s' = cm_world s -> Q ok s') ->
  wp mem (in_pool (mdv_threadpool_remove true fd)) s Q.
Proof.
  intros Hi Ht Hs Hr HQ. apply wp_zoom. eapply remove_task_wp; [done|apply Hi|exact Ht|]. intros tp Es Hp. apply HQ; [|done|done].
  destruct (task_fd _ _ _ _ _ _ _ Hi Ht) as [_ Hf]. pose proof Hi as [I1 I2 I3 I4 I5 I6 I7 I8 I9 I10 I11 I12 I13 I14]. apply elem_of_dom_2 in Ht as Hdom.
  split; cbn [cm_pool cm_dialers cm_channels cm_open cm_world set_pool]; rewrite ?Es; try done.
  - rewrite I2, dom_delete_L. apply set_eq. intros x. clear -Hdom. destruct (decide (x = fd)) as [->|]; set_solver.
  - rewrite dom_delete_L. clear. set_solver.
  - by intros x ->%elem_of_singleton.
  - by rewrite lookup_delete_ne.
  - intros x y [_ E]%lookup_delete_Some. by eapply I6.
  - intros x a c [Hne E]%lookup_delete_Some Hd. eapply I12; [exact E|clear -Hd Hne; set_solver].
  - intros c Hc Hx. destruct (I13 c Hc Hx) as (x & a & E & Hd). exists x, a. rewrite lookup_delete_ne; [clear -E Hd; set_solver|]. intros <-. apply Hd, (Hr a c). congruence.
  - intros x x' a a' c [Hne E]%lookup_delete_Some [Hne' E']%lookup_delete_Some Hd Hd'. eapply I14; [exact E|exact E'|clear -Hd Hne; set_solver|clear -Hd' Hne'; set_solver].
Qed.

(** ** Dialers *)

Abbreviation dialer_at s addr := (Hashmap.lookup dl_addr (cm_dialers s) addr).

Lemma find_dialer_wp addr s m ex cx dx (Q : option mdv_dialer -> chaman -> Prop) :
  inv s m ex cx dx -> Q (dialer_at s addr) s -> wp mem (find_dialer addr) s Q.
Proof. intros Hi HQ. unfold find_dialer. wp_step. wp_step. eapply wp_lift; [by rewrite (find_lookup dl_addr _ addr (proj1 (i_dialers _ _ _ _ _ Hi)))|done]. Qed.

(** A write to a dialer of the map. *)
Lemma write_dialer_wp d s m ex cx dx (Q : unit -> chaman -> Prop) :
  inv s m ex cx dx -> dialer_at s (dl_addr d) <> None ->
  (forall s', inv s' m ex cx dx -> cm_pool s' = cm_pool s -> cm_world s' = cm_world s ->
     (forall addr, dialer_at s' addr = if (key_cmp_fn (dl_addr d) addr =? 0)%Z then Some d else dialer_at s addr) -> Q tt s') ->
  wp mem (write_dialer d) s Q.
Proof.
  intros Hi Hd HQ. unfold write_dialer. do 3 wp_step. pose proof (i_dialers _ _ _ _ _ Hi) as (Hw & Hc & Hs). destruct (write_item_spec dl_addr _ d Hw Hd) as [Hw' Hl].
  apply HQ; [|done|done|done]. apply inv_dialers; [done|]. by split_and!.
Qed.

(** The dialer of an address, if there is one, is changed. *)
Lemma touch_dialer_wp (f : mdv_dialer -> mdv_dialer) addr s m ex cx dx (Q : unit -> chaman -> Prop) :
  inv s m ex cx dx -> (forall d, dl_addr (f d) = dl_addr d) ->
  (forall s', inv s' m ex cx dx -> cm_pool s' = cm_pool s -> cm_world s' = cm_world s ->
     (forall x, na_addr x <> na_addr addr -> dialer_at s' x = dialer_at s x) -> Q tt s') ->
  wp mem (match dialer_at s addr with Some d => write_dialer (f d) | None => mret tt end) s Q.
Proof.
  intros Hi Hf HQ. pose proof (i_dialers _ _ _ _ _ Hi) as (Hw & _). destruct (dialer_at s addr) as [d|] eqn:E; [|wp_step; by apply HQ].
  destruct (lookup_elem dl_addr _ _ _ Hw E) as [Hin Hk]. apply netaddr_keq in Hk. eapply write_dialer_wp; [done| |].
  - rewrite Hf, (lookup_in dl_addr _ _ Hw Hin). done.
  - intros s' Hi' Ep Ew Hl. apply HQ; [done..|]. intros x Hx. rewrite Hl, Hf. destruct (Z.eqb_spec (key_cmp_fn (dl_addr d) x) 0) as [Hc|]; [|done].
    apply netaddr_keq in Hc. congruence.
Qed.

Lemma dialer_state_wp addr st s m ex cx dx (Q : unit -> chaman -> Prop) :
  inv s m ex cx dx -> (forall s', inv s' m ex cx dx -> (forall x, na_addr x <> na_addr addr -> dialer_at s' x = dialer_at s x) -> Q tt s') ->
  wp mem (mdv_chaman_dialer_state true addr st) s Q.
Proof.
  intros Hi HQ. unfold mdv_chaman_dialer_state. cbn [negb]. wp_step. eapply find_dialer_wp; [done|]. eapply (touch_dialer_wp (fun d => set_state d st)); [done|done|].
  intros s' Hi' _ _ Hx. by apply HQ.
Qed.

(** ** Connections *)

(** The tasks and the open descriptors belong together, and so do the channels and the
    tasks that receive. *)
Definition owned (s : chaman) : Prop := exists m, inv s m ∅ ∅ ∅.

Lemma connect_wp addr type s m (Q : mdv_errno -> chaman -> Prop) :
  inv s m ∅ ∅ ∅ -> (forall err s' m', inv s' m' ∅ ∅ ∅ -> cm_dialers s' = cm_dialers s ->
    (forall fd t, m' !! fd = Some t -> m !! fd = Some t \/ t = dialer_task fd addr type) -> Q err s') ->
  wp mem (mdv_chaman_connect true addr type) s Q.
Proof.
  intros Hi HQ. unfold mdv_chaman_connect. wp_step. eapply new_descriptor_wp; [done| |wp_step; eapply HQ; [exact Hi|done|auto]].
  intros fd s1 Hn Hi1 E1. wp_step. wp_step. destruct b; cbn [negb].
  - wp_step. eapply (add_wp _ (dialer_task fd addr type)); [exact Hi1|constructor|done|]. intros ok s2 _ Hi2 E2. cbn [tk_fd dialer_task] in Hi2. destruct ok; cbn [negb].
    + wp_step. eapply HQ; [exact Hi2|congruence|]. intros x t. rewrite lookup_insert_Some. intros [[<- <-]|[_ ?]]; auto.
    + wp_step. eapply close_wp; [exact Hi2|]. intros s3 Hi3 E3. wp_step. eapply HQ; [exact Hi3|congruence|auto].
  - do 3 wp_step. eapply close_wp; [exact Hi1|]. intros s3 Hi3 E3. wp_step. eapply HQ; [exact Hi3|congruence|auto].
Qed.

(** The address of a task. *)
Definition task_addr (t : ctask) : option bytes :=
  match snd <$> tk_context t with
  | Some (Ctx_selector addr _) | Some (Ctx_dialer addr _) | Some (Ctx_recv addr _) => Some (na_addr addr)
  | _ => None
  end.

(** The dialer of an address is as it was, and there is no new task for it. *)
Definition untouched (addr : mdv_netaddr) (s : chaman) (m : gmap Z ctask) (s' : chaman) (m' : gmap Z ctask) : Prop :=
  dialer_at s' addr = dialer_at s addr /\ forall fd t, m' !! fd = Some t -> task_addr t = Some (na_addr addr) -> m !! fd = Some t.

Lemma untouched_trans addr s m s1 m1 s2 m2 : untouched addr s m s1 m1 -> untouched addr s1 m1 s2 m2 -> untouched addr s m s2 m2.
Proof. intros [E1 H1'] [E2 H2']. split; [congruence|]. eauto. Qed.

(** The loop of the timer leaves the addresses alone whose dialers are not
    disconnected. *)
Lemma retry_wp l time s m (Q : unit -> chaman -> Prop) :
  inv s m ∅ ∅ ∅ -> (forall d, d ∈ l -> dialer_at s (dl_addr d) <> None) ->
  (forall s' m', inv s' m' ∅ ∅ ∅ -> (forall addr, (forall d, d ∈ l -> na_addr (dl_addr d) = na_addr addr -> dl_state d <> MDV_DIALER_DISCONNECTED) -> untouched addr s m s' m') -> Q tt s') ->
  wp mem (retry true retry_interval l time) s Q.
Proof.
  revert s m. induction l as [|d l IH]; intros s m Hi Hl HQ; cbn [retry]; [wp_step; apply (HQ s m Hi); by split|]. wp_step.
  assert (Hnext : forall s1 m1, inv s1 m1 ∅ ∅ ∅ -> (forall x, x ∈ l -> dialer_at s1 (dl_addr x) <> None) -> (forall addr, (na_addr (dl_addr d) = na_addr addr -> dl_state d <> MDV_DIALER_DISCONNECTED) -> untouched addr s m s1 m1) -> wp mem (retry true retry_interval l time) s1 Q).
  { intros s1 m1 Hi1 Hl1 Hu. eapply IH; [exact Hi1|exact Hl1|]. intros s2 m2 Hi2 Hu2. apply (HQ s2 m2 Hi2). intros addr Ha. eapply untouched_trans; [apply Hu, Ha; by left|]. apply Hu2. intros x Hx. apply Ha. by right. }
  destruct (bool_decide (dl_state d = MDV_DIALER_DISCONNECTED)) eqn:Ed; cbn [andb]; [|wp_step; apply (Hnext s m); [done|intros x Hx; apply Hl; by right|by split]].
  apply bool_decide_eq_true in Ed. destruct (_ <? _)%Z; [|wp_step; apply (Hnext s m); [done|intros x Hx; apply Hl; by right|by split]].
  wp_step. eapply write_dialer_wp; [done|exact (Hl d ltac:(by left))|]. intros s1 Hi1 _ _ Hl1. wp_step. eapply connect_wp; [exact Hi1|]. intros err s2 m2 Hi2 E2 Hm2. wp_step.
  apply (Hnext s2 m2); [exact Hi2| |].
  - intros x Hx. rewrite E2, Hl1. destruct (_ =? 0)%Z; [done|]. apply Hl. by right.
  - intros addr Ha. assert (Hne : na_addr (dl_addr d) <> na_addr addr) by (intros E; by apply Ha). split.
    + rewrite E2, Hl1. destruct (Z.eqb_spec (key_cmp_fn (dl_addr (set_attempt d time)) addr) 0) as [Hk|]; [|done]. by apply netaddr_keq in Hk.
    + intros fd t Et Ea. destruct (Hm2 _ _ Et) as [?| ->]; [done|]. by injection Ea.
Qed.

Lemma timer_wp now s m (Q : unit -> chaman -> Prop) :
  inv s m ∅ ∅ ∅ ->
  (forall s' m', inv s' m' ∅ ∅ ∅ -> (forall addr d, dialer_at s addr = Some d -> dl_state d <> MDV_DIALER_DISCONNECTED -> untouched addr s m s' m') -> Q tt s') ->
  wp mem (mdv_chaman_timer_handler true retry_interval now) s Q.
Proof.
  intros Hi HQ. unfold mdv_chaman_timer_handler. cbn [negb]. do 2 wp_step. pose proof (i_dialers _ _ _ _ _ Hi) as (Hw & _). eapply retry_wp; [exact Hi|intros d Hd; by rewrite (lookup_in dl_addr _ _ Hw Hd)|].
  intros s' m' Hi' Hu. apply (HQ s' m' Hi'). intros addr d Ed Hst. apply Hu. intros x Hx Ex. apply (lookup_in dl_addr _ _ Hw) in Hx.
  rewrite (lookup_keq dl_addr _ _ addr Hw) in Hx by (by apply netaddr_keq). congruence.
Qed.

(** The address is one that is resolved or refused. *)
Definition readable (addr : option bytes) : Prop := exists r, mdv_str2netaddr getaddrinfo addr = Done r.

Lemma dialer_reg_wp now netaddr type s m ex cx dx (Q : mdv_errno -> chaman -> Prop) :
  inv s m ex cx dx -> (forall err s', inv s' m ex cx dx -> cm_pool s' = cm_pool s -> (forall x, na_addr x <> na_addr netaddr -> dialer_at s' x = dialer_at s x) ->
    (dialer_at s netaddr <> None -> err = MDV_EEXIST /\ s' = s) -> Q err s') ->
  wp mem (mdv_chaman_dialer_reg true now netaddr type) s Q.
Proof.
  intros Hi HQ. unfold mdv_chaman_dialer_reg. cbn [negb]. wp_step. eapply find_dialer_wp; [done|]. destruct (dialer_at s netaddr) as [d|] eqn:E; [wp_step; by apply HQ|].
  wp_step. wp_step. wp_step. wp_step. wp_step. wp_step. wp_step. edestruct (insert_any dl_addr) as (r & hm & Ei & Hr & _ & _ & Hne & _); [exact (i_dialers _ _ _ _ _ Hi)|]. eapply wp_lift; [by rewrite Ei|]. wp_step. wp_step. wp_step.
  apply HQ; [by apply inv_dialers|done| |done]. intros x Hx. apply Hne. rewrite netaddr_keq. cbn. congruence.
Qed.

Lemma dialer_unreg_wp addr s m ex cx dx (Q : unit -> chaman -> Prop) :
  inv s m ex cx dx -> (forall s', inv s' m ex cx dx -> (forall x, na_addr x <> na_addr addr -> dialer_at s' x = dialer_at s x) -> Q tt s') ->
  wp mem (mdv_chaman_dialer_unreg true addr) s Q.
Proof.
  intros Hi HQ. unfold mdv_chaman_dialer_unreg. cbn [negb]. wp_step. wp_step. wp_step. destruct (erase_ready dl_addr _ addr _ (i_dialers _ _ _ _ _ Hi)) as (r & hm & E & Hr & Hl).
  eapply wp_lift; [by rewrite E|]. wp_step. apply HQ; [by apply inv_dialers|]. intros x Hx. cbn [cm_dialers set_dialers]. rewrite Hl.
  destruct (Z.eqb_spec (key_cmp_fn addr x) 0) as [Hk|]; [|done]. apply netaddr_keq in Hk. congruence.
Qed.

Lemma dial_wp now addr type s m (Q : Z -> chaman -> Prop) :
  inv s m ∅ ∅ ∅ -> readable addr -> (forall err s' m', inv s' m' ∅ ∅ ∅ -> (forall x, dialer_at s x <> None -> untouched x s m s' m') -> Q err s') ->
  wp mem (mdv_chaman_dial true getaddrinfo now addr type) s Q.
Proof.
  intros Hi [r Er] HQ. unfold mdv_chaman_dial. wp_step. eapply wp_lift; [exact Er|]. destruct r as [netaddr|err]; [|wp_step; apply (HQ _ _ m Hi); by split].
  wp_step. eapply dialer_reg_wp; [exact Hi|]. intros e s1 Hi1 _ Hx Hold.
  destruct (dialer_at s netaddr) as [d|] eqn:Ed; [destruct Hold as [-> ->]; [done|]; wp_step; apply (HQ _ _ m Hi); by split|].
  assert (Hne : forall x, dialer_at s x <> None -> na_addr x <> na_addr netaddr).
  { intros x Hn E. apply Hn. rewrite (lookup_keq dl_addr _ x netaddr (proj1 (i_dialers _ _ _ _ _ Hi))); [done|by apply netaddr_keq]. }
  assert (Hend : forall (err : Z) s2 m2, inv s2 m2 ∅ ∅ ∅ -> (forall x, na_addr x <> na_addr netaddr -> dialer_at s2 x = dialer_at s x) ->
    (forall fd t, m2 !! fd = Some t -> m !! fd = Some t \/ t = dialer_task fd netaddr type) -> wp mem (mret err) s2 Q).
  { intros err s2 m2 Hi2 Hd Hm. wp_step. apply (HQ _ _ m2 Hi2). intros x Hn%Hne. split; [by apply Hd|]. intros fd t Et Ea. destruct (Hm _ _ Et) as [?| ->]; [done|]. by injection Ea. }
  assert (Hc : forall s1, inv s1 m ∅ ∅ ∅ -> (forall x, na_addr x <> na_addr netaddr -> dialer_at s1 x = dialer_at s x) ->
    wp mem (err ← mdv_chaman_connect true netaddr type; (if bool_decide (err = MDV_OK) then mret (code MDV_OK) else mdv_chaman_dialer_unreg true netaddr;; mret (code err)) : action chaman Z) s1 Q).
  { clear s1 Hi1 Hx Hold. intros s1 Hi1 Hx. wp_step. eapply connect_wp; [exact Hi1|]. intros err s2 m2 Hi2 E2 Hm. case_bool_decide; [eapply Hend; [exact Hi2|intros x Hn; rewrite E2; by apply Hx|done]|].
    wp_step. eapply dialer_unreg_wp; [exact Hi2|]. intros s3 Hi3 Hx3. eapply Hend; [exact Hi3|intros x Hn; rewrite Hx3, E2 by done; by apply Hx|done]. }
  destruct e; first [by apply Hc|eapply Hend; [exact Hi1|done|auto]].
Qed.

(** ** Handlers *)

Lemma empty_minus (fd : Z) : (∅ : gset Z) ∖ {[fd]} = ∅.
Proof. set_solver. Qed.

Lemma greeting_wp fd addr dir s m (Q : bool -> chaman -> Prop) :
  inv s m {[fd]} ∅ ∅ -> (forall (failed : bool) s', (if failed then inv s' m {[fd]} ∅ ∅ else owned s') -> Q failed s') -> wp mem (greeting_failed true fd addr dir) s Q.
Proof.
  intros Hi HQ. unfold greeting_failed. wp_step. eapply world_wp; [exact Hi|apply law_handshake, Hi|]. intros err s1 Hi1 _ _ _. destruct (err =? code MDV_OK)%Z; cbn [negb]; [|wp_step; by apply HQ].
  wp_step. unfold mdv_chaman_selector_reg. wp_step. eapply (add_wp _ (selector_task fd addr dir)); [exact Hi1|constructor|done|]. intros ok s2 _ Hi2 _. wp_step. wp_step. apply HQ.
  destruct ok; cbn; [by eexists|done].
Qed.

Lemma dialer_handler_wp events fd addr type s m (Q : unit -> chaman -> Prop) :
  inv s m ∅ ∅ ∅ -> m !! fd = Some (dialer_task fd addr type) -> fd <> tp_stopfd (cm_pool s) -> has events MDV_EPOLLERR || has events MDV_EPOLLOUT = true ->
  (forall s', owned s' -> Q tt s') -> wp mem (mdv_chaman_dialer_handler true events fd addr) s Q.
Proof.
  intros Hi Ht Hs He HQ. unfold mdv_chaman_dialer_handler. wp_step. eapply remove_wp; [exact Hi|exact Ht|done|done|]. intros _ s1 Hi1 _ _. rewrite empty_minus in Hi1.
  assert (Hc : forall s, inv s (delete fd m) {[fd]} ∅ ∅ -> wp mem (mdv_socket_close fd;; mdv_chaman_dialer_state true addr MDV_DIALER_DISCONNECTED) s Q).
  { intros s2 Hi2. wp_step. eapply close_wp; [exact Hi2|]. intros s3 Hi3 _. eapply dialer_state_wp; [exact Hi3|]. intros s4 Hi4 _. apply HQ. by eexists. }
  destruct (has events MDV_EPOLLERR); [by apply Hc|]. cbn [orb] in He. rewrite He. wp_step. eapply greeting_wp; [exact Hi1|].
  intros failed s2 Hf. destruct failed; [by apply Hc|]. wp_step. by apply HQ.
Qed.

Lemma accept_handler_wp from s (Q : unit -> chaman -> Prop) : owned s -> (forall s', owned s' -> Q tt s') -> wp mem (mdv_chaman_accept_handler true from) s Q.
Proof.
  intros [m Hi] HQ. unfold mdv_chaman_accept_handler. wp_step. eapply new_descriptor_wp; [exact Hi| |wp_step; apply HQ; by eexists].
  intros fd s1 _ Hi1 _. wp_step. eapply greeting_wp; [exact Hi1|]. intros failed s2 Hf. destruct failed; [|wp_step; by apply HQ].
  eapply close_wp; [exact Hf|]. intros s3 Hi3 _. apply HQ. by eexists.
Qed.

Lemma listen_wp addr s (Q : Z -> chaman -> Prop) : owned s -> readable addr -> (forall err s', owned s' -> Q err s') -> wp mem (mdv_chaman_listen true getaddrinfo true addr) s Q.
Proof.
  intros [m Hi] [r Er] HQ. unfold mdv_chaman_listen. wp_step. eapply wp_lift; [exact Er|]. destruct r as [netaddr|err]; [|wp_step; apply HQ; by eexists].
  wp_step. eapply new_descriptor_wp; [exact Hi| |wp_step; apply HQ; by eexists]. intros fd s1 _ Hi1 _.
  assert (Hc : forall s e, inv s m {[fd]} ∅ ∅ -> wp mem (mdv_socket_close fd;; mret e) s Q).
  { intros s2 e Hi2. wp_step. eapply close_wp; [exact Hi2|]. intros s3 Hi3 _. wp_step. apply HQ. by eexists. }
  wp_step. wp_step. destruct b; cbn [negb]; [|by apply Hc]. wp_step. wp_step. destruct b; cbn [negb]; [|by apply Hc].
  wp_step. eapply (add_wp _ (listener_task fd)); [exact Hi1|constructor|done|]. intros ok s2 _ Hi2 _. destruct ok; cbn [negb]; [wp_step; apply HQ; by eexists|by apply Hc].
Qed.

(** A channel and its task are loosened, before they go. *)
Lemma loosen s m fd addr c : inv s m ∅ ∅ ∅ -> m !! fd = Some (recv_task fd addr c) -> inv s m ∅ {[c]} {[fd]}.
Proof.
  intros [I1 I2 I3 I4 I5 I6 I7 I8 I9 I10 I11 I12 I13 I14] Ht. split; try done.
  - intros x a y E Hx. destruct (I12 _ _ _ E) as [? _]; [done|]. split; [done|]. intros ->%elem_of_singleton. apply Hx, elem_of_singleton. by eapply I14.
  - intros y Hy Hne. destruct (I13 y Hy) as (x & a & E & _); [done|]. exists x, a. split; [done|]. intros ->%elem_of_singleton. apply Hne, elem_of_singleton. rewrite Ht in E. by injection E.
  - intros x x' a a' y E E' _ _. by eapply I14.
Qed.

(** A channel without a task goes. *)
Lemma drop_channel_wp id c addr s m ex dx (Q : unit -> chaman -> Prop) :
  inv s m ex {[c]} dx -> live (cm_world s) !! c = Some id ->
  (forall s', inv s' m ex ∅ dx -> tp_stopfd (cm_pool s') = tp_stopfd (cm_pool s) -> Q tt s') ->
  wp mem (drop_channel id c addr) s Q.
Proof.
  intros Hi Hc HQ. pose proof Hi as [I1 I2 I3 I4 I5 I6 I7 I8 I9 I10 I11 I12 I13 I14]. unfold drop_channel. do 3 wp_step.
  destruct (erase_ready cr_id _ id _ I8) as (r & hm & E & Hr & Hl). eapply wp_lift; [by rewrite E|]. wp_step. wp_step. wp_step. apply wp_zoom. cbn [snd cm_world set_channels].
  eapply wp_mono; [by apply (law_release mem c id)|]. cbn beta. intros _ w [Hg Ew]. set (s1 := set_world _ w).
  assert (Hsame : forall x, (key_cmp_fn id x =? 0)%Z = bool_decide (id = x)).
  { intros x. case_bool_decide as Ex; [by apply Z.eqb_eq, uuid_keq|]. apply Z.eqb_neq. intros Hk. by apply Ex, uuid_keq. }
  assert (Hi1 : inv s1 m ex ∅ dx).
  { split; cbn [cm_pool cm_dialers cm_channels cm_open cm_world set_world set_channels s1 snd]; try done; rewrite ?Ew.
    - intros x y. rewrite Hl, Hsame. case_bool_decide as Ex; [done|]. intros Hy. pose proof (I10 _ _ Hy) as Hy'. rewrite lookup_delete_ne; [done|]. intros Ec. congruence.
    - intros y x [Hne Hy]%lookup_delete_Some. destruct (I11 _ _ Hy) as (q & Hq & Eq). exists q. split; [|done]. rewrite Hl, Hsame. case_bool_decide as Ex; [|done].
      subst x. destruct (I11 _ _ Hc) as (q' & Hq' & Eq'). congruence.
    - intros x a y Ex Hx. destruct (I12 _ _ _ Ex Hx) as [Hy Hne]. split; [|done]. rewrite lookup_delete_ne; [done|]. intros ->. by apply Hne, elem_of_singleton.
    - intros y [x [Hne Hy]%lookup_delete_Some] _. apply I13; [by eexists|]. by intros ->%elem_of_singleton. }
  wp_step. eapply find_dialer_wp; [exact Hi1|]. eapply (touch_dialer_wp (fun d => set_state d MDV_DIALER_DISCONNECTED)); [exact Hi1|done|]. intros s2 Hi2 Ep _ _. apply HQ; [done|]. by rewrite Ep.
Qed.

Lemma recv_handler_wp events fd addr c s m (Q : unit -> chaman -> Prop) :
  inv s m ∅ ∅ ∅ -> m !! fd = Some (recv_task fd addr c) -> fd <> tp_stopfd (cm_pool s) -> (forall s', owned s' -> Q tt s') ->
  wp mem (mdv_chaman_recv_handler true events (recv_task fd addr c) addr c) s Q.
Proof.
  intros Hi Ht Hs HQ. destruct (i_recv _ _ _ _ _ Hi _ _ _ Ht) as [[id Hc] _]; [done|]. unfold mdv_chaman_recv_handler. wp_step. eapply world_wp; [exact Hi|by eapply law_recv; [apply Hi|exact Hc]|].
  intros err s1 Hi1 Ep _ El. rewrite <- El in Hc. rewrite <- Ep in Hs. destruct (negb _ && _); cbn [negb].
  - wp_step. apply wp_zoom. eapply rearm_task_wp; [apply Hi1|exact (ex_intro _ _ Ht)|]. intros ok tp _ Es Hp. wp_step. apply HQ. exists m. by apply inv_pool.
  - wp_step. wp_step. apply wp_zoom. eapply wp_mono; [by eapply law_id; [apply Hi1|exact Hc]|]. cbn beta. intros x w [-> ->]. assert (E1 : set_world s1 (cm_world s1) = s1) by (by destruct s1). rewrite E1.
    eapply drop_channel_wp; [by eapply loosen|done|]. intros s2 Hi2 Es2. wp_step. eapply remove_wp; [exact Hi2|exact Ht|by rewrite Es2|intros _ _ _; by apply elem_of_singleton|].
    intros _ s3 Hi3 _ _. rewrite difference_diag_L in Hi3. eapply close_wp; [exact Hi3|]. intros s4 Hi4 _. apply HQ. by eexists.
Qed.

(** The map of the channels finds the same references. *)
Lemma inv_channels s m ex cx dx hm w :
  inv s m ex cx dx -> ready cr_id hm sizeof_channel_ref -> (forall x, Hashmap.lookup cr_id hm x = Hashmap.lookup cr_id (cm_channels s) x) ->
  good w -> live w = live (cm_world s) -> inv (set_world (set_channels s hm) w) m ex cx dx.
Proof.
  intros [I1 I2 I3 I4 I5 I6 I7 I8 I9 I10 I11 I12 I13 I14] Hr Hl Hg E.
  split; cbn [cm_pool cm_dialers cm_channels cm_open cm_world set_world set_channels]; rewrite ?E; try done.
  - intros id r. rewrite Hl. apply I10.
  - intros c id Hc. destruct (I11 c id Hc) as (r & Hr' & Er). exists r. by rewrite Hl.
Qed.

(** A new channel with its reference has no task yet. *)
Lemma inv_new_channel s m ex hm w c id dialer :
  inv s m ex ∅ ∅ -> ready cr_id hm sizeof_channel_ref -> Hashmap.lookup cr_id (cm_channels s) id = None ->
  (forall x, x <> id -> Hashmap.lookup cr_id hm x = Hashmap.lookup cr_id (cm_channels s) x) -> Hashmap.lookup cr_id hm id = Some (mk_ref id c dialer) ->
  good w -> live (cm_world s) !! c = None -> live w = <[c := id]> (live (cm_world s)) -> inv (set_channels (set_world s w) hm) m ex {[c]} ∅.
Proof.
  intros [I1 I2 I3 I4 I5 I6 I7 I8 I9 I10 I11 I12 I13 I14] Hr Hno Hl Hid Hg Hc E.
  split; cbn [cm_pool cm_dialers cm_channels cm_open cm_world set_world set_channels]; rewrite ?E; try done.
  - intros x r Hx. destruct (decide (x = id)) as [->|Hne].
    + rewrite Hid in Hx. injection Hx as <-. cbn. apply lookup_insert_eq.
    + rewrite Hl in Hx by done. apply I10 in Hx. rewrite lookup_insert_ne; [done|]. congruence.
  - intros y x [[<- <-]|[Hne Hy]]%lookup_insert_Some; [by eexists|]. destruct (I11 _ _ Hy) as (r & Hx & Er). exists r. split; [|done]. rewrite Hl; [done|]. congruence.
  - intros x a y Hx Hd. destruct (I12 _ _ _ Hx Hd) as [Hy _]. assert (Hne : y <> c) by (intros ->; rewrite Hc in Hy; by destruct Hy). rewrite lookup_insert_ne by done. split; [done|by apply not_elem_of_singleton].
  - intros y Hy Hne%not_elem_of_singleton. rewrite lookup_insert_ne in Hy by done. by apply I13.
Qed.

Lemma register_channel_wp sock addr type dir id s m (Q : option nat -> chaman -> Prop) :
  inv s m {[sock]} ∅ ∅ -> (forall s', inv s' m ∅ ∅ ∅ -> Q None s') ->
  (forall c s', inv s' m {[sock]} {[c]} ∅ -> live (cm_world s') !! c = Some id -> Q (Some c) s') ->
  wp mem (register_channel sock addr type dir id) s Q.
Proof.
  intros Hi HN HS. unfold register_channel. do 3 wp_step. eapply wp_lift; [by rewrite (find_lookup cr_id _ id (proj1 (i_channels _ _ _ _ _ Hi)))|]. wp_step. eapply find_dialer_wp; [exact Hi|].
  assert (Hc : forall s1, inv s1 m {[sock]} ∅ ∅ -> wp mem (mdv_socket_close sock;; mret None) s1 Q).
  { intros s1 Hi1. wp_step. eapply close_wp; [exact Hi1|]. intros s2 Hi2 _. wp_step. by apply HN. }
  destruct (Hashmap.lookup cr_id (cm_channels s) id) as [ref|] eqn:Eref.
  - wp_step. eapply (touch_dialer_wp (fun d => set_connected d id)); [exact Hi|done|]. intros s1 Hi1 _ _ _. by apply Hc.
  - wp_step. apply wp_zoom. eapply wp_mono; [apply law_create, Hi|]. cbn beta. intros channel w [Hg Hw]. destruct channel as [c|]; cbn iota; [|apply Hc; by apply inv_world].
    destruct Hw as [Hnone Ew]. wp_step. wp_step. wp_step. wp_step. wp_step. wp_step. wp_step. cbn [cm_channels set_world].
    edestruct (insert_any cr_id) as (r & hm & Ei & Hr & Hcase & _ & Hne & Hsome & Hno & _); [exact (i_channels _ _ _ _ _ Hi)|]. eapply wp_lift; [by rewrite Ei|]. wp_step. wp_step. cbn [fst snd].
    assert (Hother : forall x, x <> id -> Hashmap.lookup cr_id hm x = Hashmap.lookup cr_id (cm_channels s) x) by (intros x Hx; apply Hne; rewrite uuid_keq; cbn; congruence).
    destruct Hcase as [-> | ->].
    + assert (Hi1 : inv (set_channels (set_world s w) hm) m {[sock]} {[c]} ∅).
      { eapply inv_new_channel; [exact Hi|done|exact Eref|done| |done|done|done]. apply Hsome; [done|]. apply uuid_keq. done. }
      wp_step. change (dialer_at s addr) with (dialer_at (set_channels (set_world s w) hm) addr). eapply (touch_dialer_wp (fun d => set_connected d id)); [exact Hi1|done|]. intros s2 Hi2 _ E2 _.
      wp_step. apply HS; [done|]. rewrite E2. cbn [cm_world set_channels set_world]. rewrite Ew. apply lookup_insert_eq.
    + wp_step. apply wp_zoom. cbn [cm_world set_channels set_world]. eapply wp_mono; [apply (law_release mem c id w Hg); rewrite Ew; apply lookup_insert_eq|]. cbn beta. intros _ w2 [Hg2 Ew2].
      apply Hc. apply (inv_channels s m {[sock]} ∅ ∅ hm w2); [done|done| |done|].
      * intros x. destruct (decide (x = id)) as [->|]; [|by apply Hother]. destruct (Hno eq_refl id) as [E|E]; [by apply uuid_keq|by rewrite Eref|done].
      * rewrite Ew2, Ew. by apply delete_insert_id.
Qed.

Lemma new_connection_wp sock addr type dir id s m (Q : unit -> chaman -> Prop) :
  inv s m {[sock]} ∅ ∅ -> (forall s', owned s' -> Q tt s') -> wp mem (mdv_chaman_new_connection true sock addr type dir id) s Q.
Proof.
  intros Hi HQ. unfold mdv_chaman_new_connection. cbn [negb]. wp_step. eapply register_channel_wp; [exact Hi|intros s1 Hi1; cbn iota; wp_step; apply HQ; by eexists|].
  intros c s1 Hi1 Hc. cbn iota. wp_step. eapply add_recv_wp; [exact Hi1|by rewrite Hc|]. intros ok s2 _ Hok _. destruct ok; [wp_step; apply HQ; by eexists|]. destruct Hok as [Hi2 El].
  wp_step. eapply drop_channel_wp; [exact Hi2|by rewrite El|]. intros s3 Hi3 _. eapply close_wp; [exact Hi3|]. intros s4 Hi4 _. apply HQ. by eexists.
Qed.

Lemma select_handler_wp events fd addr dir s m (Q : unit -> chaman -> Prop) :
  inv s m ∅ ∅ ∅ -> m !! fd = Some (selector_task fd addr dir) -> fd <> tp_stopfd (cm_pool s) -> (forall s', owned s' -> Q tt s') ->
  wp mem (mdv_chaman_select_handler true events (selector_task fd addr dir) addr dir) s Q.
Proof.
  intros Hi Ht Hs HQ. unfold mdv_chaman_select_handler. cbn [tk_fd selector_task]. wp_step. eapply world_wp; [exact Hi|apply law_accept, Hi|]. intros [[err type] id] s1 Hi1 Ep _ _. rewrite <- Ep in Hs.
  assert (Hrm : forall s2 (k : action chaman unit), inv s2 m ∅ ∅ ∅ -> fd <> tp_stopfd (cm_pool s2) -> (forall s3, inv s3 (delete fd m) {[fd]} ∅ ∅ -> wp mem k s3 Q) -> wp mem (in_pool (mdv_threadpool_remove true fd);; k) s2 Q).
  { intros s2 k Hi2 Hs2 Hk. wp_step. eapply remove_wp; [exact Hi2|exact Ht|done|done|]. intros _ s3 Hi3 _ _. rewrite empty_minus in Hi3. by apply Hk. }
  assert (Hcl : forall s2, inv s2 (delete fd m) {[fd]} ∅ ∅ -> wp mem (mdv_socket_close fd) s2 Q).
  { intros s2 Hi2. eapply close_wp; [exact Hi2|]. intros s3 Hi3 _. apply HQ. by eexists. }
  destruct (negb _ && _).
  - wp_step. apply wp_zoom. eapply rearm_task_wp; [apply Hi1|exact (ex_intro _ _ Ht)|]. intros ok tp _ Es Hp. assert (Hi2 : inv (set_pool s1 tp) m ∅ ∅ ∅) by (by apply inv_pool).
    destruct ok; [wp_step; apply HQ; by eexists|]. apply Hrm; [done| |done]. cbn. by rewrite Es.
  - apply Hrm; [done|done|]. intros s3 Hi3. destruct (err =? code MDV_OK)%Z; [|by apply Hcl]. eapply new_connection_wp; [exact Hi3|done].
Qed.

(** ** Steps *)

(** The addresses can be read and the rollbacker of a listener has memory; an event is
    one of a task, and one it waits for if it is a task that dials. *)
Definition allowed (s : chaman) (e : chaman_event) : Prop :=
  match e with
  | Ev_dial _ addr _ => readable addr
  | Ev_listen rb addr => rb = true /\ readable addr
  | Ev_ready fd events _ _ => exists t, task_at (cm_pool s) fd = Some t /\ tk_fd t = fd
      /\ (tk_fn t = Some mdv_chaman_dialer_fn -> has events MDV_EPOLLERR || has events MDV_EPOLLOUT = true)
  end.

Lemma exec_wp e s (Q : unit -> chaman -> Prop) :
  owned s -> allowed s e -> (forall s', owned s' -> Q tt s') -> wp mem (exec true retry_interval getaddrinfo e) s Q.
Proof.
  intros Ho He HQ. destruct e as [now addr type|rb addr|fd events now from]; cbn [exec].
  - destruct Ho as [m Hi]. wp_step. eapply dial_wp; [exact Hi|done|]. intros err s' m' Hi' _. wp_step. apply HQ. by exists m'.
  - destruct He as [-> He]. wp_step. apply listen_wp; [done|done|]. intros err s' Ho'. wp_step. by apply HQ.
  - destruct Ho as [m Hi]. destruct He as (t & E & Et & Hev). pose proof (proj1 (task_at_Some _ _ fd t (i_pool _ _ _ _ _ Hi)) (conj E Et)) as Ht.
    wp_step. apply wp_zoom. eapply worker_wp; [apply Hi|exact Ht|]. intros tp Es Hp. pose proof (inv_pool s m ∅ ∅ ∅ tp Hi Hp Es) as Hi'. set (s' := set_pool s tp) in *.
    destruct (Z.eqb_spec fd (tp_stopfd (cm_pool s))) as [->|Hs]; [wp_step; apply HQ; by eexists|].
    assert (Hs' : fd <> tp_stopfd (cm_pool s')) by (cbn; by rewrite Es). pose proof (i_typed _ _ _ _ _ Hi _ _ Ht Hs) as Hty. clear Hp Es. destruct Hty; cbn in Et; subst; cbn.
    + eapply select_handler_wp; done.
    + apply accept_handler_wp; [by eexists|done].
    + eapply dialer_handler_wp; [exact Hi'|exact Ht|done|by apply Hev|done].
    + eapply recv_handler_wp; done.
    + eapply timer_wp; [exact Hi'|]. intros s2 m2 Hi2 _. apply HQ. by exists m2.
Qed.

(** ** Destruction *)

Lemma close_all_wp l s (Q : unit -> chaman -> Prop) :
  NoDup (tk_fd <$> l) -> (forall t, t ∈ l -> typed t /\ tk_fd t ∈ cm_open s) ->
  (forall s', cm_open s' = cm_open s ∖ list_to_set (tk_fd <$> l) -> cm_channels s' = cm_channels s -> cm_world s' = cm_world s -> Q tt s') -> wp mem (close_all l) s Q.
Proof.
  revert s. induction l as [|t l IH]; intros s Hnd Hl HQ; cbn [close_all]; [wp_step; apply HQ; [cbn; by rewrite difference_empty_L|done|done]|].
  destruct (Hl t) as [Ht Ho]; [by left|]. rewrite fmap_cons in Hnd. apply NoDup_cons in Hnd as [Hn Hnd].
  assert (Hc : wp mem (mdv_socket_close (tk_fd t)) s (fun _ s' => wp mem (close_all l) s' Q)).
  { unfold mdv_socket_close. wp_step. wp_step. rewrite bool_decide_eq_true_2 by done. wp_step. apply IH; [done| |].
    - intros x Hx. destruct (Hl x) as [Hx1 Hx2]; [by right|]. split; [done|]. cbn. apply elem_of_difference. split; [done|]. intros E%elem_of_singleton. apply Hn. rewrite <- E. by apply list_elem_of_fmap_2.
    - intros s' E1 E2 E3. apply HQ; [|done|done]. rewrite E1. cbn. by rewrite difference_difference_l_L. }
  destruct Ht; wp_step; unfold mdv_fd_close; wp_step; (eapply wp_lift; [done|]); exact Hc.
Qed.

Lemma release_channels_wp refs s (Q : unit -> chaman -> Prop) :
  NoDup (cr_id <$> refs) -> good (cm_world s) -> (forall r, r ∈ refs -> live (cm_world s) !! cr_channel r = Some (cr_id r)) ->
  (forall s', cm_open s' = cm_open s -> (forall c id, live (cm_world s') !! c = Some id -> live (cm_world s) !! c = Some id /\ forall r, r ∈ refs -> cr_channel r <> c) -> Q tt s') ->
  wp mem (release_channels refs) s Q.
Proof.
  revert s. induction refs as [|r refs IH]; intros s Hnd Hg Hl HQ; cbn [release_channels].
  { wp_step. apply HQ; [done|]. intros c id Hc. split; [done|]. by intros r Hr%elem_of_nil. }
  rewrite fmap_cons in Hnd. apply NoDup_cons in Hnd as [Hn Hnd]. wp_step. apply wp_zoom. eapply wp_mono; [apply (law_release mem _ (cr_id r)); [done|apply Hl; by left]|]. cbn beta. intros _ w [Hg' Ew].
  apply IH; [done|done|..]; cbn [cm_world set_world cm_open].
  - intros x Hx. rewrite Ew. pose proof (Hl x ltac:(by right)) as Ex. rewrite lookup_delete_ne; [done|]. intros E. apply Hn, list_elem_of_fmap. exists x. split; [|done].
    pose proof (Hl r ltac:(by left)) as Er. rewrite E, Ex in Er. congruence.
  - intros s' Eo Hs'. apply HQ; [done|]. intros c id Hc. destruct (Hs' c id Hc) as [Hd Hr]. rewrite Ew in Hd. apply lookup_delete_Some in Hd as [Hne Hd]. split; [done|].
    intros x [->|Hx]%elem_of_cons; [done|by apply Hr].
Qed.

Lemma free_wp s (Q : unit -> chaman -> Prop) :
  owned s -> (forall s', cm_open s' = ∅ -> live (cm_world s') = ∅ -> Q tt s') -> wp mem (mdv_chaman_free true) s Q.
Proof.
  intros [m Hi] HQ. pose proof Hi as [I1 I2 I3 I4 I5 I6 I7 I8 I9 I10 I11 I12 I13 I14]. unfold mdv_chaman_free. do 3 wp_step.
  pose proof (foreach_tasks true _ _ eq_refl I1) as Hp. set (stop := tp_stopfd (cm_pool s)) in *. set (l := mdv_threadpool_foreach true (cm_pool s)) in *.
  assert (Hin : forall t, t ∈ l <-> m !! tk_fd t = Some t /\ tk_fd t <> stop).
  { intros t. rewrite Hp, list_elem_of_fmap. split.
    - intros ([fd t'] & -> & [Hne E]%elem_of_map_to_list%lookup_delete_Some). cbn. destruct (task_fd _ _ _ _ _ _ _ Hi E) as [-> _]. done.
    - intros [E Hne]. exists (tk_fd t, t). split; [done|]. by apply elem_of_map_to_list, lookup_delete_Some. }
  assert (Hfds : tk_fd <$> l ≡ₚ (map_to_list (delete stop m)).*1).
  { rewrite Hp, <- list_fmap_compose, (Forall_fmap_ext_1 (tk_fd ∘ snd) fst); [done|]. apply Forall_forall. intros [fd t] [_ E]%elem_of_map_to_list%lookup_delete_Some. cbn. by destruct (task_fd _ _ _ _ _ _ _ Hi E). }
  assert (Hset : list_to_set (tk_fd <$> l) = dom (delete stop m)).
  { rewrite Hfds. apply set_eq. intros x. rewrite elem_of_list_to_set, list_elem_of_fmap, elem_of_dom. split.
    - intros ([y t] & -> & E%elem_of_map_to_list). by exists t.
    - intros [t E]. exists (x, t). split; [done|]. by apply elem_of_map_to_list. }
  eapply close_all_wp; [rewrite Hfds; apply NoDup_fst_map_to_list|intros t [E Hne]%Hin; split; [by eapply I6|rewrite I2; apply elem_of_union_l; by apply elem_of_dom_2 in E]|].
  intros s1 Eo Ec Ew. rewrite Hset, I2, dom_delete_L in Eo. apply elem_of_dom_2 in I5. wp_step. unfold mdv_socket_close. wp_step. wp_step.
  assert (Eo1 : cm_open s1 = {[stop]}).
  { rewrite Eo. clear -I5. apply set_eq. intros x. destruct (decide (x = stop)) as [->|]; set_solver. }
  rewrite Eo1, bool_decide_eq_true_2 by (by apply elem_of_singleton). wp_step. destruct I8 as (Hw & _).
  assert (Hrefs : forall r, r ∈ mdv_hashmap_foreach (cm_channels s) -> live (cm_world s) !! cr_channel r = Some (cr_id r)) by (intros r Hr; by apply I10, (lookup_in cr_id)).
  eapply release_channels_wp; cbn [cm_world set_open set_pool cm_open]; rewrite ?Ew; [by apply (foreach_keys_nodup cr_id)|done|done|].
  intros s2 Eo2 Hl. apply HQ; [rewrite Eo2; cbn; apply difference_diag_L|]. apply map_eq. intros c. rewrite lookup_empty. destruct (live (cm_world s2) !! c) as [id|] eqn:E; [|done].
  destruct (Hl c id E) as [E1 Hno]. rewrite ?Ew in E1. destruct (I11 c id E1) as (r & Er & Erc). destruct (lookup_elem cr_id _ _ _ Hw Er) as [Hr _]. by destruct (Hno r Hr).
Qed.

(** ** Creation *)

Lemma chaman_create_wp threads stopfd timer w (Q : _ -> unit -> Prop) :
  fits 32 stopfd -> fits 32 timer -> stopfd <> timer -> good w -> live w = ∅ ->
  (forall s, owned s -> Q (inl s) tt) -> (forall l, Q (inr l) tt) -> wp mem (mdv_chaman_create true threads stopfd timer w) tt Q.
Proof.
  intros Hs Ht Hne Hg Hl HQ HQ'. unfold mdv_chaman_create. wp_step. wp_step. wp_step. wp_step. destruct b0; cbn [negb]; [|wp_step; apply HQ']. wp_step. wp_step. destruct b0; cbn [negb]; [|wp_step; apply HQ'].
  wp_step. wp_step. wp_step. wp_step. destruct (mdv_hashmap_create b0 b1 4 0 136) as [dialers|] eqn:Ed; [|wp_step; apply HQ'].
  wp_step. wp_step. wp_step. wp_step. destruct (mdv_hashmap_create b2 b3 4 0 16) as [channels|] eqn:Ec; [|wp_step; apply HQ'].
  wp_step. apply create_pool_wp; [done|done| |intros l _; wp_step; apply HQ']. intros tp Es Hp.
  wp_step. wp_step. destruct b4; cbn [negb]; [|wp_step; apply HQ']. wp_step. wp_step. destruct b4; cbn [negb]; [|wp_step; apply HQ']. wp_step. apply wp_run_on.
  eapply (add_task_wp true mem _ (timer_task timer)); [done|exact Hp|done|by apply lookup_singleton_ne|]. intros ok tp' _ Es' Hp'. destruct ok; cbn [fst snd negb]; [|wp_step; apply HQ']. wp_step. apply HQ.
  assert (Hr : forall b b' ks sz (I K : Type) (HK : HashKey K) (HO : HashKeyOk K) (key_of : I -> K) (hm : mdv_hashmap I), ks <= sz -> mdv_hashmap_create b b' 4 0 ks = Some hm -> ready key_of hm sz /\ forall k, Hashmap.lookup key_of hm k = None).
  { intros b4 b5 ks sz I K HK HO key_of hm Hle E. destruct (mdv_hashmap_create_wf key_of _ _ _ _ _ _ E) as [Hw Hlook]. split; [|done]. split; [done|].
    unfold mdv_hashmap_create in E. change (4 * (5 / 4)) with 4 in E. destruct b4, b5; cbn [negb Nat.eqb] in E; try congruence. injection E as <-. cbn. lia. }
  destruct (Hr b0 b1 136 sizeof_dialer _ _ _ _ dl_addr _ ltac:(unfold sizeof_dialer; lia) Ed) as [Hrd _]. destruct (Hr b2 b3 16 sizeof_channel_ref _ _ _ _ cr_id _ ltac:(unfold sizeof_channel_ref; lia) Ec) as [Hrc Hlc].
  exists (<[timer := timer_task timer]> {[stopfd := stop_task stopfd]}). split; cbn [cm_pool cm_dialers cm_channels cm_open cm_world]; rewrite ?Es', ?Es, ?Hl; try done.
  - rewrite dom_insert_L, dom_singleton_L, union_empty_r_L. apply (comm_L (∪)).
  - by rewrite lookup_insert_ne, lookup_singleton_eq.
  - intros fd t. rewrite lookup_insert_Some, lookup_singleton_Some. intros [[<- <-]|(_ & <- & <-)] Hx; [constructor|done].
  - intros id r. by rewrite Hlc.
  - intros fd addr c. rewrite lookup_insert_Some, lookup_singleton_Some. intros [[<- E]|(_ & <- & E)]; by inversion E.
  - intros c [id E]. by rewrite lookup_empty in E.
  - intros fd fd' addr addr' c. rewrite lookup_insert_Some, lookup_singleton_Some. intros [[<- E]|(_ & <- & E)]; by inversion E.
Qed.

(** ** Attempts without a descriptor *)

(** When the system refuses every request, the timer marks the dialers that are due and
    makes no task. *)
Lemma retry_refused_wp l time s m (Q : unit -> chaman -> Prop) :
  (forall i, mem i = false) -> inv s m ∅ ∅ ∅ -> (forall d, d ∈ l -> dialer_at s (dl_addr d) <> None) -> NoDup ((na_addr ∘ dl_addr) <$> l) ->
  (forall s', inv s' m ∅ ∅ ∅ -> (forall addr, na_addr addr ∉ (na_addr ∘ dl_addr) <$> l -> dialer_at s' addr = dialer_at s addr) ->
    (forall d, d ∈ l -> dl_state d = MDV_DIALER_DISCONNECTED -> (u64 (dl_attempt_time d + retry_interval) < time)%Z -> dialer_at s' (dl_addr d) = Some (set_attempt d time)) -> Q tt s') ->
  wp mem (retry true retry_interval l time) s Q.
Proof.
  intros Hmem. revert s. induction l as [|d l IH]; intros s Hi Hl Hnd HQ; cbn [retry]; [wp_step; apply HQ; [done|done|]; by intros d Hd%elem_of_nil|].
  rewrite fmap_cons in Hnd. apply NoDup_cons in Hnd as [Hn Hnd]. wp_step.
  assert (Hother : forall x, x ∈ l -> na_addr (dl_addr x) <> na_addr (dl_addr d)).
  { intros x Hx E. apply Hn, list_elem_of_fmap. exists x. by split. }
  assert (Hnext : forall s1 o, inv s1 m ∅ ∅ ∅ -> dialer_at s1 (dl_addr d) = o -> (forall addr, na_addr addr <> na_addr (dl_addr d) -> dialer_at s1 addr = dialer_at s addr) ->
    (dl_state d = MDV_DIALER_DISCONNECTED -> (u64 (dl_attempt_time d + retry_interval) < time)%Z -> o = Some (set_attempt d time)) -> wp mem (retry true retry_interval l time) s1 Q).
  { intros s1 o Hi1 Ho Hx Hd. apply IH; [done|intros x Hxl; rewrite Hx by (by apply Hother); apply Hl; by right|done|]. intros s2 Hi2 Hsame Hdone. apply HQ; [done|..].
    - intros addr Ha. rewrite fmap_cons in Ha. apply not_elem_of_cons in Ha as [Ha1 Ha2]. rewrite Hsame by done. by apply Hx.
    - intros x [->|Hxl]%elem_of_cons Hst Hdue; [|by apply Hdone]. rewrite Hsame by done. rewrite Ho. by apply Hd. }
  destruct (bool_decide (dl_state d = MDV_DIALER_DISCONNECTED)) eqn:Ed; cbn [andb]; [|wp_step; apply bool_decide_eq_false in Ed; by eapply Hnext].
  destruct (Z.ltb_spec (u64 (dl_attempt_time d + retry_interval)) time) as [Ht|Ht]; [|wp_step; eapply Hnext; [done|done|done|lia]].
  wp_step. eapply write_dialer_wp; [done|exact (Hl d ltac:(by left))|]. intros s1 Hi1 _ _ Hl1. wp_step. unfold mdv_chaman_connect. wp_step. unfold new_descriptor. wp_step.
  intros k. exists (mem k), (S k), s1. split; [done|]. rewrite Hmem. wp_step. wp_step. cbn [andb]. wp_step. wp_step. wp_step. eapply Hnext; [exact Hi1|reflexivity|..].
  - intros addr Ha. rewrite Hl1. destruct (Z.eqb_spec (key_cmp_fn (dl_addr (set_attempt d time)) addr) 0) as [Hk|]; [|done]. apply netaddr_keq in Hk. cbn in Hk. congruence.
  - intros _ _. rewrite Hl1. cbn [dl_addr set_attempt]. rewrite (proj2 (Z.eqb_eq _ 0)); [done|]. by apply netaddr_keq.
Qed.

End Laws.

(** ** Executions from the creation *)

Section Reached.
Context {W : Type} `{ChannelsLaws W}.
Context (retry_interval : Z) (getaddrinfo : bytes -> option bytes -> Z + list (Z * bytes)).

Inductive reached : mdv_chaman W -> Prop :=
| reached_create mem threads stopfd timer w n k s :
    fits 32 stopfd -> fits 32 timer -> stopfd <> timer -> good w -> live w = ∅ ->
    mdv_chaman_create true threads stopfd timer w mem n tt = Done (inl s, k, tt) -> reached s
| reached_step mem s e n k s' :
    reached s -> allowed getaddrinfo s e -> exec true retry_interval getaddrinfo e mem n s = Done (tt, k, s') -> reached s'.

Lemma reached_owned s : reached s -> owned s.
Proof.
  induction 1 as [mem threads stopfd timer w n k s Hs Ht Hne Hg Hl E|mem s e n k s' Hr IH He E].
  - assert (Hw : wp mem (mdv_chaman_create true threads stopfd timer w) tt (fun r _ => match r with inl s => owned s | inr _ => True end)) by (apply chaman_create_wp; auto).
    destruct (Hw n) as (a & k' & [] & E' & Ha). rewrite E in E'. by simplify_eq.
  - assert (Hw : wp mem (exec true retry_interval getaddrinfo e) s (fun _ s' => owned s')) by (by eapply exec_wp).
    destruct (Hw n) as (a & k' & s2 & E' & Ha). rewrite E in E'. by simplify_eq.
Qed.

(** C6: whatever the manager is asked to do and whatever the system answers to its calls
    and its allocations, its descriptors and channels stay accounted for.  The open
    descriptors are those of its tasks; its channels are those of the tasks that
    receive, one each, and the map of the channels finds them by their identifiers.
    Every further event is handled: no descriptor is closed and no channel is released
    twice.  The end of the manager closes every descriptor and releases every channel.
    The mutexes are locked whenever they are asked for, the rollbacker of a listener
    has memory, the addresses can be read, and the system reports events of tasks that
    exist, to a task that dials one it waits for ([allowed]). *)
Theorem mdv_chaman_owns s : reached s ->
  (forall fd, fd ∈ cm_open s <-> exists t, task_at (cm_pool s) fd = Some t /\ tk_fd t = fd)
  /\ (forall c id, live (cm_world s) !! c = Some id <->
       exists fd addr r, task_at (cm_pool s) fd = Some (recv_task fd addr c) /\ Hashmap.lookup cr_id (cm_channels s) id = Some r /\ cr_channel r = c)
  /\ (forall fd fd' addr addr' c, task_at (cm_pool s) fd = Some (recv_task fd addr c) -> task_at (cm_pool s) fd' = Some (recv_task fd' addr' c) -> fd = fd')
  /\ (forall mem e, allowed getaddrinfo s e -> wp mem (exec true retry_interval getaddrinfo e) s (fun _ s' => reached s'))
  /\ (forall mem, wp mem (mdv_chaman_free true) s (fun _ s' => cm_open s' = ∅ /\ live (cm_world s') = ∅)).
Proof.
  intros Hr. pose proof (reached_owned s Hr) as Ho. pose proof Ho as [m Hi]. pose proof (fun fd t => task_at_Some (cm_pool s) m fd t (i_pool _ _ _ _ _ Hi)) as Hat. split_and!.
  - intros fd. rewrite (i_open _ _ _ _ _ Hi), union_empty_r_L, elem_of_dom. split; intros [t Ht]; exists t; by apply Hat.
  - intros c id. split.
    + intros Hc. destruct (i_live _ _ _ _ _ Hi c id Hc) as (r & Hid & Hrc). destruct (i_task _ _ _ _ _ Hi c) as (fd & addr & Ht & _); [by rewrite Hc|done|]. exists fd, addr, r. split_and!; [|done|done]. by apply Hat.
    + intros (fd & addr & r & _ & Hid & <-). by eapply i_refs.
  - intros fd fd' addr addr' c Ht Ht'. eapply (i_inj _ _ _ _ _ Hi); [apply Hat; by split|apply Hat; by split|done|done].
  - intros mem e He k. destruct (exec_wp retry_interval getaddrinfo mem e s (fun _ _ => True) Ho He (fun _ _ => I) k) as ([] & k' & s' & E & _). exists tt, k', s'. split; [done|]. by eapply reached_step.
  - intros mem. by apply free_wp.
Qed.

(** Time passes and addresses are dialed. *)
Definition idle (s : mdv_chaman W) (e : chaman_event) : Prop :=
  match e with
  | Ev_dial _ _ _ => True
  | Ev_ready fd _ _ _ => task_at (cm_pool s) fd = Some (timer_task fd)
  | Ev_listen _ _ => False
  end.

Inductive waits (s : mdv_chaman W) : mdv_chaman W -> Prop :=
| waits_refl : waits s s
| waits_step mem s1 e n k s2 :
    waits s s1 -> idle s1 e -> allowed getaddrinfo s1 e -> exec true retry_interval getaddrinfo e mem n s1 = Done (tt, k, s2) -> waits s s2.

(** The dialer waits for a connection of which there is no task. *)
Definition abandoned (addr : mdv_netaddr) (s : mdv_chaman W) : Prop :=
  exists d m, Hashmap.lookup dl_addr (cm_dialers s) addr = Some d /\ dl_state d = MDV_DIALER_CONNECTING /\ inv s m ∅ ∅ ∅
    /\ forall fd t, m !! fd = Some t -> task_addr t <> Some (na_addr addr).

Lemma abandoned_step addr mem s e n k s' :
  abandoned addr s -> idle s e -> allowed getaddrinfo s e -> exec true retry_interval getaddrinfo e mem n s = Done (tt, k, s') -> abandoned addr s'.
Proof.
  intros (d & m & Ed & Est & Hi & Hno) Hidle He E.
  assert (Hu : forall s2 m2, inv s2 m2 ∅ ∅ ∅ -> untouched addr s m s2 m2 -> abandoned addr s2).
  { intros s2 m2 Hi2 [E2 Hm]. exists d, m2. split_and!; [by rewrite E2|done|done|]. intros fd t Et Ea. by apply (Hno fd t); [apply Hm|]. }
  assert (Hw : wp mem (exec true retry_interval getaddrinfo e) s (fun _ s' => abandoned addr s')).
  { destruct e as [now a type|rb a|fd events now from]; cbn [exec idle] in *; [| done|].
    - wp_step. eapply dial_wp; [exact Hi|done|]. intros err s2 m2 Hi2 Hx. wp_step. eapply Hu; [exact Hi2|apply Hx; by rewrite Ed].
    - pose proof (proj1 (task_at_Some _ _ fd _ (i_pool _ _ _ _ _ Hi)) (conj Hidle eq_refl)) as Ht. wp_step. apply wp_zoom. eapply worker_wp; [apply Hi|exact Ht|]. intros tp Es Hp. pose proof (inv_pool s m ∅ ∅ ∅ tp Hi Hp Es) as Hi'.
      destruct (Z.eqb_spec fd (tp_stopfd (cm_pool s))) as [->|Hs]; [wp_step; eapply Hu; [exact Hi'|by split]|]. cbn.
      eapply timer_wp; [exact Hi'|]. intros s2 m2 Hi2 Hx. eapply Hu; [exact Hi2|]. apply (Hx addr d); [exact Ed|by rewrite Est]. }
  destruct (Hw n) as (a & k' & s2 & E' & Ha). rewrite E in E'. by simplify_eq.
Qed.

(** C40: an address whose reconnection fails once is given up: when the timer finds its
    dialer disconnected and due, and the system refuses a descriptor, the
    dialer is left as one that is connecting; no later tick and no later call
    of dial makes a new attempt. *)
Theorem mdv_chaman_gives_up s d now : reached s ->
  Hashmap.lookup dl_addr (cm_dialers s) (dl_addr d) = Some d -> dl_state d = MDV_DIALER_DISCONNECTED -> (u64 (dl_attempt_time d + retry_interval) < now)%Z ->
  (forall fd t, task_at (cm_pool s) fd = Some t -> task_addr t <> Some (na_addr (dl_addr d))) ->
  forall mem, (forall i, mem i = false) -> wp mem (mdv_chaman_timer_handler true retry_interval now) s (fun _ s1 => forall s2, waits s1 s2 ->
    exists d2, Hashmap.lookup dl_addr (cm_dialers s2) (dl_addr d) = Some d2 /\ dl_state d2 = MDV_DIALER_CONNECTING
      /\ forall fd t, task_at (cm_pool s2) fd = Some t -> tk_fd t = fd -> task_addr t <> Some (na_addr (dl_addr d))).
Proof.
  intros Hr Hd Hst Hdue Hno mem Hmem. destruct (reached_owned s Hr) as [m Hi]. unfold mdv_chaman_timer_handler. cbn [negb]. do 2 wp_step. pose proof (i_dialers _ _ _ _ _ Hi) as (Hw & _).
  destruct (lookup_elem dl_addr _ _ _ Hw Hd) as [Hin _]. eapply retry_refused_wp; [done|exact Hi|intros x Hx; by rewrite (lookup_in dl_addr _ _ Hw Hx)| |].
  - pose proof (foreach_nodup dl_addr _ Hw) as Hn. clear -Hn. induction (mdv_hashmap_foreach (cm_dialers s)) as [|x l IH]; [constructor|]. destruct Hn as [Hx Hl]. rewrite fmap_cons. constructor; [|by apply IH].
    intros (y & E & Hy)%list_elem_of_fmap. rewrite Forall_forall in Hx. apply (Hx y Hy). by apply netaddr_keq.
  - intros s1 Hi1 _ Hdone s2 Hwait. assert (Ha : abandoned (dl_addr d) s2).
    { induction Hwait as [|mem' s1' e n k s2 Hwait IH Hidle He E]; [|by eapply abandoned_step].
      exists (set_attempt d now), m. split_and!; [by apply Hdone|done|done|]. intros fd t Et. apply (Hno fd). by apply (task_at_Some _ _ fd t (i_pool _ _ _ _ _ Hi)). }
    destruct Ha as (d2 & m2 & E & Est & Hi2 & Hn). exists d2. split_and!; [done|done|]. intros fd t Et Ef. eapply Hn. apply (task_at_Some _ _ fd t (i_pool _ _ _ _ _ Hi2)). by split.
Qed.

End Reached.
(** ** A table of channels *)

(** Channels as numbers of a table, and the handshakes that will arrive. *)
Record table := mk_table { tb_channels : gmap nat mdv_uuid; tb_hello : list (Z * mdv_uuid) }.

Definition answer (e : mdv_errno) : action table Z := ok ← ask; mret (if (ok : bool) then code MDV_OK else code e).

#[export] Instance table_channels : Channels table := {
  handshake _ := answer MDV_FAILED;
  accept _ :=
    w ← get;
    match tb_hello w with
    | [] => mret (code MDV_EAGAIN, 0%Z, mk_uuid 0 0)
    | (type, id) :: rest => put (mk_table (tb_channels w) rest);; mret (code MDV_OK, type, id)
    end;
  create_channel _ _ _ id :=
    ok ← ask;
    w ← get;
    let c := base.fresh (dom (tb_channels w)) in
    if (ok : bool) then put (mk_table (<[c := id]> (tb_channels w)) (tb_hello w));; mret (Some c) else mret None;
  mdv_channel_recv c := answer MDV_CLOSED;
  mdv_channel_id c := w ← get; lift (deref (tb_channels w !! c));
  mdv_channel_release c := w ← get; lift (deref (tb_channels w !! c));; put (mk_table (delete c (tb_channels w)) (tb_hello w))
}.

#[export] Program Instance table_laws : ChannelsLaws table := {
  live := tb_channels;
  good _ := True
}.
Next Obligation. intros mem fd w _. cbn. unfold answer. by wp_steps. Qed.
Next Obligation. intros mem fd w _. cbn. wp_step. wp_step. destruct (tb_hello w) as [|[type id] rest]; by wp_steps. Qed.
Next Obligation.
  intros mem fd type dir id w _. cbn. do 4 wp_step. destruct b; wp_steps; [|done]. split_and!; [done| |done]. apply not_elem_of_dom, is_fresh.
Qed.
Next Obligation. intros mem c id w _ _. cbn. unfold answer. by wp_steps. Qed.
Next Obligation. intros mem c id w _ E. cbn. wp_step. wp_step. cbn in E. by eapply wp_lift; [rewrite E|]. Qed.
Next Obligation. intros mem c id w _ E. cbn. do 3 wp_step. cbn in E. eapply wp_lift; [by rewrite E|]. by wp_step. Qed.

(** Every host has one address. *)
Definition demo_resolver (host : bytes) (port : option bytes) : Z + list (Z * bytes) := inr [(AF_INET, [2; 0; 0; 80; 10; 0; 0] ++ take 1 host ++ replicate 8 0)%Z].

(** "tcp://a:1" *)
Definition demo_addr : bytes := tcp ++ delimiter ++ [97; 58; 49]%Z.
Definition demo_netaddr : mdv_netaddr := match mdv_str2netaddr demo_resolver (Some demo_addr) with Done (inl a) => a | _ => mk_netaddr MDV_SOCK_UNKNOWN [] end.

Definition granted_all (_ : nat) : bool := true.
Definition refused_all (_ : nat) : bool := false.

Definition demo_create : mdv_chaman table + list (cm_release_fn * list cm_resource) :=
  match mdv_chaman_create true 2 3 4 (mk_table ∅ [(1%Z, mk_uuid 7 7)]) granted_all 0 tt with Done (r, _, _) => r | _ => inr [] end.

Definition demo_step (e : chaman_event) (s : mdv_chaman table) : mdv_chaman table :=
  match exec true 5 demo_resolver e granted_all 0 s with Done (_, _, s) => s | _ => s end.

Definition demo_start : mdv_chaman table := match demo_create with inl s => s | inr _ => mk_chaman (mk_threadpool 0 ∅ (mk_hashmap 0 0 0 0 0 [])) (mk_hashmap 0 0 0 0 0 []) (mk_hashmap 0 0 0 0 0 []) ∅ (mk_table ∅ []) end.

(** The manager dials an address; the connection is made and the handshake arrives. *)
Definition dialed : mdv_chaman table := demo_step (Ev_dial 100 (Some demo_addr) 1) demo_start.
Definition demo_fd : Z := base.fresh (cm_open demo_start).
Definition greeted : mdv_chaman table := demo_step (Ev_ready demo_fd MDV_EPOLLOUT 100 []) dialed.
Definition connected : mdv_chaman table := demo_step (Ev_ready demo_fd MDV_EPOLLIN 100 []) greeted.
(** Or it fails. *)
Definition failed : mdv_chaman table := demo_step (Ev_ready demo_fd MDV_EPOLLERR 100 []) dialed.

Lemma demo_reached_start : reached 5 demo_resolver demo_start.
Proof.
  eapply (reached_create _ _ granted_all 2 3 4 (mk_table ∅ [(1%Z, mk_uuid 7 7)]) 0); [done|done|done|done|done|]. vm_compute. reflexivity.
Qed.

Lemma chaman_demo_reached e s : reached 5 demo_resolver s -> allowed demo_resolver s e -> reached 5 demo_resolver (demo_step e s).
Proof.
  intros Hr He. destruct (exec_wp 5 demo_resolver granted_all e s (fun _ _ => True) (reached_owned _ _ s Hr) He (fun _ _ => I) 0) as ([] & k & s' & E & _).
  unfold demo_step. rewrite E. by eapply reached_step.
Qed.

Lemma chaman_demo_ready (s : mdv_chaman table) fd events t :
  task_at (cm_pool s) fd = Some t -> tk_fd t = fd -> has events MDV_EPOLLERR || has events MDV_EPOLLOUT = true \/ tk_fn t <> Some mdv_chaman_dialer_fn ->
  allowed demo_resolver s (Ev_ready fd events 100 []).
Proof. intros E Et He. exists t. split_and!; [done|done|]. intros Hf. by destruct He. Qed.

Lemma dialed_reached : reached 5 demo_resolver dialed.
Proof. apply chaman_demo_reached; [apply demo_reached_start|]. eexists. vm_compute. reflexivity. Qed.

Lemma greeted_reached : reached 5 demo_resolver greeted.
Proof. apply chaman_demo_reached; [apply dialed_reached|]. eapply chaman_demo_ready; [vm_compute; reflexivity|reflexivity|by left]. Qed.

Lemma connected_reached : reached 5 demo_resolver connected.
Proof. apply chaman_demo_reached; [apply greeted_reached|]. eapply chaman_demo_ready; [vm_compute; reflexivity|reflexivity|by right]. Qed.

Lemma failed_reached : reached 5 demo_resolver failed.
Proof. apply chaman_demo_reached; [apply dialed_reached|]. eapply chaman_demo_ready; [vm_compute; reflexivity|reflexivity|by left]. Qed.

Lemma mdv_chaman_owns_witness :
  map_to_list (live (cm_world connected)) = [(base.fresh (∅ : gset nat), mk_uuid 7 7)]
  /\ wp refused_all (mdv_chaman_free true) connected (fun _ s' => cm_open s' = ∅ /\ live (cm_world s') = ∅).
Proof.
  split; [vm_compute; reflexivity|]. exact (proj2 (proj2 (proj2 (proj2 (mdv_chaman_owns 5 demo_resolver connected connected_reached)))) refused_all).
Defined.

Definition failed_dialer : mdv_dialer := mk_dialer demo_netaddr MDV_DIALER_DISCONNECTED 100 (mk_uuid 0 0) 1.

Lemma failed_no_task fd t : task_at (cm_pool failed) fd = Some t -> task_addr t <> Some (na_addr (dl_addr failed_dialer)).
Proof.
  destruct (reached_owned _ _ failed failed_reached) as [m Hi]. intros E%(task_at_in _ m _ _ (i_pool _ _ _ _ _ Hi)). revert t E. apply Forall_forall.
  replace (mdv_hashmap_foreach (tp_tasks (cm_pool failed))) with [stop_task 3; timer_task 4] by (vm_compute; reflexivity). by repeat constructor.
Qed.

Lemma mdv_chaman_gives_up_witness :
  Hashmap.lookup dl_addr (cm_dialers failed) demo_netaddr = Some failed_dialer
  /\ wp refused_all (mdv_chaman_timer_handler true 5 200) failed (fun _ s1 => forall s2, waits 5 demo_resolver s1 s2 ->
       exists d2, Hashmap.lookup dl_addr (cm_dialers s2) demo_netaddr = Some d2 /\ dl_state d2 = MDV_DIALER_CONNECTING
         /\ forall fd t, task_at (cm_pool s2) fd = Some t -> tk_fd t = fd -> task_addr t <> Some (na_addr demo_netaddr)).
Proof.
  assert (E : Hashmap.lookup dl_addr (cm_dialers failed) demo_netaddr = Some failed_dialer) by (vm_compute; reflexivity). split; [exact E|].
  exact (mdv_chaman_gives_up 5 demo_resolver failed failed_dialer 200 failed_reached E eq_refl eq_refl failed_no_task refused_all (fun _ => eq_refl)).
Defined.

End Chaman.
