(* ===== verification/Conman.v ===== *)
(** * Connections of the service (src/mdv_core/mdv_conman.c)

    The manager of connections gives the manager of channels its callbacks: the
    handshake, the choice between the session of a client and the connection to a peer,
    and the creation of both.  When the topology changes it dials the nodes that have no
    link with this one. *)

From S2P Require Import Prelude Bitset Uuid Hashmap Rollbacker Binn Topology Action Msg Dispatcher User Client Nodes Threadpool Peer Netaddr Chaman.
Import Bitset Uuid Hashmap Rollbacker Binn Topology Action Msg Dispatcher User Threadpool Netaddr Chaman.
#[local] Open Scope nat_scope.
#[local] Open Scope list_scope.

Module Conman.

Abbreviation MDV_USER_CHANNEL := Client.MDV_USER_CHANNEL.
Abbreviation MDV_PEER_CHANNEL := Client.MDV_PEER_CHANNEL.
Abbreviation MDV_LOCAL_ID := Nodes.MDV_LOCAL_ID.

Section Conman.
Context {W : Type} `{Channels W}.

(** ** The state *)

(** [co_dials]: the calls of [mdv_conman_connect], with the address and the type. *)
Record mdv_conman := mk_conman {
  co_uuid : mdv_uuid;
  co_chaman : mdv_chaman W;
  co_topology : mdv_safeptr mdv_topology;
  co_dials : list (bytes * Z)
}.

Definition set_chaman (s : mdv_conman) (c : mdv_chaman W) : mdv_conman := mk_conman (co_uuid s) c (co_topology s) (co_dials s).
Definition set_conman_topology (s : mdv_conman) (p : mdv_safeptr mdv_topology) : mdv_conman := mk_conman (co_uuid s) (co_chaman s) p (co_dials s).
Definition set_dials (s : mdv_conman) (l : list (bytes * Z)) : mdv_conman := mk_conman (co_uuid s) (co_chaman s) (co_topology s) l.

(** [lock]: can the mutexes of the channel manager be locked?  [fresh]: what a new block
    holds; [is_empty]: is it the static empty topology?  [now]: the time. *)
Context (lock : bool) (getaddrinfo : bytes -> option bytes -> Z + list (Z * bytes)).
Context (fresh : nat -> list Z) (is_empty : mdv_topology -> bool) (now : Z).

Abbreviation oa := (action mdv_conman).

(** ** Callbacks of the channels *)

(** [o]: the connection. *)
Definition mdv_conman_handshake_impl (fuel : nat) (uuid : mdv_uuid) (o : sink) : outcome (sink * Z) :=
  Client.mdv_handshake_write fuel o MDV_PEER_CHANNEL uuid.

(** [i]: what arrives; [session]: the new identifier of [mdv_uuid_generate]. *)
Definition mdv_conman_accept_impl (fuel : nat) (session : mdv_uuid) (i : list rd) : outcome (list rd * Z * option (Z * mdv_uuid)) :=
  r ← Client.mdv_handshake_read fuel i;
  let '(i, err, hello) := (r : list rd * Z * option (Z * mdv_uuid)) in
  match hello with
  | Some (type, uuid) =>
      if (err =? code MDV_OK)%Z && (type =? MDV_USER_CHANNEL)%Z then Done (i, err, Some (type, session)) else Done (i, err, Some (type, uuid))
  | None => Done (i, err, None)
  end.

(** The reference that was taken is given back. *)
Definition release_current (topology : option mdv_topology) : oa unit :=
  match topology with
  | None => mret tt
  | Some t => s ← get; put (set_conman_topology s (mk_safeptr (snd (mdv_topology_release (is_empty t) (Some t)))))
  end.

(** The session of a client or the connection to a peer.  [d]: the dispatcher of the
    connection, if it is made. *)
Definition mdv_conman_channel_create_impl `{Binn} (listen : bytes) (fuel : nat) (d : option mdv_dispatcher) (o : sink)
  (channel_type : Z) (dir : mdv_channel_dir) (channel_id : mdv_uuid) : oa (option (mdv_user + Peer.mdv_peer)) :=
  if (channel_type =? MDV_USER_CHANNEL)%Z then
    locked ← ask;
    s ← get;
    let '(p, topology) := mdv_safeptr_get mdv_topology_retain locked (co_topology s) in
    put (set_conman_topology s p);;
    yes ← asks 6;
    let user := mdv_user_create (yes 0) (yes 1) (yes 2) (yes 3) (is_some d) (yes 4) (yes 5) o (co_uuid s) channel_id topology in
    release_current topology;;
    mret (match user with inl u => Some (inl u) | inr _ => None end)
  else if (channel_type =? MDV_PEER_CHANNEL)%Z then
    s ← get;
    yes ← asks 4;
    peer ← run_on tt (Peer.mdv_peer_create listen fuel (yes 0) (yes 1) d (yes 2) (yes 3) o (co_uuid s) channel_id dir);
    mret (match peer.1 with inl p => Some (inr p) | inr _ => None end)
  else mret None.

(** ** Connections *)

Definition mdv_conman_bind (rb : bool) (addr : option bytes) : oa Z :=
  zoom co_chaman set_chaman (mdv_chaman_listen lock getaddrinfo rb addr).

Definition mdv_conman_connect (addr : bytes) (type : Z) : oa Z :=
  s ← get;
  put (set_dials s (co_dials s ++ [(addr, type)]));;
  zoom co_chaman set_chaman (mdv_chaman_dial lock getaddrinfo now (Some addr) type).

(** The ends of the links of the local node. *)
Fixpoint mark_links (nodes : list mdv_toponode) (links : list mdv_topolink) (linked_nodes : mdv_bitset) : outcome mdv_bitset :=
  match links with
  | [] => Done linked_nodes
  | link :: links =>
      n0 ← at_ nodes (node0 link);
      n1 ← at_ nodes (node1 link);
      let set2 (a b : Z) :=
        r ← deref (mdv_bitset_set linked_nodes (Z.to_nat a));
        r ← deref (mdv_bitset_set r.2 (Z.to_nat b));
        Done r.2 in
      linked_nodes ← (if (n_id n0 =? MDV_LOCAL_ID)%Z then set2 (node0 link) (node1 link)
                      else if (n_id n1 =? MDV_LOCAL_ID)%Z then set2 (node1 link) (node0 link)
                      else Done linked_nodes);
      mark_links nodes links linked_nodes
  end.

(** The nodes from [i] on, of which [n] are left. *)
Fixpoint dial_unlinked (nodes : list mdv_toponode) (linked_nodes : mdv_bitset) (i n : nat) : oa unit :=
  match n with
  | 0 => mret tt
  | S n =>
      linked ← lift (deref (mdv_bitset_test linked_nodes i));
      (if (linked : bool) then mret tt
       else node ← lift (at_ nodes (Z.of_nat i)); mdv_conman_connect (n_addr node) MDV_PEER_CHANNEL;; mret tt);;
      dial_unlinked nodes linked_nodes (S i) n
  end.

Definition mdv_conman_connect_to_peers (topology : mdv_topology) : oa unit :=
  let nodes := t_nodes topology in
  let links := t_links topology in
  ok ← ask;
  match mdv_bitset_create (if (ok : bool) then Some (fresh (mdv_bitset_capacity_calc (length nodes) / 32)) else None) (length nodes) with
  | None => mret tt
  | Some linked_nodes =>
      linked_nodes ← lift (mark_links nodes links linked_nodes);
      dial_unlinked nodes linked_nodes 0 (mdv_bitset_size linked_nodes)
  end.

Definition mdv_conman_evt_topology (topology : mdv_topology) : oa mdv_errno :=
  locked ← ask;
  s ← get;
  let '(p, err, _) := mdv_safeptr_set mdv_topology_retain (fun t => snd (mdv_topology_release (is_empty t) (Some t))) locked (co_topology s) (Some topology) in
  put (set_conman_topology s p);;
  mdv_conman_connect_to_peers topology;; mret err.

(** ** Creation and destruction *)

Inductive co_release_fn := Fn_co_rollbacker_free | Fn_co_free | Fn_chaman_free | Fn_co_ebus_release | Fn_co_safeptr_free.
Inductive co_resource := Res_co_rollbacker | Res_conman | Res_co_chaman | Res_co_ebus | Res_co_topology.

Definition co_push (r : option (mdv_rollbacker co_release_fn co_resource)) (f : co_release_fn) (x : co_resource) :=
  snd (mdv_rollbacker_push r (mk_op f [x])).

Definition mdv_conman_create (threads : nat) (stopfd timer : Z) (w : W) (uuid : mdv_uuid) : action unit (mdv_conman + list (co_release_fn * list co_resource)) :=
  rb ← ask;
  let rbr := mdv_rollbacker_create rb Fn_co_rollbacker_free Res_co_rollbacker 4 in
  m ← ask;
  if negb m then mret (inr (mdv_rollback rbr)) else
  let rbr := co_push rbr Fn_co_free Res_conman in
  chaman ← mdv_chaman_create lock threads stopfd timer w;
  match chaman with
  | inr _ => mret (inr (mdv_rollback rbr))
  | inl chaman =>
      let rbr := co_push rbr Fn_chaman_free Res_co_chaman in
      let rbr := co_push rbr Fn_co_ebus_release Res_co_ebus in
      mem_ptr ← ask; mutex ← ask;
      match mdv_safeptr_create mdv_topology_retain mem_ptr mutex (Some mdv_empty_topology) with
      | None => mret (inr (mdv_rollback rbr))
      | Some topology =>
          let rbr := co_push rbr Fn_co_safeptr_free Res_co_topology in
          subscribed ← ask;
          if (subscribed : bool) then mret (inl (mk_conman uuid chaman topology [])) else mret (inr (mdv_rollback rbr))
      end
  end.

(** What is left of the topology is returned. *)
Definition mdv_conman_free : oa (option mdv_topology) :=
  zoom co_chaman set_chaman (mdv_chaman_free lock);;
  s ← get; mret (mdv_safeptr_free (fun t => snd (mdv_topology_release (is_empty t) (Some t))) (Some (co_topology s))).

End Conman.
#[global] Arguments mdv_conman : clear implicits.

(** ** The nodes that are dialed *)

(** A link of the local node has the node at place [i] as an end. *)
Definition joins_local (nodes : list mdv_toponode) (i : nat) (link : mdv_topolink) : bool :=
  match resolve nodes link with
  | Some (n0, n1, _) => ((n_id n0 =? MDV_LOCAL_ID)%Z || (n_id n1 =? MDV_LOCAL_ID)%Z) && ((node0 link =? Z.of_nat i)%Z || (node1 link =? Z.of_nat i)%Z)
  | None => false
  end.

Definition is_linked (t : mdv_topology) (i : nat) : bool := existsb (joins_local (t_nodes t) i) (t_links t).

(** The places without such a link. *)
Definition unlinked (t : mdv_topology) : list nat := filter (fun i => is_linked t i = false) (seq 0 (length (t_nodes t))).

(** The calls for nodes at places. *)
Definition dials_of (nodes : list mdv_toponode) (l : list nat) : list (bytes * Z) := (fun n => (n_addr n, MDV_PEER_CHANNEL)) <$> omap (fun i => nodes !! i) l.

Lemma filter_agree (f g : nat -> bool) (l : list nat) : (forall x, x ∈ l -> f x = g x) -> filter (fun x => f x = false) l = filter (fun x => g x = false) l.
Proof.
  induction l as [|x l IH]; intros Hl; [done|]. rewrite !filter_cons, (Hl x) by (by left). rewrite IH; [done|]. intros y Hy. apply Hl. by right.
Qed.

Lemma mark_spec2 b x y : Bitset.wf b -> x < mdv_bitset_capacity b -> y < mdv_bitset_capacity b ->
  exists b', (r ← deref (mdv_bitset_set b x); r ← deref (mdv_bitset_set r.2 y); Done r.2) = Done b' /\ Bitset.wf b' /\ bs_size b' = bs_size b /\
    forall q, bit b' q = bit b q || (x =? q) || (y =? q).
Proof.
  intros Hw Hx Hy. destruct (mdv_bitset_set_spec b x Hw Hx) as (b1 & E1 & Hw1 & Hs1 & Hb1). assert (Hy1 : y < mdv_bitset_capacity b1) by (unfold mdv_bitset_capacity in *; by rewrite Hs1).
  destruct (mdv_bitset_set_spec b1 y Hw1 Hy1) as (b2 & E2 & Hw2 & Hs2 & Hb2). exists b2. rewrite E1. cbn [deref mbind outcome_bind snd]. rewrite E2. split_and!; [done|done|congruence|].
  intros q. rewrite Hb2, Hb1. destruct (Nat.eqb_spec x q), (Nat.eqb_spec y q); repeat case_decide; try congruence; by rewrite ?orb_true_r, ?orb_false_r.
Qed.

Lemma mark_links_spec nodes links b : valid nodes links -> Bitset.wf b -> bs_size b = length nodes ->
  exists b', mark_links nodes links b = Done b' /\ Bitset.wf b' /\ bs_size b' = length nodes /\ forall q, bit b' q = bit b q || existsb (joins_local nodes q) links.
Proof.
  revert b. induction links as [|l links IH]; intros b Hv Hw Hs; [exists b; split_and!; try done; intros q; cbn; by rewrite orb_false_r|].
  destruct (Hv l) as [[[n0 n1] w] Hl]; [by left|]. pose proof Hl as Hres. apply resolve_Some in Hl as (H0 & H1 & _). cbn [mark_links]. rewrite (at_Done _ _ _ H0), (at_Done _ _ _ H1). cbn [mbind outcome_bind].
  assert (Hcap : length nodes <= mdv_bitset_capacity b) by (unfold mdv_bitset_capacity; rewrite Hs; apply size_le_capacity).
  apply lookupZ_Some in H0 as B0. apply lookupZ_Some in H1 as B1.
  assert (Hq : forall q a, (0 <= a)%Z -> (Z.to_nat a =? q) = (a =? Z.of_nat q)%Z) by (intros q a Ha; apply eq_bool_prop_intro; rewrite !Is_true_true, Nat.eqb_eq, Z.eqb_eq; lia).
  assert (Hrest : forall b1, Bitset.wf b1 -> bs_size b1 = bs_size b -> (forall q, bit b1 q = bit b q || joins_local nodes q l) ->
    exists b', mark_links nodes links b1 = Done b' /\ Bitset.wf b' /\ bs_size b' = length nodes /\ forall q, bit b' q = bit b q || existsb (joins_local nodes q) (l :: links)).
  { intros b1 Hw1 Hs1 Hb1. destruct (IH b1) as (b2 & E & Hw2 & Hs2 & Hb2); [intros x Hx; apply Hv; by right|done|congruence|]. exists b2. split_and!; [done|done|done|]. intros q. rewrite Hb2, Hb1. cbn [existsb]. by rewrite orb_assoc. }
  assert (Hj : forall q, joins_local nodes q l = ((n_id n0 =? MDV_LOCAL_ID)%Z || (n_id n1 =? MDV_LOCAL_ID)%Z) && ((node0 l =? Z.of_nat q)%Z || (node1 l =? Z.of_nat q)%Z)) by (intros q; unfold joins_local; by rewrite Hres).
  destruct (n_id n0 =? MDV_LOCAL_ID)%Z; [|destruct (n_id n1 =? MDV_LOCAL_ID)%Z]; cbn [orb andb] in Hj.
  - destruct (mark_spec2 b (Z.to_nat (node0 l)) (Z.to_nat (node1 l)) Hw ltac:(lia) ltac:(lia)) as (b1 & E & Hw1 & Hs1 & Hb1). rewrite E. cbn [mbind outcome_bind]. apply Hrest; [done|done|].
    intros q. rewrite Hb1, Hj, !Hq, orb_assoc by lia. done.
  - destruct (mark_spec2 b (Z.to_nat (node1 l)) (Z.to_nat (node0 l)) Hw ltac:(lia) ltac:(lia)) as (b1 & E & Hw1 & Hs1 & Hb1). rewrite E. cbn [mbind outcome_bind]. apply Hrest; [done|done|].
    intros q. rewrite Hb1, Hj, !Hq by lia. by destruct (bit b q), (node0 l =? Z.of_nat q)%Z, (node1 l =? Z.of_nat q)%Z.
  - apply Hrest; [done|done|]. intros q. by rewrite Hj, orb_false_r.
Qed.

Section Dials.
Context {W : Type} `{ChannelsLaws W}.
Context (retry_interval : Z) (getaddrinfo : bytes -> option bytes -> Z + list (Z * bytes)).
Context (fresh : nat -> list Z) (fresh_length : forall n, length (fresh n) = n) (is_empty : mdv_topology -> bool) (now : Z) (mem : nat -> bool).

Abbreviation conman := (mdv_conman W).

Lemma conman_connect_wp addr type s (Q : Z -> conman -> Prop) :
  reached retry_interval getaddrinfo (co_chaman s) -> readable getaddrinfo (Some addr) ->
  (forall err s', reached retry_interval getaddrinfo (co_chaman s') -> co_dials s' = co_dials s ++ [(addr, type)] -> co_topology s' = co_topology s -> Q err s') ->
  wp mem (mdv_conman_connect true getaddrinfo now addr type) s Q.
Proof.
  intros Hr Ha HQ. unfold mdv_conman_connect. wp_step. wp_step. wp_step. wp_step. apply wp_zoom. cbn [co_chaman set_dials]. intros k.
  destruct (reached_owned _ _ _ Hr) as [m Hi]. destruct (dial_wp getaddrinfo mem now (Some addr) type (co_chaman s) m (fun _ _ => True) Hi Ha (fun _ _ _ _ _ => I) k) as (err & k' & c & E & _).
  exists err, k', c. split; [done|]. apply HQ; [|done|done]. cbn. eapply (reached_step _ _ mem (co_chaman s) (Ev_dial now (Some addr) type) k k' c); [done|done|]. cbn [exec]. unfold mbind, action_bind. by rewrite E.
Qed.

Lemma dial_unlinked_wp nodes (b : mdv_bitset) i n s (Q : unit -> conman -> Prop) :
  reached retry_interval getaddrinfo (co_chaman s) -> Bitset.wf b -> i + n <= length nodes -> i + n <= mdv_bitset_capacity b ->
  (forall j node, nodes !! j = Some node -> bit b j = false -> readable getaddrinfo (Some (n_addr node))) ->
  (forall s', reached retry_interval getaddrinfo (co_chaman s') -> co_topology s' = co_topology s ->
     co_dials s' = co_dials s ++ dials_of nodes (filter (fun j => bit b j = false) (seq i n)) -> Q tt s') ->
  wp mem (dial_unlinked true getaddrinfo now nodes b i n) s Q.
Proof.
  intros Hr Hw. revert i s Hr. induction n as [|n IH]; intros i s Hr Hl Hc Ha HQ; cbn [dial_unlinked seq]; [wp_step; apply HQ; [done|done|by rewrite app_nil_r]|].
  wp_step. eapply wp_lift; [by rewrite (mdv_bitset_test_bit b i Hw) by lia|]. wp_step. cbn [seq] in HQ. setoid_rewrite filter_cons in HQ. destruct (bit b i) eqn:Eb.
  - wp_step. apply IH; [done|lia|lia|done|]. done.
  - destruct (lookup_lt_is_Some_2 nodes i) as [node Hn]; [lia|]. wp_step. eapply wp_lift; [apply at_Done; by rewrite lookupZ_nat|]. wp_step.
    apply conman_connect_wp; [done|by eapply Ha|]. intros err s1 Hr1 Ed1 Et1. wp_step. apply IH; [done|lia|lia|done|]. intros s2 Hr2 Et2 Ed2. apply HQ; [done|congruence|].
    rewrite Ed2, Ed1, <- app_assoc, decide_True by done. f_equal. unfold dials_of. cbn. by rewrite Hn.
Qed.

Lemma connect_to_peers_wp t s (Q : unit -> conman -> Prop) :
  reached retry_interval getaddrinfo (co_chaman s) -> valid (t_nodes t) (t_links t) ->
  (forall i node, t_nodes t !! i = Some node -> is_linked t i = false -> readable getaddrinfo (Some (n_addr node))) ->
  (forall s' l, reached retry_interval getaddrinfo (co_chaman s') -> co_topology s' = co_topology s -> co_dials s' = co_dials s ++ l ->
     l = dials_of (t_nodes t) (unlinked t) \/ l = [] -> (granted mem -> l = dials_of (t_nodes t) (unlinked t)) -> Q tt s') ->
  wp mem (mdv_conman_connect_to_peers true getaddrinfo fresh now t) s Q.
Proof.
  intros Hr Hv Ha HQ. unfold mdv_conman_connect_to_peers. wp_step. wp_step. destruct b; cbn [mdv_bitset_create].
  2:{ wp_step. apply (HQ s []); [done|done|by rewrite app_nil_r|by right|]. intros Hg. by specialize (Hb Hg). }
  set (b0 := mdv_bitset_fill _ false). destruct (mdv_bitset_fill_spec (mk_bitset 1 (length (t_nodes t)) (fresh (mdv_bitset_capacity_calc (length (t_nodes t)) / 32))) false (fresh_length _)) as [Hw0 Hz].
  destruct (mark_links_spec (t_nodes t) (t_links t) b0 Hv Hw0 eq_refl) as (b & E & Hw & Hs & Hbit). wp_step. eapply wp_lift; [exact E|].
  assert (Hcap : length (t_nodes t) <= mdv_bitset_capacity b) by (unfold mdv_bitset_capacity; rewrite Hs; apply size_le_capacity).
  assert (Hb' : forall q, q < length (t_nodes t) -> bit b q = is_linked t q).
  { intros q Hq. rewrite Hbit. unfold b0. rewrite Hz; [done|]. pose proof (size_le_capacity (length (t_nodes t))). unfold mdv_bitset_capacity. cbn [bs_size]. lia. }
  unfold mdv_bitset_size. rewrite Hs. apply dial_unlinked_wp; [done|done|lia|lia|..].
  - intros j node Hj Hbj. apply (Ha j); [done|]. rewrite <- Hb'; [done|]. by eapply lookup_lt_Some.
  - intros s' Hr' Et Ed. assert (Eu : filter (fun j => bit b j = false) (seq 0 (length (t_nodes t))) = unlinked t).
    { apply filter_agree. intros x [_ Hx]%elem_of_seq. apply Hb'. lia. }
    rewrite Eu in Ed. apply (HQ s' _ Hr' Et Ed); auto.
Qed.

(** C12: a change of the topology.  The manager of connections keeps the new
    topology and dials, in their order, exactly the nodes that no link joins with the
    local node, as peers; without memory for the set of nodes it dials
    none.  The manager of channels stays in a state that it reaches, so that its
    descriptors and channels are accounted for. *)
Theorem mdv_conman_dials topology s :
  reached retry_interval getaddrinfo (co_chaman s) -> valid (t_nodes topology) (t_links topology) ->
  (forall i node, t_nodes topology !! i = Some node -> is_linked topology i = false -> readable getaddrinfo (Some (n_addr node))) ->
  wp mem (mdv_conman_evt_topology true getaddrinfo fresh is_empty now topology) s (fun err s' =>
    reached retry_interval getaddrinfo (co_chaman s')
    /\ (sf_ptr (co_topology s') = Some (mdv_topology_retain topology) /\ err = MDV_OK \/ co_topology s' = co_topology s /\ err = MDV_FAILED)
    /\ (co_dials s' = co_dials s ++ dials_of (t_nodes topology) (unlinked topology) \/ co_dials s' = co_dials s)
    /\ (granted mem -> err = MDV_OK /\ co_dials s' = co_dials s ++ dials_of (t_nodes topology) (unlinked topology))).
Proof.
  intros Hr Hv Ha. unfold mdv_conman_evt_topology. wp_step. wp_step. wp_step. wp_step. destruct b; cbn [mdv_safeptr_set]; wp_step; wp_step; wp_step; (apply connect_to_peers_wp; [done|done|done|]); intros s' l Hr' Et Ed Hl Hg; wp_step; cbn in Et, Ed.
  - split_and!; [done|left; by rewrite Et|destruct Hl as [->| ->]; [by left|right; by rewrite Ed, app_nil_r]|]. intros Hgr. by rewrite Ed, (Hg Hgr).
  - split_and!; [done|right; by rewrite Et|destruct Hl as [->| ->]; [by left|right; by rewrite Ed, app_nil_r]|]. intros Hgr. by specialize (Hb Hgr).
Qed.

End Dials.

(** ** Example *)

(** The local node has the identifier zero; one node is linked with it, one with that
    node only. *)
Definition demo_topology : mdv_topology :=
  mk_topology 1 [mk_node (mk_uuid 1 0) 0 demo_addr; mk_node (mk_uuid 2 0) 1 demo_addr; mk_node (mk_uuid 3 0) 2 demo_addr]
    [mk_link 0 1 1; mk_link 1 2 1]%Z [].

Definition demo_conman (c : mdv_chaman table) : mdv_conman table := mk_conman (mk_uuid 1 0) c (mk_safeptr (Some mdv_empty_topology)) [].

Lemma mdv_conman_dials_witness :
  unlinked demo_topology = [2] /\
  wp granted_all (mdv_conman_evt_topology true demo_resolver (fun n => replicate n 7%Z) (fun _ => false) 100 demo_topology) (demo_conman demo_start) (fun err s' =>
    reached 5 demo_resolver (co_chaman s')
    /\ (sf_ptr (co_topology s') = Some (mdv_topology_retain demo_topology) /\ err = MDV_OK \/ co_topology s' = mk_safeptr (Some mdv_empty_topology) /\ err = MDV_FAILED)
    /\ (co_dials s' = [(demo_addr, MDV_PEER_CHANNEL)] \/ co_dials s' = [])
    /\ (granted granted_all -> err = MDV_OK /\ co_dials s' = [(demo_addr, MDV_PEER_CHANNEL)])).
Proof.
  split; [vm_compute; reflexivity|].
  refine (mdv_conman_dials 5 demo_resolver (fun n => replicate n 7%Z) (fun n => length_replicate n 7%Z) (fun _ => false) 100 granted_all demo_topology (demo_conman demo_start) _ _ _).
  - exact demo_reached_start.
  - intros l Hl. repeat (apply elem_of_cons in Hl as [->|Hl]; [vm_compute; by eexists|]). by apply elem_of_nil in Hl.
  - intros i node Hi _. assert (n_addr node = demo_addr) as ->; [|eexists; vm_compute; reflexivity].
    destruct i as [|[|[|i]]]; cbn in Hi; by simplify_eq.
Defined.

End Conman.
